(* ===== verification/_CoqProject ===== *)
-Q . S2P
Prelude.v
Params.v
Cmem.v
KString.v
Ulib.v
UserMem.v
Spinlock.v
Sleeplock.v
Ring.v
Bio.v
BioRefine.v
Virtio.v
VirtioInv.v
VirtioOps.v
VirtioRw.v
VirtioIntr.v
VirtioSys.v
Log.v
LogSpec.v
LogCrash.v
LogTx.v
LogSpace.v
Pipe.v
Console.v
Digits.v
KPrintf.v
UPrintf.v
Grep.v
Umalloc.v
UmallocInv.v
UmallocSpec.v
Sh.v
ShParse.v
ShGrammar.v
ShRun.v
Kalloc.v
Vm.v
VmSpace.v
VmMap.v
VmUser.v
VmMem.v
VmCopy.v
VmFree.v
VmInst.v
VmKernel.v
Fs.v
FsInv.v
FsMap.v
FsBmap.v
FsWrite.v
File.v
FsFile.v
FileWrite.v
FsDir.v
FsView.v
FsPath.v
Mkfs.v
MkfsSim.v
MkfsOps.v
MkfsImage.v
MkfsBoot.v
MkfsTree.v
Sysfile.v
Kern.v
Proc.v
Sched.v
SchedInv.v
SchedWake.v
Exec.v
Syscall.v
Trap.v
Machine.v
Devices.v
Tame.v
FileRefs.v
SysRefs.v
KernRefs.v
ProcRefs.v
LifeRefs.v
FileCounts.v
