(* ===== verification/Prelude.v ===== *)
(** * xv6-riscv: a verification library

   The program is xv6, a small Unix-like kernel for RISC-V multiprocessors
   (kernel/), with its user library and programs (user/).  This library
   translates the C of the kernel and of parts of user space into Rocq
   functions and proves what makes them correct.  Paths below are relative
   to the source tree.

   ** The program and its parts

   From the bottom up: spin locks with interrupt nesting (kernel/spinlock.c)
   and sleep locks (sleeplock.c); the page allocator (kalloc.c) and page
   tables, address spaces and copies to and from user memory (vm.c); the
   UART and console (uart.c, console.c) and both printf()s; the buffer cache
   (bio.c), the write-ahead log above it (log.c), the file system above the
   log (fs.c), the table of open files (file.c) which also holds pipes
   (pipe.c) and devices; processes, sleep and wakeup and the scheduler
   (proc.c); exec (exec.c), system calls (syscall.c, sysproc.c, sysfile.c)
   and traps (trap.c).  start.c sets up each hart and plic.c the
   interrupt controller; mkfs/mkfs.c builds the disk image on the host.

   ** How code is translated

   Prelude.v has the vocabulary.  An integer of C is a [Z]; a store to a
   typed object wraps it ([u8] ... [i64]).  Memory is a list or a map of
   bytes, with little-endian loads and stores.  A function of the kernel is
   a computation [M S A] on the state [S] of its component.  It returns
   ([Ok]), calls panic() ([Panic]), goes to sleep on a channel and can be
   resumed in any later state ([Sleep]), or loops for ever ([Diverge]).
   Code that is composed of components runs each of them on its part of the
   state through a lens ([zoom]).  The C loops are [for_range] or fixpoints
   whose fuel is computed from the data they scan, so that [Diverge] is
   reached only when the C loop would not end; the theorems about results
   show [Ok], not the absence of a wrong result.  [wake_budget] is the
   number of times a sleeping loop is resumed in one run; the theorems about
   loops that sleep hold for every budget.

   Other CPUs and processes are seen in three ways.  A lock in the state of
   a component is the view of one thread ([lock_acquire] panics when the
   thread holds it already); Spinlock.v proves mutual exclusion of the real
   code under every interleaving of any number of CPUs and that the thread
   view agrees with it.  What others do while a process sleeps is the state
   in which [Sleep] is resumed; theorems quantify over it, or constrain it
   by a rely relation ([rg]).  Sched.v interleaves the statements of
   sleep(), wakeup(), yield() and the scheduler on all CPUs.

   ** Files, components and what is proved

   Foundations.  Prelude.v: integers, bytes, the monad, lenses, locks and
   the rules for reasoning about them.  Params.v: kernel/param.h,
   memlayout.h, fs.h, stat.h, fcntl.h and the macros of riscv.h.  Cmem.v,
   KString.v (kernel/string.c) and Ulib.v (user/ulib.c): C strings and
   memory; memmove() on overlapping ranges, names in fixed-size fields.

   Locks.  Spinlock.v (kernel/spinlock.c): acquire() and release() as
   sequences of atomic actions, on any number of CPUs and in interrupt
   handlers that take the same lock; mutual exclusion, and the thread view
   of a lock.  Sleeplock.v (kernel/sleeplock.c): waiting for and owning a sleep
   lock.

   Disk.  Ring.v, Bio.v, BioRefine.v (kernel/bio.c): the list of buffers,
   and that the cache implements a map of blocks.  Virtio.v, VirtioInv.v,
   VirtioOps.v, VirtioRw.v, VirtioIntr.v, VirtioSys.v
   (kernel/virtio_disk.c, virtio.h): the driver and the device, any number
   of transfers at once; a call that returns has made its transfer, and
   every transfer is completed.  Bio.v sees a transfer as one step, which is
   what VirtioSys.v shows of it.  Log.v, LogSpec.v, LogCrash.v, LogTx.v,
   LogSpace.v (kernel/log.c): transactions are atomic under crashes at every
   block write, recovery may be interrupted, the log never overflows while
   operations and the phases of a commit interleave, and a log as large as
   the buffer cache cannot be committed.

   Characters.  Pipe.v (kernel/pipe.c): the bytes that pipewrite() and
   piperead() move.  Console.v (kernel/console.c, uart.c): line editing and
   reads by line.  Digits.v, KPrintf.v (kernel/printf.c), UPrintf.v
   (user/printf.c): numerals and format strings, equal in both but for the
   32 bits of the user's numbers.

   Memory.  UserMem.v is the interface of user memory ([UserMem]); the
   clients (pipes, console, files) are proved against it and VmInst.v gives
   the kernel's instance.  Kalloc.v (kernel/kalloc.c): free and used pages
   are a partition of RAM.  Vm.v, VmSpace.v, VmMap.v, VmUser.v, VmMem.v,
   VmCopy.v, VmFree.v, VmInst.v, VmKernel.v (kernel/vm.c): address spaces as
   maps of pages; growing, copying and freeing them, copies across pages and
   lazily allocated pages, and the kernel's own map.

   Files.  Fs.v (kernel/fs.c) runs on a view of the log and the buffer cache
   (bread(), brelse(), log_write(), begin_op() and end_op() of that file are
   this view, not kernel/bio.c and log.c, which are Bio.v and Log.v).
   FsInv.v, FsMap.v, FsBmap.v, FsWrite.v, FsFile.v: the contents of files
   under readi() and writei().  File.v (kernel/file.c) and FileWrite.v:
   write() of any length.  FsDir.v: a directory is a map from names to
   inodes, which dirlookup() looks up and dirlink() extends.  FsView.v,
   FsPath.v: namei() walks the directories of the disk.  Sysfile.v
   (kernel/sysfile.c).

   The disk image.  Mkfs.v (mkfs/mkfs.c) builds it; MkfsSim.v, MkfsOps.v and
   MkfsImage.v show that each step of mkfs keeps the image a consistent file
   system as fs.c reads it, MkfsBoot.v that the kernel reads back what mkfs
   wrote, and MkfsTree.v that it finds the files by name.

   Processes.  Kern.v puts the parts into one state; Proc.v (kernel/proc.c),
   Exec.v (kernel/exec.c), Syscall.v (kernel/syscall.c, sysproc.c) and
   Trap.v (kernel/trap.c) run on it.  Sched.v, SchedInv.v, SchedWake.v:
   sleep(), wakeup(), yield() and scheduler() statement by statement on many
   CPUs; no wakeup is lost, and a process runs on one CPU at a time.
   Tame.v, FileRefs.v, SysRefs.v, KernRefs.v, ProcRefs.v, LifeRefs.v,
   FileCounts.v: processes that enter the kernel with any trap and run in
   any order keep the reference count of every open file equal to the number
   of descriptors that name it whenever none of them is inside the kernel;
   here a process runs alone from one sleep or yield to the next.

   The machine.  Machine.v (kernel/riscv.h, start.c): the control and status
   registers of a hart; start() enters main() in supervisor mode with traps,
   interrupts, memory and the timer set up.  Devices.v (kernel/plic.c,
   uartinit() of uart.c): the registers of the interrupt controller, with
   harts that run the external branch of devintr() ([external_intr] of
   Trap.v), where no two harts serve the same interrupt, and of the UART.
   The rest of Trap.v takes plic_claim() and plic_complete() as parameters.

   User space.  Umalloc.v, UmallocInv.v, UmallocSpec.v (user/umalloc.c):
   malloc() and free().  Grep.v (user/grep.c): the matcher accepts its
   language, and grep prints the matching lines up to one too long for its
   buffer.  Sh.v, ShParse.v,
   ShGrammar.v, ShRun.v (user/sh.c): the parser accepts its grammar, and the
   descriptors of the processes a line starts.

   ** Bounds and fuel

   The tables have the sizes of Params.v, which is param.h.  Fuel is the
   length of the string, the number of pages, blocks or entries, or the
   number of bytes a loop can still move; the theorems that a call returns
   show that it is enough.  parsecmd() of the shell gets four units for each
   byte of the line and four more, since every level of the grammar looks at
   one.  intr_loop of Virtio.v has the NUM entries of the ring, free_chain
   its NUM descriptors.  A depth of three is enough for freewalk(), as a
   page table has three levels.

   ** Not modelled

   Assembly (entry.S, trampoline.S, swtch.S, kernelvec.S) saves and restores
   registers; swtch() is the change of the running process.  Memory is
   sequentially consistent: the fences of the code are points of
   interleaving.  main.c only calls the initialisation functions, which are
   modelled one by one.  Messages on the console are not kept, except where
   printf() itself is the subject.  The accesses of riscv.h to registers
   that Machine.v does not define are fields of the registers of Kern.v.  An
   interrupt taken inside the kernel is modelled in Sched.v, and as
   kerneltrap() of Trap.v on its own.  The small user programs (cat, echo,
   wc, ls, init and the like) print or make a few system calls.
   The tests (usertests.c, grind.c, forktest.c and the like) exercise the
   kernel and have no function of their own.
*)

From stdpp Require Import base numbers list gmap strings.
From Stdlib Require Import ZArith Lia.

#[global] Open Scope Z_scope.

(* ------------------------------------------------------------------ *)
(** ** Machine integers

   C's fixed-width integers are [Z] values; each store into a typed
   location is wrapped explicitly.  [uint8], [ushort], [uint] and [uint64]
   of kernel/types.h wrap modulo a power of two; [int] and [short] wrap
   into the two's complement range. *)

Definition u8 (z : Z) : Z := z mod 2 ^ 8.
Definition u16 (z : Z) : Z := z mod 2 ^ 16.
Definition u32 (z : Z) : Z := z mod 2 ^ 32.
Definition u64 (z : Z) : Z := z mod 2 ^ 64.
Definition i16 (z : Z) : Z := (z + 2 ^ 15) mod 2 ^ 16 - 2 ^ 15.
Definition i32 (z : Z) : Z := (z + 2 ^ 31) mod 2 ^ 32 - 2 ^ 31.
Definition i64 (z : Z) : Z := (z + 2 ^ 63) mod 2 ^ 64 - 2 ^ 63.

(* ------------------------------------------------------------------ *)
(** ** Bytes in memory

   A byte array is a [list Z] of values in [0, 256).  RISC-V is little
   endian: [le_get n off l] reads the [n]-byte unsigned integer at offset
   [off] and [le_put n off v l] stores [v] there. *)

Definition byte (z : Z) : Prop := 0 <= z < 256.

Fixpoint le_get (n off : nat) (l : list Z) : Z :=
  match n with
  | O => 0
  | S n' => default 0 (l !! off) + 256 * le_get n' (S off) l
  end.

Fixpoint le_put (n off : nat) (v : Z) (l : list Z) : list Z :=
  match n with
  | O => l
  | S n' => le_put n' (S off) (v / 256) (<[off := v mod 256]> l)
  end.

Definition ld16 := le_get 2.
Definition ld32 := le_get 4.
Definition ld64 := le_get 8.
Definition st16 := le_put 2.
Definition st32 := le_put 4.
Definition st64 := le_put 8.

(** [splice off src dst] is the effect of [memmove(dst + off, src, |src|)]
    on the array [dst]; [slice off n l] is the bytes [memmove] reads. *)
Definition splice (off : nat) (src dst : list Z) : list Z :=
  take off dst ++ src ++ drop (off + length src) dst.

Definition slice (off n : nat) (l : list Z) : list Z := take n (drop off l).

(** Pointwise update of a table indexed by small numbers. *)
Definition upd {A} (i : nat) (x : A) (f : nat -> A) : nat -> A :=
  fun j => if decide (j = i) then x else f j.

(* ------------------------------------------------------------------ *)
(** ** Outcomes of kernel code

   A C function that reads and writes a component's state [S] is a
   function [S -> out S A].  It returns a value, or panics, or calls
   sleep() on a channel: [Sleep c s k] is the state it leaves behind when
   it gives up the processor and the rest of the call, which runs in
   whatever state the other processes have made when wakeup() lets it
   continue.  [Diverge] is the out-of-fuel value of a loop whose recursion
   is not structural; the theorems show when it does not arise.

   A sleep channel is the address of a kernel object; the constructors
   name the objects the code sleeps on. *)

Inductive chan : Type :=
| ChSleeplock (kind : string) (i : nat)
| ChLog
| ChPipeRead (pi : Z)
| ChPipeWrite (pi : Z)
| ChProc (p : nat)
| ChTicks
| ChCons
| ChUart
| ChDiskFree
| ChDiskBuf (i : nat)
| ChYield.

#[global] Instance chan_eq_dec : EqDecision chan.
Proof. solve_decision. Defined.

Inductive out (S A : Type) : Type :=
| Ok (a : A) (s : S)
| Panic (msg : string)
| Sleep (c : chan) (s : S) (resume : S -> out S A)
| Diverge.

Arguments Ok {S A} a s.
Arguments Panic {S A} msg.
Arguments Sleep {S A} c s resume.
Arguments Diverge {S A}.

Definition M (S A : Type) : Type := S -> out S A.

Fixpoint out_bind {S A B} (f : A -> M S B) (o : out S A) : out S B :=
  match o with
  | Ok a s => f a s
  | Panic msg => Panic msg
  | Sleep c s k => Sleep c s (fun s' => out_bind f (k s'))
  | Diverge => Diverge
  end.

Definition ret {S A} (a : A) : M S A := fun s => Ok a s.
Definition bind {S A B} (m : M S A) (f : A -> M S B) : M S B :=
  fun s => out_bind f (m s).

Declare Scope kernel_scope.
Delimit Scope kernel_scope with K.
Notation "'let*' x := m 'in' k" := (bind m (fun x => k))
  (at level 10, x name, m at level 200, k at level 200)
  : kernel_scope.
Notation "m ;; k" := (bind m (fun _ => k))
  (at level 100, k at level 200, right associativity) : kernel_scope.
#[global] Open Scope kernel_scope.

Definition panic {S A} (msg : string) : M S A := fun _ => Panic msg.
Definition diverge {S A} : M S A := fun _ => Diverge.
(** An access C leaves undefined (an index past the end of an array). *)
Definition ub {S A} (what : string) : M S A := panic ("undefined behaviour: " +:+ what).
Definition gets {S A} (f : S -> A) : M S A := fun s => Ok (f s) s.
Definition modify {S} (f : S -> S) : M S unit := fun s => Ok tt (f s).
Definition yield_to {S} (c : chan) : M S unit :=
  fun s => Sleep c s (fun s' => Ok tt s').

(** [for(i = a; i < a + n; i++) body(i)] *)
Fixpoint for_range {S} (n : nat) (a : Z) (body : Z -> M S unit) : M S unit :=
  match n with
  | O => ret tt
  | Datatypes.S n' => body a ;; for_range n' (a + 1) body
  end.

(* ------------------------------------------------------------------ *)
(** ** Lenses: a component or a field of a bigger state *)

Record lens (S T : Type) : Type := Lens { lget : S -> T; lset : T -> S -> S }.
Arguments Lens {S T} lget lset.
Arguments lget {S T} l s.
Arguments lset {S T} l t s.

Definition lens_comp {S T U} (l : lens S T) (k : lens T U) : lens S U :=
  Lens (fun s => lget k (lget l s)) (fun u s => lset l (lset k u (lget l s)) s).

(** Run an operation of a component [T] inside a bigger state [S]. *)
Fixpoint out_zoom {S T A} (l : lens S T) (s : S) (o : out T A) : out S A :=
  match o with
  | Ok a t => Ok a (lset l t s)
  | Panic msg => Panic msg
  | Sleep c t k => Sleep c (lset l t s) (fun s' => out_zoom l s' (k (lget l s')))
  | Diverge => Diverge
  end.

Definition zoom {S T A} (l : lens S T) (m : M T A) : M S A :=
  fun s => out_zoom l s (m (lget l s)).

(* ------------------------------------------------------------------ *)
(** ** Locks, sleep and wakeup as one kernel thread sees them

   A spin lock in a component's state is the boolean "held by the thread
   whose call this is" (Spinlock.v relates it to the lock word and the
   owner field).  acquire() panics when the thread already holds the lock
   and release() when it does not; waiting for another CPU takes time and
   changes nothing.  sleep(chan, lk) gives the lock up, lets others run,
   and takes it again.  wakeup(chan) is recorded in a list of wake-ups, so
   that a theorem can say which sleepers a call lets continue. *)

Definition lock_acquire {S} (l : lens S bool) : M S unit :=
  fun s => if lget l s then Panic "acquire" else Ok tt (lset l true s).
Definition lock_release {S} (l : lens S bool) : M S unit :=
  fun s => if lget l s then Ok tt (lset l false s) else Panic "release".
Definition sleep_on {S} (c : chan) (l : lens S bool) : M S unit :=
  lock_release l ;; yield_to c ;; lock_acquire l.

Class Woken (S : Type) := woken : lens S (list chan).
Definition wakeup {S} `{Woken S} (c : chan) : M S unit :=
  modify (fun s => lset woken (lget woken s ++ [c]) s).

(** How many wake-ups a sleeping loop is followed through before the model
    stops it with [Diverge].  No theorem depends on its value. *)
Class WakeBudget := wake_budget : nat.

(** [while(cond) sleep(c, lk);] *)
Fixpoint sleep_while {S} (fuel : nat) (cond : S -> bool) (c : chan)
    (l : lens S bool) : M S unit :=
  let* b := gets cond in
  if b then
    match fuel with
    | O => diverge
    | Datatypes.S f => sleep_on c l ;; sleep_while f cond c l
    end
  else ret tt.

(* ------------------------------------------------------------------ *)
(** ** Weakest preconditions

   [wp m Q s]: run in [s], [m] returns (it does not panic, sleep or run
   out of fuel) and its result and final state satisfy [Q].

   [rg n G R Q o]: in an outcome that may sleep, [G c s] holds of every
   state left behind by a sleep on [c]; if the environment then moves that
   state by [R], every final result satisfies [Q]; and the model follows
   the call through at least [n] wake-ups. *)

Definition wp {S A} (m : M S A) (Q : A -> S -> Prop) (s : S) : Prop :=
  match m s with
  | Ok a s' => Q a s'
  | _ => False
  end.

Fixpoint rg {S A} (n : nat) (G : chan -> S -> Prop) (R : chan -> S -> S -> Prop)
    (Q : A -> S -> Prop) (o : out S A) : Prop :=
  match o with
  | Ok a s => Q a s
  | Panic _ => False
  | Sleep c s k => G c s /\ forall s', R c s s' -> rg (pred n) G R Q (k s')
  | Diverge => n = O
  end.

(* ------------------------------------------------------------------ *)
(** ** Lemmas: monad laws and the wp calculus *)

Create HintDb kernel.

Section wp_rules.
Context {S : Type}.


Lemma wp_ret {A} (a : A) Q (s : S) : Q a s -> wp (ret a) Q s.
Proof. done. Qed.

Lemma wp_bind {A B} (m : M S A) (f : A -> M S B) Q s :
  wp m (fun a => wp (f a) Q) s -> wp (bind m f) Q s.
Proof. unfold wp, bind. by destruct (m s). Qed.

Lemma wp_mono {A} (m : M S A) (P Q : A -> S -> Prop) s :
  wp m P s -> (forall a s', P a s' -> Q a s') -> wp m Q s.
Proof. unfold wp. destruct (m s); eauto. Qed.

Lemma wp_gets {A} (f : S -> A) (Q : A -> S -> Prop) s :
  Q (f s) s -> wp (gets f) Q s.
Proof. done. Qed.

Lemma wp_modify (f : S -> S) (Q : unit -> S -> Prop) s :
  Q tt (f s) -> wp (modify f) Q s.
Proof. done. Qed.

(** The result of a computation whose [wp] holds, as an equation. *)
Lemma wp_Ok {A} (m : M S A) Q s :
  wp m Q s -> exists a s', m s = Ok a s' /\ Q a s'.
Proof. unfold wp. destruct (m s); naive_solver. Qed.

Lemma Ok_wp {A} (m : M S A) (Q : A -> S -> Prop) s a s' :
  m s = Ok a s' -> Q a s' -> wp m Q s.
Proof. unfold wp. by intros ->. Qed.

(** A counting loop keeps an indexed invariant. *)
Lemma wp_for_range (n : nat) (a : Z) (body : Z -> M S unit)
    (I : Z -> S -> Prop) s :
  I a s ->
  (forall i s', a <= i < a + Z.of_nat n -> I i s' ->
    wp (body i) (fun _ => I (i + 1)) s') ->
  wp (for_range n a body) (fun _ => I (a + Z.of_nat n)) s.
Proof.
  revert a s. induction n as [|n IH]; intros a s Ha Hb; simpl.
  - apply wp_ret. by replace (a + Z.of_nat 0) with a by lia.
  - apply wp_bind. eapply wp_mono; [apply Hb; [lia|done]|].
    intros [] s' Hs'. replace (a + Z.of_nat (Datatypes.S n)) with (a + 1 + Z.of_nat n) by lia.
    apply IH; [done|]. intros i s'' Hi. apply Hb. lia.
Qed.

Lemma for_range_Ok (n : nat) (a : Z) (body : Z -> M S unit) (I : Z -> S -> Prop) s :
  I a s ->
  (forall i s', a <= i < a + Z.of_nat n -> I i s' ->
    exists s'', body i s' = Ok tt s'' /\ I (i + 1) s'') ->
  exists s', for_range n a body s = Ok tt s' /\ I (a + Z.of_nat n) s'.
Proof.
  intros Ha Hb. destruct (wp_Ok (for_range n a body) (fun _ => I (a + Z.of_nat n)) s) as ([] & s' & E).
  - apply wp_for_range; [done|]. intros i s' Hi HI.
    destruct (Hb i s' Hi HI) as (s'' & E & HI'). by eapply Ok_wp.
  - by exists s'.
Qed.

End wp_rules.

Lemma wp_zoom {S T A} (l : lens S T) (m : M T A) Q s :
  wp m (fun a t => Q a (lset l t s)) (lget l s) -> wp (zoom l m) Q s.
Proof. unfold wp, zoom. by destruct (m (lget l s)). Qed.

Lemma zoom_Ok {S T A} (l : lens S T) (m : M T A) s a t :
  m (lget l s) = Ok a t -> zoom l m s = Ok a (lset l t s).
Proof. unfold zoom. by intros ->. Qed.

Lemma bind_Ok {S A B} (m : M S A) (f : A -> M S B) s a s' :
  m s = Ok a s' -> bind m f s = f a s'.
Proof. unfold bind. by intros ->. Qed.

Lemma bind_Ok_inv {S A B} (m : M S A) (f : A -> M S B) s b s'' :
  bind m f s = Ok b s'' -> exists a s', m s = Ok a s' /\ f a s' = Ok b s''.
Proof. unfold bind. destruct (m s) as [a s'| | |]; try done. by exists a, s'. Qed.

Lemma wp_acquire {S} (l : lens S bool) (Q : unit -> S -> Prop) s :
  lget l s = false -> Q tt (lset l true s) -> wp (lock_acquire l) Q s.
Proof. unfold wp, lock_acquire. by intros ->. Qed.

Lemma wp_release {S} (l : lens S bool) (Q : unit -> S -> Prop) s :
  lget l s = true -> Q tt (lset l false s) -> wp (lock_release l) Q s.
Proof. unfold wp, lock_release. by intros ->. Qed.

Lemma wp_wakeup {S} `{Woken S} c (Q : unit -> S -> Prop) s :
  Q tt (lset woken (lget woken s ++ [c]) s) -> wp (wakeup c) Q s.
Proof. done. Qed.

Lemma wp_sleep_while {S} fuel (cond : S -> bool) c l (Q : unit -> S -> Prop) s :
  cond s = false -> Q tt s -> wp (sleep_while fuel cond c l) Q s.
Proof.
  intros Hc HQ. destruct fuel; simpl; apply wp_bind, wp_gets; by rewrite Hc.
Qed.

(** A sleeping loop that returns at once has found its condition false. *)
Lemma sleep_while_Ok {S} fuel (cond : S -> bool) c l s s' :
  sleep_while fuel cond c l s = Ok tt s' -> cond s = false /\ s' = s.
Proof.
  destruct fuel; simpl; unfold bind at 1; simpl; destruct (cond s) eqn:Ec; simpl; try done.
  - by intros [= ->].
  - unfold sleep_on, bind, lock_release. by destruct (lget l s).
  - by intros [= ->].
Qed.

(** Rely-guarantee outcomes compose. *)
Lemma rg_weaken {S A} n m G (R : chan -> S -> S -> Prop) (P Q : A -> S -> Prop) o :
  rg n G R P o -> (m <= n)%nat -> (forall a s, P a s -> Q a s) -> rg m G R Q o.
Proof.
  revert n m. induction o; intros n m; simpl; try done; eauto; [|lia].
  intros [? Hk] Hm ?. split; [done|]. intros s' ?. eapply H; [by apply Hk|lia|done].
Qed.

Lemma rg_mono {S A} n G (R : chan -> S -> S -> Prop) (P Q : A -> S -> Prop) o :
  rg n G R P o -> (forall a s, P a s -> Q a s) -> rg n G R Q o.
Proof. intros H HQ. by eapply rg_weaken. Qed.

Lemma rg_bind {S A B} n G (R : chan -> S -> S -> Prop) Q
    (f : A -> M S B) (o : out S A) :
  rg n G R (fun a s => rg n G R Q (f a s)) o -> rg n G R Q (out_bind f o).
Proof.
  revert n. induction o; intros n; simpl; try done. intros [? Hk]. split; [done|].
  intros s' ?. apply H. eapply rg_mono; [by apply Hk|]. intros b t Hb. simpl in Hb.
  eapply rg_weaken; [exact Hb|lia|done].
Qed.

(** A loop that sleeps while a condition holds: it sleeps only in states
    where the condition holds, with the lock given up, and comes back with
    the lock taken and the condition false. *)
Lemma rg_sleep_while {S} G R fuel (cond : S -> bool) c (l : lens S bool)
    (I : S -> Prop) s :
  I s -> lget l s = true ->
  (forall s, I s -> cond s = true -> lget l s = true ->
    G c (lset l false s) /\
    forall s', R c (lset l false s) s' ->
      lget l s' = false /\ I (lset l true s') /\ lget l (lset l true s') = true) ->
  rg fuel G R (fun _ s' => I s' /\ cond s' = false /\ lget l s' = true)
    (sleep_while fuel cond c l s).
Proof.
  intros HI Hl Hstep. revert s HI Hl.
  induction fuel as [|fuel IH]; intros s HI Hl; simpl; unfold bind at 1; simpl;
    destruct (cond s) eqn:Ec; simpl; try done.
  unfold sleep_on, bind, lock_release, yield_to, lock_acquire. rewrite Hl. simpl.
  destruct (Hstep s HI Ec Hl) as [? Hs]. split; [done|]. intros s' Hr.
  destruct (Hs s' Hr) as (-> & ? & ?). simpl. by apply IH.
Qed.

(** [lia] for goals with division and remainder by constants. *)
Ltac divlia := Z.to_euclidean_division_equations; lia.

(** A concrete list of bytes. *)
Ltac bytes := repeat (apply Forall_cons; split; [unfold byte; lia|]); apply Forall_nil_2.

(** One step of symbolic execution of monadic code. *)
Ltac wp_step :=
  lazymatch goal with
  | |- wp (bind _ _) _ _ => apply wp_bind
  | |- wp (ret _) _ _ => apply wp_ret
  | |- wp (gets _) _ _ => apply wp_gets
  | |- wp (modify _) _ _ => apply wp_modify
  end.
Ltac wp_steps := repeat (wp_step; cbn beta).

(* ------------------------------------------------------------------ *)
(** ** Lemmas: tables and integers *)

Lemma upd_eq {A} i (x : A) f : upd i x f i = x.
Proof. unfold upd. by rewrite decide_True. Qed.
Lemma upd_ne {A} i j (x : A) f : j <> i -> upd i x f j = f j.
Proof. intros. unfold upd. by rewrite decide_False. Qed.


Lemma alter_twice {A} (f g : A -> A) (i : nat) (l : list A) :
  alter f i (alter g i l) = alter (fun x => f (g x)) i l.
Proof. apply list_alter_alter_eq. Qed.

Lemma u8_range z : 0 <= u8 z < 2 ^ 8.
Proof. apply Z.mod_pos_bound. lia. Qed.
Lemma u16_range z : 0 <= u16 z < 2 ^ 16.
Proof. apply Z.mod_pos_bound. lia. Qed.
Lemma u32_range z : 0 <= u32 z < 2 ^ 32.
Proof. apply Z.mod_pos_bound. lia. Qed.
Lemma u64_range z : 0 <= u64 z < 2 ^ 64.
Proof. apply Z.mod_pos_bound. lia. Qed.
Lemma u16_small z : 0 <= z < 2 ^ 16 -> u16 z = z.
Proof. apply Z.mod_small. Qed.
Lemma u32_small z : 0 <= z < 2 ^ 32 -> u32 z = z.
Proof. apply Z.mod_small. Qed.
Lemma u64_small z : 0 <= z < 2 ^ 64 -> u64 z = z.
Proof. apply Z.mod_small. Qed.
Lemma i32_small z : - 2 ^ 31 <= z < 2 ^ 31 -> i32 z = z.
Proof. intros. unfold i32. rewrite Z.mod_small; lia. Qed.
Lemma i16_small z : - 2 ^ 15 <= z < 2 ^ 15 -> i16 z = z.
Proof. intros. unfold i16. rewrite Z.mod_small; lia. Qed.
Lemma i32_range z : - 2 ^ 31 <= i32 z < 2 ^ 31.
Proof. unfold i32. pose proof (Z.mod_pos_bound (z + 2 ^ 31) (2 ^ 32)). lia. Qed.

#[export] Hint Resolve u8_range u16_range u32_range u64_range : kernel.

(* ------------------------------------------------------------------ *)
(** ** Lemmas: little-endian loads and stores *)

Lemma length_le_put n off v l : length (le_put n off v l) = length l.
Proof.
  revert off v l. induction n as [|n IH]; intros; simpl; [done|].
  by rewrite IH, length_insert.
Qed.

Lemma le_put_lookup_ne n off v l i :
  (i < off \/ off + n <= i)%nat -> le_put n off v l !! i = l !! i.
Proof.
  revert off v l. induction n as [|n IH]; intros off v l Hi; simpl; [done|].
  rewrite IH by lia. by rewrite list_lookup_insert_ne by lia.
Qed.

Lemma le_get_ext n off l1 l2 :
  (forall i, (off <= i < off + n)%nat -> l1 !! i = l2 !! i) ->
  le_get n off l1 = le_get n off l2.
Proof.
  revert off. induction n as [|n IH]; intros off H; simpl; [done|].
  rewrite (H off) by lia. rewrite (IH (S off)); [done|]. intros. apply H. lia.
Qed.

Lemma le_get_put_ne n m off off' v l :
  (off + n <= off' \/ off' + m <= off)%nat ->
  le_get n off (le_put m off' v l) = le_get n off l.
Proof. intros. apply le_get_ext. intros. apply le_put_lookup_ne. lia. Qed.

Lemma le_get_put n off v l :
  (off + n <= length l)%nat ->
  le_get n off (le_put n off v l) = v mod 256 ^ Z.of_nat n.
Proof.
  revert off v l. induction n as [|n IH]; intros off v l Hl; simpl.
  - by rewrite Z.mod_1_r.
  - rewrite le_put_lookup_ne by lia.
    rewrite list_lookup_insert_eq by lia. simpl.
    rewrite IH by (rewrite length_insert; lia).
    replace (Z.of_nat (S n)) with (Z.of_nat n + 1) by lia.
    rewrite Z.pow_add_r, Z.pow_1_r, (Z.mul_comm (256 ^ _)) by lia.
    rewrite Z.rem_mul_r by lia. done.
Qed.

Lemma le_get_range n off l :
  Forall byte l -> 0 <= le_get n off l < 256 ^ Z.of_nat n.
Proof.
  intros Hl. revert off. induction n as [|n IH]; intros off; simpl; [lia|].
  specialize (IH (S off)).
  assert (0 <= default 0 (l !! off) < 256).
  { destruct (l !! off) eqn:E; simpl; [|lia]. by eapply Forall_lookup_1 in Hl. }
  replace (Z.of_nat (S n)) with (1 + Z.of_nat n) by lia.
  rewrite Z.pow_add_r by lia. lia.
Qed.

Lemma le_put_byte n off v l : Forall byte l -> Forall byte (le_put n off v l).
Proof.
  revert off v l. induction n as [|n IH]; intros off v l H; simpl; [done|].
  apply IH, Forall_insert; [done|]. split; [|apply Z.mod_pos_bound; lia].
  by apply Z.mod_pos_bound.
Qed.

Lemma ld32_st32 off v l :
  (off + 4 <= length l)%nat -> ld32 off (st32 off v l) = u32 v.
Proof. apply (le_get_put 4). Qed.

Lemma ld64_st64 off v l :
  (off + 8 <= length l)%nat -> ld64 off (st64 off v l) = u64 v.
Proof. apply (le_get_put 8). Qed.

Lemma ld16_st16 off v l :
  (off + 2 <= length l)%nat -> ld16 off (st16 off v l) = u16 v.
Proof. apply (le_get_put 2). Qed.

(* ------------------------------------------------------------------ *)
(** ** Lemmas: splices *)

Lemma length_splice off src dst :
  (off + length src <= length dst)%nat ->
  length (splice off src dst) = length dst.
Proof.
  intros. unfold splice. rewrite !length_app, length_take, length_drop. lia.
Qed.

Lemma splice_lookup_in off src dst i :
  (off + length src <= length dst)%nat -> (off <= i < off + length src)%nat ->
  splice off src dst !! i = src !! (i - off)%nat.
Proof.
  intros. unfold splice.
  rewrite lookup_app_r by (rewrite length_take; lia).
  rewrite length_take, lookup_app_l by lia. f_equal. lia.
Qed.

Lemma splice_lookup_out off src dst i :
  (off + length src <= length dst)%nat ->
  (i < off \/ off + length src <= i)%nat ->
  splice off src dst !! i = dst !! i.
Proof.
  intros Hl [Hi|Hi]; unfold splice.
  - rewrite lookup_app_l by (rewrite length_take; lia).
    by rewrite lookup_take_lt by lia.
  - rewrite lookup_app_r by (rewrite length_take; lia).
    rewrite length_take, lookup_app_r by lia.
    rewrite lookup_drop. f_equal. lia.
Qed.

Lemma slice_lookup off n l i :
  (i < n)%nat -> slice off n l !! i = l !! (off + i)%nat.
Proof. intros. unfold slice. by rewrite lookup_take_lt, lookup_drop by lia. Qed.

Lemma length_slice off n l :
  (off + n <= length l)%nat -> length (slice off n l) = n.
Proof. intros. unfold slice. rewrite length_take, length_drop. lia. Qed.
