(* ===== verification/Params.v ===== *)
(** * Build parameters and layout macros

   The constants of kernel/param.h, kernel/fs.h, kernel/memlayout.h,
   kernel/stat.h and kernel/fcntl.h and the address macros of
   kernel/riscv.h, as configured by conf/lab.mk (LAB=util), with the
   arithmetic facts about the macros that the components use. *)

From stdpp Require Import base numbers list.
From Stdlib Require Import ZArith Lia.
From S2P Require Import Prelude.

(** kernel/param.h *)
Definition NPROC : Z := 64.
Definition NCPU : Z := 8.
Definition NOFILE : Z := 16.
Definition NFILE : Z := 100.
Definition NINODE : Z := 50.
Definition NDEV : Z := 10.
Definition ROOTDEV : Z := 1.
Definition MAXARG : Z := 32.
Definition MAXOPBLOCKS : Z := 10.
Definition LOGBLOCKS : Z := MAXOPBLOCKS * 3.
Definition NBUF : Z := MAXOPBLOCKS * 3.
Definition FSSIZE : Z := 2000.
Definition MAXPATH : Z := 128.
Definition USERSTACK : Z := 2.

(** kernel/fs.h *)
Definition ROOTINO : Z := 1.
Definition BSIZE : Z := 1024.
Definition FSMAGIC : Z := 0x10203040.
Definition NDIRECT : Z := 12.
Definition NINDIRECT : Z := BSIZE / 4.
Definition MAXFILE : Z := NDIRECT + NINDIRECT.
Definition DINODE_SIZE : Z := 64.
Definition IPB : Z := BSIZE / DINODE_SIZE.
Definition BPB : Z := BSIZE * 8.
Definition DIRSIZ : Z := 14.

(** kernel/stat.h and kernel/fcntl.h *)
Definition T_DIR : Z := 1.
Definition T_FILE : Z := 2.
Definition T_DEVICE : Z := 3.
Definition O_RDONLY : Z := 0x000.
Definition O_WRONLY : Z := 0x001.
Definition O_RDWR : Z := 0x002.
Definition O_CREATE : Z := 0x200.
Definition O_TRUNC : Z := 0x400.

(** kernel/riscv.h: pages, page-table entries and virtual addresses *)
Definition PGSIZE : Z := 4096.
Definition PGSHIFT : Z := 12.
Definition PGROUNDUP (sz : Z) : Z := Z.land (u64 (sz + PGSIZE - 1)) (u64 (Z.lnot (PGSIZE - 1))).
Definition PGROUNDDOWN (a : Z) : Z := Z.land a (u64 (Z.lnot (PGSIZE - 1))).
Definition PTE_V : Z := Z.shiftl 1 0.
Definition PTE_R : Z := Z.shiftl 1 1.
Definition PTE_W : Z := Z.shiftl 1 2.
Definition PTE_X : Z := Z.shiftl 1 3.
Definition PTE_U : Z := Z.shiftl 1 4.
Definition PA2PTE (pa : Z) : Z := u64 (Z.shiftl (Z.shiftr pa 12) 10).
Definition PTE2PA (pte : Z) : Z := u64 (Z.shiftl (Z.shiftr pte 10) 12).
Definition PTE_FLAGS (pte : Z) : Z := Z.land pte 0x3FF.
Definition PXMASK : Z := 0x1FF.
Definition PXSHIFT (level : Z) : Z := PGSHIFT + 9 * level.
Definition PX (level va : Z) : Z := Z.land (Z.shiftr va (PXSHIFT level)) PXMASK.
Definition MAXVA : Z := Z.shiftl 1 (9 + 9 + 9 + 12 - 1).

(** kernel/memlayout.h *)
Definition UART0 : Z := 0x10000000.
Definition VIRTIO0 : Z := 0x10001000.
Definition PLIC : Z := 0x0c000000.
Definition PLIC_SENABLE (hart : Z) : Z := PLIC + 0x2080 + hart * 0x100.
Definition PLIC_SPRIORITY (hart : Z) : Z := PLIC + 0x201000 + hart * 0x2000.
Definition PLIC_SCLAIM (hart : Z) : Z := PLIC + 0x201004 + hart * 0x2000.
Definition UART0_IRQ : Z := 10.
Definition VIRTIO0_IRQ : Z := 1.
Definition KERNBASE : Z := 0x80000000.
Definition PHYSTOP : Z := KERNBASE + 128 * 1024 * 1024.
Definition TRAMPOLINE : Z := MAXVA - PGSIZE.
Definition KSTACK (p : Z) : Z := TRAMPOLINE - (p + 1) * 2 * PGSIZE.
Definition TRAPFRAME : Z := TRAMPOLINE - PGSIZE.

(* ------------------------------------------------------------------ *)
(** ** Arithmetic of the macros *)

(** Masking with [~(PGSIZE-1)] rounds a 64-bit value down to a page. *)
Lemma land_page_mask a :
  0 <= a < 2 ^ 64 -> Z.land a (u64 (Z.lnot (PGSIZE - 1))) = a - a mod PGSIZE.
Proof.
  intros Ha.
  replace (u64 (Z.lnot (PGSIZE - 1))) with (Z.ldiff (Z.ones 64) (Z.ones 12)) by done.
  assert (Z.land a (Z.ldiff (Z.ones 64) (Z.ones 12)) = Z.ldiff a (Z.ones 12)) as ->.
  { apply Z.bits_inj'. intros i Hi. rewrite Z.land_spec, !Z.ldiff_spec.
    destruct (Z.testbit a i) eqn:E; simpl; [|done].
    rewrite Z.testbit_ones_nonneg by lia.
    destruct (Z.ltb_spec i 64); simpl; [done|].
    assert (Z.testbit a i = false); [|congruence].
    destruct (decide (a = 0)) as [->|]; [by rewrite Z.testbit_0_l|].
    apply Z.bits_above_log2; [lia|]. apply Z.log2_lt_pow2; [lia|].
    eapply Z.lt_le_trans; [apply Ha|]. apply Z.pow_le_mono_r; lia. }
  rewrite Z.ldiff_ones_r by lia. rewrite Z.shiftr_div_pow2, Z.shiftl_mul_pow2 by lia.
  change (2 ^ 12) with PGSIZE. pose proof (Z.div_mod a PGSIZE). unfold PGSIZE in *. lia.
Qed.

Lemma PGROUNDDOWN_eq a : 0 <= a < 2 ^ 64 -> PGROUNDDOWN a = a - a mod PGSIZE.
Proof. apply land_page_mask. Qed.

Lemma PGROUNDUP_eq a :
  0 <= a -> a + PGSIZE - 1 < 2 ^ 64 ->
  PGROUNDUP a = (a + PGSIZE - 1) - (a + PGSIZE - 1) mod PGSIZE.
Proof.
  intros. unfold PGROUNDUP. rewrite u64_small by (unfold PGSIZE in *; lia).
  apply land_page_mask. unfold PGSIZE in *; lia.
Qed.

Lemma PGROUNDUP_aligned a :
  0 <= a -> a + PGSIZE - 1 < 2 ^ 64 ->
  PGROUNDUP a mod PGSIZE = 0 /\ a <= PGROUNDUP a < a + PGSIZE.
Proof. intros. rewrite PGROUNDUP_eq by done. unfold PGSIZE in *. divlia. Qed.

Lemma PGROUNDDOWN_aligned a :
  0 <= a < 2 ^ 64 ->
  PGROUNDDOWN a mod PGSIZE = 0 /\ PGROUNDDOWN a <= a < PGROUNDDOWN a + PGSIZE.
Proof. intros. rewrite PGROUNDDOWN_eq by done. unfold PGSIZE in *. divlia. Qed.

(** Each page-table index has nine bits. *)
Lemma PX_range level va : 0 <= PX level va < 512.
Proof.
  unfold PX, PXMASK. change 0x1FF with (Z.ones 9).
  rewrite Z.land_ones by lia. apply Z.mod_pos_bound. lia.
Qed.
