(* ===== verification/Cmem.v ===== *)
(** * C memory objects

   A memory object is a list of bytes; pointers into it are offsets.  A load
   or store outside the object is undefined behaviour ([ub]).  Shared by the
   string routines of the kernel (KString.v) and of the user library
   (Ulib.v). *)

From stdpp Require Import base numbers list strings.
From Stdlib Require Import ZArith Lia.
From S2P Require Import Prelude.

Notation mem := (list Z).

Definition ldb (p : Z) : M mem Z := fun m =>
  if 0 <=? p then
    match m !! Z.to_nat p with
    | Some x => Ok x m
    | None => ub "load" m
    end
  else ub "load" m.

Definition stb (p x : Z) : M mem unit := fun m =>
  if (0 <=? p) && (p <? Z.of_nat (length m)) then Ok tt (<[Z.to_nat p := u8 x]> m) else ub "store" m.

(** while(n-- > 0) *--d = *--s; *)
Fixpoint copy_down (n : nat) (d s : Z) : M mem unit :=
  match n with
  | O => ret tt
  | S n' => let* x := ldb (s - 1) in stb (d - 1) x ;; copy_down n' (d - 1) (s - 1)
  end.

(** while(n-- > 0) *d++ = *s++; *)
Fixpoint copy_up (n : nat) (d s : Z) : M mem unit :=
  match n with
  | O => ret tt
  | S n' => let* x := ldb s in stb d x ;; copy_up n' (d + 1) (s + 1)
  end.

(** ** Specifications *)

(** The C string in a field: its bytes up to the first NUL, or all of it. *)
Fixpoint cut (l : list Z) : list Z :=
  match l with
  | [] => []
  | x :: l' => if x =? 0 then [] else x :: cut l'
  end.

(** The string of at most [n] bytes at [p]. *)
Definition strn (n : nat) (p : nat) (m : mem) : list Z := cut (slice p n m).

(** [l] padded with NULs to [n] bytes. *)
Definition pad (n : nat) (l : list Z) : list Z := l ++ replicate (n - length l) 0.

Definition disjoint_ranges (a b : nat) (n : nat) : Prop := (a + n <= b \/ b + n <= a)%nat.

(** ** Lemmas *)

Lemma ldb_Ok m p x : m !! p = Some x -> ldb (Z.of_nat p) m = Ok x m.
Proof. intros H. unfold ldb. rewrite (proj2 (Z.leb_le _ _)), Nat2Z.id, H by lia. done. Qed.

Lemma stb_Ok m p x : (p < length m)%nat -> stb (Z.of_nat p) x m = Ok tt (<[p := u8 x]> m).
Proof.
  intros H. unfold stb. rewrite (proj2 (Z.leb_le _ _)), (proj2 (Z.ltb_lt _ _)), Nat2Z.id by lia. done.
Qed.

Lemma byte_u8 x : byte x -> u8 x = x.
Proof. apply Z.mod_small. Qed.

Lemma byte_at (m : mem) p x : Forall byte m -> m !! p = Some x -> byte x.
Proof. intros Hm Hx. by eapply (Forall_lookup_1 _ _ _ _ Hm). Qed.

(** What a copy of [n] bytes from [s] to [d] leaves. *)
Definition copied (n d s : nat) (m m' : mem) : Prop :=
  length m' = length m /\ Forall byte m' /\
  forall i, m' !! i = if decide (d <= i < d + n)%nat then m !! (i - d + s)%nat else m !! i.

Lemma copied_splice n d s m m' :
  (d + n <= length m)%nat -> (s + n <= length m)%nat ->
  copied n d s m m' -> m' = splice d (slice s n m) m.
Proof.
  intros Hd Hs (Hl & _ & Hm). pose proof (length_slice s n m Hs) as Hn.
  apply list_eq. intros i. rewrite Hm. case_decide as Hi.
  - rewrite splice_lookup_in by lia. rewrite slice_lookup by lia. f_equal. lia.
  - rewrite splice_lookup_out by lia. done.
Qed.

Lemma copy_up_spec n d s m :
  (d <= s \/ s + n <= d)%nat -> (d + n <= length m)%nat -> (s + n <= length m)%nat -> Forall byte m ->
  exists m', copy_up n (Z.of_nat d) (Z.of_nat s) m = Ok tt m' /\ copied n d s m m'.
Proof.
  revert d s m. induction n as [|n IH]; intros d s m Hds Hd Hs Hb; simpl.
  - exists m. split; [done|]. split; [done|]. split; [done|]. intros i. by rewrite decide_False by lia.
  - destruct (lookup_lt_is_Some_2 m s) as [x Hx]; [lia|].
    pose proof (byte_at _ _ _ Hb Hx) as Hbx.
    destruct (IH (S d) (S s) (<[d := x]> m)) as (m' & E & Hl & Hb' & Hm); rewrite ?length_insert; try lia.
    { by apply Forall_insert. }
    exists m'. split.
    { erewrite bind_Ok by (by apply ldb_Ok). erewrite bind_Ok by (apply stb_Ok; lia).
      rewrite byte_u8 by done. replace (Z.of_nat d + 1) with (Z.of_nat (S d)) by lia.
      by replace (Z.of_nat s + 1) with (Z.of_nat (S s)) by lia. }
    rewrite length_insert in Hl. split; [done|]. split; [done|]. intros i. rewrite Hm.
    destruct (decide (i = d)) as [->|Hne].
    + rewrite decide_False, decide_True, list_lookup_insert_eq by lia.
      by replace (d - d + s)%nat with s by lia.
    + destruct (decide (S d <= i < S d + n)%nat).
      * rewrite decide_True, list_lookup_insert_ne by lia. f_equal. lia.
      * rewrite decide_False, list_lookup_insert_ne by lia. done.
Qed.

Lemma copy_down_spec n d s m :
  (s <= d \/ d + n <= s)%nat -> (d + n <= length m)%nat -> (s + n <= length m)%nat -> Forall byte m ->
  exists m', copy_down n (Z.of_nat (d + n)) (Z.of_nat (s + n)) m = Ok tt m' /\ copied n d s m m'.
Proof.
  revert m. induction n as [|n IH]; intros m Hds Hd Hs Hb; simpl.
  - exists m. split; [done|]. split; [done|]. split; [done|]. intros i. by rewrite decide_False by lia.
  - destruct (lookup_lt_is_Some_2 m (s + n)) as [x Hx]; [lia|].
    pose proof (byte_at _ _ _ Hb Hx) as Hbx.
    destruct (IH (<[(d + n)%nat := x]> m)) as (m' & E & Hl & Hb' & Hm); rewrite ?length_insert; try lia.
    { by apply Forall_insert. }
    exists m'. split.
    { replace (Z.of_nat (s + S n) - 1) with (Z.of_nat (s + n)) by lia.
      replace (Z.of_nat (d + S n) - 1) with (Z.of_nat (d + n)) by lia.
      erewrite bind_Ok by (by apply ldb_Ok). erewrite bind_Ok by (apply stb_Ok; lia).
      by rewrite byte_u8 by done. }
    rewrite length_insert in Hl. split; [done|]. split; [done|]. intros i. rewrite Hm.
    destruct (decide (i = d + n)%nat) as [->|Hne].
    + rewrite decide_False, decide_True, list_lookup_insert_eq by lia.
      by replace (d + n - d + s)%nat with (s + n)%nat by lia.
    + destruct (decide (d <= i < d + n)%nat).
      * rewrite decide_True, list_lookup_insert_ne by lia. f_equal.
      * rewrite decide_False, list_lookup_insert_ne by lia. done.
Qed.

Lemma slice_cons p n m x : m !! p = Some x -> slice p (S n) m = x :: slice (S p) n m.
Proof. intros H. unfold slice. rewrite (drop_S _ x) by done. done. Qed.

Lemma splice_cons s x l m :
  (s + S (length l) <= length m)%nat -> splice s (x :: l) m = splice (S s) l (<[s := x]> m).
Proof.
  intros Hl. apply list_eq. intros i. destruct (decide (s <= i < s + S (length l))%nat) as [Hi|Hi].
  - rewrite splice_lookup_in by (simpl; lia). destruct (decide (i = s)) as [->|].
    + rewrite splice_lookup_out, list_lookup_insert_eq by (rewrite ?length_insert; lia).
      by rewrite Nat.sub_diag.
    + rewrite splice_lookup_in by (rewrite ?length_insert; lia).
      replace (i - s)%nat with (S (i - S s)) by lia. done.
  - rewrite splice_lookup_out by (simpl; lia).
    rewrite splice_lookup_out, list_lookup_insert_ne by (rewrite ?length_insert; lia). done.
Qed.

Lemma slice_insert_out p n i x m :
  (i < p \/ p + n <= i)%nat -> slice p n (<[i := x]> m) = slice p n m.
Proof.
  intros Hi. apply list_eq. intros k. unfold slice. destruct (decide (k < n)%nat).
  - rewrite !lookup_take_lt, !lookup_drop, list_lookup_insert_ne by lia. done.
  - rewrite !lookup_take_ge by lia. done.
Qed.

Lemma cut_length l : (length (cut l) <= length l)%nat.
Proof. induction l as [|x l IH]; simpl; [done|]. destruct (x =? 0); simpl; lia. Qed.

Lemma strn_length n p m : (length (strn n p m) <= n)%nat.
Proof. unfold strn. etrans; [apply cut_length|]. unfold slice. rewrite length_take. lia. Qed.

Lemma cut_nonzero l : Forall (fun x => x <> 0) (cut l).
Proof.
  induction l as [|x l IH]; simpl; [constructor|]. destruct (Z.eqb_spec x 0); by constructor.
Qed.

(** Cutting a padded string gives it back. *)
Lemma cut_pad n l : Forall (fun x => x <> 0) l -> cut (pad n l) = l.
Proof.
  unfold pad. generalize (n - length l)%nat as k. intros k. induction 1 as [|x l Hx Hl IH]; simpl.
  - by destruct k.
  - rewrite (proj2 (Z.eqb_neq _ _)) by done. by rewrite IH.
Qed.

Lemma length_pad n l : (length l <= n)%nat -> length (pad n l) = n.
Proof. intros. unfold pad. rewrite length_app, length_replicate. lia. Qed.

(** The difference strncmp() and strcmp() report. *)
Fixpoint diff (a b : list Z) : Z :=
  match a, b with
  | [], [] => 0
  | [], y :: _ => - y
  | x :: _, [] => x
  | x :: a', y :: b' => if x =? y then diff a' b' else x - y
  end.

Lemma diff_0 a b : Forall (fun x => x <> 0) a -> Forall (fun x => x <> 0) b -> diff a b = 0 <-> a = b.
Proof.
  intros Ha. revert b. induction Ha as [|x a Hx Ha IH]; intros [|y b] Hb; simpl; try done.
  - apply Forall_cons in Hb as [Hy _]. split; [lia|done].
  - apply Forall_cons in Hb as [Hy Hb]. destruct (Z.eqb_spec x y) as [->|Hne].
    + rewrite IH by done. split; [by intros ->|by intros [=]].
    + split; [lia|by intros [=]].
Qed.

Lemma splice_app s a b m :
  (s + length a + length b <= length m)%nat ->
  splice s (a ++ b) m = splice (s + length a) b (splice s a m).
Proof.
  revert s m. induction a as [|x a IH]; intros s m Hl; simpl in *.
  - rewrite Nat.add_0_r. f_equal. unfold splice. simpl. by rewrite Nat.add_0_r, take_drop.
  - rewrite !splice_cons by (rewrite ?length_app; lia). rewrite IH by (rewrite length_insert; lia).
    by replace (S s + length a)%nat with (s + S (length a))%nat by lia.
Qed.

Lemma splice_1 s x m : (s < length m)%nat -> splice s [x] m = <[s := x]> m.
Proof.
  intros Hs. rewrite splice_cons by (simpl; lia). unfold splice. simpl. rewrite Nat.add_0_r. by rewrite take_drop.
Qed.

Lemma cut_app_nul l r : Forall (fun x => x <> 0) l -> cut (l ++ 0 :: r) = l.
Proof.
  induction 1 as [|x l Hx Hl IH]; simpl; [done|]. rewrite (proj2 (Z.eqb_neq _ _)) by done. by rewrite IH.
Qed.

Lemma slice_splice s l m n :
  (length l <= n)%nat -> (s + n <= length m)%nat ->
  slice s n (splice s l m) = l ++ slice (s + length l) (n - length l) m.
Proof.
  intros Hl Hm. assert (length (splice s l m) = length m) as Hlen by (apply length_splice; lia).
  apply list_eq. intros i. destruct (decide (i < n)%nat) as [Hi|Hi].
  - rewrite slice_lookup by done. destruct (decide (i < length l)%nat).
    + rewrite splice_lookup_in by lia. rewrite lookup_app_l by lia. f_equal. lia.
    + rewrite splice_lookup_out by lia. rewrite lookup_app_r by lia. rewrite slice_lookup by lia. f_equal. lia.
  - rewrite (lookup_ge_None_2 (slice _ _ _)) by (rewrite length_slice; lia).
    rewrite lookup_ge_None_2; [done|]. rewrite length_app, length_slice; lia.
Qed.

Lemma cut_drop_slice p n m : (length (strn n p m) < n)%nat -> cut (drop p m) = strn n p m.
Proof.
  unfold strn, slice. generalize (drop p m) as l. clear m p. intros l. revert n.
  induction l as [|x l IH]; intros n Hn; simpl.
  - by rewrite take_nil.
  - destruct n as [|n]; [simpl in Hn; lia|]. simpl in *. destruct (x =? 0); [done|].
    simpl in Hn. rewrite (IH n); [done|lia].
Qed.
