(* ===== verification/KString.v ===== *)
(** * kernel/string.c

   The byte and string routines of the kernel, on a memory object. *)

From stdpp Require Import base numbers list strings.
From Stdlib Require Import ZArith Lia.
From S2P Require Import Prelude Cmem.

(** for(i = 0; i < n; i++) cdst[i] = c; *)
Definition memset (dst c n : Z) : M mem Z :=
  for_range (Z.to_nat n) 0 (fun i => stb (dst + i) c) ;; ret dst.

(** while(n-- > 0) { if they differ, return; s1++, s2++; } *)
Fixpoint memcmp_loop (n : nat) (s1 s2 : Z) : M mem Z :=
  match n with
  | O => ret 0
  | S n' =>
      let* x := ldb s1 in
      let* y := ldb s2 in
      if negb (x =? y) then ret (x - y) else memcmp_loop n' (s1 + 1) (s2 + 1)
  end.
Definition memcmp (v1 v2 n : Z) : M mem Z := memcmp_loop (Z.to_nat n) v1 v2.

Definition memmove (dst src n : Z) : M mem Z :=
  if n =? 0 then ret dst
  else
    (if (src <? dst) && (src + n >? dst) then copy_down (Z.to_nat n) (dst + n) (src + n)
     else copy_up (Z.to_nat n) dst src) ;;
    ret dst.

Definition memcpy (dst src n : Z) : M mem Z := memmove dst src n.

(** while(n > 0 && *p && *p == *q) n--, p++, q++; and the rest *)
Fixpoint strncmp_loop (n : nat) (p q : Z) : M mem Z :=
  match n with
  | O => ret 0
  | S n' =>
      let* x := ldb p in
      if x =? 0 then (let* y := ldb q in ret (x - y))
      else
        let* y := ldb q in
        if x =? y then strncmp_loop n' (p + 1) (q + 1) else ret (x - y)
  end.
Definition strncmp (p q n : Z) : M mem Z := strncmp_loop (Z.to_nat n) p q.

(** while(n-- > 0) *s++ = 0; *)
Fixpoint zero_fill (n : nat) (s : Z) : M mem unit :=
  match n with
  | O => ret tt
  | S n' => stb s 0 ;; zero_fill n' (s + 1)
  end.

(** while(n-- > 0 && ( *s++ = *t++ ) != 0) ; and the loop after it *)
Fixpoint strncpy_loop (n : nat) (s t : Z) : M mem unit :=
  match n with
  | O => ret tt
  | S n' =>
      let* x := ldb t in
      stb s x ;;
      if x =? 0 then zero_fill n' (s + 1) else strncpy_loop n' (s + 1) (t + 1)
  end.
Definition strncpy (s t n : Z) : M mem Z := strncpy_loop (Z.to_nat n) s t ;; ret s.

(** while(--n > 0 && ( *s++ = *t++ ) != 0) ; then *s = 0; [n] counts the
    iterations the guard allows; returns the final s. *)
Fixpoint safestrcpy_loop (n : nat) (s t : Z) : M mem Z :=
  match n with
  | O => ret s
  | S n' =>
      let* x := ldb t in
      stb s x ;;
      if x =? 0 then ret (s + 1) else safestrcpy_loop n' (s + 1) (t + 1)
  end.
Definition safestrcpy (s t n : Z) : M mem Z :=
  if n <=? 0 then ret s
  else
    let* e := safestrcpy_loop (Z.to_nat (n - 1)) s t in
    stb e 0 ;; ret s.

(** for(n = 0; s[n]; n++) ; the object bounds the search. *)
Fixpoint strlen_loop (fuel : nat) (s n : Z) : M mem Z :=
  match fuel with
  | O => diverge
  | S f => let* x := ldb (s + n) in if x =? 0 then ret n else strlen_loop f s (n + 1)
  end.
Definition strlen (s : Z) : M mem Z :=
  let* m := gets (fun m : mem => m) in strlen_loop (S (length m)) s 0.

(* ------------------------------------------------------------------ *)
(** Every branch of memmove(), overlapping or not, is the same copy. *)
Lemma memmove_spec d s n m :
  (d + n <= length m)%nat -> (s + n <= length m)%nat -> Forall byte m ->
  memmove (Z.of_nat d) (Z.of_nat s) (Z.of_nat n) m = Ok (Z.of_nat d) (splice d (slice s n m) m).
Proof.
  intros Hd Hs Hb. unfold memmove. destruct (Z.eqb_spec (Z.of_nat n) 0) as [Hz|Hz].
  { replace n with 0%nat by lia. unfold slice, splice. simpl. rewrite Nat.add_0_r.
    by rewrite take_drop. }
  rewrite Nat2Z.id, <- !Nat2Z.inj_add, Z.gtb_ltb.
  destruct (Z.ltb_spec (Z.of_nat s) (Z.of_nat d)), (Z.ltb_spec (Z.of_nat d) (Z.of_nat (s + n))); simpl;
    [ destruct (copy_down_spec n d s m) as (m' & E & Hc); [lia..|done|]
    | destruct (copy_up_spec n d s m) as (m' & E & Hc); [lia..|done|].. ];
    rewrite <- (copied_splice n d s m m') by done; by erewrite bind_Ok.
Qed.

Lemma strncmp_spec n p q m :
  (p + n <= length m)%nat -> (q + n <= length m)%nat ->
  strncmp (Z.of_nat p) (Z.of_nat q) (Z.of_nat n) m = Ok (diff (strn n p m) (strn n q m)) m.
Proof.
  unfold strncmp. rewrite Nat2Z.id. revert p q. induction n as [|n IH]; intros p q Hp Hq; [done|].
  destruct (lookup_lt_is_Some_2 m p) as [x Hx]; [lia|]. destruct (lookup_lt_is_Some_2 m q) as [y Hy]; [lia|].
  unfold strn. rewrite (slice_cons p n m x), (slice_cons q n m y) by done.
  cbn [strncmp_loop cut]. erewrite bind_Ok by (by apply ldb_Ok). destruct (Z.eqb_spec x 0) as [->|Hx0].
  - erewrite bind_Ok by (by apply ldb_Ok). by destruct (Z.eqb_spec y 0) as [->|].
  - erewrite bind_Ok by (by apply ldb_Ok). destruct (Z.eqb_spec x y) as [->|Hne].
    + rewrite (proj2 (Z.eqb_neq y 0)) by done. cbn [diff]. rewrite Z.eqb_refl.
      replace (Z.of_nat p + 1) with (Z.of_nat (S p)) by lia.
      replace (Z.of_nat q + 1) with (Z.of_nat (S q)) by lia. apply IH; lia.
    + destruct (Z.eqb_spec y 0) as [->|]; cbn [diff]; [by rewrite Z.sub_0_r|].
      by rewrite (proj2 (Z.eqb_neq x y)).
Qed.

Lemma zero_fill_spec n s m :
  (s + n <= length m)%nat -> zero_fill n (Z.of_nat s) m = Ok tt (splice s (replicate n 0) m).
Proof.
  revert s m. induction n as [|n IH]; intros s m Hs; simpl.
  - unfold splice. simpl. by rewrite Nat.add_0_r, take_drop.
  - erewrite bind_Ok by (apply stb_Ok; lia). replace (Z.of_nat s + 1) with (Z.of_nat (S s)) by lia.
    rewrite IH by (rewrite length_insert; lia).
    rewrite splice_cons by (rewrite length_replicate; lia). done.
Qed.

Lemma strncpy_spec n s t m :
  (s + n <= length m)%nat -> (t + n <= length m)%nat -> disjoint_ranges s t n -> Forall byte m ->
  strncpy (Z.of_nat s) (Z.of_nat t) (Z.of_nat n) m =
    Ok (Z.of_nat s) (splice s (pad n (strn n t m)) m).
Proof.
  intros Hs Ht Hd Hb. unfold strncpy. rewrite Nat2Z.id.
  assert (strncpy_loop n (Z.of_nat s) (Z.of_nat t) m = Ok tt (splice s (pad n (strn n t m)) m)) as E;
    [|by erewrite bind_Ok by exact E].
  revert s t m Hs Ht Hd Hb. unfold disjoint_ranges.
  induction n as [|n IH]; intros s t m Hs Ht Hd Hb.
  - unfold pad, strn, slice, splice. simpl. by rewrite Nat.add_0_r, take_drop.
  - destruct (lookup_lt_is_Some_2 m t) as [x Hx]; [lia|]. pose proof (byte_at _ _ _ Hb Hx).
    unfold strn. rewrite (slice_cons t n m x) by done. cbn [strncpy_loop cut].
    erewrite bind_Ok by (by apply ldb_Ok). erewrite bind_Ok by (apply stb_Ok; lia).
    rewrite byte_u8 by done. replace (Z.of_nat s + 1) with (Z.of_nat (S s)) by lia.
    destruct (Z.eqb_spec x 0) as [->|Hx0].
    + rewrite zero_fill_spec by (rewrite length_insert; lia). unfold pad. simpl.
      rewrite splice_cons by (rewrite length_replicate; lia). done.
    + replace (Z.of_nat t + 1) with (Z.of_nat (S t)) by lia.
      rewrite IH; [|rewrite ?length_insert; lia..|by apply Forall_insert]. f_equal.
      unfold strn. rewrite slice_insert_out by lia. unfold pad. simpl.
      rewrite splice_cons; [done|]. rewrite length_app, length_replicate.
      pose proof (strn_length n (S t) m). unfold strn in *. lia.
Qed.

(** The bytes safestrcpy()'s loop copies: the string, with its NUL if the
    guard lets it through. *)
Definition safe_bytes (k : nat) (a : list Z) : list Z := if decide (length a < k)%nat then a ++ [0] else a.

Lemma safestrcpy_loop_spec k s t m :
  (s + k <= length m)%nat -> (t + k <= length m)%nat -> disjoint_ranges s t k -> Forall byte m ->
  safestrcpy_loop k (Z.of_nat s) (Z.of_nat t) m =
    Ok (Z.of_nat (s + length (safe_bytes k (strn k t m)))) (splice s (safe_bytes k (strn k t m)) m).
Proof.
  revert s t m. unfold disjoint_ranges. induction k as [|k IH]; intros s t m Hs Ht Hd Hb.
  - unfold safe_bytes, strn, slice, splice. simpl. by rewrite Nat.add_0_r, take_drop.
  - destruct (lookup_lt_is_Some_2 m t) as [x Hx]; [lia|]. pose proof (byte_at _ _ _ Hb Hx).
    cbn [safestrcpy_loop]. erewrite bind_Ok by (by apply ldb_Ok). erewrite bind_Ok by (apply stb_Ok; lia).
    rewrite byte_u8 by done. unfold strn. rewrite (slice_cons t k m x) by done. cbn [cut].
    destruct (Z.eqb_spec x 0) as [->|Hx0].
    + unfold safe_bytes. simpl. rewrite splice_1 by lia. f_equal. lia.
    + replace (Z.of_nat s + 1) with (Z.of_nat (S s)) by lia. replace (Z.of_nat t + 1) with (Z.of_nat (S t)) by lia.
      rewrite IH; [|rewrite ?length_insert; lia..|by apply Forall_insert].
      unfold strn. rewrite slice_insert_out by lia.
      assert (safe_bytes (S k) (x :: cut (slice (S t) k m)) = x :: safe_bytes k (cut (slice (S t) k m))) as ->.
      { unfold safe_bytes. simpl. repeat case_decide; (done || lia). }
      pose proof (strn_length k (S t) m) as Hlen. unfold strn in Hlen.
      rewrite splice_cons.
      * f_equal. simpl. lia.
      * unfold safe_bytes. case_decide; rewrite ?length_app; simpl; lia.
Qed.

Lemma safestrcpy_spec n s t m :
  (s + S n <= length m)%nat -> (t + n <= length m)%nat -> disjoint_ranges s t n -> Forall byte m ->
  safestrcpy (Z.of_nat s) (Z.of_nat t) (Z.of_nat (S n)) m =
    Ok (Z.of_nat s) (splice s (safe_bytes n (strn n t m) ++ [0]) m).
Proof.
  intros Hs Ht Hd Hb. unfold safestrcpy. rewrite (proj2 (Z.leb_gt _ _)) by lia.
  replace (Z.to_nat (Z.of_nat (S n) - 1)) with n by lia.
  assert (length (safe_bytes n (strn n t m)) <= n)%nat.
  { pose proof (strn_length n t m). unfold safe_bytes. case_decide; rewrite ?length_app; simpl; lia. }
  erewrite bind_Ok by (apply safestrcpy_loop_spec; [lia|lia|done|done]).
  erewrite bind_Ok by (apply stb_Ok; rewrite length_splice; lia).
  rewrite splice_app by (simpl; lia). by rewrite splice_1 by (rewrite length_splice; lia).
Qed.

Lemma strlen_loop_spec p k fuel m :
  (p + k + fuel > length m)%nat -> (exists j, (k <= j)%nat /\ m !! (p + j)%nat = Some 0) ->
  strlen_loop fuel (Z.of_nat p) (Z.of_nat k) m =
    Ok (Z.of_nat (k + length (cut (drop (p + k) m)))) m.
Proof.
  revert k. induction fuel as [|f IH]; intros k Hf (j & Hj & Hz).
  { apply lookup_lt_Some in Hz. lia. }
  pose proof (lookup_lt_Some _ _ _ Hz). destruct (lookup_lt_is_Some_2 m (p + k)) as [x Hx]; [lia|].
  cbn [strlen_loop]. rewrite <- Nat2Z.inj_add. erewrite bind_Ok by (by apply ldb_Ok).
  rewrite (drop_S _ x) by done. cbn [cut]. destruct (Z.eqb_spec x 0) as [->|Hx0].
  - simpl. by rewrite Nat.add_0_r.
  - replace (Z.of_nat k + 1) with (Z.of_nat (S k)) by lia. rewrite IH.
    + simpl. replace (p + S k)%nat with (S (p + k)) by lia. f_equal. lia.
    + lia.
    + exists j. split; [|done]. destruct (decide (j = k)) as [->|]; [congruence|lia].
Qed.

Lemma safe_bytes_length n a : (length a <= n)%nat -> (length (safe_bytes n a) <= n)%nat.
Proof. intros Ha. unfold safe_bytes. case_decide; rewrite ?length_app; simpl; lia. Qed.

Lemma cut_safe n a r : Forall (fun x => x <> 0) a -> cut ((safe_bytes n a ++ [0]) ++ r) = a.
Proof.
  intros Ha. unfold safe_bytes. case_decide; rewrite <- !app_assoc; by apply cut_app_nul.
Qed.

(* ------------------------------------------------------------------ *)
(** ** Theorems *)

(** C19.  memmove() copies correctly for every overlap.  On any two ranges of
    [n] bytes of one object, however they overlap, memmove() and memcpy()
    return dst and leave in the destination exactly what the source range
    held before the call, changing nothing else. *)
Theorem memmove_copies_overlapping (d s n : nat) (m : mem) :
  (d + n <= length m)%nat -> (s + n <= length m)%nat -> Forall byte m ->
  memmove (Z.of_nat d) (Z.of_nat s) (Z.of_nat n) m = Ok (Z.of_nat d) (splice d (slice s n m) m) /\
  memcpy (Z.of_nat d) (Z.of_nat s) (Z.of_nat n) m = Ok (Z.of_nat d) (splice d (slice s n m) m).
Proof. intros. split; by apply memmove_spec. Qed.

Lemma memmove_copies_overlapping_witness :
  memmove 1 0 3 [1; 2; 3; 4; 5] = Ok 1 [1; 1; 2; 3; 5].
Proof.
  destruct (memmove_copies_overlapping 1 0 3 [1; 2; 3; 4; 5]) as [E _].
  - simpl. lia.
  - simpl. lia.
  - bytes.
  - exact E.
Defined.

(** Fixed-size names compare as strings.  strncpy() of a string into a
    field of [n] bytes stores its first [n] bytes padded with NULs, changing
    nothing outside the field; the field then holds that string even when it
    has no room for a NUL; and strncmp() of two such fields returns 0 exactly
    when they hold the same string. *)
Theorem name_field_roundtrip (n s t q : nat) (m : mem) :
  (s + n <= length m)%nat -> (t + n <= length m)%nat -> (q + n <= length m)%nat ->
  disjoint_ranges s t n -> Forall byte m ->
  exists m', strncpy (Z.of_nat s) (Z.of_nat t) (Z.of_nat n) m = Ok (Z.of_nat s) m' /\
    m' = splice s (pad n (strn n t m)) m /\ strn n s m' = strn n t m /\
    exists r, strncmp (Z.of_nat s) (Z.of_nat q) (Z.of_nat n) m' = Ok r m' /\
      (r = 0 <-> strn n q m' = strn n t m).
Proof.
  intros Hs Ht Hq Hd Hb. eexists. split; [by apply strncpy_spec|]. split; [done|].
  pose proof (length_pad n (strn n t m) (strn_length n t m)) as Hlp.
  set (m' := splice s (pad n (strn n t m)) m).
  assert (length m' = length m) as Hlen by (apply length_splice; lia).
  assert (strn n s m' = strn n t m) as Hst.
  { unfold m', strn at 1. rewrite slice_splice by lia. rewrite Hlp, Nat.sub_diag.
    unfold slice at 1. rewrite take_0, app_nil_r. apply (cut_pad n), cut_nonzero. }
  split; [done|]. eexists. split; [apply strncmp_spec; lia|]. rewrite Hst.
  rewrite diff_0 by apply cut_nonzero. done.
Qed.

Lemma name_field_roundtrip_witness :
  exists m', strncpy 0 4 3 [9; 9; 9; 9; 97; 98; 0] = Ok 0 m' /\ strn 3 0 m' = [97; 98].
Proof.
  destruct (name_field_roundtrip 3 0 4 4 [9; 9; 9; 9; 97; 98; 0]) as (m' & E & _ & Hs & _).
  - simpl. lia.
  - simpl. lia.
  - simpl. lia.
  - left. lia.
  - bytes.
  - exists m'. split; [exact E|exact Hs].
Defined.

(** safestrcpy() always NUL-terminates.  With room for [n + 1] bytes it
    returns, the destination holds the first [n] bytes of the source string
    and strlen() finds its end there, and no byte outside the [n + 1] of the
    destination changes. *)
Theorem safestrcpy_terminates (n s t : nat) (m : mem) :
  (s + S n <= length m)%nat -> (t + n <= length m)%nat -> disjoint_ranges s t n -> Forall byte m ->
  exists m', safestrcpy (Z.of_nat s) (Z.of_nat t) (Z.of_nat (S n)) m = Ok (Z.of_nat s) m' /\
    strn (S n) s m' = strn n t m /\
    strlen (Z.of_nat s) m' = Ok (Z.of_nat (length (strn n t m))) m' /\
    forall i, (i < s \/ s + S n <= i)%nat -> m' !! i = m !! i.
Proof.
  intros Hs Ht Hd Hb. eexists. split; [by apply safestrcpy_spec|].
  set (a := strn n t m). pose proof (strn_length n t m) as Ha. fold a in Ha.
  pose proof (safe_bytes_length n a Ha) as Hsb. set (l := safe_bytes n a ++ [0]).
  assert (length l <= S n)%nat as Hl by (unfold l; rewrite length_app; simpl; lia).
  assert (strn (S n) s (splice s l m) = a) as Hst.
  { unfold strn. rewrite slice_splice by lia. unfold l. apply (cut_safe n), cut_nonzero. }
  split; [done|]. split.
  - unfold strlen. erewrite bind_Ok by done.
    rewrite (strlen_loop_spec s 0); rewrite ?length_splice by lia; [| lia |].
    + rewrite Nat.add_0_r, (cut_drop_slice s (S n)); rewrite Hst; [done|lia].
    + exists (length (safe_bytes n a)). split; [lia|].
      rewrite splice_lookup_in by (unfold l in *; rewrite ?length_app in *; simpl in *; lia).
      unfold l. rewrite lookup_app_r by lia. by replace (s + length (safe_bytes n a) - s - length (safe_bytes n a))%nat with 0%nat by lia.
  - intros i Hi. apply splice_lookup_out; lia.
Qed.

Lemma safestrcpy_terminates_witness :
  exists m', safestrcpy 0 4 3 [9; 9; 9; 9; 97; 98; 99; 0] = Ok 0 m' /\ strlen 0 m' = Ok 2 m'.
Proof.
  destruct (safestrcpy_terminates 2 0 4 [9; 9; 9; 9; 97; 98; 99; 0]) as (m' & E & _ & Hl & _).
  - simpl. lia.
  - simpl. lia.
  - left. lia.
  - bytes.
  - exists m'. split; [exact E|exact Hl].
Defined.
