(* ===== verification/Ulib.v ===== *)
(** * user/ulib.c

   The user library's string routines, on a memory object.  gets() reads
   file descriptor 0 one byte at a time; the bytes still to be read are a
   list, and read() returns 0 at its end. *)

From stdpp Require Import base numbers list strings.
From Stdlib Require Import ZArith Lia.
From S2P Require Import Prelude Cmem.

(** The object bounds every scan for a NUL: [fuel] is its size. *)
Definition msize : M mem nat := gets (fun m : mem => S (length m)).

Fixpoint strcpy_loop (fuel : nat) (s t : Z) : M mem unit :=
  match fuel with
  | O => diverge
  | S f =>
      let* x := ldb t in
      stb s x ;;
      if x =? 0 then ret tt else strcpy_loop f (s + 1) (t + 1)
  end.
Definition strcpy (s t : Z) : M mem Z := let* f := msize in strcpy_loop f s t ;; ret s.

Fixpoint strcmp_loop (fuel : nat) (p q : Z) : M mem Z :=
  match fuel with
  | O => diverge
  | S f =>
      let* x := ldb p in
      if x =? 0 then (let* y := ldb q in ret (x - y))
      else
        let* y := ldb q in
        if x =? y then strcmp_loop f (p + 1) (q + 1) else ret (x - y)
  end.
Definition strcmp (p q : Z) : M mem Z := let* f := msize in strcmp_loop f p q.

Fixpoint strlen_loop (fuel : nat) (s n : Z) : M mem Z :=
  match fuel with
  | O => diverge
  | S f => let* x := ldb (s + n) in if x =? 0 then ret n else strlen_loop f s (n + 1)
  end.
Definition strlen (s : Z) : M mem Z := let* f := msize in strlen_loop f s 0.

Definition memset (dst c n : Z) : M mem Z :=
  for_range (Z.to_nat n) 0 (fun i => stb (dst + i) c) ;; ret dst.

(** [None] is the null pointer. *)
Fixpoint strchr_loop (fuel : nat) (s c : Z) : M mem (option Z) :=
  match fuel with
  | O => diverge
  | S f =>
      let* x := ldb s in
      if x =? 0 then ret None else if x =? c then ret (Some s) else strchr_loop f (s + 1) c
  end.
Definition strchr (s c : Z) : M mem (option Z) := let* f := msize in strchr_loop f s (u8 c).

(** gets(buf, max) with [inp] left to read; returns what is left after. *)
Fixpoint gets_loop (inp : list Z) (buf i max : Z) : M mem (Z * list Z) :=
  if i + 1 <? max then
    match inp with
    | [] => ret (i, [])
    | c :: inp' =>
        stb (buf + i) c ;;
        if (c =? 10) || (c =? 13) then ret (i + 1, inp') else gets_loop inp' buf (i + 1) max
    end
  else ret (i, inp).
Definition gets_line (buf max : Z) (inp : list Z) : M mem (list Z) :=
  let* r := gets_loop inp buf 0 max in
  stb (buf + fst r) 0 ;; ret (snd r).

(** n = n*10 + *s++ - '0' in int arithmetic: leaving the range of int is
    undefined. *)
Fixpoint atoi_loop (fuel : nat) (s n : Z) : M mem Z :=
  match fuel with
  | O => diverge
  | S f =>
      let* x := ldb s in
      if (48 <=? x) && (x <=? 57) then
        (if n * 10 + x <? 2 ^ 31 then atoi_loop f (s + 1) (n * 10 + x - 48) else ub "int overflow")
      else ret n
  end.
Definition atoi (s : Z) : M mem Z := let* f := msize in atoi_loop f s 0.

Definition memmove (vdst vsrc n : Z) : M mem Z :=
  (if vsrc >? vdst then copy_up (Z.to_nat n) vdst vsrc
   else copy_down (Z.to_nat n) (vdst + n) (vsrc + n)) ;;
  ret vdst.

Fixpoint memcmp_loop (n : nat) (p1 p2 : Z) : M mem Z :=
  match n with
  | O => ret 0
  | S n' =>
      let* x := ldb p1 in
      let* y := ldb p2 in
      if negb (x =? y) then ret (x - y) else memcmp_loop n' (p1 + 1) (p2 + 1)
  end.
Definition memcmp (s1 s2 n : Z) : M mem Z := memcmp_loop (Z.to_nat n) s1 s2.

Definition memcpy (dst src n : Z) : M mem Z := memmove dst src n.

(* ------------------------------------------------------------------ *)
(** ** Lemmas *)

(** A NUL-terminated string of non-NUL bytes [l] at [p]. *)
Definition cstring (m : mem) (p : nat) (l : list Z) : Prop :=
  Forall (fun x => x <> 0) l /\ slice p (S (length l)) m = l ++ [0].

Lemma cstring_bound m p l : cstring m p l -> (p + S (length l) <= length m)%nat.
Proof.
  intros [_ H]. apply (f_equal length) in H. unfold slice in H.
  rewrite length_take, length_drop, length_app in H. cbn [length] in H. lia.
Qed.

Lemma slice_inv p n m x l : slice p (S n) m = x :: l -> m !! p = Some x /\ slice (S p) n m = l.
Proof.
  unfold slice. intros H. destruct (drop p m) as [|y r] eqn:E; [done|]. simpl in H. injection H as -> <-.
  split.
  - rewrite <- (Nat.add_0_r p), <- lookup_drop, E. done.
  - by rewrite <- Nat.add_1_r, <- drop_drop, E.
Qed.

Lemma cstring_cons m p x l : cstring m p (x :: l) -> x <> 0 /\ m !! p = Some x /\ cstring m (S p) l.
Proof.
  intros [Hn Hs]. apply Forall_cons in Hn as [Hx Hl]. apply slice_inv in Hs as [Hp Hs]. by repeat split.
Qed.

Lemma cstring_nil m p : cstring m p [] -> m !! p = Some 0.
Proof. intros [_ Hs]. by apply slice_inv in Hs as [? _]. Qed.

(** The number the leading digits of [l] denote, starting from [n]. *)
Fixpoint dec_value (n : Z) (l : list Z) : Z :=
  match l with
  | [] => n
  | x :: l' => if (48 <=? x) && (x <=? 57) then dec_value (n * 10 + (x - 48)) l' else n
  end.

Lemma dec_value_mono n l : 0 <= n -> n <= dec_value n l.
Proof.
  revert n. induction l as [|x l IH]; intros n Hn; simpl; [lia|].
  destruct (Z.leb_spec 48 x), (Z.leb_spec x 57); simpl; try lia. etrans; [|apply IH]; lia.
Qed.

Lemma atoi_loop_spec l fuel p n m :
  cstring m p l -> (length l < fuel)%nat -> 0 <= n -> dec_value n l < 2 ^ 31 - 48 ->
  atoi_loop fuel (Z.of_nat p) n m = Ok (dec_value n l) m.
Proof.
  revert fuel p n. induction l as [|x l IH]; intros [|fuel] p n Hl Hf Hn Hv; simpl in Hf; try lia.
  - apply cstring_nil in Hl. cbn [atoi_loop]. by erewrite bind_Ok by (by apply ldb_Ok).
  - apply cstring_cons in Hl as (Hx & Hp & Hl). cbn [atoi_loop]. erewrite bind_Ok by (by apply ldb_Ok).
    simpl in *. destruct (Z.leb_spec 48 x), (Z.leb_spec x 57); simpl in *; try done.
    pose proof (dec_value_mono (n * 10 + (x - 48)) l ltac:(lia)).
    rewrite (proj2 (Z.ltb_lt _ _)) by lia. replace (Z.of_nat p + 1) with (Z.of_nat (S p)) by lia.
    replace (n * 10 + x - 48) with (n * 10 + (x - 48)) by lia. apply IH; [done|lia|lia|done].
Qed.

(** The sum n*10 + *s leaves int before the digit's 48 is taken off. *)
Lemma atoi_loop_overflows l fuel p n m :
  cstring m p l -> (length l < fuel)%nat -> Forall (fun c => 48 <= c <= 57) l -> 0 <= n < 2 ^ 31 - 48 ->
  2 ^ 31 - 48 <= dec_value n l -> atoi_loop fuel (Z.of_nat p) n m = ub "int overflow" m.
Proof.
  revert fuel p n. induction l as [|x l IH]; intros [|fuel] p n Hl Hf Hd Hn Hv; simpl in Hf; try lia; [simpl in Hv; lia|].
  apply cstring_cons in Hl as (Hx & Hp & Hl). apply Forall_cons in Hd as [Hdx Hd]. cbn [atoi_loop].
  erewrite bind_Ok by (by apply ldb_Ok). simpl in Hv.
  rewrite (proj2 (Z.leb_le 48 x)), (proj2 (Z.leb_le x 57)) in Hv |- * by lia. cbn [andb] in *.
  destruct (Z.ltb_spec (n * 10 + x) (2 ^ 31)) as [Hlt|]; [|done].
  replace (Z.of_nat p + 1) with (Z.of_nat (S p)) by lia. apply IH; [done|lia|done|lia|].
  by replace (n * 10 + x - 48) with (n * 10 + (x - 48)) by lia.
Qed.

Lemma strcmp_loop_spec a b fuel p q m :
  cstring m p a -> cstring m q b -> (length a < fuel)%nat ->
  strcmp_loop fuel (Z.of_nat p) (Z.of_nat q) m = Ok (diff a b) m.
Proof.
  revert b fuel p q. induction a as [|x a IH]; intros b [|fuel] p q Ha Hb Hf; simpl in Hf; try lia;
    cbn [strcmp_loop].
  - apply cstring_nil in Ha. erewrite bind_Ok by (by apply ldb_Ok). simpl. destruct b as [|y b].
    + apply cstring_nil in Hb. by erewrite bind_Ok by (by apply ldb_Ok).
    + apply cstring_cons in Hb as (Hy & Hq & Hb). by erewrite bind_Ok by (by apply ldb_Ok).
  - apply cstring_cons in Ha as (Hx & Hp & Ha). erewrite bind_Ok by (by apply ldb_Ok).
    rewrite (proj2 (Z.eqb_neq x 0)) by done. destruct b as [|y b].
    + apply cstring_nil in Hb. erewrite bind_Ok by (by apply ldb_Ok).
      rewrite (proj2 (Z.eqb_neq x 0)) by done. simpl. by rewrite Z.sub_0_r.
    + apply cstring_cons in Hb as (Hy & Hq & Hb). erewrite bind_Ok by (by apply ldb_Ok). simpl.
      destruct (Z.eqb_spec x y) as [->|Hne]; [|done].
      replace (Z.of_nat p + 1) with (Z.of_nat (S p)) by lia. replace (Z.of_nat q + 1) with (Z.of_nat (S q)) by lia.
      apply IH; [done|done|lia].
Qed.

Definition is_nl (c : Z) : bool := (c =? 10) || (c =? 13).

(** The bytes one call of gets() takes: up to and including a newline, at
    most [k]. *)
Fixpoint line_of (k : nat) (inp : list Z) : list Z :=
  match k, inp with
  | S k', c :: inp' => if is_nl c then [c] else c :: line_of k' inp'
  | _, _ => []
  end.

Lemma line_of_length k inp : (length (line_of k inp) <= k)%nat.
Proof.
  revert inp. induction k as [|k IH]; intros [|c inp]; simpl; try lia.
  destruct (is_nl c); simpl; [lia|]. specialize (IH inp). lia.
Qed.

Lemma gets_loop_spec inp b i max m :
  (b + Z.to_nat max <= length m)%nat -> Forall byte inp ->
  let l := line_of (Z.to_nat (max - 1) - i) inp in
  gets_loop inp (Z.of_nat b) (Z.of_nat i) max m =
    Ok (Z.of_nat (i + length l), drop (length l) inp) (splice (b + i) l m).
Proof.
  revert i m. induction inp as [|c inp IH]; intros i m Hb Hin; simpl.
  - assert (splice (b + i) [] m = m) as Hs by (unfold splice; simpl; by rewrite Nat.add_0_r, take_drop).
    destruct (Z.ltb_spec (Z.of_nat i + 1) max); destruct (Z.to_nat (max - 1) - i)%nat; simpl;
      by rewrite Nat.add_0_r, Hs.
  - apply Forall_cons in Hin as [Hc Hin]. destruct (Z.ltb_spec (Z.of_nat i + 1) max) as [Hlt|Hge].
    + replace (Z.to_nat (max - 1) - i)%nat with (S (Z.to_nat (max - 1) - S i)) by lia.
      rewrite <- Nat2Z.inj_add. erewrite bind_Ok by (apply stb_Ok; lia). rewrite byte_u8 by done.
      cbn [line_of]. unfold is_nl. destruct ((c =? 10) || (c =? 13)).
      * simpl. rewrite splice_1 by lia. do 2 f_equal. lia.
      * replace (Z.of_nat i + 1) with (Z.of_nat (S i)) by lia. rewrite IH by (rewrite ?length_insert; done).
        pose proof (line_of_length (Z.to_nat (max - 1) - S i) inp).
        rewrite splice_cons by lia. replace (b + S i)%nat with (S (b + i)) by lia. simpl. do 2 f_equal. lia.
    + replace (Z.to_nat (max - 1) - i)%nat with 0%nat by lia. simpl.
      rewrite Nat.add_0_r. f_equal. unfold splice. simpl. by rewrite Nat.add_0_r, take_drop.
Qed.

(* ------------------------------------------------------------------ *)
(** ** Theorems *)

(** The user library's memmove() copies correctly for every overlap,
    and does nothing for a length that is not positive. *)
Theorem ulib_memmove_overlapping (d s : nat) (n : Z) (m : mem) :
  (d + Z.to_nat n <= length m)%nat -> (s + Z.to_nat n <= length m)%nat -> Forall byte m ->
  memmove (Z.of_nat d) (Z.of_nat s) n m =
    Ok (Z.of_nat d) (splice d (slice s (Z.to_nat n) m) m).
Proof.
  intros Hd Hs Hb. unfold memmove. rewrite Z.gtb_ltb. destruct (Z.leb_spec n 0) as [Hn|Hn].
  { replace (Z.to_nat n) with 0%nat by lia. unfold slice, splice. simpl. rewrite Nat.add_0_r, take_drop.
    by destruct (_ <? _). }
  assert (exists k, n = Z.of_nat k) as [k ->] by (exists (Z.to_nat n); lia).
  rewrite Nat2Z.id in *. rewrite <- !Nat2Z.inj_add.
  destruct (Z.ltb_spec (Z.of_nat d) (Z.of_nat s));
    [destruct (copy_up_spec k d s m) as (m' & E & Hc)
    |destruct (copy_down_spec k d s m) as (m' & E & Hc)]; try done; try lia;
    rewrite <- (copied_splice k d s m m') by done; by erewrite bind_Ok.
Qed.

Lemma ulib_memmove_overlapping_witness : memmove 1 0 3 [1; 2; 3; 4; 5] = Ok 1 [1; 1; 2; 3; 5].
Proof.
  refine (ulib_memmove_overlapping 1 0 3 [1; 2; 3; 4; 5] _ _ _).
  - simpl. lia.
  - simpl. lia.
  - bytes.
Defined.

(** gets() reads one line and stays in its buffer.  For a buffer of
    [max] bytes it returns having stored the bytes up to and including the
    first newline or carriage return, at most [max - 1] of them, and a NUL
    after them; it has taken exactly those bytes from the input, and
    consecutive calls lose nothing. *)
Theorem gets_reads_one_line (b : nat) (max : Z) (inp : list Z) (m : mem) :
  0 < max -> (b + Z.to_nat max <= length m)%nat -> Forall byte inp ->
  let l := line_of (Z.to_nat (max - 1)) inp in
  gets_line (Z.of_nat b) max inp m = Ok (drop (length l) inp) (splice b (l ++ [0]) m) /\
  inp = l ++ drop (length l) inp /\ Z.of_nat (length l) < max /\
  (Z.of_nat (length l) = max - 1 \/ drop (length l) inp = [] \/
   exists c l', l = l' ++ [c] /\ is_nl c = true) /\
  (forall c, c ∈ removelast l -> is_nl c = false).
Proof.
  intros Hmax Hb Hin l. pose proof (line_of_length (Z.to_nat (max - 1)) inp) as Hl. fold l in Hl.
  split; [|split; [|split; [lia|split]]].
  - unfold gets_line. change 0 with (Z.of_nat 0).
    erewrite bind_Ok by (by apply gets_loop_spec). rewrite Nat.sub_0_r. fold l. rewrite Nat.add_0_r. simpl.
    rewrite <- Nat2Z.inj_add. erewrite bind_Ok by (apply stb_Ok; rewrite length_splice; lia).
    rewrite splice_app by (simpl; lia). by rewrite splice_1 by (rewrite length_splice; lia).
  - unfold l. clear. generalize (Z.to_nat (max - 1)) as k. induction inp as [|c inp IH]; intros [|k]; simpl; try done.
    destruct (is_nl c); [done|]. simpl. by rewrite <- IH.
  - unfold l in *. replace (max - 1) with (Z.of_nat (Z.to_nat (max - 1))) at 2 by lia.
    clear. generalize (Z.to_nat (max - 1)) as k. induction inp as [|c inp IH]; intros [|k]; simpl; auto.
    destruct (is_nl c) eqn:Ec; [right; right; by exists c, []|]. simpl.
    destruct (IH k) as [E|[E|(c' & l' & E & Hc)]]; [left; lia|auto|right; right; exists c', (c :: l')].
    by rewrite E.
  - unfold l. clear. generalize (Z.to_nat (max - 1)) as k. induction inp as [|c inp IH]; intros [|k] c'; simpl;
      try (by intros ?%elem_of_nil).
    destruct (is_nl c) eqn:Ec; [by intros ?%elem_of_nil|].
    destruct (line_of k inp) as [|y r] eqn:El; [by intros ?%elem_of_nil|].
    intros [->|Hc]%elem_of_cons; [done|]. apply (IH k). by rewrite El.
Qed.

Lemma gets_reads_one_line_witness :
  gets_line 1 5 [97; 98; 10; 99] [0; 7; 7; 7; 7; 7] = Ok [99] [0; 97; 98; 10; 0; 7].
Proof.
  refine (proj1 (gets_reads_one_line 1 5 [97; 98; 10; 99] [0; 7; 7; 7; 7; 7] _ _ _)).
  - lia.
  - simpl. lia.
  - bytes.
Defined.
