(* ===== verification/UserMem.v ===== *)
(** * User memory, as the kernel's subsystems see it

   Pipes, the console, files and system calls reach a process's memory only
   through copyin() and copyout() of kernel/vm.c.  [UserMem] is what those
   calls promise; the clients are proved against it. *)

From stdpp Require Import base numbers list gmap.
From Stdlib Require Import ZArith Lia.
From S2P Require Import Prelude.

(** The calls themselves: copyin() gives the bytes it stored in the kernel's
    buffer, all of them on success. *)
Class UserOps (U : Type) := {
  ucopyin : Z -> nat -> M U (bool * list Z);
  ucopyout : Z -> list Z -> M U bool;
  ucopyinstr : Z -> nat -> M U (bool * list Z)
}.

(** What they promise.  [uview u a] is the byte a process would read at [a].  Both calls may
    fail half way: copyout() has then stored some prefix, and so has copyin(),
    in the kernel's buffer: [copyin_left] is what it left there.  Neither
    touches anything else.  They do not fail where every address is mapped
    for the process, for reading ([uread]) or for writing ([uwrite]), and
    they unmap nothing.  [copystr] is copyinstr(): a string with its NUL. *)
Class UserMem (U : Type) := {
  copyin : U -> Z -> nat -> option (list Z) * U;
  copyin_left : U -> Z -> nat -> list Z;
  copyout : U -> Z -> list Z -> bool * U;
  copystr : U -> Z -> nat -> option (list Z);
  uview : U -> Z -> Z;
  uread : U -> Z -> Prop;
  uwrite : U -> Z -> Prop;
  copyin_view u a n b : uview (snd (copyin u a n)) b = uview u b;
  copyin_bytes u a n bs : fst (copyin u a n) = Some bs ->
    length bs = n /\ forall i, (i < n)%nat -> bs !! i = Some (uview u (a + Z.of_nat i));
  copyin_left_bytes u a n i x : copyin_left u a n !! i = Some x ->
    (i < n)%nat /\ x = uview u (a + Z.of_nat i);
  copyout_out u a bs b : b < a \/ a + Z.of_nat (length bs) <= b ->
    uview (snd (copyout u a bs)) b = uview u b;
  copyout_in u a bs i x : fst (copyout u a bs) = true -> bs !! i = Some x ->
    uview (snd (copyout u a bs)) (a + Z.of_nat i) = u8 x;
  copystr_bytes u a max bs : copystr u a max = Some bs ->
    exists str, bs = str ++ [0] /\ 0 ∉ str /\ (length bs <= max)%nat /\
      forall i x, bs !! i = Some x -> x = uview u (a + Z.of_nat i);
  uview_byte u a : byte (uview u a);
  copyin_mapped u a n : (forall i, (i < n)%nat -> uread u (a + Z.of_nat i)) -> is_Some (fst (copyin u a n));
  copyout_mapped u a bs : (forall i, (i < length bs)%nat -> uwrite u (a + Z.of_nat i)) -> fst (copyout u a bs) = true;
  copyin_maps u a n b : (uread u b -> uread (snd (copyin u a n)) b) /\ (uwrite u b -> uwrite (snd (copyin u a n)) b);
  copyout_maps u a bs b : (uread u b -> uread (snd (copyout u a bs)) b) /\ (uwrite u b -> uwrite (snd (copyout u a bs)) b)
}.

(** No page is taken away from the process. *)
Definition keeps_mapped {U} `{UserMem U} (u u' : U) : Prop :=
  forall b, (uread u b -> uread u' b) /\ (uwrite u b -> uwrite u' b).
(** The process sees the same memory, and none of it was taken away. *)
Definition same_user {U} `{UserMem U} (u u' : U) : Prop := (forall b, uview u' b = uview u b) /\ keeps_mapped u u'.

#[export] Instance mem_ops {U} `{UserMem U} : UserOps U := {|
  ucopyin a n := fun u =>
    Ok (match fst (copyin u a n) with Some bs => (true, bs) | None => (false, copyin_left u a n) end)
       (snd (copyin u a n));
  ucopyout a bs := fun u => Ok (fst (copyout u a bs)) (snd (copyout u a bs));
  ucopyinstr a max := fun u =>
    Ok (match copystr u a max with Some bs => (true, bs) | None => (false, []) end) u
|}.

(** The bytes from [a] on. *)
Definition ubytes {U} `{UserMem U} (u : U) (a : Z) (n : nat) : list Z :=
  map (fun i => uview u (a + Z.of_nat i)) (seq 0 n).

Section lemmas.
Context {U : Type} `{UserMem U}.

Lemma copyin_ubytes (u : U) a n bs : fst (copyin u a n) = Some bs -> bs = ubytes u a n.
Proof.
  intros E. apply copyin_bytes in E as [Hl Hb]. apply list_eq. intros i. unfold ubytes.
  rewrite list_lookup_fmap. destruct (decide (i < n)%nat).
  - rewrite Hb, lookup_seq_lt by done. done.
  - rewrite !lookup_ge_None_2; rewrite ?length_seq; [done|lia..].
Qed.

Lemma same_user_refl (u : U) : same_user u u.
Proof. done. Qed.
Lemma same_user_trans (u u' u'' : U) : same_user u u' -> same_user u' u'' -> same_user u u''.
Proof. intros [H1 M1] [H2 M2]. split; [intros b; by rewrite H2|]. intros b. destruct (M1 b), (M2 b). auto. Qed.
Lemma copyin_same (u : U) a n r u' : copyin u a n = (r, u') -> same_user u u'.
Proof.
  intros E. pose proof (copyin_view u a n) as Hv. pose proof (copyin_maps u a n) as Hm. rewrite E in Hv, Hm. by split.
Qed.

Lemma keeps_refl (u : U) : keeps_mapped u u.
Proof. done. Qed.
Lemma keeps_trans (u u' u'' : U) : keeps_mapped u u' -> keeps_mapped u' u'' -> keeps_mapped u u''.
Proof. intros H1 H2 b. destruct (H1 b), (H2 b). auto. Qed.

(** A copy that fails met an address that is not mapped. *)
Lemma copyin_fails (u : U) a n : fst (copyin u a n) = None -> ~ forall i, (i < n)%nat -> uread u (a + Z.of_nat i).
Proof. intros E Hr. apply copyin_mapped in Hr as [? Hr]. congruence. Qed.
Lemma copyout_fails (u : U) a bs : fst (copyout u a bs) = false -> ~ forall i, (i < length bs)%nat -> uwrite u (a + Z.of_nat i).
Proof. intros E Hr. apply copyout_mapped in Hr. congruence. Qed.

Lemma length_ubytes (u : U) a n : length (ubytes u a n) = n.
Proof. unfold ubytes. by rewrite length_map, length_seq. Qed.

Lemma ubytes_ext (u u' : U) a n :
  (forall b, uview u' b = uview u b) -> ubytes u' a n = ubytes u a n.
Proof. intros He. unfold ubytes. apply list_fmap_ext. intros. apply He. Qed.

Lemma ubytes_S (u : U) a n : ubytes u a (S n) = ubytes u a n ++ [uview u (a + Z.of_nat n)].
Proof. unfold ubytes. by rewrite seq_S, map_app. Qed.

End lemmas.

#[export] Hint Resolve same_user_refl : core.

(* ------------------------------------------------------------------ *)
(** ** A flat instance

   Memory as the bytes of the mapped addresses; every other address
   faults. *)

Notation flat := (gmap Z Z).

Definition flat_view (u : flat) (a : Z) : Z := u8 (default 0 (u !! a)).

Definition flat_in (u : flat) (a : Z) (n : nat) : option (list Z) * flat :=
  if forallb (fun i => bool_decide (is_Some (u !! (a + Z.of_nat i)))) (seq 0 n)
  then (Some (map (fun i => flat_view u (a + Z.of_nat i)) (seq 0 n)), u) else (None, u).

Fixpoint flat_left (u : flat) (a : Z) (n : nat) : list Z :=
  match n, u !! a with
  | S n', Some _ => flat_view u a :: flat_left u (a + 1) n'
  | _, _ => []
  end.

Fixpoint flat_out (u : flat) (a : Z) (bs : list Z) : bool * flat :=
  match bs with
  | [] => (true, u)
  | x :: bs' =>
      match u !! a with
      | Some _ => flat_out (<[a := u8 x]> u) (a + 1) bs'
      | None => (false, u)
      end
  end.

Fixpoint flat_str (u : flat) (a : Z) (max : nat) : option (list Z) :=
  match max, u !! a with
  | S max', Some _ =>
      if flat_view u a =? 0 then Some [0] else (cons (flat_view u a)) <$> flat_str u (a + 1) max'
  | _, _ => None
  end.

Lemma flat_out_out (u : flat) a bs b :
  b < a \/ a + Z.of_nat (length bs) <= b -> flat_view (snd (flat_out u a bs)) b = flat_view u b.
Proof.
  revert u a. induction bs as [|x bs IH]; intros u a Hb; simpl in *; [done|].
  destruct (u !! a); [|done]. rewrite IH by lia. unfold flat_view. by rewrite lookup_insert_ne by lia.
Qed.

Lemma flat_out_in (u : flat) a bs i x :
  fst (flat_out u a bs) = true -> bs !! i = Some x ->
  flat_view (snd (flat_out u a bs)) (a + Z.of_nat i) = u8 x.
Proof.
  revert u a i. induction bs as [|y bs IH]; intros u a i Hok Hi; simpl in *; [done|].
  destruct (u !! a); [|done]. destruct i as [|i]; simpl in Hi.
  - injection Hi as ->. rewrite flat_out_out by lia. unfold flat_view.
    rewrite Z.add_0_r, lookup_insert_eq. simpl. apply Z.mod_small, u8_range.
  - replace (a + Z.of_nat (S i)) with (a + 1 + Z.of_nat i) by lia. by apply IH.
Qed.

Definition flat_mapped (u : flat) (a : Z) : Prop := is_Some (u !! a).

Lemma flat_out_keeps (u : flat) a bs b : flat_mapped u b -> flat_mapped (snd (flat_out u a bs)) b.
Proof.
  revert u a. induction bs as [|x bs IH]; intros u a Hb; simpl; [done|]. destruct (u !! a); [|done]. apply IH.
  unfold flat_mapped. destruct (decide (a = b)) as [->|]; [by rewrite lookup_insert_eq|by rewrite lookup_insert_ne].
Qed.
Lemma flat_out_mapped (u : flat) a bs :
  (forall i, (i < length bs)%nat -> flat_mapped u (a + Z.of_nat i)) -> fst (flat_out u a bs) = true.
Proof.
  revert u a. induction bs as [|x bs IH]; intros u a Hb; simpl; [done|].
  destruct (Hb 0%nat) as [y Hy]; [simpl; lia|]. rewrite Z.add_0_r in Hy. rewrite Hy. apply IH. intros i Hi.
  replace (a + 1 + Z.of_nat i) with (a + Z.of_nat (S i)) by lia. unfold flat_mapped.
  rewrite lookup_insert_ne by lia. apply Hb. simpl. lia.
Qed.

#[export] Program Instance flat_mem : UserMem flat := {|
  copyin := flat_in; copyin_left := flat_left; copyout := flat_out;
  copystr := flat_str; uview := flat_view; uread := flat_mapped; uwrite := flat_mapped
|}.
Next Obligation. intros u a n b. unfold flat_in. by case_match. Qed.
Next Obligation.
  intros u a n bs. unfold flat_in. case_match; simpl; [|done]. intros [= <-].
  rewrite length_map, length_seq. split; [done|]. intros i Hi.
  by rewrite list_lookup_fmap, lookup_seq_lt by done.
Qed.
Next Obligation.
  intros u a n. revert a. induction n as [|n IH]; intros a i x; simpl; [by rewrite lookup_nil|].
  destruct (u !! a); [|by rewrite lookup_nil]. destruct i as [|i]; simpl.
  - intros [= <-]. split; [lia|]. by rewrite Z.add_0_r.
  - intros [? ->]%IH. split; [lia|]. f_equal. lia.
Qed.
Next Obligation. apply flat_out_out. Qed.
Next Obligation. apply flat_out_in. Qed.
Next Obligation.
  intros u a max. revert a. induction max as [|max IH]; intros a bs; simpl; [done|].
  destruct (u !! a); [|done]. destruct (Z.eqb_spec (flat_view u a) 0) as [E|Hne].
  - intros [= <-]. exists []. split; [done|]. split; [by intros ?%elem_of_nil|]. split; [simpl; lia|].
    intros [|i] x; simpl; [|done]. intros [= <-]. by rewrite Z.add_0_r.
  - intros (bs' & Hs & ->)%fmap_Some. apply IH in Hs as (str & -> & Hn & Hl & Hv).
    exists (flat_view u a :: str). split; [done|]. split; [rewrite elem_of_cons; intros [?|?]; congruence|].
    split; [simpl; lia|]. intros [|i] x; simpl; [intros [= <-]; by rewrite Z.add_0_r|].
    intros ->%Hv. f_equal. lia.
Qed.
Next Obligation. intros u a. apply u8_range. Qed.
Next Obligation.
  intros u a n Hr. unfold flat_in. rewrite (proj2 (forallb_forall _ _)); [by eexists|].
  intros i Hi%in_seq. apply bool_decide_eq_true_2, Hr. lia.
Qed.
Next Obligation. apply flat_out_mapped. Qed.
Next Obligation. intros u a n b. unfold flat_in. by case_match. Qed.
Next Obligation. intros u a bs b. split; apply flat_out_keeps. Qed.
