(* ===== verification/Spinlock.v ===== *)
(** * Spin locks (kernel/spinlock.c)

   The lock word and owner field of struct spinlock, the per-CPU
   interrupt-nesting state of struct cpu, and the functions of
   kernel/spinlock.c.  [acquire_step] and [release_step] are the atomic
   actions of acquire() and release(), in their order; [acquire] and
   [release] run them to their end on one CPU, and the machine [step]
   interleaves them on any number of CPUs, with interrupts.  Memory is
   sequentially consistent: the fences of the code are the points where the
   atomic actions are ordered. *)

From stdpp Require Import base numbers list strings.
From Stdlib Require Import ZArith Lia.
From S2P Require Import Prelude.

(** struct cpu: the fields push_off() and pop_off() use, with the
    sstatus.SIE bit of the hart. *)
Record cpu := Cpu { noff : Z; intena : bool; intr : bool }.

(** struct spinlock *)
Record spinlock := Spinlock { locked : bool; owner : option nat }.

(** What one CPU sees of a lock while it runs acquire() or release(). *)
Record hart := Hart { h_cpu : cpu; h_lk : spinlock }.

Definition initlock : spinlock := Spinlock false None.

(** int holding(lk): does CPU [me] hold the lock? *)
Definition holding (me : nat) (lk : spinlock) : bool :=
  locked lk && bool_decide (owner lk = Some me).

Arguments holding : simpl never.

(** push_off() after its intr_get(), whose answer is [old]. *)
Definition push_count (old : bool) (c : cpu) : cpu :=
  Cpu (noff c + 1) (if noff c =? 0 then old else intena c) false.
Definition push_off (c : cpu) : cpu := push_count (intr c) c.

Definition pop_off : M cpu unit := fun c =>
  if intr c then Panic "pop_off - interruptible"
  else if noff c <? 1 then Panic "pop_off"
  else
    let n := noff c - 1 in
    Ok tt (Cpu n (intena c) ((n =? 0) && intena c)).

(** __sync_lock_test_and_set(&lk->locked, 1): the new lock and the old word. *)
Definition test_and_set (lk : spinlock) : bool * spinlock :=
  (locked lk, Spinlock true (owner lk)).

Definition L_cpu : lens hart cpu :=
  Lens h_cpu (fun c h => Hart c (h_lk h)).
Definition L_lk : lens hart spinlock :=
  Lens h_lk (fun l h => Hart (h_cpu h) l).

(** Where a thread is in acquire() or release(): the next atomic action.
    [Outside] and [Critical] are in the caller's code. *)
Inductive pc :=
| Outside | AcqGet | AcqOff (old : bool) | AcqHolding | AcqSwap | AcqOwner
| Critical | RelHolding | RelOwner | RelWord | RelPop | Panicked.

(** The actions of acquire().  An interrupt can fall between the intr_get()
    of push_off() and its intr_off(), and not after that; a failed swap is
    tried again. *)
Definition acquire_step (me : nat) (p : pc) : M hart pc :=
  match p with
  | AcqGet =>
      let* old := gets (fun h => intr (h_cpu h)) in
      ret (AcqOff old)
  | AcqOff old =>
      modify (fun h => lset L_cpu (push_count old (h_cpu h)) h) ;;
      ret AcqHolding
  | AcqHolding =>
      let* b := gets (fun h => holding me (h_lk h)) in
      if b then panic "acquire" else ret AcqSwap
  | AcqSwap =>
      let* old := gets (fun h => fst (test_and_set (h_lk h))) in
      modify (fun h => lset L_lk (snd (test_and_set (h_lk h))) h) ;;
      ret (if old then AcqSwap else AcqOwner)
  | AcqOwner =>
      modify (fun h => lset L_lk (Spinlock (locked (h_lk h)) (Some me)) h) ;;
      ret Critical
  | _ => ret p
  end.

(** The actions of release().  Interrupts are off until the end of
    pop_off(), which touches only its own CPU. *)
Definition release_step (me : nat) (p : pc) : M hart pc :=
  match p with
  | RelHolding =>
      let* b := gets (fun h => holding me (h_lk h)) in
      if negb b then panic "release" else ret RelOwner
  | RelOwner =>
      modify (fun h => lset L_lk (Spinlock (locked (h_lk h)) None) h) ;;
      ret RelWord
  | RelWord =>
      modify (fun h => lset L_lk (Spinlock false (owner (h_lk h))) h) ;;
      ret RelPop
  | RelPop =>
      zoom L_cpu pop_off ;;
      ret Outside
  | _ => ret p
  end.

Definition is_critical (p : pc) : bool := match p with Critical => true | _ => false end.
Definition is_outside (p : pc) : bool := match p with Outside => true | _ => false end.

(** A function, run to its end on one CPU. *)
Fixpoint run_until (fuel : nat) (stop : pc -> bool) (f : pc -> M hart pc) (p : pc) : M hart unit :=
  if stop p then ret tt
  else
    match fuel with
    | O => diverge
    | S k => let* q := f p in run_until k stop f q
    end.

(** Spinning on a lock that another CPU holds makes no progress on this
    CPU alone; [step] below interleaves the CPUs. *)
Definition acquire (me : nat) : M hart unit := run_until 5 is_critical (acquire_step me) AcqGet.
Definition release (me : nat) : M hart unit := run_until 4 is_outside (release_step me) RelHolding.

(* ------------------------------------------------------------------ *)
(** ** Interleaving

   CPUs that take and give back one lock again and again.  A CPU has a
   stack of frames, the running one first: its thread, and above it the
   interrupt handler that interrupted it, which takes the same lock. *)

Record machine := Machine {
  m_lk : spinlock;
  m_cpu : nat -> cpu;
  m_frames : nat -> list pc
}.

(** The next action of a frame, the caller's own moves included. *)
Definition act (me : nat) (p : pc) : M hart pc :=
  match p with
  | Outside => ret AcqGet
  | Critical => ret RelHolding
  | Panicked => ret Panicked
  | AcqGet | AcqOff _ | AcqHolding | AcqSwap | AcqOwner => acquire_step me p
  | RelHolding | RelOwner | RelWord | RelPop => release_step me p
  end.

Definition put (i : nat) (lk : spinlock) (c : cpu) (fs : list pc) (m : machine) : machine :=
  Machine lk (upd i c (m_cpu m)) (upd i fs (m_frames m)).

(** One atomic action of CPU [i]. *)
Definition run (i : nat) (m : machine) : machine :=
  match m_frames m i with
  | [] => m
  | p :: fs =>
      match act i p (Hart (m_cpu m i) (m_lk m)) with
      | Ok q h => put i (h_lk h) (h_cpu h) (q :: fs) m
      | _ => put i (m_lk m) (m_cpu m i) (Panicked :: fs) m
      end
  end.

(** A CPU with interrupts on may take one at any point: the hardware turns
    them off and the handler's frame starts.  At its end sret turns them on
    again, as they were. *)
Definition take_intr (i : nat) (m : machine) : machine :=
  put i (m_lk m) (Cpu (noff (m_cpu m i)) (intena (m_cpu m i)) false) (Outside :: m_frames m i) m.
Definition sret (i : nat) (m : machine) : machine :=
  put i (m_lk m) (Cpu (noff (m_cpu m i)) (intena (m_cpu m i)) true) (tail (m_frames m i)) m.

Inductive step (m : machine) : machine -> Prop :=
| step_run i : step m (run i m)
| step_intr i : intr (m_cpu m i) = true -> step m (take_intr i m)
| step_sret i p fs : m_frames m i = Outside :: p :: fs -> step m (sret i m).

Definition boot_cpus (cs : nat -> cpu) : machine :=
  Machine initlock cs (fun _ => [Outside]).

Inductive reachable (cs : nat -> cpu) : machine -> Prop :=
| reach_boot : reachable cs (boot_cpus cs)
| reach_step m m' : reachable cs m -> step m m' -> reachable cs m'.

(** A frame between its successful swap and its clearing store. *)
Definition in_region (p : pc) : bool :=
  match p with
  | AcqOwner | Critical | RelHolding | RelOwner | RelWord => true
  | _ => false
  end.

(** The owner field names the CPU during this part of the region. *)
Definition owns (p : pc) : bool :=
  match p with Critical | RelHolding | RelOwner => true | _ => false end.

(** Interrupt state of a CPU: nesting is not negative, and interrupts are
    on only outside every push_off(). *)
Definition cpu_wf (c : cpu) : Prop :=
  0 <= noff c /\ (intr c = true -> noff c = 0).

(** The CPU's fields when a frame that started with nesting depth [n],
    interrupt enable [b] and intena [e] is at [p]. *)
Definition at_point (n : Z) (b e : bool) (c : cpu) (p : pc) : Prop :=
  match p with
  | Outside | AcqGet => noff c = n /\ intr c = b /\ (n <> 0 -> intena c = e)
  | AcqOff old => noff c = n /\ intr c = b /\ (n <> 0 -> intena c = e) /\ old = b
  | Panicked => False
  | _ => noff c = n + 1 /\ intr c = false /\ intena c = if n =? 0 then b else e
  end.

(** Where a frame can be interrupted. *)
Definition open_point (p : pc) : Prop := p = Outside \/ p = AcqGet \/ p = AcqOff true.

(** A CPU that started with [c0]: one frame, or a handler's frame above one
    that was interrupted where interrupts are on. *)
Definition cpu_ok (c0 c : cpu) (fs : list pc) : Prop :=
  match fs with
  | [p] => at_point (noff c0) (intr c0) (intena c0) c p
  | [p; q] => intr c0 = true /\ open_point q /\ at_point 0 false false c p
  | _ => False
  end.

(** The running frame. *)
Definition m_pc (m : machine) (i : nat) : pc := hd Panicked (m_frames m i).

Record lock_inv (cs : nat -> cpu) (m : machine) : Prop := {
  inv_word : locked (m_lk m) = true <-> exists i, in_region (m_pc m i) = true;
  inv_one : forall i j, in_region (m_pc m i) = true ->
    in_region (m_pc m j) = true -> i = j;
  inv_owner : forall i, owner (m_lk m) = Some i <-> owns (m_pc m i) = true;
  inv_cpu : forall i, cpu_ok (cs i) (m_cpu m i) (m_frames m i)
}.

(* ------------------------------------------------------------------ *)
(** ** Lemmas *)

Lemma holding_mine me : holding me (Spinlock true (Some me)) = true.
Proof. unfold holding. simpl. by rewrite bool_decide_true. Qed.

Lemma holding_free me lk : locked lk = false -> holding me lk = false.
Proof. unfold holding. by intros ->. Qed.


Lemma holding_spec cs i m : lock_inv cs m -> holding i (m_lk m) = owns (m_pc m i).
Proof.
  intros Hm. unfold holding.
  destruct (owns (m_pc m i)) eqn:E.
  - rewrite (proj2 (inv_word _ m Hm)), (proj2 (inv_owner _ m Hm i) E).
    + by rewrite bool_decide_true.
    + exists i. by destruct (m_pc m i).
  - rewrite bool_decide_false; [by rewrite andb_false_r|].
    intros H. apply (inv_owner _ m Hm) in H. congruence.
Qed.

(** A step of CPU [i] keeps the invariant when [i]'s own new state agrees
    with the new lock and no other CPU is in the region at the same time. *)
Lemma inv_update cs i m lk c p fs :
  lock_inv cs m -> cpu_ok (cs i) c (p :: fs) ->
  (in_region p = true -> locked lk = true /\ forall j, j <> i -> in_region (m_pc m j) = false) ->
  (in_region p = false -> (locked lk = true <-> exists j, j <> i /\ in_region (m_pc m j) = true)) ->
  (owner lk = Some i <-> owns p = true) ->
  (forall j, j <> i -> owner lk = Some j <-> owner (m_lk m) = Some j) ->
  lock_inv cs (put i lk c (p :: fs) m).
Proof.
  intros Hm Hc Hin Hout Ho Hoj.
  assert (forall j, m_pc (put i lk c (p :: fs) m) j = if decide (j = i) then p else m_pc m j) as Epc.
  { intros j. unfold m_pc, put. simpl. case_decide as E; [subst; by rewrite upd_eq|by rewrite upd_ne]. }
  split; setoid_rewrite Epc || idtac; cbn [m_lk put].
  - destruct (in_region p) eqn:E.
    + split; [exists i; by rewrite decide_True|]. intros _. by apply Hin.
    + rewrite Hout by done. split.
      * intros (j & Hne & Hreg). exists j. by rewrite decide_False.
      * intros [j Hreg]. case_decide; [congruence|]. by exists j.
  - intros a b Ha Hb. destruct (decide (a = i)) as [->|Hai], (decide (b = i)) as [->|Hbi]; [done|..].
    + destruct (Hin Ha) as [_ Hno]. by rewrite Hno in Hb.
    + destruct (Hin Hb) as [_ Hno]. by rewrite Hno in Ha.
    + by eapply inv_one.
  - intros j. case_decide as Hji; [by subst|]. rewrite Hoj by done. by eapply inv_owner.
  - intros j. unfold put. simpl. destruct (decide (j = i)) as [->|Hji]; [by rewrite !upd_eq|].
    rewrite !upd_ne by done. by apply inv_cpu.
Qed.

Lemma others_out cs i m :
  lock_inv cs m -> in_region (m_pc m i) = true ->
  forall j, j <> i -> in_region (m_pc m j) = false.
Proof.
  intros Hm Hi j Hji. apply not_true_is_false. intros Hj.
  by eapply Hji, inv_one.
Qed.

Lemma owner_other cs i j m :
  lock_inv cs m -> in_region (m_pc m i) = true -> j <> i -> owner (m_lk m) <> Some j.
Proof.
  intros Hm Hi Hji Ho. apply (inv_owner _ m Hm) in Ho.
  eapply Hji, (inv_one _ m Hm); [|done]. by destruct (m_pc m j).
Qed.

Lemma word_other cs i m :
  lock_inv cs m -> in_region (m_pc m i) = false ->
  (locked (m_lk m) = true <-> exists j, j <> i /\ in_region (m_pc m j) = true).
Proof.
  intros Hm Hi. rewrite (inv_word _ m Hm). split; intros [j Hj]; exists j; [|naive_solver].
  split; [congruence|done].
Qed.

(** The CPU's fields are right for whichever frame runs. *)
Lemma cpu_ok_top c0 c p fs : cpu_wf c0 -> cpu_ok c0 c (p :: fs) -> exists n b e, cpu_wf (Cpu n e b) /\ at_point n b e c p /\
  forall c' q, at_point n b e c' q -> cpu_ok c0 c' (q :: fs).
Proof.
  intros Hwf. destruct fs as [|q [|? ?]]; simpl; [| |done].
  - intros Ha. by exists (noff c0), (intr c0), (intena c0).
  - intros (Hi & Hq & Ha). exists 0, false, false. split; [by split|]. split; [done|]. done.
Qed.

Ltac run_case cs i m :=
  apply (inv_update cs i m); [done|match goal with H : forall c q, _ -> cpu_ok _ c _ |- _ => apply H end; simpl; try tauto|simpl; try done; try tauto; try (intros; intuition congruence)..];
  try match goal with
      | H : forall j, _ -> _ -> owner _ <> Some j |- forall j, j <> i -> _ =>
          let Hj := fresh in
          intros j Hj; pose proof (H j eq_refl Hj); split; congruence
      end.

Lemma run_inv cs i m : (forall i, cpu_wf (cs i)) -> lock_inv cs m -> lock_inv cs (run i m).
Proof.
  intros Hcs Hm. unfold run. destruct (m_frames m i) as [|p fs] eqn:Ef; [done|].
  pose proof (inv_cpu _ _ Hm i) as Hc. rewrite Ef in Hc.
  apply cpu_ok_top in Hc as (n & b & e & [Hn Hb] & Hat & Hput); [|done]. simpl in Hn, Hb.
  assert (m_pc m i = p) as E by (unfold m_pc; by rewrite Ef).
  pose proof (holding_spec cs i m Hm) as Hh. pose proof (inv_owner _ m Hm i) as Howi.
  pose proof (word_other cs i m Hm) as Hword. pose proof (others_out cs i m Hm) as Hother.
  pose proof (fun j => owner_other cs i j m Hm) as Hoo. pose proof (proj2 (inv_word _ m Hm)) as Hlk.
  rewrite E in *. assert (in_region p = true -> locked (m_lk m) = true) as Hl by (intros; apply Hlk; exists i; by rewrite E).
  clear Hlk. destruct p; cbn [in_region owns at_point] in *; simpl; try done.
  - run_case cs i m.
  - run_case cs i m.
  - run_case cs i m. destruct Hat as (-> & <- & He & ->). split; [done|]. split; [done|].
    destruct (Z.eqb_spec n 0); [done|auto].
  - unfold bind, gets. simpl. rewrite Hh. simpl. run_case cs i m.
  - unfold act, acquire_step, bind, gets, modify. simpl. destruct (locked (m_lk m)) eqn:El; simpl.
    + run_case cs i m.
    + assert (forall j, j <> i -> in_region (m_pc m j) = false) as Hno.
      { intros j Hj. apply not_true_is_false. intros Hr. assert (false = true); [|done]. apply Hword; eauto. }
      run_case cs i m.
  - specialize (Hl eq_refl). run_case cs i m.
  - specialize (Hl eq_refl). run_case cs i m.
  - specialize (Hl eq_refl). unfold bind, gets. simpl. rewrite Hh. simpl. run_case cs i m.
  - specialize (Hl eq_refl). run_case cs i m.
  - run_case cs i m. intros _. split; [done|]. intros (j & Hj & Hr). rewrite Hother in Hr by done. done.
  - destruct Hat as (En & Ei & Ee). unfold bind, zoom, pop_off. simpl. rewrite Ei, En, (proj2 (Z.ltb_ge _ _)) by lia. simpl.
    run_case cs i m. replace (n + 1 - 1) with n by lia. rewrite Ee. split; [done|]. split.
    + destruct (Z.eqb_spec n 0); simpl; [done|]. destruct b; [|done]. by rewrite Hb in *.
    + intros Hn0. by rewrite (proj2 (Z.eqb_neq _ _)) by done.
Qed.

Lemma step_inv cs m m' : (forall i, cpu_wf (cs i)) -> lock_inv cs m -> step m m' -> lock_inv cs m'.
Proof.
  intros Hcs Hm Hs. destruct Hs as [i|i Hi|i p fs Ef]; [by apply run_inv|..].
  - pose proof (inv_cpu _ _ Hm i) as Hc. unfold take_intr. destruct (m_frames m i) as [|p [|q [|? ?]]] eqn:Ef; simpl in Hc; try done.
    2: { destruct p; simpl in Hc; intuition congruence. }
    assert (open_point p /\ intr (cs i) = true /\ noff (m_cpu m i) = noff (cs i)) as (Hop & Hi0 & En).
    { unfold open_point. destruct p; simpl in Hc; naive_solver congruence. }
    assert (m_pc m i = p) as E by (unfold m_pc; by rewrite Ef).
    pose proof (word_other cs i m Hm) as Hword. pose proof (inv_owner _ m Hm i) as Howi. rewrite E in *.
    assert (in_region p = false /\ owns p = false) as [Hr Ho] by (destruct Hop as [->|[->| ->]]; done). rewrite Ho in Howi.
    apply inv_update; try done; [|auto].
    simpl. split; [done|]. split; [done|]. rewrite En. destruct (Hcs i) as [_ H0]. rewrite H0 by done. done.
  - pose proof (inv_cpu _ _ Hm i) as Hc. unfold sret. rewrite Ef in Hc |- *. simpl.
    destruct fs; simpl in Hc; [|done]. destruct Hc as (Hi0 & Hop & En & Ei & _).
    assert (m_pc m i = Outside) as E by (unfold m_pc; by rewrite Ef).
    pose proof (word_other cs i m Hm) as Hword. pose proof (inv_owner _ m Hm i) as Howi. rewrite E in *.
    assert (in_region p = false /\ owns p = false) as [Hr Ho] by (destruct Hop as [->|[->| ->]]; done).
    apply inv_update; rewrite ?Hr, ?Ho; auto; [|done].
    destruct (Hcs i) as [_ H0]. unfold cpu_ok. rewrite Hi0, H0 by done.
    destruct Hop as [->|[->| ->]]; simpl; rewrite En; done.
Qed.

Lemma reachable_inv cs m :
  (forall i, cpu_wf (cs i)) -> reachable cs m -> lock_inv cs m.
Proof.
  intros Hcs. induction 1 as [|m m' _ IH Hs].
  - split; simpl; try done; try naive_solver.
  - by eapply step_inv.
Qed.

(** Only the running frame can be in the region. *)
Lemma critical_runs c0 c fs : cpu_ok c0 c fs -> Critical ∈ fs -> hd_error fs = Some Critical /\ intr c = false.
Proof.
  destruct fs as [|p [|q [|? ?]]]; simpl; try done; intros Hc Hin.
  - apply list_elem_of_singleton in Hin as <-. simpl in Hc. naive_solver.
  - destruct Hc as (_ & Hop & Ha). apply elem_of_cons in Hin as [<-|Hin]; [simpl in Ha; naive_solver|].
    apply list_elem_of_singleton in Hin as <-. destruct Hop as [?|[?|?]]; done.
Qed.

Lemma no_panic c0 c fs : cpu_ok c0 c fs -> Panicked ∉ fs.
Proof.
  destruct fs as [|p [|q [|? ?]]]; simpl; try done; intros Hc Hin.
  - by apply list_elem_of_singleton in Hin as <-.
  - destruct Hc as (_ & Hop & Ha). apply elem_of_cons in Hin as [<-|Hin]; [done|].
    apply list_elem_of_singleton in Hin as <-. destruct Hop as [?|[?|?]]; done.
Qed.

(** The actions of acquire() and release(), one after the other. *)
Ltac unroll :=
  cbv [acquire release run_until acquire_step release_step is_critical is_outside bind gets modify ret zoom
    pop_off push_count test_and_set lget lset L_cpu L_lk]; simpl.

(** acquire() of a lock that is free, and of one another CPU holds; release()
    of one this CPU holds. *)
Lemma acquire_free me c lk : locked lk = false ->
  acquire me (Hart c lk) = Ok tt (Hart (push_off c) (Spinlock true (Some me))).
Proof. intros Hl. unroll. rewrite (holding_free me lk Hl). simpl. by rewrite Hl. Qed.

Lemma acquire_spins me c lk : locked lk = true -> holding me lk = false -> acquire me (Hart c lk) = Diverge.
Proof. intros Hl Hh. unroll. rewrite Hh. simpl. by rewrite Hl. Qed.

Lemma release_mine me c : intr c = false -> 1 <= noff c ->
  release me (Hart c (Spinlock true (Some me))) =
  Ok tt (Hart (Cpu (noff c - 1) (intena c) ((noff c - 1 =? 0) && intena c)) initlock).
Proof. intros Hi Hn. unroll. rewrite holding_mine. simpl. by rewrite Hi, (proj2 (Z.ltb_ge _ _)) by lia. Qed.

(* ------------------------------------------------------------------ *)
(** ** Properties *)

(** C8.  Mutual exclusion, with interrupts: any number of CPUs take and give
    back one spin lock, their atomic actions interleaved in any way, and a
    CPU whose interrupts are on may at any point be interrupted by a handler
    that takes and gives back the same lock.  At most one CPU is in the
    critical section; it is there with its running frame, so that no handler
    waits for a lock its own CPU holds, with interrupts off, and it passes
    the holding() test.  No frame ever panics in acquire(), release() or
    pop_off().  A CPU that is back outside, with no handler running, has
    the nesting depth and the interrupt enable it started with. *)
Theorem spinlock_mutual_exclusion cs m :
  (forall k, cpu_wf (cs k)) -> reachable cs m ->
  (forall i j, Critical ∈ m_frames m i -> Critical ∈ m_frames m j ->
    i = j /\ hd_error (m_frames m i) = Some Critical /\ intr (m_cpu m i) = false /\ holding i (m_lk m) = true) /\
  (forall k, Panicked ∉ m_frames m k) /\
  (forall k, m_frames m k = [Outside] -> noff (m_cpu m k) = noff (cs k) /\ intr (m_cpu m k) = intr (cs k)).
Proof.
  intros Hcs Hm. apply reachable_inv in Hm; [|done]. split; [|split].
  - intros i j Hi Hj. destruct (critical_runs _ _ _ (inv_cpu _ _ Hm i) Hi) as [Ei Hoff].
    destruct (critical_runs _ _ _ (inv_cpu _ _ Hm j) Hj) as [Ej _].
    assert (m_pc m i = Critical /\ m_pc m j = Critical) as [Hpi Hpj].
    { unfold m_pc. destruct (m_frames m i), (m_frames m j); simpl in *; intuition congruence. }
    split; [eapply (inv_one _ m Hm); by rewrite ?Hpi, ?Hpj|]. split; [done|]. split; [done|].
    by rewrite (holding_spec cs), Hpi.
  - intros k. by eapply no_panic, inv_cpu.
  - intros k Ek. pose proof (inv_cpu _ _ Hm k) as Hc. rewrite Ek in Hc. simpl in Hc. tauto.
Qed.

(** CPU 0 reads its interrupt bit in push_off() and is interrupted; the
    handler has the lock. *)
Lemma spinlock_mutual_exclusion_witness :
  let m := Nat.iter 6 (run 0) (take_intr 0 (Nat.iter 2 (run 0) (boot_cpus (fun _ => Cpu 0 false true)))) in
  m_frames m 0%nat = [Critical; AcqOff true] /\ intr (m_cpu m 0%nat) = false /\ holding 0 (m_lk m) = true.
Proof.
  set (cs := fun _ : nat => Cpu 0 false true). intros m.
  assert (reachable cs m) as Hm.
  { do 6 (eapply reach_step; [|apply step_run]). eapply reach_step; [|by apply step_intr].
    do 2 (eapply reach_step; [|apply step_run]). constructor. }
  split; [reflexivity|].
  destruct (spinlock_mutual_exclusion cs m) as [H _]; [by intros k; split|done|].
  destruct (H 0%nat 0%nat) as (_ & _ & ? & ?); [apply elem_of_cons; by left..|]. done.
Defined.

(** acquire() then release() of a free lock returns, leaves the lock
    free, and restores the CPU's nesting depth and its interrupt-enable
    bit, whatever the nesting was: interrupts come back on exactly when
    they were on before. *)
Theorem acquire_release_restores me c lk :
  cpu_wf c -> locked lk = false ->
  exists c', (acquire me ;; release me) (Hart c lk) = Ok tt (Hart c' initlock) /\
    noff c' = noff c /\ intr c' = intr c.
Proof.
  intros [Hn Hi] Hl. erewrite bind_Ok by by apply acquire_free.
  rewrite release_mine by (done || simpl; lia). eexists; split; [done|]. simpl.
  split; [lia|]. replace (noff c + 1 - 1) with (noff c) by lia.
  destruct (Z.eqb_spec (noff c) 0); simpl; [done|]. destruct (intr c); naive_solver.
Qed.

Lemma acquire_release_restores_witness :
  exists c', (acquire 3 ;; release 3) (Hart (Cpu 0 false true) initlock)
    = Ok tt (Hart c' initlock) /\ noff c' = 0 /\ intr c' = true.
Proof. apply (acquire_release_restores 3 (Cpu 0 false true) initlock); done. Defined.

(** The thread view of a lock (the boolean the other components keep
    for each spin lock) is what holding() computes: acquire() and
    release() on the lock word and owner field act on it as
    [lock_acquire] and [lock_release] do, panics included; the only other
    outcome is to spin while a different CPU has the lock. *)
Theorem thread_view_refines me c lk :
  cpu_wf c ->
  let view := Lens (fun b : bool => b) (fun b _ => b) in
  match acquire me (Hart c lk) with
  | Ok _ h => lock_acquire view (holding me lk) = Ok tt (holding me (h_lk h))
  | Panic e => lock_acquire view (holding me lk) = Panic e
  | Diverge => locked lk = true /\ owner lk <> Some me
  | Sleep _ _ _ => False
  end /\
  (1 <= noff c -> intr c = false ->
  match release me (Hart c lk) with
  | Ok _ h => lock_release view (holding me lk) = Ok tt (holding me (h_lk h))
  | Panic e => lock_release view (holding me lk) = Panic e
  | _ => False
  end).
Proof.
  intros Hwf view. split.
  - unfold lock_acquire. unroll.
    destruct (holding me lk) eqn:Eh; simpl; [done|].
    destruct (locked lk) eqn:El; simpl; [|by rewrite holding_mine].
    split; [done|]. intros Ho. unfold holding in Eh.
    by rewrite El, Ho, bool_decide_true in Eh.
  - intros Hn Hi. unfold lock_release. unroll.
    destruct (holding me lk) eqn:Eh; simpl; [|done]. rewrite Hi, (proj2 (Z.ltb_ge _ _)) by lia. done.
Qed.

Lemma thread_view_refines_witness :
  let view := Lens (fun b : bool => b) (fun b _ => b) in
  match acquire 2 (Hart (Cpu 0 false true) (Spinlock true (Some 2%nat))) with
  | Panic e => lock_acquire view true = Panic e
  | _ => False
  end.
Proof.
  apply (thread_view_refines 2 (Cpu 0 false true) (Spinlock true (Some 2%nat))).
  by split.
Defined.
