(* ===== verification/Sleeplock.v ===== *)
(** * Sleep locks (kernel/sleeplock.c)

   A sleep lock is a flag and an owner pid protected by a spin lock.  The
   operations are written for a sleep lock found through a lens in any
   bigger state, so that buffers (Bio.v) and inodes (Fs.v) share them. *)

From stdpp Require Import base numbers list strings.
From Stdlib Require Import ZArith Lia.
From S2P Require Import Prelude.

(** struct sleeplock; [sl_lk] is the thread view of the spin lock inside. *)
Record sleeplock := Sleeplock { sl_locked : bool; sl_lk : bool; sl_pid : Z }.

Definition initsleeplock : sleeplock := Sleeplock false false 0.

Definition L_sl_lk : lens sleeplock bool :=
  Lens sl_lk (fun b k => Sleeplock (sl_locked k) b (sl_pid k)).

Section ops.
Context {S : Type} `{Woken S} `{WakeBudget}.

(** [l] finds the lock, [c] is its address as a sleep channel and [mypid]
    is myproc()->pid. *)
Definition acquiresleep (l : lens S sleeplock) (c : chan) (mypid : Z) : M S unit :=
  lock_acquire (lens_comp l L_sl_lk) ;;
  sleep_while wake_budget (fun s => sl_locked (lget l s)) c (lens_comp l L_sl_lk) ;;
  modify (fun s => lset l (Sleeplock true (sl_lk (lget l s)) mypid) s) ;;
  lock_release (lens_comp l L_sl_lk).

Definition releasesleep (l : lens S sleeplock) (c : chan) : M S unit :=
  lock_acquire (lens_comp l L_sl_lk) ;;
  modify (fun s => lset l (Sleeplock false (sl_lk (lget l s)) 0) s) ;;
  wakeup c ;;
  lock_release (lens_comp l L_sl_lk).

Definition holdingsleep (l : lens S sleeplock) (mypid : Z) : M S bool :=
  lock_acquire (lens_comp l L_sl_lk) ;;
  let* r := gets (fun s => sl_locked (lget l s) && (sl_pid (lget l s) =? mypid)) in
  lock_release (lens_comp l L_sl_lk) ;;
  ret r.

End ops.

(* ------------------------------------------------------------------ *)
(** ** A lock nobody contends for *)

(** A lens that finds a lock in the states [P], apart from the wake-ups. *)
Record lock_lens {S} `{Woken S} (l : lens S sleeplock) (P : S -> Prop) : Prop := {
  ll_keep k s : P s -> P (lset l k s);
  ll_get k s : P s -> lget l (lset l k s) = k;
  ll_set k k' s : P s -> lset l k (lset l k' s) = lset l k s;
  ll_id s : P s -> lset l (lget l s) s = s;
  ll_woken k s : P s -> lget woken (lset l k s) = lget woken s;
  ll_wget w s : P s -> lget l (lset woken w s) = lget l s;
  ll_swap w k s : P s -> lset woken w (lset l k s) = lset l k (lset woken w s);
  ll_wkeep w s : P s -> P (lset woken w s)
}.

Section free.
Context {S : Type} `{Woken S} `{WakeBudget} (l : lens S sleeplock) (P : S -> Prop) (L : lock_lens l P).

Lemma acquiresleep_free c pid s : P s -> sl_locked (lget l s) = false -> sl_lk (lget l s) = false ->
  acquiresleep l c pid s = Ok tt (lset l (Sleeplock true false pid) s).
Proof.
  intros HP Hl Hk. unfold acquiresleep. erewrite bind_Ok by (unfold lock_acquire; simpl; rewrite Hk; reflexivity).
  simpl. rewrite Hl. set (s1 := lset l (Sleeplock false true (sl_pid (lget l s))) s).
  assert (sleep_while wake_budget (fun s => sl_locked (lget l s)) c (lens_comp l L_sl_lk) s1 = Ok tt s1) as E.
  { destruct wake_budget; cbn [sleep_while]; (erewrite bind_Ok by done); unfold s1; by rewrite (ll_get _ _ L). }
  erewrite bind_Ok by exact E. erewrite bind_Ok by done. unfold s1. rewrite (ll_get _ _ L) by done. simpl.
  rewrite (ll_set _ _ L) by done. unfold lock_release. simpl. rewrite (ll_get _ _ L) by done. simpl.
  by rewrite (ll_set _ _ L).
Qed.

Lemma releasesleep_free c s : P s -> sl_lk (lget l s) = false ->
  releasesleep l c s = Ok tt (lset l initsleeplock (lset woken (lget woken s ++ [c]) s)).
Proof.
  intros HP Hk. unfold releasesleep. erewrite bind_Ok by (unfold lock_acquire; simpl; rewrite Hk; reflexivity).
  erewrite bind_Ok by done. simpl. rewrite ?(ll_get _ _ L) by done. simpl. rewrite (ll_set _ _ L) by done.
  unfold wakeup. erewrite bind_Ok by done. rewrite (ll_woken _ _ L), (ll_swap _ _ L) by done.
  unfold lock_release. simpl. rewrite (ll_get _ _ L) by by apply (ll_wkeep _ _ L). simpl.
  by rewrite (ll_set _ _ L) by by apply (ll_wkeep _ _ L).
Qed.

Lemma holdingsleep_free pid s : P s -> sl_lk (lget l s) = false ->
  holdingsleep l pid s = Ok (sl_locked (lget l s) && (sl_pid (lget l s) =? pid)) s.
Proof.
  intros HP Hk. unfold holdingsleep. erewrite bind_Ok by (unfold lock_acquire; simpl; rewrite Hk; reflexivity).
  erewrite bind_Ok by done. simpl. rewrite ?(ll_get _ _ L) by done. simpl.
  unfold lock_release. erewrite bind_Ok by (simpl; rewrite (ll_get _ _ L) by done; reflexivity).
  simpl. rewrite (ll_set _ _ L) by done. simpl.
  unfold ret. f_equal. rewrite <- Hk. rewrite <- (ll_id _ _ L s HP) at 5. f_equal. by destruct (lget l s).
Qed.

End free.

(** A state with one sleep lock, for the properties of the lock itself. *)
Record slstate := SlState { the_lock : sleeplock; the_woken : list chan }.
Definition L_the_lock : lens slstate sleeplock :=
  Lens the_lock (fun k s => SlState k (the_woken s)).
#[global] Instance slstate_woken : Woken slstate :=
  Lens the_woken (fun w s => SlState (the_lock s) w).

(* ------------------------------------------------------------------ *)
(** ** Properties *)

(** acquiresleep() in an environment that may do anything to the lock
    while the caller sleeps, except leave its spin lock taken: the caller
    never sleeps with the spin lock held, it sleeps only while the sleep
    lock is held, and when it returns it owns the sleep lock, with the
    spin lock free. *)
Theorem acquiresleep_waits `{WakeBudget} c pid s :
  sl_lk (the_lock s) = false ->
  rg wake_budget (fun c' s' => c' = c /\ sl_lk (the_lock s') = false /\ sl_locked (the_lock s') = true)
     (fun _ _ s' => sl_lk (the_lock s') = false)
     (fun _ s' => the_lock s' = Sleeplock true false pid)
     (acquiresleep L_the_lock c pid s).
Proof.
  intros Hlk. unfold acquiresleep, bind at 1, lock_acquire at 1. simpl. rewrite Hlk. simpl.
  unfold bind at 1. apply rg_bind.
  eapply rg_mono; [apply (rg_sleep_while _ _ _ _ _ _ (fun _ => True))|]; simpl; [done..| |].
  - intros s1 _ ? ?. split; [done|]. by intros s2 ?.
  - intros [] s1 (_ & _ & Hin). unfold bind, modify, lock_release. simpl. by rewrite Hin.
Qed.

Lemma acquiresleep_waits_witness :
  rg 2 (fun c' s' => c' = ChSleeplock "buffer" 3 /\ sl_lk (the_lock s') = false /\
        sl_locked (the_lock s') = true)
     (fun _ _ s' => sl_lk (the_lock s') = false)
     (fun _ s' => the_lock s' = Sleeplock true false 7)
     (acquiresleep (H0 := 2%nat) L_the_lock (ChSleeplock "buffer" 3) 7
        (SlState (Sleeplock true false 5) [])).
Proof. apply (@acquiresleep_waits 2%nat). reflexivity. Defined.
