(* ===== verification/Ring.v ===== *)
(** * Circular doubly linked lists

   The pointer reasoning behind the buffer cache's list: [linked nx pv p]
   says that consecutive nodes of the path [p] point at each other through
   the next pointers [nx] and the previous pointers [pv].  A ring with head
   [h] and elements [l] is the path [h :: l ++ [h]]. *)

From stdpp Require Import base numbers list sets.
From Stdlib Require Import Lia.
From S2P Require Import Prelude.

Fixpoint linked (nx pv : nat -> nat) (p : list nat) : Prop :=
  match p with
  | x :: (y :: _) as q => nx x = y /\ pv y = x /\ linked nx pv q
  | _ => True
  end.

Definition ring (nx pv : nat -> nat) (h : nat) (l : list nat) : Prop :=
  linked nx pv (h :: l ++ [h]) /\ NoDup (h :: l).

Lemma linked_cons nx pv x y q :
  linked nx pv (x :: y :: q) <-> nx x = y /\ pv y = x /\ linked nx pv (y :: q).
Proof. done. Qed.

Lemma linked_app nx pv p x q :
  linked nx pv (p ++ x :: q) <-> linked nx pv (p ++ [x]) /\ linked nx pv (x :: q).
Proof.
  induction p as [|a p IH].
  - simpl. destruct q; tauto.
  - destruct p as [|b p]; simpl in *; [tauto|]. rewrite IH. tauto.
Qed.

Lemma linked_frame nx pv nx' pv' p :
  linked nx pv p ->
  (forall a, a ∈ removelast p -> nx' a = nx a) ->
  (forall a, a ∈ tail p -> pv' a = pv a) ->
  linked nx' pv' p.
Proof.
  induction p as [|x p IH]; [done|]. destruct p as [|y q]; [done|].
  intros (Hx & Hy & Hq) Hnx Hpv. rewrite linked_cons. split_and!.
  - rewrite Hnx; [done|]. simpl. left.
  - rewrite Hpv; [done|]. simpl. left.
  - apply IH; [done|..].
    + intros a Ha. apply Hnx. simpl in *. by right.
    + intros a Ha. apply Hpv. simpl in *. by right.
Qed.

Lemma linked_pointwise nx pv nx' pv' p :
  (forall a, nx' a = nx a) -> (forall a, pv' a = pv a) ->
  linked nx pv p -> linked nx' pv' p.
Proof. intros. eapply linked_frame; eauto. Qed.

Lemma ring_pointwise nx pv nx' pv' h l :
  (forall a, nx' a = nx a) -> (forall a, pv' a = pv a) ->
  ring nx pv h l -> ring nx' pv' h l.
Proof. intros ?? [? ?]. split; [|done]. by eapply linked_pointwise. Qed.

Lemma removelast_snoc {A} (l : list A) x : removelast (l ++ [x]) = l.
Proof. apply removelast_last. Qed.

(** The first node of a path that ends in [h]. *)
Lemma ring_first nx pv h l : ring nx pv h l -> nx h = default h (head l).
Proof. intros [Hl _]. destruct l; simpl in *; tauto. Qed.

(** [h -> z] becomes [h -> b -> z]. *)
Lemma ring_push nx pv h l b :
  ring nx pv h l -> b <> h -> b ∉ l ->
  let z := nx h in
  ring (upd h b (upd b z nx)) (upd z b (upd b h pv)) h (b :: l).
Proof.
  intros Hr Hbh Hbl z. destruct Hr as [Hl Hnd].
  assert (z = default h (head l)) as Hz by (by apply (ring_first nx pv)).
  split; [|apply NoDup_cons in Hnd as [? ?]; constructor; [set_solver|by constructor]].
  assert (linked (upd h b (upd b z nx)) (upd z b (upd b h pv)) (b :: l ++ [h])) as Htl.
  { destruct l as [|y l]; simpl in Hz; rewrite Hz; clear Hz.
    - simpl. rewrite upd_ne, upd_eq, upd_eq by done. done.
    - assert (linked nx pv (y :: l ++ [h])) as Hq by (simpl in Hl; tauto).
      assert (NoDup (y :: l ++ [h])) as Hnd'.
      { apply NoDup_cons in Hnd as [Hh Hnd]. change (NoDup ((y :: l) ++ [h])).
        apply NoDup_app. split; [done|]. split; [set_solver|apply NoDup_singleton]. }
      apply NoDup_cons in Hnd as [Hh Hnd].
      change (b :: (y :: l) ++ [h]) with (b :: y :: (l ++ [h])).
      rewrite linked_cons. rewrite upd_ne, upd_eq, upd_eq by done. split_and!; try done.
      eapply linked_frame; [done|..].
      + intros a Ha. change (y :: l ++ [h]) with ((y :: l) ++ [h]) in Ha.
        rewrite removelast_snoc in Ha. rewrite !upd_ne; set_solver.
      + intros a Ha. simpl in Ha. apply NoDup_cons in Hnd' as [? ?].
        rewrite !upd_ne; set_solver. }
  change (h :: (b :: l) ++ [h]) with (h :: b :: (l ++ [h])). rewrite linked_cons, upd_eq.
  split_and!; [done| |done].
  destruct (decide (b = z)) as [->|Hbz]; [|by rewrite upd_ne, upd_eq].
  destruct l as [|y l]; simpl in Hz; [done|]. set_solver.
Qed.

(** [x -> b -> y] becomes [x -> y]. *)
Lemma linked_unlink nx pv p x b y q :
  linked nx pv (p ++ x :: b :: y :: q) ->
  NoDup (p ++ x :: b :: removelast (y :: q)) ->
  NoDup (tail (p ++ x :: b :: y :: q)) ->
  linked (upd x y nx) (upd y x pv) (p ++ x :: y :: q).
Proof.
  intros Hl Hs Ht. apply linked_app in Hl as [Hp Hq].
  destruct Hq as (_ & _ & _ & _ & Hq).
  apply NoDup_app in Hs as (_ & Hpx & Hs). apply NoDup_cons in Hs as [Hxs _].
  assert (y ∉ q /\ y ∉ tail (p ++ [x])) as [Hyq Hyp].
  { destruct p as [|a p]; simpl in *.
    - apply NoDup_cons in Ht as [_ Ht]. apply NoDup_cons in Ht as [Ht _]. set_solver.
    - replace (p ++ x :: b :: y :: q) with ((p ++ [x]) ++ b :: y :: q) in Ht
        by (by rewrite <- app_assoc).
      apply NoDup_app in Ht as (_ & Hd & Ht). apply NoDup_cons in Ht as [_ Ht].
      apply NoDup_cons in Ht as [Ht _]. split; [done|].
      intros Hin. apply (Hd y Hin). set_solver. }
  apply linked_app. split.
  - eapply linked_frame; [done|..].
    + intros a Ha. rewrite removelast_snoc in Ha. apply upd_ne. set_solver.
    + intros a Ha. apply upd_ne. set_solver.
  - rewrite linked_cons, !upd_eq. split_and!; [done..|].
    eapply linked_frame; [done|..].
    + intros a Ha. apply upd_ne. set_solver.
    + intros a Ha. simpl in Ha. apply upd_ne. set_solver.
Qed.

Lemma snoc_cons {A} (x : A) l : exists l' y, x :: l = l' ++ [y].
Proof.
  revert x. induction l as [|a l IH]; intros x; [by exists [], x|].
  destruct (IH a) as (l' & y & ->). by exists (x :: l'), y.
Qed.

(** Removing [b] from the ring with the two stores
    [b->next->prev = b->prev; b->prev->next = b->next]. *)
Lemma ring_remove nx pv h l1 b l2 :
  ring nx pv h (l1 ++ b :: l2) ->
  ring (upd (pv b) (nx b) nx) (upd (nx b) (pv b) pv) h (l1 ++ l2).
Proof.
  intros [Hl Hnd].
  destruct (snoc_cons h l1) as (p & x & Hp).
  assert (exists y q, l2 ++ [h] = y :: q /\ removelast (y :: q) = l2) as (y & q & Hq & Hrq).
  { destruct l2 as [|y l2]; [by exists h, []|]. exists y, (l2 ++ [h]).
    split; [done|]. apply (removelast_snoc (y :: l2)). }
  assert (h :: (l1 ++ b :: l2) ++ [h] = p ++ x :: b :: y :: q) as Heq.
  { rewrite <- app_assoc. simpl. rewrite Hq. change (h :: l1 ++ b :: y :: q) with ((h :: l1) ++ b :: y :: q).
    rewrite Hp. by rewrite <- app_assoc. }
  rewrite Heq in Hl.
  assert (pv b = x /\ nx b = y) as [-> ->].
  { apply linked_app in Hl as [_ Hl]. simpl in Hl. tauto. }
  split.
  - replace (h :: (l1 ++ l2) ++ [h]) with (p ++ x :: y :: q).
    2:{ rewrite <- app_assoc, Hq. change (h :: l1 ++ y :: q) with ((h :: l1) ++ y :: q).
        rewrite Hp. by rewrite <- app_assoc. }
    apply (linked_unlink _ _ _ _ b); [done|..].
    + rewrite Hrq. replace (p ++ x :: b :: l2) with (h :: l1 ++ b :: l2); [done|].
      change (h :: l1 ++ b :: l2) with ((h :: l1) ++ b :: l2). rewrite Hp. by rewrite <- app_assoc.
    + rewrite <- Heq. simpl. apply NoDup_cons in Hnd as [? ?].
      apply NoDup_app. split; [done|]. split; [set_solver|apply NoDup_singleton].
  - apply NoDup_cons in Hnd as [Hh Hnd]. apply NoDup_app in Hnd as (H1 & H2 & H3).
    apply NoDup_cons in H3 as [? ?]. constructor; [set_solver|].
    apply NoDup_app. split; [done|]. split; [set_solver|done].
Qed.

(** The neighbours of an element are ring nodes other than itself. *)
Lemma ring_neighbours nx pv h l1 b l2 :
  ring nx pv h (l1 ++ b :: l2) ->
  nx b ∈ l2 ++ [h] /\ pv b ∈ h :: l1 /\ b <> nx b /\ b <> pv b.
Proof.
  intros [Hl Hnd].
  assert (nx b ∈ l2 ++ [h] /\ pv b ∈ h :: l1) as [Hn Hp].
  { destruct (snoc_cons h l1) as (p & x & Hp).
    assert (h :: (l1 ++ b :: l2) ++ [h] = p ++ x :: b :: (l2 ++ [h])) as Heq.
    { rewrite <- app_assoc. change (h :: l1 ++ (b :: l2) ++ [h]) with ((h :: l1) ++ b :: l2 ++ [h]).
      rewrite Hp. by rewrite <- app_assoc. }
    rewrite Heq in Hl. apply linked_app in Hl as [_ Hl].
    split.
    - destruct l2; simpl in *; destruct Hl as (_ & _ & -> & _); left.
    - rewrite Hp. destruct Hl as (_ & -> & _). set_solver. }
  apply NoDup_cons in Hnd as [Hh Hnd]. apply NoDup_app in Hnd as (_ & Hd & Hnd).
  apply NoDup_cons in Hnd as [Hb _]. split_and!; [done|done|..]; intros E; rewrite <- E in *; set_solver.
Qed.
