(* ===== verification/Bio.v ===== *)
(** * The buffer cache (kernel/bio.c)

   NBUF buffers on a circular doubly linked list in least-recently-used
   order.  The pointers of the list are kept as the code keeps them: each
   buffer has [b_prev] and [b_next], a pointer is the buffer's index, and
   the list head is the extra entry [HEAD].  The disk below the cache is an
   array of blocks; [bc_writes] records every block write in order, so that
   Log.v can say what a crash leaves behind. *)

From stdpp Require Import base numbers list gmap strings.
From Stdlib Require Import ZArith Lia.
From S2P Require Import Prelude Params Sleeplock Ring.

(** struct buf (kernel/buf.h) *)
Record buf := Buf {
  b_valid : bool;
  b_disk : bool;
  b_dev : Z;
  b_blockno : Z;
  b_lock : sleeplock;
  b_refcnt : Z;
  b_prev : nat;
  b_next : nat;
  b_data : list Z
}.

Definition zero_block : list Z := replicate (Z.to_nat BSIZE) 0.
Definition buf0 : buf := Buf false false 0 0 initsleeplock 0 0 0 zero_block.

(** struct bcache, the disk under it, and the calling process's pid. *)
Record bio := Bio {
  bc_lock : bool;
  bc_buf : list buf;
  bc_disk : gmap Z (list Z);
  bc_writes : list (Z * list Z);
  bc_pid : Z;
  bc_woken : list chan
}.

Definition HEAD : nat := Z.to_nat NBUF.

Definition getbuf (i : nat) (bs : list buf) : buf := default buf0 (bs !! i).
Definition disk_block (d : gmap Z (list Z)) (b : Z) : list Z := default zero_block (d !! b).

Definition set_next (n : nat) (b : buf) : buf :=
  Buf (b_valid b) (b_disk b) (b_dev b) (b_blockno b) (b_lock b) (b_refcnt b) (b_prev b) n (b_data b).
Definition set_prev (p : nat) (b : buf) : buf :=
  Buf (b_valid b) (b_disk b) (b_dev b) (b_blockno b) (b_lock b) (b_refcnt b) p (b_next b) (b_data b).
Definition set_sleeplock (k : sleeplock) (b : buf) : buf :=
  Buf (b_valid b) (b_disk b) (b_dev b) (b_blockno b) k (b_refcnt b) (b_prev b) (b_next b) (b_data b).
Definition set_refcnt (r : Z) (b : buf) : buf :=
  Buf (b_valid b) (b_disk b) (b_dev b) (b_blockno b) (b_lock b) r (b_prev b) (b_next b) (b_data b).
Definition set_valid (v : bool) (b : buf) : buf :=
  Buf v (b_disk b) (b_dev b) (b_blockno b) (b_lock b) (b_refcnt b) (b_prev b) (b_next b) (b_data b).
Definition set_data (d : list Z) (b : buf) : buf :=
  Buf (b_valid b) (b_disk b) (b_dev b) (b_blockno b) (b_lock b) (b_refcnt b) (b_prev b) (b_next b) d.
(** the four stores that recycle a buffer in bget() *)
Definition recycle (dev blockno : Z) (b : buf) : buf :=
  Buf false (b_disk b) dev blockno (b_lock b) 1 (b_prev b) (b_next b) (b_data b).

Definition set_bufs (bs : list buf) (s : bio) : bio :=
  Bio (bc_lock s) bs (bc_disk s) (bc_writes s) (bc_pid s) (bc_woken s).
Definition upd_buf (i : nat) (f : buf -> buf) (s : bio) : bio :=
  set_bufs (alter f i (bc_buf s)) s.

Definition L_bc_lock : lens bio bool :=
  Lens bc_lock (fun b s => Bio b (bc_buf s) (bc_disk s) (bc_writes s) (bc_pid s) (bc_woken s)).
#[global] Instance bio_woken : Woken bio :=
  Lens bc_woken (fun w s => Bio (bc_lock s) (bc_buf s) (bc_disk s) (bc_writes s) (bc_pid s) w).
Definition L_buf_lock (i : nat) : lens bio sleeplock :=
  Lens (fun s => b_lock (getbuf i (bc_buf s))) (fun k => upd_buf i (set_sleeplock k)).

(** &bcache.buf[i].lock as a sleep channel *)
Definition buf_chan (i : nat) : chan := ChSleeplock "buffer" i.

(** one iteration of the loop of binit(): insert buffer [b] after the head *)
Definition binit_one (b : nat) (bs : list buf) : list buf :=
  let first := b_next (getbuf HEAD bs) in
  let bs := alter (set_next first) b bs in
  let bs := alter (set_prev HEAD) b bs in
  let bs := alter (set_sleeplock initsleeplock) b bs in
  let bs := alter (set_prev b) (b_next (getbuf HEAD bs)) bs in
  alter (set_next b) HEAD bs.

Definition binit : M bio unit :=
  modify (lset L_bc_lock false) ;;
  modify (upd_buf HEAD (set_prev HEAD)) ;;
  modify (upd_buf HEAD (set_next HEAD)) ;;
  for_range (Z.to_nat NBUF) 0
    (fun b => modify (fun s => set_bufs (binit_one (Z.to_nat b) (bc_buf s)) s)).

(** the six stores of brelse() that unlink buffer [b] and put it just after
    the head *)
Definition relink (b : nat) (bs : list buf) : list buf :=
  let bs := alter (set_prev (b_prev (getbuf b bs))) (b_next (getbuf b bs)) bs in
  let bs := alter (set_next (b_next (getbuf b bs))) (b_prev (getbuf b bs)) bs in
  let bs := alter (set_next (b_next (getbuf HEAD bs))) b bs in
  let bs := alter (set_prev HEAD) b bs in
  let bs := alter (set_prev b) (b_next (getbuf HEAD bs)) bs in
  alter (set_next b) HEAD bs.

Section ops.
Context `{WakeBudget}.

(** for(b = bcache.head.next; b != &bcache.head; b = b->next) *)
Fixpoint bget_scan (fuel : nat) (dev blockno : Z) (b : nat) : M bio (option nat) :=
  if decide (b = HEAD) then ret None
  else match fuel with
  | O => diverge
  | S f =>
      let* x := gets (fun s => getbuf b (bc_buf s)) in
      if (b_dev x =? dev) && (b_blockno x =? blockno) then ret (Some b)
      else bget_scan f dev blockno (b_next x)
  end.

(** for(b = bcache.head.prev; b != &bcache.head; b = b->prev) *)
Fixpoint bget_victim (fuel : nat) (b : nat) : M bio (option nat) :=
  if decide (b = HEAD) then ret None
  else match fuel with
  | O => diverge
  | S f =>
      let* x := gets (fun s => getbuf b (bc_buf s)) in
      if b_refcnt x =? 0 then ret (Some b)
      else bget_victim f (b_prev x)
  end.

Definition mypid : M bio Z := gets bc_pid.

Definition bget (dev blockno : Z) : M bio nat :=
  lock_acquire L_bc_lock ;;
  let* first := gets (fun s => b_next (getbuf HEAD (bc_buf s))) in
  let* hit := bget_scan (Z.to_nat NBUF) dev blockno first in
  match hit with
  | Some b =>
      modify (upd_buf b (fun x => set_refcnt (u32 (b_refcnt x + 1)) x)) ;;
      lock_release L_bc_lock ;;
      let* pid := mypid in
      acquiresleep (L_buf_lock b) (buf_chan b) pid ;;
      ret b
  | None =>
      let* last := gets (fun s => b_prev (getbuf HEAD (bc_buf s))) in
      let* victim := bget_victim (Z.to_nat NBUF) last in
      match victim with
      | Some b =>
          modify (upd_buf b (recycle dev blockno)) ;;
          lock_release L_bc_lock ;;
          let* pid := mypid in
          acquiresleep (L_buf_lock b) (buf_chan b) pid ;;
          ret b
      | None => panic "bget: no buffers"
      end
  end.

(** The disk transfer virtio_disk_rw() asks the device for: [write] moves
    the buffer to its block of the disk, otherwise the block is read into
    the buffer.  The device applies one block at a time. *)
Definition disk_rw (b : nat) (write : bool) : M bio unit :=
  modify (fun s =>
    let x := getbuf b (bc_buf s) in
    if write then
      Bio (bc_lock s) (bc_buf s) (<[b_blockno x := b_data x]> (bc_disk s))
        (bc_writes s ++ [(b_blockno x, b_data x)]) (bc_pid s) (bc_woken s)
    else upd_buf b (set_data (disk_block (bc_disk s) (b_blockno x))) s).

Definition bread (dev blockno : Z) : M bio nat :=
  let* b := bget dev blockno in
  let* v := gets (fun s => b_valid (getbuf b (bc_buf s))) in
  (if negb v then disk_rw b false ;; modify (upd_buf b (set_valid true)) else ret tt) ;;
  ret b.

Definition bwrite (b : nat) : M bio unit :=
  let* pid := mypid in
  let* h := holdingsleep (L_buf_lock b) pid in
  if negb h then panic "bwrite" else disk_rw b true.

Definition brelse (b : nat) : M bio unit :=
  let* pid := mypid in
  let* h := holdingsleep (L_buf_lock b) pid in
  if negb h then panic "brelse"
  else
    releasesleep (L_buf_lock b) (buf_chan b) ;;
    lock_acquire L_bc_lock ;;
    modify (upd_buf b (fun x => set_refcnt (u32 (b_refcnt x - 1)) x)) ;;
    let* x := gets (fun s => getbuf b (bc_buf s)) in
    (if b_refcnt x =? 0 then modify (fun s => set_bufs (relink b (bc_buf s)) s)
     else ret tt) ;;
    lock_release L_bc_lock.

Definition bpin (b : nat) : M bio unit :=
  lock_acquire L_bc_lock ;;
  modify (upd_buf b (fun x => set_refcnt (u32 (b_refcnt x + 1)) x)) ;;
  lock_release L_bc_lock.

Definition bunpin (b : nat) : M bio unit :=
  lock_acquire L_bc_lock ;;
  modify (upd_buf b (fun x => set_refcnt (u32 (b_refcnt x - 1)) x)) ;;
  lock_release L_bc_lock.

(** reading and writing b->data of a locked buffer *)
Definition bdata (b : nat) : M bio (list Z) := gets (fun s => b_data (getbuf b (bc_buf s))).
Definition bset (b : nat) (d : list Z) : M bio unit := modify (upd_buf b (set_data d)).

End ops.

(** The cache as it is before binit(): all-zero memory over a disk. *)
Definition boot_bio (d : gmap Z (list Z)) (pid : Z) : bio :=
  Bio false (replicate (S HEAD) buf0) d [] pid [].

(* ------------------------------------------------------------------ *)
(** ** The promise of the cache

   What clients see: the disk and the live buffers, a map from block number
   to contents, lock state and reference count.  A block that is not live
   reads as the disk holds it.  [bio_rep s A] says that the pointers, the
   hash of block numbers to buffers and the recycling order of [s]
   implement [A]. *)

Record abuf := ABuf { ab_data : list Z; ab_locked : bool; ab_ref : Z }.
Record acache := ACache { a_disk : gmap Z (list Z); a_live : gmap Z abuf }.

Definition a_view (A : acache) (b : Z) : list Z :=
  match a_live A !! b with
  | Some x => ab_data x
  | None => disk_block (a_disk A) b
  end.

Definition set_live (A : acache) (b : Z) (x : abuf) : acache :=
  ACache (a_disk A) (<[b := x]> (a_live A)).
(** drop one reference and unlock *)
Definition drop_live (A : acache) (b : Z) (x : abuf) : acache :=
  ACache (a_disk A)
    (if ab_ref x =? 1 then delete b (a_live A)
     else <[b := ABuf (ab_data x) false (ab_ref x - 1)]> (a_live A)).

Definition nxp (bs : list buf) (i : nat) : nat := b_next (getbuf i bs).
Definition pvp (bs : list buf) (i : nat) : nat := b_prev (getbuf i bs).

(** What the promise says of one buffer. *)
Definition buf_ok (A : acache) (pid : Z) (x : buf) : Prop :=
  sl_lk (b_lock x) = false /\
  (sl_locked (b_lock x) = true -> sl_pid (b_lock x) = pid) /\
  0 <= b_refcnt x < 2 ^ 32 /\
  (b_refcnt x <> 0 ->
     b_dev x = ROOTDEV /\ b_valid x = true /\
     a_live A !! b_blockno x = Some (ABuf (b_data x) (sl_locked (b_lock x)) (b_refcnt x))) /\
  (b_refcnt x = 0 ->
     sl_locked (b_lock x) = false /\
     (b_valid x = true -> b_dev x = ROOTDEV ->
      b_data x = disk_block (a_disk A) (b_blockno x))).

(** Buffer [i] is the live buffer of block [b]. *)
Definition handle (s : bio) (i : nat) (b : Z) : Prop :=
  (i < HEAD)%nat /\ b_dev (getbuf i (bc_buf s)) = ROOTDEV /\
  b_blockno (getbuf i (bc_buf s)) = b /\ b_refcnt (getbuf i (bc_buf s)) <> 0.

Record bio_rep (s : bio) (A : acache) : Prop := {
  r_lock : bc_lock s = false;
  r_len : length (bc_buf s) = S HEAD;
  r_ring : exists l, ring (nxp (bc_buf s)) (pvp (bc_buf s)) HEAD l /\ l ≡ₚ seq 0 HEAD;
  r_disk : bc_disk s = a_disk A;
  r_buf : forall i, (i < HEAD)%nat -> buf_ok A (bc_pid s) (getbuf i (bc_buf s));
  r_uniq : forall i j, (i < HEAD)%nat -> (j < HEAD)%nat ->
    b_dev (getbuf i (bc_buf s)) = ROOTDEV -> b_dev (getbuf j (bc_buf s)) = ROOTDEV ->
    b_blockno (getbuf i (bc_buf s)) = b_blockno (getbuf j (bc_buf s)) -> i = j;
  r_dom : forall b, is_Some (a_live A !! b) -> exists i, handle s i b
}.

(* ------------------------------------------------------------------ *)
(** ** Lemmas: buffers and pointers *)

Lemma getbuf_alter f i j bs :
  (i < length bs)%nat ->
  getbuf j (alter f i bs) = if decide (j = i) then f (getbuf i bs) else getbuf j bs.
Proof.
  intros Hi. unfold getbuf. case_decide as Hd.
  - subst j. rewrite list_lookup_alter_eq.
    by destruct (lookup_lt_is_Some_2 bs i Hi) as [x ->].
  - by rewrite list_lookup_alter_ne by done.
Qed.

Lemma getbuf_alter_eq f i bs :
  (i < length bs)%nat -> getbuf i (alter f i bs) = f (getbuf i bs).
Proof. intros. rewrite getbuf_alter by done. by rewrite decide_True. Qed.

Lemma getbuf_alter_ne f i j bs :
  (i < length bs)%nat -> j <> i -> getbuf j (alter f i bs) = getbuf j bs.
Proof. intros. rewrite getbuf_alter by done. by rewrite decide_False. Qed.

Lemma nxp_set_next i v bs a :
  (i < length bs)%nat -> nxp (alter (set_next v) i bs) a = upd i v (nxp bs) a.
Proof. intros. unfold nxp, upd. rewrite getbuf_alter by done. by case_decide. Qed.

Lemma pvp_set_prev i v bs a :
  (i < length bs)%nat -> pvp (alter (set_prev v) i bs) a = upd i v (pvp bs) a.
Proof. intros. unfold pvp, upd. rewrite getbuf_alter by done. by case_decide. Qed.

(** Stores to the other fields leave the list pointers alone. *)
Lemma ptrs_alter f i bs a :
  (i < length bs)%nat ->
  (forall x, b_next (f x) = b_next x) -> (forall x, b_prev (f x) = b_prev x) ->
  nxp (alter f i bs) a = nxp bs a /\ pvp (alter f i bs) a = pvp bs a.
Proof.
  intros Hi Hn Hp. unfold nxp, pvp. rewrite getbuf_alter by done.
  case_decide; subst; by rewrite ?Hn, ?Hp.
Qed.

Lemma nxp_set_prev i v bs a :
  (i < length bs)%nat -> nxp (alter (set_prev v) i bs) a = nxp bs a.
Proof. intros. unfold nxp. rewrite getbuf_alter by done. by case_decide; subst. Qed.

Lemma pvp_set_next i v bs a :
  (i < length bs)%nat -> pvp (alter (set_next v) i bs) a = pvp bs a.
Proof. intros. unfold pvp. rewrite getbuf_alter by done. by case_decide; subst. Qed.

Lemma ring_alter f i bs l :
  (i < length bs)%nat ->
  (forall x, b_next (f x) = b_next x) -> (forall x, b_prev (f x) = b_prev x) ->
  ring (nxp bs) (pvp bs) HEAD l ->
  ring (nxp (alter f i bs)) (pvp (alter f i bs)) HEAD l.
Proof.
  intros Hi Hn Hp. apply ring_pointwise; intros a; by apply ptrs_alter.
Qed.

(** The scan of bget() over the ring, in both directions. *)
Definition hit (bs : list buf) (dev blockno : Z) (i : nat) : bool :=
  (b_dev (getbuf i bs) =? dev) && (b_blockno (getbuf i bs) =? blockno).
Definition idle (bs : list buf) (i : nat) : bool := b_refcnt (getbuf i bs) =? 0.

Lemma bget_scan_find fuel dev blockno q s :
  linked (nxp (bc_buf s)) (pvp (bc_buf s)) (q ++ [HEAD]) -> HEAD ∉ q ->
  (length q <= fuel)%nat ->
  bget_scan fuel dev blockno (default HEAD (head q)) s
    = Ok (find (hit (bc_buf s) dev blockno) q) s.
Proof.
  revert fuel. induction q as [|x q IH]; intros fuel Hl Hh Hf.
  - by destruct fuel.
  - destruct fuel as [|fuel]; simpl in Hf; [lia|].
    simpl. rewrite decide_False by set_solver. unfold bind, gets. simpl.
    fold (hit (bc_buf s) dev blockno x). destruct (hit _ _ _ x); [done|].
    replace (b_next (getbuf x (bc_buf s))) with (default HEAD (head q)).
    + apply IH; [|set_solver|lia]. destruct q; simpl in *; tauto.
    + destruct q as [|y q]; simpl in Hl; destruct Hl as (Hn & _); unfold nxp in Hn; by rewrite Hn.
Qed.

Lemma bget_victim_find fuel q s :
  linked (nxp (bc_buf s)) (pvp (bc_buf s)) (HEAD :: q ++ [HEAD]) -> HEAD ∉ q ->
  (length q <= fuel)%nat ->
  bget_victim fuel (default HEAD (last q)) s = Ok (find (idle (bc_buf s)) (rev q)) s.
Proof.
  intros Hl. assert (linked (nxp (bc_buf s)) (pvp (bc_buf s)) (HEAD :: q)) as Hl'.
  { change (HEAD :: q ++ [HEAD]) with ((HEAD :: q) ++ [HEAD]) in Hl.
    destruct (snoc_cons HEAD q) as (p & x & Hp). rewrite Hp in *.
    rewrite <- app_assoc in Hl. by apply linked_app in Hl as [? _]. }
  clear Hl. revert fuel. induction q as [|x q IH] using rev_ind; intros fuel Hh Hf.
  - by destruct fuel.
  - rewrite length_app in Hf. destruct fuel as [|fuel]; simpl in Hf; [lia|].
    rewrite last_snoc, rev_app_distr. simpl.
    rewrite decide_False by set_solver. unfold bind, gets. simpl.
    fold (idle (bc_buf s) x). destruct (idle _ x); [done|].
    assert (b_prev (getbuf x (bc_buf s)) = default HEAD (last q)) as ->.
    { destruct (snoc_cons HEAD q) as (p & y & Hp).
      change (HEAD :: q ++ [x]) with ((HEAD :: q) ++ [x]) in Hl'. rewrite Hp, <- app_assoc in Hl'.
      apply linked_app in Hl' as [_ (_ & Hpv & _)]. unfold pvp in Hpv. rewrite Hpv.
      destruct q as [|a q]; simpl in Hp.
      - destruct p as [|a p]; simplify_eq/=; [done|]. by destruct p.
      - assert (last (HEAD :: a :: q) = Some y) as Hy by (by rewrite Hp, last_snoc).
        rewrite last_cons_cons in Hy. by rewrite Hy. }
    apply IH; [|set_solver|lia].
    change (HEAD :: q ++ [x]) with ((HEAD :: q) ++ [x]) in Hl'.
    destruct (snoc_cons HEAD q) as (p & y & Hp). rewrite Hp in *. rewrite <- app_assoc in Hl'.
    by apply linked_app in Hl' as [? _].
Qed.

(* ------------------------------------------------------------------ *)
(** ** Lemmas: stores to one buffer *)

Lemma upd_twice f g i s : upd_buf i f (upd_buf i g s) = upd_buf i (fun x => f (g x)) s.
Proof. unfold upd_buf, set_bufs. simpl. by rewrite alter_twice. Qed.

Lemma alter_getbuf f g i bs :
  f (getbuf i bs) = g (getbuf i bs) -> alter f i bs = alter g i bs.
Proof.
  intros Hfg. apply list_eq. intros j. destruct (decide (i = j)) as [->|].
  - rewrite !list_lookup_alter_eq. unfold getbuf in Hfg.
    destruct (bs !! j); simpl in *; congruence.
  - by rewrite !list_lookup_alter_ne by done.
Qed.

Lemma alter_same f i bs : f (getbuf i bs) = getbuf i bs -> alter f i bs = bs.
Proof.
  intros Hf. apply list_eq. intros j. destruct (decide (i = j)) as [->|].
  - rewrite list_lookup_alter_eq. unfold getbuf in Hf.
    destruct (bs !! j); simpl in *; congruence.
  - by rewrite list_lookup_alter_ne by done.
Qed.

Lemma upd_ext f g i s :
  f (getbuf i (bc_buf s)) = g (getbuf i (bc_buf s)) -> upd_buf i f s = upd_buf i g s.
Proof. intros. unfold upd_buf. by rewrite (alter_getbuf f g). Qed.

Lemma length_upd i f s : length (bc_buf (upd_buf i f s)) = length (bc_buf s).
Proof. apply length_alter. Qed.

Lemma getbuf_upd_eq i f s :
  (i < length (bc_buf s))%nat -> getbuf i (bc_buf (upd_buf i f s)) = f (getbuf i (bc_buf s)).
Proof. apply getbuf_alter_eq. Qed.

Lemma getbuf_upd_ne i j f s :
  (i < length (bc_buf s))%nat -> j <> i ->
  getbuf j (bc_buf (upd_buf i f s)) = getbuf j (bc_buf s).
Proof. apply getbuf_alter_ne. Qed.

Lemma set_lock_eta x : set_sleeplock (b_lock x) x = x.
Proof. by destruct x. Qed.

Section sleeplock_on_buffer.
Context `{WakeBudget} (i : nat) (s : bio).
Hypothesis Hi : (i < length (bc_buf s))%nat.
Hypothesis Hlk : sl_lk (b_lock (getbuf i (bc_buf s))) = false.

Lemma acquire_buf_lk :
  lock_acquire (lens_comp (L_buf_lock i) L_sl_lk) s =
  Ok tt (upd_buf i (fun x => set_sleeplock
    (Sleeplock (sl_locked (b_lock x)) true (sl_pid (b_lock x))) x) s).
Proof.
  unfold lock_acquire. simpl. rewrite Hlk. f_equal. by apply upd_ext.
Qed.

Lemma acquire_free_buf pid :
  sl_locked (b_lock (getbuf i (bc_buf s))) = false ->
  acquiresleep (L_buf_lock i) (buf_chan i) pid s =
  Ok tt (upd_buf i (set_sleeplock (Sleeplock true false pid)) s).
Proof.
  intros Hf. unfold acquiresleep, bind at 1. rewrite acquire_buf_lk. simpl.
  unfold bind at 1.
  assert (forall fuel s', sl_locked (b_lock (getbuf i (bc_buf s'))) = false ->
    sleep_while fuel (fun s0 => sl_locked (lget (L_buf_lock i) s0)) (buf_chan i)
      (lens_comp (L_buf_lock i) L_sl_lk) s' = Ok tt s') as Hw.
  { intros fuel s' Hs'. destruct fuel; simpl; unfold bind, gets; simpl; by rewrite Hs'. }
  rewrite Hw by (by rewrite getbuf_upd_eq).
  simpl. unfold bind, modify, lock_release. simpl.
  rewrite !getbuf_alter_eq by (rewrite ?length_alter; done). simpl.
  f_equal. rewrite !upd_twice. apply upd_ext. done.
Qed.

Lemma releasesleep_buf c :
  releasesleep (L_buf_lock i) c s =
  Ok tt (lset woken (lget woken s ++ [c])
           (upd_buf i (set_sleeplock (Sleeplock false false 0)) s)).
Proof.
  unfold releasesleep, bind at 1. rewrite acquire_buf_lk. simpl.
  unfold bind, modify, wakeup, lock_release, modify. simpl.
  rewrite !getbuf_alter_eq by (rewrite ?length_alter; done). simpl.
  f_equal. unfold upd_buf, set_bufs. simpl. f_equal.
  rewrite !alter_twice. apply alter_getbuf. done.
Qed.

Lemma holdingsleep_buf pid :
  holdingsleep (L_buf_lock i) pid s =
  Ok (sl_locked (b_lock (getbuf i (bc_buf s))) &&
      (sl_pid (b_lock (getbuf i (bc_buf s))) =? pid)) s.
Proof.
  unfold holdingsleep, bind at 1. rewrite acquire_buf_lk. simpl.
  unfold bind, gets, lock_release, ret. simpl.
  rewrite !getbuf_alter_eq by done. simpl.
  f_equal. rewrite upd_twice. unfold upd_buf. rewrite alter_same; [by destruct s|]. simpl.
  rewrite <- Hlk. destruct (b_lock _) eqn:E. simpl.
  rewrite <- (set_lock_eta (getbuf i (bc_buf s))) at 2. rewrite E. done.
Qed.

End sleeplock_on_buffer.

(* ------------------------------------------------------------------ *)
(** ** Lemmas: keeping the representation *)

Lemma rep_len s A i : bio_rep s A -> (i <= HEAD)%nat -> (i < length (bc_buf s))%nat.
Proof. intros Hr. rewrite (r_len _ _ Hr). lia. Qed.

(** A store to the fields of one buffer that changes the abstract cache at
    that buffer's block only. *)
Lemma rep_upd s A A' i f b :
  bio_rep s A -> (i < HEAD)%nat ->
  (forall x, b_next (f x) = b_next x) -> (forall x, b_prev (f x) = b_prev x) ->
  b_dev (f (getbuf i (bc_buf s))) = ROOTDEV ->
  b_blockno (f (getbuf i (bc_buf s))) = b ->
  buf_ok A' (bc_pid s) (f (getbuf i (bc_buf s))) ->
  a_disk A' = a_disk A ->
  (forall b', b' <> b -> a_live A' !! b' = a_live A !! b') ->
  (is_Some (a_live A' !! b) -> b_refcnt (f (getbuf i (bc_buf s))) <> 0) ->
  (b_refcnt (getbuf i (bc_buf s)) <> 0 -> b_blockno (getbuf i (bc_buf s)) = b) ->
  (forall j, (j < HEAD)%nat -> j <> i -> b_dev (getbuf j (bc_buf s)) = ROOTDEV ->
     b_blockno (getbuf j (bc_buf s)) <> b) ->
  bio_rep (upd_buf i f s) A'.
Proof.
  intros Hr Hi Hn Hp Hdev Hbno Hok Hdisk Hlive Hdom Hold Huniq.
  pose proof (rep_len s A i Hr ltac:(lia)) as Hlen.
  split.
  - apply Hr.
  - rewrite length_upd. apply Hr.
  - destruct (r_ring _ _ Hr) as (l & Hl & Hperm). exists l. split; [|done].
    by apply ring_alter.
  - simpl. rewrite Hdisk. apply Hr.
  - intros j Hj. simpl. destruct (decide (j = i)) as [->|Hji]; [by rewrite getbuf_alter_eq|].
    rewrite getbuf_alter_ne by done.
    destruct (r_buf _ _ Hr j Hj) as (H1 & H2 & H3 & H4 & H5).
    split; [done|]. split; [done|]. split; [done|]. rewrite Hdisk. split; [|done].
    intros Hne. destruct (H4 Hne) as (? & ? & <-). split; [done|]. split; [done|].
    by apply Hlive, Huniq.
  - intros j k Hj Hk. simpl.
    destruct (decide (j = i)) as [->|Hji], (decide (k = i)) as [->|Hki];
      rewrite ?getbuf_alter_eq, ?getbuf_alter_ne by done; [done| | |by apply Hr].
    + intros _ Hdk Hbk. exfalso. by apply (Huniq k Hk Hki Hdk); congruence.
    + intros Hdj _ Hbj. exfalso. by apply (Huniq j Hj Hji Hdj); congruence.
  - intros b' Hb'. destruct (decide (b' = b)) as [->|Hne].
    + exists i. unfold handle. simpl. rewrite getbuf_alter_eq by done. naive_solver.
    + rewrite Hlive in Hb' by done. destruct (r_dom _ _ Hr b' Hb') as (j & Hj & Hd & Hbj & Href).
      exists j. assert (j <> i) by (intros ->; naive_solver).
      unfold handle. simpl. rewrite getbuf_alter_ne by done. done.
Qed.

Lemma handle_buf s A i b :
  bio_rep s A -> handle s i b ->
  a_live A !! b = Some (ABuf (b_data (getbuf i (bc_buf s)))
    (sl_locked (b_lock (getbuf i (bc_buf s)))) (b_refcnt (getbuf i (bc_buf s)))).
Proof.
  intros Hr (Hi & Hd & Hb & Hne). destruct (r_buf _ _ Hr i Hi) as (_ & _ & _ & H & _).
  destruct (H Hne) as (_ & _ & <-). by rewrite Hb.
Qed.

Lemma handle_inj s A i j b : bio_rep s A -> handle s i b -> handle s j b -> i = j.
Proof.
  intros Hr (? & ? & ? & ?) (? & ? & ? & ?). apply (r_uniq _ _ Hr); congruence.
Qed.

(** A buffer with block [b] that is not live means [b] is not live. *)
Lemma idle_not_live s A i b :
  bio_rep s A -> (i < HEAD)%nat -> b_dev (getbuf i (bc_buf s)) = ROOTDEV ->
  b_blockno (getbuf i (bc_buf s)) = b -> b_refcnt (getbuf i (bc_buf s)) = 0 ->
  a_live A !! b = None.
Proof.
  intros Hr Hi Hd Hb Href. destruct (a_live A !! b) eqn:E; [|done].
  destruct (r_dom _ _ Hr b ltac:(eauto)) as (j & Hj & Hdj & Hbj & Hrj).
  assert (j = i) as -> by (apply (r_uniq _ _ Hr); congruence). congruence.
Qed.

(** When fewer than NBUF blocks are live some buffer is idle. *)
Lemma exists_idle s A :
  bio_rep s A -> (size (a_live A) < HEAD)%nat ->
  exists i, (i < HEAD)%nat /\ b_refcnt (getbuf i (bc_buf s)) = 0.
Proof.
  intros Hr Hsz.
  destruct (decide (Exists (fun i => b_refcnt (getbuf i (bc_buf s)) = 0) (seq 0 HEAD)))
    as [Hex|Hno].
  { apply Exists_exists in Hex as (i & Hin & ?). apply elem_of_seq in Hin.
    exists i. split; [lia|done]. }
  exfalso. apply not_Exists_Forall in Hno; [|intros; apply _].
  rewrite Forall_forall in Hno.
  assert (forall i, (i < HEAD)%nat -> b_refcnt (getbuf i (bc_buf s)) <> 0) as Hall.
  { intros i Hi. apply Hno, elem_of_seq. lia. }
  set (bn := fun i => b_blockno (getbuf i (bc_buf s))).
  assert (list_to_set (bn <$> seq 0 HEAD) ⊆@{gset Z} dom (a_live A)) as Hsub.
  { intros b. rewrite elem_of_list_to_set, list_elem_of_fmap. intros (i & -> & Hin).
    apply elem_of_seq in Hin. apply elem_of_dom.
    destruct (r_buf _ _ Hr i ltac:(lia)) as (_ & _ & _ & H & _).
    unfold bn. destruct (H (Hall i ltac:(lia))) as (_ & _ & ->). eauto. }
  apply subseteq_size in Hsub. rewrite size_dom in Hsub.
  rewrite size_list_to_set in Hsub.
  - rewrite length_fmap, length_seq in Hsub. lia.
  - apply NoDup_fmap_2_strong; [|apply NoDup_seq].
    intros i j Hi Hj Hb. apply elem_of_seq in Hi, Hj.
    destruct (r_buf _ _ Hr i ltac:(lia)) as (_ & _ & _ & Hli & _).
    destruct (r_buf _ _ Hr j ltac:(lia)) as (_ & _ & _ & Hlj & _).
    apply (r_uniq _ _ Hr); try lia; [by apply Hli, Hall; lia|by apply Hlj, Hall; lia|done].
Qed.

(** What a client may rely on across an operation on block [b]. *)
Record frame (s s' : bio) : Prop := {
  f_handle : forall j b, handle s j b -> handle s' j b;
  f_pid : bc_pid s' = bc_pid s
}.

Definition live_ref (A : acache) (b : Z) : Z :=
  match a_live A !! b with Some x => ab_ref x | None => 0 end.

(** [b] can be read now: nobody has it locked and, if it is not live, a
    buffer is free for it. *)
Definition can_read (A : acache) (b : Z) : Prop :=
  match a_live A !! b with
  | Some x => ab_locked x = false /\ ab_ref x + 1 < 2 ^ 32
  | None => (size (a_live A) < HEAD)%nat
  end.

#[local] Arguments bget_scan : simpl never.
#[local] Arguments bget_victim : simpl never.
#[local] Arguments acquiresleep : simpl never.

Lemma rep_find s A dev b :
  bio_rep s A ->
  exists l, l ≡ₚ seq 0 HEAD /\
    (forall fuel s', (HEAD <= fuel)%nat -> bc_buf s' = bc_buf s ->
      bget_scan fuel dev b (b_next (getbuf HEAD (bc_buf s))) s'
        = Ok (find (hit (bc_buf s) dev b) l) s') /\
    (forall fuel s', (HEAD <= fuel)%nat -> bc_buf s' = bc_buf s ->
      bget_victim fuel (b_prev (getbuf HEAD (bc_buf s))) s'
        = Ok (find (idle (bc_buf s)) (rev l)) s').
Proof.
  intros Hr. destruct (r_ring _ _ Hr) as (l & Hl & Hp). exists l.
  assert (length l = HEAD) as Hlen by (rewrite Hp; apply length_seq).
  pose proof (ring_first _ _ _ _ Hl) as Hfirst. destruct Hl as [Hl Hnd].
  apply NoDup_cons in Hnd as [Hh _]. split; [done|]. split; intros fuel s' Hf Hbs.
  - unfold nxp in Hfirst. rewrite Hfirst, <- Hbs. rewrite <- Hbs in Hl.
    apply bget_scan_find; [|done|lia]. destruct l; simpl in *; tauto.
  - assert (b_prev (getbuf HEAD (bc_buf s)) = default HEAD (last l)) as ->.
    { destruct (snoc_cons HEAD l) as (p & y & Hpy).
      change (HEAD :: l ++ [HEAD]) with ((HEAD :: l) ++ [HEAD]) in Hl.
      rewrite Hpy, <- app_assoc in Hl. apply linked_app in Hl as [_ (_ & Hpv & _)].
      unfold pvp in Hpv. rewrite Hpv. assert (last (HEAD :: l) = Some y) as Hy
        by (by rewrite Hpy, last_snoc).
      destruct l; simpl in *; [by simplify_eq|]. by rewrite Hy. }
    rewrite <- Hbs. rewrite <- Hbs in Hl. apply bget_victim_find; [done|done|lia].
Qed.

Lemma perm_seq_lt l i : l ≡ₚ seq 0 HEAD -> In i l -> (i < HEAD)%nat.
Proof.
  intros Hp Hi. apply list_elem_of_In in Hi. rewrite Hp in Hi. apply elem_of_seq in Hi. lia.
Qed.

Section bread.
Context `{WakeBudget}.

(** the buffer bget() hands out when block [b] is cached, and when it is not *)
Definition grabbed (pid : Z) (x : buf) : buf :=
  set_sleeplock (Sleeplock true false pid) (set_refcnt (u32 (b_refcnt x + 1)) x).
Definition recycled (pid b : Z) (x : buf) : buf :=
  set_sleeplock (Sleeplock true false pid) (recycle ROOTDEV b x).

Lemma bget_cases s A b :
  bio_rep s A -> can_read A b ->
  exists i, (i < HEAD)%nat /\
  ((b_dev (getbuf i (bc_buf s)) = ROOTDEV /\ b_blockno (getbuf i (bc_buf s)) = b /\
    bget ROOTDEV b s = Ok i (upd_buf i (grabbed (bc_pid s)) s)) \/
   (b_refcnt (getbuf i (bc_buf s)) = 0 /\
    (forall j, (j < HEAD)%nat -> b_dev (getbuf j (bc_buf s)) = ROOTDEV ->
      b_blockno (getbuf j (bc_buf s)) <> b) /\
    bget ROOTDEV b s = Ok i (upd_buf i (recycled (bc_pid s) b) s))).
Proof.
  intros Hr Hcan. destruct (rep_find s A ROOTDEV b Hr) as (l & Hp & Hscan & Hvict).
  pose proof (r_lock _ _ Hr) as Hlk.
  assert (forall i, (i < HEAD)%nat -> forall f,
    (forall x, sl_lk (b_lock (f x)) = sl_lk (b_lock x)) ->
    (forall x, sl_locked (b_lock (f x)) = sl_locked (b_lock x)) ->
    sl_locked (b_lock (getbuf i (bc_buf s))) = false ->
    acquiresleep (L_buf_lock i) (buf_chan i) (bc_pid s) (upd_buf i f s) =
    Ok tt (upd_buf i (fun x => set_sleeplock (Sleeplock true false (bc_pid s)) (f x)) s)) as Hacq.
  { intros i Hi f Hf1 Hf2 Hun. pose proof (rep_len s A i Hr ltac:(lia)).
    rewrite acquire_free_buf; [by rewrite upd_twice|..];
      rewrite ?length_upd, ?getbuf_upd_eq, ?Hf1, ?Hf2 by done; try done.
    by apply (r_buf _ _ Hr). }
  destruct (find (hit (bc_buf s) ROOTDEV b) l) as [i|] eqn:Ef.
  - apply find_some in Ef as [Hin Hhit]. apply (perm_seq_lt l i Hp) in Hin.
    unfold hit in Hhit. apply andb_true_iff in Hhit as [Hd Hb].
    apply Z.eqb_eq in Hd, Hb. exists i. split; [done|]. left. split; [done|]. split; [done|].
    assert (sl_locked (b_lock (getbuf i (bc_buf s))) = false) as Hun.
    { destruct (r_buf _ _ Hr i Hin) as (_ & _ & _ & Hlive & Hidle).
      destruct (decide (b_refcnt (getbuf i (bc_buf s)) = 0)) as [E|E]; [by apply Hidle|].
      destruct (Hlive E) as (_ & _ & Hl). unfold can_read in Hcan.
      rewrite <- Hb, Hl in Hcan. apply Hcan. }
    unfold bget, bind, lock_acquire, gets. simpl. rewrite Hlk. simpl.
    rewrite Hscan by done. simpl. unfold lock_release, mypid, gets. simpl.
    destruct s as [lk bs d ws pid wk]; simpl in *; subst lk.
    specialize (Hacq i Hin (fun x => set_refcnt (u32 (b_refcnt x + 1)) x)).
    unfold upd_buf, set_bufs in *. simpl in *. by rewrite Hacq.
  - assert (forall j, (j < HEAD)%nat -> b_dev (getbuf j (bc_buf s)) = ROOTDEV ->
      b_blockno (getbuf j (bc_buf s)) <> b) as Hnone.
    { intros j Hj Hd Hb. apply (find_none _ l) with (x := j) in Ef.
      - unfold hit in Ef. by rewrite Hd, Hb, !Z.eqb_refl in Ef.
      - apply list_elem_of_In. rewrite Hp. apply elem_of_seq. lia. }
    assert (a_live A !! b = None) as Hnl.
    { destruct (a_live A !! b) eqn:E; [|done].
      destruct (r_dom _ _ Hr b ltac:(eauto)) as (j & ? & ? & ? & ?). by destruct (Hnone j). }
    unfold can_read in Hcan. rewrite Hnl in Hcan.
    destruct (exists_idle s A Hr Hcan) as (k & Hk & Hrefk).
    destruct (find (idle (bc_buf s)) (rev l)) as [i|] eqn:Ev.
    2:{ apply (find_none _ (rev l)) with (x := k) in Ev.
        - unfold idle in Ev. by rewrite Hrefk in Ev.
        - apply in_rev. rewrite rev_involutive. apply list_elem_of_In. rewrite Hp.
          apply elem_of_seq. lia. }
    apply find_some in Ev as [Hin Hidle]. apply in_rev, (perm_seq_lt l i Hp) in Hin.
    apply Z.eqb_eq in Hidle. exists i. split; [done|]. right. split; [done|]. split; [done|].
    unfold bget, bind, lock_acquire, gets. simpl. rewrite Hlk. simpl.
    rewrite Hscan by done. simpl. rewrite Hvict by done. simpl.
    unfold lock_release, mypid, gets. simpl.
    assert (sl_locked (b_lock (getbuf i (bc_buf s))) = false).
    { destruct (r_buf _ _ Hr i Hin) as (_ & _ & _ & _ & Hi). by apply Hi. }
    destruct s as [lk bs d ws pid wk]; simpl in *; subst lk.
    specialize (Hacq i Hin (recycle ROOTDEV b)).
    unfold upd_buf, set_bufs in *. simpl in *. by rewrite Hacq.
Qed.

Definition filled (d : gmap Z (list Z)) (x : buf) : buf :=
  if b_valid x then x else set_valid true (set_data (disk_block d (b_blockno x)) x).

Lemma bread_fill s b i G :
  bget ROOTDEV b s = Ok i (upd_buf i G s) -> (i < length (bc_buf s))%nat ->
  bread ROOTDEV b s = Ok i (upd_buf i (fun x => filled (bc_disk s) (G x)) s).
Proof.
  intros Hget Hi. unfold bread, bind at 1. rewrite Hget. simpl.
  unfold bind, gets. simpl. rewrite getbuf_alter_eq by done.
  destruct (b_valid (G (getbuf i (bc_buf s)))) eqn:Ev; simpl.
  - unfold ret. f_equal. apply upd_ext. unfold filled. by rewrite Ev.
  - rewrite getbuf_alter_eq by done. unfold ret. f_equal. rewrite !upd_twice.
    apply upd_ext. unfold filled. by rewrite Ev.
Qed.

(** What bget() did to the buffer it hands out for block [b]. *)
Record granted (s : bio) (A : acache) (b : Z) (i : nat) (G : buf -> buf) : Prop := {
  g_lt : (i < HEAD)%nat;
  g_run : bget ROOTDEV b s = Ok i (upd_buf i G s);
  g_next : forall y, b_next (G y) = b_next y;
  g_prev : forall y, b_prev (G y) = b_prev y;
  g_dev : b_dev (G (getbuf i (bc_buf s))) = ROOTDEV;
  g_bno : b_blockno (G (getbuf i (bc_buf s))) = b;
  g_lock : b_lock (G (getbuf i (bc_buf s))) = Sleeplock true false (bc_pid s);
  g_ref : b_refcnt (G (getbuf i (bc_buf s))) = live_ref A b + 1;
  g_bound : 0 <= live_ref A b < 2 ^ 32 - 1;
  g_data : b_data (filled (bc_disk s) (G (getbuf i (bc_buf s)))) = a_view A b;
  g_old : b_refcnt (getbuf i (bc_buf s)) <> 0 -> b_blockno (getbuf i (bc_buf s)) = b;
  g_uniq : forall j, (j < HEAD)%nat -> j <> i -> b_dev (getbuf j (bc_buf s)) = ROOTDEV ->
    b_blockno (getbuf j (bc_buf s)) <> b
}.

(** The cached case: reference count and contents agree with the promise. *)
Lemma grabbed_view s A b i :
  bio_rep s A -> (i < HEAD)%nat -> can_read A b ->
  b_dev (getbuf i (bc_buf s)) = ROOTDEV -> b_blockno (getbuf i (bc_buf s)) = b ->
  b_refcnt (getbuf i (bc_buf s)) = live_ref A b /\ live_ref A b < 2 ^ 32 - 1 /\
  b_data (filled (bc_disk s) (grabbed (bc_pid s) (getbuf i (bc_buf s)))) = a_view A b.
Proof.
  intros Hr Hi Hcan Hd Hb. pose proof (r_buf _ _ Hr i Hi) as (_ & _ & _ & Hlive & Hidle).
  unfold can_read, live_ref, a_view in *.
  destruct (decide (b_refcnt (getbuf i (bc_buf s)) = 0)) as [E|E].
  - rewrite (idle_not_live s A i b Hr Hi Hd Hb E). split; [done|]. split; [lia|].
    unfold filled, grabbed. simpl. destruct (b_valid _) eqn:Ev; simpl.
    + rewrite <- Hb. by apply Hidle.
    + by rewrite Hb, (r_disk _ _ Hr).
  - destruct (Hlive E) as (_ & Hv & Hla). rewrite Hb in Hla. rewrite Hla in *.
    simpl in *. split; [done|]. split; [lia|]. unfold filled, grabbed. simpl. by rewrite Hv.
Qed.

Lemma bget_granted s A b :
  bio_rep s A -> can_read A b -> exists i G, granted s A b i G.
Proof.
  intros Hr Hcan. destruct (bget_cases s A b Hr Hcan) as (i & Hi & [(Hd & Hb & Hget)|(Hz & Hnone & Hget)]).
  - destruct (grabbed_view s A b i Hr Hi Hcan Hd Hb) as (Href & Hlt & Hdata).
    pose proof (r_buf _ _ Hr i Hi) as (_ & _ & Hrange & _ & _).
    exists i, (grabbed (bc_pid s)). split; try done.
    + simpl. rewrite u32_small; lia.
    + lia.
    + intros j Hj Hji Hdj Hbj. apply Hji, (r_uniq _ _ Hr); congruence.
  - exists i, (recycled (bc_pid s) b).
    assert (a_live A !! b = None) as Hn.
    { destruct (a_live A !! b) eqn:E; [|done].
      destruct (r_dom _ _ Hr b ltac:(eauto)) as (j & ? & ? & ? & ?). by destruct (Hnone j). }
    split; unfold live_ref, a_view; rewrite ?Hn; try done; try lia.
    + simpl. by rewrite (r_disk _ _ Hr).
    + intros. by apply Hnone.
Qed.

Lemma filled_fields d x :
  b_next (filled d x) = b_next x /\ b_prev (filled d x) = b_prev x /\
  b_dev (filled d x) = b_dev x /\ b_blockno (filled d x) = b_blockno x /\
  b_lock (filled d x) = b_lock x /\ b_refcnt (filled d x) = b_refcnt x /\
  b_valid (filled d x) = true.
Proof. unfold filled. by destruct (b_valid x) eqn:E. Qed.

(** bread() returns the live buffer of the block, locked, with one more
    reference and the contents clients see; nothing else changes. *)
Lemma bread_spec s A b :
  bio_rep s A -> can_read A b ->
  exists i s', bread ROOTDEV b s = Ok i s' /\
    bio_rep s' (set_live A b (ABuf (a_view A b) true (live_ref A b + 1))) /\
    handle s' i b /\ frame s s' /\
    bc_writes s' = bc_writes s /\ bc_woken s' = bc_woken s.
Proof.
  intros Hr Hcan. destruct (bget_granted s A b Hr Hcan) as (i & G & HG).
  destruct HG as [Hi Hget Hnx Hpv Hd Hb Hl Href Hbnd Hdata Hold Huniq].
  pose proof (rep_len s A i Hr ltac:(lia)) as Hlen.
  exists i, (upd_buf i (fun x => filled (bc_disk s) (G x)) s).
  set (x := getbuf i (bc_buf s)) in *.
  destruct (filled_fields (bc_disk s) (G x)) as (_ & _ & Hd' & Hb' & Hl' & Href' & Hv').
  rewrite Hd in Hd'. rewrite Hb in Hb'. rewrite Hl in Hl'. rewrite Href in Href'.
  split; [by apply bread_fill|]. split; [|split; [|split; [|done]]].
  - eapply rep_upd; [done|done|..|done|done]; fold x.
    + intros y. by destruct (filled_fields (bc_disk s) (G y)) as (-> & _).
    + intros y. by destruct (filled_fields (bc_disk s) (G y)) as (_ & -> & _).
    + done.
    + done.
    + split; [by rewrite Hl'|]. split; [by rewrite Hl'|]. split; [lia|].
      split; [|lia]. intros _. split; [done|]. split; [done|].
      simpl. rewrite Hb', lookup_insert_eq. by rewrite Hl', Href', Hdata.
    + done.
    + intros b' Hne. simpl. by rewrite lookup_insert_ne.
    + intros _. lia.
  - unfold handle. rewrite getbuf_upd_eq by done. fold x. split_and!; try done. lia.
  - split; [|done]. intros j b0 Hj. unfold handle in *. destruct (decide (j = i)) as [->|Hji].
    + rewrite getbuf_upd_eq by done. fold x in Hj |- *. destruct Hj as (? & ? & ? & ?).
      split_and!; try done; [|lia]. rewrite Hb'. rewrite <- Hold; done.
    + by rewrite getbuf_upd_ne.
Qed.

End bread.

(* ------------------------------------------------------------------ *)
(** ** Lemmas: the operations on a live buffer *)

Section live.
Context `{WakeBudget} (s : bio) (A : acache) (i : nat) (b : Z) (x : abuf).
Hypothesis Hr : bio_rep s A.
Hypothesis Hh : handle s i b.
Hypothesis Hx : a_live A !! b = Some x.

Lemma live_fields :
  b_data (getbuf i (bc_buf s)) = ab_data x /\
  sl_locked (b_lock (getbuf i (bc_buf s))) = ab_locked x /\
  b_refcnt (getbuf i (bc_buf s)) = ab_ref x /\ 0 < ab_ref x < 2 ^ 32.
Proof.
  pose proof (handle_buf _ _ _ _ Hr Hh) as He. rewrite Hx in He. simplify_eq. simpl.
  destruct Hh as (Hi & _ & _ & Hne). destruct (r_buf _ _ Hr i Hi) as (_ & _ & ? & _).
  split_and!; try done; lia.
Qed.

Lemma live_lt : (i < length (bc_buf s))%nat.
Proof. apply (rep_len _ _ _ Hr). destruct Hh. lia. Qed.

Lemma live_uniq j :
  (j < HEAD)%nat -> j <> i -> b_dev (getbuf j (bc_buf s)) = ROOTDEV ->
  b_blockno (getbuf j (bc_buf s)) <> b.
Proof.
  intros Hj Hji Hd Hb. destruct Hh as (? & ? & ? & _). apply Hji, (r_uniq _ _ Hr); congruence.
Qed.

(** A store that keeps the buffer live. *)
Lemma live_upd f y :
  (forall z, b_next (f z) = b_next z) -> (forall z, b_prev (f z) = b_prev z) ->
  (forall z, b_dev (f z) = b_dev z) -> (forall z, b_blockno (f z) = b_blockno z) ->
  (forall z, b_valid (f z) = b_valid z) -> (forall z, b_lock (f z) = b_lock z) ->
  b_data (f (getbuf i (bc_buf s))) = ab_data y ->
  b_refcnt (f (getbuf i (bc_buf s))) = ab_ref y ->
  ab_locked y = ab_locked x -> 0 < ab_ref y < 2 ^ 32 ->
  bio_rep (upd_buf i f s) (set_live A b y) /\ frame s (upd_buf i f s) /\
  handle (upd_buf i f s) i b.
Proof.
  intros Hn Hp Hd Hb Hv Hl Hdat Href Hlk Hrng.
  pose proof live_lt as Hlt. pose proof live_fields as (_ & Hlocked & _ & _).
  pose proof Hh as (Hi & Hdi & Hbi & Hne).
  destruct (r_buf _ _ Hr i Hi) as (Hsl & Hpid & _ & Hlive & _). destruct (Hlive Hne) as (_ & Hvi & _).
  assert (handle (upd_buf i f s) i b) as Hh'.
  { unfold handle. rewrite getbuf_upd_eq by done. rewrite Hd, Hb, Href. split_and!; try done. lia. }
  split; [|split; [|done]].
  - eapply rep_upd; [done|done|done|done|by rewrite Hd|by rewrite Hb|..]; try done.
    + split; [by rewrite Hl|]. split; [by rewrite Hl|]. split; [lia|]. split; [|lia].
      intros _. rewrite Hd, Hv, Hb, Hbi, Hl. split; [done|]. split; [done|].
      simpl. rewrite lookup_insert_eq, Hdat, Href, Hlocked, <- Hlk. by destruct y.
    + intros b' Hb'. simpl. by rewrite lookup_insert_ne.
    + intros _. lia.
    + apply live_uniq.
  - split; [|done]. intros j b' Hj. destruct (decide (j = i)) as [->|Hji].
    + destruct Hj as (_ & _ & <- & _). by rewrite Hbi.
    + unfold handle. by rewrite getbuf_upd_ne.
Qed.

Lemma bset_spec d :
  bset i d s = Ok tt (upd_buf i (set_data d) s) /\
  bio_rep (upd_buf i (set_data d) s) (set_live A b (ABuf d (ab_locked x) (ab_ref x))) /\
  frame s (upd_buf i (set_data d) s) /\ handle (upd_buf i (set_data d) s) i b.
Proof.
  split; [done|]. pose proof live_fields as (? & ? & ? & ?). by apply live_upd.
Qed.

Lemma bpin_spec :
  ab_ref x + 1 < 2 ^ 32 ->
  exists s', bpin i s = Ok tt s' /\
    bio_rep s' (set_live A b (ABuf (ab_data x) (ab_locked x) (ab_ref x + 1))) /\
    frame s s' /\ handle s' i b /\ bc_writes s' = bc_writes s /\ bc_woken s' = bc_woken s.
Proof.
  intros Hlt. pose proof live_fields as (? & ? & Href & ?).
  set (f := fun z => set_refcnt (u32 (b_refcnt z + 1)) z).
  exists (upd_buf i f s). split.
  - unfold bpin, bind, lock_acquire, modify, lock_release. simpl. rewrite (r_lock _ _ Hr).
    simpl. unfold upd_buf, set_bufs. simpl. by rewrite <- (r_lock _ _ Hr).
  - destruct (live_upd f (ABuf (ab_data x) (ab_locked x) (ab_ref x + 1))) as (? & ? & ?);
      try done; try (simpl; lia). simpl. rewrite Href, u32_small; lia.
Qed.

Lemma bunpin_spec :
  1 < ab_ref x ->
  exists s', bunpin i s = Ok tt s' /\
    bio_rep s' (set_live A b (ABuf (ab_data x) (ab_locked x) (ab_ref x - 1))) /\
    frame s s' /\ handle s' i b /\ bc_writes s' = bc_writes s /\ bc_woken s' = bc_woken s.
Proof.
  intros Hlt. pose proof live_fields as (? & ? & Href & ?).
  set (f := fun z => set_refcnt (u32 (b_refcnt z - 1)) z).
  exists (upd_buf i f s). split.
  - unfold bunpin, bind, lock_acquire, modify, lock_release. simpl. rewrite (r_lock _ _ Hr).
    simpl. unfold upd_buf, set_bufs. simpl. by rewrite <- (r_lock _ _ Hr).
  - destruct (live_upd f (ABuf (ab_data x) (ab_locked x) (ab_ref x - 1))) as (? & ? & ?);
      try done; try (simpl; lia). simpl. rewrite Href, u32_small; lia.
Qed.

Lemma holding_live :
  ab_locked x = true -> holdingsleep (L_buf_lock i) (bc_pid s) s = Ok true s.
Proof.
  intros Hl. pose proof live_fields as (_ & Hlk & _). destruct Hh as (Hi & _).
  destruct (r_buf _ _ Hr i Hi) as (Hsl & Hpid & _).
  rewrite holdingsleep_buf by (done || apply live_lt).
  rewrite Hlk, Hl, Hpid by congruence. by rewrite Z.eqb_refl.
Qed.

(** bwrite() stores the buffer in its home block and is one disk write. *)
Lemma bwrite_spec :
  ab_locked x = true ->
  exists s', bwrite i s = Ok tt s' /\
    bio_rep s' (ACache (<[b := ab_data x]> (a_disk A)) (a_live A)) /\
    frame s s' /\ bc_writes s' = bc_writes s ++ [(b, ab_data x)] /\ bc_woken s' = bc_woken s.
Proof.
  intros Hl. pose proof live_fields as (Hdat & _ & _ & _).
  unfold bwrite, bind at 1, mypid, gets. simpl. unfold bind. rewrite holding_live by done.
  simpl. unfold disk_rw, modify. destruct Hh as (Hi & Hd & Hb & Hne). rewrite Hb, Hdat.
  eexists; split; [done|]. split; [|done].
  split; simpl; try apply Hr.
  - by rewrite (r_disk _ _ Hr).
  - intros j Hj. destruct (r_buf _ _ Hr j Hj) as (? & ? & ? & ? & Hidle).
    split; [done|]. split; [done|]. split; [done|]. split; [done|].
    intros Hz. destruct (Hidle Hz) as [? Hclean]. split; [done|]. intros Hv Hdj.
    rewrite Hclean by done. simpl. unfold disk_block. rewrite lookup_insert_ne; [done|].
    intros Hbb. rewrite <- Hb in Hbb. assert (i = j) as -> by (apply (r_uniq _ _ Hr); congruence).
    done.
Qed.

End live.

(* ------------------------------------------------------------------ *)
(** ** Lemmas: moving a buffer to the front of the list *)

(** Equal in every field but the list pointers. *)
Definition same_fields (x y : buf) : Prop := set_next 0 (set_prev 0 x) = set_next 0 (set_prev 0 y).

Lemma same_alter_next v i j bs :
  (i < length bs)%nat -> same_fields (getbuf j (alter (set_next v) i bs)) (getbuf j bs).
Proof. intros. rewrite getbuf_alter by done. by case_decide; subst. Qed.
Lemma same_alter_prev v i j bs :
  (i < length bs)%nat -> same_fields (getbuf j (alter (set_prev v) i bs)) (getbuf j bs).
Proof. intros. rewrite getbuf_alter by done. by case_decide; subst. Qed.

(** Insertion after the head, shared by binit() and brelse(). *)
Lemma push_front b bs l :
  length bs = S HEAD -> (b < HEAD)%nat -> (forall y, y ∈ l -> (y < HEAD)%nat) ->
  ring (nxp bs) (pvp bs) HEAD l -> b ∉ l ->
  let bs3 := alter (set_next (b_next (getbuf HEAD bs))) b bs in
  let bs4 := alter (set_prev HEAD) b bs3 in
  let bs5 := alter (set_prev b) (b_next (getbuf HEAD bs4)) bs4 in
  let bs6 := alter (set_next b) HEAD bs5 in
  ring (nxp bs6) (pvp bs6) HEAD (b :: l) /\ length bs6 = S HEAD /\
  forall j, same_fields (getbuf j bs6) (getbuf j bs).
Proof.
  intros Hlen Hb Hl Hring Hbl bs3 bs4 bs5 bs6.
  set (z := b_next (getbuf HEAD bs)) in *.
  assert (z = default HEAD (head l)) as Hz by (apply (ring_first _ _ _ _ Hring)).
  assert (z < S HEAD)%nat as Hzlt.
  { rewrite Hz. destruct l as [|y l]; simpl; [lia|]. specialize (Hl y ltac:(left)). lia. }
  assert (b_next (getbuf HEAD bs4) = z) as Hz4.
  { unfold bs4. rewrite getbuf_alter_ne by (unfold bs3; rewrite ?length_alter; lia).
    unfold bs3. by rewrite getbuf_alter_ne by lia. }
  assert (length bs3 = S HEAD) as L3 by (unfold bs3; by rewrite length_alter).
  assert (length bs4 = S HEAD) as L4 by (unfold bs4; by rewrite length_alter).
  assert (length bs5 = S HEAD) as L5 by (unfold bs5; by rewrite length_alter).
  split_and!.
  - eapply ring_pointwise; [..|apply (ring_push _ _ _ _ b Hring); [lia|done]]; intros a;
      change (nxp bs HEAD) with z.
    + unfold bs6. rewrite nxp_set_next by lia. unfold upd. case_decide; [done|].
      unfold bs5. rewrite nxp_set_prev by lia. unfold bs4. rewrite nxp_set_prev by lia.
      unfold bs3. by rewrite nxp_set_next by lia.
    + unfold bs6. rewrite pvp_set_next by lia. unfold bs5. rewrite pvp_set_prev by lia.
      rewrite Hz4. unfold upd. case_decide; [done|].
      unfold bs4. rewrite pvp_set_prev by lia. unfold upd. case_decide; [done|].
      unfold bs3. by rewrite pvp_set_next by lia.
  - unfold bs6. by rewrite length_alter.
  - intros j. unfold bs6, same_fields. rewrite same_alter_next by lia.
    unfold bs5. rewrite same_alter_prev by lia. unfold bs4. rewrite same_alter_prev by lia.
    unfold bs3. by rewrite same_alter_next by lia.
Qed.

Lemma relink_ring b bs l1 l2 :
  length bs = S HEAD -> (forall y, y ∈ l1 ++ b :: l2 -> (y < HEAD)%nat) ->
  ring (nxp bs) (pvp bs) HEAD (l1 ++ b :: l2) ->
  ring (nxp (relink b bs)) (pvp (relink b bs)) HEAD (b :: l1 ++ l2) /\
  length (relink b bs) = S HEAD /\
  forall j, same_fields (getbuf j (relink b bs)) (getbuf j bs).
Proof.
  intros Hlen Hin Hring. pose proof (ring_remove _ _ _ _ _ _ Hring) as Hrem.
  destruct (ring_neighbours _ _ _ _ _ _ Hring) as (Hn & Hp & Hnb & Hpb).
  set (n := nxp bs b) in *. set (p := pvp bs b) in *.
  assert (b < HEAD)%nat as Hb by (apply Hin; set_solver).
  assert (n < S HEAD /\ p < S HEAD)%nat as [Hnl Hpl].
  { split.
    - apply elem_of_app in Hn as [Hn|Hn%list_elem_of_singleton]; [|lia].
      specialize (Hin n). set_solver by lia.
    - apply elem_of_cons in Hp as [->|Hp]; [lia|]. specialize (Hin p). set_solver by lia. }
  set (bs1 := alter (set_prev p) n bs).
  set (bs2 := alter (set_next n) p bs1).
  assert (relink b bs = alter (set_next b) HEAD
    (let bs4 := alter (set_prev HEAD) b (alter (set_next (b_next (getbuf HEAD bs2))) b bs2) in
     alter (set_prev b) (b_next (getbuf HEAD bs4)) bs4)) as ->.
  { unfold relink. fold (nxp bs b) (pvp bs b). fold n p bs1.
    assert (getbuf b bs1 = getbuf b bs) as -> by (apply getbuf_alter_ne; [lia|done]).
    done. }
  assert (length bs2 = S HEAD) as L2 by (unfold bs2, bs1; by rewrite !length_alter).
  destruct (push_front b bs2 (l1 ++ l2)) as (H1 & H2 & H3).
  - done.
  - done.
  - set_solver.
  - eapply ring_pointwise; [..|exact Hrem]; intros a; unfold bs2, bs1.
    + rewrite nxp_set_next by (rewrite length_alter; lia). unfold upd.
      case_decide; [done|]. by rewrite nxp_set_prev by lia.
    + rewrite pvp_set_next by (rewrite length_alter; lia). by rewrite pvp_set_prev by lia.
  - destruct Hring as [_ Hnd]. apply NoDup_cons in Hnd as [_ Hnd].
    apply NoDup_app in Hnd as (_ & Hd & Hnd). apply NoDup_cons in Hnd as [? _]. set_solver.
  - split_and!; [done..|]. intros j. unfold same_fields. rewrite H3.
    unfold bs2. rewrite same_alter_next by (unfold bs1; rewrite length_alter; lia).
    unfold bs1. by rewrite same_alter_prev by lia.
Qed.

Lemma same_fields_inv x y :
  same_fields x y ->
  b_valid x = b_valid y /\ b_dev x = b_dev y /\ b_blockno x = b_blockno y /\
  b_lock x = b_lock y /\ b_refcnt x = b_refcnt y /\ b_data x = b_data y.
Proof. destruct x, y. unfold same_fields, set_next, set_prev. simpl. by intros [=]. Qed.

Lemma handle_fields s bs j b :
  (forall j, same_fields (getbuf j bs) (getbuf j (bc_buf s))) ->
  handle (set_bufs bs s) j b <-> handle s j b.
Proof.
  intros Hs. unfold handle. simpl.
  destruct (same_fields_inv _ _ (Hs j)) as (_ & -> & -> & _ & -> & _). done.
Qed.

(** Only the pointers matter for the ring, and only the other fields for the
    rest of the promise. *)
Lemma rep_relinked s A bs :
  bio_rep s A -> length bs = S HEAD ->
  (forall j, same_fields (getbuf j bs) (getbuf j (bc_buf s))) ->
  (exists l, ring (nxp bs) (pvp bs) HEAD l /\ l ≡ₚ seq 0 HEAD) ->
  bio_rep (set_bufs bs s) A.
Proof.
  intros Hr Hlen Hs Hring. split; simpl; try done; try apply Hr.
  - intros i Hi. destruct (same_fields_inv _ _ (Hs i)) as (Hv & Hd & Hb & Hl & Href & Hdat).
    pose proof (r_buf _ _ Hr i Hi) as Hok. unfold buf_ok in *.
    by rewrite Hv, Hd, Hb, Hl, Href, Hdat.
  - intros i j Hi Hj. destruct (same_fields_inv _ _ (Hs i)) as (_ & -> & -> & _).
    destruct (same_fields_inv _ _ (Hs j)) as (_ & -> & -> & _). by apply Hr.
  - intros b Hb. destruct (r_dom _ _ Hr b Hb) as (i & Hi). exists i. by apply handle_fields.
Qed.

Section brelse.
Context `{WakeBudget} (s : bio) (A : acache) (i : nat) (b : Z) (x : abuf).
Hypothesis Hr : bio_rep s A.
Hypothesis Hh : handle s i b.
Hypothesis Hx : a_live A !! b = Some x.
Hypothesis Hlocked : ab_locked x = true.
Hypothesis Hclean : ab_ref x = 1 -> ab_data x = disk_block (a_disk A) b.

(** the buffer after releasesleep() and the decrement *)
Definition dropped (y : buf) : buf :=
  set_refcnt (u32 (b_refcnt y - 1)) (set_sleeplock (Sleeplock false false 0) y).

Lemma drop_rep : bio_rep (upd_buf i dropped s) (drop_live A b x).
Proof.
  pose proof (live_fields _ _ _ _ _ Hr Hh Hx) as (Hdat & _ & Href & Hrng).
  pose proof Hh as (Hi & Hd & Hb & Hne).
  destruct (r_buf _ _ Hr i Hi) as (_ & _ & _ & Hlive & _). destruct (Hlive Hne) as (_ & Hv & _).
  assert (b_refcnt (dropped (getbuf i (bc_buf s))) = ab_ref x - 1) as Href'.
  { simpl. rewrite Href, u32_small; lia. }
  eapply rep_upd; [done|done|done|done|done|exact Hb|..]; try done.
  - split; [done|]. split; [done|]. rewrite Href'. split; [lia|]. unfold drop_live. simpl.
    split; intros Hz.
    + rewrite (proj2 (Z.eqb_neq _ _)) by lia. by rewrite Hd, Hv, Hb, lookup_insert_eq, Hdat.
    + split; [done|]. intros _ _. rewrite Hdat, Hb. apply Hclean. lia.
  - intros b' Hb'. unfold drop_live. simpl.
    destruct (ab_ref x =? 1); by rewrite ?lookup_delete_ne, ?lookup_insert_ne.
  - unfold drop_live. simpl. destruct (Z.eqb_spec (ab_ref x) 1).
    + rewrite lookup_delete_eq. by intros [].
    + intros _. simpl in Href'. rewrite Href'. lia.
  - by apply (live_uniq s A i b Hr Hh).
Qed.

Lemma brelse_spec :
  exists s', brelse i s = Ok tt s' /\ bio_rep s' (drop_live A b x) /\
    (forall j b', b' <> b -> handle s j b' -> handle s' j b') /\
    (ab_ref x <> 1 -> handle s' i b) /\ bc_pid s' = bc_pid s /\
    bc_writes s' = bc_writes s /\ bc_woken s' = bc_woken s ++ [buf_chan i].
Proof.
  pose proof (live_fields _ _ _ _ _ Hr Hh Hx) as (_ & _ & Href & Hrng).
  pose proof (live_lt _ _ _ _ Hr Hh) as Hlt. pose proof Hh as (Hi & Hd & Hb & Hne).
  pose proof drop_rep as Hrep.
  assert (bio_rep (lset woken (bc_woken s ++ [buf_chan i]) (upd_buf i dropped s)) (drop_live A b x))
    as Hrep1 by (by split; destruct Hrep).
  set (s1 := lset woken (bc_woken s ++ [buf_chan i]) (upd_buf i dropped s)) in *.
  assert (b_refcnt (getbuf i (bc_buf s1)) = ab_ref x - 1) as Hr1.
  { simpl. rewrite getbuf_alter_eq by done. simpl. rewrite Href, u32_small; lia. }
  assert ((forall j b', b' <> b -> handle s j b' -> handle s1 j b') /\
          (ab_ref x <> 1 -> handle s1 i b)) as [Hfr Hkeep].
  { split; unfold handle; simpl.
    - intros j b' Hne' Hj. assert (j <> i) by (intros ->; naive_solver).
      by rewrite getbuf_alter_ne.
    - intros Hn1. simpl in Hr1. rewrite Hr1. rewrite getbuf_alter_eq by done. simpl.
      split_and!; try done. lia. }
  assert (brelse i s = Ok tt (if ab_ref x =? 1 then set_bufs (relink i (bc_buf s1)) s1 else s1)) as ->.
  { unfold brelse, bind at 1, mypid, gets. simpl. unfold bind at 1.
    rewrite (holding_live s A i b x) by done. simpl. unfold bind at 1.
    rewrite releasesleep_buf by (done || by apply (r_buf _ _ Hr)). simpl.
    unfold bind, lock_acquire, modify, gets, lock_release, upd_buf, set_bufs. simpl.
    rewrite (r_lock _ _ Hr). simpl.
    rewrite alter_twice.
    change (alter (fun y => set_refcnt _ _) i (bc_buf s)) with (alter dropped i (bc_buf s)).
    unfold s1, upd_buf, set_bufs in Hr1. simpl in Hr1. rewrite Hr1.
    replace (ab_ref x - 1 =? 0) with (ab_ref x =? 1)
      by (destruct (Z.eqb_spec (ab_ref x) 1), (Z.eqb_spec (ab_ref x - 1) 0); lia).
    rewrite <- (r_lock _ _ Hr). by destruct (ab_ref x =? 1). }
  eexists; split; [done|]. destruct (Z.eqb_spec (ab_ref x) 1) as [E|E].
  - destruct (r_ring _ _ Hrep1) as (l & Hl & Hp).
    assert (i ∈ l) as (l1 & l2 & ->)%list_elem_of_split by (rewrite Hp; apply elem_of_seq; lia).
    destruct (relink_ring i (bc_buf s1) l1 l2) as (HR & HL & HF).
    + apply Hrep1.
    + intros y Hy. rewrite Hp in Hy. apply elem_of_seq in Hy. lia.
    + done.
    + split; [|split_and!; try done].
      * apply rep_relinked; try done. exists (i :: l1 ++ l2). split; [done|].
        rewrite <- Hp. by rewrite Permutation_middle.
      * intros j b' Hb' Hj. apply handle_fields; [done|]. by apply Hfr.
  - done.
Qed.

End brelse.

(* ------------------------------------------------------------------ *)
(** ** Lemmas: start of day, and running out of buffers *)

Definition binit_inv (d : gmap Z (list Z)) (pid : Z) (k : Z) (s : bio) : Prop :=
  s = Bio false (bc_buf s) d [] pid [] /\ length (bc_buf s) = S HEAD /\
  ring (nxp (bc_buf s)) (pvp (bc_buf s)) HEAD (rev (seq 0 (Z.to_nat k))) /\
  forall j, same_fields (getbuf j (bc_buf s)) buf0.

Lemma same_buf0_lock x : same_fields x buf0 -> set_sleeplock initsleeplock x = x.
Proof.
  intros Hs. destruct (same_fields_inv _ _ Hs) as (_ & _ & _ & Hl & _).
  rewrite <- (set_lock_eta x) at 2. by rewrite Hl.
Qed.

Lemma binit_step d pid k s :
  0 <= k < NBUF -> binit_inv d pid k s ->
  binit_inv d pid (k + 1) (set_bufs (binit_one (Z.to_nat k) (bc_buf s)) s).
Proof.
  intros Hk (Hs & Hlen & Hring & Hsame). set (b := Z.to_nat k). set (bs := bc_buf s) in *.
  assert (b < HEAD)%nat as Hb by (unfold b, HEAD; lia).
  assert (forall y, y ∈ rev (seq 0 b) -> (y < b)%nat) as Hrev.
  { intros y Hy. apply list_elem_of_In, in_rev, in_seq in Hy. lia. }
  assert (binit_one b bs =
    let bs4 := alter (set_prev HEAD) b (alter (set_next (b_next (getbuf HEAD bs))) b bs) in
    alter (set_next b) HEAD (alter (set_prev b) (b_next (getbuf HEAD bs4)) bs4)) as Heq.
  { unfold binit_one. rewrite (alter_same (set_sleeplock initsleeplock)); [done|].
    apply same_buf0_lock. unfold same_fields.
    rewrite same_alter_prev by (rewrite length_alter; lia).
    rewrite same_alter_next by lia. apply Hsame. }
  destruct (push_front b bs (rev (seq 0 b))) as (H1 & H2 & H3); [done|done| |done| |].
  - intros y Hy. specialize (Hrev y Hy). lia.
  - intros Hin. specialize (Hrev b Hin). lia.
  - unfold binit_inv. simpl. rewrite Heq. split; [by rewrite Hs|]. split; [done|]. split.
    + replace (Z.to_nat (k + 1)) with (S b) by lia. rewrite seq_S, rev_app_distr. done.
    + intros j. unfold same_fields. rewrite H3. apply Hsame.
Qed.

Lemma binit_spec d pid :
  exists s, binit (boot_bio d pid) = Ok tt s /\ bio_rep s (ACache d ∅) /\
    bc_pid s = pid /\ bc_writes s = [] /\ bc_woken s = [].
Proof.
  set (s0 := upd_buf HEAD (set_next HEAD) (upd_buf HEAD (set_prev HEAD) (boot_bio d pid))).
  assert (binit_inv d pid 0 s0) as H0.
  { split; [done|]. split; [done|]. split; [split; [done|repeat constructor; set_solver]|].
    intros j. unfold s0, upd_buf, set_bufs, boot_bio, same_fields. cbn [bc_buf].
    rewrite same_alter_next by (rewrite length_alter, length_replicate; lia).
    rewrite same_alter_prev by (rewrite length_replicate; lia).
    unfold getbuf. destruct (replicate (S HEAD) buf0 !! j) eqn:E; [|done].
    by apply lookup_replicate in E as [-> _]. }
  assert (wp binit (fun _ => binit_inv d pid NBUF) (boot_bio d pid)) as Hwp.
  { unfold binit. wp_steps. apply (wp_for_range (Z.to_nat NBUF) 0 _ (binit_inv d pid)); [done|].
    intros k s Hk Hs. apply wp_modify, binit_step; [unfold NBUF in *; simpl in *; lia|done]. }
  apply wp_Ok in Hwp as ([] & s & Hrun & Heq & Hlen & Hring & Hsame).
  exists s. rewrite Heq. simpl. rewrite <- Heq. split; [done|]. split; [|done].
  assert (forall i, b_refcnt (getbuf i (bc_buf s)) = 0 /\ b_dev (getbuf i (bc_buf s)) = 0 /\
    b_valid (getbuf i (bc_buf s)) = false /\ b_lock (getbuf i (bc_buf s)) = initsleeplock) as Hf.
  { intros i. destruct (same_fields_inv _ _ (Hsame i)) as (? & ? & ? & ? & ? & ?). done. }
  rewrite Heq. split; simpl; try done.
  - eexists; split; [done|]. symmetry. apply Permutation_rev.
  - intros i _. destruct (Hf i) as (Href & _ & Hv & Hl). unfold buf_ok. rewrite Href, Hv, Hl.
    split_and!; try done.
  - intros i j _ _ Hd. destruct (Hf i) as (_ & Hd' & _). by rewrite Hd' in Hd.
  - intros b. rewrite lookup_empty. by intros [].
Qed.

Lemma bread_exhausted `{WakeBudget} s A b :
  bio_rep s A -> a_live A !! b = None ->
  (forall i, (i < HEAD)%nat -> b_refcnt (getbuf i (bc_buf s)) <> 0) ->
  bread ROOTDEV b s = Panic "bget: no buffers".
Proof.
  intros Hr Hn Hall. destruct (rep_find s A ROOTDEV b Hr) as (l & Hp & Hscan & Hvict).
  unfold bread, bget, bind, lock_acquire, gets. simpl. rewrite (r_lock _ _ Hr). simpl.
  rewrite Hscan by done. destruct (find (hit _ _ _) l) as [i|] eqn:Ef; simpl.
  - apply find_some in Ef as [Hin Hhit]. apply (perm_seq_lt l i Hp) in Hin.
    apply andb_true_iff in Hhit as [Hd Hb]. apply Z.eqb_eq in Hd, Hb.
    assert (handle s i b) as Hh by (split_and!; auto).
    pose proof (handle_buf _ _ _ _ Hr Hh). congruence.
  - rewrite Hvict by done. destruct (find (idle _) (rev l)) as [i|] eqn:Ev; simpl; [|done].
    apply find_some in Ev as [Hin Hidle]. apply in_rev, (perm_seq_lt l i Hp) in Hin.
    apply Z.eqb_eq in Hidle. by destruct (Hall i Hin).
Qed.
