(* ===== verification/BioRefine.v ===== *)
(** * The buffer cache implements a map of blocks

   The contract of kernel/bio.c: to its callers the NBUF recycled buffers
   behave like the disk itself plus the blocks currently in use.  [arun]
   is that contract as a program on [acache]; the theorem is that the calls,
   made in any order the contract allows, return and agree with it. *)

From stdpp Require Import base numbers list gmap strings.
From Stdlib Require Import ZArith Lia.
From S2P Require Import Prelude Params Sleeplock Ring Bio.

(** What a client does with a block. *)
Inductive bcmd :=
| CRead (b : Z)               (* bp = bread(dev, b) *)
| CSet (b : Z) (d : list Z)   (* fill bp->data *)
| CWrite (b : Z)              (* bwrite(bp) *)
| CRelse (b : Z)              (* brelse(bp) *)
| CPin (b : Z)                (* bpin(bp) *)
| CUnpin (b : Z).             (* bunpin(bp) *)

(** ** The contract *)

(** Legal calls on the abstract cache, with the data bread() shows: a block
    that is not locked and, when it is not live, fits in the cache can be
    read; the other calls are on a live block; only a locked block may be
    changed, written or released; the last reference is given up by
    brelse(), with the block as on disk. *)
Definition astep (A : acache) (c : bcmd) : option (acache * list (list Z)) :=
  match c with
  | CRead b =>
      match a_live A !! b with
      | Some x =>
          if negb (ab_locked x) && (ab_ref x + 1 <? 2 ^ 32)
          then Some (set_live A b (ABuf (ab_data x) true (ab_ref x + 1)), [ab_data x]) else None
      | None =>
          if (size (a_live A) <? HEAD)%nat
          then Some (set_live A b (ABuf (disk_block (a_disk A) b) true 1), [disk_block (a_disk A) b]) else None
      end
  | CSet b d =>
      match a_live A !! b with
      | Some x => if ab_locked x then Some (set_live A b (ABuf d true (ab_ref x)), []) else None
      | None => None
      end
  | CWrite b =>
      match a_live A !! b with
      | Some x => if ab_locked x then Some (ACache (<[b := ab_data x]> (a_disk A)) (a_live A), []) else None
      | None => None
      end
  | CRelse b =>
      match a_live A !! b with
      | Some x =>
          if ab_locked x then
            if (ab_ref x =? 1) && negb (bool_decide (ab_data x = disk_block (a_disk A) b)) then None
            else Some (drop_live A b x, [])
          else None
      | None => None
      end
  | CPin b =>
      match a_live A !! b with
      | Some x => if ab_ref x + 1 <? 2 ^ 32
                  then Some (set_live A b (ABuf (ab_data x) (ab_locked x) (ab_ref x + 1)), []) else None
      | None => None
      end
  | CUnpin b =>
      match a_live A !! b with
      | Some x => if 1 <? ab_ref x
                  then Some (set_live A b (ABuf (ab_data x) (ab_locked x) (ab_ref x - 1)), []) else None
      | None => None
      end
  end.

Fixpoint arun (A : acache) (cs : list bcmd) : option (acache * list (list Z)) :=
  match cs with
  | [] => Some (A, [])
  | c :: cs' =>
      match astep A c with
      | Some (A1, o1) =>
          match arun A1 cs' with
          | Some (A2, o2) => Some (A2, o1 ++ o2)
          | None => None
          end
      | None => None
      end
  end.

(** ** The calls *)

Section run.
Context `{WakeBudget}.

(** The client remembers the buffer pointer bread() returned per block. *)
Notation held := (gmap Z nat).
Definition ptr (e : held) (b : Z) : nat := default HEAD (e !! b).

Definition cstep (e : held) (c : bcmd) : M bio (held * list (list Z)) :=
  match c with
  | CRead b => let* i := bread ROOTDEV b in let* d := bdata i in ret (<[b := i]> e, [d])
  | CSet b d => bset (ptr e b) d ;; ret (e, [])
  | CWrite b => bwrite (ptr e b) ;; ret (e, [])
  | CRelse b => brelse (ptr e b) ;; ret (e, [])
  | CPin b => bpin (ptr e b) ;; ret (e, [])
  | CUnpin b => bunpin (ptr e b) ;; ret (e, [])
  end.

Fixpoint crun (e : held) (cs : list bcmd) : M bio (list (list Z)) :=
  match cs with
  | [] => ret []
  | c :: cs' => let* r := cstep e c in let* o := crun (fst r) cs' in ret (snd r ++ o)
  end.

(** ** Simulation *)

Definition sim (e : held) (s : bio) (A : acache) : Prop :=
  bio_rep s A /\ forall b, is_Some (a_live A !! b) -> handle s (ptr e b) b.

Lemma sim_set e s s' A b x :
  sim e s A -> bio_rep s' (set_live A b x) -> frame s s' -> handle s' (ptr e b) b ->
  sim e s' (set_live A b x).
Proof.
  intros [Hr Hh] Hr' Hf Hb. split; [done|]. intros b' Hl. simpl in Hl.
  destruct (decide (b' = b)) as [->|]; [done|]. rewrite lookup_insert_ne in Hl by done. by apply Hf, Hh.
Qed.

Lemma cstep_read e s A b A' o :
  sim e s A -> astep A (CRead b) = Some (A', o) ->
  exists e' s', cstep e (CRead b) s = Ok (e', o) s' /\ sim e' s' A'.
Proof.
  intros [Hr Hh] Hst.
  assert (can_read A b /\ A' = set_live A b (ABuf (a_view A b) true (live_ref A b + 1)) /\
          o = [a_view A b]) as (Hcan & -> & ->).
  { unfold can_read, live_ref, a_view. simpl in Hst. destruct (a_live A !! b) as [x|] eqn:Hx.
    - destruct (ab_locked x) eqn:Hl; [done|]. simpl in Hst.
      destruct (Z.ltb_spec (ab_ref x + 1) (2 ^ 32)) as [Hlt|]; [|done]. by injection Hst as <- <-.
    - destruct (Nat.ltb_spec (size (a_live A)) HEAD) as [Hlt|]; [|done]. by injection Hst as <- <-. }
  destruct (bread_spec s A b Hr Hcan) as (i & s' & E & R & H' & F & _).
  exists (<[b := i]> e), s'. split.
  - unfold cstep. erewrite bind_Ok by done. unfold bdata. erewrite bind_Ok by done. simpl.
    pose proof (live_fields s' _ i b _ R H' ltac:(simpl; by rewrite lookup_insert_eq)) as (-> & _). done.
  - split; [done|]. intros b' Hl. unfold ptr. simpl in Hl. destruct (decide (b' = b)) as [->|Hne].
    + by rewrite lookup_insert_eq.
    + rewrite lookup_insert_ne in Hl by done. rewrite lookup_insert_ne by done. by apply F, Hh.
Qed.

Lemma cstep_sim e s A c A' o :
  sim e s A -> astep A c = Some (A', o) ->
  exists e' s', cstep e c s = Ok (e', o) s' /\ sim e' s' A'.
Proof.
  intros Hsim Hst. destruct c as [b|b d|b|b|b|b]; [by eapply cstep_read|..];
    pose proof Hsim as [Hr Hh]; simpl in Hst;
    (destruct (a_live A !! b) as [x|] eqn:Hx; [|done]);
    assert (handle s (ptr e b) b) as Hb by (apply Hh; by rewrite Hx); exists e.
  - destruct (ab_locked x) eqn:Hl; [|done]. injection Hst as <- <-.
    destruct (bset_spec s A (ptr e b) b x Hr Hb Hx d) as (E & R & F & H'). rewrite Hl in R.
    eexists. split; [unfold cstep; by erewrite bind_Ok by done|]. by apply (sim_set e s).
  - destruct (ab_locked x) eqn:Hl; [|done]. injection Hst as <- <-.
    destruct (bwrite_spec s A (ptr e b) b x Hr Hb Hx Hl) as (s' & E & R & F & _).
    exists s'. split; [unfold cstep; by erewrite bind_Ok by done|]. split; [done|]. intros b' Hl'. by apply F, Hh.
  - destruct (ab_locked x) eqn:Hl; [|done].
    destruct ((ab_ref x =? 1) && _) eqn:Hc; [done|]. injection Hst as <- <-.
    destruct (brelse_spec s A (ptr e b) b x Hr Hb Hx Hl) as (s' & E & R & F & K & _).
    { intros Hone. rewrite Hone in Hc. simpl in Hc. apply negb_false_iff, bool_decide_eq_true in Hc. done. }
    exists s'. split; [unfold cstep; by erewrite bind_Ok by done|]. split; [done|].
    unfold drop_live. simpl. intros b' Hl'. destruct (decide (b' = b)) as [->|Hne].
    + apply K. intros Hone. rewrite Hone in Hl'. simpl in Hl'. rewrite lookup_delete_eq in Hl'. by destruct Hl'.
    + apply F; [done|]. apply Hh. destruct (_ =? _); [by rewrite lookup_delete_ne in Hl'|by rewrite lookup_insert_ne in Hl'].
  - destruct (Z.ltb_spec (ab_ref x + 1) (2 ^ 32)) as [Hlt|]; [|done]. injection Hst as <- <-.
    destruct (bpin_spec s A (ptr e b) b x Hr Hb Hx Hlt) as (s' & E & R & F & H' & _).
    exists s'. split; [unfold cstep; by erewrite bind_Ok by done|]. by apply (sim_set e s).
  - destruct (Z.ltb_spec 1 (ab_ref x)) as [Hlt|]; [|done]. injection Hst as <- <-.
    destruct (bunpin_spec s A (ptr e b) b x Hr Hb Hx Hlt) as (s' & E & R & F & H' & _).
    exists s'. split; [unfold cstep; by erewrite bind_Ok by done|]. by apply (sim_set e s).
Qed.

Lemma crun_sim cs e s A A' o :
  sim e s A -> arun A cs = Some (A', o) ->
  exists s', crun e cs s = Ok o s' /\ bio_rep s' A'.
Proof.
  revert e s A o. induction cs as [|c cs IH]; intros e s A o Hsim Hrun; simpl in Hrun.
  - injection Hrun as <- <-. exists s. split; [done|apply Hsim].
  - destruct (astep A c) as [[A1 o1]|] eqn:Hst; [|done].
    destruct (arun A1 cs) as [[A2 o2]|] eqn:Hrun'; [|done]. injection Hrun as <- <-.
    destruct (cstep_sim e s A c A1 o1 Hsim Hst) as (e' & s1 & E1 & Hs1).
    destruct (IH e' s1 A1 o2 Hs1 Hrun') as (s2 & E2 & R2). exists s2. split; [|done].
    simpl. erewrite bind_Ok by done. by erewrite bind_Ok by (exact E2).
Qed.

End run.

(** C7.  The buffer cache refines the map of blocks.  After binit(), every
    sequence of bread(), writes to data, bwrite(), brelse(), bpin() and
    bunpin() calls that the contract allows returns (no panic, no sleep), every bread() shows the data the
    contract says (the last data put in the block while it stayed live,
    otherwise the disk's), and the cache and the disk end in a state that
    represents the contract's. *)
Theorem bio_refines_block_map `{WakeBudget} d pid cs A o :
  arun (ACache d ∅) cs = Some (A, o) ->
  exists s, (binit ;; crun ∅ cs) (boot_bio d pid) = Ok o s /\ bio_rep s A /\ bc_disk s = a_disk A.
Proof.
  intros Hrun. destruct (binit_spec d pid) as (s0 & E0 & R0 & _).
  destruct (crun_sim cs ∅ s0 (ACache d ∅) A o) as (s & E & R); [|done|].
  - split; [done|]. intros b [x Hx]. done.
  - exists s. split; [by erewrite bind_Ok|]. split; [done|]. apply (r_disk _ _ R).
Qed.

Definition ex_cmds : list bcmd :=
  [CRead 5; CSet 5 [9]; CPin 5; CRelse 5; CRead 6; CRelse 6; CRead 5; CWrite 5; CUnpin 5; CRelse 5; CRead 5].

Lemma bio_refines_block_map_witness : exists s,
  (binit ;; @crun 3%nat ∅ ex_cmds) (boot_bio {[ 5 := [1]; 6 := [2] ]} 1) = Ok [[1]; [2]; [9]; [9]] s.
Proof.
  destruct (@bio_refines_block_map 3%nat {[ 5 := [1]; 6 := [2] ]} 1 ex_cmds
    (ACache {[ 5 := [9]; 6 := [2] ]} {[ 5 := ABuf [9] true 1 ]}) [[1]; [2]; [9]; [9]]) as (s & E & _).
  - vm_compute. reflexivity.
  - exists s. exact E.
Defined.
