(* ===== verification/Virtio.v ===== *)
(** * kernel/virtio_disk.c

   The driver of the virtio disk: descriptors and their free list, the
   request of virtio_disk_rw(), the interrupt handler, and the device on the
   other side of the shared memory.

   The queue memory and struct disk are one state.  An address in a
   descriptor names the object it points to.  The device is what the virtio
   specification lets a working disk do (virtio.h and the comments of the
   driver refer to it): it takes chain heads from the avail ring in order,
   carries out the requests it has taken in any order, and puts their heads
   in the used ring.  It runs at any time: where the code has a memory
   barrier, the model has a point [dev_point] at which the device may act
   while the driver holds its lock. *)

From stdpp Require Import base numbers list functions strings.
From Stdlib Require Import ZArith Lia.
From S2P Require Import Prelude Params.

Definition NUM : Z := 8.
Definition VRING_DESC_F_NEXT : Z := 1.
Definition VRING_DESC_F_WRITE : Z := 2.
Definition VIRTIO_BLK_T_IN : Z := 0.
Definition VIRTIO_BLK_T_OUT : Z := 1.

Inductive vaddr := VNull | VOps (i : nat) | VData (b : nat) | VStatus (i : nat).

(** struct virtq_desc *)
Record virtq_desc := Desc { d_addr : vaddr; d_len : Z; d_flags : Z; d_next : Z }.
(** struct virtio_blk_req *)
Record virtio_blk_req := Req { q_type : Z; q_reserved : Z; q_sector : Z }.
(** The fields of struct buf that the driver uses. *)
Record vbuf := VBuf { vb_blockno : Z; vb_disk : bool; vb_data : list Z }.

(** struct disk with the queue memory it points to. *)
Record disk := Disk {
  desc : nat -> virtq_desc;
  avail_idx : Z; avail_ring : nat -> Z;
  used_ridx : Z; used_ring : nat -> Z;
  dfree : nat -> bool;
  used_idx : Z;
  info : nat -> option nat * Z;
  ops : nat -> virtio_blk_req;
  vdisk_lock : bool
}.

(** The device: how far it has read the avail ring, the chains it is working
    on, and the sectors. *)
Record device := Device { seen : Z; busy : list Z; media : Z -> list Z }.

Record vst := Vst { v_disk : disk; v_bufs : nat -> vbuf; v_dev : device; v_woken : list chan }.

(* ------------------------------------------------------------------ *)
(** ** Fields *)

Definition upd_disk (f : disk -> disk) (s : vst) : vst := Vst (f (v_disk s)) (v_bufs s) (v_dev s) (v_woken s).
Definition upd_buf (b : nat) (f : vbuf -> vbuf) (s : vst) : vst :=
  Vst (v_disk s) (<[b := f (v_bufs s b)]> (v_bufs s)) (v_dev s) (v_woken s).

Definition set_desc (i : nat) (x : virtq_desc) (d : disk) : disk :=
  Disk (<[i := x]> (desc d)) (avail_idx d) (avail_ring d) (used_ridx d) (used_ring d) (dfree d) (used_idx d) (info d) (ops d) (vdisk_lock d).
Definition set_avail_idx (x : Z) (d : disk) : disk :=
  Disk (desc d) x (avail_ring d) (used_ridx d) (used_ring d) (dfree d) (used_idx d) (info d) (ops d) (vdisk_lock d).
Definition set_avail_ring (i : nat) (x : Z) (d : disk) : disk :=
  Disk (desc d) (avail_idx d) (<[i := x]> (avail_ring d)) (used_ridx d) (used_ring d) (dfree d) (used_idx d) (info d) (ops d) (vdisk_lock d).
Definition put_used (i : nat) (x : Z) (d : disk) : disk :=
  Disk (desc d) (avail_idx d) (avail_ring d) (u16 (used_ridx d + 1)) (<[i := x]> (used_ring d)) (dfree d) (used_idx d) (info d) (ops d) (vdisk_lock d).
Definition set_dfree (i : nat) (x : bool) (d : disk) : disk :=
  Disk (desc d) (avail_idx d) (avail_ring d) (used_ridx d) (used_ring d) (<[i := x]> (dfree d)) (used_idx d) (info d) (ops d) (vdisk_lock d).
Definition set_used_idx (x : Z) (d : disk) : disk :=
  Disk (desc d) (avail_idx d) (avail_ring d) (used_ridx d) (used_ring d) (dfree d) x (info d) (ops d) (vdisk_lock d).
Definition set_info (i : nat) (x : option nat * Z) (d : disk) : disk :=
  Disk (desc d) (avail_idx d) (avail_ring d) (used_ridx d) (used_ring d) (dfree d) (used_idx d) (<[i := x]> (info d)) (ops d) (vdisk_lock d).
Definition set_ops (i : nat) (x : virtio_blk_req) (d : disk) : disk :=
  Disk (desc d) (avail_idx d) (avail_ring d) (used_ridx d) (used_ring d) (dfree d) (used_idx d) (info d) (<[i := x]> (ops d)) (vdisk_lock d).
Definition set_vlock (x : bool) (d : disk) : disk :=
  Disk (desc d) (avail_idx d) (avail_ring d) (used_ridx d) (used_ring d) (dfree d) (used_idx d) (info d) (ops d) x.

Definition set_status (i : nat) (x : Z) (d : disk) : disk := set_info i (fst (info d i), x) d.
Definition set_infob (i : nat) (x : option nat) (d : disk) : disk := set_info i (x, snd (info d i)) d.
Definition set_bdisk (x : bool) (b : vbuf) : vbuf := VBuf (vb_blockno b) x (vb_data b).
Definition set_bdata (x : list Z) (b : vbuf) : vbuf := VBuf (vb_blockno b) (vb_disk b) x.

Definition L_vdisk_lock : lens vst bool :=
  Lens (fun s => vdisk_lock (v_disk s)) (fun x => upd_disk (set_vlock x)).
#[global] Instance vst_woken : Woken vst :=
  Lens v_woken (fun w s => Vst (v_disk s) (v_bufs s) (v_dev s) w).

(* ------------------------------------------------------------------ *)
(** ** The driver *)

Notation V := (M vst).

(** An index into an array of NUM entries. *)
Definition slot (i : Z) : V nat :=
  if (0 <=? i) && (i <? NUM) then ret (Z.to_nat i) else ub "array index".

(** The device may act here. *)
Definition dev_point : V unit := yield_to ChYield.

(** for(int i = 0; i < NUM; i++) *)
Fixpoint alloc_desc_loop (n i : nat) : V Z :=
  match n with
  | O => ret (-1)
  | S n' =>
      let* f := gets (fun s => dfree (v_disk s) i) in
      if f then modify (upd_disk (set_dfree i false)) ;; ret (Z.of_nat i) else alloc_desc_loop n' (S i)
  end.
Definition alloc_desc : V Z := alloc_desc_loop (Z.to_nat NUM) 0.

Definition free_desc (i : Z) : V unit :=
  if i >=? NUM then panic "free_desc 1"
  else
    let* k := slot i in
    let* f := gets (fun s => dfree (v_disk s) k) in
    if f : bool then panic "free_desc 2"
    else
      modify (upd_disk (set_desc k (Desc VNull 0 0 0))) ;;
      modify (upd_disk (set_dfree k true)) ;;
      wakeup ChDiskFree.

Fixpoint free_chain (fuel : nat) (i : Z) : V unit :=
  match fuel with
  | O => diverge
  | S f =>
      let* k := slot i in
      let* x := gets (fun s => desc (v_disk s) k) in
      free_desc i ;;
      if negb (Z.land (d_flags x) VRING_DESC_F_NEXT =? 0) then free_chain f (d_next x) else ret tt
  end.

(** The loop over idx[i], [got] the descriptors so far; [None] for -1. *)
Fixpoint alloc3_loop (n : nat) (got : list Z) : V (option (list Z)) :=
  match n with
  | O => ret (Some got)
  | S n' =>
      let* x := alloc_desc in
      if x <? 0 then
        (fix undo l := match l with [] => ret tt | j :: l' => free_desc j ;; undo l' end) got ;; ret None
      else alloc3_loop n' (got ++ [x])
  end.
Definition alloc3_desc : V (option (list Z)) := alloc3_loop 3 [].

Section driver.
Context `{WakeBudget}.

(** while(1) { if(alloc3_desc(idx) == 0) break; sleep(...); } *)
Fixpoint alloc3_wait (fuel : nat) : V (list Z) :=
  let* r := alloc3_desc in
  match r with
  | Some idx => ret idx
  | None =>
      match fuel with
      | O => diverge
      | S f => sleep_on ChDiskFree L_vdisk_lock ;; alloc3_wait f
      end
  end.

(** Formatting the request: the three descriptors, and the buffer for
    virtio_disk_intr(). *)
Definition format (b : nat) (write : bool) (sector : Z) (i0 i1 i2 : nat) : V unit :=
  modify (upd_disk (set_ops i0 (Req (if write then VIRTIO_BLK_T_OUT else VIRTIO_BLK_T_IN) 0 sector))) ;;
  modify (upd_disk (set_desc i0 (Desc (VOps i0) 16 VRING_DESC_F_NEXT (Z.of_nat i1)))) ;;
  modify (upd_disk (set_desc i1 (Desc (VData b) BSIZE
    (Z.lor (if write then 0 else VRING_DESC_F_WRITE) VRING_DESC_F_NEXT) (Z.of_nat i2)))) ;;
  modify (upd_disk (set_status i0 0xff)) ;;
  modify (upd_disk (set_desc i2 (Desc (VStatus i0) 1 VRING_DESC_F_WRITE 0))) ;;
  modify (upd_buf b (set_bdisk true)) ;;
  modify (upd_disk (set_infob i0 (Some b))).

(** Telling the device: the ring entry, then the index. *)
Definition submit (i0 : nat) : V unit :=
  let* a := gets (fun s => avail_idx (v_disk s)) in
  modify (upd_disk (set_avail_ring (Z.to_nat (a mod NUM)) (Z.of_nat i0))) ;;
  dev_point ;;
  modify (upd_disk (fun d => set_avail_idx (u16 (avail_idx d + 1)) d)) ;;
  dev_point.

Definition virtio_disk_rw (b : nat) (write : bool) : V unit :=
  let* x := gets (fun s => v_bufs s b) in
  let sector := u32 (vb_blockno x * (BSIZE / 512)) in
  lock_acquire L_vdisk_lock ;;
  let* idx := alloc3_wait wake_budget in
  match idx with
  | [z0; z1; z2] =>
      let* i0 := slot z0 in
      let* i1 := slot z1 in
      let* i2 := slot z2 in
      format b write sector i0 i1 i2 ;;
      submit i0 ;;
      sleep_while wake_budget (fun s => vb_disk (v_bufs s b)) (ChDiskBuf b) L_vdisk_lock ;;
      modify (upd_disk (set_infob i0 None)) ;;
      free_chain (Z.to_nat NUM) z0 ;;
      lock_release L_vdisk_lock
  | _ => ub "idx"
  end.
End driver.

(** while(disk.used_idx != disk.used->idx) *)
Fixpoint intr_loop (fuel : nat) : V unit :=
  let* u := gets (fun s => used_idx (v_disk s)) in
  let* r := gets (fun s => used_ridx (v_disk s)) in
  if u =? r then ret tt
  else
    match fuel with
    | O => diverge
    | S f =>
        dev_point ;;
        let* id := gets (fun s => used_ring (v_disk s) (Z.to_nat (u mod NUM))) in
        let* k := slot id in
        let* x := gets (fun s => info (v_disk s) k) in
        if negb (snd x =? 0) then panic "virtio_disk_intr status"
        else
          match fst x with
          | None => ub "null buf"
          | Some b =>
              modify (upd_buf b (set_bdisk false)) ;;
              wakeup (ChDiskBuf b) ;;
              modify (upd_disk (set_used_idx (u16 (u + 1)))) ;;
              intr_loop f
          end
    end.

(** At most NUM chains can be in the used ring, and none is added to the
    avail ring while the handler has the lock. *)
Definition virtio_disk_intr : V unit :=
  lock_acquire L_vdisk_lock ;;
  dev_point ;;
  intr_loop (Z.to_nat NUM) ;;
  lock_release L_vdisk_lock.

(* ------------------------------------------------------------------ *)
(** ** The device *)

Definition SECTOR : Z := 512.

(** [n] sectors from sector [k] on. *)
Definition read_sectors (m : Z -> list Z) (k : Z) (n : nat) : list Z :=
  mjoin ((fun i => m (k + Z.of_nat i)) <$> seq 0 n).
Definition write_sectors (m : Z -> list Z) (k : Z) (n : nat) (data : list Z) : Z -> list Z := fun j =>
  if decide (k <= j < k + Z.of_nat n) then slice (Z.to_nat ((j - k) * SECTOR)) (Z.to_nat SECTOR) data else m j.

Definition set_media (m : Z -> list Z) (v : device) : device := Device (seen v) (busy v) m.
Definition upd_dev (f : device -> device) (s : vst) : vst := Vst (v_disk s) (v_bufs s) (f (v_dev s)) (v_woken s).

(** It takes the next chain of the avail ring. *)
Definition dev_fetch (s : vst) : option vst :=
  let v := v_dev s in
  if seen v =? avail_idx (v_disk s) then None
  else Some (upd_dev (fun v => Device (u16 (seen v + 1))
    (busy v ++ [avail_ring (v_disk s) (Z.to_nat (seen v mod NUM))]) (media v)) s).

(** The transfer a chain asks for: a request header, the data the device
    reads or writes, and a status byte it writes.  [None]: the chain is not
    one. *)
Definition dev_transfer (h : Z) (s : vst) : option vst :=
  let d := v_disk s in
  let d0 := desc d (Z.to_nat h) in
  let d1 := desc d (Z.to_nat (d_next d0)) in
  let d2 := desc d (Z.to_nat (d_next d1)) in
  match d_addr d0, d_addr d1, d_addr d2 with
  | VOps i, VData b, VStatus j =>
      if (Z.land (d_flags d0) VRING_DESC_F_NEXT =? 0) || (Z.land (d_flags d1) VRING_DESC_F_NEXT =? 0)
         || (Z.land (d_flags d2) VRING_DESC_F_WRITE =? 0) then None
      else
        let q := ops d i in
        let n := Z.to_nat (d_len d1 / SECTOR) in
        let ok := upd_disk (set_status j 0) in
        if q_type q =? VIRTIO_BLK_T_OUT then
          if Z.land (d_flags d1) VRING_DESC_F_WRITE =? 0 then
            Some (ok (upd_dev (fun v => set_media (write_sectors (media v) (q_sector q) n (vb_data (v_bufs s b))) v) s))
          else None
        else
          if Z.land (d_flags d1) VRING_DESC_F_WRITE =? 0 then None
          else Some (ok (upd_buf b (set_bdata (read_sectors (media (v_dev s)) (q_sector q) n)) s))
  | _, _, _ => None
  end.

(** It finishes the [k]-th of the chains it is working on. *)
Definition dev_complete (k : nat) (s : vst) : option vst :=
  match busy (v_dev s) !! k with
  | None => None
  | Some h =>
      match dev_transfer h s with
      | None => None
      | Some s' =>
          Some (upd_dev (fun v => Device (seen v) (delete k (busy v)) (media v))
                 (upd_disk (fun d => put_used (Z.to_nat (used_ridx d mod NUM)) h d) s'))
      end
  end.

Definition dev_step (s s' : vst) : Prop := dev_fetch s = Some s' \/ exists k, dev_complete k s = Some s'.

(* ------------------------------------------------------------------ *)
(** ** Initialization *)

Definition VIRTIO_MMIO_MAGIC_VALUE : Z := 0x000.
Definition VIRTIO_MMIO_VERSION : Z := 0x004.
Definition VIRTIO_MMIO_DEVICE_ID : Z := 0x008.
Definition VIRTIO_MMIO_VENDOR_ID : Z := 0x00c.
Definition VIRTIO_MMIO_DEVICE_FEATURES : Z := 0x010.
Definition VIRTIO_MMIO_DRIVER_FEATURES : Z := 0x020.
Definition VIRTIO_MMIO_QUEUE_SEL : Z := 0x030.
Definition VIRTIO_MMIO_QUEUE_NUM_MAX : Z := 0x034.
Definition VIRTIO_MMIO_QUEUE_NUM : Z := 0x038.
Definition VIRTIO_MMIO_QUEUE_READY : Z := 0x044.
Definition VIRTIO_MMIO_STATUS : Z := 0x070.
Definition VIRTIO_MMIO_QUEUE_DESC_LOW : Z := 0x080.
Definition VIRTIO_MMIO_QUEUE_DESC_HIGH : Z := 0x084.
Definition VIRTIO_MMIO_DRIVER_DESC_LOW : Z := 0x090.
Definition VIRTIO_MMIO_DRIVER_DESC_HIGH : Z := 0x094.
Definition VIRTIO_MMIO_DEVICE_DESC_LOW : Z := 0x0a0.
Definition VIRTIO_MMIO_DEVICE_DESC_HIGH : Z := 0x0a4.
Definition VIRTIO_CONFIG_S_ACKNOWLEDGE : Z := 1.
Definition VIRTIO_CONFIG_S_DRIVER : Z := 2.
Definition VIRTIO_CONFIG_S_DRIVER_OK : Z := 4.
Definition VIRTIO_CONFIG_S_FEATURES_OK : Z := 8.
Definition VIRTIO_BLK_F_RO : Z := 5.
Definition VIRTIO_BLK_F_SCSI : Z := 7.
Definition VIRTIO_BLK_F_CONFIG_WCE : Z := 11.
Definition VIRTIO_BLK_F_MQ : Z := 12.
Definition VIRTIO_F_ANY_LAYOUT : Z := 27.
Definition VIRTIO_RING_F_INDIRECT_DESC : Z := 28.
Definition VIRTIO_RING_F_EVENT_IDX : Z := 29.

(** The stores to the device's registers so far, in order. *)
Record ist := Ist { i_regs : list (Z * Z); i_v : vst }.
#[local] Notation I := (M ist).

Section init.
(** What the device answers to a load of a register after some stores, and
    what the three calls of kalloc() return (0 when there is no page). *)
Context (answer : Z -> list (Z * Z) -> Z) (page : nat -> Z).

Definition rd (r : Z) : I Z := gets (fun i => answer r (i_regs i)).
(** Storing 0 to the status register resets the device. *)
Definition wr (r v : Z) : I unit :=
  modify (fun i => Ist (i_regs i ++ [(r, u32 v)])
    (if (r =? VIRTIO_MMIO_STATUS) && (v =? 0) then upd_dev (fun d => Device 0 [] (media d)) (i_v i) else i_v i)).
Definition on_disk (f : disk -> disk) : I unit := modify (fun i => Ist (i_regs i) (upd_disk f (i_v i))).

(** features &= ~(1 << bit) *)
Definition clear_bit (bit features : Z) : Z := Z.land features (Z.lnot (Z.shiftl 1 bit)).

(** memset() of the three queue pages. *)
Definition zero_queues (d : disk) : disk :=
  Disk (fun _ => Desc VNull 0 0 0) 0 (fun _ => 0) 0 (fun _ => 0) (dfree d) (used_idx d) (info d) (ops d) (vdisk_lock d).

Definition virtio_disk_init : I unit :=
  on_disk (set_vlock false) ;;
  let* magic := rd VIRTIO_MMIO_MAGIC_VALUE in
  let* version := rd VIRTIO_MMIO_VERSION in
  let* id := rd VIRTIO_MMIO_DEVICE_ID in
  let* vendor := rd VIRTIO_MMIO_VENDOR_ID in
  if negb (magic =? 0x74726976) || negb (version =? 2) || negb (id =? 2) || negb (vendor =? 0x554d4551)
  then panic "could not find virtio disk" else
  let status := 0 in
  wr VIRTIO_MMIO_STATUS status ;;
  let status := Z.lor status VIRTIO_CONFIG_S_ACKNOWLEDGE in
  wr VIRTIO_MMIO_STATUS status ;;
  let status := Z.lor status VIRTIO_CONFIG_S_DRIVER in
  wr VIRTIO_MMIO_STATUS status ;;
  let* features := rd VIRTIO_MMIO_DEVICE_FEATURES in
  let features := clear_bit VIRTIO_BLK_F_RO features in
  let features := clear_bit VIRTIO_BLK_F_SCSI features in
  let features := clear_bit VIRTIO_BLK_F_CONFIG_WCE features in
  let features := clear_bit VIRTIO_BLK_F_MQ features in
  let features := clear_bit VIRTIO_F_ANY_LAYOUT features in
  let features := clear_bit VIRTIO_RING_F_EVENT_IDX features in
  let features := clear_bit VIRTIO_RING_F_INDIRECT_DESC features in
  wr VIRTIO_MMIO_DRIVER_FEATURES features ;;
  let status := Z.lor status VIRTIO_CONFIG_S_FEATURES_OK in
  wr VIRTIO_MMIO_STATUS status ;;
  let* status := rd VIRTIO_MMIO_STATUS in
  if Z.land status VIRTIO_CONFIG_S_FEATURES_OK =? 0 then panic "virtio disk FEATURES_OK unset" else
  wr VIRTIO_MMIO_QUEUE_SEL 0 ;;
  let* qready := rd VIRTIO_MMIO_QUEUE_READY in
  if negb (qready =? 0) then panic "virtio disk should not be ready" else
  let* max := rd VIRTIO_MMIO_QUEUE_NUM_MAX in
  if max =? 0 then panic "virtio disk has no queue 0" else
  if max <? NUM then panic "virtio disk max queue too short" else
  let pdesc := page 0%nat in
  let pavail := page 1%nat in
  let pused := page 2%nat in
  if (pdesc =? 0) || (pavail =? 0) || (pused =? 0) then panic "virtio disk kalloc" else
  on_disk zero_queues ;;
  wr VIRTIO_MMIO_QUEUE_NUM NUM ;;
  wr VIRTIO_MMIO_QUEUE_DESC_LOW pdesc ;;
  wr VIRTIO_MMIO_QUEUE_DESC_HIGH (Z.shiftr pdesc 32) ;;
  wr VIRTIO_MMIO_DRIVER_DESC_LOW pavail ;;
  wr VIRTIO_MMIO_DRIVER_DESC_HIGH (Z.shiftr pavail 32) ;;
  wr VIRTIO_MMIO_DEVICE_DESC_LOW pused ;;
  wr VIRTIO_MMIO_DEVICE_DESC_HIGH (Z.shiftr pused 32) ;;
  wr VIRTIO_MMIO_QUEUE_READY 1 ;;
  for_range (Z.to_nat NUM) 0 (fun i => on_disk (set_dfree (Z.to_nat i) true)) ;;
  let status := Z.lor status VIRTIO_CONFIG_S_DRIVER_OK in
  wr VIRTIO_MMIO_STATUS status.
End init.
