(* ===== verification/VirtioInv.v ===== *)
(** * The requests of the disk driver

   What the queue memory of kernel/virtio_disk.c means: the requests whose
   chains are in the descriptor table, where each is on its way through the
   device, and the invariant that ties them to the free descriptors and to
   the buffers.  The device keeps the invariant. *)

From stdpp Require Import base numbers list functions strings relations.
From Stdlib Require Import ZArith Lia.
From S2P Require Import Prelude Params Virtio.

Notation num := (Z.to_nat NUM).

(** A request: its descriptors, its buffer and its direction. *)
Record request := Rq { r_head : nat; r_mid : nat; r_end : nat; r_buf : nat; r_write : bool }.
#[global] Instance request_eq_dec : EqDecision request.
Proof. solve_decision. Defined.
Definition descs (r : request) : list nat := [r_head r; r_mid r; r_end r].

Definition blockno (s : vst) (b : nat) : Z := vb_blockno (v_bufs s b).
Definition data (s : vst) (b : nat) : list Z := vb_data (v_bufs s b).
(** The block of the disk that a buffer is for. *)
Definition block (s : vst) (b : nat) : list Z := read_sectors (media (v_dev s)) (blockno s b * 2) 2.

Definition is_req (s : vst) (r : request) : Prop :=
  let d := v_disk s in
  NoDup (descs r) /\ Forall (fun i => i < num)%nat (descs r) /\
  fst (info d (r_head r)) = Some (r_buf r) /\
  desc d (r_head r) = Desc (VOps (r_head r)) 16 VRING_DESC_F_NEXT (Z.of_nat (r_mid r)) /\
  desc d (r_mid r) = Desc (VData (r_buf r)) BSIZE
    (Z.lor (if r_write r then 0 else VRING_DESC_F_WRITE) VRING_DESC_F_NEXT) (Z.of_nat (r_end r)) /\
  desc d (r_end r) = Desc (VStatus (r_head r)) 1 VRING_DESC_F_WRITE 0 /\
  ops d (r_head r) = Req (if r_write r then VIRTIO_BLK_T_OUT else VIRTIO_BLK_T_IN) 0 (blockno s (r_buf r) * 2) /\
  0 <= blockno s (r_buf r) < 2 ^ 31 /\
  (r_write r = true -> length (data s (r_buf r)) = Z.to_nat BSIZE).

(** The entries of a ring between two indices. *)
Definition ring_is (ring : nat -> Z) (from to : Z) (l : list Z) : Prop :=
  0 <= from < 2 ^ 16 /\ to = u16 (from + Z.of_nat (length l)) /\
  forall k h, l !! k = Some h -> ring (Z.to_nat ((from + Z.of_nat k) mod NUM)) = h.

Notation head r := (Z.of_nat (r_head r)).

(** Where the requests are: in the avail ring and not yet seen by the device
    ([av]), in the device, or in the used ring and not yet seen by the driver
    ([us]).  [x] is a request that is formatted and not yet submitted. *)
Record queues (x : option nat) (s : vst) (av us : list Z) : Prop := Queues {
  q_av : ring_is (avail_ring (v_disk s)) (seen (v_dev s)) (avail_idx (v_disk s)) av;
  q_us : ring_is (used_ring (v_disk s)) (used_idx (v_disk s)) (used_ridx (v_disk s)) us;
  q_nodup : NoDup (av ++ busy (v_dev s) ++ us);
  q_heads h : h ∈ av ++ busy (v_dev s) ++ us -> exists r, is_req s r /\ h = head r;
  q_new h : x = Some h -> Z.of_nat h ∉ av ++ busy (v_dev s) ++ us /\ exists r, is_req s r /\ r_head r = h;
  q_disk r : is_req s r ->
    vb_disk (v_bufs s (r_buf r)) = true <-> (head r ∈ av ++ busy (v_dev s) ++ us \/ x = Some (r_head r));
  q_status r : is_req s r -> head r ∈ us -> snd (info (v_disk s) (r_head r)) = 0;
  q_done r : is_req s r -> head r ∉ av ++ busy (v_dev s) -> x <> Some (r_head r) -> data s (r_buf r) = block s (r_buf r)
}.

Record vinv (x : option nat) (s : vst) : Prop := Vinv {
  vi_info h b : fst (info (v_disk s) h) = Some b -> exists r, is_req s r /\ r_head r = h;
  vi_apart r r' i : is_req s r -> is_req s r' -> i ∈ descs r -> i ∈ descs r' -> r = r';
  vi_free i : (i < num)%nat -> dfree (v_disk s) i = false <-> exists r, is_req s r /\ i ∈ descs r;
  vi_block r r' : is_req s r -> is_req s r' -> blockno s (r_buf r) = blockno s (r_buf r') -> r = r';
  vi_queues : exists av us, queues x s av us
}.

(** What the others leave to the owner of a buffer: its block number, its
    requests, its contents unless the device is reading into it, and its
    block unless the device is writing to it. *)
Record own (b : nat) (s s' : vst) : Prop := Own {
  own_blockno : blockno s' b = blockno s b;
  own_req r : r_buf r = b -> is_req s r <-> is_req s' r;
  own_data : (forall r, is_req s r -> r_buf r = b -> r_write r = true) -> data s' b = data s b;
  own_block : (forall r, is_req s r -> r_buf r = b -> r_write r = false) -> block s' b = block s b
}.

Lemma own_refl b s : own b s s.
Proof. done. Qed.

Lemma own_trans b s1 s2 s3 : own b s1 s2 -> own b s2 s3 -> own b s1 s3.
Proof.
  intros [N1 R1 D1 B1] [N2 R2 D2 B2]. split.
  - congruence.
  - intros r Hr. by rewrite R1, R2.
  - intros Hw. rewrite D2, D1; [done..|]. intros r Hr Hb. apply Hw; [by apply R1|done].
  - intros Hw. rewrite B2, B1; [done..|]. intros r Hr Hb. apply Hw; [by apply R1|done].
Qed.

(** No other request is for the block of this buffer. *)
Definition alone (b : nat) (s : vst) : Prop :=
  forall r, is_req s r -> r_buf r <> b -> blockno s (r_buf r) <> blockno s b.

(* ------------------------------------------------------------------ *)
(** ** Rings *)

Lemma u16_add_mod a k : u16 (u16 a + k) = u16 (a + k).
Proof. unfold u16. by rewrite Zplus_mod_idemp_l. Qed.

Lemma mod_num_u16 a : u16 a mod NUM = a mod NUM.
Proof. unfold u16, NUM. divlia. Qed.

Lemma ring_slot_lt a : (Z.to_nat (a mod NUM) < num)%nat.
Proof. unfold NUM. pose proof (Z.mod_pos_bound a 8). lia. Qed.

(** The slots of fewer than NUM consecutive entries differ. *)
Lemma ring_slot_ne a j k : 0 <= j < k -> k < NUM + j -> Z.to_nat ((a + j) mod NUM) <> Z.to_nat ((a + k) mod NUM).
Proof. unfold NUM. intros. divlia. Qed.

Lemma vring_push ring from to l h :
  ring_is ring from to l -> (length l < num)%nat ->
  ring_is (<[Z.to_nat (to mod NUM) := h]> ring) from (u16 (to + 1)) (l ++ [h]).
Proof.
  intros (Hf & -> & Hl) Hlen. split; [done|]. split.
  { rewrite u16_add_mod, length_app. f_equal. simpl. lia. }
  rewrite mod_num_u16. intros k x Hx. apply lookup_app_Some in Hx as [Hx|[Hge Hx]].
  - pose proof (lookup_lt_Some _ _ _ Hx). rewrite fn_lookup_insert_ne; [by apply Hl|].
    symmetry. apply ring_slot_ne; unfold NUM in *; lia.
  - destruct (k - length l)%nat as [|m] eqn:E; [|done]. injection Hx as <-.
    replace k with (length l) by lia. by rewrite fn_lookup_insert.
Qed.

Lemma vring_pop ring from to h l :
  ring_is ring from to (h :: l) ->
  ring (Z.to_nat (from mod NUM)) = h /\ ring_is ring (u16 (from + 1)) to l.
Proof.
  intros (Hf & -> & Hl). split; [by rewrite <- (Hl 0%nat h eq_refl), Z.add_0_r|].
  split; [apply Z.mod_pos_bound; lia|]. split; [rewrite u16_add_mod; f_equal; simpl; lia|].
  intros k x Hx. rewrite <- (Hl (S k) x Hx). do 2 f_equal.
  rewrite <- (Zplus_mod_idemp_l (u16 _)), mod_num_u16, Zplus_mod_idemp_l. f_equal. lia.
Qed.

Lemma vring_empty ring from to l : ring_is ring from to l -> (length l <= num)%nat -> (from =? to) = bool_decide (l = []).
Proof.
  intros (Hf & -> & _) Hl. destruct l as [|h l]; [simpl; rewrite Z.add_0_r; unfold u16; rewrite Z.mod_small by lia; apply Z.eqb_refl|].
  rewrite bool_decide_eq_false_2 by done. apply Z.eqb_neq. unfold u16. simpl in *. unfold NUM in Hl. divlia.
Qed.

(* ------------------------------------------------------------------ *)
(** ** Sectors *)

Lemma read_sectors_2 m k : read_sectors m k 2 = m k ++ m (k + 1).
Proof. unfold read_sectors. simpl. by rewrite Z.add_0_r, app_nil_r. Qed.

Lemma read_write_same m k l : length l = Z.to_nat BSIZE -> read_sectors (write_sectors m k 2 l) k 2 = l.
Proof.
  intros Hl. rewrite read_sectors_2. unfold write_sectors, slice, SECTOR. rewrite !decide_True by lia.
  replace ((k - k) * 512) with 0 by lia. replace ((k + 1 - k) * 512) with 512 by lia.
  rewrite drop_0, (take_ge (drop _ l)); [apply take_drop|]. rewrite length_drop, Hl. unfold BSIZE. lia.
Qed.

Lemma read_write_other m k k' l :
  k <> k' -> read_sectors (write_sectors m (k * 2) 2 l) (k' * 2) 2 = read_sectors m (k' * 2) 2.
Proof. intros Hne. rewrite !read_sectors_2. unfold write_sectors. by rewrite !decide_False by lia. Qed.

(* ------------------------------------------------------------------ *)
(** ** Requests *)

Lemma is_req_head s r : is_req s r -> (r_head r < num)%nat.
Proof. intros (_ & Hf & _). by apply Forall_cons in Hf as [? _]. Qed.

(** A request is what its descriptors and its info entry say. *)
Lemma is_req_same s s' r r' :
  is_req s r -> is_req s' r' -> r_head r = r_head r' ->
  (forall i, i ∈ descs r -> desc (v_disk s') i = desc (v_disk s) i) ->
  fst (info (v_disk s') (r_head r)) = fst (info (v_disk s) (r_head r)) -> r = r'.
Proof.
  destruct r as [h m e b w], r' as [h' m' e' b' w']. unfold is_req, descs. simpl.
  intros (_ & _ & Hi & H0 & H1 & _) (_ & _ & Hi' & H0' & H1' & _) <- Hd Hinf.
  rewrite Hd, H0 in H0' by set_solver. injection H0' as Em%Nat2Z.inj. subst m'.
  rewrite Hd, H1 in H1' by set_solver. injection H1' as _ Ew Ee%Nat2Z.inj. subst e'.
  rewrite Hinf, Hi in Hi'. injection Hi' as <-. destruct w, w'; done.
Qed.

Lemma is_req_inj s r r' : is_req s r -> is_req s r' -> r_head r = r_head r' -> r = r'.
Proof. intros H H' E. by apply (is_req_same s s r r'). Qed.

Lemma is_req_frame s s' r :
  (forall i, i ∈ descs r -> desc (v_disk s') i = desc (v_disk s) i) ->
  fst (info (v_disk s') (r_head r)) = fst (info (v_disk s) (r_head r)) ->
  ops (v_disk s') (r_head r) = ops (v_disk s) (r_head r) ->
  blockno s' (r_buf r) = blockno s (r_buf r) ->
  (r_write r = true -> length (data s' (r_buf r)) = length (data s (r_buf r))) ->
  is_req s r -> is_req s' r.
Proof.
  intros Hd Hi Ho Hb Hl (Hn & Hlt & H1 & H2 & H3 & H4 & H5 & H6 & H7). unfold is_req, descs in *.
  rewrite Hi, !Hd, Ho, Hb by set_solver. do 8 (split; [done|]). intros Hw. rewrite Hl; auto.
Qed.

(** The queues never hold more than NUM heads. *)
Lemma queues_length x s av us : queues x s av us -> (length (av ++ busy (v_dev s) ++ us) <= num)%nat.
Proof.
  intros Q. rewrite <- (length_seqZ 0 NUM). apply submseteq_length, NoDup_submseteq; [apply (q_nodup _ _ _ _ Q)|].
  intros h Hh. destruct (q_heads _ _ _ _ Q h Hh) as (r & Hr & ->). apply elem_of_seqZ.
  pose proof (is_req_head _ _ Hr). unfold NUM in *. lia.
Qed.

Lemma queues_new_length x s av us h :
  queues x s av us -> (h < num)%nat -> Z.of_nat h ∉ av ++ busy (v_dev s) ++ us ->
  (length (av ++ busy (v_dev s) ++ us) < num)%nat.
Proof.
  intros Q Hh Hn. assert (length (Z.of_nat h :: av ++ busy (v_dev s) ++ us) <= length (seqZ 0 NUM))%nat as Hle.
  { apply submseteq_length, NoDup_submseteq; [constructor; [done|apply (q_nodup _ _ _ _ Q)]|].
    intros h' [->|Hh']%elem_of_cons; [apply elem_of_seqZ; unfold NUM in *; lia|].
    destruct (q_heads _ _ _ _ Q h' Hh') as (r & Hr & ->). apply elem_of_seqZ.
    pose proof (is_req_head _ _ Hr). unfold NUM in *. lia. }
  rewrite length_seqZ in Hle. simpl in Hle. lia.
Qed.

(* ------------------------------------------------------------------ *)
(** ** The device *)

(** What the transfer of a request does. *)
Definition transferred (r : request) (s : vst) : vst :=
  upd_disk (set_status (r_head r) 0)
    (if r_write r
     then upd_dev (fun v => set_media (write_sectors (media v) (blockno s (r_buf r) * 2) 2 (data s (r_buf r))) v) s
     else upd_buf (r_buf r) (set_bdata (block s (r_buf r))) s).

Lemma dev_transfer_req s r : is_req s r -> dev_transfer (head r) s = Some (transferred r s).
Proof.
  intros (_ & _ & _ & H0 & H1 & H2 & Ho & _). unfold dev_transfer, transferred.
  rewrite Nat2Z.id, H0. cbn [d_addr d_next d_flags d_len]. rewrite Nat2Z.id, H1.
  cbn [d_addr d_next d_flags d_len]. rewrite Nat2Z.id, H2, Ho. cbn [d_addr d_next d_flags d_len].
  by destruct (r_write r).
Qed.

Definition completed (k : nat) (r : request) (s : vst) : vst :=
  upd_dev (fun v => Device (seen v) (delete k (busy v)) (media v))
    (upd_disk (fun d => put_used (Z.to_nat (used_ridx d mod NUM)) (head r) d) (transferred r s)).

Lemma completed_desc k r s : desc (v_disk (completed k r s)) = desc (v_disk s).
Proof. unfold completed, transferred. by destruct (r_write r). Qed.
Lemma completed_ops k r s : ops (v_disk (completed k r s)) = ops (v_disk s).
Proof. unfold completed, transferred. by destruct (r_write r). Qed.
Lemma completed_info k r s h : fst (info (v_disk (completed k r s)) h) = fst (info (v_disk s) h).
Proof.
  unfold completed, transferred. destruct (decide (h = r_head r)) as [->|Hne]; destruct (r_write r); simpl;
    unfold set_status; simpl; by rewrite ?fn_lookup_insert, ?fn_lookup_insert_ne.
Qed.
Lemma completed_blockno k r s b : blockno (completed k r s) b = blockno s b.
Proof.
  unfold completed, transferred, blockno. destruct (r_write r); [done|]. simpl.
  destruct (decide (b = r_buf r)) as [->|Hne]; by rewrite ?fn_lookup_insert, ?fn_lookup_insert_ne.
Qed.
Lemma completed_data_other k r s b : b <> r_buf r \/ r_write r = true -> data (completed k r s) b = data s b.
Proof.
  unfold completed, transferred, data. intros [Hne|E]; [|by rewrite E]. destruct (r_write r); [done|]. simpl.
  by rewrite fn_lookup_insert_ne.
Qed.
Lemma completed_disk k r s b : vb_disk (v_bufs (completed k r s) b) = vb_disk (v_bufs s b).
Proof.
  unfold completed, transferred. destruct (r_write r); [done|]. simpl.
  destruct (decide (b = r_buf r)) as [->|Hne]; by rewrite ?fn_lookup_insert, ?fn_lookup_insert_ne.
Qed.

Lemma completed_req k r s x r' : vinv x s -> is_req s r -> is_req s r' <-> is_req (completed k r s) r'.
Proof.
  intros I Hr. assert (Hfw : forall r', is_req s r' -> is_req (completed k r s) r').
  { intros r1 Hr1. eapply is_req_frame; [| | | | |exact Hr1].
    - intros i _. by rewrite completed_desc.
    - apply completed_info.
    - by rewrite completed_ops.
    - apply completed_blockno.
    - intros Hw. rewrite completed_data_other; [done|]. destruct (decide (r_buf r1 = r_buf r)) as [E|]; [|by left].
      right. assert (r1 = r) as <-; [|done]. apply (vi_block _ _ I); [done..|]. unfold blockno. by rewrite E. }
  split; [apply Hfw|]. intros Hr'. pose proof Hr' as (_ & _ & Hi & _). rewrite completed_info in Hi.
  destruct (vi_info _ _ I _ _ Hi) as (r2 & Hr2 & Eh). assert (r2 = r') as <-; [|done].
  apply (is_req_same s (completed k r s)); [done..| |by rewrite completed_info]. intros i _. by rewrite completed_desc.
Qed.

(** The buffer and the block of a completed request agree. *)
Lemma completed_done k r s : is_req s r -> data (completed k r s) (r_buf r) = block (completed k r s) (r_buf r).
Proof.
  intros (_ & _ & _ & _ & _ & _ & _ & _ & Hl). unfold block. rewrite completed_blockno.
  unfold completed, transferred, data in *. destruct (r_write r); simpl.
  - by rewrite read_write_same by auto.
  - by rewrite fn_lookup_insert.
Qed.

Lemma completed_block_other k r s b :
  blockno s (r_buf r) <> blockno s b \/ r_write r = false -> block (completed k r s) b = block s b.
Proof.
  intros H. unfold block. rewrite completed_blockno. unfold completed, transferred. destruct (r_write r); simpl; [|done].
  destruct H as [Hne|]; [|done]. by apply read_write_other.
Qed.

(** The driver's side of the shared memory, and everybody's requests, are as
    they were. *)
Record dev_frame (s s' : vst) : Prop := DevFrame {
  df_req r : is_req s r <-> is_req s' r;
  df_lock : vdisk_lock (v_disk s') = vdisk_lock (v_disk s);
  df_avail : avail_idx (v_disk s') = avail_idx (v_disk s) /\ avail_ring (v_disk s') = avail_ring (v_disk s);
  df_used : used_idx (v_disk s') = used_idx (v_disk s);
  df_disk b : vb_disk (v_bufs s' b) = vb_disk (v_bufs s b);
  df_blockno b : blockno s' b = blockno s b;
  df_own b : alone b s -> own b s s'
}.

Lemma fetch_keeps x s s' : vinv x s -> dev_fetch s = Some s' -> vinv x s' /\ dev_frame s s'.
Proof.
  intros I. unfold dev_fetch. destruct (_ =? _) eqn:E; [done|]. intros H. injection H as <-.
  split; [|done]. destruct I as [H1 H2 H3 H4 (av & us & Q)]. split; [done..|].
  pose proof (queues_length _ _ _ _ Q) as Hlen. rewrite length_app in Hlen. destruct Q as [Ha Hu Hn Hh Hx Hd Hst Hdo].
  rewrite (vring_empty _ _ _ av) in E by (done || lia). apply bool_decide_eq_false in E.
  destruct av as [|h av]; [done|]. apply vring_pop in Ha as [Eh Ha].
  assert (Hp1 : av ++ busy (v_dev s) ++ [h] ≡ₚ (h :: av) ++ busy (v_dev s)) by (simpl; solve_Permutation).
  assert (Hp : av ++ (busy (v_dev s) ++ [h]) ++ us ≡ₚ (h :: av) ++ busy (v_dev s) ++ us).
  { by rewrite (assoc_L _ av), Hp1, <- (assoc_L (++)). }
  exists av, us. split; simpl; rewrite ?Eh; try done.
  - by rewrite Hp.
  - intros h'. rewrite Hp. apply Hh.
  - intros h'. rewrite Hp. apply Hx.
  - intros r Hr. rewrite Hp. by apply Hd.
  - intros r Hr. rewrite Hp1. by apply Hdo.
Qed.

Lemma completed_queues x k r s av us :
  vinv x s -> queues x s av us -> is_req s r -> busy (v_dev s) !! k = Some (head r) ->
  queues x (completed k r s) av (us ++ [head r]).
Proof.
  intros I Q Hr Hk. pose proof (queues_length _ _ _ _ Q) as Hlen. destruct Q as [Ha Hu Hn Hh Hx Hd Hst Hdo].
  assert (Eb : busy (v_dev (completed k r s)) = delete k (busy (v_dev s))) by (unfold completed, transferred; by destruct (r_write r)).
  pose proof (delete_Permutation _ _ _ Hk) as Hp0.
  assert (Hp : av ++ delete k (busy (v_dev s)) ++ us ++ [head r] ≡ₚ av ++ busy (v_dev s) ++ us).
  { rewrite Hp0 at 2. solve_Permutation. }
  split.
  - unfold completed, transferred. by destruct (r_write r).
  - assert (length us < num)%nat.
    { rewrite !length_app in Hlen. apply lookup_lt_Some in Hk. lia. }
    apply (vring_push _ _ _ us (head r)) in Hu; [|done]. unfold completed, transferred. by destruct (r_write r).
  - rewrite Eb. by rewrite Hp.
  - intros h Hin. rewrite Eb, Hp in Hin. destruct (Hh h Hin) as (r' & Hr' & ->). exists r'. by rewrite <- completed_req.
  - intros h E. rewrite Eb, Hp. destruct (Hx h E) as (? & r' & Hr' & ?). split; [done|]. exists r'. by rewrite <- completed_req.
  - intros r' Hr'. rewrite <- completed_req in Hr' by done. rewrite completed_disk, Eb, Hp. by apply Hd.
  - intros r' Hr' Hin. rewrite <- completed_req in Hr' by done. unfold completed, transferred.
    destruct (decide (r_head r' = r_head r)) as [E|Hne].
    { rewrite E. destruct (r_write r); simpl; unfold set_status; simpl; by rewrite fn_lookup_insert. }
    apply elem_of_app in Hin as [Hin|E%list_elem_of_singleton]; [|by apply Nat2Z.inj in E].
    destruct (r_write r); simpl; unfold set_status; simpl; rewrite fn_lookup_insert_ne by done; by apply Hst.
  - intros r' Hr' Hnin Hx'. rewrite <- completed_req in Hr' by done. rewrite Eb in Hnin.
    destruct (decide (r' = r)) as [->|Hne]; [by apply completed_done|].
    assert (Hbn : blockno s (r_buf r) <> blockno s (r_buf r')).
    { intros E. apply Hne. symmetry. by apply (vi_block _ _ I). }
    rewrite completed_data_other, completed_block_other; [|by left|left; intros E; apply Hbn; unfold blockno; by rewrite E].
    apply Hdo; [done| |done]. rewrite Hp0. rewrite !elem_of_app, elem_of_cons in *. intros [?|[E|?]]; [tauto| |tauto].
    apply Nat2Z.inj in E. apply Hne. by apply (is_req_inj s).
Qed.

Lemma complete_keeps x k s s' : vinv x s -> dev_complete k s = Some s' -> vinv x s' /\ dev_frame s s'.
Proof.
  intros I. unfold dev_complete. destruct (busy (v_dev s) !! k) as [h|] eqn:Hk; [|done].
  pose proof I as [H1 H2 H3 H4 (av & us & Q)].
  destruct (q_heads _ _ _ _ Q h) as (r & Hr & ->).
  { apply elem_of_app. right. apply elem_of_app. left. by eapply list_elem_of_lookup_2. }
  rewrite (dev_transfer_req s r Hr). intros E. injection E as <-. fold (completed k r s).
  pose proof (completed_req k r s x) as Hreq. split; [split|split].
  - intros h b. rewrite completed_info. intros Hb. destruct (H1 h b Hb) as (r' & Hr' & ?). exists r'. by rewrite <- Hreq.
  - intros r1 r2 i. rewrite <- !Hreq by done. apply H2.
  - intros i Hi. assert (dfree (v_disk (completed k r s)) i = dfree (v_disk s) i) as -> by (unfold completed, transferred; by destruct (r_write r)).
    rewrite H3 by done. split; intros (r1 & Hr1 & ?); exists r1; (split; [|done]); by apply Hreq.
  - intros r1 r2. rewrite <- !Hreq by done. rewrite !completed_blockno. apply H4.
  - exists av, (us ++ [head r]). by apply completed_queues.
  - intros r'. by apply Hreq.
  - unfold completed, transferred. by destruct (r_write r).
  - unfold completed, transferred. by destruct (r_write r).
  - unfold completed, transferred. by destruct (r_write r).
  - intros b. apply completed_disk.
  - intros b. apply completed_blockno.
  - intros b Hal. split.
    + apply completed_blockno.
    + intros r' _. by apply Hreq.
    + intros Hw. apply completed_data_other. destruct (decide (b = r_buf r)) as [->|]; [right; by apply Hw|by left].
    + intros Hw. apply completed_block_other. destruct (decide (r_buf r = b)) as [E|Hne]; [right; by apply Hw|].
      left. by apply Hal.
Qed.

Lemma dev_step_keeps x s s' : vinv x s -> dev_step s s' -> vinv x s' /\ dev_frame s s'.
Proof. intros I [H|[k H]]; eauto using fetch_keeps, complete_keeps. Qed.

Lemma dev_frame_alone b s s' : dev_frame s s' -> alone b s -> alone b s'.
Proof. intros F Ha r Hr Hne. rewrite !(df_blockno _ _ F). apply Ha; [by apply F|done]. Qed.

Lemma dev_steps_keep x s s' : vinv x s -> rtc dev_step s s' -> vinv x s' /\ dev_frame s s'.
Proof.
  intros I H. revert I. induction H as [s|s1 s2 s3 H12 _ IH]; intros I.
  - split; [done|]. split; done.
  - destruct (dev_step_keeps x s1 s2 I H12) as [I2 F12]. destruct (IH I2) as [I3 F23]. split; [done|]. split.
    + intros r. by rewrite (df_req _ _ F12), (df_req _ _ F23).
    + by rewrite (df_lock _ _ F23), (df_lock _ _ F12).
    + destruct (df_avail _ _ F23) as [-> ->]. apply F12.
    + by rewrite (df_used _ _ F23), (df_used _ _ F12).
    + intros b. by rewrite (df_disk _ _ F23), (df_disk _ _ F12).
    + intros b. by rewrite (df_blockno _ _ F23), (df_blockno _ _ F12).
    + intros b Ha. eapply own_trans; [by apply (df_own _ _ F12)|]. apply (df_own _ _ F23). by eapply dev_frame_alone.
Qed.
