(* ===== verification/VirtioOps.v ===== *)
(** * The operations of the disk driver keep its invariant

   Descriptors taken and given back, a request formatted, submitted, and
   taken down again (kernel/virtio_disk.c), each as a step that keeps the
   invariant of VirtioInv.v and leaves the other requests alone. *)

From stdpp Require Import base numbers list functions strings relations.
From Stdlib Require Import ZArith Lia.
From S2P Require Import Prelude Params Virtio VirtioInv.

(* ------------------------------------------------------------------ *)
(** ** Descriptors *)

Lemma slot_Ok i s : (i < num)%nat -> slot (Z.of_nat i) s = Ok i s.
Proof.
  intros Hi. unfold slot, NUM in *. rewrite (proj2 (Z.leb_le _ _)), (proj2 (Z.ltb_lt _ _)) by lia.
  simpl. by rewrite Nat2Z.id.
Qed.

Lemma alloc_desc_loop_spec n i s :
  (exists k, (i <= k < i + n)%nat /\ dfree (v_disk s) k = true /\
     alloc_desc_loop n i s = Ok (Z.of_nat k) (upd_disk (set_dfree k false) s)) \/
  ((forall k, (i <= k < i + n)%nat -> dfree (v_disk s) k = false) /\ alloc_desc_loop n i s = Ok (-1) s).
Proof.
  revert i. induction n as [|n IH]; intros i; [right; split; [lia|done]|].
  cbn [alloc_desc_loop]. erewrite bind_Ok by done. destruct (dfree (v_disk s) i) eqn:E.
  - left. exists i. split; [lia|]. split; [done|]. by erewrite bind_Ok by done.
  - destruct (IH (S i)) as [(k & Hk & Hf & Ek)|[Hall Ek]].
    + left. exists k. split; [lia|done].
    + right. split; [|done]. intros k Hk. destruct (decide (k = i)) as [->|]; [done|]. apply Hall. lia.
Qed.

Lemma alloc_desc_spec s :
  (exists k, (k < num)%nat /\ dfree (v_disk s) k = true /\ alloc_desc s = Ok (Z.of_nat k) (upd_disk (set_dfree k false) s)) \/
  alloc_desc s = Ok (-1) s.
Proof.
  destruct (alloc_desc_loop_spec num 0 s) as [(k & Hk & Hf & Ek)|[_ Ek]]; [left; exists k; split; [lia|done]|by right].
Qed.

Definition freed (k : nat) (s : vst) : vst :=
  lset woken (v_woken s ++ [ChDiskFree]) (upd_disk (set_dfree k true) (upd_disk (set_desc k (Desc VNull 0 0 0)) s)).

Lemma free_desc_spec k s :
  (k < num)%nat -> dfree (v_disk s) k = false -> free_desc (Z.of_nat k) s = Ok tt (freed k s).
Proof.
  intros Hk Hf. unfold free_desc. rewrite Z.geb_leb, (proj2 (Z.leb_gt _ _)) by (unfold NUM in *; lia).
  erewrite bind_Ok by (by apply slot_Ok). erewrite bind_Ok by done. rewrite Hf. done.
Qed.

(** Same requests, same free descriptors: only what free descriptors hold,
    the lock and the wake-ups may differ. *)
Record agree (s s' : vst) : Prop := Agree {
  ag_desc i : (i < num)%nat -> dfree (v_disk s) i = false -> desc (v_disk s') i = desc (v_disk s) i;
  ag_free i : (i < num)%nat -> dfree (v_disk s') i = dfree (v_disk s) i;
  ag_avail : avail_idx (v_disk s') = avail_idx (v_disk s) /\ avail_ring (v_disk s') = avail_ring (v_disk s);
  ag_used : used_ridx (v_disk s') = used_ridx (v_disk s) /\ used_ring (v_disk s') = used_ring (v_disk s) /\
            used_idx (v_disk s') = used_idx (v_disk s);
  ag_info : info (v_disk s') = info (v_disk s) /\ ops (v_disk s') = ops (v_disk s);
  ag_rest : v_bufs s' = v_bufs s /\ v_dev s' = v_dev s
}.

Lemma agree_blockno s s' b : agree s s' -> blockno s' b = blockno s b.
Proof. intros [_ _ _ _ _ [E _]]. unfold blockno. by rewrite E. Qed.
Lemma agree_data s s' b : agree s s' -> data s' b = data s b.
Proof. intros [_ _ _ _ _ [E _]]. unfold data. by rewrite E. Qed.
Lemma agree_block s s' b : agree s s' -> block s' b = block s b.
Proof. intros A. unfold block. rewrite (agree_blockno _ _ _ A). by destruct A as [_ _ _ _ _ [_ ->]]. Qed.

Lemma agree_req x s s' r : vinv x s -> agree s s' -> is_req s r <-> is_req s' r.
Proof.
  intros I A. assert (Hfw : forall r, is_req s r -> is_req s' r).
  { intros r1 Hr1. eapply is_req_frame; [| | | | |exact Hr1].
    - intros i Hi. pose proof Hr1 as (_ & Hlt & _). rewrite Forall_forall in Hlt.
      apply (ag_desc _ _ A); [by apply Hlt|]. apply (vi_free _ _ I); eauto.
    - by destruct (ag_info _ _ A) as [-> _].
    - by destruct (ag_info _ _ A) as [_ ->].
    - by apply agree_blockno.
    - by rewrite (agree_data _ _ _ A). }
  split; [apply Hfw|]. intros Hr. pose proof Hr as (_ & _ & Hi & _).
  rewrite (proj1 (ag_info _ _ A)) in Hi. destruct (vi_info _ _ I _ _ Hi) as (r2 & Hr2 & Eh).
  assert (r2 = r) as <-; [|done]. apply (is_req_inj s'); auto.
Qed.

Lemma agree_own x s s' b : vinv x s -> agree s s' -> own b s s'.
Proof.
  intros I A. split; [by apply agree_blockno| |by rewrite (agree_data _ _ _ A)|by rewrite (agree_block _ _ _ A)].
  intros r _. by eapply agree_req.
Qed.

Lemma agree_vinv x s s' : vinv x s -> agree s s' -> vinv x s'.
Proof.
  intros I A. pose proof (fun r => agree_req x s s' r I A) as Hreq.
  pose proof I as [H1 H2 H3 H4 (av & us & [Qa Qu Qn Qh Qx Qd Qs Qf])].
  pose proof A as [Ad Af [Aa1 Aa2] (Au1 & Au2 & Au3) [Ai Ao] [Ab Av]]. split.
  - intros h b. rewrite Ai. intros Hb. destruct (H1 h b Hb) as (r & Hr & ?). exists r. by rewrite <- Hreq.
  - intros r r' i. rewrite <- !Hreq. apply H2.
  - intros i Hi. rewrite Af, H3 by done. split; intros (r & Hr & ?); exists r; (split; [by apply Hreq|done]).
  - intros r r'. rewrite <- !Hreq, !(agree_blockno _ _ _ A). apply H4.
  - exists av, us. split; rewrite ?Aa1, ?Aa2, ?Au1, ?Au2, ?Au3, ?Ai, ?Av, ?Ab; try done.
    + intros h Hh. destruct (Qh h Hh) as (r & Hr & ->). exists r. by rewrite <- Hreq.
    + intros h E. destruct (Qx h E) as (? & r & Hr & ?). split; [done|]. exists r. by rewrite <- Hreq.
    + intros r. rewrite <- Hreq. apply Qd.
    + intros r. rewrite <- Hreq. apply Qs.
    + intros r. rewrite <- Hreq, (agree_data _ _ _ A), (agree_block _ _ _ A). apply Qf.
Qed.

Definition taken (k : nat) (s : vst) : vst := upd_disk (set_dfree k false) s.

Lemma agree_refl s : agree s s.
Proof. done. Qed.

(** Taking a free descriptor and giving it back. *)
Lemma agree_undo s s' k :
  (k < num)%nat -> dfree (v_disk s) k = true -> agree (taken k s) s' -> agree s (freed k s').
Proof.
  intros Hk Hf [Ad Af Aa Au Ai Ar]. split; try done.
  - intros i Hi Hfi. assert (i <> k) by congruence. simpl. rewrite fn_lookup_insert_ne by done.
    apply Ad; [done|]. simpl. by rewrite fn_lookup_insert_ne.
  - intros i Hi. simpl. destruct (decide (i = k)) as [->|Hne]; [by rewrite fn_lookup_insert|].
    rewrite fn_lookup_insert_ne by done. rewrite (Af i Hi). simpl. by rewrite fn_lookup_insert_ne.
Qed.

Lemma taken_free j k s : dfree (v_disk (taken j s)) k = true -> j <> k /\ dfree (v_disk s) k = true.
Proof.
  simpl. destruct (decide (j = k)) as [->|Hne]; [by rewrite fn_lookup_insert|]. by rewrite fn_lookup_insert_ne.
Qed.

Lemma agree_undo2 s j k :
  dfree (v_disk s) j = true -> dfree (v_disk s) k = true -> agree s (freed k (freed j (taken k (taken j s)))).
Proof.
  intros Hj Hk. split; try done; intros i Hi; simpl.
  - intros Hfi. by rewrite !fn_lookup_insert_ne by congruence.
  - destruct (decide (i = k)) as [->|]; [by rewrite fn_lookup_insert|]. rewrite fn_lookup_insert_ne by done.
    destruct (decide (i = j)) as [->|]; [by rewrite fn_lookup_insert|]. by rewrite !fn_lookup_insert_ne by done.
Qed.

(** alloc3_desc() takes three free descriptors or leaves the table as it
    was. *)
Lemma alloc3_spec s :
  (exists i0 i1 i2, NoDup [i0; i1; i2] /\ Forall (fun i => (i < num)%nat /\ dfree (v_disk s) i = true) [i0; i1; i2] /\
     alloc3_desc s = Ok (Some [Z.of_nat i0; Z.of_nat i1; Z.of_nat i2]) (taken i2 (taken i1 (taken i0 s)))) \/
  (exists s', alloc3_desc s = Ok None s' /\ agree s s' /\ vdisk_lock (v_disk s') = vdisk_lock (v_disk s)).
Proof.
  unfold alloc3_desc. cbn [alloc3_loop].
  destruct (alloc_desc_spec s) as [(i0 & Hi0 & Hf0 & E0)|E0]; erewrite bind_Ok by exact E0.
  2:{ right. exists s. done. }
  fold (taken i0 s). rewrite (proj2 (Z.ltb_ge _ _)) by lia. cbn [app].
  destruct (alloc_desc_spec (taken i0 s)) as [(i1 & Hi1 & Hf1 & E1)|E1]; erewrite bind_Ok by exact E1.
  2:{ right. exists (freed i0 (taken i0 s)). cbn [Z.ltb Z.compare].
      erewrite bind_Ok; [split; [reflexivity|]|].
      - split; [|done]. by apply agree_undo.
      - erewrite bind_Ok by (apply free_desc_spec; [done|simpl; by rewrite fn_lookup_insert]). done. }
  fold (taken i1 (taken i0 s)). rewrite (proj2 (Z.ltb_ge _ _)) by lia. cbn [app].
  apply taken_free in Hf1 as [Hne1 Hf1'].
  destruct (alloc_desc_spec (taken i1 (taken i0 s))) as [(i2 & Hi2 & Hf2 & E2)|E2]; erewrite bind_Ok by exact E2.
  2:{ right. exists (freed i1 (freed i0 (taken i1 (taken i0 s)))). cbn [Z.ltb Z.compare].
      erewrite bind_Ok; [split; [reflexivity|]|].
      - split; [|done]. by apply agree_undo2.
      - erewrite bind_Ok by (apply free_desc_spec; [done|simpl; by rewrite fn_lookup_insert_ne, fn_lookup_insert by done]).
        erewrite bind_Ok by (apply free_desc_spec; [done|simpl; by rewrite fn_lookup_insert_ne, fn_lookup_insert by done]).
        done. }
  left. fold (taken i2 (taken i1 (taken i0 s))). rewrite (proj2 (Z.ltb_ge _ _)) by lia. cbn [app].
  apply taken_free in Hf2 as [Hne2 [Hne2' Hf2']%taken_free]. exists i0, i1, i2. split; [|split; [|done]].
  - repeat constructor; set_solver.
  - repeat (apply Forall_cons; split; [done|]). by apply Forall_nil.
Qed.

(* ------------------------------------------------------------------ *)
(** ** A new request *)

(** The state after format() and the store to the avail ring. *)
Definition formatted (r : request) (sector : Z) (s : vst) : vst :=
  let i0 := r_head r in
  upd_disk (fun d => set_avail_ring (Z.to_nat (avail_idx d mod NUM)) (Z.of_nat i0) d)
 (upd_disk (set_infob i0 (Some (r_buf r)))
 (upd_buf (r_buf r) (set_bdisk true)
 (upd_disk (set_desc (r_end r) (Desc (VStatus i0) 1 VRING_DESC_F_WRITE 0))
 (upd_disk (set_status i0 0xff)
 (upd_disk (set_desc (r_mid r) (Desc (VData (r_buf r)) BSIZE
    (Z.lor (if r_write r then 0 else VRING_DESC_F_WRITE) VRING_DESC_F_NEXT) (Z.of_nat (r_end r))))
 (upd_disk (set_desc i0 (Desc (VOps i0) 16 VRING_DESC_F_NEXT (Z.of_nat (r_mid r))))
 (upd_disk (set_ops i0 (Req (if r_write r then VIRTIO_BLK_T_OUT else VIRTIO_BLK_T_IN) 0 sector)) s))))))).

Section new.
Context (s : vst) (r : request).
Hypothesis (I : vinv None s) (Hnd : NoDup (descs r))
  (Hfree : Forall (fun i => (i < num)%nat /\ dfree (v_disk s) i = true) (descs r))
  (Hnone : forall r', is_req s r' -> r_buf r' <> r_buf r) (Halone : alone (r_buf r) s)
  (Hrange : 0 <= blockno s (r_buf r) < 2 ^ 31)
  (Hlen : r_write r = true -> length (data s (r_buf r)) = Z.to_nat BSIZE).
Let t : vst := formatted r (blockno s (r_buf r) * 2) (taken (r_end r) (taken (r_mid r) (taken (r_head r) s))).

Lemma new_desc i : i ∉ descs r -> desc (v_disk t) i = desc (v_disk s) i.
Proof. unfold descs. intros Hi. simpl. rewrite !fn_lookup_insert_ne by set_solver. done. Qed.
Lemma new_info h : h <> r_head r -> info (v_disk t) h = info (v_disk s) h.
Proof. intros Hh. simpl. unfold set_infob, set_status. simpl. by rewrite !fn_lookup_insert_ne. Qed.
Lemma new_ops h : h <> r_head r -> ops (v_disk t) h = ops (v_disk s) h.
Proof. intros Hh. simpl. by rewrite !fn_lookup_insert_ne. Qed.
Lemma new_buf b : b <> r_buf r -> v_bufs t b = v_bufs s b.
Proof. intros Hb. simpl. by rewrite fn_lookup_insert_ne. Qed.
Lemma new_blockno b : blockno t b = blockno s b.
Proof.
  unfold blockno. destruct (decide (b = r_buf r)) as [->|Hb]; [|by rewrite new_buf].
  simpl. by rewrite fn_lookup_insert.
Qed.
Lemma new_data b : data t b = data s b.
Proof.
  unfold data. destruct (decide (b = r_buf r)) as [->|Hb]; [|by rewrite new_buf].
  simpl. by rewrite fn_lookup_insert.
Qed.
Lemma new_block b : block t b = block s b.
Proof. unfold block. by rewrite new_blockno. Qed.
Lemma new_disk : vb_disk (v_bufs t (r_buf r)) = true.
Proof. simpl. by rewrite fn_lookup_insert. Qed.

Lemma new_is_req : is_req t r.
Proof.
  unfold is_req. rewrite new_blockno, new_data. split; [done|]. split.
  { eapply Forall_impl; [exact Hfree|]. by intros i [? _]. }
  assert (r_end r <> r_head r /\ r_mid r <> r_head r /\ r_end r <> r_mid r) as (H20 & H10 & H21).
  { unfold descs in Hnd. apply NoDup_cons in Hnd as [H01 [H12 _]%NoDup_cons].
    repeat split; intros E; rewrite E in *; set_solver. }
  simpl. unfold set_infob, set_status. simpl. rewrite !fn_lookup_insert.
  rewrite !(fn_lookup_insert_ne _ (r_end r)) by done. rewrite !(fn_lookup_insert_ne _ (r_mid r)) by done.
  by rewrite !fn_lookup_insert.
Qed.

Lemma old_apart r' : is_req s r' -> r' <> r /\ forall i, i ∈ descs r' -> i ∉ descs r.
Proof.
  intros Hr'. split; [intros ->; by apply (Hnone r)|]. intros i Hi Hi'. rewrite Forall_forall in Hfree.
  destruct (Hfree i Hi') as [Hlt Hf]. assert (dfree (v_disk s) i = false); [|congruence].
  apply (vi_free _ _ I); eauto.
Qed.

Lemma new_req r' : is_req t r' <-> is_req s r' \/ r' = r.
Proof.
  assert (Hold : forall r', is_req s r' -> is_req t r').
  { intros r1 Hr1. destruct (old_apart r1 Hr1) as [_ Hap].
    assert (r_head r1 <> r_head r) by (intros E; apply (Hap (r_head r1)); [|rewrite E]; unfold descs; set_solver).
    eapply is_req_frame; [| | | | |exact Hr1].
    - intros i Hi. by apply new_desc, Hap.
    - by rewrite new_info.
    - by rewrite new_ops.
    - apply new_blockno.
    - by rewrite new_data. }
  split; [|intros [H| ->]; [by apply Hold|apply new_is_req]].
  intros Hr'. destruct (decide (r_head r' = r_head r)) as [E|Hne].
  { right. by apply (is_req_inj t); [|apply new_is_req|]. }
  left. pose proof Hr' as (_ & _ & Hi & _). rewrite new_info in Hi by done.
  destruct (vi_info _ _ I _ _ Hi) as (r2 & Hr2 & Eh). assert (r2 = r') as <-; [|done]. apply (is_req_inj t); auto.
Qed.

Lemma new_own b : b <> r_buf r -> own b s t.
Proof.
  intros Hb. split; [apply new_blockno| |intros _; apply new_data|intros _; apply new_block].
  intros r' Hr'. rewrite new_req. split; [by left|]. intros [?| ->]; done.
Qed.

Lemma new_free i : (i < num)%nat -> dfree (v_disk t) i = false <-> dfree (v_disk s) i = false \/ i ∈ descs r.
Proof.
  intros Hi. simpl. unfold descs. destruct (decide (i = r_end r)) as [->|H2].
  { rewrite fn_lookup_insert. set_solver. }
  rewrite fn_lookup_insert_ne by done. destruct (decide (i = r_mid r)) as [->|H1].
  { rewrite fn_lookup_insert. set_solver. }
  rewrite fn_lookup_insert_ne by done. destruct (decide (i = r_head r)) as [->|H0].
  { rewrite fn_lookup_insert. set_solver. }
  rewrite fn_lookup_insert_ne by done. set_solver.
Qed.

Lemma new_queues av us : queues None s av us -> queues (Some (r_head r)) t av us.
Proof.
  intros Q. assert (Hh : (r_head r < num)%nat) by (by apply Forall_cons in Hfree as [[? _] _]).
  assert (Hnot : head r ∉ av ++ busy (v_dev s) ++ us).
  { intros Hin. destruct (q_heads _ _ _ _ Q _ Hin) as (r' & Hr' & E%Nat2Z.inj).
    destruct (old_apart r' Hr') as [_ Hap]. apply (Hap (r_head r')); [|rewrite <- E]; unfold descs; set_solver. }
  pose proof (queues_new_length _ _ _ _ _ Q Hh Hnot) as Hl. rewrite length_app in Hl.
  destruct Q as [Qa Qu Qn Qh Qx Qd Qs Qf]. split; try done.
  - destruct (vring_push _ _ _ _ (head r) Qa) as (Hf & _ & Hring); [lia|]. destruct Qa as (_ & Eto & _).
    split; [done|]. split; [done|]. intros k h Hk. apply Hring. rewrite lookup_app_l; [done|]. by eapply lookup_lt_Some.
  - intros h Hin. destruct (Qh h Hin) as (r' & Hr' & ->). exists r'. split; [|done]. apply new_req. by left.
  - intros h E. injection E as <-. split; [done|]. exists r. split; [apply new_is_req|done].
  - intros r' [Hr'| ->]%new_req.
    + destruct (old_apart r' Hr') as [Hne _]. rewrite new_buf by (by apply Hnone). rewrite (Qd r' Hr'). split; [intros [?|?]; [by left|done]|].
      intros [?|E]; [by left|]. injection E as E. exfalso. apply Hne, (is_req_inj t); [|apply new_is_req|done].
      apply new_req. by left.
    + rewrite new_disk. split; [by right|done].
  - intros r' [Hr'| ->]%new_req Hin; [|exfalso; apply Hnot; set_solver].
    assert (r_head r' <> r_head r).
    { intros E. apply Hnot. rewrite <- E. set_solver. }
    rewrite new_info by done. by apply Qs.
  - intros r' [Hr'| ->]%new_req Hin Hx; [|done]. rewrite new_data, new_block. by apply Qf.
Qed.

Lemma new_vinv : vinv (Some (r_head r)) t.
Proof.
  pose proof I as [H1 H2 H3 H4 (av & us & Q)]. split.
  - intros h b Hb. destruct (decide (h = r_head r)) as [->|Hne]; [exists r; split; [apply new_is_req|done]|].
    rewrite new_info in Hb by done. destruct (H1 h b Hb) as (r' & Hr' & <-). exists r'. split; [|done].
    apply new_req. by left.
  - intros r1 r2 i [Hr1| ->]%new_req [Hr2| ->]%new_req Hi1 Hi2; try done; [by apply (H2 r1 r2 i)|..].
    + by destruct (old_apart r1 Hr1) as [_ Hap]; destruct (Hap i).
    + by destruct (old_apart r2 Hr2) as [_ Hap]; destruct (Hap i).
  - intros i Hi. rewrite new_free, H3 by done. split.
    + intros [(r' & Hr' & ?)|?]; [exists r'; split; [|done]; apply new_req; by left|exists r; split; [apply new_is_req|done]].
    + intros (r' & [Hr'| ->]%new_req & ?); [left; eauto|by right].
  - intros r1 r2 [Hr1| ->]%new_req [Hr2| ->]%new_req; rewrite !new_blockno; [by apply H4| | |done]; intros E.
    + by destruct (Halone r1 Hr1 (Hnone r1 Hr1)).
    + by destruct (Halone r2 Hr2 (Hnone r2 Hr2)).
  - exists av, us. by apply new_queues.
Qed.
End new.

(** The index makes the request visible to the device. *)
Definition published (s : vst) : vst := upd_disk (fun d => set_avail_idx (u16 (avail_idx d + 1)) d) s.

Lemma published_vinv s h :
  vinv (Some h) s -> avail_ring (v_disk s) (Z.to_nat (avail_idx (v_disk s) mod NUM)) = Z.of_nat h ->
  vinv None (published s).
Proof.
  intros [H1 H2 H3 H4 (av & us & Q)] Hring. split; [done..|]. exists (av ++ [Z.of_nat h]), us.
  pose proof Q as [Qa Qu Qn Qh Qx Qd Qs Qf]. destruct (Qx h eq_refl) as (Hnot & r & Hr & <-).
  pose proof (queues_new_length _ _ _ _ _ Q (is_req_head _ _ Hr) Hnot) as Hl. rewrite length_app in Hl.
  assert (Hp : (av ++ [head r]) ++ busy (v_dev s) ++ us ≡ₚ head r :: av ++ busy (v_dev s) ++ us) by solve_Permutation.
  split; try done.
  - destruct (vring_push _ _ _ _ (head r) Qa) as (Hf & Et & Hall); [lia|]. split; [done|]. split; [done|].
    intros k x Hk. rewrite <- (Hall k x Hk). simpl.
    destruct (decide (Z.to_nat (avail_idx (v_disk s) mod NUM) = Z.to_nat ((seen (v_dev s) + Z.of_nat k) mod NUM))) as [E|Hne].
    + by rewrite <- E, fn_lookup_insert.
    + by rewrite fn_lookup_insert_ne.
  - simpl. rewrite Hp. by constructor.
  - simpl. intros h. rewrite Hp. intros [->|Hin]%elem_of_cons; [by exists r|]. by apply Qh.
  - simpl. intros r' Hr'. rewrite Hp, elem_of_cons. rewrite (Qd r' Hr'). split.
    + intros [?|E]; [by left; right|]. left; left. by injection E as ->.
    + intros [[E%Nat2Z.inj|?]|?]; [right; by rewrite E|by left|done].
  - simpl. intros r' Hr' Hin _. apply Qf; [done| |].
    + intros Hin'. apply Hin. apply elem_of_app in Hin' as [?|?]; set_solver.
    + intros E. injection E as E. apply Hin. rewrite E. set_solver.
Qed.

(* ------------------------------------------------------------------ *)
(** ** A finished request *)

Lemma freed_desc k s i : k <> i -> desc (v_disk (freed k s)) i = desc (v_disk s) i.
Proof. apply fn_lookup_insert_ne. Qed.
Lemma freed_free k s i : k <> i -> dfree (v_disk (freed k s)) i = dfree (v_disk s) i.
Proof. apply fn_lookup_insert_ne. Qed.
Lemma infob_desc h x s i : desc (v_disk (upd_disk (set_infob h x) s)) i = desc (v_disk s) i.
Proof. done. Qed.

Section done.
Context (s : vst) (r : request).
Hypothesis (I : vinv None s) (Hr : is_req s r) (Hdisk : vb_disk (v_bufs s (r_buf r)) = false).
Let t : vst := freed (r_end r) (freed (r_mid r) (freed (r_head r) (upd_disk (set_infob (r_head r) None) s))).

Lemma done_chain_ne : r_head r <> r_mid r /\ r_head r <> r_end r /\ r_mid r <> r_end r.
Proof.
  destruct Hr as (Hn & _). unfold descs in Hn. apply NoDup_cons in Hn as [H01 [H12 _]%NoDup_cons].
  repeat split; intros E; rewrite E in *; set_solver.
Qed.

Lemma done_free_chain : free_chain num (head r) (upd_disk (set_infob (r_head r) None) s) = Ok tt t.
Proof.
  destruct done_chain_ne as (H01 & H02 & H12). pose proof Hr as (_ & Hlt & _ & D0 & D1 & D2 & _).
  unfold descs in Hlt. apply Forall_cons in Hlt as [L0 [L1 [L2 _]%Forall_cons]%Forall_cons].
  assert (Hf : forall i, i ∈ descs r -> (i < num)%nat -> dfree (v_disk s) i = false).
  { intros i Hi Hl. apply (vi_free _ _ I); eauto. }
  change num with 8%nat. cbn [free_chain].
  erewrite bind_Ok by (by apply slot_Ok). erewrite bind_Ok by done.
  erewrite bind_Ok by (apply free_desc_spec; [done|]; apply Hf; [unfold descs; set_solver|done]).
  rewrite infob_desc, D0. cbn [d_flags d_next]. change (negb (Z.land VRING_DESC_F_NEXT VRING_DESC_F_NEXT =? 0)) with true. cbn iota.
  erewrite bind_Ok by (by apply slot_Ok). erewrite bind_Ok by done.
  erewrite bind_Ok by (apply free_desc_spec; [done|]; rewrite freed_free by done;
    apply Hf; [unfold descs; set_solver|done]).
  rewrite freed_desc, infob_desc, D1 by done. cbn [d_flags d_next].
  replace (negb (Z.land (Z.lor (if r_write r then 0 else VRING_DESC_F_WRITE) VRING_DESC_F_NEXT) VRING_DESC_F_NEXT =? 0))
    with true by (by destruct (r_write r)).
  erewrite bind_Ok by (by apply slot_Ok). erewrite bind_Ok by done.
  erewrite bind_Ok by (apply free_desc_spec; [done|]; rewrite !freed_free by done;
    apply Hf; [unfold descs; set_solver|done]).
  rewrite !freed_desc, infob_desc, D2 by done. reflexivity.
Qed.

Lemma done_desc i : i ∉ descs r -> desc (v_disk t) i = desc (v_disk s) i.
Proof. unfold descs. intros Hi. simpl. rewrite !fn_lookup_insert_ne by set_solver. done. Qed.
Lemma done_info h : h <> r_head r -> info (v_disk t) h = info (v_disk s) h.
Proof. intros Hh. simpl. unfold set_infob. simpl. by rewrite !fn_lookup_insert_ne. Qed.
Lemma done_free i : (i < num)%nat -> dfree (v_disk t) i = false <-> dfree (v_disk s) i = false /\ i ∉ descs r.
Proof.
  intros Hi. simpl. unfold descs. destruct (decide (i = r_end r)) as [->|H2].
  { rewrite fn_lookup_insert. set_solver. }
  rewrite fn_lookup_insert_ne by done. destruct (decide (i = r_mid r)) as [->|H1].
  { rewrite fn_lookup_insert. set_solver. }
  rewrite fn_lookup_insert_ne by done. destruct (decide (i = r_head r)) as [->|H0].
  { rewrite fn_lookup_insert. set_solver. }
  rewrite fn_lookup_insert_ne by done. set_solver.
Qed.

Lemma done_req r' : is_req t r' <-> is_req s r' /\ r' <> r.
Proof.
  assert (Hap : forall r', is_req s r' -> r' <> r -> forall i, i ∈ descs r' -> i ∉ descs r).
  { intros r1 Hr1 Hne i Hi Hi'. apply Hne. by apply (vi_apart _ _ I r1 r i). }
  assert (Hold : forall r', is_req s r' -> r' <> r -> is_req t r').
  { intros r1 Hr1 Hne. assert (r_head r1 <> r_head r) by (intros E; by apply Hne, (is_req_inj s)).
    eapply is_req_frame; [| | | | |exact Hr1]; [|by rewrite done_info|done..].
    intros i Hi. apply done_desc. by eapply Hap. }
  split; [|intros [? ?]; by apply Hold]. intros Hr'. pose proof Hr' as (_ & _ & Hi & _).
  destruct (decide (r_head r' = r_head r)) as [E|Hne].
  { rewrite E in Hi. simpl in Hi. unfold set_infob in Hi. simpl in Hi. by rewrite fn_lookup_insert in Hi. }
  rewrite done_info in Hi by done. destruct (vi_info _ _ I _ _ Hi) as (r2 & Hr2 & Eh).
  assert (r2 <> r) by congruence. assert (r2 = r') as <-; [|done]. apply (is_req_inj t); auto.
Qed.

Lemma done_own b : b <> r_buf r -> own b s t.
Proof.
  intros Hb. split; [done| |done..]. intros r' Hr'. rewrite done_req. split; [|by intros [? _]].
  intros ?. split; [done|]. by intros ->.
Qed.

Lemma done_vinv : vinv None t.
Proof.
  pose proof I as [H1 H2 H3 H4 (av & us & [Qa Qu Qn Qh Qx Qd Qs Qf])].
  assert (Hnot : head r ∉ av ++ busy (v_dev s) ++ us).
  { intros Hin. assert (vb_disk (v_bufs s (r_buf r)) = true); [|congruence]. apply Qd; [done|]. by left. }
  split.
  - intros h b Hb. destruct (decide (h = r_head r)) as [->|Hne].
    { simpl in Hb. unfold set_infob in Hb. simpl in Hb. by rewrite fn_lookup_insert in Hb. }
    rewrite done_info in Hb by done. destruct (H1 h b Hb) as (r' & Hr' & <-). exists r'. split; [|done].
    apply done_req. split; [done|]. congruence.
  - intros r1 r2 i [Hr1 _]%done_req [Hr2 _]%done_req. by apply H2.
  - intros i Hi. rewrite done_free, H3 by done. split.
    + intros [(r' & Hr' & Hin) Hni]. exists r'. split; [|done]. apply done_req. split; [done|]. by intros ->.
    + intros (r' & [Hr' Hne]%done_req & Hin). split; [eauto|]. intros Hin'. apply Hne. by apply (H2 r' r i).
  - intros r1 r2 [Hr1 _]%done_req [Hr2 _]%done_req. by apply H4.
  - exists av, us. split; try done.
    + intros h Hin. destruct (Qh h Hin) as (r' & Hr' & ->). exists r'. split; [|done]. apply done_req.
      split; [done|]. by intros ->.
    + intros r' [Hr' _]%done_req. by apply Qd.
    + intros r' [Hr' Hne]%done_req Hin. rewrite done_info; [by apply Qs|]. intros E. by apply Hne, (is_req_inj s).
    + intros r' [Hr' _]%done_req. by apply Qf.
Qed.
End done.
