(* ===== verification/VirtioRw.v ===== *)
(** * One call of virtio_disk_rw() or virtio_disk_intr()

   A call of kernel/virtio_disk.c among others: every stretch of it between
   two points where it waits keeps the invariant and leaves the buffers of
   the other calls alone, whatever the others and the device do meanwhile,
   and when it returns the transfer has been made. *)

From stdpp Require Import base numbers list functions strings relations.
From Stdlib Require Import ZArith Lia.
From S2P Require Import Prelude Params Virtio VirtioInv VirtioOps.

(* ------------------------------------------------------------------ *)
(** ** Rely and guarantee between waits

   [rgs p n s0 T Q o]: the current stretch of a call began in [s0].  At each
   wait the guarantee holds of the stretch; the environment then moves the
   state as the call relies on, and a new stretch begins; [Q a s0 s] holds
   of the last one.  At a wait, [k_wait c s P] says in which states the call
   would come to its end without waiting again: [P] holds of those in which
   it does, [T] of the results from which the caller goes on to its end.
   [k_div n]: the model may lose the call with [n] waits left. *)

Record contract (S : Type) := Contract {
  k_div : nat -> Prop;
  k_guar : chan -> S -> S -> Prop;
  k_rely : chan -> S -> S -> Prop;
  k_wait : chan -> S -> (S -> Prop) -> Prop
}.
Arguments Contract {S}.
Arguments k_div {S}.
Arguments k_guar {S}.
Arguments k_rely {S}.
Arguments k_wait {S}.

Definition ends {S A} (T : A -> S -> Prop) (o : out S A) : Prop :=
  match o with Ok a s => T a s | _ => False end.

Fixpoint rgs {S A} (p : contract S) (n : nat) (s0 : S) (T : A -> S -> Prop) (Q : A -> S -> S -> Prop) (o : out S A) : Prop :=
  match o with
  | Ok a s => Q a s0 s
  | Panic _ => False
  | Sleep c s k => k_guar p c s0 s /\ k_wait p c s (fun s' => ends T (k s')) /\
      forall s', k_rely p c s s' -> rgs p (pred n) s' T Q (k s')
  | Diverge => k_div p n
  end.

Definition div_mono {S} (p : contract S) : Prop := forall n n', (n' <= n)%nat -> k_div p n -> k_div p n'.

Lemma rgs_weaken {S A} p n n' s0 T (Q Q' : A -> S -> S -> Prop) o :
  div_mono p -> rgs p n s0 T Q o -> (n' <= n)%nat -> (forall a s1 s, Q a s1 s -> Q' a s1 s) -> rgs p n' s0 T Q' o.
Proof.
  intros Hp. revert n n' s0. induction o as [a s|msg|c s k IH|]; intros n n' s0; simpl.
  - auto.
  - done.
  - intros (HG & HW & HR) Hn HQ. split; [done|]. split; [done|]. intros s' Hs'. eapply IH; [by apply HR|lia|done].
  - intros Hd Hn _. by eapply Hp.
Qed.

Definition wait_mono {S} (p : contract S) : Prop :=
  forall c s (P P' : S -> Prop), (forall s', P s' -> P' s') -> k_wait p c s P -> k_wait p c s P'.

Lemma rgs_bind {S A B} p n s0 T (Q : B -> S -> S -> Prop) (f : A -> M S B) o :
  div_mono p -> wait_mono p ->
  rgs p n s0 (fun a s => ends T (f a s)) (fun a s1 s => rgs p n s1 T Q (f a s)) o ->
  rgs p n s0 T Q (out_bind f o).
Proof.
  intros Hp Hw. revert n s0. induction o as [a s|msg|c s k IH|]; intros n s0; simpl; try done.
  intros (HG & HW & HR). split; [done|]. split.
  { eapply Hw; [|exact HW]. intros s' Hs'. revert Hs'. unfold ends. destruct (k s'); simpl; auto. }
  intros s' Hs'. apply IH. eapply rgs_weaken; [done|by apply HR|done|].
  intros a s1 s2 H. simpl. eapply rgs_weaken; [done|exact H|lia|done].
Qed.

(* ------------------------------------------------------------------ *)
(** ** What a call relies on and guarantees *)

(** [job] is the buffer the call is for, with its block number; none for the
    interrupt handler.  At a device point the call holds the lock, and only
    the device moves. *)
Notation job := (option (nat * Z)).
Definition held (c : chan) (s : vst) : Prop :=
  if decide (c = ChYield) then vdisk_lock (v_disk s) = true /\ exists x, vinv x s
  else vdisk_lock (v_disk s) = false /\ vinv None s.
Definition guar (j : job) (c : chan) (s0 s : vst) : Prop :=
  (forall b, fst <$> j <> Some b -> own b s0 s) /\ held c s /\
  (forall b z, j = Some (b, z) -> blockno s b = z) /\ (j = None -> c = ChYield).
Definition ready (j : job) (s : vst) : Prop :=
  vdisk_lock (v_disk s) = false /\ vinv None s /\ forall b, fst <$> j = Some b -> alone b s.
Definition rely (j : job) (c : chan) (s s' : vst) : Prop :=
  if decide (c = ChYield) then rtc dev_step s s'
  else (forall b, fst <$> j = Some b -> own b s s') /\ ready j s'.

(** A call that waits for its buffer has a request, and comes to its end
    once the request is done. *)
Definition waits (j : job) (c : chan) (s : vst) (P : vst -> Prop) : Prop :=
  forall b, c = ChDiskBuf b -> fst <$> j = Some b ->
    exists r, is_req s r /\ r_buf r = b /\
      forall s', vdisk_lock (v_disk s') = false -> vinv None s' -> is_req s' r -> vb_disk (v_bufs s' b) = false -> P s'.
Definition call_contract (j : job) : contract vst := Contract (fun n => n = 0%nat) (guar j) (rely j) (waits j).

Lemma call_div_mono j : div_mono (call_contract j).
Proof. intros n n' Hn Hd. simpl in *. lia. Qed.
Lemma call_wait_mono j : wait_mono (call_contract j).
Proof. intros c s P P' HP Hw b Hc Hj. destruct (Hw b Hc Hj) as (r & Hr & Hb & Hs). exists r. eauto. Qed.

Lemma lock_agree x s : agree s (lset L_vdisk_lock x s).
Proof. done. Qed.

Section rw.
Context `{WakeBudget} (b : nat) (write : bool) (bno : Z) (d0 m0 : list Z).
Hypothesis (Hbno : 0 <= bno < 2 ^ 31) (Hd0 : length d0 = Z.to_nat BSIZE).

(** Before the request: the call's buffer and block. *)
Record before_req (s : vst) : Prop := BeforeReq {
  br_inv : vinv None s;
  br_alone : alone b s;
  br_none r : is_req s r -> r_buf r <> b;
  br_blockno : blockno s b = bno;
  br_data : data s b = d0;
  br_block : block s b = m0
}.

(** The request is under way. *)
Record in_flight (r : request) (x : option nat) (s : vst) : Prop := InFlight {
  if_inv : vinv x s;
  if_alone : alone b s;
  if_req : is_req s r;
  if_r : r_buf r = b /\ r_write r = write;
  if_blockno : blockno s b = bno;
  if_data : write = true -> data s b = d0;
  if_block : write = false -> block s b = m0
}.

(** The transfer is made: the block of the disk and the buffer agree, on
    what the buffer held for a write and on what the block held for a
    read. *)
Definition transfer_done (s : vst) : Prop :=
  blockno s b = bno /\ data s b = (if write then d0 else m0) /\ block s b = (if write then d0 else m0).

Definition others (s0 s : vst) : Prop := forall b', Some b <> Some b' -> own b' s0 s.

Lemma others_trans s1 s2 s3 : others s1 s2 -> others s2 s3 -> others s1 s3.
Proof. intros H12 H23 b' Hb'. eapply own_trans; [by apply H12|by apply H23]. Qed.

Lemma others_agree x s s' : vinv x s -> agree s s' -> others s s'.
Proof. intros I A b' _. by eapply agree_own. Qed.

Lemma agree_alone x s s' : vinv x s -> agree s s' -> alone b s -> alone b s'.
Proof. intros I A Ha r Hr. rewrite !(agree_blockno _ _ _ A). apply Ha. by rewrite (agree_req _ _ _ _ I A). Qed.

Lemma before_agree s s' : agree s s' -> before_req s -> before_req s'.
Proof.
  intros A [I Ha Hn Hb Hd Hm]. split.
  - by eapply agree_vinv.
  - by eapply agree_alone.
  - intros r Hr. apply Hn. by rewrite (agree_req _ _ _ _ I A).
  - by rewrite (agree_blockno _ _ _ A).
  - by rewrite (agree_data _ _ _ A).
  - by rewrite (agree_block _ _ _ A).
Qed.

Lemma before_own s s' : before_req s -> own b s s' -> ready (Some (b, bno)) s' -> before_req s'.
Proof.
  intros [I Ha Hn Hb Hd Hm] [On Or Od Ob] (_ & I' & Ha'). split; [done|by apply Ha'| |congruence| |].
  - intros r Hr E. apply (Hn r); [|done]. by apply Or.
  - rewrite Od; [done|]. intros r Hr E. by destruct (Hn r).
  - rewrite Ob; [done|]. intros r Hr E. by destruct (Hn r).
Qed.

(** A request of this buffer is this request. *)
Lemma only_req x s r r' : vinv x s -> is_req s r -> is_req s r' -> r_buf r = r_buf r' -> r = r'.
Proof. intros I H1 H2 E. apply (vi_block _ _ I); [done..|]. by rewrite E. Qed.

Lemma flight_own r x x' s s' :
  in_flight r x s -> own b s s' -> vinv x' s' -> alone b s' -> in_flight r x' s'.
Proof.
  intros [I Ha Hr [Eb Ew] Hbn Hd Hm] [On Or Od Ob] I' Ha'.
  assert (Hone : forall r', is_req s r' -> r_buf r' = b -> r' = r) by (intros r' Hr' E; apply (only_req x s r' r I Hr' Hr); congruence).
  split; [done|done|by apply Or|done|congruence| |].
  - intros Hw. rewrite Od; [auto|]. intros r' Hr' E. rewrite (Hone r') by done. congruence.
  - intros Hw. rewrite Ob; [auto|]. intros r' Hr' E. rewrite (Hone r') by done. congruence.
Qed.

Lemma flight_dev r x s s' : in_flight r x s -> rtc dev_step s s' -> in_flight r x s' /\ dev_frame s s'.
Proof.
  intros F Hs. pose proof (if_alone _ _ _ F) as Ha. destruct (dev_steps_keep x s s' (if_inv _ _ _ F) Hs) as [I' Fr].
  split; [|done]. eapply flight_own; [done|by apply (df_own _ _ Fr)|done|by eapply dev_frame_alone].
Qed.

Lemma dev_others x s s' : vinv x s -> rtc dev_step s s' -> forall b', alone b' s -> own b' s s'.
Proof. intros I Hs b' Ha. destruct (dev_steps_keep x s s' I Hs) as [_ Fr]. by apply Fr. Qed.

(** Waiting for descriptors. *)
Lemma alloc3_wait_spec T fuel s0 s :
  before_req s -> vdisk_lock (v_disk s) = true -> others s0 s ->
  rgs (call_contract (Some (b, bno))) fuel s0 T
    (fun idx s1 s' => exists i0 i1 i2 sp, idx = [Z.of_nat i0; Z.of_nat i1; Z.of_nat i2] /\ before_req sp /\
       vdisk_lock (v_disk sp) = true /\ others s1 sp /\ NoDup [i0; i1; i2] /\
       Forall (fun i => (i < num)%nat /\ dfree (v_disk sp) i = true) [i0; i1; i2] /\
       s' = taken i2 (taken i1 (taken i0 sp)))
    (alloc3_wait fuel s).
Proof.
  revert s0 s. induction fuel as [|f IH]; intros s0 s Hb Hl Ho; cbn [alloc3_wait];
    (destruct (alloc3_spec s) as [(i0 & i1 & i2 & Hn & Hf & E)|(s1 & E & A & El)]; erewrite bind_Ok by exact E).
  - by exists i0, i1, i2, s.
  - done.
  - by exists i0, i1, i2, s.
  - assert (Hl1 : lget L_vdisk_lock s1 = true) by (simpl; congruence).
    assert (Hb2 : before_req (lset L_vdisk_lock false s1)).
    { eapply before_agree; [apply lock_agree|]. by eapply before_agree. }
    unfold sleep_on, bind, lock_release, yield_to, lock_acquire. rewrite Hl1. simpl. split; [|split; [by intros b' E1|]].
    + split; [|split; [by split; [|apply Hb2]|split; [intros ? ? E1; injection E1 as <- <-; apply Hb2|done]]].
      eapply others_trans; [done|].
      eapply others_trans; [eapply others_agree; [apply Hb|done]|]. eapply others_agree; [|apply lock_agree].
      eapply agree_vinv; [apply Hb|done].
    + intros s' [Hown Hready]. destruct Hready as (Hl' & I' & Ha'). rewrite Hl'. simpl.
      specialize (Hown b eq_refl). pose proof (before_own _ _ Hb2 Hown (conj Hl' (conj I' Ha'))) as Hb'.
      apply IH; [eapply before_agree; [apply lock_agree|done]|done|]. eapply others_agree; [done|apply lock_agree].
Qed.

Lemma no_wait fuel (cond : vst -> bool) c l s : cond s = false -> sleep_while fuel cond c l s = Ok tt s.
Proof. intros Hc. destruct fuel; cbn [sleep_while]; erewrite bind_Ok by done; by rewrite Hc. Qed.

(** Waiting for the interrupt handler. *)
Lemma wait_disk_spec (T : unit -> vst -> Prop) r fuel s0 s :
  (forall s', vdisk_lock (v_disk s') = true -> vinv None s' -> is_req s' r -> vb_disk (v_bufs s' b) = false -> T tt s') ->
  in_flight r None s -> vdisk_lock (v_disk s) = true -> others s0 s ->
  rgs (call_contract (Some (b, bno))) fuel s0 T
    (fun _ s1 s' => in_flight r None s' /\ vdisk_lock (v_disk s') = true /\ others s1 s' /\ vb_disk (v_bufs s' b) = false)
    (sleep_while fuel (fun s => vb_disk (v_bufs s b)) (ChDiskBuf b) L_vdisk_lock s).
Proof.
  intros HT. revert s0 s. induction fuel as [|f IH]; intros s0 s F Hl Ho; cbn [sleep_while]; erewrite bind_Ok by done;
    (destruct (vb_disk (v_bufs s b)) eqn:Ed; [|done]); [done|].
  unfold sleep_on, bind, lock_release, yield_to, lock_acquire. replace (lget L_vdisk_lock s) with true by done. simpl.
  assert (F2 : in_flight r None (lset L_vdisk_lock false s)).
  { eapply flight_own; [done|eapply agree_own; [apply F|apply lock_agree]|eapply agree_vinv; [apply F|apply lock_agree]|].
    eapply agree_alone; [apply F|apply lock_agree|apply F]. }
  split; [|split].
  - split; [|split; [by split; [|apply F2]|split; [intros ? ? E1; injection E1 as <- <-; apply F2|done]]].
    eapply others_trans; [done|]. eapply others_agree; [apply F|apply lock_agree].
  - intros b' _ E1. injection E1 as <-. exists r. split; [apply F2|]. split; [apply F|].
    intros s' Hl' I' Hr' Hd'. rewrite Hl'. simpl. rewrite no_wait by done.
    apply HT; [done|by eapply agree_vinv; [|apply lock_agree]|done..].
  - intros s' [Hown (Hl' & I' & Ha')]. rewrite Hl'. simpl. specialize (Hown b eq_refl).
    assert (F' : in_flight r None s') by (eapply flight_own; [exact F2|done|done|by apply Ha']).
    apply IH; [|done|eapply others_agree; [done|apply lock_agree]].
    eapply flight_own; [done|eapply agree_own; [done|apply lock_agree]|by eapply agree_vinv; [|apply lock_agree]|].
    eapply agree_alone; [done|apply lock_agree|by apply Ha'].
Qed.

(** Taking the request down. *)
Lemma finish_returns r s :
  vdisk_lock (v_disk s) = true -> vinv None s -> is_req s r -> vb_disk (v_bufs s (r_buf r)) = false ->
  ends (fun _ _ => True) ((modify (upd_disk (set_infob (r_head r) None)) ;; free_chain num (head r) ;; lock_release L_vdisk_lock) s).
Proof.
  intros Hl I Hr Hd. erewrite bind_Ok by done. erewrite bind_Ok by (by apply done_free_chain).
  unfold lock_release. by replace (lget L_vdisk_lock _) with true by done.
Qed.

Lemma finish_spec T r s0 s n :
  in_flight r None s -> vdisk_lock (v_disk s) = true -> others s0 s -> vb_disk (v_bufs s b) = false ->
  rgs (call_contract (Some (b, bno))) n s0 T
    (fun _ s1 s' => others s1 s' /\ vdisk_lock (v_disk s') = false /\ vinv None s' /\
       (forall r', is_req s' r' -> r_buf r' <> b) /\ transfer_done s')
    ((modify (upd_disk (set_infob (r_head r) None)) ;; free_chain num (head r) ;; lock_release L_vdisk_lock) s).
Proof.
  intros F Hl Ho Hd. pose proof F as [I Ha Hr [Eb Ew] Hbn Hda Hbl]. rewrite <- Eb in Hd.
  erewrite bind_Ok by done. erewrite bind_Ok by (by apply done_free_chain).
  set (t := freed _ _). unfold lock_release. replace (lget L_vdisk_lock t) with true by done. simpl.
  assert (It : vinv None t) by (by apply done_vinv).
  assert (Hdone : data s b = block s b).
  { destruct (vi_queues _ _ I) as (av & us & Q). rewrite <- Eb. apply (q_done _ _ _ _ Q); [done| |done].
    intros Hin. assert (vb_disk (v_bufs s (r_buf r)) = true); [|congruence]. apply (q_disk _ _ _ _ Q); [done|].
    left. rewrite (assoc_L (++)). apply elem_of_app. by left. }
  split; [|split; [done|split; [eapply agree_vinv; [exact It|apply lock_agree]|split]]].
  - eapply others_trans; [done|]. eapply others_trans; [|eapply others_agree; [exact It|apply lock_agree]].
    intros b' Hb'. apply done_own; [done..|]. congruence.
  - intros r' Hr'. rewrite <- (agree_req None t _ r' It (lock_agree false t)) in Hr'.
    apply done_req in Hr' as [Hr' Hne]; [|done..]. intros E. apply Hne. apply (only_req None s); [done..|congruence].
  - unfold transfer_done. rewrite !(agree_blockno _ _ _ (lock_agree false t)), !(agree_data _ _ _ (lock_agree false t)),
      !(agree_block _ _ _ (lock_agree false t)).
    change (blockno t b) with (blockno s b). change (data t b) with (data s b). change (block t b) with (block s b).
    split; [done|]. destruct write; [rewrite <- Hdone|rewrite Hdone]; auto.
Qed.

(** The stretches of format() and submit(). *)
Lemma submit_run r sector (rest : V unit) s :
  (format (r_buf r) (r_write r) sector (r_head r) (r_mid r) (r_end r) ;; submit (r_head r) ;; rest) s =
  Sleep ChYield (formatted r sector s) (fun s' => Sleep ChYield (published s') (fun s'' => rest s'')).
Proof. reflexivity. Qed.

(** From the formatted request on: it is published, the call waits, and the
    request is taken down. *)
Lemma submitted_spec T r n s0 s (rest : V unit) Q :
  in_flight r (Some (r_head r)) s -> vdisk_lock (v_disk s) = true -> others s0 s ->
  avail_ring (v_disk s) (Z.to_nat (avail_idx (v_disk s) mod NUM)) = head r ->
  (forall s1, in_flight r None s1 -> vdisk_lock (v_disk s1) = true ->
     rgs (call_contract (Some (b, bno))) (pred (pred n)) s1 T Q (rest s1)) ->
  rgs (call_contract (Some (b, bno))) n s0 T Q
    (Sleep ChYield s (fun s' => Sleep ChYield (published s') (fun s'' => rest s''))).
Proof.
  intros F Hl Ho Hring Hrest. simpl. split; [|split; [by intros b' E1|]].
  { split; [done|split; [by split; [|eexists; apply F]|split; [intros ? ? E1; injection E1 as <- <-; apply F|done]]]. }
  intros s1 Hs1. change (rtc dev_step s s1) in Hs1. destruct (flight_dev _ _ _ _ F Hs1) as [F1 Fr1].
  destruct (df_avail _ _ Fr1) as [Ea Er].
  assert (I2 : vinv None (published s1)) by (apply (published_vinv _ (r_head r)); [apply F1|by rewrite Ea, Er]).
  assert (F2 : in_flight r None (published s1)) by (by destruct F1).
  assert (Hl2 : vdisk_lock (v_disk (published s1)) = true) by (simpl; by rewrite (df_lock _ _ Fr1)).
  split; [|split; [by intros b' E1|]].
  { split; [by intros b' _; split|split; [by split; [|eexists; apply F2]|split; [intros ? ? E1; injection E1 as <- <-; apply F2|done]]]. }
  intros s2 Hs2. change (rtc dev_step (published s1) s2) in Hs2. destruct (flight_dev _ _ _ _ F2 Hs2) as [F3 Fr3].
  apply Hrest; [done|]. by rewrite (df_lock _ _ Fr3).
Qed.

(** The whole call. *)
Lemma rw_spec s :
  before_req s -> vdisk_lock (v_disk s) = false ->
  rgs (call_contract (Some (b, bno))) wake_budget s (fun _ _ => True)
    (fun _ s1 s' => others s1 s' /\ vdisk_lock (v_disk s') = false /\ vinv None s' /\
       (forall r', is_req s' r' -> r_buf r' <> b) /\ transfer_done s')
    (virtio_disk_rw b write s).
Proof.
  intros Hb Hl. unfold virtio_disk_rw. erewrite bind_Ok by done.
  erewrite bind_Ok by (unfold lock_acquire; by replace (lget L_vdisk_lock s) with false by done).
  assert (Hs1 : before_req (lset L_vdisk_lock true s)) by (eapply before_agree; [apply lock_agree|done]).
  unfold bind at 1. apply rgs_bind; [apply call_div_mono|apply call_wait_mono|].
  eapply rgs_weaken; [apply call_div_mono|apply alloc3_wait_spec; [done..|]|done|].
  { eapply others_agree; [apply Hb|apply lock_agree]. }
  intros idx s1 s2 (i0 & i1 & i2 & sp & -> & Hsp & Hlp & Hop & Hnd & Hf & ->).
  assert (Hlt : (i0 < num)%nat /\ (i1 < num)%nat /\ (i2 < num)%nat).
  { apply Forall_cons in Hf as [[? _] [[? _] [[? _] _]%Forall_cons]%Forall_cons]. done. }
  destruct Hlt as (L0 & L1 & L2).
  erewrite bind_Ok by (by apply slot_Ok). erewrite bind_Ok by (by apply slot_Ok). erewrite bind_Ok by (by apply slot_Ok).
  set (r := Rq i0 i1 i2 b write).
  assert (Esec : u32 (vb_blockno (v_bufs s b) * (BSIZE / 512)) = blockno sp (r_buf r) * 2).
  { change (vb_blockno (v_bufs s b)) with (blockno s b). rewrite (br_blockno _ Hb). simpl. rewrite (br_blockno _ Hsp).
    unfold u32, BSIZE. change (1024 / 512) with 2. apply Z.mod_small. lia. }
  rewrite Esec. rewrite (submit_run r). pose proof Hsp as [Ip Hap Hnp Hbp Hdp Hmp].
  set (t := formatted _ _ _).
  assert (Hrange : 0 <= blockno sp (r_buf r) < 2 ^ 31) by (simpl; by rewrite Hbp).
  assert (Hlen : r_write r = true -> length (data sp (r_buf r)) = Z.to_nat BSIZE) by (intros _; simpl; by rewrite Hdp).
  assert (Hreq : forall r', is_req t r' <-> is_req sp r' \/ r' = r) by (intros; by apply new_req).
  apply (submitted_spec _ r).
  - split.
    + by apply new_vinv.
    + intros r' [Hr'| ->]%Hreq Hne; [|done]. unfold t. rewrite !new_blockno. by apply Hap.
    + apply Hreq. by right.
    + done.
    + unfold t. by rewrite new_blockno.
    + intros _. unfold t. by rewrite new_data.
    + intros _. unfold t. by rewrite new_block.
  - done.
  - eapply others_trans; [done|]. intros b' Hb'. apply new_own; [done..|]. simpl. congruence.
  - simpl. by rewrite fn_lookup_insert.
  - intros s3 F3 Hl3. unfold bind at 1. apply rgs_bind; [apply call_div_mono|apply call_wait_mono|].
    eapply rgs_weaken; [apply call_div_mono|apply (wait_disk_spec _ r); [|done..|]| |].
    + intros s' Hl' I' Hr' Hd'. by apply (finish_returns r).
    + by intros b' _.
    + lia.
    + intros _ s4 s5 (F5 & Hl5 & Ho5 & Hd5). by apply (finish_spec _ r).
Qed.
End rw.
