(* ===== verification/VirtioIntr.v ===== *)
(** * The interrupt handler of the disk

   virtio_disk_intr() (kernel/virtio_disk.c) among the other calls: it ends,
   finds a good status and a buffer for every chain in the used ring, and
   leaves the requests and the contents of the buffers alone. *)

From stdpp Require Import base numbers list functions strings relations.
From Stdlib Require Import ZArith Lia.
From S2P Require Import Prelude Params Virtio VirtioInv VirtioOps VirtioRw.

(** How many chains are in the avail ring, in the device and in the used
    ring. *)
Definition avlen (s : vst) : nat := Z.to_nat ((avail_idx (v_disk s) - seen (v_dev s)) mod 2 ^ 16).
Definition uslen (s : vst) : nat := Z.to_nat ((used_ridx (v_disk s) - used_idx (v_disk s)) mod 2 ^ 16).
Definition pending (s : vst) : nat := avlen s + length (busy (v_dev s)) + uslen s.

Lemma ring_length ring from to l :
  ring_is ring from to l -> (length l <= num)%nat -> Z.to_nat ((to - from) mod 2 ^ 16) = length l.
Proof. intros (Hf & -> & _) Hl. unfold u16, NUM in *. rewrite Zminus_mod_idemp_l. replace (_ + _ - _) with (Z.of_nat (length l)) by lia. rewrite Z.mod_small; lia. Qed.

Lemma queues_lens x s av us : queues x s av us -> length av = avlen s /\ length us = uslen s /\ (pending s <= num)%nat.
Proof.
  intros Q. pose proof (queues_length _ _ _ _ Q) as Hl. rewrite !length_app in Hl.
  assert (E1 : avlen s = length av) by (eapply ring_length; [apply Q|lia]).
  assert (E2 : uslen s = length us) by (eapply ring_length; [apply Q|lia]).
  unfold pending. lia.
Qed.

Lemma fetch_lens s s' : dev_fetch s = Some s' -> 0 <= seen (v_dev s) < 2 ^ 16 -> 0 <= avail_idx (v_disk s) < 2 ^ 16 ->
  S (avlen s') = avlen s /\ length (busy (v_dev s')) = S (length (busy (v_dev s))) /\ uslen s' = uslen s.
Proof.
  unfold dev_fetch. destruct (Z.eqb_spec (seen (v_dev s)) (avail_idx (v_disk s))) as [|Hne]; [done|].
  intros E Hs Ha. injection E as <-. split; [|split; [simpl; rewrite length_app; simpl; lia|done]].
  unfold avlen. simpl. unfold u16. divlia.
Qed.

(** Each step of the device brings the requests it has been given nearer to
    the used ring. *)
Definition dev_work (s : vst) : nat := 2 * avlen s + length (busy (v_dev s)).

Lemma dev_step_lens x s s' :
  vinv x s -> dev_step s s' -> pending s' = pending s /\ (uslen s <= uslen s')%nat /\ (dev_work s' < dev_work s)%nat.
Proof.
  intros I. pose proof I as [_ _ _ _ (av & us & Q)]. intros [E|[k E]].
  - destruct (fetch_lens _ _ E) as (E1 & E2 & E3).
    + apply (q_av _ _ _ _ Q).
    + destruct (q_av _ _ _ _ Q) as (_ & -> & _). apply Z.mod_pos_bound. lia.
    + unfold pending, dev_work. lia.
  - unfold dev_complete in E. destruct (busy (v_dev s) !! k) as [h|] eqn:Hk; [|done].
    destruct (q_heads _ _ _ _ Q h) as (r & Hr & ->).
    { apply elem_of_app. right. apply elem_of_app. left. by eapply list_elem_of_lookup_2. }
    rewrite (dev_transfer_req s r Hr) in E. injection E as <-. fold (completed k r s).
    pose proof (completed_queues _ _ _ _ _ _ I Q Hr Hk) as Q'.
    apply queues_lens in Q as (E1 & E2 & _). apply queues_lens in Q' as (E1' & E2' & _).
    rewrite length_app in E2'. simpl in E2'. pose proof (lookup_lt_Some _ _ _ Hk).
    assert (Eb : length (busy (v_dev (completed k r s))) = (length (busy (v_dev s)) - 1)%nat).
    { unfold completed, transferred. destruct (r_write r); apply length_delete; eauto. }
    unfold pending, dev_work. lia.
Qed.

Lemma dev_steps_lens x s s' :
  vinv x s -> rtc dev_step s s' -> pending s' = pending s /\ (uslen s <= uslen s')%nat.
Proof.
  intros I H. revert I. induction H as [s|s1 s2 s3 H12 _ IH]; intros I; [done|].
  destruct (dev_step_lens x s1 s2 I H12) as (? & ? & _). destruct (dev_step_keeps x s1 s2 I H12) as [I2 _].
  destruct (IH I2). lia.
Qed.

(* ------------------------------------------------------------------ *)
(** ** One entry of the used ring *)

(** b->disk = 0; wakeup(b); disk.used_idx += 1; *)
Definition handled (b : nat) (s : vst) : vst :=
  upd_disk (set_used_idx (u16 (used_idx (v_disk s) + 1)))
    (lset woken (v_woken s ++ [ChDiskBuf b]) (upd_buf b (set_bdisk false) s)).

Lemma handled_blockno b s b' : blockno (handled b s) b' = blockno s b'.
Proof.
  unfold blockno. simpl. destruct (decide (b' = b)) as [->|]; by rewrite ?fn_lookup_insert, ?fn_lookup_insert_ne.
Qed.
Lemma handled_data b s b' : data (handled b s) b' = data s b'.
Proof.
  unfold data. simpl. destruct (decide (b' = b)) as [->|]; by rewrite ?fn_lookup_insert, ?fn_lookup_insert_ne.
Qed.
Lemma handled_block b s b' : block (handled b s) b' = block s b'.
Proof. unfold block. by rewrite handled_blockno. Qed.
Lemma handled_req b s r : is_req s r <-> is_req (handled b s) r.
Proof. unfold is_req. by rewrite handled_blockno, handled_data. Qed.
Lemma handled_own b s b' : own b' s (handled b s).
Proof.
  split; [apply handled_blockno|intros r _; apply handled_req|intros _; apply handled_data|intros _; apply handled_block].
Qed.

(** The first entry of the used ring is a request with a good status. *)
Lemma used_entry s :
  vinv None s -> (0 < uslen s)%nat ->
  exists r, is_req s r /\ used_ring (v_disk s) (Z.to_nat (used_idx (v_disk s) mod NUM)) = head r /\
    snd (info (v_disk s) (r_head r)) = 0 /\ vinv None (handled (r_buf r) s) /\
    pending s = S (pending (handled (r_buf r) s)) /\ vb_disk (v_bufs s (r_buf r)) = true.
Proof.
  intros I Hu. pose proof I as [H1 H2 H3 H4 (av & us & Q)]. pose proof (queues_lens _ _ _ _ Q) as (_ & El & _).
  pose proof Q as [Qa Qu Qn Qh Qx Qd Qs Qf]. destruct us as [|h us]; [simpl in El; lia|].
  destruct (vring_pop _ _ _ _ _ Qu) as [Eh Qu']. destruct (Qh h) as (r & Hr & ->); [set_solver|].
  exists r. split; [done|]. split; [done|]. split; [apply Qs; [done|set_solver]|].
  assert (Hp : av ++ busy (v_dev s) ++ head r :: us ≡ₚ head r :: av ++ busy (v_dev s) ++ us) by solve_Permutation.
  rewrite Hp in Qn. apply NoDup_cons in Qn as [Hnot Qn].
  assert (Hin : vb_disk (v_bufs s (r_buf r)) = true) by (apply Qd; [done|left; set_solver]).
  assert (Q' : queues None (handled (r_buf r) s) av us).
  { split; try done.
    - intros h Hh. destruct (Qh h) as (r' & Hr' & ->); [set_solver|]. exists r'. by rewrite <- handled_req.
    - intros r' Hr'. rewrite <- handled_req in Hr'. simpl. destruct (decide (r' = r)) as [->|Hne].
      + rewrite fn_lookup_insert. simpl. split; [done|]. intros [?|?]; done.
      + rewrite fn_lookup_insert_ne by (intros E; apply Hne, H4; [done..|]; unfold blockno; by rewrite E).
        rewrite (Qd r' Hr'), Hp, elem_of_cons. split; [|intros [Hq|Hq]; [left; by right|done]].
        intros [[E%Nat2Z.inj|?]|?]; [|by left|done]. exfalso. apply Hne. by apply (is_req_inj s).
    - intros r' Hr' Hi. rewrite <- handled_req in Hr'. apply Qs; [done|set_solver].
    - intros r' Hr'. rewrite <- handled_req in Hr'. rewrite handled_data, handled_block. by apply Qf. }
  split; [|split; [|done]].
  - split.
    + intros h b Hb. destruct (H1 h b Hb) as (r' & Hr' & ?). exists r'. by rewrite <- handled_req.
    + intros r1 r2 i. rewrite <- !handled_req. apply H2.
    + intros i Hi. rewrite (H3 i Hi). split; intros (r' & Hr' & ?); exists r'; (split; [|done]); [by rewrite <- handled_req|by rewrite (handled_req (r_buf r))].
    + intros r1 r2. rewrite <- !handled_req, !handled_blockno. apply H4.
    + by exists av, us.
  - apply queues_lens in Q as (E1 & E2 & _). apply queues_lens in Q' as (E1' & E2' & _). simpl in E2.
    unfold pending. simpl. lia.
Qed.

(* ------------------------------------------------------------------ *)
(** ** The handler *)

Definition all_own (s0 s : vst) : Prop := forall b, own b s0 s.

(** The handler waits only for the device, and the model never loses it. *)
Definition intr_contract : contract vst := Contract (fun _ => False) (guar None) (rely None) (waits None).

Lemma intr_div_mono : div_mono intr_contract.
Proof. by intros n n' _ ?. Qed.
Lemma intr_wait_mono : wait_mono intr_contract.
Proof. intros c s P P' HP Hw b Hc Hj. done. Qed.

Lemma intr_call_contract {A} n s0 T (Q : A -> vst -> vst -> Prop) o :
  rgs intr_contract n s0 T Q o -> rgs (call_contract None) n s0 T Q o.
Proof.
  revert n s0. induction o as [a s|msg|c s k IH|]; intros n s0; simpl; try done.
  intros (HG & HW & HR). split; [done|]. split; [done|]. intros s' Hs'. apply IH. by apply HR.
Qed.

Lemma intr_loop_spec T fuel n s0 s :
  vinv None s -> vdisk_lock (v_disk s) = true -> all_own s0 s -> (pending s <= fuel)%nat ->
  rgs intr_contract n s0 T
    (fun _ s1 s' => vinv None s' /\ vdisk_lock (v_disk s') = true /\ all_own s1 s' /\ uslen s' = 0%nat)
    (intr_loop fuel s).
Proof.
  revert n s0 s. induction fuel as [|f IH]; intros n s0 s I Hl Ho Hp; cbn [intr_loop]; do 2 erewrite bind_Ok by done;
    (destruct (vi_queues _ _ I) as (av & us & Q); pose proof (queues_lens _ _ _ _ Q) as (_ & El & Hn);
     rewrite (vring_empty _ _ _ us) by (apply Q || (unfold pending in *; lia));
     case_bool_decide as Eus; [simpl; subst us; split_and!; done|]).
  { exfalso. destruct us; [done|]. simpl in El. unfold pending in Hp. lia. }
  assert (Hu : (0 < uslen s)%nat) by (destruct us; [done|simpl in El; lia]).
  change (bind dev_point ?k s) with (Sleep ChYield s (fun s' => k tt s')). cbn [rgs intr_contract k_guar k_rely k_wait].
  split; [by split; [|split; [split; [|eexists]|]]|]. split; [by intros b E|].
  intros s1 Hs1. change (rtc dev_step s s1) in Hs1.
  destruct (dev_steps_keep _ _ _ I Hs1) as [I1 Fr1]. destruct (dev_steps_lens _ _ _ I Hs1) as [Ep Hle].
  destruct (used_entry s1 I1) as (r & Hr & Er & Hst & I2 & Hp2 & _); [lia|].
  erewrite bind_Ok by done. rewrite <- (df_used _ _ Fr1), Er. erewrite bind_Ok by (by apply slot_Ok, (is_req_head s1)).
  erewrite bind_Ok by done. rewrite Hst. cbn [Z.eqb negb]. pose proof Hr as (_ & _ & Hi & _). rewrite Hi.
  do 3 erewrite bind_Ok by done. apply (IH (pred n) s1 (handled (r_buf r) s1)).
  - done.
  - simpl. by rewrite (df_lock _ _ Fr1).
  - intros b'. apply handled_own.
  - lia.
Qed.

Lemma intr_spec n s :
  vinv None s -> vdisk_lock (v_disk s) = false ->
  rgs intr_contract n s (fun _ _ => True)
    (fun _ s1 s' => all_own s1 s' /\ vdisk_lock (v_disk s') = false /\ vinv None s' /\ uslen s' = 0%nat)
    (virtio_disk_intr s).
Proof.
  intros I Hl. unfold virtio_disk_intr.
  erewrite bind_Ok by (unfold lock_acquire; by replace (lget L_vdisk_lock s) with false by done).
  set (s1 := lset L_vdisk_lock true s). assert (I1 : vinv None s1) by (eapply agree_vinv; [done|apply lock_agree]).
  change (bind dev_point ?k s1) with (Sleep ChYield s1 (fun s' => k tt s')). cbn [rgs intr_contract k_guar k_rely k_wait].
  split; [|split; [by intros b E|]].
  { split; [|split; [by split; [|eexists]|done]]. intros b _. eapply agree_own; [done|apply lock_agree]. }
  intros s2 Hs2. change (rtc dev_step s1 s2) in Hs2. destruct (dev_steps_keep _ _ _ I1 Hs2) as [I2 Fr2].
  unfold bind at 1. apply rgs_bind; [apply intr_div_mono|apply intr_wait_mono|].
  eapply rgs_weaken; [apply intr_div_mono|apply (intr_loop_spec _ _ (pred n)); [done|by rewrite (df_lock _ _ Fr2)|done|]|lia|].
  - destruct (vi_queues _ _ I2) as (av & us & Q). by apply queues_lens in Q as (_ & _ & ?).
  - intros _ s3 s4 (I4 & Hl4 & Ho4 & Hu4). unfold lock_release. replace (lget L_vdisk_lock s4) with true by done. simpl.
    split; [|split; [done|split; [eapply agree_vinv; [done|apply lock_agree]|done]]].
    intros b. eapply own_trans; [by apply Ho4|]. eapply agree_own; [done|apply lock_agree].
Qed.
