(* ===== verification/VirtioSys.v ===== *)
(** * The disk driver under concurrency

   Any number of calls of virtio_disk_rw() and virtio_disk_intr()
   (kernel/virtio_disk.c) and the device, in any interleaving.  A call runs
   from one wait to the next while it has the lock; the device runs at any
   time.  Calls that are under way are for different buffers and different
   blocks, which is what the buffer cache gives its callers. *)

From stdpp Require Import base numbers list functions strings relations.
From Stdlib Require Import ZArith Lia.
From S2P Require Import Prelude Params Virtio VirtioInv VirtioOps VirtioRw VirtioIntr.

(** A call that waits, for its channel or (a new call) for the lock; one that
    returned, and the state then; one that the model cannot follow. *)
Inductive cstate : Type :=
| Suspended (c : chan) (k : vst -> out vst unit)
| Returned (s : vst)
| Panicked (msg : string)
| Lost.

(** A transfer: the buffer and the direction, and the block number, the
    buffer and the block when the call began. *)
Record transfer := Transfer { x_buf : nat; x_write : bool; x_bno : Z; x_data : list Z; x_block : list Z }.

(** [c_left]: through how many more waits the model follows the call. *)
Record call := Call { c_what : option transfer; c_left : nat; c_st : cstate }.

Record sys := Sys { y_st : vst; y_calls : list call }.

Definition c_job (c : call) : job := (fun x => (x_buf x, x_bno x)) <$> c_what c.

Definition after (o : out vst unit) (s : vst) (c : call) : vst * call :=
  let c' := Call (c_what c) (pred (c_left c)) in
  match o with
  | Ok _ s' => (s', c' (Returned s'))
  | Sleep ch s' k => (s', c' (Suspended ch k))
  | Panic msg => (s, c' (Panicked msg))
  | Diverge => (s, Call (c_what c) (c_left c) Lost)
  end.

Definition active (c : call) : Prop := match c_st c with Suspended _ _ | Lost => True | _ => False end.

(** No call under way is for the buffer or the block. *)
Definition unused (b : nat) (bno : Z) (y : sys) : Prop :=
  forall i c x, y_calls y !! i = Some c -> active c -> c_what c = Some x ->
    x_buf x <> b /\ x_bno x <> bno.

Section sys.
Context `{WakeBudget}.

Inductive sys_step : sys -> sys -> Prop :=
| sys_dev s s' cs : dev_step s s' -> sys_step (Sys s cs) (Sys s' cs)
| sys_resume s cs i c ch k :
    cs !! i = Some c -> c_st c = Suspended ch k -> ch = ChYield \/ vdisk_lock (v_disk s) = false ->
    sys_step (Sys s cs) (Sys (fst (after (k s) s c)) (<[i := snd (after (k s) s c)]> cs))
| sys_rw s cs b w x :
    vdisk_lock (v_disk s) = false -> unused b (vb_blockno x) (Sys s cs) ->
    0 <= vb_blockno x < 2 ^ 31 -> length (vb_data x) = Z.to_nat BSIZE ->
    let s1 := upd_buf b (fun _ => x) s in
    sys_step (Sys s cs)
      (Sys s1 (cs ++ [Call (Some (Transfer b w (vb_blockno x) (vb_data x) (block s1 b))) wake_budget
                        (Suspended ChDiskFree (virtio_disk_rw b w))]))
| sys_intr s cs :
    vdisk_lock (v_disk s) = false ->
    sys_step (Sys s cs) (Sys s (cs ++ [Call None wake_budget (Suspended ChDiskFree virtio_disk_intr)])).

(** A call got what it asked for. *)
Definition call_done (x : transfer) (s : vst) : Prop :=
  transfer_done (x_buf x) (x_write x) (x_bno x) (x_data x) (x_block x) s.

(* ------------------------------------------------------------------ *)
(** ** The invariant *)

Definition call_post (c : call) (_ : unit) (s1 s' : vst) : Prop :=
  (forall b, fst <$> c_job c <> Some b -> own b s1 s') /\ vdisk_lock (v_disk s') = false /\ vinv None s' /\
  forall x, c_what c = Some x -> (forall r, is_req s' r -> r_buf r <> x_buf x) /\ call_done x s'.

Definition call_ok (s : vst) (c : call) : Prop :=
  (active c -> forall x, c_what c = Some x -> blockno s (x_buf x) = x_bno x) /\
  match c_st c with
  | Suspended ch k =>
      waits (c_job c) ch s (fun s' => ends (fun _ _ => True) (k s')) /\
      forall s', rely (c_job c) ch s s' -> rgs (call_contract (c_job c)) (c_left c) s' (fun _ _ => True) (call_post c) (k s')
  | Returned s' => forall x, c_what c = Some x -> call_done x s'
  | Panicked _ => False
  | Lost => c_left c = 0%nat
  end.

Definition yields (c : call) : Prop := exists k, c_st c = Suspended ChYield k.
#[global] Instance yields_dec c : Decision (yields c).
Proof.
  unfold Decision, yields. destruct (c_st c) as [ch k| | |]; [|by right; intros [? ?]..].
  destruct (decide (ch = ChYield)) as [->|]; [left; by exists k|right; intros [? E]; congruence].
Defined.

Record sinv (y : sys) : Prop := Sinv {
  si_inv : exists x, vinv x (y_st y) /\ (vdisk_lock (v_disk (y_st y)) = false -> x = None);
  si_owner r : is_req (y_st y) r -> exists i c x, y_calls y !! i = Some c /\ active c /\ c_what c = Some x /\ x_buf x = r_buf r;
  si_apart i j ci cj xi xj : y_calls y !! i = Some ci -> y_calls y !! j = Some cj -> i <> j -> active ci -> active cj ->
    c_what ci = Some xi -> c_what cj = Some xj -> x_buf xi <> x_buf xj /\ x_bno xi <> x_bno xj;
  si_yield i c : y_calls y !! i = Some c -> yields c -> vdisk_lock (v_disk (y_st y)) = true;
  si_yield_one i j ci cj : y_calls y !! i = Some ci -> y_calls y !! j = Some cj -> yields ci -> yields cj -> i = j;
  si_calls i c : y_calls y !! i = Some c -> call_ok (y_st y) c
}.

(** The buffer of a call is alone on its block. *)
Lemma sinv_alone y i c x :
  sinv y -> y_calls y !! i = Some c -> active c -> c_what c = Some x -> alone (x_buf x) (y_st y).
Proof.
  intros I Hi Ha Hx r Hr Hne. destruct (si_owner _ I r Hr) as (j & cj & xj & Hj & Haj & Hxj & Eb).
  assert (Hij : i <> j) by (intros ->; congruence).
  assert (Hb : forall i c x, y_calls y !! i = Some c -> active c -> c_what c = Some x -> blockno (y_st y) (x_buf x) = x_bno x).
  { intros i1 c1 x1 H1 H2 H3. by apply (si_calls _ I _ _ H1). }
  rewrite <- Eb, (Hb _ _ _ Hj Haj Hxj), (Hb _ _ _ Hi Ha Hx).
  destruct (si_apart _ I i j c cj x xj) as [_ ?]; [done..|]. congruence.
Qed.

Lemma waits_move j ch s s' P : (forall b, fst <$> j = Some b -> own b s s') -> waits j ch s P -> waits j ch s' P.
Proof.
  intros Hown Hw b Hc Hj. destruct (Hw b Hc Hj) as (r & Hr & Hb & HP). exists r. split; [|done].
  by apply (own_req _ _ _ (Hown b Hj)).
Qed.

(** A suspended call that is not at a device point lets the state move by
    steps that leave its buffer alone. *)
Lemma call_ok_move s s' c :
  ~ yields c -> call_ok s c -> (forall x, c_what c = Some x -> active c -> own (x_buf x) s s') -> call_ok s' c.
Proof.
  unfold call_ok. intros Hy [Hb Hok] Hown. split.
  - intros Ha x Hx. rewrite (own_blockno _ _ _ (Hown x Hx Ha)). by apply Hb.
  - destruct (c_st c) as [ch k| | |] eqn:Ec; [|done..]. destruct Hok as [Hw Hok].
    assert (Hj : forall b, fst <$> c_job c = Some b -> own b s s').
    { intros b Hb'. unfold c_job in Hb'. destruct (c_what c) as [x|] eqn:Ex; [|done]. injection Hb' as <-.
      apply Hown; [done|]. unfold active. by rewrite Ec. }
    split; [by eapply waits_move|]. intros s'' Hr. apply Hok. unfold rely in *.
    rewrite decide_False in * by (intros ->; apply Hy; by exists k).
    destruct Hr as [Hr1 Hr2]. split; [|done]. intros b Hb'. eapply own_trans; [by apply Hj|by apply Hr1].
Qed.

Lemma dev_sinv s s' cs : sinv (Sys s cs) -> dev_step s s' -> sinv (Sys s' cs).
Proof.
  intros I Hs. destruct (si_inv _ I) as (x & Iv & Hx). destruct (dev_step_keeps x s s' Iv Hs) as [Iv' Fr].
  pose proof (df_lock _ _ Fr) as El. split; cbn [y_st y_calls] in *.
  - exists x. by rewrite El.
  - intros r Hr. apply (si_owner _ I). by apply Fr.
  - apply (si_apart _ I).
  - rewrite El. apply (si_yield _ I).
  - apply (si_yield_one _ I).
  - intros i c Hi. pose proof (si_calls _ I i c Hi) as Hok. cbn [y_st] in Hok.
    destruct (decide (yields c)) as [Hy|Hy].
    + destruct Hok as [Hb Hok]. split.
      * intros Ha x1 Hx1. rewrite (df_blockno _ _ Fr). by apply Hb.
      * destruct Hy as [k Ec]. rewrite Ec in *. destruct Hok as [_ Hok]. split; [by intros b E|].
        intros s'' Hr. apply Hok. change (rtc dev_step s s''). by eapply rtc_l.
    + eapply call_ok_move; [done..|]. intros x1 Hx1 Ha. apply Fr. by eapply (sinv_alone (Sys s cs)).
Qed.

(** One call moves the state and becomes [c']. *)
Lemma put_sinv s cs i c c' s' :
  sinv (Sys s cs) -> cs !! i = Some c -> active c -> c_what c' = c_what c ->
  (forall b, fst <$> c_job c <> Some b -> own b s s') ->
  (exists x, vinv x s' /\ (vdisk_lock (v_disk s') = false -> x = None)) ->
  (forall j cj, j <> i -> cs !! j = Some cj -> ~ yields cj) ->
  (yields c' -> vdisk_lock (v_disk s') = true) ->
  (active c' \/ forall x r, c_what c = Some x -> is_req s' r -> r_buf r <> x_buf x) ->
  call_ok s' c' -> sinv (Sys s' (<[i := c']> cs)).
Proof.
  intros I Hi Ha Ew Hown Hinv Hny Hy Hact Hok.
  assert (Hlook : forall j cj, <[i := c']> cs !! j = Some cj -> (j = i /\ cj = c') \/ (j <> i /\ cs !! j = Some cj)).
  { intros j cj Hj. apply list_lookup_insert_Some in Hj as [(-> & -> & _)|[? ?]]; auto. }
  assert (Hputs : <[i := c']> cs !! i = Some c') by (apply list_lookup_insert_eq; by eapply lookup_lt_Some).
  assert (Hmine : forall x, fst <$> c_job c = Some x <-> exists y, c_what c = Some y /\ x_buf y = x).
  { intros x. unfold c_job. destruct (c_what c) as [y|]; simpl; [|naive_solver].
    split; [intros E; injection E as <-; eauto|]. intros (y' & E & <-). by injection E as ->. }
  assert (Hact' : forall x, c_what c = Some x -> (exists r, is_req s' r /\ r_buf r = x_buf x) -> active c').
  { intros x Hx (r & Hr & Eb). destruct Hact as [?|Hno]; [done|]. by destruct (Hno x r). }
  split; cbn [y_st y_calls].
  - done.
  - intros r Hr. destruct (decide (fst <$> c_job c = Some (r_buf r))) as [E|Hne].
    + apply Hmine in E as (x & Hx & Eb). exists i, c', x. split_and!; [done| |congruence|done]. by eapply Hact'; eauto.
    + destruct (si_owner _ I r) as (j & cj & xj & Hj & Haj & Hxj & Eb).
      { by apply (Hown (r_buf r) Hne). }
      assert (j <> i). { intros ->. apply Hne, Hmine. exists xj. split; [|done]. cbn [y_calls] in Hj. congruence. }
      exists j, cj, xj. split_and!; [|done..]. by rewrite list_lookup_insert_ne.
  - intros j k cj ck xj xk Hj Hk Hjk Haj Hak Hxj Hxk.
    apply Hlook in Hj as [[-> ->]|[Hji Hj]]; apply Hlook in Hk as [[-> ->]|[Hki Hk]]; [done|..].
    + rewrite Ew in Hxj. by eapply (si_apart _ I i k c ck).
    + rewrite Ew in Hxk. by eapply (si_apart _ I j i cj c).
    + by eapply (si_apart _ I j k cj ck).
  - intros j cj Hj Hyj. apply Hlook in Hj as [[-> ->]|[Hji Hj]]; [auto|]. by destruct (Hny j cj).
  - intros j k cj ck Hj Hk Hyj Hyk.
    apply Hlook in Hj as [[-> ->]|[Hji Hj]]; [|by destruct (Hny j cj)].
    apply Hlook in Hk as [[-> ->]|[Hki Hk]]; [done|by destruct (Hny k ck)].
  - intros j cj Hj. apply Hlook in Hj as [[-> ->]|[Hji Hj]]; [done|].
    eapply call_ok_move; [by eapply Hny|by apply (si_calls _ I j cj)|].
    intros x Hx Hax. apply Hown. intros E. apply Hmine in E as (y & Hy1 & Ey).
    destruct (si_apart _ I i j c cj y x) as [? _]; [done..|]. congruence.
Qed.

Lemma resume_sinv s cs i c ch k :
  sinv (Sys s cs) -> cs !! i = Some c -> c_st c = Suspended ch k -> ch = ChYield \/ vdisk_lock (v_disk s) = false ->
  sinv (Sys (fst (after (k s) s c)) (<[i := snd (after (k s) s c)]> cs)).
Proof.
  intros I Hi Ec Hal. assert (Ha : active c) by (unfold active; by rewrite Ec).
  destruct (si_calls _ I i c Hi) as [Hb Hok]. rewrite Ec in Hok. destruct Hok as [_ Hok]. cbn [y_st] in *.
  assert (Hny : forall j cj, j <> i -> cs !! j = Some cj -> ~ yields cj).
  { intros j cj Hj Hcj Hy. destruct Hal as [->|Hl].
    - apply Hj. apply (si_yield_one _ I j i cj c); [done..|]. by exists k.
    - pose proof (si_yield _ I j cj Hcj Hy) as Hl'. cbn [y_st] in *. congruence. }
  assert (Hr : rgs (call_contract (c_job c)) (c_left c) s (fun _ _ => True) (call_post c) (k s)).
  { apply Hok. unfold rely. case_decide as Hch; [done|]. destruct Hal as [?|Hl]; [done|].
    split; [done|]. destruct (si_inv _ I) as (x & Iv & Hx). rewrite (Hx Hl) in Iv. split; [done|]. split; [done|].
    intros b E. unfold c_job in E. destruct (c_what c) as [y|] eqn:Ey; [|done]. injection E as <-.
    by eapply (sinv_alone (Sys s cs)). }
  destruct (k s) as [[] s'|msg|ch' s' k'|] eqn:Eo; cbn [after fst snd]; simpl in Hr.
  - destruct Hr as (Hown & Hl' & Iv' & Hdone). eapply put_sinv; [exact I|done..|exact Hown| | | | |].
    + by exists None.
    + done.
    + intros [k' E]. done.
    + right. intros x r Hx. by apply Hdone.
    + split; [done|]. intros x Hx. by apply Hdone.
  - done.
  - destruct Hr as [(Hown & Hh & Hbn & _) Hk']. eapply put_sinv; [exact I|done..|exact Hown| | | | |].
    + unfold held in Hh. case_decide as Hch; [|by exists None; destruct Hh]. destruct Hh as [Hl' [x Iv']]. exists x.
      split; [done|]. congruence.
    + done.
    + intros [k'' E]. injection E as -> _. by destruct Hh.
    + by left.
    + split; [|exact Hk']. intros _ x Hx. apply Hbn. unfold c_job. simpl in Hx. by rewrite Hx.
  - eapply put_sinv; [exact I|done..| | | | | |].
    + intros b _. apply own_refl.
    + apply (si_inv _ I).
    + done.
    + intros [k' E]. done.
    + by left.
    + split; [|done]. intros _ x Hx. by apply Hb.
Qed.

(** A buffer that no request is for gets new contents. *)
Section fill.
Context (s : vst) (b : nat) (x : vbuf).
Hypothesis (Iv : vinv None s) (Hno : forall r, is_req s r -> r_buf r <> b).
Let s1 : vst := upd_buf b (fun _ => x) s.

Lemma fill_buf b' : b' <> b -> v_bufs s1 b' = v_bufs s b'.
Proof. intros. simpl. by rewrite fn_lookup_insert_ne. Qed.

Lemma fill_req r : is_req s r <-> is_req s1 r.
Proof.
  split.
  - intros Hr. pose proof (Hno r Hr). apply (is_req_frame s s1); try done; unfold blockno, data; by rewrite fill_buf.
  - intros Hr. pose proof Hr as (_ & _ & Hi & _). destruct (vi_info _ _ Iv _ _ Hi) as (r2 & Hr2 & Eh).
    assert (r2 = r) as <-; [|done]. by apply (is_req_same s s1).
Qed.

Lemma fill_own b' : b' <> b -> own b' s s1.
Proof.
  intros Hb. assert (Hbn : blockno s1 b' = blockno s b') by (unfold blockno; by rewrite fill_buf).
  split; [done|intros r _; apply fill_req|intros _; unfold data; by rewrite fill_buf|intros _; unfold block; by rewrite Hbn].
Qed.

Lemma fill_vinv : vinv None s1.
Proof.
  pose proof Iv as [H1 H2 H3 H4 (av & us & [Qa Qu Qn Qh Qx Qd Qs Qf])].
  assert (Hown : forall r, is_req s1 r -> own (r_buf r) s s1).
  { intros r Hr. apply fill_own, Hno. by apply fill_req. }
  split.
  - intros h b' Hb. destruct (H1 h b' Hb) as (r & Hr & ?). exists r. by rewrite <- fill_req.
  - intros r r' i. rewrite <- !fill_req. apply H2.
  - intros i Hi. change (dfree (v_disk s1) i) with (dfree (v_disk s) i). rewrite (H3 i Hi).
    split; intros (r & Hr & ?); exists r; (split; [|done]); [by rewrite <- fill_req|by rewrite fill_req].
  - intros r r' Hr Hr'. rewrite (own_blockno _ _ _ (Hown r Hr)), (own_blockno _ _ _ (Hown r' Hr')).
    apply H4; by apply fill_req.
  - exists av, us. split; try done.
    + intros h Hh. destruct (Qh h Hh) as (r & Hr & ->). exists r. by rewrite <- fill_req.
    + intros r Hr. apply fill_req in Hr. rewrite fill_buf by (by apply Hno). by apply Qd.
    + intros r Hr. apply fill_req in Hr. by apply Qs.
    + intros r Hr. apply fill_req in Hr. pose proof (fill_own _ (Hno r Hr)) as Ho. intros Hq Hx'. unfold data, block.
      rewrite fill_buf by (by apply Hno). rewrite (own_blockno _ _ _ Ho). by apply Qf.
Qed.
End fill.

(** A new call. *)
Lemma add_sinv s s1 cs c :
  sinv (Sys s cs) -> vdisk_lock (v_disk s) = false -> vdisk_lock (v_disk s1) = false -> vinv None s1 ->
  (forall r, is_req s r <-> is_req s1 r) ->
  (forall i c' x, cs !! i = Some c' -> active c' -> c_what c' = Some x -> own (x_buf x) s s1 /\
     forall y, c_what c = Some y -> x_buf x <> x_buf y /\ x_bno x <> x_bno y) ->
  ~ yields c -> call_ok s1 c -> sinv (Sys s1 (cs ++ [c])).
Proof.
  intros I Hl Hl1 Iv1 Hreq Hold Hy Hok.
  assert (Hlook : forall j cj, (cs ++ [c]) !! j = Some cj -> cs !! j = Some cj \/ (j = length cs /\ cj = c)).
  { intros j cj Hj. apply lookup_app_Some in Hj as [?|[Hge Hj]]; [by left|right].
    apply list_lookup_singleton_Some in Hj as [? ->]. split; [lia|done]. }
  assert (Hny : forall j cj, cs !! j = Some cj -> ~ yields cj).
  { intros j cj Hj Hyj. pose proof (si_yield _ I j cj Hj Hyj). cbn [y_st] in *. congruence. }
  split; cbn [y_st y_calls].
  - by exists None.
  - intros r Hr. destruct (si_owner _ I r) as (j & cj & xj & Hj & ?); [by apply Hreq|]. exists j, cj, xj.
    split; [|done]. by apply lookup_app_l_Some.
  - intros j k cj ck xj xk Hj Hk Hjk Haj Hak Hxj Hxk.
    apply Hlook in Hj as [Hj|[-> ->]]; apply Hlook in Hk as [Hk|[-> ->]]; [|..|done].
    + by eapply (si_apart _ I j k cj ck).
    + by eapply Hold.
    + destruct (Hold k ck xk Hk Hak Hxk) as [_ Hap]. destruct (Hap xj Hxj). auto.
  - intros j cj Hj Hyj. apply Hlook in Hj as [Hj|[-> ->]]; [|done]. by destruct (Hny j cj).
  - intros j k cj ck Hj Hk Hyj Hyk. apply Hlook in Hj as [Hj|[-> ->]]; [|done]. by destruct (Hny j cj).
  - intros j cj Hj. apply Hlook in Hj as [Hj|[-> ->]]; [|done].
    eapply call_ok_move; [by eapply Hny|by apply (si_calls _ I j cj)|]. intros x Hx Ha. by eapply Hold.
Qed.

Lemma intr_sinv s cs :
  sinv (Sys s cs) -> vdisk_lock (v_disk s) = false ->
  sinv (Sys s (cs ++ [Call None wake_budget (Suspended ChDiskFree virtio_disk_intr)])).
Proof.
  intros I Hl. destruct (si_inv _ I) as (x & Iv & Hx). cbn [y_st] in *. rewrite (Hx Hl) in Iv.
  eapply add_sinv; [exact I|done..| | |].
  - intros i c' x' ? ? ?. by split; [apply own_refl|].
  - intros [k E]. done.
  - split; [done|]. split; [by intros b E|]. intros s' [_ (Hl' & Iv' & _)].
    eapply rgs_weaken; [apply call_div_mono|by apply intr_call_contract, intr_spec|done|].
    intros u s1 s2 (Ho & Hl2 & Iv2 & _). split; [by intros b _|done].
Qed.

Lemma rw_sinv s cs b w x :
  sinv (Sys s cs) -> vdisk_lock (v_disk s) = false -> unused b (vb_blockno x) (Sys s cs) ->
  0 <= vb_blockno x < 2 ^ 31 -> length (vb_data x) = Z.to_nat BSIZE ->
  let s1 := upd_buf b (fun _ => x) s in
  sinv (Sys s1 (cs ++ [Call (Some (Transfer b w (vb_blockno x) (vb_data x) (block s1 b))) wake_budget
                        (Suspended ChDiskFree (virtio_disk_rw b w))])).
Proof.
  intros I Hl Hun Hbn Hlen s1. destruct (si_inv _ I) as (y & Iv & Hy). cbn [y_st] in *. rewrite (Hy Hl) in Iv.
  assert (Hno : forall r, is_req s r -> r_buf r <> b).
  { intros r Hr. destruct (si_owner _ I r Hr) as (j & cj & xj & Hj & Ha & Hx & <-). by apply (Hun j cj xj). }
  assert (Hb1 : v_bufs s1 b = x) by (simpl; by rewrite fn_lookup_insert).
  eapply add_sinv; [exact I|done|done|by apply fill_vinv|by apply fill_req| | |].
  - intros i c' x' Hi Ha Hx'. destruct (Hun i c' x' Hi Ha Hx') as [Hb' Hbno]. split; [by apply fill_own|].
    intros y' E. by injection E as <-.
  - intros [k E]. done.
  - split; [intros _ x' E; injection E as <-; simpl; unfold blockno; by rewrite Hb1|].
    cbn [c_st]. split; [by intros b' E|]. intros s' [Hown Hready]. specialize (Hown b eq_refl).
    assert (Hno1 : forall r, is_req s1 r -> r_buf r <> b) by (intros r Hr; apply Hno; by apply (fill_req s b x)).
    assert (Hbr : before_req b (vb_blockno x) (vb_data x) (block s1 b) s').
    { eapply before_own; [|exact Hown|exact Hready]. split; [by apply fill_vinv| |done|..].
      - intros r Hr Hne. apply fill_req in Hr; [|done..]. unfold blockno at 2. rewrite Hb1.
        assert (blockno s1 (r_buf r) = blockno s (r_buf r)) as -> by (by apply fill_own).
        destruct (si_owner _ I r Hr) as (j & cj & xj & Hj & Ha & Hx & <-).
        pose proof (proj1 (si_calls _ I j cj Hj) Ha xj Hx) as E. cbn [y_st] in E. rewrite E. by apply (Hun j cj xj).
      - unfold blockno. by rewrite Hb1.
      - unfold data. by rewrite Hb1.
      - done. }
    eapply rgs_weaken; [apply call_div_mono|apply (rw_spec b w _ _ _ Hbn Hlen s' Hbr); apply Hready|done|].
    intros u s2 s3 (Ho & Hl3 & I3 & Hn3 & Hd3). split; [done|]. split; [done|]. split; [done|].
    intros x' E. by injection E as <-.
Qed.
End sys.

(* ------------------------------------------------------------------ *)
(** ** After initialization *)

(** struct disk in zeroed memory. *)
Definition zeroed (s : vst) : Prop := used_idx (v_disk s) = 0 /\ forall h, info (v_disk s) h = (None, 0).

(** What initialization leaves. *)
Record fresh (s : vst) : Prop := Fresh {
  fr_info h : info (v_disk s) h = (None, 0);
  fr_free i : (i < num)%nat -> dfree (v_disk s) i = true;
  fr_rings : avail_idx (v_disk s) = 0 /\ used_ridx (v_disk s) = 0 /\ used_idx (v_disk s) = 0;
  fr_dev : seen (v_dev s) = 0 /\ busy (v_dev s) = [];
  fr_lock : vdisk_lock (v_disk s) = false
}.

Lemma init_fresh answer page s0 ws s :
  zeroed s0 -> virtio_disk_init answer page (Ist [] s0) = Ok tt (Ist ws s) -> fresh s.
Proof.
  intros [Hu Hi] H. unfold virtio_disk_init in H.
  repeat match type of H with
  | bind _ _ _ = _ => apply bind_Ok_inv in H as (? & ? & E & H); injection E as <- <-
  | (if ?b then panic _ else _) _ = _ => destruct b; [done|]
  end.
  unfold wr at 1 in H.
  match type of H with context [Z.lor ?x VIRTIO_CONFIG_S_DRIVER_OK =? 0] =>
    assert (Z.lor x VIRTIO_CONFIG_S_DRIVER_OK =? 0 = false) as Ez
      by (apply Z.eqb_neq; rewrite Z.lor_eq_0_iff; by intros [_ ?]) end.
  rewrite Ez, andb_false_r in H. injection H as <- <-. split; try done.
  intros i Hi'. do 8 (destruct i as [|i]; [reflexivity|]). unfold NUM in Hi'. lia.
Qed.

Lemma fresh_sinv s : fresh s -> sinv (Sys s []).
Proof.
  intros [Hi Hf (Ea & Eu & Ei) (Es & Eb) Hl].
  assert (Hno : forall r, ~ is_req s r) by (intros r (_ & _ & H & _); by rewrite Hi in H).
  split; cbn [y_st y_calls]; try (intros; done).
  - exists None. split; [|done]. split.
    + intros h b H. by rewrite Hi in H.
    + intros r r' i H. by destruct (Hno r).
    + intros i Hlt. rewrite (Hf i Hlt). split; [done|]. intros (r & Hr & _). by destruct (Hno r).
    + intros r r' H. by destruct (Hno r).
    + exists [], []. split; rewrite ?Ea, ?Eu, ?Ei, ?Es, ?Eb; try done; try (intros r Hr; by destruct (Hno r)).
      * constructor.
      * intros h Hh. by apply elem_of_nil in Hh.
  - intros r Hr. by destruct (Hno r).
Qed.

Lemma step_sinv `{WakeBudget} y y' : sinv y -> sys_step y y' -> sinv y'.
Proof. intros I Hs. destruct Hs; eauto using dev_sinv, resume_sinv, rw_sinv, intr_sinv. Qed.

Lemma reach_sinv `{WakeBudget} y y' : sinv y -> rtc sys_step y y' -> sinv y'.
Proof. intros I Hs. revert I. induction Hs; eauto using step_sinv. Qed.

(** C11. The disk driver transfers blocks.  After virtio_disk_init() returned,
    let any number of calls of virtio_disk_rw() for different buffers and
    blocks, interrupt handlers and the device run in any interleaving: no
    call panics or touches a descriptor that is not its own, the model loses
    a call only after as many waits as it follows, and a call that returns
    has made its transfer: a write leaves in the block of the disk what the
    buffer held, a read leaves in the buffer what the block held. *)
Theorem virtio_transfers `{WakeBudget} answer page s0 ws s y i c :
  zeroed s0 -> virtio_disk_init answer page (Ist [] s0) = Ok tt (Ist ws s) ->
  rtc sys_step (Sys s []) y -> y_calls y !! i = Some c ->
  match c_st c with
  | Suspended _ _ => True
  | Returned s' => forall x, c_what c = Some x ->
      blockno s' (x_buf x) = x_bno x /\
      data s' (x_buf x) = (if x_write x then x_data x else x_block x) /\
      block s' (x_buf x) = (if x_write x then x_data x else x_block x)
  | Panicked _ => False
  | Lost => c_left c = 0%nat
  end.
Proof.
  intros Hz Hinit Hs Hi. assert (I : sinv y) by (eapply reach_sinv; [by eapply fresh_sinv, init_fresh|done]).
  destruct (si_calls _ I i c Hi) as [_ Hok]. by destruct (c_st c).
Qed.

(* ------------------------------------------------------------------ *)
(** ** Liveness *)

(** A call with nobody else running: it goes on at device points. *)
Fixpoint run_alone {A} (o : out vst A) : option (A * vst) :=
  match o with
  | Ok a s => Some (a, s)
  | Sleep ChYield s k => run_alone (k s)
  | _ => None
  end.

Lemma run_alone_bind {A B} (m : V A) (f : A -> V B) s a s' :
  run_alone (m s) = Some (a, s') -> run_alone (bind m f s) = run_alone (f a s').
Proof.
  unfold bind. revert a s'. induction (m s) as [a0 s0|msg|c s0 k IH|]; intros a s' E; simpl in *; try done.
  - by injection E as -> ->.
  - destruct c; try done. by apply IH.
Qed.

Ltac alone := erewrite run_alone_bind; [|reflexivity]; cbn beta.

(** The interrupt handler when the device is quiet. *)
Record handles (s s' : vst) : Prop := Handles {
  h_inv : vinv None s';
  h_own : all_own s s';
  h_dev : v_dev s' = v_dev s /\ avail_idx (v_disk s') = avail_idx (v_disk s);
  h_woken : v_woken s `prefix_of` v_woken s';
  h_wakes b : vb_disk (v_bufs s b) = true -> vb_disk (v_bufs s' b) = true \/ ChDiskBuf b ∈ v_woken s'
}.

Lemma handles_refl s : vinv None s -> handles s s.
Proof. intros I. split; auto. intros b. apply own_refl. Qed.

Lemma handles_trans s1 s2 s3 : handles s1 s2 -> handles s2 s3 -> handles s1 s3.
Proof.
  intros [_ O12 [D12 A12] W12 K12] [I3 O23 [D23 A23] W23 K23]. split; [done| |split; congruence|by etrans|].
  - intros b. eapply own_trans; [apply O12|apply O23].
  - intros b Hb. destruct (K12 b Hb) as [H2|H2]; [by apply K23|]. right. destruct W23 as [l ->]. set_solver.
Qed.

Lemma handled_handles s r : vinv None (handled (r_buf r) s) -> handles s (handled (r_buf r) s).
Proof.
  intros I. split; [done| |done| |].
  - intros b. apply handled_own.
  - simpl. by eexists.
  - intros b Hb. simpl. destruct (decide (b = r_buf r)) as [->|Hne]; [right; set_solver|left].
    by rewrite fn_lookup_insert_ne.
Qed.

Lemma lock_handles x s : vinv None s -> handles s (lset L_vdisk_lock x s).
Proof.
  intros I. split; [eapply agree_vinv; [done|apply lock_agree]| |done|done|by left].
  intros b. eapply agree_own; [done|apply lock_agree].
Qed.

Lemma intr_loop_alone fuel s :
  vinv None s -> vdisk_lock (v_disk s) = true -> (pending s <= fuel)%nat ->
  exists s', run_alone (intr_loop fuel s) = Some (tt, s') /\
    handles s s' /\ vdisk_lock (v_disk s') = true /\ uslen s' = 0%nat.
Proof.
  revert s. induction fuel as [|f IH]; intros s I Hl Hp; cbn [intr_loop]; do 2 alone;
    (destruct (vi_queues _ _ I) as (av & us & Q); pose proof (queues_lens _ _ _ _ Q) as (_ & El & Hn);
     rewrite (vring_empty _ _ _ us) by (apply Q || (unfold pending in *; lia)); case_bool_decide as Eus).
  - exists s. split; [done|]. split; [by apply handles_refl|]. by subst us.
  - destruct us; [done|]. simpl in El. unfold pending in Hp. lia.
  - exists s. split; [done|]. split; [by apply handles_refl|]. by subst us.
  - destruct us as [|h us]; [done|]. simpl in El.
    destruct (used_entry s I) as (r & Hr & Er & Hst & I2 & Hp2 & _); [lia|].
    destruct (IH (handled (r_buf r) s)) as (s' & E & Hh & Hl' & Hu'); [done..|lia|].
    exists s'. split; [|split; [eapply handles_trans; [by apply handled_handles|done]|done]].
    do 2 alone. rewrite Er. erewrite run_alone_bind by (by rewrite slot_Ok by (by apply (is_req_head s))).
    alone. rewrite Hst. cbn [Z.eqb negb]. pose proof Hr as (_ & _ & Hi & _). rewrite Hi. by do 3 alone.
Qed.

Lemma intr_alone s :
  vinv None s -> vdisk_lock (v_disk s) = false ->
  exists s', run_alone (virtio_disk_intr s) = Some (tt, s') /\
    handles s s' /\ vdisk_lock (v_disk s') = false /\ uslen s' = 0%nat.
Proof.
  intros I Hl. unfold virtio_disk_intr. pose proof (lock_handles true s I) as H1.
  destruct (intr_loop_alone num (lset L_vdisk_lock true s)) as (s2 & E & H2 & Hl2 & Hu2).
  - apply H1.
  - done.
  - destruct (vi_queues _ _ (h_inv _ _ H1)) as (av & us & Q). by apply queues_lens in Q as (_ & _ & ?).
  - exists (lset L_vdisk_lock false s2). pose proof (lock_handles false s2 (h_inv _ _ H2)) as H3. split.
    + erewrite run_alone_bind; [|unfold lock_acquire; by replace (lget L_vdisk_lock s) with false by done].
      alone. rewrite (run_alone_bind _ _ _ _ _ E). unfold lock_release. by replace (lget L_vdisk_lock s2) with true by done.
    + split; [|done]. eapply handles_trans; [exact H1|]. by eapply handles_trans.
Qed.

(** A device that has work does it. *)
Lemma dev_quiet x s : vinv x s -> (forall s', ~ dev_step s s') -> avlen s = 0%nat /\ busy (v_dev s) = [].
Proof.
  intros I Hq. pose proof I as [_ _ _ _ (av & us & Q)]. pose proof (queues_lens _ _ _ _ Q) as (El & _ & Hn). split.
  - destruct av as [|h av]; [done|]. exfalso. destruct (dev_fetch s) as [s'|] eqn:E; [by apply (Hq s'); left|].
    unfold dev_fetch in E. rewrite (vring_empty _ _ _ (h :: av)) in E by (apply Q || (unfold pending in *; lia)). done.
  - destruct (busy (v_dev s)) as [|h l] eqn:E; [done|]. exfalso. destruct (dev_complete 0 s) as [s'|] eqn:Ec.
    { apply (Hq s'). right. by exists 0%nat. }
    unfold dev_complete in Ec. rewrite E in Ec. simpl in Ec.
    destruct (q_heads _ _ _ _ Q h) as (r & Hr & ->); [rewrite E; set_solver|]. by rewrite (dev_transfer_req s r Hr) in Ec.
Qed.

Lemma dev_runs_end x n s s' : vinv x s -> nsteps dev_step n s s' -> (n + dev_work s' <= dev_work s)%nat.
Proof.
  intros I Hs. revert I. induction Hs as [s|n s1 s2 s3 H12 _ IH]; intros I; [lia|].
  destruct (dev_step_lens x s1 s2 I H12) as (_ & _ & ?). destruct (dev_step_keeps x s1 s2 I H12) as [I2 _].
  specialize (IH I2). lia.
Qed.

Lemma devs_sinv `{WakeBudget} s s' cs : sinv (Sys s cs) -> rtc dev_step s s' -> sinv (Sys s' cs).
Proof. intros I Hs. revert I. induction Hs; eauto using dev_sinv. Qed.

(** A call with a finished request returns. *)
Lemma waiting_returns `{WakeBudget} s1 s2 cs i c x k :
  sinv (Sys s1 cs) -> vdisk_lock (v_disk s1) = false -> handles s1 s2 -> vdisk_lock (v_disk s2) = false ->
  pending s2 = 0%nat -> cs !! i = Some c -> c_what c = Some x -> c_st c = Suspended (ChDiskBuf (x_buf x)) k ->
  vb_disk (v_bufs s2 (x_buf x)) = false /\ exists s3, k s2 = Ok tt s3 /\ call_done x s3.
Proof.
  intros I Hl1 Hh Hl2 Hp Hi Hx Ec. assert (Ha : active c) by (unfold active; by rewrite Ec).
  pose proof (sinv_alone _ _ _ _ I Hi Ha Hx) as Hal. cbn [y_st] in Hal.
  destruct (si_calls _ I i c Hi) as [_ Hok]. rewrite Ec in Hok. destruct Hok as [Hw Hok]. cbn [y_st] in *.
  assert (Ej : fst <$> c_job c = Some (x_buf x)) by (unfold c_job; by rewrite Hx).
  destruct (Hw _ eq_refl Ej) as (r & Hr & Eb & Hend).
  pose proof (h_own _ _ Hh) as Hown. pose proof (h_inv _ _ Hh) as I2.
  assert (Hr2 : is_req s2 r) by (by apply (own_req _ _ _ (Hown (r_buf r)))).
  assert (Hd : vb_disk (v_bufs s2 (x_buf x)) = false).
  { destruct (vi_queues _ _ I2) as (av & us & Q). pose proof (queues_lens _ _ _ _ Q) as (E1 & E2 & _).
    unfold pending in Hp. destruct (busy (v_dev s2)) as [|] eqn:Eb2; [|simpl in Hp; lia].
    apply not_true_is_false. rewrite <- Eb. intros Hd. apply (q_disk _ _ _ _ Q r Hr2) in Hd as [Hd|Hd]; [|done].
    destruct av; [|simpl in E1; lia]. destruct us; [|simpl in E2; lia]. rewrite Eb2 in Hd. by apply elem_of_nil in Hd. }
  split; [done|]. specialize (Hend s2 Hl2 I2 Hr2 Hd).
  assert (Hal2 : alone (x_buf x) s2).
  { intros r' Hr' Hne. rewrite !(own_blockno _ _ _ (Hown _)). apply Hal; [|done]. by apply (own_req _ _ _ (Hown (r_buf r'))). }
  specialize (Hok s2). destruct (k s2) as [[] s3| | |] eqn:Ek; try done. exists s3. split; [done|].
  eapply Hok; [|exact Hx]. unfold rely. rewrite decide_False by done. split; [intros b _; apply Hown|].
  split; [done|]. split; [done|]. intros b Hb. rewrite Ej in Hb. by injection Hb as <-.
Qed.

(** C12. Requests complete.  In any state that the calls, handlers and the
    device can reach with the lock free, the device can run for at most 16
    steps before it has nothing left to do; and when it has nothing left,
    one run of virtio_disk_intr() ends, has called wakeup() for every
    request that was still pending, and then every call that waits for its
    request returns when it is resumed, with its transfer made. *)
Theorem virtio_completes `{WakeBudget} answer page s0 ws s y :
  zeroed s0 -> virtio_disk_init answer page (Ist [] s0) = Ok tt (Ist ws s) ->
  rtc sys_step (Sys s []) y -> vdisk_lock (v_disk (y_st y)) = false ->
  (forall n s1, nsteps dev_step n (y_st y) s1 -> (n <= 16)%nat) /\
  (forall s1, rtc dev_step (y_st y) s1 -> (forall s2, ~ dev_step s1 s2) ->
     exists s2, run_alone (virtio_disk_intr s1) = Some (tt, s2) /\
       forall i c x k, y_calls y !! i = Some c -> c_what c = Some x ->
         c_st c = Suspended (ChDiskBuf (x_buf x)) k ->
         (vb_disk (v_bufs (y_st y) (x_buf x)) = true -> ChDiskBuf (x_buf x) ∈ v_woken s2) /\
         exists s3, k s2 = Ok tt s3 /\ call_done x s3).
Proof.
  intros Hz Hinit Hs Hl. assert (I : sinv y) by (eapply reach_sinv; [by eapply fresh_sinv, init_fresh|done]).
  destruct y as [st cs]. cbn [y_st y_calls] in *. destruct (si_inv _ I) as (x0 & Iv & Hx0). cbn [y_st] in *.
  rewrite (Hx0 Hl) in Iv. split.
  - intros n s1 Hn. apply (dev_runs_end None) in Hn; [|done].
    destruct (vi_queues _ _ Iv) as (av & us & Q). apply queues_lens in Q as (_ & _ & Hp).
    unfold pending, dev_work, NUM in *. lia.
  - intros s1 Hs1 Hq. destruct (dev_steps_keep _ _ _ Iv Hs1) as [I1 Fr1].
    assert (Hl1 : vdisk_lock (v_disk s1) = false) by (by rewrite (df_lock _ _ Fr1)).
    destruct (intr_alone s1 I1 Hl1) as (s2 & E & Hh & Hl2 & Hu2). exists s2. split; [done|].
    destruct (dev_quiet _ _ I1 Hq) as [Ha1 Hb1].
    assert (Hp : pending s2 = 0%nat).
    { unfold pending, avlen in *. destruct (h_dev _ _ Hh) as [-> ->]. rewrite Ha1, Hb1, Hu2. done. }
    intros i c x k Hi Hx Ec.
    destruct (waiting_returns s1 s2 cs i c x k) as [Hd Hret]; [by eapply devs_sinv|done..|]. split; [|done].
    intros Hdisk. rewrite <- (df_disk _ _ Fr1) in Hdisk. destruct (h_wakes _ _ Hh _ Hdisk) as [?|?]; [congruence|done].
Qed.

(* ------------------------------------------------------------------ *)
(** ** A run *)

Inductive doing := DoFetch | DoComplete (k : nat) | DoResume (i : nat) | DoIntr.

Definition do_step `{WakeBudget} (a : doing) (y : sys) : option sys :=
  let '(Sys s cs) := y in
  match a with
  | DoFetch => (fun s' => Sys s' cs) <$> dev_fetch s
  | DoComplete k => (fun s' => Sys s' cs) <$> dev_complete k s
  | DoResume i =>
      match cs !! i with
      | Some c =>
          match c_st c with
          | Suspended ch k =>
              if bool_decide (ch = ChYield) || negb (vdisk_lock (v_disk s))
              then Some (Sys (fst (after (k s) s c)) (<[i := snd (after (k s) s c)]> cs)) else None
          | _ => None
          end
      | None => None
      end
  | DoIntr =>
      if vdisk_lock (v_disk s) then None
      else Some (Sys s (cs ++ [Call None wake_budget (Suspended ChDiskFree virtio_disk_intr)]))
  end.

Fixpoint do_steps `{WakeBudget} (l : list doing) (y : sys) : option sys :=
  match l with
  | [] => Some y
  | a :: l' => match do_step a y with Some y' => do_steps l' y' | None => None end
  end.

Lemma do_step_sys `{WakeBudget} a y y' : do_step a y = Some y' -> sys_step y y'.
Proof.
  destruct y as [s cs], a as [|k|i|]; simpl.
  - destruct (dev_fetch s) eqn:E; [|done]. intros Eq. injection Eq as <-. constructor. by left.
  - destruct (dev_complete k s) eqn:E; [|done]. intros Eq. injection Eq as <-. constructor. right. by exists k.
  - destruct (cs !! i) as [c|] eqn:Ei; [|done]. destruct (c_st c) as [ch k| | |] eqn:Ec; try done.
    case_bool_decide as Hc; [|destruct (vdisk_lock _) eqn:El; [done|]]; intros Eq; injection Eq as <-;
      eapply sys_resume; eauto.
  - destruct (vdisk_lock _) eqn:El; [done|]. intros Eq. injection Eq as <-. by constructor.
Qed.

Lemma do_steps_sys `{WakeBudget} l y y' : do_steps l y = Some y' -> rtc sys_step y y'.
Proof.
  revert y. induction l as [|a l IH]; intros y E; simpl in E; [by injection E as ->|].
  destruct (do_step a y) as [y1|] eqn:E1; [|done]. eapply rtc_l; [by eapply do_step_sys|by apply IH].
Qed.

(** A disk whose registers answer as the driver expects. *)
Definition ex_answer (r : Z) (_ : list (Z * Z)) : Z :=
  if r =? VIRTIO_MMIO_MAGIC_VALUE then 0x74726976
  else if r =? VIRTIO_MMIO_VERSION then 2 else if r =? VIRTIO_MMIO_DEVICE_ID then 2
  else if r =? VIRTIO_MMIO_VENDOR_ID then 0x554d4551
  else if r =? VIRTIO_MMIO_STATUS then 11
  else if r =? VIRTIO_MMIO_QUEUE_NUM_MAX then 1024 else 0.
Definition ex_boot : vst :=
  Vst (Disk (fun _ => Desc VNull 0 0 0) 0 (fun _ => 0) 0 (fun _ => 0) (fun _ => false) 0 (fun _ => (None, 0))
         (fun _ => Req 0 0 0) false)
    (fun _ => VBuf 0 false []) (Device 0 [] (fun k => replicate 512 (k mod 256))) [].
Definition ex_wakes : WakeBudget := 3%nat.

(** The driver after initialization, with one call for block 5. *)
Definition ex_started (w : bool) : option sys :=
  match virtio_disk_init ex_answer (fun i => 4096 * Z.of_nat (S i)) (Ist [] ex_boot) with
  | Ok _ (Ist _ s) =>
      let s1 := upd_buf 0 (fun _ => VBuf 5 false (replicate 1024 7)) s in
      Some (Sys s1 [Call (Some (Transfer 0 w 5 (replicate 1024 7) (block s1 0))) ex_wakes
                      (Suspended ChDiskFree (@virtio_disk_rw ex_wakes 0 w))])
  | _ => None
  end.

(** The call, the device, the handler, the call. *)
Definition ex_doing : list doing :=
  [DoResume 0; DoResume 0; DoResume 0; DoFetch; DoComplete 0; DoIntr; DoResume 1; DoResume 1; DoResume 1; DoResume 0].

Lemma ex_started_reach w : exists ws s y,
  virtio_disk_init ex_answer (fun i => 4096 * Z.of_nat (S i)) (Ist [] ex_boot) = Ok tt (Ist ws s) /\
  ex_started w = Some y /\ rtc (@sys_step ex_wakes) (Sys s []) y.
Proof.
  assert (Hok : match ex_started w with Some _ => true | None => false end = true) by (destruct w; vm_compute; reflexivity).
  unfold ex_started in *. destruct (virtio_disk_init _ _ _) as [[] [ws s]| | |] eqn:E; try discriminate Hok.
  exists ws, s. eexists. split; [done|]. split; [done|]. eapply rtc_l; [|apply rtc_refl].
  apply (@sys_rw ex_wakes s [] 0 w (VBuf 5 false (replicate 1024 7))); [|done|simpl; lia|done].
  by apply (fr_lock s), (init_fresh ex_answer (fun i => 4096 * Z.of_nat (S i)) ex_boot ws).
Qed.

Definition ex_is_read (o : option sys) : bool :=
  match o with
  | Some (Sys _ (Call (Some x) _ (Returned s) :: _)) =>
      negb (x_write x) && (x_buf x =? 0)%nat && bool_decide (x_block x = replicate 512 10 ++ replicate 512 11)
  | _ => false
  end.

Lemma virtio_transfers_witness :
  exists y c s', y_calls y !! 0%nat = Some c /\ c_st c = Returned s' /\ data s' 0 = replicate 512 10 ++ replicate 512 11.
Proof.
  destruct (ex_started_reach false) as (ws & s & y0 & Einit & E0 & Hreach).
  assert (Hex : ex_is_read (match ex_started false with Some y => @do_steps ex_wakes ex_doing y | None => None end) = true)
    by (vm_compute; reflexivity).
  rewrite E0 in Hex. destruct (@do_steps ex_wakes ex_doing y0) as [y|] eqn:E1; [|discriminate].
  assert (Hy : rtc (@sys_step ex_wakes) (Sys s []) y) by (etrans; [exact Hreach|by apply do_steps_sys in E1]).
  destruct y as [st [|[[x|] n [| s' | |]] cs]]; try discriminate Hex.
  pose proof (@virtio_transfers ex_wakes ex_answer (fun i => 4096 * Z.of_nat (S i)) ex_boot ws s
    (Sys st (Call (Some x) n (Returned s') :: cs)) 0 (Call (Some x) n (Returned s'))
    (conj eq_refl (fun _ => eq_refl)) Einit Hy eq_refl x eq_refl) as (_ & Hd & _).
  exists (Sys st (Call (Some x) n (Returned s') :: cs)), (Call (Some x) n (Returned s')), s'.
  split; [reflexivity|]. split; [reflexivity|]. unfold ex_is_read in Hex.
  apply andb_true_iff in Hex as [[Hw%negb_true_iff Hb%Nat.eqb_eq]%andb_true_iff Hx%bool_decide_eq_true].
  rewrite Hw, Hb, Hx in Hd. exact Hd.
Defined.

(** After the call waits, and before the device has begun. *)
Definition ex_waiting : list doing := [DoResume 0; DoResume 0; DoResume 0].

Definition ex_is_waiting (o : option sys) : bool :=
  match o with
  | Some (Sys s (Call (Some x) _ (Suspended (ChDiskBuf 0) _) :: _)) =>
      (x_buf x =? 0)%nat && negb (vdisk_lock (v_disk s)) && vb_disk (v_bufs s 0)
  | _ => false
  end.

Lemma virtio_completes_witness :
  exists y c k, y_calls y !! 0%nat = Some c /\ c_st c = Suspended (ChDiskBuf 0) k /\
    forall s1, rtc dev_step (y_st y) s1 -> (forall s2, ~ dev_step s1 s2) ->
      exists s2 s3, run_alone (virtio_disk_intr s1) = Some (tt, s2) /\ ChDiskBuf 0 ∈ v_woken s2 /\ k s2 = Ok tt s3.
Proof.
  destruct (ex_started_reach true) as (ws & s & y0 & Einit & E0 & Hreach).
  assert (Hex : ex_is_waiting (match ex_started true with Some y => @do_steps ex_wakes ex_waiting y | None => None end) = true)
    by (vm_compute; reflexivity).
  rewrite E0 in Hex. destruct (@do_steps ex_wakes ex_waiting y0) as [y|] eqn:E1; [|discriminate].
  assert (Hy : rtc (@sys_step ex_wakes) (Sys s []) y) by (etrans; [exact Hreach|by apply do_steps_sys in E1]).
  destruct y as [st [|[[x|] n [[| | | | | | | | |b|] k| | |]] cs]]; try discriminate Hex.
  destruct b; [|discriminate Hex]. unfold ex_is_waiting in Hex.
  apply andb_true_iff in Hex as [[Hb%Nat.eqb_eq Hl%negb_true_iff]%andb_true_iff Hd].
  destruct (@virtio_completes ex_wakes ex_answer (fun i => 4096 * Z.of_nat (S i)) ex_boot ws s
    (Sys st (Call (Some x) n (Suspended (ChDiskBuf 0) k) :: cs)) (conj eq_refl (fun _ => eq_refl)) Einit Hy Hl) as [_ H].
  exists (Sys st (Call (Some x) n (Suspended (ChDiskBuf 0) k) :: cs)), (Call (Some x) n (Suspended (ChDiskBuf 0) k)), k.
  split; [reflexivity|]. split; [reflexivity|]. intros s1 Hs1 Hq. destruct (H s1 Hs1 Hq) as (s2 & Er & Hc).
  destruct (Hc 0%nat _ x k eq_refl eq_refl) as (Hwk & s3 & Ek & _); [simpl; by rewrite Hb|].
  rewrite Hb in Hwk. exists s2, s3. split; [exact Er|]. split; [by apply Hwk|exact Ek].
Defined.
