(* ===== verification/Log.v ===== *)
(** * The write-ahead log (kernel/log.c)

   The in-memory log header and transaction counters of struct log, over
   the buffer cache of Bio.v.  Blocks of a transaction stay pinned in the
   cache until commit() copies them to the log area, writes the header
   block (the commit point), installs them in their home blocks and erases
   the header.  Console messages are not modelled. *)

From stdpp Require Import base numbers list gmap strings.
From Stdlib Require Import ZArith Lia.
From S2P Require Import Prelude Params Sleeplock Ring Bio.

(** struct log; the header fields n and block[] are [lh_n] and [lh_block]. *)
Record log := Log {
  lg_lock : bool;
  lg_start : Z;
  lg_outstanding : Z;
  lg_committing : bool;
  lg_dev : Z;
  lh_n : Z;
  lh_block : list Z
}.

Record lstate := LState { l_log : log; l_bio : bio }.

Definition L_bio : lens lstate bio := Lens l_bio (fun b s => LState (l_log s) b).
Definition set_log (g : log -> log) (s : lstate) : lstate := LState (g (l_log s)) (l_bio s).
Definition L_lg_lock : lens lstate bool :=
  Lens (fun s => lg_lock (l_log s))
    (fun b => set_log (fun g => Log b (lg_start g) (lg_outstanding g) (lg_committing g)
                                    (lg_dev g) (lh_n g) (lh_block g))).
#[global] Instance lstate_woken : Woken lstate := lens_comp L_bio woken.

Definition set_outstanding (o : Z) : lstate -> lstate :=
  set_log (fun g => Log (lg_lock g) (lg_start g) o (lg_committing g) (lg_dev g) (lh_n g) (lh_block g)).
Definition set_committing (c : bool) : lstate -> lstate :=
  set_log (fun g => Log (lg_lock g) (lg_start g) (lg_outstanding g) c (lg_dev g) (lh_n g) (lh_block g)).
Definition set_n (n : Z) : lstate -> lstate :=
  set_log (fun g => Log (lg_lock g) (lg_start g) (lg_outstanding g) (lg_committing g) (lg_dev g) n (lh_block g)).
Definition set_block (i : nat) (b : Z) : lstate -> lstate :=
  set_log (fun g => Log (lg_lock g) (lg_start g) (lg_outstanding g) (lg_committing g) (lg_dev g)
                        (lh_n g) (<[i := b]> (lh_block g))).

(** log.lh.block[i] for an index inside the array *)
Definition lh_get (i : Z) : M lstate Z :=
  let* l := gets (fun s => lh_block (l_log s)) in
  match l !! Z.to_nat i with
  | Some b => if 0 <=? i then ret b else ub "log.lh.block"
  | None => ub "log.lh.block"
  end.
Definition lh_put (i b : Z) : M lstate unit :=
  let* l := gets (fun s => lh_block (l_log s)) in
  if (0 <=? i) && (i <? Z.of_nat (length l)) then modify (set_block (Z.to_nat i) b)
  else ub "log.lh.block".

(** struct logheader inside a block: n, then block[]; both are ints. *)
Definition hdr_n (d : list Z) : Z := i32 (ld32 0 d).
Definition hdr_block (i : nat) (d : list Z) : Z := i32 (ld32 (4 + 4 * i) d).
Definition put_hdr_n (n : Z) (d : list Z) : list Z := st32 0 n d.
Definition put_hdr_block (i : nat) (b : Z) (d : list Z) : list Z := st32 (4 + 4 * i) b d.

Section ops.
Context `{WakeBudget}.

Definition lread (blockno : Z) : M lstate nat :=
  let* dev := gets (fun s => lg_dev (l_log s)) in
  zoom L_bio (bread (u32 dev) (u32 blockno)).

(** one iteration of the loop of install_trans(); the console message of
    recovery is not part of the model *)
Definition install_one (recovering : bool) (tail : Z) : M lstate unit :=
  let* start := gets (fun s => lg_start (l_log s)) in
  let* lbuf := lread (start + tail + 1) in
  let* home := lh_get tail in
  let* dbuf := lread home in
  let* d := zoom L_bio (bdata lbuf) in
  zoom L_bio (bset dbuf d) ;;
  zoom L_bio (bwrite dbuf) ;;
  (if recovering then ret tt else zoom L_bio (bunpin dbuf)) ;;
  zoom L_bio (brelse lbuf) ;;
  zoom L_bio (brelse dbuf).

Definition install_trans (recovering : bool) : M lstate unit :=
  let* n := gets (fun s => lh_n (l_log s)) in
  for_range (Z.to_nat n) 0 (install_one recovering).

Definition read_head : M lstate unit :=
  let* start := gets (fun s => lg_start (l_log s)) in
  let* buf := lread start in
  let* d := zoom L_bio (bdata buf) in
  modify (set_n (hdr_n d)) ;;
  for_range (Z.to_nat (hdr_n d)) 0 (fun i => lh_put i (hdr_block (Z.to_nat i) d)) ;;
  zoom L_bio (brelse buf).

Definition write_head : M lstate unit :=
  let* start := gets (fun s => lg_start (l_log s)) in
  let* buf := lread start in
  let* n := gets (fun s => lh_n (l_log s)) in
  let* d := zoom L_bio (bdata buf) in
  zoom L_bio (bset buf (put_hdr_n n d)) ;;
  for_range (Z.to_nat n) 0 (fun i =>
    let* b := lh_get i in
    let* d := zoom L_bio (bdata buf) in
    zoom L_bio (bset buf (put_hdr_block (Z.to_nat i) b d))) ;;
  zoom L_bio (bwrite buf) ;;
  zoom L_bio (brelse buf).

Definition recover_from_log : M lstate unit :=
  read_head ;;
  install_trans true ;;
  modify (set_n 0) ;;
  write_head.

(** initlog(dev, sb), with sb->logstart; the header of LOGBLOCKS entries
    fits a block, so the sizeof test never fires. *)
Definition initlog (dev logstart : Z) : M lstate unit :=
  if 4 + 4 * LOGBLOCKS >=? BSIZE then panic "initlog: too big logheader"
  else
    modify (lset L_lg_lock false) ;;
    modify (set_log (fun g => Log (lg_lock g) (i32 logstart) (lg_outstanding g)
                                  (lg_committing g) dev (lh_n g) (lh_block g))) ;;
    recover_from_log.

(** the two reasons begin_op() sleeps *)
Definition begin_must_wait (s : lstate) : bool :=
  lg_committing (l_log s) ||
  (LOGBLOCKS <? lh_n (l_log s) + (lg_outstanding (l_log s) + 1) * MAXOPBLOCKS).

Definition begin_op : M lstate unit :=
  lock_acquire L_lg_lock ;;
  sleep_while wake_budget begin_must_wait ChLog L_lg_lock ;;
  modify (fun s => set_outstanding (lg_outstanding (l_log s) + 1) s) ;;
  lock_release L_lg_lock.

(** one iteration of the loop of write_log() *)
Definition write_log_one (tail : Z) : M lstate unit :=
  let* start := gets (fun s => lg_start (l_log s)) in
  let* to := lread (start + tail + 1) in
  let* home := lh_get tail in
  let* from := lread home in
  let* d := zoom L_bio (bdata from) in
  zoom L_bio (bset to d) ;;
  zoom L_bio (bwrite to) ;;
  zoom L_bio (brelse from) ;;
  zoom L_bio (brelse to).

Definition write_log : M lstate unit :=
  let* n := gets (fun s => lh_n (l_log s)) in
  for_range (Z.to_nat n) 0 write_log_one.

Definition commit : M lstate unit :=
  let* n := gets (fun s => lh_n (l_log s)) in
  if n >? 0 then
    write_log ;;
    write_head ;;
    install_trans false ;;
    modify (set_n 0) ;;
    write_head
  else ret tt.

(** The two critical sections of end_op(): the first closes the operation
    and says whether it was the last one (do_commit), the second ends the
    commit.  The log lock is free in between. *)
Definition end_op_close : M lstate bool :=
  lock_acquire L_lg_lock ;;
  modify (fun s => set_outstanding (lg_outstanding (l_log s) - 1) s) ;;
  let* c := gets (fun s => lg_committing (l_log s)) in
  if c then panic "log.committing"
  else
    let* o := gets (fun s => lg_outstanding (l_log s)) in
    (if o =? 0 then modify (set_committing true) else wakeup ChLog) ;;
    lock_release L_lg_lock ;;
    ret (o =? 0).

Definition end_op_done : M lstate unit :=
  lock_acquire L_lg_lock ;;
  modify (set_committing false) ;;
  wakeup ChLog ;;
  lock_release L_lg_lock.

Definition end_op : M lstate unit :=
  let* do_commit := end_op_close in
  if do_commit then commit ;; end_op_done else ret tt.

(** for (i = 0; i < log.lh.n; i++) if (log.lh.block[i] == b->blockno) break; *)
Fixpoint log_index (k : nat) (i : Z) (blockno : Z) : M lstate Z :=
  match k with
  | O => ret i
  | S k' =>
      let* x := lh_get i in
      if u32 x =? blockno then ret i else log_index k' (i + 1) blockno
  end.

Definition log_write (b : nat) : M lstate unit :=
  lock_acquire L_lg_lock ;;
  let* g := gets l_log in
  if lh_n g >=? LOGBLOCKS then panic "too big a transaction"
  else if lg_outstanding g <? 1 then panic "log_write outside of trans"
  else
    let* blockno := gets (fun s => b_blockno (getbuf b (bc_buf (l_bio s)))) in
    let* i := log_index (Z.to_nat (lh_n g)) 0 blockno in
    lh_put i (i32 blockno) ;;
    (if i =? lh_n g then
       zoom L_bio (bpin b) ;;
       modify (fun s => set_n (lh_n (l_log s) + 1) s)
     else ret tt) ;;
    lock_release L_lg_lock.

End ops.

(** The log before initlog(): zeroed memory over a fresh buffer cache. *)
Definition boot_log (b : bio) : lstate :=
  LState (Log false 0 0 false 0 0 (replicate (Z.to_nat LOGBLOCKS) 0)) b.
