(* ===== verification/LogSpec.v ===== *)
(** * The log's loops, step by step

   What one pass of each loop of kernel/log.c does to the disk and to the
   live buffers, on top of the promise of the buffer cache ([bio_rep]). *)

From stdpp Require Import base numbers list gmap strings.
From Stdlib Require Import ZArith Lia.
From S2P Require Import Prelude Params Sleeplock Ring Bio Log.

(** The block writes of a call, applied to a disk in order. *)
Definition apply_writes (ws : list (Z * list Z)) (d : gmap Z (list Z)) : gmap Z (list Z) :=
  foldl (fun d w => <[w.1 := w.2]> d) d ws.

(** The header block write_head() leaves on disk over the old contents [d]. *)
Fixpoint put_blocks (i : nat) (B : list Z) (d : list Z) : list Z :=
  match B with
  | [] => d
  | b :: B' => put_blocks (S i) B' (put_hdr_block i b d)
  end.
Definition hdr_image (B : list Z) (d : list Z) : list Z :=
  put_blocks 0 B (put_hdr_n (Z.of_nat (length B)) d).

Section steps.
Context `{WakeBudget}.

(** One iteration's outcome: the log header [g] is untouched, [ws] went to
    the disk, and the live buffers are [live]. *)
Definition iter_post (m : M lstate unit) (g : log) (t : bio) (A : acache)
    (ws : list (Z * list Z)) (live : gmap Z abuf) : Prop :=
  exists t', m (LState g t) = Ok tt (LState g t') /\
    bio_rep t' (ACache (apply_writes ws (a_disk A)) live) /\
    bc_writes t' = bc_writes t ++ ws /\ bc_pid t' = bc_pid t.

Lemma z_Ok {A} (m : M bio A) g t a t' :
  m t = Ok a t' -> zoom L_bio m (LState g t) = Ok a (LState g t').
Proof. intros E. by rewrite (zoom_Ok L_bio m _ a t'). Qed.

Lemma lread_Ok g t b i t' :
  lg_dev g = ROOTDEV -> 0 <= b < 2 ^ 32 -> bread ROOTDEV b t = Ok i t' ->
  lread b (LState g t) = Ok i (LState g t').
Proof.
  intros Hd Hb E. unfold lread. erewrite bind_Ok by done. simpl. rewrite Hd.
  rewrite (u32_small b) by done. by apply z_Ok.
Qed.

Lemma lh_get_Ok g t i b :
  0 <= i -> lh_block g !! Z.to_nat i = Some b ->
  lh_get i (LState g t) = Ok b (LState g t).
Proof.
  intros Hi Hb. unfold lh_get. erewrite bind_Ok by done. simpl. rewrite Hb.
  by rewrite (proj2 (Z.leb_le _ _)).
Qed.

Lemma live_data t A i b x :
  bio_rep t A -> handle t i b -> a_live A !! b = Some x -> bdata i t = Ok (ab_data x) t.
Proof.
  intros Hr Hh Hx. destruct (live_fields _ _ _ _ _ Hr Hh Hx) as (<- & _). done.
Qed.

Lemma disk_block_insert d b x : disk_block (<[b := x]> d) b = x.
Proof. unfold disk_block. by rewrite lookup_insert_eq. Qed.
Lemma disk_block_insert_ne d b b' x : b <> b' -> disk_block (<[b := x]> d) b' = disk_block d b'.
Proof. intros. unfold disk_block. by rewrite lookup_insert_ne. Qed.

Lemma bio_rep_live t A B :
  bio_rep t A -> a_disk A = a_disk B -> (forall b, a_live A !! b = a_live B !! b) -> bio_rep t B.
Proof.
  destruct A as [d l], B as [d' l']. simpl. intros Hr -> Hl. by rewrite <- (map_eq l l' Hl).
Qed.

(** write_log(): log block [to] gets the cached contents of [home]. *)
Lemma write_log_one_spec g t A tail home c :
  bio_rep t A -> lg_dev g = ROOTDEV -> 0 <= tail -> lh_block g !! Z.to_nat tail = Some home ->
  let to := lg_start g + tail + 1 in
  0 <= to < 2 ^ 32 -> 0 <= home < 2 ^ 32 ->
  a_live A !! home = Some (ABuf c false 1) -> a_live A !! to = None ->
  (size (a_live A) < HEAD)%nat ->
  iter_post (write_log_one tail) g t A [(to, c)] (a_live A).
Proof.
  intros Hr Hdev Ht Hhome to Hto Hh0 Hlh Hlt Hsz.
  assert (home <> to) as Hne by congruence.
  destruct (bread_spec t A to Hr) as (i & t1 & E1 & R1 & H1 & F1 & W1 & _).
  { unfold can_read. by rewrite Hlt. }
  destruct (bread_spec t1 _ home R1) as (j & t2 & E2 & R2 & H2 & F2 & W2 & _).
  { unfold can_read, set_live. simpl. rewrite lookup_insert_ne, Hlh by done. simpl. lia. }
  assert (live_ref (set_live A to (ABuf (a_view A to) true (live_ref A to + 1))) home = 1) as L2.
  { unfold live_ref, set_live. simpl. by rewrite lookup_insert_ne, Hlh. }
  assert (a_view (set_live A to (ABuf (a_view A to) true (live_ref A to + 1))) home = c) as V2.
  { unfold a_view at 1, set_live. simpl. by rewrite lookup_insert_ne, Hlh. }
  rewrite L2, V2 in R2.
  assert (live_ref A to = 0) as L1 by (unfold live_ref; by rewrite Hlt). rewrite L1 in R2.
  assert (bdata j t2 = Ok c t2) as E3.
  { eapply (live_data t2 _ j home (ABuf c true (1 + 1))); [done|done|].
    simpl. by rewrite lookup_insert_eq. }
  destruct (bset_spec t2 _ i to (ABuf (a_view A to) true 1) R2 ltac:(by apply F2)) with (d := c)
    as (E4 & R4 & F4 & H4).
  { simpl. rewrite lookup_insert_ne, lookup_insert_eq by done. done. }
  set (t4 := upd_buf i (set_data c) t2) in *.
  destruct (bwrite_spec t4 _ i to (ABuf c true 1) R4 H4) as (t5 & E5 & R5 & F5 & W5 & _).
  { simpl. by rewrite lookup_insert_eq. }
  { done. }
  simpl in R5.
  destruct (brelse_spec t5 _ j home (ABuf c true 2) R5) as (t6 & E6 & R6 & F6 & _ & P6 & W6 & _).
  { by apply F5, F4. }
  { simpl. rewrite lookup_insert_ne, lookup_insert_eq by done. done. }
  { done. }
  { done. }
  destruct (brelse_spec t6 _ i to (ABuf c true 1) R6) as (t7 & E7 & R7 & _ & _ & P7 & W7 & _).
  { apply F6; [congruence|]. by apply F5. }
  { simpl. rewrite lookup_insert_ne, lookup_insert_eq by done. done. }
  { done. }
  { intros _. simpl. by rewrite disk_block_insert. }
  exists t7. split_and!.
  - unfold write_log_one. erewrite bind_Ok by done. simpl.
    erewrite bind_Ok by (by apply lread_Ok).
    erewrite bind_Ok by (by apply lh_get_Ok).
    erewrite bind_Ok by (by apply lread_Ok).
    erewrite bind_Ok by (by apply z_Ok).
    erewrite bind_Ok by (by apply z_Ok).
    erewrite bind_Ok by (by apply z_Ok).
    erewrite bind_Ok by (by apply z_Ok).
    by apply z_Ok.
  - apply (bio_rep_live _ _ _ R7); [done|]. intros b. simpl.
    destruct (decide (b = to)) as [->|]; [by rewrite lookup_delete_eq|].
    rewrite lookup_delete_ne by done.
    destruct (decide (b = home)) as [->|]; [by rewrite lookup_insert_eq|].
    by rewrite !lookup_insert_ne by done.
  - rewrite W7, W6, W5. simpl. by rewrite W2, W1.
  - rewrite P7, P6, (f_pid _ _ F5), (f_pid _ _ F4), (f_pid _ _ F2). apply F1.
Qed.

(** install_trans(): the home block [home] gets the contents of log block
    [from]; after a commit the pin of [home] goes with it, during recovery
    no buffer is left live. *)
Lemma install_one_spec (recovering : bool) g t A tail home c :
  bio_rep t A -> lg_dev g = ROOTDEV -> 0 <= tail -> lh_block g !! Z.to_nat tail = Some home ->
  let from := lg_start g + tail + 1 in
  0 <= from < 2 ^ 32 -> 0 <= home < 2 ^ 32 -> home <> from ->
  a_live A !! home = (if recovering then None else Some (ABuf c false 1)) ->
  a_live A !! from = None -> (size (a_live A) + (if recovering then 1 else 0) < HEAD)%nat ->
  iter_post (install_one recovering tail) g t A [(home, disk_block (a_disk A) from)]
    (delete home (a_live A)).
Proof.
  intros Hr Hdev Ht Hhome from Hfr Hh0 Hne Hlh Hlf Hsz.
  set (d := disk_block (a_disk A) from).
  set (k := if recovering then 1 else 2).
  assert (a_view A from = d) as Vf by (unfold a_view; by rewrite Hlf).
  assert (live_ref A from = 0) as Lf by (unfold live_ref; by rewrite Hlf).
  destruct (bread_spec t A from Hr) as (i & t1 & E1 & R1 & H1 & F1 & W1 & _).
  { unfold can_read. rewrite Hlf. lia. }
  rewrite Vf, Lf in R1. set (A1 := set_live A from (ABuf d true (0 + 1))) in *.
  assert (a_live A1 !! home = a_live A !! home) as L1 by (simpl; by rewrite lookup_insert_ne).
  destruct (bread_spec t1 A1 home R1) as (j & t2 & E2 & R2 & H2 & F2 & W2 & _).
  { unfold can_read. rewrite L1, Hlh. destruct recovering; simpl; [|lia].
    rewrite map_size_insert_None by done. lia. }
  assert (live_ref A1 home + 1 = k) as L2.
  { unfold live_ref. rewrite L1, Hlh. by destruct recovering. }
  rewrite L2 in R2. set (v := a_view A1 home) in *.
  assert (bdata i t2 = Ok d t2) as E3.
  { eapply (live_data t2 _ i from (ABuf d true (0 + 1))); [done|by apply F2|].
    simpl. by rewrite lookup_insert_ne, lookup_insert_eq by done. }
  destruct (bset_spec t2 _ j home (ABuf v true k) R2 H2) with (d := d) as (E4 & R4 & F4 & H4).
  { simpl. by rewrite lookup_insert_eq. }
  set (t4 := upd_buf j (set_data d) t2) in *.
  destruct (bwrite_spec t4 _ j home (ABuf d true k) R4 H4) as (t5 & E5 & R5 & F5 & W5 & _).
  { simpl. by rewrite lookup_insert_eq. }
  { done. }
  simpl in R5.
  assert (exists t6, (if recovering then ret tt else bunpin j) t5 = Ok tt t6 /\
    bio_rep t6 (set_live (ACache (<[home := d]> (a_disk A)) (a_live A1)) home (ABuf d true 1)) /\
    frame t5 t6 /\ handle t6 j home /\ bc_writes t6 = bc_writes t5) as (t6 & E6 & R6 & F6 & H6 & W6).
  { destruct recovering.
    - exists t5. split; [done|]. split; [|split; [by split|split; [by apply F5|done]]].
      apply (bio_rep_live _ _ _ R5); [done|]. intros b. simpl. by rewrite !insert_insert_eq.
    - destruct (bunpin_spec t5 _ j home (ABuf d true 2) R5) as (t6 & E6 & R6 & F6 & H6 & W6 & _).
      { by apply F5. } { simpl. by rewrite lookup_insert_eq. } { simpl. lia. }
      exists t6. split; [done|]. split; [|done].
      apply (bio_rep_live _ _ _ R6); [done|]. intros b. simpl. by rewrite !insert_insert_eq. }
  destruct (brelse_spec t6 _ i from (ABuf d true 1) R6) as (t7 & E7 & R7 & F7 & _ & P7 & W7 & _).
  { by apply F6, F5, F4, F2. }
  { simpl. rewrite lookup_insert_ne, lookup_insert_eq by done. done. }
  { done. }
  { intros _. simpl. by rewrite disk_block_insert_ne. }
  destruct (brelse_spec t7 _ j home (ABuf d true 1) R7) as (t8 & E8 & R8 & _ & _ & P8 & W8 & _).
  { by apply F7. }
  { simpl. rewrite lookup_delete_ne, lookup_insert_eq by done. done. }
  { done. }
  { intros _. simpl. by rewrite disk_block_insert. }
  exists t8. split; [|split; [|split]].
  - unfold install_one. erewrite bind_Ok by done. simpl.
    erewrite bind_Ok by (by apply lread_Ok).
    erewrite bind_Ok by (by apply lh_get_Ok).
    erewrite bind_Ok by (by apply lread_Ok).
    do 3 erewrite bind_Ok by (by apply z_Ok).
    erewrite bind_Ok; [|by destruct recovering; [injection E6 as ->|apply z_Ok]].
    erewrite bind_Ok by (by apply z_Ok).
    by apply z_Ok.
  - apply (bio_rep_live _ _ _ R8); [done|]. intros b. simpl.
    destruct (decide (b = home)) as [->|]; [by rewrite !lookup_delete_eq|].
    rewrite !(lookup_delete_ne _ home) by done.
    destruct (decide (b = from)) as [->|]; [by rewrite lookup_delete_eq|].
    by rewrite lookup_delete_ne, !lookup_insert_ne by done.
  - rewrite W8, W7, W6, W5. simpl. by rewrite W2, W1.
  - rewrite P8, P7, (f_pid _ _ F6), (f_pid _ _ F5), (f_pid _ _ F4), (f_pid _ _ F2). apply F1.
Qed.

(** *** The header block *)

Lemma length_put_blocks i B d : length (put_blocks i B d) = length d.
Proof.
  revert i d. induction B as [|b B IH]; intros i d; simpl; [done|].
  rewrite IH. apply length_le_put.
Qed.

Lemma length_hdr_image B d : length (hdr_image B d) = length d.
Proof. unfold hdr_image. rewrite length_put_blocks. apply length_le_put. Qed.

Lemma put_blocks_snoc i B b d :
  put_blocks i (B ++ [b]) d = put_hdr_block (i + length B) b (put_blocks i B d).
Proof.
  revert i d. induction B as [|c B IH]; intros i d; simpl.
  - by rewrite Nat.add_0_r.
  - rewrite IH. by rewrite Nat.add_succ_r.
Qed.

Lemma put_blocks_below i B d off :
  (off + 4 <= 4 + 4 * i)%nat -> ld32 off (put_blocks i B d) = ld32 off d.
Proof.
  revert i d. induction B as [|b B IH]; intros i d Hoff; simpl; [done|].
  rewrite IH by lia. apply le_get_put_ne. lia.
Qed.

Lemma put_blocks_at i B d k b :
  (4 + 4 * (i + length B) <= length d)%nat -> B !! k = Some b ->
  ld32 (4 + 4 * (i + k)) (put_blocks i B d) = u32 b.
Proof.
  revert i d k. induction B as [|c B IH]; intros i d k Hlen Hk; simpl; [done|].
  simpl in Hlen. destruct k as [|k]; simpl in Hk.
  - injection Hk as ->. rewrite Nat.add_0_r. rewrite put_blocks_below by lia.
    apply ld32_st32. lia.
  - replace (i + S k)%nat with (S i + k)%nat by lia. apply IH; [|done].
    unfold put_hdr_block, st32. rewrite length_le_put. lia.
Qed.

(** Reading back the header write_head() wrote. *)
Lemma hdr_n_image B d :
  (4 <= length d)%nat -> Z.of_nat (length B) < 2 ^ 31 -> hdr_n (hdr_image B d) = Z.of_nat (length B).
Proof.
  intros Hd Hb. unfold hdr_n, hdr_image, put_hdr_n. rewrite put_blocks_below by lia.
  rewrite ld32_st32 by lia. rewrite u32_small by lia. apply i32_small. lia.
Qed.

Lemma hdr_block_image B d k b :
  (4 + 4 * length B <= length d)%nat -> B !! k = Some b -> 0 <= b < 2 ^ 31 ->
  hdr_block k (hdr_image B d) = b.
Proof.
  intros Hd Hk Hb. unfold hdr_block, hdr_image.
  rewrite (put_blocks_at 0 B _ k b); [|by unfold put_hdr_n, st32; rewrite length_le_put|done].
  rewrite u32_small by lia. apply i32_small. lia.
Qed.

(** write_head(): the header block now names [take n lh_block]. *)
Lemma write_head_spec g t A B :
  bio_rep t A -> lg_dev g = ROOTDEV -> 0 <= lg_start g < 2 ^ 32 ->
  lh_n g = Z.of_nat (length B) -> take (length B) (lh_block g) = B ->
  a_live A !! lg_start g = None -> (size (a_live A) < HEAD)%nat ->
  iter_post write_head g t A
    [(lg_start g, hdr_image B (disk_block (a_disk A) (lg_start g)))] (a_live A).
Proof.
  intros Hr Hdev Hst Hn HB Hl Hsz. set (st := lg_start g) in *.
  set (d := disk_block (a_disk A) st).
  assert (a_view A st = d) as V by (unfold a_view; by rewrite Hl).
  assert (live_ref A st = 0) as L by (unfold live_ref; by rewrite Hl).
  destruct (bread_spec t A st Hr) as (i & t1 & E1 & R1 & H1 & F1 & W1 & _).
  { unfold can_read. by rewrite Hl. }
  rewrite V, L in R1.
  assert (bdata i t1 = Ok d t1) as E2.
  { eapply (live_data t1 _ i st (ABuf d true 1)); [done..|]. simpl. by rewrite lookup_insert_eq. }
  set (d0 := put_hdr_n (Z.of_nat (length B)) d).
  set (I := fun (k : Z) (s : lstate) => exists t', s = LState g t' /\
    bio_rep t' (set_live A st (ABuf (put_blocks 0 (take (Z.to_nat k) B) d0) true 1)) /\
    handle t' i st /\ bc_writes t' = bc_writes t /\ bc_pid t' = bc_pid t).
  destruct (bset_spec t1 _ i st (ABuf d true 1) R1 H1) with (d := d0) as (E3 & R3 & F3 & H3).
  { simpl. by rewrite lookup_insert_eq. }
  set (t3 := upd_buf i (set_data d0) t1) in *.
  destruct (for_range_Ok (length B) 0 (fun i' =>
    let* b := lh_get i' in
    let* d := zoom L_bio (bdata i) in
    zoom L_bio (bset i (put_hdr_block (Z.to_nat i') b d))) I (LState g t3)) as (s4 & E4 & HI).
  { exists t3. split; [done|]. split.
    - apply (bio_rep_live _ _ _ R3); [done|]. intros b. simpl. by rewrite insert_insert_eq.
    - split; [done|]. split; [done|]. rewrite (f_pid _ _ F3). apply F1. }
  { intros k s' Hk (t' & -> & R & Hh & W & P).
    destruct (lookup_lt_is_Some_2 B (Z.to_nat k)) as [b Hb]; [lia|].
    assert (lh_block g !! Z.to_nat k = Some b) as Hb'.
    { rewrite <- HB in Hb. rewrite lookup_take_lt in Hb by lia. done. }
    destruct (bset_spec t' _ i st _ R Hh ltac:(simpl; by rewrite lookup_insert_eq))
      with (d := put_hdr_block (Z.to_nat k) b (put_blocks 0 (take (Z.to_nat k) B) d0))
      as (E5 & R5 & F5 & H5).
    eexists. split.
    { erewrite bind_Ok by (apply lh_get_Ok; [lia|done]).
      erewrite bind_Ok; [|apply z_Ok; eapply live_data; [done|done|simpl; by rewrite lookup_insert_eq]].
      by apply z_Ok. }
    eexists; split; [done|]. split.
    - apply (bio_rep_live _ _ _ R5); [done|]. intros b'. simpl. rewrite insert_insert_eq.
      replace (Z.to_nat (k + 1)) with (S (Z.to_nat k)) by lia.
      rewrite (take_S_r _ _ b) by done. rewrite put_blocks_snoc. simpl.
      rewrite length_take, Nat.min_l by lia. done.
    - split; [done|]. split; [done|]. by rewrite (f_pid _ _ F5). }
  destruct HI as (t4 & -> & R4 & H4 & W4 & P4).
  replace (Z.to_nat (0 + Z.of_nat (length B))) with (length B) in R4 by lia.
  rewrite firstn_all in R4. change (put_blocks 0 B d0) with (hdr_image B d) in R4.
  destruct (bwrite_spec t4 _ i st _ R4 H4 ltac:(simpl; by rewrite lookup_insert_eq) eq_refl)
    as (t5 & E5 & R5 & F5 & W5 & _).
  destruct (brelse_spec t5 _ i st (ABuf (hdr_image B d) true 1) R5) as (t6 & E6 & R6 & _ & _ & P6 & W6 & _).
  { by apply F5. } { simpl. by rewrite lookup_insert_eq. } { done. }
  { intros _. simpl. by rewrite disk_block_insert. }
  exists t6. split; [|split; [|split]].
  - unfold write_head. erewrite bind_Ok by done. simpl.
    erewrite bind_Ok by (by apply lread_Ok). erewrite bind_Ok by done.
    do 2 erewrite bind_Ok by (apply z_Ok; simpl; rewrite ?Hn; done).
    simpl. rewrite Hn, Nat2Z.id. erewrite bind_Ok by done.
    erewrite bind_Ok by (by apply z_Ok). by apply z_Ok.
  - apply (bio_rep_live _ _ _ R6); [done|]. intros b. simpl.
    destruct (decide (b = st)) as [->|]; [by rewrite lookup_delete_eq|].
    by rewrite lookup_delete_ne, lookup_insert_ne by done.
  - by rewrite W6, W5, W4.
  - by rewrite P6, (f_pid _ _ F5).
Qed.

(** read_head(): the in-memory header becomes the one on disk. *)
Lemma read_head_spec g t A :
  bio_rep t A -> lg_dev g = ROOTDEV -> 0 <= lg_start g < 2 ^ 32 ->
  a_live A !! lg_start g = None -> (size (a_live A) < HEAD)%nat ->
  let d := disk_block (a_disk A) (lg_start g) in
  0 <= hdr_n d <= Z.of_nat (length (lh_block g)) ->
  exists bl t', read_head (LState g t) =
      Ok tt (LState (Log (lg_lock g) (lg_start g) (lg_outstanding g) (lg_committing g)
                         (lg_dev g) (hdr_n d) bl) t') /\
    length bl = length (lh_block g) /\
    (forall k, (k < Z.to_nat (hdr_n d))%nat -> bl !! k = Some (hdr_block k d)) /\
    bio_rep t' A /\ bc_writes t' = bc_writes t /\ bc_pid t' = bc_pid t.
Proof.
  intros Hr Hdev Hst Hl Hsz d Hn. set (st := lg_start g) in *.
  assert (a_view A st = d) as V by (unfold a_view; by rewrite Hl).
  assert (live_ref A st = 0) as L by (unfold live_ref; by rewrite Hl).
  destruct (bread_spec t A st Hr) as (i & t1 & E1 & R1 & H1 & F1 & W1 & _).
  { unfold can_read. by rewrite Hl. }
  rewrite V, L in R1.
  assert (bdata i t1 = Ok d t1) as E2.
  { eapply (live_data t1 _ i st (ABuf d true 1)); [done..|]. simpl. by rewrite lookup_insert_eq. }
  set (G := fun bl => Log (lg_lock g) st (lg_outstanding g) (lg_committing g) (lg_dev g) (hdr_n d) bl).
  set (I := fun (k : Z) (s : lstate) => exists bl, s = LState (G bl) t1 /\
    length bl = length (lh_block g) /\
    forall j, (j < Z.to_nat k)%nat -> bl !! j = Some (hdr_block j d)).
  destruct (for_range_Ok (Z.to_nat (hdr_n d)) 0 (fun i => lh_put i (hdr_block (Z.to_nat i) d)) I
    (LState (G (lh_block g)) t1)) as (s2 & E3 & HI).
  { exists (lh_block g). split; [done|]. split; [done|]. intros j Hj. lia. }
  { intros k s' Hk (bl & -> & Hlen & Hbl). unfold lh_put. erewrite bind_Ok by done. simpl.
    rewrite (proj2 (Z.leb_le _ _)), (proj2 (Z.ltb_lt _ _)) by lia.
    eexists; split; [done|]. eexists; split; [done|]. split; [simpl; by rewrite length_insert|].
    intros j Hj. simpl. destruct (decide (j = Z.to_nat k)) as [->|].
    - rewrite list_lookup_insert_eq by lia. done.
    - rewrite list_lookup_insert_ne by done. apply Hbl. lia. }
  destruct HI as (bl & -> & Hlen & Hbl).
  destruct (brelse_spec t1 _ i st (ABuf d true 1) R1 H1) as (t3 & E4 & R4 & _ & _ & P4 & W4 & _).
  { simpl. by rewrite lookup_insert_eq. } { done. } { done. }
  exists bl, t3. split; [|split; [done|split; [|split; [|split]]]].
  - unfold read_head. erewrite bind_Ok by done. simpl. fold st.
    erewrite bind_Ok by (by apply lread_Ok). erewrite bind_Ok by (by apply z_Ok).
    erewrite bind_Ok by done. erewrite bind_Ok by done. by apply z_Ok.
  - intros k Hk. apply Hbl. lia.
  - apply (bio_rep_live _ _ _ R4); [done|]. intros b. simpl.
    destruct (decide (b = st)) as [->|]; [by rewrite lookup_delete_eq, Hl|].
    by rewrite lookup_delete_ne, lookup_insert_ne by done.
  - by rewrite W4.
  - rewrite P4. apply F1.
Qed.

(** A loop whose [i]-th pass writes [f i]. *)
Lemma iter_loop g body (f : nat -> Z * list Z) (live : nat -> gmap Z abuf) (d : gmap Z (list Z)) n t :
  bio_rep t (ACache d (live O)) ->
  (forall i t', (i < n)%nat ->
    let A := ACache (apply_writes (map f (seq 0 i)) d) (live i) in
    bio_rep t' A -> iter_post (body (Z.of_nat i)) g t' A [f i] (live (S i))) ->
  iter_post (for_range n 0 body) g t (ACache d (live O)) (map f (seq 0 n)) (live n).
Proof.
  intros Hr Hb.
  set (I := fun (k : Z) (s : lstate) => exists t', s = LState g t' /\
    bio_rep t' (ACache (apply_writes (map f (seq 0 (Z.to_nat k))) d) (live (Z.to_nat k))) /\
    bc_writes t' = bc_writes t ++ map f (seq 0 (Z.to_nat k)) /\ bc_pid t' = bc_pid t).
  destruct (for_range_Ok n 0 body I (LState g t)) as (s & E & HI).
  { exists t. split; [done|]. split; [done|]. by rewrite app_nil_r. }
  { intros k s' Hk (t' & -> & R & W & P).
    destruct (Hb (Z.to_nat k) t' ltac:(lia) R) as (t2 & E2 & R2 & W2 & P2).
    rewrite Z2Nat.id in E2 by lia. exists (LState g t2). split; [done|]. exists t2.
    replace (Z.to_nat (k + 1)) with (S (Z.to_nat k)) by lia.
    rewrite seq_S, map_app. simpl. split; [done|]. split; [|split].
    - apply (bio_rep_live _ _ _ R2); [|done]. simpl. unfold apply_writes. by rewrite foldl_app.
    - by rewrite W2, W, <- app_assoc.
    - by rewrite P2. }
  destruct HI as (t' & -> & R & W & P). rewrite Z.add_0_l, Nat2Z.id in R, W.
  by exists t'.
Qed.

Lemma apply_writes_app ws ws' d : apply_writes (ws ++ ws') d = apply_writes ws' (apply_writes ws d).
Proof. unfold apply_writes. by rewrite foldl_app. Qed.

(** Two calls in sequence. *)
Lemma iter_seq m1 m2 g t d l1 l2 l3 ws1 ws2 :
  iter_post m1 g t (ACache d l1) ws1 l2 ->
  (forall t', bio_rep t' (ACache (apply_writes ws1 d) l2) ->
     iter_post m2 g t' (ACache (apply_writes ws1 d) l2) ws2 l3) ->
  iter_post (m1 ;; m2) g t (ACache d l1) (ws1 ++ ws2) l3.
Proof.
  intros (t1 & E1 & R1 & W1 & P1) Hm2. destruct (Hm2 t1 R1) as (t2 & E2 & R2 & W2 & P2).
  exists t2. split; [by erewrite bind_Ok by done|]. rewrite apply_writes_app.
  split; [done|]. by rewrite W2, W1, P2, app_assoc.
Qed.

End steps.
