(* ===== verification/LogCrash.v ===== *)
(** * Crash atomicity of the log

   What commit() writes and in which order, what initlog() makes of the disk
   after a power failure at any point of it, and that recovery may itself be
   interrupted.  A crash is a prefix of the list of block writes: the buffer
   cache and the in-memory log are gone, the blocks already written stay. *)

From stdpp Require Import base numbers list gmap sets strings.
From Stdlib Require Import ZArith Lia.
From S2P Require Import Prelude Params Sleeplock Ring Bio Log LogSpec.

(** The header block and the log blocks. *)
Definition in_log (start b : Z) : Prop := start <= b <= start + LOGBLOCKS.
#[global] Instance in_log_dec start b : Decision (in_log start b) := _.

(** The blocks a transaction may name: off the log, at most as many as the
    header has room for, each once. *)
Record tx_ok (start : Z) (B : list Z) : Prop := {
  tx_start : 0 <= start /\ start + LOGBLOCKS < 2 ^ 31;
  tx_len : (length B <= Z.to_nat LOGBLOCKS)%nat;
  tx_nodup : NoDup B;
  tx_block : forall b, b ∈ B -> 0 <= b < 2 ^ 31 /\ ~ in_log start b
}.

(** The block writes of commit(), in order: the log blocks, the header, the
    home blocks, the cleared header. *)
Definition log_copy (start : Z) (B : list Z) (c : Z -> list Z) (i : nat) : Z * list Z :=
  (start + Z.of_nat i + 1, c (B !!! i)).
Definition home_copy (B : list Z) (c : Z -> list Z) (i : nat) : Z * list Z := (B !!! i, c (B !!! i)).
Definition commit_writes (start : Z) (B : list Z) (c : Z -> list Z) (old : list Z) : list (Z * list Z) :=
  map (log_copy start B c) (seq 0 (length B)) ++
  [(start, hdr_image B old)] ++
  map (home_copy B c) (seq 0 (length B)) ++
  [(start, hdr_image [] (hdr_image B old))].

(** The block writes of recovery on disk [d]. *)
Definition hdr_blocks (h : list Z) : list Z :=
  map (fun k => hdr_block k h) (seq 0 (Z.to_nat (hdr_n h))).
Definition redo_copy (start : Z) (d : gmap Z (list Z)) (i : nat) : Z * list Z :=
  (hdr_blocks (disk_block d start) !!! i, disk_block d (start + Z.of_nat i + 1)).
Definition recovery_writes (start : Z) (d : gmap Z (list Z)) : list (Z * list Z) :=
  let h := disk_block d start in
  map (redo_copy start d) (seq 0 (length (hdr_blocks h))) ++ [(start, hdr_image [] h)].

(** The buffers the log keeps pinned: every block of [B], with contents [c],
    unlocked and with the log's one reference. *)
Definition pins (live : gmap Z abuf) (B : list Z) (c : Z -> list Z) : Prop :=
  forall b, live !! b = if decide (b ∈ B) then Some (ABuf (c b) false 1) else None.

(* ------------------------------------------------------------------ *)
(** ** Disks after a list of writes *)

Lemma apply_writes_notin ws d b :
  b ∉ ws.*1 -> disk_block (apply_writes ws d) b = disk_block d b.
Proof.
  revert d. induction ws as [|[a x] ws IH]; intros d Hb; simpl; [done|].
  change (apply_writes _ _) with (apply_writes ws (<[a := x]> d)).
  rewrite IH by set_solver. apply disk_block_insert_ne. set_solver.
Qed.

Lemma apply_writes_in ws d b x :
  NoDup ws.*1 -> (b, x) ∈ ws -> disk_block (apply_writes ws d) b = x.
Proof.
  revert d. induction ws as [|[a y] ws IH]; intros d Hnd Hin; [set_solver|].
  change (apply_writes _ _) with (apply_writes ws (<[a := y]> d)).
  apply NoDup_cons in Hnd as [Ha Hnd]. apply elem_of_cons in Hin as [Hin|Hin].
  - injection Hin as -> ->. rewrite apply_writes_notin by done. apply disk_block_insert.
  - by apply IH.
Qed.

Lemma apply_writes_last ws d b x : disk_block (apply_writes (ws ++ [(b, x)]) d) b = x.
Proof. rewrite apply_writes_app. apply disk_block_insert. Qed.

(** Blocks that only ever receive one value. *)
Lemma apply_writes_const ws d b x :
  b ∈ ws.*1 -> (forall y, (b, y) ∈ ws -> y = x) -> disk_block (apply_writes ws d) b = x.
Proof.
  revert d. induction ws as [|[a y] ws IH] using rev_ind; intros d Hb Hx; [set_solver|].
  rewrite apply_writes_app. destruct (decide (a = b)) as [->|Hne].
  - rewrite (Hx y) by set_solver. apply disk_block_insert.
  - simpl. rewrite disk_block_insert_ne by done. apply IH; set_solver.
Qed.

Section keys.
Context (start : Z) (B : list Z) (c : Z -> list Z) (Htx : tx_ok start B).

Lemma B_at i : (i < length B)%nat -> B !! i = Some (B !!! i).
Proof. intros. by apply list_lookup_lookup_total_lt. Qed.
Lemma B_in i : (i < length B)%nat -> B !!! i ∈ B.
Proof. intros. by apply list_elem_of_lookup_2 with i, B_at. Qed.

Lemma log_copy_keys b k :
  (k <= length B)%nat -> b ∈ (map (log_copy start B c) (seq 0 k)).*1 -> in_log start b /\ b <> start.
Proof.
  pose proof (tx_len _ _ Htx). rewrite <- list_fmap_compose. intros Hk (i & -> & Hi)%list_elem_of_fmap.
  apply elem_of_seq in Hi. unfold in_log. simpl. lia.
Qed.

Lemma home_copy_keys b k :
  (k <= length B)%nat -> b ∈ (map (home_copy B c) (seq 0 k)).*1 -> b ∈ B.
Proof.
  rewrite <- list_fmap_compose. intros Hk (i & -> & Hi)%list_elem_of_fmap.
  apply elem_of_seq in Hi. apply B_in. lia.
Qed.

Lemma log_copy_at d i k :
  (i < k)%nat ->
  disk_block (apply_writes (map (log_copy start B c) (seq 0 k)) d) (start + Z.of_nat i + 1) = c (B !!! i).
Proof.
  intros Hi. apply apply_writes_const.
  - rewrite <- list_fmap_compose. apply list_elem_of_fmap. exists i. split; [done|].
    apply elem_of_seq. lia.
  - intros y (j & [= ? ->] & _)%list_elem_of_fmap. by replace i with j by lia.
Qed.

Lemma home_copy_at d b k :
  (k = length B)%nat -> b ∈ B ->
  disk_block (apply_writes (map (home_copy B c) (seq 0 k)) d) b = c b.
Proof.
  intros -> Hb. apply apply_writes_const.
  - rewrite <- list_fmap_compose. apply list_elem_of_lookup in Hb as [i Hi].
    apply list_elem_of_fmap. exists i. split; [simpl; by rewrite (list_lookup_total_correct _ _ _ Hi)|].
    apply elem_of_seq. apply lookup_lt_Some in Hi. lia.
  - by intros y (j & [= -> ->] & _)%list_elem_of_fmap.
Qed.

End keys.

(* ------------------------------------------------------------------ *)
(** ** commit() *)

Section commit.
Context `{WakeBudget} (g : log) (B : list Z) (c : Z -> list Z).
Hypothesis Htx : tx_ok (lg_start g) B.
Hypothesis Hdev : lg_dev g = ROOTDEV.
Hypothesis HB : take (length B) (lh_block g) = B.
Hypothesis Hroom : (length B < HEAD)%nat.

Local Notation start := (lg_start g).

(** The live buffers once [i] pins have been dropped. *)
Definition unpinned (live : gmap Z abuf) (i : nat) : gmap Z abuf :=
  foldl (fun m b => delete b m) live (take i B).

Lemma unpinned_S live i : (i < length B)%nat ->
  unpinned live (S i) = delete (B !!! i) (unpinned live i).
Proof.
  intros Hi. unfold unpinned. rewrite (take_S_r _ _ (B !!! i)) by (by apply B_at).
  by rewrite foldl_app.
Qed.

Lemma unpinned_lookup live i b :
  unpinned live i !! b = if decide (b ∈ take i B) then None else live !! b.
Proof.
  unfold unpinned. induction (take i B) as [|x l IH] using rev_ind; [done|].
  rewrite foldl_app. simpl. destruct (decide (b = x)) as [->|Hne].
  - rewrite lookup_delete_eq. by rewrite decide_True by set_solver.
  - rewrite lookup_delete_ne, IH by done. by repeat case_decide; set_solver.
Qed.

Lemma unpinned_at live i j :
  (i <= j < length B)%nat -> unpinned live i !! (B !!! j) = live !! (B !!! j).
Proof.
  intros Hj. rewrite unpinned_lookup. rewrite decide_False; [done|].
  intros (k & Hk & Hlt)%elem_of_take. pose proof (tx_nodup _ _ Htx) as Hnd.
  pose proof (NoDup_lookup _ _ _ _ Hnd Hk (B_at B j ltac:(lia))). lia.
Qed.

Lemma pins_size live : pins live B c -> size live = length B.
Proof.
  intros Hp. rewrite <- size_dom. rewrite <- (size_list_to_set (C := gset Z) B) by apply Htx.
  f_equal. apply leibniz_equiv. intros b. rewrite elem_of_dom, elem_of_list_to_set, Hp.
  case_decide; split; done || by intros [].
Qed.

Lemma unpinned_size live i : pins live B c -> (size (unpinned live i) < HEAD)%nat.
Proof.
  intros Hp. rewrite <- (pins_size live Hp) in Hroom. eapply Nat.le_lt_trans; [|exact Hroom].
  unfold unpinned. generalize (take i B) as l. intros l. induction l as [|x l IH] using rev_ind; [done|].
  rewrite foldl_app. simpl. rewrite <- IH. apply map_subseteq_size. apply delete_subseteq.
Qed.

Lemma pins_off_log live b : pins live B c -> in_log start b -> live !! b = None.
Proof.
  intros Hp Hb. rewrite Hp. case_decide as Hin; [|done]. by destruct (tx_block _ _ Htx b Hin).
Qed.

Lemma log_block_range i : (i < length B)%nat ->
  0 <= start + Z.of_nat i + 1 < 2 ^ 32 /\ in_log start (start + Z.of_nat i + 1).
Proof.
  pose proof (tx_len _ _ Htx). pose proof (tx_start _ _ Htx) as [? ?]. unfold in_log. lia.
Qed.

Lemma lh_at i : (i < length B)%nat -> lh_block g !! Z.to_nat (Z.of_nat i) = Some (B !!! i).
Proof.
  intros Hi. rewrite Nat2Z.id. rewrite <- (lookup_take_lt _ (length B)) by done. rewrite HB.
  by apply B_at.
Qed.

Lemma write_log_spec t d live :
  lh_n g = Z.of_nat (length B) -> pins live B c -> bio_rep t (ACache d live) ->
  iter_post write_log g t (ACache d live) (map (log_copy start B c) (seq 0 (length B))) live.
Proof.
  intros Hn Hp Hr. unfold write_log, iter_post. erewrite bind_Ok by done. simpl. rewrite Hn, Nat2Z.id.
  apply (iter_loop g write_log_one _ (fun _ => live)); [done|].
  intros i t' Hi A Hr'. destruct (log_block_range i Hi) as [Hrng Hlog].
  destruct (tx_block _ _ Htx (B !!! i) (B_in B i Hi)) as [? Hoff].
  apply (write_log_one_spec g t' A (Z.of_nat i) (B !!! i)); try done; try lia.
  - by apply lh_at.
  - unfold A. simpl. rewrite Hp. rewrite decide_True; [done|by apply B_in].
  - by apply pins_off_log.
  - simpl. by rewrite (pins_size live Hp).
Qed.

Lemma install_pins_spec t d live :
  lh_n g = Z.of_nat (length B) -> pins live B c -> bio_rep t (ACache d live) ->
  (forall i, (i < length B)%nat -> disk_block d (start + Z.of_nat i + 1) = c (B !!! i)) ->
  iter_post (install_trans false) g t (ACache d live) (map (home_copy B c) (seq 0 (length B))) ∅.
Proof.
  intros Hn Hp Hr Hd. unfold install_trans, iter_post. erewrite bind_Ok by done.
  simpl. rewrite Hn, Nat2Z.id.
  replace (∅ : gmap Z abuf) with (unpinned live (length B)).
  2: { apply map_eq. intros b. rewrite unpinned_lookup, firstn_all, Hp, lookup_empty.
       by case_decide. }
  change live with (unpinned live 0). apply (iter_loop g (install_one false) _ (unpinned live)); [done|].
  intros i t' Hi A Hr'. destruct (log_block_range i Hi) as [Hrng Hlog].
  destruct (tx_block _ _ Htx (B !!! i) (B_in B i Hi)) as [? Hoff].
  assert (home_copy B c i = (B !!! i, disk_block (a_disk A) (lg_start g + Z.of_nat i + 1))) as ->.
  { unfold home_copy, A. simpl. f_equal. rewrite apply_writes_notin; [by rewrite Hd|].
    intros Hin%home_copy_keys; [|lia]. by destruct (tx_block _ _ Htx _ Hin). }
  rewrite unpinned_S by done.
  apply (install_one_spec false g t' A (Z.of_nat i) (B !!! i) (c (B !!! i))); try done; try lia.
  - by apply lh_at.
  - intros Heq. apply Hoff. by rewrite Heq.
  - unfold A. simpl. rewrite unpinned_at by lia. rewrite Hp.
    by rewrite decide_True by (by apply B_in).
  - unfold A. simpl. rewrite unpinned_lookup. case_decide; [done|]. by apply pins_off_log.
  - unfold A. cbn [a_live]. rewrite Nat.add_0_r. by apply unpinned_size.
Qed.

(** commit() performs exactly [commit_writes], releases every pin and leaves
    the in-memory log empty. *)
Lemma commit_spec t d live :
  lh_n g = Z.of_nat (length B) -> B <> [] -> pins live B c -> bio_rep t (ACache d live) ->
  let ws := commit_writes start B c (disk_block d start) in
  exists t', commit (LState g t) = Ok tt (set_n 0 (LState g t')) /\
    bio_rep t' (ACache (apply_writes ws d) ∅) /\
    bc_writes t' = bc_writes t ++ ws /\ bc_pid t' = bc_pid t.
Proof.
  intros Hn Hne Hp Hr ws. pose proof (tx_start _ _ Htx) as [? ?].
  set (ws1 := map (log_copy start B c) (seq 0 (length B))).
  set (h := hdr_image B (disk_block d start)).
  assert (disk_block (apply_writes ws1 d) start = disk_block d start) as Hh.
  { apply apply_writes_notin. intros Hin%log_copy_keys; [|done..]. naive_solver. }
  assert (in_log start start) as Hs by (unfold in_log, LOGBLOCKS, MAXOPBLOCKS; lia).
  destruct (iter_seq write_log (write_head ;; install_trans false) g t d live live ∅ ws1
    ([(start, h)] ++ map (home_copy B c) (seq 0 (length B)))) as (t1 & E1 & R1 & W1 & P1).
  { by apply write_log_spec. }
  { intros t' Hr'. eapply iter_seq.
    - unfold h. rewrite <- Hh.
      apply (write_head_spec g t' (ACache (apply_writes ws1 d) live) B); try done; try lia.
      + unfold LOGBLOCKS, MAXOPBLOCKS in *. lia.
      + by apply pins_off_log.
      + simpl. by rewrite (pins_size live Hp).
    - intros t'' Hr''. apply install_pins_spec; [done..|]. intros i Hi. simpl.
      rewrite disk_block_insert_ne by lia. by apply log_copy_at. }
  cbn [a_disk] in R1. set (d1 := apply_writes _ d) in R1.
  assert (disk_block d1 start = h) as Hd1.
  { unfold d1. rewrite !apply_writes_app. rewrite apply_writes_notin; [apply disk_block_insert|].
    intros Hin%home_copy_keys; [|lia]. by destruct (tx_block _ _ Htx _ Hin). }
  destruct (write_head_spec (l_log (set_n 0 (LState g t1))) t1 (ACache d1 ∅) [])
    as (t2 & E2 & R2 & W2 & P2); try done.
  { simpl. unfold LOGBLOCKS, MAXOPBLOCKS in *. lia. }
  { apply Nat.ltb_lt. reflexivity. }
  simpl in E2, R2, W2. rewrite Hd1 in R2, W2.
  assert (ws = (ws1 ++ [(start, h)] ++ map (home_copy B c) (seq 0 (length B))) ++
    [(start, hdr_image [] h)]) as Hws by (unfold ws, commit_writes; by rewrite <- !app_assoc).
  exists t2. split; [|split; [|split]].
  - unfold commit. erewrite bind_Ok by done. simpl. rewrite Hn.
    rewrite (proj2 (Z.gtb_lt _ _)); [|destruct B; [done|simpl; lia]].
    apply bind_Ok_inv in E1 as ([] & s1 & E11 & E1). apply bind_Ok_inv in E1 as ([] & s2 & E12 & E13).
    erewrite bind_Ok by done. erewrite bind_Ok by done. erewrite bind_Ok by done.
    by erewrite bind_Ok by done.
  - rewrite Hws, apply_writes_app. exact R2.
  - rewrite Hws, W2, W1. by rewrite <- !app_assoc.
  - by rewrite P2.
Qed.

End commit.

(* ------------------------------------------------------------------ *)
(** ** Recovery *)

(** Reboot: empty buffer cache, zeroed log, then initlog(). *)
Definition reboot `{WakeBudget} (start : Z) : M lstate unit :=
  zoom L_bio binit ;; initlog ROOTDEV start.

(** A disk whose header initlog() can replay. *)
Definition header_ok (start : Z) (d : gmap Z (list Z)) : Prop :=
  0 <= hdr_n (disk_block d start) /\ tx_ok start (hdr_blocks (disk_block d start)).

Section recovery.
Context `{WakeBudget} (start : Z) (d : gmap Z (list Z)) (Hok : header_ok start d).

Local Notation h := (disk_block d start).
Local Notation B := (hdr_blocks h).

Lemma length_hdr_blocks : Z.of_nat (length B) = hdr_n h.
Proof. unfold hdr_blocks. rewrite length_map, length_seq. destruct Hok. lia. Qed.

Lemma install_redo_spec g t :
  lg_dev g = ROOTDEV -> lg_start g = start -> lh_n g = hdr_n h ->
  (forall k, (k < Z.to_nat (hdr_n h))%nat -> lh_block g !! k = Some (hdr_block k h)) ->
  bio_rep t (ACache d ∅) ->
  iter_post (install_trans true) g t (ACache d ∅) (map (redo_copy start d) (seq 0 (length B))) ∅.
Proof.
  intros Hdev Hst Hn Hbl Hr. destruct Hok as [Hn0 Htx]. pose proof length_hdr_blocks as Hlen.
  unfold install_trans, iter_post. erewrite bind_Ok by done. simpl. rewrite Hn.
  replace (Z.to_nat (hdr_n h)) with (length B) by lia.
  apply (iter_loop g (install_one true) _ (fun _ => ∅)); [done|].
  intros i t' Hi A Hr'. destruct (tx_block _ _ Htx (B !!! i) (B_in B i Hi)) as [? Hoff].
  assert (0 <= start + Z.of_nat i + 1 < 2 ^ 32 /\ in_log start (start + Z.of_nat i + 1)) as [? Hlog].
  { pose proof (tx_len _ _ Htx). pose proof (tx_start _ _ Htx) as [? ?]. unfold in_log. lia. }
  assert (lh_block g !! i = Some (B !!! i)) as Hbi.
  { rewrite Hbl by lia. f_equal. symmetry. apply list_lookup_total_correct. unfold hdr_blocks.
    rewrite list_lookup_fmap, lookup_seq_lt by lia. done. }
  replace [redo_copy start d i] with [(B !!! i, disk_block (a_disk A) (lg_start g + Z.of_nat i + 1))].
  2: { unfold redo_copy, A. simpl. rewrite Hst. rewrite apply_writes_notin; [done|].
       rewrite <- list_fmap_compose. intros (j & Heq & Hj)%list_elem_of_fmap. simpl in Heq.
       apply elem_of_seq in Hj. destruct (tx_block _ _ Htx (B !!! j) (B_in B j ltac:(lia))) as [_ Ho].
       by rewrite <- Heq in Ho. }
  rewrite <- (delete_empty (B !!! i)).
  apply (install_one_spec true g t' A (Z.of_nat i) (B !!! i) []); rewrite ?Hst; try done; try lia.
  - by rewrite Nat2Z.id.
  - intros Heq. apply Hoff. by rewrite Heq.
  - apply Nat.ltb_lt. reflexivity.
Qed.

(** initlog() after a reboot on disk [d] returns, having performed exactly
    [recovery_writes]. *)
Lemma reboot_log pid :
  exists bl t, reboot start (boot_log (boot_bio d pid)) =
      Ok tt (LState (Log false start 0 false ROOTDEV 0 bl) t) /\
    bio_rep t (ACache (apply_writes (recovery_writes start d) d) ∅) /\
    bc_writes t = recovery_writes start d /\ length bl = Z.to_nat LOGBLOCKS.
Proof.
  destruct Hok as [Hn0 Htx]. pose proof length_hdr_blocks as Hlen.
  pose proof (tx_start _ _ Htx) as [Hs0 Hs1]. pose proof (tx_len _ _ Htx) as Hmax.
  unfold LOGBLOCKS, MAXOPBLOCKS in Hs1, Hmax.
  destruct (binit_spec d pid) as (t & E & R & P & W & _).
  set (g := Log false start 0 false ROOTDEV 0 (replicate (Z.to_nat LOGBLOCKS) 0)).
  destruct (read_head_spec g t (ACache d ∅)) as (bl & t1 & E1 & Hbl1 & Hbl & R1 & W1 & P1);
    simpl; try done; try lia.
  { apply Nat.ltb_lt. reflexivity. }
  simpl in E1, Hbl.
  set (g1 := Log false start 0 false ROOTDEV (hdr_n h) bl) in *.
  destruct (install_redo_spec g1 t1) as (t2 & E2 & R2 & W2 & P2); try done.
  cbn [a_disk] in R2. set (d2 := apply_writes _ d) in R2.
  assert (disk_block d2 start = h) as Hd2.
  { unfold d2. apply apply_writes_notin. rewrite <- list_fmap_compose.
    intros (j & Heq & Hj)%list_elem_of_fmap. simpl in Heq. apply elem_of_seq in Hj.
    destruct (tx_block _ _ Htx (B !!! j) (B_in B j ltac:(lia))) as [_ Ho]. rewrite <- Heq in Ho.
    apply Ho. unfold in_log, LOGBLOCKS, MAXOPBLOCKS. lia. }
  destruct (write_head_spec (l_log (set_n 0 (LState g1 t2))) t2 (ACache d2 ∅) [])
    as (t3 & E3 & R3 & W3 & P3); try done; simpl; try lia.
  { apply Nat.ltb_lt. reflexivity. }
  simpl in E3, R3, W3. rewrite Hd2 in R3, W3.
  exists bl, t3. split; [|split; [|split]].
  - unfold reboot. erewrite bind_Ok by (by apply z_Ok). unfold initlog. simpl.
    do 2 erewrite bind_Ok by done. simpl. rewrite (i32_small start) by lia.
    unfold recover_from_log.
    erewrite bind_Ok by (exact E1). erewrite bind_Ok by (exact E2).
    erewrite bind_Ok by done. exact E3.
  - unfold recovery_writes. rewrite apply_writes_app. exact R3.
  - unfold recovery_writes. by rewrite W3, W2, W1, W.
  - done.
Qed.

Lemma reboot_spec pid :
  exists s, reboot start (boot_log (boot_bio d pid)) = Ok tt s /\
    bc_disk (l_bio s) = apply_writes (recovery_writes start d) d /\
    bc_writes (l_bio s) = recovery_writes start d.
Proof.
  destruct (reboot_log pid) as (bl & t & E & R & W & _). eexists. split; [exact E|].
  split; [apply (r_disk _ _ R)|done].
Qed.

End recovery.

(* ------------------------------------------------------------------ *)
(** ** What recovery leaves on the disk *)

(** The disk a transaction promises: the blocks [B] hold [c]. *)
Definition tx_view (d : gmap Z (list Z)) (B : list Z) (c : Z -> list Z) (b : Z) : list Z :=
  if decide (b ∈ B) then c b else disk_block d b.

Lemma hdr_blocks_image B old :
  (4 + 4 * length B <= length old)%nat -> (length B <= Z.to_nat LOGBLOCKS)%nat ->
  (forall b, b ∈ B -> 0 <= b < 2 ^ 31) -> hdr_blocks (hdr_image B old) = B.
Proof.
  intros Hold Hlen Hb. unfold LOGBLOCKS, MAXOPBLOCKS in Hlen. unfold hdr_blocks.
  rewrite hdr_n_image by lia. rewrite Nat2Z.id. apply list_eq. intros k.
  destruct (decide (k < length B)%nat) as [Hk|Hk].
  - rewrite list_lookup_fmap, lookup_seq_lt by done. simpl. rewrite (B_at B k Hk). f_equal.
    apply hdr_block_image; [done|by apply B_at|]. by apply Hb, B_in.
  - rewrite !lookup_ge_None_2; [done|lia|rewrite length_map, length_seq; lia].
Qed.

Lemma hdr_blocks_clear h : (4 <= length h)%nat -> hdr_blocks (hdr_image [] h) = [].
Proof. intros Hh. unfold hdr_blocks. by rewrite hdr_n_image. Qed.

Section views.
Context (start : Z) (d : gmap Z (list Z)).

Lemma recovery_view_out b :
  ~ in_log start b -> b ∉ hdr_blocks (disk_block d start) ->
  disk_block (apply_writes (recovery_writes start d) d) b = disk_block d b.
Proof.
  intros Hlog Hb. apply apply_writes_notin. unfold recovery_writes. rewrite fmap_app.
  intros [Hin|Hin]%elem_of_app.
  - rewrite <- list_fmap_compose in Hin. apply list_elem_of_fmap in Hin as (j & -> & Hj).
    apply elem_of_seq in Hj. apply Hb, B_in. lia.
  - apply list_elem_of_singleton in Hin as ->. apply Hlog.
    unfold in_log, LOGBLOCKS, MAXOPBLOCKS. simpl. lia.
Qed.

Lemma recovery_view_in i b :
  tx_ok start (hdr_blocks (disk_block d start)) ->
  hdr_blocks (disk_block d start) !! i = Some b ->
  disk_block (apply_writes (recovery_writes start d) d) b = disk_block d (start + Z.of_nat i + 1).
Proof.
  intros Htx Hi. pose proof (list_elem_of_lookup_2 _ _ _ Hi) as Hin.
  destruct (tx_block _ _ Htx b Hin) as [_ Hoff].
  assert (b <> start) as Hne.
  { intros ->. apply Hoff. unfold in_log, LOGBLOCKS, MAXOPBLOCKS. lia. }
  unfold recovery_writes. rewrite apply_writes_app. simpl. rewrite disk_block_insert_ne by done.
  apply apply_writes_const.
  - rewrite <- list_fmap_compose. apply list_elem_of_fmap. exists i.
    split; [simpl; by rewrite (list_lookup_total_correct _ _ _ Hi)|].
    apply elem_of_seq. apply lookup_lt_Some in Hi. lia.
  - intros y (j & [= -> ->] & Hj)%list_elem_of_fmap. apply elem_of_seq in Hj.
    pose proof (NoDup_lookup _ _ _ _ (tx_nodup _ _ Htx) Hi (B_at (hdr_blocks (disk_block d start)) j ltac:(lia))) as ->. done.
Qed.

End views.

(** A disk on which the header is clear: recovery changes no file block. *)
Lemma tx_ok_nil start : 0 <= start /\ start + LOGBLOCKS < 2 ^ 31 -> tx_ok start [].
Proof. intros. split; [done|simpl; lia|constructor|set_solver]. Qed.

Lemma hdr_blocks_0 h : hdr_n h = 0 -> hdr_blocks h = [].
Proof. unfold hdr_blocks. by intros ->. Qed.

Lemma start_in_log start : in_log start start.
Proof. unfold in_log, LOGBLOCKS, MAXOPBLOCKS. lia. Qed.

(** The three kinds of disk a crash in commit() leaves. *)
Section crash.
Context (start : Z) (d : gmap Z (list Z)) (B : list Z) (c : Z -> list Z).
Hypothesis Htx : tx_ok start B.
Hypothesis Hlen : length (disk_block d start) = Z.to_nat BSIZE.
Hypothesis Hclear : hdr_n (disk_block d start) = 0.

Local Notation n := (length B).
Local Notation old := (disk_block d start).

Lemma crash_before k :
  (k <= n)%nat ->
  let dk := apply_writes (map (log_copy start B c) (seq 0 k)) d in
  header_ok start dk /\
  forall b, ~ in_log start b -> disk_block (apply_writes (recovery_writes start dk) dk) b = disk_block d b.
Proof.
  intros Hk dk.
  assert (disk_block dk start = old) as Hh.
  { apply apply_writes_notin. intros Hin%log_copy_keys; naive_solver. }
  split.
  - unfold header_ok. rewrite Hh, Hclear, hdr_blocks_0 by done. split; [done|].
    apply tx_ok_nil, Htx.
  - intros b Hb. rewrite recovery_view_out; [|done|by rewrite Hh, hdr_blocks_0; [apply not_elem_of_nil|]].
    apply apply_writes_notin. intros Hin%log_copy_keys; naive_solver.
Qed.

Lemma disk_block_singleton b x : disk_block {[ b := x ]} b = x.
Proof. unfold disk_block. by rewrite lookup_singleton_eq. Qed.

Lemma image_ok : header_ok start {[ start := hdr_image B old ]} /\ hdr_blocks (hdr_image B old) = B.
Proof.
  pose proof (tx_len _ _ Htx) as Hl. assert (hdr_blocks (hdr_image B old) = B) as HB.
  { apply hdr_blocks_image; [|done|intros b Hb; apply (tx_block _ _ Htx b Hb)].
    rewrite Hlen. unfold LOGBLOCKS, MAXOPBLOCKS, BSIZE in *. lia. }
  split; [|done]. unfold header_ok. rewrite disk_block_singleton, HB.
  split; [|done]. unfold LOGBLOCKS, MAXOPBLOCKS, BSIZE in *. rewrite hdr_n_image; [lia|by rewrite Hlen; lia|lia].
Qed.

Lemma header_ok_ext d1 d2 :
  disk_block d1 start = disk_block d2 start -> header_ok start d1 -> header_ok start d2.
Proof. unfold header_ok. by intros ->. Qed.

Lemma crash_after j :
  (j <= n)%nat ->
  let dk := apply_writes (map (log_copy start B c) (seq 0 n) ++ [(start, hdr_image B old)] ++
                          map (home_copy B c) (seq 0 j)) d in
  header_ok start dk /\
  forall b, ~ in_log start b -> disk_block (apply_writes (recovery_writes start dk) dk) b = tx_view d B c b.
Proof.
  intros Hj dk. destruct image_ok as [Himg HB].
  assert (forall b, in_log start b -> b ∉ (map (home_copy B c) (seq 0 j)).*1) as Hhome.
  { intros b Hb Hin%home_copy_keys; [|done]. by destruct (tx_block _ _ Htx b Hin). }
  assert (disk_block dk start = hdr_image B old) as Hh.
  { unfold dk. rewrite !apply_writes_app.
    rewrite apply_writes_notin by (apply Hhome, start_in_log). apply disk_block_insert. }
  split.
  { eapply header_ok_ext; [|exact Himg]. by rewrite Hh, disk_block_singleton. }
  intros b Hb. unfold tx_view. destruct (decide (b ∈ B)) as [Hin|Hout].
  - apply list_elem_of_lookup in Hin as [i Hi]. pose proof (lookup_lt_Some _ _ _ Hi).
    rewrite (recovery_view_in _ _ i); [|by rewrite Hh, HB..].
    pose proof (tx_len _ _ Htx). unfold dk. rewrite !apply_writes_app.
    rewrite apply_writes_notin by (apply Hhome; unfold in_log; lia). simpl.
    rewrite disk_block_insert_ne by lia. rewrite log_copy_at by done.
    by rewrite (list_lookup_total_correct _ _ _ Hi).
  - rewrite recovery_view_out; [|done|by rewrite Hh, HB]. apply apply_writes_notin.
    rewrite !fmap_app. intros [Hin%log_copy_keys|[Hin|Hin%home_copy_keys]%elem_of_app]%elem_of_app;
      try done; try naive_solver.
    apply list_elem_of_singleton in Hin as ->. apply Hb, start_in_log.
Qed.

Lemma crash_done :
  let dk := apply_writes (commit_writes start B c old) d in
  header_ok start dk /\
  forall b, ~ in_log start b -> disk_block (apply_writes (recovery_writes start dk) dk) b = tx_view d B c b.
Proof.
  intros dk. set (h0 := hdr_image [] (hdr_image B old)).
  assert (disk_block dk start = h0) as Hh.
  { unfold dk, commit_writes. rewrite !apply_writes_app. apply disk_block_insert. }
  assert (4 <= length (hdr_image B old))%nat as H4.
  { rewrite length_hdr_image, Hlen. unfold BSIZE. lia. }
  assert (hdr_blocks h0 = []) as H0 by (by apply hdr_blocks_clear).
  split.
  - unfold header_ok. rewrite Hh, H0. unfold h0. rewrite hdr_n_image by (simpl; lia).
    split; [done|]. apply tx_ok_nil, Htx.
  - intros b Hb. rewrite recovery_view_out; [|done|rewrite Hh, H0; apply not_elem_of_nil].
    assert (b <> start) by (intros ->; apply Hb, start_in_log).
    unfold dk, commit_writes, tx_view. rewrite !apply_writes_app. simpl. rewrite disk_block_insert_ne by done.
    case_decide; [by apply home_copy_at|].
    rewrite apply_writes_notin by (by intros ?%home_copy_keys). simpl.
    rewrite disk_block_insert_ne by done. apply apply_writes_notin. intros Hin%log_copy_keys; naive_solver.
Qed.

(** Whatever prefix of commit()'s writes reached the disk, the header can be
    replayed, and the file blocks are all old or all new. *)
Lemma crash_any k :
  let dk := apply_writes (take k (commit_writes start B c old)) d in
  header_ok start dk /\
  forall b, ~ in_log start b ->
    disk_block (apply_writes (recovery_writes start dk) dk) b =
    if decide (k <= n)%nat then disk_block d b else tx_view d B c b.
Proof.
  set (l1 := map (log_copy start B c) (seq 0 n)). set (l2 := map (home_copy B c) (seq 0 n)).
  assert (length l1 = n /\ length l2 = n) as [L1 L2] by (unfold l1, l2; rewrite !length_map, !length_seq; done).
  destruct (decide (k <= n)%nat) as [Hk|Hk].
  - assert (take k (commit_writes start B c old) = map (log_copy start B c) (seq 0 k)) as ->.
    { unfold commit_writes. fold l1. rewrite take_app_le by lia. unfold l1.
      rewrite firstn_map, take_seq. by rewrite Nat.min_l by lia. }
    by apply crash_before.
  - destruct (decide (k <= n + 1 + n)%nat) as [Hk2|Hk2].
    + assert (take k (commit_writes start B c old) =
        l1 ++ [(start, hdr_image B old)] ++ map (home_copy B c) (seq 0 (k - n - 1))) as ->.
      { unfold commit_writes. fold l1 l2. rewrite take_app_ge by lia. rewrite L1. f_equal.
        replace (k - n)%nat with (S (k - n - 1)) by lia. simpl. f_equal.
        rewrite take_app_le by lia. unfold l2. rewrite firstn_map, take_seq.
        do 2 f_equal. lia. }
      apply crash_after. lia.
    + rewrite take_ge; [by apply crash_done|].
      unfold commit_writes. rewrite !length_app, !length_map, !length_seq. simpl. lia.
Qed.

End crash.
