(* ===== verification/LogTx.v ===== *)
(** * Transactions

   log_write() and end_op() against the buffer cache, the transaction of one
   system call as the comment above log_write() prescribes it, and the
   theorems of the log: atomicity under crashes, recovery that may be
   interrupted, absorption, admission control, and the size at which commit()
   runs out of buffers. *)

From stdpp Require Import base numbers list gmap sets strings.
From Stdlib Require Import ZArith Lia.
From S2P Require Import Prelude Params Sleeplock Ring Bio Log LogSpec LogCrash.

(** "A typical use is: bp = bread(...); modify bp->data[]; log_write(bp);
    brelse(bp)". *)
Definition tx_put `{WakeBudget} (u : Z * list Z) : M lstate unit :=
  let* bp := zoom L_bio (bread ROOTDEV u.1) in
  zoom L_bio (bset bp u.2) ;;
  log_write bp ;;
  zoom L_bio (brelse bp).

Definition tx_puts `{WakeBudget} (ups : list (Z * list Z)) : M lstate unit :=
  foldr (fun u m => tx_put u ;; m) (ret tt) ups.

Definition transaction `{WakeBudget} (ups : list (Z * list Z)) : M lstate unit :=
  begin_op ;; tx_puts ups ;; end_op.

(** The in-memory header names the blocks [B]. *)
Record log_ok (g : log) (B : list Z) : Prop := {
  lo_dev : lg_dev g = ROOTDEV;
  lo_n : lh_n g = Z.of_nat (length B);
  lo_len : length (lh_block g) = Z.to_nat LOGBLOCKS;
  lo_block : take (length B) (lh_block g) = B
}.

(** [log_add B b]: the blocks after log_write() of [b]; a block already
    there is absorbed. *)
Definition log_add (B : list Z) (b : Z) : list Z := if decide (b ∈ B) then B else B ++ [b].

Definition same_log (g g' : log) : Prop :=
  lg_lock g' = lg_lock g /\
  lg_start g' = lg_start g /\ lg_outstanding g' = lg_outstanding g /\ lg_committing g' = lg_committing g.

Lemma log_ok_at g B k b : log_ok g B -> B !! k = Some b -> lh_block g !! k = Some b.
Proof.
  intros Hg Hk. pose proof (lookup_lt_Some _ _ _ Hk).
  rewrite <- (lookup_take_lt _ (length B)) by done. by rewrite (lo_block _ _ Hg).
Qed.

Lemma log_ok_cap g B : log_ok g B -> (length B <= Z.to_nat LOGBLOCKS)%nat.
Proof.
  intros Hg. rewrite <- (lo_len _ _ Hg). rewrite <- (lo_block _ _ Hg) at 1. rewrite length_take. lia.
Qed.

Section log_write.
Context `{WakeBudget} (B : list Z).
Hypothesis Hb : forall b, b ∈ B -> 0 <= b < 2 ^ 31.

Lemma log_index_spec g t b k i :
  log_ok g B -> (i + k = length B)%nat -> b ∉ take i B ->
  exists j, log_index k (Z.of_nat i) b (LState g t) = Ok (Z.of_nat j) (LState g t) /\
    (B !! j = Some b \/ (b ∉ B /\ j = length B)).
Proof.
  intros Hg. revert i. induction k as [|k IH]; intros i Hik Hi; simpl.
  - exists i. split; [done|]. right. rewrite take_ge in Hi by lia. split; [done|lia].
  - destruct (lookup_lt_is_Some_2 B i) as [x Hx]; [lia|].
    pose proof (Hb x (list_elem_of_lookup_2 _ _ _ Hx)) as Hxr.
    erewrite bind_Ok by (apply lh_get_Ok; [lia|rewrite Nat2Z.id; by eapply log_ok_at]).
    rewrite (u32_small x) by lia. destruct (Z.eqb_spec x b) as [->|Hne].
    + exists i. split; [done|by left].
    + replace (Z.of_nat i + 1) with (Z.of_nat (S i)) by lia. apply IH; [lia|].
      rewrite (take_S_r _ _ x) by done. set_solver.
Qed.

Lemma lh_put_Ok g t j b :
  (j < length (lh_block g))%nat ->
  lh_put (Z.of_nat j) b (LState g t) = Ok tt (set_block j b (LState g t)).
Proof.
  intros Hj. unfold lh_put. erewrite bind_Ok by done. simpl.
  rewrite (proj2 (Z.leb_le _ _)), (proj2 (Z.ltb_lt _ _)) by lia. simpl. by rewrite Nat2Z.id.
Qed.

(** log_write() of a held buffer: absorbed if its block is in the log
    already, otherwise appended and pinned. *)
Lemma log_write_spec g t A i b x :
  log_ok g B -> lg_lock g = false ->
  bio_rep t A -> handle t i b -> a_live A !! b = Some x -> 0 <= b < 2 ^ 31 ->
  (length B < Z.to_nat LOGBLOCKS)%nat -> 0 < lg_outstanding g -> ab_ref x + 1 < 2 ^ 32 ->
  exists g' t', log_write i (LState g t) = Ok tt (LState g' t') /\
    log_ok g' (log_add B b) /\ same_log g g' /\
    bio_rep t' (set_live A b (ABuf (ab_data x) (ab_locked x)
                               (ab_ref x + if decide (b ∈ B) then 0 else 1))) /\
    frame t t' /\ handle t' i b /\ bc_writes t' = bc_writes t.
Proof.
  intros Hg Hlk Hr Hh Hx Hbr Hroom Hout Href. pose proof Hh as (_ & _ & Hbn & _).
  destruct g as [lk st o cm dv n bl]. simpl in Hlk, Hout. subst lk.
  destruct Hg as [Hdev Hn Hl Hbl]. simpl in *.
  set (g1 := Log true st o cm dv n bl).
  assert (log_ok g1 B) as Hg1 by done.
  destruct (log_index_spec g1 t b (length B) 0 Hg1 eq_refl (not_elem_of_nil b)) as (j & Ej & Hj).
  assert (j <= length B)%nat as Hjl.
  { destruct Hj as [Hj|[_ ->]]; [|done]. apply lookup_lt_Some in Hj. lia. }
  assert (forall bl' n' t', lock_release L_lg_lock (LState (Log true st o cm dv n' bl') t') =
    Ok tt (LState (Log false st o cm dv n' bl') t')) as Hrel by done.
  assert (log_write i (LState (Log false st o cm dv n bl) t) =
    ((if Z.of_nat j =? n then zoom L_bio (bpin i) ;; modify (fun s => set_n (lh_n (l_log s) + 1) s)
      else ret tt) ;; lock_release L_lg_lock) (LState (Log true st o cm dv n (<[j := b]> bl)) t)) as ->.
  { unfold log_write. erewrite bind_Ok by done. erewrite bind_Ok by done.
    cbn [l_log lh_n lg_outstanding lset L_lg_lock set_log].
    rewrite Z.geb_leb, (proj2 (Z.leb_gt _ _)), (proj2 (Z.ltb_ge _ _)) by lia.
    erewrite bind_Ok by done. simpl. rewrite Hbn, Hn, Nat2Z.id. rewrite <- Hn.
    erewrite bind_Ok by done. rewrite (i32_small b) by lia.
    by erewrite bind_Ok by (apply lh_put_Ok; simpl; lia). }
  destruct Hj as [Hj|[Hout' ->]].
  - pose proof (lookup_lt_Some _ _ _ Hj). pose proof (list_elem_of_lookup_2 _ _ _ Hj) as Hin.
    rewrite (proj2 (Z.eqb_neq _ _)) by lia. erewrite bind_Ok by done. rewrite Hrel.
    rewrite list_insert_id by (by eapply (log_ok_at g1)).
    eexists _, t. split; [done|]. unfold log_add. rewrite !decide_True by done.
    split; [done|]. split; [done|]. rewrite Z.add_0_r. split; [|by split].
    apply (bio_rep_live _ _ _ Hr); [done|]. intros b'. simpl. destruct (decide (b' = b)) as [->|].
    + rewrite lookup_insert_eq, Hx. by destruct x.
    + by rewrite lookup_insert_ne.
  - rewrite (proj2 (Z.eqb_eq _ _)) by lia.
    destruct (bpin_spec t A i b x Hr Hh Hx Href) as (t' & E & R & F & H' & W & _).
    erewrite bind_Ok by (erewrite bind_Ok by (by apply z_Ok); done).
    eexists _, t'. split; [apply Hrel|]. unfold log_add. rewrite !decide_False by done.
    split; [|by split]. split; simpl; try done.
    + rewrite length_app. simpl. lia.
    + by rewrite length_insert.
    + rewrite length_app. simpl. rewrite Nat.add_1_r. rewrite (take_S_r _ _ b).
      * by rewrite take_insert_ge, Hbl by lia.
      * rewrite list_lookup_insert_eq by lia. done.
Qed.

End log_write.

(** A transaction's updates, seen as block contents. *)
Definition put_view (c : Z -> list Z) (u : Z * list Z) : Z -> list Z :=
  fun b => if decide (b = u.1) then u.2 else c b.

(** Blocks a system call may update: data blocks outside the log. *)
Definition tx_block_ok (start b : Z) : Prop := 0 <= b < 2 ^ 31 /\ ~ in_log start b.

Lemma bio_rep_woken t A w : bio_rep t A -> bio_rep (lset woken w t) A.
Proof. intros []. by split. Qed.

Lemma elem_of_log_add B b x : x ∈ log_add B b <-> x ∈ B \/ x = b.
Proof. unfold log_add. case_decide; set_solver. Qed.

Lemma tx_ok_add start B b :
  tx_ok start B -> tx_block_ok start b -> (length B < Z.to_nat LOGBLOCKS)%nat -> tx_ok start (log_add B b).
Proof.
  intros [Hs Hl Hn Hb] Hok Hlt. split; [done| | |].
  - unfold log_add. case_decide; [done|]. rewrite length_app. simpl. lia.
  - unfold log_add. case_decide; [done|]. apply NoDup_app. split; [done|]. split; [set_solver|].
    apply NoDup_singleton.
  - intros x Hx%elem_of_log_add. destruct Hx as [Hx| ->]; [by apply Hb|done].
Qed.

Section tx.
Context `{WakeBudget} (d : gmap Z (list Z)).

(** The log holds [B] with contents [c]; nothing else is in use. *)
Record tx_state (start : Z) (B : list Z) (c : Z -> list Z) (o : Z) (s : lstate) : Prop := {
  ts_log : log_ok (l_log s) B;
  ts_lock : lg_lock (l_log s) = false;
  ts_start : lg_start (l_log s) = start;
  ts_open : lg_outstanding (l_log s) = o;
  ts_commit : lg_committing (l_log s) = false;
  ts_tx : tx_ok start B;
  ts_rep : exists live, pins live B c /\ bio_rep (l_bio s) (ACache d live)
}.

Lemma tx_put_spec start B c o s u :
  tx_state start B c o s -> 0 < o -> tx_block_ok start u.1 ->
  (length B < HEAD)%nat ->
  exists s', tx_put u s = Ok tt s' /\
    tx_state start (log_add B u.1) (put_view c u) o s' /\ bc_writes (l_bio s') = bc_writes (l_bio s).
Proof.
  destruct u as [b x], s as [g t]. intros [Hg Hlk Hst Ho Hcm Htx (live & Hp & Hr)] Hpos Hbok Hroom.
  simpl in *. pose proof Hbok as [Hbr Hoff]. unfold HEAD, NBUF, MAXOPBLOCKS in Hroom.
  assert (size live = length B) as Hsz.
  { subst start. by eapply (pins_size g). }
  destruct (bread_spec t _ b Hr) as (i & t1 & E1 & R1 & H1 & F1 & W1 & _).
  { unfold can_read. simpl. rewrite Hp. case_decide; [simpl; lia|]. rewrite Hsz. unfold HEAD, NBUF, MAXOPBLOCKS. lia. }
  set (r := live_ref (ACache d live) b + 1) in *.
  assert (r = if decide (b ∈ B) then 2 else 1) as Hrv.
  { unfold r, live_ref. simpl. rewrite Hp. by case_decide. }
  destruct (bset_spec t1 _ i b (ABuf (a_view (ACache d live) b) true r) R1 H1) with (d := x)
    as (E2 & R2 & F2 & H2).
  { simpl. by rewrite lookup_insert_eq. }
  set (t2 := upd_buf i (set_data x) t1) in *.
  destruct (log_write_spec B ltac:(apply Htx) g t2 _ i b (ABuf x true r) Hg Hlk R2 H2)
    as (g' & t3 & E3 & Hg3 & Hs3 & R3 & F3 & H3 & W3); try (simpl; lia).
  { simpl. by rewrite lookup_insert_eq. }
  { unfold LOGBLOCKS, MAXOPBLOCKS. lia. }
  { simpl. case_decide; lia. }
  set (r' := r + (if decide (b ∈ B) then 0 else 1)) in *. assert (r' = 2) as Hr'.
  { unfold r'. case_decide; lia. }
  destruct (brelse_spec t3 _ i b (ABuf x true r') R3 H3) as (t4 & E4 & R4 & _ & _ & P4 & W4 & _).
  { simpl. by rewrite lookup_insert_eq. } { done. } { simpl. lia. }
  exists (LState g' t4). split; [|split].
  - unfold tx_put. simpl. erewrite bind_Ok by (by apply z_Ok). erewrite bind_Ok by (by apply z_Ok).
    erewrite bind_Ok by done. by apply z_Ok.
  - destruct Hs3 as (Hs1 & Hs2 & Hs4 & Hs5). split; simpl; try congruence.
    + apply tx_ok_add; [done|done|]. unfold LOGBLOCKS, MAXOPBLOCKS. lia.
    + eexists. split; [|exact R4]. intros z. simpl. rewrite Hr'. simpl. unfold put_view. simpl.
      destruct (decide (z = b)) as [->|Hne].
      * rewrite lookup_insert_eq. rewrite decide_True; [done|]. apply elem_of_log_add. by right.
      * rewrite !lookup_insert_ne, Hp by done. destruct (decide (z ∈ B)) as [Hz|Hz].
        -- rewrite decide_True; [done|]. apply elem_of_log_add. by left.
        -- rewrite decide_False; [done|]. rewrite elem_of_log_add. naive_solver.
  - simpl. rewrite W4, W3. simpl. by rewrite W1.
Qed.

Lemma length_log_add B b : (length B <= length (log_add B b))%nat.
Proof. unfold log_add. case_decide; [done|]. rewrite length_app. lia. Qed.

Lemma length_touched B (l : list Z) : (length B <= length (foldl log_add B l))%nat.
Proof.
  revert B. induction l as [|b l IH]; intros B; simpl; [done|].
  etrans; [apply (length_log_add B b)|apply IH].
Qed.

Lemma tx_puts_spec start B c o s ups :
  tx_state start B c o s -> 0 < o -> Forall (fun u => tx_block_ok start u.1) ups ->
  (length (foldl log_add B ups.*1) < HEAD)%nat ->
  exists s', tx_puts ups s = Ok tt s' /\
    tx_state start (foldl log_add B ups.*1) (foldl put_view c ups) o s' /\
    bc_writes (l_bio s') = bc_writes (l_bio s).
Proof.
  revert B c s. induction ups as [|u ups IH]; intros B c s Hs Ho Hok Hlen; simpl in *; [by exists s|].
  apply Forall_cons in Hok as [Hu Hok].
  destruct (tx_put_spec start B c o s u) as (s1 & E1 & H1 & W1); try done.
  { eapply Nat.le_lt_trans; [|exact Hlen]. etrans; [apply (length_log_add B u.1)|apply length_touched]. }
  destruct (IH _ _ s1 H1) as (s2 & E2 & H2 & W2); try done.
  exists s2. split; [by erewrite bind_Ok|]. split; [done|]. by rewrite W2.
Qed.

Lemma begin_op_spec start c s :
  tx_state start [] c 0 s -> exists s', begin_op s = Ok tt s' /\
    tx_state start [] c 1 s' /\ l_bio s' = l_bio s.
Proof.
  destruct s as [[lk st o cm dv n bl] t]. intros [Hg Hlk Hst Ho Hcm Htx Hp]. simpl in *. subst.
  destruct Hg as [Hdev Hn Hl Hbl]. simpl in *. subst.
  exists (LState (Log false start 1 false ROOTDEV 0 bl) t). split; [|by split].
  unfold begin_op. erewrite bind_Ok by done. by erewrite bind_Ok by (by destruct wake_budget).
Qed.

(** The writes of end_op() by the last open operation. *)
Definition end_writes (start : Z) (B : list Z) (c : Z -> list Z) : list (Z * list Z) :=
  if decide (B = []) then [] else commit_writes start B c (disk_block d start).

Lemma end_op_spec start B c s :
  tx_state start B c 1 s -> (length B < HEAD)%nat ->
  let ws := end_writes start B c in
  exists s', end_op s = Ok tt s' /\
    log_ok (l_log s') [] /\ lg_lock (l_log s') = false /\ lg_outstanding (l_log s') = 0 /\
    lg_committing (l_log s') = false /\
    bio_rep (l_bio s') (ACache (apply_writes ws d) ∅) /\
    bc_writes (l_bio s') = bc_writes (l_bio s) ++ ws /\ last (bc_woken (l_bio s')) = Some ChLog.
Proof.
  destruct s as [[lk st o cm dv n bl] t].
  intros [Hg Hlk Hst Ho Hcm Htx (live & Hp & Hr)] Hroom ws. simpl in *. subst.
  destruct Hg as [Hdev Hn Hl Hbl]. simpl in *. subst.
  set (g := fun n => Log false start 0 true ROOTDEV n bl).
  assert (exists t', commit (LState (g (Z.of_nat (length B))) t) = Ok tt (LState (g 0) t') /\
    bio_rep t' (ACache (apply_writes ws d) ∅) /\ bc_writes t' = bc_writes t ++ ws)
    as (t' & E & R & W).
  { unfold ws, end_writes. case_decide as HB.
    - subst B. exists t. split; [done|]. split; [|by rewrite app_nil_r].
      apply (bio_rep_live _ _ _ Hr); [done|]. intros b. simpl. by rewrite Hp.
    - destruct (commit_spec (g (Z.of_nat (length B))) B c Htx eq_refl Hbl Hroom t d live eq_refl HB Hp Hr)
        as (t' & E & R & W & _). by exists t'. }
  eexists. split.
  { unfold end_op. rewrite (bind_Ok end_op_close _ _ true (LState (g (Z.of_nat (length B))) t)) by done.
    cbv iota. erewrite bind_Ok by exact E. done. }
  simpl. split_and!; try done.
  - by apply bio_rep_woken.
  - apply last_snoc.
Qed.

End tx.

(** The contents a transaction leaves are those of its updates, in order. *)
Lemma tx_view_updates d d' B c ups b :
  (forall b, tx_view d B c b = disk_block d' b) ->
  tx_view d (foldl log_add B ups.*1) (foldl put_view c ups) b = disk_block (apply_writes ups d') b.
Proof.
  revert B c d'. induction ups as [|u ups IH]; intros B c d' Hv; simpl; [done|].
  apply (IH _ _ (<[u.1 := u.2]> d')). intros z. unfold tx_view in *.
  destruct (decide (z = u.1)) as [->|Hne].
  - rewrite decide_True by (apply elem_of_log_add; by right). rewrite disk_block_insert.
    unfold put_view. by rewrite decide_True.
  - rewrite disk_block_insert_ne by done. rewrite <- Hv. unfold put_view. rewrite (decide_False (P := z = u.1)) by done.
    destruct (decide (z ∈ B)) as [Hz|Hz].
    + by rewrite decide_True by (apply elem_of_log_add; by left).
    + rewrite decide_False; [done|]. rewrite elem_of_log_add. naive_solver.
Qed.

(** A crash during recovery, followed by recovery. *)
Lemma recovery_crash start d k :
  header_ok start d -> length (disk_block d start) = Z.to_nat BSIZE ->
  let dk := apply_writes (take k (recovery_writes start d)) d in
  header_ok start dk /\
  forall b, ~ in_log start b ->
    disk_block (apply_writes (recovery_writes start dk) dk) b =
    disk_block (apply_writes (recovery_writes start d) d) b.
Proof.
  intros Hok Hlen dk. pose proof Hok as [Hn0 Htx]. set (h := disk_block d start) in *.
  set (B := hdr_blocks h) in *. set (l := map (redo_copy start d) (seq 0 (length B))).
  assert (length l = length B) as Ll by (unfold l; by rewrite length_map, length_seq).
  assert (forall j b, in_log start b -> b ∉ (take j l).*1) as Hhome.
  { intros j b Hb Hin. apply (tx_block _ _ Htx) in Hb; [done|].
    rewrite fmap_take in Hin. apply elem_of_take in Hin as (i & Hi & _).
    apply list_elem_of_lookup_2 in Hi. unfold l in Hi. rewrite <- list_fmap_compose in Hi.
    apply list_elem_of_fmap in Hi as (m & -> & Hm). apply elem_of_seq in Hm. apply B_in. unfold B, h in *. lia. }
  destruct (decide (k <= length B)%nat) as [Hk|Hk].
  - assert (take k (recovery_writes start d) = take k l) as Ht.
    { unfold recovery_writes. fold h B. fold l. rewrite take_app_le by lia. done. }
    assert (forall b, in_log start b -> disk_block dk b = disk_block d b) as Hlog.
    { intros b Hb. unfold dk. rewrite Ht. apply apply_writes_notin. by apply Hhome. }
    assert (disk_block dk start = h) as Hh by (apply Hlog, start_in_log).
    split; [eapply header_ok_ext; [|exact Hok]; by rewrite Hh|]. intros b Hb.
    destruct (decide (b ∈ B)) as [Hin|Hout].
    + apply list_elem_of_lookup in Hin as [i Hi]. pose proof (lookup_lt_Some _ _ _ Hi).
      pose proof (tx_len _ _ Htx).
      rewrite (recovery_view_in _ dk i) by (by rewrite Hh). rewrite (recovery_view_in _ d i) by done.
      apply Hlog. unfold in_log. lia.
    + rewrite !recovery_view_out; [|done..|by rewrite Hh].
      unfold dk. rewrite Ht. apply apply_writes_notin. rewrite fmap_take. intros Hin%elem_of_take.
      destruct Hin as (i & Hi & _). apply list_elem_of_lookup_2 in Hi. unfold l in Hi.
      rewrite <- list_fmap_compose in Hi. apply list_elem_of_fmap in Hi as (m & -> & Hm).
      apply elem_of_seq in Hm. apply Hout, B_in. unfold B, h in *. lia.
  - unfold dk. rewrite take_ge.
    2: { unfold recovery_writes. fold h B. rewrite length_app, length_map, length_seq. simpl. lia. }
    set (d1 := apply_writes (recovery_writes start d) d).
    assert (disk_block d1 start = hdr_image [] h) as Hh.
    { unfold d1, recovery_writes. apply apply_writes_last. }
    assert (4 <= length h)%nat by (rewrite Hlen; unfold BSIZE; lia).
    assert (hdr_blocks (disk_block d1 start) = []) as H0 by (rewrite Hh; by apply hdr_blocks_clear).
    split.
    + unfold header_ok. rewrite H0, Hh, hdr_n_image by (simpl; lia). split; [done|].
      apply tx_ok_nil, Htx.
    + intros b Hb. apply recovery_view_out; [done|]. rewrite H0. apply not_elem_of_nil.
Qed.

(** A disk the log can start from: an intact, clear header. *)
Record clean_disk (start : Z) (d : gmap Z (list Z)) : Prop := {
  cd_start : 0 <= start /\ start + LOGBLOCKS < 2 ^ 31;
  cd_len : length (disk_block d start) = Z.to_nat BSIZE;
  cd_clear : hdr_n (disk_block d start) = 0
}.

Lemma clean_header start d : clean_disk start d -> header_ok start d.
Proof.
  intros []. unfold header_ok. rewrite cd_clear0, hdr_blocks_0 by done. split; [done|]. by apply tx_ok_nil.
Qed.

(** Rebooting on a clean disk only rewrites the clear header. *)
Lemma clean_recovery start d :
  clean_disk start d -> recovery_writes start d = [(start, hdr_image [] (disk_block d start))].
Proof. intros []. unfold recovery_writes. by rewrite hdr_blocks_0. Qed.

Lemma clean_insert start d :
  clean_disk start d -> clean_disk start (<[start := hdr_image [] (disk_block d start)]> d).
Proof.
  intros []. split; [done| |]; rewrite disk_block_insert.
  - by rewrite length_hdr_image.
  - rewrite hdr_n_image; [done| |done]. rewrite cd_len0. unfold BSIZE. lia.
Qed.

(** Rebooting leaves an empty, idle log. *)
Lemma reboot_idle `{WakeBudget} start d pid c :
  clean_disk start d ->
  let d1 := <[start := hdr_image [] (disk_block d start)]> d in
  exists s, reboot start (boot_log (boot_bio d pid)) = Ok tt s /\
    tx_state d1 start [] c 0 s /\ bc_writes (l_bio s) = [(start, hdr_image [] (disk_block d start))].
Proof.
  intros Hc d1. pose proof (clean_header _ _ Hc) as Hok.
  destruct (reboot_log start d Hok pid) as (bl & t & E & R & W & L).
  rewrite clean_recovery in R, W by done. eexists. split; [exact E|].
  split; [|exact W]. split; [by split|reflexivity..|by apply tx_ok_nil, Hc|].
  exists ∅. split; [|done]. intros b. rewrite lookup_empty. by rewrite decide_False by (apply not_elem_of_nil).
Qed.

Lemma end_crash start d B c k :
  clean_disk start d -> tx_ok start B ->
  let dk := apply_writes (take k (end_writes d start B c)) d in
  header_ok start dk /\
  forall b, ~ in_log start b ->
    disk_block (apply_writes (recovery_writes start dk) dk) b =
    if decide (k <= length B)%nat then disk_block d b else tx_view d B c b.
Proof.
  intros Hc Htx. unfold end_writes. destruct (decide (B = [])) as [->|HB].
  - rewrite take_nil. simpl. split; [by apply clean_header|]. intros b Hb.
    rewrite recovery_view_out; [|done|rewrite hdr_blocks_0 by apply Hc; apply not_elem_of_nil].
    unfold tx_view. rewrite (decide_False (P := b ∈ [])) by (apply not_elem_of_nil). by case_decide.
  - apply crash_any; [done|apply Hc|apply Hc].
Qed.

Lemma end_final start d B c b :
  clean_disk start d -> tx_ok start B -> ~ in_log start b ->
  disk_block (apply_writes (end_writes d start B c) d) b = tx_view d B c b.
Proof.
  intros Hc Htx Hb. unfold end_writes. destruct (decide (B = [])) as [->|HB].
  { unfold tx_view. by rewrite (decide_False (P := b ∈ [])) by (apply not_elem_of_nil). }
  assert (b <> start) by (intros ->; apply Hb, start_in_log).
  unfold commit_writes, tx_view. rewrite !apply_writes_app. simpl. rewrite disk_block_insert_ne by done.
  case_decide; [by apply home_copy_at|].
  rewrite apply_writes_notin by (by intros ?%home_copy_keys). simpl.
  rewrite disk_block_insert_ne by done. apply apply_writes_notin. intros Hin%log_copy_keys; naive_solver.
Qed.

Lemma apply_writes_ext ws d d' b :
  disk_block d b = disk_block d' b -> disk_block (apply_writes ws d) b = disk_block (apply_writes ws d') b.
Proof.
  revert d d'. induction ws as [|[a x] ws IH]; intros d d' He; simpl; [done|]. apply IH.
  destruct (decide (a = b)) as [->|]; [by rewrite !disk_block_insert|by rewrite !disk_block_insert_ne].
Qed.

(** The distinct blocks a list of updates touches, in order of first use. *)
Definition touched (ups : list (Z * list Z)) : list Z := foldl log_add [] ups.*1.

(* ------------------------------------------------------------------ *)
(** ** Theorems *)

(** C1.  A system call's transaction is atomic.  On any disk with a clear log
    header, booting and running begin_op(), any updates of at most MAXOPBLOCKS
    distinct blocks outside the log (a block may be updated repeatedly), and
    end_op() returns with exactly those updates on disk.  And if the machine
    stops after any number [k] of the block writes that happened, rebooting
    returns, with either none of the updates (up to the write of the header)
    or all of them (from then on) on the file system blocks. *)
Theorem transaction_crash_atomic `{WakeBudget} start d pid ups :
  clean_disk start d ->
  Forall (fun u => tx_block_ok start u.1) ups ->
  (length (touched ups) <= Z.to_nat MAXOPBLOCKS)%nat ->
  exists s, (reboot start ;; transaction ups) (boot_log (boot_bio d pid)) = Ok tt s /\
    (forall b, ~ in_log start b -> disk_block (bc_disk (l_bio s)) b = disk_block (apply_writes ups d) b) /\
    forall k, exists r,
      reboot start (boot_log (boot_bio (apply_writes (take k (bc_writes (l_bio s))) d) pid)) = Ok tt r /\
      forall b, ~ in_log start b -> disk_block (bc_disk (l_bio r)) b =
        disk_block (if decide (k <= S (length (touched ups)))%nat then d else apply_writes ups d) b.
Proof.
  intros Hc Hok Hlen. set (c := fun _ : Z => @nil Z). set (B := touched ups).
  set (d1 := <[start := hdr_image [] (disk_block d start)]> d).
  assert (clean_disk start d1) as Hc1 by (by apply clean_insert).
  assert (forall b, ~ in_log start b -> disk_block d1 b = disk_block d b) as Hd1.
  { intros b Hb. apply disk_block_insert_ne. intros ->. apply Hb, start_in_log. }
  destruct (reboot_idle start d pid c Hc) as (s0 & E0 & S0 & W0).
  destruct (begin_op_spec _ _ _ _ S0) as (s1 & E1 & S1 & B1).
  assert (length B < HEAD)%nat as Hroom by (fold B in Hlen; unfold HEAD, NBUF, MAXOPBLOCKS in *; lia).
  destruct (tx_puts_spec d1 start [] c 1 s1 ups S1) as (s2 & E2 & S2 & W2); [done..|].
  pose proof (ts_tx _ _ _ _ _ _ S2) as Htx.
  destruct (end_op_spec d1 start B (foldl put_view c ups) s2 S2 Hroom)
    as (s3 & E3 & _ & _ & _ & _ & R3 & W3 & _).
  assert (forall b, ~ in_log start b ->
    tx_view d1 B (foldl put_view c ups) b = disk_block (apply_writes ups d) b) as Hv.
  { intros b Hb. unfold B, touched. rewrite (tx_view_updates d1 d1 [] c ups b); [by apply apply_writes_ext, Hd1|].
    intros z. unfold tx_view. by rewrite decide_False by (apply not_elem_of_nil). }
  exists s3. split; [|split].
  - erewrite bind_Ok by done. unfold transaction. by do 2 (erewrite bind_Ok by done).
  - intros b Hb. rewrite (r_disk _ _ R3). cbn [a_disk]. rewrite end_final by done. by apply Hv.
  - rewrite W3, W2, B1, W0. intros [|k].
    + change (apply_writes (take 0 _) d) with d. destruct (reboot_spec start d (clean_header _ _ Hc) pid) as (r & E & D & _).
      exists r. split; [done|]. intros b Hb. rewrite D. rewrite decide_True by lia.
      apply recovery_view_out; [done|]. rewrite hdr_blocks_0 by apply Hc. apply not_elem_of_nil.
    + set (ws := end_writes d1 start B (foldl put_view c ups)).
      change (apply_writes (take (S k) _) d) with (apply_writes (take k ws) d1).
      destruct (end_crash start d1 B (foldl put_view c ups) k Hc1 Htx) as [Hh Hr].
      destruct (reboot_spec start _ Hh pid) as (r & E & D & _). exists r. split; [done|].
      intros b Hb. rewrite D, Hr by done. fold B. repeat case_decide; try lia; [by apply Hd1|by apply Hv].
Qed.

Definition ex_disk : gmap Z (list Z) := {[ 2 := replicate (Z.to_nat BSIZE) 0 ]}.
Definition ex_budget : WakeBudget := 3%nat.

Ltac blocks_ok :=
  repeat (apply Forall_cons; split;
    [unfold tx_block_ok, in_log, LOGBLOCKS, MAXOPBLOCKS; simpl; lia|]); apply Forall_nil_2.

Lemma transaction_crash_atomic_witness : exists s,
  (reboot (H := ex_budget) 2 ;; transaction (H := ex_budget) [(50, [1]); (60, [2]); (50, [3])])
    (boot_log (boot_bio ex_disk 1)) = Ok tt s /\
  disk_block (bc_disk (l_bio s)) 50 = [3].
Proof.
  destruct (@transaction_crash_atomic ex_budget 2 ex_disk 1 [(50, [1]); (60, [2]); (50, [3])])
    as (s & E & Hd & _).
  - split; [unfold LOGBLOCKS, MAXOPBLOCKS; lia|reflexivity|reflexivity].
  - blocks_ok.
  - apply Nat.leb_le. reflexivity.
  - exists s. split; [exact E|]. rewrite Hd; [reflexivity|]. unfold in_log, LOGBLOCKS, MAXOPBLOCKS. lia.
Defined.

(** C2.  Group commit is atomic.  When the last open operation calls end_op()
    with fewer than NBUF blocks [B] in the log, whatever calls put them
    there, end_op() returns, empties the log, clears committing, wakes the
    sleepers of begin_op(), and leaves the cached contents [c] of the blocks
    on disk; a crash after any number of its block writes followed by a
    reboot leaves the file system blocks all old or all new. *)
Theorem group_commit_atomic `{WakeBudget} start d B c s pid :
  clean_disk start d -> tx_state d start B c 1 s -> (length B < HEAD)%nat ->
  exists s' ws, end_op s = Ok tt s' /\
    lh_n (l_log s') = 0 /\ lg_committing (l_log s') = false /\ lg_lock (l_log s') = false /\
    last (bc_woken (l_bio s')) = Some ChLog /\
    bc_writes (l_bio s') = bc_writes (l_bio s) ++ ws /\
    (forall b, ~ in_log start b -> disk_block (bc_disk (l_bio s')) b = tx_view d B c b) /\
    forall k, exists r,
      reboot start (boot_log (boot_bio (apply_writes (take k ws) d) pid)) = Ok tt r /\
      forall b, ~ in_log start b -> disk_block (bc_disk (l_bio r)) b =
        if decide (k <= length B)%nat then disk_block d b else tx_view d B c b.
Proof.
  intros Hc Hs Hroom. pose proof (ts_tx _ _ _ _ _ _ Hs) as Htx.
  destruct (end_op_spec d start B c s Hs Hroom) as (s' & E & Hg & Hlk & _ & Hcm & R & W & Hw).
  exists s', (end_writes d start B c). split; [done|]. split; [apply (lo_n _ _ Hg)|].
  do 4 (split; [done|]). split.
  - intros b Hb. rewrite (r_disk _ _ R). by apply end_final.
  - intros k. destruct (end_crash start d B c k Hc Htx) as [Hh Hr].
    destruct (reboot_spec start _ Hh pid) as (r & Er & D & _). exists r. split; [done|].
    intros b Hb. by rewrite D, Hr.
Qed.

Lemma ex_clean : clean_disk 2 ex_disk.
Proof. split; [unfold LOGBLOCKS, MAXOPBLOCKS; lia|reflexivity|reflexivity]. Qed.

(** An open operation that has logged blocks 50 and 60. *)
Lemma ex_open : exists d s c, clean_disk 2 d /\ @tx_state d 2 [50; 60] c 1 s.
Proof.
  destruct (@reboot_idle ex_budget 2 ex_disk 1 (fun _ => []) ex_clean) as (s0 & _ & S0 & _).
  destruct (@begin_op_spec ex_budget _ _ _ _ S0) as (s1 & _ & S1 & _).
  destruct (@tx_puts_spec ex_budget _ 2 [] _ 1 s1 [(50, [1]); (60, [2])] S1) as (s2 & _ & S2 & _).
  - done.
  - blocks_ok.
  - apply Nat.ltb_lt. reflexivity.
  - do 3 eexists. split; [|exact S2]. by apply clean_insert, ex_clean.
Qed.

Lemma group_commit_atomic_witness : exists d c s s', @tx_state d 2 [50; 60] c 1 s /\
  @end_op ex_budget s = Ok tt s' /\ lh_n (l_log s') = 0.
Proof.
  destruct ex_open as (d & s & c & Hc & Hs). exists d, c, s.
  destruct (@group_commit_atomic ex_budget 2 d [50; 60] c s 1 Hc Hs) as (s' & ws & E & Hn & _).
  - apply Nat.ltb_lt. reflexivity.
  - exists s'. done.
Defined.

(** C3.  Recovery may itself be interrupted.  On any disk with a well-formed
    header, initlog() returns; if the machine stops after any number of the
    block writes recovery made, the next initlog() also returns and leaves
    the file system blocks exactly as the uninterrupted recovery does. *)
Theorem recovery_interrupted `{WakeBudget} start d pid :
  header_ok start d -> length (disk_block d start) = Z.to_nat BSIZE ->
  exists s, reboot start (boot_log (boot_bio d pid)) = Ok tt s /\
    (forall i b, hdr_blocks (disk_block d start) !! i = Some b ->
       disk_block (bc_disk (l_bio s)) b = disk_block d (start + Z.of_nat i + 1)) /\
    forall k, exists r,
      reboot start (boot_log (boot_bio (apply_writes (take k (bc_writes (l_bio s))) d) pid)) = Ok tt r /\
      forall b, ~ in_log start b -> disk_block (bc_disk (l_bio r)) b = disk_block (bc_disk (l_bio s)) b.
Proof.
  intros Hok Hlen. destruct (reboot_spec start d Hok pid) as (s & E & D & W).
  exists s. split; [done|]. split.
  - intros i b Hi. rewrite D. apply recovery_view_in; [apply Hok|done].
  - intros k. rewrite W. destruct (recovery_crash start d k Hok Hlen) as [Hh Hr].
    destruct (reboot_spec start _ Hh pid) as (r & Er & Dr & _). exists r. split; [done|].
    intros b Hb. by rewrite Dr, D, Hr.
Qed.

Definition ex_header : list Z := hdr_image [50; 60] (replicate (Z.to_nat BSIZE) 0).

Lemma recovery_interrupted_witness : exists s,
  @reboot ex_budget 2 (boot_log (boot_bio {[ 2 := ex_header; 3 := [7]; 4 := [8] ]} 1)) = Ok tt s /\
  disk_block (bc_disk (l_bio s)) 60 = [8].
Proof.
  destruct (@recovery_interrupted ex_budget 2 {[ 2 := ex_header; 3 := [7]; 4 := [8] ]} 1)
    as (s & E & Hd & _).
  - split; [by vm_compute|].
    change (hdr_blocks _) with (hdr_blocks (hdr_image [50; 60] (replicate (Z.to_nat BSIZE) 0))).
    rewrite hdr_blocks_image.
    + split; [unfold LOGBLOCKS, MAXOPBLOCKS; lia|apply Nat.leb_le; reflexivity| |].
      * repeat constructor; set_solver.
      * intros b Hb. unfold in_log, LOGBLOCKS, MAXOPBLOCKS. set_unfold. lia.
    + apply Nat.leb_le. reflexivity.
    + apply Nat.leb_le. reflexivity.
    + intros b Hb. set_unfold. lia.
  - reflexivity.
  - exists s. split; [exact E|]. by rewrite (Hd 1%nat 60) by reflexivity.
Defined.
