(* ===== verification/LogSpace.v ===== *)
(** * Log space: admission control

   begin_op() admits an operation only when no commit is in progress and the
   log has room for what every open operation may still write.  Then
   log_write() within its budget never finds the log full, end_op() never
   finds a commit in progress, and a commit, which runs without the log
   lock, has the log to itself. *)

From stdpp Require Import base numbers list gmap sets strings.
From Stdlib Require Import ZArith Lia.
From S2P Require Import Prelude Params Sleeplock Ring Bio Log LogSpec LogCrash LogTx.

(** What commit() does with a log that is not empty, call by call. *)
Definition commit_phases `{WakeBudget} : list (M lstate unit) :=
  [write_log; write_head; install_trans false; modify (set_n 0); write_head].

Definition run_all {S} (ms : list (M S unit)) : M S unit := foldr (fun m rest => m ;; rest) (ret tt) ms.

Lemma bind_ret_tt {S} (m : M S unit) s a s' : m s = Ok a s' <-> (m ;; ret tt) s = Ok a s'.
Proof. unfold bind, ret. destruct a. destruct (m s) as [[] s1|msg|c s1 k|]; done. Qed.

Lemma commit_is_phases `{WakeBudget} s s' :
  commit s = Ok tt s' <-> (if lh_n (l_log s) >? 0 then run_all commit_phases else ret tt) s = Ok tt s'.
Proof.
  unfold commit. erewrite bind_Ok by done. destruct (_ >? _); [|done]. unfold run_all, commit_phases. simpl.
  split; intros E; repeat (apply bind_Ok_inv in E as ([] & ? & ?E & E); erewrite bind_Ok by done); by apply (bind_ret_tt write_head).
Qed.

(** The log shared by the open system calls.  [y_ops] is what each of them may
    still log; [y_commits] has an entry for every end_op() that is between its
    two critical sections, with the number of phases of commit() it has
    done. *)
Record sys := Sys { y_s : lstate; y_ops : list nat; y_commits : list nat }.

Section system.
Context `{WakeBudget}.

(** Where a commit() starts: one that finds the log empty is done. *)
Definition first_phase (s : lstate) : nat := if lh_n (l_log s) >? 0 then 0%nat else length commit_phases.

(** Interleaved calls of any number of processes: begin_op() and end_op()
    once per operation, log_write() within the MAXOPBLOCKS budget, and any
    other change of the buffer cache.  end_op() is not one step: other
    processes run between its first critical section and commit(), between
    the phases of commit(), and before its second critical section. *)
Inductive log_step : sys -> sys -> Prop :=
| step_begin s s' ops cs :
    begin_op s = Ok tt s' -> log_step (Sys s ops cs) (Sys s' (Z.to_nat MAXOPBLOCKS :: ops) cs)
| step_write s s' ops cs i r b :
    ops !! i = Some (S r) -> log_write b s = Ok tt s' -> log_step (Sys s ops cs) (Sys s' (<[i := r]> ops) cs)
| step_close s s' ops cs i r (c : bool) :
    ops !! i = Some r -> end_op_close s = Ok c s' ->
    log_step (Sys s ops cs) (Sys s' (delete i ops) (if c then first_phase s' :: cs else cs))
| step_commit s s' ops cs j k m :
    cs !! j = Some k -> commit_phases !! k = Some m -> m s = Ok tt s' ->
    log_step (Sys s ops cs) (Sys s' ops (<[j := S k]> cs))
| step_done s s' ops cs j :
    cs !! j = Some (length commit_phases) -> end_op_done s = Ok tt s' ->
    log_step (Sys s ops cs) (Sys s' ops (delete j cs))
| step_bio s t ops cs :
    log_step (Sys s ops cs) (Sys (LState (l_log s) t) ops cs).

(** A commit is alone: no other commit, and no open operation.  From its
    fourth phase on the log is empty, and so it is when nothing is going
    on. *)
Definition commits_ok (g : log) (ops cs : list nat) : Prop :=
  match cs with
  | [] => lg_committing g = false /\ (ops = [] -> lh_n g = 0)
  | [k] => lg_committing g = true /\ ops = [] /\ (k <= length commit_phases)%nat /\ ((4 <= k)%nat -> lh_n g = 0)
  | _ => False
  end.

Record space_inv (y : sys) : Prop := {
  sp_lock : lg_lock (l_log (y_s y)) = false;
  sp_commit : commits_ok (l_log (y_s y)) (y_ops y) (y_commits y);
  sp_open : lg_outstanding (l_log (y_s y)) = Z.of_nat (length (y_ops y));
  sp_n : 0 <= lh_n (l_log (y_s y));
  sp_room : lh_n (l_log (y_s y)) + Z.of_nat (sum_list (y_ops y)) <= LOGBLOCKS;
  sp_len : length (lh_block (l_log (y_s y))) = Z.to_nat LOGBLOCKS;
  sp_budget : Forall (fun r => (r <= Z.to_nat MAXOPBLOCKS)%nat) (y_ops y)
}.

(** *** Calls that leave the in-memory log alone *)

Definition keeps_log {A} (m : M lstate A) : Prop :=
  forall s a s', m s = Ok a s' -> l_log s' = l_log s.

Lemma keeps_zoom {A} (m : M bio A) : keeps_log (zoom L_bio m).
Proof. intros s a s'. unfold zoom. destruct (m (lget L_bio s)); simpl; try done. by intros [= _ <-]. Qed.
Lemma keeps_ret {A} (a : A) : keeps_log (ret a).
Proof. by intros s a' s' [= _ <-]. Qed.
Lemma keeps_gets {A} (f : lstate -> A) : keeps_log (gets f).
Proof. by intros s a s' [= _ <-]. Qed.
Lemma keeps_panic {A} msg : keeps_log (panic (A := A) msg).
Proof. by intros s a s'. Qed.
Lemma keeps_bind {A B} (m : M lstate A) (f : A -> M lstate B) :
  keeps_log m -> (forall a, keeps_log (f a)) -> keeps_log (bind m f).
Proof.
  intros Hm Hf s b s'' (a & s' & E1 & E2)%bind_Ok_inv. by rewrite (Hf _ _ _ _ E2), (Hm _ _ _ E1).
Qed.
Lemma keeps_for n a body : (forall i, keeps_log (body i)) -> keeps_log (for_range n a body).
Proof.
  intros Hb. revert a. induction n as [|n IH]; intros a; simpl; [apply keeps_ret|].
  apply keeps_bind; [apply Hb|]. intros _. apply IH.
Qed.
Lemma keeps_lh_get i : keeps_log (lh_get i).
Proof.
  apply keeps_bind; [apply keeps_gets|]. intros l. destruct (l !! Z.to_nat i); [|apply keeps_panic].
  destruct (0 <=? i); [apply keeps_ret|apply keeps_panic].
Qed.
Lemma keeps_lread b : keeps_log (lread b).
Proof. apply keeps_bind; [apply keeps_gets|]. intros. apply keeps_zoom. Qed.

End system.

Create HintDb keeps.
#[export] Hint Resolve keeps_zoom keeps_ret keeps_gets keeps_panic keeps_lh_get keeps_lread : keeps.

(** Walks through a body that only uses the operations above. *)
Ltac keeps :=
  repeat first
    [ solve [auto with keeps]
    | apply keeps_for; intros
    | apply keeps_bind; [|intros]
    | case_match ].

Section calls.
Context `{WakeBudget}.

Lemma keeps_write_log : keeps_log write_log.
Proof. unfold write_log, write_log_one. keeps. Qed.
Lemma keeps_write_head : keeps_log write_head.
Proof. unfold write_head. keeps. Qed.
Lemma keeps_install r : keeps_log (install_trans r).
Proof. unfold install_trans, install_one. keeps. Qed.
Lemma keeps_log_index k i b : keeps_log (log_index k i b).
Proof. revert i. induction k as [|k IH]; intros i; simpl; keeps. Qed.

(** A phase of commit() leaves the in-memory log alone, except that the
    fourth empties it. *)
Lemma phase_log k m s s' : commit_phases !! k = Some m -> m s = Ok tt s' ->
  l_log s' = if decide (k = 3%nat) then l_log (set_n 0 s) else l_log s.
Proof.
  intros Hk E. destruct k as [|[|[|[|[|k]]]]]; simpl in Hk; try (by rewrite lookup_nil in Hk); injection Hk as <-;
    repeat (rewrite decide_False by lia || rewrite decide_True by done).
  - by apply keeps_write_log in E.
  - by apply keeps_write_head in E.
  - by apply keeps_install in E.
  - by injection E as <-.
  - by apply keeps_write_head in E.
Qed.

(** begin_op() that returns without sleeping has checked the room. *)
Lemma begin_op_log s s' :
  begin_op s = Ok tt s' ->
  lg_lock (l_log s) = false /\ begin_must_wait s = false /\
  l_log s' = l_log (set_outstanding (lg_outstanding (l_log s) + 1) s).
Proof.
  destruct s as [[lk st o cm dv n bl] t]. unfold begin_op.
  intros ([] & s1 & E1 & E)%bind_Ok_inv. unfold lock_acquire in E1. simpl in E1.
  destruct lk; [done|]. injection E1 as <-.
  apply bind_Ok_inv in E as ([] & s2 & E2 & E).
  apply sleep_while_Ok in E2 as [Ew ->]. injection E as <-. done.
Qed.

(** log_write() grows the log by at most one block. *)
Lemma log_write_log b s s' :
  log_write b s = Ok tt s' ->
  let g := l_log s in let g' := l_log s' in
  lg_lock g = false /\ same_log g g' /\ lh_n g <= lh_n g' <= lh_n g + 1 /\ lg_dev g' = lg_dev g /\
  length (lh_block g') = length (lh_block g).
Proof.
  destruct s as [[lk st o cm dv n bl] t]. simpl. unfold log_write.
  intros ([] & s1 & E1 & E)%bind_Ok_inv. unfold lock_acquire in E1. simpl in E1.
  destruct lk; [done|]. injection E1 as <-.
  apply bind_Ok_inv in E as (g & s2 & [= <- <-] & E). simpl in E.
  destruct (n >=? LOGBLOCKS); [done|]. destruct (o <? 1); [done|].
  apply bind_Ok_inv in E as (bn & s3 & [= <- <-] & E). apply bind_Ok_inv in E as (i & s4 & E4 & E).
  apply keeps_log_index in E4. destruct s4 as [g4 t4]. simpl in E4. subst g4.
  apply bind_Ok_inv in E as ([] & s5 & E5 & E).
  assert (exists bl', s5 = LState (Log true st o cm dv n bl') t4 /\ length bl' = length bl) as (bl' & -> & Hbl).
  { unfold lh_put in E5. apply bind_Ok_inv in E5 as (l & s6 & [= <- <-] & E5). simpl in E5.
    destruct (_ && _); [|done]. injection E5 as <-. eexists. split; [done|]. apply length_insert. }
  apply bind_Ok_inv in E as ([] & s6 & E6 & E). simpl in E6.
  assert (exists n' t', s6 = LState (Log true st o cm dv n' bl') t' /\ n <= n' <= n + 1) as (n' & t' & -> & Hn').
  { destruct (i =? n).
    - apply bind_Ok_inv in E6 as ([] & s7 & E7 & [= <-]). apply keeps_zoom in E7.
      destruct s7 as [g7 t7]. simpl in E7. subst g7. exists (n + 1), t7. split; [done|lia].
    - injection E6 as <-. exists n, t4. split; [done|lia]. }
  injection E as <-. simpl. done.
Qed.

(** end_op()'s first critical section. *)
Lemma end_op_close_log s c s' :
  end_op_close s = Ok c s' ->
  let g := l_log s in
  lg_committing g = false /\
  l_log s' = l_log ((if c then set_committing true else id) (set_outstanding (lg_outstanding g - 1) s)) /\
  c = (lg_outstanding g - 1 =? 0).
Proof.
  destruct s as [[lk st o cm dv n bl] t]. simpl. unfold end_op_close.
  intros ([] & s1 & E1 & E)%bind_Ok_inv. unfold lock_acquire in E1. simpl in E1.
  destruct lk; [done|]. injection E1 as <-.
  apply bind_Ok_inv in E as ([] & s2 & [= <-] & E). simpl in E.
  apply bind_Ok_inv in E as (c' & s3 & [= <- <-] & E). simpl in E. destruct cm; [done|].
  apply bind_Ok_inv in E as (o' & s4 & [= <- <-] & E). simpl in E.
  apply bind_Ok_inv in E as ([] & s5 & E5 & E). apply bind_Ok_inv in E as ([] & s6 & E6 & E).
  injection E as <- <-. destruct (o - 1 =? 0); injection E5 as <-; by injection E6 as <-.
Qed.

Lemma end_op_close_total s : lg_lock (l_log s) = false -> lg_committing (l_log s) = false ->
  exists c s', end_op_close s = Ok c s'.
Proof.
  destruct s as [[lk st o cm dv n bl] t]. simpl. intros -> ->. unfold end_op_close. do 3 (erewrite bind_Ok by done).
  simpl. erewrite bind_Ok by done. simpl. destruct (o - 1 =? 0); by do 2 eexists.
Qed.

(** The second one. *)
Lemma end_op_done_log s s' : end_op_done s = Ok tt s' -> l_log s' = l_log (set_committing false s).
Proof.
  destruct s as [[lk st o cm dv n bl] t]. unfold end_op_done.
  intros ([] & s1 & E1 & E)%bind_Ok_inv. unfold lock_acquire in E1. simpl in E1.
  destruct lk; [done|]. injection E1 as <-. by injection E as <-.
Qed.

End calls.

(** Sums of the budgets. *)
Lemma sum_list_le (l : list nat) k : Forall (fun r => (r <= k)%nat) l -> (sum_list l <= k * length l)%nat.
Proof. induction 1; simpl; lia. Qed.
Lemma sum_list_insert (l : list nat) i r :
  l !! i = Some (S r) -> (sum_list (<[i := r]> l) + 1 = sum_list l)%nat.
Proof.
  revert i. induction l as [|x l IH]; intros [|i] Hi; simpl in *; try done.
  - injection Hi as ->. lia.
  - specialize (IH i Hi). lia.
Qed.
Lemma sum_list_delete (l : list nat) i r :
  l !! i = Some r -> (sum_list (delete i l) + r = sum_list l)%nat.
Proof.
  revert i. induction l as [|x l IH]; intros [|i] Hi; simpl in *; try done.
  - injection Hi as ->. lia.
  - specialize (IH i Hi). lia.
Qed.

Section invariant.
Context `{WakeBudget}.

Lemma space_step y y' : space_inv y -> log_step y y' -> space_inv y'.
Proof.
  intros Hi Hst. destruct Hst as [s s' ops cs E|s s' ops cs i r b Hr E|s s' ops cs i r c Hr E|s s' ops cs j k m Hj Hk E|
    s s' ops cs j Hj E|s t ops cs]; destruct Hi as [Hlk Hcm Ho Hn Hroom Hlen Hbud]; simpl in *.
  - apply begin_op_log in E as (_ & Hw & Hg). destruct s as [[lk st o cm dv n bl] t]. simpl in *. subst.
    apply orb_false_iff in Hw as [Hc Hw%Z.ltb_ge]. simpl in Hw, Hc. subst cm.
    pose proof (sum_list_le _ _ Hbud). unfold MAXOPBLOCKS in *.
    split; simpl; rewrite ?Hg; simpl; try done; try lia; [|by constructor]. destruct cs as [|? [|? ?]]; simpl in *; naive_solver.
  - apply log_write_log in E as (_ & (L & S & O & C) & Hn' & _ & Hl).
    pose proof (sum_list_insert _ _ _ Hr). split; simpl; rewrite ?length_insert; try congruence; try lia.
    + destruct cs as [|? [|? ?]]; simpl in *; [|naive_solver|done]. destruct Hcm as [Hc _]. split; [congruence|].
      intros E. apply (f_equal length) in E. rewrite length_insert in E. by destruct ops.
    + apply Forall_insert; [done|]. eapply Forall_lookup_1 in Hbud; [|done]. simpl in Hbud. lia.
  - pose proof (lookup_lt_Some _ _ _ Hr). pose proof (sum_list_delete _ _ _ Hr). apply end_op_close_log in E as (C & Hg & Ec).
    assert (cs = []) as -> by (destruct cs as [|? [|? ?]]; simpl in *; [done|naive_solver congruence|done]).
    destruct s as [[lk st o cm dv n bl] t]. simpl in *.
    assert (c = true <-> delete i ops = []) as Hlast.
    { rewrite Ec, Z.eqb_eq, <- length_zero_iff_nil, length_delete by done. lia. }
    split; simpl; rewrite ?Hg, ?length_delete by done; destruct c; simpl; try done; try lia; try (by apply Forall_delete).
    + split; [done|]. split; [by apply Hlast|]. unfold first_phase. rewrite Hg. simpl. destruct (Z.gtb_spec n 0); simpl; lia.
    + split; [done|]. intros E. by apply Hlast in E.
  - assert (j = 0%nat /\ cs = [k]) as [-> ->].
    { destruct cs as [|k' [|? ?]]; simpl in *; [done| |done]. destruct j; [|done]. simpl in Hj. by injection Hj as ->. }
    pose proof (lookup_lt_Some _ _ _ Hk) as Hlt. pose proof (phase_log _ _ _ _ Hk E) as Hg. destruct Hcm as (C & -> & Hkl & H4).
    destruct s as [[lk st o cm dv n bl] t]. case_decide as E3; split; simpl; rewrite ?Hg; simpl in *; try done; try lia.
    + split_and!; try done. lia.
  - assert (j = 0%nat /\ exists k, cs = [k] /\ k = length commit_phases) as [-> (k & -> & ->)].
    { destruct cs as [|k' [|? ?]]; simpl in *; [done| |done]. destruct j; [|done]. simpl in Hj. injection Hj as ->. by split; [|eexists]. }
    apply end_op_done_log in E as Hg. destruct Hcm as (C & -> & Hkl & H4).
    destruct s as [[lk st o cm dv n bl] t]. split; simpl; rewrite ?Hg; simpl in *; try done. split; [done|]. intros _. apply H4. lia.
  - by split.
Qed.

Lemma log_index_total s k i b :
  0 <= i -> (Z.to_nat i + k <= length (lh_block (l_log s)))%nat ->
  exists j, log_index k i b s = Ok j s /\ i <= j <= i + Z.of_nat k.
Proof.
  destruct s as [g t]. revert i. induction k as [|k IH]; intros i Hi Hlen; simpl.
  - exists i. split; [done|lia].
  - destruct (lookup_lt_is_Some_2 (lh_block g) (Z.to_nat i)) as [x Hx]; [simpl in Hlen; lia|].
    erewrite bind_Ok by (by apply lh_get_Ok). destruct (_ =? _).
    + exists i. split; [done|lia].
    + destruct (IH (i + 1)) as (j & E & Hj); [lia|simpl in *; lia|]. exists j. split; [done|lia].
Qed.

(** log_write() returns when the log has a free entry and an open
    operation. *)
Lemma log_write_total b s :
  lg_lock (l_log s) = false -> bc_lock (l_bio s) = false ->
  0 <= lh_n (l_log s) < LOGBLOCKS -> 0 < lg_outstanding (l_log s) ->
  length (lh_block (l_log s)) = Z.to_nat LOGBLOCKS ->
  exists s', log_write b s = Ok tt s'.
Proof.
  destruct s as [[lk st o cm dv n bl] t]. simpl. intros -> Hbc Hn Ho Hl.
  set (s1 := LState (Log true st o cm dv n bl) t).
  destruct (log_index_total s1 (Z.to_nat n) 0 (b_blockno (getbuf b (bc_buf t)))) as (j & Ej & Hj);
    [lia|simpl; lia|].
  unfold log_write. erewrite bind_Ok by done. erewrite bind_Ok by done.
  cbn [l_log lh_n lg_outstanding lset L_lg_lock set_log]. fold s1.
  rewrite Z.geb_leb, (proj2 (Z.leb_gt _ _)), (proj2 (Z.ltb_ge _ _)) by lia.
  erewrite bind_Ok by done. erewrite bind_Ok by done.
  replace j with (Z.of_nat (Z.to_nat j)) by lia.
  erewrite bind_Ok by (apply lh_put_Ok; simpl; lia).
  destruct (_ =? _).
  - destruct t as [bl0 bs dk ws pid wk]. simpl in Hbc. subst bl0. eexists. reflexivity.
  - eexists. reflexivity.
Qed.

End invariant.


Definition ex_idle (o : Z) : lstate :=
  LState (Log false 2 o false ROOTDEV 0 (replicate (Z.to_nat LOGBLOCKS) 0)) (boot_bio ∅ 1).


(** begin_op() waits for room.  Whatever other processes do to the log
    while it sleeps, begin_op() sleeps only on the log, with the log lock
    given up, and only while a commit is running or the log could overflow;
    when it returns no commit is running, the operation is counted, and the
    log has MAXOPBLOCKS blocks for each open operation on top of those
    already in it. *)
Theorem begin_op_admits `{WakeBudget} s :
  lg_lock (l_log s) = false ->
  rg wake_budget
    (fun c s' => c = ChLog /\ lg_lock (l_log s') = false /\ begin_must_wait s' = true)
    (fun _ _ s' => lg_lock (l_log s') = false)
    (fun _ s' => lg_lock (l_log s') = false /\ lg_committing (l_log s') = false /\
       lh_n (l_log s') + lg_outstanding (l_log s') * MAXOPBLOCKS <= LOGBLOCKS)
    (begin_op s).
Proof.
  intros Hlk. unfold begin_op, bind at 1, lock_acquire at 1. simpl. rewrite Hlk. simpl.
  unfold bind at 1. apply rg_bind.
  eapply rg_mono; [apply (rg_sleep_while _ _ _ _ _ _ (fun _ => True))|]; [done..| |].
  - intros s1 _ ? ?. split; [done|]. by intros s2 ?.
  - intros [] [[lk st o cm dv n bl] t] (_ & Hw & Hin). simpl in Hin. subst lk.
    apply orb_false_iff in Hw as [Hcm Hw%Z.ltb_ge]. simpl in Hw, Hcm. simpl. done.
Qed.

Lemma begin_op_admits_witness :
  rg 3
    (fun c s' => c = ChLog /\ lg_lock (l_log s') = false /\ begin_must_wait s' = true)
    (fun _ _ s' => lg_lock (l_log s') = false)
    (fun _ s' => lg_lock (l_log s') = false /\ lg_committing (l_log s') = false /\
       lh_n (l_log s') + lg_outstanding (l_log s') * MAXOPBLOCKS <= LOGBLOCKS)
    (@begin_op ex_budget (ex_idle 3)).
Proof. apply (@begin_op_admits ex_budget). reflexivity. Defined.

Lemma size_list_to_set_le (l : list Z) : (size (list_to_set l : gset Z) <= length l)%nat.
Proof.
  induction l as [|x l IH]; [done|].
  rewrite list_to_set_cons, size_union_alt, size_singleton. apply le_n_S. etrans; [|exact IH].
  apply subseteq_size. set_solver.
Qed.

(** With NBUF blocks live no buffer is left to recycle. *)
Lemma all_live s A i :
  bio_rep s A -> size (a_live A) = HEAD -> (i < HEAD)%nat -> b_refcnt (getbuf i (bc_buf s)) <> 0.
Proof.
  intros Hr Hsz Hi Hz.
  set (f := fun j => b_blockno (getbuf j (bc_buf s))).
  assert (dom (a_live A) ⊆ list_to_set (C := gset Z) (map f (seq 0 i ++ seq (S i) (HEAD - S i)))) as Hsub.
  { intros b Hb. apply elem_of_dom in Hb. destruct (r_dom _ _ Hr b Hb) as (j & Hj & _ & Hbn & Hne).
    apply elem_of_list_to_set, list_elem_of_fmap. exists j. split; [done|].
    assert (j <> i) by congruence. apply elem_of_app. rewrite !elem_of_seq. lia. }
  apply subseteq_size in Hsub. rewrite size_dom, Hsz in Hsub.
  pose proof (size_list_to_set_le (map f (seq 0 i ++ seq (S i) (HEAD - S i)))) as Hle.
  rewrite length_map, length_app, !length_seq in Hle. lia.
Qed.

Lemma bind_Panic {S A B} (m : M S A) (f : A -> M S B) s msg :
  m s = Panic msg -> bind m f s = Panic msg.
Proof. unfold bind. by intros ->. Qed.

Section full.
Context `{WakeBudget} (d : gmap Z (list Z)).

(** C6.  A full log cannot be committed.  NBUF equals LOGBLOCKS, and the log
    pins one buffer per block, so when the last end_op() finds LOGBLOCKS
    distinct blocks in the log (which the admission test of begin_op() and
    log_write() both allow) write_log() finds no buffer for the first log
    block and the kernel panics. *)
Theorem full_log_panics start B c s :
  tx_state d start B c 1 s -> length B = Z.to_nat LOGBLOCKS ->
  end_op s = Panic "bget: no buffers".
Proof.
  destruct s as [[lk st o cm dv n bl] t].
  intros [Hg Hlk Hst Ho Hcm Htx (live & Hp & Hr)] Hlen. simpl in *. subst.
  destruct Hg as [Hdev Hn Hl Hbl]. simpl in *. subst.
  set (g := Log false start 0 true ROOTDEV (Z.of_nat (length B)) bl).
  assert (lread (start + 0 + 1) (LState g t) = Panic "bget: no buffers") as E.
  { pose proof (tx_start _ _ Htx) as [? ?]. unfold LOGBLOCKS, MAXOPBLOCKS in *.
    unfold lread. erewrite bind_Ok by done. simpl. rewrite (u32_small (start + 0 + 1)) by lia.
    unfold zoom. rewrite (bread_exhausted t _ (start + 0 + 1) Hr); [done| |].
    - eapply (pins_off_log g); [exact Htx|exact Hp|]. unfold in_log, LOGBLOCKS, MAXOPBLOCKS. simpl. lia.
    - intros i. apply (all_live t _ i Hr). simpl. rewrite (pins_size g B c Htx live Hp). done. }
  assert (write_log (LState g t) = Panic "bget: no buffers") as Ew.
  { change (for_range (Z.to_nat (lh_n g)) 0 write_log_one (LState g t) = Panic "bget: no buffers").
    replace (Z.to_nat (lh_n g)) with (S 29) by (simpl; rewrite Nat2Z.id, Hlen; done).
    apply bind_Panic. unfold write_log_one. erewrite bind_Ok by done. by apply bind_Panic. }
  assert (commit (LState g t) = Panic "bget: no buffers") as Ec.
  { unfold commit. erewrite bind_Ok by done.
    replace (lh_n (l_log (LState g t)) >? 0) with true by (simpl; by rewrite Hlen).
    by apply bind_Panic. }
  unfold end_op. rewrite (bind_Ok end_op_close _ _ true (LState g t)) by done. by apply bind_Panic.
Qed.

End full.

Definition fill (a : Z) (k : nat) : list (Z * list Z) := map (fun i => (a + Z.of_nat i, [])) (seq 0 k).

(** A log filled by one process. *)
Lemma ex_full : exists d s c, @tx_state d 2 (fill 50 30).*1 c 1 s.
Proof.
  destruct (@reboot_idle ex_budget 2 ex_disk 1 (fun _ => []) ex_clean) as (s0 & _ & S0 & _).
  destruct (@begin_op_spec ex_budget _ _ _ _ S0) as (s1 & _ & S1 & _).
  destruct (@tx_puts_spec ex_budget _ 2 [] _ 1 s1 (fill 50 29) S1) as (s2 & _ & S2 & _).
  - done.
  - simpl. blocks_ok.
  - apply Nat.ltb_lt. reflexivity.
  - destruct (@tx_put_spec ex_budget _ 2 _ _ 1 s2 (79, []) S2) as (s3 & _ & S3 & _).
    + done.
    + unfold tx_block_ok, in_log, LOGBLOCKS, MAXOPBLOCKS. simpl. lia.
    + apply Nat.ltb_lt. reflexivity.
    + do 3 eexists. exact S3.
Qed.

Lemma full_log_panics_witness : exists d s c,
  @tx_state d 2 (fill 50 30).*1 c 1 s /\ @end_op ex_budget s = Panic "bget: no buffers".
Proof.
  destruct ex_full as (d & s & c & Hs). exists d, s, c. split; [exact Hs|].
  apply (@full_log_panics ex_budget d 2 (fill 50 30).*1 c s Hs). reflexivity.
Defined.

(** Three admitted operations that log ten blocks each get there. *)
Example three_operations_fill_the_log :
  (@reboot ex_budget 2 ;; @begin_op ex_budget ;; @begin_op ex_budget ;; @begin_op ex_budget ;;
   @tx_puts ex_budget (fill 50 10) ;; @tx_puts ex_budget (fill 60 10) ;; @tx_puts ex_budget (fill 70 10) ;;
   @end_op ex_budget ;; @end_op ex_budget ;; @end_op ex_budget) (boot_log (boot_bio ex_disk 1))
  = Panic "bget: no buffers".
Proof. vm_compute. reflexivity. Qed.
