(* ===== verification/Pipe.v ===== *)
(** * kernel/pipe.c

   A pipe is a ring of PIPESIZE bytes with two free-running 32-bit counters.
   The calls run on the pipe, the calling process's memory (any [UserOps])
   and the answers killed() gives during the call, which other CPUs decide.
   pipealloc()'s file side is in the file table's model; here it is the
   initial pipe. *)

From stdpp Require Import base numbers list gmap strings.
From Stdlib Require Import ZArith Lia.
From S2P Require Import Prelude Params UserMem.

Definition PIPESIZE : Z := 512.

Record pipe := Pipe {
  pi_lock : bool;
  pi_data : list Z;
  pi_nread : Z;
  pi_nwrite : Z;
  pi_readopen : bool;
  pi_writeopen : bool
}.

Record pstate (U : Type) := PState {
  ps_pi : pipe;
  ps_user : U;
  ps_kills : list bool;      (* what killed(pr) will answer, call by call *)
  ps_freed : bool;           (* the page went back to kfree() *)
  ps_woken : list chan
}.
Arguments PState {U} ps_pi ps_user ps_kills ps_freed ps_woken.
Arguments ps_pi {U} p.
Arguments ps_user {U} p.
Arguments ps_kills {U} p.
Arguments ps_freed {U} p.
Arguments ps_woken {U} p.

(** what pipealloc() stores in a fresh page *)
Definition pipe_init (page : list Z) : pipe := Pipe false page 0 0 true true.

Section ops.
Context {U : Type} `{UserOps U} `{WakeBudget} (self : Z).

Definition set_pi (f : pipe -> pipe) (s : pstate U) : pstate U :=
  PState (f (ps_pi s)) (ps_user s) (ps_kills s) (ps_freed s) (ps_woken s).
Definition set_user (u : U) (s : pstate U) : pstate U :=
  PState (ps_pi s) u (ps_kills s) (ps_freed s) (ps_woken s).

Definition L_ps_user : lens (pstate U) U := Lens ps_user set_user.
Definition L_pi_lock : lens (pstate U) bool :=
  Lens (fun s => pi_lock (ps_pi s))
    (fun b => set_pi (fun p => Pipe b (pi_data p) (pi_nread p) (pi_nwrite p) (pi_readopen p) (pi_writeopen p))).
#[global] Instance pstate_woken : Woken (pstate U) :=
  Lens ps_woken (fun w s => PState (ps_pi s) (ps_user s) (ps_kills s) (ps_freed s) w).

Definition killed : M (pstate U) bool := fun s =>
  Ok (default false (head (ps_kills s)))
     (PState (ps_pi s) (ps_user s) (tail (ps_kills s)) (ps_freed s) (ps_woken s)).

Definition set_open (w r : bool) (p : pipe) : pipe :=
  Pipe (pi_lock p) (pi_data p) (pi_nread p) (pi_nwrite p) r w.

Definition pipeclose (writable : bool) : M (pstate U) unit :=
  lock_acquire L_pi_lock ;;
  (if writable then
     modify (set_pi (fun p => set_open false (pi_readopen p) p)) ;; wakeup (ChPipeRead self)
   else
     modify (set_pi (fun p => set_open (pi_writeopen p) false p)) ;; wakeup (ChPipeWrite self)) ;;
  let* p := gets (fun s => ps_pi s) in
  if negb (pi_readopen p) && negb (pi_writeopen p) then
    lock_release L_pi_lock ;;
    modify (fun s => PState (ps_pi s) (ps_user s) (ps_kills s) true (ps_woken s))
  else lock_release L_pi_lock.

(** pi->data[pi->nwrite++ % PIPESIZE] = ch; *)
Definition put_byte (ch : Z) (p : pipe) : pipe :=
  Pipe (pi_lock p) (<[Z.to_nat (pi_nwrite p mod PIPESIZE) := ch]> (pi_data p))
       (pi_nread p) (u32 (pi_nwrite p + 1)) (pi_readopen p) (pi_writeopen p).

(** ch = pi->data[pi->nread++ % PIPESIZE]; *)
Definition next_byte (p : pipe) : Z := default 0 (pi_data p !! Z.to_nat (pi_nread p mod PIPESIZE)).
Definition take_byte (p : pipe) : pipe :=
  Pipe (pi_lock p) (pi_data p) (u32 (pi_nread p + 1)) (pi_nwrite p) (pi_readopen p) (pi_writeopen p).

(** while(i < n) of pipewrite(); [None] is the return of -1 inside it. *)
Fixpoint pipewrite_loop (fuel : nat) (addr n i : Z) : M (pstate U) (option Z) :=
  if i <? n then
    match fuel with
    | O => diverge
    | S f =>
        let* p := gets (fun s => ps_pi s) in
        let* k := (if negb (pi_readopen p) then ret true else killed) in
        if k then lock_release L_pi_lock ;; ret None
        else if pi_nwrite p =? u32 (pi_nread p + PIPESIZE) then
          wakeup (ChPipeRead self) ;;
          sleep_on (ChPipeWrite self) L_pi_lock ;;
          pipewrite_loop f addr n i
        else
          let* r := zoom L_ps_user (ucopyin (addr + i) 1) in
          match r with
          | (true, ch :: _) => modify (set_pi (put_byte ch)) ;; pipewrite_loop f addr n (i + 1)
          | _ => ret (Some i)
          end
    end
  else ret (Some i).

Definition pipewrite (addr n : Z) : M (pstate U) Z :=
  lock_acquire L_pi_lock ;;
  let* r := pipewrite_loop (Z.to_nat n + wake_budget) addr n 0 in
  match r with
  | None => ret (-1)
  | Some i => wakeup (ChPipeRead self) ;; lock_release L_pi_lock ;; ret i
  end.

(** while(pi->nread == pi->nwrite && pi->writeopen) of piperead(); [true]
    when the loop ends, [false] for the return of -1. *)
Fixpoint piperead_wait (fuel : nat) : M (pstate U) bool :=
  let* p := gets (fun s => ps_pi s) in
  if (pi_nread p =? pi_nwrite p) && pi_writeopen p then
    let* k := killed in
    if k then lock_release L_pi_lock ;; ret false
    else
      match fuel with
      | O => diverge
      | S f => sleep_on (ChPipeRead self) L_pi_lock ;; piperead_wait f
      end
  else ret true.

(** for(i = 0; i < n; i++) of piperead() *)
Fixpoint piperead_copy (k : nat) (addr i : Z) : M (pstate U) Z :=
  match k with
  | O => ret i
  | S k' =>
      let* p := gets (fun s => ps_pi s) in
      if pi_nread p =? pi_nwrite p then ret i
      else
        modify (set_pi take_byte) ;;
        let* ok := zoom L_ps_user (ucopyout (addr + i) [next_byte p]) in
        if ok : bool then piperead_copy k' addr (i + 1) else ret i
  end.

Definition piperead (addr n : Z) : M (pstate U) Z :=
  lock_acquire L_pi_lock ;;
  let* ok := piperead_wait wake_budget in
  if ok then
    let* i := piperead_copy (Z.to_nat n) addr 0 in
    wakeup (ChPipeWrite self) ;;
    lock_release L_pi_lock ;;
    ret i
  else ret (-1).

End ops.

(* ------------------------------------------------------------------ *)
(** ** The queue of bytes in the ring *)

Definition pcount (p : pipe) : Z := u32 (pi_nwrite p - pi_nread p).
Definition ring_at (p : pipe) (k : nat) : Z :=
  default 0 (pi_data p !! Z.to_nat ((pi_nread p + Z.of_nat k) mod PIPESIZE)).
Definition pqueue (p : pipe) : list Z := map (ring_at p) (seq 0 (Z.to_nat (pcount p))).

Record pipe_ok (p : pipe) : Prop := {
  po_len : length (pi_data p) = Z.to_nat PIPESIZE;
  po_r : 0 <= pi_nread p < 2 ^ 32;
  po_w : 0 <= pi_nwrite p < 2 ^ 32;
  po_count : pcount p <= PIPESIZE
}.

Lemma u32_mod_size z : u32 z mod PIPESIZE = z mod PIPESIZE.
Proof. unfold u32, PIPESIZE. apply Z.mod_mod_divide. by exists 8388608. Qed.

Lemma pcount_range p : 0 <= pcount p < 2 ^ 32.
Proof. apply u32_range. Qed.

Lemma length_pqueue p : length (pqueue p) = Z.to_nat (pcount p).
Proof. unfold pqueue. by rewrite length_map, length_seq. Qed.

Lemma pipe_full p : pipe_ok p ->
  (pi_nwrite p =? u32 (pi_nread p + PIPESIZE)) = true <-> length (pqueue p) = Z.to_nat PIPESIZE.
Proof.
  intros [_ Hr Hw Hc]. rewrite Z.eqb_eq, length_pqueue. pose proof (pcount_range p).
  unfold pcount, u32, PIPESIZE in *. split; intros Heq; divlia.
Qed.

Lemma pipe_empty p : pipe_ok p -> (pi_nread p =? pi_nwrite p) = true <-> pqueue p = [].
Proof.
  intros [_ Hr Hw Hc]. rewrite Z.eqb_eq. rewrite <- (length_zero_iff_nil (pqueue p)), length_pqueue.
  pose proof (pcount_range p). unfold pcount, u32, PIPESIZE in *. split; intros Heq; divlia.
Qed.

Lemma put_byte_ok p c : pipe_ok p -> (pi_nwrite p =? u32 (pi_nread p + PIPESIZE)) = false ->
  pipe_ok (put_byte c p) /\ pcount (put_byte c p) = pcount p + 1.
Proof.
  intros [Hl Hr Hw Hc] Hf%Z.eqb_neq. assert (pcount (put_byte c p) = pcount p + 1) as Hp.
  { unfold pcount, put_byte, u32, PIPESIZE in *. simpl. divlia. }
  split; [|done]. split; simpl; [by rewrite length_insert|done|apply u32_range|].
  rewrite Hp. unfold pcount, put_byte, u32, PIPESIZE in *. divlia.
Qed.

(** Writing a byte appends it. *)
Lemma put_byte_queue p c : pipe_ok p -> (pi_nwrite p =? u32 (pi_nread p + PIPESIZE)) = false ->
  pqueue (put_byte c p) = pqueue p ++ [c].
Proof.
  intros Hok Hf. destruct (put_byte_ok p c Hok Hf) as [Hok' Hp]. destruct Hok as [Hl Hr Hw Hc].
  pose proof (pcount_range p). unfold pqueue. rewrite Hp, Z2Nat.inj_add, Nat.add_1_r, seq_S, map_app by lia.
  assert (forall k, (k <= Z.to_nat (pcount p))%nat -> pcount p < PIPESIZE ->
    (pi_nread p + Z.of_nat k) mod PIPESIZE = pi_nwrite p mod PIPESIZE -> k = Z.to_nat (pcount p)) as Hdist.
  { intros k. unfold pcount, u32, PIPESIZE in *. intros. divlia. }
  assert (pcount p < PIPESIZE) as Hlt.
  { pose proof (po_count _ Hok'). lia. }
  f_equal.
  - apply map_ext_in. intros k Hk. apply in_seq in Hk. unfold ring_at. simpl.
    rewrite list_lookup_insert_ne; [done|]. intros Heq. apply Z2Nat.inj in Heq; [|unfold PIPESIZE; divlia..].
    specialize (Hdist k). lia.
  - simpl. unfold ring_at. simpl. rewrite Z2Nat.id by lia.
    assert ((pi_nread p + pcount p) mod PIPESIZE = pi_nwrite p mod PIPESIZE) as ->.
    { unfold pcount, u32, PIPESIZE. divlia. }
    rewrite list_lookup_insert_eq; [done|]. rewrite Hl. unfold PIPESIZE. divlia.
Qed.

Lemma take_byte_ok p : pipe_ok p -> (pi_nread p =? pi_nwrite p) = false ->
  pipe_ok (take_byte p) /\ pqueue p = next_byte p :: pqueue (take_byte p).
Proof.
  intros [Hl Hr Hw Hc] Hf%Z.eqb_neq. pose proof (pcount_range p).
  assert (0 < pcount p) as Hpos by (unfold pcount, u32 in *; divlia).
  assert (pcount (take_byte p) = pcount p - 1) as Hp.
  { unfold pcount, take_byte, u32 in *. simpl. divlia. }
  split.
  - split; simpl; [done|apply u32_range|done|rewrite Hp; lia].
  - unfold pqueue. rewrite Hp. replace (Z.to_nat (pcount p)) with (S (Z.to_nat (pcount p - 1))) by lia.
    cbn [seq map]. f_equal.
    + unfold ring_at, next_byte. by rewrite Z.add_0_r.
    + rewrite <- seq_shift, map_map. apply map_ext. intros k. unfold ring_at. simpl.
      assert ((pi_nread p + Z.of_nat (S k)) mod PIPESIZE = (u32 (pi_nread p + 1) + Z.of_nat k) mod PIPESIZE) as ->;
        [|done]. rewrite <- (Z.add_mod_idemp_l (u32 _)), u32_mod_size, Z.add_mod_idemp_l by done.
      f_equal. lia.
Qed.

(* ------------------------------------------------------------------ *)
(** ** pipewrite() *)

(** Everything ever written to the pipe is [w]: a part already read, then
    the queue. *)
Definition hist (w : list Z) (p : pipe) : Prop := exists read, w = read ++ pqueue p.

Section specs.
Context {U : Type} `{UserMem U} `{WakeBudget} (self : Z).

(** What other processes may do to the pipe while a writer sleeps: readers
    take bytes from the front, ends are closed; and while a reader sleeps:
    writers append bytes, ends are closed.  What killed() will answer is in
    the state from the start. *)
Definition readers_move (c : chan) (s s' : pstate U) : Prop :=
  pi_lock (ps_pi s') = false /\ pipe_ok (ps_pi s') /\ same_user (ps_user s) (ps_user s') /\
  ps_kills s' = ps_kills s /\ exists j, pqueue (ps_pi s') = drop j (pqueue (ps_pi s)).
Definition writers_move (c : chan) (s s' : pstate U) : Prop :=
  pi_lock (ps_pi s') = false /\ pipe_ok (ps_pi s') /\ same_user (ps_user s) (ps_user s') /\
  ps_kills s' = ps_kills s /\ exists x, pqueue (ps_pi s') = pqueue (ps_pi s) ++ x.

(** Since [s0], killed() has said no each time; it has said yes, at last. *)
Definition not_killed (s0 s : pstate U) : Prop :=
  exists j, ps_kills s = drop j (ps_kills s0) /\ forall k, (k < j)%nat -> ps_kills s0 !! k <> Some true.
Definition was_killed (s0 s : pstate U) : Prop :=
  exists j, ps_kills s = drop (S j) (ps_kills s0) /\ ps_kills s0 !! j = Some true /\
    forall k, (k < j)%nat -> ps_kills s0 !! k <> Some true.

Definition writer_sleeps (c : chan) (s : pstate U) : Prop :=
  c = ChPipeWrite self /\ pi_lock (ps_pi s) = false /\ pi_readopen (ps_pi s) = true /\
  length (pqueue (ps_pi s)) = Z.to_nat PIPESIZE /\ last (ps_woken s) = Some (ChPipeRead self).
Definition reader_sleeps (c : chan) (s : pstate U) : Prop :=
  c = ChPipeRead self /\ pi_lock (ps_pi s) = false /\ pi_writeopen (ps_pi s) = true /\
  pqueue (ps_pi s) = [].

(** [i] bytes of the user buffer at [addr] have been appended since [s0]. *)
Record appended (s0 : pstate U) (addr : Z) (i : nat) (s : pstate U) : Prop := {
  ap_ok : pipe_ok (ps_pi s);
  ap_view : same_user (ps_user s0) (ps_user s);
  ap_hist : forall w, hist w (ps_pi s0) -> hist (w ++ ubytes (ps_user s0) addr i) (ps_pi s)
}.

(** killed() answers from the list. *)
Lemma killed_answer s0 s : not_killed s0 s ->
  exists b s1, killed s = Ok b s1 /\ ps_pi s1 = ps_pi s /\ ps_user s1 = ps_user s /\ ps_woken s1 = ps_woken s /\
    (if b then was_killed s0 s1 else not_killed s0 s1).
Proof.
  intros (j & Ej & Hj). unfold killed. eexists _, _. do 4 (split; [done|]).
  destruct (ps_kills s) as [|b t] eqn:Ek; simpl.
  - exists j. by rewrite <- Ej.
  - assert (ps_kills s0 !! j = Some b) as Hb by (rewrite <- (Nat.add_0_r j), <- lookup_drop, <- Ej; done).
    assert (t = drop (S j) (ps_kills s0)) as -> by (rewrite (drop_S _ _ _ Hb) in Ej; by injection Ej).
    destruct b; [by exists j|]. exists (S j). split; [done|]. intros k Hk.
    destruct (decide (k = j)) as [->|]; [congruence|]. apply Hj. lia.
Qed.

Lemma appended_drop s0 addr i s s' :
  appended s0 addr i s -> readers_move (ChPipeWrite self) s s' -> appended s0 addr i s'.
Proof.
  intros [Hok Hv Hh] (_ & Hok' & Hv' & _ & j & Hq). split; [done| |].
  - by eapply same_user_trans.
  - intros w Hw. destruct (Hh w Hw) as [read Hr]. exists (read ++ take j (pqueue (ps_pi s))).
    rewrite Hr, Hq, <- app_assoc. by rewrite take_drop.
Qed.

Lemma appended_put s0 addr i s u' ch :
  appended s0 addr i s -> (pi_nwrite (ps_pi s) =? u32 (pi_nread (ps_pi s) + PIPESIZE)) = false ->
  copyin (ps_user s) (addr + Z.of_nat i) 1 = (Some [ch], u') ->
  appended s0 addr (S i) (set_pi (put_byte ch) (set_user u' s)).
Proof.
  intros [Hok Hv Hh] Hf Hc. split; simpl.
  - by apply put_byte_ok.
  - eapply same_user_trans; [exact Hv|by eapply copyin_same].
  - intros w Hw. destruct (Hh w Hw) as [read Hr]. exists read. rewrite put_byte_queue by done.
    rewrite ubytes_S, !app_assoc, <- Hr. do 2 f_equal.
    pose proof (copyin_ubytes (ps_user s) (addr + Z.of_nat i) 1 [ch]) as Hu. rewrite Hc in Hu.
    specialize (Hu eq_refl). injection Hu as ->. by rewrite Z.add_0_r, (proj1 Hv).
Qed.

Lemma pipe_ok_lock b (s : pstate U) : pipe_ok (ps_pi s) -> pipe_ok (ps_pi (lset L_pi_lock b s)).
Proof. intros []. by split. Qed.

Lemma appended_lock b s0 addr i s : appended s0 addr i s -> appended s0 addr i (lset L_pi_lock b s).
Proof. intros [Hok Hv Hh]. split; [by apply pipe_ok_lock|exact Hv|exact Hh]. Qed.

Lemma appended_woken w s0 addr i s : appended s0 addr i s -> appended s0 addr i (lset woken w s).
Proof. by intros []. Qed.

(** Results of the loop: all of it, or up to an address that is not mapped
    for the caller, or -1 after the reader went away or the process was
    killed. *)
Definition loop_post (s0 : pstate U) (addr n : Z) (r : option Z) (s : pstate U) : Prop :=
  exists i, (i <= Z.to_nat n)%nat /\ appended s0 addr i s /\
    match r with
    | Some z => z = Z.of_nat i /\ pi_lock (ps_pi s) = true /\ not_killed s0 s /\
        (n <= 0 \/ pi_readopen (ps_pi s) = true) /\
        (Z.of_nat i = Z.max 0 n \/ ~ uread (ps_user s0) (addr + Z.of_nat i))
    | None => pi_lock (ps_pi s) = false /\ Z.of_nat i < n /\ (pi_readopen (ps_pi s) = false \/ was_killed s0 s)
    end.

(** if(pi->readopen == 0 || killed(pr)) *)
Lemma write_check s0 s : not_killed s0 s ->
  exists b s1, (if negb (pi_readopen (ps_pi s)) then ret true else killed) s = Ok b s1 /\
    ps_pi s1 = ps_pi s /\ ps_user s1 = ps_user s /\
    if b then pi_readopen (ps_pi s1) = false \/ was_killed s0 s1 else pi_readopen (ps_pi s1) = true /\ not_killed s0 s1.
Proof.
  intros Hk. destruct (pi_readopen (ps_pi s)) eqn:Er; simpl; [|by exists true, s; auto].
  destruct (killed_answer s0 s Hk) as (b & s1 & E & Hp & Hu & _ & Hb). exists b, s1. split; [done|]. split; [done|]. split; [done|].
  destruct b; [by right|]. by rewrite Hp.
Qed.

Lemma pipewrite_loop_spec s0 addr n fuel k i s :
  (k = 0 \/ Z.to_nat n - i + k <= fuel)%nat -> (i <= Z.to_nat n)%nat ->
  appended s0 addr i s -> pi_lock (ps_pi s) = true -> not_killed s0 s ->
  (i = 0%nat \/ pi_readopen (ps_pi s) = true \/ Z.of_nat i < n) ->
  rg k writer_sleeps readers_move (loop_post s0 addr n) (pipewrite_loop self fuel addr n (Z.of_nat i) s).
Proof.
  revert k i s. induction fuel as [|fuel IH]; intros k i s Hk Hi Hap Hlk Hnk Hro; cbn [pipewrite_loop];
    destruct (Z.ltb_spec (Z.of_nat i) n) as [Hlt|Hge].
  - simpl. lia.
  - exists i. split_and!; try done; [destruct Hro as [->|[?|?]]; [left; lia|by right|lia]|]. left. lia.
  - unfold bind at 1. simpl. unfold bind at 1. destruct (write_check s0 s Hnk) as (b & s2 & -> & Hpi & Hus & Hb).
    assert (appended s0 addr i s2) as Hap2 by (destruct Hap; split; by rewrite ?Hpi, ?Hus).
    simpl. destruct b.
    { unfold bind, lock_release. simpl. rewrite Hpi, Hlk. simpl. exists i. split; [done|].
      split; [by apply (appended_lock false)|]. split; [done|]. split; [done|].
      destruct Hb as [Hb|Hb]; [left; exact Hb|right; exact Hb]. }
    rewrite <- Hpi in *. clear s Hap Hpi Hus Hnk Hro. rename s2 into s, Hap2 into Hap. destruct Hb as [Hro Hnk].
    destruct (pi_nwrite (ps_pi s) =? u32 (pi_nread (ps_pi s) + PIPESIZE)) eqn:Hfull.
    + unfold bind at 1. simpl. unfold sleep_on, bind, lock_release, yield_to, lock_acquire. simpl.
      rewrite Hlk. simpl. split.
      * split; [done|]. split; [done|]. split; [done|]. split; [|apply last_snoc].
        by apply (pipe_full _ (ap_ok _ _ _ _ Hap)).
      * intros s' Hmv. pose proof Hmv as (Hlk' & _ & _ & Hks & _). rewrite Hlk'. simpl.
        apply IH; [lia|done| |done| |by right; right].
        -- assert (appended s0 addr i s') as Hap'.
           { eapply appended_drop; [|exact Hmv]. by apply (appended_lock false), appended_woken. }
           by apply (appended_lock true).
        -- destruct Hnk as (j & Ej & Hj). exists j. simpl. by rewrite Hks.
    + unfold bind at 1. simpl.
      destruct (copyin (ps_user s) (addr + Z.of_nat i) 1) as [[bs|] u'] eqn:Ec.
      * pose proof (copyin_bytes (ps_user s) (addr + Z.of_nat i) 1 bs) as Hlen. rewrite Ec in Hlen.
        destruct (Hlen eq_refl) as [Hl1 _]. destruct bs as [|ch [|]]; try done.
        unfold bind, modify. simpl. replace (Z.of_nat i + 1) with (Z.of_nat (S i)) by lia.
        apply IH; [lia|lia|by apply appended_put|done|exact Hnk|by right; left].
      * unfold bind, modify. simpl. exists i. split; [done|]. split.
        { destruct Hap as [Hok Hv Hh]. split; simpl; [done| |done]. eapply same_user_trans; [exact Hv|by eapply copyin_same]. }
        split; [done|]. split; [done|]. split; [exact Hnk|]. split; [by right|]. right. intros Hm.
        apply (copyin_fails (ps_user s) (addr + Z.of_nat i) 1); [by rewrite Ec|]. intros [|] ?; [|lia]. rewrite Z.add_0_r.
        by apply (ap_view _ _ _ _ Hap).
  - exists i. split_and!; try done; [destruct Hro as [->|[?|?]]; [left; lia|by right|lia]|]. left. lia.
Qed.

(* ------------------------------------------------------------------ *)
(** ** piperead() *)

(** [i] bytes of the queue [q] went to user memory at [addr], and nothing
    outside the [e] bytes from [addr] changed. *)
Record placed (u0 : U) (addr : Z) (q : list Z) (i e : nat) (u : U) : Prop := {
  pl_bytes : forall k x, (k < i)%nat -> q !! k = Some x -> uview u (addr + Z.of_nat k) = u8 x;
  pl_out : forall b, b < addr \/ addr + Z.of_nat e <= b -> uview u b = uview u0 b;
  pl_maps : keeps_mapped u0 u
}.
Record taken (u0 : U) (addr : Z) (q : list Z) (i : nat) (s : pstate U) : Prop := {
  tk_ok : pipe_ok (ps_pi s);
  tk_queue : pqueue (ps_pi s) = drop i q;
  tk_user : placed u0 addr q i i (ps_user s)
}.
(** copyout() of the next byte failed: it is gone from the queue as well. *)
Definition lost (u0 : U) (addr : Z) (q : list Z) (i : nat) (s : pstate U) : Prop :=
  ~ uwrite u0 (addr + Z.of_nat i) /\ pipe_ok (ps_pi s) /\ pqueue (ps_pi s) = drop (S i) q /\
  placed u0 addr q i (S i) (ps_user s).

Definition copy_post (s0 : pstate U) (addr : Z) (q : list Z) (n : nat) (r : Z) (s : pstate U) : Prop :=
  (pi_lock (ps_pi s) = true /\ pi_writeopen (ps_pi s) = pi_writeopen (ps_pi s0) /\ ps_kills s = ps_kills s0) /\
  exists i, r = Z.of_nat i /\
    ((i = Nat.min n (length q) /\ taken (ps_user s0) addr q i s) \/
     ((i < Nat.min n (length q))%nat /\ lost (ps_user s0) addr q i s)).

Lemma placed_next u0 addr q i u u' x : placed u0 addr q i i u -> q !! i = Some x ->
  copyout u (addr + Z.of_nat i) [x] = (true, u') -> placed u0 addr q (S i) (S i) u'.
Proof.
  intros [Hb Ho Hm] Hx E. pose proof (copyout_out u (addr + Z.of_nat i) [x]) as Hout.
  pose proof (copyout_in u (addr + Z.of_nat i) [x] 0) as Hin. pose proof (copyout_maps u (addr + Z.of_nat i) [x]) as Hmm.
  rewrite E in Hout, Hin, Hmm. simpl in Hout, Hin, Hmm. split.
  - intros k y Hk Hy. destruct (decide (k = i)) as [->|].
    + rewrite <- (Z.add_0_r (addr + Z.of_nat i)). apply (Hin y); [done|congruence].
    + rewrite Hout by lia. apply Hb; [lia|done].
  - intros b Hb'. rewrite Hout by lia. apply Ho. lia.
  - eapply keeps_trans; [exact Hm|exact Hmm].
Qed.
Lemma placed_fail u0 addr q i u u' x : placed u0 addr q i i u -> copyout u (addr + Z.of_nat i) [x] = (false, u') ->
  ~ uwrite u0 (addr + Z.of_nat i) /\ placed u0 addr q i (S i) u'.
Proof.
  intros [Hb Ho Hm] E. pose proof (copyout_out u (addr + Z.of_nat i) [x]) as Hout.
  pose proof (copyout_maps u (addr + Z.of_nat i) [x]) as Hmm. rewrite E in Hout, Hmm. simpl in Hout, Hmm. split.
  - intros Hw. apply (copyout_fails u (addr + Z.of_nat i) [x]); [by rewrite E|]. intros [|] Hk; [|simpl in Hk; lia].
    rewrite Z.add_0_r. by apply Hm.
  - split.
    + intros k y Hk Hy. rewrite Hout by lia. by apply Hb.
    + intros b Hb'. rewrite Hout by lia. apply Ho. lia.
    + eapply keeps_trans; [exact Hm|exact Hmm].
Qed.

Lemma piperead_copy_spec s0 addr q n k i s :
  (i + k = n)%nat -> (i <= length q)%nat -> taken (ps_user s0) addr q i s -> pi_lock (ps_pi s) = true ->
  pi_writeopen (ps_pi s) = pi_writeopen (ps_pi s0) -> ps_kills s = ps_kills s0 ->
  wp (piperead_copy k addr (Z.of_nat i)) (copy_post s0 addr q n) s.
Proof.
  revert i s. induction k as [|k IH]; intros i s Hik Hi Ht Hlk Hw Hks; cbn [piperead_copy].
  - split; [done|]. exists i. split; [done|]. left. split; [lia|done].
  - apply wp_bind, wp_gets. destruct (pi_nread (ps_pi s) =? pi_nwrite (ps_pi s)) eqn:He.
    + apply (pipe_empty _ (tk_ok _ _ _ _ _ Ht)) in He. rewrite (tk_queue _ _ _ _ _ Ht) in He.
      apply (f_equal length) in He. rewrite length_drop in He. simpl in He.
      split; [done|]. exists i. split; [done|]. left. split; [lia|done].
    + destruct (take_byte_ok _ (tk_ok _ _ _ _ _ Ht) He) as [Hok' Hq].
      rewrite (tk_queue _ _ _ _ _ Ht) in Hq.
      assert (i < length q)%nat as Hlt.
      { apply (f_equal length) in Hq. rewrite length_drop in Hq. simpl in Hq. lia. }
      assert (q !! i = Some (next_byte (ps_pi s))) as Hx.
      { rewrite <- (Nat.add_0_r i), <- lookup_drop, Hq. done. }
      assert (pqueue (take_byte (ps_pi s)) = drop (S i) q) as Hq'.
      { rewrite (drop_S _ _ _ Hx) in Hq. by injection Hq. }
      apply wp_bind, wp_modify, wp_bind. unfold wp, zoom. simpl.
      destruct (copyout (ps_user s) (addr + Z.of_nat i) [next_byte (ps_pi s)]) as [[] u'] eqn:Ec; simpl.
      * replace (Z.of_nat i + 1) with (Z.of_nat (S i)) by lia. apply IH; [lia|lia| |done|done|done].
        split; [done|done|]. by eapply placed_next; [apply Ht|exact Hx|].
      * split; [done|]. exists i. split; [done|]. right. split; [lia|].
        destruct (placed_fail _ _ _ _ _ _ _ (tk_user _ _ _ _ _ Ht) Ec). by split_and!.
Qed.

(** The wait of piperead(): it ends with bytes in the queue, or with the
    write end closed, or with -1 for a process that was killed while the
    pipe was empty and open. *)
Definition waited (s0 : pstate U) (ok : bool) (s : pstate U) : Prop :=
  pipe_ok (ps_pi s) /\ same_user (ps_user s0) (ps_user s) /\ (exists x, pqueue (ps_pi s) = pqueue (ps_pi s0) ++ x) /\
  if ok then pi_lock (ps_pi s) = true /\ not_killed s0 s /\ (pqueue (ps_pi s) <> [] \/ pi_writeopen (ps_pi s) = false)
  else pi_lock (ps_pi s) = false /\ was_killed s0 s /\ pqueue (ps_pi s) = [] /\ pi_writeopen (ps_pi s) = true.

Lemma wait_killed s0 n s : pi_lock (ps_pi s) = true -> pipe_ok (ps_pi s) -> same_user (ps_user s0) (ps_user s) ->
  (exists x, pqueue (ps_pi s) = pqueue (ps_pi s0) ++ x) -> was_killed s0 s -> pqueue (ps_pi s) = [] ->
  pi_writeopen (ps_pi s) = true -> rg n reader_sleeps writers_move (waited s0) ((lock_release L_pi_lock ;; ret false) s).
Proof.
  intros Hlk Hok Hv Hq Hk He Hw. unfold bind, lock_release. simpl. rewrite Hlk. simpl.
  split; [by apply (pipe_ok_lock false)|]. split; [done|]. split; [exact Hq|]. done.
Qed.

Lemma piperead_wait_spec s0 fuel s :
  pi_lock (ps_pi s) = true -> pipe_ok (ps_pi s) -> same_user (ps_user s0) (ps_user s) ->
  (exists x, pqueue (ps_pi s) = pqueue (ps_pi s0) ++ x) -> not_killed s0 s ->
  rg fuel reader_sleeps writers_move (waited s0) (piperead_wait self fuel s).
Proof.
  revert s. induction fuel as [|fuel IH]; intros s Hlk Hok Hv Hq Hnk; cbn [piperead_wait]; unfold bind at 1; simpl;
    (destruct (pi_nread (ps_pi s) =? pi_nwrite (ps_pi s)) eqn:He; simpl;
      [|split_and!; try done; left; intros Hn; apply (pipe_empty _ Hok) in Hn; by rewrite Hn in He]);
    (destruct (pi_writeopen (ps_pi s)) eqn:Hw; simpl; [|split_and!; try done; by right]);
    apply (pipe_empty _ Hok) in He; unfold bind at 1;
    destruct (killed_answer s0 s Hnk) as ([] & s1 & -> & Hp & Hu & _ & Hk); cbn [out_bind];
    try (by apply wait_killed; rewrite ?Hp, ?Hu).
  - done.
  - unfold sleep_on, bind, lock_release, yield_to, lock_acquire. simpl. rewrite Hp, Hlk. simpl. split.
    { unfold reader_sleeps, set_pi. cbn [ps_pi pi_lock pi_writeopen]. rewrite Hp, Hw. done. }
    intros s' (Hlk' & Hok' & Hv' & Hks & x & Hq'). simpl in *. rewrite Hu in Hv'. rewrite Hlk'. simpl.
    apply IH; [done|by apply (pipe_ok_lock true)| | |].
    + simpl. by eapply same_user_trans.
    + destruct Hq as [y Hq]. exists (y ++ x).
      change (pqueue (ps_pi s') = pqueue (ps_pi s0) ++ y ++ x). rewrite Hq', app_assoc. f_equal.
      change (pqueue (ps_pi s1) = pqueue (ps_pi s0) ++ y). by rewrite Hp.
    + destruct Hk as (j & Ej & Hj). exists j. simpl. by rewrite Hks.
Qed.

Lemma not_killed_start (s0 s : pstate U) : ps_kills s = ps_kills s0 -> not_killed s0 s.
Proof. intros E. exists 0%nat. rewrite drop_0. split; [done|lia]. Qed.

(* ------------------------------------------------------------------ *)
(** ** Theorems *)



(** pipeclose() closes one end, wakes whoever waits on the other, and
    gives the page back exactly when both ends are closed; bytes already
    written stay readable. *)
Theorem pipeclose_frees_last (w : bool) (s : pstate U) :
  pi_lock (ps_pi s) = false ->
  exists s', pipeclose self w s = Ok tt s' /\ pi_lock (ps_pi s') = false /\
    pi_writeopen (ps_pi s') = (if w then false else pi_writeopen (ps_pi s)) /\
    pi_readopen (ps_pi s') = (if w then pi_readopen (ps_pi s) else false) /\
    ps_woken s' = ps_woken s ++ [if w then ChPipeRead self else ChPipeWrite self] /\
    ps_freed s' = (ps_freed s || negb (pi_readopen (ps_pi s') || pi_writeopen (ps_pi s'))) /\
    pqueue (ps_pi s') = pqueue (ps_pi s).
Proof.
  destruct s as [[lk dat nr nw ro wo] u ks fr wk]. simpl. intros ->.
  destruct w, ro, wo, fr; eexists; (split; [reflexivity|]); simpl; by split_and!.
Qed.

End specs.

Definition ex_pipe : pstate flat :=
  PState (pipe_init (replicate (Z.to_nat PIPESIZE) 0)) {[ 100 := 7; 101 := 8 ]} [] false [].

Lemma ex_pipe_ok : pipe_ok (ps_pi ex_pipe).
Proof. split; [reflexivity|simpl; lia|simpl; lia|]. unfold PIPESIZE. by vm_compute. Qed.


Definition ex_full_pipe : pstate flat :=
  PState (Pipe false ([7; 8] ++ replicate 510 0) 0 2 true true) {[ 100 := 0; 101 := 0 ]} [] false [].


Lemma pipeclose_frees_last_witness : exists s', @pipeclose flat 0 true ex_pipe = Ok tt s' /\
  ps_freed s' = false.
Proof.
  destruct (@pipeclose_frees_last flat 0 true ex_pipe eq_refl) as (s' & E & _ & _ & _ & _ & Hf & _).
  exists s'. split; [exact E|]. rewrite Hf. vm_compute in E. injection E as <-. reflexivity.
Defined.
