(* ===== verification/Console.v ===== *)
(** * kernel/console.c and kernel/uart.c

   The console's input ring with its read, write and edit indices, the line
   editing of the interrupt handler, read() and write() of the console, and
   the UART below it.  The UART itself is a device: the characters waiting
   in its receive register, what it will answer when asked whether it can
   transmit, and the characters it was given to send.  Reads and writes come
   from user memory (every caller passes user_src = user_dst = 1). *)

From stdpp Require Import base numbers list gmap strings.
From Stdlib Require Import ZArith Lia.
From S2P Require Import Prelude Params UserMem.

Definition BACKSPACE : Z := 256.
Definition INPUT_BUF_SIZE : Z := 128.
(** C(x): Control-x *)
Definition ctrl (x : Z) : Z := x - 64.
Definition NL : Z := 10.
Definition CR : Z := 13.

Record cons := Cons {
  co_lock : bool;
  co_buf : list Z;
  co_r : Z;      (* Read index *)
  co_w : Z;      (* Write index *)
  co_e : Z       (* Edit index *)
}.

Record cstate (U : Type) := CState {
  cs_cons : cons;
  cs_user : U;
  cs_kills : list bool;      (* what killed() will answer *)
  cs_tx_lock : bool;
  cs_tx_busy : bool;
  cs_idle : list bool;       (* what LSR_TX_IDLE will read *)
  cs_rx : list Z;            (* characters waiting in RHR *)
  cs_out : list Z;           (* characters written to THR *)
  cs_woken : list chan
}.
Arguments CState {U} cs_cons cs_user cs_kills cs_tx_lock cs_tx_busy cs_idle cs_rx cs_out cs_woken.
Arguments cs_cons {U} c.
Arguments cs_user {U} c.
Arguments cs_kills {U} c.
Arguments cs_tx_lock {U} c.
Arguments cs_tx_busy {U} c.
Arguments cs_idle {U} c.
Arguments cs_rx {U} c.
Arguments cs_out {U} c.
Arguments cs_woken {U} c.

Section ops.
Context {U : Type} `{UserOps U} `{WakeBudget}.

Definition set_cons (f : cons -> cons) (s : cstate U) : cstate U :=
  CState (f (cs_cons s)) (cs_user s) (cs_kills s) (cs_tx_lock s) (cs_tx_busy s) (cs_idle s)
         (cs_rx s) (cs_out s) (cs_woken s).
Definition set_cuser (u : U) (s : cstate U) : cstate U :=
  CState (cs_cons s) u (cs_kills s) (cs_tx_lock s) (cs_tx_busy s) (cs_idle s) (cs_rx s) (cs_out s) (cs_woken s).
Definition set_busy (b : bool) (s : cstate U) : cstate U :=
  CState (cs_cons s) (cs_user s) (cs_kills s) (cs_tx_lock s) b (cs_idle s) (cs_rx s) (cs_out s) (cs_woken s).
Definition send (c : Z) (s : cstate U) : cstate U :=
  CState (cs_cons s) (cs_user s) (cs_kills s) (cs_tx_lock s) (cs_tx_busy s) (cs_idle s) (cs_rx s)
         (cs_out s ++ [u8 c]) (cs_woken s).
Definition set_r (r : Z) (c : cons) : cons := Cons (co_lock c) (co_buf c) r (co_w c) (co_e c).
Definition set_w (w : Z) (c : cons) : cons := Cons (co_lock c) (co_buf c) (co_r c) w (co_e c).
Definition set_e (e : Z) (c : cons) : cons := Cons (co_lock c) (co_buf c) (co_r c) (co_w c) e.

Definition L_cs_user : lens (cstate U) U := Lens cs_user set_cuser.
Definition L_co_lock : lens (cstate U) bool :=
  Lens (fun s => co_lock (cs_cons s))
    (fun b => set_cons (fun c => Cons b (co_buf c) (co_r c) (co_w c) (co_e c))).
Definition L_tx_lock : lens (cstate U) bool :=
  Lens cs_tx_lock
    (fun b s => CState (cs_cons s) (cs_user s) (cs_kills s) b (cs_tx_busy s) (cs_idle s) (cs_rx s)
                       (cs_out s) (cs_woken s)).
#[global] Instance cstate_woken : Woken (cstate U) :=
  Lens cs_woken
    (fun w s => CState (cs_cons s) (cs_user s) (cs_kills s) (cs_tx_lock s) (cs_tx_busy s) (cs_idle s)
                       (cs_rx s) (cs_out s) w).

Definition ckilled : M (cstate U) bool := fun s =>
  Ok (default false (head (cs_kills s)))
     (CState (cs_cons s) (cs_user s) (tail (cs_kills s)) (cs_tx_lock s) (cs_tx_busy s) (cs_idle s)
             (cs_rx s) (cs_out s) (cs_woken s)).

(** ** uart.c *)

(** while(i < n) of uartwrite() *)
Fixpoint uartwrite_loop (bs : list Z) : M (cstate U) unit :=
  match bs with
  | [] => ret tt
  | c :: bs' =>
      sleep_while wake_budget cs_tx_busy ChUart L_tx_lock ;;
      modify (send c) ;;
      modify (set_busy true) ;;
      uartwrite_loop bs'
  end.
Definition uartwrite (bs : list Z) : M (cstate U) unit :=
  lock_acquire L_tx_lock ;; uartwrite_loop bs ;; lock_release L_tx_lock.

(** Spins until the device can transmit, with interrupts off; the device
    always gets there. *)
Definition uartputc_sync (c : Z) : M (cstate U) unit := modify (send c).

Definition uartgetc : M (cstate U) Z := fun s =>
  match cs_rx s with
  | [] => Ok (-1) s
  | c :: rx => Ok (u8 c) (CState (cs_cons s) (cs_user s) (cs_kills s) (cs_tx_lock s) (cs_tx_busy s)
                                (cs_idle s) rx (cs_out s) (cs_woken s))
  end.

Definition tx_idle : M (cstate U) bool := fun s =>
  Ok (default false (head (cs_idle s)))
     (CState (cs_cons s) (cs_user s) (cs_kills s) (cs_tx_lock s) (cs_tx_busy s) (tail (cs_idle s))
             (cs_rx s) (cs_out s) (cs_woken s)).

(** ** console.c *)

Definition consputc (c : Z) : M (cstate U) unit :=
  if c =? BACKSPACE then uartputc_sync 8 ;; uartputc_sync 32 ;; uartputc_sync 8
  else uartputc_sync c.

(** cons.buf[i % INPUT_BUF_SIZE] *)
Definition buf_at (i : Z) (c : cons) : Z := default 0 (co_buf c !! Z.to_nat (u32 i mod INPUT_BUF_SIZE)).
Definition put_at (i x : Z) (c : cons) : cons :=
  Cons (co_lock c) (<[Z.to_nat (u32 i mod INPUT_BUF_SIZE) := u8 x]> (co_buf c)) (co_r c) (co_w c) (co_e c).

Fixpoint consolewrite_loop (fuel : nat) (src n i : Z) : M (cstate U) Z :=
  if i <? n then
    match fuel with
    | O => diverge
    | S f =>
        let nn := if 32 >? n - i then n - i else 32 in
        let* r := zoom L_cs_user (ucopyin (src + i) (Z.to_nat nn)) in
        if fst r then uartwrite (snd r) ;; consolewrite_loop f src n (i + nn) else ret i
    end
  else ret i.
Definition consolewrite (src n : Z) : M (cstate U) Z := consolewrite_loop (Z.to_nat n) src n 0.

(** while(cons.r == cons.w) of consoleread(); [false] for the return of -1 *)
Fixpoint consoleread_wait (fuel : nat) : M (cstate U) bool :=
  let* c := gets (fun s => cs_cons s) in
  if co_r c =? co_w c then
    let* k := ckilled in
    if k then lock_release L_co_lock ;; ret false
    else
      match fuel with
      | O => diverge
      | S f => sleep_on ChCons L_co_lock ;; consoleread_wait f
      end
  else ret true.

(** while(n > 0) of consoleread(); returns the final n, or [None] after the
    return of -1. *)
Fixpoint consoleread_loop (n : nat) (target : Z) (dst : Z) : M (cstate U) (option Z) :=
  match n with
  | O => ret (Some 0)
  | S n' =>
      let* ok := consoleread_wait wake_budget in
      if ok then
        let* c := gets (fun s => buf_at (co_r (cs_cons s)) (cs_cons s)) in
        modify (set_cons (fun x => set_r (u32 (co_r x + 1)) x)) ;;
        if c =? ctrl 68 then
          (if Z.of_nat n <? target then modify (set_cons (fun x => set_r (u32 (co_r x - 1)) x)) else ret tt) ;;
          ret (Some (Z.of_nat n))
        else
          let* ok := zoom L_cs_user (ucopyout dst [c]) in
          if ok : bool then
            if c =? NL then ret (Some (Z.of_nat n')) else consoleread_loop n' target (dst + 1)
          else ret (Some (Z.of_nat n))
      else ret None
  end.
Definition consoleread (dst n : Z) : M (cstate U) Z :=
  lock_acquire L_co_lock ;;
  let* r := consoleread_loop (Z.to_nat n) n dst in
  match r with
  | Some m => lock_release L_co_lock ;; ret (if n <? 0 then 0 else n - m)
  | None => ret (-1)
  end.

(** while(cons.e != cons.w && cons.buf[(cons.e-1) % INPUT_BUF_SIZE] != '\n') *)
Fixpoint kill_line (fuel : nat) : M (cstate U) unit :=
  let* c := gets (fun s => cs_cons s) in
  if negb (co_e c =? co_w c) && negb (buf_at (co_e c - 1) c =? NL) then
    match fuel with
    | O => diverge
    | S f =>
        modify (set_cons (fun x => set_e (u32 (co_e x - 1)) x)) ;;
        consputc BACKSPACE ;;
        kill_line f
    end
  else ret tt.

(** The switch of consoleintr().  procdump() only prints; its text is not
    modelled. *)
Definition consoleintr_switch (c : Z) : M (cstate U) unit :=
  (if c =? ctrl 80 then ret tt
   else if c =? ctrl 85 then kill_line (Z.to_nat INPUT_BUF_SIZE)
   else if (c =? ctrl 72) || (c =? 127) then
     let* x := gets (fun s => cs_cons s) in
     if negb (co_e x =? co_w x) then
       modify (set_cons (fun x => set_e (u32 (co_e x - 1)) x)) ;; consputc BACKSPACE
     else ret tt
   else
     let* x := gets (fun s => cs_cons s) in
     if negb (c =? 0) && (u32 (co_e x - co_r x) <? INPUT_BUF_SIZE) then
       let c' := if c =? CR then NL else c in
       consputc c' ;;
       modify (set_cons (fun x => set_e (u32 (co_e x + 1)) (put_at (co_e x) c' x))) ;;
       let* y := gets (fun s => cs_cons s) in
       if (c' =? NL) || (c' =? ctrl 68) || (u32 (co_e y - co_r y) =? INPUT_BUF_SIZE) then
         modify (set_cons (fun x => set_w (co_e x) x)) ;; wakeup ChCons
       else ret tt
     else ret tt).
Definition consoleintr (c : Z) : M (cstate U) unit :=
  lock_acquire L_co_lock ;; consoleintr_switch c ;; lock_release L_co_lock.

(** while(1) of uartintr(): one consoleintr() per waiting character *)
Fixpoint uartintr_loop (fuel : nat) : M (cstate U) unit :=
  let* c := uartgetc in
  if c =? -1 then ret tt
  else
    match fuel with
    | O => diverge
    | S f => consoleintr c ;; uartintr_loop f
    end.
Definition uartintr : M (cstate U) unit :=
  lock_acquire L_tx_lock ;;
  let* idle := tx_idle in
  (if idle then modify (set_busy false) ;; wakeup ChUart else ret tt) ;;
  lock_release L_tx_lock ;;
  let* n := gets (fun s => length (cs_rx s)) in
  uartintr_loop n.

End ops.

(** cons as the boot finds it: zeroed memory *)
Definition cons0 : cons := Cons false (replicate (Z.to_nat INPUT_BUF_SIZE) 0) 0 0 0.

(* ------------------------------------------------------------------ *)
(** ** The lines in the ring *)

(** [n] characters of the ring from index [a] on. *)
Definition rseq (b : list Z) (a : Z) (n : nat) : list Z :=
  map (fun k => default 0 (b !! Z.to_nat ((a + Z.of_nat k) mod INPUT_BUF_SIZE))) (seq 0 n).

(** What consoleread() may take, and the line still being edited. *)
Definition ready (c : cons) : list Z := rseq (co_buf c) (co_r c) (Z.to_nat (u32 (co_w c - co_r c))).
Definition editing (c : cons) : list Z := rseq (co_buf c) (co_w c) (Z.to_nat (u32 (co_e c - co_w c))).

Record cons_ok (c : cons) : Prop := {
  ok_len : length (co_buf c) = Z.to_nat INPUT_BUF_SIZE;
  ok_r : 0 <= co_r c < 2 ^ 32;
  ok_w : 0 <= co_w c < 2 ^ 32;
  ok_e : 0 <= co_e c < 2 ^ 32;
  ok_sum : u32 (co_w c - co_r c) + u32 (co_e c - co_w c) = u32 (co_e c - co_r c);
  ok_cap : u32 (co_e c - co_r c) <= INPUT_BUF_SIZE;
  ok_line : Forall (fun x => x <> NL) (editing c)
}.

(** The line discipline: what one input character does to the lines. *)
Definition aintr (c : Z) (rd ed : list Z) : list Z * list Z :=
  if c =? ctrl 80 then (rd, ed)
  else if c =? ctrl 85 then (rd, [])
  else if (c =? ctrl 72) || (c =? 127) then (rd, removelast ed)
  else if negb (c =? 0) && (Z.of_nat (length rd + length ed) <? INPUT_BUF_SIZE) then
    let c' := if c =? CR then NL else c in
    if (c' =? NL) || (c' =? ctrl 68) || (Z.of_nat (length rd + length ed) + 1 =? INPUT_BUF_SIZE)
    then (rd ++ ed ++ [c'], []) else (rd, ed ++ [c'])
  else (rd, ed).

Lemma length_rseq b a n : length (rseq b a n) = n.
Proof. unfold rseq. by rewrite length_map, length_seq. Qed.

Lemma rseq_S b a n : rseq b a (S n) = rseq b a n ++ [default 0 (b !! Z.to_nat ((a + Z.of_nat n) mod INPUT_BUF_SIZE))].
Proof. unfold rseq. by rewrite seq_S, map_app. Qed.

Lemma rseq_cons b a n :
  rseq b a (S n) = default 0 (b !! Z.to_nat (a mod INPUT_BUF_SIZE)) :: rseq b (a + 1) n.
Proof.
  unfold rseq. cbn [seq map]. rewrite Z.add_0_r. f_equal. rewrite <- seq_shift, map_map. apply map_ext.
  intros k. do 4 f_equal. lia.
Qed.

Lemma rseq_lookup b a n k :
  (k < n)%nat -> rseq b a n !! k = Some (default 0 (b !! Z.to_nat ((a + Z.of_nat k) mod INPUT_BUF_SIZE))).
Proof. intros Hk. unfold rseq. by rewrite list_lookup_fmap, lookup_seq_lt. Qed.

Lemma rseq_app b a n m : rseq b a (n + m) = rseq b a n ++ rseq b (a + Z.of_nat n) m.
Proof.
  apply list_eq. intros k. destruct (decide (k < n + m)%nat) as [Hk|Hk].
  - rewrite rseq_lookup by done. destruct (decide (k < n)%nat).
    + by rewrite lookup_app_l, rseq_lookup by (rewrite ?length_rseq; lia).
    + rewrite lookup_app_r, length_rseq, rseq_lookup by (rewrite ?length_rseq; lia). do 5 f_equal. lia.
  - rewrite (lookup_ge_None_2 (rseq _ _ _)) by (rewrite length_rseq; lia).
    rewrite lookup_ge_None_2; [done|]. rewrite length_app, !length_rseq. lia.
Qed.

(** Indices only matter modulo the size of the ring. *)
Lemma rseq_mod b a a' n : a mod INPUT_BUF_SIZE = a' mod INPUT_BUF_SIZE -> rseq b a n = rseq b a' n.
Proof.
  intros He. unfold rseq. apply map_ext. intros k. do 3 f_equal.
  rewrite <- (Z.add_mod_idemp_l a), He, Z.add_mod_idemp_l by done. done.
Qed.

Lemma u32_mod_ring z : u32 z mod INPUT_BUF_SIZE = z mod INPUT_BUF_SIZE.
Proof. unfold u32, INPUT_BUF_SIZE. apply Z.mod_mod_divide. by exists 33554432. Qed.

(** A store outside the characters looked at. *)
Lemma rseq_insert b a n i x :
  (forall k, (k < n)%nat -> (a + Z.of_nat k) mod INPUT_BUF_SIZE <> i mod INPUT_BUF_SIZE) ->
  rseq (<[Z.to_nat (i mod INPUT_BUF_SIZE) := x]> b) a n = rseq b a n.
Proof.
  intros Hd. unfold rseq. apply map_ext_in. intros k Hk. apply in_seq in Hk.
  rewrite list_lookup_insert_ne; [done|]. intros Heq. apply Z2Nat.inj in Heq; [|unfold INPUT_BUF_SIZE; divlia..].
  apply (Hd k); [lia|done].
Qed.

Section cons_lemmas.
Context (c : cons) (Hok : cons_ok c).

Lemma ready_editing :
  rseq (co_buf c) (co_r c) (Z.to_nat (u32 (co_e c - co_r c))) = ready c ++ editing c.
Proof.
  destruct Hok as [Hl Hr Hw He Hs Hc _]. rewrite <- Hs.
  pose proof (u32_range (co_w c - co_r c)). pose proof (u32_range (co_e c - co_w c)).
  rewrite Z2Nat.inj_add by lia. rewrite rseq_app. unfold ready, editing. f_equal. apply rseq_mod.
  rewrite Z2Nat.id by lia. rewrite <- Z.add_mod_idemp_r, u32_mod_ring, Z.add_mod_idemp_r by done. f_equal. lia.
Qed.

Lemma length_lines : Z.of_nat (length (ready c) + length (editing c)) = u32 (co_e c - co_r c).
Proof.
  unfold ready, editing. rewrite !length_rseq. destruct Hok. pose proof (u32_range (co_w c - co_r c)).
  pose proof (u32_range (co_e c - co_w c)). lia.
Qed.

Lemma editing_empty : (co_e c =? co_w c) = true <-> editing c = [].
Proof.
  rewrite Z.eqb_eq. rewrite <- (length_zero_iff_nil (editing c)). unfold editing. rewrite length_rseq.
  pose proof (u32_range (co_e c - co_w c)). destruct Hok. unfold u32 in *. split; intros; divlia.
Qed.

Lemma ready_empty : (co_r c =? co_w c) = true <-> ready c = [].
Proof.
  rewrite Z.eqb_eq. rewrite <- (length_zero_iff_nil (ready c)). unfold ready. rewrite length_rseq.
  pose proof (u32_range (co_w c - co_r c)). destruct Hok. unfold u32 in *. split; intros; divlia.
Qed.

(** One step back: the last character of the line being edited. *)
Lemma editing_back :
  (co_e c =? co_w c) = false ->
  editing c = editing (set_e (u32 (co_e c - 1)) c) ++ [buf_at (co_e c - 1) c] /\
  cons_ok (set_e (u32 (co_e c - 1)) c).
Proof.
  intros Hne%Z.eqb_neq. pose proof Hok as [Hl Hr Hw He Hs Hc Hln].
  pose proof (u32_range (co_e c - co_w c)).
  assert (u32 (u32 (co_e c - 1) - co_w c) = u32 (co_e c - co_w c) - 1) as H1 by (unfold u32 in *; divlia).
  assert (u32 (u32 (co_e c - 1) - co_r c) = u32 (co_e c - co_r c) - 1) as H2 by (unfold u32 in *; divlia).
  assert (editing c = editing (set_e (u32 (co_e c - 1)) c) ++ [buf_at (co_e c - 1) c]) as Heq.
  { unfold editing. simpl. rewrite H1.
    replace (Z.to_nat (u32 (co_e c - co_w c))) with (S (Z.to_nat (u32 (co_e c - co_w c) - 1))).
    - rewrite rseq_S. do 2 f_equal. unfold buf_at. rewrite u32_mod_ring. do 3 f_equal.
      unfold u32 in *. unfold INPUT_BUF_SIZE. divlia.
    - assert (u32 (co_e c - co_w c) <> 0) by (unfold u32 in *; divlia). lia. }
  split; [done|]. split; simpl; try done; try lia.
  - apply u32_range.
  - rewrite Heq in Hln. by apply Forall_app in Hln as [? _].
Qed.

(** Taking a character. *)
Lemma ready_take :
  (co_r c =? co_w c) = false ->
  ready c = buf_at (co_r c) c :: ready (set_r (u32 (co_r c + 1)) c) /\
  cons_ok (set_r (u32 (co_r c + 1)) c) /\ editing (set_r (u32 (co_r c + 1)) c) = editing c.
Proof.
  intros Hne%Z.eqb_neq. pose proof Hok as [Hl Hr Hw He Hs Hc Hln].
  pose proof (u32_range (co_w c - co_r c)). pose proof (u32_range (co_e c - co_w c)).
  assert (u32 (co_w c - u32 (co_r c + 1)) = u32 (co_w c - co_r c) - 1) as H1 by (unfold u32 in *; divlia).
  assert (u32 (co_w c - co_r c) <> 0) as Hnz by (unfold u32 in *; divlia).
  assert (u32 (co_e c - u32 (co_r c + 1)) = u32 (co_e c - co_r c) - 1) as H2.
  { unfold u32 in *. divlia. }
  split; [|split; [|done]].
  - unfold ready. simpl. rewrite H1.
    replace (Z.to_nat (u32 (co_w c - co_r c))) with (S (Z.to_nat (u32 (co_w c - co_r c) - 1))) by lia.
    rewrite rseq_cons. unfold buf_at. rewrite u32_mod_ring. f_equal. apply rseq_mod. by rewrite u32_mod_ring.
  - split; simpl; try done; try lia. apply u32_range.
Qed.

End cons_lemmas.

(** Typing a character. *)
Lemma editing_put c x :
  cons_ok c -> u32 (co_e c - co_r c) < INPUT_BUF_SIZE ->
  let c1 := set_e (u32 (co_e c + 1)) (put_at (co_e c) x c) in
  ready c1 = ready c /\ editing c1 = editing c ++ [u8 x] /\
  length (co_buf c1) = Z.to_nat INPUT_BUF_SIZE /\
  u32 (co_w c1 - co_r c1) + u32 (co_e c1 - co_w c1) = u32 (co_e c1 - co_r c1) /\
  u32 (co_e c1 - co_r c1) = u32 (co_e c - co_r c) + 1.
Proof.
  intros [Hl Hr Hw He Hs Hc Hln] Hlt c1.
  pose proof (u32_range (co_w c - co_r c)) as R1. pose proof (u32_range (co_e c - co_w c)) as R2.
  assert (u32 (u32 (co_e c + 1) - co_w c) = u32 (co_e c - co_w c) + 1) as H1.
  { unfold u32, INPUT_BUF_SIZE in *. divlia. }
  assert (u32 (u32 (co_e c + 1) - co_r c) = u32 (co_e c - co_r c) + 1) as H2.
  { unfold u32, INPUT_BUF_SIZE in *. divlia. }
  assert (co_e c mod INPUT_BUF_SIZE = (co_w c + u32 (co_e c - co_w c)) mod INPUT_BUF_SIZE) as Hew.
  { rewrite <- Z.add_mod_idemp_r, u32_mod_ring, Z.add_mod_idemp_r by done. f_equal. lia. }
  assert (co_e c mod INPUT_BUF_SIZE = (co_r c + u32 (co_e c - co_r c)) mod INPUT_BUF_SIZE) as Her.
  { rewrite <- Z.add_mod_idemp_r, u32_mod_ring, Z.add_mod_idemp_r by done. f_equal. lia. }
  split_and!.
  - unfold ready, c1. simpl. rewrite u32_mod_ring. apply rseq_insert. intros k Hk. rewrite Her.
    unfold INPUT_BUF_SIZE in *. divlia.
  - unfold editing, c1. simpl. rewrite H1, Z2Nat.inj_add, Nat.add_1_r, rseq_S by lia. rewrite u32_mod_ring. f_equal.
    + apply rseq_insert. intros k Hk. rewrite Hew. unfold INPUT_BUF_SIZE in *. divlia.
    + rewrite Z2Nat.id by lia. rewrite <- Hew, list_lookup_insert_eq; [done|]. rewrite Hl.
      unfold INPUT_BUF_SIZE. divlia.
  - simpl. by rewrite length_insert.
  - simpl. lia.
  - done.
Qed.

(** Committing the line. *)
Lemma commit_line c :
  length (co_buf c) = Z.to_nat INPUT_BUF_SIZE -> 0 <= co_r c < 2 ^ 32 -> 0 <= co_e c < 2 ^ 32 ->
  u32 (co_w c - co_r c) + u32 (co_e c - co_w c) = u32 (co_e c - co_r c) ->
  u32 (co_e c - co_r c) <= INPUT_BUF_SIZE ->
  cons_ok (set_w (co_e c) c) /\ ready (set_w (co_e c) c) = ready c ++ editing c /\
  editing (set_w (co_e c) c) = [].
Proof.
  intros Hl Hr He Hs Hc. pose proof (u32_range (co_w c - co_r c)). pose proof (u32_range (co_e c - co_w c)).
  assert (u32 (co_e c - co_e c) = 0) as Hz by (by rewrite Z.sub_diag).
  assert (editing (set_w (co_e c) c) = []) as Hed by (unfold editing; simpl; by rewrite Hz).
  split; [|split; [|done]].
  - split; simpl; try done; try lia. rewrite Hed. constructor.
  - unfold ready at 1. simpl. rewrite <- Hs, Z2Nat.inj_add, rseq_app by lia. unfold ready, editing. f_equal.
    apply rseq_mod. rewrite Z2Nat.id by lia.
    rewrite <- Z.add_mod_idemp_r, u32_mod_ring, Z.add_mod_idemp_r by done. f_equal. lia.
Qed.

Section intr.
Context {U : Type} `{UserMem U}.

(** The part of the state the line discipline does not look at. *)
Definition same_rest (s s' : cstate U) : Prop :=
  cs_user s' = cs_user s /\ cs_kills s' = cs_kills s /\ cs_rx s' = cs_rx s /\
  cs_tx_lock s' = cs_tx_lock s /\ cs_idle s' = cs_idle s.

Lemma same_rest_refl s : same_rest s s.
Proof. by split_and!. Qed.
Lemma same_rest_trans s1 s2 s3 : same_rest s1 s2 -> same_rest s2 s3 -> same_rest s1 s3.
Proof. unfold same_rest. intros (? & ? & ? & ? & ?) (? & ? & ? & ? & ?). split_and!; congruence. Qed.

Lemma consputc_Ok c (s : cstate U) :
  exists s', consputc c s = Ok tt s' /\ cs_cons s' = cs_cons s /\ cs_woken s' = cs_woken s /\ same_rest s s'.
Proof.
  unfold consputc, uartputc_sync, bind, modify. destruct (_ =? _); simpl; eexists; split_and!; done.
Qed.

Lemma kill_line_spec fuel (s : cstate U) :
  cons_ok (cs_cons s) -> (length (editing (cs_cons s)) <= fuel)%nat ->
  exists s', kill_line fuel s = Ok tt s' /\ cons_ok (cs_cons s') /\
    co_lock (cs_cons s') = co_lock (cs_cons s) /\
    ready (cs_cons s') = ready (cs_cons s) /\ editing (cs_cons s') = [] /\
    cs_woken s' = cs_woken s /\ same_rest s s'.
Proof.
  revert s. induction fuel as [|fuel IH]; intros s Hok Hf; cbn [kill_line]; unfold bind at 1; simpl;
    destruct (co_e (cs_cons s) =? co_w (cs_cons s)) eqn:He; simpl;
    try (apply (editing_empty _ Hok) in He; exists s; by split_and!).
  - apply Nat.le_0_r, length_zero_iff_nil, (editing_empty _ Hok) in Hf. congruence.
  - destruct (editing_back _ Hok He) as [Hed Hok']. pose proof (ok_line _ Hok) as Hln. rewrite Hed in Hln.
    apply Forall_app in Hln as [_ [Hx _]%Forall_cons].
    rewrite (proj2 (Z.eqb_neq _ _)) by done. simpl. unfold bind at 1, modify. simpl.
    set (s1 := set_cons _ s). destruct (consputc_Ok BACKSPACE s1) as (s2 & E2 & C2 & W2 & R2).
    unfold bind. rewrite E2. simpl.
    destruct (IH s2) as (s3 & E3 & K & L & Rd & Ed & W & Rs).
    + by rewrite C2.
    + rewrite C2. rewrite Hed, length_app in Hf. simpl in *. lia.
    + exists s3. split; [done|]. rewrite C2 in *. split; [done|]. split; [done|]. split; [done|]. split; [done|].
      split; [by rewrite W, W2|]. eapply same_rest_trans; [|exact Rs]. eapply same_rest_trans; [|exact R2]. by split_and!.
Qed.

Definition switch_post (c : Z) (s s' : cstate U) : Prop :=
  cons_ok (cs_cons s') /\ co_lock (cs_cons s') = co_lock (cs_cons s) /\
  (ready (cs_cons s'), editing (cs_cons s')) = aintr c (ready (cs_cons s)) (editing (cs_cons s)) /\
  (ready (cs_cons s') <> ready (cs_cons s) -> cs_woken s' = cs_woken s ++ [ChCons]) /\
  same_rest s s'.

(** A character that is stored. *)
Lemma switch_store c (s : cstate U) :
  cons_ok (cs_cons s) -> 0 <= c < 256 -> u32 (co_e (cs_cons s) - co_r (cs_cons s)) < INPUT_BUF_SIZE ->
  let c' := if c =? CR then NL else c in
  exists s', (consputc c' ;;
     modify (set_cons (fun x => set_e (u32 (co_e x + 1)) (put_at (co_e x) c' x))) ;;
     let* y := gets (fun s => cs_cons s) in
     if (c' =? NL) || (c' =? ctrl 68) || (u32 (co_e y - co_r y) =? INPUT_BUF_SIZE) then
       modify (set_cons (fun x => set_w (co_e x) x)) ;; wakeup ChCons
     else ret tt) s = Ok tt s' /\
  cons_ok (cs_cons s') /\ co_lock (cs_cons s') = co_lock (cs_cons s) /\
  (let rd := ready (cs_cons s) in let ed := editing (cs_cons s) in
   if (c' =? NL) || (c' =? ctrl 68) || (Z.of_nat (length rd + length ed) + 1 =? INPUT_BUF_SIZE)
   then ready (cs_cons s') = rd ++ ed ++ [c'] /\ editing (cs_cons s') = [] /\ cs_woken s' = cs_woken s ++ [ChCons]
   else ready (cs_cons s') = rd /\ editing (cs_cons s') = ed ++ [c']) /\
  same_rest s s'.
Proof.
  intros Hok Hc Hlt c'. assert (0 <= c' < 256) as Hc' by (unfold c', NL; case_match; lia).
  destruct (consputc_Ok c' s) as (s1 & E1 & C1 & W1 & R1). unfold bind at 1. rewrite E1. simpl.
  unfold bind at 1, modify. simpl. unfold bind at 1, gets. simpl. rewrite C1.
  destruct (editing_put (cs_cons s) c' Hok Hlt) as (Hrd & Hed & Hl & Hs & Hcnt).
  rewrite (Z.mod_small c' 256 Hc' : u8 c' = c') in Hed.
  set (c1 := set_e _ (put_at _ _ _)) in *. rewrite length_lines by done.
  change (u32 (co_e (cs_cons s) + 1)) with (co_e c1). change (co_r (cs_cons s)) with (co_r c1) at 1. rewrite Hcnt.
  destruct Hok as [Hl0 Hr0 Hw0 He0 Hs0 Hc0 Hln]. destruct ((c' =? NL) || _ || _) eqn:Hcommit.
  - destruct (commit_line c1) as (Hok' & Hrd' & Hed'); try done; [apply u32_range|lia|].
    eexists. split; [reflexivity|]. simpl. rewrite C1. fold c1.
    change (u32 (co_e (cs_cons s) + 1)) with (co_e c1).
    split; [done|]. split; [done|]. split; [|exact R1].
    split; [by rewrite Hrd', Hrd, Hed|]. split; [done|]. by rewrite W1.
  - eexists. split; [reflexivity|]. simpl. rewrite C1. fold c1.
    split; [|split; [done|split; [done|exact R1]]]. split; try done; [apply u32_range|lia|].
    rewrite Hed. apply Forall_app. split; [done|]. apply Forall_singleton. intros ->. by rewrite Z.eqb_refl in Hcommit.
Qed.

Lemma switch_spec c (s : cstate U) :
  cons_ok (cs_cons s) -> 0 <= c < 256 ->
  exists s', consoleintr_switch c s = Ok tt s' /\ switch_post c s s'.
Proof.
  intros Hok Hc. unfold consoleintr_switch, switch_post, aintr.
  destruct (c =? ctrl 80); [exists s; by split_and!|]. destruct (c =? ctrl 85).
  { destruct (kill_line_spec (Z.to_nat INPUT_BUF_SIZE) s Hok) as (s' & E & K & L & Rd & Ed & W & Rs).
    - pose proof (length_lines _ Hok). pose proof (ok_cap _ Hok). lia.
    - exists s'. rewrite Rd, Ed. by split_and!. }
  destruct ((c =? ctrl 72) || (c =? 127)).
  { unfold bind at 1. simpl. destruct (co_e (cs_cons s) =? co_w (cs_cons s)) eqn:He; simpl.
    - apply (editing_empty _ Hok) in He. exists s. rewrite He. by split_and!.
    - destruct (editing_back _ Hok He) as [Hed Hok']. unfold bind at 1, modify. simpl.
      set (s1 := set_cons _ s). destruct (consputc_Ok BACKSPACE s1) as (s2 & E2 & C2 & W2 & R2).
      exists s2. rewrite C2, Hed. split; [done|]. split; [done|]. split; [done|].
      rewrite removelast_last. by split_and!. }
  unfold bind at 1. simpl. rewrite length_lines by done.
  destruct (negb (c =? 0)); simpl; [|exists s; by split_and!].
  destruct (Z.ltb_spec (u32 (co_e (cs_cons s) - co_r (cs_cons s))) INPUT_BUF_SIZE) as [Hlt|]; [|exists s; by split_and!].
  destruct (switch_store c s Hok Hc Hlt) as (s' & E & K & L & Hab & Rs). exists s'.
  cbv zeta in Hab. rewrite length_lines in Hab by done.
  split; [exact E|]. split; [done|]. split; [done|]. split; [|split; [|done]].
  - destruct (_ || _ || _); [by destruct Hab as (-> & -> & _)|by destruct Hab as (-> & ->)].
  - destruct (_ || _ || _); [by destruct Hab as (_ & _ & ->)|by destruct Hab as (-> & _)].
Qed.

(** C15.  The console interrupt handler implements the line discipline.  From
    any state in which the indices are in order (they may have wrapped
    around 2^32), consoleintr() returns with the indices in order, and the
    lines ready to be read and the line being edited change exactly as
    [aintr] says: ^U drops the line being edited, ^H and DEL its last
    character, any other character is added if there is room, and a
    newline, ^D or a full buffer makes the line ready and wakes the reader. *)
Theorem consoleintr_line_discipline (c : Z) (s : cstate U) :
  cons_ok (cs_cons s) -> co_lock (cs_cons s) = false -> 0 <= c < 256 ->
  exists s', consoleintr c s = Ok tt s' /\ cons_ok (cs_cons s') /\ co_lock (cs_cons s') = false /\
    (ready (cs_cons s'), editing (cs_cons s')) = aintr c (ready (cs_cons s)) (editing (cs_cons s)) /\
    (ready (cs_cons s') <> ready (cs_cons s) -> cs_woken s' = cs_woken s ++ [ChCons]) /\
    same_rest s s'.
Proof.
  intros Hok Hlk Hc. unfold consoleintr, bind at 1, lock_acquire. simpl. rewrite Hlk. simpl.
  set (s1 := set_cons _ s). assert (cons_ok (cs_cons s1)) as Hok1 by (destruct Hok; by split).
  destruct (switch_spec c s1 Hok1 Hc) as (s2 & E & K & L & Hab & W & Rs).
  unfold bind. rewrite E. simpl. unfold lock_release. simpl. rewrite L. simpl. eexists. split; [reflexivity|].
  simpl. split; [destruct K; by split|]. split; [done|]. split; [exact Hab|]. split; [exact W|exact Rs].
Qed.

End intr.

(* ------------------------------------------------------------------ *)
(** ** consoleread() *)

(** What a read() of [n] characters takes from the input [q]: up to and
    including a newline, or up to a ^D, which is left for the next read
    unless it came first; [None] while there is not enough input.  [target]
    is the n of the call. *)
Fixpoint aread (n : nat) (target : Z) (q : list Z) : option (list Z * list Z) :=
  match n with
  | O => Some ([], q)
  | S n' =>
      match q with
      | [] => None
      | c :: q' =>
          if c =? ctrl 68 then Some ([], if Z.of_nat n <? target then q else q')
          else if c =? NL then Some ([c], q')
          else
            match aread n' target q' with
            | Some (d, rest) => Some (c :: d, rest)
            | None => None
            end
      end
  end.

Section read.
Context {U : Type} `{UserMem U} `{WakeBudget}.

(** While the reader sleeps the interrupt handler adds input. *)
Definition input_arrives (_ : chan) (s s' : cstate U) : Prop :=
  co_lock (cs_cons s') = false /\ cons_ok (cs_cons s') /\
  (forall b, uview (cs_user s') b = uview (cs_user s) b) /\
  exists x, ready (cs_cons s') = ready (cs_cons s) ++ x.
Definition reader_idle (c : chan) (s : cstate U) : Prop :=
  c = ChCons /\ co_lock (cs_cons s) = false /\ ready (cs_cons s) = [].

(** [d] stands in user memory at [dst], and nothing else changed. *)
Definition delivered (u u' : U) (dst : Z) (d : list Z) : Prop :=
  (forall k x, d !! k = Some x -> uview u' (dst + Z.of_nat k) = u8 x) /\
  (forall b, b < dst \/ dst + Z.of_nat (length d) <= b -> uview u' b = uview u b).

Definition read_post (s : cstate U) (dst : Z) (n : nat) (target : Z) (m : Z) (s' : cstate U) : Prop :=
  exists x d rest, m = Z.of_nat n - Z.of_nat (length d) /\ ready (cs_cons s') = rest /\
    ((aread n target (ready (cs_cons s) ++ x) = Some (d, rest) /\ delivered (cs_user s) (cs_user s') dst d) \/
     (exists c, ready (cs_cons s) ++ x = d ++ c :: rest /\ (length d < n)%nat)).

Lemma consoleread_wait_spec fuel s :
  co_lock (cs_cons s) = true -> cons_ok (cs_cons s) ->
  rg fuel reader_idle input_arrives
    (fun ok s' => if ok : bool then
        co_lock (cs_cons s') = true /\ cons_ok (cs_cons s') /\ ready (cs_cons s') <> [] /\
        (forall b, uview (cs_user s') b = uview (cs_user s) b) /\
        exists x, ready (cs_cons s') = ready (cs_cons s) ++ x
      else co_lock (cs_cons s') = false)
    (consoleread_wait fuel s).
Proof.
  revert s. induction fuel as [|fuel IH]; intros s Hlk Hok; cbn [consoleread_wait]; unfold bind at 1; simpl;
    destruct (co_r (cs_cons s) =? co_w (cs_cons s)) eqn:He;
    try (simpl; split_and!; [done|done| |done|by exists []; rewrite app_nil_r];
         intros Hn; by apply (ready_empty _ Hok) in Hn; rewrite Hn in He);
    unfold bind at 1; simpl; destruct (default false (head (cs_kills s)));
    try (unfold bind, lock_release; simpl; by rewrite Hlk).
  - done.
  - unfold sleep_on, bind, lock_release, yield_to, lock_acquire. simpl. rewrite Hlk. simpl.
    apply (ready_empty _ Hok) in He. split; [done|].
    intros s' (Hlk' & Hok' & Hv & x & Hx). rewrite Hlk'. simpl. eapply rg_mono; [apply IH; [done|]|].
    + destruct Hok'. by split.
    + intros [] t; [|done]. intros (Hl & Hk & Hn & Hv' & y & Hy). split; [done|]. split; [done|]. split; [done|].
      split; [intros b; by rewrite Hv'|]. exists (x ++ y). rewrite Hy.
      change (ready (cs_cons s') ++ y = ready (cs_cons s) ++ x ++ y). rewrite Hx, <- app_assoc. done.
Qed.

Lemma delivered_cons u u1 u2 dst c d :
  copyout u dst [c] = (true, u1) -> delivered u1 u2 (dst + 1) d -> delivered u u2 dst (c :: d).
Proof.
  intros Ec [Hin Hout].
  pose proof (copyout_out u dst [c]) as Ho. pose proof (copyout_in u dst [c] 0) as Hi.
  rewrite Ec in Ho, Hi. simpl in Ho, Hi. split.
  - intros [|k] x Hx; simpl in Hx.
    + injection Hx as <-. rewrite Hout by lia. by apply Hi.
    + replace (dst + Z.of_nat (S k)) with (dst + 1 + Z.of_nat k) by lia. by apply Hin.
  - intros b Hb. simpl in Hb. rewrite Hout by lia. apply Ho. lia.
Qed.

Lemma delivered_view u0 u' u dst d :
  (forall b, uview u b = uview u0 b) -> delivered u u' dst d -> delivered u0 u' dst d.
Proof. intros Hv [Hi Ho]. split; [done|]. intros b Hb. by rewrite Ho, Hv. Qed.

Lemma delivered_nil u dst : delivered u u dst [].
Proof. split; [by intros k x Hx; rewrite lookup_nil in Hx|done]. Qed.

Lemma consoleread_loop_spec n target dst s :
  co_lock (cs_cons s) = true -> cons_ok (cs_cons s) ->
  rg wake_budget reader_idle input_arrives
    (fun r s' => match r with
       | Some m => co_lock (cs_cons s') = true /\ cons_ok (cs_cons s') /\ read_post s dst n target m s'
       | None => co_lock (cs_cons s') = false
       end)
    (consoleread_loop n target dst s).
Proof.
  revert dst s. induction n as [|n IH]; intros dst s Hlk Hok; cbn [consoleread_loop].
  - simpl. split; [done|]. split; [done|]. exists [], [], (ready (cs_cons s)).
    rewrite app_nil_r. split; [done|]. split; [done|]. left. split; [done|apply delivered_nil].
  - unfold bind at 1. apply rg_bind. eapply rg_mono; [by apply consoleread_wait_spec|].
    intros [] s1; [|done]. intros (Hlk1 & Hok1 & Hne & Hv & x & Hx).
    assert ((co_r (cs_cons s1) =? co_w (cs_cons s1)) = false) as Hrw.
    { destruct (_ =? _) eqn:E; [|done]. by apply (ready_empty _ Hok1) in E. }
    destruct (ready_take _ Hok1 Hrw) as (Hrd & Hok2 & _).
    set (c := buf_at (co_r (cs_cons s1)) (cs_cons s1)) in *.
    set (s2 := set_cons (fun x => set_r (u32 (co_r x + 1)) x) s1).
    unfold bind at 1, gets at 1. simpl. fold c. unfold bind at 1, modify at 1. simpl. fold s2.
    destruct (c =? ctrl 68) eqn:Hd.
    { assert (ready (cs_cons s) ++ x = c :: ready (cs_cons s2)) as Hq by (by rewrite <- Hx, Hrd).
      destruct (Z.ltb_spec (Z.of_nat (S n)) target) as [Hlt|Hge]; unfold bind, modify, ret; cbn [out_bind].
      - assert (u32 (u32 (co_r (cs_cons s1) + 1) - 1) = co_r (cs_cons s1)) as Hr.
        { pose proof (ok_r _ Hok1). unfold u32. divlia. }
        split; [done|]. simpl. rewrite Hr. split; [by destruct Hok1|].
        exists x, [], (ready (cs_cons s1)). split; [simpl; lia|]. split; [simpl; by rewrite Hr|]. left. split.
        + rewrite Hq. cbn [aread]. rewrite Hd, (proj2 (Z.ltb_lt _ _)) by done. by rewrite Hrd.
        + by apply (delivered_view _ _ (cs_user s1)), delivered_nil.
      - split; [done|]. split; [done|]. exists x, [], (ready (cs_cons s2)). split; [simpl; lia|]. split; [done|]. left.
        split; [|by apply (delivered_view _ _ (cs_user s1)), delivered_nil].
        rewrite Hq. cbn [aread]. by rewrite Hd, (proj2 (Z.ltb_ge _ _)). }
    unfold bind at 1. simpl. destruct (copyout (cs_user s1) dst [c]) as [[] u'] eqn:Ec; simpl.
    + set (s3 := set_cuser u' s2).
      assert (ready (cs_cons s) ++ x = c :: ready (cs_cons s3)) as Hq by (by rewrite <- Hx, Hrd).
      destruct (c =? NL) eqn:Hnl.
      * simpl. split; [done|]. split; [done|]. exists x, [c], (ready (cs_cons s3)). split; [simpl; lia|].
        split; [done|]. left. split; [rewrite Hq; cbn [aread]; by rewrite Hd, Hnl|].
        apply (delivered_view _ _ (cs_user s1)); [done|]. eapply delivered_cons; [exact Ec|apply delivered_nil].
      * eapply rg_mono; [by apply IH|]. intros [m|] s4; [|done]. intros (Hl4 & Hk4 & y & d & rest & -> & Hr4 & Hcase).
        split; [done|]. split; [done|]. exists (x ++ y), (c :: d), rest. split; [simpl; lia|]. split; [done|].
        rewrite app_assoc, Hq. destruct Hcase as [[Ha Hdel]|(c' & Ha & Hlt)].
        -- left. rewrite <- app_comm_cons. cbn [aread]. rewrite Hd, Hnl, Ha. split; [done|]. apply (delivered_view _ _ (cs_user s1)); [done|].
           by eapply delivered_cons.
        -- right. exists c'. rewrite <- app_comm_cons, Ha. split; [done|simpl; lia].
    + unfold bind, modify, ret. simpl. split; [done|]. split; [done|]. exists x, [], (ready (cs_cons s2)).
      split; [simpl; lia|]. split; [done|]. right. exists c. split; [by rewrite <- Hx, Hrd|simpl; lia].
Qed.

(** consoleread() returns one line.  Whatever input arrives while it
    sleeps, it sleeps only with no input ready and the lock given up.  When
    it returns [r >= 0], with [x] the input that arrived meanwhile: either
    the user buffer holds exactly what [aread] takes from the input (up to a
    newline or [n] characters, or up to a ^D, kept for the next read unless
    it came first, so that a ^D gives a 0-byte read), nothing else in user
    memory changed, and the rest of the input stays; or copyout() failed at
    character [r]. *)
Theorem consoleread_line (s : cstate U) (dst n : Z) :
  0 <= n -> co_lock (cs_cons s) = false -> cons_ok (cs_cons s) ->
  rg wake_budget reader_idle input_arrives
    (fun r s' => co_lock (cs_cons s') = false /\
       (r = -1 \/ (cons_ok (cs_cons s') /\ exists x d rest,
          r = Z.of_nat (length d) /\ ready (cs_cons s') = rest /\
          ((aread (Z.to_nat n) n (ready (cs_cons s) ++ x) = Some (d, rest) /\
            delivered (cs_user s) (cs_user s') dst d) \/
           (exists c, ready (cs_cons s) ++ x = d ++ c :: rest /\ (length d < Z.to_nat n)%nat)))))
    (consoleread dst n s).
Proof.
  intros Hn Hlk Hok. unfold consoleread, bind at 1, lock_acquire. simpl. rewrite Hlk. simpl.
  set (s1 := set_cons _ s). unfold bind. apply rg_bind.
  eapply rg_mono; [apply (consoleread_loop_spec _ _ _ s1); [done|destruct Hok; by split]|].
  intros [m|] s2; simpl; [|by intros ?; split; [|left]].
  intros (Hl2 & Hk2 & x & d & rest & -> & Hr & Hcase). unfold lock_release. simpl. rewrite Hl2. simpl.
  split; [done|]. right. split; [destruct Hk2; by split|]. exists x, d, rest.
  rewrite (proj2 (Z.ltb_ge n 0)) by done. split; [lia|]. split; [exact Hr|exact Hcase].
Qed.

End read.

Definition ex_cons : cstate flat :=
  CState cons0 {[ 200 := 0; 201 := 0; 202 := 0; 203 := 0 ]} [] false false [] [] [] [].

Lemma ex_cons_ok : cons_ok cons0.
Proof. split; try reflexivity; try (simpl; lia); [by vm_compute|constructor]. Qed.

Lemma consoleintr_line_discipline_witness :
  exists s', consoleintr 97 ex_cons = Ok tt s' /\ editing (cs_cons s') = [97].
Proof.
  destruct (@consoleintr_line_discipline flat 97 ex_cons ex_cons_ok eq_refl ltac:(lia))
    as (s' & E & _ & _ & Hab & _).
  exists s'. split; [exact E|]. injection Hab as _ ->. reflexivity.
Defined.

(** "ab\n" typed and ready. *)
Definition ex_typed : cstate flat :=
  CState (Cons false ([97; 98; 10] ++ replicate 125 0) 0 3 3) {[ 200 := 0; 201 := 0; 202 := 0; 203 := 0 ]}
    [] false false [] [] [] [].

Lemma consoleread_line_witness :
  exists s, @consoleread flat _ 3%nat 200 4 ex_typed = Ok 3 s /\ co_lock (cs_cons s) = false.
Proof.
  assert (cons_ok (cs_cons ex_typed)) as Hok.
  { split; try reflexivity; try (simpl; lia); [by vm_compute|constructor]. }
  pose proof (@consoleread_line flat _ 3%nat ex_typed 200 4 ltac:(lia) eq_refl Hok) as Hrg.
  destruct (@consoleread flat _ 3%nat 200 4 ex_typed) as [r s| | |] eqn:E; vm_compute in E; try discriminate E.
  destruct Hrg as (Hl & _). exists s. injection E as <- Hs. split; [by rewrite <- Hs|exact Hl].
Defined.
