(* ===== verification/Digits.v ===== *)
(** * Numerals and format strings

   The digit loop both printint()s share, the numerals it produces, and the
   format language both printf()s implement, as a parser to directives and
   their rendering. *)

From stdpp Require Import base numbers list.
From Stdlib Require Import ZArith Lia.
From S2P Require Import Prelude.

(** do { buf[i++] = x % base; } while((x /= base) != 0); [fuel] bounds the
    digits: 64 are enough for 64 bits in any base. *)
Fixpoint lsd (fuel : nat) (base x : Z) : list Z :=
  match fuel with
  | O => []
  | S f => x mod base :: (if x / base =? 0 then [] else lsd f base (x / base))
  end.

(** for (i = 0; i < 16; i++, x <<= 4) digits[x >> 60] *)
Fixpoint nibbles (n : nat) (x : Z) : list Z :=
  match n with
  | O => []
  | S n' => Z.shiftr x 60 :: nibbles n' (u64 (Z.shiftl x 4))
  end.

(** An argument of a variadic call: an integer register, or a string pointer
    ([None] is the null pointer). *)
Inductive varg :=
| VInt (z : Z)
| VStr (s : option (list Z)).

Definition va_int (ap : list varg) : option (Z * list varg) :=
  match ap with VInt z :: ap' => Some (z, ap') | _ => None end.
Definition va_str (ap : list varg) : option (option (list Z) * list varg) :=
  match ap with VStr s :: ap' => Some (s, ap') | _ => None end.

(** "(null)" *)
Definition null_text : list Z := [40; 110; 117; 108; 108; 41].

(* ------------------------------------------------------------------ *)
(** ** Numerals *)

(** The number a list of digits denotes, least significant digit first. *)
Fixpoint lsd_value (base : Z) (ds : list Z) : Z :=
  match ds with
  | [] => 0
  | d :: ds' => d + base * lsd_value base ds'
  end.

(** No leading zeros: the most significant digit is not 0, except in 0. *)
Definition canonical (ds : list Z) : Prop := ds <> [] /\ (last ds = Some 0 -> ds = [0]).

Lemma lsd_spec fuel base x :
  1 < base -> 0 <= x < base ^ Z.of_nat fuel ->
  (fuel <> 0)%nat ->
  lsd_value base (lsd fuel base x) = x /\ Forall (fun d => 0 <= d < base) (lsd fuel base x) /\
  canonical (lsd fuel base x) /\ (x <> 0 -> last (lsd fuel base x) <> Some 0).
Proof.
  intros Hb. revert x. induction fuel as [|fuel IH]; intros x Hx Hf; [done|]. cbn [lsd].
  pose proof (Z.mod_pos_bound x base ltac:(lia)) as Hm. pose proof (Z.div_mod x base ltac:(lia)) as Hd.
  destruct (Z.eqb_spec (x / base) 0) as [Hz|Hz].
  - rewrite Hz in Hd. split; [simpl; lia|]. split; [by apply Forall_singleton|]. split; [|simpl; intros ? [= ?]; lia].
    split; [done|]. simpl. intros [= ->]. done.
  - assert (0 <= x / base < base ^ Z.of_nat fuel) as Hq.
    { split; [apply Z.div_pos; lia|]. apply Z.div_lt_upper_bound; [lia|].
      rewrite Nat2Z.inj_succ, Z.pow_succ_r in Hx by lia. lia. }
    assert (fuel <> 0)%nat as Hf'.
    { intros ->. simpl in Hq. lia. }
    destruct (IH (x / base) Hq Hf') as (Hv & Hall & [Hne Hc] & Hl).
    assert (last (x mod base :: lsd fuel base (x / base)) = last (lsd fuel base (x / base))) as Hlast.
    { destruct (lsd fuel base (x / base)); done. }
    split; [simpl; rewrite Hv; lia|]. split; [by constructor|]. rewrite Hlast.
    split; [|by intros _; apply Hl]. split; [done|]. rewrite Hlast. intros H0. by destruct (Hl Hz).
Qed.

Lemma lsd_length fuel base x n :
  1 < base -> 0 <= x < base ^ Z.of_nat n -> (n <> 0)%nat -> (length (lsd fuel base x) <= n)%nat.
Proof.
  intros Hb. revert fuel x. induction n as [|n IH]; intros fuel x Hx Hn; [done|].
  destruct fuel as [|fuel]; [simpl; lia|]. cbn [lsd length]. destruct (Z.eqb_spec (x / base) 0) as [Hz|Hz]; [simpl; lia|].
  apply le_n_S.
  assert (0 <= x / base < base ^ Z.of_nat n) as Hq.
  { split; [apply Z.div_pos; lia|]. apply Z.div_lt_upper_bound; [lia|].
    rewrite Nat2Z.inj_succ, Z.pow_succ_r in Hx by lia. lia. }
  apply IH; [done|]. intros ->. simpl in Hq. lia.
Qed.

#[global] Arguments lsd : simpl never.

(** printptr() prints the sixteen hexadecimal digits from the top. *)
Lemma u64_land z : u64 z = Z.land z (Z.ones 64).
Proof. unfold u64. by rewrite Z.land_ones. Qed.

Lemma nibbles_lookup n x k :
  0 <= x < 2 ^ 64 -> (k < n)%nat -> (n <= 16)%nat ->
  nibbles n x !! k = Some (Z.land (Z.shiftr x (60 - 4 * Z.of_nat k)) 15).
Proof.
  revert x k. induction n as [|n IH]; intros x k Hx Hk Hn; [lia|]. cbn [nibbles]. destruct k as [|k].
  - simpl. f_equal. change (60 - 4 * Z.of_nat 0) with 60. change 15 with (Z.ones 4).
    rewrite Z.land_ones, !Z.shiftr_div_pow2 by lia. symmetry. apply Z.mod_small. divlia.
  - simpl. rewrite IH; [|apply u64_range|lia|lia]. f_equal. rewrite u64_land.
    apply Z.bits_inj'. intros i Hi. rewrite !Z.land_spec, !Z.shiftr_spec, Z.land_spec by lia.
    rewrite Z.shiftl_spec by lia. destruct (Z.ltb_spec i 4) as [H4|H4].
    + rewrite (Z.ones_spec_low 64) by lia. rewrite andb_true_r. do 2 f_equal. lia.
    + change 15 with (Z.ones 4). rewrite !(Z.ones_spec_high 4) by lia. by rewrite !andb_false_r.
Qed.

(* ------------------------------------------------------------------ *)
(** ** Format strings *)

Inductive directive :=
| DChar (c : Z)                      (* a plain character *)
| DInt (long : bool) (base : Z) (sgn : bool)
| DPtr | DChr | DStr | DPercent
| DUnknown (c : Z).                  (* an unknown % sequence *)

(** The three characters after a '%', and how many characters beyond the
    first the directive takes. *)
Definition directive_of (c0 c1 c2 : Z) : directive * nat :=
  if c0 =? 100 then (DInt false 10 true, 0%nat)
  else if (c0 =? 108) && (c1 =? 100) then (DInt true 10 true, 1%nat)
  else if (c0 =? 108) && (c1 =? 108) && (c2 =? 100) then (DInt true 10 true, 2%nat)
  else if c0 =? 117 then (DInt false 10 false, 0%nat)
  else if (c0 =? 108) && (c1 =? 117) then (DInt true 10 false, 1%nat)
  else if (c0 =? 108) && (c1 =? 108) && (c2 =? 117) then (DInt true 10 false, 2%nat)
  else if c0 =? 120 then (DInt false 16 false, 0%nat)
  else if (c0 =? 108) && (c1 =? 120) then (DInt true 16 false, 1%nat)
  else if (c0 =? 108) && (c1 =? 108) && (c2 =? 120) then (DInt true 16 false, 2%nat)
  else if c0 =? 112 then (DPtr, 0%nat)
  else if c0 =? 99 then (DChr, 0%nat)
  else if c0 =? 115 then (DStr, 0%nat)
  else if c0 =? 37 then (DPercent, 0%nat)
  else (DUnknown c0, 0%nat).

(** A format string as a list of directives; a '%' at the end is dropped. *)
Fixpoint parse_fmt (fuel : nat) (fmt : list Z) : list directive :=
  match fuel with
  | O => []
  | S f =>
      match fmt with
      | [] => []
      | c :: r =>
          if c =? 37 then
            match r with
            | [] => []
            | c0 :: r' =>
                let '(d, k) := directive_of c0 (default 0 (r' !! 0%nat)) (default 0 (r' !! 1%nat)) in
                d :: parse_fmt f (drop k r')
            end
          else DChar c :: parse_fmt f r
      end
  end.

(** The printers a printf() is built from. *)
Record printers := Printers {
  pr_int : Z -> Z -> bool -> option (list Z);
  pr_ptr : Z -> list Z;
  pr_chr : Z -> list Z
}.

(** Rendering one directive: its text and the arguments left. *)
Definition render1 (P : printers) (d : directive) (ap : list varg) : option (list Z * list varg) :=
  match d with
  | DChar c => Some (pr_chr P c, ap)
  | DPercent => Some (pr_chr P 37, ap)
  | DUnknown c => Some (pr_chr P 37 ++ pr_chr P c, ap)
  | DInt long base sgn =>
      match va_int ap with
      | Some (z, ap') =>
          match pr_int P (if long then i64 z else if sgn then i32 z else u32 z) base sgn with
          | Some t => Some (t, ap')
          | None => None
          end
      | None => None
      end
  | DPtr => match va_int ap with Some (z, ap') => Some (pr_ptr P (u64 z), ap') | None => None end
  | DChr => match va_int ap with Some (z, ap') => Some (pr_chr P (u32 z), ap') | None => None end
  | DStr =>
      match va_str ap with
      | Some (s, ap') => Some (concat (map (pr_chr P) (default null_text s)), ap')
      | None => None
      end
  end.

Fixpoint render (P : printers) (ds : list directive) (ap : list varg) : option (list Z) :=
  match ds with
  | [] => Some []
  | d :: ds' =>
      match render1 P d ap with
      | Some (t, ap') => match render P ds' ap' with Some t' => Some (t ++ t') | None => None end
      | None => None
      end
  end.
