(* ===== verification/KPrintf.v ===== *)
(** * kernel/printf.c

   The kernel's formatted output, as the characters given to consputc().
   Returning [None] is undefined behaviour: a format that asks for an
   argument the caller did not pass, or a numeral longer than its buffer. *)

From stdpp Require Import base numbers list.
From Stdlib Require Import ZArith Lia.
From S2P Require Import Prelude Digits.

(** static char digits[] = "0123456789abcdef"; *)
Definition digit (d : Z) : Z := if d <? 10 then 48 + d else 87 + d.

(** consputc() of a character *)
Definition putc (c : Z) : list Z := if c =? 256 then [8; 32; 8] else [u8 c].

Definition printint (xx base : Z) (sign : bool) : option (list Z) :=
  let sign := sign && (xx <? 0) in
  let x := if sign then u64 (- xx) else u64 xx in
  let buf := map digit (lsd 64 base x) ++ (if sign then [45] else []) in
  if (length buf <=? 20)%nat then Some (concat (map putc (rev buf))) else None.

Definition printptr (x : Z) : list Z :=
  putc 48 ++ putc 120 ++ concat (map (fun d => putc (digit d)) (nibbles 16 x)).

(** The text of an integer directive, with the arguments left. *)
Definition int_arg (v : Z -> Z) (base : Z) (sign : bool) (ap : list varg) : option (list Z * list varg) :=
  match va_int ap with
  | Some (z, ap') => match printint (v z) base sign with Some t => Some (t, ap') | None => None end
  | None => None
  end.

(** The loop of printf(): [fmt] from index i on. *)
Fixpoint printf_loop (fuel : nat) (fmt : list Z) (ap : list varg) : option (list Z) :=
  let next f k rest t :=
    match t with
    | Some (out, ap') => match printf_loop f (drop k rest) ap' with Some o => Some (out ++ o) | None => None end
    | None => None
    end in
  match fuel with
  | O => Some []
  | S f =>
      match fmt with
      | [] => Some []
      | cx :: r =>
          if negb (cx =? 37) then next f 0%nat r (Some (putc cx, ap))
          else
            match r with
            | [] => Some []
            | c0 :: r' =>
                let c1 := default 0 (r' !! 0%nat) in
                let c2 := if c1 =? 0 then 0 else default 0 (r' !! 1%nat) in
                if c0 =? 100 then next f 0%nat r' (int_arg i32 10 true ap)
                else if (c0 =? 108) && (c1 =? 100) then next f 1%nat r' (int_arg i64 10 true ap)
                else if (c0 =? 108) && (c1 =? 108) && (c2 =? 100) then next f 2%nat r' (int_arg i64 10 true ap)
                else if c0 =? 117 then next f 0%nat r' (int_arg u32 10 false ap)
                else if (c0 =? 108) && (c1 =? 117) then next f 1%nat r' (int_arg i64 10 false ap)
                else if (c0 =? 108) && (c1 =? 108) && (c2 =? 117) then next f 2%nat r' (int_arg i64 10 false ap)
                else if c0 =? 120 then next f 0%nat r' (int_arg u32 16 false ap)
                else if (c0 =? 108) && (c1 =? 120) then next f 1%nat r' (int_arg i64 16 false ap)
                else if (c0 =? 108) && (c1 =? 108) && (c2 =? 120) then next f 2%nat r' (int_arg i64 16 false ap)
                else if c0 =? 112 then
                  next f 0%nat r' (match va_int ap with Some (z, ap') => Some (printptr (u64 z), ap') | None => None end)
                else if c0 =? 99 then
                  next f 0%nat r' (match va_int ap with Some (z, ap') => Some (putc (u32 z), ap') | None => None end)
                else if c0 =? 115 then
                  next f 0%nat r'
                    (match va_str ap with
                     | Some (s, ap') => Some (concat (map putc (default null_text s)), ap')
                     | None => None
                     end)
                else if c0 =? 37 then next f 0%nat r' (Some (putc 37, ap))
                else next f 0%nat r' (Some (putc 37 ++ putc c0, ap))
            end
      end
  end.

Definition printf (fmt : list Z) (ap : list varg) : option (list Z) := printf_loop (length fmt) fmt ap.

(* ------------------------------------------------------------------ *)
(** ** Lemmas *)

Definition kernel_printers : printers := Printers printint printptr putc.

Lemma printf_loop_render fuel fmt ap :
  Forall (fun c => c <> 0) fmt ->
  printf_loop fuel fmt ap = render kernel_printers (parse_fmt fuel fmt) ap.
Proof.
  revert fmt ap. induction fuel as [|f IH]; intros fmt ap Hnz; [done|].
  destruct fmt as [|cx r]; [done|]. cbn [printf_loop parse_fmt]. apply Forall_cons in Hnz as [_ Hr].
  destruct (cx =? 37) eqn:Hcx; simpl negb; cbv iota.
  2: { cbn [render render1 pr_chr kernel_printers]. by rewrite drop_0, IH. }
  destruct r as [|c0 r']; [done|]. apply Forall_cons in Hr as [_ Hr].
  assert ((if default 0 (r' !! 0%nat) =? 0 then 0 else default 0 (r' !! 1%nat)) = default 0 (r' !! 1%nat)) as ->.
  { destruct r' as [|c1 r']; [done|]. apply Forall_cons in Hr as [Hc1 _]. simpl. by rewrite (proj2 (Z.eqb_neq c1 0)). }
  assert (forall k ap, printf_loop f (drop k r') ap = render kernel_printers (parse_fmt f (drop k r')) ap) as IH'.
  { intros k ap'. apply IH. by apply Forall_drop. }
  set (c1 := default 0 (r' !! 0%nat)). set (c2 := default 0 (r' !! 1%nat)).
  unfold directive_of.
  repeat match goal with
  | |- (if ?b then _ else _) = _ =>
      destruct b eqn:?;
      [ cbn [render render1 pr_int pr_ptr pr_chr kernel_printers]; unfold int_arg, va_int, va_str;
        destruct ap as [|[z|s] ap]; try done; try (destruct (printint _ _ _); try done); by rewrite IH' | ]
  end.
  cbn [render render1 pr_chr kernel_printers]. by rewrite IH'.
Qed.

Lemma putc_digit d : 0 <= d < 16 -> putc (digit d) = [digit d] /\ 48 <= digit d < 103.
Proof.
  intros Hd. unfold putc, digit. destruct (Z.ltb_spec d 10); rewrite (proj2 (Z.eqb_neq _ _)) by lia;
    (split; [unfold u8; rewrite Z.mod_small by lia; done|lia]).
Qed.

Lemma concat_putc l : Forall (fun c => 0 <= c < 256) l -> concat (map putc l) = l.
Proof.
  induction 1 as [|c l Hc Hl IH]; [done|]. simpl. rewrite IH. unfold putc.
  rewrite (proj2 (Z.eqb_neq c 256)) by lia. unfold u8. by rewrite Z.mod_small.
Qed.

(** The digits of a 64-bit number in base 10 or 16 fit their buffer. *)
Lemma lsd_64 base x :
  base = 10 \/ base = 16 -> 0 <= x < 2 ^ 64 ->
  (length (lsd 64 base x) <= 20)%nat /\ (x <= 2 ^ 63 -> (length (lsd 64 base x) <= 19)%nat).
Proof.
  intros [-> | ->] Hx; split; try intros Hs.
  - apply lsd_length; [lia|simpl; lia|lia].
  - apply lsd_length; [lia|simpl; lia|lia].
  - etrans; [apply (lsd_length 64 16 x 16); [lia|simpl; lia|lia]|lia].
  - etrans; [apply (lsd_length 64 16 x 16); [lia|simpl; lia|lia]|lia].
Qed.

Lemma lsd_64_value base x :
  base = 10 \/ base = 16 -> 0 <= x < 2 ^ 64 ->
  lsd_value base (lsd 64 base x) = x /\ Forall (fun d => 0 <= d < base) (lsd 64 base x) /\
  canonical (lsd 64 base x).
Proof.
  intros Hb Hx. destruct (lsd_spec 64 base x) as (Hv & Hd & Hc & _); [lia| |done|done].
  destruct Hb as [-> | ->]; simpl; lia.
Qed.

Lemma digits_out (l : list Z) : Forall (fun d => 0 <= d < 16) l -> Forall (fun c => 0 <= c < 256) (map digit l).
Proof.
  intros Hl. apply Forall_fmap. eapply Forall_impl; [exact Hl|]. intros d Hd. simpl.
  destruct (putc_digit d Hd) as [_ ?]. lia.
Qed.

(* ------------------------------------------------------------------ *)
(** ** Theorems *)

(** The kernel prints numbers correctly.  For every long long and base
    10 or 16, printint() stays within its 20-byte buffer and prints the
    canonical numeral (a minus sign if asked and needed, the most
    significant digit first, no leading zeros) of the value, taken as
    unsigned when no sign is asked for. *)
Theorem kernel_printint_numeral (xx base : Z) (sign : bool) :
  - 2 ^ 63 <= xx < 2 ^ 63 -> base = 10 \/ base = 16 ->
  exists ds, printint xx base sign =
      Some ((if sign && (xx <? 0) then [45] else []) ++ map digit (rev ds)) /\
    lsd_value base ds = (if sign && (xx <? 0) then - xx else u64 xx) /\
    Forall (fun d => 0 <= d < base) ds /\ canonical ds.
Proof.
  intros Hx Hb. unfold printint. set (neg := sign && (xx <? 0)).
  set (x := if neg then u64 (- xx) else u64 xx).
  assert (0 <= x < 2 ^ 64) as Hr by (unfold x; destruct neg; apply u64_range).
  assert (x = (if neg then - xx else u64 xx) /\ (neg = true -> x <= 2 ^ 63)) as [Hxv Hsmall].
  { unfold x, neg. destruct sign; simpl; [|done]. destruct (Z.ltb_spec xx 0); [|done].
    unfold u64. rewrite Z.mod_small by lia. split; [done|lia]. }
  destruct (lsd_64 base x Hb Hr) as [Hl Hl']. destruct (lsd_64_value base x Hb Hr) as (Hv & Hd & Hc).
  exists (lsd 64 base x). rewrite Hv. split; [|done].
  rewrite (proj2 (Nat.leb_le _ _)).
  2: { rewrite length_app, length_map. destruct neg; [specialize (Hl' (Hsmall eq_refl)); change (length [45]) with 1%nat; lia|change (@length Z []) with 0%nat; lia]. }
  f_equal. rewrite rev_app_distr, <- map_rev, concat_putc.
  - by destruct neg.
  - apply Forall_app. split; [destruct neg; repeat constructor; lia|].
    apply digits_out. apply Forall_rev. eapply Forall_impl; [exact Hd|]. intros d. simpl. lia.
Qed.

Lemma kernel_printint_numeral_witness :
  exists ds, printint (-205) 10 true = Some ([45] ++ map digit (rev ds)) /\ lsd_value 10 ds = 205.
Proof.
  destruct (kernel_printint_numeral (-205) 10 true) as (ds & E & Hv & _).
  - lia.
  - by left.
  - exists ds. split; [exact E|exact Hv].
Defined.
