(* ===== verification/UPrintf.v ===== *)
(** * user/printf.c

   The user library's formatted output, as the characters written to the
   file descriptor.  [None] is undefined behaviour, as in KPrintf.v. *)

From stdpp Require Import base numbers list strings.
From Stdlib Require Import ZArith Lia.
From S2P Require Import Prelude Cmem Ulib Digits KPrintf.

(** static char digits[] = "0123456789ABCDEF"; *)
Definition udigit (d : Z) : Z := if d <? 10 then 48 + d else 55 + d.

(** write(fd, &c, 1) of a char *)
Definition uputc (c : Z) : list Z := [u8 c].

(** [x] is a uint: the long long is cut to 32 bits. *)
Definition uprintint (xx base : Z) (sgn : bool) : option (list Z) :=
  let neg := sgn && (xx <? 0) in
  let x := if neg then u32 (- xx) else u32 xx in
  let buf := map udigit (lsd 64 base x) ++ (if neg then [45] else []) in
  if (length buf <=? 20)%nat then Some (concat (map uputc (rev buf))) else None.

Definition uprintptr (x : Z) : list Z :=
  uputc 48 ++ uputc 120 ++ concat (map (fun d => uputc (udigit d)) (nibbles 16 x)).

Definition uint_arg (v : Z -> Z) (base : Z) (sgn : bool) (ap : list varg) : option (list Z * list varg) :=
  match va_int ap with
  | Some (z, ap') => match uprintint (v z) base sgn with Some t => Some (t, ap') | None => None end
  | None => None
  end.

(** What the body of the loop does with a directive: the text, the
    arguments left, and the characters skipped (i += 1, i += 2). *)
Definition udirective (c0 c1 c2 : Z) (ap : list varg) : option (list Z * list varg) * nat :=
  if c0 =? 100 then (uint_arg i32 10 true ap, 0%nat)
  else if (c0 =? 108) && (c1 =? 100) then (uint_arg i64 10 true ap, 1%nat)
  else if (c0 =? 108) && (c1 =? 108) && (c2 =? 100) then (uint_arg i64 10 true ap, 2%nat)
  else if c0 =? 117 then (uint_arg u32 10 false ap, 0%nat)
  else if (c0 =? 108) && (c1 =? 117) then (uint_arg i64 10 false ap, 1%nat)
  else if (c0 =? 108) && (c1 =? 108) && (c2 =? 117) then (uint_arg i64 10 false ap, 2%nat)
  else if c0 =? 120 then (uint_arg u32 16 false ap, 0%nat)
  else if (c0 =? 108) && (c1 =? 120) then (uint_arg i64 16 false ap, 1%nat)
  else if (c0 =? 108) && (c1 =? 108) && (c2 =? 120) then (uint_arg i64 16 false ap, 2%nat)
  else if c0 =? 112 then
    (match va_int ap with Some (z, ap') => Some (uprintptr (u64 z), ap') | None => None end, 0%nat)
  else if c0 =? 99 then
    (match va_int ap with Some (z, ap') => Some (uputc (u32 z), ap') | None => None end, 0%nat)
  else if c0 =? 115 then
    (match va_str ap with
     | Some (s, ap') => Some (concat (map uputc (default null_text s)), ap')
     | None => None
     end, 0%nat)
  else if c0 =? 37 then (Some (uputc 37, ap), 0%nat)
  else (Some (uputc 37 ++ uputc c0, ap), 0%nat).

(** The loop of vprintf(): [fmt] from index i on, [state] whether the last
    character was a '%'. *)
Fixpoint vprintf_loop (fuel : nat) (state : bool) (fmt : list Z) (ap : list varg) : option (list Z) :=
  match fuel with
  | O => Some []
  | S f =>
      match fmt with
      | [] => Some []
      | c0 :: r =>
          if state then
            let c1 := default 0 (r !! 0%nat) in
            let c2 := if c1 =? 0 then 0 else default 0 (r !! 1%nat) in
            let '(t, k) := udirective c0 c1 c2 ap in
            match t with
            | Some (out, ap') =>
                match vprintf_loop f false (drop k r) ap' with Some o => Some (out ++ o) | None => None end
            | None => None
            end
          else if c0 =? 37 then vprintf_loop f true r ap
          else match vprintf_loop f false r ap with Some o => Some (uputc c0 ++ o) | None => None end
      end
  end.

Definition vprintf (fmt : list Z) (ap : list varg) : option (list Z) := vprintf_loop (length fmt) false fmt ap.
Definition fprintf (fmt : list Z) (ap : list varg) : option (list Z) := vprintf fmt ap.
Definition uprintf (fmt : list Z) (ap : list varg) : option (list Z) := vprintf fmt ap.

(* ------------------------------------------------------------------ *)
(** ** Lemmas *)

Definition user_printers : printers := Printers uprintint uprintptr uputc.

Lemma udirective_render c0 c1 c2 ap :
  udirective c0 c1 c2 ap =
    (render1 user_printers (fst (directive_of c0 c1 c2)) ap, snd (directive_of c0 c1 c2)).
Proof.
  unfold udirective, directive_of, uint_arg.
  repeat match goal with |- (if ?b then _ else _) = _ => destruct b; [done|] end. done.
Qed.

(** Enough fuel gives the same directives. *)
Lemma parse_fmt_fuel fuel fuel' fmt :
  (length fmt <= fuel)%nat -> (length fmt <= fuel')%nat -> parse_fmt fuel fmt = parse_fmt fuel' fmt.
Proof.
  revert fuel' fmt. induction fuel as [|f IH]; intros [|f'] [|c r] H1 H2; simpl in *; try done; try lia.
  destruct (c =? 37); [|f_equal; apply IH; lia]. destruct r as [|c0 r']; [done|].
  destruct (directive_of c0 _ _) as [d k]. f_equal. simpl in *. apply IH; rewrite length_drop; lia.
Qed.

Lemma vprintf_loop_render n fuel fmt ap :
  (length fmt <= n)%nat -> (length fmt <= fuel)%nat -> Forall (fun c => c <> 0) fmt ->
  vprintf_loop fuel false fmt ap = render user_printers (parse_fmt (length fmt) fmt) ap.
Proof.
  revert fuel fmt ap. induction n as [|n IH]; intros fuel fmt ap Hn Hf Hnz.
  { destruct fmt; [|simpl in Hn; lia]. by destruct fuel. }
  destruct fmt as [|cx r]; [by destruct fuel|]. destruct fuel as [|f]; [simpl in Hf; lia|].
  simpl in Hn, Hf. apply Forall_cons in Hnz as [_ Hr]. cbn [vprintf_loop length parse_fmt].
  destruct (cx =? 37) eqn:Hcx.
  - destruct r as [|c0 r']; [by destruct f|]. destruct f as [|f]; [simpl in Hf; lia|].
    apply Forall_cons in Hr as [_ Hr]. cbn [vprintf_loop].
    assert ((if default 0 (r' !! 0%nat) =? 0 then 0 else default 0 (r' !! 1%nat)) = default 0 (r' !! 1%nat)) as ->.
    { destruct r' as [|c1 r']; [done|]. apply Forall_cons in Hr as [Hc1 _]. simpl. by rewrite (proj2 (Z.eqb_neq c1 0)). }
    rewrite udirective_render. destruct (directive_of c0 _ _) as [d k]. cbn [fst snd length render] in *.
    destruct (render1 user_printers d ap) as [[t ap']|]; [|done].
    rewrite IH; [|rewrite length_drop; lia..|by apply Forall_drop].
    rewrite (parse_fmt_fuel (S (length r')) (length (drop k r'))); [done|rewrite length_drop; lia|done].
  - simpl. rewrite IH by (done || lia). done.
Qed.

Lemma u32_i64 z : u32 (i64 z) = u32 z.
Proof. unfold i64, u32. divlia. Qed.

(** The text of a number: its digits, most significant first, without
    leading zeros. *)
Definition unumeral (base x : Z) (t : list Z) : Prop :=
  exists ds, t = map udigit (rev ds) /\ Forall (fun d => 0 <= d < base) ds /\ canonical ds /\ lsd_value base ds = x.

Lemma concat_uputc l : Forall (fun c => 0 <= c < 256) l -> concat (map uputc l) = l.
Proof.
  induction 1 as [|c l Hc Hl IH]; [done|]. simpl. rewrite IH. unfold uputc, u8. by rewrite Z.mod_small.
Qed.

(** Reading decimal digits back. *)
Lemma dec_value_snoc n l d :
  Forall (fun c => 48 <= c <= 57) l -> 48 <= d <= 57 ->
  dec_value n (l ++ [d]) = dec_value n l * 10 + (d - 48).
Proof.
  intros Hl Hd. revert n. induction Hl as [|c l Hc Hl IH]; intros n; simpl.
  - by rewrite (proj2 (Z.leb_le 48 d)), (proj2 (Z.leb_le d 57)) by lia.
  - rewrite (proj2 (Z.leb_le 48 c)), (proj2 (Z.leb_le c 57)) by lia. apply IH.
Qed.

Lemma udigit_10 d : 0 <= d < 10 -> udigit d = 48 + d.
Proof. intros. unfold udigit. by rewrite (proj2 (Z.ltb_lt d 10)) by lia. Qed.

Lemma dec_value_digits ds :
  Forall (fun d => 0 <= d < 10) ds -> dec_value 0 (map udigit (rev ds)) = lsd_value 10 ds.
Proof.
  induction 1 as [|d ds Hd Hds IH]; [done|]. simpl. rewrite map_app. simpl.
  rewrite udigit_10 by done. rewrite dec_value_snoc; [rewrite IH; lia| |lia].
  apply Forall_fmap, Forall_rev. eapply Forall_impl; [exact Hds|]. intros x Hx. simpl in *.
  rewrite udigit_10 by done. lia.
Qed.

Lemma udigit_byte d : 0 <= d < 16 -> 0 <= udigit d < 256.
Proof. intros. unfold udigit. destruct (d <? 10); lia. Qed.

(** printint() prints the low 32 bits of the number, or of its negation after
    a minus sign. *)
Lemma uprintint_numeral xx base sgn : base = 10 \/ base = 16 ->
  let neg := sgn && (xx <? 0) in
  exists t, uprintint xx base sgn = Some ((if neg then [45] else []) ++ t) /\ unumeral base (u32 (if neg then - xx else xx)) t.
Proof.
  intros Hb neg. unfold uprintint. fold neg. replace (if neg then u32 (- xx) else u32 xx) with (u32 (if neg then - xx else xx)) by by destruct neg.
  pose proof (u32_range (if neg then - xx else xx)) as Hx. set (x := u32 (if neg then - xx else xx)) in *.
  destruct (lsd_64_value base x Hb) as (Hv & Hd & Hc); [lia|]. exists (map udigit (rev (lsd 64 base x))).
  split; [|by exists (lsd 64 base x)]. rewrite (proj2 (Nat.leb_le _ _)).
  2: { destruct (lsd_64 base x Hb) as [_ Hl]; [lia|]. specialize (Hl ltac:(lia)). rewrite length_app, length_map.
       destruct neg; [change (length [45]) with 1%nat|change (@length Z []) with 0%nat]; lia. }
  f_equal. rewrite rev_app_distr, <- map_rev, concat_uputc; [by destruct neg|]. apply Forall_app. split; [destruct neg; repeat constructor; lia|].
  apply Forall_fmap, Forall_rev. eapply Forall_impl; [exact Hd|]. intros d Hd'. simpl in Hd'. apply udigit_byte. lia.
Qed.

(* ------------------------------------------------------------------ *)
(** ** Theorems *)

(** C16.  Both printf()s implement one format language.  For every format
    string and every arguments, the kernel's printf() (nested tests on the
    characters after a '%') and the user library's vprintf() (a state machine
    over the characters) print the rendering of the same list of directives,
    each with its own printers, and both fail on the same missing
    arguments. *)
Theorem printf_formats_agree (fmt : list Z) (ap : list varg) :
  Forall (fun c => c <> 0) fmt ->
  printf fmt ap = render kernel_printers (parse_fmt (length fmt) fmt) ap /\
  vprintf fmt ap = render user_printers (parse_fmt (length fmt) fmt) ap.
Proof.
  intros Hnz. split; [by apply printf_loop_render|]. by apply (vprintf_loop_render (length fmt)).
Qed.

Lemma printf_formats_agree_witness :
  printf [97; 37; 100; 37; 115] [VInt 7; VStr None] =
    render kernel_printers [DChar 97; DInt false 10 true; DStr] [VInt 7; VStr None].
Proof.
  refine (proj1 (printf_formats_agree [97; 37; 100; 37; 115] [VInt 7; VStr None] _)).
  repeat (apply Forall_cons; split; [done|]). apply Forall_nil_2.
Defined.

(** C17.  The user library's long directives print only 32 bits of a 64-bit
    argument.  %lx and %llx print the hexadecimal numeral of its low 32 bits,
    %lu and %llu the decimal one.  %ld and %lld print the decimal numeral of
    the low 32 bits of its absolute value, after a minus sign when it is
    negative. *)
Theorem user_long_truncated (z : Z) :
  (forall fmt, fmt ∈ [[37; 108; 120]; [37; 108; 108; 120]] ->
     exists t, vprintf fmt [VInt z] = Some t /\ unumeral 16 (z mod 2 ^ 32) t) /\
  (forall fmt, fmt ∈ [[37; 108; 117]; [37; 108; 108; 117]] ->
     exists t, vprintf fmt [VInt z] = Some t /\ unumeral 10 (z mod 2 ^ 32) t) /\
  (forall fmt, fmt ∈ [[37; 108; 100]; [37; 108; 108; 100]] ->
     exists t, vprintf fmt [VInt z] = Some ((if i64 z <? 0 then [45] else []) ++ t) /\
       unumeral 10 (Z.abs (i64 z) mod 2 ^ 32) t).
Proof.
  assert (forall base, base = 10 \/ base = 16 ->
    exists t, uprintint (i64 z) base false = Some t /\ unumeral base (z mod 2 ^ 32) t) as Hu.
  { intros base Hb. destruct (uprintint_numeral (i64 z) base false Hb) as (t & E & Hn). exists t. split; [done|].
    change (z mod 2 ^ 32) with (u32 z). by rewrite <- u32_i64. }
  assert (exists t, uprintint (i64 z) 10 true = Some ((if i64 z <? 0 then [45] else []) ++ t) /\
    unumeral 10 (Z.abs (i64 z) mod 2 ^ 32) t) as Hs.
  { destruct (uprintint_numeral (i64 z) 10 true ltac:(by left)) as (t & E & Hn). exists t. split; [done|].
    cbn [andb] in Hn. replace (Z.abs (i64 z)) with (if i64 z <? 0 then - i64 z else i64 z); [done|].
    destruct (Z.ltb_spec (i64 z) 0); lia. }
  destruct (Hu 16 ltac:(by right)) as (t16 & E16 & H16). destruct (Hu 10 ltac:(by left)) as (t10 & E10 & H10). destruct Hs as (ts & Es & Hts).
  split_and!; intros fmt Hf; rewrite !elem_of_cons, elem_of_nil in Hf.
  - exists t16. split; [|done]. destruct Hf as [->|[->|[]]]; cbv -[uprintint i64 app]; rewrite E16; by rewrite app_nil_r.
  - exists t10. split; [|done]. destruct Hf as [->|[->|[]]]; cbv -[uprintint i64 app]; rewrite E10; by rewrite app_nil_r.
  - exists ts. split; [|done]. destruct Hf as [->|[->|[]]]; cbv -[uprintint i64 app Z.ltb]; rewrite Es; by rewrite app_nil_r.
Qed.

(** C18.  atoi() on what printf("%d") prints.  Whenever the text printint()
    produces for an int that is not negative stands NUL-terminated in memory,
    atoi() on it returns the number when it is below 2^31 - 48.  For the 48
    ints from there on the sum n*10 + *s overflows before the digit's '0' is
    subtracted, which is undefined. *)
Theorem print_atoi_roundtrip (x : Z) (p : nat) (m : list Z) (t : list Z) :
  0 <= x < 2 ^ 31 -> uprintint x 10 true = Some t -> cstring m p t ->
  atoi (Z.of_nat p) m = if x <? 2 ^ 31 - 48 then Ok x m else ub "int overflow" m.
Proof.
  intros Hx Ht Hm. destruct (uprintint_numeral x 10 true ltac:(by left)) as (t' & E & ds & -> & Hd & _ & Hv).
  rewrite (proj2 (Z.ltb_ge x 0)) in E, Hv by lia. cbn [andb app] in E, Hv. rewrite u32_small in Hv by lia.
  rewrite E in Ht. injection Ht as <-. pose proof (cstring_bound _ _ _ Hm).
  pose proof (dec_value_digits ds Hd) as Hdv. unfold atoi, msize. erewrite bind_Ok by done. destruct (Z.ltb_spec x (2 ^ 31 - 48)).
  - rewrite (atoi_loop_spec (map udigit (rev ds))); [by rewrite Hdv, Hv|done|lia|lia|rewrite Hdv; lia].
  - apply (atoi_loop_overflows (map udigit (rev ds))); [done|lia| |lia|rewrite Hdv; lia].
    apply Forall_fmap, Forall_rev. eapply Forall_impl; [exact Hd|]. intros d Hd'. simpl in *.
    rewrite udigit_10 by done. lia.
Qed.

Lemma print_atoi_roundtrip_witness : atoi 1 [9; 52; 50; 0] = Ok 42 [9; 52; 50; 0].
Proof.
  refine (print_atoi_roundtrip 42 1 [9; 52; 50; 0] [52; 50] _ _ _).
  - lia.
  - reflexivity.
  - split; [repeat (apply Forall_cons; split; [done|]); apply Forall_nil_2|reflexivity].
Defined.
