(* ===== verification/Grep.v ===== *)
(** * user/grep.c

   The matcher of Kernighan and Pike on C strings (lists of bytes, a pointer
   into a string is a suffix), and the loop that reads a file through a
   buffer of 1024 bytes and prints the lines that match. *)

From stdpp Require Import base numbers list.
From Stdlib Require Import ZArith Lia.
From S2P Require Import Prelude.

(* ------------------------------------------------------------------ *)
(** ** The matcher *)

Definition c_hat : Z := 94.
Definition c_dot : Z := 46.
Definition c_star : Z := 42.
Definition c_dollar : Z := 36.
Definition c_nl : Z := 10.

(** matchstar(c, re, text), given matchhere(re, -). *)
Fixpoint matchstar (mh : list Z -> bool) (c : Z) (text : list Z) : bool :=
  if mh text then true
  else match text with
       | [] => false
       | t :: text' => if (t =? c) || (c =? c_dot) then matchstar mh c text' else false
       end.

Fixpoint matchhere (re text : list Z) : bool :=
  match re with
  | [] => true
  | r0 :: re1 =>
      let one :=
        match text with
        | [] => false
        | t :: text' => if (r0 =? c_dot) || (r0 =? t) then matchhere re1 text' else false
        end in
      match re1 with
      | [] => if r0 =? c_dollar then match text with [] => true | _ => false end else one
      | r1 :: re2 => if r1 =? c_star then matchstar (matchhere re2) r0 text else one
      end
  end.

Fixpoint match_loop (re text : list Z) : bool :=
  if matchhere re text then true
  else match text with [] => false | _ :: text' => match_loop re text' end.

Definition grep_match (re text : list Z) : bool :=
  match re with
  | r0 :: re' => if r0 =? c_hat then matchhere re' text else match_loop re text
  | [] => match_loop re text
  end.

(* ------------------------------------------------------------------ *)
(** ** The loop over the input *)

(** The lines of the buffer: strchr(p, newline), which stops at a NUL. *)
Fixpoint next_line (b : list Z) : option (list Z * list Z) :=
  match b with
  | [] => None
  | c :: b' =>
      if c =? 0 then None
      else if c =? c_nl then Some ([], b')
      else match next_line b' with Some (l, r) => Some (c :: l, r) | None => None end
  end.

(** The inner loop: what it prints, and the bytes it leaves in the buffer. *)
Fixpoint grep_lines (fuel : nat) (pattern b : list Z) : list Z * list Z :=
  match fuel with
  | O => ([], b)
  | S f =>
      match next_line b with
      | None => ([], b)
      | Some (l, r) =>
          let '(out, rest) := grep_lines f pattern r in
          ((if grep_match pattern l then l ++ [c_nl] else []) ++ out, rest)
      end
  end.

Definition BUFSZ : Z := 1024.

(** grep(pattern, fd): [input] is what is left to read, and [sizes] how many
    bytes each read() returns, at least one and at most what was asked
    for. *)
Fixpoint grep (fuel : nat) (pattern : list Z) (sizes : list nat) (buf input : list Z) : option (list Z) :=
  match fuel with
  | O => None
  | S f =>
      let room := Z.to_nat (BUFSZ - Z.of_nat (length buf) - 1) in
      let n := Nat.min (Nat.max 1 (hd 1%nat sizes)) (Nat.min room (length input)) in
      if decide (n = 0)%nat then Some []
      else
        let b := buf ++ take n input in
        let '(out, rest) := grep_lines (S (length b)) pattern b in
        match grep f pattern (tail sizes) rest (drop n input) with
        | Some out' => Some (out ++ out')
        | None => None
        end
  end.

(* ------------------------------------------------------------------ *)
(** ** What a pattern means *)

Inductive atom := Any | Lit (c : Z).
Inductive item := One (a : atom) | Star (a : atom).

Definition accepts (a : atom) (t : Z) : Prop := match a with Any => True | Lit c => t = c end.

(** The sequences of bytes a list of items describes. *)
Inductive lang : list item -> list Z -> Prop :=
| lang_nil : lang [] []
| lang_one a its t ts : accepts a t -> lang its ts -> lang (One a :: its) (t :: ts)
| lang_star a its xs ts : Forall (accepts a) xs -> lang its ts -> lang (Star a :: its) (xs ++ ts).

Definition atom_of (c : Z) : atom := if c =? c_dot then Any else Lit c.

(** A pattern without its leading hat: its items, and whether it ends in an
    anchor. *)
Fixpoint parse_here (re : list Z) : list item * bool :=
  match re with
  | [] => ([], false)
  | r0 :: re1 =>
      match re1 with
      | [] => if r0 =? c_dollar then ([], true) else ([One (atom_of r0)], false)
      | r1 :: re2 =>
          if r1 =? c_star then let '(its, e) := parse_here re2 in (Star (atom_of r0) :: its, e)
          else let '(its, e) := parse_here re1 in (One (atom_of r0) :: its, e)
      end
  end.

Definition parse_re (re : list Z) : bool * (list item * bool) :=
  match re with
  | r0 :: re' => if r0 =? c_hat then (true, parse_here re') else (false, parse_here re)
  | [] => (false, parse_here re)
  end.

Definition here_spec (p : list item * bool) (text : list Z) : Prop :=
  exists mid post, text = mid ++ post /\ lang (fst p) mid /\ (snd p = true -> post = []).

(* ------------------------------------------------------------------ *)
(** ** Lemmas *)

Lemma accepts_atom c t : accepts (atom_of c) t <-> (c =? c_dot) || (c =? t) = true.
Proof.
  unfold atom_of. destruct (Z.eqb_spec c c_dot); simpl; [done|]. rewrite Z.eqb_eq. split; congruence.
Qed.

Lemma matchstar_spec mh c text :
  matchstar mh c text = true <-> exists xs ts, text = xs ++ ts /\ Forall (accepts (atom_of c)) xs /\ mh ts = true.
Proof.
  induction text as [|t text IH]; simpl.
  - destruct (mh []) eqn:E; split; try done.
    + intros _. by exists [], [].
    + intros (xs & ts & Hx & _ & Hm). symmetry in Hx. apply app_nil in Hx as [-> ->]. congruence.
  - destruct (mh (t :: text)) eqn:E; [split; [intros _; by exists [], (t :: text)|done]|].
    assert ((t =? c) || (c =? c_dot) = true <-> accepts (atom_of c) t) as Ha.
    { rewrite accepts_atom, (Z.eqb_sym t c), orb_comm. done. }
    destruct ((t =? c) || (c =? c_dot)) eqn:Et.
    + rewrite IH. split.
      * intros (xs & ts & -> & Hf & Hm). exists (t :: xs), ts. split; [done|]. split; [|done]. constructor; [by apply Ha|done].
      * intros ([|x xs] & ts & Hx & Hf & Hm); simpl in Hx; [subst ts; congruence|]. injection Hx as <- ->.
        inversion Hf; subst. by exists xs, ts.
    + split; [done|]. intros ([|x xs] & ts & Hx & Hf & Hm); simpl in Hx; [subst ts; congruence|]. injection Hx as <- ->.
      inversion Hf; subst. by apply Ha.
Qed.

Lemma here_one c its e text : here_spec (One (atom_of c) :: its, e) text <->
  exists t text', text = t :: text' /\ accepts (atom_of c) t /\ here_spec (its, e) text'.
Proof.
  unfold here_spec. simpl. split.
  - intros (mid & post & -> & Hl & He). inversion Hl; subst. simpl. eauto 10.
  - intros (t & text' & -> & Ha & mid & post & -> & Hl & He). exists (t :: mid), post. split; [done|]. split; [by constructor|done].
Qed.

Lemma here_star c its e text : here_spec (Star (atom_of c) :: its, e) text <->
  exists xs ts, text = xs ++ ts /\ Forall (accepts (atom_of c)) xs /\ here_spec (its, e) ts.
Proof.
  unfold here_spec. simpl. split.
  - intros (mid & post & -> & Hl & He). inversion Hl; subst. exists xs, (ts ++ post). rewrite app_assoc. eauto 10.
  - intros (xs & ts & -> & Ha & mid & post & -> & Hl & He). exists (xs ++ mid), post. rewrite app_assoc.
    split; [done|]. split; [by constructor|done].
Qed.

Lemma one_spec r0 text (P : list Z -> bool) its e : (forall ts, P ts = true <-> here_spec (its, e) ts) ->
  match text with [] => false | t :: text' => if (r0 =? c_dot) || (r0 =? t) then P text' else false end = true <->
  here_spec (One (atom_of r0) :: its, e) text.
Proof.
  intros HP. rewrite here_one. destruct text as [|t text'].
  - split; [done|by intros (? & ? & ? & _)].
  - destruct ((r0 =? c_dot) || (r0 =? t)) eqn:E.
    + rewrite HP. split; [intros Hs; exists t, text'; by rewrite accepts_atom|by intros (? & ? & [= <- <-] & _ & ?)].
    + split; [done|]. intros (? & ? & [= <- <-] & Ha & _). apply accepts_atom in Ha. congruence.
Qed.

Lemma parse_here_2 r0 r1 re2 : parse_here (r0 :: r1 :: re2) =
  if r1 =? c_star then let '(its, e) := parse_here re2 in (Star (atom_of r0) :: its, e)
  else let '(its, e) := parse_here (r1 :: re2) in (One (atom_of r0) :: its, e).
Proof. done. Qed.

Lemma matchhere_2 r0 r1 re2 text : matchhere (r0 :: r1 :: re2) text =
  if r1 =? c_star then matchstar (matchhere re2) r0 text
  else match text with
       | [] => false
       | t :: text' => if (r0 =? c_dot) || (r0 =? t) then matchhere (r1 :: re2) text' else false
       end.
Proof. done. Qed.

(** Induction on the pattern takes one or two characters at a time. *)
Lemma matchhere_spec re text : matchhere re text = true <-> here_spec (parse_here re) text.
Proof.
  remember (length re) as n eqn:Hn. assert (length re <= n)%nat as Hle by lia. clear Hn. revert re text Hle.
  induction n as [n IH] using lt_wf_ind. intros re text Hle. destruct re as [|r0 re1].
  - simpl. split; [|done]. intros _. exists [], text. split; [done|]. split; [constructor|done].
  - assert (forall P, (length P < n)%nat -> forall ts, matchhere P ts = true <-> here_spec (parse_here P) ts) as IH'.
    { intros P HP ts. by apply (IH (length P)). }
    clear IH. simpl in Hle. destruct re1 as [|r1 re2].
    + cbn [matchhere parse_here]. destruct (r0 =? c_dollar).
      * destruct text as [|t text].
        -- split; [|done]. intros _. exists [], []. split; [done|]. split; [constructor|done].
        -- split; [done|]. intros (mid & post & Hx & Hl & He). rewrite He in Hx by done. inversion Hl; subst. done.
      * apply (one_spec r0 text (fun ts => matchhere [] ts)). intros ts. apply (IH' []). simpl. lia.
    + rewrite parse_here_2, matchhere_2. destruct (r1 =? c_star).
      * specialize (IH' re2 ltac:(simpl in Hle; lia)). destruct (parse_here re2) as [its e].
        rewrite matchstar_spec, here_star. by setoid_rewrite IH'.
      * specialize (IH' (r1 :: re2) ltac:(lia)). destruct (parse_here (r1 :: re2)) as [its e]. by apply one_spec.
Qed.

Lemma match_loop_spec re text : match_loop re text = true <->
  exists pre text', text = pre ++ text' /\ here_spec (parse_here re) text'.
Proof.
  setoid_rewrite <- matchhere_spec. induction text as [|t text IH]; simpl.
  - destruct (matchhere re []) eqn:E; split; try done.
    + intros _. by exists [], [].
    + intros (pre & text' & Hx & Hm). symmetry in Hx. apply app_nil in Hx as [-> ->]. congruence.
  - destruct (matchhere re (t :: text)) eqn:E; [split; [intros _; by exists [], (t :: text)|done]|]. rewrite IH. split.
    + intros (pre & text' & -> & Hm). by exists (t :: pre), text'.
    + intros ([|x pre] & text' & Hx & Hm); simpl in Hx; [subst; congruence|]. injection Hx as <- ->. by exists pre, text'.
Qed.

(** C39. grep's matcher decides the language of its patterns.  A text matches
    exactly when some part of it is a sequence the pattern's items describe,
    where a character stands for itself, a dot for any character and a star
    repeats the character before it; a leading hat ties the part to the
    start of the text and a final dollar to its end. *)
Theorem grep_match_language re text :
  grep_match re text = true <->
  exists pre mid post, text = pre ++ mid ++ post /\ lang (fst (snd (parse_re re))) mid /\
    (fst (parse_re re) = true -> pre = []) /\ (snd (snd (parse_re re)) = true -> post = []).
Proof.
  assert (forall re, match_loop re text = true <-> exists pre mid post, text = pre ++ mid ++ post /\
    lang (fst (parse_here re)) mid /\ (false = true -> pre = []) /\ (snd (parse_here re) = true -> post = [])) as Hl.
  { intros r. rewrite match_loop_spec. unfold here_spec. split.
    - intros (pre & ? & -> & mid & post & -> & ? & ?). exists pre, mid, post. done.
    - intros (pre & mid & post & -> & ? & _ & ?). exists pre, (mid ++ post). split; [done|]. eauto. }
  unfold grep_match, parse_re. destruct re as [|r0 re']; [apply Hl|]. destruct (r0 =? c_hat); [|apply Hl].
  rewrite matchhere_spec. unfold here_spec. split.
  - intros (mid & post & -> & ? & ?). exists [], mid, post. done.
  - intros (pre & mid & post & -> & ? & Hp & ?). rewrite Hp by done. exists mid, post. done.
Qed.

(* ------------------------------------------------------------------ *)
(** ** What grep prints *)

(** The lines of a text that end in a newline. *)
Fixpoint lines_from (cur b : list Z) : list (list Z) :=
  match b with
  | [] => []
  | c :: b' => if c =? c_nl then cur :: lines_from [] b' else lines_from (cur ++ [c]) b'
  end.
Notation lines := (lines_from []).

Definition printed (pattern : list Z) (ls : list (list Z)) : list Z :=
  concat (map (fun l => if grep_match pattern l then l ++ [c_nl] else []) ls).

(** The lines before the first one that does not fit in the buffer with its
    newline and the NUL. *)
Fixpoint fitting (ls : list (list Z)) : list (list Z) :=
  match ls with
  | [] => []
  | l :: ls' => if Z.of_nat (length l) + 1 <? BUFSZ then l :: fitting ls' else []
  end.

Lemma fitting_app ls1 ls2 : Forall (fun l => Z.of_nat (length l) + 1 < BUFSZ) ls1 -> fitting (ls1 ++ ls2) = ls1 ++ fitting ls2.
Proof. induction 1 as [|l ls Hl _ IH]; [done|]. cbn [fitting app]. rewrite (proj2 (Z.ltb_lt _ _)) by done. by rewrite IH. Qed.

Lemma lines_no_nl cur b : c_nl ∉ b -> lines_from cur b = [].
Proof.
  revert cur. induction b as [|c b IH]; intros cur Hn; simpl; [done|]. apply not_elem_of_cons in Hn as [Hc Hn].
  destruct (Z.eqb_spec c c_nl); [congruence|by apply IH].
Qed.

Lemma lines_app cur l r : c_nl ∉ l -> lines_from cur (l ++ c_nl :: r) = (cur ++ l) :: lines r.
Proof.
  revert cur. induction l as [|c l IH]; intros cur Hn; simpl.
  - by rewrite app_nil_r.
  - apply not_elem_of_cons in Hn as [Hc Hn]. destruct (Z.eqb_spec c c_nl); [congruence|]. rewrite IH by done. by rewrite <- app_assoc.
Qed.

Lemma next_line_None b : 0 ∉ b -> next_line b = None <-> c_nl ∉ b.
Proof.
  induction b as [|c b IH]; simpl; intros H0; [split; [intros _; apply not_elem_of_nil|done]|].
  apply not_elem_of_cons in H0 as [H0 H1]. destruct (Z.eqb_spec c 0); [congruence|]. rewrite not_elem_of_cons.
  destruct (Z.eqb_spec c c_nl) as [->|Hc]; [split; [done|tauto]|].
  rewrite <- IH by done. destruct (next_line b) as [[]|]; split; try done; naive_solver.
Qed.

Lemma next_line_Some b l r : next_line b = Some (l, r) -> b = l ++ c_nl :: r /\ c_nl ∉ l.
Proof.
  revert l. induction b as [|c b IH]; intros l; simpl; [done|]. destruct (c =? 0); [done|].
  destruct (Z.eqb_spec c c_nl) as [->|Hc]; [intros [= <- <-]; split; [done|apply not_elem_of_nil]|].
  destruct (next_line b) as [[l' r']|]; [|done]. intros [= <- <-]. destruct (IH l' eq_refl) as [-> ?].
  split; [done|]. apply not_elem_of_cons. split; [congruence|done].
Qed.

(** The inner loop prints the lines of the buffer and keeps the rest. *)
Lemma grep_lines_spec fuel pattern b : 0 ∉ b -> (length b < fuel)%nat ->
  exists ls rest, grep_lines fuel pattern b = (printed pattern ls, rest) /\ c_nl ∉ rest /\ 0 ∉ rest /\
    (length rest <= length b)%nat /\ Forall (fun l => (length l < length b)%nat) ls /\
    forall x, lines (b ++ x) = ls ++ lines (rest ++ x).
Proof.
  revert b. induction fuel as [|f IH]; intros b H0 Hf; [lia|]. cbn [grep_lines]. destruct (next_line b) as [[l r]|] eqn:E.
  - apply next_line_Some in E as [-> Hl]. rewrite length_app in Hf. simpl in Hf. rewrite not_elem_of_app, not_elem_of_cons in H0.
    destruct (IH r) as (ls & rest & -> & H1 & H2 & H3 & H4 & H5); [tauto|lia|]. exists (l :: ls), rest.
    split; [done|]. split; [done|]. split; [done|]. rewrite length_app. simpl. split; [lia|]. split.
    + constructor; [lia|]. eapply Forall_impl; [exact H4|]. simpl. lia.
    + intros x. rewrite <- app_assoc. simpl. rewrite lines_app by done. by rewrite H5.
  - apply next_line_None in E; [|done]. by exists [], b.
Qed.

(** Every read takes at least one byte of the input. *)
Lemma grep_ends fuel pattern sizes buf input : (length input < fuel)%nat -> exists out, grep fuel pattern sizes buf input = Some out.
Proof.
  revert sizes buf input. induction fuel as [|f IH]; intros sizes buf input Hf; [lia|]. cbn [grep]. cbv zeta.
  set (n := Nat.min _ _). case_decide as Hz; [by eexists|]. destruct (grep_lines _ _ _) as [out rest].
  destruct (IH (tail sizes) rest (drop n input)) as [out' ->]; [rewrite length_drop; unfold n in *; lia|]. by eexists.
Qed.

Lemma grep_spec fuel pattern sizes buf input : (length input < fuel)%nat -> 0 ∉ buf -> c_nl ∉ buf -> 0 ∉ input ->
  Z.of_nat (length buf) < BUFSZ -> grep fuel pattern sizes buf input = Some (printed pattern (fitting (lines (buf ++ input)))).
Proof.
  revert sizes buf input. induction fuel as [|f IH]; intros sizes buf input Hf Hb Hn Hi Hs; [lia|]. cbn [grep]. cbv zeta.
  set (room := Z.to_nat (BUFSZ - Z.of_nat (length buf) - 1)). set (n := Nat.min _ _). case_decide as Hz.
  - destruct (decide (input = [])) as [->|Hne]; [by rewrite app_nil_r, lines_no_nl|].
    assert (room = 0)%nat as Hr. { destruct input; [done|]. simpl in n. lia. }
    destruct (next_line input) as [[l r]|] eqn:E.
    2: { apply next_line_None in E; [|done]. rewrite lines_no_nl; [done|]. rewrite not_elem_of_app. tauto. }
    apply next_line_Some in E as [-> Hln]. rewrite app_assoc, lines_app by (rewrite not_elem_of_app; tauto).
    cbn [fitting]. rewrite (proj2 (Z.ltb_ge _ _)); [done|]. cbn [app]. rewrite length_app. unfold room, BUFSZ in *. lia.
  - set (b := buf ++ take n input). assert (0 ∉ b) as H0.
    { unfold b. rewrite not_elem_of_app. split; [done|]. intros Hx%elem_of_take. destruct Hx as (? & ? & _). by eapply Hi, list_elem_of_lookup_2. }
    assert (Z.of_nat (length b) < BUFSZ) as Hlb by (unfold b; rewrite length_app, length_take; unfold n, room, BUFSZ in *; lia).
    destruct (grep_lines_spec (S (length b)) pattern b H0) as (ls & rest & -> & H1 & H2 & H3 & Hfit & H4); [lia|].
    assert (lines (buf ++ input) = ls ++ lines (rest ++ drop n input)) as El.
    { rewrite <- H4. unfold b. by rewrite <- app_assoc, take_drop. }
    rewrite (IH (tail sizes) rest (drop n input)).
    + rewrite El, fitting_app by (eapply Forall_impl; [exact Hfit|]; simpl; lia). unfold printed. by rewrite map_app, concat_app.
    + rewrite length_drop. unfold n in *. lia.
    + done.
    + done.
    + intros Hx. apply Hi. rewrite <- (take_drop n input). apply elem_of_app. by right.
    + lia.
Qed.

(** C40. However the input arrives, grep ends on every input.  When the input
    has no NUL, what it prints is exactly the lines that match, in order, up
    to the first line that does not fit in the buffer with its newline and a
    NUL: there grep stops.  A last line without a newline is not looked
    at. *)
Theorem grep_prints_matching_lines pattern sizes input :
  (exists out, grep (S (length input)) pattern sizes [] input = Some out) /\
  (0 ∉ input -> grep (S (length input)) pattern sizes [] input = Some (printed pattern (fitting (lines input)))).
Proof.
  split; [by apply grep_ends; lia|]. intros Hi. apply (grep_spec _ _ _ []); try done; [lia|apply not_elem_of_nil..].
Qed.

Lemma grep_prints_matching_lines_witness :
  grep 12 [94; 97] [2; 1; 9]%nat [] [97; 98; 10; 98; 97; 10; 97; 10; 97; 98; 99] = Some [97; 98; 10; 97; 10].
Proof.
  change 12%nat with (S (length [97; 98; 10; 98; 97; 10; 97; 10; 97; 98; 99])).
  rewrite (proj2 (grep_prints_matching_lines [94; 97] [2; 1; 9]%nat [97; 98; 10; 98; 97; 10; 97; 10; 97; 98; 99])).
  - reflexivity.
  - by apply (bool_decide_unpack _).
Defined.
