(* ===== verification/Umalloc.v ===== *)
(** * user/umalloc.c

   The allocator of Kernighan and Ritchie: free blocks on a circular list in
   address order, each with a header of 16 bytes.  Memory is what the
   allocator keeps in it: the headers, by address; fresh memory is zero.
   sbrk() is the kernel's: it gives memory at the old break, or fails; other
   callers may have moved the break in between. *)

From stdpp Require Import base numbers list gmap strings.
From Stdlib Require Import ZArith Lia.
From S2P Require Import Prelude.

(** union header *)
Record header := Hd { h_ptr : Z; h_size : Z }.
Definition HSZ : Z := 16.

Record um := Um {
  um_base : Z;                   (* the address of base *)
  um_freep : Z;
  um_heap : gmap Z header;
  um_brk : Z;
  um_sbrk : list (option Z)      (* for each call: how far others moved the break, or failure *)
}.

Definition set_freep (p : Z) (s : um) : um := Um (um_base s) p (um_heap s) (um_brk s) (um_sbrk s).
Definition set_heap (h : gmap Z header) (s : um) : um := Um (um_base s) (um_freep s) h (um_brk s) (um_sbrk s).

Definition hdr (s : um) (a : Z) : header := default (Hd 0 0) (um_heap s !! a).
(** Only the data segment and the heap below the break can be accessed. *)
Definition mapped (s : um) (a : Z) : bool := (a =? um_base s) || (a + HSZ <=? um_brk s).

Definition get_ptr (a : Z) : M um Z := fun s => if mapped s a then Ok (h_ptr (hdr s a)) s else ub "header" s.
Definition get_size (a : Z) : M um Z := fun s => if mapped s a then Ok (h_size (hdr s a)) s else ub "header" s.
Definition set_ptr (a p : Z) : M um unit := fun s =>
  if mapped s a then Ok tt (set_heap (<[a := Hd p (h_size (hdr s a))]> (um_heap s)) s) else ub "header" s.
Definition set_size (a n : Z) : M um unit := fun s =>
  if mapped s a then Ok tt (set_heap (<[a := Hd (h_ptr (hdr s a)) (u32 n)]> (um_heap s)) s) else ub "header" s.

(** The search in free(). *)
Fixpoint free_loop (fuel : nat) (bp p : Z) : M um Z :=
  let* nx := get_ptr p in
  if (p <? bp) && (bp <? nx) then ret p
  else if (nx <=? p) && ((p <? bp) || (bp <? nx)) then ret p
  else match fuel with O => diverge | S f => free_loop f bp nx end.

Definition free (ap : Z) : M um unit :=
  let bp := ap - HSZ in
  let* p0 := gets um_freep in
  let* n := gets (fun s => size (um_heap s)) in
  let* p := free_loop n bp p0 in
  let* sz := get_size bp in
  let* nx := get_ptr p in
  (if bp + sz * HSZ =? nx then
     let* nsz := get_size nx in
     set_size bp (sz + nsz) ;;
     let* nnx := get_ptr nx in
     set_ptr bp nnx
   else set_ptr bp nx) ;;
  let* psz := get_size p in
  (if p + psz * HSZ =? bp then
     let* sz := get_size bp in
     set_size p (psz + sz) ;;
     let* nx := get_ptr bp in
     set_ptr p nx
   else set_ptr p bp) ;;
  modify (set_freep p).

Section limit.
(** The memory the machine can give. *)
Context (limit : Z).

(** char* sbrk(int n); None is SBRK_ERROR. *)
Definition sbrk (n : Z) : M um (option Z) := fun s =>
  match um_sbrk s with
  | Some gap :: rest =>
      let old := um_brk s + gap in
      if old + n <=? limit then Ok (Some old) (Um (um_base s) (um_freep s) (um_heap s) (old + n) rest)
      else Ok None (Um (um_base s) (um_freep s) (um_heap s) (um_brk s) rest)
  | _ => Ok None (Um (um_base s) (um_freep s) (um_heap s) (um_brk s) (tail (um_sbrk s)))
  end.

Definition morecore (nu : Z) : M um Z :=
  let nu := if nu <? 4096 then 4096 else nu in
  let* p := sbrk (i32 (nu * HSZ)) in
  match p with
  | None => ret 0
  | Some hp =>
      set_size hp nu ;;
      free (hp + HSZ) ;;
      gets um_freep
  end.

(** What malloc() does with a block that is large enough. *)
Definition cut (nunits prevp p : Z) : M um Z :=
  let* sz := get_size p in
  if sz =? nunits then
    let* nx := get_ptr p in
    set_ptr prevp nx ;;
    modify (set_freep prevp) ;;
    ret (p + HSZ)
  else
    set_size p (sz - nunits) ;;
    let* sz' := get_size p in
    let p' := p + sz' * HSZ in
    set_size p' nunits ;;
    modify (set_freep prevp) ;;
    ret (p' + HSZ).

Fixpoint malloc_loop (fuel : nat) (nunits prevp p : Z) : M um Z :=
  let* sz := get_size p in
  if nunits <=? sz then cut nunits prevp p
  else match fuel with
  | O => diverge
  | S f =>
      let* fp := gets um_freep in
      if p =? fp then
        let* r := morecore nunits in
        if r =? 0 then ret 0
        else let* nx := get_ptr r in malloc_loop f nunits r nx
      else let* nx := get_ptr p in malloc_loop f nunits p nx
  end.

Definition malloc (nbytes : Z) : M um Z :=
  let nunits := u32 ((nbytes + HSZ - 1) / HSZ + 1) in
  let* fp := gets um_freep in
  let* base := gets um_base in
  (if fp =? 0 then set_ptr base base ;; modify (set_freep base) ;; set_size base 0 else ret tt) ;;
  let* prevp := gets um_freep in
  let* n := gets (fun s => size (um_heap s)) in
  let* p := get_ptr prevp in
  malloc_loop (2 * n + 4) nunits prevp p.

End limit.
