(* ===== verification/UmallocInv.v ===== *)
(** * The free list of malloc()

   The blocks on the free list are in address order, apart from each other
   and from every block in use; free() and malloc() keep this. *)

From stdpp Require Import base numbers list gmap sorting strings.
From Stdlib Require Import ZArith Lia.
From S2P Require Import Prelude Umalloc.

(** A block: the address of its header and its size in headers. *)
Notation block := (Z * Z)%type.
Notation stop b := (fst b + snd b * HSZ).

Definition before (b b' : block) : Prop := stop b < fst b'.
Definition apart (b b' : block) : Prop := stop b <= fst b' \/ stop b' <= fst b.

(** Header [a] of a list points to the next one, the last to [e]. *)
Fixpoint chain (h : gmap Z header) (l : list Z) (e : Z) : Prop :=
  match l with
  | [] => True
  | a :: l' => h_ptr <$> h !! a = Some (hd e l') /\ chain h l' e
  end.

Record mal_inv (s : um) (fl hl : list block) : Prop := {
  mi_base : 0 < um_base s;
  mi_brk : um_brk s <= 2 ^ 36;
  mi_freep : um_freep s ∈ um_base s :: map fst fl;
  mi_chain : chain (um_heap s) (um_base s :: map fst fl) (um_base s);
  mi_size : forall a n, (a, n) ∈ (um_base s, 0) :: fl ++ hl -> h_size <$> um_heap s !! a = Some n;
  mi_in : forall b, b ∈ fl ++ hl -> um_base s + HSZ <= fst b /\ 1 <= snd b /\ stop b <= um_brk s;
  mi_sorted : StronglySorted before fl;
  mi_apart : forall b b', b ∈ fl -> b' ∈ hl -> apart b b';
  mi_held : StronglySorted apart hl;
  mi_above : um_base s + HSZ <= um_brk s;
  mi_gaps : Forall (fun o => forall g, o = Some g -> 0 <= g) (um_sbrk s)
}.

(** The address [u] is in one of the blocks. *)
Definition covers (l : list block) (u : Z) : Prop := exists b, b ∈ l /\ fst b <= u < stop b.

(* ------------------------------------------------------------------ *)
(** ** Lists of headers *)

Lemma chain_app h l1 l2 e : chain h (l1 ++ l2) e <-> chain h l1 (hd e l2) /\ chain h l2 e.
Proof.
  induction l1 as [|a l1 IH]; simpl; [tauto|]. rewrite IH.
  assert (hd e (l1 ++ l2) = hd (hd e l2) l1) as -> by (by destruct l1). tauto.
Qed.

Lemma chain_ne h l e a x : a ∉ l -> chain (<[a := x]> h) l e <-> chain h l e.
Proof.
  induction l as [|b l IH]; simpl; intros Ha; [done|]. apply not_elem_of_cons in Ha as [Hab Hl].
  rewrite lookup_insert_ne by done. rewrite IH by done. done.
Qed.

Lemma chain_next h l1 a l2 e : chain h (l1 ++ a :: l2) e -> h_ptr <$> h !! a = Some (hd e l2).
Proof. rewrite chain_app. by intros (_ & ? & _). Qed.

Lemma hdr_ptr s a p : h_ptr <$> um_heap s !! a = Some p -> h_ptr (hdr s a) = p.
Proof. unfold hdr. destruct (um_heap s !! a); simpl; congruence. Qed.
Lemma hdr_size s a n : h_size <$> um_heap s !! a = Some n -> h_size (hdr s a) = n.
Proof. unfold hdr. destruct (um_heap s !! a); simpl; congruence. Qed.

(** A list in address order splits around an address. *)
Lemma split_at (bp : Z) (l : list block) : StronglySorted before l -> (forall b, b ∈ l -> 1 <= snd b /\ fst b <> bp) ->
  exists l1 l2, l = l1 ++ l2 /\ (forall b, b ∈ l1 -> fst b < bp) /\ (forall b, b ∈ l2 -> bp < fst b).
Proof.
  induction l as [|b l IH]; intros Hs Hb; [exists [], []; split; [done|]; split; intros ? ?%elem_of_nil; done|].
  apply StronglySorted_inv in Hs as [Hs Hf]. rewrite Forall_forall in Hf.
  destruct (Hb b ltac:(by left)) as [H1 H2]. destruct (decide (fst b < bp)) as [Hlt|Hge].
  - destruct IH as (l1 & l2 & -> & Hl1 & Hl2); [done|intros; apply Hb; by right|].
    exists (b :: l1), l2. split; [done|]. split; [|done]. intros b' [->|?]%elem_of_cons; auto.
  - exists [], (b :: l). split; [done|]. split; [by intros ? ?%elem_of_nil|]. intros b' [->|Hin]%elem_of_cons; [lia|].
    specialize (Hf b' Hin). unfold before, HSZ in Hf. lia.
Qed.

Section inv.
Context (s : um) (fl hl : list block) (Hi : mal_inv s fl hl).
Notation h := (um_heap s).
Notation base := (um_base s).

Lemma node_mapped a : a ∈ base :: map fst (fl ++ hl) -> mapped s a = true.
Proof.
  intros [->|Ha]%elem_of_cons; unfold mapped; [by rewrite Z.eqb_refl|].
  apply list_elem_of_fmap in Ha as (b & -> & Hb). destruct (mi_in _ _ _ Hi b Hb) as (_ & ? & ?).
  apply orb_true_intro. right. apply Z.leb_le. unfold HSZ in *. lia.
Qed.

Lemma free_mapped a : a ∈ base :: map fst fl -> mapped s a = true.
Proof. intros Ha. apply node_mapped. rewrite map_app. rewrite elem_of_cons in *. rewrite elem_of_app. tauto. Qed.

Lemma size_at a n : (a, n) ∈ (base, 0) :: fl ++ hl -> get_size a s = Ok n s.
Proof.
  intros Ha. unfold get_size. rewrite node_mapped, (hdr_size _ _ n); [done|by apply (mi_size _ _ _ Hi)|].
  apply elem_of_cons in Ha as [[= -> ->]|Ha]; [by left|right]. by apply (list_elem_of_fmap_2 fst _ (a, n)).
Qed.

Lemma next_at l1 a l2 : base :: map fst fl = l1 ++ a :: l2 -> get_ptr a s = Ok (hd base l2) s.
Proof.
  intros E. unfold get_ptr. rewrite free_mapped by (rewrite E; apply elem_of_app; right; by left).
  rewrite (hdr_ptr _ _ (hd base l2)); [done|]. apply (chain_next _ l1). rewrite <- E. apply Hi.
Qed.

Lemma in_bounds b : b ∈ fl -> base < fst b /\ base + HSZ <= fst b /\ 1 <= snd b /\ stop b <= um_brk s.
Proof. intros Hb. destruct (mi_in _ _ _ Hi b) as (? & ? & ?); [apply elem_of_app; by left|]. unfold HSZ in *. lia. Qed.

(** The search of free() ends at the header before the block. *)
Section search.
Context (bp : Z) (l1 l2 : list block).
Hypothesis Hfl : fl = l1 ++ l2.
Hypothesis H1 : forall b, b ∈ l1 -> fst b < bp.
Hypothesis H2 : forall b, b ∈ l2 -> bp < fst b.
Hypothesis Hbp : base < bp.

Definition pred : Z := default base (last (base :: map fst l1)).

Lemma pred_last A p : base :: map fst l1 = A ++ [p] -> pred = p.
Proof. intros E. unfold pred. by rewrite E, last_snoc. Qed.

Lemma low_lt p : p ∈ base :: map fst l1 -> base <= p < bp.
Proof.
  intros [->|(b & -> & Hb)%list_elem_of_fmap]%elem_of_cons; [lia|]. split; [|auto].
  assert (b ∈ fl) as Hx by (rewrite Hfl; apply elem_of_app; by left). pose proof (in_bounds b Hx). lia.
Qed.

Lemma high_gt p : p ∈ map fst l2 -> bp < p.
Proof. intros (b & -> & Hb)%list_elem_of_fmap. auto. Qed.

Lemma nodes_split : base :: map fst fl = (base :: map fst l1) ++ map fst l2.
Proof. by rewrite Hfl, map_app. Qed.

(** Header addresses grow along the list. *)
Lemma nodes_grow A p q B : base :: map fst fl = A ++ p :: q :: B -> p < q.
Proof.
  destruct A as [|a0 A]; simpl; intros [= <- E].
  - assert (q ∈ map fst fl) as (b & -> & Hb)%list_elem_of_fmap by (rewrite E; by left). pose proof (in_bounds b Hb). lia.
  - apply (fmap_app_inv fst) in E as (f1 & f2 & -> & E2 & Ef). symmetry in E2.
    destruct f2 as [|b [|b' f2]]; simpl in E2; try done. injection E2 as <- <- _.
    pose proof (mi_sorted _ _ _ Hi) as Hs. rewrite Ef in Hs. apply StronglySorted_app in Hs as (_ & _ & Hs).
    apply StronglySorted_inv in Hs as [_ Hf]. apply Forall_inv in Hf. unfold before in Hf.
    assert (b ∈ fl) as Hb by (rewrite Ef; apply elem_of_app; right; by left). pose proof (in_bounds b Hb). unfold HSZ in *. lia.
Qed.

Lemma search_low A p B fuel : base :: map fst l1 = A ++ p :: B -> (length B <= fuel)%nat ->
  free_loop fuel bp p s = Ok pred s.
Proof.
  revert A p fuel. induction B as [|q B IH]; intros A p fuel E Hf.
  - rewrite (pred_last _ _ E). assert (base <= p < bp) as Hp by (apply low_lt; rewrite E; apply elem_of_app; right; by left).
    assert (get_ptr p s = Ok (hd base (map fst l2)) s) as En.
    { apply (next_at A). rewrite nodes_split, E, <- app_assoc. done. }
    assert (free_loop fuel bp p s = (if (p <? bp) && (bp <? hd base (map fst l2)) then Ok p s
      else if (hd base (map fst l2) <=? p) && ((p <? bp) || (bp <? hd base (map fst l2))) then Ok p s
      else match fuel with O => Diverge | S f => free_loop f bp (hd base (map fst l2)) s end)) as ->.
    { destruct fuel; cbn [free_loop]; (erewrite bind_Ok by exact En); repeat case_match; done. }
    rewrite (proj2 (Z.ltb_lt p bp)) by lia. destruct (map fst l2) as [|q l'] eqn:El; simpl.
    + rewrite (proj2 (Z.ltb_ge bp base)), (proj2 (Z.leb_le base p)) by lia. done.
    + rewrite (proj2 (Z.ltb_lt bp q)); [done|]. apply high_gt. rewrite El. by left.
  - assert (q < bp) as Hq by (apply low_lt; rewrite E; apply elem_of_app; right; right; by left).
    assert (p < q) as Hpq by (apply (nodes_grow A p q (B ++ map fst l2)); rewrite nodes_split, E, <- app_assoc; done).
    assert (get_ptr p s = Ok q s) as En by (apply (next_at A p (q :: B ++ map fst l2)); rewrite nodes_split, E, <- app_assoc; done).
    destruct fuel as [|f]; [simpl in Hf; lia|]. cbn [free_loop]. erewrite bind_Ok by exact En.
    rewrite (proj2 (Z.ltb_ge bp q)), andb_false_r, (proj2 (Z.leb_gt q p)) by lia. simpl.
    apply (IH (A ++ [p])); [by rewrite <- app_assoc|simpl in Hf; lia].
Qed.

Lemma search_high A p B fuel : map fst l2 = A ++ p :: B -> (S (length B) + length l1 <= fuel)%nat ->
  free_loop fuel bp p s = Ok pred s.
Proof.
  revert A p fuel. induction B as [|q B IH]; intros A p fuel E Hf.
  - assert (bp < p) as Hp by (apply high_gt; rewrite E; apply elem_of_app; right; by left).
    assert (get_ptr p s = Ok base s) as En.
    { apply (next_at ((base :: map fst l1) ++ A) p []). rewrite nodes_split, E, <- app_assoc. done. }
    destruct fuel as [|f]; [lia|]. cbn [free_loop]. erewrite bind_Ok by exact En.
    rewrite (proj2 (Z.ltb_ge p bp)), (proj2 (Z.ltb_ge bp base)) by lia. simpl. rewrite andb_false_r.
    apply (search_low [] base (map fst l1)); [done|]. rewrite length_map. simpl in Hf. lia.
  - assert (bp < p) as Hp by (apply high_gt; rewrite E; apply elem_of_app; right; by left).
    assert (p < q) as Hpq by (apply (nodes_grow ((base :: map fst l1) ++ A) p q B); rewrite nodes_split, E, <- app_assoc; done).
    assert (get_ptr p s = Ok q s) as En.
    { apply (next_at ((base :: map fst l1) ++ A) p (q :: B)). rewrite nodes_split, E, <- app_assoc. done. }
    destruct fuel as [|f]; [simpl in Hf; lia|]. cbn [free_loop]. erewrite bind_Ok by exact En.
    rewrite (proj2 (Z.ltb_ge p bp)), (proj2 (Z.leb_gt q p)) by lia. simpl.
    apply (IH (A ++ [p])); [by rewrite <- app_assoc|simpl in Hf |- *; lia].
Qed.

Lemma search_Ok p fuel : p ∈ base :: map fst fl -> (length fl <= fuel)%nat -> free_loop fuel bp p s = Ok pred s.
Proof.
  rewrite nodes_split, Hfl, length_app. intros [Hp|Hp]%elem_of_app Hf.
  - apply list_elem_of_split in Hp as (A & B & E). apply (search_low A p B); [done|].
    apply (f_equal length) in E. rewrite length_app in E. simpl in E. rewrite length_map in E. lia.
  - apply list_elem_of_split in Hp as (A & B & E). apply (search_high A p B); [done|].
    apply (f_equal length) in E. rewrite length_app in E. simpl in E. rewrite length_map in E. lia.
Qed.

End search.

End inv.

(* ------------------------------------------------------------------ *)
(** ** free() *)

Lemma apart_merge b c x : stop b = fst c -> 1 <= snd x -> apart b x -> apart c x -> apart (fst b, snd b + snd c) x.
Proof. unfold apart, HSZ. simpl. lia. Qed.

Lemma apart_sym b x : apart b x -> apart x b.
Proof. unfold apart. tauto. Qed.

Lemma nodes_NoDup s fl hl : mal_inv s fl hl -> NoDup (um_base s :: map fst fl).
Proof.
  intros Hi. apply NoDup_cons. split.
  - intros (b & Eb & Hb)%list_elem_of_fmap. pose proof (in_bounds s fl hl Hi b Hb). lia.
  - pose proof (mi_sorted _ _ _ Hi) as Hs. assert (forall b, b ∈ fl -> 1 <= snd b) as Hb.
    { intros b Hb. apply (in_bounds s fl hl Hi b Hb). }
    clear Hi. induction Hs as [|b l Hs IH Hf]; simpl; [constructor|]. apply NoDup_cons. split; [|apply IH; intros; apply Hb; by right].
    intros (c & Ec & Hc)%list_elem_of_fmap. rewrite Forall_forall in Hf. specialize (Hf c Hc). specialize (Hb b ltac:(by left)).
    unfold before, HSZ in Hf. lia.
Qed.

Lemma fuel_enough s fl hl : mal_inv s fl hl -> (length fl < size (um_heap s))%nat.
Proof.
  intros Hi. pose proof (nodes_NoDup _ _ _ Hi) as Hn. rewrite <- (size_dom (um_heap s)).
  assert (list_to_set (um_base s :: map fst fl) ⊆ dom (um_heap s)) as Hsub.
  { intros a Ha%elem_of_list_to_set. apply elem_of_dom.
    assert (exists n, (a, n) ∈ (um_base s, 0) :: fl ++ hl) as [n Hin].
    { apply elem_of_cons in Ha as [->|([? n] & -> & Hb)%list_elem_of_fmap]; [exists 0; by left|].
      exists n. right. apply elem_of_app. by left. }
    pose proof (mi_size _ _ _ Hi a n Hin) as Hx. by destruct (um_heap s !! a). }
  apply subseteq_size in Hsub. rewrite size_list_to_set in Hsub by done. simpl in Hsub. rewrite length_map in Hsub. lia.
Qed.

(** The header of a block on no list can be written. *)
Definition put_hd (a : Z) (x : header) (s : um) : um := set_heap (<[a := x]> (um_heap s)) s.

Lemma hdr_put a x s : hdr (put_hd a x s) a = x.
Proof. unfold hdr. simpl. by rewrite lookup_insert_eq. Qed.
Lemma hdr_put_ne a b x s : a <> b -> hdr (put_hd a x s) b = hdr s b.
Proof. intros. unfold hdr. simpl. by rewrite lookup_insert_ne. Qed.
Lemma put_put_hd a x y s : put_hd a x (put_hd a y s) = put_hd a x s.
Proof. unfold put_hd, set_heap. simpl. by rewrite insert_insert_eq. Qed.

Lemma set_ptr_Ok a p s : mapped s a = true -> set_ptr a p s = Ok tt (put_hd a (Hd p (h_size (hdr s a))) s).
Proof. intros E. unfold set_ptr. by rewrite E. Qed.
Lemma set_size_Ok a n s : mapped s a = true -> set_size a n s = Ok tt (put_hd a (Hd (h_ptr (hdr s a)) (u32 n)) s).
Proof. intros E. unfold set_size. by rewrite E. Qed.
Lemma get_ptr_Ok a s : mapped s a = true -> get_ptr a s = Ok (h_ptr (hdr s a)) s.
Proof. intros E. unfold get_ptr. by rewrite E. Qed.
Lemma get_size_Ok a s : mapped s a = true -> get_size a s = Ok (h_size (hdr s a)) s.
Proof. intros E. unfold get_size. by rewrite E. Qed.

Lemma hdr_eta s a p n : h_ptr <$> um_heap s !! a = Some p -> h_size <$> um_heap s !! a = Some n -> hdr s a = Hd p n.
Proof. unfold hdr. destruct (um_heap s !! a) as [[]|]; simpl; congruence. Qed.

(** The two halves of free(). *)
Definition join_next (bp sz nx : Z) : M um unit :=
  if bp + sz * HSZ =? nx then
    let* nsz := get_size nx in
    set_size bp (sz + nsz) ;;
    let* nnx := get_ptr nx in
    set_ptr bp nnx
  else set_ptr bp nx.
Definition join_prev (p bp psz : Z) : M um unit :=
  if p + psz * HSZ =? bp then
    let* sz := get_size bp in
    set_size p (psz + sz) ;;
    let* nx := get_ptr bp in
    set_ptr p nx
  else set_ptr p bp.

Lemma free_halves ap : free ap =
  (let* p0 := gets um_freep in
   let* n := gets (fun s => size (um_heap s)) in
   let* p := free_loop n (ap - HSZ) p0 in
   let* sz := get_size (ap - HSZ) in
   let* nx := get_ptr p in
   join_next (ap - HSZ) sz nx ;;
   let* psz := get_size p in
   join_prev p (ap - HSZ) psz ;;
   modify (set_freep p)).
Proof. done. Qed.

Section free.
Context (s : um) (l1 l2 hl : list block) (bp sz : Z).
Hypothesis Hi : mal_inv s (l1 ++ l2) ((bp, sz) :: hl).
Hypothesis H1 : forall b, b ∈ l1 -> fst b < bp.
Hypothesis H2 : forall b, b ∈ l2 -> bp < fst b.
Notation base := (um_base s).

Lemma bp_in : base + HSZ <= bp /\ 1 <= sz /\ bp + sz * HSZ <= um_brk s.
Proof. apply (mi_in _ _ _ Hi (bp, sz)). apply elem_of_app. right. by left. Qed.

Lemma bp_size : h_size <$> um_heap s !! bp = Some sz.
Proof. apply (mi_size _ _ _ Hi). right. apply elem_of_app. right. by left. Qed.

Lemma in_l1 b : b ∈ l1 -> b ∈ l1 ++ l2.
Proof. intros. apply elem_of_app. by left. Qed.
Lemma in_l2 b : b ∈ l2 -> b ∈ l1 ++ l2.
Proof. intros. apply elem_of_app. by right. Qed.

Lemma bp_apart b : b ∈ l1 ++ l2 -> apart b (bp, sz).
Proof. intros. apply (mi_apart _ _ _ Hi); [done|by left]. Qed.

Lemma l1_stop b : b ∈ l1 -> stop b <= bp.
Proof.
  intros Hb. destruct (bp_apart b (in_l1 b Hb)) as [?|Hx]; [done|]. specialize (H1 b Hb). simpl in Hx.
  pose proof bp_in. unfold HSZ in *. lia.
Qed.
Lemma l2_start b : b ∈ l2 -> bp + sz * HSZ <= fst b.
Proof.
  intros Hb. destruct (bp_apart b (in_l2 b Hb)) as [Hx|?]; [|done]. specialize (H2 b Hb). simpl in Hx.
  pose proof (in_bounds _ _ _ Hi b (in_l2 b Hb)). unfold HSZ in *. lia.
Qed.

(** What the first half leaves: the block, joined with its successor or
    not, at the head of the rest of the list. *)
Record joined (sz1 : Z) (l2' : list block) : Prop := {
  jn_suffix : forall b, b ∈ l2' -> b ∈ l2;
  jn_len : (length l2' <= length l2)%nat;
  jn_size : sz <= sz1 /\ bp + sz1 * HSZ <= um_brk s;
  jn_chain : chain (um_heap s) (map fst l2') base;
  jn_sorted : StronglySorted before ((bp, sz1) :: l2');
  jn_covers : forall u, covers ((bp, sz1) :: l2') u <-> bp <= u < bp + sz * HSZ \/ covers l2 u;
  jn_apart : forall b, b ∈ hl -> apart (bp, sz1) b
}.

Lemma covers_cons b l u : covers (b :: l) u <-> fst b <= u < stop b \/ covers l u.
Proof.
  unfold covers. split.
  - intros (c & [->|Hc]%elem_of_cons & Hu); eauto.
  - intros [Hu|(c & Hc & Hu)]; [exists b|exists c]; rewrite elem_of_cons; auto.
Qed.

Lemma covers_app l l' u : covers (l ++ l') u <-> covers l u \/ covers l' u.
Proof. unfold covers. setoid_rewrite elem_of_app. naive_solver. Qed.

Lemma held_apart b : b ∈ hl -> apart (bp, sz) b.
Proof.
  intros Hb. pose proof (mi_held _ _ _ Hi) as Hx. apply StronglySorted_inv in Hx as [_ Hx]. rewrite Forall_forall in Hx. auto.
Qed.

Lemma chain_l2 : chain (um_heap s) (map fst l2) base.
Proof.
  pose proof (mi_chain _ _ _ Hi) as Hc. rewrite map_app in Hc. change (base :: map fst l1 ++ map fst l2) with ((base :: map fst l1) ++ map fst l2) in Hc.
  by apply chain_app in Hc as [_ Hc].
Qed.

Lemma join_next_Ok : exists sz1 l2', joined sz1 l2' /\
  join_next bp sz (hd base (map fst l2)) s = Ok tt (put_hd bp (Hd (hd base (map fst l2')) sz1) s).
Proof.
  pose proof bp_in as (Hb1 & Hb2 & Hb3). pose proof (mi_brk _ _ _ Hi) as Hbrk. pose proof (mi_base _ _ _ Hi) as Hb0. pose proof chain_l2 as Hc.
  assert (mapped s bp = true) as Hm by (eapply node_mapped; [done|]; right; rewrite map_app; apply elem_of_app; right; by left).
  pose proof (mi_sorted _ _ _ Hi) as Hs. apply StronglySorted_app in Hs as (_ & _ & Hs).
  assert (l2 = [] \/ exists a2 s2 l2', l2 = (a2, s2) :: l2') as Hl2 by (destruct l2 as [|[]]; eauto 10).
  unfold join_next. destruct (Z.eqb_spec (bp + sz * HSZ) (hd base (map fst l2))) as [E|Hne].
  - destruct Hl2 as [El|(a2 & s2 & l2' & El)]; rewrite El in E, Hc, Hs |- *; simpl in E; [unfold HSZ in *; lia|].
    simpl in Hc. destruct Hc as [Hp Hc]. assert (a2 <> bp) as Hne by (unfold HSZ in *; lia).
    assert ((a2, s2) ∈ l1 ++ l2) as Hin by (apply in_l2; rewrite El; by left).
    pose proof (in_bounds _ _ _ Hi (a2, s2) Hin) as (_ & _ & Hs2 & Hst). simpl in Hs2, Hst.
    assert (mapped s a2 = true) as Hm2 by (eapply free_mapped; [done|]; right; by apply (list_elem_of_fmap_2 fst _ (a2, s2))).
    assert (hdr s a2 = Hd (hd base (map fst l2')) s2) as E2.
    { apply hdr_eta; [done|]. apply (mi_size _ _ _ Hi). right. apply elem_of_app. by left. }
    apply StronglySorted_inv in Hs as [Hs Hf]. rewrite Forall_forall in Hf.
    exists (sz + s2), l2'. split.
    + split.
      * intros b Hb. rewrite El. by right.
      * rewrite El. simpl. lia.
      * unfold HSZ in *. lia.
      * done.
      * constructor; [done|]. apply Forall_forall. intros b Hb. specialize (Hf b Hb). unfold before, HSZ in *. simpl in *. lia.
      * intros u. rewrite El, !covers_cons. simpl.
        assert (bp <= u < bp + (sz + s2) * HSZ <-> bp <= u < bp + sz * HSZ \/ a2 <= u < a2 + s2 * HSZ) by (unfold HSZ in *; lia). tauto.
      * intros b Hb. apply (apart_merge (bp, sz) (a2, s2)); [done| |by apply held_apart|].
        -- apply (mi_in _ _ _ Hi). apply elem_of_app. right. by right.
        -- apply (mi_apart _ _ _ Hi); [done|by right].
    + simpl. erewrite bind_Ok by (by apply get_size_Ok). rewrite E2. simpl. erewrite bind_Ok by (by apply set_size_Ok).
      erewrite bind_Ok by (by apply get_ptr_Ok). rewrite hdr_put_ne, E2 by done. rewrite set_ptr_Ok, hdr_put, put_put_hd by done. simpl.
      rewrite u32_small by (unfold HSZ in *; lia). done.
  - exists sz, l2. split.
    + split; try done.
      * constructor; [done|]. apply Forall_forall. intros b Hb. unfold before. simpl.
        destruct Hl2 as [El|(a2 & s2 & l2' & El)]; [rewrite El in Hb; by apply elem_of_nil in Hb|].
        assert ((a2, s2) ∈ l2) as Hin by (rewrite El; by left). rewrite El in Hne, Hb, Hs. simpl in Hne.
        pose proof (l2_start _ Hin) as Hst. simpl in Hst. apply elem_of_cons in Hb as [->|Hb]; [simpl; lia|].
        apply StronglySorted_inv in Hs as [_ Hf]. rewrite Forall_forall in Hf. specialize (Hf b Hb).
        pose proof (in_bounds _ _ _ Hi _ (in_l2 _ Hin)). unfold before, HSZ in *. simpl in *. lia.
      * intros u. by rewrite covers_cons.
      * apply held_apart.
    + rewrite set_ptr_Ok by done. by rewrite (hdr_size _ _ _ bp_size).
Qed.

Lemma apart_ne b c : 1 <= snd b -> 1 <= snd c -> apart b c -> fst b <> fst c.
Proof. unfold apart, HSZ. lia. Qed.

Lemma held_in b : b ∈ hl -> base + HSZ <= fst b /\ 1 <= snd b /\ stop b <= um_brk s.
Proof. intros Hb. apply (mi_in _ _ _ Hi). apply elem_of_app. right. by right. Qed.

Lemma l1_in b : b ∈ l1 -> base + HSZ <= fst b /\ 1 <= snd b /\ stop b <= bp.
Proof.
  intros Hb. pose proof (in_bounds _ _ _ Hi b (in_l1 b Hb)) as (_ & ? & ? & _). pose proof (l1_stop b Hb). done.
Qed.

Lemma l1_sorted : StronglySorted before l1.
Proof. pose proof (mi_sorted _ _ _ Hi) as Hs. by apply StronglySorted_app in Hs as (_ & ? & _). Qed.

(** The state the second half produces represents [fl'] when the header [p]
    before the block now says [x]. *)
Section result.
Context (sz1 : Z) (l2' : list block) (Hj : joined sz1 l2').
Context (p : Z) (x : header) (l1' : list block) (fl' : list block).
Notation s1 := (put_hd bp (Hd (hd base (map fst l2')) sz1) s).
Notation s2 := (set_freep p (put_hd p x s1)).

Hypothesis Hp : p < bp.
Hypothesis Hp_free : p = base \/ exists n, (p, n) ∈ l1.
Hypothesis Hfp : p ∈ base :: map fst fl'.
Hypothesis Hc : chain (<[p := x]> (um_heap s1)) (base :: map fst fl') base.
(* a block of the new list is that of [p], the freed one, or an old one *)
Hypothesis Hold : forall a n, (a, n) ∈ (base, 0) :: fl' ->
  a = p /\ h_size x = n \/ a <> p /\ ((a, n) ∈ (base, 0) :: l1 ++ l2 \/ a = bp /\ n = sz1).
Hypothesis Hin : forall b, b ∈ fl' -> base + HSZ <= fst b /\ 1 <= snd b /\ stop b <= um_brk s.
Hypothesis Hsort : StronglySorted before fl'.
Hypothesis Hap : forall b b', b ∈ fl' -> b' ∈ hl -> apart b b'.

Lemma held_ne a n : (a, n) ∈ hl -> a <> p /\ a <> bp.
Proof.
  intros Ha. pose proof (held_in _ Ha) as (Hx & Hy & _). simpl in Hx, Hy. split.
  - destruct Hp_free as [->|[m Hm]]; [unfold HSZ in *; lia|].
    pose proof (l1_in _ Hm) as (_ & Hz & _). symmetry. apply (apart_ne (p, m) (a, n)); [done..|].
    apply (mi_apart _ _ _ Hi); [by apply in_l1|by right].
  - symmetry. apply (apart_ne (bp, sz) (a, n)); [apply bp_in|done|by apply held_apart].
Qed.

Lemma free_result : mal_inv s2 fl' hl.
Proof.
  assert (bp <> base) as Hbb by (pose proof bp_in; unfold HSZ in *; lia). split; simpl.
  - apply Hi.
  - apply Hi.
  - done.
  - done.
  - intros a n Ha. change ((base, 0) :: fl' ++ hl) with (((base, 0) :: fl') ++ hl) in Ha. apply elem_of_app in Ha as [Ha|Ha].
    + destruct (Hold a n Ha) as [[-> <-]|[Hne [Ho|[-> ->]]]]; [by rewrite lookup_insert_eq|..]; rewrite lookup_insert_ne by done.
      * destruct (decide (a = bp)) as [->|Hne']; [exfalso|].
        -- apply elem_of_cons in Ho as [[= ? _]|Ho]; [done|]. pose proof (in_bounds _ _ _ Hi _ Ho) as (_ & _ & Hn & _).
           apply (apart_ne (bp, n) (bp, sz)); [done|apply bp_in|by apply bp_apart|done].
        -- rewrite lookup_insert_ne by done. apply (mi_size _ _ _ Hi). apply elem_of_cons in Ho as [[= -> ->]|Ho]; [by left|right].
           apply elem_of_app. by left.
      * by rewrite lookup_insert_eq.
    + destruct (held_ne a n Ha) as [H3 H4]. rewrite !lookup_insert_ne by done. apply (mi_size _ _ _ Hi). right. apply elem_of_app. right. by right.
  - intros b [Hb|Hb]%elem_of_app; [by apply Hin|by apply held_in].
  - done.
  - done.
  - pose proof (mi_held _ _ _ Hi) as Hx. by apply StronglySorted_inv in Hx as [? _].
  - apply Hi.
  - apply Hi.
Qed.

End result.

Lemma chain_bp sz1 l2' p x : joined sz1 l2' -> p < bp ->
  chain (<[p := x]> (um_heap (put_hd bp (Hd (hd base (map fst l2')) sz1) s))) (map fst l2') base.
Proof.
  intros Hj Hp. assert (forall a, a ∈ map fst l2' -> bp < a) as Ha.
  { intros a (b & -> & Hb)%list_elem_of_fmap. apply H2. by apply (jn_suffix _ _ Hj). }
  simpl. rewrite chain_ne by (intros Hx%Ha; lia). rewrite chain_ne by (intros Hx%Ha; lia). apply Hj.
Qed.

(** The list up to the header before the block. *)
Lemma chain_low A p e sz1 (l2' : list block) x : base :: map fst l1 = A ++ [p] -> h_ptr x = e ->
  chain (<[p := x]> (um_heap (put_hd bp (Hd (hd base (map fst l2')) sz1) s))) (A ++ [p]) e.
Proof.
  intros E Ex. pose proof (nodes_NoDup _ _ _ Hi) as Hn. pose proof (mi_chain _ _ _ Hi) as Hc.
  rewrite map_app in Hn, Hc. change (base :: map fst l1 ++ map fst l2) with ((base :: map fst l1) ++ map fst l2) in Hn, Hc.
  rewrite E, <- app_assoc in Hn, Hc. apply NoDup_app in Hn as (_ & Hn & _). apply chain_app in Hc as [Hc _]. simpl in Hc.
  assert (bp ∉ A) as Hb.
  { intros Hx. assert (bp ∈ base :: map fst l1) as Hy by (rewrite E; apply elem_of_app; by left).
    apply elem_of_cons in Hy as [Eb|(b & Eb & Hy)%list_elem_of_fmap]; [pose proof bp_in; unfold HSZ in *; lia|].
    specialize (H1 b Hy). lia. }
  rewrite chain_app. simpl. rewrite lookup_insert_eq. simpl. rewrite Ex. split; [|done].
  rewrite chain_ne by (intros Hx%Hn; apply Hx; by left). by rewrite chain_ne.
Qed.

Lemma l2_bound sz1 l2' b : joined sz1 l2' -> b ∈ (bp, sz1) :: l2' -> base + HSZ <= fst b /\ 1 <= snd b /\ stop b <= um_brk s.
Proof.
  intros Hj [->|Hb]%elem_of_cons; simpl.
  - pose proof bp_in. pose proof (jn_size _ _ Hj). unfold HSZ in *. lia.
  - apply (mi_in _ _ _ Hi). apply elem_of_app. left. apply in_l2. by apply (jn_suffix _ _ Hj).
Qed.

(** The header before the block. *)
Record prev_facts (sz1 : Z) (l2' : list block) (p psz : Z) (A : list Z) : Prop := {
  pf_nodes : base :: map fst l1 = A ++ [p];
  pf_lt : p < bp;
  pf_free : p = base \/ exists n, (p, n) ∈ l1;
  pf_case : p = base /\ psz = 0 /\ l1 = [] \/ exists l1', l1 = l1' ++ [(p, psz)];
  pf_mapped : mapped s p = true;
  pf_size : forall x, h_size (hdr (put_hd bp x s) p) = psz;
  pf_one : forall n, (p, n) ∈ (base, 0) :: l1 -> n = psz;
  pf_high : forall a n, (a, n) ∈ (bp, sz1) :: l2' -> a <> p;
  pf_last : forall b, p + psz * HSZ <> bp -> b ∈ l1 -> stop b < bp
}.

Lemma prev_found sz1 l2' : joined sz1 l2' -> exists psz A, prev_facts sz1 l2' (default base (last (base :: map fst l1))) psz A.
Proof.
  intros Hj. set (p := default _ _). pose proof bp_in as (Hb1 & Hb2 & Hb3).
  assert (exists A psz, base :: map fst l1 = A ++ [p] /\ (p, psz) ∈ (base, 0) :: l1 /\
    (p = base /\ psz = 0 /\ l1 = [] \/ exists l1', l1 = l1' ++ [(p, psz)])) as (A & psz & EA & Hpp & Hcase).
  { unfold p. destruct l1 as [|b l] using rev_ind; [exists [], 0; split_and!; [done|by left|by left]|]. clear IHl.
    rewrite map_app. simpl. change (base :: map fst l ++ [fst b]) with ((base :: map fst l) ++ [fst b]). rewrite last_snoc. simpl.
    exists (base :: map fst l), (snd b). rewrite <- surjective_pairing. split_and!; [done| |right; eauto].
    right. apply elem_of_app. right. by left. }
  assert (p < bp) as Hp.
  { apply elem_of_cons in Hpp as [[= -> _]|Hx]; [unfold HSZ in *; lia|]. apply (H1 _ Hx). }
  assert (forall n, (p, n) ∈ (base, 0) :: l1 -> get_size p s = Ok n s) as Hg.
  { intros n Hn. apply (size_at s _ _ Hi). apply elem_of_cons in Hn as [[= -> ->]|Hx]; [by left|right]. apply elem_of_app. left. by apply in_l1. }
  pose proof (Hg psz Hpp) as Hgp. assert (mapped s p = true) as Hm by (unfold get_size in Hgp; by destruct (mapped s p)).
  exists psz, A. split; try done.
  - apply elem_of_cons in Hpp as [[= -> _]|?]; eauto.
  - intros x. rewrite hdr_put_ne by lia. unfold get_size in Hgp. rewrite Hm in Hgp. by injection Hgp.
  - intros n Hn%Hg. congruence.
  - intros a n [[= -> ->]|Ha]%elem_of_cons; [lia|]. specialize (H2 _ (jn_suffix _ _ Hj _ Ha)). simpl in H2. lia.
  - intros b Hne Hb. pose proof (l1_stop b Hb). destruct Hcase as [(_ & _ & El)|[l1' El]]; rewrite El in Hb; [by apply elem_of_nil in Hb|].
    pose proof l1_sorted as Hs. rewrite El in Hs. apply StronglySorted_app in Hs as (Hs & _ & _).
    apply elem_of_app in Hb as [Hb|Hb%list_elem_of_singleton]; [|subst b; simpl in *; lia].
    specialize (Hs b (p, psz) Hb ltac:(by left)). unfold before in Hs. simpl in Hs. lia.
Qed.

Section prev.
Context (sz1 : Z) (l2' : list block) (Hj : joined sz1 l2') (p psz : Z) (A : list Z) (Hpf : prev_facts sz1 l2' p psz A).
Notation s1 := (put_hd bp (Hd (hd base (map fst l2')) sz1) s).

(** What the second half leaves. *)
Definition prev_done (fl' : list block) (x : header) : Prop :=
  join_prev p bp psz s1 = Ok tt (put_hd p x s1) /\ mal_inv (set_freep p (put_hd p x s1)) fl' hl /\
  (forall u, covers fl' u <-> covers (l1 ++ l2) u \/ bp <= u < bp + sz * HSZ) /\
  (length fl' <= S (length (l1 ++ l2)))%nat /\ exists b, b ∈ fl' /\ fst b <= bp /\ bp + sz * HSZ <= stop b.

Lemma prev_link : p + psz * HSZ <> bp -> prev_done (l1 ++ (bp, sz1) :: l2') (Hd bp psz).
Proof.
  intros Hne. pose proof (jn_size _ _ Hj) as [Hz1 Hz2]. destruct Hpf as [EA Hp Hpfr _ Hm Hps Hone Hhigh Hlast]. split; [|split; [|split; [|split]]].
  - unfold join_prev. rewrite (proj2 (Z.eqb_neq _ _)) by done. by rewrite set_ptr_Ok, Hps by exact Hm.
  - apply free_result; try done.
    + rewrite map_app. change (base :: map fst l1 ++ ?r) with ((base :: map fst l1) ++ r). rewrite EA. apply elem_of_app. left. apply elem_of_app. right. by left.
    + rewrite map_app. change (base :: map fst l1 ++ ?r) with ((base :: map fst l1) ++ r). rewrite EA. apply chain_app. split; [by apply chain_low|].
      simpl. rewrite lookup_insert_ne, lookup_insert_eq by lia. split; [done|]. by apply chain_bp.
    + intros a n Ha. change ((base, 0) :: l1 ++ ?r) with (((base, 0) :: l1) ++ r) in Ha.
      destruct (decide (a = p)) as [->|Hap]; [left|right; split; [done|]].
      * split; [done|]. simpl. symmetry. apply elem_of_app in Ha as [Ha|Ha]; [by apply (Hone n)|]. by destruct (Hhigh p n Ha).
      * apply elem_of_app in Ha as [Ha|Ha]; [left|].
         -- apply elem_of_cons in Ha as [[= -> ->]|Ha]; [by left|right; by apply in_l1].
         -- apply elem_of_cons in Ha as [[= -> ->]|Ha]; [by right|left; right]. apply in_l2. by apply (jn_suffix _ _ Hj).
    + intros b [Hb|Hb]%elem_of_app; [by apply (in_bounds _ _ _ Hi), in_l1|by eapply l2_bound].
    + apply StronglySorted_app. split_and!; [|apply l1_sorted|apply (jn_sorted _ _ Hj)]. intros b c Hb Hc. pose proof (Hlast b Hne Hb). unfold before.
      apply elem_of_cons in Hc as [->|Hc]; [done|]. specialize (H2 c (jn_suffix _ _ Hj c Hc)). lia.
    + intros b b' [Hb|Hb]%elem_of_app Hb'; [apply (mi_apart _ _ _ Hi); [by apply in_l1|by right]|].
      apply elem_of_cons in Hb as [->|Hb]; [by apply (jn_apart _ _ Hj)|]. apply (mi_apart _ _ _ Hi); [|by right]. apply in_l2. by apply (jn_suffix _ _ Hj).
  - intros u. rewrite !covers_app, (jn_covers _ _ Hj). tauto.
  - pose proof (jn_len _ _ Hj). rewrite !length_app. simpl. lia.
  - exists (bp, sz1). split; [apply elem_of_app; right; by left|]. simpl. unfold HSZ in *. lia.
Qed.

Lemma prev_merge : p + psz * HSZ = bp -> exists l1', l1 = l1' ++ [(p, psz)] /\
  prev_done (l1' ++ (p, psz + sz1) :: l2') (Hd (hd base (map fst l2')) (psz + sz1)).
Proof.
  intros E. pose proof (jn_size _ _ Hj) as [Hz1 Hz2]. pose proof (jn_sorted _ _ Hj) as Hsr. pose proof bp_in as (Hb1 & Hb2 & Hb3).
  pose proof (mi_base _ _ _ Hi) as Hb0. pose proof (mi_brk _ _ _ Hi) as Hbrk.
  destruct Hpf as [EA Hp Hpfr Hcase Hm Hps Hone Hhigh Hlast]. destruct Hcase as [(Ep & Ez & _)|[l1' El]]; [unfold HSZ in *; lia|].
  exists l1'. split; [done|]. pose proof (fun b Hb => in_bounds _ _ _ Hi b (in_l1 b Hb)) as Hl1.
  assert ((p, psz) ∈ l1) as Hpl by (rewrite El; apply elem_of_app; right; by left). pose proof (Hl1 _ Hpl) as (Hx0 & Hx1 & Hx2 & _). simpl in Hx0, Hx1, Hx2.
  pose proof l1_sorted as Hs1. rewrite El in Hs1. apply StronglySorted_app in Hs1 as (Hs1 & Hs2 & _).
  assert (forall b, b ∈ l1' -> b ∈ l1) as Hsub by (intros b Hb; rewrite El; apply elem_of_app; by left).
  assert (A = base :: map fst l1') as EA1.
  { rewrite El, map_app in EA. simpl in EA. change (base :: map fst l1' ++ [p]) with ((base :: map fst l1') ++ [p]) in EA. by apply app_inj_tail in EA as [<- _]. }
  rewrite EA1 in EA. split; [|split; [|split; [|split]]].
  - assert (mapped s bp = true) as Hmb by (eapply node_mapped; [done|]; right; rewrite map_app; apply elem_of_app; right; by left).
    unfold join_prev. rewrite (proj2 (Z.eqb_eq _ _)) by done. erewrite bind_Ok by (by apply get_size_Ok). erewrite bind_Ok by (by apply set_size_Ok). erewrite bind_Ok by (by apply get_ptr_Ok).
    rewrite hdr_put_ne by lia. rewrite hdr_put. simpl. rewrite set_ptr_Ok, hdr_put, put_put_hd by done. simpl.
    by rewrite u32_small by (unfold HSZ in *; lia).
  - apply free_result; try done.
    + rewrite map_app. simpl. right. apply elem_of_app. right. by left.
    + assert (base :: map fst (l1' ++ (p, psz + sz1) :: l2') = ((base :: map fst l1') ++ [p]) ++ map fst l2') as -> by (rewrite map_app, <- app_assoc; done).
      apply chain_app.
      split; [by apply chain_low|by apply chain_bp].
    + intros a n Ha. change ((base, 0) :: l1' ++ ?r) with (((base, 0) :: l1') ++ r) in Ha.
      destruct (decide (a = p)) as [->|Hap]; [left|right; split; [done|]].
      * split; [done|]. simpl. apply elem_of_app in Ha as [Ha|Ha]; [exfalso|].
         -- apply elem_of_cons in Ha as [[= Eb _]|Ha]; [unfold HSZ in *; lia|]. specialize (Hs1 _ (p, psz) Ha ltac:(by left)).
            unfold before in Hs1. simpl in Hs1. pose proof (Hl1 _ (Hsub _ Ha)) as (_ & _ & Hn & _). simpl in Hn. unfold HSZ in *. lia.
         -- apply elem_of_cons in Ha as [[= ->]|Ha]; [done|]. by destruct (Hhigh p n (list_elem_of_further _ _ _ Ha)).
      * apply elem_of_app in Ha as [Ha|Ha]; [left|].
         -- apply elem_of_cons in Ha as [[= -> ->]|Ha]; [by left|right; apply in_l1; by apply Hsub].
         -- apply elem_of_cons in Ha as [[= -> ->]|Ha]; [done|left; right]. apply in_l2. by apply (jn_suffix _ _ Hj).
    + intros b [Hb|Hb]%elem_of_app; [by apply Hl1, Hsub|]. apply elem_of_cons in Hb as [->|Hb]; [simpl; unfold HSZ in *; lia|].
      eapply l2_bound; [done|by right].
    + apply StronglySorted_app. apply StronglySorted_inv in Hsr as [Hsr Hf]. rewrite Forall_forall in Hf. split_and!; [|done|].
      * intros b c Hb [->|Hc]%elem_of_cons; [by apply (Hs1 b (p, psz)); [|left]|]. specialize (Hs1 b (p, psz) Hb ltac:(by left)).
         specialize (Hf c Hc). unfold before, HSZ in *. simpl in *. lia.
      * constructor; [done|]. apply Forall_forall. intros c Hc. specialize (Hf c Hc). unfold before, HSZ in *. simpl in *. lia.
    + intros b b' [Hb|Hb]%elem_of_app Hb'; [apply (mi_apart _ _ _ Hi); [by apply in_l1, Hsub|by right]|].
      apply elem_of_cons in Hb as [->|Hb]; [|apply (mi_apart _ _ _ Hi); [|by right]; apply in_l2; by apply (jn_suffix _ _ Hj)].
      apply (apart_merge (p, psz) (bp, sz1)); [done|by apply held_in| |by apply (jn_apart _ _ Hj)].
      apply (mi_apart _ _ _ Hi); [by apply in_l1|by right].
  - intros u. rewrite El, !covers_app. pose proof (jn_covers _ _ Hj u) as Hcv. rewrite !covers_cons in *. simpl in *.
    assert (covers [] u <-> False) as Hnil by (split; [intros (? & ?%elem_of_nil & _); done|done]).
    assert (p <= u < p + (psz + sz1) * HSZ <-> p <= u < p + psz * HSZ \/ bp <= u < bp + sz1 * HSZ) as Hiv by (unfold HSZ in *; lia).
    clear -Hiv Hcv Hnil. tauto.
  - pose proof (jn_len _ _ Hj). rewrite El, !length_app. simpl. lia.
  - exists (p, psz + sz1). split; [apply elem_of_app; right; by left|]. simpl. unfold HSZ in *. lia.
Qed.

End prev.

Lemma join_prev_Ok sz1 l2' : joined sz1 l2' ->
  let p := default base (last (base :: map fst l1)) in
  exists psz fl' x, get_size p (put_hd bp (Hd (hd base (map fst l2')) sz1) s) = Ok psz (put_hd bp (Hd (hd base (map fst l2')) sz1) s) /\
    prev_done sz1 l2' p psz fl' x.
Proof.
  intros Hj p. destruct (prev_found sz1 l2' Hj) as (psz & A & Hpf). fold p in Hpf. exists psz.
  assert (get_size p (put_hd bp (Hd (hd base (map fst l2')) sz1) s) = Ok psz (put_hd bp (Hd (hd base (map fst l2')) sz1) s)) as Hg.
  { rewrite get_size_Ok by apply (pf_mapped _ _ _ _ _ Hpf). by rewrite (pf_size _ _ _ _ _ Hpf). }
  destruct (decide (p + psz * HSZ = bp)) as [E|Hne].
  - destruct (prev_merge sz1 l2' Hj p psz A Hpf E) as (l1' & _ & Hd). eauto.
  - eexists _, _. split; [done|]. by eapply prev_link.
Qed.

End free.

(** free() of a block in use, at the address malloc() returned. *)
Lemma free_spec s fl hl bp sz : mal_inv s fl ((bp, sz) :: hl) ->
  exists fl' s', free (bp + HSZ) s = Ok tt s' /\ mal_inv s' fl' hl /\
    (forall u, covers fl' u <-> covers fl u \/ bp <= u < bp + sz * HSZ) /\ (length fl' <= S (length fl))%nat /\
    (exists b, b ∈ fl' /\ fst b <= bp /\ bp + sz * HSZ <= stop b) /\
    um_base s' = um_base s /\ um_brk s' = um_brk s /\ um_sbrk s' = um_sbrk s.
Proof.
  intros Hi. pose proof (mi_in _ _ _ Hi (bp, sz) ltac:(apply elem_of_app; right; by left)) as (Hb & Hz & _). simpl in Hb, Hz.
  destruct (split_at bp fl (mi_sorted _ _ _ Hi)) as (l1 & l2 & -> & H1 & H2).
  { intros b Hx. pose proof (in_bounds _ _ _ Hi b Hx) as (_ & _ & Hn & _). split; [done|].
    apply (apart_ne b (bp, sz)); [done|done|]. apply (mi_apart _ _ _ Hi); [done|by left]. }
  rewrite free_halves. assert (bp + HSZ - HSZ = bp) as -> by lia. erewrite bind_Ok by done. erewrite bind_Ok by done.
  erewrite bind_Ok by (apply (search_Ok s _ _ Hi bp l1 l2 eq_refl H1 H2); [unfold HSZ in *; lia|apply Hi|apply Nat.lt_le_incl; by eapply fuel_enough]).
  erewrite bind_Ok by (apply (size_at s _ _ Hi); right; apply elem_of_app; right; by left).
  set (p := pred s l1). assert (get_ptr p s = Ok (hd (um_base s) (map fst l2)) s) as En.
  { assert (exists A, um_base s :: map fst l1 = A ++ [p]) as [A EA].
    { unfold p, pred. destruct (map fst l1) as [|a l] using rev_ind; [by exists []|]. exists (um_base s :: l).
      change (um_base s :: l ++ [a]) with ((um_base s :: l) ++ [a]). by rewrite last_snoc. }
    apply (next_at s _ _ Hi A). rewrite map_app. change (um_base s :: map fst l1 ++ map fst l2) with ((um_base s :: map fst l1) ++ map fst l2).
    by rewrite EA, <- app_assoc. }
  erewrite bind_Ok by exact En.
  destruct (join_next_Ok s l1 l2 hl bp sz Hi H2) as (sz1 & l2' & Hj & E1). erewrite bind_Ok by exact E1.
  destruct (join_prev_Ok s l1 l2 hl bp sz Hi H1 H2 sz1 l2' Hj) as (psz & fl' & x & E2 & E3 & Hinv & Hcov & Hlen & Hblk). fold p in E2, E3, Hinv.
  erewrite bind_Ok by exact E2. erewrite bind_Ok by exact E3. eexists fl', _. split; [reflexivity|]. done.
Qed.
