(* ===== verification/UmallocSpec.v ===== *)
(** * malloc() and free()

   malloc() finds a block, or gets memory from the kernel and then finds
   one; any sequence of calls keeps the blocks in use apart. *)

From stdpp Require Import base numbers list gmap sorting strings.
From Stdlib Require Import ZArith Lia.
From S2P Require Import Prelude Umalloc UmallocInv.

(** The order in which blocks in use are listed does not matter. *)
Lemma apart_perm l l' : l ≡ₚ l' -> StronglySorted apart l -> StronglySorted apart l'.
Proof.
  induction 1 as [|b l l' Hp IH|b c l|]; intros Hs; [done| | |auto].
  - apply StronglySorted_inv in Hs as [Hs Hf]. constructor; [auto|]. by rewrite <- Hp.
  - apply StronglySorted_inv in Hs as [Hs Hf]. apply StronglySorted_inv in Hs as [Hs Hg].
    apply Forall_cons in Hf as [Hbc Hf]. constructor; [by constructor|]. constructor; [by apply apart_sym|done].
Qed.

Lemma mal_inv_perm s fl hl hl' : hl ≡ₚ hl' -> mal_inv s fl hl -> mal_inv s fl hl'.
Proof.
  intros Hp Hi. split; try apply Hi.
  - intros a n. rewrite <- Hp. apply Hi.
  - intros b. rewrite <- Hp. apply Hi.
  - intros b b' Hb. rewrite <- Hp. by apply Hi.
  - by eapply apart_perm, Hi.
Qed.

Section morecore.
Context (limit : Z) (Hlimit : limit <= 2 ^ 36).

(** Memory from the kernel is a new block in use, for free() to take. *)
Lemma fresh_block s fl hl hp nu rest : mal_inv s fl hl -> um_brk s <= hp -> 1 <= nu -> hp + nu * HSZ <= limit ->
  Forall (fun o => forall g, o = Some g -> 0 <= g) rest ->
  let s1 := Um (um_base s) (um_freep s) (um_heap s) (hp + nu * HSZ) rest in
  mal_inv (put_hd hp (Hd (h_ptr (hdr s1 hp)) nu) s1) fl ((hp, nu) :: hl).
Proof.
  intros Hi Hhp Hnu Hlim Hrest s1. pose proof (mi_above _ _ _ Hi) as Hab.
  assert (forall b, b ∈ fl ++ hl -> stop b <= hp /\ fst b <> hp) as Hb.
  { intros b Hb. pose proof (mi_in _ _ _ Hi b Hb). unfold HSZ in *. lia. }
  split; simpl.
  - apply Hi.
  - lia.
  - apply Hi.
  - refine (proj2 (chain_ne (um_heap s) (um_base s :: map fst fl) (um_base s) hp _ _) (mi_chain _ _ _ Hi)).
    intros [Ex|(b & Ex & Hx)%list_elem_of_fmap]%elem_of_cons; [unfold HSZ in *; lia|].
    destruct (Hb b) as [_ ?]; [apply elem_of_app; by left|done].
  - intros a n Ha. rewrite <- Permutation_middle in Ha. rewrite !elem_of_cons in Ha.
    destruct Ha as [[= -> ->]|[[= -> ->]|Ha]]; [|by rewrite lookup_insert_eq|].
    + rewrite lookup_insert_ne by (unfold HSZ in *; lia). apply (mi_size _ _ _ Hi). by left.
    + rewrite lookup_insert_ne by (symmetry; apply (Hb (a, n) Ha)). apply (mi_size _ _ _ Hi). by right.
  - intros b Hx. rewrite <- Permutation_middle, elem_of_cons in Hx. destruct Hx as [->|Hx]; [simpl; unfold HSZ in *; lia|].
    pose proof (mi_in _ _ _ Hi b Hx). unfold HSZ in *. lia.
  - apply Hi.
  - intros b b' Hx [->|Hy]%elem_of_cons; [|by apply (mi_apart _ _ _ Hi)]. left. apply Hb. apply elem_of_app. by left.
  - constructor; [apply Hi|]. apply Forall_forall. intros b Hx. right. apply Hb. apply elem_of_app. by right.
  - unfold HSZ in *. lia.
  - done.
Qed.

Lemma morecore_spec s fl hl nunits : mal_inv s fl hl -> 1 <= nunits -> nunits * HSZ < 2 ^ 31 ->
  exists r s', morecore limit nunits s = Ok r s' /\ um_base s' = um_base s /\
    (r = 0 /\ mal_inv s' fl hl /\ um_heap s' = um_heap s \/
     r <> 0 /\ r = um_freep s' /\ exists fl', mal_inv s' fl' hl /\ (length fl' <= S (length fl))%nat /\ exists b, b ∈ fl' /\ nunits <= snd b).
Proof.
  intros Hi Hn Hlt. unfold morecore. set (nu := if nunits <? 4096 then 4096 else nunits). cbv zeta.
  assert (nunits <= nu /\ 1 <= nu /\ nu * HSZ < 2 ^ 31) as (Hnu & Hnu1 & Hnu2).
  { unfold nu, HSZ in *. destruct (Z.ltb_spec nunits 4096); lia. }
  rewrite i32_small by (unfold HSZ in *; lia).
  assert (forall rest, Forall (fun o => forall g, o = Some g -> 0 <= g) rest ->
    mal_inv (Um (um_base s) (um_freep s) (um_heap s) (um_brk s) rest) fl hl) as Hsame by (intros rest Hr; destruct Hi; by split).
  pose proof (mi_gaps _ _ _ Hi) as Hg. destruct (um_sbrk s) as [|[gap|] rest] eqn:Es.
  - erewrite bind_Ok by (unfold sbrk; rewrite Es; reflexivity). eexists 0, _. split; [done|]. split; [done|]. left. split; [done|]. split; [by apply Hsame|done].
  - apply Forall_cons in Hg as [Hgap Hg]. specialize (Hgap gap eq_refl). destruct (Z.leb_spec (um_brk s + gap + nu * HSZ) limit) as [Hle|Hgt].
    + erewrite bind_Ok by (unfold sbrk; rewrite Es; cbv zeta; rewrite (proj2 (Z.leb_le _ _)) by done; reflexivity). cbv iota beta.
      set (hp := um_brk s + gap) in *. pose proof (fresh_block s fl hl hp nu rest Hi ltac:(lia) Hnu1 Hle Hg) as Hf. cbv zeta in Hf.
      set (s1 := Um _ _ _ _ rest) in *. erewrite bind_Ok.
      2: { apply set_size_Ok. unfold mapped. apply orb_true_intro. right. apply Z.leb_le. simpl. unfold HSZ in *. lia. }
      rewrite u32_small by (unfold HSZ in *; lia).
      destruct (free_spec _ _ _ _ _ Hf) as (fl' & s' & E & Hi' & _ & Hln & (b & Hb & Hb1 & Hb2) & Eb & _).
      erewrite bind_Ok by exact E. eexists _, s'. split; [reflexivity|]. split; [by rewrite Eb|]. right.
      assert (0 < um_freep s').
      { pose proof (mi_base _ _ _ Hi'). pose proof (mi_freep _ _ _ Hi') as Hx. apply elem_of_cons in Hx as [->|(c & -> & Hc)%list_elem_of_fmap]; [done|].
        pose proof (in_bounds _ _ _ Hi' c Hc). lia. }
      split; [lia|]. split; [done|]. exists fl'. split; [done|]. split; [done|]. exists b. split; [done|]. unfold HSZ in *. lia.
    + erewrite bind_Ok by (unfold sbrk; rewrite Es; cbv zeta; rewrite (proj2 (Z.leb_gt _ _)) by done; reflexivity).
      eexists 0, _. split; [done|]. split; [done|]. left. split; [done|]. split; [by apply Hsame|done].
  - apply Forall_cons in Hg as [_ Hg]. erewrite bind_Ok by (unfold sbrk; rewrite Es; reflexivity). eexists 0, _. split; [done|]. split; [done|].
    left. split; [done|]. split; [by apply Hsame|done].
Qed.

End morecore.

(* ------------------------------------------------------------------ *)
(** ** Taking a block off the list *)

Section cut.
Context (s : um) (f1 f2 hl : list block) (q n : Z) (A : list Z) (prevp : Z).
Hypothesis Hi : mal_inv s (f1 ++ (q, n) :: f2) hl.
Hypothesis EA : um_base s :: map fst f1 = A ++ [prevp].
Notation base := (um_base s).
Notation fl := (f1 ++ (q, n) :: f2).

Lemma q_in : base + HSZ <= q /\ 1 <= n /\ q + n * HSZ <= um_brk s.
Proof. apply (mi_in _ _ _ Hi (q, n)). apply elem_of_app. left. apply elem_of_app. right. by left. Qed.

Lemma q_apart b : b ∈ f1 ++ f2 ++ hl -> apart b (q, n).
Proof.
  rewrite !elem_of_app. intros [Hb|[Hb|Hb]].
  - pose proof (mi_sorted _ _ _ Hi) as Hs. apply StronglySorted_app in Hs as (Hs & _). specialize (Hs b (q, n) Hb ltac:(by left)).
    unfold before in Hs. left. simpl in *. lia.
  - pose proof (mi_sorted _ _ _ Hi) as Hs. apply StronglySorted_app in Hs as (_ & _ & Hs). apply StronglySorted_inv in Hs as [_ Hf].
    rewrite Forall_forall in Hf. specialize (Hf b Hb). unfold before in Hf. right. simpl in *. lia.
  - apply apart_sym. apply (mi_apart _ _ _ Hi); [|done]. apply elem_of_app. right. by left.
Qed.

Lemma others_in b : b ∈ f1 ++ f2 ++ hl -> b ∈ fl ++ hl.
Proof. rewrite !elem_of_app, elem_of_cons. tauto. Qed.

Lemma prev_free : prevp ∈ base :: map fst f1.
Proof. rewrite EA. apply elem_of_app. right. by left. Qed.

Lemma prev_mapped : mapped s prevp = true.
Proof. eapply free_mapped; [done|]. rewrite map_app. pose proof prev_free as Hp. rewrite elem_of_cons in *. rewrite elem_of_app. tauto. Qed.

Lemma chain_parts : chain (um_heap s) A prevp /\ chain (um_heap s) (map fst f2) base /\
  get_ptr prevp s = Ok q s /\ hdr s q = Hd (hd base (map fst f2)) n.
Proof.
  pose proof (mi_chain _ _ _ Hi) as Hc.
  assert (base :: map fst fl = A ++ prevp :: q :: map fst f2) as E.
  { rewrite map_app. change (base :: map fst f1 ++ ?r) with ((base :: map fst f1) ++ r). by rewrite EA, <- app_assoc. }
  rewrite E in Hc. apply chain_app in Hc as [H1 (H2 & H3 & H4)]. split_and!; [done|done|by apply (next_at s _ _ Hi A _ _ E)|].
  apply hdr_eta; [done|]. apply (mi_size _ _ _ Hi). right. apply elem_of_app. left. apply elem_of_app. right. by left.
Qed.

Lemma nodes_apart : prevp <> q /\ prevp ∉ A /\ q ∉ A /\ prevp ∉ map fst f2 /\ q ∉ map fst f2.
Proof.
  pose proof (nodes_NoDup _ _ _ Hi) as Hn.
  assert (base :: map fst fl = A ++ prevp :: q :: map fst f2) as E.
  { rewrite map_app. change (base :: map fst f1 ++ ?r) with ((base :: map fst f1) ++ r). by rewrite EA, <- app_assoc. }
  rewrite E in Hn. apply NoDup_app in Hn as (_ & Hn & Hd). rewrite !NoDup_cons, elem_of_cons in Hd. destruct Hd as (Hd1 & Hd2 & _).
  split_and!; try tauto; intros Hx; apply (Hn _ Hx); rewrite !elem_of_cons; auto.
Qed.

Lemma other_ne a k : (a, k) ∈ (base, 0) :: f1 ++ f2 ++ hl -> a <> q.
Proof.
  intros [[= -> ->]|Ha]%elem_of_cons; [pose proof q_in; unfold HSZ in *; lia|].
  apply (apart_ne (a, k) (q, n)); [apply (mi_in _ _ _ Hi), others_in, Ha|apply q_in|by apply q_apart].
Qed.

(** The whole block. *)
Lemma cut_exact : cut n prevp q s = Ok (q + HSZ) (set_freep prevp (put_hd prevp (Hd (hd base (map fst f2)) (h_size (hdr s prevp))) s)) /\
  mal_inv (set_freep prevp (put_hd prevp (Hd (hd base (map fst f2)) (h_size (hdr s prevp))) s)) (f1 ++ f2) ((q, n) :: hl).
Proof.
  destruct chain_parts as (Hc1 & Hc2 & Hp & Hq). destruct nodes_apart as (Hne & HA1 & HA2 & Hf1 & Hf2).
  pose proof (mi_sorted _ _ _ Hi) as Hs. apply StronglySorted_app in Hs as (Hs1 & Hs2 & Hs3). apply StronglySorted_inv in Hs3 as [Hs3 _].
  assert (mapped s q = true) as Hm by (eapply free_mapped; [done|]; right; rewrite map_app; apply elem_of_app; right; by left).
  split.
  - unfold cut. erewrite bind_Ok by (by apply get_size_Ok). rewrite Hq. simpl. rewrite Z.eqb_refl.
    erewrite bind_Ok by (by apply get_ptr_Ok). rewrite Hq. simpl. erewrite bind_Ok by (apply set_ptr_Ok, prev_mapped). done.
  - split; simpl; try apply Hi.
    + rewrite map_app. pose proof prev_free as Hx. rewrite elem_of_cons in *. rewrite elem_of_app. tauto.
    + assert (um_base s :: map fst (f1 ++ f2) = A ++ [prevp] ++ map fst f2) as E.
      { rewrite map_app. change (base :: map fst f1 ++ ?r) with ((base :: map fst f1) ++ r). by rewrite EA, <- app_assoc. }
      change (chain (<[prevp := Hd (hd base (map fst f2)) (h_size (hdr s prevp))]> (um_heap s)) (base :: map fst (f1 ++ f2)) base).
      rewrite E, !chain_app. simpl. rewrite lookup_insert_eq, !chain_ne by done. done.
    + intros a k Ha. rewrite <- Permutation_middle, <- app_assoc in Ha.
      assert ((a, k) ∈ (base, 0) :: fl ++ hl) as Ha' by (revert Ha; rewrite !elem_of_cons, !elem_of_app, elem_of_cons; tauto).
      destruct (decide (a = prevp)) as [->|Hap].
      * rewrite lookup_insert_eq. simpl. f_equal. by apply hdr_size, (mi_size _ _ _ Hi).
      * rewrite lookup_insert_ne by done. by apply (mi_size _ _ _ Hi).
    + intros b Hb. apply (mi_in _ _ _ Hi). revert Hb. rewrite !elem_of_app, !elem_of_cons. tauto.
    + apply StronglySorted_app. split_and!; [|done|done]. intros. apply Hs1; [done|by right].
    + intros b b' Hb [->|Hb']%elem_of_cons; [apply q_apart; revert Hb; rewrite !elem_of_app; tauto|].
      apply (mi_apart _ _ _ Hi); [revert Hb; rewrite !elem_of_app, elem_of_cons; tauto|done].
    + constructor; [apply Hi|]. apply Forall_forall. intros b Hb. apply apart_sym, q_apart. rewrite !elem_of_app. tauto.
Qed.

(** The end of a larger block. *)
Lemma cut_split k : 1 <= k < n ->
  let a := q + (n - k) * HSZ in
  exists s', cut k prevp q s = Ok (a + HSZ) s' /\ um_base s' = base /\ um_brk s' = um_brk s /\
    mal_inv s' (f1 ++ (q, n - k) :: f2) ((a, k) :: hl).
Proof.
  intros Hk a. destruct chain_parts as (Hc1 & Hc2 & Hp & Hq). pose proof q_in as (Hq1 & Hq2 & Hq3). pose proof (mi_brk _ _ _ Hi) as Hbrk.
  pose proof (mi_base _ _ _ Hi) as Hb0. pose proof (mi_sorted _ _ _ Hi) as Hs. apply StronglySorted_app in Hs as (Hs1 & Hs2 & Hs3).
  apply StronglySorted_inv in Hs3 as [Hs3 Hs4]. rewrite Forall_forall in Hs4.
  assert (mapped s q = true) as Hm by (eapply free_mapped; [done|]; right; rewrite map_app; apply elem_of_app; right; by left).
  assert (mapped s a = true) as Hma by (unfold mapped; apply orb_true_intro; right; apply Z.leb_le; unfold a, HSZ in *; lia).
  assert (forall b, apart b (q, n) -> 1 <= snd b -> apart b (a, k) /\ apart b (q, n - k) /\ fst b <> a) as Hap.
  { intros b. unfold apart, a, HSZ. simpl. lia. }
  set (s1 := put_hd q (Hd (hd base (map fst f2)) (n - k)) s). set (s2 := put_hd a (Hd (h_ptr (hdr s1 a)) k) s1).
  exists (set_freep prevp s2). split.
  - unfold cut. erewrite bind_Ok by (by apply get_size_Ok). rewrite Hq. simpl. rewrite (proj2 (Z.eqb_neq _ _)) by lia.
    erewrite bind_Ok by (by apply set_size_Ok). rewrite Hq. simpl. rewrite u32_small by (unfold HSZ in *; lia). fold s1.
    erewrite bind_Ok by (by apply get_size_Ok). assert (h_size (hdr s1 q) = n - k) as -> by (unfold s1; by rewrite hdr_put). fold a.
    erewrite bind_Ok by (by apply set_size_Ok). rewrite u32_small by (unfold HSZ in *; lia). done.
  - split; [done|]. split; [done|].
    assert (a <> base /\ a <> q /\ a ∉ map fst f1 /\ a ∉ map fst f2) as (Ha1 & Ha2 & Ha3 & Ha4).
    { split; [unfold a, HSZ in *; lia|]. split; [unfold a, HSZ in *; lia|].
      split; intros (b & Eb & Hb)%list_elem_of_fmap; (destruct (Hap b) as (_ & _ & ?); [apply q_apart; rewrite !elem_of_app; tauto| |done]);
        apply (mi_in _ _ _ Hi), others_in; rewrite !elem_of_app; tauto. }
    split; simpl; try apply Hi.
    + rewrite map_app. pose proof prev_free as Hx. rewrite elem_of_cons in *. rewrite elem_of_app. tauto.
    + change (chain (<[a := Hd (h_ptr (hdr s1 a)) k]> (<[q := Hd (hd base (map fst f2)) (n - k)]> (um_heap s))) (base :: map fst (f1 ++ (q, n - k) :: f2)) base).
      rewrite map_app. simpl map. rewrite chain_ne.
      2: { rewrite elem_of_cons, elem_of_app, elem_of_cons. tauto. }
      pose proof (mi_chain _ _ _ Hi) as Hc. rewrite map_app in Hc. simpl map in Hc.
      change (base :: map fst f1 ++ q :: map fst f2) with ((base :: map fst f1) ++ q :: map fst f2) in *.
      destruct nodes_apart as (? & ? & HqA & ? & Hqf). rewrite chain_app in Hc |- *. simpl hd in *. destruct Hc as [Hc3 _].
      rewrite chain_ne by (rewrite EA, elem_of_app, list_elem_of_singleton; intros [?|?]; congruence). split; [done|].
      simpl. rewrite lookup_insert_eq. split; [done|]. by rewrite chain_ne.
    + intros x m Hx. rewrite <- Permutation_middle, !elem_of_cons in Hx. destruct Hx as [[= -> ->]|[[= -> ->]|Hx]].
      * rewrite !lookup_insert_ne by (unfold HSZ in *; lia). apply (mi_size _ _ _ Hi). by left.
      * by rewrite lookup_insert_eq.
      * rewrite <- app_assoc, elem_of_app in Hx. simpl in Hx. rewrite elem_of_cons in Hx.
        destruct (decide ((x, m) = (q, n - k))) as [[= -> ->]|Hxq]; [by rewrite lookup_insert_ne, lookup_insert_eq by done|].
        assert ((x, m) ∈ f1 ++ f2 ++ hl) as Ho by (rewrite elem_of_app; tauto).
        destruct (Hap (x, m)) as (_ & _ & Hxa); [by apply q_apart|apply (mi_in _ _ _ Hi), others_in, Ho|].
        rewrite !lookup_insert_ne; [|symmetry; apply (other_ne x m); by right|done]. apply (mi_size _ _ _ Hi). right. by apply others_in.
    + intros b Hb. rewrite <- Permutation_middle, elem_of_cons in Hb. destruct Hb as [->|Hb]; [simpl; unfold a, HSZ in *; lia|].
      rewrite <- app_assoc, elem_of_app in Hb. simpl in Hb. rewrite elem_of_cons in Hb.
      destruct (decide (b = (q, n - k))) as [->|]; [simpl; unfold HSZ in *; lia|]. apply (mi_in _ _ _ Hi), others_in. rewrite elem_of_app. tauto.
    + apply StronglySorted_app. split_and!; [|done|].
      * intros b c Hb [->|Hc]%elem_of_cons; [by apply (Hs1 b (q, n)); [|left]|apply Hs1; [done|by right]].
      * constructor; [done|]. apply Forall_forall. intros c Hc. specialize (Hs4 c Hc). unfold before, HSZ in *. simpl in *. lia.
    + intros b b' Hb Hb'. rewrite elem_of_app, elem_of_cons in Hb. rewrite elem_of_cons in Hb'.
      destruct (decide (b = (q, n - k))) as [->|].
      * destruct Hb' as [->|Hb']; [left; simpl; unfold a; lia|]. apply apart_sym, Hap; [apply q_apart; rewrite !elem_of_app; tauto|].
        apply (mi_in _ _ _ Hi), others_in. rewrite !elem_of_app. tauto.
      * assert (b ∈ f1 ++ f2 ++ hl) as Ho by (rewrite !elem_of_app; tauto).
        destruct Hb' as [->|Hb']; [apply Hap; [by apply q_apart|apply (mi_in _ _ _ Hi), others_in, Ho]|].
        apply (mi_apart _ _ _ Hi); [rewrite elem_of_app, elem_of_cons; tauto|done].
    + constructor; [apply Hi|]. apply Forall_forall. intros b Hb. apply apart_sym, Hap; [apply q_apart; rewrite !elem_of_app; tauto|].
      apply (mi_in _ _ _ Hi), others_in. rewrite !elem_of_app. tauto.
Qed.

End cut.

(* ------------------------------------------------------------------ *)
(** ** The search of malloc() *)

Section malloc.
Context (limit : Z) (Hlimit : limit <= 2 ^ 36).

(** What the loop does at a header. *)
Lemma malloc_loop_fit k s prevp p sz fuel : get_size p s = Ok sz s -> k <= sz ->
  malloc_loop limit fuel k prevp p s = cut k prevp p s.
Proof. intros E Hk. destruct fuel; cbn [malloc_loop]; (erewrite bind_Ok by exact E); by rewrite (proj2 (Z.leb_le _ _)). Qed.

Lemma malloc_loop_next k s prevp p sz nx fuel : get_size p s = Ok sz s -> sz < k -> p <> um_freep s -> get_ptr p s = Ok nx s ->
  malloc_loop limit (S fuel) k prevp p s = malloc_loop limit fuel k p nx s.
Proof.
  intros E Hk Hp En. cbn [malloc_loop]. erewrite bind_Ok by exact E. rewrite (proj2 (Z.leb_gt _ _)) by done.
  erewrite bind_Ok by done. rewrite (proj2 (Z.eqb_neq _ _)) by done. by erewrite bind_Ok by exact En.
Qed.

Section search.
Context (s : um) (fl hl : list block) (k : Z).
Hypothesis Hi : mal_inv s fl hl.
Notation base := (um_base s).

Definition unfit (a : Z) : Prop := forall n, (a, n) ∈ (base, 0) :: fl -> n < k.

Lemma node_size a : a ∈ base :: map fst fl -> exists n, (a, n) ∈ (base, 0) :: fl /\ get_size a s = Ok n s.
Proof.
  intros Ha. assert (exists n, (a, n) ∈ (base, 0) :: fl) as [n Hn].
  { apply elem_of_cons in Ha as [->|([? n] & -> & Hb)%list_elem_of_fmap]; [exists 0; by left|exists n; by right]. }
  exists n. split; [done|]. apply (size_at s fl hl Hi). revert Hn. rewrite !elem_of_cons, elem_of_app. tauto.
Qed.

(** Passing over headers that are too small. *)
Lemma walk A prevp P B fuel : base :: map fst fl = A ++ prevp :: P ++ B -> (forall a, a ∈ P -> unfit a) -> um_freep s ∉ P ->
  malloc_loop limit (length P + fuel) k prevp (hd base (P ++ B)) s =
  malloc_loop limit fuel k (default prevp (last P)) (hd base B) s.
Proof.
  revert A prevp. induction P as [|a P IH]; intros A prevp E Hu Hf; [done|]. apply not_elem_of_cons in Hf as [Hfa Hf].
  assert (base :: map fst fl = (A ++ [prevp]) ++ a :: P ++ B) as E' by (by rewrite <- app_assoc).
  destruct (node_size a) as (n & Hn & Eg); [rewrite E'; apply elem_of_app; right; by left|].
  pose proof (next_at s fl hl Hi _ a _ E') as En. simpl length. simpl hd. cbn [Nat.add].
  erewrite malloc_loop_next; [|exact Eg|apply (Hu a); [by left|done]|done|exact En].
  rewrite (IH (A ++ [prevp]) a E'); [|intros; apply Hu; by right|done]. rewrite last_cons. by destruct (last P).
Qed.

#[local] Instance unfit_dec a : Decision (unfit a).
Proof.
  unfold unfit. destruct (decide (Forall (fun b => fst b = a -> snd b < k) ((base, 0) :: fl))) as [Hd|Hd].
  - left. intros n Hn. rewrite Forall_forall in Hd. by apply (Hd (a, n)).
  - right. intros Hx. apply Hd. apply Forall_forall. intros [a' n] Hb E. simpl in E. subst. by apply Hx.
Defined.

(** The first header of a list that fits, if one does. *)
Lemma first_fit P : (forall a, a ∈ P -> unfit a) \/
  exists P1 q P2, P = P1 ++ q :: P2 /\ (forall a, a ∈ P1 -> unfit a) /\ ~ unfit q.
Proof.
  induction P as [|a P IH]; [left; by intros ? ?%elem_of_nil|]. destruct (decide (unfit a)) as [Ha|Ha].
  - destruct IH as [IH|(P1 & q & P2 & -> & H1 & H2)].
    + left. intros b [->|Hb]%elem_of_cons; auto.
    + right. exists (a :: P1), q, P2. split; [done|]. split; [|done]. intros b [->|Hb]%elem_of_cons; auto.
  - right. exists [], a, P. split; [done|]. split; [by intros ? ?%elem_of_nil|done].
Qed.

Lemma unfit_base : 1 <= k -> unfit base.
Proof.
  intros Hk n [[= ->]|Hn]%elem_of_cons; [lia|]. pose proof (in_bounds _ _ _ Hi _ Hn) as [Hx _]. simpl in Hx. lia.
Qed.

Lemma fit_size q : q ∈ base :: map fst fl -> ~ unfit q -> 1 <= k -> exists n, (q, n) ∈ fl /\ k <= n /\ get_size q s = Ok n s.
Proof.
  intros Hq Hu Hk. destruct (node_size q Hq) as (n & Hn & Eg). exists n. assert (k <= n) as Hkn.
  { destruct (decide (k <= n)); [done|]. destruct Hu. intros m Hm. assert (get_size q s = Ok m s) as Em.
    - apply (size_at s fl hl Hi). revert Hm. rewrite !elem_of_cons, elem_of_app. tauto.
    - rewrite Eg in Em. injection Em as ->. lia. }
  split_and!; try done. apply elem_of_cons in Hn as [[= -> ->]|Hn]; [lia|done].
Qed.

(** The nodes in the order the loop visits them: those after freep, then the
    others up to freep itself. *)
Lemma search_result fuel : 1 <= k -> (S (length fl) < fuel)%nat ->
  exists nx, get_ptr (um_freep s) s = Ok nx s /\
    ((exists A prevp q B n, malloc_loop limit fuel k (um_freep s) nx s = cut k prevp q s /\
        base :: map fst fl = A ++ prevp :: q :: B /\ (q, n) ∈ fl /\ k <= n) \/
     ((forall b, b ∈ fl -> snd b < k) /\ exists f prevp, (fuel <= S (length fl) + f)%nat /\
        malloc_loop limit fuel k (um_freep s) nx s = malloc_loop limit f k prevp (um_freep s) s)).
Proof.
  intros Hk Hf. pose proof (nodes_NoDup _ _ _ Hi) as Hnd. pose proof (mi_freep _ _ _ Hi) as Hfr.
  apply list_elem_of_split in Hfr as (A0 & B0 & E). pose proof (next_at s fl hl Hi _ _ _ E) as En.
  assert (S (length fl) = length A0 + S (length B0))%nat as Hlen.
  { apply (f_equal length) in E. rewrite length_app in E. simpl in E. by rewrite length_map in E. }
  rewrite E in Hnd. apply NoDup_app in Hnd as (_ & Hnd & Hnb). apply NoDup_cons in Hnb as [Hnb _].
  exists (hd base B0). split; [done|].
  (* a fit among [P], which follow [prevp] *)
  assert (forall A prevp P1 q P2 f, base :: map fst fl = A ++ prevp :: P1 ++ q :: P2 -> (forall a, a ∈ P1 -> unfit a) -> ~ unfit q ->
    um_freep s ∉ P1 -> exists A' prevp' B n, malloc_loop limit (length P1 + f) k prevp (hd base (P1 ++ q :: P2)) s = cut k prevp' q s /\
      base :: map fst fl = A' ++ prevp' :: q :: B /\ (q, n) ∈ fl /\ k <= n) as Hfit.
  { intros A prevp P1 q P2 f EN Hu Hq Hfp. rewrite (walk A prevp P1 (q :: P2) f EN Hu Hfp). simpl hd.
    destruct (fit_size q) as (n & Hn & Hkn & Eg); [rewrite EN; apply elem_of_app; right; right; apply elem_of_app; right; by left|done|done|].
    rewrite (malloc_loop_fit _ _ _ _ _ _ Eg Hkn).
    destruct P1 as [|x P1] using rev_ind.
    - exists A, prevp, P2, n. done.
    - rewrite last_snoc. exists (A ++ prevp :: P1), x, P2, n. split_and!; try done. rewrite EN, <- !app_assoc. done. }
  assert ((forall a, a ∈ map fst fl -> unfit a) -> forall b, b ∈ fl -> snd b < k) as Hall.
  { intros Hu b Hb. apply (Hu (fst b)); [by apply list_elem_of_fmap_2|right; by rewrite <- surjective_pairing]. }
  destruct (first_fit B0) as [Hu|(P1 & q & P2 & -> & Hu & Hq)].
  - pose proof (walk A0 (um_freep s) B0 [] (fuel - length B0)%nat) as Hw. rewrite app_nil_r in Hw. specialize (Hw E Hu Hnb). simpl hd in Hw.
    replace (length B0 + (fuel - length B0))%nat with fuel in Hw by lia. rewrite Hw. set (prev1 := default _ _).
    destruct A0 as [|a0 A1]; simpl in E; injection E as E0 E1.
    { right. rewrite E1 in Hall. split; [by apply Hall|]. exists (fuel - length B0)%nat, prev1. split; [simpl in Hlen; lia|by rewrite E0]. }
    subst a0. assert (base <> um_freep s) as Hbf by (intros Hx; apply (Hnd base); [by left|rewrite Hx; by left]).
    assert (um_freep s ∉ A1) as HfA by (intros Hx; apply (Hnd (um_freep s)); [by right|by left]).
    assert (base :: map fst fl = [] ++ base :: A1 ++ um_freep s :: B0) as EN by (by rewrite E1).
    destruct (node_size base) as (n & Hn & Eg); [by left|]. simpl in Hlen.
    replace (fuel - length B0)%nat with (S (length A1 + (fuel - length B0 - 1 - length A1)))%nat by lia.
    erewrite malloc_loop_next; [|exact Eg|by apply (unfit_base Hk)|done|by apply (next_at s fl hl Hi [])].
    destruct (first_fit (A1 ++ [um_freep s])) as [Hu2|(P1 & q & P2 & EP & Hu2 & Hq)].
    + right. split.
      * apply Hall. rewrite E1. intros a [Ha|[->|Ha]%elem_of_cons]%elem_of_app; [apply Hu2, elem_of_app; by left|apply Hu2, elem_of_app; right; by left|by apply Hu].
      * eexists (fuel - length B0 - 1 - length A1)%nat, _. split; [lia|].
        apply (walk [] base A1 (um_freep s :: B0) _ EN); [intros; apply Hu2, elem_of_app; by left|done].
    + left. assert (exists X, q :: P2 = X ++ [um_freep s] /\ A1 = P1 ++ X) as (X & EX & EA1).
      { destruct (exists_last (l := q :: P2)) as (X & y & EX); [done|]. rewrite EX, app_assoc in EP. apply app_inj_tail in EP as [-> ->]. eauto. }
      assert (A1 ++ um_freep s :: B0 = P1 ++ q :: P2 ++ B0) as EL.
      { change (q :: P2 ++ B0) with ((q :: P2) ++ B0). rewrite EX, EA1, <- !app_assoc. done. }
      rewrite EL in EN |- *.
      replace (length A1 + (fuel - length B0 - 1 - length A1))%nat with (length P1 + (fuel - length B0 - 1 - length P1))%nat by (rewrite EA1, length_app in *; lia).
      destruct (Hfit [] base P1 q (P2 ++ B0) (fuel - length B0 - 1 - length P1)%nat EN Hu2 Hq) as (A' & prevp' & B & m & Ec & Hx).
      { intros Hx. apply HfA. rewrite EA1. apply elem_of_app. by left. }
      by exists A', prevp', q, B, m.
  - left. destruct (Hfit A0 (um_freep s) P1 q P2 (fuel - length P1)%nat E Hu Hq) as (A' & prevp' & B & n & Ec & Hx).
    { intros Hx. apply Hnb. apply elem_of_app. by left. }
    replace (length P1 + (fuel - length P1))%nat with fuel in Ec by (rewrite length_app in Hlen; simpl in Hlen; lia).
    by exists A', prevp', q, B, n.
Qed.

End search.

(** The block malloc() takes off the list. *)
Lemma cut_spec s fl hl A prevp q B n k : mal_inv s fl hl -> um_base s :: map fst fl = A ++ prevp :: q :: B -> (q, n) ∈ fl ->
  1 <= k <= n -> exists a s' fl', cut k prevp q s = Ok (a + HSZ) s' /\ um_base s' = um_base s /\ mal_inv s' fl' ((a, k) :: hl).
Proof.
  intros Hi E Hq Hk.
  assert (exists f1 m f2, fl = f1 ++ (q, m) :: f2 /\ um_base s :: map fst f1 = A ++ [prevp]) as (f1 & m & f2 & -> & EA).
  { destruct A as [|a0 A]; simpl in E; injection E as E0 E1.
    - destruct fl as [|[q' m] f2]; simpl in E1; [done|]. injection E1 as -> _. exists [], m, f2. by rewrite E0.
    - change (A ++ prevp :: q :: B) with (A ++ [prevp] ++ q :: B) in E1. rewrite app_assoc in E1.
      apply (fmap_app_inv fst) in E1 as (f1 & g & E1 & E2 & ->). destruct g as [|[q' m] f2]; simpl in E2; [done|]. injection E2 as -> _.
      exists f1, m, f2. split; [done|]. simpl. rewrite E0. f_equal. done. }
  assert (n = m) as ->.
  { assert (Some n = Some m) as [= ->]; [|done].
    rewrite <- (mi_size _ _ _ Hi q n), <- (mi_size _ _ _ Hi q m); [done| |]; right; apply elem_of_app; left; [apply elem_of_app; right; by left|done]. }
  destruct (decide (k = m)) as [->|Hne].
  - destruct (cut_exact s f1 f2 hl q m A prevp Hi EA) as [Ec Hi']. eexists q, _, _. split; [exact Ec|]. split; [done|exact Hi'].
  - destruct (cut_split s f1 f2 hl q m A prevp Hi EA k) as (s' & Ec & Eb & _ & Hi'); [lia|]. eauto 10.
Qed.

(** The search, with memory from the kernel if nothing fits. *)
Lemma malloc_loop_spec s fl hl k fuel : mal_inv s fl hl -> 1 <= k -> k * HSZ < 2 ^ 31 -> (2 * length fl + 5 < fuel)%nat ->
  exists nx r s', get_ptr (um_freep s) s = Ok nx s /\ malloc_loop limit fuel k (um_freep s) nx s = Ok r s' /\ um_base s' = um_base s /\
    (r = 0 /\ mal_inv s' fl hl \/ exists a fl', r = a + HSZ /\ mal_inv s' fl' ((a, k) :: hl)).
Proof.
  intros Hi Hk Hk2 Hf. destruct (search_result s fl hl k Hi fuel Hk) as (nx & En & [Hc|(Hall & f & prevp & Hff & El)]); [lia|..].
  - destruct Hc as (A & prevp & q & B & n & Ec & EN & Hq & Hn). destruct (cut_spec s fl hl A prevp q B n k Hi EN Hq) as (a & s' & fl' & Ec' & Eb & Hi'); [lia|].
    exists nx, (a + HSZ), s'. split_and!; [done|by rewrite Ec|done|]. right. eauto.
  - destruct (node_size s fl hl Hi (um_freep s)) as (n & Hn & Eg); [apply Hi|]. assert (n < k) as Hnk.
    { apply elem_of_cons in Hn as [[= _ ->]|Hn]; [lia|by apply (Hall _ Hn)]. }
    destruct f as [|f]; [lia|]. destruct (morecore_spec limit Hlimit s fl hl k Hi Hk Hk2) as (r & s1 & Em & Eb & Hr).
    assert (malloc_loop limit (S f) k prevp (um_freep s) s =
      (if r =? 0 then ret 0 else let* nx := get_ptr r in malloc_loop limit f k r nx) s1) as El2.
    { cbn [malloc_loop]. erewrite bind_Ok by exact Eg. rewrite (proj2 (Z.leb_gt _ _)) by done. erewrite bind_Ok by done. rewrite Z.eqb_refl.
      by erewrite bind_Ok by exact Em. }
    exists nx. rewrite El, El2. destruct Hr as [(-> & Hi1 & _)|(Hr0 & -> & fl1 & Hi1 & Hlen & Hfit)].
    + exists 0, s1. split_and!; try done. by left.
    + rewrite (proj2 (Z.eqb_neq _ _)) by done.
      destruct (search_result s1 fl1 hl k Hi1 f Hk) as (nx1 & En1 & [Hc|(Hall1 & _)]); [lia|..].
      * destruct Hc as (A & prevp1 & q & B & m & Ec & EN & Hq & Hm).
        destruct (cut_spec s1 fl1 hl A prevp1 q B m k Hi1 EN Hq) as (a & s' & fl' & Ec' & Eb' & Hi'); [lia|].
        exists (a + HSZ), s'. split; [done|]. split; [erewrite bind_Ok by exact En1; by rewrite Ec|]. split; [congruence|]. right. eauto.
      * destruct Hfit as (b & Hb & Hbk). specialize (Hall1 b Hb). lia.
Qed.

(** The state before the first call. *)
Definition um_start (s : um) : Prop :=
  um_freep s = 0 /\ 0 < um_base s /\ um_base s + HSZ <= um_brk s <= 2 ^ 36 /\
  Forall (fun o => forall g, o = Some g -> 0 <= g) (um_sbrk s).

Definition um_ok (s : um) (hl : list block) : Prop := hl = [] /\ um_heap s = ∅ /\ um_start s \/ exists fl, mal_inv s fl hl.

Definition units (nbytes : Z) : Z := (nbytes + HSZ - 1) / HSZ + 1.

Lemma malloc_spec s hl nbytes : um_ok s hl -> 0 <= nbytes < 2 ^ 31 - 2 * HSZ ->
  exists r s', malloc limit nbytes s = Ok r s' /\ um_base s' = um_base s /\
    (r = 0 /\ um_ok s' hl \/ exists a, r = a + HSZ /\ um_ok s' ((a, units nbytes) :: hl)).
Proof.
  intros Hok Hn. unfold malloc. fold (units nbytes). cbv zeta.
  assert (1 <= units nbytes /\ units nbytes * HSZ < 2 ^ 31) as [Hu1 Hu2] by (unfold units, HSZ in *; divlia).
  rewrite u32_small by (unfold HSZ in *; lia). erewrite bind_Ok by done. erewrite bind_Ok by done.
  assert (exists s1 fl, (if um_freep s =? 0 then set_ptr (um_base s) (um_base s) ;; modify (set_freep (um_base s)) ;; set_size (um_base s) 0 else ret tt) s = Ok tt s1 /\
    um_base s1 = um_base s /\ mal_inv s1 fl hl) as (s1 & fl & E1 & Eb1 & Hi).
  { destruct Hok as [(-> & Eh & Efp & Hb & Hbrk & Hg)|[fl Hi]].
    - rewrite Efp. simpl. eexists _, []. split.
      + assert (mapped s (um_base s) = true) as Hm by (unfold mapped; by rewrite Z.eqb_refl).
        erewrite bind_Ok by (by apply set_ptr_Ok). erewrite bind_Ok by done. apply set_size_Ok. done.
      + split; [done|]. unfold hdr. simpl. rewrite lookup_insert_eq. simpl. split; simpl; try done; try lia.
        * by left.
        * by rewrite lookup_insert_eq.
        * intros a n [[= -> ->]|?%elem_of_nil]%elem_of_cons; [|done]. by rewrite lookup_insert_eq.
        * by intros b ?%elem_of_nil.
        * constructor.
        * by intros b b' ?%elem_of_nil.
        * constructor.
    - exists s, fl. split; [|by split]. rewrite (proj2 (Z.eqb_neq _ _)); [done|]. pose proof (mi_base _ _ _ Hi).
      pose proof (mi_freep _ _ _ Hi) as Hx. apply elem_of_cons in Hx as [->|(c & -> & Hc)%list_elem_of_fmap]; [lia|].
      pose proof (in_bounds _ _ _ Hi c Hc). lia. }
  erewrite bind_Ok by exact E1. erewrite bind_Ok by done. erewrite bind_Ok by done. pose proof (fuel_enough _ _ _ Hi) as Hfe.
  destruct (malloc_loop_spec s1 fl hl (units nbytes) (2 * size (um_heap s1) + 4) Hi Hu1 Hu2) as (nx & r & s' & En & El & Eb & Hr); [lia|].
  erewrite bind_Ok by exact En. exists r, s'. split; [done|]. split; [congruence|]. destruct Hr as [[-> Hi']|(a & fl' & -> & Hi')]; [left|right; exists a]; (split; [done|right; eauto]).
Qed.

(* ------------------------------------------------------------------ *)
(** ** Any sequence of calls *)

(** A program that allocates, and frees blocks it holds; a block is the
    pointer malloc() returned and the size asked for. *)
Inductive mop := MAlloc (n : Z) | MFree (i : nat).

Definition mstep (op : mop) (held : list (Z * Z)) : M um (list (Z * Z)) :=
  match op with
  | MAlloc n => let* p := malloc limit n in ret (if p =? 0 then held else (p, n) :: held)
  | MFree i => match held !! i with Some (p, _) => free p ;; ret (delete i held) | None => ret held end
  end.

Fixpoint mrun (ops : list mop) (held : list (Z * Z)) : M um (list (Z * Z)) :=
  match ops with [] => ret held | op :: ops' => let* held' := mstep op held in mrun ops' held' end.

Definition holds_block (x : Z * Z) (b : block) : Prop := fst x = fst b + HSZ /\ snd b = units (snd x).

Lemma mstep_ok s op held hl : um_ok s hl -> Forall2 holds_block held hl ->
  (forall n, op = MAlloc n -> 0 <= n < 2 ^ 31 - 2 * HSZ) ->
  exists held' s' hl', mstep op held s = Ok held' s' /\ um_base s' = um_base s /\ um_ok s' hl' /\ Forall2 holds_block held' hl'.
Proof.
  intros Hok Hh Hn. destruct op as [n|i]; cbn [mstep].
  - destruct (malloc_spec s hl n Hok (Hn n eq_refl)) as (r & s' & E & Eb & Hr). erewrite bind_Ok by exact E.
    destruct Hr as [[-> Hok']|(a & -> & Hok')].
    + by exists held, s', hl.
    + exists ((a + HSZ, n) :: held), s', ((a, units n) :: hl). assert (0 < a).
      { destruct Hok' as [[? _]|[fl Hi]]; [done|]. pose proof (mi_base _ _ _ Hi).
        pose proof (mi_in _ _ _ Hi (a, units n) ltac:(apply elem_of_app; right; by left)) as [Hx _]. simpl in Hx. unfold HSZ in *. lia. }
      rewrite (proj2 (Z.eqb_neq _ _)) by (unfold HSZ; lia). split_and!; try done. by constructor.
  - destruct (held !! i) as [[p n]|] eqn:E; [|by exists held, s, hl].
    destruct (Forall2_lookup_l _ _ _ _ _ Hh E) as ([a k] & Ea & Hp & Hk). simpl in Hp, Hk. subst p.
    destruct Hok as [(-> & _)|[fl Hi]]; [done|].
    apply (mal_inv_perm _ _ _ ((a, k) :: delete i hl)) in Hi; [|by apply delete_Permutation].
    destruct (free_spec _ _ _ _ _ Hi) as (fl' & s' & Ef & Hi' & _ & _ & _ & Eb & _). erewrite bind_Ok by exact Ef.
    exists (delete i held), s', (delete i hl). split_and!; [done|done|right; eauto|]. by apply Forall2_delete.
Qed.

Lemma mrun_ok ops : forall s held hl, um_ok s hl -> Forall2 holds_block held hl ->
  Forall (fun op => forall n, op = MAlloc n -> 0 <= n < 2 ^ 31 - 2 * HSZ) ops ->
  exists held' s' hl', mrun ops held s = Ok held' s' /\ um_base s' = um_base s /\ um_ok s' hl' /\ Forall2 holds_block held' hl'.
Proof.
  induction ops as [|op ops IH]; intros s held hl Hok Hh Hf; [by exists held, s, hl|]. apply Forall_cons in Hf as [Hop Hf].
  cbn [mrun]. destruct (mstep_ok s op held hl Hok Hh Hop) as (h1 & s1 & hl1 & E & Eb & Hok1 & Hh1). erewrite bind_Ok by exact E.
  destruct (IH s1 h1 hl1 Hok1 Hh1 Hf) as (h2 & s2 & hl2 & E2 & Eb2 & ? & ?). exists h2, s2, hl2. split_and!; (done || congruence).
Qed.

Lemma apart_lookup (hl : list block) i j b b' : StronglySorted apart hl -> i <> j -> hl !! i = Some b -> hl !! j = Some b' -> apart b b'.
Proof.
  intros Hs. revert i j. induction Hs as [|x l Hs IH Hf]; intros i j Hij Hb Hb'; [done|]. rewrite Forall_lookup in Hf.
  destruct i as [|i], j as [|j]; simpl in *; [done| | |eapply (IH i j); [congruence|done..]].
  - injection Hb as ->. eauto.
  - injection Hb' as ->. apply apart_sym. eauto.
Qed.

(** C34. Whatever a program allocates, in requests below 2^31 - 32 bytes, and
    frees, every call of malloc() and free() returns, and the blocks it holds are apart: no byte of one, and
    no byte of its header, is in another, and all of them are in the heap,
    above the allocator's own data and below the break. *)
Theorem malloc_blocks_apart ops s : um_heap s = ∅ -> um_start s ->
  Forall (fun op => forall n, op = MAlloc n -> 0 <= n < 2 ^ 31 - 2 * HSZ) ops ->
  exists held s', mrun ops [] s = Ok held s' /\
    (forall i p n, held !! i = Some (p, n) -> um_base s + HSZ <= p - HSZ /\ p + n <= um_brk s') /\
    (forall i j p n p' n', i <> j -> held !! i = Some (p, n) -> held !! j = Some (p', n') -> p + n <= p' - HSZ \/ p' + n' <= p - HSZ).
Proof.
  intros Hh Hs Hf. destruct (mrun_ok ops s [] [] ltac:(by left) ltac:(constructor) Hf) as (held & s' & hl & E & Eb & Hok & Hb).
  exists held, s'. split; [done|].
  assert (forall i p n, held !! i = Some (p, n) -> exists a, hl !! i = Some (a, units n) /\ p = a + HSZ) as Hl.
  { intros i p n Hi. destruct (Forall2_lookup_l _ _ _ _ _ Hb Hi) as ([a k] & Ha & Hp & Hk). simpl in Hp, Hk. subst k. eauto. }
  assert (forall n, n <= (units n - 1) * HSZ) as Hun by (intros n; unfold units, HSZ; divlia).
  destruct Hok as [(-> & _)|[fl Hi]].
  - apply Forall2_nil_inv_r in Hb as ->. split; [by intros ? ? ?|by intros ? ? ? ? ? ? ?].
  - split.
    + intros i p n Hp. destruct (Hl i p n Hp) as (a & Ha & ->). specialize (Hun n).
      pose proof (mi_in _ _ _ Hi (a, units n)) as Hx. rewrite Eb in Hx. destruct Hx as (H1 & H2 & H3); [apply elem_of_app; right; by eapply list_elem_of_lookup_2|].
      simpl in *. unfold HSZ in *. lia.
    + intros i j p n p' n' Hij Hp Hp'. destruct (Hl i p n Hp) as (a & Ha & ->). destruct (Hl j p' n' Hp') as (a' & Ha' & ->).
      pose proof (apart_lookup hl i j _ _ (mi_held _ _ _ Hi) Hij Ha Ha') as Hx. pose proof (Hun n). pose proof (Hun n').
      unfold apart, HSZ in *. simpl in Hx. lia.
Qed.

End malloc.

Definition ex_um : um := Um 4096 0 ∅ 8192 [Some 0].
Definition ex_ops : list mop := [MAlloc 10; MAlloc 100; MFree 1; MAlloc 3].

Lemma ex_ops_run : exists s', mrun 1000000 ex_ops [] ex_um = Ok [(73712, 3); (73584, 100)] s'.
Proof. vm_compute. eauto. Qed.

Lemma malloc_blocks_apart_witness : exists s', mrun 1000000 ex_ops [] ex_um = Ok [(73712, 3); (73584, 100)] s' /\
  (73712 + 3 <= 73584 - HSZ \/ 73584 + 100 <= 73712 - HSZ).
Proof.
  destruct ex_ops_run as [s1 E1].
  destruct (malloc_blocks_apart 1000000 ltac:(lia) ex_ops ex_um) as (held & s' & E & _ & Hap).
  - reflexivity.
  - split; [done|]. split; [done|]. split; [vm_compute; intuition discriminate|]. constructor; [by intros g [= <-]|constructor].
  - unfold ex_ops, HSZ. repeat (apply Forall_cons_2; [intros n E; (discriminate E || injection E as <-; lia)|]). apply Forall_nil_2.
  - exists s'. rewrite E1 in E. injection E as <- ->. split; [exact E1|].
    apply (Hap 0%nat 1%nat); done.
Defined.

(** malloc() multiplies the number of units by the size of a header and
    passes the product to sbrk(), which takes an int.  A request just below
    4 gigabytes wraps to sbrk(0): malloc() takes that for success and stores
    a header at the break, in memory the process does not have. *)
Theorem malloc_wraps limit s nbytes rest : um_heap s = ∅ -> um_start s -> um_sbrk s = Some 0 :: rest -> um_brk s <= limit ->
  2 ^ 32 - 31 <= nbytes <= 2 ^ 32 - 16 -> malloc limit nbytes s = Panic "undefined behaviour: header".
Proof.
  intros Hh (Efp & Hb & Hbrk & _) Hsb Hl Hn. unfold malloc. cbv zeta.
  assert ((nbytes + HSZ - 1) / HSZ + 1 = 2 ^ 28) as -> by (unfold HSZ; divlia).
  rewrite (u32_small (2 ^ 28)) by lia. erewrite bind_Ok by done. erewrite bind_Ok by done. rewrite Efp. simpl (0 =? 0).
  assert (mapped s (um_base s) = true) as Hm by (unfold mapped; by rewrite Z.eqb_refl).
  set (s1 := set_freep (um_base s) (put_hd (um_base s) (Hd (um_base s) 0) s)).
  erewrite (bind_Ok _ _ s tt s1).
  2: { cbv iota. erewrite bind_Ok by (by apply set_ptr_Ok). erewrite bind_Ok by done. rewrite set_size_Ok by done. f_equal.
       unfold hdr. simpl. rewrite lookup_insert_eq, Hh. simpl. unfold put_hd, set_heap. simpl. by rewrite insert_insert_eq. }
  erewrite bind_Ok by done. erewrite bind_Ok by done.
  assert (hdr s1 (um_base s) = Hd (um_base s) 0) as Eh by (unfold hdr; simpl; by rewrite lookup_insert_eq).
  assert (mapped s1 (um_base s) = true) as Hm1 by done.
  erewrite bind_Ok by (by apply get_ptr_Ok). simpl um_freep. rewrite Eh. simpl h_ptr.
  change (2 * size (um_heap s1) + 4)%nat with (2 * size (<[um_base s := Hd (um_base s) 0]> (um_heap s)) + 4)%nat.
  replace (2 * size (<[um_base s := Hd (um_base s) 0]> (um_heap s)) + 4)%nat with 6%nat by (rewrite Hh, map_size_insert_None by done; done).
  cbn [malloc_loop]. erewrite bind_Ok by (by apply get_size_Ok). rewrite Eh. cbn [h_size]. rewrite (proj2 (Z.leb_gt _ _)) by lia.
  erewrite bind_Ok by done. cbn [um_freep s1 set_freep]. rewrite Z.eqb_refl.
  assert (morecore limit (2 ^ 28) s1 = Panic "undefined behaviour: header") as Em.
  { unfold morecore. cbv zeta. change (if 2 ^ 28 <? 4096 then 4096 else 2 ^ 28) with (2 ^ 28). change (i32 (2 ^ 28 * HSZ)) with 0.
    assert (um_sbrk s1 = Some 0 :: rest) as Es by done.
    erewrite bind_Ok by (unfold sbrk; rewrite Es; cbv zeta; rewrite (proj2 (Z.leb_le _ _)) by (simpl; lia); reflexivity). cbv iota beta.
    unfold bind, set_size, mapped. simpl. by rewrite (proj2 (Z.eqb_neq _ _)), (proj2 (Z.leb_gt _ _)) by (unfold HSZ in *; lia). }
  unfold bind at 1. by rewrite Em.
Qed.
