(* ===== verification/Sh.v ===== *)
(** * user/sh.c

   The shell: the recursive-descent parser over the line buffer, which leaves
   the buffer in place and makes nodes whose strings are pairs of pointers
   into it; [nulterminate], which turns the pairs into C strings; [runcmd],
   as the tree of system calls a process makes; and the loop of [main].

   A pointer into the buffer is an offset.  The parser only reads the
   buffer, so it is an argument; the parser's state is the cursor [*ps] and
   the number of nodes malloc() can still give.  A constructor does not test
   malloc()'s result: out of memory, its memset() writes through a null
   pointer and the kernel kills the process. *)

From stdpp Require Import base numbers list strings.
From Stdlib Require Import ZArith Lia.
From Stdlib Require Ascii String.
From S2P Require Import Prelude Params Cmem Ulib.

Definition zs (s : string) : list Z := (fun a => Z.of_nat (Ascii.nat_of_ascii a)) <$> String.list_ascii_of_string s.

(** strchr(lit, c) != 0 *)
Definition in_lit (lit : string) (c : Z) : bool := existsb (Z.eqb c) (zs lit).

(* ------------------------------------------------------------------ *)
(** ** Commands *)

(** A counted string: its start and its end. *)
Notation span := (Z * Z)%type.

(** The entries of argv and eargv that are set; the others are zero. *)
Inductive cmd : Type :=
| EXEC (args : list span)
| REDIR (c : cmd) (file efile mode fd : Z)
| PIPE (left right : cmd)
| LIST (left right : cmd)
| BACK (c : cmd).

Definition MAXARGS : Z := 10.

(* ------------------------------------------------------------------ *)
(** ** The parser's effects *)

Record pst : Type := Pst { ps : Z; nodes : nat }.

(** [Exits]: exit(1) after writing to file descriptor 2. *)
Inductive pres (A : Type) : Type :=
| Good (a : A) (st : pst)
| Exits (stderr : list Z)
| Killed
| Undefined
| NoFuel.
Arguments Good {A} a st.
Arguments Exits {A} stderr.
Arguments Killed {A}.
Arguments Undefined {A}.
Arguments NoFuel {A}.

Definition P (A : Type) : Type := pst -> pres A.

#[global] Instance P_ret : MRet P := fun A a st => Good a st.
#[global] Instance P_bind : MBind P := fun A B f m st =>
  match m st with
  | Good a st' => f a st'
  | Exits e => Exits e
  | Killed => Killed
  | Undefined => Undefined
  | NoFuel => NoFuel
  end.

Definition get_ps : P Z := fun st => Good (ps st) st.
Definition set_ps (s : Z) : P unit := fun st => Good tt (Pst s (nodes st)).
Definition no_fuel {A} : P A := fun _ => NoFuel.
Definition exits {A} (stderr : list Z) : P A := fun _ => Exits stderr.
Definition sh_panic {A} (s : string) : P A := exits (zs s ++ [10]).

(** A routine of the C library on a buffer. *)
Definition on_buf {A} (m : M mem A) (buf : mem) : P (A * mem) := fun st =>
  match m buf with Ok a buf' => Good (a, buf') st | _ => Undefined end.

(** malloc() and memset() of a node. *)
Definition new_node : P unit := fun st =>
  match nodes st with O => Killed | S n => Good tt (Pst (ps st) n) end.

Definition execcmd : P cmd := _ ← new_node; mret (EXEC []).
Definition redircmd (subcmd : cmd) (file efile mode fd : Z) : P cmd :=
  _ ← new_node; mret (REDIR subcmd file efile mode fd).
Definition pipecmd (left right : cmd) : P cmd := _ ← new_node; mret (PIPE left right).
Definition listcmd (left right : cmd) : P cmd := _ ← new_node; mret (LIST left right).
Definition backcmd (subcmd : cmd) : P cmd := _ ← new_node; mret (BACK subcmd).

(** char whitespace[] = space, tab, carriage return, newline, vertical tab *)
Definition whitespace (c : Z) : bool := existsb (Z.eqb c) [32; 9; 13; 10; 11].
Definition symbols (c : Z) : bool := in_lit "<|>&;()" c.

(** cmd->argv[argc] = q; cmd->eargv[argc] = eq; where cmd is the exec node
    that the redirections of [ret] lead to. *)
Fixpoint set_arg (ret : cmd) (a : span) : cmd :=
  match ret with
  | EXEC args => EXEC (args ++ [a])
  | REDIR c file efile mode fd => REDIR (set_arg c a) file efile mode fd
  | _ => ret
  end.

(* ------------------------------------------------------------------ *)
(** ** The parser *)

Section Parser.
Context (buf : mem) (es : Z).

Definition ld (s : Z) : P Z := fun st =>
  if 0 <=? s then match buf !! Z.to_nat s with Some c => Good c st | None => Undefined end else Undefined.

(** while(s < es && test of *s) s++; *)
Fixpoint scan (fuel : nat) (test : Z -> bool) (s : Z) : P Z :=
  match fuel with
  | O => no_fuel
  | S f =>
      if s <? es then c ← ld s; if test c then scan f test (s + 1) else mret s
      else mret s
  end.
Definition scan_all : (Z -> bool) -> Z -> P Z := scan (S (length buf)).

(** The token's code, with *q and *eq. *)
Definition gettoken : P (Z * span) :=
  s0 ← get_ps;
  q ← scan_all whitespace s0;
  c ← ld q;
  r ← (if c =? 0 then mret (c, q)
       else if in_lit "|();&<" c then mret (c, q + 1)
       else if c =? 62 then
         c1 ← ld (q + 1);
         if c1 =? 62 then mret (43, q + 2) else mret (c, q + 1)
       else
         s ← scan_all (fun c => negb (whitespace c) && negb (symbols c)) q;
         mret (97, s));
  let '(code, eq) := r in
  s ← scan_all whitespace eq;
  _ ← set_ps s;
  mret (code, (q, eq)).

Definition peek (toks : string) : P bool :=
  s0 ← get_ps;
  s ← scan_all whitespace s0;
  _ ← set_ps s;
  c ← ld s;
  mret (negb (c =? 0) && in_lit toks c).

Fixpoint parseredirs (fuel : nat) (c : cmd) : P cmd :=
  match fuel with
  | O => no_fuel
  | S f =>
      b ← peek "<>";
      if b : bool then
        t ← gettoken;
        w ← gettoken;
        let '(code, (q, eq)) := w in
        if negb (code =? 97) then sh_panic "missing file for redirection"
        else
          c' ← (if fst t =? 60 then redircmd c q eq O_RDONLY 0
                else if fst t =? 62 then redircmd c q eq (Z.lor (Z.lor O_WRONLY O_CREATE) O_TRUNC) 1
                else if fst t =? 43 then redircmd c q eq (Z.lor O_WRONLY O_CREATE) 1
                else mret c);
          parseredirs f c'
      else mret c
  end.

(** The loop of parseexec. *)
Fixpoint parseargs (fuel : nat) (ret : cmd) (argc : Z) : P cmd :=
  match fuel with
  | O => no_fuel
  | S f =>
      b ← peek "|)&;";
      if b : bool then mret ret
      else
        t ← gettoken;
        let '(tok, a) := t in
        if tok =? 0 then mret ret
        else if negb (tok =? 97) then sh_panic "syntax"
        else
          let ret := set_arg ret a in
          if argc + 1 >=? MAXARGS then sh_panic "too many args"
          else ret ← parseredirs (S (length buf)) ret; parseargs f ret (argc + 1)
  end.

(** while(peek(ps, es, '&')) of parseline. *)
Fixpoint parseamps (fuel : nat) (c : cmd) : P cmd :=
  match fuel with
  | O => no_fuel
  | S f =>
      b ← peek "&";
      if b : bool then _ ← gettoken; c ← backcmd c; parseamps f c else mret c
  end.

Fixpoint parseline (fuel : nat) : P cmd :=
  match fuel with
  | O => no_fuel
  | S f =>
      c ← parsepipe f;
      c ← parseamps (S (length buf)) c;
      b ← peek ";";
      if b : bool then _ ← gettoken; r ← parseline f; listcmd c r else mret c
  end
with parsepipe (fuel : nat) : P cmd :=
  match fuel with
  | O => no_fuel
  | S f =>
      c ← parseexec f;
      b ← peek "|";
      if b : bool then _ ← gettoken; r ← parsepipe f; pipecmd c r else mret c
  end
with parseexec (fuel : nat) : P cmd :=
  match fuel with
  | O => no_fuel
  | S f =>
      b ← peek "(";
      if b : bool then parseblock f
      else
        c ← execcmd;
        c ← parseredirs (S (length buf)) c;
        parseargs (S (length buf)) c 0
  end
with parseblock (fuel : nat) : P cmd :=
  match fuel with
  | O => no_fuel
  | S f =>
      b ← peek "(";
      if negb b then sh_panic "parseblock"
      else
        _ ← gettoken;
        c ← parseline f;
        b ← peek ")";
        if negb b then sh_panic "syntax - missing )"
        else _ ← gettoken; parseredirs (S (length buf)) c
  end.
End Parser.

(** NUL-terminate all the counted strings. *)
Fixpoint nulterminate (c : cmd) : M mem unit :=
  match c with
  | EXEC args =>
      (fix go l := match l with [] => ret tt | a :: l' => bind (stb (snd a) 0) (fun _ => go l') end) args
  | REDIR c _ efile _ _ => bind (nulterminate c) (fun _ => stb efile 0)
  | PIPE l r => bind (nulterminate l) (fun _ => nulterminate r)
  | LIST l r => bind (nulterminate l) (fun _ => nulterminate r)
  | BACK c => nulterminate c
  end.

(** A call takes at most four levels of fuel per byte of the line. *)
Definition parse_fuel (buf : mem) : nat := 4 * length buf + 4.

(** parsecmd(s): the tree, and the buffer it leaves. *)
Definition parsecmd (buf : mem) (s : Z) : P (cmd * mem) :=
  n ← on_buf (strlen s) buf;
  let es := s + fst n in
  _ ← set_ps s;
  c ← parseline buf es (parse_fuel buf);
  _ ← peek buf es "";
  s ← get_ps;
  if negb (s =? es) then
    exits (zs "leftovers: " ++ cut (drop (Z.to_nat s) buf) ++ [10] ++ zs "syntax" ++ [10])
  else
    r ← on_buf (nulterminate c) buf;
    mret (c, snd r).

(* ------------------------------------------------------------------ *)
(** ** Running a command *)

(** The system calls a process of the shell makes, the rest of the process a
    function of the result where it looks at it.  [Exec] goes on only when
    exec() fails.  What fprintf() writes byte by byte is one [Write].
    [Fault] is a process the kernel kills. *)
Inductive act : Type :=
| Exit (n : Z)
| Close (fd : Z) (k : act)
| Dup (fd : Z) (k : act)
| Open (path : list Z) (mode : Z) (k : Z -> act)
| Exec (path : list Z) (argv : list (list Z)) (k : act)
| Fork (k : Z -> act)
| Wait (k : act)
| Pipe (k : option (Z * Z) -> act)
| Write (fd : Z) (s : list Z) (k : act)
| Chdir (path : list Z) (k : Z -> act)
| Fault
| Stuck.

Definition panic_act (s : string) : act := Write 2 (zs s ++ [10]) (Exit 1).

Definition fork1 (k : Z -> act) : act :=
  Fork (fun pid => if pid =? -1 then panic_act "fork" else k pid).

(** The C string at an offset of the buffer. *)
Definition str_at (buf : mem) (p : Z) : list Z := cut (drop (Z.to_nat p) buf).

Fixpoint runcmd (buf : mem) (c : cmd) : act :=
  match c with
  | EXEC [] => Exit 1
  | EXEC (((p, _) :: _) as args) =>
      Exec (str_at buf p) ((fun a => str_at buf (fst a)) <$> args)
        (Write 2 (zs "exec " ++ str_at buf p ++ zs " failed" ++ [10]) (Exit 0))
  | REDIR c file _ mode fd =>
      Close fd (Open (str_at buf file) mode (fun r =>
        if r <? 0 then Write 2 (zs "open " ++ str_at buf file ++ zs " failed" ++ [10]) (Exit 1)
        else runcmd buf c))
  | LIST l r =>
      fork1 (fun pid => if pid =? 0 then runcmd buf l else Wait (runcmd buf r))
  | PIPE l r =>
      Pipe (fun p =>
        match p with
        | None => panic_act "pipe"
        | Some (p0, p1) =>
            fork1 (fun pid =>
              if pid =? 0 then Close 1 (Dup p1 (Close p0 (Close p1 (runcmd buf l))))
              else fork1 (fun pid =>
                if pid =? 0 then Close 0 (Dup p0 (Close p0 (Close p1 (runcmd buf r))))
                else Close p0 (Close p1 (Wait (Wait (Exit 0))))))
        end)
  | BACK c => fork1 (fun pid => if pid =? 0 then runcmd buf c else Exit 0)
  end.

(** runcmd(parsecmd(cmd)) in the child. *)
Definition run_line (buf : mem) (p : Z) (n : nat) : act :=
  match parsecmd buf p (Pst 0 n) with
  | Good (c, buf') _ => runcmd buf' c
  | Exits e => Write 2 e (Exit 1)
  | Killed => Fault
  | Undefined | NoFuel => Stuck
  end.

(* ------------------------------------------------------------------ *)
(** ** The loop of main() *)

(** sizeof(buf) *)
Definition SHBUF : Z := 100.

(** getcmd(buf, nbuf) after the prompt, with [inp] left to read on file
    descriptor 0; returns what is left after. *)
Definition getcmd (inp : list Z) : M mem (Z * list Z) :=
  bind (memset 0 0 SHBUF) (fun _ =>
  bind (gets_line 0 SHBUF inp) (fun rest =>
  bind (ldb 0) (fun c => ret (if c =? 0 then -1 else 0, rest)))).

Fixpoint skip_blanks (fuel : nat) (p : Z) : M mem Z :=
  match fuel with
  | O => diverge
  | S f => bind (ldb p) (fun c => if (c =? 32) || (c =? 9) then skip_blanks f (p + 1) else ret p)
  end.

Inductive todo : Type := Blank | Cd (path : list Z) | Run (p : Z).

(** cmd[0] == 'c' && cmd[1] == 'd' && cmd[2] == ' ' *)
Definition is_cd (p : Z) : M mem bool :=
  bind (ldb p) (fun c0 => if negb (c0 =? 99) then ret false else
  bind (ldb (p + 1)) (fun c1 => if negb (c1 =? 100) then ret false else
  bind (ldb (p + 2)) (fun c2 => ret (c2 =? 32)))).

(** The body of the loop, up to the chdir() or the fork(). *)
Definition dispatch : M mem todo :=
  bind (skip_blanks (Z.to_nat SHBUF) 0) (fun p =>
  bind (ldb p) (fun c0 =>
  if c0 =? 10 then ret Blank else
  bind (is_cd p) (fun cd =>
  if negb cd then ret (Run p) else
  bind (strlen p) (fun n =>
  bind (stb (p + n - 1) 0) (fun _ => gets (fun m => Cd (str_at m (p + 3)))))))).

(** Each round reads at least one byte or ends the loop. *)
Fixpoint sh_loop (fuel n : nat) (inp : list Z) (buf : mem) : act :=
  match fuel with
  | O => Stuck
  | S f =>
      Write 2 (zs "$ ")
        match getcmd inp buf with
        | Ok (r, inp') buf' =>
            if r <? 0 then Exit 0
            else
              match dispatch buf' with
              | Ok Blank buf'' => sh_loop f n inp' buf''
              | Ok (Cd path) buf'' =>
                  Chdir path (fun r =>
                    if r <? 0 then Write 2 (zs "cannot cd " ++ path ++ [10]) (sh_loop f n inp' buf'')
                    else sh_loop f n inp' buf'')
              | Ok (Run p) buf'' =>
                  fork1 (fun pid => if pid =? 0 then run_line buf'' p n else Wait (sh_loop f n inp' buf''))
              | _ => Stuck
              end
        | _ => Stuck
        end
  end.

(** while((fd = open(console, O_RDWR)) >= 0) *)
Fixpoint open_console (fuel : nat) (k : act) : act :=
  match fuel with
  | O => Stuck
  | S f => Open (zs "console") O_RDWR (fun fd => if fd <? 0 then k else if fd >=? 3 then Close fd k else open_console f k)
  end.

(** main(): [n] nodes can be allocated in each child, and [inp] is what can
    be read.  open() returns a new descriptor each time, so the fourth is at
    least 3. *)
Definition sh_main (n : nat) (inp : list Z) : act :=
  open_console 4 (sh_loop (S (length inp)) n inp (replicate (Z.to_nat SHBUF) 0)).
