(* ===== verification/ShParse.v ===== *)
(** * The grammar of the shell

   The tokens of a line, the grammar of command lines over tokens with the
   tree each line stands for, and the proof that parsecmd() of user/sh.c
   accepts exactly the lines of the grammar and leaves in the buffer, as C
   strings, the words of the tree. *)

From stdpp Require Import base numbers list strings.
From Stdlib Require Import ZArith Lia.
From S2P Require Import Prelude Params Cmem Ulib Sh.

(* ------------------------------------------------------------------ *)
(** ** Tokens *)

Inductive tok : Type := Word (w : list Z) | Sym (c : Z) | Append.

Definition flush (w : list Z) : list tok := match w with [] => [] | _ => [Word w] end.

(** The tokens of a text, after the bytes [w] of a word. *)
Fixpoint lex (w t : list Z) : list tok :=
  match t with
  | [] => flush w
  | c :: t' =>
      if whitespace c then flush w ++ lex [] t'
      else if symbols c then
        flush w ++
        match t' with
        | c1 :: t'' => if (c =? 62) && (c1 =? 62) then Append :: lex [] t'' else Sym c :: lex [] t'
        | [] => Sym c :: lex [] t'
        end
      else lex (w ++ [c]) t'
  end.

(** ** Trees and the grammar *)

Inductive tree : Type :=
| TExec (argv : list (list Z))
| TRedir (t : tree) (file : list Z) (mode fd : Z)
| TPipe (left right : tree)
| TList (left right : tree)
| TBack (t : tree).

Inductive rop : Type := From | To | Onto.
Notation redir := (rop * list Z)%type.

Definition rop_tok (o : rop) : tok := match o with From => Sym 60 | To => Sym 62 | Onto => Append end.
Definition rop_mode (o : rop) : Z :=
  match o with From => O_RDONLY | To => Z.lor (Z.lor O_WRONLY O_CREATE) O_TRUNC | Onto => Z.lor O_WRONLY O_CREATE end.
Definition rop_fd (o : rop) : Z := match o with From => 0 | _ => 1 end.

(** A line is a pipeline, ampersands, and perhaps a semicolon and a line; an
    element of a pipeline is a line in parentheses with redirections, or
    words and redirections in any order. *)
Inductive line : Type :=
| LineEnd (p : pipeline) (amps : nat)
| LineSeq (p : pipeline) (amps : nat) (l : line)
with pipeline : Type :=
| PipeEnd (e : element)
| PipeSeq (e : element) (p : pipeline)
with element : Type :=
| Block (l : line) (rs : list redir)
| Simple (rs : list redir) (args : list (list Z * list redir)).

Definition show_redirs (rs : list redir) : list tok := rs ≫= (fun r => [rop_tok (fst r); Word (snd r)]).
Definition show_args (args : list (list Z * list redir)) : list tok :=
  args ≫= (fun a => Word (fst a) :: show_redirs (snd a)).

Fixpoint show_line (l : line) : list tok :=
  match l with
  | LineEnd p n => show_pipe p ++ replicate n (Sym 38)
  | LineSeq p n l => show_pipe p ++ replicate n (Sym 38) ++ Sym 59 :: show_line l
  end
with show_pipe (p : pipeline) : list tok :=
  match p with
  | PipeEnd e => show_element e
  | PipeSeq e p => show_element e ++ Sym 124 :: show_pipe p
  end
with show_element (e : element) : list tok :=
  match e with
  | Block l rs => Sym 40 :: show_line l ++ Sym 41 :: show_redirs rs
  | Simple rs args => show_redirs rs ++ show_args args
  end.

Definition wrap (rs : list redir) (t : tree) : tree :=
  foldl (fun t r => TRedir t (snd r) (rop_mode (fst r)) (rop_fd (fst r))) t rs.
Definition arg_redirs (args : list (list Z * list redir)) : list redir := args ≫= snd.

Fixpoint line_tree (l : line) : tree :=
  match l with
  | LineEnd p n => Nat.iter n TBack (pipe_tree p)
  | LineSeq p n l => TList (Nat.iter n TBack (pipe_tree p)) (line_tree l)
  end
with pipe_tree (p : pipeline) : tree :=
  match p with
  | PipeEnd e => element_tree e
  | PipeSeq e p => TPipe (element_tree e) (pipe_tree p)
  end
with element_tree (e : element) : tree :=
  match e with
  | Block l rs => wrap rs (line_tree l)
  | Simple rs args => wrap (rs ++ arg_redirs args) (TExec (fst <$> args))
  end.

(** At most nine words in a simple command. *)
Fixpoint line_ok (l : line) : Prop :=
  match l with LineEnd p _ => pipe_ok p | LineSeq p _ l => pipe_ok p /\ line_ok l end
with pipe_ok (p : pipeline) : Prop :=
  match p with PipeEnd e => element_ok e | PipeSeq e p => element_ok e /\ pipe_ok p end
with element_ok (e : element) : Prop :=
  match e with Block l _ => line_ok l | Simple _ args => (length args < Z.to_nat MAXARGS)%nat end.

(** The tree a parsed command stands for, its strings read as C strings. *)
Fixpoint cmd_tree (buf : mem) (c : cmd) : tree :=
  match c with
  | EXEC args => TExec ((fun a => str_at buf (fst a)) <$> args)
  | REDIR c file _ mode fd => TRedir (cmd_tree buf c) (str_at buf file) mode fd
  | PIPE l r => TPipe (cmd_tree buf l) (cmd_tree buf r)
  | LIST l r => TList (cmd_tree buf l) (cmd_tree buf r)
  | BACK c => TBack (cmd_tree buf c)
  end.

(* ------------------------------------------------------------------ *)
(** ** Reading tokens *)

(** What a word is made of. *)
Definition wordish (c : Z) : bool := negb (whitespace c) && negb (symbols c).

Lemma whitespace_plain c : whitespace c = true -> symbols c = false.
Proof.
  unfold whitespace, symbols, in_lit. intros H. apply existsb_exists in H as (x & Hx & ->%Z.eqb_eq).
  repeat (destruct Hx as [<-|Hx]; [done|]). done.
Qed.

Lemma lex_skip u t : Forall (fun c => whitespace c = true) u -> lex [] (u ++ t) = lex [] t.
Proof. induction 1 as [|c u Hc _ IH]; [done|]. simpl. by rewrite Hc. Qed.

Lemma lex_word w u t : Forall (fun c => wordish c = true) u -> lex w (u ++ t) = lex (w ++ u) t.
Proof.
  intros H. revert w. induction H as [|c u Hc _ IH]; intros w; [by rewrite app_nil_r|].
  unfold wordish in Hc. apply andb_true_iff in Hc as [H1%negb_true_iff H2%negb_true_iff]. simpl.
  by rewrite H1, H2, IH, <- app_assoc.
Qed.

Lemma lex_end w t :
  w <> [] -> match t with c :: _ => wordish c = false | [] => True end -> lex w t = Word w :: lex [] t.
Proof.
  intros Hw Ht. destruct w as [|x w]; [done|]. destruct t as [|c t]; [done|]. cbn [lex flush].
  unfold wordish in Ht. destruct (whitespace c), (symbols c); done.
Qed.

Lemma lex_length w t : (length (lex w t) <= length (flush w) + length t)%nat.
Proof.
  remember (length t) as n eqn:En. revert w t En. induction (lt_wf n) as [n _ IH]. intros w t ->.
  destruct t as [|c t]; [simpl; lia|]. cbn [lex length] in *.
  pose proof (IH (length t) ltac:(lia) [] t eq_refl) as IHt. cbn [flush length] in IHt.
  destruct (whitespace c); [rewrite length_app; lia|]. destruct (symbols c).
  - rewrite length_app. destruct t as [|c1 t]; [simpl; lia|].
    pose proof (IH (length t) ltac:(simpl; lia) [] t eq_refl) as IHt'. cbn [flush length] in IHt'.
    destruct (_ && _); cbn [length] in *; lia.
  - specialize (IH (length t) ltac:(lia) (w ++ [c]) t eq_refl). destruct w; simpl in *; lia.
Qed.

Lemma P_bind_Good {A B} (m : P A) (f : A -> P B) st a st' : m st = Good a st' -> (m ≫= f) st = f a st'.
Proof. intros H. unfold mbind, P_bind. by rewrite H. Qed.

Ltac pstep := erewrite P_bind_Good by first [eassumption | reflexivity]; cbn beta iota.

Section Reading.
Context (buf : mem) (e : nat) (He : buf !! e = Some 0).
Notation es := (Z.of_nat e).

(** The text from an offset to the end of the line. *)
Definition txt (p : nat) : list Z := slice p (e - p) buf.

(** The cursor is before the tokens [ts]. *)
Definition before (p : nat) (ts : list tok) : Prop :=
  (p <= e)%nat /\ Forall (fun c => c <> 0) (txt p) /\ lex [] (txt p) = ts.

(** A span that is a word of the line, and what follows it is not part of
    the word. *)
Definition word_span (a : span) (w : list Z) : Prop :=
  exists q : nat, a = (Z.of_nat q, Z.of_nat (q + length w)) /\ slice q (length w) buf = w /\
    Forall (fun c => wordish c = true /\ c <> 0) w /\ (q + length w <= e)%nat /\
    exists d, buf !! (q + length w)%nat = Some d /\ (wordish d = false \/ d = 0).

Lemma e_bound : (e < length buf)%nat.
Proof. by eapply lookup_lt_Some. Qed.

Lemma txt_end : txt e = [].
Proof. unfold txt. by rewrite Nat.sub_diag. Qed.

Lemma txt_cons p : (p < e)%nat -> exists c, buf !! p = Some c /\ txt p = c :: txt (S p).
Proof.
  intros Hp. pose proof e_bound. destruct (lookup_lt_is_Some_2 buf p) as [c Hc]; [lia|].
  exists c. split; [done|]. unfold txt, slice. rewrite (drop_S _ c) by done.
  by replace (e - p)%nat with (S (e - S p)) by lia.
Qed.

Lemma txt_app p p' : (p <= p' <= e)%nat -> txt p = slice p (p' - p) buf ++ txt p'.
Proof.
  intros H. unfold txt, slice. rewrite <- (take_drop (p' - p) (take (e - p) (drop p buf))).
  rewrite take_take, skipn_firstn_comm, drop_drop, Nat.min_l by lia.
  by replace (e - p - (p' - p))%nat with (e - p')%nat by lia; replace (p + (p' - p))%nat with p' by lia.
Qed.

Lemma before_length p ts : before p ts -> (length ts <= length buf)%nat.
Proof.
  intros (_ & _ & <-). etrans; [apply lex_length|]. unfold txt, slice. rewrite length_take, length_drop. simpl. lia.
Qed.

Lemma ld_Ok p c st : buf !! p = Some c -> ld buf (Z.of_nat p) st = Good c st.
Proof. intros H. unfold ld. by rewrite (proj2 (Z.leb_le _ _)), Nat2Z.id, H by lia. Qed.

Lemma scan_spec test fuel p st :
  (p <= e)%nat -> (e - p < fuel)%nat ->
  exists p', (p <= p' <= e)%nat /\ scan buf es fuel test (Z.of_nat p) st = Good (Z.of_nat p') st /\
    Forall (fun c => test c = true) (slice p (p' - p) buf) /\
    ((p' < e)%nat -> exists c, buf !! p' = Some c /\ test c = false).
Proof.
  revert p. induction fuel as [|f IH]; intros p Hp Hf; [lia|]. cbn [scan].
  destruct (Z.ltb_spec (Z.of_nat p) es) as [Hlt|Hge].
  - destruct (txt_cons p) as (c & Hc & Et); [lia|].
    unfold mbind, P_bind at 1. rewrite (ld_Ok p c) by done. destruct (test c) eqn:Etc.
    + destruct (IH (S p)) as (p' & Hp' & Es & Hall & Hend); [lia..|]. exists p'.
      replace (Z.of_nat p + 1) with (Z.of_nat (S p)) by lia. split; [lia|]. split; [done|]. split; [|done].
      unfold slice in *. rewrite (drop_S _ c) by done. replace (p' - p)%nat with (S (p' - S p)) by lia.
      by constructor.
    + exists p. rewrite Nat.sub_diag. split; [lia|]. split; [done|]. split; [constructor|]. eauto.
  - exists p. rewrite Nat.sub_diag. split; [lia|]. split; [done|]. split; [constructor|]. lia.
Qed.

Lemma skip_spec p ts st :
  before p ts ->
  exists p', (p <= p')%nat /\ before p' ts /\ scan_all buf es whitespace (Z.of_nat p) st = Good (Z.of_nat p') st /\
    ((p' < e)%nat -> exists c, buf !! p' = Some c /\ whitespace c = false).
Proof.
  intros (Hp & Hz & Hl). pose proof e_bound.
  destruct (scan_spec whitespace (S (length buf)) p st) as (p' & Hp' & Es & Hall & Hend); [lia..|].
  exists p'. split; [lia|]. split; [|by split]. split; [lia|].
  rewrite (txt_app p p') in Hz, Hl by lia. apply Forall_app in Hz as [_ Hz]. split; [done|].
  by rewrite lex_skip in Hl.
Qed.

(** The first token, at its first byte. *)
Lemma before_token p ts c :
  before p ts -> (p < e)%nat -> buf !! p = Some c -> whitespace c = false ->
  c <> 0 /\
  ((symbols c = true /\ c = 62 /\ buf !! S p = Some 62 /\ exists ts', ts = Append :: ts' /\ before (S (S p)) ts') \/
   (symbols c = true /\ (c = 62 -> buf !! S p <> Some 62) /\ exists ts', ts = Sym c :: ts' /\ before (S p) ts') \/
   symbols c = false).
Proof.
  intros (Hp & Hz & Hl) Hlt Hc Hw. destruct (txt_cons p Hlt) as (c' & Hc' & Et). assert (c = c') as -> by congruence.
  rewrite Et in Hz, Hl. apply Forall_cons in Hz as [Hc0 Hz]. split; [done|]. cbn [lex flush app] in Hl.
  rewrite Hw in Hl. destruct (symbols c') eqn:Es; [|by right; right].
  destruct (decide (S p = e)) as [Epe|Hne].
  - right; left. rewrite Epe, txt_end in Hl. split; [done|]. split; [intros _; rewrite Epe, He; done|].
    eexists. split; [by rewrite <- Hl|]. rewrite Epe. split; [lia|]. rewrite txt_end. by split.
  - destruct (txt_cons (S p)) as (c1 & Hc1 & Et1); [lia|]. rewrite Et1 in Hl.
    destruct ((c' =? 62) && (c1 =? 62)) eqn:E.
    + apply andb_true_iff in E as [->%Z.eqb_eq ->%Z.eqb_eq]. left. split; [done|]. split; [done|]. split; [done|].
      eexists. split; [by rewrite <- Hl|]. split; [lia|]. rewrite Et1 in Hz. apply Forall_cons in Hz as [_ Hz]. by split.
    + right; left. split; [done|]. split.
      { intros -> Hc2. rewrite Hc1 in Hc2. injection Hc2 as ->. done. }
      eexists. split; [by rewrite <- Hl|]. split; [lia|]. split; [done|]. by rewrite Et1.
Qed.

Lemma word_at p ts c st :
  before p ts -> (p < e)%nat -> buf !! p = Some c -> whitespace c = false -> symbols c = false ->
  exists w ts', ts = Word w :: ts' /\ before (p + length w) ts' /\
    word_span (Z.of_nat p, Z.of_nat (p + length w)) w /\
    scan_all buf es (fun c => negb (whitespace c) && negb (symbols c)) (Z.of_nat p) st =
      Good (Z.of_nat (p + length w)) st.
Proof.
  intros (Hp & Hz & Hl) Hlt Hc Hw Hs. pose proof e_bound.
  destruct (scan_spec wordish (S (length buf)) p st) as (p' & Hp' & Es & Hall & Hend); [lia..|].
  set (w := slice p (p' - p) buf) in *.
  assert (Hlw : length w = (p' - p)%nat) by (apply length_slice; lia).
  assert (Ep : (p + length w)%nat = p') by lia.
  assert (Hw0 : w <> []).
  { intros E. rewrite E in Hlw. simpl in Hlw. replace p' with p in Hend by lia.
    destruct Hend as (x & Hx & Hf); [lia|]. simplify_eq. unfold wordish in Hf. by rewrite Hw, Hs in Hf. }
  rewrite (txt_app p p') in Hz, Hl by lia. fold w in Hz, Hl. apply Forall_app in Hz as [Hzw Hz].
  rewrite lex_word in Hl by done. cbn [app] in Hl.
  assert (Hd : match txt p' with c :: _ => wordish c = false | [] => True end).
  { destruct (decide (p' = e)) as [->|Hne]; [by rewrite txt_end|].
    destruct Hend as (x & Hx & Hf); [lia|]. destruct (txt_cons p') as (y & Hy & ->); [lia|]. by simplify_eq. }
  rewrite lex_end in Hl by done.
  exists w, (lex [] (txt p')). rewrite Ep. split; [done|]. split; [by split; [lia|]|]. split; [|done].
  exists p. rewrite Ep, Hlw. split; [done|]. split; [done|]. split.
  { apply Forall_and. by split. }
  split; [lia|]. destruct (decide (p' = e)) as [->|Hne]; [eauto|].
  destruct Hend as (x & Hx & Hf); [lia|]. eauto.
Qed.

Definition tok_in (lit : string) (ts : list tok) : bool :=
  match ts with Sym c :: _ => in_lit lit c | Append :: _ => in_lit lit 62 | _ => false end.

Lemma lit_symbols lit c : forallb symbols (zs lit) = true -> in_lit lit c = true -> symbols c = true.
Proof.
  intros Hf Hc. apply existsb_exists in Hc as (x & Hx & ->%Z.eqb_eq).
  by apply (proj1 (forallb_forall _ _) Hf).
Qed.

Lemma peek_spec lit p ts n :
  forallb symbols (zs lit) = true -> before p ts ->
  exists p', before p' ts /\ (p' = e <-> ts = []) /\
    peek buf es lit (Pst (Z.of_nat p) n) = Good (tok_in lit ts) (Pst (Z.of_nat p') n).
Proof.
  intros Hlit Hb. destruct (skip_spec p ts (Pst (Z.of_nat p) n) Hb) as (p' & Hp & Hb' & Es & Hend).
  exists p'. split; [done|]. unfold peek. do 3 pstep.
  destruct (decide (p' = e)) as [->|Hne].
  - destruct Hb' as (_ & _ & Hl). rewrite txt_end in Hl. simpl in Hl. subst ts. split; [done|].
    by erewrite P_bind_Good by (by apply ld_Ok).
  - assert (Hlt : (p' < e)%nat) by (destruct Hb'; lia). destruct (Hend Hlt) as (c & Hc & Hw).
    erewrite P_bind_Good by (by apply ld_Ok).
    destruct (before_token p' ts c Hb' Hlt Hc Hw) as (Hc0 & [H|[H|Hs]]).
    + destruct H as (_ & -> & _ & ts' & -> & _). by split; [split; [lia|done]|].
    + destruct H as (_ & _ & ts' & -> & _). split; [by split; [lia|]|].
      by rewrite (proj2 (Z.eqb_neq _ _) Hc0).
    + destruct (word_at p' ts c (Pst 0 0) Hb' Hlt Hc Hw Hs) as (w & ts' & -> & _). split; [by split; [lia|]|].
      destruct (in_lit lit c) eqn:E; [|by rewrite andb_false_r]. apply lit_symbols in E; [|done]. congruence.
Qed.

Definition tok_code (t : tok) : Z := match t with Word _ => 97 | Sym c => c | Append => 43 end.

Lemma symbols_gt c : symbols c = in_lit "|();&<" c || (c =? 62).
Proof. unfold symbols, in_lit. simpl. repeat destruct (_ =? _); done. Qed.

(** What is known of a token and its span. *)
Definition tok_span (t : tok) (a : span) : Prop :=
  match t with Word w => word_span a w | Sym c => symbols c = true | Append => True end.

Lemma gettoken_spec p ts n :
  before p ts ->
  exists a p', before p' (tail ts) /\ match ts with t :: _ => tok_span t a | [] => True end /\
    gettoken buf es (Pst (Z.of_nat p) n) =
      Good (match ts with t :: _ => tok_code t | [] => 0 end, a) (Pst (Z.of_nat p') n).
Proof.
  intros Hb. destruct (skip_spec p ts (Pst (Z.of_nat p) n) Hb) as (q & Hp & Hbq & Es & Hend).
  unfold gettoken. do 2 pstep.
  assert (Htail : forall code (eq : nat) (m : P (Z * Z)),
    before eq (tail ts) -> m (Pst (Z.of_nat p) n) = Good (code, Z.of_nat eq) (Pst (Z.of_nat p) n) ->
    exists p', before p' (tail ts) /\
      (r ← m; let '(code, eq) := r in
        s ← scan_all buf es whitespace eq; _ ← set_ps s; mret (code, (Z.of_nat q, eq))) (Pst (Z.of_nat p) n) =
      Good (code, (Z.of_nat q, Z.of_nat eq)) (Pst (Z.of_nat p') n)).
  { intros code eq m Heq Em. destruct (skip_spec eq _ (Pst (Z.of_nat p) n) Heq) as (p' & _ & Hb' & Es' & _).
    exists p'. split; [done|]. do 3 pstep. done. }
  destruct (decide (q = e)) as [->|Hne].
  - destruct Hbq as (_ & Hz & Hl). rewrite txt_end in Hl. simpl in Hl. subst ts.
    erewrite P_bind_Good by (by apply ld_Ok).
    edestruct (Htail 0 e) as (p' & Hb' & E); cycle 2.
    + eexists _, p'. split; [done|]. split; [done|]. apply E.
    + split; [lia|]. rewrite txt_end. by split.
    + done.
  - assert (Hlt : (q < e)%nat) by (destruct Hbq; lia). destruct (Hend Hlt) as (c & Hc & Hw).
    erewrite P_bind_Good by (by apply ld_Ok).
    destruct (before_token q ts c Hbq Hlt Hc Hw) as (Hc0 & [H|[H|Hs]]); rewrite (proj2 (Z.eqb_neq _ _) Hc0).
    + destruct H as (_ & -> & Hc1 & ts' & -> & Hb'). cbn [tail tok_span tok_code] in *.
      edestruct (Htail 43 (S (S q))) as (p' & Hb'' & E); cycle 2.
      * eexists _, p'. split; [done|]. split; [done|]. apply E.
      * done.
      * cbv [in_lit zs existsb]. simpl. replace (Z.of_nat q + 1) with (Z.of_nat (S q)) by lia.
        erewrite P_bind_Good by (by apply ld_Ok). simpl. unfold mret, P_ret. repeat f_equal; lia.
    + destruct H as (Hs & Hgt & ts' & -> & Hb'). cbn [tail tok_span tok_code] in *.
      edestruct (Htail c (S q)) as (p' & Hb'' & E); cycle 2.
      * eexists _, p'. split; [done|]. split; [done|]. apply E.
      * done.
      * rewrite symbols_gt in Hs. replace (Z.of_nat q + 1) with (Z.of_nat (S q)) by lia.
        destruct (in_lit _ c) eqn:E; [done|]. simpl in Hs. rewrite Hs. apply Z.eqb_eq in Hs.
        pose proof e_bound. destruct (lookup_lt_is_Some_2 buf (S q)) as [c1 Hc1]; [lia|].
        erewrite P_bind_Good by (by apply ld_Ok).
        destruct (Z.eqb_spec c1 62) as [->|_]; [by destruct (Hgt Hs)|done].
    + rewrite symbols_gt in Hs. pose proof Hs as Hs'. apply orb_false_iff in Hs' as [-> ->].
      rewrite <- symbols_gt in Hs.
      destruct (word_at q ts c (Pst (Z.of_nat p) n) Hbq Hlt Hc Hw Hs) as (w & ts' & -> & Hb' & Hsp & Esw).
      cbn [tail tok_span tok_code] in *.
      edestruct (Htail 97 (q + length w)%nat) as (p' & Hb'' & E); cycle 2.
      * eexists _, p'. split; [done|]. split; [|apply E]. done.
      * done.
      * by pstep.
Qed.
End Reading.
