(* ===== verification/ShGrammar.v ===== *)
(** * The shell's parser and its grammar

   parseline() and the functions under it (user/sh.c), against the grammar of
   ShParse.v: what they return is a tree of the grammar for the tokens they
   consumed ([outcome], by induction on the fuel), and they do not reject a
   line of the grammar ([accepts_as], by induction on the line). *)

From stdpp Require Import base numbers list strings.
From Stdlib Require Import ZArith Lia.
From S2P Require Import Prelude Params Cmem Ulib Sh ShParse.

Scheme line_mut := Induction for line Sort Prop
with pipeline_mut := Induction for pipeline Sort Prop
with element_mut := Induction for element Sort Prop.
Combined Scheme grammar_ind from line_mut, pipeline_mut, element_mut.

Section Parsing.
Context (buf : mem) (e : nat) (He : buf !! e = Some 0).
Notation es := (Z.of_nat e).
Notation before := (before buf e).
Notation word_span := (word_span buf e).
Notation at_ p n := (Pst (Z.of_nat p) n).

(** The command stands for the tree, its strings still counted. *)
Fixpoint denotes (c : cmd) (t : tree) : Prop :=
  match c, t with
  | EXEC args, TExec ws => Forall2 word_span args ws
  | REDIR c file efile mode fd, TRedir t w mode' fd' =>
      denotes c t /\ word_span (file, efile) w /\ mode = mode' /\ fd = fd'
  | PIPE l r, TPipe l' r' => denotes l l' /\ denotes r r'
  | LIST l r, TList l' r' => denotes l l' /\ denotes r r'
  | BACK c, TBack t => denotes c t
  | _, _ => False
  end.

(** Starting before the tokens [ts] with [n] nodes: the tokens consumed, and
    a bound on the nodes used. *)
Definition outcome (n x : nat) (ts : list tok) (Q : cmd -> list tok -> Prop) (r : pres cmd) : Prop :=
  match r with
  | Good c st => exists us ts' p' n', ts = us ++ ts' /\ st = at_ p' n' /\ before p' ts' /\
      (n <= n' + 2 * length us + x)%nat /\ Q c us
  | Exits _ => True
  | Killed => (n < 2 * length ts + x)%nat
  | Undefined | NoFuel => False
  end.

Lemma outcome_bind n x x' ts Q Q' (m : P cmd) (f : cmd -> P cmd) st :
  outcome n x ts Q (m st) -> (x <= x')%nat ->
  (forall c us ts' p' n', ts = us ++ ts' -> before p' ts' -> (n <= n' + 2 * length us + x)%nat -> Q c us ->
    outcome n x' ts Q' (f c (at_ p' n'))) ->
  outcome n x' ts Q' ((m ≫= f) st).
Proof.
  intros Hm Hx Hf. unfold mbind, P_bind. unfold outcome in Hm. destruct (m st) as [c st'| | | |]; [|done| |done..].
  - destruct Hm as (us & ts' & p' & n' & -> & -> & Hb & Hn & HQ). by eapply Hf.
  - simpl. lia.
Qed.

(** The outcome of a continuation, which starts before the tokens [ts']. *)
Lemma outcome_shift n x n' y ts us ts' (Q Q' : cmd -> list tok -> Prop) r :
  outcome n' y ts' Q r -> ts = us ++ ts' -> (n + y <= n' + 2 * length us + x)%nat ->
  (forall c us', Q c us' -> Q' c (us ++ us')) -> outcome n x ts Q' r.
Proof.
  intros Hr -> Hn HQ. unfold outcome in *. destruct r as [c st| | | |]; [|done| |done..].
  - destruct Hr as (us' & ts'' & p'' & n'' & -> & -> & Hb & Hn' & HQ'). exists (us ++ us'), ts'', p'', n''.
    rewrite <- app_assoc, length_app. split; [done|]. split; [done|]. split; [done|]. split; [lia|by apply HQ].
  - rewrite length_app. lia.
Qed.

Lemma outcome_here n x ts us ts' p' n' (Q : cmd -> list tok -> Prop) c :
  ts = us ++ ts' -> before p' ts' -> (n <= n' + 2 * length us + x)%nat -> Q c us ->
  outcome n x ts Q (Good c (at_ p' n')).
Proof. intros. by exists us, ts', p', n'. Qed.

Lemma outcome_killed n x ts (Q : cmd -> list tok -> Prop) r :
  r = Killed -> (n < 2 * length ts + x)%nat -> outcome n x ts Q r.
Proof. by intros -> ?. Qed.

Lemma sh_bind {A B} (m : P A) (f : A -> P B) st a st' : m st = Good a st' -> (m ≫= f) st = f a st'.
Proof. apply P_bind_Good. Qed.

Lemma tok_in_gt lit t ts : tok_in lit (t :: ts) = true -> (exists c, t = Sym c /\ in_lit lit c = true) \/ (t = Append /\ in_lit lit 62 = true).
Proof. destruct t as [w|c|]; simpl; [done|eauto|auto]. Qed.

Lemma redirs_outcome fuel c t p ts n :
  before p ts -> (length ts < fuel)%nat -> denotes c t ->
  outcome n 0 ts (fun c' us => exists rs, us = show_redirs rs /\ denotes c' (wrap rs t))
    (parseredirs buf es fuel c (at_ p n)).
Proof.
  revert c t p ts n. induction fuel as [|f IH]; intros c t p ts n Hb Hf Hd; [lia|]. cbn [parseredirs].
  destruct (peek_spec buf e He "<>" p ts n eq_refl Hb) as (p1 & Hb1 & _ & E1). rewrite (sh_bind _ _ _ _ _ E1).
  destruct (tok_in "<>" ts) eqn:Et; [|by eapply (outcome_here _ _ _ [] ts); [done..|lia|exists []]].
  destruct ts as [|o ts]; [done|].
  destruct (gettoken_spec buf e He p1 (o :: ts) n Hb1) as (a1 & p2 & Hb2 & _ & E2). rewrite (sh_bind _ _ _ _ _ E2).
  cbn [tail] in Hb2.
  destruct (gettoken_spec buf e He p2 ts n Hb2) as (a2 & p3 & Hb3 & Hsp & E3). rewrite (sh_bind _ _ _ _ _ E3).
  destruct a2 as [q eq].
  destruct ts as [|[w|cc|] ts]; [done| |cbn; by destruct (Z.eqb_spec cc 97) as [->|]|done].
  cbn [tail tok_span tok_code fst snd] in *. change (negb (97 =? 97)) with false. cbn iota.
  assert (Ho : exists o', o = rop_tok o').
  { apply tok_in_gt in Et as [(x & -> & Hx)|[-> _]]; [|by exists Onto].
    apply existsb_exists in Hx as (y & Hy & ->%Z.eqb_eq).
    destruct Hy as [<-|[<-|[]]]; [by exists From|by exists To]. }
  destruct Ho as [o' ->].
  assert (Er : forall d : P cmd -> P cmd, d (if tok_code (rop_tok o') =? 60 then redircmd c q eq O_RDONLY 0
              else if tok_code (rop_tok o') =? 62 then redircmd c q eq (Z.lor (Z.lor O_WRONLY O_CREATE) O_TRUNC) 1
              else if tok_code (rop_tok o') =? 43 then redircmd c q eq (Z.lor O_WRONLY O_CREATE) 1
              else mret c) = d (redircmd c q eq (rop_mode o') (rop_fd o'))) by (by destruct o').
  rewrite (Er (fun m => m ≫= parseredirs buf es f)). clear Er.
  destruct n as [|n]; [simpl; lia|].
  rewrite (sh_bind _ _ _ (REDIR c q eq (rop_mode o') (rop_fd o')) (at_ p3 n)) by done.
  eapply (outcome_shift _ _ n 0 _ [rop_tok o'; Word w] ts); [|done|simpl; lia|].
  + apply (IH _ (TRedir t w (rop_mode o') (rop_fd o'))); [done|simpl in Hf; lia|done].
  + intros c' us (rs & -> & Hd'). by exists ((o', w) :: rs).
Qed.

(** The argument goes to the exec node under the redirections. *)
Lemma set_arg_denotes c rs ws a w :
  denotes c (wrap rs (TExec ws)) -> word_span a w -> denotes (set_arg c a) (wrap rs (TExec (ws ++ [w]))).
Proof.
  revert c. induction rs as [|r rs IH] using rev_ind; intros c Hd Ha.
  - destruct c; simpl in Hd; try done. simpl. apply Forall2_app; [done|]. by constructor.
  - unfold wrap in *. rewrite foldl_app in *. simpl in *. destruct c; simpl in Hd; try done.
    destruct Hd as (Hd & Hw & -> & ->). simpl. auto.
Qed.

Lemma wrap_app rs rs' t : wrap (rs ++ rs') t = wrap rs' (wrap rs t).
Proof. apply foldl_app. Qed.

Lemma args_outcome fuel c rs0 args0 p ts n :
  before p ts -> (length ts < fuel)%nat -> (length args0 < Z.to_nat MAXARGS)%nat ->
  denotes c (wrap (rs0 ++ arg_redirs args0) (TExec (fst <$> args0))) ->
  outcome n 0 ts (fun c' us => exists args, us = show_args args /\ (length (args0 ++ args) < Z.to_nat MAXARGS)%nat /\
      denotes c' (wrap (rs0 ++ arg_redirs (args0 ++ args)) (TExec (fst <$> args0 ++ args))))
    (parseargs buf es fuel c (Z.of_nat (length args0)) (at_ p n)).
Proof.
  revert c args0 p ts n. induction fuel as [|f IH]; intros c args0 p ts n Hb Hf Hlen Hd; [lia|]. cbn [parseargs].
  assert (Hstop : forall p', before p' ts -> outcome n 0 ts (fun c' us => exists args, us = show_args args /\
      (length (args0 ++ args) < Z.to_nat MAXARGS)%nat /\
      denotes c' (wrap (rs0 ++ arg_redirs (args0 ++ args)) (TExec (fst <$> args0 ++ args)))) (Good c (at_ p' n))).
  { intros p' Hp'. eapply (outcome_here _ _ _ [] ts); [done..|lia|]. exists []. by rewrite app_nil_r. }
  destruct (peek_spec buf e He "|)&;" p ts n eq_refl Hb) as (p1 & Hb1 & _ & E1). rewrite (sh_bind _ _ _ _ _ E1).
  destruct (tok_in "|)&;" ts) eqn:Et; [by apply Hstop|].
  destruct (gettoken_spec buf e He p1 ts n Hb1) as (a & p2 & Hb2 & Hsp & E2). rewrite (sh_bind _ _ _ _ _ E2).
  destruct ts as [|[w|cc|] ts].
  - by apply Hstop.
  - cbn [tok_code tail tok_span] in *. change (97 =? 0) with false. change (negb (97 =? 97)) with false. cbn iota.
    destruct (Z.geb_spec (Z.of_nat (length args0) + 1) MAXARGS) as [|Hlt]; [done|].
    eapply (outcome_shift _ _ n 0 _ [Word w] ts (fun c' us => exists args, Word w :: us = show_args args /\
      (length (args0 ++ args) < Z.to_nat MAXARGS)%nat /\
      denotes c' (wrap (rs0 ++ arg_redirs (args0 ++ args)) (TExec (fst <$> args0 ++ args))))); [|done|simpl; lia|done].
    pose proof (before_length _ _ _ _ Hb2). eapply outcome_bind; [|done|].
    { apply redirs_outcome; [done|lia|by apply set_arg_denotes]. }
    intros c' us ts' p' n' -> Hb' Hn (rs & -> & Hd').
    set (args1 := args0 ++ [(w, rs)]).
    assert (Hd1 : denotes c' (wrap (rs0 ++ arg_redirs args1) (TExec (fst <$> args1)))).
    { unfold args1, arg_redirs in *. by rewrite bind_app, fmap_app, app_assoc, wrap_app, bind_singleton. }
    replace (Z.of_nat (length args0) + 1) with (Z.of_nat (length args1))
      by (unfold args1; rewrite length_app; simpl; lia).
    eapply (outcome_shift _ _ n' 0 _ (show_redirs rs) ts'); [|done|lia|].
    + apply (IH c' args1); [done| |unfold args1; rewrite length_app; simpl; lia|done].
      simpl in Hf. rewrite length_app in Hf. lia.
    + intros c'' us (args & -> & Hl & Hd''). exists ((w, rs) :: args). unfold args1 in *.
      by rewrite <- app_assoc in Hl, Hd''.
  - cbn [tok_code tok_span tail] in *. destruct (Z.eqb_spec cc 0) as [->|]; [done|].
    by destruct (Z.eqb_spec cc 97) as [->|].
  - done.
Qed.

Lemma tok_in_one lit x ts : zs lit = [x] -> x <> 62 -> tok_in lit ts = true -> exists ts', ts = Sym x :: ts'.
Proof.
  intros Hl Hx Ht. destruct ts as [|[w|c|] ts]; [done..| |]; unfold tok_in, in_lit in Ht; rewrite Hl in Ht;
    cbn [existsb] in Ht; rewrite orb_false_r in Ht; apply Z.eqb_eq in Ht; [subst; eauto|congruence].
Qed.

Lemma amps_outcome fuel c t p ts n :
  before p ts -> (length ts < fuel)%nat -> denotes c t ->
  outcome n 0 ts (fun c' us => exists k, us = replicate k (Sym 38) /\ denotes c' (Nat.iter k TBack t))
    (parseamps buf es fuel c (at_ p n)).
Proof.
  revert c t p ts n. induction fuel as [|f IH]; intros c t p ts n Hb Hf Hd; [lia|]. cbn [parseamps].
  destruct (peek_spec buf e He "&" p ts n eq_refl Hb) as (p1 & Hb1 & _ & E1). rewrite (sh_bind _ _ _ _ _ E1).
  destruct (tok_in "&" ts) eqn:Et; [|by eapply (outcome_here _ _ _ [] ts); [done..|lia|exists 0%nat]].
  apply (tok_in_one _ 38) in Et as [ts' ->]; [|done..].
  destruct (gettoken_spec buf e He p1 _ n Hb1) as (a1 & p2 & Hb2 & _ & E2). rewrite (sh_bind _ _ _ _ _ E2).
  destruct n as [|n]; [simpl; lia|]. rewrite (sh_bind _ _ _ (BACK c) (at_ p2 n)) by done.
  eapply (outcome_shift _ _ n 0 _ [Sym 38] ts'); [|done|simpl; lia|].
  - apply (IH _ (TBack t)); [done|simpl in Hf; lia|done].
  - intros c' us (k & -> & Hd'). exists (S k). split; [done|]. by rewrite Nat.iter_succ_r.
Qed.

Definition line_outcome (f : nat) : Prop := forall p ts n, before p ts -> (4 * length ts + 4 <= f)%nat ->
  outcome n 1 ts (fun c us => exists l, line_ok l /\ us = show_line l /\ denotes c (line_tree l))
    (parseline buf es f (at_ p n)).
Definition pipe_outcome (f : nat) : Prop := forall p ts n, before p ts -> (4 * length ts + 3 <= f)%nat ->
  outcome n 1 ts (fun c us => exists l, pipe_ok l /\ us = show_pipe l /\ denotes c (pipe_tree l))
    (parsepipe buf es f (at_ p n)).
Definition exec_outcome (f : nat) : Prop := forall p ts n, before p ts -> (4 * length ts + 2 <= f)%nat ->
  outcome n 1 ts (fun c us => exists l, element_ok l /\ us = show_element l /\ denotes c (element_tree l))
    (parseexec buf es f (at_ p n)).
Definition block_outcome (f : nat) : Prop := forall p ts n,
  before p ts -> (4 * length ts + 1 <= f)%nat -> tok_in "(" ts = true ->
  outcome n 1 ts (fun c us => exists l, element_ok l /\ us = show_element l /\ denotes c (element_tree l))
    (parseblock buf es f (at_ p n)).

Lemma line_step f : line_outcome f -> pipe_outcome f -> line_outcome (S f).
Proof.
  intros IHl IHp p ts n Hb Hf. cbn [parseline]. eapply outcome_bind; [by apply IHp; [done|lia]|done|].
  intros c us ts1 p1 n1 -> Hb1 Hn1 (l & Hl & -> & Hd). rewrite length_app in Hf.
  pose proof (before_length _ _ _ _ Hb1). eapply outcome_bind.
  { eapply (outcome_shift _ 1 n1 0); [by apply amps_outcome; [done|lia|done]|done|lia|].
    instantiate (1 := fun c us => exists k, us = show_pipe l ++ replicate k (Sym 38) /\ denotes c (Nat.iter k TBack (pipe_tree l))).
    intros c' us (k & -> & Hd'). by exists k. }
  { done. }
  intros c' us ts2 p2 n2 E2 Hb2 Hn2 (k & -> & Hd'). rewrite E2. rewrite <- app_assoc in E2. apply app_inv_head in E2 as ->.
  destruct (peek_spec buf e He ";" p2 ts2 n2 eq_refl Hb2) as (p3 & Hb3 & _ & E3). rewrite (sh_bind _ _ _ _ _ E3).
  destruct (tok_in ";" ts2) eqn:Et.
  2:{ eapply outcome_here; [done|done|lia|]. by exists (LineEnd l k). }
  apply (tok_in_one _ 59) in Et as [ts3 ->]; [|done..].
  destruct (gettoken_spec buf e He p3 _ n2 Hb3) as (a & p4 & Hb4 & _ & E4). rewrite (sh_bind _ _ _ _ _ E4).
  rewrite !length_app in *. cbn [length tail] in *.
  eapply (outcome_shift _ _ n2 2 _ (show_pipe l ++ replicate k (Sym 38) ++ [Sym 59]) ts3
    (fun c us => exists c2, (exists l, line_ok l /\ us = show_line l /\ denotes c2 (line_tree l)) /\ c = LIST c' c2));
    [|by rewrite <- !app_assoc|rewrite !length_app; simpl; lia|].
  - eapply outcome_bind; [apply IHl; [done|lia]|lia|]. intros c2 us ts4 p5 n5 -> Hb5 Hn5 Q5.
    destruct n5 as [|n5]; [by apply outcome_killed; [done|rewrite length_app; lia]|].
    eapply outcome_here; [done..|lia|].
    eauto.
  - intros c2 us (c3 & (l3 & Hl3 & -> & Hd3) & ->). exists (LineSeq l k l3). split; [done|].
    split; [by rewrite <- !app_assoc|done].
Qed.

Lemma pipe_step f : pipe_outcome f -> exec_outcome f -> pipe_outcome (S f).
Proof.
  intros IHp IHe p ts n Hb Hf. cbn [parsepipe]. eapply outcome_bind; [by apply IHe; [done|lia]|done|].
  intros c us ts1 p1 n1 -> Hb1 Hn1 (l & Hl & -> & Hd). rewrite length_app in Hf.
  destruct (peek_spec buf e He "|" p1 ts1 n1 eq_refl Hb1) as (p3 & Hb3 & _ & E3). rewrite (sh_bind _ _ _ _ _ E3).
  destruct (tok_in "|" ts1) eqn:Et.
  2:{ eapply outcome_here; [done|done|lia|]. by exists (PipeEnd l). }
  apply (tok_in_one _ 124) in Et as [ts3 ->]; [|done..].
  destruct (gettoken_spec buf e He p3 _ n1 Hb3) as (a & p4 & Hb4 & _ & E4). rewrite (sh_bind _ _ _ _ _ E4).
  cbn [length tail] in *.
  eapply (outcome_shift _ _ n1 2 _ (show_element l ++ [Sym 124]) ts3
    (fun c' us => exists c2, (exists l, pipe_ok l /\ us = show_pipe l /\ denotes c2 (pipe_tree l)) /\ c' = PIPE c c2));
    [|by rewrite <- !app_assoc|rewrite !length_app; simpl; lia|].
  - eapply outcome_bind; [apply IHp; [done|lia]|lia|]. intros c2 us ts4 p5 n5 -> Hb5 Hn5 Q5.
    destruct n5 as [|n5]; [by apply outcome_killed; [done|rewrite length_app; lia]|].
    eapply outcome_here; [done..|lia|].
    eauto.
  - intros c2 us (c3 & (l3 & Hl3 & -> & Hd3) & ->). exists (PipeSeq l l3). split; [done|].
    split; [by rewrite <- !app_assoc|done].
Qed.

Lemma exec_step f : block_outcome f -> exec_outcome (S f).
Proof.
  intros IHb p ts n Hb Hf. cbn [parseexec].
  destruct (peek_spec buf e He "(" p ts n eq_refl Hb) as (p1 & Hb1 & _ & E1). rewrite (sh_bind _ _ _ _ _ E1).
  destruct (tok_in "(" ts) eqn:Et; [apply IHb; [done|lia|done]|].
  destruct n as [|n]; [simpl; lia|]. rewrite (sh_bind _ _ _ (EXEC []) (at_ p1 n)) by done.
  pose proof (before_length _ _ _ _ Hb1). eapply outcome_bind.
  { eapply (outcome_shift (S n) 1 n 0 ts [] ts); [|done|simpl; lia|].
    - apply (redirs_outcome _ _ (TExec [])); [done|lia|constructor].
    - done. }
  { done. }
  intros c us ts' p' n' -> Hb' Hn (rs & -> & Hd). pose proof (before_length _ _ _ _ Hb').
  eapply (outcome_shift _ _ n' 0); [|done|lia|].
  - apply (args_outcome _ c rs []); [done|lia|by vm_compute; lia|by rewrite app_nil_r].
  - intros c' us (args & -> & Hl & Hd'). by exists (Simple rs args).
Qed.

Lemma block_step f : line_outcome f -> block_outcome (S f).
Proof.
  intros IHl p ts n Hb Hf Et. cbn [parseblock].
  destruct (peek_spec buf e He "(" p ts n eq_refl Hb) as (p1 & Hb1 & _ & E1). rewrite (sh_bind _ _ _ _ _ E1).
  rewrite Et. cbn [negb]. apply (tok_in_one _ 40) in Et as [ts1 ->]; [|done..].
  destruct (gettoken_spec buf e He p1 _ n Hb1) as (a & p2 & Hb2 & _ & E2). rewrite (sh_bind _ _ _ _ _ E2).
  cbn [length tail] in *.
  eapply (outcome_shift _ _ n 1 _ [Sym 40] ts1
    (fun c us => exists l, element_ok l /\ Sym 40 :: us = show_element l /\ denotes c (element_tree l))); [|done|simpl; lia|].
  - eapply outcome_bind; [apply IHl; [done|lia]|done|]. intros c us ts3 p3 n3 -> Hb3 Hn3 (l & Hl & -> & Hd).
    destruct (peek_spec buf e He ")" p3 ts3 n3 eq_refl Hb3) as (p4 & Hb4 & _ & E4). rewrite (sh_bind _ _ _ _ _ E4).
    destruct (tok_in ")" ts3) eqn:Et; cbn [negb]; [|done]. apply (tok_in_one _ 41) in Et as [ts4 ->]; [|done..].
    destruct (gettoken_spec buf e He p4 _ n3 Hb4) as (a' & p5 & Hb5 & _ & E5). rewrite (sh_bind _ _ _ _ _ E5).
    cbn [tail] in Hb5. pose proof (before_length _ _ _ _ Hb5).
    eapply (outcome_shift _ _ n3 0 _ (show_line l ++ [Sym 41]) ts4);
      [by apply redirs_outcome; [done|lia|done]|by rewrite <- app_assoc|rewrite length_app; simpl; lia|].
    intros c' us (rs & -> & Hd'). exists (Block l rs). split; [done|]. split; [|done]. simpl. by rewrite <- app_assoc.
  - intros c us (l & Hl & E & Hd). by exists l.
Qed.

Lemma parse_outcome f : line_outcome f /\ pipe_outcome f /\ exec_outcome f /\ block_outcome f.
Proof.
  induction f as [|f (IHl & IHp & IHe & IHb)].
  - split; [|split; [|split]]; intros p ts n Hb Hf; lia.
  - split; [|split; [|split]]; [by apply line_step|by apply pipe_step|by apply exec_step|by apply block_step].
Qed.

(* ------------------------------------------------------------------ *)
(** ** Lines of the grammar are accepted *)

Definition accepts_as (ts' : list tok) (t : tree) (r : pres cmd) : Prop :=
  match r with
  | Good c st => exists p' n', st = at_ p' n' /\ before p' ts' /\ denotes c t
  | Exits _ => False
  | Killed | Undefined | NoFuel => True
  end.

Lemma accepts_bind ts1 t1 ts' t (m : P cmd) (f : cmd -> P cmd) st :
  accepts_as ts1 t1 (m st) ->
  (forall c p n, before p ts1 -> denotes c t1 -> accepts_as ts' t (f c (at_ p n))) ->
  accepts_as ts' t ((m ≫= f) st).
Proof.
  intros Hm Hf. unfold mbind, P_bind. destruct (m st) as [c st'| | | |]; try done.
  destruct Hm as (p & n & -> & Hb & Hd). by apply Hf.
Qed.

(** The tokens end, or go on with one of the symbols of [lit]. *)
Definition stop (lit : string) (ts : list tok) : Prop := ts = [] \/ tok_in lit ts = true.

Lemma stop_not lit lit' ts :
  forallb (fun c => negb (in_lit lit' c)) (zs lit) = true -> stop lit ts -> tok_in lit' ts = false.
Proof.
  intros Hd [->|Ht]; [done|]. rewrite forallb_forall in Hd.
  assert (H : forall c, in_lit lit c = true -> in_lit lit' c = false).
  { intros c Hc. apply existsb_exists in Hc as (x & Hx & ->%Z.eqb_eq). by apply negb_true_iff, Hd. }
  destruct ts as [|[w|c|] ts]; simpl in *; auto.
Qed.

Lemma stop_sub lit lit' ts : forallb (in_lit lit') (zs lit) = true -> stop lit ts -> stop lit' ts.
Proof.
  intros Hd [->|Ht]; [by left|right]. rewrite forallb_forall in Hd.
  assert (H : forall c, in_lit lit c = true -> in_lit lit' c = true).
  { intros c Hc. apply existsb_exists in Hc as (x & Hx & ->%Z.eqb_eq). by apply Hd. }
  destruct ts as [|[w|c|] ts]; simpl in *; auto.
Qed.

Lemma redirs_accept rs fuel c t p ts' n :
  before p (show_redirs rs ++ ts') -> tok_in "<>" ts' = false -> denotes c t ->
  accepts_as ts' (wrap rs t) (parseredirs buf es fuel c (at_ p n)).
Proof.
  revert rs c t p n. induction fuel as [|f IH]; intros rs c t p n Hb Hs Hd; [done|]. cbn [parseredirs].
  destruct (peek_spec buf e He "<>" p _ n eq_refl Hb) as (p1 & Hb1 & _ & E1). rewrite (sh_bind _ _ _ _ _ E1).
  destruct rs as [|[o w] rs].
  { cbn [show_redirs app mbind list_bind] in *. rewrite Hs. by exists p1, n. }
  change (show_redirs ((o, w) :: rs) ++ ts') with (rop_tok o :: Word w :: (show_redirs rs ++ ts')) in *.
  assert (tok_in "<>" (rop_tok o :: Word w :: show_redirs rs ++ ts') = true) as -> by (by destruct o).
  destruct (gettoken_spec buf e He p1 _ n Hb1) as (a1 & p2 & Hb2 & _ & E2). rewrite (sh_bind _ _ _ _ _ E2).
  cbn [tail] in Hb2.
  destruct (gettoken_spec buf e He p2 _ n Hb2) as ([q eq] & p3 & Hb3 & Hsp & E3). rewrite (sh_bind _ _ _ _ _ E3).
  cbn [tail tok_span tok_code fst snd] in *. change (negb (97 =? 97)) with false. cbn iota.
  destruct n as [|n]; [by destruct o|].
  rewrite (sh_bind _ _ _ (REDIR c q eq (rop_mode o) (rop_fd o)) (at_ p3 n)) by (by destruct o).
  by apply (IH rs _ (TRedir t w (rop_mode o) (rop_fd o))).
Qed.

Lemma args_accept args fuel c rs0 args0 p ts' n :
  before p (show_args args ++ ts') -> stop "|)&;" ts' -> (length (args0 ++ args) < Z.to_nat MAXARGS)%nat ->
  denotes c (wrap (rs0 ++ arg_redirs args0) (TExec (fst <$> args0))) ->
  accepts_as ts' (wrap (rs0 ++ arg_redirs (args0 ++ args)) (TExec (fst <$> args0 ++ args)))
    (parseargs buf es fuel c (Z.of_nat (length args0)) (at_ p n)).
Proof.
  revert args c args0 p n. induction fuel as [|f IH]; intros args c args0 p n Hb Hs Hl Hd; [done|].
  cbn [parseargs].
  destruct (peek_spec buf e He "|)&;" p _ n eq_refl Hb) as (p1 & Hb1 & _ & E1). rewrite (sh_bind _ _ _ _ _ E1).
  destruct args as [|[w rs] args].
  { cbn [show_args app mbind list_bind] in *. rewrite app_nil_r in *.
    destruct (tok_in "|)&;" ts') eqn:Et; [by exists p1, n|]. destruct Hs as [->|]; [|congruence].
    destruct (gettoken_spec buf e He p1 _ n Hb1) as (a & p2 & Hb2 & _ & E2). rewrite (sh_bind _ _ _ _ _ E2).
    by exists p2, n. }
  change (show_args ((w, rs) :: args) ++ ts') with (Word w :: (show_redirs rs ++ show_args args) ++ ts') in *.
  change (tok_in "|)&;" (Word w :: _)) with false. cbn iota.
  destruct (gettoken_spec buf e He p1 _ n Hb1) as (a & p2 & Hb2 & Hsp & E2). rewrite (sh_bind _ _ _ _ _ E2).
  cbn [tok_code tail tok_span] in *. change (97 =? 0) with false. change (negb (97 =? 97)) with false. cbn iota.
  rewrite length_app in Hl. simpl in Hl.
  destruct (Z.geb_spec (Z.of_nat (length args0) + 1) MAXARGS) as [Hge|Hlt]; [unfold MAXARGS in *; lia|].
  rewrite <- app_assoc in Hb2. eapply accepts_bind.
  { apply redirs_accept; [done| |by apply set_arg_denotes].
    destruct args as [|[w' rs'] args]; [|done]. by apply (stop_not "|)&;"). }
  intros c' p' n' Hb' Hd'. set (args1 := args0 ++ [(w, rs)]).
  replace (Z.of_nat (length args0) + 1) with (Z.of_nat (length args1))
    by (unfold args1; rewrite length_app; simpl; lia).
  replace (args0 ++ (w, rs) :: args) with (args1 ++ args) by (unfold args1; by rewrite <- app_assoc).
  apply IH; [done..|unfold args1; rewrite !length_app; simpl; lia|].
  unfold args1, arg_redirs in *. by rewrite bind_app, fmap_app, app_assoc, wrap_app, bind_singleton.
Qed.

Lemma amps_accept k fuel c t p ts' n :
  before p (replicate k (Sym 38) ++ ts') -> tok_in "&" ts' = false -> denotes c t ->
  accepts_as ts' (Nat.iter k TBack t) (parseamps buf es fuel c (at_ p n)).
Proof.
  revert k c t p n. induction fuel as [|f IH]; intros k c t p n Hb Hs Hd; [done|]. cbn [parseamps].
  destruct (peek_spec buf e He "&" p _ n eq_refl Hb) as (p1 & Hb1 & _ & E1). rewrite (sh_bind _ _ _ _ _ E1).
  destruct k as [|k]; [cbn [replicate app] in *; rewrite Hs; by exists p1, n|].
  cbn [replicate app] in *. change (tok_in "&" (Sym 38 :: _)) with true. cbn iota.
  destruct (gettoken_spec buf e He p1 _ n Hb1) as (a1 & p2 & Hb2 & _ & E2). rewrite (sh_bind _ _ _ _ _ E2).
  destruct n as [|n]; [done|]. rewrite (sh_bind _ _ _ (BACK c) (at_ p2 n)) by done.
  rewrite Nat.iter_succ_r. by apply IH.
Qed.

Definition line_accept (l : line) : Prop := line_ok l -> forall f p ts' n,
  before p (show_line l ++ ts') -> stop ")" ts' -> accepts_as ts' (line_tree l) (parseline buf es f (at_ p n)).
Definition pipe_accept (l : pipeline) : Prop := pipe_ok l -> forall f p ts' n,
  before p (show_pipe l ++ ts') -> stop ")&;" ts' -> accepts_as ts' (pipe_tree l) (parsepipe buf es f (at_ p n)).
Definition element_accept (l : element) : Prop := element_ok l -> forall f p ts' n,
  before p (show_element l ++ ts') -> stop "|)&;" ts' -> accepts_as ts' (element_tree l) (parseexec buf es f (at_ p n)).

Lemma stop_amps k lit ts : in_lit lit 38 = true -> stop lit ts -> stop lit (replicate k (Sym 38) ++ ts).
Proof. intros Hl Hs. destruct k as [|k]; [done|]. by right. Qed.

Lemma line_end_accept q k : pipe_accept q -> line_accept (LineEnd q k).
Proof.
  intros IH Hok [|f] p ts' n Hb Hs; [done|]. cbn [parseline show_line line_tree] in *. rewrite <- app_assoc in Hb.
  eapply accepts_bind; [apply IH; [done..|]|].
  { apply stop_amps; [done|]. by apply (stop_sub ")"). }
  intros c p1 n1 Hb1 Hd1. eapply accepts_bind; [apply amps_accept; [done|by apply (stop_not ")")|done]|].
  intros c2 p2 n2 Hb2 Hd2.
  destruct (peek_spec buf e He ";" p2 ts' n2 eq_refl Hb2) as (p3 & Hb3 & _ & E3). rewrite (sh_bind _ _ _ _ _ E3).
  rewrite (stop_not ")") by done. by exists p3, n2.
Qed.

Lemma line_seq_accept q k l : pipe_accept q -> line_accept l -> line_accept (LineSeq q k l).
Proof.
  intros IHq IHl [Hokq Hokl] [|f] p ts' n Hb Hs; [done|]. cbn [parseline show_line line_tree] in *.
  rewrite <- !app_assoc in Hb.
  eapply accepts_bind; [apply IHq; [done..|]|].
  { apply stop_amps; [done|]. by right. }
  intros c p1 n1 Hb1 Hd1. eapply accepts_bind; [by apply amps_accept|].
  intros c2 p2 n2 Hb2 Hd2.
  destruct (peek_spec buf e He ";" p2 _ n2 eq_refl Hb2) as (p3 & Hb3 & _ & E3). rewrite (sh_bind _ _ _ _ _ E3).
  change (tok_in ";" ((Sym 59 :: _) ++ _)) with true. cbn iota.
  destruct (gettoken_spec buf e He p3 _ n2 Hb3) as (a & p4 & Hb4 & _ & E4). rewrite (sh_bind _ _ _ _ _ E4).
  eapply accepts_bind; [by apply (IHl Hokl f p4 ts')|]. intros c5 p5 n5 Hb5 Hd5. destruct n5 as [|n5]; [done|]. by exists p5, n5.
Qed.

Lemma pipe_end_accept el : element_accept el -> pipe_accept (PipeEnd el).
Proof.
  intros IH Hok [|f] p ts' n Hb Hs; [done|]. cbn [parsepipe show_pipe pipe_tree] in *.
  eapply accepts_bind; [by apply IH; [..|apply (stop_sub ")&;")]|]. intros c p1 n1 Hb1 Hd1.
  destruct (peek_spec buf e He "|" p1 ts' n1 eq_refl Hb1) as (p3 & Hb3 & _ & E3). rewrite (sh_bind _ _ _ _ _ E3).
  rewrite (stop_not ")&;") by done. by exists p3, n1.
Qed.

Lemma pipe_seq_accept el l : element_accept el -> pipe_accept l -> pipe_accept (PipeSeq el l).
Proof.
  intros IHe IHl [Hoke Hokl] [|f] p ts' n Hb Hs; [done|]. cbn [parsepipe show_pipe pipe_tree] in *.
  rewrite <- app_assoc in Hb. eapply accepts_bind; [by apply IHe; [..|right]|]. intros c p1 n1 Hb1 Hd1.
  destruct (peek_spec buf e He "|" p1 _ n1 eq_refl Hb1) as (p3 & Hb3 & _ & E3). rewrite (sh_bind _ _ _ _ _ E3).
  change (tok_in "|" ((Sym 124 :: _) ++ _)) with true. cbn iota.
  destruct (gettoken_spec buf e He p3 _ n1 Hb3) as (a & p4 & Hb4 & _ & E4). rewrite (sh_bind _ _ _ _ _ E4).
  eapply accepts_bind; [by apply (IHl Hokl f p4 ts')|]. intros c5 p5 n5 Hb5 Hd5. destruct n5 as [|n5]; [done|]. by exists p5, n5.
Qed.

Lemma block_accept l rs : line_accept l -> element_accept (Block l rs).
Proof.
  intros IH Hok [|f] p ts' n Hb Hs; [done|]. cbn [parseexec show_element element_tree app] in *.
  rewrite <- app_assoc in Hb.
  destruct (peek_spec buf e He "(" p _ n eq_refl Hb) as (p1 & Hb1 & _ & E1). rewrite (sh_bind _ _ _ _ _ E1).
  change (tok_in "(" (Sym 40 :: _)) with true. cbn iota. destruct f as [|f]; [done|]. cbn [parseblock].
  destruct (peek_spec buf e He "(" p1 _ n eq_refl Hb1) as (p2 & Hb2 & _ & E2). rewrite (sh_bind _ _ _ _ _ E2).
  change (negb (tok_in "(" (Sym 40 :: _))) with false. cbn iota.
  destruct (gettoken_spec buf e He p2 _ n Hb2) as (a & p3 & Hb3 & _ & E3). rewrite (sh_bind _ _ _ _ _ E3).
  eapply accepts_bind; [by apply IH; [..|right]|]. intros c p4 n4 Hb4 Hd4.
  destruct (peek_spec buf e He ")" p4 _ n4 eq_refl Hb4) as (p5 & Hb5 & _ & E5). rewrite (sh_bind _ _ _ _ _ E5).
  change (negb (tok_in ")" ((Sym 41 :: _) ++ _))) with false. cbn iota.
  destruct (gettoken_spec buf e He p5 _ n4 Hb5) as (a' & p6 & Hb6 & _ & E6). rewrite (sh_bind _ _ _ _ _ E6).
  apply redirs_accept; [done|by apply (stop_not "|)&;")|done].
Qed.

Lemma simple_accept rs args : element_accept (Simple rs args).
Proof.
  intros Hok [|f] p ts' n Hb Hs; [done|]. cbn [parseexec show_element element_tree element_ok] in *.
  rewrite <- app_assoc in Hb.
  assert (Ht : tok_in "(" (show_redirs rs ++ show_args args ++ ts') = false).
  { destruct rs as [|[[] w] rs]; [|done..]. destruct args as [|[w rs] args]; [|done]. by apply (stop_not "|)&;"). }
  destruct (peek_spec buf e He "(" p _ n eq_refl Hb) as (p1 & Hb1 & _ & E1). rewrite (sh_bind _ _ _ _ _ E1), Ht.
  destruct n as [|n]; [done|]. rewrite (sh_bind _ _ _ (EXEC []) (at_ p1 n)) by done.
  eapply accepts_bind.
  { apply (redirs_accept rs _ _ (TExec [])); [done| |constructor].
    destruct args as [|[w rs'] args]; [|done]. by apply (stop_not "|)&;"). }
  intros c p2 n2 Hb2 Hd2. apply (args_accept args _ c rs []); [done..|]. by rewrite app_nil_r.
Qed.

Lemma grammar_accept : (forall l, line_accept l) /\ (forall l, pipe_accept l) /\ (forall l, element_accept l).
Proof.
  apply grammar_ind; eauto using line_end_accept, line_seq_accept, pipe_end_accept, pipe_seq_accept, block_accept, simple_accept.
Qed.

(* ------------------------------------------------------------------ *)
(** ** nulterminate *)

(** The buffer with some of the bytes that end a word overwritten. *)
Definition cut_up (b : mem) : Prop :=
  length b = length buf /\
  forall i x, buf !! i = Some x -> b !! i = Some x \/ ((wordish x = false \/ x = 0) /\ b !! i = Some 0).

Definition keeps_nuls (b b' : mem) : Prop := forall i : nat, b !! i = Some 0 -> b' !! i = Some 0.

Fixpoint ended (c : cmd) (b : mem) : Prop :=
  match c with
  | EXEC args => Forall (fun a => b !! Z.to_nat (snd a) = Some 0) args
  | REDIR c _ efile _ _ => ended c b /\ b !! Z.to_nat efile = Some 0
  | PIPE l r | LIST l r => ended l b /\ ended r b
  | BACK c => ended c b
  end.

Lemma ended_keeps c b b' : keeps_nuls b b' -> ended c b -> ended c b'.
Proof.
  intros Hk. induction c; simpl; try naive_solver. intros H. eapply Forall_impl; [done|]. intros a Ha. by apply Hk.
Qed.

Lemma end_store a w b :
  word_span a w -> cut_up b ->
  exists b', stb (snd a) 0 b = Ok tt b' /\ cut_up b' /\ keeps_nuls b b' /\ b' !! Z.to_nat (snd a) = Some 0.
Proof.
  intros (q & -> & _ & _ & Hle & d & Hd & Hnd) [Hlen Hb]. cbn [snd]. set (i := (q + length w)%nat) in *.
  pose proof (lookup_lt_Some _ _ _ Hd). exists (<[i := 0]> b). rewrite stb_Ok by lia. split; [done|].
  rewrite Nat2Z.id. split; [split|split].
  - by rewrite length_insert.
  - intros j x Hx. destruct (decide (i = j)) as [<-|Hne].
    + right. rewrite list_lookup_insert_eq by lia. rewrite Hd in Hx. by injection Hx as ->.
    + rewrite list_lookup_insert_ne by done. auto.
  - intros j Hj. destruct (decide (i = j)) as [<-|Hne]; [by rewrite list_lookup_insert_eq by lia|].
    by rewrite list_lookup_insert_ne.
  - by rewrite list_lookup_insert_eq by lia.
Qed.

Definition terminated (c : cmd) (b : mem) (r : out mem unit) : Prop :=
  exists b', r = Ok tt b' /\ cut_up b' /\ keeps_nuls b b' /\ ended c b'.

Lemma nulterminate_exec args ws b : Forall2 word_span args ws -> cut_up b -> terminated (EXEC args) b (nulterminate (EXEC args) b).
Proof.
  intros H. revert b. induction H as [|a w args ws Ha _ IH]; intros b Hb.
  - exists b. split; [done|]. split; [done|]. split; [by intros ?|constructor].
  - destruct (end_store a w b Ha Hb) as (b1 & E1 & Hb1 & Hk1 & Hz1).
    destruct (IH b1 Hb1) as (b2 & E2 & Hb2 & Hk2 & He2). exists b2. split.
    { cbn [nulterminate] in *. erewrite bind_Ok by done. done. }
    split; [done|]. split; [intros i Hi; auto|]. constructor; [auto|done].
Qed.

Lemma terminated_seq c1 c2 b (m : M mem unit) :
  terminated c1 b (nulterminate c1 b) ->
  (forall b1, cut_up b1 -> ended c1 b1 -> exists b', m b1 = Ok tt b' /\ cut_up b' /\ keeps_nuls b1 b' /\ (ended c1 b' -> ended c2 b')) ->
  terminated c2 b (bind (nulterminate c1) (fun _ => m) b).
Proof.
  intros (b1 & E1 & Hb1 & Hk1 & He1) Hm. destruct (Hm b1 Hb1 He1) as (b2 & E2 & Hb2 & Hk2 & He2). exists b2.
  erewrite bind_Ok by done. split; [done|]. split; [done|]. split; [intros i Hi; auto|].
  apply He2. by eapply ended_keeps.
Qed.

Lemma nulterminate_spec c t b : denotes c t -> cut_up b -> terminated c b (nulterminate c b).
Proof.
  revert t b. induction c as [args|c IH file efile mode fd|l IHl r IHr|l IHl r IHr|c IH]; intros t b Hd Hb;
    destruct t; simpl in Hd; try done.
  - by eapply nulterminate_exec.
  - destruct Hd as (Hd & Hw & _). eapply (terminated_seq c); [by eapply IH|]. intros b1 Hb1 He1.
    destruct (end_store _ _ b1 Hw Hb1) as (b2 & E2 & Hb2 & Hk2 & Hz). exists b2. by split_and!.
  - destruct Hd as [Hl Hr]. eapply (terminated_seq l); [by eapply IHl|]. intros b1 Hb1 He1.
    destruct (IHr _ b1 Hr Hb1) as (b2 & E2 & Hb2 & Hk2 & He2). exists b2. by split_and!.
  - destruct Hd as [Hl Hr]. eapply (terminated_seq l); [by eapply IHl|]. intros b1 Hb1 He1.
    destruct (IHr _ b1 Hr Hb1) as (b2 & E2 & Hb2 & Hk2 & He2). exists b2. by split_and!.
  - by eapply IH.
Qed.

Lemma str_at_word a w b : word_span a w -> cut_up b -> b !! Z.to_nat (snd a) = Some 0 -> str_at b (fst a) = w.
Proof.
  intros (q & -> & Hw & Hall & Hle & _) [Hlen Hb] Hz. cbn [fst snd] in *. unfold str_at. rewrite Nat2Z.id in *.
  apply Forall_and in Hall as [Hword Hnz]. pose proof (lookup_lt_Some _ _ _ Hz).
  assert (Hs : slice q (length w) b = w).
  { rewrite <- Hw at 2. unfold slice. apply list_eq. intros i.
    destruct (decide (i < length w)%nat) as [Hi|Hi].
    - rewrite !lookup_take_lt, !lookup_drop by lia. destruct (lookup_lt_is_Some_2 w i Hi) as [x Hx].
      assert (Hbx : buf !! (q + i)%nat = Some x).
      { rewrite <- Hw in Hx. unfold slice in Hx. by rewrite lookup_take_lt, lookup_drop in Hx by lia. }
      rewrite Hbx. destruct (Hb _ _ Hbx) as [|[Hx' _]]; [done|]. exfalso.
      pose proof (Forall_lookup_1 _ _ _ _ Hword Hx). pose proof (Forall_lookup_1 _ _ _ _ Hnz Hx). simpl in *.
      destruct Hx'; congruence.
    - rewrite !lookup_take_ge by lia. done. }
  rewrite <- (take_drop (length w) (drop q b)). fold (slice q (length w) b). rewrite Hs, drop_drop, (drop_S _ 0) by done.
  by apply cut_app_nul.
Qed.

Lemma cmd_tree_denotes c t b : denotes c t -> cut_up b -> ended c b -> cmd_tree b c = t.
Proof.
  revert t. induction c as [args|c IH file efile mode fd|l IHl r IHr|l IHl r IHr|c IH]; intros t Hd Hb He';
    destruct t as [ws|t w mode' fd'|l' r'|l' r'|t]; simpl in Hd; try done; simpl in *.
  - f_equal. induction Hd as [|a w args ws Ha _ IH]; [done|]. apply Forall_cons in He' as [Hz He'].
    rewrite fmap_cons, IH by done. f_equal. by apply str_at_word.
  - destruct Hd as (Hd & Hw & -> & ->), He' as [He' Hz]. rewrite (IH t) by done. f_equal.
    by apply (str_at_word (file, efile)).
  - destruct Hd, He'. f_equal; auto.
  - destruct Hd, He'. f_equal; auto.
  - f_equal. auto.
Qed.
End Parsing.

(* ------------------------------------------------------------------ *)
(** ** parsecmd *)

Lemma ulib_strlen_loop m p l k fuel :
  cstring m (p + k) l -> (length l < fuel)%nat ->
  strlen_loop fuel (Z.of_nat p) (Z.of_nat k) m = Ok (Z.of_nat (k + length l)) m.
Proof.
  revert k fuel. induction l as [|x l IH]; intros k fuel Hc Hf; (destruct fuel as [|f]; [simpl in Hf; lia|]); cbn [strlen_loop];
    replace (Z.of_nat p + Z.of_nat k) with (Z.of_nat (p + k)) by lia.
  - erewrite bind_Ok by (apply ldb_Ok; by apply cstring_nil). simpl. by rewrite Nat.add_0_r.
  - apply cstring_cons in Hc as (Hx & Hp & Hc). erewrite bind_Ok by (by apply ldb_Ok).
    rewrite (proj2 (Z.eqb_neq _ _) Hx). replace (Z.of_nat k + 1) with (Z.of_nat (S k)) by lia.
    rewrite IH; [f_equal; simpl; lia| |simpl in Hf; lia]. by rewrite Nat.add_succ_r.
Qed.

Lemma ulib_strlen m p l : cstring m p l -> strlen (Z.of_nat p) m = Ok (Z.of_nat (length l)) m.
Proof.
  intros Hc. pose proof (cstring_bound _ _ _ Hc). unfold strlen. erewrite bind_Ok by done.
  apply (ulib_strlen_loop m p l 0); [by rewrite Nat.add_0_r|lia].
Qed.

Section ParseCmd.
Context (buf : mem) (s : nat) (text : list Z) (Hc : cstring buf s text).
Notation e := (s + length text)%nat.

Lemma line_end : buf !! e = Some 0.
Proof.
  destruct Hc as [_ H]. assert (E : slice s (S (length text)) buf !! length text = Some 0).
  { rewrite H. rewrite lookup_app_r, Nat.sub_diag by lia. done. }
  unfold slice in E. by rewrite lookup_take_lt, lookup_drop in E by lia.
Qed.

Lemma before_start : before buf e s (lex [] text).
Proof.
  assert (Et : txt buf e s = text).
  { unfold txt. replace (e - s)%nat with (length text) by lia. destruct Hc as [_ H].
    apply (f_equal (take (length text))) in H. unfold slice in *.
    rewrite take_take, Nat.min_l, take_app_length in H by lia. done. }
  split; [lia|]. rewrite Et. split; [|done]. by destruct Hc.
Qed.

Lemma parseline_cases n :
  (2 * length text < n)%nat ->
  match parseline buf (Z.of_nat e) (parse_fuel buf) (Pst (Z.of_nat s) n) with
  | Good c st => exists p' n' ts' l, st = Pst (Z.of_nat p') n' /\ before buf e p' ts' /\
      line_ok l /\ lex [] text = show_line l ++ ts' /\ denotes buf e c (line_tree l)
  | Exits _ => True
  | _ => False
  end.
Proof.
  intros Hn. pose proof before_start as Hb. pose proof (before_length _ _ _ _ Hb) as Hlb.
  pose proof (lex_length [] text) as Hl. simpl in Hl.
  destruct (parse_outcome buf e line_end (parse_fuel buf)) as [Ho _].
  specialize (Ho s (lex [] text) n Hb ltac:(unfold parse_fuel; lia)). unfold outcome in Ho.
  destruct (parseline _ _ _ _) as [c st| | | |]; [|done|lia|done..].
  destruct Ho as (us & ts' & p' & n' & E & -> & Hb' & _ & l & Hok & -> & Hd). by exists p', n', ts', l.
Qed.

(** What parsecmd() does up to the call of parseline(). *)
Lemma parsecmd_unfold st :
  parsecmd buf (Z.of_nat s) st =
  (c ← parseline buf (Z.of_nat e) (parse_fuel buf);
   _ ← peek buf (Z.of_nat e) "";
   s' ← get_ps;
   if negb (s' =? Z.of_nat e) then
     exits (zs "leftovers: " ++ cut (drop (Z.to_nat s') buf) ++ [10] ++ zs "syntax" ++ [10])
   else r ← on_buf (nulterminate c) buf; mret (c, snd r)) (Pst (Z.of_nat s) (nodes st)).
Proof.
  unfold parsecmd.
  rewrite (P_bind_Good _ _ _ (Z.of_nat (length text), buf) st) by (unfold on_buf; by rewrite (ulib_strlen _ _ _ Hc)).
  cbn [fst snd]. rewrite <- Nat2Z.inj_add. by rewrite (P_bind_Good _ _ _ tt (Pst (Z.of_nat s) (nodes st))).
Qed.

(** What parsecmd() does after parseline() returned. *)
Lemma parsecmd_after c p' n' ts' t st0 :
  parseline buf (Z.of_nat e) (parse_fuel buf) (Pst (Z.of_nat s) (nodes st0)) = Good c (Pst (Z.of_nat p') n') ->
  before buf e p' ts' -> denotes buf e c t ->
  match ts' with
  | [] => exists buf' st', parsecmd buf (Z.of_nat s) st0 = Good (c, buf') st' /\ cmd_tree buf' c = t
  | _ => exists msg, parsecmd buf (Z.of_nat s) st0 = Exits msg
  end.
Proof.
  intros El Hb Hd. rewrite parsecmd_unfold, (P_bind_Good _ _ _ _ _ El).
  destruct (peek_spec buf e line_end "" p' ts' n' eq_refl Hb) as (p1 & Hb1 & Hend & E1).
  rewrite (P_bind_Good _ _ _ _ _ E1), (P_bind_Good _ _ _ (Z.of_nat p1) (Pst (Z.of_nat p1) n')) by done.
  destruct ts' as [|t1 ts'].
  - rewrite (proj2 Hend eq_refl), Z.eqb_refl. cbn [negb].
    assert (Hcut : cut_up buf buf) by (split; auto).
    destruct (nulterminate_spec buf e c t buf Hd Hcut) as (b' & En & Hb' & _ & Hen).
    exists b'. eexists. split.
    + erewrite P_bind_Good by (unfold on_buf; by rewrite En). done.
    + by eapply cmd_tree_denotes.
  - destruct (Z.eqb_spec (Z.of_nat p1) (Z.of_nat e)) as [E|Hne]; [|cbn [negb]; by eexists].
    apply Nat2Z.inj, Hend in E. done.
Qed.
Lemma parsecmd_accepts st l :
  (2 * length text < nodes st)%nat -> line_ok l -> lex [] text = show_line l ->
  exists c buf' st', parsecmd buf (Z.of_nat s) st = Good (c, buf') st' /\ cmd_tree buf' c = line_tree l.
Proof.
  intros Hn Hok El. pose proof (parseline_cases _ Hn) as Hp. destruct (grammar_accept buf e line_end) as (Ha & _ & _).
  specialize (Ha l Hok (parse_fuel buf) s [] (nodes st)). rewrite app_nil_r, <- El in Ha.
  specialize (Ha before_start (or_introl eq_refl)). unfold accepts_as in Ha.
  destruct (parseline _ _ _ _) as [c st1| | | |] eqn:E; try done. destruct Ha as (p' & n' & -> & Hb & Hd).
  destruct (parsecmd_after c p' n' [] (line_tree l) st E Hb Hd) as (b' & st' & H1 & H2). eauto.
Qed.

(** C35. parsecmd() of user/sh.c on a line of any text without NULs, in a
    child with memory for enough nodes: if the tokens of the line are those
    of a line of the grammar, it returns the tree the grammar gives it, its
    words C strings of the buffer it leaves; otherwise it exits with a
    message on file descriptor 2.  It always returns or exits, and never
    reads or writes outside the buffer. *)
Theorem parsecmd_grammar st :
  (2 * length text < nodes st)%nat ->
  (forall l, line_ok l -> lex [] text = show_line l ->
     exists c buf' st', parsecmd buf (Z.of_nat s) st = Good (c, buf') st' /\ cmd_tree buf' c = line_tree l) /\
  ((forall l, line_ok l -> lex [] text <> show_line l) -> exists msg, parsecmd buf (Z.of_nat s) st = Exits msg).
Proof.
  intros Hn. split; [intros l; by apply parsecmd_accepts|]. intros Hno. pose proof (parseline_cases _ Hn) as Hp.
  destruct (parseline _ _ _ _) as [c st1| | | |] eqn:E; try done.
  - destruct Hp as (p' & n' & ts' & l & -> & Hb & Hok & El & Hd).
    pose proof (parsecmd_after c p' n' ts' _ st E Hb Hd) as H.
    destruct ts' as [|]; [|done]. rewrite app_nil_r in El. by destruct (Hno l).
  - eexists. rewrite parsecmd_unfold. unfold mbind, P_bind. by rewrite E.
Qed.
End ParseCmd.

Definition ex_text : list Z := zs "ls -l|(wc; cat <f) >>out &".
Definition ex_line : line :=
  LineEnd (PipeSeq (Simple [] [(zs "ls", []); (zs "-l", [])])
    (PipeEnd (Block (LineSeq (PipeEnd (Simple [] [(zs "wc", [])])) 0
                      (LineEnd (PipeEnd (Simple [] [(zs "cat", [(From, zs "f")])])) 0))
                [(Onto, zs "out")]))) 1.

Lemma parsecmd_grammar_witness :
  exists c buf' st', parsecmd (ex_text ++ [0]) (Z.of_nat 0) (Pst 0 53) = Good (c, buf') st' /\
    cmd_tree buf' c =
      TBack (TPipe (TExec [zs "ls"; zs "-l"])
        (TRedir (TList (TExec [zs "wc"]) (TRedir (TExec [zs "cat"]) (zs "f") 0 0)) (zs "out") 0x201 1)).
Proof.
  assert (Hc : cstring (ex_text ++ [0]) 0 ex_text).
  { split; [vm_compute; repeat constructor; discriminate|vm_compute; reflexivity]. }
  assert (Hn : (2 * length ex_text < nodes (Pst 0 53))%nat) by (vm_compute; lia).
  assert (Hok : line_ok ex_line) by (vm_compute; lia).
  assert (Hl : lex [] ex_text = show_line ex_line) by (vm_compute; reflexivity).
  destruct (parsecmd_grammar (ex_text ++ [0]) 0 ex_text Hc (Pst 0 53) Hn) as [H _].
  destruct (H ex_line Hok Hl) as (c & buf' & st' & H1 & H2). exists c, buf', st'. split; [exact H1|].
  rewrite H2. vm_compute. reflexivity.
Defined.
