(* ===== verification/ShRun.v ===== *)
(** * The shell's plumbing

   The descriptors of the processes runcmd() of user/sh.c makes: close, dup,
   open and pipe on a table of descriptors (the lowest free one is given
   out), fork with a copy of the table, and any call that can fail failing.
   Every program is started with descriptors 0, 1 and 2 only, connected as
   the command line says, and a process that waits has no other descriptors
   either, none of them on a pipe that it made itself. *)

From stdpp Require Import base numbers list strings.
From Stdlib Require Import ZArith Lia.
From S2P Require Import Prelude Params Cmem Ulib Sh ShParse ShGrammar.

(** What a descriptor is open on.  Pipes are numbered in the order they are
    made. *)
Inductive obj : Type :=
| Given (n : Z)
| PipeRd (id : nat)
| PipeWr (id : nat)
| FileOn (path : list Z) (mode : Z).

Notation fds := (list (option obj)).

Fixpoint lowest_free (t : fds) : option nat :=
  match t with
  | [] => None
  | None :: _ => Some 0%nat
  | Some _ :: t' => S <$> lowest_free t'
  end.

Definition fd_close (fd : Z) (t : fds) : fds := <[Z.to_nat fd := None]> t.

Definition fd_dup (fd : Z) (t : fds) : fds :=
  match t !! Z.to_nat fd, lowest_free t with Some (Some o), Some i => <[i := Some o]> t | _, _ => t end.

(** A program started, or a wait(), and the descriptors at that time; for a
    wait() also the pipes that the process has made itself. *)
Inductive event : Type :=
| Started (path : list Z) (argv : list (list Z)) (t : fds)
| Waits (own : list nat) (t : fds).

(** What a process and its children do, and the number of pipes made before
    and after; [own] are the pipes the process made itself.  Calls fail only
    when [sure] is false. *)
Inductive run (sure : bool) : list nat -> nat -> fds -> act -> list event -> nat -> Prop :=
| run_exit own nx t n : run sure own nx t (Exit n) [] nx
| run_fault own nx t : run sure own nx t Fault [] nx
| run_close own nx t fd k es nx' : run sure own nx (fd_close fd t) k es nx' -> run sure own nx t (Close fd k) es nx'
| run_dup own nx t fd k es nx' : run sure own nx (fd_dup fd t) k es nx' -> run sure own nx t (Dup fd k) es nx'
| run_open own nx t path mode k i es nx' :
    lowest_free t = Some i -> run sure own nx (<[i := Some (FileOn path mode)]> t) (k (Z.of_nat i)) es nx' ->
    run sure own nx t (Open path mode k) es nx'
| run_open_fails own nx t path mode k es nx' :
    sure = false -> run sure own nx t (k (-1)) es nx' -> run sure own nx t (Open path mode k) es nx'
| run_exec own nx t path argv k : run sure own nx t (Exec path argv k) [Started path argv t] nx
| run_exec_fails own nx t path argv k es nx' :
    sure = false -> run sure own nx t k es nx' -> run sure own nx t (Exec path argv k) es nx'
| run_fork own nx t k pid es nx1 es' nx' :
    0 < pid -> run sure [] nx t (k 0) es nx1 -> run sure own nx1 t (k pid) es' nx' ->
    run sure own nx t (Fork k) (es ++ es') nx'
| run_fork_fails own nx t k es nx' : sure = false -> run sure own nx t (k (-1)) es nx' -> run sure own nx t (Fork k) es nx'
| run_wait own nx t k es nx' : run sure own nx t k es nx' -> run sure own nx t (Wait k) (Waits own t :: es) nx'
| run_pipe own nx t k i j es nx' :
    lowest_free t = Some i -> lowest_free (<[i := Some (PipeRd nx)]> t) = Some j ->
    run sure (nx :: own) (S nx) (<[j := Some (PipeWr nx)]> (<[i := Some (PipeRd nx)]> t)) (k (Some (Z.of_nat i, Z.of_nat j))) es nx' ->
    run sure own nx t (Pipe k) es nx'
| run_pipe_fails own nx t k es nx' : sure = false -> run sure own nx t (k None) es nx' -> run sure own nx t (Pipe k) es nx'
| run_write own nx t fd s k es nx' : run sure own nx t k es nx' -> run sure own nx t (Write fd s k) es nx'
| run_chdir own nx t path k r es nx' : run sure own nx t (k r) es nx' -> run sure own nx t (Chdir path k) es nx'.

(** A table with descriptors 0, 1 and 2 only. *)
Definition std (i o e : obj) : fds := [Some i; Some o; Some e] ++ replicate (Z.to_nat NOFILE - 3) None.

(** The programs of a command and the waits of the processes that run it,
    each process's own events after those of the children it forked
    before. *)
Fixpoint plumb (t : tree) (i o e : obj) (nx : nat) : list event * nat :=
  match t with
  | TExec [] => ([], nx)
  | TExec ((w :: _) as argv) => ([Started w argv (std i o e)], nx)
  | TRedir t file mode fd =>
      if fd =? 0 then plumb t (FileOn file mode) o e nx else plumb t i (FileOn file mode) e nx
  | TPipe l r =>
      let '(es1, nx1) := plumb l i (PipeWr nx) e (S nx) in
      let '(es2, nx2) := plumb r (PipeRd nx) o e nx1 in
      (es1 ++ es2 ++ [Waits [nx] (std i o e); Waits [nx] (std i o e)], nx2)
  | TList l r =>
      let '(es1, nx1) := plumb l i o e nx in
      let '(es2, nx2) := plumb r i o e nx1 in
      (es1 ++ Waits [] (std i o e) :: es2, nx2)
  | TBack t => plumb t i o e nx
  end.

(** The pipe a descriptor is on, and that it is one made before. *)
Definition pipe_of (x : obj) : option nat :=
  match x with PipeRd p | PipeWr p => Some p | _ => None end.
Definition below (nx : nat) (x : obj) : Prop := forall p, pipe_of x = Some p -> (p < nx)%nat.

(** Only descriptors 0, 1 and 2, and at a wait() none of them on a pipe of
    the process's own. *)
Definition std_event (ev : event) : Prop :=
  match ev with
  | Started _ _ t => exists i o e, t = std i o e
  | Waits own t => exists i o e, t = std i o e /\ forall x p, x ∈ [i; o; e] -> pipe_of x = Some p -> p ∉ own
  end.

(** Redirections are of descriptor 0 or 1. *)
Fixpoint tree_ok (t : tree) : Prop :=
  match t with
  | TExec _ => True
  | TRedir t _ _ fd => (fd = 0 \/ fd = 1) /\ tree_ok t
  | TPipe l r | TList l r => tree_ok l /\ tree_ok r
  | TBack t => tree_ok t
  end.

(* ------------------------------------------------------------------ *)
(** ** Lemmas *)

Lemma run_write_inv sure own nx t fd s k es nx' : run sure own nx t (Write fd s k) es nx' -> run sure own nx t k es nx'.
Proof. by inversion 1. Qed.
Lemma run_exit_inv sure own nx t n es nx' : run sure own nx t (Exit n) es nx' -> es = [] /\ nx' = nx.
Proof. by inversion 1. Qed.
Lemma run_close_inv sure own nx t fd k es nx' : run sure own nx t (Close fd k) es nx' -> run sure own nx (fd_close fd t) k es nx'.
Proof. by inversion 1. Qed.
Lemma run_dup_inv sure own nx t fd k es nx' : run sure own nx t (Dup fd k) es nx' -> run sure own nx (fd_dup fd t) k es nx'.
Proof. by inversion 1. Qed.
Lemma run_wait_inv sure own nx t k es nx' :
  run sure own nx t (Wait k) es nx' -> exists es', es = Waits own t :: es' /\ run sure own nx t k es' nx'.
Proof. inversion 1; subst. eauto. Qed.

Lemma run_panic_inv sure own nx t s es nx' : run sure own nx t (panic_act s) es nx' -> es = [] /\ nx' = nx.
Proof. intros H%run_write_inv. by apply run_exit_inv in H. Qed.

Lemma run_fork1_inv sure own nx t k es nx' :
  run sure own nx t (fork1 k) es nx' ->
  (sure = false /\ es = []) \/
  exists pid es1 nx1 es2, 0 < pid /\ run sure [] nx t (k 0) es1 nx1 /\ run sure own nx1 t (k pid) es2 nx' /\ es = es1 ++ es2.
Proof.
  inversion 1 as [| | | | | | | |? ? ? ? pid es1 nx1 es2 ? Hpid H1 H2|? ? ? ? ? ? Hs H1| | | | |]; subst.
  - right. exists pid, es1, nx1, es2. cbn in H1. rewrite (proj2 (Z.eqb_neq pid (-1))) in H2 by lia. done.
  - left. by apply run_panic_inv in H1 as [-> _].
Qed.

(** Pipes are only made. *)
Lemma run_mono sure own nx t a es nx' : run sure own nx t a es nx' -> (nx <= nx')%nat.
Proof. induction 1; lia. Qed.

Lemma below_mono nx nx' x : (nx <= nx')%nat -> below nx x -> below nx' x.
Proof. intros Hle Hb p Hp. specialize (Hb p Hp). lia. Qed.

Lemma waits_fresh own i o e : (forall x p, x ∈ [i; o; e] -> pipe_of x = Some p -> p ∉ own) -> std_event (Waits own (std i o e)).
Proof. intros Hx. by exists i, o, e. Qed.

Definition plumbs_as (sure : bool) (k : list event * nat) (es : list event) (nx' : nat) : Prop :=
  Forall std_event es /\ (sure = true -> k = (es, nx')).

(** A process that stopped after a call failed. *)
Ltac gave_up := split; [constructor|congruence].

Section Runcmd.
Context (sure : bool) (buf : mem).

(** runcmd() on a command, in a process that has made no pipe, with any
    descriptors 0, 1 and 2. *)
Definition plumbed (c : cmd) : Prop := forall i o e nx es nx',
  tree_ok (cmd_tree buf c) -> below nx i -> below nx o -> below nx e ->
  run sure [] nx (std i o e) (runcmd buf c) es nx' ->
  plumbs_as sure (plumb (cmd_tree buf c) i o e nx) es nx'.

Lemma exec_plumbed args : plumbed (EXEC args).
Proof.
  intros i o e nx es nx' _ _ _ _ Hr. destruct args as [|[p q] args].
  { apply run_exit_inv in Hr as [-> ->]. by split; [constructor|]. }
  inversion Hr as [| | | | | | |? ? ? ? ? ? ? ? Hs H1| | | | | | |]; subst.
  - split; [|done]. constructor; [by exists i, o, e|constructor].
  - apply run_write_inv, run_exit_inv in H1 as [-> _]. gave_up.
Qed.

Lemma redir_plumbed c file efile mode fd : plumbed c -> plumbed (REDIR c file efile mode fd).
Proof.
  intros IH i o e nx es nx' [Hfd Hok] Hi Ho He Hr. cbn [runcmd cmd_tree plumb] in *. apply run_close_inv in Hr.
  inversion Hr as [| | | |? ? ? ? ? ? j ? ? Hj H1|? ? ? ? ? ? ? ? Hs H1| | | | | | | | |]; subst.
  - rewrite (proj2 (Z.ltb_ge (Z.of_nat j) 0)) in H1 by lia.
    destruct Hfd as [-> | ->]; simpl in Hj; injection Hj as <-; by apply IH.
  - apply run_write_inv, run_exit_inv in H1 as [-> _]. gave_up.
Qed.

Lemma list_plumbed l r : plumbed l -> plumbed r -> plumbed (LIST l r).
Proof.
  intros IHl IHr i o e nx es nx' [Hl Hr'] Hi Ho He Hr. cbn [runcmd cmd_tree plumb] in *.
  apply run_fork1_inv in Hr as [[Hs ->]|(pid & es1 & nx1 & es2 & Hpid & H1 & H2 & ->)]; [gave_up|].
  cbn in H1. rewrite (proj2 (Z.eqb_neq pid 0)) in H2 by lia. apply run_wait_inv in H2 as (es3 & -> & H2).
  pose proof (run_mono _ _ _ _ _ _ _ H1) as Hm.
  apply IHl in H1 as [F1 P1]; [|done..]. apply IHr in H2 as [F2 P2]; [|first [done|by eapply below_mono]..]. split.
  - apply Forall_app. split; [done|]. constructor; [|done]. apply waits_fresh. intros. apply not_elem_of_nil.
  - intros Hs. by rewrite (P1 Hs), (P2 Hs).
Qed.

Lemma pipe_plumbed l r : plumbed l -> plumbed r -> plumbed (PIPE l r).
Proof.
  intros IHl IHr i o e nx es nx' [Hl Hr'] Hbi Hbo Hbe Hr. cbn [runcmd cmd_tree plumb] in *.
  inversion Hr as [| | | | | | | | | | |? ? ? ? i1 j1 ? ? Hi Hj H|? ? ? ? ? ? Hs H| |]; subst.
  2:{ apply run_panic_inv in H as [-> _]. gave_up. }
  simpl in Hi. injection Hi as <-. simpl in Hj. injection Hj as <-. clear Hr. cbn iota in H.
  apply run_fork1_inv in H as [[Hs ->]|(pid & es1 & nx1 & es2 & Hpid & H1 & H2 & ->)]; [gave_up|].
  cbn [Z.eqb] in H1. do 4 first [apply run_close_inv in H1 | apply run_dup_inv in H1].
  pose proof (run_mono _ _ _ _ _ _ _ H1) as Hm1.
  assert (forall n x, (nx <= n)%nat -> below nx x -> below n x) as Hbm by eauto using below_mono.
  assert (forall n, (S nx <= n)%nat -> below n (PipeRd nx) /\ below n (PipeWr nx)) as Hbn by (intros n Hn; split; intros p [= <-]; lia).
  apply (IHl i (PipeWr nx) e) in H1 as [F1 P1]; [|done|auto with lia|by apply Hbn|auto with lia].
  rewrite (proj2 (Z.eqb_neq pid 0)) in H2 by lia.
  apply run_fork1_inv in H2 as [[Hs ->]|(pid2 & es3 & nx3 & es4 & Hpid2 & H3 & H4 & ->)].
  { split; [by rewrite app_nil_r|congruence]. }
  cbn [Z.eqb] in H3. do 4 first [apply run_close_inv in H3 | apply run_dup_inv in H3].
  apply (IHr (PipeRd nx) o e) in H3 as [F3 P3]; [|done|by apply Hbn|auto with lia..].
  rewrite (proj2 (Z.eqb_neq pid2 0)) in H4 by lia.
  do 2 apply run_close_inv in H4. apply run_wait_inv in H4 as (es5 & -> & H4).
  apply run_wait_inv in H4 as (es6 & -> & H4). apply run_exit_inv in H4 as [-> ->]. split.
  - assert (std_event (Waits [nx] (std i o e))) as Hw.
    { apply waits_fresh. intros x p Hx Hp ->%list_elem_of_singleton.
      assert (below nx x) as Hb by (rewrite !elem_of_cons, elem_of_nil in Hx; destruct Hx as [->|[->|[->|[]]]]; done). specialize (Hb nx Hp). lia. }
    apply Forall_app. split; [done|]. apply Forall_app. split; [done|]. constructor; [exact Hw|]. constructor; [exact Hw|constructor].
  - intros Hs. by rewrite (P1 Hs), (P3 Hs).
Qed.

Lemma back_plumbed c : plumbed c -> plumbed (BACK c).
Proof.
  intros IH i o e nx es nx' Hok Hi Ho He Hr. cbn [runcmd cmd_tree plumb] in *.
  apply run_fork1_inv in Hr as [[Hs ->]|(pid & es1 & nx1 & es2 & Hpid & H1 & H2 & ->)]; [gave_up|].
  cbn in H1. rewrite (proj2 (Z.eqb_neq pid 0)) in H2 by lia. apply run_exit_inv in H2 as [-> ->].
  rewrite app_nil_r. by apply IH.
Qed.

Lemma runcmd_plumbed c : plumbed c.
Proof. induction c; auto using exec_plumbed, redir_plumbed, list_plumbed, pipe_plumbed, back_plumbed. Qed.
End Runcmd.

(* ------------------------------------------------------------------ *)
(** ** Command lines *)

Lemma wrap_ok rs t : tree_ok t -> tree_ok (wrap rs t).
Proof.
  induction rs as [|[o w] rs IH] using rev_ind; [done|]. intros Ht. unfold wrap in *. rewrite foldl_app. simpl.
  split; [destruct o; auto|auto].
Qed.

Lemma iter_back_ok k t : tree_ok t -> tree_ok (Nat.iter k TBack t).
Proof. intros. by induction k. Qed.

Lemma line_tree_ok :
  (forall l, tree_ok (line_tree l)) /\ (forall p, tree_ok (pipe_tree p)) /\ (forall el, tree_ok (element_tree el)).
Proof.
  apply grammar_ind; simpl; auto using iter_back_ok, wrap_ok. intros rs args. by apply wrap_ok.
Qed.

Lemma runs_fork1 own nx t k es1 nx1 es2 nx2 :
  run true [] nx t (k 0) es1 nx1 -> run true own nx1 t (k 1) es2 nx2 -> run true own nx t (fork1 k) (es1 ++ es2) nx2.
Proof. intros. by apply (run_fork true own nx t _ 1 _ nx1). Qed.

(** When no call fails, the command runs. *)
Lemma runcmd_runs buf c i o e nx :
  tree_ok (cmd_tree buf c) -> exists es nx', run true [] nx (std i o e) (runcmd buf c) es nx'.
Proof.
  revert i o e nx. induction c as [args|c IH file efile mode fd|l IHl r IHr|l IHl r IHr|c IH];
    intros i o e nx Hok; cbn [runcmd cmd_tree tree_ok] in *.
  - destruct args as [|[p q] args]; eexists _, _; constructor.
  - destruct Hok as [Hfd Hok].
    destruct Hfd as [-> | ->]; [destruct (IH (FileOn (str_at buf file) mode) o e nx Hok) as (es & nx' & H)
                             |destruct (IH i (FileOn (str_at buf file) mode) e nx Hok) as (es & nx' & H)];
      exists es, nx'; constructor; by eapply run_open.
  - destruct Hok as [Hl Hr]. destruct (IHl i (PipeWr nx) e (S nx) Hl) as (es1 & nx1 & H1).
    destruct (IHr (PipeRd nx) o e nx1 Hr) as (es2 & nx2 & H2). eexists _, _.
    eapply run_pipe; [done..|]. eapply runs_fork1; [by do 4 constructor|].
    eapply runs_fork1; [by do 4 constructor|]. repeat constructor.
  - destruct Hok as [Hl Hr]. destruct (IHl i o e nx Hl) as (es1 & nx1 & H1).
    destruct (IHr i o e nx1 Hr) as (es2 & nx2 & H2). eexists _, _. eapply runs_fork1; [done|]. by constructor.
  - destruct (IH i o e nx Hok) as (es & nx' & H). eexists _, _. eapply runs_fork1; [done|]. constructor.
Qed.

(** C36. The child that the shell forks for a line of the grammar, started
    with descriptors 0, 1 and 2 open.  Whichever of its calls fail, every
    program started has descriptors 0, 1 and 2 and no other; and so has every
    process that waits for its children, none of the three being an end of a
    pipe that it made itself.  When no call fails, the programs started are
    those of the line, each with its words and with 0 and 1 connected to the
    files and the pipes that the line says, and the processes that wait do so
    with the descriptors their own part of the line was given. *)
Theorem run_line_plumbing buf s text l n i o e nx :
  cstring buf s text -> line_ok l -> lex [] text = show_line l -> (2 * length text < n)%nat ->
  below nx i -> below nx o -> below nx e ->
  (forall sure es nx', run sure [] nx (std i o e) (run_line buf (Z.of_nat s) n) es nx' -> Forall std_event es) /\
  (exists es nx', run true [] nx (std i o e) (run_line buf (Z.of_nat s) n) es nx') /\
  (forall es nx', run true [] nx (std i o e) (run_line buf (Z.of_nat s) n) es nx' ->
     (es, nx') = plumb (line_tree l) i o e nx).
Proof.
  intros Hc Hok Hlex Hn Hi Ho He.
  destruct (parsecmd_accepts buf s text Hc (Pst 0 n) l) as (c & buf' & st' & Ep & Et); [done..|].
  assert (Htree : tree_ok (cmd_tree buf' c)) by (rewrite Et; apply line_tree_ok).
  unfold run_line. rewrite Ep. split; [|split].
  - intros sure es nx' H. by apply runcmd_plumbed in H as [HF _].
  - by apply runcmd_runs.
  - intros es nx' H. rewrite <- Et. apply runcmd_plumbed in H as [_ HP]; [|done..]. by rewrite HP.
Qed.

Lemma run_line_plumbing_witness :
  let text := zs "a <f|b" in let t := std (Given 0) (Given 0) (Given 0) in
  exists es nx', run true [] 0 t (run_line (text ++ [0]) (Z.of_nat 0) 20) es nx' /\
    es = [Started (zs "a") [zs "a"] (std (FileOn (zs "f") 0) (PipeWr 0) (Given 0));
          Started (zs "b") [zs "b"] (std (PipeRd 0) (Given 0) (Given 0)); Waits [0%nat] t; Waits [0%nat] t].
Proof.
  destruct (run_line_plumbing (zs "a <f|b" ++ [0]) 0 (zs "a <f|b")
    (LineEnd (PipeSeq (Simple [] [(zs "a", [(From, zs "f")])]) (PipeEnd (Simple [] [(zs "b", [])]))) 0)
    20 (Given 0) (Given 0) (Given 0) 0) as (_ & (es & nx' & H) & Hp).
  - split; [vm_compute; repeat constructor; discriminate|vm_compute; reflexivity].
  - vm_compute. lia.
  - vm_compute. reflexivity.
  - vm_compute. lia.
  - by intros p.
  - by intros p.
  - by intros p.
  - exists es, nx'. split; [exact H|]. specialize (Hp es nx' H). injection Hp as Hp _. exact Hp.
Defined.

(* ------------------------------------------------------------------ *)
(** ** The loop of main() *)

(** main() takes the last byte of a cd line to be the newline: a last line
    without one, or a line cut at 99 bytes, loses a byte of its path. *)
Theorem cd_without_newline :
  exists buf', dispatch (zs "cd ab" ++ replicate 95 0) = Ok (Cd (zs "a")) buf'.
Proof. eexists. vm_compute. reflexivity. Qed.

(** A line of more than 99 bytes is run as two: here the rest of a command
    line is a command of its own. *)
Theorem long_line_splits :
  exists buf', getcmd (replicate 99 32 ++ zs "rm f" ++ [10]) (replicate 100 0) = Ok (0, zs "rm f" ++ [10]) buf'.
Proof. eexists. vm_compute. reflexivity. Qed.
