(* ===== verification/Kalloc.v ===== *)
(** * kernel/kalloc.c

   Physical memory is a map from page addresses to pages of PGSIZE bytes.
   The free list runs through the first eight bytes of the free pages, as in
   the code.  The linker's [end] is a parameter. *)

From stdpp Require Import base numbers list gmap sets strings.
From Stdlib Require Import ZArith Lia.
From S2P Require Import Prelude Params.

Record kmem := Kmem {
  km_lock : bool;
  km_freelist : Z;                 (* 0 is the null pointer *)
  km_mem : gmap Z (list Z)         (* the RAM, page by page *)
}.

Definition set_freelist (r : Z) (s : kmem) : kmem := Kmem (km_lock s) r (km_mem s).
Definition set_mem (f : gmap Z (list Z) -> gmap Z (list Z)) (s : kmem) : kmem :=
  Kmem (km_lock s) (km_freelist s) (f (km_mem s)).
Definition L_km_lock : lens kmem bool := Lens km_lock (fun b s => Kmem b (km_freelist s) (km_mem s)).

(** ** Accesses to physical memory *)

Definition page_bytes : nat := Z.to_nat PGSIZE.
#[global] Arguments page_bytes : simpl never.
#[global] Arguments ld64 : simpl never.
#[global] Arguments st64 : simpl never.
#[global] Arguments PHYSTOP : simpl never.

Definition page_of (pa : Z) : Z := pa - pa mod PGSIZE.
Definition page_off (pa : Z) : nat := Z.to_nat (pa mod PGSIZE).

Definition get_page (pa : Z) : M kmem (list Z) := fun s =>
  match km_mem s !! page_of pa with
  | Some p => Ok p s
  | None => ub "physical address" s
  end.

(** Loads and stores of an aligned 64-bit word; both stay in one page. *)
Definition rd64 (a : Z) : M kmem Z := let* p := get_page a in ret (ld64 (page_off a) p).
Definition wr64 (a v : Z) : M kmem unit :=
  let* p := get_page a in modify (set_mem <[page_of a := st64 (page_off a) v p]>).

(** memset(pa, c, PGSIZE) of a page *)
Definition memset_page (pa c : Z) : M kmem unit :=
  let* _ := get_page pa in modify (set_mem <[pa := replicate (page_bytes) (u8 c)]>).

(** ** The allocator *)

Section ops.
Context (kend : Z).

Definition kfree (pa : Z) : M kmem unit :=
  if negb (pa mod PGSIZE =? 0) || (pa <? kend) || (pa >=? PHYSTOP) then panic "kfree"
  else
    memset_page pa 1 ;;
    lock_acquire L_km_lock ;;
    let* next := gets km_freelist in
    wr64 pa next ;;
    modify (set_freelist pa) ;;
    lock_release L_km_lock.

Definition kalloc : M kmem Z :=
  lock_acquire L_km_lock ;;
  let* r := gets km_freelist in
  (if negb (r =? 0) then let* next := rd64 r in modify (set_freelist next) else ret tt) ;;
  lock_release L_km_lock ;;
  (if negb (r =? 0) then memset_page r 5 else ret tt) ;;
  ret r.

(** for(; p + PGSIZE <= pa_end; p += PGSIZE) kfree(p); the range bounds the
    iterations. *)
Fixpoint freerange_loop (fuel : nat) (p pa_end : Z) : M kmem unit :=
  if p + PGSIZE <=? pa_end then
    match fuel with
    | O => diverge
    | S f => kfree p ;; freerange_loop f (p + PGSIZE) pa_end
    end
  else ret tt.
Definition freerange (pa_start pa_end : Z) : M kmem unit :=
  freerange_loop (Z.to_nat ((pa_end - PGROUNDUP pa_start) / PGSIZE)) (PGROUNDUP pa_start) pa_end.

Definition kinit : M kmem unit :=
  modify (lset L_km_lock false) ;; freerange kend PHYSTOP.

End ops.

(* ------------------------------------------------------------------ *)
(** ** The free list *)

Definition aligned (a : Z) : Prop := a mod PGSIZE = 0.
Definition is_page (p : list Z) : Prop := length p = page_bytes /\ Forall byte p.

Lemma page_bytes_8 : (0 + 8 <= page_bytes)%nat.
Proof. apply Nat.leb_le. vm_compute. reflexivity. Qed.
Lemma page_bytes_Z : Z.of_nat page_bytes = PGSIZE.
Proof. vm_compute. reflexivity. Qed.
#[global] Opaque page_bytes.

(** [l] is the chain of pages from [head]. *)
Fixpoint chain (m : gmap Z (list Z)) (head : Z) (l : list Z) : Prop :=
  match l with
  | [] => head = 0
  | p :: l' => head = p /\ p <> 0 /\ exists pg, m !! p = Some pg /\ chain m (ld64 0 pg) l'
  end.

(** Every page of RAM is a whole page. *)
Definition ram_ok (m : gmap Z (list Z)) : Prop :=
  forall a p, m !! a = Some p -> aligned a /\ 0 <= a < 2 ^ 64 /\ is_page p.

Record free_ok (kend : Z) (s : kmem) (l : list Z) : Prop := {
  fr_lock : km_lock s = false;
  fr_ram : ram_ok (km_mem s);
  fr_chain : chain (km_mem s) (km_freelist s) l;
  fr_nodup : NoDup l;
  fr_range : forall p, p ∈ l -> aligned p /\ kend <= p < PHYSTOP
}.

Lemma page_of_aligned a : aligned a -> page_of a = a.
Proof. unfold aligned, page_of. lia. Qed.
Lemma page_off_aligned a : aligned a -> page_off a = 0%nat.
Proof. unfold aligned, page_off. by intros ->. Qed.

Lemma chain_frame m m' h l :
  (forall p, p ∈ l -> m' !! p = m !! p) -> chain m h l -> chain m' h l.
Proof.
  revert h. induction l as [|p l IH]; intros h Hf; simpl; [done|].
  intros (-> & Hp & pg & Hpg & Hc). split; [done|]. split; [done|]. exists pg.
  rewrite Hf by set_solver. split; [done|]. apply IH; [|done]. intros q Hq. apply Hf. set_solver.
Qed.

Lemma is_page_fill c : is_page (replicate (page_bytes) (u8 c)).
Proof.
  split; [apply length_replicate|]. apply Forall_replicate. apply u8_range.
Qed.

Lemma is_page_st64 off v p : is_page p -> is_page (st64 off v p).
Proof. intros [Hl Hb]. split; [unfold st64; by rewrite length_le_put|by apply le_put_byte]. Qed.

Lemma ram_insert m a p : ram_ok m -> aligned a -> 0 <= a < 2 ^ 64 -> is_page p -> ram_ok (<[a := p]> m).
Proof.
  intros Hr Ha Hb Hp a' p'. destruct (decide (a' = a)) as [->|].
  - rewrite lookup_insert_eq. by intros [= <-].
  - rewrite lookup_insert_ne by done. apply Hr.
Qed.

Lemma get_page_Ok s a p : km_mem s !! page_of a = Some p -> get_page a s = Ok p s.
Proof. intros H. unfold get_page. by rewrite H. Qed.

Section specs.
Context (kend : Z) (Hend : 0 < kend).

(** kfree() of a page that is not free puts it in front of the list. *)
Lemma kfree_spec s l pa :
  free_ok kend s l -> aligned pa -> kend <= pa < PHYSTOP -> is_Some (km_mem s !! pa) -> pa ∉ l ->
  exists s', kfree kend pa s = Ok tt s' /\ free_ok kend s' (pa :: l) /\
    (forall a, a <> pa -> km_mem s' !! a = km_mem s !! a) /\ is_Some (km_mem s' !! pa).
Proof.
  intros [Hlk Hram Hch Hnd Hrg] Hal Hr [pg Hpg] Hnin. unfold kfree.
  rewrite Hal, (proj2 (Z.ltb_ge pa kend)), Z.geb_leb, (proj2 (Z.leb_gt PHYSTOP pa)) by lia. simpl.
  unfold memset_page. erewrite (bind_Ok (let* _ := get_page pa in _)).
  2: { erewrite bind_Ok by (apply get_page_Ok; by rewrite page_of_aligned). reflexivity. }
  set (fill := replicate _ _). unfold bind at 1, lock_acquire. simpl. rewrite Hlk. simpl.
  unfold bind at 1, gets at 1. simpl. unfold wr64. erewrite (bind_Ok (let* p := get_page pa in _)).
  2: { erewrite bind_Ok by (apply get_page_Ok; simpl; rewrite page_of_aligned by done; apply lookup_insert_eq).
       reflexivity. }
  eexists. split; [reflexivity|]. rewrite page_of_aligned, page_off_aligned by done. simpl.
  assert (0 <= pa < 2 ^ 64) as H64 by (apply Hram in Hpg; tauto).
  assert (is_page fill) as Hfill by apply is_page_fill.
  rewrite insert_insert_eq. split; [split; simpl|].
  - done.
  - apply ram_insert; [done|done|done|by apply is_page_st64].
  - split; [done|]. split; [lia|]. eexists. split; [apply lookup_insert_eq|].
    rewrite ld64_st64 by (destruct Hfill as [-> _]; apply page_bytes_8).
    assert (u64 (km_freelist s) = km_freelist s) as ->.
    { destruct l as [|q l]; simpl in Hch; [by rewrite Hch|]. destruct Hch as (-> & _ & qg & Hq & _).
      apply u64_small. apply Hram in Hq. tauto. }
    apply (chain_frame (km_mem s)); [|done]. intros p Hp. apply lookup_insert_ne. set_solver.
  - by constructor.
  - intros p [->|Hp]%elem_of_cons; [done|by apply Hrg].
  - split; [|rewrite lookup_insert_eq; by eexists]. intros a Ha. by rewrite lookup_insert_ne.
Qed.

(** kalloc() takes the first free page, or returns 0 when there is none. *)
Lemma kalloc_spec s l :
  free_ok kend s l ->
  match l with
  | [] => exists s', kalloc s = Ok 0 s' /\ free_ok kend s' [] /\ km_mem s' = km_mem s
  | p :: l' => exists s', kalloc s = Ok p s' /\ free_ok kend s' l' /\ p ∉ l' /\
      aligned p /\ kend <= p < PHYSTOP /\
      km_mem s' = <[p := replicate (page_bytes) (u8 5)]> (km_mem s)
  end.
Proof.
  destruct s as [lk fl m]. intros [Hlk Hram Hch Hnd Hrg]. simpl in *. subst lk. destruct l as [|p l]; simpl in Hch.
  - subst fl. eexists. split; [reflexivity|]. split; [|done]. split; try done.
  - destruct Hch as (-> & Hp0 & pg & Hpg & Hch). apply NoDup_cons in Hnd as [Hnin Hnd].
    destruct (Hrg p) as [Hal Hpr]; [set_solver|]. destruct (Hram _ _ Hpg) as (_ & H64 & Hpage).
    unfold kalloc, bind at 1, lock_acquire. simpl. unfold bind at 1, gets at 1. simpl.
    rewrite (proj2 (Z.eqb_neq p 0)) by done. simpl.
    erewrite (bind_Ok (let* next := rd64 p in _)).
    2: { unfold rd64. erewrite bind_Ok.
         2: { erewrite bind_Ok by (apply get_page_Ok; simpl; by rewrite page_of_aligned). reflexivity. }
         reflexivity. }
    rewrite page_off_aligned by done. unfold bind at 1, lock_release. simpl.
    unfold memset_page. erewrite (bind_Ok (let* _ := get_page p in _)).
    2: { erewrite bind_Ok by (apply get_page_Ok; simpl; by rewrite page_of_aligned). reflexivity. }
    eexists. split; [reflexivity|]. split; [|done]. split; simpl.
    + done.
    + apply ram_insert; [done|done|done|apply is_page_fill].
    + apply (chain_frame m); [|done]. intros q Hq. apply lookup_insert_ne. set_solver.
    + done.
    + intros q Hq. apply Hrg. set_solver.
Qed.

End specs.

(* ------------------------------------------------------------------ *)
(** ** Booting the allocator *)

(** The whole pages from [a] up to [b]. *)
Definition pages (a b : Z) : list Z :=
  map (fun i => a + Z.of_nat i * PGSIZE) (seq 0 (Z.to_nat ((b - a) / PGSIZE))).

Lemma elem_of_pages a b p :
  p ∈ pages a b <-> exists i, 0 <= i < (b - a) / PGSIZE /\ p = a + i * PGSIZE.
Proof.
  unfold pages. rewrite list_elem_of_fmap. split.
  - intros (i & -> & Hi%elem_of_seq). exists (Z.of_nat i). split; [lia|done].
  - intros (i & Hi & ->). exists (Z.to_nat i). split; [by rewrite Z2Nat.id by lia|]. apply elem_of_seq. lia.
Qed.

Lemma pages_cons a b : a + PGSIZE <= b -> pages a b = a :: pages (a + PGSIZE) b.
Proof.
  intros H. unfold pages.
  assert ((b - a) / PGSIZE = (b - (a + PGSIZE)) / PGSIZE + 1 /\ 0 <= (b - (a + PGSIZE)) / PGSIZE) as [-> ?]
    by (unfold PGSIZE in *; divlia).
  rewrite Z2Nat.inj_add, Nat.add_comm by lia.
  simpl. f_equal; [lia|]. rewrite <- fmap_S_seq. rewrite <- list_fmap_compose.
  apply list_fmap_ext. intros i x _. simpl. unfold PGSIZE. lia.
Qed.

Lemma pages_nil a b : ~ a + PGSIZE <= b -> pages a b = [].
Proof.
  intros H. unfold pages. replace (Z.to_nat ((b - a) / PGSIZE)) with 0%nat; [done|].
  unfold PGSIZE in *. destruct (decide (b < a)); divlia.
Qed.

Section boot.
Context (kend : Z) (Hend : 0 < kend).

(** Every page the loop meets exists and is not free yet. *)
Lemma freerange_loop_spec fuel p pa_end s l :
  free_ok kend s l -> aligned p -> kend <= p -> pa_end <= PHYSTOP ->
  (Z.to_nat ((pa_end - p) / PGSIZE) <= fuel)%nat ->
  (forall q, q ∈ pages p pa_end -> is_Some (km_mem s !! q) /\ q ∉ l) ->
  exists s', freerange_loop kend fuel p pa_end s = Ok tt s' /\
    free_ok kend s' (reverse (pages p pa_end) ++ l) /\
    (forall a, a ∉ pages p pa_end -> km_mem s' !! a = km_mem s !! a) /\
    (forall a, is_Some (km_mem s !! a) -> is_Some (km_mem s' !! a)).
Proof.
  revert p s l. induction fuel as [|fuel IH]; intros p s l Hok Hal Hp He Hf Hq; simpl;
    destruct (Z.leb_spec (p + PGSIZE) pa_end) as [Hle|Hgt].
  2,4: rewrite pages_nil by lia; simpl; exists s; naive_solver.
  1: unfold PGSIZE in *; exfalso; divlia.
  rewrite pages_cons in Hq |- * by lia.
  destruct (Hq p) as [Hpm Hpl]; [set_solver|].
  destruct (kfree_spec kend Hend s l p Hok Hal) as (s1 & E1 & Hok1 & Hm1 & Hs1);
    [unfold PGSIZE in *; lia|done|done|].
  erewrite bind_Ok by done.
  assert (forall q, q ∈ pages (p + PGSIZE) pa_end -> q <> p) as Hne.
  { intros q (i & Hi & ->)%elem_of_pages. unfold PGSIZE in *. lia. }
  destruct (IH (p + PGSIZE) s1 (p :: l)) as (s2 & E2 & Hok2 & Hm2 & Hs2).
  - done.
  - unfold aligned, PGSIZE in *. divlia.
  - unfold PGSIZE. lia.
  - done.
  - unfold PGSIZE in *. divlia.
  - intros q Hqp. specialize (Hne q Hqp). rewrite Hm1 by done. split; [apply Hq|]; [set_solver|].
    apply not_elem_of_cons. split; [done|]. apply Hq. set_solver.
  - exists s2. split; [done|]. rewrite reverse_cons, <- app_assoc. simpl. split; [done|]. split.
    + intros a Ha. rewrite Hm2, Hm1 by set_solver. done.
    + intros a Ha. apply Hs2. destruct (decide (a = p)) as [->|]; [done|by rewrite Hm1].
Qed.

(** kinit() frees every whole page between the kernel and PHYSTOP. *)
Lemma kinit_spec m lk :
  kend < PHYSTOP -> ram_ok m ->
  (forall q, q ∈ pages (PGROUNDUP kend) PHYSTOP -> is_Some (m !! q)) ->
  exists s', kinit kend (Kmem lk 0 m) = Ok tt s' /\
    free_ok kend s' (reverse (pages (PGROUNDUP kend) PHYSTOP)).
Proof.
  intros Hk Hr Hq. destruct (PGROUNDUP_aligned kend) as [Ha Hb]; [lia|unfold PGSIZE, PHYSTOP, KERNBASE in *; lia|].
  unfold kinit. erewrite bind_Ok by reflexivity. unfold freerange.
  destruct (freerange_loop_spec (Z.to_nat ((PHYSTOP - PGROUNDUP kend) / PGSIZE)) (PGROUNDUP kend) PHYSTOP
    (Kmem false 0 m) []) as (s' & E & Hok & _); try done; [|lia| |].
  - split; try done; [constructor|]. intros p Hp. by apply not_elem_of_nil in Hp.
  - intros q Hin. split; [by apply Hq|apply not_elem_of_nil].
  - exists s'. rewrite app_nil_r in Hok. done.
Qed.

End boot.

(* ------------------------------------------------------------------ *)
(** ** Callers of the allocator

   A sequence of calls, with the pages the callers hold.  A caller frees
   only a page it was given. *)

Inductive kcall := CAlloc | CFree (i : nat).

Fixpoint run_calls (kend : Z) (cs : list kcall) (held : list Z) : M kmem (list Z) :=
  match cs with
  | [] => ret held
  | CAlloc :: cs' =>
      let* p := kalloc in run_calls kend cs' (if p =? 0 then held else p :: held)
  | CFree i :: cs' =>
      match held !! i with
      | Some p => kfree kend p ;; run_calls kend cs' (delete i held)
      | None => run_calls kend cs' held
      end
  end.

(** Held and free pages partition the pages kinit() was given. *)
Definition partition (kend : Z) (held l : list Z) : Prop :=
  held ++ l ≡ₚ pages (PGROUNDUP kend) PHYSTOP.

Lemma NoDup_pages a b : NoDup (pages a b).
Proof.
  unfold pages. apply NoDup_fmap_2; [|apply NoDup_seq]. intros i j. unfold PGSIZE. lia.
Qed.

Lemma pages_range kend p :
  0 < kend < PHYSTOP -> p ∈ pages (PGROUNDUP kend) PHYSTOP -> aligned p /\ kend <= p < PHYSTOP.
Proof.
  intros Hk (i & Hi & ->)%elem_of_pages.
  destruct (PGROUNDUP_aligned kend) as [Ha Hb]; [lia|unfold PGSIZE, PHYSTOP, KERNBASE in *; lia|].
  unfold aligned, PGSIZE in *. split; divlia.
Qed.

Lemma run_calls_spec kend cs held s l :
  0 < kend < PHYSTOP -> free_ok kend s l -> partition kend held l ->
  (forall p, p ∈ held -> is_Some (km_mem s !! p)) ->
  exists held' s' l', run_calls kend cs held s = Ok held' s' /\
    free_ok kend s' l' /\ partition kend held' l'.
Proof.
  intros Hk. revert held s l. induction cs as [|[|i] cs IH]; intros held s l Hok Hpt Hm; simpl.
  - by exists held, s, l.
  - pose proof (kalloc_spec kend (proj1 Hk) s l Hok) as Hspec. destruct l as [|p l'].
    + destruct Hspec as (s' & E & Hok' & Hm'). erewrite bind_Ok by done. simpl.
      apply (IH held s' []); [done|done|]. intros p Hp. rewrite Hm'. by apply Hm.
    + destruct Hspec as (s' & E & Hok' & _ & _ & Hr & Hm'). erewrite bind_Ok by done.
      rewrite (proj2 (Z.eqb_neq p 0)) by lia. apply (IH (p :: held) s' l'); [done| |].
      * unfold partition in *. rewrite <- Hpt. by rewrite <- Permutation_middle.
      * intros q. rewrite Hm'. destruct (decide (q = p)) as [->|].
        -- rewrite lookup_insert_eq. by eexists.
        -- rewrite lookup_insert_ne by done. intros [?|?]%elem_of_cons; [done|by apply Hm].
  - destruct (held !! i) as [p|] eqn:Ei; [|by apply (IH held s l)].
    unfold partition in Hpt. assert (NoDup (held ++ l)) as Hnd by (rewrite Hpt; apply NoDup_pages).
    pose proof (list_elem_of_lookup_2 _ _ _ Ei) as Hin.
    assert (p ∉ l) as Hpl by (apply NoDup_app in Hnd as (_ & Hd & _); by apply Hd).
    destruct (pages_range kend p Hk) as [Ha Hr]; [rewrite <- Hpt; set_solver|].
    destruct (kfree_spec kend (proj1 Hk) s l p Hok Ha Hr (Hm p Hin) Hpl) as (s' & E & Hok' & Hm' & Hs').
    erewrite bind_Ok by done. apply delete_Permutation in Ei as Hperm.
    apply (IH (delete i held) s' (p :: l)); [done| |].
    + unfold partition in *. rewrite <- Hpt. rewrite Hperm at 2. by rewrite <- Permutation_middle.
    + intros q Hq. destruct (decide (q = p)) as [->|]; [done|]. rewrite Hm' by done.
      apply Hm. rewrite Hperm. set_solver.
Qed.

(** C20. After kinit(), any sequence of kalloc() and kfree() calls in which
    only pages that were handed out are freed returns without a panic; the
    pages handed out and the free pages are always exactly the whole pages
    between the end of the kernel and PHYSTOP, each once.  In particular no
    page is given to two callers and none is lost. *)
Theorem kalloc_partition (kend : Z) (m : gmap Z (list Z)) (lk : bool) (cs : list kcall) :
  0 < kend < PHYSTOP -> ram_ok m ->
  (forall q, q ∈ pages (PGROUNDUP kend) PHYSTOP -> is_Some (m !! q)) ->
  exists held s l, (kinit kend ;; run_calls kend cs []) (Kmem lk 0 m) = Ok held s /\
    free_ok kend s l /\ partition kend held l.
Proof.
  intros Hk Hr Hq. destruct (kinit_spec kend (proj1 Hk) m lk (proj2 Hk) Hr Hq) as (s & E & Hok).
  erewrite bind_Ok by done. eapply run_calls_spec; [done|done| |].
  - unfold partition. simpl. apply reverse_Permutation.
  - intros p Hp. by apply not_elem_of_nil in Hp.
Qed.

(** RAM of zeroed pages, all present. *)
Definition ex_ram (kend : Z) : gmap Z (list Z) :=
  list_to_map (map (fun p => (p, replicate page_bytes 0)) (pages (PGROUNDUP kend) PHYSTOP)).

Lemma ex_ram_ok kend : 0 < kend < PHYSTOP -> ram_ok (ex_ram kend).
Proof.
  intros Hk a p Hl. apply elem_of_list_to_map_2 in Hl. apply list_elem_of_fmap in Hl as (q & [= -> ->] & Hq).
  apply pages_range in Hq as [Ha Hr]; [|done].
  split; [done|]. split; [unfold PHYSTOP, KERNBASE in *; lia|]. apply (is_page_fill 0).
Qed.

Lemma ex_ram_all kend q : q ∈ pages (PGROUNDUP kend) PHYSTOP -> is_Some (ex_ram kend !! q).
Proof.
  intros Hq. unfold ex_ram. apply (not_eq_None_Some (_ !! q)). intros E.
  apply not_elem_of_list_to_map in E. apply E. apply list_elem_of_fmap. exists (q, replicate page_bytes 0).
  split; [done|]. apply list_elem_of_fmap. by exists q.
Qed.

Lemma kalloc_partition_witness :
  let kend := PHYSTOP - 2 * PGSIZE - 100 in
  exists held s l, (kinit kend ;; run_calls kend [CAlloc; CAlloc; CAlloc; CFree 0; CAlloc] [])
    (Kmem true 0 (ex_ram kend)) = Ok held s /\ free_ok kend s l /\ partition kend held l.
Proof.
  intros kend.
  assert (0 < kend < PHYSTOP) as Hk by (unfold kend, PHYSTOP, KERNBASE, PGSIZE; lia).
  apply (kalloc_partition kend (ex_ram kend) true); [exact Hk|exact (ex_ram_ok kend Hk)|exact (ex_ram_all kend)].
Defined.
