(* ===== verification/Vm.v ===== *)
(** * kernel/vm.c: page tables and user memory

   Page tables live in the physical memory of Kalloc.v and are read and
   written through 64-bit loads and stores, as in the code.  The linker's
   [end] and [etext] and the address of trampoline.S are parameters. *)

From stdpp Require Import base numbers list gmap sets strings.
From Stdlib Require Import ZArith Lia.
From S2P Require Import Prelude Params Kalloc.

(** if(x & flag) *)
Definition has (flag x : Z) : bool := negb (Z.land x flag =? 0).

(** &pagetable[i] *)
Definition pte_addr (pagetable i : Z) : Z := pagetable + 8 * i.

(** for(int level = 2; level > 0; level--) of walk(); the null pointer is 0. *)
Fixpoint walk_loop (level : nat) (pagetable va : Z) (alloc : bool) : M kmem Z :=
  match level with
  | O => ret (pte_addr pagetable (PX 0 va))
  | S level' =>
      let pte := pte_addr pagetable (PX (Z.of_nat level) va) in
      let* v := rd64 pte in
      if has PTE_V v then walk_loop level' (PTE2PA v) va alloc
      else if negb alloc then ret 0
      else
        let* pg := kalloc in
        if pg =? 0 then ret 0
        else
          memset_page pg 0 ;;
          wr64 pte (Z.lor (PA2PTE pg) PTE_V) ;;
          walk_loop level' pg va alloc
  end.

Definition walk (pagetable va : Z) (alloc : bool) : M kmem Z :=
  if va >=? MAXVA then panic "walk" else walk_loop 2 pagetable va alloc.

Definition walkaddr (pagetable va : Z) : M kmem Z :=
  if va >=? MAXVA then ret 0
  else
    let* pte := walk pagetable va false in
    if pte =? 0 then ret 0
    else
      let* v := rd64 pte in
      if negb (has PTE_V v) then ret 0
      else if negb (has PTE_U v) then ret 0
      else ret (PTE2PA v).

(** The entry for one page in the loop of mappages(); false when walk()
    found no memory for a table. *)
Definition map_page (pagetable a pa perm : Z) : M kmem bool :=
  let* pte := walk pagetable a true in
  if pte =? 0 then ret false
  else
    let* v := rd64 pte in
    if has PTE_V v then panic "mappages: remap"
    else wr64 pte (Z.lor (Z.lor (PA2PTE pa) perm) PTE_V) ;; ret true.

(** for(;;) of mappages(); the size bounds the iterations. *)
Fixpoint mappages_loop (fuel : nat) (pagetable a last pa perm : Z) : M kmem Z :=
  match fuel with
  | O => diverge
  | S f =>
      let* ok := map_page pagetable a pa perm in
      if negb ok then ret (-1)
      else if a =? last then ret 0
      else mappages_loop f pagetable (u64 (a + PGSIZE)) last (u64 (pa + PGSIZE)) perm
  end.

Definition mappages (pagetable va size pa perm : Z) : M kmem Z :=
  if negb (va mod PGSIZE =? 0) then panic "mappages: va not aligned"
  else if negb (size mod PGSIZE =? 0) then panic "mappages: size not aligned"
  else if size =? 0 then panic "mappages: size"
  else mappages_loop (Z.to_nat (size / PGSIZE)) pagetable va (u64 (va + size - PGSIZE)) pa perm.

Definition kvmmap (kpgtbl va pa sz perm : Z) : M kmem unit :=
  let* r := mappages kpgtbl va sz pa perm in
  if negb (r =? 0) then panic "kvmmap" else ret tt.

(** kernel/proc.c: a stack for each process, in the kernel page table *)
Definition proc_mapstacks (kpgtbl : Z) : M kmem unit :=
  for_range (Z.to_nat NPROC) 0 (fun p =>
    let* pa := kalloc in
    if pa =? 0 then panic "kalloc"
    else kvmmap kpgtbl (KSTACK p) pa PGSIZE (Z.lor PTE_R PTE_W)).

Definition kvmmake (etext trampoline : Z) : M kmem Z :=
  let* kpgtbl := kalloc in
  memset_page kpgtbl 0 ;;
  kvmmap kpgtbl UART0 UART0 PGSIZE (Z.lor PTE_R PTE_W) ;;
  kvmmap kpgtbl VIRTIO0 VIRTIO0 PGSIZE (Z.lor PTE_R PTE_W) ;;
  kvmmap kpgtbl PLIC PLIC 0x4000000 (Z.lor PTE_R PTE_W) ;;
  kvmmap kpgtbl KERNBASE KERNBASE (etext - KERNBASE) (Z.lor PTE_R PTE_X) ;;
  kvmmap kpgtbl etext etext (PHYSTOP - etext) (Z.lor PTE_R PTE_W) ;;
  kvmmap kpgtbl TRAMPOLINE trampoline PGSIZE (Z.lor PTE_R PTE_X) ;;
  proc_mapstacks kpgtbl ;;
  ret kpgtbl.

Definition uvmcreate : M kmem Z :=
  let* pagetable := kalloc in
  if pagetable =? 0 then ret 0 else memset_page pagetable 0 ;; ret pagetable.

Definition ismapped (pagetable va : Z) : M kmem bool :=
  let* pte := walk pagetable va false in
  if pte =? 0 then ret false
  else let* v := rd64 pte in ret (has PTE_V v).

Definition uvmclear (pagetable va : Z) : M kmem unit :=
  let* pte := walk pagetable va false in
  if pte =? 0 then panic "uvmclear"
  else let* v := rd64 pte in wr64 pte (Z.land v (u64 (Z.lnot PTE_U))).

Section kend.
Context (kend : Z).

(** The body of the loop of uvmunmap(). *)
Definition unmap_page (pagetable a : Z) (do_free : bool) : M kmem unit :=
  let* pte := walk pagetable a false in
  if pte =? 0 then ret tt
  else
    let* v := rd64 pte in
    if negb (has PTE_V v) then ret tt
    else
      (if do_free then kfree kend (PTE2PA v) else ret tt) ;;
      wr64 pte 0.

(** [bound] is va + npages*PGSIZE. *)
Fixpoint uvmunmap_loop (fuel : nat) (pagetable a bound : Z) (do_free : bool) : M kmem unit :=
  if a <? bound then
    match fuel with
    | O => diverge
    | S f =>
        unmap_page pagetable a do_free ;;
        uvmunmap_loop f pagetable (u64 (a + PGSIZE)) bound do_free
    end
  else ret tt.

Definition uvmunmap (pagetable va npages : Z) (do_free : bool) : M kmem unit :=
  if negb (va mod PGSIZE =? 0) then panic "uvmunmap: not aligned"
  else
    let bound := u64 (va + npages * PGSIZE) in
    uvmunmap_loop (Z.to_nat ((bound - va) / PGSIZE + 1)) pagetable va bound do_free.

Definition uvmdealloc (pagetable oldsz newsz : Z) : M kmem Z :=
  if newsz >=? oldsz then ret oldsz
  else
    (if PGROUNDUP newsz <? PGROUNDUP oldsz then
       let npages := i32 ((PGROUNDUP oldsz - PGROUNDUP newsz) / PGSIZE) in
       uvmunmap pagetable (PGROUNDUP newsz) (u64 npages) true
     else ret tt) ;;
    ret newsz.

Fixpoint uvmalloc_loop (fuel : nat) (pagetable oldsz a newsz xperm : Z) : M kmem Z :=
  if a <? newsz then
    match fuel with
    | O => diverge
    | S f =>
        let* mem := kalloc in
        if mem =? 0 then uvmdealloc pagetable a oldsz ;; ret 0
        else
          memset_page mem 0 ;;
          let* r := mappages pagetable a PGSIZE mem (Z.lor (Z.lor PTE_R PTE_U) xperm) in
          if negb (r =? 0) then kfree kend mem ;; uvmdealloc pagetable a oldsz ;; ret 0
          else uvmalloc_loop f pagetable oldsz (u64 (a + PGSIZE)) newsz xperm
    end
  else ret newsz.

Definition uvmalloc (pagetable oldsz newsz xperm : Z) : M kmem Z :=
  if newsz <? oldsz then ret oldsz
  else
    let oldsz' := PGROUNDUP oldsz in
    uvmalloc_loop (Z.to_nat ((newsz - oldsz') / PGSIZE + 1)) pagetable oldsz' oldsz' newsz xperm.

(** Entry [i] in the loop of freewalk(), with the recursive call. *)
Definition free_entry (freewalk : Z -> M kmem unit) (pagetable i : Z) : M kmem unit :=
  let* pte := rd64 (pte_addr pagetable i) in
  if has PTE_V pte && (Z.land pte (Z.lor (Z.lor PTE_R PTE_W) PTE_X) =? 0) then
    freewalk (PTE2PA pte) ;;
    wr64 (pte_addr pagetable i) 0
  else if has PTE_V pte then panic "freewalk: leaf"
  else ret tt.

(** freewalk() recurses at most [depth] levels; the tables have three. *)
Fixpoint freewalk (depth : nat) (pagetable : Z) : M kmem unit :=
  match depth with
  | O => diverge
  | S d => for_range 512 0 (free_entry (freewalk d) pagetable) ;; kfree kend pagetable
  end.

Definition uvmfree (pagetable sz : Z) : M kmem unit :=
  (if sz >? 0 then uvmunmap pagetable 0 (PGROUNDUP sz / PGSIZE) true else ret tt) ;;
  freewalk 3 pagetable.

(** memmove between physical pages *)
Definition rd_page (pa : Z) : M kmem (list Z) := get_page pa.
Definition wr_page (pa : Z) (bs : list Z) : M kmem unit :=
  let* _ := get_page pa in modify (set_mem <[page_of pa := bs]>).

Fixpoint uvmcopy_loop (fuel : nat) (old new i sz : Z) : M kmem Z :=
  if i <? sz then
    match fuel with
    | O => diverge
    | S f =>
        let err := uvmunmap new 0 (i / PGSIZE) true ;; ret (-1) in
        let next := uvmcopy_loop f old new (u64 (i + PGSIZE)) sz in
        let* pte := walk old i false in
        if pte =? 0 then next
        else
          let* v := rd64 pte in
          if negb (has PTE_V v) then next
          else
            let* mem := kalloc in
            if mem =? 0 then err
            else
              let* bs := rd_page (PTE2PA v) in
              wr_page mem bs ;;
              let* r := mappages new i PGSIZE mem (PTE_FLAGS v) in
              if negb (r =? 0) then kfree kend mem ;; err
              else next
    end
  else ret 0.

Definition uvmcopy (old new sz : Z) : M kmem Z :=
  uvmcopy_loop (Z.to_nat (sz / PGSIZE + 1)) old new 0 sz.

(** ** Copying between the kernel and a process

   [psz] and [ppt] are sz and pagetable of myproc(). *)

Definition vmfault (psz ppt pagetable va : Z) : M kmem Z :=
  if va >=? psz then ret 0
  else
    let va := PGROUNDDOWN va in
    let* b := ismapped pagetable va in
    if b then ret 0
    else
      let* mem := kalloc in
      if mem =? 0 then ret 0
      else
        memset_page mem 0 ;;
        let* r := mappages ppt va PGSIZE mem (Z.lor (Z.lor PTE_W PTE_U) PTE_R) in
        if negb (r =? 0) then kfree kend mem ;; ret 0
        else ret mem.

(** The page of a user address for a copy: mapped, or faulted in. *)
Definition fault_in (psz ppt pagetable va0 : Z) : M kmem Z :=
  let* pa0 := walkaddr pagetable va0 in
  if pa0 =? 0 then vmfault psz ppt pagetable va0 else ret pa0.

(** memmove to and from physical memory, inside one page *)
Definition rd_bytes (pa : Z) (n : nat) : M kmem (list Z) :=
  let* p := get_page pa in ret (slice (page_off pa) n p).
Definition wr_bytes (pa : Z) (bs : list Z) : M kmem unit :=
  let* p := get_page pa in modify (set_mem <[page_of pa := splice (page_off pa) bs p]>).

(** copyout(pagetable, dstva, src, len), [src] the bytes of the kernel
    buffer; true is the return value 0. *)
Fixpoint copyout_loop (fuel : nat) (psz ppt pagetable dstva : Z) (src : list Z) : M kmem bool :=
  match src with
  | [] => ret true
  | _ =>
      match fuel with
      | O => diverge
      | S f =>
          let va0 := PGROUNDDOWN dstva in
          if va0 >=? MAXVA then ret false
          else
            let* pa0 := fault_in psz ppt pagetable va0 in
            if pa0 =? 0 then ret false
            else
              let* pte := walk pagetable va0 false in
              let* v := rd64 pte in
              if negb (has PTE_W v) then ret false
              else
                let n := Nat.min (Z.to_nat (PGSIZE - (dstva - va0))) (length src) in
                wr_bytes (pa0 + (dstva - va0)) (take n src) ;;
                copyout_loop f psz ppt pagetable (u64 (va0 + PGSIZE)) (drop n src)
      end
  end.
Definition copyout (psz ppt pagetable dstva : Z) (src : list Z) : M kmem bool :=
  copyout_loop (length src) psz ppt pagetable dstva src.

(** copyin(pagetable, dst, srcva, len): whether it succeeded, and the bytes
    it stored at dst. *)
Fixpoint copyin_loop (fuel : nat) (psz ppt pagetable srcva : Z) (len : nat) : M kmem (bool * list Z) :=
  match len with
  | O => ret (true, [])
  | _ =>
      match fuel with
      | O => diverge
      | S f =>
          let va0 := PGROUNDDOWN srcva in
          let* pa0 := fault_in psz ppt pagetable va0 in
          if pa0 =? 0 then ret (false, [])
          else
            let n := Nat.min (Z.to_nat (PGSIZE - (srcva - va0))) len in
            let* bs := rd_bytes (pa0 + (srcva - va0)) n in
            let* r := copyin_loop f psz ppt pagetable (u64 (va0 + PGSIZE)) (len - n) in
            ret (fst r, bs ++ snd r)
      end
  end.
Definition copyin (psz ppt pagetable srcva : Z) (len : nat) : M kmem (bool * list Z) :=
  copyin_loop len psz ppt pagetable srcva len.

End kend.

(** The inner loop of copyinstr(): the bytes up to the first NUL, and
    whether there was one. *)
Fixpoint scan_nul (bs : list Z) : list Z * bool :=
  match bs with
  | [] => ([], false)
  | c :: bs' => if c =? 0 then ([0], true) else let r := scan_nul bs' in (c :: fst r, snd r)
  end.

(** copyinstr(pagetable, dst, srcva, max): whether a NUL was found, and the
    bytes stored at dst. *)
Fixpoint copyinstr_loop (fuel : nat) (pagetable srcva : Z) (max : nat) : M kmem (bool * list Z) :=
  match max with
  | O => ret (false, [])
  | _ =>
      match fuel with
      | O => diverge
      | S f =>
          let va0 := PGROUNDDOWN srcva in
          let* pa0 := walkaddr pagetable va0 in
          if pa0 =? 0 then ret (false, [])
          else
            let n := Nat.min (Z.to_nat (PGSIZE - (srcva - va0))) max in
            let* bs := rd_bytes (pa0 + (srcva - va0)) n in
            let c := scan_nul bs in
            if snd c then ret (true, fst c)
            else
              let* r := copyinstr_loop f pagetable (u64 (va0 + PGSIZE)) (max - n) in
              ret (fst r, fst c ++ snd r)
      end
  end.
Definition copyinstr (pagetable srcva : Z) (max : nat) : M kmem (bool * list Z) :=
  copyinstr_loop max pagetable srcva max.
