(* ===== verification/VmSpace.v ===== *)
(** * Address spaces

   What the pages of a page table represent: an address space is a root, a
   map of its table pages and the map from virtual page numbers to
   page-table entries.  walk(), mappages() and uvmunmap() are shown to act
   on that map. *)

From stdpp Require Import base numbers list gmap sets strings.
From Stdlib Require Import ZArith Lia.
From S2P Require Import Prelude Params Kalloc Vm.

(* ------------------------------------------------------------------ *)
(** ** Page-table entries as bits *)

Definition mkpte (pa perm : Z) : Z := Z.lor (Z.lor (PA2PTE pa) perm) PTE_V.

Lemma has_testbit k x : 0 <= k -> has (Z.shiftl 1 k) x = Z.testbit x k.
Proof.
  intros Hk. unfold has. rewrite Z.shiftl_1_l. destruct (Z.testbit x k) eqn:E.
  - destruct (Z.eqb_spec (Z.land x (2 ^ k)) 0) as [E0|]; [|done].
    assert (Z.testbit (Z.land x (2 ^ k)) k = true) as Hb
      by (rewrite Z.land_spec, E, Z.pow2_bits_true by lia; done).
    rewrite E0, Z.testbit_0_l in Hb. done.
  - destruct (Z.eqb_spec (Z.land x (2 ^ k)) 0) as [|N]; [done|]. exfalso. apply N.
    apply Z.bits_inj_0. intros i. rewrite Z.land_spec.
    destruct (decide (i = k)) as [->|]; [by rewrite E|]. rewrite Z.pow2_bits_false by done.
    apply andb_false_r.
Qed.

Definition phys (pa : Z) : Prop := aligned pa /\ 0 <= pa < 2 ^ 56.

Lemma PA2PTE_eq pa : phys pa -> PA2PTE pa = pa / PGSIZE * 2 ^ 10.
Proof.
  intros [Ha Hp]. unfold PA2PTE. rewrite Z.shiftl_mul_pow2, Z.shiftr_div_pow2 by lia.
  change (2 ^ 12) with PGSIZE. apply u64_small. unfold PGSIZE in *. divlia.
Qed.

Lemma lor_low q f n : 0 <= n -> 0 <= f < 2 ^ n -> Z.lor (q * 2 ^ n) f = q * 2 ^ n + f.
Proof.
  intros Hn Hf. assert (Z.land (q * 2 ^ n) f = 0) as E.
  { apply Z.bits_inj_0. intros i. rewrite Z.land_spec. destruct (decide (i < n)).
    - rewrite Z.mul_pow2_bits_low by lia. done.
    - assert (Z.testbit f i = false) as ->; [|apply andb_false_r].
      destruct (decide (f = 0)) as [->|]; [apply Z.testbit_0_l|].
      apply Z.bits_above_log2; [lia|]. apply Z.log2_lt_pow2; [lia|].
      eapply Z.lt_le_trans; [apply Hf|]. apply Z.pow_le_mono_r; lia. }
  rewrite <- Z.lxor_lor by done. symmetry. by apply Z.add_nocarry_lxor.
Qed.

Lemma lor_range a b n : 0 <= n -> 0 <= a < 2 ^ n -> 0 <= b < 2 ^ n -> 0 <= Z.lor a b < 2 ^ n.
Proof.
  intros Hn Ha Hb. assert (0 <= Z.lor a b) by (apply Z.lor_nonneg; lia). split; [done|].
  destruct (decide (Z.lor a b = 0)) as [->|]; [lia|]. apply Z.log2_lt_pow2; [lia|].
  rewrite Z.log2_lor by lia.
  assert (forall x, 0 <= x < 2 ^ n -> 0 < n -> Z.log2 x < n) as HL.
  { intros x Hx Hn'. destruct (decide (x = 0)) as [->|]; [by rewrite Z.log2_nonpos|].
    apply Z.log2_lt_pow2; lia. }
  destruct (decide (n = 0)) as [->|].
  - change (2 ^ 0) with 1 in *. assert (a = 0) as -> by lia. assert (b = 0) as -> by lia. done.
  - apply Z.max_lub_lt; apply HL; lia.
Qed.

Lemma flags_range perm : 0 <= perm < 2 ^ 10 -> 0 <= Z.lor perm PTE_V < 2 ^ 10.
Proof. intros. apply lor_range; [lia|done|]. change PTE_V with 1. lia. Qed.

Lemma mkpte_eq pa perm : phys pa -> 0 <= perm < 2 ^ 10 ->
  mkpte pa perm = pa / PGSIZE * 2 ^ 10 + Z.lor perm PTE_V.
Proof.
  intros Hp Hf. unfold mkpte. rewrite PA2PTE_eq by done. rewrite <- Z.lor_assoc.
  apply lor_low; [lia|]. by apply flags_range.
Qed.

Lemma mkpte_pa pa perm : phys pa -> 0 <= perm < 2 ^ 10 -> PTE2PA (mkpte pa perm) = pa.
Proof.
  intros Hp Hf. rewrite mkpte_eq by done. unfold PTE2PA. rewrite Z.shiftl_mul_pow2, Z.shiftr_div_pow2 by lia.
  pose proof (flags_range perm Hf).
  rewrite Z.div_add_l, (Z.div_small (Z.lor perm PTE_V)), Z.add_0_r by lia. destruct Hp as [Ha Hp].
  change (2 ^ 12) with PGSIZE. unfold aligned, PGSIZE in *. rewrite u64_small; divlia.
Qed.

Lemma mkpte_flags pa perm : phys pa -> 0 <= perm < 2 ^ 10 -> PTE_FLAGS (mkpte pa perm) = Z.lor perm PTE_V.
Proof.
  intros Hp Hf. rewrite mkpte_eq by done. unfold PTE_FLAGS. change 0x3FF with (Z.ones 10).
  rewrite Z.land_ones by lia. rewrite Z.add_comm, Z.mod_add by lia. apply Z.mod_small.
  by apply flags_range.
Qed.

Lemma mkpte_range pa perm : phys pa -> 0 <= perm < 2 ^ 10 -> 0 <= mkpte pa perm < 2 ^ 64.
Proof.
  intros Hp Hf. rewrite mkpte_eq by done.
  pose proof (flags_range perm Hf).
  destruct Hp as [Ha Hp]. unfold PGSIZE. divlia.
Qed.

Lemma mkpte_bit pa perm k : phys pa -> 0 <= k < 10 ->
  Z.testbit (mkpte pa perm) k = Z.testbit perm k || (k =? 0).
Proof.
  intros Hp Hk. unfold mkpte. rewrite !Z.lor_spec, PA2PTE_eq, Z.mul_pow2_bits_low by (done || lia).
  rewrite orb_false_l. f_equal.
Qed.

Lemma mkpte_valid pa perm : phys pa -> has PTE_V (mkpte pa perm) = true.
Proof. intros Hp. unfold PTE_V at 1. rewrite has_testbit, mkpte_bit by (done || lia). apply orb_true_r. Qed.

(** A directory entry is the entry with no permissions. *)
Lemma dir_pte c : Z.lor (PA2PTE c) PTE_V = mkpte c 0.
Proof. unfold mkpte. by rewrite Z.lor_0_r. Qed.

(* ------------------------------------------------------------------ *)
(** ** Entries in memory *)

Definition pte_at (m : gmap Z (list Z)) (t i : Z) : Z :=
  match m !! t with Some p => ld64 (Z.to_nat (8 * i)) p | None => 0 end.

Definition put_pte (t i v : Z) (m : gmap Z (list Z)) : gmap Z (list Z) :=
  alter (st64 (Z.to_nat (8 * i)) v) t m.

Lemma pte_addr_page t i : aligned t -> 0 <= i < 512 ->
  page_of (pte_addr t i) = t /\ page_off (pte_addr t i) = Z.to_nat (8 * i).
Proof.
  intros Ha Hi. unfold pte_addr, page_of, page_off, aligned, PGSIZE in *. split; [divlia|]. f_equal. divlia.
Qed.

Lemma rd64_pte s t i : aligned t -> 0 <= i < 512 -> is_Some (km_mem s !! t) ->
  rd64 (pte_addr t i) s = Ok (pte_at (km_mem s) t i) s.
Proof.
  intros Ha Hi [p Hp]. destruct (pte_addr_page t i Ha Hi) as [E1 E2]. unfold rd64, pte_at.
  erewrite bind_Ok by (apply get_page_Ok; by rewrite E1). by rewrite E2, Hp.
Qed.

Lemma wr64_pte s t i v : aligned t -> 0 <= i < 512 -> is_Some (km_mem s !! t) ->
  wr64 (pte_addr t i) v s = Ok tt (set_mem (put_pte t i v) s).
Proof.
  intros Ha Hi [p Hp]. destruct (pte_addr_page t i Ha Hi) as [E1 E2]. unfold wr64.
  erewrite bind_Ok by (apply get_page_Ok; by rewrite E1). rewrite E1, E2. unfold modify, set_mem, put_pte.
  do 2 f_equal. apply map_eq. intros a. destruct (decide (a = t)) as [->|].
  - by rewrite lookup_insert_eq, lookup_alter_eq, Hp.
  - by rewrite lookup_insert_ne, lookup_alter_ne.
Qed.

Lemma pte_at_put_eq m t i v p : m !! t = Some p -> is_page p -> 0 <= i < 512 ->
  pte_at (put_pte t i v m) t i = u64 v.
Proof.
  intros Hp [Hl _] Hi. unfold pte_at, put_pte. rewrite lookup_alter_eq, Hp. simpl.
  apply ld64_st64. rewrite Hl. pose proof page_bytes_Z. unfold PGSIZE in *. lia.
Qed.

Lemma pte_at_put_ne m t i v t' i' : 0 <= i -> 0 <= i' -> t' <> t \/ i' <> i ->
  pte_at (put_pte t i v m) t' i' = pte_at m t' i'.
Proof.
  intros Hi Hi' Hne. unfold pte_at, put_pte. destruct (decide (t' = t)) as [->|].
  - rewrite lookup_alter_eq. destruct (m !! t) as [p|]; simpl; [|done].
    apply le_get_put_ne. lia.
  - by rewrite lookup_alter_ne.
Qed.

Lemma put_pte_other t i v m a : a <> t -> put_pte t i v m !! a = m !! a.
Proof. intros. unfold put_pte. by rewrite lookup_alter_ne. Qed.

Lemma put_pte_dom t i v m a : is_Some (put_pte t i v m !! a) <-> is_Some (m !! a).
Proof. unfold put_pte. by rewrite lookup_alter_is_Some. Qed.

Lemma ram_put_pte t i v m : ram_ok m -> ram_ok (put_pte t i v m).
Proof.
  intros Hr a p. unfold put_pte. rewrite lookup_alter_Some. intros [(-> & q & Hq & ->)|[_ Hq]].
  - apply Hr in Hq as (? & ? & ?). split; [done|]. split; [done|]. by apply is_page_st64.
  - by apply Hr.
Qed.

(** A zeroed page holds no entries. *)
Lemma pte_at_zero m t i : m !! t = Some (replicate page_bytes 0) -> pte_at m t i = 0.
Proof.
  intros E. unfold pte_at. rewrite E. generalize (Z.to_nat (8 * i)) page_bytes. clear. intros off n.
  assert (forall k off, le_get k off (replicate n 0) = 0) as H; [|apply H].
  induction k as [|k IH]; intros off'; simpl; [done|]. rewrite IH.
  destruct (replicate n 0 !! off') as [x|] eqn:E; simpl; [|done].
  apply lookup_replicate in E as [-> _]. done.
Qed.

(* ------------------------------------------------------------------ *)
(** ** Address spaces *)

(** [as_tab] has the table page of each level and prefix (a level-0 table
    with prefix q serves the pages 512*q .. 512*q+511), [as_map] the valid
    entries by virtual page number.  The pages mapped at the numbers of
    [as_own] belong to the space; others are shared. *)
Record aspace := ASpace {
  as_root : Z;
  as_tab : gmap (nat * Z) Z;
  as_map : gmap Z Z;
  as_own : Z -> bool
}.

Definition set_tab (t : gmap (nat * Z) Z) (A : aspace) : aspace := ASpace (as_root A) t (as_map A) (as_own A).
Definition set_map (f : gmap Z Z) (A : aspace) : aspace := ASpace (as_root A) (as_tab A) f (as_own A).

Definition vpn (va : Z) : Z := va / PGSIZE.
Definition prefix (level : nat) (va : Z) : Z := va / (PGSIZE * 512 ^ (Z.of_nat level + 1)).
Definition key (level : nat) (va : Z) : nat * Z := (level, prefix level va).

(** The pages of RAM the kernel may allocate. *)
Definition ram_page (kend : Z) (m : gmap Z (list Z)) (p : Z) : Prop :=
  aligned p /\ kend <= p < PHYSTOP /\ is_Some (m !! p).

Record as_ok (kend : Z) (m : gmap Z (list Z)) (A : aspace) : Prop := {
  ok_root : as_tab A !! (2%nat, 0) = Some (as_root A);
  ok_key l q t : as_tab A !! (l, q) = Some t -> (l <= 2)%nat /\ 0 <= q < 512 ^ (2 - Z.of_nat l);
  ok_page l q t : as_tab A !! (l, q) = Some t -> ram_page kend m t;
  ok_parent l q t : as_tab A !! (l, q) = Some t -> (l < 2)%nat -> is_Some (as_tab A !! (S l, q / 512));
  ok_inj k k' t : as_tab A !! k = Some t -> as_tab A !! k' = Some t -> k = k';
  ok_dir l q t i : as_tab A !! (S l, q) = Some t -> 0 <= i < 512 ->
    pte_at m t i = match as_tab A !! (l, q * 512 + i) with Some c => mkpte c 0 | None => 0 end;
  ok_leaf q t i : as_tab A !! (0%nat, q) = Some t -> 0 <= i < 512 ->
    pte_at m t i = default 0 (as_map A !! (q * 512 + i));
  ok_map v pte : as_map A !! v = Some pte ->
    has PTE_V pte = true /\ 0 <= pte < 2 ^ 64 /\ is_Some (as_tab A !! (0%nat, v / 512))
}.

Lemma PX_eq level va : 0 <= va ->
  PX (Z.of_nat level) va = va / (PGSIZE * 512 ^ Z.of_nat level) mod 512.
Proof.
  intros Hv. unfold PX, PXSHIFT, PXMASK, PGSHIFT. change 0x1FF with (Z.ones 9).
  rewrite Z.land_ones, Z.shiftr_div_pow2 by lia. f_equal. f_equal.
  rewrite Z.pow_add_r, Z.pow_mul_r by lia. done.
Qed.

(** The entry of a table page at level [S l] leads to the key below. *)
Lemma key_child l va : 0 <= va -> prefix (S l) va * 512 + PX (Z.of_nat (S l)) va = prefix l va.
Proof.
  intros Hv. rewrite PX_eq by done. unfold prefix.
  replace (Z.of_nat (S l) + 1) with (Z.of_nat (S l) + 1) by lia.
  rewrite (Z.pow_add_r 512 (Z.of_nat (S l)) 1), Z.pow_1_r, Z.mul_assoc by lia.
  rewrite <- Z.div_div by (unfold PGSIZE; lia).
  replace (Z.of_nat (S l)) with (Z.of_nat l + 1) by lia.
  rewrite Z.mul_comm. symmetry. apply Z.div_mod. lia.
Qed.

Lemma prefix_0 va : prefix 0 va = vpn va / 512.
Proof. unfold prefix, vpn. simpl. rewrite <- Z.div_div by (unfold PGSIZE; lia). done. Qed.
Lemma PX_0 va : 0 <= va -> PX 0 va = vpn va mod 512.
Proof. intros. rewrite (PX_eq 0) by done. unfold vpn. simpl. done. Qed.
Lemma prefix_2 va : 0 <= va < MAXVA -> prefix 2 va = 0.
Proof. intros. unfold prefix. apply Z.div_small. change MAXVA with (2 ^ 38) in *. unfold PGSIZE. simpl. lia. Qed.
Lemma prefix_up l va : 0 <= va -> prefix l va / 512 = prefix (S l) va.
Proof. intros. rewrite <- key_child by done. pose proof (PX_range (Z.of_nat (S l)) va). divlia. Qed.
Lemma prefix_range l va : 0 <= va < MAXVA -> (l <= 2)%nat -> 0 <= prefix l va < 512 ^ (2 - Z.of_nat l).
Proof.
  intros Hv Hl. unfold prefix. change MAXVA with (2 ^ 38) in *.
  destruct l as [|[|[|]]]; [..|lia]; unfold PGSIZE; simpl; divlia.
Qed.

Section space.
Context {kend : Z} (Hend : 0 < kend).

Lemma ram_phys m p : ram_page kend m p -> phys p.
Proof. intros (Ha & Hr & _). split; [done|]. unfold PHYSTOP, KERNBASE in Hr. lia. Qed.

(** A missing table has no tables below it. *)
Lemma tab_down m A l va : as_ok kend m A -> 0 <= va -> (l < 2)%nat ->
  as_tab A !! key (S l) va = None -> as_tab A !! key l va = None.
Proof.
  intros Hok Hv Hl Hn. destruct (as_tab A !! key l va) as [t|] eqn:E; [|done].
  apply (ok_parent _ _ _ Hok) in E as [t' E']; [|done]. rewrite prefix_up in E' by done.
  unfold key in Hn. congruence.
Qed.

Definition leaf_addr (A : aspace) (va : Z) : Z :=
  match as_tab A !! key 0 va with Some t => pte_addr t (PX 0 va) | None => 0 end.

(** walk() without allocation finds the entry and changes nothing. *)
Lemma walk_loop_find s A level t va :
  as_ok kend (km_mem s) A -> 0 <= va < MAXVA -> (level <= 2)%nat ->
  as_tab A !! key level va = Some t ->
  walk_loop level t va false s = Ok (leaf_addr A va) s.
Proof.
  intros Hok Hv. revert t. induction level as [|level IH]; intros t Hl Ht.
  - unfold leaf_addr. by rewrite Ht.
  - cbn [walk_loop]. destruct (ok_page _ _ _ Hok _ _ _ Ht) as (Ha & _ & Hm).
    erewrite bind_Ok by (apply rd64_pte; [done|apply PX_range|done]).
    rewrite (ok_dir _ _ _ Hok _ _ _ _ Ht) by apply PX_range. rewrite key_child by lia.
    destruct (as_tab A !! (level, prefix level va)) as [c|] eqn:Ec.
    + pose proof (ram_phys _ _ (ok_page _ _ _ Hok _ _ _ Ec)).
      rewrite mkpte_valid, mkpte_pa by (done || lia). apply IH; [lia|done].
    + change (has PTE_V 0) with false. simpl. unfold leaf_addr.
      assert (as_tab A !! key 0 va = None) as ->; [|done].
      destruct level as [|[|[|]]]; [done| |lia..]. apply (tab_down (km_mem s)); [done|lia|lia|done].
Qed.

Lemma walk_find s A va :
  as_ok kend (km_mem s) A -> 0 <= va < MAXVA -> walk (as_root A) va false s = Ok (leaf_addr A va) s.
Proof.
  intros Hok Hv. unfold walk. rewrite Z.geb_leb, (proj2 (Z.leb_gt MAXVA va)) by lia.
  apply walk_loop_find; [done|done|lia|]. unfold key. rewrite prefix_2 by done. apply Hok.
Qed.

(** The entry walk() found is the entry of the map. *)
Lemma leaf_addr_spec s A va :
  as_ok kend (km_mem s) A -> 0 <= va < MAXVA ->
  match as_tab A !! key 0 va with
  | None => leaf_addr A va = 0 /\ as_map A !! vpn va = None
  | Some t => leaf_addr A va = pte_addr t (PX 0 va) /\ leaf_addr A va <> 0 /\ ram_page kend (km_mem s) t /\
      rd64 (leaf_addr A va) s = Ok (default 0 (as_map A !! vpn va)) s
  end.
Proof.
  intros Hok Hv. unfold leaf_addr. destruct (as_tab A !! key 0 va) as [t|] eqn:Et.
  - pose proof (ok_page _ _ _ Hok _ _ _ Et) as Hp. pose proof (PX_range 0 va). split; [done|].
    split; [destruct Hp as (_ & ? & _); unfold pte_addr; lia|]. split; [done|].
    destruct Hp as (Ha & _ & Hm). rewrite rd64_pte by done.
    rewrite (ok_leaf _ _ _ Hok _ _ _ Et) by done. do 3 f_equal.
    rewrite prefix_0, PX_0 by lia. pose proof (Z.div_mod (vpn va) 512). lia.
  - split; [done|]. destruct (as_map A !! vpn va) eqn:E; [|done].
    apply (ok_map _ _ _ Hok) in E as (_ & _ & [t Ht]). rewrite <- prefix_0 in Ht. unfold key in Et. congruence.
Qed.

End space.

(* ------------------------------------------------------------------ *)
(** ** Ownership

   A space owns its table pages and the pages mapped at [as_own] numbers; [xs]
   are pages other parts of the kernel hold, [l] is the free list.  All of
   them are different. *)

Definition tables (A : aspace) : list Z := (map_to_list (as_tab A)).*2.
Definition owned (own : Z -> bool) (kv : Z * Z) : list Z := if own kv.1 then [PTE2PA kv.2] else [].
Definition upages (A : aspace) : list Z := map_to_list (as_map A) ≫= owned (as_own A).

Record vm_ok (kend : Z) (s : kmem) (l xs : list Z) (A : aspace) : Prop := {
  v_free : free_ok kend s l;
  v_as : as_ok kend (km_mem s) A;
  v_nodup : NoDup (tables A ++ upages A ++ xs ++ l);
  v_foot p : p ∈ tables A ++ upages A ++ xs -> ram_page kend (km_mem s) p
}.

Lemma elem_of_tables A t : t ∈ tables A <-> exists k, as_tab A !! k = Some t.
Proof.
  unfold tables. rewrite list_elem_of_fmap. split.
  - intros ([k t'] & -> & Hk%elem_of_map_to_list). by exists k.
  - intros [k Hk]. exists (k, t). split; [done|]. by apply elem_of_map_to_list.
Qed.

Lemma elem_of_upages A p :
  p ∈ upages A <-> exists v pte, as_map A !! v = Some pte /\ as_own A v = true /\ p = PTE2PA pte.
Proof.
  unfold upages. rewrite list_elem_of_bind. split.
  - intros ([v pte] & Hp & Hv%elem_of_map_to_list). unfold owned in Hp. simpl in Hp.
    destruct (as_own A v) eqn:Hlt; [|by apply not_elem_of_nil in Hp].
    apply list_elem_of_singleton in Hp as ->. by exists v, pte.
  - intros (v & pte & Hv & Hlt & ->). exists (v, pte). split; [|by apply elem_of_map_to_list].
    unfold owned. simpl. rewrite Hlt. set_solver.
Qed.

Lemma tables_insert A k t : as_tab A !! k = None ->
  tables (set_tab (<[k := t]> (as_tab A)) A) ≡ₚ t :: tables A.
Proof. intros Hk. unfold tables. simpl. by rewrite map_to_list_insert. Qed.

Lemma upages_insert A v pte : as_map A !! v = None ->
  upages (set_map (<[v := pte]> (as_map A)) A) ≡ₚ owned (as_own A) (v, pte) ++ upages A.
Proof. intros Hv. unfold upages. simpl. by rewrite map_to_list_insert. Qed.

Lemma upages_delete A v pte : as_map A !! v = Some pte ->
  upages A ≡ₚ owned (as_own A) (v, pte) ++ upages (set_map (delete v (as_map A)) A).
Proof. intros Hv. unfold upages. simpl. by rewrite <- (map_to_list_delete (as_map A) v pte). Qed.

(** What every operation on a space preserves of the memory around it. *)
Definition same_ram (m m' : gmap Z (list Z)) (ps : list Z) : Prop :=
  (forall a, a ∉ ps -> m' !! a = m !! a) /\ (forall a, is_Some (m !! a) -> is_Some (m' !! a)).

Lemma same_ram_refl m ps : same_ram m m ps.
Proof. done. Qed.

Lemma same_ram_trans m1 m2 m3 ps qs :
  same_ram m1 m2 ps -> same_ram m2 m3 qs -> (forall a, a ∈ qs -> a ∈ ps) -> same_ram m1 m3 ps.
Proof. intros [H1 D1] [H2 D2] Hs. split; [|eauto]. intros a Ha. rewrite H2, H1; auto. Qed.

Lemma ram_page_same kend m m' ps p : same_ram m m' ps -> ram_page kend m p -> ram_page kend m' p.
Proof. intros [_ D] (? & ? & ?). split; [done|]. split; [done|]. by apply D. Qed.

(** Storing into a page that is not free keeps the free list. *)
Lemma free_put kend s l t i v :
  free_ok kend s l -> t ∉ l -> free_ok kend (set_mem (put_pte t i v) s) l.
Proof.
  intros [Hlk Hr Hc Hn Hg] Ht. split; [done|by apply ram_put_pte| |done|done].
  simpl. apply (chain_frame (km_mem s)); [|done]. intros p Hp. apply put_pte_other. by intros ->.
Qed.

Lemma free_fill kend s l t bs :
  free_ok kend s l -> t ∉ l -> ram_page kend (km_mem s) t -> is_page bs ->
  free_ok kend (set_mem <[t := bs]> s) l.
Proof.
  intros [Hlk Hr Hc Hn Hg] Ht (Ha & Hb & Hs) Hp. split; [done| | |done|done].
  - apply ram_insert; [done|done| |done]. destruct Hs as [q Hq]. by apply Hr in Hq as (_ & ? & _).
  - simpl. apply (chain_frame (km_mem s)); [|done]. intros p Hq. apply lookup_insert_ne. by intros ->.
Qed.

Lemma memset_page_Ok kend s t c :
  ram_page kend (km_mem s) t ->
  memset_page t c s = Ok tt (set_mem <[t := replicate page_bytes (u8 c)]> s).
Proof.
  intros (Ha & _ & [p Hp]). unfold memset_page.
  by erewrite bind_Ok by (apply get_page_Ok; by rewrite page_of_aligned).
Qed.

Lemma same_ram_put m t i v : same_ram m (put_pte t i v m) [t].
Proof.
  split; [|intros a; by rewrite put_pte_dom]. intros a Ha. apply put_pte_other. set_solver.
Qed.
Lemma same_ram_insert m t bs : is_Some (m !! t) -> same_ram m (<[t := bs]> m) [t].
Proof.
  intros Ht. split; [intros a Ha; apply lookup_insert_ne; set_solver|].
  intros a Ha. destruct (decide (a = t)) as [->|]; [rewrite lookup_insert_eq; by eexists|].
  by rewrite lookup_insert_ne.
Qed.

(** Membership in concatenations, from the hypotheses. *)
Ltac lin := rewrite ?elem_of_app, ?elem_of_cons, ?elem_of_app, ?elem_of_nil in *; tauto.

(** Permutations, from the hypotheses, by counting. *)
Definition cnt (l : list Z) (x : Z) : nat := count_occ Z.eq_dec l x.
Definition cnt1 (p x : Z) : nat := cnt [p] x.

Lemma perm_cnt l k : l ≡ₚ k <-> forall x, cnt l x = cnt k x.
Proof. apply Permutation_count_occ. Qed.
Lemma cnt_app l k x : cnt (l ++ k) x = (cnt l x + cnt k x)%nat.
Proof. apply count_occ_app. Qed.
Lemma cnt_cons p l x : cnt (p :: l) x = (cnt1 p x + cnt l x)%nat.
Proof. unfold cnt1, cnt. simpl. by destruct (Z.eq_dec p x). Qed.
Lemma cnt_nil x : cnt [] x = 0%nat.
Proof. done. Qed.

Ltac perm :=
  let x := fresh "x" in
  apply perm_cnt; intros x;
  repeat match goal with H : _ ≡ₚ _ |- _ => let H' := fresh in
    pose proof (proj1 (perm_cnt _ _) H x) as H'; clear H end;
  rewrite ?cnt_app, ?cnt_cons, ?cnt_app, ?cnt_nil in *; lia.

Section walk_alloc.
Context {kend : Z} (Hend : 0 < kend).

(** Memory outside the tables does not matter to a space. *)
Lemma as_ok_frame m m' A ps :
  as_ok kend m A -> same_ram m m' ps -> (forall t, t ∈ tables A -> t ∉ ps) -> as_ok kend m' A.
Proof.
  intros Hok Hs Hd.
  assert (forall k t i, as_tab A !! k = Some t -> pte_at m' t i = pte_at m t i) as Hp.
  { intros k t i Hk. unfold pte_at. rewrite (proj1 Hs); [done|]. apply Hd, elem_of_tables. by exists k. }
  destruct Hok as [H1 H2 H3 H4 H5 H6 H7 H8]. split; try done.
  - intros l q t Hk. eapply ram_page_same; [done|]. by eapply H3.
  - intros l q t i Hk Hi. rewrite (Hp _ _ _ Hk). by apply H6.
  - intros q t i Hk Hi. rewrite (Hp _ _ _ Hk). by apply H7.
Qed.

(** A new, empty table page hung into entry [i] of the table at [S l, q]. *)
Lemma as_ok_grow m A l q t i c :
  as_ok kend m A -> as_tab A !! (S l, q) = Some t -> 0 <= i < 512 ->
  as_tab A !! (l, q * 512 + i) = None -> c ∉ tables A -> ram_ok m ->
  ram_page kend m c -> m !! c = Some (replicate page_bytes 0) ->
  as_ok kend (put_pte t i (mkpte c 0) m) (set_tab (<[(l, q * 512 + i) := c]> (as_tab A)) A).
Proof.
  intros Hok Ht Hi Hn Hc Hram Hrp Hz. destruct (ok_key _ _ _ Hok _ _ _ Ht) as [Hl Hq].
  assert (forall k, as_tab A !! k <> Some c) as Hnew by (intros k Hk; apply Hc, elem_of_tables; by exists k).
  assert (c <> t) as Hct by (intros ->; by eapply Hnew).
  pose proof (ok_page _ _ _ Hok _ _ _ Ht) as Htp.
  assert (forall j, 0 <= j < 512 -> pte_at (put_pte t i (mkpte c 0) m) c j = 0) as Hcz.
  { intros j Hj. rewrite pte_at_put_ne by (lia || auto). by apply pte_at_zero. }
  assert (forall k t' j, as_tab A !! k = Some t' -> 0 <= j < 512 -> k <> (S l, q) \/ j <> i ->
    pte_at (put_pte t i (mkpte c 0) m) t' j = pte_at m t' j) as Hold.
  { intros k t' j Hk Hj Hne. apply pte_at_put_ne; [lia|lia|]. destruct Hne as [Hne|]; [|auto].
    left. intros ->. apply Hne. by eapply ok_inj. }
  split; simpl.
  - rewrite lookup_insert_ne; [apply Hok|]. injection 1 as ? ?. lia.
  - intros l' q' t' [[[= <- <-] <-]|[_ Hk]]%lookup_insert_Some; [|by eapply ok_key].
    split; [lia|]. replace (2 - Z.of_nat l) with (2 - Z.of_nat (S l) + 1) by lia.
    rewrite Z.pow_add_r by lia. lia.
  - intros l' q' t' Hk. eapply ram_page_same; [apply same_ram_put|].
    apply lookup_insert_Some in Hk as [[_ <-]|[_ Hk]]; [done|by eapply ok_page].
  - intros l' q' t' [[[= <- <-] <-]|[_ Hk]]%lookup_insert_Some Hl'.
    + rewrite lookup_insert_ne by (injection 1; lia). replace ((q * 512 + i) / 512) with q by divlia.
      by eexists.
    + apply (ok_parent _ _ _ Hok _ _ _ Hk) in Hl'. rewrite lookup_insert_is_Some'. auto.
  - intros k k' t' [[<- <-]|[_ Hk]]%lookup_insert_Some [[<- E]|[_ Hk']]%lookup_insert_Some; try done.
    + by apply Hnew in Hk'.
    + subst. by apply Hnew in Hk.
    + by eapply ok_inj.
  - intros l' q' t' j [[[= -> <-] <-]|[Hne Hk]]%lookup_insert_Some Hj.
    + rewrite Hcz by done. rewrite lookup_insert_ne by (injection 1; lia).
      destruct (as_tab A !! (l', _)) as [x|] eqn:E; [|done].
      apply (ok_parent _ _ _ Hok) in E as [y E]; [|lia].
      replace (((q * 512 + i) * 512 + j) / 512) with (q * 512 + i) in E by divlia. congruence.
    + destruct (decide ((S l', q') = (S l, q) /\ j = i)) as [[[= -> ->] ->]|Hd].
      * rewrite lookup_insert_eq. assert (t' = t) as -> by congruence.
        destruct Htp as (_ & _ & [p Hp]). destruct (Hram _ _ Hp) as (_ & _ & Hpg).
        rewrite (pte_at_put_eq _ _ _ _ p) by done. apply u64_small, mkpte_range; [|lia].
        by eapply ram_phys.
      * rewrite (Hold _ _ _ Hk Hj) by (destruct (decide ((S l', q') = (S l, q))); tauto).
        rewrite lookup_insert_ne; [by apply (ok_dir _ _ _ Hok)|]. injection 1 as <- E. apply Hd.
        assert (q = q') as -> by divlia. split; [done|lia].
  - intros q' t' j [[[= -> <-] <-]|[Hne Hk]]%lookup_insert_Some Hj.
    + rewrite Hcz by done. destruct (as_map A !! _) as [pte|] eqn:E; [|done]. exfalso.
      apply (ok_map _ _ _ Hok) in E as (_ & _ & [x E]).
      replace (((q * 512 + i) * 512 + j) / 512) with (q * 512 + i) in E by divlia. congruence.
    + rewrite (Hold _ _ _ Hk Hj) by (left; congruence). by apply (ok_leaf _ _ _ Hok).
  - intros v pte Hv. apply (ok_map _ _ _ Hok) in Hv as (? & ? & ?). split; [done|]. split; [done|].
    rewrite lookup_insert_is_Some'. auto.
Qed.


(** Pages change hands; the tables stay. *)
Lemma vm_ok_frame s s' l l' xs xs' A ps :
  vm_ok kend s l xs A -> free_ok kend s' l' -> same_ram (km_mem s) (km_mem s') ps ->
  (forall t, t ∈ tables A -> t ∉ ps) -> xs' ++ l' ≡ₚ xs ++ l ->
  (forall p, p ∈ xs' -> ram_page kend (km_mem s') p) -> vm_ok kend s' l' xs' A.
Proof.
  intros [Hf Ha Hn Hp] Hf' Hs Hd Hperm Hx. split; [done|by eapply as_ok_frame|by rewrite Hperm|].
  intros p. rewrite !elem_of_app. intros [?|[?|?]]; [..|by apply Hx];
    (eapply ram_page_same; [done|]; apply Hp; lin).
Qed.

Lemma free_ram_page s l p : free_ok kend s l -> p ∈ l -> ram_page kend (km_mem s) p.
Proof.
  intros Hf Hp. destruct (fr_range _ _ _ Hf p Hp) as [Ha Hr]. split; [done|]. split; [done|].
  pose proof (fr_chain _ _ _ Hf) as Hc. generalize (km_freelist s) Hc. clear -Hp.
  induction l as [|q l IH]; [by apply not_elem_of_nil in Hp|]. intros h (_ & _ & pg & Hq & Hc).
  apply elem_of_cons in Hp as [->|Hp]; [by eexists|]. by eapply IH.
Qed.

Lemma vm_kalloc s l xs A : vm_ok kend s l xs A ->
  match l with
  | [] => exists s', kalloc s = Ok 0 s' /\ vm_ok kend s' [] xs A /\ km_mem s' = km_mem s
  | p :: l' => exists s', kalloc s = Ok p s' /\ vm_ok kend s' l' (p :: xs) A /\ p <> 0 /\
      same_ram (km_mem s) (km_mem s') [p]
  end.
Proof.
  intros Hv. pose proof (kalloc_spec kend Hend s l (v_free _ _ _ _ _ Hv)) as H. destruct l as [|p l].
  - destruct H as (s' & E & Hf & Hm). exists s'. split; [done|]. split; [|done].
    eapply (vm_ok_frame s); try done; [by rewrite Hm| |].
    + intros t _. apply not_elem_of_nil.
    + intros q Hq. rewrite Hm. apply (v_foot _ _ _ _ _ Hv). lin.
  - destruct H as (s' & E & Hf & Hpl & Ha & Hr & Hm). exists s'. split; [done|].
    pose proof (free_ram_page _ _ p (v_free _ _ _ _ _ Hv) ltac:(lin)) as Hrp.
    assert (same_ram (km_mem s) (km_mem s') [p]) as Hs by (rewrite Hm; apply same_ram_insert, Hrp).
    split; [|split; [lia|done]]. pose proof (v_nodup _ _ _ _ _ Hv) as Hn.
    eapply (vm_ok_frame s); [done|done|done| |by rewrite <- Permutation_middle|].
    + intros t Ht. apply NoDup_app in Hn as (_ & Hd & _). specialize (Hd t Ht). clear -Hd. intros ->%list_elem_of_singleton. lin.
    + intros q [->|Hq]%elem_of_cons; (eapply ram_page_same; [done|]); [done|].
      apply (v_foot _ _ _ _ _ Hv). lin.
Qed.

Lemma vm_disjoint s l p xs A : vm_ok kend s l (p :: xs) A ->
  p ∉ tables A /\ p ∉ upages A /\ p ∉ l /\ p ∉ xs /\ ram_page kend (km_mem s) p.
Proof.
  intros Hv. pose proof (v_nodup _ _ _ _ _ Hv) as Hn. rewrite !NoDup_app in Hn. simpl in Hn.
  destruct Hn as (_ & Hd1 & _ & Hd2 & (Hn & _)%NoDup_cons & Hd3 & _).
  split; [intros H; apply (Hd1 p H); lin|]. split; [intros H; apply (Hd2 p H); lin|].
  split; [apply Hd3; lin|]. split; [done|]. apply (v_foot _ _ _ _ _ Hv). lin.
Qed.

Lemma vm_kfree s l p xs A : vm_ok kend s l (p :: xs) A ->
  exists s', kfree kend p s = Ok tt s' /\ vm_ok kend s' (p :: l) xs A /\ same_ram (km_mem s) (km_mem s') [p].
Proof.
  intros Hv. destruct (vm_disjoint _ _ _ _ _ Hv) as (Ht & Hu & Hl & Hx & (Ha & Hr & Hm)).
  destruct (kfree_spec kend Hend s l p (v_free _ _ _ _ _ Hv) Ha Hr Hm Hl) as (s' & E & Hf & Hk & Hs).
  exists s'. split; [done|].
  assert (same_ram (km_mem s) (km_mem s') [p]) as Hsm.
  { split; [intros a Hna; apply Hk; intros ->; apply Hna; lin|]. intros a Hia.
    destruct (decide (a = p)) as [->|]; [done|by rewrite Hk]. }
  split; [|done]. eapply (vm_ok_frame s); [done|done|done|by intros t' Ht' ->%list_elem_of_singleton|by rewrite <- Permutation_middle|].
  intros q Hq. eapply ram_page_same; [done|]. apply (v_foot _ _ _ _ _ Hv). lin.
Qed.

(** Filling a page held outside the space. *)
Lemma vm_fill s l xs A p bs : vm_ok kend s l (p :: xs) A -> is_page bs ->
  vm_ok kend (set_mem <[p := bs]> s) l (p :: xs) A /\ same_ram (km_mem s) (<[p := bs]> (km_mem s)) [p].
Proof.
  intros Hv Hb. destruct (vm_disjoint _ _ _ _ _ Hv) as (Ht & Hu & Hl & Hx & Hrp).
  assert (same_ram (km_mem s) (<[p := bs]> (km_mem s)) [p]) as Hs by apply same_ram_insert, Hrp.
  split; [|done]. eapply (vm_ok_frame s); [done| |done|by intros t' Ht' ->%list_elem_of_singleton|done|].
  - apply free_fill; [apply Hv|done|done|done].
  - intros q Hq. eapply ram_page_same; [done|]. apply (v_foot _ _ _ _ _ Hv). lin.
Qed.

(** What walk() with allocation does to a space: it adds table pages on the
    path to [va], taken from the free list. *)
Record grown (va : Z) (l : list Z) (A : aspace) (l' : list Z) (A' : aspace) : Prop := {
  g_root : as_root A' = as_root A;
  g_map : as_map A' = as_map A;
  g_own : as_own A' = as_own A;
  g_tab k t : as_tab A !! k = Some t -> as_tab A' !! k = Some t;
  g_new k : is_Some (as_tab A' !! k) -> is_Some (as_tab A !! k) \/ k = key 0 va \/ k = key 1 va;
  g_perm : tables A' ++ l' ≡ₚ tables A ++ l
}.

Lemma grown_refl va l A : grown va l A l A.
Proof. split; auto. Qed.

Lemma grown_trans va l A l1 A1 l2 A2 : grown va l A l1 A1 -> grown va l1 A1 l2 A2 -> grown va l A l2 A2.
Proof.
  intros [? ? ? Ht Hn Hp] [? ? ? Ht' Hn' Hp']. split; try congruence; [auto| |by rewrite Hp', Hp].
  intros k Hk. apply Hn' in Hk as [Hk|Hk]; [|auto]. by apply Hn.
Qed.

(** One step of the loop: a table page is made for the missing entry. *)
Lemma vm_grow s l xs A level q t i c :
  vm_ok kend s l (c :: xs) A -> as_tab A !! (S level, q) = Some t -> 0 <= i < 512 ->
  as_tab A !! (level, q * 512 + i) = None -> km_mem s !! c = Some (replicate page_bytes 0) ->
  let A' := set_tab (<[(level, q * 512 + i) := c]> (as_tab A)) A in
  vm_ok kend (set_mem (put_pte t i (mkpte c 0)) s) l xs A' /\ tables A' ≡ₚ c :: tables A /\
  same_ram (km_mem s) (put_pte t i (mkpte c 0) (km_mem s)) [t].
Proof.
  intros Hv Ht Hi Hn Hz A'. destruct (vm_disjoint _ _ _ _ _ Hv) as (Hct & Hcu & Hcl & Hcx & Hrp).
  assert (tables A' ≡ₚ c :: tables A) as Hp by by apply tables_insert.
  pose proof (same_ram_put (km_mem s) t i (mkpte c 0)) as Hs.
  assert (t ∈ tables A) as Htt by (apply elem_of_tables; by eexists).
  split; [|done]. split.
  - apply free_put; [apply Hv|]. intros Htl. pose proof (v_nodup _ _ _ _ _ Hv) as Hnd.
    apply NoDup_app in Hnd as (_ & Hd & _). apply (Hd t Htt). lin.
  - apply as_ok_grow; try done; [apply Hv|]. apply (fr_ram _ _ _ (v_free _ _ _ _ _ Hv)).
  - rewrite Hp. pose proof (v_nodup _ _ _ _ _ Hv) as Hnd. change (upages A') with (upages A).
    assert ((c :: tables A) ++ upages A ++ xs ++ l ≡ₚ tables A ++ upages A ++ (c :: xs) ++ l) as ->; [|done].
    simpl. by rewrite <- !Permutation_middle.
  - intros p Hin. eapply ram_page_same; [exact Hs|]. apply (v_foot _ _ _ _ _ Hv).
    change (upages A') with (upages A) in Hin. rewrite !elem_of_app, Hp in Hin. lin.
Qed.

Lemma walk_loop_alloc level s l xs A t va :
  vm_ok kend s l xs A -> 0 <= va < MAXVA -> (level <= 2)%nat -> as_tab A !! key level va = Some t ->
  exists r s' l' A', walk_loop level t va true s = Ok r s' /\ vm_ok kend s' l' xs A' /\
    grown va l A l' A' /\ same_ram (km_mem s) (km_mem s') (tables A ++ l) /\ (length l <= length l' + level)%nat /\
    (r = 0 /\ l' = [] /\ (length l < level)%nat \/ exists t0, as_tab A' !! key 0 va = Some t0 /\ r = pte_addr t0 (PX 0 va)).
Proof.
  intros Hv Hva. revert s l A t Hv. induction level as [|level IH]; intros s l A t Hv Hl Ht.
  { exists (pte_addr t (PX 0 va)), s, l, A. split; [done|]. split; [done|]. split; [apply grown_refl|].
    split; [apply same_ram_refl|]. split; [lia|]. right. by exists t. }
  cbn [walk_loop]. pose proof (v_as _ _ _ _ _ Hv) as Hok.
  destruct (ok_page _ _ _ Hok _ _ _ Ht) as (Ha & Hr & Hm).
  erewrite bind_Ok by (apply rd64_pte; [done|apply PX_range|done]).
  rewrite (ok_dir _ _ _ Hok _ _ _ _ Ht) by apply PX_range. rewrite key_child by lia.
  destruct (as_tab A !! (level, prefix level va)) as [c|] eqn:Ec.
  { pose proof (ram_phys Hend _ _ (ok_page _ _ _ Hok _ _ _ Ec)).
    rewrite mkpte_valid, mkpte_pa by (done || lia).
    destruct (IH s l A c Hv) as (r & s' & l' & A' & E & H0 & H1 & H2 & Hlen & H3); [lia|done|].
    exists r, s', l', A'. do 4 (split; [done|]). split; [lia|]. destruct H3 as [(? & ? & ?)|?]; [left; auto|auto]. }
  change (has PTE_V 0) with false. cbn [negb]. pose proof (vm_kalloc s l xs A Hv) as Hk. destruct l as [|c l].
  { destruct Hk as (s' & E & Hv' & Hm'). erewrite bind_Ok by done. rewrite Z.eqb_refl.
    exists 0, s', [], A. split; [done|]. split; [done|]. split; [apply grown_refl|].
    rewrite Hm'. split; [apply same_ram_refl|]. split; [simpl; lia|]. left. simpl. auto with lia. }
  destruct Hk as (s1 & E1 & Hv1 & Hc0 & Hs1). erewrite bind_Ok by done. rewrite (proj2 (Z.eqb_neq c 0)) by done.
  erewrite (bind_Ok (memset_page c 0)) by apply (memset_page_Ok kend), (vm_disjoint _ _ _ _ _ Hv1).
  destruct (vm_fill s1 l xs A c (replicate page_bytes (u8 0)) Hv1 (is_page_fill 0)) as [Hv2 Hs2].
  erewrite bind_Ok by (apply wr64_pte; [done|apply PX_range|]; apply Hs2, Hs1, Hm).
  rewrite dir_pte. destruct (vm_grow _ l xs A level (prefix (S level) va) t (PX (Z.of_nat (S level)) va) c Hv2 Ht)
    as (Hv3 & Hp3 & Hs3); [apply PX_range|by rewrite key_child by lia|apply lookup_insert_eq|].
  rewrite key_child in Hv3, Hp3 by lia.
  destruct (IH _ l _ c Hv3) as (r & s' & l' & A' & E & Hv' & Hg & Hs & Hlen & Hres); [lia|apply lookup_insert_eq|].
  exists r, s', l', A'. split; [done|]. split; [done|]. split; [|split; [|split; [simpl; lia|]]].
  - eapply grown_trans; [|done]. split; try done; simpl.
    + intros k t' Hk. rewrite lookup_insert_ne; [done|]. intros <-. congruence.
    + intros k [<-|Hk]%lookup_insert_is_Some'; [|auto]. right.
      destruct level as [|[|]]; [by left|by right|lia].
    + rewrite Hp3. simpl. by rewrite <- Permutation_middle.
  - assert (t ∈ tables A) as Htt by (apply elem_of_tables; by eexists).
    eapply same_ram_trans; [|exact Hs|].
    + eapply same_ram_trans; [|exact Hs3|].
      * eapply same_ram_trans; [|exact Hs2|].
        -- destruct Hs1 as [H1 H2]. split; [|done]. intros a Hna. apply H1. lin.
        -- intros a ->%list_elem_of_singleton. lin.
      * intros a ->%list_elem_of_singleton. lin.
    + intros a. rewrite elem_of_app, Hp3. lin.
  - destruct Hres as [(? & ? & ?)|?]; [left; simpl; auto with lia|auto].
Qed.

Lemma walk_alloc s l xs A va :
  vm_ok kend s l xs A -> 0 <= va < MAXVA ->
  exists r s' l' A', walk (as_root A) va true s = Ok r s' /\ vm_ok kend s' l' xs A' /\
    grown va l A l' A' /\ same_ram (km_mem s) (km_mem s') (tables A ++ l) /\ (length l <= length l' + 2)%nat /\
    (r = 0 /\ l' = [] /\ (length l < 2)%nat \/ exists t0, as_tab A' !! key 0 va = Some t0 /\ r = pte_addr t0 (PX 0 va)).
Proof.
  intros Hv Hva. unfold walk. rewrite Z.geb_leb, (proj2 (Z.leb_gt MAXVA va)) by lia.
  apply walk_loop_alloc; [done|done|lia|]. unfold key. rewrite prefix_2 by done. apply Hv.
Qed.

End walk_alloc.
