(* ===== verification/VmMap.v ===== *)
(** * Mapping and unmapping pages

   mappages(), uvmunmap() and their callers on address spaces. *)

From stdpp Require Import base numbers list gmap sets strings.
From Stdlib Require Import ZArith Lia.
From S2P Require Import Prelude Params Kalloc Vm VmSpace.

(** Entry [v] of the map becomes [nv]. *)
Definition put_map (v : Z) (nv : option Z) (A : aspace) : aspace :=
  set_map (partial_alter (fun _ => nv) v (as_map A)) A.

Definition pte_ok (pte : Z) : Prop := has PTE_V pte = true /\ 0 <= pte < 2 ^ 64.

Lemma as_ok_put kend m A v nv t :
  as_ok kend m A -> ram_ok m -> as_tab A !! (0%nat, v / 512) = Some t ->
  (forall pte, nv = Some pte -> pte_ok pte) ->
  as_ok kend (put_pte t (v mod 512) (default 0 nv) m) (put_map v nv A).
Proof.
  intros Hok Hram Ht Hnv. destruct (Z.mod_pos_bound v 512) as [Hi Hi']; [lia|].
  assert (forall k t' j, as_tab A !! k = Some t' -> 0 <= j < 512 -> k <> (0%nat, v / 512) \/ j <> v mod 512 ->
    pte_at (put_pte t (v mod 512) (default 0 nv) m) t' j = pte_at m t' j) as Hold.
  { intros k t' j Hk Hj Hne. apply pte_at_put_ne; [lia|lia|]. destruct Hne as [Hne|]; [|auto].
    left. intros ->. apply Hne. by eapply ok_inj. }
  pose proof (ok_page _ _ _ Hok _ _ _ Ht) as (_ & _ & [p Hp]). destruct (Hram _ _ Hp) as (_ & _ & Hpg).
  split; simpl; try apply Hok.
  - intros l q t' Hk. eapply ram_page_same; [apply same_ram_put|]. by eapply ok_page.
  - intros l q t' i Hk Hj. rewrite (Hold _ _ _ Hk Hj) by (left; done). by apply (ok_dir _ _ _ Hok).
  - intros q t' i Hk Hj. destruct (decide (q * 512 + i = v)) as [E|Hne].
    + subst v. replace ((q * 512 + i) / 512) with q in * by divlia. replace ((q * 512 + i) mod 512) with i in * by divlia.
      assert (t' = t) as -> by congruence. rewrite (pte_at_put_eq _ _ _ _ p) by done.
      rewrite lookup_partial_alter_eq. destruct nv as [pte|]; [|done]. apply u64_small. by apply Hnv.
    + rewrite (Hold _ _ _ Hk Hj), lookup_partial_alter_ne by (congruence || (destruct (decide (q = v / 512)); [right|left; congruence]; divlia)).
      by apply (ok_leaf _ _ _ Hok).
  - intros v' pte Hv'. destruct (decide (v' = v)) as [->|].
    + rewrite lookup_partial_alter_eq in Hv'. destruct (Hnv _ Hv'). split; [done|]. split; [done|by eexists].
    + rewrite lookup_partial_alter_ne in Hv' by done. by apply (ok_map _ _ _ Hok).
Qed.

Section map.
Context {kend : Z} (Hend : 0 < kend).

(** Writing a leaf entry, with the pages that come into or leave the space. *)
Lemma vm_put s l xs xs' A v nv t :
  vm_ok kend s l xs A -> as_tab A !! (0%nat, v / 512) = Some t ->
  (forall pte, nv = Some pte -> pte_ok pte) ->
  upages (put_map v nv A) ++ xs' ≡ₚ upages A ++ xs ->
  vm_ok kend (set_mem (put_pte t (v mod 512) (default 0 nv)) s) l xs' (put_map v nv A) /\
  same_ram (km_mem s) (put_pte t (v mod 512) (default 0 nv) (km_mem s)) [t].
Proof.
  intros Hv Ht Hnv Hp. pose proof (same_ram_put (km_mem s) t (v mod 512) (default 0 nv)) as Hs.
  assert (t ∈ tables A) as Htt by (apply elem_of_tables; by eexists).
  pose proof (v_nodup _ _ _ _ _ Hv) as Hnd. split; [|done]. split.
  - apply free_put; [apply Hv|]. intros Htl. apply NoDup_app in Hnd as (_ & Hd & _). apply (Hd t Htt). lin.
  - apply as_ok_put; [apply Hv|apply (fr_ram _ _ _ (v_free _ _ _ _ _ Hv))|done|done].
  - change (tables (put_map v nv A)) with (tables A). by rewrite (app_assoc (upages _)), Hp, <- app_assoc.
  - intros p. change (tables (put_map v nv A)) with (tables A). rewrite elem_of_app, Hp. intros Hin.
    eapply ram_page_same; [exact Hs|]. apply (v_foot _ _ _ _ _ Hv). lin.
Qed.

Lemma put_map_insert v pte A : put_map v (Some pte) A = set_map (<[v := pte]> (as_map A)) A.
Proof. done. Qed.
Lemma put_map_delete v A : put_map v None A = set_map (delete v (as_map A)) A.
Proof. done. Qed.

(* ------------------------------------------------------------------ *)
(** ** mappages() *)

Fixpoint map_range (v pa perm : Z) (n : nat) (f : gmap Z Z) : gmap Z Z :=
  match n with
  | O => f
  | S n' => map_range (v + 1) (pa + PGSIZE) perm n' (<[v := mkpte pa perm]> f)
  end.

(** The pages of the range that the space comes to own. *)
Fixpoint oparts (own : Z -> bool) (v pa : Z) (n : nat) : list Z :=
  match n with
  | O => []
  | S n' => (if own v then [pa] else []) ++ oparts own (v + 1) (pa + PGSIZE) n'
  end.

(** After [k] pages of a range were mapped. *)
Record mapped (v pa perm : Z) (k : nat) (l : list Z) (A : aspace) (l' : list Z) (A' : aspace) : Prop := {
  mp_root : as_root A' = as_root A;
  mp_own : as_own A' = as_own A;
  mp_map : as_map A' = map_range v pa perm k (as_map A);
  mp_tab k t : as_tab A !! k = Some t -> as_tab A' !! k = Some t;
  mp_perm : tables A' ++ l' ≡ₚ tables A ++ l
}.

(** New tables are tables the range needs. *)
Definition needed (v : Z) (n : nat) (k : nat * Z) : Prop :=
  exists w, v <= w < v + Z.of_nat n /\ (k = (0%nat, w / 512) \/ k = (1%nat, w / 512 / 512)).

Definition new_needed (v : Z) (n : nat) (A A' : aspace) : Prop :=
  forall k, is_Some (as_tab A' !! k) -> is_Some (as_tab A !! k) \/ needed v n k.

Lemma key_needed va k : 0 <= va -> k = key 0 va \/ k = key 1 va -> needed (vpn va) 1 k.
Proof.
  intros Hva Hk. exists (vpn va). split; [lia|]. unfold key in Hk.
  rewrite <- (prefix_up 0), prefix_0 in Hk by done. done.
Qed.

(** One page of mappages(): mapped, or no memory for a table was left. *)
Lemma map_page_spec s l xs A a pa perm :
  let v := vpn a in
  vm_ok kend s l (oparts (as_own A) v pa 1 ++ xs) A -> aligned a -> 0 <= a < MAXVA ->
  phys pa -> 0 <= perm < 2 ^ 10 -> as_map A !! v = None ->
  exists b s' l' A', map_page (as_root A) a pa perm s = Ok b s' /\
    vm_ok kend s' l' (oparts (as_own A) v pa (if b then 0 else 1) ++ xs) A' /\
    same_ram (km_mem s) (km_mem s') (tables A ++ l) /\ new_needed v 1 A A' /\
    mapped v pa perm (if b : bool then 1 else 0) l A l' A' /\
    (length l <= length l' + 2)%nat /\ (b = false -> l' = [] /\ (length l < 2)%nat).
Proof.
  intros v Hv Hal Ha Hpa Hperm Hn. unfold map_page.
  destruct (walk_alloc Hend s l _ A a Hv Ha) as (r & s1 & l1 & A1 & E & Hv1 & Hg & Hs1 & Hlen & Hr).
  destruct Hg as [Groot Gmap Gown Gtab Gnew Gperm]. erewrite bind_Ok by done.
  assert (new_needed v 1 A A1) as Hnew.
  { intros k Hk. apply Gnew in Hk as [Hk|Hk]; [auto|]. right. apply key_needed; [lia|done]. }
  destruct Hr as [(-> & -> & Hlt)|(t & Ht & ->)].
  { exists false, s1, [], A1. do 6 (split; [by try done; split|]). done. }
  pose proof (leaf_addr_spec Hend s1 A1 a (v_as _ _ _ _ _ Hv1) Ha) as H. rewrite Ht in H.
  destruct H as (El & Hne & (Hta & _ & Htm) & Hrd). rewrite El in Hne, Hrd.
  rewrite (proj2 (Z.eqb_neq _ 0)) by done. erewrite bind_Ok by done. rewrite Gmap. fold v. rewrite Hn.
  change (has PTE_V (default 0 None)) with false. cbv iota. change (Z.lor (Z.lor (PA2PTE pa) perm) PTE_V) with (mkpte pa perm).
  erewrite bind_Ok by (apply wr64_pte; [done|apply PX_range|done]).
  unfold key in Ht. rewrite prefix_0 in Ht. rewrite PX_0 by lia. fold v in Ht |- *.
  destruct (vm_put s1 l1 (oparts (as_own A) v pa 1 ++ xs) xs A1 v (Some (mkpte pa perm)) t) as [Hv2 Hs2].
  - done.
  - done.
  - intros pte [= <-]. split; [by apply mkpte_valid|by apply mkpte_range].
  - rewrite put_map_insert, upages_insert by (by rewrite Gmap). unfold owned. simpl.
    rewrite mkpte_pa, Gown by done. rewrite app_nil_r, <- !app_assoc. by rewrite Permutation_app_swap_app.
  - exists true, (set_mem (put_pte t (v mod 512) (mkpte pa perm)) s1), l1, (put_map v (Some (mkpte pa perm)) A1).
    split; [done|]. split; [done|].
    assert (t ∈ tables A1) as Htt by (apply elem_of_tables; by eexists).
    split; [|split; [done|split; [|done]]].
    + eapply same_ram_trans; [exact Hs1|exact Hs2|]. intros x ->%list_elem_of_singleton.
      rewrite <- Gperm. lin.
    + split; try done. simpl. by rewrite Gmap.
Qed.

Lemma mapped_trans v pa perm k l A l1 A1 l2 A2 :
  mapped v pa perm 1 l A l1 A1 -> mapped (v + 1) (pa + PGSIZE) perm k l1 A1 l2 A2 ->
  mapped v pa perm (S k) l A l2 A2.
Proof.
  intros [? ? Hm Ht Hp] [? ? Hm' Ht' Hp']. split; try congruence; [by rewrite Hm', Hm|auto|by rewrite Hp', Hp].
Qed.

Lemma new_needed_trans v n m A A1 A2 w :
  new_needed v n A A1 -> new_needed w m A1 A2 -> v <= w -> w + Z.of_nat m <= v + Z.of_nat (n + m) ->
  new_needed v (n + m) A A2.
Proof.
  intros H1 H2 Hle Hm k Hk. apply H2 in Hk as [Hk|(x & Hx & Hk)].
  - apply H1 in Hk as [?|(x & Hx & Hk)]; [auto|]. right. exists x. split; [lia|done].
  - right. exists x. split; [lia|done].
Qed.

Lemma vpn_next a : vpn (a + PGSIZE) = vpn a + 1.
Proof. unfold vpn, PGSIZE. divlia. Qed.
Lemma phys_next pa : phys pa -> pa + PGSIZE < 2 ^ 56 -> phys (pa + PGSIZE).
Proof. intros [Ha Hp] Hlt. unfold phys, aligned, PGSIZE in *. divlia. Qed.

Lemma mappages_loop_S f pt a last pa perm :
  mappages_loop (S f) pt a last pa perm =
  (let* ok := map_page pt a pa perm in
   if negb ok then ret (-1)
   else if a =? last then ret 0
   else mappages_loop f pt (u64 (a + PGSIZE)) last (u64 (pa + PGSIZE)) perm).
Proof. done. Qed.

(** The whole loop: all [n] pages, or the first [k] of them and then no
    memory for a table. *)
Lemma mappages_loop_spec n s l xs A a pa perm :
  let v := vpn a in
  vm_ok kend s l (oparts (as_own A) v pa (S n) ++ xs) A -> aligned a -> 0 <= a -> a + Z.of_nat n * PGSIZE < MAXVA ->
  phys pa -> pa + Z.of_nat n * PGSIZE < 2 ^ 56 -> 0 <= perm < 2 ^ 10 ->
  (forall i, 0 <= i <= Z.of_nat n -> as_map A !! (v + i) = None) ->
  exists r k s' l' A',
    mappages_loop (S n) (as_root A) a (a + Z.of_nat n * PGSIZE) pa perm s = Ok r s' /\
    (r = 0 /\ k = S n \/ r = -1 /\ (k <= n)%nat /\ l' = [] /\ (length l < 2 * S n)%nat) /\
    vm_ok kend s' l' (oparts (as_own A) (v + Z.of_nat k) (pa + Z.of_nat k * PGSIZE) (S n - k) ++ xs) A' /\
    same_ram (km_mem s) (km_mem s') (tables A ++ l) /\ new_needed v (S n) A A' /\
    mapped v pa perm k l A l' A' /\ (length l <= length l' + 2 * S n)%nat.
Proof.
  revert s l A a pa. induction n as [|n IH]; intros s l A a pa v Hv Hal Ha Hmax Hpa Hpm Hperm Hn.
  - destruct (map_page_spec s l xs A a pa perm) as (b & s' & l' & A' & E & Hv' & Hs & Hnew & Hmp & Hlen & Hl'); try done; [lia| |].
    { specialize (Hn 0). fold v. rewrite <- Hn by lia. f_equal. lia. }
    cbn [mappages_loop]. erewrite bind_Ok by done. rewrite Z.add_0_r, Z.eqb_refl.
    exists (if b then 0 else -1), (if b then 1%nat else 0%nat), s', l', A'. fold v in Hv', Hnew, Hmp.
    destruct b; cbn [negb]; (split; [done|]).
    + split; [auto|]. split; [|done]. done.
    + destruct (Hl' eq_refl). split; [right; auto|]. split; [|done]. simpl. rewrite !Z.add_0_r in *. done.
  - assert (oparts (as_own A) v pa (S (S n)) ++ xs =
      oparts (as_own A) v pa 1 ++ (oparts (as_own A) (v + 1) (pa + PGSIZE) (S n) ++ xs)) as Eo.
    { simpl. rewrite app_nil_r, <- !app_assoc. done. }
    rewrite Eo in Hv.
    destruct (map_page_spec s l (oparts (as_own A) (v + 1) (pa + PGSIZE) (S n) ++ xs) A a pa perm)
      as (b & s1 & l1 & A1 & E & Hv1 & Hs1 & Hnew1 & Hmp1 & Hlen1 & Hl1); try done; [unfold PGSIZE in *; lia| |].
    { specialize (Hn 0). fold v. rewrite <- Hn by lia. f_equal. lia. }
    rewrite mappages_loop_S. erewrite bind_Ok by done. fold v in Hv1, Hnew1, Hmp1. destruct b; cbn [negb].
    2: { exists (-1), 0%nat, s1, l1, A1. split; [done|]. split; [destruct (Hl1 eq_refl); right; auto with lia|].
         split; [|split; [done|split; [|split; [done|lia]]]].
         - rewrite Nat.sub_0_r. simpl Z.of_nat. rewrite Z.mul_0_l, !Z.add_0_r, Eo. done.
         - eapply (new_needed_trans v 1 (S n) A A1 A1 (v + 1)); [done| |lia|lia]. intros k Hk. auto. }
    rewrite (proj2 (Z.eqb_neq a _)) by (unfold PGSIZE; lia).
    rewrite (u64_small (a + _)), (u64_small (pa + _)) by (change MAXVA with (2 ^ 38) in *; destruct Hpa; unfold PGSIZE in *; lia).
    pose proof Hmp1 as [Mr Mo Mm Mt Mp]. rewrite <- Mr.
    replace (a + Z.of_nat (S n) * PGSIZE) with (a + PGSIZE + Z.of_nat n * PGSIZE) by (unfold PGSIZE; lia).
    destruct (IH s1 l1 A1 (a + PGSIZE) (pa + PGSIZE)) as (r & k & s' & l' & A' & E' & Hr & Hv' & Hs' & Hnew' & Hmp' & Hlen').
    + rewrite vpn_next, Mo. fold v. done.
    + unfold aligned, PGSIZE in *. divlia.
    + unfold PGSIZE. lia.
    + unfold PGSIZE in *. lia.
    + apply phys_next; [done|]. unfold PGSIZE in *. lia.
    + unfold PGSIZE in *. lia.
    + done.
    + intros i Hi. rewrite vpn_next, Mm. fold v. simpl. rewrite lookup_insert_ne by lia.
      rewrite <- (Hn (i + 1)) by lia. f_equal. lia.
    + exists r, (S k), s', l', A'. rewrite vpn_next in *. fold v in Hv', Hnew', Hmp'. split; [done|].
      split; [destruct Hr as [[-> ->]|(-> & Hk & -> & Hlt)]; [by left|right; auto with lia]|].
      split; [|split; [|split; [|split; [|lia]]]].
      * rewrite Mo in Hv'. replace (v + Z.of_nat (S k)) with (v + 1 + Z.of_nat k) by lia.
        replace (pa + Z.of_nat (S k) * PGSIZE) with (pa + PGSIZE + Z.of_nat k * PGSIZE) by (unfold PGSIZE; lia).
        done.
      * eapply same_ram_trans; [exact Hs1|exact Hs'|]. intros x Hx. by rewrite <- Mp.
      * eapply (new_needed_trans v 1 (S n) A A1 A' (v + 1)); [done|done|lia|lia].
      * by eapply mapped_trans.
Qed.


(** mappages() of a whole range. *)
Lemma mappages_spec n s l xs A va pa perm :
  let v := vpn va in
  vm_ok kend s l (oparts (as_own A) v pa (S n) ++ xs) A -> aligned va -> 0 <= va -> va + Z.of_nat n * PGSIZE < MAXVA ->
  phys pa -> pa + Z.of_nat n * PGSIZE < 2 ^ 56 -> 0 <= perm < 2 ^ 10 ->
  (forall i, 0 <= i <= Z.of_nat n -> as_map A !! (v + i) = None) ->
  exists r k s' l' A',
    mappages (as_root A) va (Z.of_nat (S n) * PGSIZE) pa perm s = Ok r s' /\
    (r = 0 /\ k = S n \/ r = -1 /\ (k <= n)%nat /\ l' = [] /\ (length l < 2 * S n)%nat) /\
    vm_ok kend s' l' (oparts (as_own A) (v + Z.of_nat k) (pa + Z.of_nat k * PGSIZE) (S n - k) ++ xs) A' /\
    same_ram (km_mem s) (km_mem s') (tables A ++ l) /\ new_needed v (S n) A A' /\
    mapped v pa perm k l A l' A' /\ (length l <= length l' + 2 * S n)%nat.
Proof.
  intros v Hv Hal Ha Hmax Hpa Hpm Hperm Hn. unfold mappages. rewrite Hal. cbn [Z.eqb negb].
  rewrite Z.mod_mul by (unfold PGSIZE; lia). cbn [Z.eqb negb].
  rewrite (proj2 (Z.eqb_neq _ 0)) by (unfold PGSIZE; lia).
  rewrite Z.div_mul, Nat2Z.id by (unfold PGSIZE; lia).
  replace (u64 (va + Z.of_nat (S n) * PGSIZE - PGSIZE)) with (va + Z.of_nat n * PGSIZE).
  - by apply mappages_loop_spec.
  - rewrite u64_small; unfold PGSIZE in *; [lia|]. change MAXVA with (2 ^ 38) in *. lia.
Qed.

(* ------------------------------------------------------------------ *)
(** ** uvmunmap() *)

(** Who owns a page is a matter of accounting. *)
Definition set_own (own : Z -> bool) (A : aspace) : aspace := ASpace (as_root A) (as_tab A) (as_map A) own.

Lemma vm_ok_own s l xs xs' A own :
  vm_ok kend s l xs A -> upages (set_own own A) ++ xs' ≡ₚ upages A ++ xs -> vm_ok kend s l xs' (set_own own A).
Proof.
  intros [Hf Ha Hn Hp] Hperm. split; [done| | |].
  - destruct Ha. by split.
  - change (tables (set_own own A)) with (tables A). by rewrite (app_assoc (upages _)), Hperm, <- app_assoc.
  - intros p. change (tables (set_own own A)) with (tables A). rewrite elem_of_app, Hperm. intros. apply Hp. lin.
Qed.

Lemma upages_own A own :
  (forall v, is_Some (as_map A !! v) -> own v = as_own A v) -> upages (set_own own A) = upages A.
Proof.
  intros H. unfold upages. simpl.
  assert (forall kvs, (forall kv, kv ∈ kvs -> own kv.1 = as_own A kv.1) -> kvs ≫= owned own = kvs ≫= owned (as_own A)) as Hb.
  { induction kvs as [|kv kvs IH]; intros Hk; [done|]. simpl. unfold owned at 1 3. rewrite Hk by lin.
    f_equal. apply IH. intros kv' ?. apply Hk. lin. }
  apply Hb. intros [v pte] Hin%elem_of_map_to_list. apply H. by eexists.
Qed.

(** One page: its entry is cleared and, when it belongs to the space, the
    page is freed. *)
Lemma unmap_page_spec s l xs A a free :
  let v := vpn a in
  vm_ok kend s l xs A -> 0 <= a < MAXVA -> (is_Some (as_map A !! v) -> free = as_own A v) ->
  exists s' l', unmap_page kend (as_root A) a free s = Ok tt s' /\ vm_ok kend s' l' xs (put_map v None A) /\
    upages (put_map v None A) ++ l' ≡ₚ upages A ++ l /\ (forall x, x ∈ l -> x ∈ l') /\
    same_ram (km_mem s) (km_mem s') (tables A ++ l').
Proof.
  intros v Hv Ha Hfree. unfold unmap_page. pose proof (v_as _ _ _ _ _ Hv) as Hok.
  erewrite bind_Ok by by apply (walk_find Hend).
  pose proof (leaf_addr_spec Hend s A a Hok Ha) as H.
  assert (as_map A !! v = None -> put_map v None A = A) as Hsame.
  { intros E. rewrite put_map_delete, delete_id by done. by destruct A. }
  destruct (as_tab A !! key 0 a) as [t|] eqn:Et.
  2: { destruct H as [-> En]. fold v in En. rewrite (Hsame En). exists s, l. rewrite Z.eqb_refl. auto using same_ram_refl. }
  destruct H as (El & Hne & (Hta & Htr & Htm) & Hrd). rewrite (proj2 (Z.eqb_neq _ 0)) by done.
  erewrite bind_Ok by done. fold v. destruct (as_map A !! v) as [pte|] eqn:Em.
  2: { change (has PTE_V (default 0 None)) with false. rewrite (Hsame eq_refl). exists s, l. auto using same_ram_refl. }
  destruct (ok_map _ _ _ Hok _ _ Em) as (Hval & _ & _). cbn [default]. unfold from_option, id. rewrite Hval. cbn [negb].
  assert (t ∈ tables A) as Htt by (apply elem_of_tables; by eexists).
  unfold key in Et. rewrite prefix_0 in Et. rewrite El, PX_0 by lia. fold v in Et |- *.
  specialize (Hfree ltac:(by eexists)). pose proof (upages_delete A v pte Em) as Hup. unfold owned in Hup. simpl in Hup.
  rewrite <- put_map_delete, <- Hfree in Hup. destruct free.
  - set (own0 := fun w => if decide (w = v) then false else as_own A w).
    assert (own0 v = false) as Hov by (unfold own0; by rewrite decide_True).
    assert (upages (set_own own0 A) ≡ₚ upages (put_map v None A)) as E0.
    { rewrite (upages_delete (set_own own0 A) v pte) by done. unfold owned. simpl. rewrite Hov, app_nil_l, put_map_delete.
      rewrite <- (upages_own (set_map (delete v (as_map A)) A) own0); [done|]. simpl. intros w [x Hw]. unfold own0.
      rewrite decide_False; [done|]. intros ->. by rewrite lookup_delete_eq in Hw. }
    assert (vm_ok kend s l (PTE2PA pte :: xs) (set_own own0 A)) as Hv0.
    { apply (vm_ok_own s l xs); [done|]. rewrite E0, Hup. simpl. by rewrite <- Permutation_middle. }
    destruct (vm_kfree Hend s l (PTE2PA pte) xs _ Hv0) as (s1 & E1 & Hv1 & Hs1).
    erewrite bind_Ok by done. rewrite wr64_pte by (done || (apply Z.mod_pos_bound; lia) || by apply Hs1).
    destruct (vm_put s1 _ xs xs _ v None t Hv1 Et) as [Hv2 Hs2]; [done| |].
    { rewrite put_map_delete. rewrite (upages_delete (set_own own0 A) v pte) by done.
      unfold owned. simpl. by rewrite Hov. }
    eexists _, (PTE2PA pte :: l). split; [done|]. split; [|split; [|split; [intros x ?; by right|]]].
    + apply (vm_ok_own _ _ _ xs _ (as_own A)) in Hv2; [done|]. rewrite upages_own; [done|].
      simpl. intros w [x Hw]. unfold own0. rewrite decide_False; [done|]. intros ->.
      by rewrite lookup_partial_alter_eq in Hw.
    + rewrite Hup. simpl. by rewrite <- Permutation_middle.
    + eapply same_ram_trans; [|exact Hs2|intros x ->%list_elem_of_singleton; lin].
      destruct Hs1 as [H1 H2]. split; [|done]. intros x Hx. apply H1. intros ->%list_elem_of_singleton. lin.
  - erewrite bind_Ok by done. rewrite wr64_pte by (done || (apply Z.mod_pos_bound; lia)).
    destruct (vm_put s l xs xs A v None t Hv Et) as [Hv2 Hs2]; [done|by rewrite Hup|].
    eexists _, l. split; [done|]. split; [done|]. split; [by rewrite Hup|]. split; [done|].
    destruct Hs2 as [H1 H2]. split; [|done]. intros x Hx. apply H1. intros ->%list_elem_of_singleton. lin.
Qed.


Fixpoint unmap (v : Z) (n : nat) (A : aspace) : aspace :=
  match n with
  | O => A
  | S n' => unmap (v + 1) n' (put_map v None A)
  end.

Lemma unmap_same v n A :
  as_root (unmap v n A) = as_root A /\ as_tab (unmap v n A) = as_tab A /\ as_own (unmap v n A) = as_own A.
Proof. revert v A. induction n as [|n IH]; intros v A; simpl; [done|]. destruct (IH (v + 1) (put_map v None A)) as (-> & -> & ->). done. Qed.

Lemma unmap_lookup v n A w :
  as_map (unmap v n A) !! w = if decide (v <= w < v + Z.of_nat n) then None else as_map A !! w.
Proof.
  revert v A. induction n as [|n IH]; intros v A; simpl unmap.
  - by rewrite decide_False by lia.
  - rewrite IH. simpl. destruct (decide (w = v)) as [->|Hne].
    + rewrite decide_False, decide_True by lia. by rewrite lookup_partial_alter_eq.
    + rewrite lookup_partial_alter_ne by done. destruct (decide (v + 1 <= w < _)).
      * by rewrite decide_True by lia.
      * by rewrite decide_False by lia.
Qed.

Lemma uvmunmap_loop_spec n fuel s l xs A a free :
  let v := vpn a in
  vm_ok kend s l xs A -> 0 <= a -> a + Z.of_nat n * PGSIZE <= MAXVA -> (n <= fuel)%nat ->
  (forall w, v <= w < v + Z.of_nat n -> is_Some (as_map A !! w) -> free = as_own A w) ->
  exists s' l', uvmunmap_loop kend fuel (as_root A) a (a + Z.of_nat n * PGSIZE) free s = Ok tt s' /\
    vm_ok kend s' l' xs (unmap v n A) /\ upages (unmap v n A) ++ l' ≡ₚ upages A ++ l /\
    (forall x, x ∈ l -> x ∈ l') /\ same_ram (km_mem s) (km_mem s') (tables A ++ l').
Proof.
  revert fuel s l A a. induction n as [|n IH]; intros fuel s l A a v Hv Ha Hmax Hf Hown.
  { exists s, l. split; [|split; [done|split; [done|split; [done|apply same_ram_refl]]]].
    destruct fuel; simpl; rewrite (proj2 (Z.ltb_ge _ _)) by lia; done. }
  destruct fuel as [|fuel]; [lia|]. cbn [uvmunmap_loop].
  rewrite (proj2 (Z.ltb_lt _ _)) by (unfold PGSIZE; lia).
  destruct (unmap_page_spec s l xs A a free Hv) as (s1 & l1 & E1 & Hv1 & Hp1 & Hl1 & Hs1);
    [unfold PGSIZE in *; lia|intros; apply Hown; [unfold v; lia|done]|].
  erewrite bind_Ok by done. fold v in Hv1, Hp1.
  rewrite (u64_small (a + _)) by (change MAXVA with (2 ^ 38) in *; unfold PGSIZE in *; lia).
  replace (a + Z.of_nat (S n) * PGSIZE) with (a + PGSIZE + Z.of_nat n * PGSIZE) by (unfold PGSIZE; lia).
  destruct (IH fuel s1 l1 (put_map v None A) (a + PGSIZE)) as (s' & l' & E & Hv' & Hp' & Hl' & Hs');
    [done|unfold PGSIZE; lia|unfold PGSIZE in *; lia|lia| |].
  - rewrite vpn_next. fold v. simpl. intros w Hw [x Hx]. rewrite lookup_partial_alter_ne in Hx by lia.
    apply Hown; [lia|by eexists].
  - rewrite vpn_next in *. fold v in Hv', Hp'. exists s', l'. split; [done|]. split; [done|].
    split; [by rewrite Hp', Hp1|]. split; [auto|].
    eapply same_ram_trans; [|exact Hs'|]; [|intros x; change (tables (put_map v None A)) with (tables A); lin].
    destruct Hs1 as [H1 H2]. split; [|done]. intros x Hx. apply H1. specialize (Hl' x). lin.
Qed.

(** uvmunmap() clears the range, frees what the space owned there, and
    changes no other entry. *)
Lemma uvmunmap_spec n s l xs A va free :
  let v := vpn va in
  vm_ok kend s l xs A -> aligned va -> 0 <= va -> va + Z.of_nat n * PGSIZE <= MAXVA ->
  (forall w, v <= w < v + Z.of_nat n -> is_Some (as_map A !! w) -> free = as_own A w) ->
  exists s' l', uvmunmap kend (as_root A) va (Z.of_nat n) free s = Ok tt s' /\
    vm_ok kend s' l' xs (unmap v n A) /\ upages (unmap v n A) ++ l' ≡ₚ upages A ++ l /\
    (forall x, x ∈ l -> x ∈ l') /\ same_ram (km_mem s) (km_mem s') (tables A ++ l').
Proof.
  intros v Hv Hal Ha Hmax Hown. unfold uvmunmap. rewrite Hal. cbn [Z.eqb negb].
  rewrite u64_small by (change MAXVA with (2 ^ 38) in *; unfold PGSIZE in *; lia).
  apply uvmunmap_loop_spec; try done. unfold PGSIZE. divlia.
Qed.

End map.
