(* ===== verification/VmUser.v ===== *)
(** * Growing, copying and freeing user memory

   uvmalloc(), uvmdealloc(), uvmcopy(), uvmfree() and vmfault() on the
   address spaces of VmSpace.v. *)

From stdpp Require Import base numbers list gmap sets strings.
From Stdlib Require Import ZArith Lia.
From S2P Require Import Prelude Params Kalloc Vm VmSpace VmMap.

(** A process owns the pages below its trapframe. *)
Definition UV : Z := TRAPFRAME / PGSIZE.
Definition user_own (v : Z) : bool := v <? UV.

(** A page that was added to a space: where, which page, with which
    permissions and contents. *)
Record newpage := NP { np_v : Z; np_pa : Z; np_perm : Z; np_bytes : list Z }.

Fixpoint map_new (es : list newpage) (f : gmap Z Z) : gmap Z Z :=
  match es with
  | [] => f
  | e :: es' => <[np_v e := mkpte (np_pa e) (np_perm e)]> (map_new es' f)
  end.

Definition new_pages (es : list newpage) : list Z := map np_pa es.

Section user.
Context {kend : Z} (Hend : 0 < kend).

(** The space [A0] with the new pages [es], and nothing else changed. *)
Record added (s0 : kmem) (l0 xs : list Z) (A0 : aspace) (es : list newpage)
    (s : kmem) (l : list Z) (A : aspace) : Prop := {
  ad_vm : vm_ok kend s l xs A;
  ad_root : as_root A = as_root A0;
  ad_own : as_own A = as_own A0;
  ad_map : as_map A = map_new es (as_map A0);
  ad_mem e : e ∈ es -> km_mem s !! np_pa e = Some (np_bytes e);
  ad_owned e : e ∈ es -> as_own A0 (np_v e) = true;
  ad_ram : same_ram (km_mem s0) (km_mem s) (tables A0 ++ l0);
  ad_nodup : NoDup (tables A0 ++ l0);
  ad_perm : tables A ++ new_pages es ++ l ≡ₚ tables A0 ++ l0;
  ad_up : upages A ≡ₚ new_pages es ++ upages A0
}.

Lemma upages_ext A A' : as_map A = as_map A' -> as_own A = as_own A' -> upages A = upages A'.
Proof. unfold upages. by intros -> ->. Qed.

Lemma vm_nodup s l xs A : vm_ok kend s l xs A -> NoDup (tables A ++ l).
Proof.
  intros Hv. pose proof (v_nodup _ _ _ _ _ Hv) as Hn. rewrite !NoDup_app in *.
  destruct Hn as (H1 & H2 & _ & H3 & _ & H4 & H5). split; [done|]. split; [|done].
  intros x Hx Hl. apply (H2 x Hx). lin.
Qed.

Lemma added_refl s l xs A : vm_ok kend s l xs A -> added s l xs A [] s l A.
Proof.
  intros Hv. pose proof (vm_nodup _ _ _ _ Hv).
  split; try done; intros e He; by apply not_elem_of_nil in He.
Qed.

Lemma added_kalloc_none s0 l0 xs A0 es s A :
  added s0 l0 xs A0 es s [] A -> exists s', kalloc s = Ok 0 s' /\ added s0 l0 xs A0 es s' [] A.
Proof.
  intros [Hv ? ? ? Hm ? Hr ? Hp ?]. destruct (vm_kalloc Hend s [] xs A Hv) as (s' & E & Hv' & Em).
  exists s'. split; [done|]. split; try done; by rewrite Em.
Qed.

Lemma elem_of_new_pages es e : e ∈ es -> np_pa e ∈ new_pages es.
Proof. intros. unfold new_pages. apply list_elem_of_fmap. by exists e. Qed.

(** kalloc(), fill the page, mappages(): the page is added, or there is no
    memory for a table and kfree() gives the page back. *)
Lemma added_step s0 l0 xs A0 es s p l A va perm bs :
  added s0 l0 xs A0 es s (p :: l) A -> aligned va -> 0 <= va < MAXVA -> 0 <= perm < 2 ^ 10 ->
  as_map A !! vpn va = None -> as_own A0 (vpn va) = true -> is_page bs ->
  exists s1 r s3, kalloc s = Ok p s1 /\ p <> 0 /\ ram_page kend (km_mem s1) p /\
    same_ram (km_mem s) (km_mem s1) [p] /\
    mappages (as_root A) va PGSIZE p perm (set_mem <[p := bs]> s1) = Ok r s3 /\
    ((r = 0 /\ exists l' A', added s0 l0 xs A0 (NP (vpn va) p perm bs :: es) s3 l' A' /\ (length l <= length l' + 2)%nat) \/
     (r = -1 /\ exists s4 l' A', kfree kend p s3 = Ok tt s4 /\ added s0 l0 xs A0 es s4 l' A' /\ (length l < 2)%nat)).
Proof.
  intros Had Hal Ha Hperm Hn Ho Hbs. destruct Had as [Hv Hroot Hown Hmap Hmem Hod Hram Hnd Hpm Hup].
  destruct (vm_kalloc Hend s (p :: l) xs A Hv) as (s1 & E1 & Hv1 & Hp0 & Hs1).
  destruct (vm_disjoint _ _ _ _ _ Hv1) as (Hpt & Hpu & Hpl & Hpx & Hrp).
  destruct (vm_fill s1 l xs A p bs Hv1 Hbs) as [Hv2 Hs2].
  assert (forall x, x ∈ tables A ++ p :: l -> x ∈ tables A0 ++ l0) as Hsub by (intros x Hx; rewrite <- Hpm; lin).
  assert (forall e, e ∈ es -> np_pa e ∉ tables A ++ p :: l) as Hdis.
  { intros e He%elem_of_new_pages Hx. rewrite <- Hpm, !NoDup_app in Hnd.
    destruct Hnd as (_ & H1 & _ & H2 & _). specialize (H1 (np_pa e)). specialize (H2 (np_pa e) He). lin. }
  destruct (mappages_spec Hend 0 (set_mem <[p := bs]> s1) l xs A va p perm) as
    (r & k & s3 & l3 & A3 & E3 & Hr & Hv3 & Hs3 & _ & [Mr Mo Mm _ Mp] & Hlen).
  { cbn [oparts]. rewrite Hown, Ho. done. }
  1: done. 1,2: lia. 1: by eapply ram_phys.
  1: destruct Hrp as (_ & Hrp & _); unfold PHYSTOP, KERNBASE in Hrp; lia.
  1: done. 1: intros i Hi; assert (i = 0) as -> by lia; by rewrite Z.add_0_r.
  exists s1, r, s3. split; [done|]. split; [done|]. split; [done|]. split; [done|].
  split; [by rewrite <- E3|].
  assert (same_ram (km_mem s) (km_mem s3) (tables A ++ p :: l)) as Hs.
  { eapply same_ram_trans; [|exact Hs3|intros x; lin].
    eapply same_ram_trans; [|exact Hs2|intros x ->%list_elem_of_singleton; lin].
    destruct Hs1 as [H1 H2]. split; [|done]. intros x Hx. apply H1. lin. }
  destruct Hr as [[-> ->]|(-> & Hk & -> & Hlt)]; [left|right]; (split; [done|]).
  - exists l3, A3. split; [|lia]. split.
    + done.
    + congruence.
    + congruence.
    + rewrite Mm. simpl. by rewrite Hmap.
    + intros e [->|He]%elem_of_cons; simpl.
      * rewrite (proj1 Hs3) by (simpl; lin). simpl. apply lookup_insert_eq.
      * rewrite (proj1 Hs) by by apply Hdis. by apply Hmem.
    + intros e [->|He]%elem_of_cons; [done|by apply Hod].
    + eapply same_ram_trans; [done|exact Hs|done].
    + done.
    + simpl. perm.
    + rewrite (upages_ext A3 (set_map (<[vpn va := mkpte p perm]> (as_map A)) A)) by done.
      rewrite upages_insert by done. unfold owned. simpl. rewrite Hown, Ho, Hup.
      rewrite mkpte_pa by (done || by eapply ram_phys). done.
  - assert (k = 0%nat) as -> by lia. cbn [oparts Nat.sub] in Hv3. rewrite !Z.add_0_r, Hown, Ho in Hv3.
    destruct (vm_kfree Hend s3 [] p xs A3 Hv3) as (s4 & E4 & Hv4 & Hs4). exists s4, [p], A3.
    split; [done|]. split; [|lia]. split.
    + done.
    + congruence.
    + congruence.
    + by rewrite Mm.
    + intros e He. specialize (Hdis e He). rewrite (proj1 Hs4), (proj1 Hs) by (done || lin). by apply Hmem.
    + done.
    + eapply same_ram_trans; [|exact Hs4|intros x ->%list_elem_of_singleton; apply Hsub; lin].
      eapply same_ram_trans; [done|exact Hs|done].
    + done.
    + perm.
    + by rewrite (upages_ext A3 A).
Qed.

(** Taking the new pages out again gives the memory back. *)
Lemma added_undo s0 l0 xs A0 es s l A va n :
  added s0 l0 xs A0 es s l A -> aligned va -> 0 <= va -> va + Z.of_nat n * PGSIZE <= MAXVA ->
  (forall e, e ∈ es -> vpn va <= np_v e < vpn va + Z.of_nat n) ->
  (forall w, vpn va <= w < vpn va + Z.of_nat n -> as_map A0 !! w = None) ->
  exists s' l' A', uvmunmap kend (as_root A) va (Z.of_nat n) true s = Ok tt s' /\
    added s0 l0 xs A0 [] s' l' A'.
Proof.
  intros [Hv Hroot Hown Hmap Hmem Hod Hram Hnd Hpm Hup] Hal Ha Hmax Hes Hn.
  assert (forall f w, map_new es f !! w = f !! w \/ exists e, e ∈ es /\ w = np_v e) as Hnew.
  { intros f w. clear -es. induction es as [|e es IH]; simpl; [auto|]. destruct (decide (w = np_v e)) as [->|].
    - right. exists e. split; [by left|done].
    - rewrite lookup_insert_ne by done. destruct IH as [?|(e' & ? & ?)]; [auto|]. right. exists e'. split; [by right|done]. }
  destruct (uvmunmap_spec Hend n s l xs A va true Hv Hal Ha Hmax) as (s' & l' & E & Hv' & Hp & Hl & Hs).
  { intros w Hw [x Hx]. rewrite Hmap in Hx. destruct (Hnew (as_map A0) w) as [Hw0|(e & He & ->)].
    - rewrite Hw0, Hn in Hx by done. done.
    - rewrite Hown. symmetry. by apply Hod. }
  exists s', l', (unmap (vpn va) n A). split; [done|].
  destruct (unmap_same (vpn va) n A) as (Ur & Ut & Uo).
  assert (as_map (unmap (vpn va) n A) = as_map A0) as Um.
  { apply map_eq. intros w. rewrite unmap_lookup. case_decide as Hw; [by rewrite Hn|].
    rewrite Hmap. destruct (Hnew (as_map A0) w) as [->|(e & He & ->)]; [done|]. by apply Hes in He. }
  assert (tables (unmap (vpn va) n A) = tables A) as Etab by (unfold tables; by rewrite Ut).
  assert (new_pages es ++ l ≡ₚ l') as Hl'.
  { rewrite (upages_ext _ A0), Hup in Hp by congruence. clear -Hp. perm. }
  split; try done; try congruence.
  - intros e He. by apply not_elem_of_nil in He.
  - intros e He. by apply not_elem_of_nil in He.
  - eapply same_ram_trans; [done|exact Hs|]. intros x. rewrite <- Hpm, <- Hl'. lin.
  - rewrite Etab. simpl. by rewrite <- Hpm, Hl'.
  - by rewrite (upages_ext _ A0) by congruence.
Qed.


(* ------------------------------------------------------------------ *)
(** ** uvmdealloc() and uvmalloc() *)

Lemma PGROUNDUP_pages sz : 0 <= sz <= TRAPFRAME ->
  aligned (PGROUNDUP sz) /\ sz <= PGROUNDUP sz < sz + PGSIZE /\ PGROUNDUP sz <= TRAPFRAME.
Proof.
  intros Hs. destruct (PGROUNDUP_aligned sz) as [Ha Hb]; [lia|change TRAPFRAME with (2 ^ 38 - 8192) in *; unfold PGSIZE; lia|].
  split; [done|]. split; [done|]. change TRAPFRAME with (2 ^ 38 - 8192) in *. unfold PGSIZE in *. divlia.
Qed.

(** The pages between two sizes. *)
Definition npages (oldsz newsz : Z) : nat := Z.to_nat ((PGROUNDUP oldsz - PGROUNDUP newsz) / PGSIZE).

(** The zeroed pages uvmalloc() adds from [v] on, the newest first. *)
Definition zero_pages (v : Z) (n : nat) (perm : Z) (es : list newpage) : Prop :=
  map np_v es = reverse (seqZ v (Z.of_nat n)) /\
  forall e, e ∈ es -> np_perm e = perm /\ np_bytes e = replicate page_bytes 0.

Lemma zero_pages_range v n perm es e : zero_pages v n perm es -> e ∈ es -> v <= np_v e < v + Z.of_nat n.
Proof.
  intros [Hm _] He. assert (np_v e ∈ map np_v es) as H by (apply list_elem_of_fmap; by exists e).
  rewrite Hm, elem_of_reverse, elem_of_seqZ in H. lia.
Qed.

Lemma map_new_lookup es f w :
  NoDup (map np_v es) -> (exists e, e ∈ es /\ np_v e = w /\ map_new es f !! w = Some (mkpte (np_pa e) (np_perm e))) \/
  (w ∉ map np_v es /\ map_new es f !! w = f !! w).
Proof.
  induction es as [|e es IH]; simpl; [intros _; right; split; [apply not_elem_of_nil|done]|].
  intros [Hn Hnd]%NoDup_cons. destruct (decide (w = np_v e)) as [->|Hne].
  - left. exists e. split; [by left|]. split; [done|]. apply lookup_insert_eq.
  - rewrite lookup_insert_ne by done. destruct (IH Hnd) as [(e' & ? & ? & ?)|[? ?]].
    + left. exists e'. split; [by right|done].
    + right. split; [|done]. by apply not_elem_of_cons.
Qed.

Definition alloc_perm (xperm : Z) : Z := Z.lor (Z.lor PTE_R PTE_U) xperm.
Lemma alloc_perm_range xperm : 0 <= xperm < 2 ^ 10 -> 0 <= alloc_perm xperm < 2 ^ 10.
Proof. intros. apply lor_range; [lia| |done]. change (Z.lor PTE_R PTE_U) with 18. lia. Qed.

Lemma PGROUNDUP_id a : aligned a -> 0 <= a <= TRAPFRAME -> PGROUNDUP a = a.
Proof.
  intros Ha Hb. destruct (PGROUNDUP_pages a Hb) as (H1 & H2 & _). unfold aligned, PGSIZE in *. divlia.
Qed.

(** The machine arithmetic of uvmdealloc() does not wrap below TRAPFRAME. *)
Lemma uvmdealloc_eq pt oldsz newsz : 0 <= newsz < oldsz -> oldsz <= TRAPFRAME ->
  uvmdealloc kend pt oldsz newsz =
  ((if PGROUNDUP newsz <? PGROUNDUP oldsz then
      uvmunmap kend pt (PGROUNDUP newsz) (Z.of_nat (npages oldsz newsz)) true
    else ret tt) ;; ret newsz).
Proof.
  intros Hn Ho. unfold uvmdealloc. rewrite Z.geb_leb, (proj2 (Z.leb_gt oldsz newsz)) by lia.
  destruct (PGROUNDUP_pages newsz) as (H1 & H2 & H3); [lia|].
  destruct (PGROUNDUP_pages oldsz) as (H4 & H5 & H6); [lia|].
  destruct (Z.ltb_spec (PGROUNDUP newsz) (PGROUNDUP oldsz)); [|done].
  assert (0 <= (PGROUNDUP oldsz - PGROUNDUP newsz) / PGSIZE < 2 ^ 31).
  { change TRAPFRAME with (2 ^ 38 - 8192) in *. unfold PGSIZE in *. divlia. }
  unfold npages. rewrite Z2Nat.id by lia. by rewrite i32_small, u64_small by lia.
Qed.

(** The loop has mapped [n] of [N] pages; the failing paths undo them. *)
Lemma uvmalloc_undo s0 l0 xs A0 es s l A old n a perm :
  added s0 l0 xs A0 es s l A -> zero_pages (vpn old) n perm es ->
  aligned old -> 0 <= old -> a = old + Z.of_nat n * PGSIZE -> a <= TRAPFRAME ->
  (forall w, vpn old <= w < vpn old + Z.of_nat n -> as_map A0 !! w = None) ->
  exists s' l' A', (uvmdealloc kend (as_root A0) a old ;; ret 0) s = Ok 0 s' /\ added s0 l0 xs A0 [] s' l' A'.
Proof.
  intros Had Hz Hal Ho -> Hmax Hn. destruct n as [|n].
  - destruct Hz as [Hz _]. apply fmap_nil_inv in Hz as ->. exists s, l, A. split; [|done].
    unfold uvmdealloc. rewrite Z.geb_leb, (proj2 (Z.leb_le _ _)) by lia. done.
  - assert (aligned (old + Z.of_nat (S n) * PGSIZE)) as Ha by (unfold aligned, PGSIZE in *; divlia).
    rewrite uvmdealloc_eq by (unfold PGSIZE in *; lia). unfold npages.
    rewrite !PGROUNDUP_id by (done || (unfold PGSIZE in *; lia)).
    rewrite (proj2 (Z.ltb_lt _ _)) by (unfold PGSIZE; lia).
    replace ((old + Z.of_nat (S n) * PGSIZE - old) / PGSIZE) with (Z.of_nat (S n)) by (unfold PGSIZE; divlia).
    rewrite Nat2Z.id.
    destruct (added_undo s0 l0 xs A0 es s l A old (S n) Had Hal Ho) as (s' & l' & A' & E & Had').
    + change TRAPFRAME with (2 ^ 38 - 8192) in *. change MAXVA with (2 ^ 38). lia.
    + intros e He. by eapply zero_pages_range.
    + done.
    + exists s', l', A'. split; [|done]. rewrite <- (ad_root _ _ _ _ _ _ _ _ Had).
      erewrite bind_Ok; [reflexivity|]. erewrite bind_Ok by done. reflexivity.
Qed.

Lemma zero_pages_snoc v n perm es p :
  zero_pages v n perm es -> zero_pages v (S n) perm (NP (v + Z.of_nat n) p perm (replicate page_bytes 0) :: es).
Proof.
  intros [Hm Hz]. split.
  - simpl. rewrite Hm. rewrite seqZ_S, reverse_snoc. done.
  - intros e [->|He]%elem_of_cons; [done|by apply Hz].
Qed.

Lemma vpn_add old n : vpn (old + Z.of_nat n * PGSIZE) = vpn old + Z.of_nat n.
Proof. unfold vpn, PGSIZE. divlia. Qed.

Lemma uvmalloc_loop_S f pt old a newsz xperm :
  uvmalloc_loop kend (S f) pt old a newsz xperm =
  if a <? newsz then
    let* mem := kalloc in
    if mem =? 0 then uvmdealloc kend pt a old ;; ret 0
    else
      memset_page mem 0 ;;
      let* r := mappages pt a PGSIZE mem (alloc_perm xperm) in
      if negb (r =? 0) then kfree kend mem ;; uvmdealloc kend pt a old ;; ret 0
      else uvmalloc_loop kend f pt old (u64 (a + PGSIZE)) newsz xperm
  else ret newsz.
Proof. done. Qed.

Lemma uvmalloc_loop_spec fuel n s0 l0 xs A0 es s l A old newsz xperm N :
  added s0 l0 xs A0 es s l A -> zero_pages (vpn old) n (alloc_perm xperm) es ->
  aligned old -> 0 <= old -> old + Z.of_nat N * PGSIZE <= TRAPFRAME -> (n <= N <= n + fuel)%nat ->
  (forall k, (k <= N)%nat -> (old + Z.of_nat k * PGSIZE <? newsz) = bool_decide (k < N)%nat) ->
  (forall w, vpn old <= w < vpn old + Z.of_nat N -> as_map A0 !! w = None /\ as_own A0 w = true) ->
  0 <= xperm < 2 ^ 10 ->
  exists r s' l' A' es', uvmalloc_loop kend fuel (as_root A0) old (old + Z.of_nat n * PGSIZE) newsz xperm s = Ok r s' /\
    added s0 l0 xs A0 es' s' l' A' /\
    ((r = newsz /\ zero_pages (vpn old) N (alloc_perm xperm) es' /\ (length l <= length l' + 3 * (N - n))%nat) \/
     (r = 0 /\ es' = [] /\ (length l < 3 * (N - n))%nat)).
Proof.
  revert n es s l A. induction fuel as [|fuel IH]; intros n es s l A Had Hz Hal Ho Hmax HN Hlt Hr Hx.
  { exists newsz, s, l, A, es. assert (n = N) as -> by lia. split; [|split; [done|left; split; [done|split; [done|lia]]]]. simpl.
    rewrite Hlt, bool_decide_eq_false_2 by lia. done. }
  rewrite uvmalloc_loop_S, Hlt by lia. destruct (decide (n = N)) as [->|].
  { rewrite bool_decide_eq_false_2 by lia. exists newsz, s, l, A, es.
    split; [done|]. split; [done|]. left. split; [done|]. split; [done|lia]. }
  rewrite bool_decide_eq_true_2 by lia.
  set (a := old + Z.of_nat n * PGSIZE).
  assert (a + PGSIZE <= TRAPFRAME) as Ham by (unfold a, PGSIZE in *; lia).
  assert (forall es s l A, added s0 l0 xs A0 es s l A -> zero_pages (vpn old) n (alloc_perm xperm) es ->
    exists s' l' A', (uvmdealloc kend (as_root A0) a old ;; ret 0) s = Ok 0 s' /\ added s0 l0 xs A0 [] s' l' A') as Hundo.
  { intros es' s' l' A' Had' Hz'. eapply uvmalloc_undo; try done; [unfold PGSIZE in *; lia|].
    intros w Hw. apply Hr. lia. }
  destruct l as [|p l].
  { destruct (added_kalloc_none _ _ _ _ _ _ _ Had) as (s1 & E1 & Had1). erewrite bind_Ok by done.
    rewrite Z.eqb_refl. destruct (Hundo _ _ _ _ Had1 Hz) as (s' & l' & A' & E & Had').
    exists 0, s', l', A', []. split; [done|]. split; [done|]. right. split; [done|]. split; [done|]. simpl. lia. }
  assert (aligned a) as Haa by (unfold a, aligned, PGSIZE in *; divlia).
  assert (vpn a = vpn old + Z.of_nat n) as Eva by apply vpn_add.
  destruct (added_step s0 l0 xs A0 es s p l A a (alloc_perm xperm) (replicate page_bytes 0) Had Haa)
    as (s1 & r & s3 & E1 & Hp0 & Hrp & Hs1 & E3 & Hres).
  - change TRAPFRAME with (2 ^ 38 - 8192) in *. change MAXVA with (2 ^ 38). unfold a, PGSIZE in *. lia.
  - by apply alloc_perm_range.
  - rewrite (ad_map _ _ _ _ _ _ _ _ Had), Eva. destruct Hz as [Hzm _].
    assert (NoDup (map np_v es)) as Hnd by (rewrite Hzm, reverse_Permutation; apply NoDup_seqZ).
    destruct (map_new_lookup es (as_map A0) (vpn old + Z.of_nat n) Hnd) as [(e & He & Hev & _)|[_ ->]].
    + assert (np_v e ∈ map np_v es) as Hin by (apply list_elem_of_fmap; by exists e).
      rewrite Hzm, elem_of_reverse, elem_of_seqZ in Hin. lia.
    + apply Hr. lia.
  - rewrite Eva. apply Hr. lia.
  - apply (is_page_fill 0).
  - erewrite bind_Ok by done. rewrite (proj2 (Z.eqb_neq p 0)) by done.
    erewrite (bind_Ok (memset_page p 0)) by by apply (memset_page_Ok kend).
    rewrite (ad_root _ _ _ _ _ _ _ _ Had) in E3. erewrite bind_Ok by exact E3.
    destruct Hres as [(-> & l' & A' & Had' & Hlen)|(-> & s4 & l' & A' & E4 & Had' & Hlen)].
    + cbn [Z.eqb negb]. rewrite Eva in Had'. rewrite u64_small.
      2: { change TRAPFRAME with (2 ^ 38 - 8192) in *. unfold a, PGSIZE in *. lia. }
      replace (a + PGSIZE) with (old + Z.of_nat (S n) * PGSIZE) by (unfold a, PGSIZE; lia).
      destruct (IH (S n) _ s3 l' A' Had' (zero_pages_snoc _ _ _ _ p Hz)) as (r & s' & l2 & A2 & es' & E & Had2 & Hr2);
        try done; [lia|].
      exists r, s', l2, A2, es'. split; [done|]. split; [done|].
      destruct Hr2 as [(? & ? & ?)|(-> & -> & ?)]; [left|right]; (split; [done|]); (split; [done|]); simpl; lia.
    + change (negb (-1 =? 0)) with true. cbv iota. erewrite bind_Ok by done.
      destruct (Hundo _ _ _ _ Had' Hz) as (s' & l2 & A2 & E & Had2).
      exists 0, s', l2, A2, []. split; [done|]. split; [done|]. right. split; [done|]. split; [done|]. simpl. lia.
Qed.


(** An empty space with a fresh root. *)
Definition empty_space (root : Z) (own : Z -> bool) : aspace := ASpace root {[ (2%nat, 0) := root ]} ∅ own.

Lemma uvmcreate_spec s p l xs own :
  free_ok kend s (p :: l) -> NoDup (xs ++ p :: l) -> (forall q, q ∈ xs -> ram_page kend (km_mem s) q) ->
  exists s', uvmcreate s = Ok p s' /\ vm_ok kend s' l xs (empty_space p own) /\ same_ram (km_mem s) (km_mem s') [p].
Proof.
  intros Hf Hnd Hxs. destruct (kalloc_spec kend Hend s (p :: l) Hf) as (s1 & E1 & Hf1 & Hpl & Ha & Hr & Hm).
  unfold uvmcreate. erewrite bind_Ok by done. rewrite (proj2 (Z.eqb_neq p 0)) by lia.
  assert (ram_page kend (km_mem s1) p) as Hrp.
  { split; [done|]. split; [done|]. rewrite Hm, lookup_insert_eq. by eexists. }
  erewrite bind_Ok by by apply (memset_page_Ok kend).
  eexists. split; [done|]. set (s2 := set_mem _ s1).
  assert (km_mem s2 !! p = Some (replicate page_bytes 0)) as Hz by apply lookup_insert_eq.
  assert (ram_page kend (km_mem s2) p) as Hrp2 by (split; [done|]; split; [done|]; by eexists).
  assert (same_ram (km_mem s) (km_mem s2) [p]) as Hs.
  { eapply same_ram_trans; [|apply same_ram_insert; apply Hrp|done]. rewrite Hm.
    apply same_ram_insert, (free_ram_page _ _ p Hf). by left. }
  split; [|done]. split.
  - apply free_fill; [done|done|done|apply (is_page_fill 0)].
  - split; simpl.
    + apply lookup_singleton_eq.
    + intros l' q t [[= <- <-] _]%lookup_singleton_Some. split; [lia|]. simpl. lia.
    + intros l' q t [_ <-]%lookup_singleton_Some. done.
    + intros l' q t [[= <- <-] _]%lookup_singleton_Some. lia.
    + intros k k' t [<- _]%lookup_singleton_Some [<- _]%lookup_singleton_Some. done.
    + intros l' q t i [[= <- <-] <-]%lookup_singleton_Some Hi.
      rewrite lookup_singleton_ne by (injection 1; lia). by apply pte_at_zero.
    + intros q t i [[= ] _]%lookup_singleton_Some.
    + intros v pte Hv. by rewrite lookup_empty in Hv.
  - unfold tables, upages. simpl. rewrite map_to_list_singleton, map_to_list_empty. simpl.
    by rewrite <- Permutation_middle in Hnd.
  - intros q. unfold tables, upages. simpl. rewrite map_to_list_singleton, map_to_list_empty. simpl.
    intros [->|Hq]%elem_of_cons; [done|]. eapply ram_page_same; [exact Hs|]. by apply Hxs.
Qed.

(** A new space beside an existing one. *)
Lemma uvmcreate_beside s p l xs A own :
  vm_ok kend s (p :: l) xs A ->
  exists s', uvmcreate s = Ok p s' /\ vm_ok kend s' l (tables A ++ upages A ++ xs) (empty_space p own) /\
    as_ok kend (km_mem s') A.
Proof.
  intros Hv. destruct (uvmcreate_spec s p l (tables A ++ upages A ++ xs) own) as (s' & E & Hv' & Hs).
  - apply Hv.
  - pose proof (v_nodup _ _ _ _ _ Hv) as Hnd. by rewrite <- !app_assoc.
  - apply (v_foot _ _ _ _ _ Hv).
  - exists s'. split; [done|]. split; [done|]. eapply as_ok_frame; [apply Hv|exact Hs|].
    intros t Ht ->%list_elem_of_singleton. pose proof (v_nodup _ _ _ _ _ Hv) as Hnd.
    apply NoDup_app in Hnd as (_ & D & _). apply (D p Ht). lin.
Qed.

End user.

Lemma npages_bound oldsz newsz :
  0 <= oldsz <= newsz -> newsz <= TRAPFRAME ->
  PGROUNDUP oldsz + Z.of_nat (npages newsz oldsz) * PGSIZE = PGROUNDUP newsz.
Proof.
  intros Ho Hn. destruct (PGROUNDUP_pages oldsz) as (H1 & H2 & H3); [lia|].
  destruct (PGROUNDUP_pages newsz) as (H4 & H5 & H6); [lia|]. unfold npages, aligned, PGSIZE in *. divlia.
Qed.

(** C21. uvmalloc() is all or nothing.  For a user space whose pages between
    the two sizes are not mapped, it returns the new size with a fresh zeroed
    page, readable by the user and with the extra permissions, at every page
    of the range; or it returns 0 and the map is what it was, which happens
    only when fewer than three pages per page asked for were free.  No other
    page of memory changes in either case. *)
Theorem uvmalloc_all_or_nothing kend s l xs A oldsz newsz xperm :
  0 < kend -> vm_ok kend s l xs A -> as_own A = user_own ->
  0 <= oldsz <= newsz -> newsz <= TRAPFRAME -> 0 <= xperm < 2 ^ 10 ->
  (forall w, vpn (PGROUNDUP oldsz) <= w < vpn (PGROUNDUP newsz) -> as_map A !! w = None) ->
  exists r s' l' A', uvmalloc kend (as_root A) oldsz newsz xperm s = Ok r s' /\
    vm_ok kend s' l' xs A' /\ as_root A' = as_root A /\
    same_ram (km_mem s) (km_mem s') (tables A ++ l) /\
    ((r = newsz /\ forall w,
        if decide (vpn (PGROUNDUP oldsz) <= w < vpn (PGROUNDUP newsz))
        then exists p, as_map A' !! w = Some (mkpte p (Z.lor (Z.lor PTE_R PTE_U) xperm)) /\
          km_mem s' !! p = Some (replicate page_bytes 0)
        else as_map A' !! w = as_map A !! w) \/
     (r = 0 /\ as_map A' = as_map A /\ (length l < 3 * npages newsz oldsz)%nat)).
Proof.
  intros Hend Hv Hown Ho Hn Hx Hfree. pose proof (npages_bound oldsz newsz Ho Hn) as HN.
  destruct (PGROUNDUP_pages oldsz) as (H1 & H2 & H3); [lia|].
  destruct (PGROUNDUP_pages newsz) as (H4 & H5 & H6); [lia|].
  set (N := npages newsz oldsz) in *. set (old := PGROUNDUP oldsz) in *.
  assert (vpn (PGROUNDUP newsz) = vpn old + Z.of_nat N) as Ev by (rewrite <- HN; apply vpn_add).
  rewrite Ev in *. unfold uvmalloc. rewrite (proj2 (Z.ltb_ge newsz oldsz)) by lia.
  destruct (uvmalloc_loop_spec Hend (Z.to_nat ((newsz - old) / PGSIZE + 1)) 0 s l xs A [] s l A old newsz xperm N)
    as (r & s' & l' & A' & es & E & Had & Hr); try done; try lia.
  - by apply added_refl.
  - split; [done|]. intros e He. by apply not_elem_of_nil in He.
  - unfold PGSIZE in *. divlia.
  - intros k Hk. destruct (decide (k < N)%nat).
    + rewrite bool_decide_eq_true_2 by done. apply Z.ltb_lt. unfold PGSIZE in *. lia.
    + rewrite bool_decide_eq_false_2 by done. apply Z.ltb_ge. unfold PGSIZE in *. lia.
  - intros w Hw. split; [by apply Hfree|]. rewrite Hown. apply Z.ltb_lt. unfold UV.
    unfold vpn in Hw. change TRAPFRAME with (2 ^ 38 - 8192) in *. unfold PGSIZE in *. divlia.
  - simpl Z.of_nat in E. rewrite Z.add_0_r in E. exists r, s', l', A'. split; [done|].
    destruct Had as [Hv' Hroot Hown' Hmap Hmem _ Hram _ _ _]. do 3 (split; [done|]).
    destruct Hr as [(-> & [Hzm Hz] & _)|(-> & -> & Hl)]; [left|right; rewrite Nat.sub_0_r in Hl; auto].
    split; [done|]. intros w. rewrite Hmap.
    assert (NoDup (map np_v es)) as Hnd by (rewrite Hzm, reverse_Permutation; apply NoDup_seqZ).
    destruct (map_new_lookup es (as_map A) w Hnd) as [(e & He & <- & ->)|[Hw ->]].
    + rewrite decide_True.
      * exists (np_pa e). destruct (Hz e He) as [-> Hb]. split; [done|]. rewrite <- Hb. by apply Hmem.
      * eapply (zero_pages_range _ _ _ es); [by split|done].
    + rewrite decide_False; [done|]. intros Hin. apply Hw. rewrite Hzm, elem_of_reverse, elem_of_seqZ. lia.
Qed.

(** ** A booted machine with one process *)

Definition ex_kend : Z := PHYSTOP - 16 * PGSIZE.

Lemma ex_booted : exists s l, free_ok ex_kend s l /\ length l = 16%nat.
Proof.
  assert (0 < ex_kend < PHYSTOP) as Hk by (unfold ex_kend, PHYSTOP, KERNBASE, PGSIZE; lia).
  destruct (kinit_spec ex_kend (proj1 Hk) (ex_ram ex_kend) false (proj2 Hk) (ex_ram_ok _ Hk) (ex_ram_all _))
    as (s & _ & Hf).
  exists s, (reverse (pages (PGROUNDUP ex_kend) PHYSTOP)). split; [done|]. by rewrite length_reverse.
Qed.

Lemma ex_space : exists s l A, vm_ok ex_kend s l [] A /\ as_own A = user_own /\ as_map A = ∅ /\ length l = 15%nat.
Proof.
  destruct ex_booted as (s & l & Hf & Hl). destruct l as [|p l]; [done|].
  assert (0 < ex_kend) as Hk by (unfold ex_kend, PHYSTOP, KERNBASE, PGSIZE; lia).
  destruct (uvmcreate_spec Hk s p l [] user_own Hf) as (s' & _ & Hv & _).
  - apply Hf.
  - intros q Hq. by apply not_elem_of_nil in Hq.
  - exists s', l, (empty_space p user_own). simpl in Hl. auto with lia.
Qed.

Lemma uvmalloc_all_or_nothing_witness : exists s l A r s' l' A',
  vm_ok ex_kend s l [] A /\ uvmalloc ex_kend (as_root A) 0 8000 PTE_W s = Ok r s' /\
  vm_ok ex_kend s' l' [] A' /\ r = 8000 /\ is_Some (as_map A' !! 1).
Proof.
  destruct ex_space as (s & l & A & Hv & Ho & Hm & Hl).
  destruct (uvmalloc_all_or_nothing ex_kend s l [] A 0 8000 PTE_W) as (r & s' & l' & A' & E & Hv' & _ & _ & Hr).
  - unfold ex_kend, PHYSTOP, KERNBASE, PGSIZE. lia.
  - exact Hv.
  - exact Ho.
  - lia.
  - change TRAPFRAME with (2 ^ 38 - 8192). lia.
  - change PTE_W with 4. lia.
  - intros w _. by rewrite Hm, lookup_empty.
  - exists s, l, A, r, s', l', A'. destruct Hr as [[-> Hr]|(_ & _ & Hr)].
    + do 4 (split; [done|]). specialize (Hr 1). rewrite decide_True in Hr by (vm_compute; intuition discriminate).
      destruct Hr as (p & -> & _). by eexists.
    + exfalso. change (npages 8000 0) with 2%nat in Hr. lia.
Defined.
