(* ===== verification/VmMem.v ===== *)
(** * copyin(), copyout() and copyinstr()

   The calls that move bytes between the kernel and a process, over the
   address spaces of VmSpace.v; they give an instance of [UserMem]. *)

From stdpp Require Import base numbers list gmap sets strings.
From Stdlib Require Import ZArith Lia.
From S2P Require Import Prelude Params UserMem Kalloc Vm VmSpace VmMap VmUser.

(** The byte a process sees at [va]: zero where nothing is mapped for it. *)
Definition byte_at (m : gmap Z (list Z)) (p off : Z) : Z := default 0 (default [] (m !! p) !! Z.to_nat off).

Definition ub (m : gmap Z (list Z)) (A : aspace) (va : Z) : Z :=
  match as_map A !! vpn va with
  | Some pte => if has PTE_U pte then byte_at m (PTE2PA pte) (va mod PGSIZE) else 0
  | None => 0
  end.

(** A process: its space, with user access only to pages of its own, and
    its size. *)
Record proc_ok (kend : Z) (s : kmem) (l xs : list Z) (A : aspace) (sz : Z) : Prop := {
  p_vm : vm_ok kend s l xs A;
  p_own : as_own A = user_own;
  p_user w pte : as_map A !! w = Some pte -> has PTE_U pte = true -> 0 <= w < UV;
  p_sz : 0 <= sz <= TRAPFRAME
}.

Definition same_view (m : gmap Z (list Z)) (A : aspace) (m' : gmap Z (list Z)) (A' : aspace) : Prop :=
  forall va, ub m' A' va = ub m A va.

(** How memory and the space change under faults and copies. *)
Record evolves (s : kmem) (l : list Z) (A : aspace) (s' : kmem) (l' : list Z) (A' : aspace) : Prop := {
  ev_root : as_root A' = as_root A;
  ev_keep w pte : as_map A !! w = Some pte -> as_map A' !! w = Some pte;
  ev_perm : tables A' ++ upages A' ++ l' ≡ₚ tables A ++ upages A ++ l;
  ev_ram : same_ram (km_mem s) (km_mem s') (tables A ++ upages A ++ l)
}.

Lemma evolves_refl s l A : evolves s l A s l A.
Proof. split; try done. Qed.
Lemma evolves_trans s l A s1 l1 A1 s2 l2 A2 :
  evolves s l A s1 l1 A1 -> evolves s1 l1 A1 s2 l2 A2 -> evolves s l A s2 l2 A2.
Proof.
  intros [? Hk Hp Hr] [? Hk' Hp' Hr']. split; [congruence|auto|by rewrite Hp', Hp|].
  eapply same_ram_trans; [done|done|]. intros a. by rewrite Hp.
Qed.

Lemma UV_bound w : 0 <= w < UV -> 0 <= w * PGSIZE /\ w * PGSIZE + PGSIZE <= TRAPFRAME.
Proof. unfold UV. change TRAPFRAME with (2 ^ 38 - 8192). unfold PGSIZE. intros. divlia. Qed.

Section mem.
Context {kend : Z} (Hend : 0 < kend).

Lemma upage_user s l xs A sz w pte : proc_ok kend s l xs A sz -> as_map A !! w = Some pte ->
  has PTE_U pte = true -> PTE2PA pte ∈ upages A /\ ram_page kend (km_mem s) (PTE2PA pte).
Proof.
  intros Hp Hw Hu. pose proof (p_user _ _ _ _ _ _ Hp _ _ Hw Hu) as Hr.
  assert (PTE2PA pte ∈ upages A) as Hin.
  { apply elem_of_upages. exists w, pte. split; [done|]. split; [|done]. rewrite (p_own _ _ _ _ _ _ Hp).
    apply Z.ltb_lt. lia. }
  split; [done|]. apply (v_foot _ _ _ _ _ (p_vm _ _ _ _ _ _ Hp)). lin.
Qed.

Lemma upages_disjoint s l xs A p : vm_ok kend s l xs A -> p ∈ upages A -> p ∉ tables A /\ p ∉ l /\ p ∉ xs.
Proof.
  intros Hv Hp. pose proof (v_nodup _ _ _ _ _ Hv) as Hnd. rewrite !NoDup_app in Hnd.
  destruct Hnd as (_ & D1 & _ & D2 & _). specialize (D1 p). specialize (D2 p Hp). lin.
Qed.

(** The view after pages were added, none of them mapped before. *)
Lemma added_view s l xs A sz es s' l' A' :
  proc_ok kend s l xs A sz -> added (kend := kend) s l xs A es s' l' A' ->
  (forall e, e ∈ es -> 0 <= np_v e < UV /\ as_map A !! np_v e = None /\
    np_bytes e = replicate page_bytes 0 /\ 0 <= np_perm e < 2 ^ 10) ->
  NoDup (map np_v es) ->
  proc_ok kend s' l' xs A' sz /\ evolves s l A s' l' A' /\ same_view (km_mem s) A (km_mem s') A'.
Proof.
  intros Hp Had Hes Hnd. destruct Had as [Hv' Hroot Hown Hmap Hmem Hod Hram _ Hperm Hup].
  assert (forall w, (exists e, e ∈ es /\ np_v e = w /\ as_map A' !! w = Some (mkpte (np_pa e) (np_perm e))) \/
    as_map A' !! w = as_map A !! w) as Hlook.
  { intros w. rewrite Hmap. destruct (map_new_lookup es (as_map A) w Hnd) as [?|[_ ?]]; auto. }
  assert (forall e, e ∈ es -> phys (np_pa e)) as Hphys.
  { intros e He. eapply ram_phys, (v_foot _ _ _ _ _ Hv'); [done|]. apply elem_of_new_pages in He.
    rewrite !elem_of_app, Hup. lin. }
  split; [|split].
  - split; [done|by rewrite Hown, (p_own _ _ _ _ _ _ Hp)| |apply Hp].
    intros w pte Hw Hu. destruct (Hlook w) as [(e & He & <- & _)|Hw']; [by apply Hes|].
    rewrite Hw' in Hw. by eapply (p_user _ _ _ _ _ _ Hp).
  - split; [done| |rewrite Hup; clear -Hperm; perm|].
    + intros w pte Hw. destruct (Hlook w) as [(e & He & <- & _)| ->]; [|done].
      destruct (Hes e He) as (_ & Hn & _). congruence.
    + destruct Hram as [H1 H2]. split; [|done]. intros a Ha. apply H1. lin.
  - intros va. unfold ub. destruct (Hlook (vpn va)) as [(e & He & Hev & ->)| ->].
    + destruct (Hes e He) as (_ & Hn & Hb & Hpm). rewrite <- Hev, Hn. case_match; [|done].
      unfold byte_at. rewrite (mkpte_pa _ _ (Hphys e He) Hpm), (Hmem e He), Hb. simpl.
      destruct (replicate page_bytes 0 !! Z.to_nat (va mod PGSIZE)) as [x|] eqn:Ex; [|done]. by apply lookup_replicate in Ex as [-> _].
    + destruct (as_map A !! vpn va) as [pte|] eqn:Em; [|done]. destruct (has PTE_U pte) eqn:Hu; [|done].
      unfold byte_at. destruct (upage_user _ _ _ _ _ _ _ Hp Em Hu) as [Hin _].
      destruct (upages_disjoint _ _ _ _ _ (p_vm _ _ _ _ _ _ Hp) Hin) as (? & ? & ?).
      rewrite (proj1 Hram) by lin. done.
Qed.

(** vmfault()'s page: mapped read-write for the user and zeroed. *)
Definition fault_perm : Z := Z.lor (Z.lor PTE_W PTE_U) PTE_R.

(** The entry a user access to page [v] needs. *)
Definition user_pte (A : aspace) (v : Z) : option Z :=
  match as_map A !! v with
  | Some pte => if has PTE_U pte then Some pte else None
  | None => None
  end.

Lemma walkaddr_spec s l xs A sz va :
  proc_ok kend s l xs A sz -> 0 <= va < 2 ^ 64 -> aligned va ->
  walkaddr (as_root A) va s = Ok (default 0 (PTE2PA <$> user_pte A (vpn va))) s.
Proof.
  intros Hp Hva Hal. unfold walkaddr, user_pte. pose proof (v_as _ _ _ _ _ (p_vm _ _ _ _ _ _ Hp)) as Hok.
  rewrite Z.geb_leb. destruct (Z.leb_spec MAXVA va) as [Hge|Hlt].
  - destruct (as_map A !! vpn va) as [pte|] eqn:Em; [|done]. destruct (has PTE_U pte) eqn:Hu; [|done].
    apply (p_user _ _ _ _ _ _ Hp) in Em; [|done]. apply UV_bound in Em. unfold vpn in Em.
    change TRAPFRAME with (2 ^ 38 - 8192) in *. change MAXVA with (2 ^ 38) in *. unfold PGSIZE in *. divlia.
  - erewrite bind_Ok by (apply (walk_find Hend); [done|lia]).
    pose proof (leaf_addr_spec Hend s A va Hok ltac:(lia)) as Hleaf. destruct (as_tab A !! key 0 va) as [t|].
    + destruct Hleaf as (_ & Hne & _ & Hrd). rewrite (proj2 (Z.eqb_neq _ 0)) by done. erewrite bind_Ok by done.
      destruct (as_map A !! vpn va) as [pte|] eqn:Em; [|done].
      destruct (ok_map _ _ _ Hok _ _ Em) as (Hval & _). cbn [default]. unfold from_option, id. rewrite Hval. cbn [negb].
      by destruct (has PTE_U pte).
    + destruct Hleaf as [-> ->]. done.
Qed.

Lemma ismapped_spec s A va :
  as_ok kend (km_mem s) A -> 0 <= va < MAXVA ->
  ismapped (as_root A) va s = Ok (match as_map A !! vpn va with Some _ => true | None => false end) s.
Proof.
  intros Hok Hva. unfold ismapped. erewrite bind_Ok by by apply (walk_find Hend).
  pose proof (leaf_addr_spec Hend s A va Hok Hva) as Hleaf. destruct (as_tab A !! key 0 va) as [t|].
  - destruct Hleaf as (_ & Hne & _ & Hrd). rewrite (proj2 (Z.eqb_neq _ 0)) by done. erewrite bind_Ok by done.
    destruct (as_map A !! vpn va) as [pte|] eqn:Em; [|done].
    destruct (ok_map _ _ _ Hok _ _ Em) as (Hval & _). cbn [default]. unfold from_option, id. by rewrite Hval.
  - destruct Hleaf as [-> ->]. done.
Qed.


Lemma user_pte_phys s l xs A sz v pte : proc_ok kend s l xs A sz -> user_pte A v = Some pte ->
  as_map A !! v = Some pte /\ has PTE_U pte = true /\ 0 <= v < UV /\
  PTE2PA pte ∈ upages A /\ ram_page kend (km_mem s) (PTE2PA pte) /\ PTE2PA pte <> 0.
Proof.
  intros Hp. unfold user_pte. destruct (as_map A !! v) as [pte'|] eqn:Em; [|done].
  destruct (has PTE_U pte') eqn:Hu; [|done]. intros [= ->].
  destruct (upage_user _ _ _ _ _ _ _ Hp Em Hu) as [Hin Hrp]. split; [done|]. split; [done|].
  split; [by eapply (p_user _ _ _ _ _ _ Hp)|]. split; [done|]. split; [done|]. destruct Hrp as (_ & ? & _). lia.
Qed.

Lemma PGROUNDDOWN_id va : 0 <= va < 2 ^ 64 -> aligned va -> PGROUNDDOWN va = va.
Proof. intros Hv Ha. rewrite PGROUNDDOWN_eq by done. unfold aligned in Ha. lia. Qed.

(** The process may write page [v]: it is mapped for that, or it is below
    the process's size and a fault maps it. *)
Definition writable (A : aspace) (v : Z) : Prop := exists pte, user_pte A v = Some pte /\ has PTE_W pte = true.
Definition promised (A : aspace) (sz v : Z) : Prop := as_map A !! v = None /\ v * PGSIZE < sz.

(** What a fault does: nothing the process can see.  It fails on a page the
    process may have only when memory runs out: it takes at most three pages,
    two of them for tables. *)
Definition fault_post (s : kmem) (l xs : list Z) (A : aspace) (sz v : Z) (r : Z) (s' : kmem) : Prop :=
  exists l' A', proc_ok kend s' l' xs A' sz /\ evolves s l A s' l' A' /\
    same_view (km_mem s) A (km_mem s') A' /\
    (r = 0 \/ exists pte, user_pte A' v = Some pte /\ r = PTE2PA pte /\ r <> 0) /\
    (is_Some (user_pte A v) -> r <> 0) /\
    (forall w, w <> v -> as_map A' !! w = as_map A !! w) /\
    (promised A sz v -> (3 <= length l)%nat -> r <> 0) /\
    (r <> 0 -> (length l <= length l' + 3)%nat /\ (as_map A !! v = None -> promised A sz v /\ writable A' v)).

Lemma vmfault_spec s l xs A sz va :
  proc_ok kend s l xs A sz -> 0 <= va < 2 ^ 64 -> aligned va -> user_pte A (vpn va) = None ->
  exists r s', vmfault kend sz (as_root A) (as_root A) va s = Ok r s' /\ fault_post s l xs A sz (vpn va) r s'.
Proof.
  intros Hp Hva Hal Hun. unfold vmfault. rewrite Z.geb_leb.
  assert (~ is_Some (user_pte A (vpn va))) as Hns by (rewrite Hun; by intros [? ?]).
  assert (va = vpn va * PGSIZE) as Eva by (unfold vpn, aligned, PGSIZE in *; divlia).
  assert (~ promised A sz (vpn va) -> fault_post s l xs A sz (vpn va) 0 s) as Hno.
  { intros Hnp. exists l, A. split; [done|]. split; [apply evolves_refl|]. split; [done|]. split; [by left|done]. }
  destruct (Z.leb_spec sz va) as [Hge|Hlt]; [exists 0, s; split; [done|]; apply Hno; intros [_ ?]; lia|].
  rewrite PGROUNDDOWN_id by done. pose proof (p_sz _ _ _ _ _ _ Hp) as Hsz.
  assert (va < MAXVA) as Hmax by (change TRAPFRAME with (2 ^ 38 - 8192) in *; change MAXVA with (2 ^ 38); lia).
  assert (0 <= vpn va < UV) as Hv.
  { unfold vpn, UV. change TRAPFRAME with (2 ^ 38 - 8192) in *. unfold aligned, PGSIZE in *. divlia. }
  erewrite bind_Ok by (apply ismapped_spec; [apply Hp|lia]).
  destruct (as_map A !! vpn va) as [pte|] eqn:Em; [exists 0, s; split; [done|]; apply Hno; intros [? _]; congruence|].
  assert (promised A sz (vpn va)) as Hpr by (split; [done|lia]).
  pose proof (added_refl s l xs A (p_vm _ _ _ _ _ _ Hp)) as Had.
  assert (forall s' l' A', added (kend := kend) s l xs A [] s' l' A' -> (length l < 3)%nat ->
    fault_post s l xs A sz (vpn va) 0 s') as Hnone.
  { intros s' l' A' Had' Hsh. destruct (added_view s l xs A sz [] s' l' A' Hp Had') as (H1 & H2 & H3).
    - intros e He. by apply not_elem_of_nil in He.
    - constructor.
    - exists l', A'. do 3 (split; [done|]). split; [by left|]. split; [done|].
      split; [intros w _; by rewrite (ad_map _ _ _ _ _ _ _ _ Had')|]. split; [intros _ ?; lia|done]. }
  destruct l as [|p l].
  { destruct (added_kalloc_none Hend _ _ _ _ _ _ _ Had) as (s1 & E1 & Had1). erewrite bind_Ok by done.
    exists 0, s1. split; [done|]. eapply Hnone; [done|simpl; lia]. }
  destruct (added_step Hend s (p :: l) xs A [] s p l A va fault_perm (replicate page_bytes 0) Had Hal)
    as (s1 & r & s3 & E1 & Hp0 & Hrp & Hs1 & E3 & Hres); try done; try lia.
  { rewrite (p_own _ _ _ _ _ _ Hp). apply Z.ltb_lt. lia. }
  { apply (is_page_fill 0). }
  erewrite bind_Ok by done. rewrite (proj2 (Z.eqb_neq p 0)) by done.
  erewrite (bind_Ok (memset_page p 0)) by by apply (memset_page_Ok kend).
  erewrite bind_Ok by exact E3.
  destruct Hres as [(-> & l' & A' & Had' & Hl')|(-> & s4 & l' & A' & E4 & Had' & Hl')].
  - exists p, s3. split; [done|]. destruct (added_view _ _ _ _ sz _ _ _ _ Hp Had') as (H1 & H2 & H3).
    + intros e ->%list_elem_of_singleton. simpl. done.
    + apply NoDup_singleton.
    + pose proof (ram_phys Hend _ _ Hrp) as Hph.
      assert (user_pte A' (vpn va) = Some (mkpte p fault_perm)) as Hup.
      { unfold user_pte. rewrite (ad_map _ _ _ _ _ _ _ _ Had'). simpl. rewrite lookup_insert_eq.
        change PTE_U with (Z.shiftl 1 4). rewrite has_testbit, mkpte_bit by (done || lia). done. }
      exists l', A'. do 3 (split; [done|]). split.
      { right. exists (mkpte p fault_perm). by rewrite mkpte_pa. }
      split; [done|]. split; [intros w Hw; rewrite (ad_map _ _ _ _ _ _ _ _ Had'); simpl; by rewrite lookup_insert_ne|].
      split; [done|]. intros _. split; [simpl; lia|]. intros _. split; [done|]. exists (mkpte p fault_perm). split; [done|].
      change PTE_W with (Z.shiftl 1 2). rewrite has_testbit, mkpte_bit by (done || lia). done.
  - exists 0, s4. change (negb (-1 =? 0)) with true. cbv iota. erewrite bind_Ok by done.
    split; [done|]. eapply Hnone; [done|simpl; lia].
Qed.

Lemma fault_in_spec s l xs A sz va :
  proc_ok kend s l xs A sz -> 0 <= va < 2 ^ 64 -> aligned va ->
  exists r s', fault_in kend sz (as_root A) (as_root A) va s = Ok r s' /\ fault_post s l xs A sz (vpn va) r s'.
Proof.
  intros Hp Hva Hal. unfold fault_in. erewrite bind_Ok by by eapply walkaddr_spec.
  destruct (user_pte A (vpn va)) as [pte|] eqn:Eu; simpl.
  - destruct (user_pte_phys _ _ _ _ _ _ _ Hp Eu) as (_ & _ & _ & _ & _ & Hne).
    rewrite (proj2 (Z.eqb_neq _ 0)) by done. exists (PTE2PA pte), s. split; [done|].
    exists l, A. split; [done|]. split; [apply evolves_refl|]. split; [done|].
    split; [right; by exists pte|]. split; [done|]. split; [done|]. split; [done|]. intros _. split; [lia|].
    intros En. unfold user_pte in Eu. by rewrite En in Eu.
  - by apply vmfault_spec.
Qed.

(** After a fault that succeeded, the page can be written exactly when the
    process may write it. *)
Lemma fault_writable s l A s' l' A' sz v pte :
  evolves s l A s' l' A' -> user_pte A' v = Some pte -> (as_map A !! v = None -> promised A sz v /\ writable A' v) ->
  has PTE_W pte = true <-> writable A v \/ promised A sz v.
Proof.
  intros Hev Hu Hnew. destruct (as_map A !! v) as [pte0|] eqn:Em.
  - pose proof (ev_keep _ _ _ _ _ _ Hev _ _ Em) as Em'. unfold writable, promised, user_pte in *. rewrite Em' in Hu.
    rewrite Em. destruct (has PTE_U pte0) eqn:Hpu; [|done]. injection Hu as ->. split.
    + intros Hw. left. by exists pte.
    + intros [(? & [= <-] & ?)|[? _]]; [done|congruence].
  - destruct (Hnew eq_refl) as [Hpr (pte' & Hu' & Hw)]. rewrite Hu in Hu'. injection Hu' as <-. split; [by right|done].
Qed.


(* ------------------------------------------------------------------ *)
(** ** copyin() *)

Lemma in_page p off : aligned p -> 0 <= off < PGSIZE -> page_of (p + off) = p /\ page_off (p + off) = Z.to_nat off.
Proof. intros Ha Ho. unfold page_of, page_off, aligned, PGSIZE in *. split; [divlia|]. f_equal. divlia. Qed.

(** A user address as page and offset. *)
Lemma va_split va : 0 <= va < 2 ^ 64 ->
  let va0 := PGROUNDDOWN va in
  aligned va0 /\ 0 <= va0 < 2 ^ 64 /\ 0 <= va - va0 < PGSIZE /\
  forall i, 0 <= va - va0 + i < PGSIZE -> vpn (va + i) = vpn va0 /\ (va + i) mod PGSIZE = va - va0 + i.
Proof.
  intros Hva va0. destruct (PGROUNDDOWN_aligned va Hva) as [Ha Hb]. fold va0 in Ha, Hb.
  assert (0 <= va0) by (unfold va0; rewrite PGROUNDDOWN_eq by done; unfold PGSIZE; divlia).
  split; [done|]. split; [lia|]. split; [lia|]. intros i Hi. unfold vpn, PGSIZE in *. split; divlia.
Qed.

Lemma page_bytes_of s l xs A sz v pte pg :
  proc_ok kend s l xs A sz -> user_pte A v = Some pte -> km_mem s !! PTE2PA pte = Some pg ->
  length pg = page_bytes /\ Forall byte pg.
Proof.
  intros Hp _ Hpg. by destruct (fr_ram _ _ _ (v_free _ _ _ _ _ (p_vm _ _ _ _ _ _ Hp)) _ _ Hpg) as (_ & _ & ? & ?).
Qed.

(** One page's share of a copy in. *)
Lemma rd_bytes_user s l xs A sz va n pte :
  let va0 := PGROUNDDOWN va in
  proc_ok kend s l xs A sz -> 0 <= va < 2 ^ 64 -> user_pte A (vpn va0) = Some pte ->
  va - va0 + Z.of_nat n <= PGSIZE ->
  exists bs, rd_bytes (PTE2PA pte + (va - va0)) n s = Ok bs s /\ length bs = n /\
    forall i x, bs !! i = Some x -> x = ub (km_mem s) A (va + Z.of_nat i).
Proof.
  intros va0 Hp Hva Hu Hn. destruct (va_split va Hva) as (Ha0 & Hb0 & Hoff & Hin). fold va0 in Ha0, Hb0, Hoff, Hin.
  destruct (user_pte_phys _ _ _ _ _ _ _ Hp Hu) as (Em & Hub & _ & _ & (Hpa & _ & [pg Hpg]) & _).
  destruct (page_bytes_of _ _ _ _ _ _ _ _ Hp Hu Hpg) as [Hlen _]. pose proof page_bytes_Z as Hpb.
  destruct (in_page (PTE2PA pte) (va - va0) Hpa Hoff) as [E1 E2].
  unfold rd_bytes. erewrite bind_Ok by (apply get_page_Ok; by rewrite E1). rewrite E2.
  eexists. split; [done|]. split; [apply length_slice; unfold PGSIZE in *; lia|].
  intros i x Hx. assert (i < n)%nat as Hi.
  { apply lookup_lt_Some in Hx. rewrite length_slice in Hx; [lia|unfold PGSIZE in *; lia]. }
  rewrite slice_lookup in Hx by done. destruct (Hin (Z.of_nat i)) as [Hv Hm]; [lia|].
  unfold ub, byte_at. rewrite Hv, Hm, Em, Hub, Hpg. simpl.
  replace (Z.to_nat (va - va0 + Z.of_nat i)) with (Z.to_nat (va - va0) + i)%nat by lia. by rewrite Hx.
Qed.

Definition copyin_post (s : kmem) (l xs : list Z) (A : aspace) (sz srcva : Z) (len : nat) (r : bool * list Z) (s' : kmem) : Prop :=
  exists l' A', proc_ok kend s' l' xs A' sz /\ evolves s l A s' l' A' /\ same_view (km_mem s) A (km_mem s') A' /\
    (length (snd r) <= len)%nat /\ (fst r = true -> length (snd r) = len) /\
    (forall i x, snd r !! i = Some x -> x = ub (km_mem s) A (srcva + Z.of_nat i)) /\
    ((forall i, (i < len)%nat -> is_Some (user_pte A (vpn (srcva + Z.of_nat i)))) -> fst r = true).

Lemma user_pte_keep s l A s' l' A' v : evolves s l A s' l' A' -> is_Some (user_pte A v) -> is_Some (user_pte A' v).
Proof.
  intros Hev [pte Hu]. unfold user_pte in *. destruct (as_map A !! v) as [pte'|] eqn:E; [|done].
  rewrite (ev_keep _ _ _ _ _ _ Hev _ _ E). by rewrite Hu.
Qed.

Lemma copyin_loop_S f psz ppt pt srcva len :
  copyin_loop kend (S f) psz ppt pt srcva (S len) =
  (let va0 := PGROUNDDOWN srcva in
   let* pa0 := fault_in kend psz ppt pt va0 in
   if pa0 =? 0 then ret (false, [])
   else
     let n := Nat.min (Z.to_nat (PGSIZE - (srcva - va0))) (S len) in
     let* bs := rd_bytes (pa0 + (srcva - va0)) n in
     let* r := copyin_loop kend f psz ppt pt (u64 (va0 + PGSIZE)) (S len - n) in
     ret (fst r, bs ++ snd r)).
Proof. done. Qed.

Lemma copyin_loop_spec fuel len srcva s l xs A sz :
  proc_ok kend s l xs A sz -> 0 <= srcva < 2 ^ 64 -> (len <= fuel)%nat ->
  exists r s', copyin_loop kend fuel sz (as_root A) (as_root A) srcva len s = Ok r s' /\
    copyin_post s l xs A sz srcva len r s'.
Proof.
  revert len srcva s l A. induction fuel as [|fuel IH]; intros len srcva s l A Hp Hva Hf.
  all: destruct len as [|len]; [|try lia].
  1,2: exists (true, []), s; split; [done|]; exists l, A; do 2 (split; [try apply evolves_refl; done|]);
    split; [done|]; split; [done|]; split; [done|]; split; [|done]; intros i x Hx; simpl in Hx; by rewrite lookup_nil in Hx.
  rewrite copyin_loop_S. cbv zeta. destruct (va_split srcva Hva) as (Ha0 & Hb0 & Hoff & Hin).
  set (va0 := PGROUNDDOWN srcva) in *.
  destruct (fault_in_spec s l xs A sz va0 Hp Hb0 Ha0) as (r & s1 & E1 & l1 & A1 & Hp1 & Hev1 & Hsv1 & Hr & Hprog & _).
  erewrite bind_Ok by done. destruct Hr as [->|(pte & Hu & -> & Hne)].
  { rewrite Z.eqb_refl. exists (false, []), s1. split; [done|]. exists l1, A1. do 3 (split; [done|]).
    split; [simpl; lia|]. split; [done|]. split; [intros i x Hx; simpl in Hx; by rewrite lookup_nil in Hx|].
    intros Hall. exfalso. specialize (Hall 0%nat ltac:(lia)). apply Hprog; [|done].
    destruct (Hin 0) as [<- _]; [lia|done]. }
  rewrite (proj2 (Z.eqb_neq _ 0)) by done.
  set (n := Nat.min (Z.to_nat (PGSIZE - (srcva - va0))) (S len)).
  destruct (user_pte_phys _ _ _ _ _ _ _ Hp1 Hu) as (_ & _ & Hv & _).
  assert (va0 + PGSIZE < 2 ^ 64) as Hnx.
  { apply UV_bound in Hv. unfold vpn in Hv. change TRAPFRAME with (2 ^ 38 - 8192) in *. unfold aligned, PGSIZE in *. divlia. }
  destruct (rd_bytes_user s1 l1 xs A1 sz srcva n pte Hp1 Hva Hu) as (bs & E2 & Hlen & Hbs); [unfold n; lia|].
  fold va0 in E2. erewrite bind_Ok by done. rewrite u64_small by (unfold PGSIZE in *; lia).
  assert (Z.of_nat n <= PGSIZE - (srcva - va0) /\ (1 <= n <= S len)%nat) as Hn by (unfold n, PGSIZE in *; lia).
  rewrite <- (ev_root _ _ _ _ _ _ Hev1).
  destruct (IH (S len - n)%nat (va0 + PGSIZE) s1 l1 A1 Hp1) as (r & s2 & E3 & l2 & A2 & Hp2 & Hev2 & Hsv2 & Hle & Htrue & Hpre & Hall2);
    [unfold PGSIZE in *; lia|lia|].
  erewrite bind_Ok by done. exists (fst r, bs ++ snd r), s2. split; [done|]. exists l2, A2.
  split; [done|]. split; [by eapply evolves_trans|]. split; [intros va; by rewrite Hsv2, Hsv1|]. simpl.
  rewrite length_app, Hlen. split; [lia|]. split; [intros Ht; specialize (Htrue Ht); lia|].
  split; [intros i x Hx|].
  2: { intros Hall. apply Hall2. intros i Hi. eapply user_pte_keep; [done|].
       replace (va0 + PGSIZE + Z.of_nat i) with (srcva + Z.of_nat (n + i)); [apply Hall; lia|].
       unfold n in *. unfold PGSIZE in *. lia. }
  apply lookup_app_Some in Hx as [Hx|[Hge Hx]]; [by rewrite (Hbs i x Hx), Hsv1|].
  rewrite (Hpre _ _ Hx), Hsv1. f_equal. rewrite Hlen in Hge |- *.
  assert (0 < length (snd r))%nat by (apply lookup_lt_Some in Hx; lia).
  assert (Z.of_nat n = PGSIZE - (srcva - va0)) by (unfold n in *; unfold PGSIZE in *; lia). lia.
Qed.


(* ------------------------------------------------------------------ *)
(** ** copyout() *)

(** Two pages of a space are never on the same page of memory. *)
Lemma owned_inj s l xs A w w' pte pte' : vm_ok kend s l xs A ->
  as_map A !! w = Some pte -> as_map A !! w' = Some pte' -> as_own A w = true -> as_own A w' = true ->
  w <> w' -> PTE2PA pte <> PTE2PA pte'.
Proof.
  intros Hv Hw Hw' Ho Ho' Hne E. pose proof (v_nodup _ _ _ _ _ Hv) as Hnd. rewrite !NoDup_app in Hnd.
  destruct Hnd as (_ & _ & Hnu & _). rewrite (upages_delete A w pte Hw) in Hnu.
  unfold owned in Hnu. simpl in Hnu. rewrite Ho in Hnu. apply NoDup_cons in Hnu as [Hn _]. apply Hn.
  apply elem_of_upages. exists w', pte'. simpl. by rewrite lookup_delete_ne.
Qed.

Lemma wr_bytes_user s l xs A sz va pte bs :
  let va0 := PGROUNDDOWN va in
  proc_ok kend s l xs A sz -> 0 <= va < 2 ^ 64 -> user_pte A (vpn va0) = Some pte ->
  va - va0 + Z.of_nat (length bs) <= PGSIZE -> Forall byte bs ->
  exists s', wr_bytes (PTE2PA pte + (va - va0)) bs s = Ok tt s' /\ proc_ok kend s' l xs A sz /\
    evolves s l A s' l A /\
    (forall b, b < va \/ va + Z.of_nat (length bs) <= b -> ub (km_mem s') A b = ub (km_mem s) A b) /\
    (forall i x, bs !! i = Some x -> ub (km_mem s') A (va + Z.of_nat i) = x).
Proof.
  intros va0 Hp Hva Hu Hn Hbs. destruct (va_split va Hva) as (Ha0 & Hb0 & Hoff & Hin). fold va0 in Ha0, Hb0, Hoff, Hin.
  destruct (user_pte_phys _ _ _ _ _ _ _ Hp Hu) as (Em & Hub & Hvr & Hinu & Hrp & _).
  pose proof Hrp as (Hpa & _ & [pg Hpg]). pose proof (p_vm _ _ _ _ _ _ Hp) as Hv.
  destruct (page_bytes_of _ _ _ _ _ _ _ _ Hp Hu Hpg) as [Hlen Hpgb]. pose proof page_bytes_Z as Hpb.
  destruct (in_page (PTE2PA pte) (va - va0) Hpa Hoff) as [E1 E2].
  unfold wr_bytes. erewrite bind_Ok by (apply get_page_Ok; by rewrite E1). rewrite E1, E2.
  set (pg' := splice (Z.to_nat (va - va0)) bs pg).
  assert (Z.to_nat (va - va0) + length bs <= length pg)%nat as Hfit by (unfold PGSIZE in *; lia).
  assert (is_page pg') as Hpage.
  { split; [unfold pg'; by rewrite length_splice|]. unfold pg', splice. rewrite !Forall_app.
    split; [by apply Forall_take|]. split; [done|by apply Forall_drop]. }
  destruct (upages_disjoint _ _ _ _ _ Hv Hinu) as (Hd1 & Hd2 & Hd3).
  pose proof (same_ram_insert (km_mem s) (PTE2PA pte) pg' ltac:(by eexists)) as Hsr.
  eexists. split; [done|]. split; [|split; [|split]].
  - split; [|apply Hp..]. eapply vm_ok_frame; [exact Hv| |exact Hsr| |done|].
    + apply free_fill; [apply Hv|done|done|done].
    + intros t Ht ->%list_elem_of_singleton. done.
    + intros q Hq. eapply ram_page_same; [exact Hsr|]. apply (v_foot _ _ _ _ _ Hv). lin.
  - split; [done|done|done|]. simpl. destruct Hsr as [H1 H2]. split; [|done]. intros a Ha. apply H1.
    intros ->%list_elem_of_singleton. lin.
  - intros b Hb. unfold ub. destruct (as_map A !! vpn b) as [pte'|] eqn:Eb; [|done].
    destruct (has PTE_U pte') eqn:Hu'; [|done]. unfold byte_at. simpl. destruct (decide (vpn b = vpn va0)) as [Ev|Hne].
    + rewrite Ev in Eb. assert (pte' = pte) as -> by congruence. rewrite lookup_insert_eq, Hpg. simpl.
      unfold pg'. rewrite splice_lookup_out; [done|done|]. unfold vpn, aligned, PGSIZE in *. divlia.
    + rewrite lookup_insert_ne; [done|].
      pose proof (p_user _ _ _ _ _ _ Hp _ _ Eb Hu') as Hr'.
      apply (owned_inj s l xs A (vpn va0) (vpn b)); try done; rewrite (p_own _ _ _ _ _ _ Hp); apply Z.ltb_lt; lia.
  - intros i x Hx. assert (i < length bs)%nat as Hi by by eapply lookup_lt_Some.
    destruct (Hin (Z.of_nat i)) as [Ev Eo]; [lia|]. unfold ub, byte_at. rewrite Ev, Eo, Em, Hub. simpl.
    rewrite lookup_insert_eq. simpl. unfold pg'. rewrite splice_lookup_in by lia.
    replace (Z.to_nat (va - va0 + Z.of_nat i) - Z.to_nat (va - va0))%nat with i by lia. by rewrite Hx.
Qed.

(** The pages that [n] bytes at [va] are on. *)
Definition pages_of (va n : Z) : Z := (va mod PGSIZE + n + (PGSIZE - 1)) / PGSIZE.

(** Every address of a range can be written. *)
Definition may_write (A : aspace) (sz va : Z) (n : nat) : Prop :=
  forall i, (i < n)%nat -> writable A (vpn (va + Z.of_nat i)) \/ promised A sz (vpn (va + Z.of_nat i)).
Definition all_writable (A : aspace) (va : Z) (n : nat) : Prop :=
  forall i, (i < n)%nat -> writable A (vpn (va + Z.of_nat i)).

Lemma writable_ext A A' sz v : as_map A' !! v = as_map A !! v ->
  (writable A' v <-> writable A v) /\ (promised A' sz v <-> promised A sz v).
Proof. intros E. unfold writable, promised, user_pte. by rewrite E. Qed.

Definition copyout_post (s : kmem) (l xs : list Z) (A : aspace) (sz dstva : Z) (src : list Z) (r : bool) (s' : kmem) : Prop :=
  exists l' A', proc_ok kend s' l' xs A' sz /\ evolves s l A s' l' A' /\
    (forall b, b < dstva \/ dstva + Z.of_nat (length src) <= b -> ub (km_mem s') A' b = ub (km_mem s) A b) /\
    (r = true -> forall i x, src !! i = Some x ->
      ub (km_mem s') A' (dstva + Z.of_nat i) = x /\ is_Some (user_pte A' (vpn (dstva + Z.of_nat i)))) /\
    (r = true -> may_write A sz dstva (length src)) /\
    (may_write A sz dstva (length src) ->
      3 * pages_of dstva (Z.of_nat (length src)) <= Z.of_nat (length l) \/ all_writable A dstva (length src) -> r = true).

Lemma copyout_loop_S f psz ppt pt dstva x src :
  copyout_loop kend (S f) psz ppt pt dstva (x :: src) =
  (let va0 := PGROUNDDOWN dstva in
   if va0 >=? MAXVA then ret false
   else
     let* pa0 := fault_in kend psz ppt pt va0 in
     if pa0 =? 0 then ret false
     else
       let* pte := walk pt va0 false in
       let* v := rd64 pte in
       if negb (has PTE_W v) then ret false
       else
         let n := Nat.min (Z.to_nat (PGSIZE - (dstva - va0))) (length (x :: src)) in
         wr_bytes (pa0 + (dstva - va0)) (take n (x :: src)) ;;
         copyout_loop kend f psz ppt pt (u64 (va0 + PGSIZE)) (drop n (x :: src))).
Proof. done. Qed.

(** The page of the first byte counts, and then those of the rest. *)
Lemma pages_of_first va len : 0 <= va -> 0 < len -> 1 <= pages_of va len.
Proof. intros Hva Hl. unfold pages_of, PGSIZE. divlia. Qed.
Lemma pages_of_rest va len n : 0 <= va -> aligned (va + n) -> 0 < n -> va mod PGSIZE + n <= PGSIZE -> n <= len ->
  pages_of (va + n) (len - n) = pages_of va len - 1.
Proof. intros Hva Ha Hn Hle Hl. unfold pages_of, aligned, PGSIZE in *. divlia. Qed.

(** A copy that stops at its first page. *)
Lemma copyout_stops s l xs A sz dstva x src s1 l1 A1 :
  proc_ok kend s1 l1 xs A1 sz -> evolves s l A s1 l1 A1 -> same_view (km_mem s) A (km_mem s1) A1 -> 0 <= dstva ->
  ~ writable A (vpn dstva) -> ~ (promised A sz (vpn dstva) /\ (3 <= length l)%nat) ->
  copyout_post s l xs A sz dstva (x :: src) false s1.
Proof.
  intros Hp Hev Hsv Hva Hw Hn. exists l1, A1. do 2 (split; [done|]). split; [intros; apply Hsv|]. split; [done|].
  split; [done|]. intros Hmay Hroom. exfalso. specialize (Hmay 0%nat ltac:(simpl; lia)). rewrite Z.add_0_r in Hmay.
  destruct Hmay as [|Hpr]; [done|]. apply Hn. split; [done|].
  destruct Hroom as [Hroom|Hall]; [|specialize (Hall 0%nat ltac:(simpl; lia)); rewrite Z.add_0_r in Hall; done].
  pose proof (pages_of_first dstva (Z.of_nat (length (x :: src))) Hva ltac:(simpl; lia)). lia.
Qed.

(** The rest of a copy, after the [n] bytes on the first page. *)
Lemma may_write_rest A A1 sz va (len n : nat) v : (n <= len)%nat ->
  (forall i, (i < n)%nat -> vpn (va + Z.of_nat i) = v) -> (forall i, (n <= i < len)%nat -> vpn (va + Z.of_nat i) <> v) ->
  (forall w, w <> v -> as_map A1 !! w = as_map A !! w) -> writable A v \/ promised A sz v ->
  (may_write A sz va len <-> may_write A1 sz (va + Z.of_nat n) (len - n)) /\
  (all_writable A va len -> all_writable A1 (va + Z.of_nat n) (len - n)).
Proof.
  intros Hn Hfirst Hrest Hext Hv.
  assert (forall i, (i < len - n)%nat ->
    (writable A1 (vpn (va + Z.of_nat n + Z.of_nat i)) <-> writable A (vpn (va + Z.of_nat (n + i)))) /\
    (promised A1 sz (vpn (va + Z.of_nat n + Z.of_nat i)) <-> promised A sz (vpn (va + Z.of_nat (n + i))))) as Heq.
  { intros i Hi. replace (va + Z.of_nat n + Z.of_nat i) with (va + Z.of_nat (n + i)) by lia.
    apply writable_ext, Hext, Hrest. lia. }
  split; [split|].
  - intros Hm i Hi. destruct (Heq i Hi) as [-> ->]. apply Hm. lia.
  - intros Hm i Hi. destruct (decide (i < n)%nat) as [Hlt|Hge]; [by rewrite Hfirst|].
    destruct (Heq (i - n)%nat ltac:(lia)) as [E1 E2]. replace (n + (i - n))%nat with i in * by lia.
    rewrite <- E1, <- E2. apply Hm. lia.
  - intros Ha i Hi. destruct (Heq i Hi) as [-> _]. apply Ha. lia.
Qed.

(** One page of copyout()'s loop: it stops there, or it has stored the
    page's share and goes on. *)
Lemma copyout_page f dstva x src s l xs A sz :
  let va0 := PGROUNDDOWN dstva in let n := Nat.min (Z.to_nat (PGSIZE - (dstva - va0))) (length (x :: src)) in
  proc_ok kend s l xs A sz -> 0 <= dstva < 2 ^ 64 -> Forall byte (x :: src) ->
  (exists s1, copyout_loop kend (S f) sz (as_root A) (as_root A) dstva (x :: src) s = Ok false s1 /\
    copyout_post s l xs A sz dstva (x :: src) false s1) \/
  exists s1 l1 A1 pte, copyout_loop kend (S f) sz (as_root A) (as_root A) dstva (x :: src) s =
      copyout_loop kend f sz (as_root A1) (as_root A1) (va0 + PGSIZE) (drop n (x :: src)) s1 /\
    proc_ok kend s1 l1 xs A1 sz /\ evolves s l A s1 l1 A1 /\ 0 <= va0 + PGSIZE < 2 ^ 64 /\
    user_pte A1 (vpn va0) = Some pte /\
    (forall b, b < dstva \/ dstva + Z.of_nat n <= b -> ub (km_mem s1) A1 b = ub (km_mem s) A b) /\
    (forall i y, (i < n)%nat -> (x :: src) !! i = Some y -> ub (km_mem s1) A1 (dstva + Z.of_nat i) = y) /\
    (forall w, w <> vpn va0 -> as_map A1 !! w = as_map A !! w) /\
    (writable A (vpn va0) \/ promised A sz (vpn va0)) /\ (length l <= length l1 + 3)%nat.
Proof.
  intros va0 n Hp Hva Hbs. rewrite copyout_loop_S. cbv zeta. fold va0. fold n.
  destruct (va_split dstva Hva) as (Ha0 & Hb0 & Hoff & Hin). fold va0 in Ha0, Hb0, Hoff, Hin.
  destruct (Hin 0) as [Hv0 _]; [lia|]. rewrite Z.add_0_r in Hv0. rewrite Z.geb_leb.
  destruct (Z.leb_spec MAXVA va0) as [Hge|Hlt].
  { left. exists s. split; [done|]. eapply copyout_stops; [done|apply evolves_refl|done|lia|..]; rewrite Hv0.
    - intros (pte & Hu & _). destruct (user_pte_phys _ _ _ _ _ _ _ Hp Hu) as (_ & _ & Hv & _). apply UV_bound in Hv.
      unfold vpn in Hv. change TRAPFRAME with (2 ^ 38 - 8192) in *. change MAXVA with (2 ^ 38) in *. unfold aligned, PGSIZE in *. divlia.
    - intros [[_ Hz] _]. pose proof (p_sz _ _ _ _ _ _ Hp). unfold vpn in Hz.
      change TRAPFRAME with (2 ^ 38 - 8192) in *. change MAXVA with (2 ^ 38) in *. unfold aligned, PGSIZE in *. divlia. }
  destruct (fault_in_spec s l xs A sz va0 Hp Hb0 Ha0)
    as (r & s1 & E1 & l1 & A1 & Hp1 & Hev1 & Hsv1 & Hr & Hprog & Hext & Hroom & Hnew).
  erewrite bind_Ok by done. destruct Hr as [->|(pte & Hu & -> & Hne)].
  { left. exists s1. split; [done|]. eapply copyout_stops; [done..|lia| |]; rewrite Hv0.
    - intros (pte & Hu & _). by apply Hprog.
    - intros [? ?]. by apply Hroom. }
  rewrite (proj2 (Z.eqb_neq _ 0)) by done. destruct (Hnew Hne) as [Hlen Hnew'].
  pose proof (fault_writable _ _ _ _ _ _ sz _ _ Hev1 Hu Hnew') as Hpw.
  pose proof (v_as _ _ _ _ _ (p_vm _ _ _ _ _ _ Hp1)) as Hok1.
  destruct (user_pte_phys _ _ _ _ _ _ _ Hp1 Hu) as (Em & _ & Hv & _).
  rewrite <- (ev_root _ _ _ _ _ _ Hev1). erewrite bind_Ok by (apply (walk_find Hend); [done|lia]).
  pose proof (leaf_addr_spec Hend s1 A1 va0 Hok1 ltac:(lia)) as Hleaf.
  destruct (as_tab A1 !! key 0 va0) as [t|]; [|destruct Hleaf; congruence].
  destruct Hleaf as (_ & _ & _ & Hrd). erewrite bind_Ok by done. rewrite Em. cbn [default]. unfold from_option, id.
  destruct (has PTE_W pte); cbn [negb].
  2: { left. exists s1. split; [done|]. eapply copyout_stops; [done..|lia| |]; rewrite Hv0; intuition congruence. }
  assert (0 <= va0 + PGSIZE < 2 ^ 64) as Hnx.
  { apply UV_bound in Hv. unfold vpn in Hv. change TRAPFRAME with (2 ^ 38 - 8192) in *. unfold aligned, PGSIZE in *. divlia. }
  assert (length (take n (x :: src)) = n) as Hln by (rewrite length_take; unfold n; lia).
  destruct (wr_bytes_user s1 l1 xs A1 sz dstva pte (take n (x :: src)) Hp1 Hva Hu) as (s2 & E2 & Hp2 & Hev2 & Hout & Hinn);
    [fold va0; unfold n, PGSIZE in *; lia|by apply Forall_take|].
  fold va0 in E2. right. exists s2, l1, A1, pte. erewrite bind_Ok by done. rewrite u64_small by done. split; [done|].
  split; [done|]. split; [by eapply evolves_trans|]. split; [done|]. split; [done|]. rewrite Hln in Hout.
  split; [intros b Hb; by rewrite Hout, Hsv1|]. split; [intros i y Hi Hy; apply Hinn; by rewrite lookup_take_lt|].
  split; [done|]. split; [by apply Hpw|done].
Qed.

Lemma copyout_loop_spec fuel dstva src s l xs A sz :
  proc_ok kend s l xs A sz -> 0 <= dstva < 2 ^ 64 -> Forall byte src -> (length src <= fuel)%nat ->
  exists r s', copyout_loop kend fuel sz (as_root A) (as_root A) dstva src s = Ok r s' /\
    copyout_post s l xs A sz dstva src r s'.
Proof.
  revert dstva src s l A. induction fuel as [|fuel IH]; intros dstva src s l A Hp Hva Hbs Hf.
  all: destruct src as [|x src]; [|try (simpl in Hf; lia)].
  1,2: exists true, s; split; [done|]; exists l, A; split; [done|]; split; [apply evolves_refl|]; split; [done|];
    split; [intros _ i x Hx; by rewrite lookup_nil in Hx|]; split; [intros _ i Hi; simpl in Hi; lia|done].
  destruct (copyout_page fuel dstva x src s l xs A sz Hp Hva Hbs)
    as [(s1 & E & Hpost)|(s1 & l1 & A1 & pte & E & Hp1 & Hev1 & Hnx & Hu & Hout & Hinn & Hext & Hmay & Hlen)]; [by exists false, s1|].
  destruct (va_split dstva Hva) as (Ha0 & Hb0 & Hoff & Hin). rewrite E. clear E.
  set (va0 := PGROUNDDOWN dstva) in *. set (n := Nat.min (Z.to_nat (PGSIZE - (dstva - va0))) (length (x :: src))) in *.
  assert (Z.of_nat n <= PGSIZE - (dstva - va0) /\ (1 <= n <= length (x :: src))%nat) as Hn by (unfold n, PGSIZE in *; simpl; lia).
  assert (n = length (x :: src) \/ va0 + PGSIZE = dstva + Z.of_nat n) as Hcase by (unfold n, PGSIZE in *; lia).
  destruct (IH (va0 + PGSIZE) (drop n (x :: src)) s1 l1 A1 Hp1 Hnx) as
    (r & s3 & E3 & l3 & A3 & Hp3 & Hev3 & Hout3 & Hin3 & Hsound & Hsucc); [by apply Forall_drop|rewrite length_drop; simpl in *; lia|].
  rewrite length_drop in *. exists r, s3. split; [done|]. exists l3, A3. split; [done|]. split; [by eapply evolves_trans|].
  split; [intros b Hb; rewrite Hout3, Hout; [done|lia|lia]|]. split; [|clear Hin3].
  - intros Ht i y Hy. destruct (decide (i < n)%nat) as [Hi|Hi].
    + rewrite Hout3 by lia. split; [by apply Hinn|].
      eapply user_pte_keep; [exact Hev3|]. destruct (Hin (Z.of_nat i)) as [-> _]; [lia|by eexists].
    + assert (i < length (x :: src))%nat by by eapply lookup_lt_Some.
      replace (dstva + Z.of_nat i) with (va0 + PGSIZE + Z.of_nat (i - n)) by lia.
      apply Hin3; [done|]. rewrite lookup_drop. replace (n + (i - n))%nat with i by lia. done.
  - destruct (may_write_rest A A1 sz dstva (length (x :: src)) n (vpn va0)) as [Hmw Haw]; try done; [lia|..].
    { intros i Hi. destruct (Hin (Z.of_nat i)) as [-> _]; [lia|done]. }
    { intros i Hi. destruct Hcase as [Hc|Hc]; [lia|]. unfold vpn, aligned, PGSIZE in *. divlia. }
    destruct Hcase as [Hc|Hc].
    + rewrite Hc in Hmw, Hsucc. rewrite Nat.sub_diag in Hmw, Hsucc. split; [intros _; apply Hmw; intros i Hi; lia|].
      intros _ _. apply Hsucc; [intros i Hi; lia|right; intros i Hi; lia].
    + rewrite Hc in Hsound, Hsucc. split; [intros Ht; by apply Hmw, Hsound|]. intros Hm Hroom. apply Hsucc; [by apply Hmw|].
      destruct Hroom as [Hroom|Hall]; [left|right; by apply Haw]. rewrite Nat2Z.inj_sub by lia.
      rewrite pages_of_rest; [lia|lia|rewrite <- Hc; unfold aligned, PGSIZE in *; divlia|lia| |lia].
      unfold aligned, PGSIZE in *. divlia.
Qed.

End mem.

(* ------------------------------------------------------------------ *)
(** ** copyinstr() *)

Section str.
Context {kend : Z} (Hend : 0 < kend).

Lemma scan_nul_spec bs :
  if snd (scan_nul bs) then exists str rest, bs = str ++ 0 :: rest /\ fst (scan_nul bs) = str ++ [0] /\ 0 ∉ str
  else fst (scan_nul bs) = bs /\ 0 ∉ bs.
Proof.
  induction bs as [|c bs IH]; simpl; [split; [done|apply not_elem_of_nil]|].
  destruct (Z.eqb_spec c 0) as [->|Hne]; simpl.
  - exists [], bs. split; [done|]. split; [done|apply not_elem_of_nil].
  - destruct (snd (scan_nul bs)).
    + destruct IH as (str & rest & -> & -> & Hn). exists (c :: str), rest. split; [done|]. split; [done|].
      apply not_elem_of_cons. auto.
    + destruct IH as [-> Hn]. split; [done|]. apply not_elem_of_cons. auto.
Qed.

(** The string of a process at [va], of at most [max] bytes with its NUL,
    in pages that are mapped for it. *)
Definition ustring (s : kmem) (A : aspace) (va : Z) (max : nat) (str : list Z) : Prop :=
  (length str < max)%nat /\ 0 ∉ str /\
  (forall i x, (str ++ [0]) !! i = Some x -> ub (km_mem s) A (va + Z.of_nat i) = x /\
    is_Some (user_pte A (vpn (va + Z.of_nat i)))).

Definition copyinstr_post (s : kmem) (A : aspace) (va : Z) (max : nat) (r : bool * list Z) : Prop :=
  if fst r then exists str, snd r = str ++ [0] /\ ustring s A va max str
  else forall str, ~ ustring s A va max str.

Lemma copyinstr_loop_S f pt srcva max :
  copyinstr_loop (S f) pt srcva (S max) =
  (let va0 := PGROUNDDOWN srcva in
   let* pa0 := walkaddr pt va0 in
   if pa0 =? 0 then ret (false, [])
   else
     let n := Nat.min (Z.to_nat (PGSIZE - (srcva - va0))) (S max) in
     let* bs := rd_bytes (pa0 + (srcva - va0)) n in
     let c := scan_nul bs in
     if snd c then ret (true, fst c)
     else
       let* r := copyinstr_loop f pt (u64 (va0 + PGSIZE)) (S max - n) in
       ret (fst r, fst c ++ snd r)).
Proof. done. Qed.

Lemma copyinstr_loop_spec fuel max srcva s l xs A sz :
  proc_ok kend s l xs A sz -> 0 <= srcva < 2 ^ 64 -> (max <= fuel)%nat ->
  exists r, copyinstr_loop fuel (as_root A) srcva max s = Ok r s /\ copyinstr_post s A srcva max r.
Proof.
  intros Hp. revert max srcva. induction fuel as [|fuel IH]; intros max srcva Hva Hf.
  all: destruct max as [|max]; [exists (false, []); split; [done|]; intros str [? _]; lia|try lia].
  rewrite copyinstr_loop_S. cbv zeta. destruct (va_split srcva Hva) as (Ha0 & Hb0 & Hoff & Hin).
  set (va0 := PGROUNDDOWN srcva) in *. destruct (Hin 0) as [Hv0 _]; [lia|]. rewrite Z.add_0_r in Hv0.
  erewrite bind_Ok by by eapply (walkaddr_spec Hend).
  destruct (user_pte A (vpn va0)) as [pte|] eqn:Hu; simpl.
  2: { exists (false, []). split; [done|]. intros str (_ & _ & Hs).
       assert (exists x, (str ++ [0]) !! 0%nat = Some x) as [x Hx] by (destruct str; by eexists).
       destruct (Hs 0%nat x Hx) as [_ [y Hy]]. rewrite Z.add_0_r, Hv0 in Hy. congruence. }
  destruct (user_pte_phys Hend _ _ _ _ _ _ _ Hp Hu) as (_ & _ & Hv & _ & _ & Hne).
  rewrite (proj2 (Z.eqb_neq _ 0)) by done.
  set (n := Nat.min (Z.to_nat (PGSIZE - (srcva - va0))) (S max)).
  assert (va0 + PGSIZE < 2 ^ 64) as Hnx.
  { apply UV_bound in Hv. unfold vpn in Hv. change TRAPFRAME with (2 ^ 38 - 8192) in *. unfold aligned, PGSIZE in *. divlia. }
  destruct (rd_bytes_user Hend s l xs A sz srcva n pte Hp Hva Hu) as (bs & E2 & Hlen & Hbs); [unfold n; lia|].
  fold va0 in E2. erewrite bind_Ok by done.
  assert (Z.of_nat n <= PGSIZE - (srcva - va0) /\ (1 <= n <= S max)%nat) as Hn by (unfold n, PGSIZE in *; lia).
  assert (forall i, (i < n)%nat -> is_Some (user_pte A (vpn (srcva + Z.of_nat i)))) as Hmapped.
  { intros i Hi. destruct (Hin (Z.of_nat i)) as [-> _]; [lia|by eexists]. }
  pose proof (scan_nul_spec bs) as Hscan. destruct (snd (scan_nul bs)).
  - destruct Hscan as (str & rest & -> & -> & Hns). exists (true, str ++ [0]). split; [done|]. exists str. split; [done|].
    rewrite length_app in Hlen. simpl in Hlen. split; [lia|]. split; [done|]. intros i x Hx.
    assert (i < length (str ++ [0%Z]))%nat as Hi by by eapply lookup_lt_Some. rewrite length_app in Hi. simpl in Hi.
    split; [|apply Hmapped; lia]. symmetry. apply Hbs. replace (str ++ 0 :: rest) with ((str ++ [0]) ++ rest) by (by rewrite <- app_assoc).
    by apply lookup_app_l_Some.
  - destruct Hscan as [-> Hnb]. rewrite u64_small by (unfold PGSIZE in *; lia).
    destruct (IH (S max - n)%nat (va0 + PGSIZE)) as (r & E3 & Hpost); [unfold PGSIZE in *; lia|lia|].
    erewrite bind_Ok by done. exists (fst r, bs ++ snd r). split; [done|].
    assert (n = S max \/ va0 + PGSIZE = srcva + Z.of_nat n) as Hcase by (unfold n, PGSIZE in *; lia).
    unfold copyinstr_post in *. simpl. destruct (fst r).
    + destruct Hpost as (str & -> & Hlt & Hns & Hs). destruct Hcase as [Hc|Hc]; [lia|].
      exists (bs ++ str). split; [by rewrite app_assoc|]. split; [rewrite length_app; lia|].
      split; [rewrite elem_of_app; tauto|]. intros i x Hx. rewrite <- app_assoc in Hx.
      apply lookup_app_Some in Hx as [Hx|[Hge Hx]].
      * assert (i < length bs)%nat by by eapply lookup_lt_Some. split; [symmetry; by apply Hbs|apply Hmapped; lia].
      * apply Hs in Hx. rewrite Hlen in Hx, Hge. replace (srcva + Z.of_nat i) with (va0 + PGSIZE + Z.of_nat (i - n)) by lia. done.
    + intros str (Hlt & Hns & Hs). assert (n <= length str)%nat as Hge.
      { destruct (decide (n <= length str)%nat) as [|Hlt']; [done|]. exfalso. apply Hnb.
        destruct (Hs (length str) 0) as [Hz _]; [by rewrite lookup_app_r, Nat.sub_diag by lia|].
        destruct (lookup_lt_is_Some_2 bs (length str)) as [x Hx]; [lia|].
        rewrite (Hbs _ _ Hx) in Hx. rewrite Hz in Hx. by eapply list_elem_of_lookup_2. }
      destruct Hcase as [Hc|Hc]; [lia|]. apply (Hpost (drop n str)).
      split; [rewrite length_drop; lia|]. split; [intros Hin0; apply Hns; rewrite <- (take_drop n str); apply elem_of_app; by right|].
      intros i x Hx. rewrite Hc. replace (srcva + Z.of_nat n + Z.of_nat i) with (srcva + Z.of_nat (n + i)) by lia.
      apply Hs. rewrite <- (take_drop n str) at 1. rewrite <- app_assoc, lookup_app_r; rewrite length_take; [|lia].
      by replace (n + i - Nat.min n (length str))%nat with i by lia.
Qed.

End str.

(* ------------------------------------------------------------------ *)
(** ** A process with two pages of memory *)

Lemma ex_kend_pos : 0 < ex_kend.
Proof. unfold ex_kend, PHYSTOP, KERNBASE, PGSIZE. lia. Qed.

Lemma ex_process : exists s l A, proc_ok ex_kend s l [] A 16384 /\ (9 <= length l)%nat /\
  (forall w, is_Some (as_map A !! w) <-> 0 <= w < 2).
Proof.
  destruct ex_space as (s & l & A & Hv & Ho & Hm & Hl).
  destruct (uvmalloc_loop_spec ex_kend_pos 2 0 s l [] A [] s l A 0 8192 PTE_W 2)
    as (r & s' & l' & A' & es & _ & Had & Hr).
  - by apply (added_refl).
  - split; [done|]. intros e He. by apply not_elem_of_nil in He.
  - done.
  - lia.
  - change TRAPFRAME with (2 ^ 38 - 8192). unfold PGSIZE. lia.
  - lia.
  - intros k Hk. destruct k as [|[|[|]]]; [done..|lia].
  - intros w Hw. rewrite Hm, lookup_empty, Ho. split; [done|]. apply Z.ltb_lt.
    change (vpn 0) with 0 in Hw. change UV with (2 ^ 26 - 2). lia.
  - change PTE_W with 4. lia.
  - destruct Hr as [(_ & [Hzm Hz] & Hlen)|(_ & _ & Hlen)]; [|lia].
    exists s', l', A'. assert (NoDup (map np_v es)) as Hnd by (rewrite Hzm; by apply (bool_decide_unpack _)).
    assert (forall w, is_Some (as_map A' !! w) <-> 0 <= w < 2) as Hdom.
    { intros w. rewrite (ad_map _ _ _ _ _ _ _ _ Had).
      assert (w ∈ map np_v es <-> 0 <= w < 2) as Hw.
      { rewrite Hzm, elem_of_reverse, elem_of_seqZ. change (vpn 0) with 0. lia. }
      destruct (map_new_lookup es (as_map A) w Hnd) as [(e & He & Hev & ->)|[Hn ->]].
      - split; [|by eexists]. intros _. apply Hw. apply list_elem_of_fmap. by exists e.
      - rewrite Hm, lookup_empty. split; [by intros [? ?]|]. intros H. by apply Hw in H. }
    split; [|split; [lia|done]]. split; [apply Had|by rewrite (ad_own _ _ _ _ _ _ _ _ Had)| |].
    + intros w pte Hw _. assert (0 <= w < 2) by (apply Hdom; by eexists). change UV with (2 ^ 26 - 2). lia.
    + change TRAPFRAME with (2 ^ 38 - 8192). lia.
Qed.

