(* ===== verification/VmCopy.v ===== *)
(** * fork()'s copy of user memory: uvmcopy() of kernel/vm.c *)

From stdpp Require Import base numbers list gmap sets strings.
From Stdlib Require Import ZArith Lia.
From S2P Require Import Prelude Params Kalloc Vm VmSpace VmMap VmUser VmMem.

Section copy.
Context {kend : Z} (Hend : 0 < kend).

(** The pages of [es] are copies of the first [n] pages of [O], as they
    were in [m]. *)
Record copies (m : gmap Z (list Z)) (O : aspace) (n : nat) (es : list newpage) : Prop := {
  co_nodup : NoDup (map np_v es);
  co_from e : e ∈ es -> 0 <= np_v e < Z.of_nat n /\ exists pte, as_map O !! np_v e = Some pte /\
    np_perm e = PTE_FLAGS pte /\ m !! PTE2PA pte = Some (np_bytes e);
  co_all w : 0 <= w < Z.of_nat n -> is_Some (as_map O !! w) -> w ∈ map np_v es
}.

Lemma copies_skip m O n es : copies m O n es -> as_map O !! Z.of_nat n = None -> copies m O (S n) es.
Proof.
  intros [Hn Hf Ha] Hno. split; [done| |].
  - intros e He. destruct (Hf e He) as [? ?]. split; [lia|done].
  - intros w Hw Hs. destruct (decide (w = Z.of_nat n)) as [->|]; [rewrite Hno in Hs; by destruct Hs|].
    apply Ha; [lia|done].
Qed.

Lemma copies_add m O n es pte p bs :
  copies m O n es -> as_map O !! Z.of_nat n = Some pte -> m !! PTE2PA pte = Some bs ->
  copies m O (S n) (NP (Z.of_nat n) p (PTE_FLAGS pte) bs :: es).
Proof.
  intros [Hn Hf Ha] Ho Hm. split; simpl.
  - apply NoDup_cons. split; [|done]. intros (e & He & Hin)%list_elem_of_fmap.
    destruct (Hf e Hin) as [? _]. lia.
  - intros e [->|He]%elem_of_cons; simpl; [split; [lia|by exists pte]|].
    destruct (Hf e He) as [? ?]. split; [lia|done].
  - intros w Hw Hs. destruct (decide (w = Z.of_nat n)) as [->|]; [by left|]. right. apply Ha; [lia|done].
Qed.

Lemma PTE_FLAGS_range pte : 0 <= PTE_FLAGS pte < 2 ^ 10.
Proof. unfold PTE_FLAGS. change 0x3FF with (Z.ones 10). rewrite Z.land_ones by lia. apply Z.mod_pos_bound. lia. Qed.

(** The parent's space while the child's is built: its tables and pages are
    among the pages held elsewhere. *)
Definition held (O : aspace) (xs : list Z) (n : Z) : Prop :=
  (forall t, t ∈ tables O -> t ∈ xs) /\
  (forall w pte, as_map O !! w = Some pte -> 0 <= w < n -> PTE2PA pte ∈ xs).

Lemma held_frame s0 l0 xs A0 es s l A O N :
  added (kend := kend) s0 l0 xs A0 es s l A -> vm_ok kend s0 l0 xs A0 -> held O xs N ->
  as_ok kend (km_mem s0) O ->
  as_ok kend (km_mem s) O /\ forall p, p ∈ xs -> km_mem s !! p = km_mem s0 !! p.
Proof.
  intros Had Hv0 [Ht _] Ho. pose proof (v_nodup _ _ _ _ _ Hv0) as Hnd. rewrite !NoDup_app in Hnd.
  destruct Hnd as (_ & D1 & _ & D2 & _ & D3 & _).
  assert (forall p, p ∈ xs -> p ∉ tables A0 ++ l0) as Hd.
  { intros p Hp. specialize (D1 p). specialize (D3 p Hp). lin. }
  split; [|intros p Hp; apply (ad_ram _ _ _ _ _ _ _ _ Had); by apply Hd].
  eapply as_ok_frame; [exact Ho|apply (ad_ram _ _ _ _ _ _ _ _ Had)|]. intros t Htt. by apply Hd, Ht.
Qed.

Lemma rd_page_Ok s pa bs : aligned pa -> km_mem s !! pa = Some bs -> rd_page pa s = Ok bs s.
Proof. intros Ha Hm. apply get_page_Ok. by rewrite page_of_aligned. Qed.
Lemma wr_page_Ok s pa bs : aligned pa -> is_Some (km_mem s !! pa) -> wr_page pa bs s = Ok tt (set_mem <[pa := bs]> s).
Proof.
  intros Ha [p Hp]. unfold wr_page. erewrite bind_Ok by (apply get_page_Ok; by rewrite page_of_aligned).
  by rewrite page_of_aligned.
Qed.

Lemma uvmcopy_loop_S f old new i sz :
  uvmcopy_loop kend (S f) old new i sz =
  if i <? sz then
    let err := uvmunmap kend new 0 (i / PGSIZE) true ;; ret (-1) in
    let next := uvmcopy_loop kend f old new (u64 (i + PGSIZE)) sz in
    let* pte := walk old i false in
    if pte =? 0 then next
    else
      let* v := rd64 pte in
      if negb (has PTE_V v) then next
      else
        let* mem := kalloc in
        if mem =? 0 then err
        else
          let* bs := rd_page (PTE2PA v) in
          wr_page mem bs ;;
          let* r := mappages new i PGSIZE mem (PTE_FLAGS v) in
          if negb (r =? 0) then kfree kend mem ;; err
          else next
  else ret 0.
Proof. done. Qed.

(** What the loop promises from page [n] on. *)
Definition copy_post (s0 : kmem) (l0 xs : list Z) (A0 O : aspace) (N : nat) (o : out kmem Z) (bound : nat) (l : list Z) : Prop :=
  exists r s' l' A' es, o = Ok r s' /\ added (kend := kend) s0 l0 xs A0 es s' l' A' /\
    ((r = 0 /\ copies (km_mem s0) O N es) \/ (r = -1 /\ es = [] /\ (length l < bound)%nat)).

Lemma uvmcopy_loop_spec fuel n s0 l0 xs A0 O es s l A sz N :
  vm_ok kend s0 l0 xs A0 -> as_ok kend (km_mem s0) O -> held O xs (Z.of_nat N) ->
  added (kend := kend) s0 l0 xs A0 es s l A -> copies (km_mem s0) O n es ->
  Z.of_nat N * PGSIZE <= TRAPFRAME -> (n <= N <= n + fuel)%nat ->
  (forall k, (k <= N)%nat -> (Z.of_nat k * PGSIZE <? sz) = bool_decide (k < N)%nat) ->
  (forall w, 0 <= w < Z.of_nat N -> as_map A0 !! w = None /\ as_own A0 w = true) ->
  copy_post s0 l0 xs A0 O N
    (uvmcopy_loop kend fuel (as_root O) (as_root A0) (Z.of_nat n * PGSIZE) sz s) (3 * (N - n)) l.
Proof.
  intros Hv0 Ho Hheld. revert n es s l A. induction fuel as [|fuel IH]; intros n es s l A Had Hco Hmax HN Hlt Hr.
  { assert (n = N) as -> by lia. exists 0, s, l, A, es. split; [|auto]. simpl.
    rewrite Hlt, bool_decide_eq_false_2 by lia. done. }
  rewrite uvmcopy_loop_S, Hlt by lia. destruct (decide (n = N)) as [->|].
  { rewrite bool_decide_eq_false_2 by lia. exists 0, s, l, A, es. auto. }
  rewrite bool_decide_eq_true_2 by lia. set (i := Z.of_nat n * PGSIZE). cbv zeta.
  assert (0 <= i < MAXVA) as Hi.
  { change TRAPFRAME with (2 ^ 38 - 8192) in *. change MAXVA with (2 ^ 38). unfold i, PGSIZE in *. lia. }
  assert (vpn i = Z.of_nat n) as Evi by (unfold i, vpn; apply Z.div_mul; unfold PGSIZE; lia).
  assert (aligned i) as Hai by (apply Z.mod_mul; unfold PGSIZE; lia).
  assert (u64 (i + PGSIZE) = Z.of_nat (S n) * PGSIZE) as Enext.
  { rewrite u64_small; [unfold i, PGSIZE; lia|]. change MAXVA with (2 ^ 38) in *. unfold PGSIZE. lia. }
  rewrite Enext. destruct (held_frame _ _ _ _ _ _ _ _ _ _ Had Hv0 Hheld Ho) as [HoS Hxs].
  assert (forall es s l A, added (kend := kend) s0 l0 xs A0 es s l A -> copies (km_mem s0) O n es ->
    forall bound l1, (length l1 < bound)%nat ->
    copy_post s0 l0 xs A0 O N ((uvmunmap kend (as_root A0) 0 (i / PGSIZE) true ;; ret (-1)) s) bound l1) as Herr.
  { intros es' s' l' A' Had' Hco' bound l1 Hb.
    destruct (added_undo Hend s0 l0 xs A0 es' s' l' A' 0 n Had') as (s2 & l2 & A2 & E2 & Had2); try done.
    - change TRAPFRAME with (2 ^ 38 - 8192) in *. change MAXVA with (2 ^ 38). unfold PGSIZE in *. lia.
    - intros e He. change (vpn 0) with 0. apply (co_from _ _ _ _ Hco') in He as [He _]. lia.
    - change (vpn 0) with 0. intros w Hw. apply Hr. lia.
    - exists (-1), s2, l2, A2, []. split; [|auto]. unfold i. rewrite Z.div_mul by (unfold PGSIZE; lia).
      rewrite <- (ad_root _ _ _ _ _ _ _ _ Had'). by erewrite bind_Ok by done. }
  assert (forall es s l' A, added (kend := kend) s0 l0 xs A0 es s l' A -> copies (km_mem s0) O (S n) es ->
    (length l <= length l' + 3)%nat -> copy_post s0 l0 xs A0 O N
      (uvmcopy_loop kend fuel (as_root O) (as_root A0) (Z.of_nat (S n) * PGSIZE) sz s) (3 * (N - n)) l) as Hnext.
  { intros es' s' l' A' Had' Hco' Hl.
    destruct (IH (S n) es' s' l' A' Had' Hco' Hmax) as (r & s2 & l2 & A2 & es2 & E2 & Had2 & H2); try done; [lia|].
    exists r, s2, l2, A2, es2. split; [done|]. split; [done|]. destruct H2 as [?|(? & ? & ?)]; [auto|right; auto with lia]. }
  erewrite bind_Ok by by apply (walk_find Hend).
  pose proof (leaf_addr_spec Hend s O i HoS Hi) as Hleaf. rewrite Evi in Hleaf.
  destruct (as_tab O !! key 0 i) as [t|].
  2: { destruct Hleaf as [-> Hno]. rewrite Z.eqb_refl. eapply Hnext; [done|by apply copies_skip|lia]. }
  destruct Hleaf as (El & Hne & _ & Hrd). rewrite (proj2 (Z.eqb_neq _ 0)) by done.
  erewrite bind_Ok by done. destruct (as_map O !! Z.of_nat n) as [pte|] eqn:Epte.
  2: { change (has PTE_V (default 0 None)) with false. eapply Hnext; [done|by apply copies_skip|lia]. }
  destruct (ok_map _ _ _ Ho _ _ Epte) as (Hval & _ & _). cbn [default]. unfold from_option, id. rewrite Hval. cbn [negb].
  destruct l as [|p l].
  { destruct (added_kalloc_none Hend _ _ _ _ _ _ _ Had) as (s1 & E1 & Had1). erewrite bind_Ok by done.
    rewrite Z.eqb_refl. eapply Herr; [done|done|simpl; lia]. }
  assert (PTE2PA pte ∈ xs) as Hpx by (eapply Hheld; [done|lia]).
  destruct (v_foot _ _ _ _ _ Hv0 (PTE2PA pte)) as (Hpa & _ & [bs Hbs]); [lin|].
  destruct (added_step Hend s0 l0 xs A0 es s p l A i (PTE_FLAGS pte) bs Had Hai Hi (PTE_FLAGS_range pte))
    as (s1 & r & s3 & E1 & Hp0 & Hrp & Hs1 & E3 & Hres).
  - rewrite Evi, (ad_map _ _ _ _ _ _ _ _ Had).
    destruct (map_new_lookup es (as_map A0) (Z.of_nat n) (co_nodup _ _ _ _ Hco)) as [(e & He & Hev & _)|[_ ->]].
    + destruct (co_from _ _ _ _ Hco e He) as [? _]. lia.
    + apply Hr. lia.
  - rewrite Evi. apply Hr. lia.
  - by eapply (fr_ram _ _ _ (v_free _ _ _ _ _ Hv0)).
  - erewrite bind_Ok by done. rewrite (proj2 (Z.eqb_neq p 0)) by done.
    erewrite (bind_Ok (rd_page _)).
    2: { apply rd_page_Ok; [done|]. rewrite (proj1 Hs1), Hxs; [done|done|].
         intros E%list_elem_of_singleton. rewrite E in Hpx.
         destruct (ad_vm _ _ _ _ _ _ _ _ Had) as [_ _ Hnd _]. rewrite !NoDup_app in Hnd.
         destruct Hnd as (_ & _ & _ & _ & _ & D3 & _). specialize (D3 p Hpx). lin. }
    erewrite bind_Ok by (apply wr_page_Ok; apply Hrp).
    rewrite (ad_root _ _ _ _ _ _ _ _ Had) in E3. erewrite bind_Ok by exact E3.
    destruct Hres as [(-> & l' & A' & Had' & Hlen)|(-> & s4 & l' & A' & E4 & Had' & Hlen)].
    + cbn [Z.eqb negb]. rewrite Evi in Had'. eapply Hnext; [done|by apply copies_add|simpl; lia].
    + change (negb (-1 =? 0)) with true. cbv iota. erewrite bind_Ok by done. eapply Herr; [done|done|simpl; lia].
Qed.

End copy.

(** A page the space owns is nobody else's. *)
Lemma upage_private kend s l xs A p : vm_ok kend s l xs A -> p ∈ upages A -> p ∉ xs.
Proof.
  intros Hv Hin Hx. pose proof (v_nodup _ _ _ _ _ Hv) as Hnd. rewrite !NoDup_app in Hnd.
  destruct Hnd as (_ & _ & _ & D & _). apply (D p Hin). lin.
Qed.

(** C22. uvmcopy() gives the child a private copy: on success each page of
    the parent below sz is mapped in the child with the same permissions, on
    a page that was nobody's, with the same contents; pages the parent never
    touched stay unmapped.  The parent's table and memory are as before.  When
    memory runs out it returns -1 and the child's map is what it was. *)
Theorem uvmcopy_private_copy kend s l xs A O sz :
  0 < kend -> vm_ok kend s l xs A -> as_own A = user_own ->
  as_ok kend (km_mem s) O -> held O xs (vpn (PGROUNDUP sz)) -> 0 <= sz <= TRAPFRAME ->
  (forall w, 0 <= w < vpn (PGROUNDUP sz) -> as_map A !! w = None) ->
  exists r s' l' A', uvmcopy kend (as_root O) (as_root A) sz s = Ok r s' /\
    vm_ok kend s' l' xs A' /\ as_root A' = as_root A /\ as_ok kend (km_mem s') O /\
    same_ram (km_mem s) (km_mem s') (tables A ++ l) /\
    ((r = 0 /\ forall w,
        if decide (0 <= w < vpn (PGROUNDUP sz)) then
          match as_map O !! w with
          | Some pte => exists p, as_map A' !! w = Some (mkpte p (PTE_FLAGS pte)) /\ p ∉ xs /\
              km_mem s' !! p = km_mem s !! PTE2PA pte
          | None => as_map A' !! w = None
          end
        else as_map A' !! w = as_map A !! w) \/
     (r = -1 /\ as_map A' = as_map A /\ (length l < 3 * npages sz 0)%nat)).
Proof.
  intros Hend Hv Hown Ho Hheld Hsz Hfree. pose proof (npages_bound 0 sz ltac:(lia) (proj2 Hsz)) as HN.
  change (PGROUNDUP 0) with 0 in HN. rewrite Z.add_0_l in HN.
  destruct (PGROUNDUP_pages sz Hsz) as (H4 & H5 & H6). set (N := npages sz 0) in *.
  assert (vpn (PGROUNDUP sz) = Z.of_nat N) as Ev.
  { rewrite <- HN. unfold vpn. apply Z.div_mul. unfold PGSIZE. lia. }
  rewrite Ev in *. unfold uvmcopy.
  destruct (uvmcopy_loop_spec Hend (Z.to_nat (sz / PGSIZE + 1)) 0 s l xs A O [] s l A sz N)
    as (r & s' & l' & A' & es & E & Had & Hr); try done.
  - by apply added_refl.
  - split; [constructor| |lia]. intros e He. by apply not_elem_of_nil in He.
  - lia.
  - unfold PGSIZE in *. divlia.
  - intros k Hk. destruct (decide (k < N)%nat).
    + rewrite bool_decide_eq_true_2 by done. apply Z.ltb_lt. unfold PGSIZE in *. lia.
    + rewrite bool_decide_eq_false_2 by done. apply Z.ltb_ge. unfold PGSIZE in *. lia.
  - intros w Hw. split; [by apply Hfree|]. rewrite Hown. apply Z.ltb_lt. unfold UV.
    change TRAPFRAME with (2 ^ 38 - 8192) in *. unfold PGSIZE in *. divlia.
  - simpl Z.of_nat in E. rewrite Z.mul_0_l in E. exists r, s', l', A'. split; [done|].
    destruct (held_frame _ _ _ _ _ _ _ _ _ _ Had Hv Hheld Ho) as [Ho' Hxs].
    destruct Had as [Hv' Hroot Hown' Hmap Hmem Hod Hram _ _ Hup]. do 4 (split; [done|]).
    destruct Hr as [[-> [Hnd Hfrom Hall]]|(-> & -> & Hl)]; [left|right; auto with lia].
    split; [done|]. intros w. rewrite Hmap.
    destruct (map_new_lookup es (as_map A) w Hnd) as [(e & He & <- & Em)|[Hw ->]].
    + destruct (Hfrom e He) as (Hwr & pte & Epte & Eperm & Ebs). rewrite decide_True, Epte, Em, Eperm by done.
      exists (np_pa e). split; [done|]. split; [|by rewrite Hmem, Ebs].
      apply (upage_private kend s' l' xs A'); [done|]. rewrite Hup, elem_of_app. left. by apply elem_of_new_pages.
    + case_decide as Hin; [|done]. destruct (as_map O !! w) as [pte|] eqn:Epte; [|by apply Hfree].
      exfalso. apply Hw, Hall; [done|]. by eexists.
Qed.

(** A child space beside the process of [ex_process]. *)
Lemma uvmcopy_private_copy_witness : exists s l xs A O r s',
  vm_ok ex_kend s l xs A /\ as_ok ex_kend (km_mem s) O /\ is_Some (as_map O !! 1) /\
  uvmcopy ex_kend (as_root O) (as_root A) 8192 s = Ok r s' /\ (r = 0 \/ r = -1).
Proof.
  destruct ex_process as (s & l & O & Hp & Hl & Hdom). destruct l as [|p l]; [simpl in Hl; lia|].
  destruct (uvmcreate_beside ex_kend_pos s p l [] O user_own (p_vm _ _ _ _ _ _ Hp)) as (s1 & _ & Hv & Ho).
  rewrite app_nil_r in Hv.
  destruct (uvmcopy_private_copy ex_kend s1 l (tables O ++ upages O) (empty_space p user_own) O 8192)
    as (r & s' & l2 & A2 & E & _ & _ & _ & _ & Hr).
  - exact ex_kend_pos.
  - exact Hv.
  - done.
  - exact Ho.
  - split; [intros t Ht; apply elem_of_app; by left|]. intros w pte Hw _. apply elem_of_app. right.
    apply elem_of_upages. exists w, pte. split; [done|]. split; [|done]. rewrite (p_own _ _ _ _ _ _ Hp).
    apply Z.ltb_lt. assert (0 <= w < 2) by (apply Hdom; by eexists). change UV with (2 ^ 26 - 2). lia.
  - change TRAPFRAME with (2 ^ 38 - 8192). lia.
  - intros w _. apply lookup_empty.
  - exists s1, l, (tables O ++ upages O), (empty_space p user_own), O, r, s'.
    split; [done|]. split; [done|]. split; [apply Hdom; lia|]. split; [done|].
    destruct Hr as [[-> _]|[-> _]]; auto.
Defined.
