(* ===== verification/VmFree.v ===== *)
(** * Freeing an address space

   freewalk() and uvmfree() of kernel/vm.c give back every page of the
   space. *)

From stdpp Require Import base numbers list gmap sets strings.
From Stdlib Require Import ZArith Lia.
From S2P Require Import Prelude Params Kalloc Vm VmSpace VmMap VmUser VmMem.

(** The table pages under a table, in the order freewalk() meets them. *)
Fixpoint subtab (T : gmap (nat * Z) Z) (level : nat) (pre : Z) : list Z :=
  match T !! (level, pre) with
  | None => []
  | Some t =>
      t :: match level with
           | O => []
           | S level' => seqZ 0 512 ≫= (fun i => subtab T level' (pre * 512 + i))
           end
  end.

Lemma subtab_eq T level pre : subtab T level pre =
  match T !! (level, pre) with
  | None => []
  | Some t =>
      t :: match level with
           | O => []
           | S level' => seqZ 0 512 ≫= (fun i => subtab T level' (pre * 512 + i))
           end
  end.
Proof. by destruct level. Qed.

(** Pages under different tables are different. *)
Lemma elem_of_subtab kend m A level pre p : as_ok kend m A ->
  p ∈ subtab (as_tab A) level pre ->
  exists l q, (l <= level)%nat /\ as_tab A !! (l, q) = Some p /\ q / 512 ^ (Z.of_nat level - Z.of_nat l) = pre.
Proof.
  intros Hok. revert pre. induction level as [|level IH]; intros pre; rewrite subtab_eq;
    (destruct (as_tab A !! _) as [t|] eqn:Et; [|by intros ?%not_elem_of_nil]); intros [->|Hp]%elem_of_cons.
  - exists 0%nat, pre. split; [done|]. split; [done|]. apply Z.div_1_r.
  - by apply not_elem_of_nil in Hp.
  - exists (S level), pre. split; [done|]. split; [done|]. rewrite Z.sub_diag. apply Z.div_1_r.
  - apply list_elem_of_bind in Hp as (i & Hp & Hi%elem_of_seqZ).
    apply IH in Hp as (l & q & Hl & Hq & E). exists l, q. split; [lia|]. split; [done|].
    replace (Z.of_nat (S level) - Z.of_nat l) with (Z.of_nat level - Z.of_nat l + 1) by lia.
    rewrite Z.pow_add_r, Z.pow_1_r by lia. rewrite <- Z.div_div by lia. rewrite E. divlia.
Qed.

Lemma NoDup_subtab kend m A level pre : as_ok kend m A -> NoDup (subtab (as_tab A) level pre).
Proof.
  intros Hok. revert pre. induction level as [|level IH]; intros pre; rewrite subtab_eq;
    (destruct (as_tab A !! _) as [t|] eqn:Et; [|constructor]); apply NoDup_cons; split.
  - apply not_elem_of_nil.
  - constructor.
  - intros (i & Hp & _)%list_elem_of_bind. apply (elem_of_subtab _ _ _ _ _ _ Hok) in Hp as (l & q & Hl & Hq & _).
    pose proof (ok_inj _ _ _ Hok _ _ _ Et Hq) as [= ? ?]. lia.
  - apply NoDup_bind; [|auto|apply NoDup_seqZ]. intros i j p _ _ Hi Hj.
    apply (elem_of_subtab _ _ _ _ _ _ Hok) in Hi as (l & q & _ & Hq & Ei).
    apply (elem_of_subtab _ _ _ _ _ _ Hok) in Hj as (l' & q' & _ & Hq' & Ej).
    pose proof (ok_inj _ _ _ Hok _ _ _ Hq Hq') as [= <- <-]. lia.
Qed.

Lemma subtab_here T level q p : T !! (level, q) = Some p -> p ∈ subtab T level q.
Proof. intros Hp. rewrite subtab_eq, Hp. by left. Qed.

Lemma subtab_up T level q p :
  p ∈ subtab T level q -> is_Some (T !! (S level, q / 512)) -> p ∈ subtab T (S level) (q / 512).
Proof.
  intros Hp [t Ht]. rewrite subtab_eq, Ht. right. apply list_elem_of_bind. exists (q mod 512).
  replace (q / 512 * 512 + q mod 512) with q by divlia. split; [done|]. apply elem_of_seqZ.
  apply Z.mod_pos_bound. lia.
Qed.

Lemma subtab_all kend m A : as_ok kend m A -> subtab (as_tab A) 2 0 ≡ₚ tables A.
Proof.
  intros Hok. apply NoDup_Permutation.
  - by eapply NoDup_subtab.
  - unfold tables. apply NoDup_fmap_2_strong; [|apply NoDup_map_to_list].
    intros [k t] [k' t'] Hk%elem_of_map_to_list Hk'%elem_of_map_to_list. simpl. intros <-.
    f_equal. by eapply ok_inj.
  - intros p. rewrite elem_of_tables. split.
    + intros (l & q & _ & Hq & _)%(elem_of_subtab _ _ _ _ _ _ Hok). by eexists.
    + intros [[l q] Hk]. destruct (ok_key _ _ _ Hok _ _ _ Hk) as [Hl Hq].
      pose proof (subtab_here _ _ _ _ Hk) as Hin. destruct l as [|[|[|]]]; [| | |lia].
      * pose proof (ok_parent _ _ _ Hok _ _ _ Hk ltac:(lia)) as H1. pose proof H1 as [t1 Ht1].
        pose proof (ok_parent _ _ _ Hok _ _ _ Ht1 ltac:(lia)) as H2.
        pose proof (subtab_up _ _ _ _ (subtab_up _ _ _ _ Hin H1) H2) as Hup.
        replace (q / 512 / 512) with 0 in Hup; [done|]. change (512 ^ (2 - Z.of_nat 0)) with 262144 in Hq. divlia.
      * pose proof (ok_parent _ _ _ Hok _ _ _ Hk ltac:(lia)) as H1.
        pose proof (subtab_up _ _ _ _ Hin H1) as Hup.
        replace (q / 512) with 0 in Hup; [done|]. change (512 ^ (2 - Z.of_nat 1)) with 512 in Hq. divlia.
      * replace q with 0 in Hin; [done|]. change (512 ^ (2 - Z.of_nat 2)) with 1 in Hq. lia.
Qed.

(** A directory entry has none of the permission bits of a leaf. *)
Lemma dir_not_leaf c : phys c -> Z.land (mkpte c 0) (Z.lor (Z.lor PTE_R PTE_W) PTE_X) = 0.
Proof.
  intros Hp. apply Z.bits_inj_0. intros i. rewrite Z.land_spec.
  change (Z.lor (Z.lor PTE_R PTE_W) PTE_X) with 14.
  destruct (decide (0 <= i < 10)) as [Hi|].
  - rewrite mkpte_bit, Z.testbit_0_l by done. destruct (Z.eqb_spec i 0) as [->|]; done.
  - destruct (decide (i < 0)); [by rewrite !Z.testbit_neg_r by lia|].
    rewrite (Z.bits_above_log2 14 i); [apply andb_false_r|lia|]. change (Z.log2 14) with 3. lia.
Qed.

Section free.
Context {kend : Z} (Hend : 0 < kend) (m0 : gmap Z (list Z)) (A : aspace).
Context (Hok : as_ok kend m0 A) (Hempty : as_map A = ∅).

Notation T := (as_tab A).

(** The children of the first [n] entries of a table. *)
Definition kids (level : nat) (pre : Z) (n : nat) : list Z :=
  seqZ 0 (Z.of_nat n) ≫= (fun i => subtab T level (pre * 512 + i)).

Lemma kids_S level pre n : kids level pre (S n) = kids level pre n ++ subtab T level (pre * 512 + Z.of_nat n).
Proof. unfold kids. rewrite seqZ_S, bind_app. simpl. by rewrite app_nil_r. Qed.

Definition freed (ps : list Z) (s s' : kmem) (l l' : list Z) : Prop :=
  free_ok kend s' l' /\ l' ≡ₚ ps ++ l /\ same_ram (km_mem s) (km_mem s') ps.

(** The loop over the entries of table [t]: entry [n] and the later ones
    are still what they were. *)
Definition walking (level : nat) (pre t : Z) (s : kmem) (l : list Z) (i : Z) (s' : kmem) : Prop :=
  exists l', free_ok kend s' l' /\ l' ≡ₚ kids level pre (Z.to_nat i) ++ l /\
    same_ram (km_mem s) (km_mem s') (t :: kids level pre (Z.to_nat i)) /\
    (forall j, i <= j < 512 -> pte_at (km_mem s') t j = pte_at m0 t j).

Lemma table_page level pre t : T !! (level, pre) = Some t -> aligned t /\ kend <= t < PHYSTOP /\ is_Some (m0 !! t).
Proof. apply (ok_page _ _ _ Hok). Qed.

Lemma freewalk_S d t :
  freewalk kend (S d) t = (for_range 512 0 (free_entry (freewalk kend d) t) ;; kfree kend t).
Proof. done. Qed.

(** kfree() of the table itself. *)
Lemma free_table t s l :
  free_ok kend s l -> aligned t -> kend <= t < PHYSTOP -> is_Some (km_mem s !! t) -> t ∉ l ->
  exists s', kfree kend t s = Ok tt s' /\ free_ok kend s' (t :: l) /\ same_ram (km_mem s) (km_mem s') [t].
Proof.
  intros Hf Ha Hr Hm Hl. destruct (kfree_spec kend Hend s l t Hf Ha Hr Hm Hl) as (s' & E & Hf' & Hk & Hs).
  exists s'. split; [done|]. split; [done|]. split.
  - intros a Hna. apply Hk. intros ->. apply Hna. by left.
  - intros a Hia. destruct (decide (a = t)) as [->|]; [done|by rewrite Hk].
Qed.

(** A level-0 table of an empty space has no entries. *)
Lemma freewalk_leaf pre t s l :
  T !! (0%nat, pre) = Some t -> free_ok kend s l -> t ∉ l -> km_mem s !! t = m0 !! t ->
  exists s' l', freewalk kend 1 t s = Ok tt s' /\ freed [t] s s' l l'.
Proof.
  intros Ht Hf Hl Hm. destruct (table_page _ _ _ Ht) as (Ha & Hr & Hs). rewrite freewalk_S.
  destruct (for_range_Ok 512 0 (free_entry (freewalk kend 0) t) (fun _ s' => s' = s) s) as (s1 & E1 & ->); [done| |].
  - intros i s' Hi ->. exists s. split; [|done]. unfold free_entry.
    erewrite bind_Ok by (apply rd64_pte; [done|lia|by rewrite Hm]).
    assert (pte_at (km_mem s) t i = 0) as ->; [|done].
    unfold pte_at. rewrite Hm. change (pte_at m0 t i = 0). rewrite (ok_leaf _ _ _ Hok _ _ _ Ht) by lia.
    by rewrite Hempty, lookup_empty.
  - erewrite bind_Ok by exact E1. destruct (free_table t s l) as (s' & E & Hf' & Hs'); try done; [by rewrite Hm|].
    exists s', (t :: l). split; [done|]. done.
Qed.

Section dir.
Context (level : nat) (pre t : Z) (s : kmem) (l : list Z).
Context (Ht : T !! (S level, pre) = Some t) (Hl : (S level <= 2)%nat).
Context (Hnd : NoDup ((t :: kids level pre 512) ++ l)).
Context (Hsame : forall p, p ∈ t :: kids level pre 512 -> km_mem s !! p = m0 !! p).
Context (IH : forall pre' c s l, T !! (level, pre') = Some c -> free_ok kend s l ->
  NoDup (subtab T level pre' ++ l) -> (forall p, p ∈ subtab T level pre' -> km_mem s !! p = m0 !! p) ->
  exists s' l', freewalk kend (S level) c s = Ok tt s' /\ freed (subtab T level pre') s s' l l').

Lemma kids_in n p : (n <= 512)%nat -> p ∈ kids level pre n -> p ∈ kids level pre 512.
Proof.
  intros Hn. unfold kids. rewrite !list_elem_of_bind. intros (i & Hp & Hi). exists i. split; [done|].
  rewrite elem_of_seqZ in *. lia.
Qed.

(** The lists of the children before entry [n] and of entry [n]. *)
Lemma kids_split n : (n < 512)%nat ->
  NoDup (t :: (kids level pre n ++ subtab T level (pre * 512 + Z.of_nat n)) ++ l) /\
  forall p, p ∈ subtab T level (pre * 512 + Z.of_nat n) -> p ∈ kids level pre 512.
Proof.
  intros Hn. split; [|intros p Hp; apply (kids_in (S n)); [lia|]; rewrite kids_S; lin].
  simpl in Hnd. apply NoDup_cons in Hnd as [Hnt Hnd']. rewrite <- kids_S.
  assert (exists r, kids level pre 512 = kids level pre (S n) ++ r) as [r E].
  { unfold kids. exists (seqZ (Z.of_nat (S n)) (Z.of_nat (511 - n)) ≫= (fun i => subtab T level (pre * 512 + i))).
    rewrite <- bind_app. f_equal. rewrite <- (Z.add_0_l (Z.of_nat (S n))) at 2. rewrite <- seqZ_app by lia.
    f_equal. lia. }
  rewrite E in Hnt, Hnd'. apply NoDup_cons. split; [intros Hin; apply Hnt; lin|].
  rewrite !NoDup_app in *. destruct Hnd' as ((H1 & H2 & _) & H3 & H4). split; [done|]. split; [|done].
  intros x Hx. apply H3. lin.
Qed.

Lemma freewalk_entry i s1 :
  0 <= i < 512 -> walking level pre t s l i s1 ->
  exists s2, free_entry (freewalk kend (S level)) t i s1 = Ok tt s2 /\
    walking level pre t s l (i + 1) s2.
Proof.
  intros Hi (l1 & Hf1 & Hp1 & Hs1 & He1). unfold free_entry. destruct (table_page _ _ _ Ht) as (Ha & Hr & Hm).
  assert (is_Some (km_mem s1 !! t)) as Hm1 by (apply Hs1; rewrite Hsame by (by left); done).
  erewrite bind_Ok by (apply rd64_pte; [done|lia|done]).
  rewrite He1 by lia. rewrite (ok_dir _ _ _ Hok _ _ _ _ Ht) by lia.
  destruct (Z_of_nat_complete i) as [n ->]; [lia|]. rewrite Nat2Z.id in *.
  destruct (kids_split n) as [Hsp Hin]; [lia|].
  replace (Z.of_nat n + 1) with (Z.of_nat (S n)) by lia. unfold walking. rewrite Nat2Z.id, kids_S.
  destruct (T !! (level, pre * 512 + Z.of_nat n)) as [c|] eqn:Ec.
  2: { exists s1. split; [done|]. exists l1. rewrite (subtab_eq T), Ec, app_nil_r.
       split; [done|]. split; [done|]. split; [done|]. intros j Hj. apply He1. lia. }
  pose proof (ram_phys Hend _ _ (ok_page _ _ _ Hok _ _ _ Ec)) as Hph.
  rewrite mkpte_valid, dir_not_leaf, mkpte_pa by (done || lia). cbn [andb Z.eqb].
  set (C := subtab T level (pre * 512 + Z.of_nat n)) in *. set (K := kids level pre n) in *.
  apply NoDup_cons in Hsp as [Htn Hsp]. rewrite !NoDup_app in Hsp. destruct Hsp as ((D0 & D1 & D2) & D3 & D4).
  destruct (IH _ c s1 l1 Ec Hf1) as (s2 & l2 & E2 & Hf2 & Hp2 & Hs2).
  - rewrite Hp1. apply NoDup_app. split; [done|]. split; [|apply NoDup_app; split; [|split; [|done]]].
    + intros x Hx. specialize (D1 x). specialize (D3 x). lin.
    + done.
    + intros x Hx. apply D3. lin.
  - intros p Hp. rewrite (proj1 Hs1); [apply Hsame; right; by apply Hin|].
    intros [->|Hk]%elem_of_cons; [apply Htn; lin|]. by apply (D1 p).
  - fold C in Hp2, Hs2. erewrite bind_Ok by done.
    rewrite wr64_pte by (done || lia || by apply Hs2).
    exists (set_mem (put_pte t (Z.of_nat n) 0) s2). split; [done|]. exists l2.
    assert (t ∉ C) as HtC by (intros ?; apply Htn; lin).
    split; [|split; [|split]].
    + apply free_put; [done|]. rewrite Hp2, Hp1. intros Hx. apply Htn. lin.
    + rewrite Hp2, Hp1. clear. perm.
    + simpl. eapply same_ram_trans; [|apply same_ram_put|intros x ->%list_elem_of_singleton; lin].
      eapply same_ram_trans; [|exact Hs2|intros x; lin].
      destruct Hs1 as [H1 H2]. split; [|done]. intros x Hx. apply H1. lin.
    + intros j Hj. simpl. rewrite pte_at_put_ne by lia. unfold pte_at at 1. rewrite (proj1 Hs2) by done.
      apply He1. lia.
Qed.

End dir.

(** freewalk() frees every table page under [t], and no other page changes. *)
Lemma freewalk_spec level pre t s l :
  (level <= 2)%nat -> T !! (level, pre) = Some t -> free_ok kend s l -> NoDup (subtab T level pre ++ l) ->
  (forall p, p ∈ subtab T level pre -> km_mem s !! p = m0 !! p) ->
  exists s' l', freewalk kend (S level) t s = Ok tt s' /\ freed (subtab T level pre) s s' l l'.
Proof.
  revert pre t s l. induction level as [|level IH]; intros pre t s l Hl Ht Hf Hnd Hsame;
    rewrite subtab_eq, Ht in Hnd, Hsame |- *.
  - apply (freewalk_leaf pre); [done|done| |apply Hsame; by left]. simpl in Hnd. by apply NoDup_cons in Hnd as [? _].
  - change (seqZ 0 512 ≫= (fun i => subtab T level (pre * 512 + i))) with (kids level pre 512) in *.
    rewrite freewalk_S. destruct (table_page _ _ _ Ht) as (Ha & Hr & Hm).
    destruct (for_range_Ok 512 0 (free_entry (freewalk kend (S level)) t) (walking level pre t s l) s)
      as (s1 & E1 & (l1 & Hf1 & Hp1 & Hs1 & _)).
    + exists l. split; [done|]. split; [done|]. split; [apply same_ram_refl|]. intros j Hj. unfold pte_at.
      by rewrite Hsame by (by left).
    + intros i s' Hi Hw. apply (freewalk_entry level pre t s l Ht Hl Hnd Hsame); [|lia|exact Hw].
      intros pre' c s2 l2 Hc Hf2 Hnd2 Hs2. apply IH; [lia|done..].
    + erewrite bind_Ok by exact E1. change (Z.to_nat (0 + Z.of_nat 512)) with 512%nat in *.
      destruct (free_table t s1 l1) as (s' & E & Hf' & Hs'); try done.
      * apply Hs1. rewrite Hsame by (by left). done.
      * rewrite Hp1. simpl in Hnd. by apply NoDup_cons in Hnd as [? _].
      * exists s', (t :: l1). split; [done|]. split; [done|]. split; [by rewrite Hp1|].
        eapply same_ram_trans; [exact Hs1|exact Hs'|]. intros x ->%list_elem_of_singleton. by left.
Qed.

End free.

(** C23. uvmfree() gives back everything: when a process's space maps only
    its own pages below sz, every table page and every user page is on the
    free list afterwards, and no other memory changed. *)
Theorem uvmfree_returns_all kend s l xs A sz :
  0 < kend -> vm_ok kend s l xs A -> as_own A = user_own -> 0 <= sz <= TRAPFRAME ->
  (forall w, is_Some (as_map A !! w) -> 0 <= w < vpn (PGROUNDUP sz)) ->
  exists s' l', uvmfree kend (as_root A) sz s = Ok tt s' /\
    free_ok kend s' l' /\ l' ≡ₚ tables A ++ upages A ++ l /\
    (forall p, p ∈ xs -> km_mem s' !! p = km_mem s !! p).
Proof.
  intros Hend Hv Hown Hsz Hbelow. destruct (PGROUNDUP_pages sz Hsz) as (H1 & H2 & H3).
  set (n := Z.to_nat (PGROUNDUP sz / PGSIZE)).
  assert (Z.of_nat n = PGROUNDUP sz / PGSIZE) as En by (unfold n; apply Z2Nat.id; apply Z.div_pos; unfold PGSIZE; lia).
  assert (forall w, as_map (unmap 0 n A) !! w = None) as Hnone.
  { intros w. rewrite unmap_lookup. case_decide as Hw; [done|]. destruct (as_map A !! w) eqn:Em; [|done].
    exfalso. apply Hw. specialize (Hbelow w ltac:(by eexists)). unfold vpn in Hbelow. lia. }
  assert (exists s1 l1 A1, (if sz >? 0 then uvmunmap kend (as_root A) 0 (PGROUNDUP sz / PGSIZE) true else ret tt) s = Ok tt s1 /\
    vm_ok kend s1 l1 xs A1 /\ as_map A1 = ∅ /\ as_root A1 = as_root A /\ tables A1 = tables A /\ l1 ≡ₚ upages A ++ l /\
    same_ram (km_mem s) (km_mem s1) (tables A ++ l1)) as (s1 & l1 & A1 & E1 & Hv1 & Hm1 & Hr1 & Ht1 & Hl1 & Hs1).
  { destruct (unmap_same 0 n A) as (Ur & Ut & Uo). destruct (Z.gtb_spec sz 0) as [Hpos|Hz].
    - destruct (uvmunmap_spec Hend n s l xs A 0 true Hv) as (s1 & l1 & E & Hv1 & Hp & _ & Hs); try done.
      + change TRAPFRAME with (2 ^ 38 - 8192) in *. change MAXVA with (2 ^ 38). unfold PGSIZE in *. divlia.
      + intros w Hw _. rewrite Hown. symmetry. apply Z.ltb_lt. unfold UV. change (vpn 0) with 0 in Hw.
        change TRAPFRAME with (2 ^ 38 - 8192) in *. unfold PGSIZE in *. divlia.
      + change (vpn 0) with 0 in *. rewrite En in E. exists s1, l1, (unmap 0 n A). split; [done|]. split; [done|].
        assert (as_map (unmap 0 n A) = ∅) as Em by (apply map_eq; intros w; by rewrite Hnone).
        split; [done|]. split; [done|]. split; [unfold tables; by rewrite Ut|]. split; [|done].
        rewrite <- Hp. unfold upages. by rewrite Em, map_to_list_empty.
    - assert (sz = 0) as -> by lia. assert (as_map A = ∅) as Em.
      { apply map_eq. intros w. rewrite lookup_empty. destruct (as_map A !! w) eqn:E; [|done].
        specialize (Hbelow w ltac:(by eexists)). change (vpn (PGROUNDUP 0)) with 0 in Hbelow. lia. }
      exists s, l, A. do 5 (split; [done|]). unfold upages. rewrite Em, map_to_list_empty. done. }
  unfold uvmfree. erewrite bind_Ok by exact E1. rewrite <- Hr1.
  pose proof (v_as _ _ _ _ _ Hv1) as Hok1. pose proof (subtab_all _ _ _ Hok1) as Hsub.
  destruct (freewalk_spec Hend (km_mem s1) A1 Hok1 Hm1 2 0 (as_root A1) s1 l1) as (s' & l' & E & Hf & Hp & Hs).
  - done.
  - apply Hok1.
  - apply Hv1.
  - rewrite Hsub. by eapply vm_nodup.
  - done.
  - exists s', l'. split; [done|]. split; [done|]. split; [by rewrite Hp, Hsub, Ht1, Hl1|].
    intros p Hp'. pose proof (v_nodup _ _ _ _ _ Hv1) as Hnd. rewrite !NoDup_app in Hnd.
    destruct Hnd as (_ & D1 & _ & D2 & _ & D3 & _). specialize (D1 p). specialize (D3 p Hp').
    rewrite (proj1 Hs), (proj1 Hs1); [done| |].
    + rewrite <- Ht1. lin.
    + rewrite Hsub. lin.
Qed.

Lemma uvmfree_returns_all_witness : exists s l A s' l',
  vm_ok ex_kend s l [] A /\ is_Some (as_map A !! 1) /\
  uvmfree ex_kend (as_root A) 16384 s = Ok tt s' /\ l' ≡ₚ tables A ++ upages A ++ l.
Proof.
  destruct ex_process as (s & l & A & Hp & _ & Hdom).
  destruct (uvmfree_returns_all ex_kend s l [] A 16384) as (s' & l' & E & _ & Hl & _).
  - exact ex_kend_pos.
  - apply Hp.
  - apply Hp.
  - apply Hp.
  - intros w Hw. apply Hdom in Hw. change (vpn (PGROUNDUP 16384)) with 4. lia.
  - exists s, l, A, s', l'. split; [apply Hp|]. split; [apply Hdom; lia|]. done.
Defined.
