(* ===== verification/VmInst.v ===== *)
(** * The kernel's copies implement user memory

   The properties of copyin(), copyout() and copyinstr(), and the instance
   of [UserMem] that pipes, the console and files are proved against. *)

From stdpp Require Import base numbers list gmap sets strings.
From Stdlib Require Import ZArith Lia.
From S2P Require Import Prelude Params UserMem Kalloc Vm VmSpace VmMap VmUser VmMem.

(** C24. A byte range copied out to a process is what a copy in of the same
    range reads back.  copyout() always returns.  It succeeds when the process
    may write every byte of the range (its page is mapped for writing, or not
    mapped and below the process's size, so that it is faulted in), provided
    there are three free pages for each page of the range or none has to be
    faulted in; and it succeeds only when the process may write every byte.
    Then copyin() of the range succeeds as well and gives the same bytes.  At
    no other address does the process see a change. *)
Theorem copyout_copyin_roundtrip kend s l xs A sz va bs :
  0 < kend -> proc_ok kend s l xs A sz -> 0 <= va < 2 ^ 64 -> Forall byte bs ->
  exists r s', Vm.copyout kend sz (as_root A) (as_root A) va bs s = Ok r s' /\
    (exists l' A', proc_ok kend s' l' xs A' sz /\
      forall b, b < va \/ va + Z.of_nat (length bs) <= b -> ub (km_mem s') A' b = ub (km_mem s) A b) /\
    (may_write A sz va (length bs) ->
      3 * pages_of va (Z.of_nat (length bs)) <= Z.of_nat (length l) \/ all_writable A va (length bs) -> r = true) /\
    (r = true -> may_write A sz va (length bs) /\ exists s'',
      Vm.copyin kend sz (as_root A) (as_root A) va (length bs) s' = Ok (true, bs) s'').
Proof.
  intros Hend Hp Hva Hbs.
  destruct (copyout_loop_spec Hend (length bs) va bs s l xs A sz Hp Hva Hbs ltac:(lia))
    as (r & s' & E & l' & A' & Hp' & Hev & Hout & Hin & Hsound & Hsucc).
  exists r, s'. split; [done|]. split; [by exists l', A'|]. split; [done|]. intros Ht. split; [by apply Hsound|].
  destruct (copyin_loop_spec Hend (length bs) (length bs) va s' l' xs A' sz Hp' Hva ltac:(lia))
    as ([b bs'] & s'' & E' & l2 & A2 & _ & _ & _ & _ & Hlen & Hbytes & Hok).
  rewrite (ev_root _ _ _ _ _ _ Hev) in E'. simpl in *. rewrite Hok in E', Hlen.
  - exists s''. unfold Vm.copyin. rewrite E'. do 2 f_equal. specialize (Hlen eq_refl).
    apply list_eq. intros i. destruct (bs !! i) as [x|] eqn:Ex.
    + destruct (lookup_lt_is_Some_2 bs' i) as [y Hy]; [rewrite Hlen; by eapply lookup_lt_Some|].
      rewrite Hy, (Hbytes i y Hy). f_equal. by apply (Hin Ht).
    + apply lookup_ge_None in Ex. apply lookup_ge_None. lia.
  - intros i Hi. destruct (lookup_lt_is_Some_2 bs i Hi) as [x Hx]. by apply (Hin Ht i x).
  - intros i Hi. destruct (lookup_lt_is_Some_2 bs i Hi) as [x Hx]. by apply (Hin Ht i x).
Qed.

(** copyin() gives the kernel the bytes the process would read itself:
    with pages that were never touched read as zeros and mapped on the way,
    which the process cannot see.  When it fails, it has stored a prefix of
    those bytes. *)
Theorem copyin_reads_process_view kend s l xs A sz va n :
  0 < kend -> proc_ok kend s l xs A sz -> 0 <= va < 2 ^ 64 ->
  exists r bs s' l' A', Vm.copyin kend sz (as_root A) (as_root A) va n s = Ok (r, bs) s' /\
    proc_ok kend s' l' xs A' sz /\ (forall b, ub (km_mem s') A' b = ub (km_mem s) A b) /\
    (length bs <= n)%nat /\ (r = true -> length bs = n) /\
    (forall i x, bs !! i = Some x -> x = ub (km_mem s) A (va + Z.of_nat i)).
Proof.
  intros Hend Hp Hva.
  destruct (copyin_loop_spec Hend n n va s l xs A sz Hp Hva ltac:(lia))
    as ([r bs] & s' & E & l' & A' & Hp' & _ & Hsv & Hle & Hlen & Hbytes & _).
  exists r, bs, s', l', A'. auto 10.
Qed.

(** C25. copyinstr() finds the NUL-terminated string at an address exactly
    when it and its NUL are in the first max bytes and in pages that are
    mapped for the process; it returns the string with its NUL, and changes
    nothing.  A page that sbrk() promised but the process has not touched is
    not such a page: unlike copyin(), copyinstr() does not fault it in. *)
Theorem copyinstr_finds_string kend s l xs A sz va max :
  0 < kend -> proc_ok kend s l xs A sz -> 0 <= va < 2 ^ 64 ->
  exists r, copyinstr (as_root A) va max s = Ok r s /\
    if fst r then exists str, snd r = str ++ [0] /\ ustring s A va max str
    else forall str, ~ ustring s A va max str.
Proof. intros Hend Hp Hva. by eapply copyinstr_loop_spec. Qed.

(* ------------------------------------------------------------------ *)
(** ** The instance *)

(** The byte at a user address, found with the page table in memory. *)
Definition pte_of (s : kmem) (root va : Z) : Z :=
  match (let* pte := walk root va false in if pte =? 0 then ret 0 else rd64 pte) s with
  | Ok v _ => v
  | _ => 0
  end.
Definition user_byte (s : kmem) (root va : Z) : Z :=
  if (0 <=? va) && (va <? MAXVA) && has PTE_V (pte_of s root va) && has PTE_U (pte_of s root va)
  then byte_at (km_mem s) (PTE2PA (pte_of s root va)) (va mod PGSIZE) else 0.

(** An address the page table has mapped for the process, to read or to
    write. *)
Definition user_maps (s : kmem) (root va perm : Z) : Prop :=
  0 <= va < MAXVA /\ has PTE_V (pte_of s root va) = true /\ has PTE_U (pte_of s root va) = true /\
  has perm (pte_of s root va) = true.

(** Running a computation that keeps an invariant, on states that have it. *)
Definition run_sig {S A} (P : S -> Prop) (m : M S A) (u : sig P)
    (H : forall a s', m (`u) = Ok a s' -> P s') (d : A) : A * sig P :=
  match m (`u) as o return m (`u) = o -> A * sig P with
  | Ok a s' => fun E => (a, s' ↾ H a s' E)
  | _ => fun _ => (d, u)
  end eq_refl.

Lemma run_sig_Ok {S A} (P : S -> Prop) (m : M S A) u H d a s' :
  m (`u) = Ok a s' -> exists Hs, run_sig P m u H d = (a, s' ↾ Hs).
Proof.
  intros E. unfold run_sig.
  assert (forall o (e : m (`u) = o), o = Ok a s' -> exists Hs,
    match o as o' return m (`u) = o' -> A * sig P with
    | Ok a s' => fun E => (a, s' ↾ H a s' E)
    | _ => fun _ => (d, u)
    end e = (a, s' ↾ Hs)) as Hgen; [|by apply Hgen].
  intros o e ->. by eexists.
Qed.

Section inst.
Context (kend : Z) (Hend : 0 < kend) (xs : list Z) (sz root : Z).

Lemma pte_of_eq s A va : as_ok kend (km_mem s) A -> 0 <= va < MAXVA ->
  pte_of s (as_root A) va = default 0 (as_map A !! vpn va).
Proof.
  intros Hok Hva. unfold pte_of. erewrite bind_Ok by by apply (walk_find Hend).
  pose proof (leaf_addr_spec Hend s A va Hok Hva) as Hleaf. destruct (as_tab A !! key 0 va).
  - destruct Hleaf as (_ & Hne & _ & Hrd). rewrite (proj2 (Z.eqb_neq _ 0)) by done. by rewrite Hrd.
  - destruct Hleaf as [-> ->]. done.
Qed.

Lemma user_byte_ub s l A va : proc_ok kend s l xs A sz -> user_byte s (as_root A) va = ub (km_mem s) A va.
Proof.
  intros Hp. unfold user_byte, ub. pose proof (v_as _ _ _ _ _ (p_vm _ _ _ _ _ _ Hp)) as Hok.
  destruct (decide (0 <= va < MAXVA)) as [Hva|Hva].
  - rewrite (proj2 (Z.leb_le _ _)), (proj2 (Z.ltb_lt _ _)), (pte_of_eq s A va Hok Hva) by lia. simpl.
    destruct (as_map A !! vpn va) as [pte|] eqn:Em; [|done]. cbn [default]. unfold from_option, id.
    destruct (ok_map _ _ _ Hok _ _ Em) as (-> & _). done.
  - assert ((0 <=? va) && (va <? MAXVA) = false) as -> by lia. simpl.
    destruct (as_map A !! vpn va) as [pte|] eqn:Em; [|done]. destruct (has PTE_U pte) eqn:Hu; [|done].
    apply (p_user _ _ _ _ _ _ Hp) in Em; [|done]. apply UV_bound in Em. unfold vpn in Em.
    change TRAPFRAME with (2 ^ 38 - 8192) in *. change MAXVA with (2 ^ 38) in *. unfold PGSIZE in *. divlia.
Qed.

Lemma user_maps_pte s l A va perm : proc_ok kend s l xs A sz ->
  user_maps s (as_root A) va perm <-> exists pte, user_pte A (vpn va) = Some pte /\ has perm pte = true.
Proof.
  intros Hp. pose proof (v_as _ _ _ _ _ (p_vm _ _ _ _ _ _ Hp)) as Hok. unfold user_maps. split.
  - intros (Hva & Hv & Hu & Hw). rewrite (pte_of_eq s A va Hok Hva) in *. unfold user_pte.
    destruct (as_map A !! vpn va) as [pte|]; [|done]. simpl in *. exists pte. by rewrite Hu.
  - intros (pte & Hu & Hw). destruct (user_pte_phys Hend _ _ _ _ _ _ _ Hp Hu) as (Em & Hpu & Hv & _).
    assert (0 <= va < MAXVA) as Hva.
    { apply UV_bound in Hv. unfold vpn in Hv. change TRAPFRAME with (2 ^ 38 - 8192) in *. change MAXVA with (2 ^ 38).
      unfold PGSIZE in *. divlia. }
    rewrite (pte_of_eq s A va Hok Hva), Em. destruct (ok_map _ _ _ Hok _ _ Em) as (Hval & _). done.
Qed.

(** A process's memory: a machine state in which its page table is sound. *)
Definition good (s : kmem) : Prop := exists l A, proc_ok kend s l xs A sz /\ as_root A = root.
Definition umem : Type := { s : kmem | good s }.

Lemma user_maps_keep s l A s' l' A' b p : proc_ok kend s l xs A sz -> proc_ok kend s' l' xs A' sz ->
  evolves s l A s' l' A' -> user_maps s (as_root A) b p -> user_maps s' (as_root A) b p.
Proof.
  intros Hp Hp' Hev. rewrite <- (ev_root _ _ _ _ _ _ Hev) at 2. rewrite (user_maps_pte s l A b p Hp).
  rewrite (user_maps_pte s' l' A' b p Hp'). intros (pte & Hu & Hw). exists pte. split; [|done]. unfold user_pte in *.
  destruct (as_map A !! vpn b) as [q|] eqn:Eq; [|done]. by rewrite (ev_keep _ _ _ _ _ _ Hev _ _ Eq).
Qed.

Lemma copyin_good s va n : good s -> 0 <= va < 2 ^ 64 ->
  exists r s', Vm.copyin kend sz root root va n s = Ok r s' /\ good s' /\
    (forall b, user_byte s' root b = user_byte s root b) /\
    (fst r = true -> length (snd r) = n /\ forall i, (i < n)%nat -> snd r !! i = Some (user_byte s root (va + Z.of_nat i))) /\
    (forall i x, snd r !! i = Some x -> (i < n)%nat /\ x = user_byte s root (va + Z.of_nat i)) /\
    ((forall i, (i < n)%nat -> user_maps s root (va + Z.of_nat i) PTE_V) -> fst r = true) /\
    (forall b p, user_maps s root b p -> user_maps s' root b p).
Proof.
  intros (l & A & Hp & Hroot) Hva. rewrite <- Hroot.
  destruct (copyin_loop_spec Hend n n va s l xs A sz Hp Hva ltac:(lia))
    as (r & s' & E & l' & A' & Hp' & Hev & Hsv & Hle & Hlen & Hbytes & Hok).
  exists r, s'. split; [done|]. split; [exists l', A'; split; [done|by rewrite (ev_root _ _ _ _ _ _ Hev)]|]. split.
  - intros b. rewrite <- (ev_root _ _ _ _ _ _ Hev) at 1. rewrite (user_byte_ub s' l' A' b Hp'), (user_byte_ub s l A b Hp). apply Hsv.
  - split; [intros Ht; specialize (Hlen Ht); split; [done|]; intros i Hi|].
    destruct (lookup_lt_is_Some_2 (snd r) i) as [x Hx]; [lia|]. rewrite Hx, (Hbytes i x Hx).
    1: by rewrite (user_byte_ub s l A _ Hp).
    split; [|split; [|intros b p; by eapply user_maps_keep]].
    + intros i x Hx. split; [apply lookup_lt_Some in Hx; lia|]. rewrite (Hbytes i x Hx).
      by rewrite (user_byte_ub s l A _ Hp).
    + intros Hm. apply Hok. intros i Hi. apply Hm in Hi. apply (user_maps_pte s l A) in Hi as (pte & -> & _); [by eexists|done].
Qed.

Lemma copyout_good s va bs : good s -> 0 <= va < 2 ^ 64 ->
  exists r s', Vm.copyout kend sz root root va (map u8 bs) s = Ok r s' /\ good s' /\
    (forall b, b < va \/ va + Z.of_nat (length bs) <= b -> user_byte s' root b = user_byte s root b) /\
    (r = true -> forall i x, bs !! i = Some x -> user_byte s' root (va + Z.of_nat i) = u8 x) /\
    ((forall i, (i < length bs)%nat -> user_maps s root (va + Z.of_nat i) PTE_W) -> r = true) /\
    (forall b p, user_maps s root b p -> user_maps s' root b p).
Proof.
  intros (l & A & Hp & Hroot) Hva. rewrite <- Hroot.
  assert (Forall byte (map u8 bs)) as Hb by (apply Forall_fmap, Forall_true; intros; apply u8_range).
  destruct (copyout_loop_spec Hend (length (map u8 bs)) va (map u8 bs) s l xs A sz Hp Hva Hb ltac:(lia))
    as (r & s' & E & l' & A' & Hp' & Hev & Hout & Hin & _ & Hok).
  rewrite length_map in Hout, Hok.
  exists r, s'. split; [done|]. split; [exists l', A'; split; [done|by rewrite (ev_root _ _ _ _ _ _ Hev)]|]. split.
  - intros b Hb'. rewrite <- (ev_root _ _ _ _ _ _ Hev) at 1. rewrite (user_byte_ub s' l' A' b Hp'), (user_byte_ub s l A b Hp). by apply Hout.
  - split; [|split; [|intros b p; by eapply user_maps_keep]].
    + intros Ht i x Hx. rewrite <- (ev_root _ _ _ _ _ _ Hev). rewrite (user_byte_ub s' l' A' _ Hp').
      apply (Hin Ht). by rewrite list_lookup_fmap, Hx.
    + intros Hm. assert (all_writable A va (length bs)) as Hw.
      { intros i Hi. by apply (user_maps_pte s l A _ _ Hp), Hm. }
      apply Hok; [intros i Hi; left; by apply Hw|by right].
Qed.

Lemma copyinstr_good s va max : good s -> 0 <= va < 2 ^ 64 -> forall bs,
  match copyinstr root va max s with Ok (true, bs) _ => Some bs | _ => None end = Some bs ->
  exists str, bs = str ++ [0] /\ 0 ∉ str /\ (length bs <= max)%nat /\
    forall i x, bs !! i = Some x -> x = user_byte s root (va + Z.of_nat i).
Proof.
  intros (l & A & Hp & Hroot) Hva bs. rewrite <- Hroot. unfold copyinstr.
  destruct (copyinstr_loop_spec Hend max max va s l xs A sz Hp Hva ltac:(lia)) as ([[] r] & -> & Hr); [|done].
  intros [= ->]. destruct Hr as (str & E & Hl & Hn & Hv). simpl in E. subst bs. exists str. split; [done|].
  split; [done|]. split; [rewrite length_app; simpl; lia|]. intros i x Hx. apply Hv in Hx as [<- _].
  by rewrite (user_byte_ub s l A _ Hp).
Qed.

Lemma user_byte_byte s va : good s -> byte (user_byte s root va).
Proof.
  intros (l & A & Hp & Hroot). rewrite <- Hroot, (user_byte_ub s l A va Hp). unfold ub, byte_at.
  repeat case_match; try done. destruct (km_mem s !! PTE2PA z) as [pg|] eqn:Ep; [|done].
  apply (fr_ram _ _ _ (v_free _ _ _ _ _ (p_vm _ _ _ _ _ _ Hp))) in Ep as (_ & _ & _ & Hb). simpl.
  destruct (pg !! Z.to_nat (va mod PGSIZE)) as [x|] eqn:Ex; [|done]. by eapply Forall_lookup_1 in Hb.
Qed.

Lemma copyin_keeps (u : umem) a n : 0 <= a < 2 ^ 64 ->
  forall r s', Vm.copyin kend sz root root a n (`u) = Ok r s' -> good s'.
Proof.
  intros Ha r s' E. destruct (copyin_good (`u) a n (proj2_sig u) Ha) as (r' & s'' & E' & Hg & _). congruence.
Qed.
Lemma copyout_keeps (u : umem) a bs : 0 <= a < 2 ^ 64 ->
  forall r s', Vm.copyout kend sz root root a (map u8 bs) (`u) = Ok r s' -> good s'.
Proof.
  intros Ha r s' E. destruct (copyout_good (`u) a bs (proj2_sig u) Ha) as (r' & s'' & E' & Hg & _). congruence.
Qed.

(** An address is a uint64; a call with anything else does not occur and is
    answered with a fault, as a copy of some bytes from there would be. *)
Definition um_copyin (u : umem) (a : Z) (n : nat) : option (list Z) * umem :=
  match decide (0 <= a < 2 ^ 64) with
  | left Ha =>
      let r := run_sig good (Vm.copyin kend sz root root a n) u (copyin_keeps u a n Ha) (false, []) in
      (if fst (fst r) then Some (snd (fst r)) else None, snd r)
  | right _ => (match n with O => Some [] | _ => None end, u)
  end.
Definition um_left (u : umem) (a : Z) (n : nat) : list Z :=
  match decide (0 <= a < 2 ^ 64), Vm.copyin kend sz root root a n (`u) with
  | left _, Ok r _ => snd r
  | _, _ => []
  end.
Definition um_copyout (u : umem) (a : Z) (bs : list Z) : bool * umem :=
  match decide (0 <= a < 2 ^ 64) with
  | left Ha => run_sig good (Vm.copyout kend sz root root a (map u8 bs)) u (copyout_keeps u a bs Ha) false
  | right _ => (match bs with [] => true | _ => false end, u)
  end.
Definition um_copystr (u : umem) (a : Z) (max : nat) : option (list Z) :=
  match decide (0 <= a < 2 ^ 64), copyinstr root a max (`u) with
  | left _, Ok (true, bs) _ => Some bs
  | _, _ => None
  end.
Definition um_view (u : umem) (a : Z) : Z := user_byte (`u) root a.

#[export] Program Instance vm_user_mem : UserMem umem := {|
  UserMem.copyin := um_copyin; copyin_left := um_left; UserMem.copyout := um_copyout;
  copystr := um_copystr; uview := um_view; uread u a := user_maps (`u) root a PTE_V;
  uwrite u a := user_maps (`u) root a PTE_W
|}.
Next Obligation.
  intros u a n b. unfold um_copyin. case_decide as Ha; [|done].
  destruct (copyin_good (`u) a n (proj2_sig u) Ha) as (r & s' & E & _ & Hv & _).
  destruct (run_sig_Ok good _ u (copyin_keeps u a n Ha) (false, []) r s' E) as [Hs ->]. apply Hv.
Qed.
Next Obligation.
  intros u a n bs. unfold um_copyin. case_decide as Ha; [|destruct n; [|done]; intros [= <-]; split; [done|lia]].
  destruct (copyin_good (`u) a n (proj2_sig u) Ha) as (r & s' & E & _ & _ & Hb & _).
  destruct (run_sig_Ok good _ u (copyin_keeps u a n Ha) (false, []) r s' E) as [Hs ->]. simpl.
  destruct (fst r); [|done]. intros [= <-]. by apply Hb.
Qed.
Next Obligation.
  intros u a n i x. unfold um_left. case_decide as Ha; [|by rewrite lookup_nil].
  destruct (copyin_good (`u) a n (proj2_sig u) Ha) as (r & s' & -> & _ & _ & _ & Hb & _). apply Hb.
Qed.
Next Obligation.
  intros u a bs b Hb. unfold um_copyout. case_decide as Ha; [|done].
  destruct (copyout_good (`u) a bs (proj2_sig u) Ha) as (r & s' & E & _ & Hv & _).
  destruct (run_sig_Ok good _ u (copyout_keeps u a bs Ha) false r s' E) as [Hs ->]. by apply Hv.
Qed.
Next Obligation.
  intros u a bs i x. unfold um_copyout. case_decide as Ha; [|by destruct bs].
  destruct (copyout_good (`u) a bs (proj2_sig u) Ha) as (r & s' & E & _ & _ & Hv & _).
  destruct (run_sig_Ok good _ u (copyout_keeps u a bs Ha) false r s' E) as [Hs ->]. simpl. intros Ht. by apply Hv.
Qed.
Next Obligation.
  intros u a max bs. unfold um_copystr. case_decide as Ha; [|done]. apply copyinstr_good, Ha. apply (proj2_sig u).
Qed.
Next Obligation. intros u a. apply user_byte_byte, (proj2_sig u). Qed.
Next Obligation.
  intros u a n Hm. unfold um_copyin. case_decide as Ha.
  - destruct (copyin_good (`u) a n (proj2_sig u) Ha) as (r & s' & E & _ & _ & _ & _ & Hok & _).
    destruct (run_sig_Ok good _ u (copyin_keeps u a n Ha) (false, []) r s' E) as [Hs ->]. simpl.
    rewrite Hok by done. by eexists.
  - destruct n; [by eexists|]. destruct (Hm 0%nat ltac:(lia)) as [Hva _]. change MAXVA with (2 ^ 38) in Hva. lia.
Qed.
Next Obligation.
  intros u a bs Hm. unfold um_copyout. case_decide as Ha.
  - destruct (copyout_good (`u) a bs (proj2_sig u) Ha) as (r & s' & E & _ & _ & _ & Hok & _).
    destruct (run_sig_Ok good _ u (copyout_keeps u a bs Ha) false r s' E) as [Hs ->]. by apply Hok.
  - destruct bs; [done|]. destruct (Hm 0%nat ltac:(simpl; lia)) as [Hva _]. change MAXVA with (2 ^ 38) in Hva. lia.
Qed.
Next Obligation.
  intros u a n b. unfold um_copyin. case_decide as Ha; [|done].
  destruct (copyin_good (`u) a n (proj2_sig u) Ha) as (r & s' & E & _ & _ & _ & _ & _ & Hk).
  destruct (run_sig_Ok good _ u (copyin_keeps u a n Ha) (false, []) r s' E) as [Hs ->]. split; apply Hk.
Qed.
Next Obligation.
  intros u a bs b. unfold um_copyout. case_decide as Ha; [|done].
  destruct (copyout_good (`u) a bs (proj2_sig u) Ha) as (r & s' & E & _ & _ & _ & _ & Hk).
  destruct (run_sig_Ok good _ u (copyout_keeps u a bs Ha) false r s' E) as [Hs ->]. split; apply Hk.
Qed.

End inst.

Lemma copyout_copyin_roundtrip_witness : exists s l A s' s'',
  proc_ok ex_kend s l [] A 16384 /\ as_map A !! 2 = None /\ as_map A !! 3 = None /\
  Vm.copyout ex_kend 16384 (as_root A) (as_root A) 12286 [104; 105; 33; 0] s = Ok true s' /\
  Vm.copyin ex_kend 16384 (as_root A) (as_root A) 12286 4 s' = Ok (true, [104; 105; 33; 0]) s''.
Proof.
  destruct ex_process as (s & l & A & Hp & Hl & Hdom).
  assert (forall w, 2 <= w -> as_map A !! w = None) as Hn.
  { intros w Hw. destruct (as_map A !! w) as [pte|] eqn:E; [|done].
    assert (0 <= w < 2) by (apply Hdom; by eexists). lia. }
  destruct (copyout_copyin_roundtrip ex_kend s l [] A 16384 12286 [104; 105; 33; 0]) as (r & s' & E & _ & Hok & H).
  - exact ex_kend_pos.
  - exact Hp.
  - lia.
  - bytes.
  - assert (r = true) as ->.
    { apply Hok.
      - intros i Hi. right. simpl in Hi. assert (2 <= vpn (12286 + Z.of_nat i) <= 3) by (unfold vpn, PGSIZE; divlia).
        split; [apply Hn; lia|]. unfold PGSIZE. lia.
      - left. change (pages_of 12286 (Z.of_nat (length [104; 105; 33; 0]))) with 2. lia. }
    destruct (H eq_refl) as [_ [s'' E']]. exists s, l, A, s', s''. split; [done|]. split; [apply Hn; lia|]. split; [apply Hn; lia|]. done.
Defined.

Lemma copyin_reads_process_view_witness : exists s l A r bs s',
  proc_ok ex_kend s l [] A 16384 /\
  Vm.copyin ex_kend 16384 (as_root A) (as_root A) 12000 20 s = Ok (r, bs) s' /\ (length bs <= 20)%nat.
Proof.
  destruct ex_process as (s & l & A & Hp & _).
  destruct (copyin_reads_process_view ex_kend s l [] A 16384 12000 20) as (r & bs & s' & l' & A' & E & _ & _ & Hl & _).
  - exact ex_kend_pos.
  - exact Hp.
  - lia.
  - by exists s, l, A, r, bs, s'.
Defined.

Lemma copyinstr_finds_string_witness : exists s l A r,
  proc_ok ex_kend s l [] A 16384 /\ copyinstr (as_root A) 8190 10 s = Ok r s.
Proof.
  destruct ex_process as (s & l & A & Hp & _).
  destruct (copyinstr_finds_string ex_kend s l [] A 16384 8190 10) as (r & E & _).
  - exact ex_kend_pos.
  - exact Hp.
  - lia.
  - by exists s, l, A, r.
Defined.
