(* ===== verification/VmKernel.v ===== *)
(** * The kernel page table

   kvmmake(), kvmmap() and proc_mapstacks(): the direct map, the trampoline
   and the kernel stacks. *)

From stdpp Require Import base numbers list gmap sets strings.
From Stdlib Require Import ZArith Lia.
From S2P Require Import Prelude Params Kalloc Vm VmSpace VmMap VmUser.

Lemma map_range_lookup n v pa perm f w :
  map_range v pa perm n f !! w =
  if decide (v <= w < v + Z.of_nat n) then Some (mkpte (pa + (w - v) * PGSIZE) perm) else f !! w.
Proof.
  revert v pa f. induction n as [|n IH]; intros v pa f; simpl map_range.
  - by rewrite decide_False by lia.
  - rewrite IH. destruct (decide (w = v)) as [->|Hne].
    + rewrite decide_False, decide_True, lookup_insert_eq by lia. do 2 f_equal. lia.
    + rewrite lookup_insert_ne by done. destruct (decide (v + 1 <= w < _)).
      * rewrite decide_True by lia. do 2 f_equal. unfold PGSIZE. lia.
      * by rewrite decide_False by lia.
Qed.

(** The tables the kernel's map needs: for the devices, for RAM and for the
    top of the address space. *)
Definition kprefixes : list Z := seqZ 96 33 ++ seqZ 1024 64 ++ [131071].
Definition ktables : list (nat * Z) :=
  (2%nat, 0) :: map (pair 1%nat) [0; 2; 255] ++ map (pair 0%nat) kprefixes.

Lemma ktables_length : length ktables = 102%nat.
Proof. done. Qed.

(** Pages served by those tables. *)
Definition kvpn (w : Z) : Prop :=
  96 <= w / 512 < 129 \/ 1024 <= w / 512 < 1088 \/ w / 512 = 131071.

Lemma kvpn_tables w : kvpn w -> (0%nat, w / 512) ∈ ktables /\ (1%nat, w / 512 / 512) ∈ ktables.
Proof.
  intros Hw. unfold ktables. split; right; apply elem_of_app; [right|left].
  - apply list_elem_of_fmap. exists (w / 512). split; [done|]. unfold kprefixes.
    rewrite !elem_of_app, !elem_of_seqZ, list_elem_of_singleton. unfold kvpn in Hw. lia.
  - apply list_elem_of_fmap. exists (w / 512 / 512). split; [done|].
    assert (w / 512 / 512 = 0 \/ w / 512 / 512 = 2 \/ w / 512 / 512 = 255) as H by (unfold kvpn in Hw; divlia).
    rewrite !elem_of_cons. tauto.
Qed.

Section kernel.
Context {kend : Z} (Hend : 0 < kend).

(** Kernel spaces own no mapped pages; there is memory for every table and
    [room] more pages. *)
Record kv (room : nat) (s : kmem) (l xs : list Z) (A : aspace) : Prop := {
  kv_vm : vm_ok kend s l xs A;
  kv_own v : as_own A v = false;
  kv_tab k : is_Some (as_tab A !! k) -> k ∈ ktables;
  kv_room : (102 + room < size (as_tab A) + length l)%nat
}.

Lemma length_tables A : length (tables A) = size (as_tab A).
Proof. unfold tables. by rewrite length_fmap, length_map_to_list. Qed.

Lemma kv_size room s l xs A : kv room s l xs A -> (size (as_tab A) <= 102)%nat.
Proof.
  intros Hk. rewrite <- ktables_length, <- size_dom.
  transitivity (size (list_to_set ktables : gset (nat * Z))).
  - apply subseteq_size. intros k Hd%elem_of_dom. apply elem_of_list_to_set. by apply (kv_tab _ _ _ _ _ Hk).
  - clear. induction ktables as [|k ks IH]; [done|]. cbn [list_to_set length].
    rewrite size_union_alt, size_singleton.
    assert (size (list_to_set ks ∖ {[k]} : gset (nat * Z)) <= size (list_to_set ks : gset (nat * Z)))%nat by (apply subseteq_size; set_solver).
    lia.
Qed.

Lemma oparts_none own v pa n : (forall w, own w = false) -> oparts own v pa n = [].
Proof. intros Ho. revert v pa. induction n as [|n IH]; intros v pa; simpl; [done|]. by rewrite Ho, IH. Qed.

(** kvmmap() of a range the kernel's tables serve never runs out of memory. *)
Lemma kvmmap_spec n room s l xs A va pa perm :
  kv room s l xs A -> aligned va -> 0 <= va -> va + Z.of_nat n * PGSIZE < MAXVA ->
  phys pa -> pa + Z.of_nat n * PGSIZE < 2 ^ 56 -> 0 <= perm < 2 ^ 10 ->
  (forall w, vpn va <= w <= vpn va + Z.of_nat n -> as_map A !! w = None /\ kvpn w) ->
  exists s' l' A', kvmmap (as_root A) va pa (Z.of_nat (S n) * PGSIZE) perm s = Ok tt s' /\ kv room s' l' xs A' /\
    as_root A' = as_root A /\ as_map A' = map_range (vpn va) pa perm (S n) (as_map A).
Proof.
  intros Hk Hal Ha Hmax Hpa Hpm Hperm Hw. pose proof (kv_own _ _ _ _ _ Hk) as Hown.
  destruct (mappages_spec Hend n s l xs A va pa perm) as (r & k & s' & l' & A' & E & Hr & Hv' & _ & Hnew & Hmp & _); try done.
  { rewrite oparts_none by done. apply Hk. }
  { intros i Hi. apply Hw. lia. }
  rewrite oparts_none in Hv' by done. destruct Hmp as [Mr Mo Mm Mt Mp].
  assert (kv room s' l' xs A') as Hk'.
  { split; [done|by intros v; rewrite Mo| |].
    - intros key Hkey. apply Hnew in Hkey as [Hkey|(w & Hww & Hkey)]; [by apply (kv_tab _ _ _ _ _ Hk)|].
      destruct (Hw w ltac:(lia)) as [_ Hkv]. apply kvpn_tables in Hkv as [? ?]. by destruct Hkey as [-> | ->].
    - apply Permutation_length in Mp. rewrite !length_app, !length_tables in Mp.
      pose proof (kv_room _ _ _ _ _ Hk). lia. }
  destruct Hr as [[-> ->]|(-> & _ & -> & _)].
  - exists s', l', A'. unfold kvmmap. by erewrite bind_Ok by done.
  - pose proof (kv_room _ _ _ _ _ Hk') as Hroom. pose proof (kv_size _ _ _ _ _ Hk'). simpl in Hroom. lia.
Qed.


Lemma kv_kalloc room s l xs A : kv (S room) s l xs A ->
  exists p s' l', kalloc s = Ok p s' /\ p <> 0 /\ phys p /\ p < PHYSTOP /\ kv room s' l' (p :: xs) A.
Proof.
  intros Hk. pose proof (kv_size _ _ _ _ _ Hk). pose proof (kv_room _ _ _ _ _ Hk).
  pose proof (vm_kalloc Hend s l xs A (kv_vm _ _ _ _ _ Hk)) as Hv. destruct l as [|p l]; [simpl in *; lia|].
  destruct Hv as (s' & E & Hv & Hne & _). exists p, s', l. destruct (vm_disjoint _ _ _ _ _ Hv) as (_ & _ & _ & _ & Hrp).
  split; [done|]. split; [done|]. split; [by eapply ram_phys|]. split; [apply Hrp|].
  split; [done|apply Hk|apply Hk|simpl in *; lia].
Qed.

(** Which kernel stack is at a page, with [stk] the pages of the stacks. *)
Definition stack_at (stk : list Z) (w : Z) : option Z :=
  let d := vpn TRAMPOLINE - w in
  if decide (0 < d /\ d mod 2 = 0) then stk !! Z.to_nat (d / 2 - 1) else None.

Definition with_stacks (stk : list Z) (f : Z -> option Z) (w : Z) : option Z :=
  match stack_at stk w with Some pa => Some (mkpte pa (Z.lor PTE_R PTE_W)) | None => f w end.

Lemma vpn_KSTACK p : 0 <= p < 64 -> vpn (KSTACK p) = vpn TRAMPOLINE - 2 * (p + 1) /\ aligned (KSTACK p) /\
  0 <= KSTACK p /\ KSTACK p + PGSIZE < MAXVA.
Proof.
  intros Hp. unfold KSTACK. change TRAMPOLINE with (2 ^ 38 - 4096). change MAXVA with (2 ^ 38).
  unfold vpn, aligned, PGSIZE. split; [divlia|]. split; [divlia|]. lia.
Qed.

Lemma stack_at_snoc stk pa w : (length stk < 64)%nat ->
  stack_at (stk ++ [pa]) w =
  if decide (w = vpn (KSTACK (Z.of_nat (length stk)))) then Some pa else stack_at stk w.
Proof.
  intros Hl. destruct (vpn_KSTACK (Z.of_nat (length stk))) as [E _]; [lia|]. rewrite E. unfold stack_at.
  set (T := vpn TRAMPOLINE). destruct (decide (w = T - 2 * (Z.of_nat (length stk) + 1))) as [->|Hne].
  - rewrite decide_True by (split; [lia|divlia]).
    replace (Z.to_nat ((T - (T - 2 * (Z.of_nat (length stk) + 1))) / 2 - 1)) with (length stk) by divlia.
    by rewrite lookup_app_r, Nat.sub_diag by lia.
  - case_decide as Hd; [|done]. set (i := Z.to_nat ((T - w) / 2 - 1)).
    assert (i <> length stk) as Hi by (unfold i; intros Hi; apply Hne; divlia).
    destruct (decide (i < length stk)%nat); [by rewrite lookup_app_l|].
    rewrite !lookup_ge_None_2; [done|lia|rewrite length_app; simpl; lia].
Qed.

Definition stacks_mapped (room : nat) (xs : list Z) (A0 : aspace) (i : Z) (s : kmem) : Prop :=
  exists stk l A, length stk = Z.to_nat i /\ kv room s l (reverse stk ++ xs) A /\ as_root A = as_root A0 /\
    (forall w, as_map A !! w = with_stacks stk (fun w => as_map A0 !! w) w).

Lemma stack_kvpn p : 0 <= p < 64 -> kvpn (vpn (KSTACK p)).
Proof.
  intros Hp. destruct (vpn_KSTACK p Hp) as [-> _]. right; right. change (vpn TRAMPOLINE) with (2 ^ 26 - 1). divlia.
Qed.

Lemma proc_mapstacks_spec s l xs A :
  kv 64 s l xs A -> (forall p, 0 <= p < 64 -> as_map A !! vpn (KSTACK p) = None) ->
  exists s' stk l' A', proc_mapstacks (as_root A) s = Ok tt s' /\ length stk = 64%nat /\
    kv 0 s' l' (reverse stk ++ xs) A' /\ as_root A' = as_root A /\
    (forall w, as_map A' !! w = with_stacks stk (fun w => as_map A !! w) w).
Proof.
  intros Hk Hfree. unfold proc_mapstacks.
  destruct (for_range_Ok (Z.to_nat NPROC) 0 (fun p =>
    let* pa := kalloc in
    if pa =? 0 then panic "kalloc" else kvmmap (as_root A) (KSTACK p) pa PGSIZE (Z.lor PTE_R PTE_W))
    (fun i s => stacks_mapped (Z.to_nat (64 - i)) xs A i s) s) as (s' & E & stk & l' & A' & Hl & Hk' & Hr & Hm).
  - exists [], l, A. split; [done|]. split; [done|]. split; [done|]. intros w. unfold with_stacks, stack_at.
    by destruct (decide _).
  - intros p s1 Hp (stk & l1 & A1 & Hl & Hk1 & Hr & Hm). change (0 + Z.of_nat (Z.to_nat NPROC)) with 64 in Hp.
    replace (Z.to_nat (64 - p)) with (S (Z.to_nat (64 - (p + 1)))) in Hk1 by lia.
    destruct (kv_kalloc _ _ _ _ _ Hk1) as (pa & s2 & l2 & E2 & Hne & Hph & Hlt & Hk2).
    erewrite bind_Ok by done. rewrite (proj2 (Z.eqb_neq pa 0)) by done.
    destruct (vpn_KSTACK p Hp) as (Ev & Hal & Hpos & Hmax). assert (p = Z.of_nat (length stk)) as Ep by lia.
    destruct (kvmmap_spec 0 _ s2 l2 _ A1 (KSTACK p) pa (Z.lor PTE_R PTE_W) Hk2) as (s3 & l3 & A3 & E3 & Hk3 & Hr3 & Hm3); try done.
    + simpl. unfold PGSIZE in *. lia.
    + unfold PHYSTOP, KERNBASE in Hlt. lia.
    + intros w Hw. assert (w = vpn (KSTACK p)) as -> by lia. split; [|by apply stack_kvpn].
      rewrite Hm. unfold with_stacks. assert (stack_at stk (vpn (KSTACK p)) = None) as ->; [|by apply Hfree].
      rewrite Ev. unfold stack_at. rewrite decide_True by (split; [lia|divlia]). apply lookup_ge_None_2. rewrite Hl. divlia.
    + exists s3. split; [by rewrite <- Hr|]. exists (stk ++ [pa]), l3, A3.
      split; [rewrite length_app; simpl; lia|]. rewrite reverse_snoc. split; [done|]. split; [by rewrite Hr3|].
      intros w. rewrite Hm3. cbn [map_range]. unfold with_stacks. rewrite stack_at_snoc, <- Ep by lia.
      case_decide as Hd; [subst w; apply lookup_insert_eq|]. rewrite lookup_insert_ne by done. by rewrite Hm.
  - exists s', stk, l', A'. split; [done|]. split; [done|]. auto.
Qed.

End kernel.

(* ------------------------------------------------------------------ *)
(** ** kvmmake() *)

Notation RW := (Z.lor PTE_R PTE_W).
Notation RX := (Z.lor PTE_R PTE_X).

(** What the kernel's map has at page [w] besides the stacks: the addresses
    of devices and RAM map to themselves. *)
Definition kernel_fixed (etext trampoline w : Z) : option Z :=
  if decide (w = vpn TRAMPOLINE) then Some (mkpte trampoline RX)
  else if decide (vpn etext <= w < vpn PHYSTOP) then Some (mkpte (w * PGSIZE) RW)
  else if decide (vpn KERNBASE <= w < vpn etext) then Some (mkpte (w * PGSIZE) RX)
  else if decide (vpn PLIC <= w < vpn PLIC + 16384) then Some (mkpte (w * PGSIZE) RW)
  else if decide (w = vpn VIRTIO0) then Some (mkpte (w * PGSIZE) RW)
  else if decide (w = vpn UART0) then Some (mkpte (w * PGSIZE) RW)
  else None.

(** One kvmmap() call of kvmmake(), on maps given by lookups; the pages are
    [v] up to [v'] and page [w] goes to physical page [w + d]. *)
Lemma kvmmap_next {kend} (Hend : 0 < kend) root room s l xs A f va pa sz perm v v' d :
  kv (kend := kend) room s l xs A -> as_root A = root -> (forall w, as_map A !! w = f w) ->
  va = v * PGSIZE -> pa = (v + d) * PGSIZE -> sz = (v' - v) * PGSIZE -> 0 <= perm < 2 ^ 10 ->
  0 <= v < v' -> v' <= 2 ^ 26 -> 0 <= v + d -> v' + d <= 2 ^ 26 ->
  (forall w, v <= w < v' -> f w = None /\ kvpn w) ->
  exists s' l' A', kvmmap root va pa sz perm s = Ok tt s' /\ kv (kend := kend) room s' l' xs A' /\
    as_root A' = root /\
    forall w, as_map A' !! w = if decide (v <= w < v') then Some (mkpte ((w + d) * PGSIZE) perm) else f w.
Proof.
  intros Hk <- Hf -> -> -> Hperm Hv Hv' Hd Hd' Hw. change MAXVA with (2 ^ 38) in *.
  assert (vpn (v * PGSIZE) = v) as Ev by (unfold vpn; apply Z.div_mul; unfold PGSIZE; lia).
  assert (Z.of_nat (Z.to_nat (v' - v - 1)) = v' - v - 1) as En by lia.
  destruct (kvmmap_spec Hend (Z.to_nat (v' - v - 1)) room s l xs A (v * PGSIZE) ((v + d) * PGSIZE) perm)
    as (s' & l' & A' & E & Hk' & Hr & Hm); try done.
  - apply Z.mod_mul. unfold PGSIZE. lia.
  - unfold PGSIZE. lia.
  - change MAXVA with (2 ^ 38). unfold PGSIZE. lia.
  - split; [apply Z.mod_mul; unfold PGSIZE; lia|unfold PGSIZE; lia].
  - unfold PGSIZE. lia.
  - intros w Hww. rewrite Hf. apply Hw. lia.
  - exists s', l', A'. replace (v' - v) with (Z.of_nat (S (Z.to_nat (v' - v - 1)))) by lia.
    split; [done|]. split; [done|]. split; [done|]. intros w. rewrite Hm, map_range_lookup, Hf, Ev.
    destruct (decide (v <= w < v')); [rewrite decide_True by lia|by rewrite decide_False by lia].
    do 2 f_equal. unfold PGSIZE. lia.
Qed.

(** The fresh root page of kvmmake(), as uvmcreate() makes it. *)
Lemma root_page {B} s p s' (f : Z -> M kmem B) :
  uvmcreate s = Ok p s' -> p <> 0 -> (let* k := kalloc in memset_page k 0 ;; f k) s = f p s'.
Proof.
  unfold uvmcreate. intros E Hp. apply bind_Ok_inv in E as (q & s1 & Eq & E).
  destruct (Z.eqb_spec q 0) as [->|]; [by injection E as <- _|].
  apply bind_Ok_inv in E as ([] & s2 & Em & E). injection E as <- <-.
  erewrite bind_Ok by done. by erewrite bind_Ok by done.
Qed.

Lemma mkpte_x pa perm : phys pa -> has PTE_X (mkpte pa perm) = has PTE_X perm.
Proof.
  intros. change PTE_X with (Z.shiftl 1 3). rewrite !has_testbit, mkpte_bit by (done || lia).
  by rewrite orb_false_r.
Qed.
Lemma mkpte_w pa perm : phys pa -> has PTE_W (mkpte pa perm) = has PTE_W perm.
Proof.
  intros. change PTE_W with (Z.shiftl 1 2). rewrite !has_testbit, mkpte_bit by (done || lia).
  by rewrite orb_false_r.
Qed.

Lemma identity_page w : 0 <= w < 2 ^ 26 -> phys (w * PGSIZE).
Proof. intros Hw. unfold phys, aligned, PGSIZE. split; [apply Z.mod_mul; lia|lia]. Qed.

(** The side conditions of a segment of the map. *)
Ltac kseg := first [reflexivity | lia | unfold PHYSTOP, KERNBASE, PGSIZE in *; lia | done].
Ltac kfree_range :=
  let w := fresh "w" in let Hw := fresh "Hw" in
  intros w Hw; split; [repeat rewrite decide_False by lia; reflexivity|unfold kvpn; divlia].

Section kvmmake.
Context (kend etext trampoline : Z).
Context (Hend : 0 < kend) (Het : aligned etext) (Hr : KERNBASE < etext < PHYSTOP) (Htr : phys trampoline)
  (Htr2 : trampoline < PHYSTOP).

Lemma kvmmake_spec s l :
  free_ok kend s l -> (166 < length l)%nat ->
  exists s' l' stk A, kvmmake etext trampoline s = Ok (as_root A) s' /\ length stk = 64%nat /\
    kv (kend := kend) 0 s' l' (reverse stk) A /\
    (forall w, as_map A !! w = with_stacks stk (kernel_fixed etext trampoline) w).
Proof.
  intros Hf Hlen. destruct l as [|p l]; [simpl in Hlen; lia|].
  destruct (uvmcreate_spec Hend s p l [] (fun _ => false) Hf) as (s0 & E0 & Hv0 & _);
    [apply Hf|intros q Hq; by apply not_elem_of_nil in Hq|].
  assert (kv (kend := kend) 64 s0 l [] (empty_space p (fun _ => false))) as Hk0.
  { split; [done|done| |].
    - simpl. intros k [t [<- _]%lookup_singleton_Some]. by left.
    - simpl in *. rewrite map_size_singleton. lia. }
  assert (p <> 0) as Hp0.
  { destruct (ok_page _ _ _ (v_as _ _ _ _ _ Hv0) 2%nat 0 p (lookup_singleton_eq _ _)) as (_ & ? & _). lia. }
  unfold kvmmake. erewrite root_page by done.
  assert (exists e, etext = e * PGSIZE /\ vpn etext = e /\ 524288 < e < 557056) as (e & He & Ev & Her).
  { exists (etext / PGSIZE). unfold PHYSTOP, KERNBASE, aligned, PGSIZE in *. split; [divlia|]. split; [done|]. divlia. }
  assert (exists A0, kv (kend := kend) 64 s0 l [] A0 /\ as_root A0 = p /\ forall w, as_map A0 !! w = None) as (A0 & Hk & Hroot & Hm0).
  { exists (empty_space p (fun _ => false)). split; [done|]. split; [done|]. intros w. apply lookup_empty. }
  destruct (kvmmap_next Hend p 64 s0 l [] A0 _ UART0 UART0 PGSIZE RW 65536 65537 0 Hk Hroot Hm0)
    as (s1 & l1 & A1 & E1 & Hk1 & Hr1 & Hm1); [kseg..|kfree_range|].
  destruct (kvmmap_next Hend p 64 s1 l1 [] A1 _ VIRTIO0 VIRTIO0 PGSIZE RW 65537 65538 0 Hk1 Hr1 Hm1)
    as (s2 & l2 & A2 & E2 & Hk2 & Hr2 & Hm2); [kseg..|kfree_range|]. clear Hm1.
  destruct (kvmmap_next Hend p 64 s2 l2 [] A2 _ PLIC PLIC 0x4000000 RW 49152 65536 0 Hk2 Hr2 Hm2)
    as (s3 & l3 & A3 & E3 & Hk3 & Hr3 & Hm3); [kseg..|kfree_range|]. clear Hm2.
  destruct (kvmmap_next Hend p 64 s3 l3 [] A3 _ KERNBASE KERNBASE (etext - KERNBASE) RX 524288 e 0 Hk3 Hr3 Hm3)
    as (s4 & l4 & A4 & E4 & Hk4 & Hr4 & Hm4); [kseg..|kfree_range|]. clear Hm3.
  destruct (kvmmap_next Hend p 64 s4 l4 [] A4 _ etext etext (PHYSTOP - etext) RW e 557056 0 Hk4 Hr4 Hm4)
    as (s5 & l5 & A5 & E5 & Hk5 & Hr5 & Hm5); [kseg..|kfree_range|]. clear Hm4.
  assert (trampoline = trampoline / PGSIZE * PGSIZE /\ 0 <= trampoline / PGSIZE < 2 ^ 25) as [Ht1 Ht2].
  { destruct Htr. unfold PHYSTOP, KERNBASE, aligned, PGSIZE in *. divlia. }
  destruct (kvmmap_next Hend p 64 s5 l5 [] A5 _ TRAMPOLINE trampoline PGSIZE RX (2 ^ 26 - 1) (2 ^ 26)
    (trampoline / PGSIZE - (2 ^ 26 - 1)) Hk5 Hr5 Hm5) as (s6 & l6 & A6 & E6 & Hk6 & Hr6 & Hm6);
    [reflexivity|lia|kseg..|kfree_range|]. clear Hm5.
  destruct (proc_mapstacks_spec Hend s6 l6 [] A6 Hk6) as (s' & stk & l' & A & E7 & Hl & Hk7 & Hr7 & Hm7).
  { intros q Hq. destruct (vpn_KSTACK q Hq) as [-> _]. change (vpn TRAMPOLINE) with (2 ^ 26 - 1). rewrite Hm6.
    repeat rewrite decide_False by lia. done. }
  exists s', l', stk, A. rewrite Hr6 in E7, Hr7. split.
  { do 6 (erewrite bind_Ok by eassumption). erewrite bind_Ok by exact E7. by rewrite Hr7. }
  split; [done|]. split; [by rewrite app_nil_r in Hk7|]. intros w. rewrite Hm7. unfold with_stacks.
  case_match; [done|]. rewrite Hm6. unfold kernel_fixed. rewrite Ev. change (vpn TRAMPOLINE) with (2 ^ 26 - 1).
  change (vpn PHYSTOP) with 557056. change (vpn KERNBASE) with 524288. change (vpn PLIC) with 49152.
  change (vpn VIRTIO0) with 65537. change (vpn UART0) with 65536.
  repeat case_decide; try lia; try done; do 2 f_equal; lia.
Qed.

Lemma etext_vpn : 524288 < vpn etext < 557056.
Proof. unfold vpn, PHYSTOP, KERNBASE, aligned, PGSIZE in *. divlia. Qed.

(** No page of the fixed map is both writable and executable. *)
Lemma kernel_fixed_wx w pte : kernel_fixed etext trampoline w = Some pte -> has PTE_W pte && has PTE_X pte = false.
Proof.
  pose proof etext_vpn as He. unfold kernel_fixed. change (vpn PHYSTOP) with 557056. change (vpn KERNBASE) with 524288.
  change (vpn PLIC) with 49152. change (vpn VIRTIO0) with 65537. change (vpn UART0) with 65536.
  repeat case_decide; intros [= <-];
    (rewrite mkpte_w, mkpte_x by (done || (apply identity_page; lia))); done.
Qed.

(** Below the trampoline only stacks are mapped. *)
Lemma kernel_fixed_top w : 557056 <= w < vpn TRAMPOLINE -> kernel_fixed etext trampoline w = None.
Proof.
  intros Hw. pose proof etext_vpn as He. unfold kernel_fixed. change (vpn PHYSTOP) with 557056. change (vpn KERNBASE) with 524288.
  change (vpn PLIC) with 49152. change (vpn VIRTIO0) with 65537. change (vpn UART0) with 65536.
  by repeat rewrite decide_False by lia.
Qed.

(** C26. kvmmake() builds the kernel's address space: devices and RAM at
    their own addresses, the kernel's text not writable and everything else
    not executable, the trampoline at the top, and below it a stack for each
    process, with the page under each stack left unmapped. *)
Theorem kvmmake_kernel_map s l :
  free_ok kend s l -> (166 < length l)%nat ->
  exists s' l' stk A, kvmmake etext trampoline s = Ok (as_root A) s' /\
    vm_ok kend s' l' (reverse stk) A /\ length stk = 64%nat /\
    (forall w, as_map A !! w = with_stacks stk (kernel_fixed etext trampoline) w) /\
    (forall w pte, as_map A !! w = Some pte -> has PTE_W pte && has PTE_X pte = false) /\
    (forall p, 0 <= p < NPROC -> as_map A !! vpn (KSTACK p) <> None /\ as_map A !! vpn (KSTACK p - PGSIZE) = None).
Proof.
  intros Hf Hlen. destruct (kvmmake_spec s l Hf Hlen) as (s' & l' & stk & A & E & Hl & Hk & Hm).
  exists s', l', stk, A. split; [done|]. split; [apply Hk|]. split; [done|]. split; [done|].
  assert (forall pa, pa ∈ stk -> phys pa) as Hstk.
  { intros pa Hpa. eapply ram_phys; [done|]. apply (v_foot _ _ _ _ _ (kv_vm _ _ _ _ _ Hk)). rewrite !elem_of_app, elem_of_reverse. auto. }
  split.
  - intros w pte. rewrite Hm. unfold with_stacks, kernel_fixed. destruct (stack_at stk w) as [pa|] eqn:Es.
    + intros [= <-]. rewrite mkpte_x by (apply Hstk; unfold stack_at in Es; case_decide; [|done]; by eapply list_elem_of_lookup_2).
      apply andb_false_r.
    + by apply (kernel_fixed_wx w).
  - intros p Hp. change NPROC with 64 in Hp. destruct (vpn_KSTACK p Hp) as (Ev & _).
    assert (vpn (KSTACK p - PGSIZE) = vpn TRAMPOLINE - (2 * p + 3)) as Ev'.
    { replace (KSTACK p - PGSIZE) with (KSTACK p + (-1) * PGSIZE) by lia. unfold vpn in *. rewrite Z.div_add by (unfold PGSIZE; lia). lia. }
    rewrite !Hm, Ev, Ev'. unfold with_stacks, stack_at. set (T := vpn TRAMPOLINE) in *. split.
    + rewrite decide_True by (split; [lia|divlia]).
      destruct (lookup_lt_is_Some_2 stk (Z.to_nat ((T - (T - 2 * (p + 1))) / 2 - 1))) as [x ->]; [rewrite Hl; divlia|done].
    + rewrite decide_False by (intros [_ ?]; divlia).
      unfold T. apply kernel_fixed_top. change (vpn TRAMPOLINE) with (2 ^ 26 - 1). lia.
Qed.

End kvmmake.

Lemma kvmmake_kernel_map_witness : exists s s' l' stk A,
  let kend := PHYSTOP - 200 * PGSIZE in
  kvmmake (KERNBASE + 0x8000) (KERNBASE + 0x7000) s = Ok (as_root A) s' /\
  vm_ok kend s' l' (reverse stk) A /\ as_map A !! vpn (KSTACK 0 - PGSIZE) = None.
Proof.
  set (kend := PHYSTOP - 200 * PGSIZE).
  assert (0 < kend < PHYSTOP) as Hk by (unfold kend, PHYSTOP, KERNBASE, PGSIZE; lia).
  destruct (kinit_spec kend (proj1 Hk) (ex_ram kend) false (proj2 Hk) (ex_ram_ok _ Hk) (ex_ram_all _)) as (s & _ & Hf).
  destruct (kvmmake_kernel_map kend (KERNBASE + 0x8000) (KERNBASE + 0x7000) (proj1 Hk)) with
    (s := s) (l := reverse (pages (PGROUNDUP kend) PHYSTOP)) as (s' & l' & stk & A & E & Hv & _ & _ & _ & Hg).
  - reflexivity.
  - unfold PHYSTOP, KERNBASE. lia.
  - split; [reflexivity|]. unfold KERNBASE. lia.
  - unfold PHYSTOP, KERNBASE. lia.
  - exact Hf.
  - rewrite length_reverse. apply Nat.ltb_lt. vm_compute. reflexivity.
  - exists s, s', l', stk, A. split; [exact E|]. split; [exact Hv|]. apply Hg. change NPROC with 64. lia.
Defined.
