(* ===== verification/Fs.v ===== *)
(** * kernel/fs.c: blocks, inodes, directories and paths

   The file system code runs inside transactions and sees the disk through
   bread(), log_write() and brelse().  Its view of them is a map of blocks,
   with the buffers the calling process has locked, the blocks it has passed
   to log_write() and the number of its open transactions (Log.v and LogTx.v
   have the log itself).  A buffer is named by its block number.  The calls
   run with no other process inside the file system; a call that finds an
   inode locked sleeps, and messages to the console are left out. *)

From stdpp Require Import base numbers list gmap strings.
From Stdlib Require Import ZArith Lia.
From S2P Require Import Prelude Params Cmem KString Sleeplock UserMem.

(* ------------------------------------------------------------------ *)
(** ** Data *)

(** struct superblock *)
Record superblock := Superblock {
  sb_magic : Z; sb_size : Z; sb_nblocks : Z; sb_ninodes : Z;
  sb_nlog : Z; sb_logstart : Z; sb_inodestart : Z; sb_bmapstart : Z
}.

(** struct inode: the in-memory copy *)
Record inode := Inode {
  i_dev : Z; i_inum : Z; i_ref : Z; i_lock : sleeplock; i_valid : bool;
  i_type : Z; i_major : Z; i_minor : Z; i_nlink : Z; i_size : Z;
  i_addrs : list Z
}.

(** The block layer, as the calling process sees it. *)
Record blocks := BlocksSt {
  bk_data : gmap Z (list Z);
  bk_held : list Z;
  bk_logged : list Z;
  bk_ops : Z
}.

(** The file system, with the process's pid, current directory and memory. *)
Record fs (U : Type) := Fs {
  f_sb : superblock;
  f_blk : blocks;
  f_itlock : bool;
  f_itab : list inode;
  f_pid : Z;
  f_cwd : nat;
  f_user : U;
  f_woken : list chan
}.
Arguments Fs {U}.
Arguments f_sb {U}. Arguments f_blk {U}. Arguments f_itlock {U}. Arguments f_itab {U}.
Arguments f_pid {U}. Arguments f_cwd {U}. Arguments f_user {U}. Arguments f_woken {U}.

Definition IBLOCK (i : Z) (sb : superblock) : Z := i / IPB + sb_inodestart sb.
Definition BBLOCK (b : Z) (sb : superblock) : Z := b / BPB + sb_bmapstart sb.

(** The fields of a struct dinode at byte [o] of a block. *)
Definition di_type (o : nat) (d : list Z) : Z := i16 (ld16 o d).
Definition di_nlink (o : nat) (d : list Z) : Z := i16 (ld16 (o + 6) d).
Definition di_addrs (o : nat) (d : list Z) : list Z :=
  map (fun k => ld32 (o + 12 + 4 * k) d) (seq 0 (Z.to_nat (NDIRECT + 1))).
Definition dinode_off (inum : Z) : nat := Z.to_nat (inum mod IPB * DINODE_SIZE).

(** The stores of iupdate() into the inode's slot, and memmove of addrs. *)
Fixpoint put_addrs (o : nat) (addrs : list Z) (d : list Z) : list Z :=
  match addrs with
  | [] => d
  | a :: addrs' => put_addrs (o + 4) addrs' (st32 o a d)
  end.
Definition put_dinode (o : nat) (ip : inode) (d : list Z) : list Z :=
  let d := st16 o (i_type ip) d in
  let d := st16 (o + 2) (i_major ip) d in
  let d := st16 (o + 4) (i_minor ip) d in
  let d := st16 (o + 6) (i_nlink ip) d in
  let d := st32 (o + 8) (i_size ip) d in
  put_addrs (o + 12) (i_addrs ip) d.

Definition load_dinode (o : nat) (d : list Z) (ip : inode) : inode :=
  Inode (i_dev ip) (i_inum ip) (i_ref ip) (i_lock ip) (i_valid ip)
    (di_type o d) (i16 (ld16 (o + 2) d)) (i16 (ld16 (o + 4) d)) (di_nlink o d) (ld32 (o + 8) d)
    (di_addrs o d).

(** Stores to single fields. *)
Definition set_ref (r : Z) (ip : inode) : inode :=
  Inode (i_dev ip) (i_inum ip) r (i_lock ip) (i_valid ip) (i_type ip) (i_major ip) (i_minor ip)
    (i_nlink ip) (i_size ip) (i_addrs ip).
Definition set_valid (v : bool) (ip : inode) : inode :=
  Inode (i_dev ip) (i_inum ip) (i_ref ip) (i_lock ip) v (i_type ip) (i_major ip) (i_minor ip)
    (i_nlink ip) (i_size ip) (i_addrs ip).
Definition set_ilock (k : sleeplock) (ip : inode) : inode :=
  Inode (i_dev ip) (i_inum ip) (i_ref ip) k (i_valid ip) (i_type ip) (i_major ip) (i_minor ip)
    (i_nlink ip) (i_size ip) (i_addrs ip).
Definition set_type (t : Z) (ip : inode) : inode :=
  Inode (i_dev ip) (i_inum ip) (i_ref ip) (i_lock ip) (i_valid ip) (i16 t) (i_major ip) (i_minor ip)
    (i_nlink ip) (i_size ip) (i_addrs ip).
Definition set_nlink (n : Z) (ip : inode) : inode :=
  Inode (i_dev ip) (i_inum ip) (i_ref ip) (i_lock ip) (i_valid ip) (i_type ip) (i_major ip) (i_minor ip)
    (i16 n) (i_size ip) (i_addrs ip).
Definition set_size (n : Z) (ip : inode) : inode :=
  Inode (i_dev ip) (i_inum ip) (i_ref ip) (i_lock ip) (i_valid ip) (i_type ip) (i_major ip) (i_minor ip)
    (i_nlink ip) n (i_addrs ip).
Definition set_addr (k : nat) (a : Z) (ip : inode) : inode :=
  Inode (i_dev ip) (i_inum ip) (i_ref ip) (i_lock ip) (i_valid ip) (i_type ip) (i_major ip) (i_minor ip)
    (i_nlink ip) (i_size ip) (<[k := a]> (i_addrs ip)).
Definition addr_of (k : nat) (ip : inode) : Z := default 0 (i_addrs ip !! k).

Definition inode0 : inode :=
  Inode 0 0 0 initsleeplock false 0 0 0 0 0 (replicate (Z.to_nat (NDIRECT + 1)) 0).

(* ------------------------------------------------------------------ *)
(** ** The block layer *)

Definition blk (b : Z) (k : blocks) : list Z := default (replicate (Z.to_nat BSIZE) 0) (bk_data k !! b).
Definition set_blk (b : Z) (d : list Z) (k : blocks) : blocks :=
  BlocksSt (<[b := d]> (bk_data k)) (bk_held k) (bk_logged k) (bk_ops k).
Definition set_held (h : list Z) (k : blocks) : blocks :=
  BlocksSt (bk_data k) h (bk_logged k) (bk_ops k).
Definition log_add (b : Z) (k : blocks) : blocks :=
  BlocksSt (bk_data k) (bk_held k)
    (if decide (b ∈ bk_logged k) then bk_logged k else bk_logged k ++ [b]) (bk_ops k).

(** A call of kernel/string.c on a memory that holds its arguments. *)
Definition string_op {S A} (m : M mem A) (arg : mem) : M S (A * mem) := fun s =>
  match m arg with
  | Ok a m' => Ok (a, m') s
  | Panic msg => Panic msg
  | _ => Diverge
  end.

Section fs.
Context {U : Type} `{UserOps U} `{WakeBudget}.

Notation F := (M (fs U)).

Definition set_blocks (f : blocks -> blocks) (s : fs U) : fs U :=
  Fs (f_sb s) (f (f_blk s)) (f_itlock s) (f_itab s) (f_pid s) (f_cwd s) (f_user s) (f_woken s).
Definition set_itab (f : list inode -> list inode) (s : fs U) : fs U :=
  Fs (f_sb s) (f_blk s) (f_itlock s) (f (f_itab s)) (f_pid s) (f_cwd s) (f_user s) (f_woken s).
Definition set_fuser (u : U) (s : fs U) : fs U :=
  Fs (f_sb s) (f_blk s) (f_itlock s) (f_itab s) (f_pid s) (f_cwd s) u (f_woken s).
Definition set_sb (b : superblock) (s : fs U) : fs U :=
  Fs b (f_blk s) (f_itlock s) (f_itab s) (f_pid s) (f_cwd s) (f_user s) (f_woken s).

Definition L_fuser : lens (fs U) U := Lens f_user set_fuser.
Definition L_itlock : lens (fs U) bool :=
  Lens f_itlock (fun b s => Fs (f_sb s) (f_blk s) b (f_itab s) (f_pid s) (f_cwd s) (f_user s) (f_woken s)).
#[global] Instance fs_woken : Woken (fs U) :=
  Lens f_woken (fun w s => Fs (f_sb s) (f_blk s) (f_itlock s) (f_itab s) (f_pid s) (f_cwd s) (f_user s) w).

Definition geti (i : nat) (s : fs U) : inode := default inode0 (f_itab s !! i).
Definition upd_inode (i : nat) (f : inode -> inode) : F unit := modify (set_itab (alter f i)).
Definition L_ilock (i : nat) : lens (fs U) sleeplock :=
  Lens (fun s => i_lock (geti i s)) (fun k => set_itab (alter (set_ilock k) i)).
Definition inode_chan (i : nat) : chan := ChSleeplock "inode" i.

(** bread(): a process that reads a block it already has locked waits for
    itself. *)
Definition bread (dev b : Z) : F Z := fun s =>
  if negb (dev =? ROOTDEV) then ub "no such disk" s
  else if decide (b ∈ bk_held (f_blk s)) then Sleep (ChSleeplock "buffer" (Z.to_nat b)) s (fun _ => Diverge)
  else Ok b (set_blocks (set_held (b :: bk_held (f_blk s))) s).
Definition brelse (b : Z) : F unit := fun s =>
  if decide (b ∈ bk_held (f_blk s)) then Ok tt (set_blocks (set_held (list_difference (bk_held (f_blk s)) [b])) s)
  else Panic "brelse".
Definition bdata (b : Z) : F (list Z) := gets (fun s => blk b (f_blk s)).
Definition bput (b : Z) (d : list Z) : F unit := modify (set_blocks (set_blk b d)).
(** log_write(): begin_op() reserved MAXOPBLOCKS blocks of the log; a
    transaction that needs more can find it full. *)
Definition log_write (b : Z) : F unit := fun s =>
  let k := log_add b (f_blk s) in
  if bk_ops (f_blk s) <? 1 then Panic "log_write outside of trans"
  else if Z.of_nat (length (bk_logged k)) >? MAXOPBLOCKS then Panic "too big a transaction"
  else Ok tt (set_blocks (fun _ => k) s).
Definition begin_op : F unit :=
  modify (set_blocks (fun k => BlocksSt (bk_data k) (bk_held k) (bk_logged k) (bk_ops k + 1))).
Definition end_op : F unit :=
  modify (set_blocks (fun k => BlocksSt (bk_data k) (bk_held k) [] (bk_ops k - 1))).

(* ------------------------------------------------------------------ *)
(** ** The super block and the block allocator *)

Definition readsb (dev : Z) : F superblock :=
  let* bp := bread dev 1 in
  let* d := bdata bp in
  brelse bp ;;
  ret (Superblock (ld32 0 d) (ld32 4 d) (ld32 8 d) (ld32 12 d) (ld32 16 d) (ld32 20 d) (ld32 24 d) (ld32 28 d)).

Definition bzero (dev bno : Z) : F unit :=
  let* bp := bread dev bno in
  bput bp (replicate (Z.to_nat BSIZE) 0) ;;
  log_write bp ;;
  brelse bp.

(** The bit of a block in its bitmap block. *)
Definition bit_byte (bi : Z) (d : list Z) : Z := default 0 (d !! Z.to_nat (bi / 8)).
Definition bit_mask (bi : Z) : Z := Z.shiftl 1 (bi mod 8).
Definition bit_used (bi : Z) (d : list Z) : bool := negb (Z.land (bit_byte bi d) (bit_mask bi) =? 0).
Definition bit_set (bi : Z) (d : list Z) : list Z :=
  <[Z.to_nat (bi / 8) := Z.lor (bit_byte bi d) (bit_mask bi)]> d.
Definition bit_clear (bi : Z) (d : list Z) : list Z :=
  <[Z.to_nat (bi / 8) := u8 (Z.land (bit_byte bi d) (Z.lnot (bit_mask bi)))]> d.

(** for(bi = 0; bi < BPB && b + bi < sb.size; bi++) if the bit is clear *)
Fixpoint scan_bits (n : nat) (b size bi : Z) (d : list Z) : option Z :=
  match n with
  | O => None
  | S n' =>
      if b + bi <? size then
        if bit_used bi d then scan_bits n' b size (bi + 1) d else Some bi
      else None
  end.

Fixpoint balloc_loop (fuel : nat) (dev b : Z) : F Z :=
  let* sb := gets f_sb in
  if b <? sb_size sb then
    match fuel with
    | O => diverge
    | S f =>
        let* bp := bread dev (BBLOCK b sb) in
        let* d := bdata bp in
        match scan_bits (Z.to_nat BPB) b (sb_size sb) 0 d with
        | Some bi =>
            bput bp (bit_set bi d) ;;
            log_write bp ;;
            brelse bp ;;
            bzero dev (b + bi) ;;
            ret (b + bi)
        | None => brelse bp ;; balloc_loop f dev (b + BPB)
        end
    end
  else ret 0.
Definition balloc (dev : Z) : F Z :=
  let* sb := gets f_sb in balloc_loop (Z.to_nat (sb_size sb / BPB + 1)) dev 0.

Definition bfree (dev b : Z) : F unit :=
  let* sb := gets f_sb in
  let* bp := bread dev (BBLOCK b sb) in
  let* d := bdata bp in
  let bi := b mod BPB in
  if negb (bit_used bi d) then panic "freeing free block"
  else
    bput bp (bit_clear bi d) ;;
    log_write bp ;;
    brelse bp.

(* ------------------------------------------------------------------ *)
(** ** Inodes *)

(** The loop of iget(): a table entry for the inode, else the first free
    entry seen. *)
Fixpoint iget_scan (n : nat) (i : nat) (dev inum : Z) (empty : option nat) (itab : list inode) : nat + option nat :=
  match n with
  | O => inr empty
  | S n' =>
      let ip := default inode0 (itab !! i) in
      if (i_ref ip >? 0) && (i_dev ip =? dev) && (i_inum ip =? inum) then inl i
      else iget_scan n' (S i) dev inum
        (match empty with Some e => Some e | None => if i_ref ip =? 0 then Some i else None end) itab
  end.

Definition iget (dev inum : Z) : F nat :=
  lock_acquire L_itlock ;;
  let* itab := gets f_itab in
  match iget_scan (Z.to_nat NINODE) 0 dev inum None itab with
  | inl i =>
      upd_inode i (fun ip => set_ref (i32 (i_ref ip + 1)) ip) ;;
      lock_release L_itlock ;;
      ret i
  | inr None => panic "iget: no inodes"
  | inr (Some i) =>
      upd_inode i (fun ip => Inode dev inum 1 (i_lock ip) false (i_type ip) (i_major ip) (i_minor ip)
        (i_nlink ip) (i_size ip) (i_addrs ip)) ;;
      lock_release L_itlock ;;
      ret i
  end.

Definition iinit : F unit :=
  modify (lset L_itlock false) ;;
  for_range (Z.to_nat NINODE) 0 (fun i => modify (lset (L_ilock (Z.to_nat i)) initsleeplock)).

(** for(inum = 1; inum < sb.ninodes; inum++) of ialloc(); None is the null
    pointer. *)
Fixpoint ialloc_loop (fuel : nat) (dev type inum : Z) : F (option nat) :=
  let* sb := gets f_sb in
  if inum <? sb_ninodes sb then
    match fuel with
    | O => diverge
    | S f =>
        let* bp := bread dev (IBLOCK inum sb) in
        let* d := bdata bp in
        let o := dinode_off inum in
        if di_type o d =? 0 then
          bput bp (st16 o type (splice o (replicate (Z.to_nat DINODE_SIZE) 0) d)) ;;
          log_write bp ;;
          brelse bp ;;
          let* i := iget dev inum in ret (Some i)
        else brelse bp ;; ialloc_loop f dev type (inum + 1)
    end
  else ret None.
Definition ialloc (dev type : Z) : F (option nat) :=
  let* sb := gets f_sb in ialloc_loop (Z.to_nat (sb_ninodes sb)) dev type 1.

Definition iupdate (i : nat) : F unit :=
  let* sb := gets f_sb in
  let* ip := gets (geti i) in
  let* bp := bread (i_dev ip) (IBLOCK (i_inum ip) sb) in
  let* d := bdata bp in
  bput bp (put_dinode (dinode_off (i_inum ip)) ip d) ;;
  log_write bp ;;
  brelse bp.

Definition idup (i : nat) : F nat :=
  lock_acquire L_itlock ;;
  upd_inode i (fun ip => set_ref (i32 (i_ref ip + 1)) ip) ;;
  lock_release L_itlock ;;
  ret i.

Definition ilock (i : nat) : F unit :=
  let* ip := gets (geti i) in
  if i_ref ip <? 1 then panic "ilock"
  else
    let* pid := gets f_pid in
    acquiresleep (L_ilock i) (inode_chan i) pid ;;
    let* ip := gets (geti i) in
    if i_valid ip then ret tt
    else
      let* sb := gets f_sb in
      let* bp := bread (i_dev ip) (IBLOCK (i_inum ip) sb) in
      let* d := bdata bp in
      upd_inode i (load_dinode (dinode_off (i_inum ip)) d) ;;
      brelse bp ;;
      upd_inode i (set_valid true) ;;
      let* ip := gets (geti i) in
      if i_type ip =? 0 then panic "ilock: no type" else ret tt.

Definition iunlock (i : nat) : F unit :=
  let* pid := gets f_pid in
  let* h := holdingsleep (L_ilock i) pid in
  let* ip := gets (geti i) in
  if negb h || (i_ref ip <? 1) then panic "iunlock"
  else releasesleep (L_ilock i) (inode_chan i).

(** for(i = 0; i < NDIRECT; i++) of itrunc() *)
Definition trunc_direct (i : nat) (k : Z) : F unit :=
  let* ip := gets (geti i) in
  if negb (addr_of (Z.to_nat k) ip =? 0) then
    bfree (i_dev ip) (addr_of (Z.to_nat k) ip) ;;
    upd_inode i (set_addr (Z.to_nat k) 0)
  else ret tt.
(** for(j = 0; j < NINDIRECT; j++) of itrunc(), [bp] the indirect block *)
Definition trunc_indirect (i : nat) (bp j : Z) : F unit :=
  let* ip := gets (geti i) in
  let* d := bdata bp in
  let a := ld32 (Z.to_nat (4 * j)) d in
  if negb (a =? 0) then bfree (i_dev ip) a else ret tt.

Definition itrunc (i : nat) : F unit :=
  for_range (Z.to_nat NDIRECT) 0 (trunc_direct i) ;;
  let* ip := gets (geti i) in
  let ind := addr_of (Z.to_nat NDIRECT) ip in
  (if negb (ind =? 0) then
     let* bp := bread (i_dev ip) ind in
     for_range (Z.to_nat NINDIRECT) 0 (trunc_indirect i bp) ;;
     brelse bp ;;
     bfree (i_dev ip) ind ;;
     upd_inode i (set_addr (Z.to_nat NDIRECT) 0)
   else ret tt) ;;
  upd_inode i (set_size 0) ;;
  iupdate i.

Definition iput (i : nat) : F unit :=
  lock_acquire L_itlock ;;
  let* ip := gets (geti i) in
  (if (i_ref ip =? 1) && i_valid ip && (i_nlink ip =? 0) then
     let* pid := gets f_pid in
     acquiresleep (L_ilock i) (inode_chan i) pid ;;
     lock_release L_itlock ;;
     itrunc i ;;
     upd_inode i (set_type 0) ;;
     iupdate i ;;
     upd_inode i (set_valid false) ;;
     releasesleep (L_ilock i) (inode_chan i) ;;
     lock_acquire L_itlock
   else ret tt) ;;
  upd_inode i (fun ip => set_ref (i32 (i_ref ip - 1)) ip) ;;
  lock_release L_itlock.

Definition iunlockput (i : nat) : F unit := iunlock i ;; iput i.

(** One inode number in the loop of ireclaim(). *)
Definition reclaim_one (dev inum : Z) : F unit :=
  let* sb := gets f_sb in
  let* bp := bread dev (IBLOCK inum sb) in
  let* d := bdata bp in
  let o := dinode_off inum in
  let* ip :=
    if negb (di_type o d =? 0) && (di_nlink o d =? 0) then let* i := iget dev inum in ret (Some i)
    else ret None in
  brelse bp ;;
  match ip with
  | Some i => begin_op ;; ilock i ;; iunlock i ;; iput i ;; end_op
  | None => ret tt
  end.
Definition ireclaim (dev : Z) : F unit :=
  let* sb := gets f_sb in for_range (Z.to_nat (sb_ninodes sb - 1)) 1 (reclaim_one dev).

(** [initlog] is the recovery of Log.v, seen from here. *)
Definition fsinit (initlog : Z -> superblock -> F unit) (dev : Z) : F unit :=
  let* sb := readsb dev in
  modify (set_sb sb) ;;
  if negb (sb_magic sb =? FSMAGIC) then panic "invalid file system"
  else initlog dev sb ;; ireclaim dev.

(* ------------------------------------------------------------------ *)
(** ** Contents of inodes *)

Definition bmap (i : nat) (bn : Z) : F Z :=
  let* ip := gets (geti i) in
  if bn <? NDIRECT then
    let addr := addr_of (Z.to_nat bn) ip in
    if addr =? 0 then
      let* addr := balloc (i_dev ip) in
      if addr =? 0 then ret 0
      else upd_inode i (set_addr (Z.to_nat bn) addr) ;; ret addr
    else ret addr
  else
    let bn := bn - NDIRECT in
    if bn <? NINDIRECT then
      let* ind :=
        let ind := addr_of (Z.to_nat NDIRECT) ip in
        if ind =? 0 then
          let* ind := balloc (i_dev ip) in
          (if ind =? 0 then ret tt else upd_inode i (set_addr (Z.to_nat NDIRECT) ind)) ;; ret ind
        else ret ind in
      if ind =? 0 then ret 0
      else
        let* bp := bread (i_dev ip) ind in
        let* d := bdata bp in
        let addr := ld32 (Z.to_nat (4 * bn)) d in
        let* addr :=
          if addr =? 0 then
            let* addr := balloc (i_dev ip) in
            (if negb (addr =? 0) then
               let* d := bdata bp in
               bput bp (st32 (Z.to_nat (4 * bn)) addr d) ;; log_write bp
             else ret tt) ;;
            ret addr
          else ret addr in
        brelse bp ;;
        ret addr
    else panic "bmap: out of range".

(** struct stat *)
Record stat := Stat { st_dev : Z; st_ino : Z; st_type : Z; st_nlink : Z; st_size : Z }.
Definition stati (i : nat) : F stat :=
  let* ip := gets (geti i) in
  ret (Stat (i32 (i_dev ip)) (i_inum ip) (i_type ip) (i_nlink ip) (i_size ip)).

(** kernel/proc.c: either_copyout() and either_copyin().  A copy to the
    kernel goes to a buffer of the caller: the result has the bytes it got.
    A copy from the kernel has its bytes with it. *)
Inductive dst := UserDst (va : Z) | KernelDst.
Inductive src := UserSrc (va : Z) | KernelSrc (bs : list Z).

Definition either_copyout (d : dst) (off : Z) (bs : list Z) : F (bool * list Z) :=
  match d with
  | UserDst va => let* ok := zoom L_fuser (ucopyout (u64 (va + off)) bs) in ret (ok, [])
  | KernelDst => ret (true, bs)
  end.

(** The bytes that arrive at the destination: all of them, or on a fault
    the ones before it. *)
Definition either_copyin (d : src) (off : Z) (n : nat) : F (bool * list Z) :=
  match d with
  | UserSrc va => zoom L_fuser (ucopyin (u64 (va + off)) n)
  | KernelSrc bs => ret (true, slice (Z.to_nat off) n bs)
  end.

(** for(tot=0; tot<n; tot+=m, off+=m, dst+=m) of readi(): tot and the bytes
    stored at a kernel destination. *)
Fixpoint readi_loop (fuel : nat) (i : nat) (d : dst) (off n tot : Z) : F (Z * list Z) :=
  if tot <? n then
    match fuel with
    | O => diverge
    | S f =>
        let* addr := bmap i (off / BSIZE) in
        if addr =? 0 then ret (tot, [])
        else
          let* ip := gets (geti i) in
          let* bp := bread (i_dev ip) addr in
          let* data := bdata bp in
          let m := Z.min (n - tot) (BSIZE - off mod BSIZE) in
          let* r := either_copyout d tot (slice (Z.to_nat (off mod BSIZE)) (Z.to_nat m) data) in
          brelse bp ;;
          if negb (fst r) then ret (-1, [])
          else
            let* r' := readi_loop f i d (off + m) n (tot + m) in
            ret (fst r', snd r ++ snd r')
    end
  else ret (tot, []).

Definition readi (i : nat) (d : dst) (off n : Z) : F (Z * list Z) :=
  let* ip := gets (geti i) in
  if (off >? i_size ip) || (u32 (off + n) <? off) then ret (0, [])
  else
    let n := if u32 (off + n) >? i_size ip then i_size ip - off else n in
    let* r := readi_loop (Z.to_nat n) i d off n 0 in
    ret (i32 (fst r), snd r).

(** The loop of writei(): the final tot and off. *)
Fixpoint writei_loop (fuel : nat) (i : nat) (sr : src) (off n tot : Z) : F (Z * Z) :=
  if tot <? n then
    match fuel with
    | O => diverge
    | S f =>
        let* addr := bmap i (off / BSIZE) in
        if addr =? 0 then ret (tot, off)
        else
          let* ip := gets (geti i) in
          let* bp := bread (i_dev ip) addr in
          let m := Z.min (n - tot) (BSIZE - off mod BSIZE) in
          let* r := either_copyin sr tot (Z.to_nat m) in
          let* data := bdata bp in
          bput bp (splice (Z.to_nat (off mod BSIZE)) (snd r) data) ;;
          if negb (fst r) then brelse bp ;; ret (tot, off)
          else
            log_write bp ;;
            brelse bp ;;
            writei_loop f i sr (off + m) n (tot + m)
    end
  else ret (tot, off).

Definition writei (i : nat) (sr : src) (off n : Z) : F Z :=
  let* ip := gets (geti i) in
  if (off >? i_size ip) || (u32 (off + n) <? off) then ret (-1)
  else if u32 (off + n) >? MAXFILE * BSIZE then ret (-1)
  else
    let* r := writei_loop (Z.to_nat n) i sr off n 0 in
    let* ip := gets (geti i) in
    (if snd r >? i_size ip then upd_inode i (set_size (snd r)) else ret tt) ;;
    iupdate i ;;
    ret (i32 (fst r)).

(* ------------------------------------------------------------------ *)
(** ** Directories *)

(** struct dirent: a ushort inode number and a name field *)
Definition DIRENT : Z := 16.
Definition de_inum (de : list Z) : Z := ld16 0 de.
Definition de_name (de : list Z) : list Z := drop 2 de.

(** namecmp(s, t): the names one after the other in memory *)
Definition namecmp (s t : list Z) : F Z :=
  let* r := string_op (strncmp 0 (Z.of_nat (length s)) DIRSIZ) (s ++ t) in ret (fst r).

(** The loop of dirlookup(): the table entry of the inode and the offset. *)
Fixpoint dirlookup_loop (fuel : nat) (dp : nat) (name : list Z) (off : Z) : F (option (nat * Z)) :=
  let* d := gets (geti dp) in
  if off <? i_size d then
    match fuel with
    | O => diverge
    | S f =>
        let* r := readi dp KernelDst off DIRENT in
        if negb (fst r =? DIRENT) then panic "dirlookup read"
        else
          let de := snd r in
          if de_inum de =? 0 then dirlookup_loop f dp name (off + DIRENT)
          else
            let* c := namecmp name (de_name de) in
            if c =? 0 then let* i := iget (i_dev d) (de_inum de) in ret (Some (i, off))
            else dirlookup_loop f dp name (off + DIRENT)
    end
  else ret None.
Definition dirlookup (dp : nat) (name : list Z) : F (option (nat * Z)) :=
  let* d := gets (geti dp) in
  if negb (i_type d =? T_DIR) then panic "dirlookup not DIR"
  else dirlookup_loop (Z.to_nat (i_size d / DIRENT + 1)) dp name 0.

(** The loop of dirlink(): the offset of the first empty entry, and the
    entry read last. *)
Fixpoint dirlink_loop (fuel : nat) (dp : nat) (off : Z) (de : list Z) : F (Z * list Z) :=
  let* d := gets (geti dp) in
  if off <? i_size d then
    match fuel with
    | O => diverge
    | S f =>
        let* r := readi dp KernelDst off DIRENT in
        if negb (fst r =? DIRENT) then panic "dirlink read"
        else if de_inum (snd r) =? 0 then ret (off, snd r)
        else dirlink_loop f dp (off + DIRENT) (snd r)
    end
  else ret (off, de).

(** strncpy(de.name, name, DIRSIZ); de.inum = inum, on the bytes of de *)
Definition fill_dirent (name : list Z) (inum : Z) (de : list Z) : F (list Z) :=
  let* r := string_op (strncpy 2 (Z.of_nat (length de)) DIRSIZ) (de ++ name) in
  ret (st16 0 inum (take (length de) (snd r))).

Definition dirlink (dp : nat) (name : list Z) (inum : Z) (junk : list Z) : F Z :=
  let* found := dirlookup dp name in
  match found with
  | Some (ip, _) => iput ip ;; ret (-1)
  | None =>
      let* d := gets (geti dp) in
      let* r := dirlink_loop (Z.to_nat (i_size d / DIRENT + 1)) dp 0 junk in
      let* de := fill_dirent name inum (snd r) in
      let* w := writei dp (KernelSrc de) (fst r) DIRENT in
      if negb (w =? DIRENT) then ret (-1) else ret 0
  end.

(* ------------------------------------------------------------------ *)
(** ** Paths

   A path is the bytes from the pointer on, with the NUL; the name buffer
   has DIRSIZ bytes. *)

Definition SLASH : Z := 47.

Fixpoint skip_slashes (path : list Z) : list Z :=
  match path with
  | c :: path' => if c =? SLASH then skip_slashes path' else path
  | [] => []
  end.
(** while( *path != '/' && *path != 0) path++; the element and the rest *)
Fixpoint take_elem (path : list Z) : list Z * list Z :=
  match path with
  | c :: path' =>
      if (c =? SLASH) || (c =? 0) then ([], path)
      else let r := take_elem path' in (c :: fst r, snd r)
  | [] => ([], [])
  end.

(** The rest of the path and the name buffer; None is the null pointer. *)
Definition skipelem (path name : list Z) : option (list Z) * list Z :=
  let path := skip_slashes path in
  if default 0 (head path) =? 0 then (None, name)
  else
    let (elem, rest) := take_elem path in
    let name :=
      if Z.of_nat (length elem) >=? DIRSIZ then splice 0 (take (Z.to_nat DIRSIZ) elem) name
      else splice 0 (elem ++ [0]) name in
    (Some (skip_slashes rest), name).

Fixpoint namex_loop (fuel : nat) (ip : nat) (path : list Z) (parent : bool) (name : list Z) : F (option nat * list Z) :=
  let (rest, name) := skipelem path name in
  match rest with
  | None =>
      if parent then iput ip ;; ret (None, name) else ret (Some ip, name)
  | Some path =>
      match fuel with
      | O => diverge
      | S f =>
          ilock ip ;;
          let* d := gets (geti ip) in
          if negb (i_type d =? T_DIR) then iunlockput ip ;; ret (None, name)
          else if parent && (default 0 (head path) =? 0) then iunlock ip ;; ret (Some ip, name)
          else
            let* next := dirlookup ip name in
            match next with
            | None => iunlockput ip ;; ret (None, name)
            | Some (next, _) => iunlockput ip ;; namex_loop f next path parent name
            end
      end
  end.

Definition namex (path : list Z) (parent : bool) (name : list Z) : F (option nat * list Z) :=
  let* ip :=
    if default 0 (head path) =? SLASH then iget ROOTDEV ROOTINO
    else let* cwd := gets f_cwd in idup cwd in
  namex_loop (length path) ip path parent name.

Definition namei (path junk : list Z) : F (option nat) :=
  let* r := namex path false junk in ret (fst r).
Definition nameiparent (path name : list Z) : F (option nat * list Z) := namex path true name.

End fs.
