(* ===== verification/FsInv.v ===== *)
(** * Blocks, the free bitmap and the blocks of a file

   The invariant of the disk and of one file, and the effect of balloc():
   a block that was free becomes used and zero, and nothing else changes
   but its bitmap block. *)

From stdpp Require Import base numbers list gmap strings.
From Stdlib Require Import ZArith Lia.
From S2P Require Import Prelude Params Cmem KString Sleeplock UserMem Fs.

#[global] Arguments ld16 : simpl never.
#[global] Arguments ld32 : simpl never.
#[global] Arguments st16 : simpl never.
#[global] Arguments st32 : simpl never.
#[global] Arguments bit_used : simpl never.
#[global] Arguments bit_set : simpl never.
#[global] Arguments bit_clear : simpl never.
#[global] Arguments replicate : simpl nomatch.

(** Arithmetic with the constants of the disk layout. *)
Ltac fsz :=
  change MAXFILE with 268 in *; change NDIRECT with 12 in *; change NINDIRECT with 256 in *;
  change BSIZE with 1024 in *; change BPB with 8192 in *; change MAXOPBLOCKS with 10 in *;
  change IPB with 16 in *; change DINODE_SIZE with 64 in *.
Ltac fslia := fsz; first [lia | divlia].

Definition block_bytes : nat := Z.to_nat BSIZE.
Lemma block_bytes_Z : Z.of_nat block_bytes = BSIZE.
Proof. done. Qed.
Definition zero_block : list Z := replicate block_bytes 0.
#[global] Opaque block_bytes.

Definition is_block (d : list Z) : Prop := length d = block_bytes /\ Forall byte d.
Lemma is_block_zero : is_block zero_block.
Proof.
  split; [apply length_replicate|]. apply Forall_replicate. unfold byte. lia.
Qed.

(* ------------------------------------------------------------------ *)
(** ** Bits *)

Lemma bit_mask_pow bi : bit_mask bi = 2 ^ (bi mod 8).
Proof. unfold bit_mask. rewrite Z.shiftl_mul_pow2; [lia|]. apply Z.mod_pos_bound. lia. Qed.

Lemma bit_used_testbit bi d : bit_used bi d = Z.testbit (bit_byte bi d) (bi mod 8).
Proof.
  unfold bit_used. pose proof (Z.mod_pos_bound bi 8) as Hm. specialize (Hm ltac:(lia)).
  rewrite bit_mask_pow.
  destruct (Z.testbit (bit_byte bi d) (bi mod 8)) eqn:E.
  - apply negb_true_iff, Z.eqb_neq. intros E'. apply (f_equal (fun z => Z.testbit z (bi mod 8))) in E'.
    rewrite Z.land_spec, E, Z.pow2_bits_true, Z.bits_0 in E' by lia. done.
  - apply negb_false_iff, Z.eqb_eq, Z.bits_inj'. intros k Hk. rewrite Z.land_spec, Z.bits_0.
    destruct (decide (k = bi mod 8)) as [->|]; [by rewrite E|].
    rewrite Z.pow2_bits_false by lia. apply andb_false_r.
Qed.

Lemma bit_set_length bi d : length (bit_set bi d) = length d.
Proof. apply length_insert. Qed.

Lemma lor_byte a k : byte a -> 0 <= k < 8 -> byte (Z.lor a (2 ^ k)).
Proof.
  unfold byte. intros Ha Hk. split; [apply Z.lor_nonneg; split; [lia|apply Z.pow_nonneg; lia]|].
  assert (2 ^ k < 2 ^ 8) by (apply Z.pow_lt_mono_r; lia).
  destruct (decide (Z.lor a (2 ^ k) = 0)) as [->|Hne]; [lia|].
  change 256 with (2 ^ 8). apply Z.log2_lt_pow2.
  - pose proof (proj2 (Z.lor_nonneg a (2 ^ k))). lia.
  - rewrite Z.log2_lor by lia. apply Z.max_lub_lt.
    + destruct (decide (a = 0)) as [->|]; [done|]. apply Z.log2_lt_pow2; lia.
    + rewrite Z.log2_pow2; lia.
Qed.

Lemma bit_byte_range bi d : Forall byte d -> byte (bit_byte bi d).
Proof.
  intros Hd. unfold bit_byte. destruct (d !! Z.to_nat (bi / 8)) as [x|] eqn:E; simpl; [|unfold byte; lia].
  by eapply Forall_lookup_1 in Hd.
Qed.

Lemma bit_set_block bi d : is_block d -> is_block (bit_set bi d).
Proof.
  intros [Hl Hb]. split; [by rewrite bit_set_length|]. apply Forall_insert; [done|].
  rewrite bit_mask_pow. apply lor_byte; [by apply bit_byte_range|]. apply Z.mod_pos_bound. lia.
Qed.

(** Setting a bit of the bitmap marks that block and no other. *)
Lemma bit_used_set bi bi' d :
  0 <= bi < BPB -> 0 <= bi' < BPB -> length d = block_bytes ->
  bit_used bi' (bit_set bi d) = if decide (bi' = bi) then true else bit_used bi' d.
Proof.
  intros Hb Hb' Hl. rewrite !bit_used_testbit. unfold bit_set.
  assert (Z.to_nat (bi / 8) < length d)%nat as Hlt.
  { rewrite Hl. apply Nat2Z.inj_lt. rewrite block_bytes_Z. unfold BPB, BSIZE in *. divlia. }
  unfold bit_byte at 1. destruct (decide (bi' / 8 = bi / 8)) as [E|Hne].
  - rewrite E, list_lookup_insert_eq by done. simpl. rewrite Z.lor_spec, bit_mask_pow.
    assert (bit_byte bi d = bit_byte bi' d) as -> by (unfold bit_byte; by rewrite E).
    pose proof (Z.mod_pos_bound bi 8). pose proof (Z.mod_pos_bound bi' 8).
    case_decide as E'.
    + rewrite E', Z.pow2_bits_true by lia. apply orb_true_r.
    + rewrite Z.pow2_bits_false by divlia. apply orb_false_r.
  - rewrite list_lookup_insert_ne by (unfold BPB, BSIZE in *; divlia).
    rewrite decide_False by (intros ->; done). done.
Qed.

(* ------------------------------------------------------------------ *)
(** ** The disk *)

Section fs.
Context {U : Type} `{UserMem U} `{WakeBudget}.
Implicit Types s : fs U.

Definition blkS (b : Z) s : list Z := blk b (f_blk s).
Definition held s : list Z := bk_held (f_blk s).
Definition logged s : list Z := bk_logged (f_blk s).
Definition used s (b : Z) : bool := bit_used (b mod BPB) (blkS (BBLOCK b (f_sb s)) s).

(** Blocks of the bitmap and of the inodes. *)
Definition bitmap_block s (b : Z) : Prop := exists x, 0 <= x < sb_size (f_sb s) /\ b = BBLOCK x (f_sb s).
Definition inode_block s (b : Z) : Prop := exists n, 0 <= n < sb_ninodes (f_sb s) /\ b = IBLOCK n (f_sb s).

Record disk_ok s : Prop := {
  dk_block b : is_block (blkS b s);
  dk_size : 0 <= sb_size (f_sb s) < 2 ^ 31;
  dk_disj b : bitmap_block s b -> inode_block s b -> False;
  dk_free b : 0 <= b < sb_size (f_sb s) -> used s b = false ->
    b <> 0 /\ ~ bitmap_block s b /\ ~ inode_block s b
}.

(** ** One edit of a block *)

Definition edit (b : Z) (d : list Z) s : fs U := set_blocks (fun k => Fs.log_add b (set_blk b d k)) s.

Lemma blkS_edit b d b' s : blkS b' (edit b d s) = if decide (b' = b) then d else blkS b' s.
Proof.
  unfold blkS, edit, blk. simpl. case_decide as E.
  - subst. by rewrite lookup_insert_eq.
  - by rewrite lookup_insert_ne by done.
Qed.

Lemma list_difference_cons (b : Z) h : b ∉ h -> list_difference (b :: h) [b] = h.
Proof.
  intros Hb. simpl. case_decide as E; [clear E|by destruct E; apply list_elem_of_here].
  induction h as [|x h IH]; simpl; [done|]. rewrite elem_of_cons in Hb.
  case_decide as E; [rewrite list_elem_of_singleton in E; intuition congruence|].
  rewrite IH; intuition.
Qed.

Lemma bread_Ok b s : b ∉ held s -> bread ROOTDEV b s = Ok b (set_blocks (set_held (b :: held s)) s).
Proof. intros Hb. unfold bread. simpl. by rewrite decide_False. Qed.

Lemma brelse_Ok b h s : held s = b :: h -> b ∉ h -> brelse b s = Ok tt (set_blocks (set_held h) s).
Proof.
  intros E Hb. unfold brelse. unfold held in E. rewrite E.
  rewrite decide_True by apply list_elem_of_here. by rewrite list_difference_cons.
Qed.

(** The log takes one more block, unless it has it already. *)
Definition add_logged (b : Z) (l : list Z) : list Z := if decide (b ∈ l) then l else l ++ [b].
Lemma length_add_logged b l :
  length (add_logged b l) = (length l + if decide (b ∈ l) then 0 else 1)%nat.
Proof. unfold add_logged. case_decide; [lia|]. rewrite length_app. simpl. lia. Qed.
Lemma elem_of_add_logged b l x : x ∈ add_logged b l <-> x = b \/ x ∈ l.
Proof. unfold add_logged. case_decide; [|rewrite elem_of_app, list_elem_of_singleton]; intuition congruence. Qed.

Definition fits (b : Z) s : Prop := Z.of_nat (length (add_logged b (logged s))) <= MAXOPBLOCKS.
Definition in_op s : Prop := 1 <= bk_ops (f_blk s).

Lemma log_write_Ok b s : in_op s -> fits b s -> log_write b s = Ok tt (set_blocks (log_add b) s).
Proof.
  intros Hop Hf. unfold log_write. unfold in_op, fits, add_logged, logged in *. simpl.
  rewrite (proj2 (Z.ltb_ge _ _)) by lia.
  rewrite Z.gtb_ltb, (proj2 (Z.ltb_ge _ _)) by done. by destruct s.
Qed.

(** A block that is held is changed, logged and released. *)
Lemma put_log_release b d h s :
  in_op s -> fits b s -> held s = b :: h -> b ∉ h ->
  (bput b d ;; log_write b ;; brelse b) s = Ok tt (set_blocks (set_held h) (edit b d s)).
Proof.
  intros Hop Hf Hh Hn. unfold bput.
  erewrite bind_Ok by done. erewrite bind_Ok by by apply log_write_Ok.
  by erewrite brelse_Ok.
Qed.

Lemma held_cancel h s : held s = h -> set_blocks (set_held h) s = s.
Proof. intros <-. by destruct s as [? []]. Qed.

Lemma edit_Ok b (f : list Z -> list Z) s :
  b ∉ held s -> in_op s -> fits b s ->
  (let* bp := bread ROOTDEV b in let* d := bdata bp in bput bp (f d) ;; log_write bp ;; brelse bp) s =
    Ok tt (edit b (f (blkS b s)) s).
Proof.
  intros Hb Hop Hf. erewrite bind_Ok by by apply bread_Ok. unfold bdata. erewrite bind_Ok by done.
  by erewrite put_log_release.
Qed.

(* ------------------------------------------------------------------ *)
(** ** balloc() *)

Lemma scan_bits_spec n b size bi d : 0 <= bi ->
  match scan_bits n b size bi d with
  | Some k => bi <= k < bi + Z.of_nat n /\ b + k < size /\ bit_used k d = false
  | None => forall k, bi <= k < bi + Z.of_nat n -> b + k < size -> bit_used k d = true
  end.
Proof.
  revert bi. induction n as [|n IH]; intros bi Hbi; simpl; [intros; lia|].
  destruct (Z.ltb_spec (b + bi) size) as [Hlt|Hge]; [|intros; lia].
  destruct (bit_used bi d) eqn:Eu; [|split; [lia|done]].
  specialize (IH (bi + 1)). destruct (scan_bits n b size (bi + 1) d) as [k|].
  - destruct IH as (? & ? & ?); [lia|]. split; [lia|done].
  - intros k Hk Hs. destruct (decide (k = bi)) as [->|]; [done|]. apply IH; lia.
Qed.

(** The state after the allocation of [a]. *)
Definition alloc_blk (a : Z) s : fs U :=
  let bb := BBLOCK a (f_sb s) in
  edit a zero_block (edit bb (bit_set (a mod BPB) (blkS bb s)) s).

Definition free_block s (a : Z) : Prop := 0 <= a < sb_size (f_sb s) /\ used s a = false.

(** Nothing stops balloc(): no buffer it uses is held, and the log has
    room for two more blocks. *)
Definition can_alloc s : Prop :=
  in_op s /\ Z.of_nat (length (logged s)) + 2 <= MAXOPBLOCKS /\
  (forall b, b ∈ held s -> ~ bitmap_block s b) /\
  (forall b, b ∈ held s -> 0 <= b < sb_size (f_sb s) -> used s b = true).

Lemma fits_room b s : Z.of_nat (length (logged s)) + 1 <= MAXOPBLOCKS -> fits b s.
Proof. intros. unfold fits. rewrite length_add_logged. case_decide; lia. Qed.

Lemma free_block_facts s a : disk_ok s -> free_block s a ->
  0 < a < sb_size (f_sb s) /\ ~ bitmap_block s a /\ ~ inode_block s a /\ a <> BBLOCK a (f_sb s).
Proof.
  intros Hd [Ha Hu]. destruct (dk_free s Hd a Ha Hu) as (Hz & Hb & Hi).
  split; [lia|]. split; [done|]. split; [done|]. intros E. apply Hb. by exists a.
Qed.

Lemma BBLOCK_add b k sb : b mod BPB = 0 -> 0 <= k < BPB -> BBLOCK (b + k) sb = BBLOCK b sb /\ (b + k) mod BPB = k.
Proof. intros. unfold BBLOCK, BPB, BSIZE in *. split; divlia. Qed.

Lemma balloc_take s a :
  disk_ok s -> can_alloc s -> free_block s a ->
  (let* bp := bread ROOTDEV (BBLOCK a (f_sb s)) in
   let* d := bdata bp in
   bput bp (bit_set (a mod BPB) d) ;; log_write bp ;; brelse bp) s =
    Ok tt (edit (BBLOCK a (f_sb s)) (bit_set (a mod BPB) (blkS (BBLOCK a (f_sb s)) s)) s) /\
  bzero ROOTDEV a (edit (BBLOCK a (f_sb s)) (bit_set (a mod BPB) (blkS (BBLOCK a (f_sb s)) s)) s) =
    Ok tt (alloc_blk a s).
Proof.
  intros Hd (Hop & Hroom & Hh & Hu) Hf.
  destruct (free_block_facts s a Hd Hf) as (Ha & Hnb & Hni & Hne).
  assert (BBLOCK a (f_sb s) ∉ held s) as Hbb.
  { intros Hin. apply (Hh _ Hin). exists a. split; [lia|done]. }
  split; [apply edit_Ok; [done|done|apply fits_room; lia]|].
  unfold bzero. set (s1 := edit _ _ s).
  assert (a ∉ held s1) as Hah.
  { intros Hin. destruct Hf as [? Hf]. specialize (Hu a Hin). rewrite Hf in Hu. specialize (Hu ltac:(lia)). done. }
  assert (fits a s1) as Hfit.
  { apply fits_room. change (logged s1) with (add_logged (BBLOCK a (f_sb s)) (logged s)).
    rewrite length_add_logged. case_decide; lia. }
  erewrite bind_Ok by by apply bread_Ok.
  by erewrite put_log_release.
Qed.

Definition disk_full s : Prop := forall b, 0 <= b < sb_size (f_sb s) -> used s b = true.

Lemma balloc_loop_spec fuel b s :
  disk_ok s -> can_alloc s -> b mod BPB = 0 -> 0 <= b ->
  (forall x, 0 <= x < b -> x < sb_size (f_sb s) -> used s x = true) ->
  sb_size (f_sb s) <= b + Z.of_nat fuel * BPB ->
  (balloc_loop fuel ROOTDEV b s = Ok 0 s /\ disk_full s) \/
  (exists a, balloc_loop fuel ROOTDEV b s = Ok a (alloc_blk a s) /\ free_block s a).
Proof.
  intros Hd Hc. revert b. induction fuel as [|fuel IH]; intros b Hmod Hb Hall Hfuel; cbn [balloc_loop];
    (erewrite bind_Ok by done); cbv beta; destruct (Z.ltb_spec b (sb_size (f_sb s))) as [Hlt|Hge];
    try (left; split; [done|]; intros x Hx; apply Hall; lia); [lia|].
  assert (BBLOCK b (f_sb s) ∉ held s) as Hbb.
  { intros Hin. destruct Hc as (_ & _ & Hh & _). apply (Hh _ Hin). exists b. split; [lia|done]. }
  pose proof (scan_bits_spec (Z.to_nat BPB) b (sb_size (f_sb s)) 0 (blkS (BBLOCK b (f_sb s)) s) ltac:(lia)) as Hscan.
  destruct (scan_bits (Z.to_nat BPB) b (sb_size (f_sb s)) 0 (blkS (BBLOCK b (f_sb s)) s)) as [k|] eqn:Es.
  - right. exists (b + k). destruct Hscan as (Hk & Hsz & Hbit).
    destruct (BBLOCK_add b k (f_sb s) Hmod ltac:(unfold BPB, BSIZE in *; lia)) as [E1 E2].
    assert (free_block s (b + k)) as Hf by (split; [lia|]; unfold used; by rewrite E1, E2).
    split; [|done]. destruct (balloc_take s (b + k) Hd Hc Hf) as [T1 T2]. rewrite E1, E2 in T1, T2.
    unfold bind at 1 in T1. unfold bind at 1. rewrite bread_Ok in T1 |- * by done.
    cbn [out_bind] in T1 |- *. unfold bdata in T1 |- *. unfold bind at 1 in T1. unfold bind at 1.
    cbn [gets out_bind] in T1 |- *. unfold gets in T1 |- *. cbn [out_bind] in T1 |- *.
    change (blk (BBLOCK b (f_sb s)) (f_blk (set_blocks (set_held (BBLOCK b (f_sb s) :: held s)) s)))
      with (blkS (BBLOCK b (f_sb s)) s) in T1 |- *.
    rewrite Es. cbv iota beta.
    apply bind_Ok_inv in T1 as (u1 & t1 & P1 & T1). erewrite bind_Ok by exact P1.
    apply bind_Ok_inv in T1 as (u2 & t2 & P2 & T1). erewrite bind_Ok by exact P2.
    erewrite bind_Ok by exact T1. erewrite bind_Ok by exact T2. done.
  - erewrite bind_Ok by by apply bread_Ok. unfold bdata. erewrite bind_Ok by done. cbv beta.
    change (blk (BBLOCK b (f_sb s)) (f_blk (set_blocks (set_held (BBLOCK b (f_sb s) :: held s)) s)))
      with (blkS (BBLOCK b (f_sb s)) s).
    rewrite Es. erewrite bind_Ok by by eapply brelse_Ok.
    replace (set_blocks (set_held (held s)) (set_blocks (set_held (BBLOCK b (f_sb s) :: held s)) s)) with s
      by (by destruct s as [? []]).
    apply IH; [unfold BPB, BSIZE in *; divlia|unfold BPB, BSIZE; lia| |lia].
    intros x Hx Hsz. destruct (decide (x < b)) as [|Hxb]; [apply Hall; lia|].
    destruct (BBLOCK_add b (x - b) (f_sb s) Hmod ltac:(lia)) as [E1 E2].
    replace (b + (x - b)) with x in E1, E2 by lia. unfold used. rewrite E1, E2. apply Hscan; [|lia].
    unfold BPB, BSIZE in *. lia.
Qed.

Lemma balloc_spec s : disk_ok s -> can_alloc s ->
  (balloc ROOTDEV s = Ok 0 s /\ disk_full s) \/
  (exists a, balloc ROOTDEV s = Ok a (alloc_blk a s) /\ free_block s a).
Proof.
  intros Hd Hc. unfold balloc. erewrite bind_Ok by done.
  apply balloc_loop_spec; [done|done|done|lia|lia|]. pose proof (dk_size s Hd). unfold BPB, BSIZE in *. divlia.
Qed.

(** What the allocation changes. *)
Lemma blkS_alloc a b s : disk_ok s -> free_block s a ->
  blkS b (alloc_blk a s) =
    if decide (b = a) then zero_block
    else if decide (b = BBLOCK a (f_sb s)) then bit_set (a mod BPB) (blkS b s) else blkS b s.
Proof.
  intros Hd Hf. unfold alloc_blk. rewrite !blkS_edit. case_decide; [done|]. case_decide; [by subst|done].
Qed.

Lemma used_alloc a b s : disk_ok s -> free_block s a -> 0 <= b < sb_size (f_sb s) ->
  used (alloc_blk a s) b = if decide (b = a) then true else used s b.
Proof.
  intros Hd Hf Hb. pose proof Hf as [Ha _]. destruct (free_block_facts s a Hd Hf) as (_ & Hnb & _ & Hne).
  unfold used. change (f_sb (alloc_blk a s)) with (f_sb s). rewrite blkS_alloc by done.
  rewrite decide_False by (intros E; apply Hnb; by exists b).
  destruct (decide (BBLOCK b (f_sb s) = BBLOCK a (f_sb s))) as [E|Hn].
  - rewrite bit_used_set; [|apply Z.mod_pos_bound; unfold BPB, BSIZE; lia..|apply (dk_block s Hd)].
    destruct (decide (b = a)) as [->|Hba].
    + by rewrite decide_True.
    + rewrite decide_False; [done|]. intros E'. apply Hba. unfold BBLOCK, BPB, BSIZE in *. divlia.
  - rewrite decide_False; [done|]. by intros ->.
Qed.

Lemma disk_ok_alloc a s : disk_ok s -> free_block s a -> disk_ok (alloc_blk a s).
Proof.
  intros Hd Hf. split.
  - intros b. rewrite blkS_alloc by done. case_decide; [apply is_block_zero|].
    case_decide; [apply bit_set_block|]; apply (dk_block s Hd).
  - apply (dk_size s Hd).
  - apply (dk_disj s Hd).
  - intros b Hb. rewrite used_alloc by done. case_decide; [done|]. by apply (dk_free s Hd).
Qed.

End fs.
