(* ===== verification/FsMap.v ===== *)
(** * The blocks of a file and bmap()

   A file's bytes, found through the direct and indirect block numbers of
   its inode.  bmap() may add zero blocks to a file; it changes no byte of
   it, and nothing of any other file. *)

From stdpp Require Import base numbers list gmap strings.
From Stdlib Require Import ZArith Lia.
From S2P Require Import Prelude Params Cmem KString Sleeplock UserMem Fs FsInv.

Section fs.
Context {U : Type} `{UserMem U} `{WakeBudget}.
Implicit Types s : fs U.

Definition IND : nat := Z.to_nat NDIRECT.
Definition iaddr s (i : nat) : Z := addr_of IND (geti i s).
(** The block number of block [bn] of a file, 0 if it has none. *)
Definition baddr s (i : nat) (bn : Z) : Z :=
  if bn <? NDIRECT then addr_of (Z.to_nat bn) (geti i s)
  else if iaddr s i =? 0 then 0 else ld32 (Z.to_nat (4 * (bn - NDIRECT))) (blkS (iaddr s i) s).
Definition owns s (i : nat) (a : Z) : Prop :=
  a <> 0 /\ (a = iaddr s i \/ exists bn, 0 <= bn < MAXFILE /\ baddr s i bn = a).

(** Byte [o] of a file; a block it does not have reads as zeros. *)
Definition fbyte s (i : nat) (o : Z) : Z :=
  if baddr s i (o / BSIZE) =? 0 then 0
  else default 0 (blkS (baddr s i (o / BSIZE)) s !! Z.to_nat (o mod BSIZE)).
Definition contents s (i : nat) : list Z :=
  map (fun k => fbyte s i (Z.of_nat k)) (seq 0 (Z.to_nat (i_size (geti i s)))).

Record file_ok s (i : nat) : Prop := {
  fi_in : (i < length (f_itab s))%nat;
  fi_dev : i_dev (geti i s) = ROOTDEV;
  fi_inum : 0 <= i_inum (geti i s) < sb_ninodes (f_sb s);
  fi_addrs : length (i_addrs (geti i s)) = S IND;
  fi_own a : owns s i a -> 0 < a < sb_size (f_sb s) /\ used s a = true /\ ~ bitmap_block s a /\ ~ inode_block s a;
  fi_inj bn bn' : 0 <= bn < MAXFILE -> 0 <= bn' < MAXFILE -> baddr s i bn <> 0 ->
    baddr s i bn = baddr s i bn' -> bn = bn';
  fi_ind bn : 0 <= bn < MAXFILE -> baddr s i bn <> 0 -> baddr s i bn <> iaddr s i;
  fi_size : 0 <= i_size (geti i s) <= MAXFILE * BSIZE;
  fi_full bn : 0 <= bn -> bn * BSIZE < i_size (geti i s) -> baddr s i bn <> 0
}.

(** How the state may change while file [i] is written. *)
Record frame (i : nat) s s' : Prop := {
  fr_sb : f_sb s' = f_sb s;
  fr_misc : f_itlock s' = f_itlock s /\ f_pid s' = f_pid s /\ f_cwd s' = f_cwd s /\ f_woken s' = f_woken s;
  fr_held : held s' = held s;
  fr_ops : bk_ops (f_blk s') = bk_ops (f_blk s);
  fr_view : same_user (f_user s) (f_user s');
  fr_len : length (f_itab s') = length (f_itab s);
  fr_other j : j <> i -> geti j s' = geti j s;
  fr_ino : let ip := geti i s in let ip' := geti i s' in
    ip' = Inode (i_dev ip) (i_inum ip) (i_ref ip) (i_lock ip) (i_valid ip) (i_type ip) (i_major ip) (i_minor ip)
      (i_nlink ip) (i_size ip') (i_addrs ip');
  fr_used b : 0 <= b < sb_size (f_sb s) -> used s b = true -> used s' b = true;
  fr_new b : 0 <= b < sb_size (f_sb s) -> used s' b = true -> used s b = true \/ owns s' i b;
  fr_ind : iaddr s i <> 0 -> iaddr s' i = iaddr s i;
  fr_keep bn : 0 <= bn < MAXFILE -> baddr s i bn <> 0 -> baddr s' i bn = baddr s i bn;
  fr_fresh a : owns s' i a -> owns s i a \/ free_block s a;
  fr_block b : ~ bitmap_block s b -> b <> IBLOCK (i_inum (geti i s)) (f_sb s) -> ~ owns s i b -> ~ free_block s b ->
    blkS b s' = blkS b s
}.

Lemma frame_refl i s : frame i s s.
Proof. split; try done; auto. by destruct (geti i s). Qed.

Lemma frame_owns i s s' a : frame i s s' -> owns s i a -> owns s' i a.
Proof.
  intros F [Ha [->|(bn & Hbn & E)]]; (split; [done|]).
  - left. symmetry. by apply (fr_ind _ _ _ F).
  - right. exists bn. split; [done|]. rewrite (fr_keep _ _ _ F); congruence.
Qed.

Lemma frame_free i s s' a : frame i s s' -> free_block s' a -> free_block s a.
Proof.
  intros F [Ha Hu]. rewrite (fr_sb _ _ _ F) in Ha. split; [done|].
  destruct (used s a) eqn:E; [|done]. apply (fr_used _ _ _ F) in E; congruence.
Qed.

Lemma bitmap_block_sb s s' b : f_sb s' = f_sb s -> bitmap_block s' b <-> bitmap_block s b.
Proof. intros E. unfold bitmap_block. by rewrite E. Qed.
Lemma inode_block_sb s s' b : f_sb s' = f_sb s -> inode_block s' b <-> inode_block s b.
Proof. intros E. unfold inode_block. by rewrite E. Qed.

Lemma frame_trans i s s' s'' : frame i s s' -> frame i s' s'' -> frame i s s''.
Proof.
  intros F G. pose proof (fr_sb _ _ _ F) as Esb. pose proof (fr_ino _ _ _ F) as Ei. cbv zeta in Ei.
  pose proof (fr_ino _ _ _ G) as Ei'. cbv zeta in Ei'. split.
  - rewrite (fr_sb _ _ _ G). done.
  - destruct (fr_misc _ _ _ F) as (-> & -> & -> & ->) || idtac. destruct (fr_misc _ _ _ F), (fr_misc _ _ _ G). intuition congruence.
  - rewrite (fr_held _ _ _ G). apply F.
  - rewrite (fr_ops _ _ _ G). apply F.
  - eapply same_user_trans; [apply F|apply G].
  - rewrite (fr_len _ _ _ G). apply F.
  - intros j Hj. rewrite (fr_other _ _ _ G) by done. by apply F.
  - cbv zeta. rewrite Ei' at 1. rewrite Ei. done.
  - intros b Hb Hu. apply (fr_used _ _ _ G); [by rewrite Esb|]. by apply F.
  - intros b Hb Hu. apply (fr_new _ _ _ G) in Hu as [Hu|]; [|by right|by rewrite Esb].
    apply (fr_new _ _ _ F) in Hu as [|]; [by left| |done]. right. by eapply frame_owns.
  - intros Hn. rewrite (fr_ind _ _ _ G); [by apply F|]. by rewrite (fr_ind _ _ _ F).
  - intros bn Hbn Hn. rewrite (fr_keep _ _ _ G); [by apply F|done|]. by rewrite (fr_keep _ _ _ F).
  - intros a Ha. apply (fr_fresh _ _ _ G) in Ha as [Ha|Ha]; [by apply F|]. right. by eapply frame_free.
  - intros b Hb Hi Ho Hf. rewrite (fr_block _ _ _ G); [by apply F| | | |].
    + by rewrite (bitmap_block_sb s).
    + rewrite Ei, Esb. done.
    + intros [?|?]%(fr_fresh _ _ _ F); done.
    + intros ?%(frame_free _ _ _ _ F). done.
Qed.

(** Another file, none of whose blocks belongs to [i], stays as it is. *)
Lemma baddr_other i j s s' : frame i s s' -> disk_ok s -> file_ok s i -> j <> i -> file_ok s j ->
  (forall a, owns s i a -> owns s j a -> False) ->
  iaddr s' j = iaddr s j /\ (forall bn, 0 <= bn < MAXFILE -> baddr s' j bn = baddr s j bn) /\
  (forall a, owns s j a -> blkS a s' = blkS a s).
Proof.
  intros F Hd Hi Hj Hfj Hdisj.
  assert (forall a, owns s j a -> blkS a s' = blkS a s) as Hblk.
  { intros a Ha. destruct (fi_own _ _ Hfj a Ha) as (Ha0 & Hu & Hb & Hin).
    apply (fr_block _ _ _ F); [done| | |].
    - intros ->. apply Hin. exists (i_inum (geti i s)). split; [apply (fi_inum _ _ Hi)|done].
    - eauto.
    - intros [_ ?]. congruence. }
  assert (iaddr s' j = iaddr s j) as Hbind by (unfold iaddr; by rewrite (fr_other _ _ _ F)).
  split; [done|]. split; [|done]. intros bn Hbn. unfold baddr. rewrite Hbind, (fr_other _ _ _ F) by done.
  destruct (bn <? NDIRECT); [done|]. destruct (Z.eqb_spec (iaddr s j) 0) as [|Hne]; [done|].
  rewrite Hblk; [done|]. split; [done|]. by left.
Qed.

Lemma fbyte_range s i o : disk_ok s -> byte (fbyte s i o).
Proof.
  intros Hd. unfold fbyte. destruct (_ =? 0); [unfold byte; lia|].
  destruct (blkS _ s !! _) as [x|] eqn:E; simpl; [|unfold byte; lia].
  eapply Forall_lookup_1; [apply (dk_block s Hd)|exact E].
Qed.

Lemma contents_other i j s s' : frame i s s' -> disk_ok s -> file_ok s i -> j <> i -> file_ok s j ->
  (forall a, owns s i a -> owns s j a -> False) -> contents s' j = contents s j.
Proof.
  intros F Hd Hi Hj Hfj Hdisj. destruct (baddr_other i j s s' F Hd Hi Hj Hfj Hdisj) as (_ & Ha & Hb).
  unfold contents. rewrite (fr_other _ _ _ F) by done. apply list_fmap_ext. intros k n Hk.
  apply lookup_seq in Hk as [-> Hk]. pose proof (fi_size _ _ Hfj). unfold fbyte. simpl.
  assert (0 <= Z.of_nat k / BSIZE < MAXFILE) as Hr by (fslia).
  rewrite Ha by done. destruct (Z.eqb_spec (baddr s j (Z.of_nat k / BSIZE)) 0) as [|Hne]; [done|].
  rewrite Hb; [done|]. split; [done|]. right. by eexists.
Qed.

(* ------------------------------------------------------------------ *)
(** ** Adding a block *)

Lemma geti_alter i j f s : (i < length (f_itab s))%nat ->
  geti j (set_itab (alter f i) s) = if decide (j = i) then f (geti j s) else geti j s.
Proof.
  intros Hi. unfold geti, set_itab. simpl. case_decide as E.
  - subst. rewrite list_lookup_alter_eq. by destruct (lookup_lt_is_Some_2 _ _ Hi) as [x ->].
  - by rewrite list_lookup_alter_ne.
Qed.

Lemma addr_of_set k k' a ip : (k < length (i_addrs ip))%nat ->
  addr_of k' (set_addr k a ip) = if decide (k' = k) then a else addr_of k' ip.
Proof.
  intros Hk. unfold addr_of, set_addr. simpl. case_decide as E.
  - subst. by rewrite list_lookup_insert_eq.
  - by rewrite list_lookup_insert_ne.
Qed.

Lemma ld32_zero k : ld32 k zero_block = 0.
Proof.
  unfold ld32, zero_block. generalize 4%nat. intros n. revert k. induction n as [|n IH]; intros k; simpl; [done|].
  rewrite IH. destruct (decide (k < block_bytes)%nat).
  - by rewrite lookup_replicate_2.
  - rewrite lookup_ge_None_2; [done|]. rewrite length_replicate. lia.
Qed.

Lemma zero_block_byte k : default 0 (zero_block !! k) = 0.
Proof.
  unfold zero_block. destruct (decide (k < block_bytes)%nat).
  - by rewrite lookup_replicate_2.
  - rewrite lookup_ge_None_2; [done|]. rewrite length_replicate. lia.
Qed.

(** A file that may only have grown by fresh zero blocks: what a step that
    adds one block has to show. *)
Record grows (i : nat) s s' (a : Z) : Prop := {
  gw_blk b : blkS b s' = blkS b (alloc_blk a s) \/ b = iaddr s i /\ b <> 0;
  gw_frame_f : f_sb s' = f_sb s /\ f_itlock s' = f_itlock s /\ f_pid s' = f_pid s /\ f_cwd s' = f_cwd s /\
    f_woken s' = f_woken s /\ f_user s' = f_user s /\ held s' = held s /\ bk_ops (f_blk s') = bk_ops (f_blk s);
  gw_len : length (f_itab s') = length (f_itab s);
  gw_other j : j <> i -> geti j s' = geti j s;
  gw_ino : geti i s' = Inode (i_dev (geti i s)) (i_inum (geti i s)) (i_ref (geti i s)) (i_lock (geti i s))
    (i_valid (geti i s)) (i_type (geti i s)) (i_major (geti i s)) (i_minor (geti i s)) (i_nlink (geti i s))
    (i_size (geti i s)) (i_addrs (geti i s'));
  gw_addrs : length (i_addrs (geti i s')) = S IND;
  gw_ind : iaddr s' i = iaddr s i \/ iaddr s i = 0 /\ iaddr s' i = a;
  gw_baddr bn : 0 <= bn < MAXFILE -> baddr s' i bn = baddr s i bn \/ baddr s i bn = 0 /\ baddr s' i bn = a;
  gw_one bn bn' : 0 <= bn < MAXFILE -> 0 <= bn' < MAXFILE -> baddr s' i bn = a -> baddr s' i bn' = a -> bn = bn';
  gw_not_ind bn : 0 <= bn < MAXFILE -> baddr s' i bn = a -> iaddr s' i <> a;
  gw_owned : owns s' i a;
  gw_block b : is_block (blkS b s')
}.

Section grow.
Context (i : nat) (s s' : fs U) (a : Z).
Hypotheses (Hd : disk_ok s) (Hi : file_ok s i) (Hf : free_block s a) (G : grows i s s' a).

Lemma grow_sb : f_sb s' = f_sb s.
Proof. apply G. Qed.

Lemma grow_not_owned : ~ owns s i a.
Proof. intros Ho. apply (fi_own _ _ Hi) in Ho as (_ & Hu & _). destruct Hf. congruence. Qed.

Lemma grow_used b : 0 <= b < sb_size (f_sb s) -> used s' b = if decide (b = a) then true else used s b.
Proof.
  intros Hb. rewrite <- used_alloc by done. unfold used. rewrite grow_sb. change (f_sb (alloc_blk a s)) with (f_sb s).
  destruct (gw_blk _ _ _ _ G (BBLOCK b (f_sb s))) as [->|[E Hne]]; [done|].
  destruct (fi_own _ _ Hi (iaddr s i)) as (_ & _ & Hnb & _); [split; [congruence|by left]|].
  destruct Hnb. rewrite <- E. by exists b.
Qed.

Lemma grow_disk_ok : disk_ok s'.
Proof.
  split.
  - apply G.
  - rewrite grow_sb. apply Hd.
  - intros b. rewrite (bitmap_block_sb s), (inode_block_sb s) by apply grow_sb. apply Hd.
  - intros b. rewrite grow_sb. intros Hb. rewrite grow_used by done. case_decide; [done|].
    rewrite (bitmap_block_sb s), (inode_block_sb s) by apply grow_sb. by apply Hd.
Qed.

Lemma grow_owns b : owns s' i b -> owns s i b \/ b = a.
Proof.
  intros [Hb [->|(bn & Hbn & E)]].
  - destruct (gw_ind _ _ _ _ G) as [E|[_ E]]; [left|by right]. rewrite E in *. split; [done|by left].
  - destruct (gw_baddr _ _ _ _ G bn Hbn) as [E'|[_ E']]; [left|right; congruence].
    split; [done|]. right. exists bn. split; [done|congruence].
Qed.

Lemma grow_file_ok : file_ok s' i.
Proof.
  pose proof (gw_ino _ _ _ _ G) as Ei. destruct (free_block_facts s a Hd Hf) as (Ha & Hnb & Hni & _). split.
  - rewrite (gw_len _ _ _ _ G). apply Hi.
  - rewrite Ei. apply Hi.
  - rewrite Ei, grow_sb. apply Hi.
  - apply G.
  - intros b Hb. rewrite (bitmap_block_sb s), (inode_block_sb s), grow_sb by apply grow_sb.
    apply grow_owns in Hb as [Hb| ->].
    + destruct (fi_own _ _ Hi b Hb) as (Hr & Hu & ?). split; [done|]. split; [|done].
      rewrite grow_used by lia. by case_decide.
    + split; [done|]. split; [|done]. rewrite grow_used by lia. by rewrite decide_True.
  - intros bn bn' Hbn Hbn' Hne E. destruct (gw_baddr _ _ _ _ G bn Hbn) as [E1|[E1 E1']].
    + destruct (gw_baddr _ _ _ _ G bn' Hbn') as [E2|[E2 E2']]; [apply (fi_inj _ _ Hi); congruence|].
      destruct grow_not_owned. split; [lia|]. right. exists bn. split; [done|congruence].
    + apply (gw_one _ _ _ _ G); congruence.
  - intros bn Hbn Hne. destruct (gw_baddr _ _ _ _ G bn Hbn) as [E1|[E1 E1']].
    + destruct (gw_ind _ _ _ _ G) as [E2|[E2 E2']].
      * rewrite E1, E2. apply (fi_ind _ _ Hi); congruence.
      * rewrite E2'. intros E. destruct grow_not_owned. split; [lia|]. right. exists bn. split; [done|congruence].
    + rewrite E1'. intros E. by apply (gw_not_ind _ _ _ _ G bn Hbn E1').
  - rewrite Ei. apply Hi.
  - intros bn Hbn. rewrite Ei. simpl. intros Hs. pose proof (fi_full _ _ Hi bn Hbn Hs) as Hne.
    pose proof (fi_size _ _ Hi). destruct (gw_baddr _ _ _ _ G bn) as [E|[E _]]; [unfold BSIZE in *; lia|congruence..].
Qed.

Lemma grow_frame : frame i s s'.
Proof.
  destruct (gw_frame_f _ _ _ _ G) as (E1 & E2 & E3 & E4 & E5 & E6 & E7 & E8).
  pose proof (gw_ino _ _ _ _ G) as Ei. split; try done.
  - by rewrite E6.
  - apply G.
  - apply G.
  - cbv zeta. rewrite Ei. done.
  - intros b Hb Hu. rewrite grow_used by done. by case_decide.
  - intros b Hb. rewrite grow_used by done. case_decide as E; [|by left]. subst. right. apply G.
  - intros Hne. by destruct (gw_ind _ _ _ _ G) as [?|[? _]].
  - intros bn Hbn Hne. by destruct (gw_baddr _ _ _ _ G bn Hbn) as [?|[? _]].
  - intros b [?| ->]%grow_owns; auto.
  - intros b Hnb Hib Ho Hnf. destruct (gw_blk _ _ _ _ G b) as [->|[-> Hne]].
    + rewrite blkS_alloc by done. rewrite decide_False by (by intros ->). rewrite decide_False; [done|].
      intros ->. apply Hnb. exists a. split; [apply Hf|done].
    + destruct Ho. split; [done|by left].
Qed.

Lemma grow_fbyte o : 0 <= o < MAXFILE * BSIZE -> fbyte s' i o = fbyte s i o.
Proof.
  intros Ho. unfold fbyte. assert (0 <= o / BSIZE < MAXFILE) as Hr by (fslia).
  destruct (gw_baddr _ _ _ _ G _ Hr) as [E|[E E']].
  - rewrite E. destruct (Z.eqb_spec (baddr s i (o / BSIZE)) 0) as [|Hne]; [done|].
    assert (owns s i (baddr s i (o / BSIZE))) as Hown by (split; [done|]; right; by eexists).
    destruct (gw_blk _ _ _ _ G (baddr s i (o / BSIZE))) as [->|[Eb _]].
    + rewrite blkS_alloc by done. rewrite decide_False by (intros Ea; rewrite Ea in Hown; by apply grow_not_owned).
      rewrite decide_False; [done|]. intros Eb. destruct (fi_own _ _ Hi _ Hown) as (_ & _ & Hnb & _).
      apply Hnb. rewrite Eb. exists a. split; [apply Hf|done].
    + by destruct (fi_ind _ _ Hi _ Hr Hne).
  - rewrite E, E'. simpl. destruct (Z.eqb_spec a 0) as [|Hne]; [done|].
    destruct (gw_blk _ _ _ _ G a) as [->|[Eb Hb]].
    + rewrite blkS_alloc, decide_True by done. apply zero_block_byte.
    + destruct grow_not_owned. split; [done|by left].
Qed.

End grow.

End fs.
