(* ===== verification/FsBmap.v ===== *)
(** * bmap()

   The three ways a file gets a block, and the specification of bmap(): the
   block it returns is the file's, and the file and the log grow by no more
   than the new blocks. *)

From stdpp Require Import base numbers list gmap strings.
From Stdlib Require Import ZArith Lia.
From S2P Require Import Prelude Params Cmem KString Sleeplock UserMem Fs FsInv FsMap.

Section fs.
Context {U : Type} `{UserMem U} `{WakeBudget}.
Implicit Types s : fs U.

(** A new block at entry [k] of addrs[], the last of which is the indirect
    block; or in the indirect block. *)
Definition add_addr (i k : nat) (a : Z) s : fs U := set_itab (alter (set_addr k a) i) (alloc_blk a s).
Definition ind_off (bn : Z) : nat := Z.to_nat (4 * (bn - NDIRECT)).
Definition add_indirect (i : nat) (bn a : Z) s : fs U :=
  edit (iaddr s i) (st32 (ind_off bn) a (blkS (iaddr s i) s)) (alloc_blk a s).

Lemma geti_alloc i a s : geti i (alloc_blk a s) = geti i s.
Proof. done. Qed.

Lemma geti_add_addr i j k a s : file_ok s i ->
  geti j (add_addr i k a s) = if decide (j = i) then set_addr k a (geti j s) else geti j s.
Proof. intros Hi. unfold add_addr. by rewrite geti_alter by apply (fi_in _ _ Hi). Qed.

Lemma owned_not s i a : file_ok s i -> free_block s a -> ~ owns s i a.
Proof. intros Hi Hf Ho. apply (fi_own _ _ Hi) in Ho as (_ & Hu & _). destruct Hf. congruence. Qed.

Lemma ind_owned s i : iaddr s i <> 0 -> owns s i (iaddr s i).
Proof. intros. split; [done|by left]. Qed.
Lemma baddr_owned s i bn : 0 <= bn < MAXFILE -> baddr s i bn <> 0 -> owns s i (baddr s i bn).
Proof. intros. split; [done|]. right. by eexists. Qed.

(** The indirect block is neither the new block nor its bitmap block. *)
Lemma alloc_keeps_owned s i a b : disk_ok s -> file_ok s i -> free_block s a -> owns s i b ->
  blkS b (alloc_blk a s) = blkS b s.
Proof.
  intros Hd Hi Hf Ho. rewrite blkS_alloc by done. rewrite decide_False by (intros ->; by eapply owned_not).
  rewrite decide_False; [done|]. intros E. destruct (fi_own _ _ Hi b Ho) as (_ & _ & Hnb & _).
  apply Hnb. exists a. split; [apply Hf|done].
Qed.

Lemma baddr_add_addr s i k a bn : disk_ok s -> file_ok s i -> free_block s a -> (k <= IND)%nat ->
  addr_of k (geti i s) = 0 -> 0 <= bn < MAXFILE ->
  baddr (add_addr i k a s) i bn = if decide (Z.of_nat k = bn /\ bn < NDIRECT) then a else baddr s i bn.
Proof.
  intros Hd Hi Hf Hk Hk0 Hbn. unfold baddr, iaddr. rewrite !geti_add_addr by done. rewrite decide_True by done.
  rewrite !addr_of_set by (rewrite (fi_addrs _ _ Hi); lia).
  destruct (Z.ltb_spec bn NDIRECT) as [Hlt|Hge].
  - repeat case_decide; try lia; done.
  - rewrite (decide_False (P := _ /\ _)) by lia. case_decide as Ek.
    + subst k. rewrite Hk0. simpl. destruct (free_block_facts s a Hd Hf) as (Ha & _).
      rewrite (proj2 (Z.eqb_neq a 0)) by lia.
      change (blkS a (add_addr i IND a s)) with (blkS a (alloc_blk a s)).
      rewrite blkS_alloc, decide_True by done. apply ld32_zero.
    + destruct (Z.eqb_spec (addr_of IND (geti i s)) 0) as [|Hne]; [done|].
      change (blkS (addr_of IND (geti i s)) (add_addr i k a s)) with (blkS (iaddr s i) (alloc_blk a s)).
      rewrite (alloc_keeps_owned s i) by (done || by apply ind_owned). done.
Qed.

Lemma iaddr_add_addr s i k a : file_ok s i -> (k <= IND)%nat ->
  iaddr (add_addr i k a s) i = if decide (k = IND) then a else iaddr s i.
Proof.
  intros Hi Hk. unfold iaddr. rewrite geti_add_addr, decide_True by done.
  rewrite addr_of_set by (rewrite (fi_addrs _ _ Hi); lia). repeat case_decide; congruence.
Qed.

Lemma grows_addr s i k a : disk_ok s -> file_ok s i -> free_block s a -> (k <= IND)%nat ->
  addr_of k (geti i s) = 0 -> grows i s (add_addr i k a s) a.
Proof.
  intros Hd Hi Hf Hk Hk0. destruct (free_block_facts s a Hd Hf) as (Ha & _).
  assert (forall bn, 0 <= bn < MAXFILE -> baddr s i bn = a -> False) as Hno.
  { intros bn Hbn E. apply (owned_not s i a Hi Hf). rewrite <- E. apply baddr_owned; [done|lia]. }
  assert (iaddr s i <> a) as Hnoi.
  { intros E. apply (owned_not s i a Hi Hf). rewrite <- E. apply ind_owned. lia. }
  split.
  - by left.
  - done.
  - apply length_alter.
  - intros j Hj. by rewrite geti_add_addr, decide_False.
  - rewrite geti_add_addr, decide_True by done. by destruct (geti i s).
  - rewrite geti_add_addr, decide_True by done. simpl. rewrite length_insert. apply Hi.
  - rewrite iaddr_add_addr by done. case_decide; [|by left]. right. unfold iaddr. by subst.
  - intros bn Hbn. rewrite baddr_add_addr by done. case_decide as E; [|by left]. right. split; [|done].
    unfold baddr. rewrite (proj2 (Z.ltb_lt _ _)) by lia. destruct E as [<- _]. by rewrite Nat2Z.id.
  - intros bn bn' Hbn Hbn'. rewrite !baddr_add_addr by done. repeat case_decide; intros E E';
      first [lia|exfalso; by eauto].
  - intros bn Hbn. rewrite baddr_add_addr, iaddr_add_addr by done. repeat case_decide; intros E;
      [unfold IND, NDIRECT in *; lia|done|exfalso; eauto|exfalso; eauto].
  - split; [lia|]. destruct (decide (k = IND)) as [E|Hne].
    + left. by rewrite iaddr_add_addr, decide_True.
    + right. exists (Z.of_nat k). assert (0 <= Z.of_nat k < NDIRECT) by (unfold IND, NDIRECT in *; lia).
      assert (0 <= Z.of_nat k < MAXFILE) by (change MAXFILE with 268; fslia).
      split; [done|]. rewrite baddr_add_addr by done. by rewrite decide_True by lia.
  - apply (disk_ok_alloc a s Hd Hf).
Qed.

Lemma ind_off_ok bn : NDIRECT <= bn < MAXFILE -> (ind_off bn + 4 <= block_bytes)%nat.
Proof.
  intros. apply Nat2Z.inj_le. rewrite Nat2Z.inj_add, block_bytes_Z. unfold ind_off. fslia.
Qed.

Lemma blkS_add_indirect s i bn a b : disk_ok s -> file_ok s i -> free_block s a ->
  blkS b (add_indirect i bn a s) =
    if decide (b = iaddr s i) then st32 (ind_off bn) a (blkS b s) else blkS b (alloc_blk a s).
Proof. intros. unfold add_indirect. rewrite blkS_edit. case_decide; [by subst|done]. Qed.

Lemma baddr_add_indirect s i bn a bn' : disk_ok s -> file_ok s i -> free_block s a -> iaddr s i <> 0 ->
  NDIRECT <= bn < MAXFILE -> 0 <= bn' < MAXFILE ->
  baddr (add_indirect i bn a s) i bn' = if decide (bn' = bn) then a else baddr s i bn'.
Proof.
  intros Hd Hi Hf Hb Hbn Hbn'. destruct (free_block_facts s a Hd Hf) as (Ha & _). pose proof (dk_size s Hd).
  unfold baddr. change (geti i (add_indirect i bn a s)) with (geti i s).
  change (iaddr (add_indirect i bn a s) i) with (iaddr s i).
  destruct (Z.ltb_spec bn' NDIRECT) as [Hlt|Hge]; [by rewrite decide_False by lia|].
  rewrite (proj2 (Z.eqb_neq _ 0)) by done. rewrite blkS_add_indirect, decide_True by done.
  fold (ind_off bn'). destruct (dk_block s Hd (iaddr s i)) as [Hl _]. case_decide as E.
  - subst. rewrite ld32_st32 by (rewrite Hl; by apply ind_off_ok). apply u32_small. lia.
  - apply le_get_put_ne. unfold ind_off. lia.
Qed.

Lemma grows_indirect s i bn a : disk_ok s -> file_ok s i -> free_block s a -> iaddr s i <> 0 ->
  NDIRECT <= bn < MAXFILE -> baddr s i bn = 0 -> grows i s (add_indirect i bn a s) a.
Proof.
  intros Hd Hi Hf Hb Hbn Hk0. destruct (free_block_facts s a Hd Hf) as (Ha & _).
  assert (forall bn, 0 <= bn < MAXFILE -> baddr s i bn = a -> False) as Hno.
  { intros bn' Hbn' E. apply (owned_not s i a Hi Hf). rewrite <- E. apply baddr_owned; [done|lia]. }
  assert (iaddr s i <> a) as Hnoi.
  { intros E. apply (owned_not s i a Hi Hf). rewrite <- E. by apply ind_owned. }
  assert (0 <= bn < MAXFILE) as Hbn0 by (fslia).
  split; try done.
  - intros b. rewrite blkS_add_indirect by done. case_decide; [right; by subst|by left].
  - change (geti i (add_indirect i bn a s)) with (geti i s). by destruct (geti i s).
  - apply Hi.
  - by left.
  - intros bn' Hbn'. rewrite baddr_add_indirect by done. case_decide; [right; by subst|by left].
  - intros bn1 bn2 H1 H2. rewrite !baddr_add_indirect by done. repeat case_decide; intros E E';
      first [lia|exfalso; by eauto].
  - split; [lia|]. right. exists bn. split; [done|]. by rewrite baddr_add_indirect, decide_True by (done || lia).
  - intros b. rewrite blkS_add_indirect by done. case_decide; [|apply (disk_ok_alloc a s Hd Hf)].
    destruct (dk_block s Hd b) as [Hl Hby]. split; [by rewrite <- Hl; apply length_le_put|]. by apply le_put_byte.
Qed.

(* ------------------------------------------------------------------ *)
(** ** The cost of bmap() in the log *)

(** What the indirect block may still cost. *)
Definition cind s (i : nat) : Z :=
  if iaddr s i =? 0 then 2 else if decide (iaddr s i ∈ logged s) then 0 else 1.
Definition pot (x : bool) s (i : nat) : Z := Z.of_nat (length (logged s)) + if x then cind s i else 0.

Lemma logged_alloc a s : logged (alloc_blk a s) = add_logged a (add_logged (BBLOCK a (f_sb s)) (logged s)).
Proof. done. Qed.

Lemma length_logged_alloc a s : Z.of_nat (length (logged (alloc_blk a s))) <= Z.of_nat (length (logged s)) + 2.
Proof. rewrite logged_alloc, !length_add_logged. repeat case_decide; lia. Qed.

Lemma logged_alloc_in a b s : b ∈ logged s -> b ∈ logged (alloc_blk a s).
Proof. rewrite logged_alloc, !elem_of_add_logged. auto. Qed.

Lemma cind_bounds s i : 0 <= cind s i <= 2.
Proof. unfold cind. repeat case_match; lia. Qed.

Lemma pot_add_addr x s i k a : file_ok s i -> (k <= IND)%nat -> a <> 0 ->
  (k = IND -> x = true /\ iaddr s i = 0) -> pot x (add_addr i k a s) i <= pot x s i + if decide (k = IND) then 0 else 2.
Proof.
  intros Hi Hk Ha Hx. unfold pot. change (logged (add_addr i k a s)) with (logged (alloc_blk a s)).
  pose proof (length_logged_alloc a s). destruct x; [|case_decide; [by destruct Hx|lia]].
  unfold cind. rewrite iaddr_add_addr by done. change (logged (add_addr i k a s)) with (logged (alloc_blk a s)).
  case_decide as Ek.
  - destruct (Hx Ek) as [_ ->]. rewrite (proj2 (Z.eqb_neq a 0)) by done. rewrite decide_True; [simpl; lia|].
    rewrite logged_alloc, elem_of_add_logged. by left.
  - destruct (Z.eqb_spec (iaddr s i) 0); [lia|]. pose proof (logged_alloc_in a (iaddr s i) s).
    repeat case_decide; (tauto || lia).
Qed.

Lemma pot_add_indirect s i bn a : iaddr s i <> 0 -> pot true (add_indirect i bn a s) i <= pot true s i + 2.
Proof.
  intros Hb. unfold pot, cind. change (iaddr (add_indirect i bn a s) i) with (iaddr s i).
  change (logged (add_indirect i bn a s)) with (add_logged (iaddr s i) (logged (alloc_blk a s))).
  rewrite (proj2 (Z.eqb_neq _ 0)) by done. rewrite (decide_True (P := iaddr s i ∈ add_logged _ _))
    by (apply elem_of_add_logged; by left).
  rewrite length_add_logged. pose proof (length_logged_alloc a s). pose proof (logged_alloc_in a (iaddr s i) s).
  repeat case_decide; (tauto || lia).
Qed.

Lemma cind_logged s s' i : iaddr s' i = iaddr s i -> (forall b, b ∈ logged s -> b ∈ logged s') -> cind s' i <= cind s i.
Proof.
  intros Hb Hl. unfold cind. rewrite Hb. destruct (_ =? 0); [lia|]. specialize (Hl (iaddr s i)).
  repeat case_decide; (tauto || lia).
Qed.

(* ------------------------------------------------------------------ *)
(** ** bmap() *)

(** No new byte of the file, and nothing else touched. *)
Record bmap_post (x : bool) (i : nat) (bn : Z) s (a : Z) s' : Prop := {
  bp_disk : disk_ok s';
  bp_file : file_ok s' i;
  bp_frame : frame i s s';
  bp_bytes o : 0 <= o < MAXFILE * BSIZE -> fbyte s' i o = fbyte s i o;
  bp_size : i_size (geti i s') = i_size (geti i s);
  bp_addr : baddr s' i bn = a;
  bp_same bn' : 0 <= bn' < MAXFILE -> bn' <> bn -> baddr s' i bn' = baddr s i bn';
  bp_full : a = 0 -> disk_full s';
  bp_pot : pot x s' i <= pot x s i + if baddr s i bn =? 0 then 2 else 0;
  bp_logged b : b ∈ logged s -> b ∈ logged s';
  bp_new : baddr s i bn = 0 -> a <> 0 -> a ∈ logged s'
}.

Lemma bmap_post_same x i bn s : disk_ok s -> file_ok s i -> baddr s i bn <> 0 ->
  bmap_post x i bn s (baddr s i bn) s.
Proof. intros Hd Hi Hne. split; try done; try apply frame_refl. rewrite (proj2 (Z.eqb_neq _ 0)) by done. lia. Qed.

Lemma bmap_post_full x i bn s : disk_ok s -> file_ok s i -> baddr s i bn = 0 -> disk_full s -> bmap_post x i bn s 0 s.
Proof. intros Hd Hi E Hf. split; try done; try apply frame_refl. rewrite E. simpl. lia. Qed.

(** A new block for [bn] itself. *)
Lemma bmap_post_grow x i bn s s' a : disk_ok s -> file_ok s i -> free_block s a -> grows i s s' a ->
  baddr s i bn = 0 -> baddr s' i bn = a -> 0 <= bn < MAXFILE ->
  pot x s' i <= pot x s i + 2 -> (forall b, b ∈ logged (alloc_blk a s) -> b ∈ logged s') -> bmap_post x i bn s a s'.
Proof.
  intros Hd Hi Hf G E0 E Hbn Hpot Hlog. destruct (free_block_facts s a Hd Hf) as (Ha & _).
  split; [by eapply grow_disk_ok|by eapply grow_file_ok|by eapply grow_frame| | |done| | | | |].
  - intros o Ho. by eapply grow_fbyte.
  - by rewrite (gw_ino _ _ _ _ G).
  - intros bn' Hbn' Hne. destruct (gw_baddr _ _ _ _ G bn' Hbn') as [?|[_ E']]; [done|].
    destruct Hne. by apply (gw_one _ _ _ _ G).
  - lia.
  - rewrite E0. done.
  - intros b Hb. by apply Hlog, logged_alloc_in.
  - intros _ _. apply Hlog. rewrite logged_alloc. apply elem_of_add_logged. by left.
Qed.

(** A new indirect block first. *)
Lemma bmap_post_trans x i bn s s1 a s' : grows i s s1 (iaddr s1 i) -> free_block s (iaddr s1 i) -> disk_ok s -> file_ok s i ->
  (forall bn', 0 <= bn' < MAXFILE -> baddr s1 i bn' = baddr s i bn') -> 0 <= bn < MAXFILE ->
  pot x s1 i <= pot x s i -> (forall b, b ∈ logged s -> b ∈ logged s1) ->
  bmap_post x i bn s1 a s' -> bmap_post x i bn s a s'.
Proof.
  intros G Hf Hd Hi Hsame Hbn Hpot Hlog P.
  split; [apply P|apply P| | | |apply (bp_addr _ _ _ _ _ _ P)| |apply (bp_full _ _ _ _ _ _ P)| | |].
  - eapply frame_trans; [by eapply grow_frame|apply P].
  - intros o Ho. rewrite (bp_bytes _ _ _ _ _ _ P) by done. by eapply grow_fbyte.
  - rewrite (bp_size _ _ _ _ _ _ P). by rewrite (gw_ino _ _ _ _ G).
  - intros bn' Hbn' Hne. rewrite (bp_same _ _ _ _ _ _ P) by done. by apply Hsame.
  - pose proof (bp_pot _ _ _ _ _ _ P) as Hp. rewrite Hsame in Hp by done. lia.
  - intros b Hb. by apply (bp_logged _ _ _ _ _ _ P), Hlog.
  - intros E Hne. apply (bp_new _ _ _ _ _ _ P); [by rewrite Hsame|done].
Qed.

Lemma can_alloc_nil s : held s = [] -> in_op s -> Z.of_nat (length (logged s)) + 2 <= MAXOPBLOCKS -> can_alloc s.
Proof. intros Hh Hop Hl. split; [done|]. split; [done|]. rewrite Hh. split; by intros b ?%elem_of_nil. Qed.

Lemma held_edit_alloc h b d a s :
  set_blocks (set_held (held s)) (edit b d (alloc_blk a (set_blocks (set_held h) s))) = edit b d (alloc_blk a s).
Proof. by destruct s as [? []]. Qed.

(** The second half of bmap() for an indirect block that is there. *)
Definition bmap_indirect (i : nat) (bn : Z) : M (fs U) Z :=
  let* ip := gets (geti i) in
  let* bp := bread (i_dev ip) (addr_of IND ip) in
  let* d := bdata bp in
  let addr := ld32 (ind_off bn) d in
  let* addr :=
    if addr =? 0 then
      let* addr := balloc (i_dev ip) in
      (if negb (addr =? 0) then
         let* d := bdata bp in
         bput bp (st32 (ind_off bn) addr d) ;; log_write bp
       else ret tt) ;;
      ret addr
    else ret addr in
  brelse bp ;;
  ret addr.

Lemma bmap_indirect_spec i bn s : disk_ok s -> file_ok s i -> held s = [] ->
  NDIRECT <= bn < MAXFILE -> iaddr s i <> 0 ->
  (baddr s i bn = 0 -> in_op s /\ pot true s i + 2 <= MAXOPBLOCKS) ->
  exists a s', bmap_indirect i bn s = Ok a s' /\ bmap_post true i bn s a s'.
Proof.
  intros Hd Hi Hh Hbn Hne Hroom. unfold bmap_indirect. erewrite bind_Ok by done.
  rewrite (fi_dev _ _ Hi). fold (iaddr s i). assert (iaddr s i ∉ held s) as Hnh by (rewrite Hh; apply not_elem_of_nil).
  erewrite bind_Ok by by apply bread_Ok. rewrite Hh. set (s1 := set_blocks (set_held [iaddr s i]) s).
  unfold bdata. erewrite bind_Ok by done. cbv beta zeta. change (blk (iaddr s i) (f_blk s1)) with (blkS (iaddr s i) s).
  assert (baddr s i bn = ld32 (ind_off bn) (blkS (iaddr s i) s)) as Ea.
  { unfold baddr. rewrite (proj2 (Z.ltb_ge _ _)), (proj2 (Z.eqb_neq _ 0)) by lia. done. }
  rewrite <- Ea. assert (set_blocks (set_held []) s1 = s) as Es1.
  { unfold s1. rewrite <- Hh. by destruct s as [? []]. }
  assert (brelse (iaddr s i) s1 = Ok tt s) as Erel.
  { rewrite <- Es1 at 2. by erewrite (brelse_Ok _ []) by (done || apply not_elem_of_nil). }
  destruct (Z.eqb_spec (baddr s i bn) 0) as [E0|Hn0].
  - destruct (Hroom E0) as [Hop Hr]. clear Hroom. rename Hr into Hroom.
    destruct (fi_own _ _ Hi _ (ind_owned _ _ Hne)) as (Hrng & Hu & Hnb & _).
    assert (can_alloc s1) as Hc.
    { split; [done|]. split; [unfold pot in Hroom; pose proof (cind_bounds s i); change (logged s1) with (logged s); lia|].
      split; intros b Hb; change (b ∈ [iaddr s i]) in Hb; apply list_elem_of_singleton in Hb as ->; done. }
    assert (disk_ok s1) as Hd1 by (split; apply Hd).
    destruct (balloc_spec s1 Hd1 Hc) as [[Eb Hfull]|(a & Eb & Hf)].
    + exists 0, s. erewrite bind_Ok by (erewrite bind_Ok by exact Eb; done). simpl.
      erewrite bind_Ok by exact Erel. split; [done|]. by apply bmap_post_full.
    + change (free_block s a) in Hf. destruct (free_block_facts s a Hd Hf) as (Ha & _).
      assert (fits (iaddr s i) (alloc_blk a s1)) as Hfit.
      { unfold fits. rewrite length_add_logged. pose proof (length_logged_alloc a s1) as Hl.
        unfold pot, cind in Hroom. rewrite (proj2 (Z.eqb_neq _ 0)) in Hroom by done.
        change (logged s1) with (logged s) in Hl. pose proof (logged_alloc_in a (iaddr s i) s) as Hin.
        change (logged (alloc_blk a s1)) with (logged (alloc_blk a s)) in *. repeat case_decide; (tauto || lia). }
      exists a, (add_indirect i bn a s). split.
      * erewrite bind_Ok.
        2: { erewrite bind_Ok by exact Eb. rewrite (proj2 (Z.eqb_neq a 0)) by lia. simpl.
             erewrite bind_Ok; [done|]. erewrite bind_Ok by done. unfold bput. erewrite bind_Ok by done.
             by apply log_write_Ok. }
        erewrite bind_Ok; [done|]. erewrite (brelse_Ok _ []) by (done || apply not_elem_of_nil).
        unfold add_indirect. rewrite <- (alloc_keeps_owned s i a (iaddr s i)) by (done || by apply ind_owned).
        rewrite <- (held_edit_alloc [iaddr s i] _ _ a s), Hh. done.
      * eapply bmap_post_grow; [done|done|done|by apply grows_indirect|done| |fslia|by apply pot_add_indirect|].
        { by rewrite baddr_add_indirect, decide_True by (done || fslia). }
        intros b Hb. change (b ∈ add_logged (iaddr s i) (logged (alloc_blk a s))). apply elem_of_add_logged. by right.
  - exists (baddr s i bn), s. erewrite bind_Ok by done. erewrite bind_Ok by exact Erel. split; [done|].
    by apply bmap_post_same.
Qed.

Lemma bmap_direct_spec x i bn s : disk_ok s -> file_ok s i -> held s = [] -> 0 <= bn < NDIRECT ->
  (baddr s i bn = 0 -> in_op s /\ pot x s i + 2 <= MAXOPBLOCKS) ->
  exists a s', bmap i bn s = Ok a s' /\ bmap_post x i bn s a s'.
Proof.
  intros Hd Hi Hh Hbn Hroom. unfold bmap. erewrite bind_Ok by done. rewrite (proj2 (Z.ltb_lt _ _)) by lia.
  cbv zeta. assert (baddr s i bn = addr_of (Z.to_nat bn) (geti i s)) as Ea.
  { unfold baddr. by rewrite (proj2 (Z.ltb_lt _ _)) by lia. }
  assert (0 <= bn < MAXFILE) as Hbn' by fslia.
  rewrite <- Ea, (fi_dev _ _ Hi). destruct (Z.eqb_spec (baddr s i bn) 0) as [E0|Hn0].
  2: { exists (baddr s i bn), s. split; [done|]. by apply bmap_post_same. }
  destruct (Hroom E0) as [Hop Hr]. pose proof (cind_bounds s i).
  assert (can_alloc s) as Hc by (apply can_alloc_nil; [done..|unfold pot in Hr; destruct x; lia]).
  destruct (balloc_spec s Hd Hc) as [[Eb Hfull]|(a & Eb & Hf)]; erewrite bind_Ok by exact Eb.
  - exists 0, s. split; [done|]. by apply bmap_post_full.
  - destruct (free_block_facts s a Hd Hf) as (Ha & _). rewrite (proj2 (Z.eqb_neq a 0)) by lia.
    erewrite bind_Ok by done. exists a, (add_addr i (Z.to_nat bn) a s). split; [done|].
    assert (Z.to_nat bn < IND)%nat as Hk by (unfold IND; fslia).
    eapply bmap_post_grow; [done..|apply grows_addr; [done..|lia|congruence]|done| |done| |done].
    + rewrite baddr_add_addr by (done || lia || congruence). by rewrite decide_True by lia.
    + pose proof (pot_add_addr x s i (Z.to_nat bn) a Hi ltac:(lia) ltac:(lia) ltac:(lia)) as Hp.
      rewrite decide_False in Hp by lia. done.
Qed.

Lemma bmap_spec x i bn s : disk_ok s -> file_ok s i -> held s = [] -> 0 <= bn < MAXFILE ->
  (NDIRECT <= bn -> x = true) -> (baddr s i bn = 0 -> in_op s /\ pot x s i + 2 <= MAXOPBLOCKS) ->
  exists a s', bmap i bn s = Ok a s' /\ bmap_post x i bn s a s'.
Proof.
  intros Hd Hi Hh Hbn Hx Hroom. destruct (Z.ltb_spec bn NDIRECT) as [Hlt|Hge]; [apply bmap_direct_spec; (done || lia)|].
  rewrite Hx in * by done. unfold bmap. erewrite bind_Ok by done. rewrite (proj2 (Z.ltb_ge _ _)) by lia.
  cbv zeta. rewrite (proj2 (Z.ltb_lt (bn - NDIRECT) NINDIRECT)) by fslia. fold IND. fold (iaddr s i).
  destruct (Z.eqb_spec (iaddr s i) 0) as [E0|Hn0].
  - assert (baddr s i bn = 0) as Eb0.
    { unfold baddr. rewrite (proj2 (Z.ltb_ge _ _)) by lia. by rewrite E0. }
    destruct (Hroom Eb0) as [Hop Hr]. rewrite (fi_dev _ _ Hi). pose proof (cind_bounds s i).
    assert (can_alloc s) as Hc by (apply can_alloc_nil; [done..|unfold pot in Hr; lia]).
    destruct (balloc_spec s Hd Hc) as [[Eb Hfull]|(a & Eb & Hf)].
    + exists 0, s. erewrite bind_Ok by (erewrite bind_Ok by exact Eb; done). split; [done|]. by apply bmap_post_full.
    + destruct (free_block_facts s a Hd Hf) as (Ha & _).
      set (s1 := add_addr i IND a s).
      assert (iaddr s1 i = a) as Ei by (unfold s1; rewrite iaddr_add_addr by (done || lia); by rewrite decide_True).
      assert (grows i s s1 a) as G by (apply grows_addr; (done || lia)).
      assert (forall bn', 0 <= bn' < MAXFILE -> baddr s1 i bn' = baddr s i bn') as Hsame.
      { intros bn' Hbn'. unfold s1. rewrite baddr_add_addr by (done || lia). rewrite decide_False; [done|].
        unfold IND. fslia. }
      assert (pot true s1 i <= pot true s i) as Hpot.
      { pose proof (pot_add_addr true s i IND a Hi ltac:(lia) ltac:(lia) ltac:(done)) as Hp.
        rewrite decide_True in Hp by done. fold s1 in Hp. lia. }
      destruct (bmap_indirect_spec i bn s1) as (a' & s' & E & P).
      * by eapply grow_disk_ok.
      * by eapply grow_file_ok.
      * done.
      * lia.
      * lia.
      * intros _. split; [done|lia].
      * exists a', s'. split.
        -- erewrite bind_Ok.
           2: { erewrite bind_Ok by exact Eb. rewrite (proj2 (Z.eqb_neq a 0)) by lia. erewrite bind_Ok by done. done. }
           rewrite (proj2 (Z.eqb_neq a 0)) by lia. fold s1. unfold bmap_indirect in E.
           erewrite bind_Ok in E by done. fold (iaddr s1 i) in E. rewrite Ei, (gw_ino _ _ _ _ G) in E. simpl in E.
           rewrite (fi_dev _ _ Hi) in E. exact E.
        -- eapply bmap_post_trans; [by rewrite Ei|by rewrite Ei|done..| |exact P].
           intros b Hb. by apply logged_alloc_in.
  - erewrite bind_Ok by done. rewrite (proj2 (Z.eqb_neq _ 0)) by done.
    destruct (bmap_indirect_spec i bn s) as (a' & s' & E & P); [done..|lia|done|done|].
    exists a', s'. split; [|done]. unfold bmap_indirect in E. erewrite bind_Ok in E by done. exact E.
Qed.

End fs.
