(* ===== verification/FsWrite.v ===== *)
(** * Reading and writing files: readi() and writei()

   writei() changes the bytes of the file it is given, and no byte of any
   other file, within the log blocks its transaction reserved. *)

From stdpp Require Import base numbers list gmap strings.
From Stdlib Require Import ZArith Lia.
From S2P Require Import Prelude Params Cmem KString Sleeplock UserMem Fs FsInv FsMap FsBmap.

Section fs.
Context {U : Type} `{UserMem U} `{WakeBudget}.
Implicit Types s : fs U.

(* ------------------------------------------------------------------ *)
(** ** Storing into a block of the file *)

Definition poke (a : Z) (d lg : list Z) (u : U) s : fs U :=
  Fs (f_sb s) (BlocksSt (<[a := d]> (bk_data (f_blk s))) (bk_held (f_blk s)) lg (bk_ops (f_blk s)))
    (f_itlock s) (f_itab s) (f_pid s) (f_cwd s) u (f_woken s).

Lemma blkS_poke a d lg u b s : blkS b (poke a d lg u s) = if decide (b = a) then d else blkS b s.
Proof.
  unfold blkS, poke, blk. simpl. case_decide; [subst; by rewrite lookup_insert_eq|by rewrite lookup_insert_ne].
Qed.

Section poke.
Context (i : nat) (bn : Z) (s : fs U) (d lg : list Z) (u : U).
Hypotheses (Hd : disk_ok s) (Hi : file_ok s i) (Hbn : 0 <= bn < MAXFILE) (Hne : baddr s i bn <> 0).
Hypotheses (Hblk : is_block d) (Hview : same_user (f_user s) u).
Notation s' := (poke (baddr s i bn) d lg u s).

Lemma poke_owned : owns s i (baddr s i bn).
Proof. by apply baddr_owned. Qed.

Lemma poke_used b : 0 <= b < sb_size (f_sb s) -> used s' b = used s b.
Proof.
  intros Hb. unfold used. change (f_sb s') with (f_sb s). rewrite blkS_poke, decide_False; [done|].
  intros E. destruct (fi_own _ _ Hi _ poke_owned) as (_ & _ & Hnb & _). apply Hnb. rewrite <- E. by exists b.
Qed.

Lemma poke_baddr bn' : 0 <= bn' < MAXFILE -> baddr s' i bn' = baddr s i bn'.
Proof.
  intros Hbn'. unfold baddr at 1 3. change (iaddr s' i) with (iaddr s i). change (geti i s') with (geti i s).
  destruct (bn' <? NDIRECT); [done|]. destruct (Z.eqb_spec (iaddr s i) 0); [done|].
  rewrite blkS_poke, decide_False; [done|]. intros E. by apply (fi_ind _ _ Hi bn Hbn Hne).
Qed.

Lemma poke_owns b : owns s' i b <-> owns s i b.
Proof.
  unfold owns. change (iaddr s' i) with (iaddr s i).
  split; intros [? [?|(bn' & Hr & E)]]; (split; [done|]); [by left|right|by left|right];
    exists bn'; (split; [done|]); [rewrite <- E; symmetry|rewrite <- E]; by apply poke_baddr.
Qed.

Lemma poke_disk_ok : disk_ok s'.
Proof.
  split.
  - intros b. rewrite blkS_poke. case_decide; [done|apply Hd].
  - apply Hd.
  - apply Hd.
  - intros b Hb. rewrite poke_used by done. by apply Hd.
Qed.

Lemma poke_file_ok : file_ok s' i.
Proof.
  split; try apply Hi.
  - intros a Ha. apply poke_owns in Ha. destruct (fi_own _ _ Hi a Ha) as (? & ? & ?). split; [done|].
    split; [|done]. by rewrite poke_used by (change (f_sb s') with (f_sb s); lia).
  - intros b1 b2 H1 H2. rewrite !poke_baddr by done. by apply Hi.
  - intros b Hb. rewrite poke_baddr by done. by apply Hi.
  - intros b Hb Hs. pose proof (fi_size _ _ Hi). change (geti i s') with (geti i s) in Hs.
    rewrite poke_baddr by fslia. by apply (fi_full _ _ Hi).
Qed.

Lemma poke_frame : frame i s s'.
Proof.
  split; try done.
  - cbv zeta. change (geti i s') with (geti i s). by destruct (geti i s).
  - intros b Hb Hu. by rewrite poke_used.
  - intros b Hb. rewrite poke_used by done. by left.
  - intros bn' Hr _. by apply poke_baddr.
  - intros a Ha. left. by apply poke_owns.
  - intros b _ _ Ho _. rewrite blkS_poke, decide_False; [done|]. intros ->. apply Ho, poke_owned.
Qed.

Lemma poke_fbyte o : 0 <= o < MAXFILE * BSIZE ->
  fbyte s' i o = if decide (o / BSIZE = bn) then default 0 (d !! Z.to_nat (o mod BSIZE)) else fbyte s i o.
Proof.
  intros Ho. assert (0 <= o / BSIZE < MAXFILE) as Hr by fslia. unfold fbyte. rewrite poke_baddr by done.
  case_decide as E.
  - subst bn. rewrite (proj2 (Z.eqb_neq _ 0)) by done. by rewrite blkS_poke, decide_True.
  - destruct (Z.eqb_spec (baddr s i (o / BSIZE)) 0) as [|Hn]; [done|]. rewrite blkS_poke, decide_False; [done|].
    intros Ea. apply E. by apply (fi_inj _ _ Hi).
Qed.

End poke.

(* ------------------------------------------------------------------ *)
(** ** The source of a write *)

Definition src_byte (u : U) (sr : src) (k : Z) : Z :=
  match sr with
  | UserSrc va => uview u (va + k)
  | KernelSrc bs => default 0 (bs !! Z.to_nat k)
  end.
Definition src_ok (sr : src) (n : Z) : Prop :=
  match sr with
  | UserSrc va => 0 <= va /\ va + n <= 2 ^ 64
  | KernelSrc bs => n <= Z.of_nat (length bs) /\ Forall byte bs
  end.
(** Part of the source is not mapped for the caller. *)
Definition src_faults (u : U) (sr : src) (n : Z) : Prop :=
  exists va, sr = UserSrc va /\ ~ forall k, 0 <= k < n -> uread u (va + k).
Definition src_bytes (u : U) (sr : src) (n : nat) : list Z := map (fun k => src_byte u sr (Z.of_nat k)) (seq 0 n).

Lemma src_byte_view u u' sr k : (forall b, uview u' b = uview u b) -> src_byte u' sr k = src_byte u sr k.
Proof. intros Hv. destruct sr; [apply Hv|done]. Qed.

Lemma src_faults_view u u' sr n : same_user u u' -> src_faults u' sr n -> src_faults u sr n.
Proof. intros [_ Hm] (va & E & Hn). exists va. split; [done|]. intros Hr. apply Hn. intros k Hk. by apply Hm, Hr. Qed.

Lemma src_byte_byte u sr n k : src_ok sr n -> byte (src_byte u sr k).
Proof.
  destruct sr as [va|bs]; intros Hs; simpl; [apply uview_byte|]. destruct (bs !! Z.to_nat k) as [x|] eqn:E; simpl.
  - destruct Hs as [_ Hs]. by eapply Forall_lookup_1 in Hs.
  - unfold byte. lia.
Qed.

Lemma either_copyin_spec sr off m n s : src_ok sr n -> 0 <= off -> 0 < m -> off + m <= n ->
  exists ok bs u', either_copyin sr off (Z.to_nat m) s = Ok (ok, bs) (set_fuser u' s) /\
    same_user (f_user s) u' /\ Z.of_nat (length bs) <= m /\
    (ok = true -> Z.of_nat (length bs) = m) /\ (ok = false -> src_faults (f_user s) sr n) /\
    (forall k x, bs !! k = Some x -> x = src_byte (f_user s) sr (off + Z.of_nat k)).
Proof.
  intros Hs Hoff Hm Hn. destruct sr as [va|kb]; simpl in *.
  - rewrite u64_small by lia. pose proof (copyin_same (f_user s) (va + off) (Z.to_nat m)) as Hv.
    pose proof (copyin_bytes (f_user s) (va + off) (Z.to_nat m)) as Hb.
    pose proof (copyin_left_bytes (f_user s) (va + off) (Z.to_nat m)) as Hleft.
    unfold zoom. simpl. destruct (copyin (f_user s) (va + off) (Z.to_nat m)) as [[bs|] u'] eqn:E; simpl in *;
      specialize (Hv _ _ eq_refl).
    + exists true, bs, u'. destruct (Hb bs eq_refl) as [Hl Hx]. split; [done|]. split; [done|]. split; [lia|].
      split; [lia|]. split; [done|]. intros k x Hk. pose proof (lookup_lt_Some _ _ _ Hk).
      rewrite Hx in Hk by lia. injection Hk as <-. by rewrite Z.add_assoc.
    + exists false, (copyin_left (f_user s) (va + off) (Z.to_nat m)), u'. split; [done|]. split; [done|].
      assert (length (copyin_left (f_user s) (va + off) (Z.to_nat m)) <= Z.to_nat m)%nat.
      { destruct (decide (length (copyin_left (f_user s) (va + off) (Z.to_nat m)) <= Z.to_nat m)%nat); [done|].
        destruct (lookup_lt_is_Some_2 (copyin_left (f_user s) (va + off) (Z.to_nat m)) (Z.to_nat m)) as [x Hx]; [lia|].
        apply Hleft in Hx as [? _]. lia. }
      split; [lia|]. split; [done|]. split.
      { intros _. exists va. split; [done|]. intros Hr. apply (copyin_fails (f_user s) (va + off) (Z.to_nat m)); [by rewrite E|].
        intros k Hk. rewrite <- Z.add_assoc. apply Hr. lia. }
      intros k x [_ ->]%Hleft. by rewrite Z.add_assoc.
  - exists true, (slice (Z.to_nat off) (Z.to_nat m) kb), (f_user s). split; [by destruct s|]. split; [done|].
    rewrite length_slice by lia. split; [lia|]. split; [lia|]. split; [done|]. intros k x Hk.
    pose proof (lookup_lt_Some _ _ _ Hk) as Hlt. rewrite length_slice in Hlt by lia.
    rewrite slice_lookup in Hk by done. replace (Z.to_nat (off + Z.of_nat k)) with (Z.to_nat off + k)%nat by lia.
    by rewrite Hk.
Qed.

(* ------------------------------------------------------------------ *)
(** ** One block of the loop *)

(** Blocks a write of [rem] bytes at [off] touches, and what they may cost. *)
Definition nblk (off rem : Z) : nat := if rem <=? 0 then 0%nat else Z.to_nat ((off + rem - 1) / BSIZE - off / BSIZE + 1).
Fixpoint bcost s (i : nat) (bn : Z) (k : nat) : Z :=
  match k with
  | O => 0
  | S k' => (if baddr s i bn =? 0 then 2 else 1) + bcost s i (bn + 1) k'
  end.

Lemma bcost_ext s s' i bn k : (forall b, bn <= b < bn + Z.of_nat k -> baddr s' i b = baddr s i b) ->
  bcost s' i bn k = bcost s i bn k.
Proof.
  revert bn. induction k as [|k IH]; intros bn Hb; cbn [bcost]; [done|].
  rewrite Hb by lia. f_equal. apply IH. intros b Hr. apply Hb. lia.
Qed.

Lemma bcost_nonneg s i bn k : 0 <= bcost s i bn k.
Proof. revert bn. induction k as [|k IH]; intros bn; cbn [bcost]; [lia|]. specialize (IH (bn + 1)). destruct (_ =? 0); lia. Qed.

Definition chunk (off rem : Z) : Z := Z.min rem (BSIZE - off mod BSIZE).

Lemma nblk_step off rem : 0 <= off -> 0 < rem ->
  nblk off rem = S (nblk (off + chunk off rem) (rem - chunk off rem)) /\
  (0 < rem - chunk off rem -> (off + chunk off rem) / BSIZE = off / BSIZE + 1) /\
  0 < chunk off rem /\ off mod BSIZE + chunk off rem <= BSIZE /\
  (forall o, off <= o < off + chunk off rem -> o / BSIZE = off / BSIZE).
Proof.
  intros Hoff Hrem. unfold nblk, chunk. fsz. rewrite (proj2 (Z.leb_gt rem 0)) by lia.
  pose proof (Z.mod_pos_bound off 1024 ltac:(lia)). split_and!.
  - destruct (Z.min_spec rem (1024 - off mod 1024)) as [[? ->]|[? ->]].
    + rewrite Z.sub_diag. simpl. divlia.
    + destruct (Z.leb_spec (rem - (1024 - off mod 1024)) 0); divlia.
  - intros. divlia.
  - lia.
  - lia.
  - intros o Ho. divlia.
Qed.

(** The loop so far: [t] bytes were written at [off], then [l] more bytes of
    a copy that failed. *)
Record wrote (i : nat) s (sr : src) (tot off t l : Z) s' : Prop := {
  wr_disk : disk_ok s';
  wr_file : file_ok s' i;
  wr_frame : frame i s s';
  wr_size : i_size (geti i s') = i_size (geti i s);
  wr_bytes o : 0 <= o < MAXFILE * BSIZE ->
    fbyte s' i o = if decide (off <= o < off + t + l) then src_byte (f_user s) sr (tot + (o - off)) else fbyte s i o;
  wr_blocks o : off <= o < off + t -> baddr s' i (o / BSIZE) <> 0
}.

Lemma splice_byte o bs d k : is_block d -> (o + length bs <= block_bytes)%nat ->
  default 0 (splice o bs d !! k) =
    if decide (o <= k < o + length bs)%nat then default 0 (bs !! (k - o)%nat) else default 0 (d !! k).
Proof.
  intros [Hl _] Ho. case_decide as E; [by rewrite splice_lookup_in by lia|by rewrite splice_lookup_out by lia].
Qed.

Lemma is_block_splice o bs d : is_block d -> (o + length bs <= block_bytes)%nat -> Forall byte bs -> is_block (splice o bs d).
Proof.
  intros [Hl Hb] Ho Hbs. split; [by rewrite length_splice by lia|]. unfold splice.
  rewrite !Forall_app. split; [by apply Forall_take|]. split; [done|by apply Forall_drop].
Qed.

Lemma wrote_block i s sr tot off bs lg u s1 a t l :
  0 <= off -> off + t + l <= MAXFILE * BSIZE -> 0 <= t -> 0 <= l -> Z.of_nat (length bs) = t + l ->
  off mod BSIZE + t + l <= BSIZE ->
  (forall o, off <= o < off + t + l -> o / BSIZE = off / BSIZE) -> off / BSIZE < MAXFILE ->
  (exists x, bmap_post x i (off / BSIZE) s a s1) -> a <> 0 -> disk_ok s -> same_user (f_user s1) u ->
  (forall k x, bs !! k = Some x -> x = src_byte (f_user s) sr (tot + Z.of_nat k)) -> Forall byte bs ->
  wrote i s sr tot off t l (poke a (splice (Z.to_nat (off mod BSIZE)) bs (blkS a s1)) lg u s1).
Proof.
  intros Hoff Hmax Ht Hl Hlen Hfit Hdiv Hbn (x & P) Ha Hd Hview Hbs Hby.
  destruct P as [Hd1 Hi1 F1 Hb1 Hs1 Ha1 _ _ _ _ _]. subst a.
  assert (0 <= off / BSIZE) as Hbn0 by fslia.
  assert (Z.to_nat (off mod BSIZE) + length bs <= block_bytes)%nat as Hin.
  { apply Nat2Z.inj_le. rewrite Nat2Z.inj_add, block_bytes_Z. fslia. }
  pose proof (is_block_splice _ bs _ (dk_block s1 Hd1 (baddr s1 i (off / BSIZE))) Hin Hby) as Hblk.
  split.
  - by apply poke_disk_ok.
  - by apply poke_file_ok.
  - eapply frame_trans; [done|]. by apply poke_frame.
  - exact Hs1.
  - intros o Ho. rewrite poke_fbyte by done. destruct (decide (off <= o < off + t + l)) as [Hr|Hr].
    + rewrite (Hdiv o Hr), decide_True by done. rewrite splice_byte by (done || apply (dk_block s1 Hd1)).
      specialize (Hdiv o Hr). rewrite decide_True by fslia.
      destruct (lookup_lt_is_Some_2 bs (Z.to_nat (o mod BSIZE) - Z.to_nat (off mod BSIZE))) as [y Hy]; [fslia|].
      rewrite Hy. simpl. rewrite (Hbs _ _ Hy). f_equal. fslia.
    + rewrite <- Hb1 by done. case_decide as E; [|done]. rewrite splice_byte by (done || apply (dk_block s1 Hd1)).
      rewrite decide_False by fslia. unfold fbyte. rewrite E. by rewrite (proj2 (Z.eqb_neq _ 0)).
  - intros o Hr. rewrite (Hdiv o) by lia. by rewrite poke_baddr by done.
Qed.

(* ------------------------------------------------------------------ *)
(** ** The loop of writei() *)

Lemma wrote_trans i s sr tot off m t l s1 s' : 0 <= off -> 0 <= m -> 0 <= t -> 0 <= l ->
  off + m + t <= MAXFILE * BSIZE ->
  wrote i s sr tot off m 0 s1 -> wrote i s1 sr (tot + m) (off + m) t l s' -> wrote i s sr tot off (m + t) l s'.
Proof.
  intros Hoff Hm Ht Hl Hmax [Hd1 Hi1 F1 Hs1 Hb1 Hk1] [Hd2 Hi2 F2 Hs2 Hb2 Hk2]. split; [done|done| | | |].
  - by eapply frame_trans.
  - congruence.
  - intros o Ho. rewrite Hb2, (src_byte_view (f_user s)), Hb1 by (done || apply (proj1 (fr_view _ _ _ F1))).
    repeat case_decide; first [lia | f_equal; lia | done].
  - intros o Ho. destruct (decide (off + m <= o)); [apply Hk2; lia|].
    rewrite (fr_keep _ _ _ F2); [apply Hk1; lia|fslia|apply Hk1; lia].
Qed.

Lemma wrote_none i s sr tot off s' : disk_ok s' -> file_ok s' i -> frame i s s' -> i_size (geti i s') = i_size (geti i s) ->
  (forall o, 0 <= o < MAXFILE * BSIZE -> fbyte s' i o = fbyte s i o) -> wrote i s sr tot off 0 0 s'.
Proof. intros. split; try done; intros o Ho; [rewrite decide_False by lia; auto|lia]. Qed.

Lemma poke_fail_eq a d u s : held s = [] ->
  set_blocks (set_held []) (set_blocks (set_blk a d) (set_fuser u (set_blocks (set_held [a]) s))) = poke a d (logged s) u s.
Proof. destruct s as [? []]. unfold held, poke, logged. simpl. by intros ->. Qed.
Lemma poke_ok_eq a d u s : held s = [] ->
  set_blocks (set_held []) (edit a d (set_fuser u (set_blocks (set_held [a]) s))) = poke a d (add_logged a (logged s)) u s.
Proof. destruct s as [? []]. unfold held, poke, logged, edit. simpl. by intros ->. Qed.

(** What is left of the budget of the log. *)
Definition budget (x : bool) s (i : nat) (off rem : Z) : Z := pot x s i + bcost s i (off / BSIZE) (nblk off rem).
(** [x] tells whether the write can reach the indirect block. *)
Definition reaches (x : bool) (off rem : Z) : Prop := NDIRECT * BSIZE < off + rem -> 0 < rem -> x = true.

(** One iteration that succeeds, seen from the budget. *)
Lemma budget_step x i s s1 a d u off rem : 0 <= off -> 0 < rem -> off + rem <= MAXFILE * BSIZE ->
  bmap_post x i (off / BSIZE) s a s1 -> a <> 0 ->
  let s2 := poke a d (add_logged a (logged s1)) u s1 in
  file_ok s1 i ->
  budget x s2 i (off + chunk off rem) (rem - chunk off rem) <= budget x s i off rem.
Proof.
  intros Hoff Hrem Hmax P Ha s2 Hi1. destruct (nblk_step off rem Hoff Hrem) as (En & Ediv & Hc & _ & _).
  unfold budget. rewrite En. cbn [bcost].
  assert (0 <= off / BSIZE < MAXFILE) as Hbn by fslia.
  pose proof (bp_addr _ _ _ _ _ _ P) as Ea. rewrite <- Ea in Ha.
  assert (bcost s2 i ((off + chunk off rem) / BSIZE) (nblk (off + chunk off rem) (rem - chunk off rem)) =
          bcost s i (off / BSIZE + 1) (nblk (off + chunk off rem) (rem - chunk off rem))) as ->.
  { destruct (decide (0 < rem - chunk off rem)) as [Hr|Hr].
    - rewrite Ediv by done. apply bcost_ext. intros b Hb. unfold s2. rewrite <- Ea.
      assert (0 <= b < MAXFILE).
      { unfold nblk in Hb. rewrite (proj2 (Z.leb_gt _ 0)) in Hb by lia. rewrite Ediv in Hb by done. fslia. }
      rewrite poke_baddr by done. apply (bp_same _ _ _ _ _ _ P); [done|lia].
    - unfold nblk. rewrite (proj2 (Z.leb_le _ 0)) by lia. done. }
  pose proof (bp_pot _ _ _ _ _ _ P) as Hpot.
  assert (pot x s2 i <= pot x s1 i + if baddr s i (off / BSIZE) =? 0 then 0 else 1); [|destruct (_ =? 0); lia].
  unfold pot. change (logged s2) with (add_logged a (logged s1)). rewrite length_add_logged.
  assert (cind s2 i <= cind s1 i).
  { apply cind_logged; [done|]. intros b Hb. change (b ∈ add_logged a (logged s1)). apply elem_of_add_logged. by right. }
  pose proof (bp_new _ _ _ _ _ _ P) as Hnew. destruct (Z.eqb_spec (baddr s i (off / BSIZE)) 0) as [E0|_].
  - rewrite decide_True by (apply Hnew; congruence). destruct x; lia.
  - case_decide; destruct x; lia.
Qed.

Lemma length_logged_budget x s i off rem : Z.of_nat (length (logged s)) <= budget x s i off rem.
Proof.
  unfold budget, pot. pose proof (bcost_nonneg s i (off / BSIZE) (nblk off rem)). pose proof (cind_bounds s i).
  destruct x; lia.
Qed.

Definition loop_done (i : nat) s (sr : src) (n tot off t l : Z) s' : Prop :=
  wrote i s sr tot off t l s' /\ 0 <= t /\ 0 <= l /\ t + l <= n - tot /\ (l <> 0 -> src_faults (f_user s) sr n) /\
  (t < n - tot -> disk_full s' \/ src_faults (f_user s) sr n) /\ Z.of_nat (length (logged s')) + 1 <= MAXOPBLOCKS.

Lemma writei_loop_S f i sr off n tot s : tot < n ->
  writei_loop (S f) i sr off n tot s =
  (let* addr := bmap i (off / BSIZE) in
   if addr =? 0 then ret (tot, off)
   else
     let* ip := gets (geti i) in
     let* bp := bread (i_dev ip) addr in
     let* r := either_copyin sr tot (Z.to_nat (chunk off (n - tot))) in
     let* data := bdata bp in
     bput bp (splice (Z.to_nat (off mod BSIZE)) (snd r) data) ;;
     if negb (fst r) then brelse bp ;; ret (tot, off)
     else
       log_write bp ;;
       brelse bp ;;
       writei_loop f i sr (off + chunk off (n - tot)) n (tot + chunk off (n - tot))) s.
Proof. intros Hlt. cbn [writei_loop]. by rewrite (proj2 (Z.ltb_lt _ _)). Qed.

(** The loop ends with room for the inode's block. *)
Lemma budget_room x i s s1 bn a off rem : 0 <= off -> 0 < rem -> bmap_post x i (off / BSIZE) s a s1 -> bn = off / BSIZE ->
  budget x s i off rem + 1 <= MAXOPBLOCKS -> Z.of_nat (length (logged s1)) + 1 <= MAXOPBLOCKS.
Proof.
  intros Hoff Hrem P -> Hbud. destruct (nblk_step off rem Hoff Hrem) as (En & _). pose proof (bp_pot _ _ _ _ _ _ P) as Hpot.
  unfold budget in Hbud. rewrite En in Hbud. cbn [bcost] in Hbud. unfold pot in Hpot, Hbud.
  pose proof (bcost_nonneg s i (off / BSIZE + 1) (nblk (off + chunk off rem) (rem - chunk off rem))).
  pose proof (cind_bounds s1 i). destruct x, (_ =? 0); lia.
Qed.

Section step.
Context (x : bool) (i : nat) (sr : src) (off n tot : Z) (s : fs U).
Hypotheses (Hd : disk_ok s) (Hi : file_ok s i) (Hh : held s = []) (Hop : in_op s) (Hsr : src_ok sr n).
Hypotheses (Htot : 0 <= tot < n) (Hoff : 0 <= off) (Hmax : off + (n - tot) <= MAXFILE * BSIZE).
Hypotheses (Hx : reaches x off (n - tot)) (Hbud : budget x s i off (n - tot) + 1 <= MAXOPBLOCKS).
Notation rem := (n - tot).
Notation m := (chunk off (n - tot)).

(** The copy into the block, on each of its outcomes. *)
Lemma writei_copy a s1 : bmap_post x i (off / BSIZE) s a s1 -> a <> 0 ->
  exists ok bs u, let d := splice (Z.to_nat (off mod BSIZE)) bs (blkS a s1) in
    (let* r := either_copyin sr tot (Z.to_nat m) in
     let* data := bdata a in
     bput a (splice (Z.to_nat (off mod BSIZE)) (snd r) data) ;; ret r) (set_blocks (set_held [a]) s1) =
      Ok (ok, bs) (set_blocks (set_blk a d) (set_fuser u (set_blocks (set_held [a]) s1))) /\
    (ok = false -> src_faults (f_user s) sr n) /\ Z.of_nat (length bs) <= m /\
    (forall lg, wrote i s sr tot off (if ok then m else 0) (if ok then 0 else Z.of_nat (length bs)) (poke a d lg u s1)).
Proof.
  intros P Ha. destruct (nblk_step off rem Hoff ltac:(lia)) as (_ & _ & Hc & Hfit & Hsame).
  assert (m <= rem) as Hm by (unfold chunk; lia). pose proof (bp_frame _ _ _ _ _ _ P) as F1.
  destruct (either_copyin_spec sr tot m n (set_blocks (set_held [a]) s1) Hsr ltac:(lia) ltac:(lia) ltac:(lia))
    as (ok & bs & u & Ec & Hv & Hlen & Hok & Hno & Hbs).
  exists ok, bs, u. cbv zeta. split; [|split; [|split; [done|intros lg]]].
  2: { intros E. apply (src_faults_view _ (f_user s1)); [apply F1|by apply Hno]. }
  { erewrite bind_Ok by exact Ec. unfold bdata, bput. erewrite bind_Ok by done. by erewrite bind_Ok by done. }
  { assert (forall k y, bs !! k = Some y -> y = src_byte (f_user s) sr (tot + Z.of_nat k)) as Hbs'.
    { intros k y Hk. rewrite (Hbs k y Hk). apply src_byte_view, (proj1 (fr_view _ _ _ F1)). }
    assert (Forall byte bs) as Hbyte.
    { apply Forall_lookup_2. intros k y Hk. rewrite (Hbs' k y Hk). by eapply src_byte_byte. }
    destruct ok; [specialize (Hok eq_refl)|];
      (eapply wrote_block; [done|lia|lia|lia|lia|lia| |fslia|by exists x|done..]; intros o Ho; apply Hsame; lia). }
Qed.

Lemma writei_step f :
  (exists l s', writei_loop (S f) i sr off n tot s = Ok (tot, off) s' /\ loop_done i s sr n tot off 0 l s') \/
  (exists s2, writei_loop (S f) i sr off n tot s = writei_loop f i sr (off + m) n (tot + m) s2 /\
     wrote i s sr tot off m 0 s2 /\ budget x s2 i (off + m) (rem - m) <= budget x s i off rem).
Proof.
  rewrite writei_loop_S by lia. destruct (nblk_step off rem Hoff ltac:(lia)) as (En & _ & Hc & _).
  assert (m <= rem) as Hm by (unfold chunk; lia). assert (0 <= off / BSIZE < MAXFILE) as Hbn by fslia.
  destruct (bmap_spec x i (off / BSIZE) s Hd Hi Hh Hbn) as (a & s1 & Eb & P).
  { intros Hr. apply Hx; [fslia|lia]. }
  { intros E0. split; [done|]. unfold budget in Hbud. rewrite En in Hbud. cbn [bcost] in Hbud. rewrite E0 in Hbud.
    pose proof (bcost_nonneg s i (off / BSIZE + 1) (nblk (off + m) (rem - m))). simpl in Hbud. lia. }
  pose proof (budget_room x i s s1 _ a off rem Hoff ltac:(lia) P eq_refl Hbud) as Hroom.
  pose proof P as [Hd1 Hi1 F1 Hby1 Hs1 _ _ Hfull1 _ _ _].
  erewrite bind_Ok by exact Eb. destruct (Z.eqb_spec a 0) as [E0|Ha].
  { left. exists 0, s1. split; [done|]. split; [by apply wrote_none|].
    split; [lia|]. split; [lia|]. split; [lia|]. split; [done|]. split; [by left; apply Hfull1|done]. }
  erewrite bind_Ok by done. rewrite (fi_dev _ _ Hi1). assert (held s1 = []) as Hh1 by (by rewrite (fr_held _ _ _ F1)).
  erewrite bind_Ok by (apply bread_Ok; rewrite Hh1; apply not_elem_of_nil). rewrite Hh1.
  destruct (writei_copy a s1 P Ha) as (ok & bs & u & Ec & Hno & Hlen & W). cbv zeta in *.
  apply bind_Ok_inv in Ec as (r & t1 & Ec & E2). apply bind_Ok_inv in E2 as (d & t2 & Ed & E2).
  apply bind_Ok_inv in E2 as ([] & t3 & Ep & [= -> ->]).
  erewrite bind_Ok by exact Ec. erewrite bind_Ok by exact Ed. erewrite bind_Ok by exact Ep. cbn [fst].
  set (d2 := splice (Z.to_nat (off mod BSIZE)) bs (blkS a s1)) in *. destruct ok; cbn [negb].
  - right. exists (poke a d2 (add_logged a (logged s1)) u s1).
    pose proof (budget_step x i s s1 a d2 u off rem Hoff ltac:(lia) ltac:(lia) P Ha Hi1) as Hst. cbv zeta in Hst.
    split; [|done]. erewrite bind_Ok.
    2: { apply log_write_Ok; [unfold in_op; simpl; rewrite (fr_ops _ _ _ F1); exact Hop|].
         pose proof (length_logged_budget x (poke a d2 (add_logged a (logged s1)) u s1) i (off + m) (rem - m)) as Hll.
         unfold fits. change (logged (poke _ _ ?l _ _)) with l in Hll. change (logged (set_blocks _ _)) with (logged s1). lia. }
    erewrite bind_Ok by (apply (brelse_Ok a []); [done|apply not_elem_of_nil]). rewrite <- poke_ok_eq by done. done.
  - left. exists (Z.of_nat (length bs)), (poke a d2 (logged s1) u s1). split.
    + erewrite bind_Ok by (apply (brelse_Ok a []); [done|apply not_elem_of_nil]). by rewrite poke_fail_eq.
    + split; [done|]. split; [lia|]. split; [lia|]. split; [lia|]. split; [by auto|]. split; [by auto|done].
Qed.

End step.

Lemma writei_loop_spec fuel x i sr off n tot s :
  disk_ok s -> file_ok s i -> held s = [] -> in_op s -> src_ok sr n -> 0 <= tot <= n -> 0 <= off ->
  off + (n - tot) <= MAXFILE * BSIZE -> n - tot <= Z.of_nat fuel -> reaches x off (n - tot) ->
  budget x s i off (n - tot) + 1 <= MAXOPBLOCKS ->
  exists t l s', writei_loop fuel i sr off n tot s = Ok (tot + t, off + t) s' /\ loop_done i s sr n tot off t l s'.
Proof.
  revert off tot s. induction fuel as [|fuel IH]; intros off tot s Hd Hi Hh Hop Hsr Htot Hoff Hmax Hfuel Hx Hbud.
  all: destruct (decide (tot < n)) as [Hlt|Hge]; [try lia|].
  1,3: exists 0, 0, s; cbn [writei_loop]; rewrite (proj2 (Z.ltb_ge _ _)), !Z.add_0_r by lia; split; [done|];
       pose proof (length_logged_budget x s i off (n - tot)); split; [by apply wrote_none; try apply frame_refl|lia].
  destruct (nblk_step off (n - tot) Hoff ltac:(lia)) as (_ & _ & Hc & _). set (m := chunk off (n - tot)) in *.
  assert (m <= n - tot) as Hm by (unfold m, chunk; lia).
  destruct (writei_step x i sr off n tot s Hd Hi Hh Hop Hsr ltac:(lia) Hoff Hmax Hx Hbud fuel)
    as [(l & s' & E & Hdone)|(s2 & E & W & Hb2)].
  - exists 0, l, s'. by rewrite !Z.add_0_r.
  - pose proof W as [Hd2 Hi2 F2 _ _ _]. fold m in E, W, Hb2.
    destruct (IH (off + m) (tot + m) s2) as (t & l & s' & E' & W' & Ht & Hl & Htl & Hlu & Hshort & Hroom);
      try (done || lia).
    + by rewrite (fr_held _ _ _ F2).
    + unfold in_op. by rewrite (fr_ops _ _ _ F2).
    + intros ??. apply Hx; lia.
    + replace (n - (tot + m)) with (n - tot - m) by lia. lia.
    + exists (m + t), l, s'. rewrite E, E'. split; [do 2 f_equal; lia|].
      split; [eapply wrote_trans; (done || lia)|].
      assert (src_faults (f_user s2) sr n -> src_faults (f_user s) sr n) as Hsf
        by (apply src_faults_view, (fr_view _ _ _ F2)).
      split; [lia|]. split; [done|]. split; [lia|]. split; [by auto|]. split; [|done].
      intros. destruct Hshort as [?|?]; [lia|by left|right; by auto].
Qed.

(* ------------------------------------------------------------------ *)
(** ** The inode: its size and its copy on disk *)

Lemma le_put_block n o v d : is_block d -> is_block (le_put n o v d).
Proof. intros [Hl Hb]. split; [by rewrite length_le_put|by apply le_put_byte]. Qed.

Lemma put_addrs_block o l d : is_block d -> is_block (put_addrs o l d).
Proof. revert o d. induction l as [|a l IH]; intros o d Hd; simpl; [done|]. by apply IH, le_put_block. Qed.

Lemma put_dinode_block o ip d : is_block d -> is_block (put_dinode o ip d).
Proof. intros Hd. unfold put_dinode. apply put_addrs_block. by repeat apply le_put_block. Qed.

(** A store to the block of the inode. *)
Section iupdate.
Context (i : nat) (s : fs U) (d : list Z).
Hypotheses (Hd : disk_ok s) (Hi : file_ok s i) (Hblk : is_block d).
Notation ib := (IBLOCK (i_inum (geti i s)) (f_sb s)).
Notation s' := (edit ib d s).

Lemma iblock_is : inode_block s ib.
Proof. exists (i_inum (geti i s)). split; [apply Hi|done]. Qed.

Lemma iup_keep b : ~ inode_block s b -> blkS b s' = blkS b s.
Proof. intros Hb. rewrite blkS_edit, decide_False; [done|]. intros ->. apply Hb, iblock_is. Qed.

Lemma iup_used b : 0 <= b < sb_size (f_sb s) -> used s' b = used s b.
Proof.
  intros Hb. unfold used. change (f_sb s') with (f_sb s). rewrite iup_keep; [done|].
  intros Hn. eapply (dk_disj s Hd); [|exact Hn]. by exists b.
Qed.

Lemma iup_disk_ok : disk_ok s'.
Proof.
  split.
  - intros b. rewrite blkS_edit. case_decide; [done|apply Hd].
  - apply Hd.
  - apply Hd.
  - intros b Hb. rewrite iup_used by done. by apply Hd.
Qed.

Lemma iup_baddr bn : baddr s' i bn = baddr s i bn.
Proof.
  unfold baddr. change (iaddr s' i) with (iaddr s i). change (geti i s') with (geti i s).
  destruct (bn <? NDIRECT); [done|]. destruct (Z.eqb_spec (iaddr s i) 0); [done|]. rewrite iup_keep; [done|].
  by apply (fi_own _ _ Hi), ind_owned.
Qed.

Lemma iup_owns b : owns s' i b <-> owns s i b.
Proof. unfold owns. by setoid_rewrite iup_baddr. Qed.

Lemma iup_file_ok : file_ok s' i.
Proof.
  split; try apply Hi.
  - intros a Ha. apply iup_owns in Ha. destruct (fi_own _ _ Hi a Ha) as (? & ? & ?). split; [done|].
    split; [|done]. by rewrite iup_used by (change (f_sb s') with (f_sb s); lia).
  - intros b1 b2 H1 H2. rewrite !iup_baddr. by apply Hi.
  - intros b Hb. rewrite iup_baddr. by apply Hi.
  - intros b Hb Hs. rewrite iup_baddr. by apply (fi_full _ _ Hi).
Qed.

Lemma iup_frame : frame i s s'.
Proof.
  split; try done.
  - cbv zeta. change (geti i s') with (geti i s). by destruct (geti i s).
  - intros b Hb Hu. by rewrite iup_used.
  - intros b Hb. rewrite iup_used by done. by left.
  - intros bn _ _. apply iup_baddr.
  - intros a Ha. left. by apply iup_owns.
  - intros b _ Hb _ _. by rewrite blkS_edit, decide_False.
Qed.

Lemma iup_fbyte o : 0 <= o < MAXFILE * BSIZE -> fbyte s' i o = fbyte s i o.
Proof.
  intros Ho. unfold fbyte. rewrite iup_baddr. destruct (Z.eqb_spec (baddr s i (o / BSIZE)) 0) as [|Hn]; [done|].
  rewrite iup_keep; [done|]. apply (fi_own _ _ Hi), baddr_owned; [fslia|done].
Qed.

End iupdate.

Lemma iupdate_Ok i s : file_ok s i -> let ib := IBLOCK (i_inum (geti i s)) (f_sb s) in
  ib ∉ held s -> in_op s -> fits ib s ->
  iupdate i s = Ok tt (edit ib (put_dinode (dinode_off (i_inum (geti i s))) (geti i s) (blkS ib s)) s).
Proof.
  intros Hi ib Hh Hop Hf. unfold iupdate. erewrite bind_Ok by done. erewrite bind_Ok by done.
  rewrite (fi_dev _ _ Hi). by rewrite (edit_Ok ib (put_dinode (dinode_off (i_inum (geti i s))) (geti i s))).
Qed.

Section size.
Context (i : nat) (s : fs U) (n : Z).
Hypotheses (Hd : disk_ok s) (Hi : file_ok s i) (Hn : 0 <= n <= MAXFILE * BSIZE).
Hypothesis Hfull : forall bn, 0 <= bn -> bn * BSIZE < n -> baddr s i bn <> 0.
Notation s' := (set_itab (alter (set_size n) i) s).

Lemma geti_size j : geti j s' = if decide (j = i) then set_size n (geti j s) else geti j s.
Proof. apply geti_alter, (fi_in _ _ Hi). Qed.

Lemma size_iaddr : iaddr s' i = iaddr s i.
Proof. unfold iaddr. by rewrite geti_size, decide_True. Qed.
Lemma size_baddr bn : baddr s' i bn = baddr s i bn.
Proof. unfold baddr. rewrite size_iaddr, geti_size, decide_True by done. done. Qed.
Lemma size_owns b : owns s' i b <-> owns s i b.
Proof. unfold owns. rewrite size_iaddr. by setoid_rewrite size_baddr. Qed.

Lemma size_disk_ok : disk_ok s'.
Proof. split; apply Hd. Qed.

Lemma size_file_ok : file_ok s' i.
Proof.
  split; rewrite ?geti_size, ?decide_True by done; try apply Hi.
  - simpl. rewrite length_alter. apply Hi.
  - intros a Ha. apply size_owns in Ha. by apply (fi_own _ _ Hi).
  - intros b1 b2 H1 H2. rewrite !size_baddr. by apply Hi.
  - intros b Hb. rewrite size_baddr, size_iaddr. by apply Hi.
  - done.
  - intros b Hb Hs. rewrite size_baddr. by apply Hfull.
Qed.

Lemma size_frame : frame i s s'.
Proof.
  split; try done.
  - apply length_alter.
  - intros j Hj. by rewrite geti_size, decide_False.
  - cbv zeta. by rewrite geti_size, decide_True.
  - by left.
  - intros _. apply size_iaddr.
  - intros bn _ _. apply size_baddr.
  - intros a Ha. left. by apply size_owns.
Qed.

Lemma size_fbyte o : fbyte s' i o = fbyte s i o.
Proof. unfold fbyte. by rewrite size_baddr. Qed.

End size.

End fs.
