(* ===== verification/File.v ===== *)
(** * kernel/file.c: the file table

   Files are inodes, pipes or devices behind one interface.  The state
   brings together the file system (Fs.v), the pipes (Pipe.v), the console
   (Console.v) and the table itself; a pointer to a file is its index in the
   table, a pointer to a pipe the address of its page. *)

From stdpp Require Import base numbers list gmap strings.
From Stdlib Require Import ZArith Lia.
From S2P Require Import Prelude Params UserMem Fs Pipe Console.

(** kernel/kalloc.c, as clients of a whole page see it *)
Class PageOps (U : Type) := {
  page_alloc : M U Z;            (* kalloc(): 0 when memory is full *)
  page_free : Z -> M U unit      (* kfree() *)
}.

Inductive ftype := FD_NONE | FD_PIPE | FD_INODE | FD_DEVICE.
#[global] Instance ftype_eq_dec : EqDecision ftype.
Proof. solve_decision. Defined.

(** struct file *)
Record file := File {
  fl_type : ftype; fl_ref : Z; fl_readable : bool; fl_writable : bool;
  fl_pipe : Z; fl_ip : nat; fl_off : Z; fl_major : Z
}.
Definition file0 : file := File FD_NONE 0 false false 0 0 0 0.

(** The drivers of devsw[]. *)
Inductive driver := Console.
Definition CONSOLE : Z := 1.

Record fstate (U : Type) := FState {
  k_fs : fs U;
  k_ftlock : bool;
  k_file : list file;
  k_pipes : gmap Z pipe;
  k_devsw : list (option driver);
  k_cons : cstate unit;
  k_kills : list bool        (* what killed() will answer *)
}.
Arguments FState {U}.
Arguments k_fs {U}. Arguments k_ftlock {U}. Arguments k_file {U}. Arguments k_pipes {U}.
Arguments k_devsw {U}. Arguments k_cons {U}. Arguments k_kills {U}.

Definition set_fref (r : Z) (f : file) : file :=
  File (fl_type f) r (fl_readable f) (fl_writable f) (fl_pipe f) (fl_ip f) (fl_off f) (fl_major f).
Definition set_ftype (t : ftype) (f : file) : file :=
  File t (fl_ref f) (fl_readable f) (fl_writable f) (fl_pipe f) (fl_ip f) (fl_off f) (fl_major f).
Definition set_off (o : Z) (f : file) : file :=
  File (fl_type f) (fl_ref f) (fl_readable f) (fl_writable f) (fl_pipe f) (fl_ip f) o (fl_major f).

Section file.
Context {U : Type} `{UserOps U} `{PageOps U} `{WakeBudget}.

Notation K := (M (fstate U)).

Definition L_fs : lens (fstate U) (fs U) :=
  Lens k_fs (fun f s => FState f (k_ftlock s) (k_file s) (k_pipes s) (k_devsw s) (k_cons s) (k_kills s)).
Definition L_user : lens (fstate U) U := lens_comp L_fs L_fuser.
Definition L_ftlock : lens (fstate U) bool :=
  Lens k_ftlock (fun b s => FState (k_fs s) b (k_file s) (k_pipes s) (k_devsw s) (k_cons s) (k_kills s)).
#[global] Instance fstate_woken : Woken (fstate U) := lens_comp L_fs woken.

Definition set_files (f : list file -> list file) (s : fstate U) : fstate U :=
  FState (k_fs s) (k_ftlock s) (f (k_file s)) (k_pipes s) (k_devsw s) (k_cons s) (k_kills s).
Definition getf (f : nat) (s : fstate U) : file := default file0 (k_file s !! f).
Definition upd_file (f : nat) (g : file -> file) : K unit := modify (set_files (alter g f)).
Definition set_devsw (d : list (option driver)) (s : fstate U) : fstate U :=
  FState (k_fs s) (k_ftlock s) (k_file s) (k_pipes s) d (k_cons s) (k_kills s).

(** A pipe with the caller's memory; [ps_freed] is handled by the caller. *)
Definition L_pipe (pi : Z) : lens (fstate U) (pstate U) :=
  Lens (fun s => PState (default (pipe_init []) (k_pipes s !! pi)) (f_user (k_fs s)) (k_kills s) false
          (f_woken (k_fs s)))
       (fun p s => FState (lset woken (ps_woken p) (set_fuser (ps_user p) (k_fs s))) (k_ftlock s) (k_file s)
          (<[pi := ps_pi p]> (k_pipes s)) (k_devsw s) (k_cons s) (ps_kills p)).

(** The console with the caller's memory. *)
Definition L_cons : lens (fstate U) (cstate U) :=
  Lens (fun s => let c := k_cons s in
          CState (cs_cons c) (f_user (k_fs s)) (k_kills s) (cs_tx_lock c) (cs_tx_busy c) (cs_idle c) (cs_rx c)
            (cs_out c) (f_woken (k_fs s)))
       (fun c s => FState (lset woken (cs_woken c) (set_fuser (cs_user c) (k_fs s))) (k_ftlock s) (k_file s)
          (k_pipes s) (k_devsw s)
          (CState (cs_cons c) tt [] (cs_tx_lock c) (cs_tx_busy c) (cs_idle c) (cs_rx c) (cs_out c) [])
          (cs_kills c)).

Definition fileinit : K unit := modify (lset L_ftlock false).
(** the assignments of consoleinit() to devsw[] *)
Definition console_devsw : K unit :=
  modify (fun s => set_devsw (<[Z.to_nat CONSOLE := Some Console]> (k_devsw s)) s).

(** for(f = ftable.file; f < ftable.file + NFILE; f++) *)
Fixpoint find_file (n : nat) (f : nat) (fs : list file) : option nat :=
  match n with
  | O => None
  | S n' => if fl_ref (default file0 (fs !! f)) =? 0 then Some f else find_file n' (S f) fs
  end.
Definition filealloc : K (option nat) :=
  lock_acquire L_ftlock ;;
  let* fs := gets k_file in
  match find_file (Z.to_nat NFILE) 0 fs with
  | Some f => upd_file f (set_fref 1) ;; lock_release L_ftlock ;; ret (Some f)
  | None => lock_release L_ftlock ;; ret None
  end.

Definition filedup (f : nat) : K nat :=
  lock_acquire L_ftlock ;;
  let* fl := gets (getf f) in
  if fl_ref fl <? 1 then panic "filedup"
  else
    upd_file f (fun x => set_fref (i32 (fl_ref x + 1)) x) ;;
    lock_release L_ftlock ;;
    ret f.

Definition drop_pipe (pi : Z) (s : fstate U) : fstate U :=
  FState (k_fs s) (k_ftlock s) (k_file s) (delete pi (k_pipes s)) (k_devsw s) (k_cons s) (k_kills s).
(** pipeclose(), with the kfree() at its end *)
Definition close_pipe (pi : Z) (writable : bool) : K unit :=
  let* freed := zoom (L_pipe pi) (pipeclose pi writable ;; gets ps_freed) in
  if freed : bool then modify (drop_pipe pi) ;; zoom L_user (page_free pi) else ret tt.

Definition fileclose (f : nat) : K unit :=
  lock_acquire L_ftlock ;;
  let* fl := gets (getf f) in
  if fl_ref fl <? 1 then panic "fileclose"
  else
    upd_file f (fun x => set_fref (fl_ref x - 1) x) ;;
    if fl_ref fl - 1 >? 0 then lock_release L_ftlock
    else
      let* ff := gets (getf f) in
      upd_file f (fun x => set_ftype FD_NONE (set_fref 0 x)) ;;
      lock_release L_ftlock ;;
      match fl_type ff with
      | FD_PIPE => close_pipe (fl_pipe ff) (fl_writable ff)
      | FD_INODE | FD_DEVICE =>
          zoom L_fs begin_op ;; zoom L_fs (iput (fl_ip ff)) ;; zoom L_fs end_op
      | FD_NONE => ret tt
      end.

(** The bytes of a struct stat; [junk] is what the stack held, four bytes
    of which stay as padding. *)
Definition stat_bytes (st : stat) (junk : list Z) : list Z :=
  let b := st32 0 (st_dev st) junk in
  let b := st32 4 (st_ino st) b in
  let b := st16 8 (st_type st) b in
  let b := st16 10 (st_nlink st) b in
  st64 16 (st_size st) b.

Definition filestat (f : nat) (addr : Z) (junk : list Z) : K Z :=
  let* fl := gets (getf f) in
  match fl_type fl with
  | FD_INODE | FD_DEVICE =>
      zoom L_fs (ilock (fl_ip fl)) ;;
      let* st := zoom L_fs (stati (fl_ip fl)) in
      zoom L_fs (iunlock (fl_ip fl)) ;;
      let* ok := zoom L_user (ucopyout addr (stat_bytes st junk)) in
      ret (if ok : bool then 0 else -1)
  | _ => ret (-1)
  end.

Definition devsw_at (major : Z) (s : fstate U) : option driver :=
  if (major <? 0) || (major >=? NDEV) then None else default None (k_devsw s !! Z.to_nat major).

Definition fileread (f : nat) (addr n : Z) : K Z :=
  let* fl := gets (getf f) in
  if negb (fl_readable fl) then ret (-1)
  else
    match fl_type fl with
    | FD_PIPE => zoom (L_pipe (fl_pipe fl)) (piperead (fl_pipe fl) addr n)
    | FD_DEVICE =>
        let* d := gets (devsw_at (fl_major fl)) in
        match d with
        | None => ret (-1)
        | Some Console => zoom L_cons (consoleread addr n)
        end
    | FD_INODE =>
        zoom L_fs (ilock (fl_ip fl)) ;;
        let* r := zoom L_fs (readi (fl_ip fl) (UserDst addr) (fl_off fl) (u32 n)) in
        (if fst r >? 0 then upd_file f (fun x => set_off (u32 (fl_off x + fst r)) x) else ret tt) ;;
        zoom L_fs (iunlock (fl_ip fl)) ;;
        ret (fst r)
    | FD_NONE => panic "fileread"
    end.

(** int max = ((MAXOPBLOCKS-1-1-2) / 2) * BSIZE; *)
Definition max_chunk : Z := (MAXOPBLOCKS - 1 - 1 - 2) / 2 * BSIZE.

(** while(i < n) of filewrite(): the final i. *)
Fixpoint filewrite_loop (fuel : nat) (f ip : nat) (addr n i : Z) : K Z :=
  if i <? n then
    match fuel with
    | O => diverge
    | S k =>
        let n1 := Z.min (n - i) max_chunk in
        zoom L_fs begin_op ;;
        zoom L_fs (ilock ip) ;;
        let* off := gets (fun s => fl_off (getf f s)) in
        let* r := zoom L_fs (writei ip (UserSrc (u64 (addr + i))) off n1) in
        (if r >? 0 then upd_file f (fun x => set_off (u32 (fl_off x + r)) x) else ret tt) ;;
        zoom L_fs (iunlock ip) ;;
        zoom L_fs end_op ;;
        if negb (r =? n1) then ret i else filewrite_loop k f ip addr n (i + r)
    end
  else ret i.

Definition filewrite (f : nat) (addr n : Z) : K Z :=
  let* fl := gets (getf f) in
  if negb (fl_writable fl) then ret (-1)
  else
    match fl_type fl with
    | FD_PIPE => zoom (L_pipe (fl_pipe fl)) (pipewrite (fl_pipe fl) addr n)
    | FD_DEVICE =>
        let* d := gets (devsw_at (fl_major fl)) in
        match d with
        | None => ret (-1)
        | Some Console => zoom L_cons (consolewrite addr n)
        end
    | FD_INODE =>
        let* i := filewrite_loop (Z.to_nat n) f (fl_ip fl) addr n 0 in
        ret (if i =? n then n else -1)
    | FD_NONE => panic "filewrite"
    end.

(** kernel/pipe.c: pipealloc(), its goto bad included *)
Definition set_pipe_end (r w : bool) (pi : Z) (f : file) : file :=
  File FD_PIPE (fl_ref f) r w pi (fl_ip f) (fl_off f) (fl_major f).
Definition pipealloc (junk : list Z) : K (option (nat * nat)) :=
  let bad f0 f1 :=
    match f0 with Some f => fileclose f | None => ret tt end ;;
    match f1 with Some f => fileclose f | None => ret tt end ;;
    ret None in
  let* f0 := filealloc in
  match f0 with
  | None => bad None None
  | Some r =>
      let* f1 := filealloc in
      match f1 with
      | None => bad f0 None
      | Some w =>
          let* pi := zoom L_user page_alloc in
          if pi =? 0 then bad f0 f1
          else
            modify (fun s => FState (k_fs s) (k_ftlock s) (k_file s) (<[pi := pipe_init junk]> (k_pipes s))
              (k_devsw s) (k_cons s) (k_kills s)) ;;
            upd_file r (set_pipe_end true false pi) ;;
            upd_file w (set_pipe_end false true pi) ;;
            ret (Some (r, w))
      end
  end.

End file.
