(* ===== verification/FsFile.v ===== *)
(** * Files as byte sequences

   The properties of readi() and writei() in terms of the contents of
   files. *)

From stdpp Require Import base numbers list gmap strings.
From Stdlib Require Import ZArith Lia.
From S2P Require Import Prelude Params Cmem KString Sleeplock UserMem Fs FsInv FsMap FsBmap FsWrite Pipe Console File.

Section fs.
Context {U : Type} `{UserMem U} `{WakeBudget}.
Implicit Types s : fs U.

Lemma length_contents s i : length (contents s i) = Z.to_nat (i_size (geti i s)).
Proof. unfold contents. by rewrite length_map, length_seq. Qed.

Lemma contents_lookup s i k : (k < Z.to_nat (i_size (geti i s)))%nat ->
  contents s i !! k = Some (fbyte s i (Z.of_nat k)).
Proof. intros Hk. unfold contents. by rewrite list_lookup_fmap, lookup_seq_lt. Qed.

Lemma src_bytes_lookup (u : U) sr n k : (k < n)%nat -> src_bytes u sr n !! k = Some (src_byte u sr (Z.of_nat k)).
Proof. intros Hk. unfold src_bytes. by rewrite list_lookup_fmap, lookup_seq_lt. Qed.
Lemma length_src_bytes (u : U) sr n : length (src_bytes u sr n) = n.
Proof. unfold src_bytes. by rewrite length_map, length_seq. Qed.

(** A write seen as a splice of the contents. *)
Lemma contents_splice s s' i u sr off r l :
  0 <= off <= i_size (geti i s) -> 0 <= r -> 0 <= l -> i_size (geti i s) <= MAXFILE * BSIZE -> off + r <= MAXFILE * BSIZE ->
  i_size (geti i s') = Z.max (i_size (geti i s)) (off + r) ->
  (forall o, 0 <= o < MAXFILE * BSIZE ->
    fbyte s' i o = if decide (off <= o < off + r + l) then src_byte u sr (o - off) else fbyte s i o) ->
  contents s' i = take (Z.to_nat (i_size (geti i s')))
    (splice (Z.to_nat off) (src_bytes u sr (Z.to_nat (r + l))) (contents s i)).
Proof.
  intros Hoff Hr Hl Hs Hm Es Hb. apply list_eq. intros k.
  destruct (decide (k < Z.to_nat (i_size (geti i s')))%nat) as [Hk|Hk].
  2: { rewrite !lookup_ge_None_2; [done|rewrite length_take; lia|rewrite length_contents; lia]. }
  rewrite contents_lookup, lookup_take_lt, Hb by lia. unfold splice.
  assert (length (take (Z.to_nat off) (contents s i)) = Z.to_nat off) as El by (rewrite length_take, length_contents; lia).
  destruct (decide (Z.of_nat k < off)) as [H1|H1].
  - rewrite decide_False, lookup_app_l by lia. rewrite lookup_take_lt by lia. by rewrite contents_lookup by lia.
  - rewrite lookup_app_r by lia. rewrite El. case_decide as H2.
    + rewrite lookup_app_l by (rewrite length_src_bytes; lia). rewrite src_bytes_lookup by lia. do 2 f_equal. lia.
    + rewrite lookup_app_r by (rewrite length_src_bytes; lia). rewrite length_src_bytes, lookup_drop.
      rewrite contents_lookup by lia. do 2 f_equal. lia.
Qed.

(** Another file is as well formed as before, and still shares no block. *)
Lemma file_ok_other i j s s' : frame i s s' -> disk_ok s -> file_ok s i -> j <> i -> file_ok s j ->
  (forall a, owns s i a -> owns s j a -> False) ->
  file_ok s' j /\ (forall a, owns s' i a -> owns s' j a -> False).
Proof.
  intros F Hd Hi Hj Hfj Hdisj. destruct (baddr_other i j s s' F Hd Hi Hj Hfj Hdisj) as (Hb & Ha & _).
  pose proof (fr_sb _ _ _ F) as Esb.
  assert (forall a, owns s' j a -> owns s j a) as Hown.
  { intros a [Hn [->|(bn & Hbn & E)]]; (split; [done|]); [left; by rewrite Hb|]. right. exists bn. by rewrite <- Ha. }
  split.
  - split; rewrite ?(fr_other _ _ _ F j Hj), ?Esb; try apply Hfj.
    + rewrite (fr_len _ _ _ F). apply Hfj.
    + intros a Hx%Hown. destruct (fi_own _ _ Hfj a Hx) as (Hr & Hu & Hnb & Hni). split; [done|].
      split; [apply (fr_used _ _ _ F); [lia|done]|]. by rewrite (bitmap_block_sb s), (inode_block_sb s).
    + intros b1 b2 H1 H2. rewrite !Ha by done. by apply Hfj.
    + intros b1 H1. rewrite Ha, Hb by done. by apply Hfj.
    + intros b1 H1 Hs. pose proof (fi_size _ _ Hfj). rewrite Ha by fslia. by apply (fi_full _ _ Hfj).
  - intros a Hx Hy%Hown. apply (fr_fresh _ _ _ F) in Hx as [Hx|[_ Hx]]; [by eauto|].
    destruct (fi_own _ _ Hfj a Hy) as (_ & Hu & _). congruence.
Qed.

(* ------------------------------------------------------------------ *)
(** ** writei() *)

Lemma disk_full_ext s s' : f_sb s' = f_sb s -> (forall b, 0 <= b < sb_size (f_sb s) -> used s' b = used s b) ->
  disk_full s -> disk_full s'.
Proof. intros E Hu Hf b Hb. rewrite E in Hb. rewrite Hu by done. by apply Hf. Qed.

(** The assignment to ip->size and the copy of the inode to disk. *)
Lemma writei_finish i s off t : disk_ok s -> file_ok s i -> held s = [] -> in_op s ->
  Z.of_nat (length (logged s)) + 1 <= MAXOPBLOCKS -> 0 <= off + t <= MAXFILE * BSIZE ->
  (forall bn, 0 <= bn -> bn * BSIZE < off + t -> baddr s i bn <> 0) ->
  exists s', ((let* ip := gets (geti i) in if off + t >? i_size ip then upd_inode i (set_size (off + t)) else ret tt) ;; iupdate i) s = Ok tt s' /\
    disk_ok s' /\ file_ok s' i /\ frame i s s' /\ i_size (geti i s') = Z.max (i_size (geti i s)) (off + t) /\
    (forall o, 0 <= o < MAXFILE * BSIZE -> fbyte s' i o = fbyte s i o) /\ (disk_full s -> disk_full s') /\
    Z.of_nat (length (logged s')) <= MAXOPBLOCKS.
Proof.
  intros Hd Hi Hh Hop Hlog Hmax Hfull. pose proof (fi_size _ _ Hi) as Hsz.
  set (n := Z.max (i_size (geti i s)) (off + t)).
  assert (exists s1, (let* ip := gets (geti i) in if off + t >? i_size ip then upd_inode i (set_size (off + t)) else ret tt) s = Ok tt s1 /\
    disk_ok s1 /\ file_ok s1 i /\ frame i s s1 /\ i_size (geti i s1) = n /\ logged s1 = logged s /\
    (forall o, fbyte s1 i o = fbyte s i o) /\ (forall b, used s1 b = used s b)) as (s1 & E1 & Hd1 & Hi1 & F1 & Es1 & El1 & Hb1 & Hu1).
  { erewrite bind_Ok by done. rewrite Z.gtb_ltb. destruct (Z.ltb_spec (i_size (geti i s)) (off + t)).
    - exists (set_itab (alter (set_size (off + t)) i) s). split; [done|]. split; [by apply size_disk_ok|].
      split; [by apply size_file_ok|]. split; [by apply size_frame|].
      split; [rewrite geti_size, decide_True by done; unfold n; simpl; lia|]. split; [done|]. split; [|done].
      intros o. by apply size_fbyte.
    - exists s. split; [done|]. split; [done|]. split; [done|]. split; [apply frame_refl|]. split; [unfold n; lia|done]. }
  erewrite bind_Ok by exact E1. eexists. split.
  - apply iupdate_Ok; [done| | |].
    + rewrite (fr_held _ _ _ F1), Hh. apply not_elem_of_nil.
    + unfold in_op. by rewrite (fr_ops _ _ _ F1).
    + apply fits_room. by rewrite El1.
  - split; [apply iup_disk_ok; [done|done|apply put_dinode_block, Hd1]|]. split; [by apply iup_file_ok|].
    split; [eapply frame_trans; [exact F1|by apply iup_frame]|]. split; [exact Es1|].
    split; [intros o Ho; rewrite iup_fbyte by done; apply Hb1|]. split.
    + apply disk_full_ext; [apply F1|]. intros b Hb. rewrite iup_used by (done || by rewrite (fr_sb _ _ _ F1)). apply Hu1.
    + change (logged (edit ?b _ s1)) with (add_logged b (logged s1)). rewrite length_add_logged, El1. case_decide; lia.
Qed.

Definition write_done (i : nat) s (sr : src) (off n r l : Z) s' : Prop :=
  0 <= r /\ 0 <= l /\ r + l <= n /\ (r < n -> disk_full s' \/ src_faults (f_user s) sr n) /\ (l <> 0 -> src_faults (f_user s) sr n) /\
  disk_ok s' /\ file_ok s' i /\ frame i s s' /\ i_size (geti i s') = Z.max (i_size (geti i s)) (off + r) /\
  (forall o, 0 <= o < MAXFILE * BSIZE ->
    fbyte s' i o = if decide (off <= o < off + r + l) then src_byte (f_user s) sr (o - off) else fbyte s i o) /\
  Z.of_nat (length (logged s')) <= MAXOPBLOCKS.

Lemma writei_spec x i sr off n s : disk_ok s -> file_ok s i -> held s = [] -> in_op s -> src_ok sr n -> 0 <= n ->
  0 <= off <= i_size (geti i s) -> off + n <= MAXFILE * BSIZE -> reaches x off n ->
  budget x s i off n + 1 <= MAXOPBLOCKS ->
  exists r l s', writei i sr off n s = Ok r s' /\ write_done i s sr off n r l s'.
Proof.
  intros Hd Hi Hh Hop Hsr Hn Hoff Hmax Hx Hbud. pose proof (fi_size _ _ Hi) as Hsz. unfold writei.
  erewrite bind_Ok by done. rewrite Z.gtb_ltb, (proj2 (Z.ltb_ge _ _)) by lia. cbn [orb].
  rewrite u32_small by fslia. rewrite (proj2 (Z.ltb_ge _ _)) by lia.
  rewrite Z.gtb_ltb, (proj2 (Z.ltb_ge _ _)) by lia.
  destruct (writei_loop_spec (Z.to_nat n) x i sr off n 0 s) as (t & l & s1 & E1 & W & Ht & Hl & Htl & Hlu & Hshort & Hroom);
    try (done || lia); [by rewrite Z.sub_0_r..|].
  erewrite bind_Ok by exact E1. cbn [fst snd]. destruct W as [Hd1 Hi1 F1 Es1 Hb1 Hk1].
  destruct (writei_finish i s1 off t Hd1 Hi1) as (s' & E2 & Hd2 & Hi2 & F2 & Es2 & Hb2 & Hfull2 & Hlog2).
  - by rewrite (fr_held _ _ _ F1).
  - unfold in_op. by rewrite (fr_ops _ _ _ F1).
  - done.
  - lia.
  - intros bn Hbn Hlt. destruct (decide (bn * BSIZE < i_size (geti i s))) as [Hlt'|Hge].
    + rewrite (fr_keep _ _ _ F1); [by apply (fi_full _ _ Hi)|fslia|by apply (fi_full _ _ Hi)].
    + replace bn with (bn * BSIZE / BSIZE) by (fsz; apply Z.div_mul; lia). apply Hk1. lia.
  - exists (i32 (0 + t)), l, s'. apply bind_Ok_inv in E2 as ([] & s2 & E2 & E3). erewrite bind_Ok in E2 by done.
    split.
    + erewrite bind_Ok by done. erewrite bind_Ok by exact E2. by erewrite bind_Ok by exact E3.
    + rewrite Z.add_0_l, i32_small by fslia. split; [done|]. split; [done|]. split; [lia|].
      split; [intros ?; destruct Hshort as [?|?]; [lia|left; auto|by right]|]. split; [done|]. split; [done|].
      split; [done|]. split; [by eapply frame_trans|]. split; [by rewrite Es2, Es1|]. split; [|done].
      intros o Ho. rewrite Hb2, Hb1 by done. by rewrite Z.add_0_l.
Qed.

(** A chunk of filewrite() in a fresh transaction stays in its budget. *)
Lemma chunk_budget i s off n : file_ok s i -> logged s = [] -> 0 <= n <= max_chunk -> 0 <= off <= i_size (geti i s) ->
  let x := bool_decide (NDIRECT * BSIZE < off + n) in
  reaches x off n /\ budget x s i off n + 1 <= MAXOPBLOCKS.
Proof.
  intros Hi Hlog Hn Hoff x. split; [intros ? _; unfold x; by rewrite bool_decide_true|].
  assert (pot x s i <= 2) as Hp.
  { unfold pot. rewrite Hlog. pose proof (cind_bounds s i). simpl. destruct x; lia. }
  assert (bcost s i (off / BSIZE) (nblk off n) <= 7) as Hc; [|unfold budget; fsz; lia].
  assert (forall bn k, bcost s i bn k <= 2 * Z.of_nat k) as Hle.
  { intros bn k. revert bn. induction k as [|k IH]; intros bn; cbn [bcost]; [lia|].
    specialize (IH (bn + 1)). destruct (_ =? 0); lia. }
  change max_chunk with 3072 in Hn.
  destruct (decide (nblk off n <= 3)%nat) as [H3|H3]; [specialize (Hle (off / BSIZE) (nblk off n)); lia|].
  assert (nblk off n = 4%nat /\ off mod BSIZE <> 0) as [-> Hm].
  { unfold nblk in *. destruct (Z.leb_spec n 0); fslia. }
  change (bcost s i (off / BSIZE) 4) with
    ((if baddr s i (off / BSIZE) =? 0 then 2 else 1) + bcost s i (off / BSIZE + 1) 3).
  rewrite (proj2 (Z.eqb_neq _ 0)) by (apply (fi_full _ _ Hi); fslia). specialize (Hle (off / BSIZE + 1) 3%nat). lia.
Qed.


(* ------------------------------------------------------------------ *)
(** ** readi() *)

(** bmap() of a block the file has changes nothing. *)
Lemma bmap_existing i bn s : file_ok s i -> held s = [] -> 0 <= bn < MAXFILE -> baddr s i bn <> 0 ->
  bmap i bn s = Ok (baddr s i bn) s.
Proof.
  intros Hi Hh Hbn. unfold bmap. erewrite bind_Ok by done. unfold baddr.
  destruct (Z.ltb_spec bn NDIRECT) as [Hlt|Hge]; cbv zeta; intros Hne.
  - by rewrite (proj2 (Z.eqb_neq _ 0)).
  - rewrite (proj2 (Z.ltb_lt (bn - NDIRECT) NINDIRECT)) by fslia. unfold iaddr, IND in *.
    revert Hne. destruct (Z.eqb_spec (addr_of (Z.to_nat NDIRECT) (geti i s)) 0) as [|Hn]; [done|]. intros Hne.
    erewrite bind_Ok by done. rewrite (proj2 (Z.eqb_neq _ 0)), (fi_dev _ _ Hi) by done.
    erewrite bind_Ok by (apply bread_Ok; rewrite Hh; apply not_elem_of_nil). unfold bdata. erewrite bind_Ok by done.
    change (blk ?a (f_blk (set_blocks (set_held _) s))) with (blkS a s).
    rewrite (proj2 (Z.eqb_neq _ 0)) by done. erewrite bind_Ok by done.
    erewrite bind_Ok by (apply (brelse_Ok _ (held s)); [done|rewrite Hh; apply not_elem_of_nil]).
    unfold ret. f_equal. by destruct s as [? []].
Qed.

(** Part of the destination is not mapped for the caller to write. *)
Definition dst_faults (u : U) (d : dst) (n : Z) : Prop :=
  exists va, d = UserDst va /\ ~ forall k, 0 <= k < n -> uwrite u (va + k).
Lemma dst_faults_le u d m n : m <= n -> dst_faults u d m -> dst_faults u d n.
Proof. intros Hle (va & E & Hn). exists va. split; [done|]. intros Hr. apply Hn. intros k Hk. apply Hr. lia. Qed.
Lemma dst_faults_maps u u' d n : keeps_mapped u u' -> dst_faults u' d n -> dst_faults u d n.
Proof. intros Hm (va & E & Hn). exists va. split; [done|]. intros Hr. apply Hn. intros k Hk. by apply Hm, Hr. Qed.
Definition dst_ok (d : dst) (n : Z) : Prop := match d with UserDst va => 0 <= va /\ va + n <= 2 ^ 64 | KernelDst => True end.

(** [data] arrived at the destination, [k] bytes in. *)
Definition arrived (d : dst) (k : Z) (data bs : list Z) (u u' : U) : Prop :=
  match d with
  | KernelDst => bs = data /\ u' = u
  | UserDst va => bs = [] /\
      (forall j x, data !! j = Some x -> uview u' (va + k + Z.of_nat j) = x) /\
      (forall b, b < va + k \/ va + k + Z.of_nat (length data) <= b -> uview u' b = uview u b) /\ keeps_mapped u u'
  end.

Lemma arrived_maps d k data bs u u' : arrived d k data bs u u' -> keeps_mapped u u'.
Proof. destruct d; [by intros (_ & _ & _ & ?)|by intros [_ ->]]. Qed.
Lemma arrived_app d k data data' bs bs' u u1 u2 :
  arrived d k data bs u u1 -> arrived d (k + Z.of_nat (length data)) data' bs' u1 u2 ->
  arrived d k (data ++ data') (bs ++ bs') u u2.
Proof.
  destruct d as [va|]; simpl; [|intros [-> ->] [-> ->]; done].
  intros (-> & H1 & H2 & M1) (-> & H3 & H4 & M2). split; [done|]. split; [|split; [|by eapply keeps_trans]].
  - intros j x Hj. destruct (decide (j < length data)%nat) as [Hl|Hl].
    + rewrite lookup_app_l in Hj by done. rewrite H4 by lia. by apply H1.
    + rewrite lookup_app_r in Hj by lia. rewrite <- (H3 _ _ Hj). f_equal. lia.
  - intros b Hb. rewrite length_app in Hb. rewrite H4, H2 by lia. done.
Qed.

Lemma either_copyout_spec d tot bs s n : dst_ok d n -> 0 <= tot -> 0 < Z.of_nat (length bs) ->
  tot + Z.of_nat (length bs) <= n -> Forall byte bs ->
  exists ok kb u', either_copyout d tot bs s = Ok (ok, kb) (set_fuser u' s) /\ (ok = false -> dst_faults (f_user s) d n) /\
    (ok = true -> arrived d tot bs kb (f_user s) u') /\
    (forall va, d = UserDst va -> forall b, b < va + tot \/ va + tot + Z.of_nat (length bs) <= b -> uview u' b = uview (f_user s) b).
Proof.
  intros Hd Htot Hbs Hn Hby. destruct d as [va|]; simpl in *.
  - rewrite u64_small by lia. pose proof (copyout_out (f_user s) (va + tot) bs) as Ho.
    pose proof (copyout_in (f_user s) (va + tot) bs) as Hi. pose proof (copyout_maps (f_user s) (va + tot) bs) as Hmp.
    unfold bind, zoom. simpl. destruct (copyout (f_user s) (va + tot) bs) as [ok u'] eqn:Ec. simpl in *.
    exists ok, [], u'. split; [done|]. split.
    { intros ->. exists va. split; [done|]. intros Hr. apply (copyout_fails (f_user s) (va + tot) bs); [by rewrite Ec|].
      intros k Hk. rewrite <- Z.add_assoc. apply Hr. lia. }
    split.
    + intros ->. split; [done|]. split; [|by split]. intros j x Hj. rewrite (Hi j x eq_refl Hj).
      eapply Forall_lookup_1 in Hby; [|exact Hj]. unfold byte in Hby. by apply Z.mod_small.
    + by intros ? [= ->].
  - exists true, bs, (f_user s). split; [by destruct s|]. split; [done|]. by split.
Qed.

Definition file_bytes s (i : nat) (off n : Z) : list Z := map (fun k => fbyte s i (off + Z.of_nat k)) (seq 0 (Z.to_nat n)).

Lemma file_bytes_app s i off m n : 0 <= m -> 0 <= n -> file_bytes s i off (m + n) = file_bytes s i off m ++ file_bytes s i (off + m) n.
Proof.
  intros Hm Hn. unfold file_bytes. rewrite Z2Nat.inj_add by done. rewrite seq_app, map_app. f_equal. simpl.
  rewrite <- (Nat.add_0_r (Z.to_nat m)) at 1. rewrite <- fmap_add_seq, <- list_fmap_compose.
  apply list_fmap_ext. intros k x _. simpl. f_equal. lia.
Qed.

Lemma length_file_bytes s i off n : length (file_bytes s i off n) = Z.to_nat n.
Proof. unfold file_bytes. by rewrite length_map, length_seq. Qed.

(** The part of a block that readi() copies. *)
Lemma block_slice s i off m : disk_ok s -> 0 <= off -> 0 <= m -> off mod BSIZE + m <= BSIZE ->
  (forall o, off <= o < off + m -> o / BSIZE = off / BSIZE) -> baddr s i (off / BSIZE) <> 0 ->
  slice (Z.to_nat (off mod BSIZE)) (Z.to_nat m) (blkS (baddr s i (off / BSIZE)) s) = file_bytes s i off m.
Proof.
  intros Hd Hoff Hm Hfit Hdiv Hne. destruct (dk_block s Hd (baddr s i (off / BSIZE))) as [Hl _].
  assert (Z.of_nat (length (blkS (baddr s i (off / BSIZE)) s)) = BSIZE) as Hl' by (by rewrite Hl, block_bytes_Z).
  apply list_eq. intros k. destruct (decide (k < Z.to_nat m)%nat) as [Hk|Hk].
  - rewrite slice_lookup by done. unfold file_bytes. rewrite list_lookup_fmap, lookup_seq_lt by done. simpl.
    destruct (lookup_lt_is_Some_2 (blkS (baddr s i (off / BSIZE)) s) (Z.to_nat (off mod BSIZE) + k)) as [y Hy]; [fslia|].
    rewrite Hy. f_equal. unfold fbyte. specialize (Hdiv (off + Z.of_nat k) ltac:(lia)).
    rewrite Hdiv, (proj2 (Z.eqb_neq _ 0)) by done.
    replace (Z.to_nat ((off + Z.of_nat k) mod BSIZE)) with (Z.to_nat (off mod BSIZE) + k)%nat by fslia.
    by rewrite Hy.
  - rewrite !lookup_ge_None_2; [done|rewrite length_file_bytes; lia|].
    unfold slice. rewrite length_take. lia.
Qed.

Lemma set_fuser_ok (u : U) s i : disk_ok s -> file_ok s i -> disk_ok (set_fuser u s) /\ file_ok (set_fuser u s) i.
Proof. intros Hd Hi. split; split; (apply Hd || apply Hi). Qed.

Definition read_done (i : nat) s (d : dst) (off n tot : Z) (r : Z * list Z) (u : U) : Prop :=
  (fst r = n /\ arrived d tot (file_bytes s i off (n - tot)) (snd r) (f_user s) u) \/
  (fst r = -1 /\ dst_faults (f_user s) d n /\
   (forall va, d = UserDst va -> forall b, b < va + tot \/ va + n <= b -> uview u b = uview (f_user s) b)).

Lemma readi_loop_spec fuel i d off n tot s :
  disk_ok s -> file_ok s i -> held s = [] -> dst_ok d n -> 0 <= tot <= n -> 0 <= off ->
  off + (n - tot) <= i_size (geti i s) -> n - tot <= Z.of_nat fuel ->
  exists r u, readi_loop fuel i d off n tot s = Ok r (set_fuser u s) /\ read_done i s d off n tot r u.
Proof.
  revert off tot s. induction fuel as [|fuel IH]; intros off tot s Hd Hi Hh Hdst Htot Hoff Hsz Hfuel;
    cbn [readi_loop]; destruct (Z.ltb_spec tot n) as [Hlt|Hge]; try lia.
  1,3: exists (tot, []), (f_user s); split; [by destruct s|]; left; split; [simpl; lia|];
    unfold file_bytes; replace (Z.to_nat (n - tot)) with 0%nat by lia; destruct d; simpl;
    (split; [done|]); [split; [by intros j x Hx; rewrite lookup_nil in Hx|done]|done].
  destruct (nblk_step off (n - tot) Hoff ltac:(lia)) as (_ & _ & Hc & Hfit & Hsame).
  fold (chunk off (n - tot)). set (m := chunk off (n - tot)) in *. assert (m <= n - tot) as Hm by (unfold m, chunk; lia).
  pose proof (fi_size _ _ Hi). assert (0 <= off / BSIZE < MAXFILE) as Hbn by fslia.
  assert (baddr s i (off / BSIZE) <> 0) as Hne by (apply (fi_full _ _ Hi); fslia).
  erewrite bind_Ok by by apply bmap_existing. rewrite (proj2 (Z.eqb_neq _ 0)) by done.
  erewrite bind_Ok by done. rewrite (fi_dev _ _ Hi).
  erewrite bind_Ok by (apply bread_Ok; rewrite Hh; apply not_elem_of_nil). unfold bdata. erewrite bind_Ok by done.
  change (blk ?a (f_blk (set_blocks (set_held _) s))) with (blkS a s).
  rewrite block_slice by (done || lia).
  assert (Forall byte (file_bytes s i off m)) as Hby.
  { apply Forall_lookup_2. intros k x Hx. unfold file_bytes in Hx. rewrite list_lookup_fmap in Hx.
    apply fmap_Some in Hx as (? & _ & ->). by apply fbyte_range. }
  set (s1 := set_blocks (set_held (baddr s i (off / BSIZE) :: held s)) s).
  destruct (either_copyout_spec d tot (file_bytes s i off m) s1 n Hdst) as (ok & kb & u1 & Ec & Hno & Hok & Hout);
    rewrite ?length_file_bytes; try (done || lia).
  erewrite bind_Ok by exact Ec.
  erewrite bind_Ok by (apply (brelse_Ok _ (held s)); [done|rewrite Hh; apply not_elem_of_nil]).
  replace (set_blocks (set_held (held s)) (set_fuser u1 s1)) with (set_fuser u1 s) by (by destruct s as [? []]).
  rewrite length_file_bytes in Hout. destruct ok; cbn [fst snd negb].
  - destruct (set_fuser_ok u1 s i Hd Hi) as [Hd1 Hi1].
    destruct (IH (off + m) (tot + m) (set_fuser u1 s) Hd1 Hi1) as (r & u & E & Hr); try (done || lia).
    { change (geti i (set_fuser u1 s)) with (geti i s). lia. }
    exists (fst r, kb ++ snd r), u. erewrite bind_Ok by exact E. split; [by destruct s|].
    destruct Hr as [[En Harr]|(En & Hu & Hfr)].
    + left. split; [done|]. cbn [snd]. replace (n - tot) with (m + (n - (tot + m))) by lia.
      rewrite file_bytes_app by lia. eapply arrived_app; [by apply Hok|]. rewrite length_file_bytes.
      replace (Z.of_nat (Z.to_nat m)) with m by lia. exact Harr.
    + right. split; [done|]. split; [eapply dst_faults_maps; [|exact Hu]; by eapply arrived_maps, Hok|].
      intros va Ed b Hb. rewrite (Hfr va Ed) by lia. simpl.
      apply (Hout va Ed). lia.
  - exists (-1, []), u1. split; [by destruct s|]. right. split; [done|]. split; [by apply Hno|].
    intros va Ed b Hb. apply (Hout va Ed). lia.
Qed.

(** readi() in terms of the contents of the file. *)
Lemma readi_spec s i d off n :
  disk_ok s -> file_ok s i -> held s = [] -> dst_ok d n -> 0 <= n -> 0 <= off -> off + n < 2 ^ 32 ->
  exists r bs u, readi i d off n s = Ok (r, bs) (set_fuser u s) /\
    let data := slice (Z.to_nat off) (Z.to_nat n) (contents s i) in
    ((r = Z.of_nat (length data) /\ arrived d 0 data bs (f_user s) u) \/
     (r = -1 /\ dst_faults (f_user s) d n /\
      forall va, d = UserDst va -> forall b, b < va \/ va + n <= b -> uview u b = uview (f_user s) b)).
Proof.
  intros Hd Hi Hh Hdst Hn Hoff Hov. pose proof (fi_size _ _ Hi) as Hsz. unfold readi. erewrite bind_Ok by done.
  rewrite u32_small by lia. rewrite (proj2 (Z.ltb_ge (off + n) off)), orb_false_r by lia.
  rewrite Z.gtb_ltb. destruct (Z.ltb_spec (i_size (geti i s)) off) as [Hgt|Hle].
  - exists 0, [], (f_user s). split; [by destruct s|]. cbv zeta.
    assert (slice (Z.to_nat off) (Z.to_nat n) (contents s i) = []) as ->.
    { unfold slice. rewrite drop_ge, take_nil by (rewrite length_contents; lia). done. }
    left. split; [done|]. destruct d; simpl; [|done]. split; [done|]. split; [by intros j x Hx; rewrite lookup_nil in Hx|done].
  - rewrite Z.gtb_ltb.
    set (k := if i_size (geti i s) <? off + n then i_size (geti i s) - off else n).
    assert (0 <= k <= n /\ off + k <= i_size (geti i s) /\ (k = n \/ off + k = i_size (geti i s))) as (Hk & Hkn & Hcase).
    { unfold k. destruct (Z.ltb_spec (i_size (geti i s)) (off + n)); lia. }
    destruct (readi_loop_spec (Z.to_nat k) i d off k 0 s Hd Hi Hh) as ([r bs] & u & E & Hr); try lia.
    { destruct d; simpl in *; lia. }
    erewrite bind_Ok by exact E. cbn [fst snd]. cbv zeta.
    assert (slice (Z.to_nat off) (Z.to_nat n) (contents s i) = file_bytes s i off k) as ->.
    { apply list_eq. intros j. unfold slice. destruct (decide (j < Z.to_nat k)%nat) as [Hj|Hj].
      - rewrite lookup_take_lt, lookup_drop, contents_lookup by lia. unfold file_bytes.
        rewrite list_lookup_fmap, lookup_seq_lt by done. simpl. do 2 f_equal. lia.
      - rewrite !lookup_ge_None_2; [done|rewrite length_file_bytes; lia|].
        rewrite length_take, length_drop, length_contents. lia. }
    rewrite length_file_bytes. destruct Hr as [[En Ha]|(En & Hu & Hfr)]; simpl in En; subst r.
    + exists (i32 k), bs, u. split; [done|]. left. rewrite i32_small by fslia. rewrite Z.sub_0_r in Ha. split; [lia|done].
    + exists (i32 (-1)), bs, u. split; [done|]. right. split; [done|].
      split; [by eapply dst_faults_le; [|exact Hu]; lia|].
      intros va Ed b Hb. apply (Hfr va Ed). lia.
Qed.

(** C32. readi() of a well-formed file returns the bytes of its contents from
    the offset on, as many as were asked for and exist: in the kernel's
    buffer, or at the user address with nothing else of user memory changed;
    or -1, only for user memory that faults.  The file system is as it
    was. *)
Theorem readi_reads s i d off n :
  disk_ok s -> file_ok s i -> held s = [] -> dst_ok d n -> 0 <= n -> 0 <= off -> off + n < 2 ^ 32 ->
  exists r bs u, readi i d off n s = Ok (r, bs) (set_fuser u s) /\
    let data := slice (Z.to_nat off) (Z.to_nat n) (contents s i) in
    ((r = Z.of_nat (length data) /\ arrived d 0 data bs (f_user s) u) \/
     (r = -1 /\ dst_faults (f_user s) d n /\
      forall va, d = UserDst va -> forall b, b < va \/ va + n <= b -> uview u b = uview (f_user s) b)).
Proof. apply readi_spec. Qed.

End fs.

(* ------------------------------------------------------------------ *)
(** ** A small disk

   Ten blocks: the inodes in block 3, the bitmap in block 4, and in block 5
   the only block [d] of inode 1, of type [ty] and [sz] bytes. *)

Definition ex_sb : superblock := Superblock FSMAGIC 10 4 2 0 2 3 4.
Definition ex_ip (ty sz : Z) : inode :=
  Inode ROOTDEV 1 1 initsleeplock true ty 0 0 1 sz (5 :: replicate 12 0).
Definition ex_blocks (d : list Z) : gmap Z (list Z) :=
  <[4 := 63 :: replicate 1023 0]> (<[5 := d]> ∅).
Definition ex_disk (ty sz : Z) (d : list Z) : fs flat :=
  Fs ex_sb (BlocksSt (ex_blocks d) [] [] 1) false (ex_ip ty sz :: replicate (Z.to_nat NINODE - 1) inode0) 7 0 ∅ [].

Section ex.
Context (ty sz : Z) (d : list Z) (Hsz : 0 <= sz <= BSIZE) (Hdb : is_block d).
Notation exd := (ex_disk ty sz d).

Lemma ex_block b : is_block (blkS b exd).
Proof using Hdb.
  unfold blkS, blk. cbn [f_blk ex_disk bk_data]. unfold ex_blocks.
  destruct (decide (b = 4)) as [->|]; [|rewrite lookup_insert_ne by done; destruct (decide (b = 5)) as [->|]].
  - rewrite lookup_insert_eq. split; [vm_compute; reflexivity|]. apply Forall_cons. split; [unfold byte; lia|].
    apply Forall_replicate. unfold byte. lia.
  - by rewrite lookup_insert_eq.
  - rewrite lookup_insert_ne, lookup_empty by done. apply is_block_zero.
Qed.

Lemma ex_meta b : bitmap_block exd b \/ inode_block exd b -> b = 4 \/ b = 3.
Proof. unfold bitmap_block, inode_block, BBLOCK, IBLOCK. simpl. fsz. intros [(x & ? & ->)|(x & ? & ->)]; divlia. Qed.

Lemma ex_disk_ok : disk_ok exd.
Proof using Hdb.
  split.
  - apply ex_block.
  - simpl. lia.
  - unfold bitmap_block, inode_block, BBLOCK, IBLOCK. simpl. fsz. intros b (x & ? & ->) (y & ? & ?). divlia.
  - intros b Hb Hu. simpl in Hb.
    assert (b = 6 \/ b = 7 \/ b = 8 \/ b = 9) as Hc.
    { destruct (decide (6 <= b)); [lia|].
      assert (b = 0 \/ b = 1 \/ b = 2 \/ b = 3 \/ b = 4 \/ b = 5) as [->|[->|[->|[->|[->| ->]]]]] by lia;
        vm_compute in Hu; discriminate. }
    split; [lia|]. split; intros Hm; pose proof (ex_meta b) as Hx; [destruct Hx as [|]; [by left|lia..]|destruct Hx as [|]; [by right|lia..]].
Qed.

Lemma ex_baddr bn : 0 <= bn < MAXFILE -> baddr exd 0 bn = if decide (bn = 0) then 5 else 0.
Proof.
  intros Hbn. unfold baddr. destruct (Z.ltb_spec bn NDIRECT) as [Hlt|Hge].
  - fsz. assert (bn = 0 \/ bn = 1 \/ bn = 2 \/ bn = 3 \/ bn = 4 \/ bn = 5 \/ bn = 6 \/ bn = 7 \/ bn = 8 \/ bn = 9 \/ bn = 10 \/ bn = 11)
      as Hc by lia. repeat destruct Hc as [->|Hc]; subst; vm_compute; reflexivity.
  - rewrite decide_False by fslia. done.
Qed.

Lemma ex_owns a : owns exd 0 a -> a = 5.
Proof.
  intros [Ha [->|(bn & Hbn & E)]]; [vm_compute in Ha; done|]. rewrite ex_baddr in E by done. by case_decide.
Qed.

Lemma ex_file_ok : file_ok exd 0.
Proof using Hsz.
  split.
  - simpl. lia.
  - reflexivity.
  - simpl. lia.
  - reflexivity.
  - intros a ->%ex_owns. split; [simpl; lia|]. split; [vm_compute; reflexivity|].
    split; intros Hm; pose proof (ex_meta 5) as Hx; [destruct Hx as [|]; [by left|lia..]|destruct Hx as [|]; [by right|lia..]].
  - intros bn bn' Hbn Hbn'. rewrite !ex_baddr by done. repeat case_decide; congruence.
  - intros bn Hbn. rewrite ex_baddr by done. change (iaddr exd 0) with 0. case_decide; congruence.
  - change (i_size (geti 0 exd)) with sz. fsz. lia.
  - intros bn Hbn Hs. change (i_size (geti 0 exd)) with sz in Hs. rewrite ex_baddr by fslia.
    rewrite decide_True by fslia. done.
Qed.

End ex.

(** A file of three bytes. *)
Definition ex_data : list Z := [104; 105; 33] ++ replicate 1021 0.
Definition ex_fs : fs flat := ex_disk T_FILE 3 ex_data.
Lemma ex_data_block : is_block ex_data.
Proof.
  split; [vm_compute; reflexivity|]. apply Forall_app. split; [bytes|]. apply Forall_replicate. unfold byte. lia.
Qed.
Lemma ex_fs_disk_ok : disk_ok ex_fs.
Proof. apply ex_disk_ok, ex_data_block. Qed.
Lemma ex_fs_file_ok : file_ok ex_fs 0.
Proof. apply ex_file_ok. fsz. lia. Qed.


Lemma readi_reads_witness : exists r bs u,
  readi 0 KernelDst 1 10 ex_fs = Ok (r, bs) (set_fuser u ex_fs) /\ (r = 2 \/ r = -1).
Proof.
  destruct (readi_reads ex_fs 0 KernelDst 1 10) as (r & bs & u & E & Hr).
  - exact ex_fs_disk_ok.
  - exact ex_fs_file_ok.
  - reflexivity.
  - exact I.
  - lia.
  - lia.
  - lia.
  - exists r, bs, u. split; [exact E|]. destruct Hr as [[-> _]|[-> _]]; [left; vm_compute; reflexivity|by right].
Defined.
