(* ===== verification/FileWrite.v ===== *)
(** * write() to a file, end to end

   filewrite() cuts a write into chunks, each in its own transaction, with
   the inode locked and the data copied from user memory. *)

From stdpp Require Import base numbers list gmap strings.
From Stdlib Require Import ZArith Lia.
From S2P Require Import Prelude Params Cmem KString Sleeplock UserMem Fs FsInv FsMap FsBmap FsWrite Pipe Console File FsFile.

Section fs.
Context {U : Type} `{UserMem U} `{WakeBudget}.
Implicit Types s : fs U.

(* ------------------------------------------------------------------ *)
(** ** The inode's lock *)

(** A change of the state that no block and no field of an inode other than
    its lock depends on. *)
Definition relock (i : nat) (k : sleeplock) (w : list chan) (ops : Z) (lg : list Z) s : fs U :=
  Fs (f_sb s) (BlocksSt (bk_data (f_blk s)) (bk_held (f_blk s)) lg ops) (f_itlock s)
    (alter (set_ilock k) i (f_itab s)) (f_pid s) (f_cwd s) (f_user s) w.

Lemma geti_relock i j k w ops lg s : (i < length (f_itab s))%nat ->
  geti j (relock i k w ops lg s) = if decide (j = i) then set_ilock k (geti j s) else geti j s.
Proof. apply (geti_alter i j (set_ilock k) s). Qed.

Section relock.
Context (i : nat) (k : sleeplock) (w : list chan) (ops : Z) (lg : list Z) (s : fs U).
Hypothesis Hi : (i < length (f_itab s))%nat.
Notation s' := (relock i k w ops lg s).

Lemma relock_fields j : i_addrs (geti j s') = i_addrs (geti j s) /\ i_size (geti j s') = i_size (geti j s) /\
  i_dev (geti j s') = i_dev (geti j s) /\ i_inum (geti j s') = i_inum (geti j s) /\
  i_valid (geti j s') = i_valid (geti j s) /\ i_ref (geti j s') = i_ref (geti j s).
Proof. rewrite geti_relock by done. by case_decide. Qed.

Lemma relock_iaddr j : iaddr s' j = iaddr s j.
Proof. unfold iaddr, addr_of. by rewrite (proj1 (relock_fields j)). Qed.
Lemma relock_baddr j bn : baddr s' j bn = baddr s j bn.
Proof. unfold baddr. rewrite relock_iaddr. unfold addr_of. by rewrite (proj1 (relock_fields j)). Qed.
Lemma relock_owns j a : owns s' j a <-> owns s j a.
Proof. unfold owns. rewrite relock_iaddr. by setoid_rewrite relock_baddr. Qed.
Lemma relock_contents j : contents s' j = contents s j.
Proof.
  unfold contents. destruct (relock_fields j) as (_ & -> & _). apply list_fmap_ext. intros n x _.
  unfold fbyte. by rewrite relock_baddr.
Qed.
Lemma relock_disk_ok : disk_ok s -> disk_ok s'.
Proof. intros Hd. split; apply Hd. Qed.
Lemma relock_file_ok j : file_ok s j <-> file_ok s' j.
Proof.
  destruct (relock_fields j) as (Ha & Hs & Hdv & Hin & _). split; intros Hf.
  - split; rewrite ?Ha, ?Hs, ?Hdv, ?Hin; try apply Hf.
    + simpl. rewrite length_alter. apply Hf.
    + intros a Hx%relock_owns. by apply (fi_own _ _ Hf).
    + intros b1 b2. rewrite !relock_baddr. apply Hf.
    + intros b1. rewrite relock_baddr, relock_iaddr. apply Hf.
    + intros b1. rewrite relock_baddr. apply Hf.
  - split; rewrite <- ?Ha, <- ?Hs, <- ?Hdv, <- ?Hin; try apply Hf.
    + pose proof (fi_in _ _ Hf) as Hl. simpl in Hl. by rewrite length_alter in Hl.
    + intros a Hx. apply (fi_own _ _ Hf). by apply relock_owns.
    + intros b1 b2. rewrite <- !relock_baddr. apply Hf.
    + intros b1. rewrite <- relock_baddr, <- relock_iaddr. apply Hf.
    + intros b1. rewrite <- relock_baddr. apply Hf.
Qed.

End relock.

(** The lock of an inode, found through [L_ilock]. *)
Lemma ilock_lens i : lock_lens (L_ilock i) (fun s : fs U => (i < length (f_itab s))%nat).
Proof.
  split; intros; simpl; rewrite ?length_alter; try done.
  - by rewrite geti_alter, decide_True.
  - unfold set_itab. simpl. by rewrite alter_twice.
  - unfold set_itab. destruct s; simpl. f_equal. apply list_eq. intros j.
    destruct (decide (i = j)) as [<-|Hj]; [|by rewrite list_lookup_alter_ne].
    rewrite list_lookup_alter_eq. unfold geti. simpl. destruct (f_itab !! i) as [x|]; simpl; [|done]. by destruct x.
Qed.

Lemma ilock_Ok i s : (i < length (f_itab s))%nat -> 1 <= i_ref (geti i s) -> i_valid (geti i s) = true ->
  sl_locked (i_lock (geti i s)) = false -> sl_lk (i_lock (geti i s)) = false ->
  ilock i s = Ok tt (relock i (Sleeplock true false (f_pid s)) (f_woken s) (bk_ops (f_blk s)) (logged s) s).
Proof.
  intros Hi Hr Hv Hl Hk. unfold ilock. erewrite bind_Ok by done. rewrite (proj2 (Z.ltb_ge _ _)) by done.
  erewrite bind_Ok by done. erewrite bind_Ok by by apply (acquiresleep_free _ _ (ilock_lens i)).
  erewrite bind_Ok by done. simpl. rewrite geti_alter, decide_True by done. simpl. rewrite Hv.
  unfold ret. f_equal. by destruct s as [? []].
Qed.

Lemma iunlock_Ok i s : (i < length (f_itab s))%nat -> 1 <= i_ref (geti i s) ->
  i_lock (geti i s) = Sleeplock true false (f_pid s) ->
  iunlock i s = Ok tt (relock i initsleeplock (f_woken s ++ [inode_chan i]) (bk_ops (f_blk s)) (logged s) s).
Proof.
  intros Hi Hr Hl. unfold iunlock. erewrite bind_Ok by done.
  erewrite bind_Ok by (apply (holdingsleep_free _ _ (ilock_lens i)); [done|simpl; by rewrite Hl]).
  erewrite bind_Ok by done. simpl. rewrite Hl. simpl. rewrite Z.eqb_refl, (proj2 (Z.ltb_ge _ _)) by done. simpl.
  rewrite (releasesleep_free _ _ (ilock_lens i)) by (done || simpl; by rewrite Hl). simpl. by destruct s as [? []].
Qed.

(* ------------------------------------------------------------------ *)
(** ** One chunk *)

(** Between two chunks: the inode is in memory and unlocked, the process has
    no buffer, no open transaction and nothing in the log. *)
Record idle s (i : nat) : Prop := {
  id_disk : disk_ok s;
  id_file : file_ok s i;
  id_held : held s = [];
  id_ops : bk_ops (f_blk s) = 0;
  id_logged : logged s = [];
  id_ref : 1 <= i_ref (geti i s);
  id_valid : i_valid (geti i s) = true;
  id_locked : sl_locked (i_lock (geti i s)) = false;
  id_lk : sl_lk (i_lock (geti i s)) = false
}.

(** How much of a write is done: [t] bytes of the source from byte [k] on
    went to offset [off], and [l] more of a copy that failed.  It is less than
    all [n] only when the disk is full, when the process has an address of the
    range not mapped, or when the next chunk would end past the largest size
    of a file. *)
Record written (i : nat) s (va k off n t l : Z) s' : Prop := {
  wn_idle : idle s' i;
  wn_t : 0 <= t /\ 0 <= l /\ t + l <= n;
  wn_short : t < n -> disk_full s' \/ src_faults (f_user s) (UserSrc (va + k)) n \/
    MAXFILE * BSIZE < off + t + Z.min (n - t) max_chunk;
  wn_left : l <> 0 -> src_faults (f_user s) (UserSrc (va + k)) n;
  wn_view : same_user (f_user s) (f_user s');
  wn_size : i_size (geti i s') = Z.max (i_size (geti i s)) (off + t);
  wn_contents : contents s' i = take (Z.to_nat (i_size (geti i s')))
    (splice (Z.to_nat off) (ubytes (f_user s) (va + k) (Z.to_nat (t + l))) (contents s i));
  wn_others j : j <> i -> file_ok s j -> (forall a, owns s i a -> owns s j a -> False) ->
    contents s' j = contents s j /\ file_ok s' j /\ (forall a, owns s' i a -> owns s' j a -> False)
}.

Lemma src_ubytes (u : U) va n : src_bytes u (UserSrc va) n = ubytes u va n.
Proof. done. Qed.

Lemma relock_used i k w ops lg s b : used (relock i k w ops lg s) b = used s b.
Proof. done. Qed.

(** writei() of a chunk, which does nothing when the chunk would end past the
    largest size of a file. *)
Lemma chunk_writei i s va off n : disk_ok s -> file_ok s i -> held s = [] -> in_op s -> logged s = [] ->
  0 <= va -> va + n <= 2 ^ 64 -> 0 < n <= max_chunk -> 0 <= off <= i_size (geti i s) ->
  exists r t l s', writei i (UserSrc va) off n s = Ok r s' /\ (r = t \/ r = -1 /\ t = 0) /\
    0 <= t /\ 0 <= l /\ t + l <= n /\
    (t < n -> disk_full s' \/ src_faults (f_user s) (UserSrc va) n \/ MAXFILE * BSIZE < off + t + Z.min (n - t) max_chunk) /\
    (l <> 0 -> src_faults (f_user s) (UserSrc va) n) /\ off + t <= MAXFILE * BSIZE /\
    disk_ok s' /\ file_ok s' i /\ frame i s s' /\ i_size (geti i s') = Z.max (i_size (geti i s)) (off + t) /\
    (forall o, 0 <= o < MAXFILE * BSIZE ->
      fbyte s' i o = if decide (off <= o < off + t + l) then src_byte (f_user s) (UserSrc va) (o - off) else fbyte s i o).
Proof.
  intros Hd Hi Hh Hop Hlog Hva Hmax Hn Hoff. pose proof (fi_size _ _ Hi) as Hsz.
  destruct (decide (off + n <= MAXFILE * BSIZE)) as [Hfit|Hbig].
  - destruct (chunk_budget i s off n Hi Hlog ltac:(lia) ltac:(lia)) as [Hx Hb].
    destruct (writei_spec _ i (UserSrc va) off n s Hd Hi Hh Hop ltac:(simpl; lia)
      ltac:(lia) ltac:(lia) Hfit Hx Hb) as (r & l & s2 & E2 & Hr0 & Hl0 & Hrl & Hshort & Hleft & Hd2 & Hi2 & F & Es2 & Hby & _).
    exists r, r, l, s2. split; [done|]. split; [by left|]. do 3 (split; [done|]). split.
    { intros Hlt. destruct (Hshort Hlt); auto. }
    split; [done|]. split; [lia|done].
  - exists (-1), 0, 0, s. split.
    { unfold writei. erewrite bind_Ok by done. rewrite Z.gtb_ltb, (proj2 (Z.ltb_ge _ _)) by lia. cbn [orb].
      assert (off + n < 2 ^ 32) by (change max_chunk with 3072 in Hn; fslia).
      rewrite u32_small by lia. rewrite (proj2 (Z.ltb_ge _ _)) by lia.
      by rewrite Z.gtb_ltb, (proj2 (Z.ltb_lt _ _)) by lia. }
    split; [by right|]. do 2 (split; [done|]). split; [lia|]. split; [intros _; right; right; lia|].
    do 2 (split; [done||lia|]). do 2 (split; [done|]). split; [apply frame_refl|]. split; [lia|].
    intros o _. case_decide; [lia|done].
Qed.

Lemma chunk_spec i s va k off n : idle s i -> 0 <= va + k -> va + k + n <= 2 ^ 64 -> 0 < n <= max_chunk ->
  0 <= off <= i_size (geti i s) ->
  exists r t l s1 s2 s', (begin_op ;; ilock i) s = Ok tt s1 /\ writei i (UserSrc (va + k)) off n s1 = Ok r s2 /\
    (iunlock i ;; end_op) s2 = Ok tt s' /\ (r = t \/ r = -1 /\ t = 0) /\ off + t <= MAXFILE * BSIZE /\
    written i s va k off n t l s'.
Proof.
  intros [Hd Hi Hh Hops Hlog Hr Hv Hl Hk] Hva Hmax Hn Hoff. pose proof (fi_in _ _ Hi) as Hin.
  set (s1 := relock i (Sleeplock true false (f_pid s)) (f_woken s) 1 [] s).
  assert ((begin_op ;; ilock i) s = Ok tt s1) as E1.
  { erewrite bind_Ok by done. rewrite ilock_Ok by done. f_equal. unfold s1, relock. simpl.
    unfold logged in *. simpl. by rewrite Hlog, Hops. }
  assert (file_ok s1 i) as Hi1 by by apply relock_file_ok.
  assert (disk_ok s1) as Hd1 by by apply relock_disk_ok.
  destruct (relock_fields i (Sleeplock true false (f_pid s)) (f_woken s) 1 [] s Hin i) as (_ & Es1 & _ & _ & Ev1 & Er1).
  fold s1 in Es1, Ev1, Er1.
  destruct (chunk_writei i s1 (va + k) off n Hd1 Hi1 Hh ltac:(unfold in_op; simpl; lia) eq_refl Hva Hmax Hn ltac:(lia))
    as (r & t & l & s2 & E2 & Hrt & Hr0 & Hl0 & Hrl & Hshort & Hleft & Htm & Hd2 & Hi2 & F & Es2 & Hby).
  pose proof (fr_ino _ _ _ F) as Ei. cbv zeta in Ei.
  assert (geti i s1 = set_ilock (Sleeplock true false (f_pid s)) (geti i s)) as Eg1.
  { unfold s1. by rewrite geti_relock, decide_True. }
  set (s' := relock i initsleeplock (f_woken s2 ++ [inode_chan i]) 0 [] s2).
  assert ((iunlock i ;; end_op) s2 = Ok tt s') as E3.
  { erewrite bind_Ok.
    2: { apply iunlock_Ok; [apply (fi_in _ _ Hi2)|rewrite Ei; simpl; by rewrite Er1|].
         rewrite Ei. simpl. rewrite Eg1. simpl. by rewrite (proj1 (proj2 (fr_misc _ _ _ F))). }
    unfold end_op, modify. f_equal. unfold s', relock, set_blocks. simpl. by rewrite (fr_ops _ _ _ F). }
  exists r, t, l, s1, s2, s'. do 5 (split; [done|]).
  pose proof (fi_in _ _ Hi2) as Hin2.
  destruct (relock_fields i initsleeplock (f_woken s2 ++ [inode_chan i]) 0 [] s2 Hin2 i) as (_ & Es' & _ & _ & Ev' & Er').
  fold s' in Es', Ev', Er'. split.
  - split; try done.
    + by apply relock_disk_ok.
    + by apply relock_file_ok.
    + change (held s2 = []). by rewrite (fr_held _ _ _ F).
    + rewrite Er', Ei. simpl. by rewrite Er1.
    + rewrite Ev', Ei. simpl. by rewrite Ev1.
    + unfold s'. by rewrite geti_relock, decide_True.
    + unfold s'. by rewrite geti_relock, decide_True.
  - done.
  - intros Hlt. destruct (Hshort Hlt) as [Hf|Hf]; [left|by right]. intros b Hb'. by apply Hf.
  - done.
  - exact (fr_view _ _ _ F).
  - rewrite Es', Es2, Es1. done.
  - rewrite Es'. unfold s'. rewrite relock_contents by done. rewrite <- src_ubytes.
    rewrite (contents_splice s1 s2 i (f_user s) (UserSrc (va + k)) off t l); (done || lia || apply (fi_size _ _ Hi1) || idtac).
    unfold s1. by rewrite relock_contents.
  - intros j Hj Hfj Hdisj. assert (file_ok s1 j) as Hfj1 by by apply relock_file_ok.
    assert (forall a, owns s1 i a -> owns s1 j a -> False) as Hdisj1.
    { intros a Ha Hb'. unfold s1 in Ha, Hb'. rewrite relock_owns in Ha, Hb' by done. by eapply Hdisj. }
    destruct (file_ok_other i j s1 s2 F Hd1 Hi1 Hj Hfj1 Hdisj1) as [Hfj2 Hdisj2].
    split; [|split; [by apply relock_file_ok|]].
    + unfold s'. rewrite relock_contents by done. rewrite (contents_other i j s1 s2) by done.
      unfold s1. by rewrite relock_contents.
    + intros a Ha Hb'. unfold s' in Ha, Hb'. rewrite relock_owns in Ha, Hb' by done. by eapply Hdisj2.
Qed.

(* ------------------------------------------------------------------ *)
(** ** Chunks add up *)

Lemma splice_splice off (b1 b2 c : list Z) : (off <= length c)%nat ->
  splice (off + length b1) b2 (splice off b1 c) = splice off (b1 ++ b2) c.
Proof.
  intros Hl. unfold splice. rewrite length_app.
  assert (length (take off c) = off) as El by (rewrite length_take; lia).
  rewrite (app_assoc (take off c) b1). rewrite take_app_length' by (rewrite length_app; lia).
  rewrite drop_app_ge by (rewrite length_app; lia). rewrite length_app, El, drop_drop, <- !app_assoc.
  do 3 f_equal. f_equal. lia.
Qed.

Lemma ubytes_app (u : U) a m n : ubytes u a (m + n) = ubytes u a m ++ ubytes u (a + Z.of_nat m) n.
Proof.
  unfold ubytes. rewrite seq_app, map_app. f_equal. simpl. rewrite <- (Nat.add_0_r m) at 1.
  rewrite <- fmap_add_seq, <- list_fmap_compose. apply list_fmap_ext. intros k x _. simpl. f_equal. lia.
Qed.

Lemma src_faults_le m n (u : U) va : m <= n -> src_faults u (UserSrc va) m -> src_faults u (UserSrc va) n.
Proof. intros Hm (va' & E & Hx). exists va'. split; [done|]. intros Hr. apply Hx. intros k Hk. apply Hr. lia. Qed.

Lemma src_faults_shift (u : U) va m n n' : 0 <= m -> m + n <= n' ->
  src_faults u (UserSrc (va + m)) n -> src_faults u (UserSrc va) n'.
Proof.
  intros Hm Hn (va' & [= <-] & Hx). exists va. split; [done|]. intros Hr. apply Hx. intros k Hk.
  rewrite <- Z.add_assoc. apply Hr. lia.
Qed.

Lemma written_trans i s va k off m n t l s1 s' : 0 <= off <= i_size (geti i s) -> 0 <= m ->
  written i s va k off m m 0 s1 -> written i s1 va (k + m) (off + m) n t l s' ->
  written i s va k off (m + n) (m + t) l s'.
Proof.
  intros Hoff Hm [Hid1 _ _ _ Hv1 Es1 Ec1 Ho1] [Hid2 Ht2 Hsh2 Hl2 Hv2 Es2 Ec2 Ho2].
  assert (forall n', src_faults (f_user s1) (UserSrc (va + (k + m))) n -> m + n <= n' -> src_faults (f_user s) (UserSrc (va + k)) n') as Hf.
  { intros n' Hx Hn. rewrite Z.add_assoc in Hx. eapply src_faults_shift; [exact Hm|exact Hn|].
    by apply (src_faults_view _ _ _ _ Hv1). }
  split; [done|lia| | |by eapply same_user_trans|lia| |].
  - intros Hlt. destruct Hsh2 as [?|[?|?]]; [lia|by left|right; left; auto with lia|].
    right; right. replace (m + n - (m + t)) with (n - t) by lia. lia.
  - intros Hne. apply Hf; [auto|lia].
  - rewrite Ec2, Ec1, Z.add_0_r. rewrite (ubytes_ext _ _ _ _ (proj1 Hv1)).
    replace (Z.to_nat (m + t + l)) with (Z.to_nat m + Z.to_nat (t + l))%nat by lia. rewrite ubytes_app.
    replace (va + k + Z.of_nat (Z.to_nat m)) with (va + (k + m)) by lia. f_equal.
    rewrite take_ge.
    2: { unfold splice. rewrite !length_app, length_take, length_drop, length_ubytes, length_contents. lia. }
    rewrite <- splice_splice by (rewrite length_contents; lia). rewrite length_ubytes. f_equal. lia.
  - intros j Hj Hfj Hdisj. destruct (Ho1 j Hj Hfj Hdisj) as (E1 & Hfj1 & Hd1).
    destruct (Ho2 j Hj Hfj1 Hd1) as (E2 & ? & ?). by rewrite E2, E1.
Qed.

Lemma written_none i s va k off n : idle s i -> 0 <= off <= i_size (geti i s) -> n = 0 -> written i s va k off n 0 0 s.
Proof.
  intros Hid Hoff ->. split; try done; try lia.
  - simpl. unfold splice. simpl. rewrite Nat.add_0_r, take_drop, take_ge; [done|]. rewrite length_contents. lia.
Qed.

End fs.

(* ------------------------------------------------------------------ *)
(** ** filewrite() *)

Section file.
Context {U : Type} `{UserMem U} `{WakeBudget}.
Implicit Types s : fstate U.

Lemma off_same f s : alter (set_off (fl_off (getf f s))) f (k_file s) = k_file s.
Proof.
  apply list_eq. intros j. destruct (decide (f = j)) as [<-|]; [|by rewrite list_lookup_alter_ne].
  rewrite list_lookup_alter_eq. unfold getf. destruct (k_file s !! f) as [x|]; [|done]. by destruct x.
Qed.

Definition chunk_len (n i : Z) : Z := Z.min (n - i) max_chunk.

Lemma filewrite_loop_S k f ip addr n i s : i < n ->
  filewrite_loop (S k) f ip addr n i s =
  (zoom L_fs begin_op ;;
   zoom L_fs (ilock ip) ;;
   let* off := gets (fun s => fl_off (getf f s)) in
   let* r := zoom L_fs (writei ip (UserSrc (u64 (addr + i))) off (chunk_len n i)) in
   (if r >? 0 then upd_file f (fun x => set_off (u32 (fl_off x + r)) x) else ret tt) ;;
   zoom L_fs (iunlock ip) ;;
   zoom L_fs end_op ;;
   if negb (r =? chunk_len n i) then ret i else filewrite_loop k f ip addr n (i + r)) s.
Proof. intros Hlt. cbn [filewrite_loop]. by rewrite (proj2 (Z.ltb_lt _ _)). Qed.

(** One chunk moves the offset by what writei() wrote. *)
Lemma filewrite_chunk k f ip addr n i s :
  let off := fl_off (getf f s) in
  idle (k_fs s) ip -> (f < length (k_file s))%nat -> 0 <= addr -> addr + n <= 2 ^ 64 -> 0 <= i < n ->
  0 <= off <= i_size (geti ip (k_fs s)) ->
  exists t l s', filewrite_loop (S k) f ip addr n i s =
      (if t =? chunk_len n i then filewrite_loop k f ip addr n (i + t) s' else Ok i s') /\
    written ip (k_fs s) addr i off (chunk_len n i) t l (k_fs s') /\
    k_file s' = alter (set_off (off + t)) f (k_file s).
Proof.
  intros off Hid Hf Ha Hmax Hi Hoff. rewrite filewrite_loop_S by lia.
  assert (0 < chunk_len n i <= max_chunk /\ chunk_len n i <= n - i) as Hc.
  { unfold chunk_len. change max_chunk with 3072. lia. }
  destruct (chunk_spec ip (k_fs s) addr i off (chunk_len n i) Hid) as (r & t & l & s1 & s2 & s3 & E1 & E2 & E3 & Hrt & Htm & W); try lia.
  apply bind_Ok_inv in E1 as ([] & s0 & E0 & E1). apply bind_Ok_inv in E3 as ([] & s2' & E3 & E4).
  pose proof (wn_t _ _ _ _ _ _ _ _ _ W) as (Hr & Hl & Hrl).
  set (g := fun x => set_off (u32 (fl_off x + r)) x).
  set (t1 := lset L_fs s2 (lset L_fs s1 (lset L_fs s0 s))).
  assert ((if r >? 0 then upd_file f g else ret tt) t1 = Ok tt (set_files (alter (set_off (off + t)) f) t1)) as Eu.
  { destruct (Z.gtb_spec r 0) as [Hr0|Hr0].
    - assert (r = t) as -> by lia. unfold upd_file, modify. f_equal. unfold set_files. f_equal. apply list_alter_ext; [|done].
      intros x Hx. unfold g, off, getf. change (k_file t1) with (k_file s) in Hx. rewrite Hx. simpl.
      rewrite u32_small; [done|]. unfold off, getf in *. rewrite Hx in *. simpl in *. fslia.
    - assert (t = 0) as -> by lia. unfold ret. f_equal. rewrite Z.add_0_r. unfold set_files.
      change (k_file t1) with (k_file s). unfold off. by rewrite off_same. }
  set (t2 := set_files (alter (set_off (off + t)) f) t1) in *.
  exists t, l, (lset L_fs s3 (lset L_fs s2' t2)). split; [|split; [exact W|done]].
  erewrite bind_Ok by (by apply zoom_Ok). erewrite bind_Ok by (by apply zoom_Ok). erewrite bind_Ok by done.
  rewrite u64_small by lia. erewrite bind_Ok by (by apply zoom_Ok). fold t1.
  erewrite bind_Ok by exact Eu. erewrite bind_Ok by (by apply zoom_Ok). erewrite bind_Ok by (by apply zoom_Ok).
  destruct Hrt as [->|[-> ->]]; [by destruct (t =? chunk_len n i)|].
  by rewrite !(proj2 (Z.eqb_neq _ _)) by lia.
Qed.

Lemma filewrite_loop_spec k f ip addr n i s :
  let off := fl_off (getf f s) in
  idle (k_fs s) ip -> (f < length (k_file s))%nat -> 0 <= addr -> addr + n <= 2 ^ 64 -> 0 <= i <= n ->
  0 <= off <= i_size (geti ip (k_fs s)) -> n - i <= Z.of_nat k ->
  exists z t l s', filewrite_loop k f ip addr n i s = Ok z s' /\ i <= z /\ (z = n <-> t = n - i) /\
    written ip (k_fs s) addr i off (n - i) t l (k_fs s') /\ k_file s' = alter (set_off (off + t)) f (k_file s).
Proof.
  revert i s. induction k as [|k IH]; intros i s off Hid Hf Ha Hmax Hi Hoff Hk.
  all: destruct (decide (i < n)) as [Hlt|Hge]; [try lia|].
  1,3: exists i, 0, 0, s; cbn [filewrite_loop]; rewrite (proj2 (Z.ltb_ge _ _)) by lia; split; [done|];
    split; [lia|]; split; [lia|]; split; [apply written_none; (done || lia)|]; unfold off; by rewrite Z.add_0_r, off_same.
  destruct (filewrite_chunk k f ip addr n i s Hid Hf Ha Hmax ltac:(lia) Hoff) as (r & l & s1 & E & W & Ef).
  fold off in W, Ef. set (m := chunk_len n i) in *.
  assert (0 < m <= n - i) as Hm by (unfold m, chunk_len; change max_chunk with 3072; lia).
  pose proof (wn_t _ _ _ _ _ _ _ _ _ W) as (Hr & Hl & Hrl). destruct (Z.eqb_spec r m) as [->|Hne].
  - assert (l = 0) as -> by lia.
    assert (fl_off (getf f s1) = off + m) as Eo.
    { unfold getf. rewrite Ef, list_lookup_alter_eq. by destruct (lookup_lt_is_Some_2 _ _ Hf) as [x ->]. }
    destruct (IH (i + m) s1) as (z & t & l & s' & E' & Hz & Hzn & W' & Ef'); rewrite ?Eo.
    + apply W.
    + by rewrite Ef, length_alter.
    + done.
    + done.
    + lia.
    + rewrite (wn_size _ _ _ _ _ _ _ _ _ W). lia.
    + lia.
    + exists z, (m + t), l, s'. rewrite E, E'. split; [done|]. split; [lia|]. split; [lia|]. split.
      * replace (n - i) with (m + (n - (i + m))) by lia. eapply written_trans; [exact Hoff|lia|exact W|]. by rewrite Eo in W'.
      * rewrite Ef', Ef, Eo, alter_twice. apply list_alter_ext; [|done]. intros x _. unfold set_off. simpl. f_equal. lia.
  - exists i, r, l, s1. rewrite E. split; [done|]. split; [lia|]. split; [lia|]. split; [|done].
    destruct W as [Hid' Ht Hsh Hle Hv Es Ec Ho]. split; try done; [lia| |].
    + intros _. destruct Hsh as [?|[Hx|Hx]]; [lia|by left|right; left; apply (src_faults_le m); [lia|done]|right; right; lia].
    + intros Hn. apply (src_faults_le m); [lia|auto].
Qed.


End file.

(* ------------------------------------------------------------------ *)
(** ** The small disk, with its file open for writing *)

Definition ex_idle : fs flat :=
  set_fuser (<[64 := 98]> (<[65 := 99]> ∅)) (relock 0 initsleeplock [] 0 [] ex_fs).
Definition ex_files : fstate flat :=
  FState ex_idle false [File FD_INODE 1 true true 0 0 3 0] ∅ []
    (CState (Cons false [] 0 0 0) tt [] false false [] [] [] []) [].

Lemma ex_idle_ok : idle ex_idle 0.
Proof.
  pose proof (relock_disk_ok 0 initsleeplock [] 0 [] ex_fs ex_fs_disk_ok) as Hd.
  pose proof (proj1 (relock_file_ok 0 initsleeplock [] 0 [] ex_fs ltac:(simpl; lia) 0) ex_fs_file_ok) as Hf.
  split; try reflexivity; [destruct Hd; by split|destruct Hf; by split].
Qed.

#[local] Instance ex_budget : WakeBudget := 0%nat.

