(* ===== verification/FsDir.v ===== *)
(** * Directories

   A directory is a file of 16-byte entries, read here as a finite map from
   names to inode numbers.  dirlookup() is the lookup of that map and
   dirlink() its insertion. *)

From stdpp Require Import base numbers list gmap strings.
From Stdlib Require Import ZArith Lia.
From S2P Require Import Prelude Params Cmem KString Sleeplock UserMem Fs FsInv FsMap FsBmap FsWrite FsFile.

(* ------------------------------------------------------------------ *)
(** ** Strings that end before the object does *)

(** A string of at most [n] bytes can be read at the start of [l]. *)
Definition cstr (n : nat) (l : list Z) : Prop := (n <= length l)%nat \/ 0 ∈ take n l.

Lemma cstr_drop n p m : cstr (S n) (drop p m) -> exists x, m !! p = Some x /\ (x <> 0 -> cstr n (drop (S p) m)).
Proof.
  intros Hc. destruct (m !! p) as [x|] eqn:E.
  - exists x. split; [done|]. intros Hx. rewrite (drop_S _ _ _ E) in Hc. destruct Hc as [Hc|Hc].
    + left. simpl in Hc. lia.
    + right. cbn [take] in Hc. apply elem_of_cons in Hc as [Hc|Hc]; [congruence|exact Hc].
  - apply lookup_ge_None_1 in E. rewrite drop_ge in Hc by done. destruct Hc as [Hc|Hc]; [simpl in Hc; lia|].
    by apply elem_of_nil in Hc.
Qed.

Lemma strncmp_str n p q m : cstr n (drop p m) -> cstr n (drop q m) ->
  strncmp (Z.of_nat p) (Z.of_nat q) (Z.of_nat n) m = Ok (diff (strn n p m) (strn n q m)) m.
Proof.
  unfold strncmp. rewrite Nat2Z.id. revert p q. induction n as [|n IH]; intros p q Hp Hq; [done|].
  apply cstr_drop in Hp as (x & Hx & Hp). apply cstr_drop in Hq as (y & Hy & Hq).
  unfold strn. rewrite (slice_cons p n m x), (slice_cons q n m y) by done.
  cbn [strncmp_loop cut]. erewrite bind_Ok by (by apply ldb_Ok). destruct (Z.eqb_spec x 0) as [->|Hx0].
  - erewrite bind_Ok by (by apply ldb_Ok). by destruct (Z.eqb_spec y 0) as [->|].
  - erewrite bind_Ok by (by apply ldb_Ok). destruct (Z.eqb_spec x y) as [->|Hne].
    + rewrite (proj2 (Z.eqb_neq y 0)) by done. cbn [diff]. rewrite Z.eqb_refl.
      replace (Z.of_nat p + 1) with (Z.of_nat (S p)) by lia.
      replace (Z.of_nat q + 1) with (Z.of_nat (S q)) by lia. apply IH; auto.
    + destruct (Z.eqb_spec y 0) as [->|]; cbn [diff]; [by rewrite Z.sub_0_r|].
      by rewrite (proj2 (Z.eqb_neq x y)).
Qed.

Lemma strncpy_str n s t m : (s + n <= t)%nat -> (s + n <= length m)%nat -> cstr n (drop t m) -> Forall byte m ->
  strncpy (Z.of_nat s) (Z.of_nat t) (Z.of_nat n) m = Ok (Z.of_nat s) (splice s (pad n (strn n t m)) m).
Proof.
  intros Hst Hs Ht Hb. unfold strncpy. rewrite Nat2Z.id.
  assert (strncpy_loop n (Z.of_nat s) (Z.of_nat t) m = Ok tt (splice s (pad n (strn n t m)) m)) as E;
    [|by erewrite bind_Ok by exact E].
  revert s t m Hst Hs Ht Hb. induction n as [|n IH]; intros s t m Hst Hs Ht Hb.
  - unfold pad, strn, slice, splice. simpl. by rewrite Nat.add_0_r, take_drop.
  - apply cstr_drop in Ht as (x & Hx & Ht). pose proof (byte_at _ _ _ Hb Hx).
    unfold strn. rewrite (slice_cons t n m x) by done. cbn [strncpy_loop cut].
    erewrite bind_Ok by (by apply ldb_Ok). erewrite bind_Ok by (apply stb_Ok; lia).
    rewrite byte_u8 by done. replace (Z.of_nat s + 1) with (Z.of_nat (S s)) by lia.
    destruct (Z.eqb_spec x 0) as [->|Hx0].
    + rewrite zero_fill_spec by (rewrite length_insert; lia). unfold pad. simpl.
      rewrite splice_cons by (rewrite length_replicate; lia). done.
    + replace (Z.of_nat t + 1) with (Z.of_nat (S t)) by lia.
      assert (drop (S t) (<[s:=x]> m) = drop (S t) m) as Ed by (apply drop_insert_lt; lia).
      rewrite IH; [|lia|rewrite length_insert; lia|rewrite Ed; auto|by apply Forall_insert].
      unfold strn, slice. rewrite Ed. unfold pad. cbn [app length]. rewrite splice_cons; [done|].
      rewrite length_app, length_replicate. pose proof (cut_length (take n (drop (S t) m))).
      rewrite length_take in *. lia.
Qed.

(* ------------------------------------------------------------------ *)
(** ** A directory as a map *)

Definition DE : nat := 16.
(** The name a field or a buffer holds. *)
Definition de_key (de : list Z) : list Z := cut (de_name de).
Definition name_key (name : list Z) : list Z := cut (take (Z.to_nat DIRSIZ) name).

Definition dent (l : list Z) (k : nat) : list Z := slice (DE * k) DE l.
Definition dents (l : list Z) : list (list Z) := map (dent l) (seq 0 (length l / DE)).
(** An entry with inode number 0 is free. *)
Definition live (de : list Z) : option (list Z * Z) :=
  if de_inum de =? 0 then None else Some (de_key de, de_inum de).
Definition dir_of (ents : list (list Z)) : gmap (list Z) Z := list_to_map (omap live ents).

(** The first entry with a name. *)
Fixpoint dir_scan (key : list Z) (k : nat) (ents : list (list Z)) : option (nat * Z) :=
  match ents with
  | [] => None
  | de :: ents' =>
      match live de with
      | Some (key', inum) => if decide (key = key') then Some (k, inum) else dir_scan key (S k) ents'
      | None => dir_scan key (S k) ents'
      end
  end.
(** The first free entry, or the end. *)
Fixpoint free_slot (ents : list (list Z)) : nat :=
  match ents with
  | [] => 0%nat
  | de :: ents' => match live de with None => 0%nat | Some _ => S (free_slot ents') end
  end.

Lemma dir_of_cons de ents :
  dir_of (de :: ents) = match live de with Some (key, inum) => <[key := inum]> (dir_of ents) | None => dir_of ents end.
Proof. unfold dir_of. cbn [omap list_omap]. by destruct (live de) as [[]|]. Qed.

Lemma dir_scan_map key k ents : snd <$> dir_scan key k ents = dir_of ents !! key.
Proof.
  revert k. induction ents as [|de ents IH]; intros k; [done|]. rewrite dir_of_cons. cbn [dir_scan].
  destruct (live de) as [[key' inum]|]; [|by rewrite IH]. case_decide as E.
  - subst. by rewrite lookup_insert_eq.
  - rewrite lookup_insert_ne by done. by rewrite IH.
Qed.

Lemma dir_scan_at key k ents j inum : dir_scan key k ents = Some (j, inum) ->
  ents !! (j - k)%nat ≫= live = Some (key, inum).
Proof.
  intros E. assert (k <= j /\ ents !! (j - k)%nat ≫= live = Some (key, inum))%nat as [_ ?]; [|done].
  revert k E. induction ents as [|de ents IH]; intros k; cbn [dir_scan]; [done|].
  assert (dir_scan key (S k) ents = Some (j, inum) -> (k <= j /\ (de :: ents) !! (j - k)%nat ≫= live = Some (key, inum))%nat) as Hs.
  { intros [Hk E]%IH. split; [lia|]. by replace (j - k)%nat with (S (j - S k)) by lia. }
  destruct (live de) as [[key' i']|] eqn:El; [|done]. case_decide as Ek; [|done].
  intros [= -> ->]. split; [done|]. rewrite Nat.sub_diag. simpl. rewrite El. by rewrite Ek.
Qed.

(** A new name at the first free entry, or after the last. *)
Definition put_ent (k : nat) (de : list Z) (ents : list (list Z)) : list (list Z) :=
  if decide (k < length ents)%nat then <[k := de]> ents else ents ++ [de].

Lemma free_slot_le ents : (free_slot ents <= length ents)%nat.
Proof. induction ents as [|de ents IH]; simpl; [done|]. destruct (live de); simpl; lia. Qed.

Lemma put_ent_cons k e de ents : put_ent (S k) de (e :: ents) = e :: put_ent k de ents.
Proof. unfold put_ent. cbn [length]. repeat case_decide; try lia; done. Qed.

Lemma dir_of_put ents de key inum : live de = Some (key, inum) -> dir_of ents !! key = None ->
  dir_of (put_ent (free_slot ents) de ents) = <[key := inum]> (dir_of ents).
Proof.
  intros Hl. induction ents as [|e ents IH]; cbn [free_slot].
  - intros _. change (put_ent 0 de []) with [de]. by rewrite dir_of_cons, Hl.
  - rewrite dir_of_cons. destruct (live e) as [[k' i']|] eqn:El.
    + intros [Hn Hne]%lookup_insert_None. rewrite put_ent_cons, dir_of_cons, El, IH by done.
      by apply insert_insert_ne.
    + intros _. change (put_ent 0 de (e :: ents)) with (de :: ents). by rewrite dir_of_cons, Hl.
Qed.

(** ** The bytes of a directory *)

Lemma length_dents l : length (dents l) = (length l / DE)%nat.
Proof. unfold dents. by rewrite length_map, length_seq. Qed.
Lemma dents_lookup l k : (k < length l / DE)%nat -> dents l !! k = Some (dent l k).
Proof. intros Hk. unfold dents. by rewrite list_lookup_fmap, lookup_seq_lt. Qed.

Lemma dent_splice l de k j : length de = DE -> (DE * k <= length l)%nat -> (DE * j + DE <= length l \/ j = k)%nat ->
  dent (splice (DE * k) de l) j = if decide (j = k) then de else dent l j.
Proof.
  intros Hde Hk Hj. unfold dent, splice, slice, DE in *. case_decide as E.
  - subst. rewrite drop_app_length' by (rewrite length_take; lia). by apply take_app_length'.
  - destruct (decide (j < k)%nat) as [Hlt|Hge].
    + apply list_eq. intros i. destruct (decide (i < 16)%nat) as [Hi|Hi].
      * rewrite !lookup_take_lt, !lookup_drop, lookup_app_l, lookup_take_lt by (rewrite ?length_take; lia). done.
      * rewrite !lookup_take_ge by lia. done.
    + rewrite drop_app_ge by (rewrite length_take; lia). rewrite length_take, drop_app_ge, drop_drop by lia.
      do 2 f_equal. lia.
Qed.

Lemma dents_splice l de k : length de = DE -> (length l mod DE = 0)%nat -> (k <= length l / DE)%nat ->
  dents (splice (DE * k) de l) = put_ent k de (dents l) /\
  length (splice (DE * k) de l) = Nat.max (length l) (DE * k + DE).
Proof.
  intros Hde Hm Hk. pose proof (Nat.div_mod (length l) DE ltac:(done)) as Hdm.
  assert (length (splice (DE * k) de l) = Nat.max (length l) (DE * k + DE)) as Hlen.
  { unfold splice. rewrite !length_app, length_take, length_drop. unfold DE in *. lia. }
  split; [|done]. apply list_eq. intros j. unfold put_ent. rewrite length_dents.
  assert (length (splice (DE * k) de l) / DE = if decide (k < length l / DE) then length l / DE else S k)%nat as Hn.
  { rewrite Hlen. case_decide; [f_equal; unfold DE in *; lia|]. symmetry. apply Nat.div_unique with 0%nat; unfold DE in *; lia. }
  destruct (decide (j < length (splice (DE * k) de l) / DE)%nat) as [Hj|Hj].
  - rewrite dents_lookup by done. rewrite Hn in Hj.
    rewrite dent_splice; [|done|unfold DE in *; lia|].
    2: { clear Hlen. unfold DE in *. case_decide; lia. }
    case_decide as Hkn; case_decide as E; subst.
    + by rewrite list_lookup_insert_eq by (rewrite length_dents; lia).
    + rewrite list_lookup_insert_ne by done. by rewrite dents_lookup by lia.
    + rewrite lookup_app_r, length_dents by (rewrite length_dents; lia). by replace (k - _)%nat with 0%nat by lia.
    + rewrite lookup_app_l by (rewrite length_dents; lia). by rewrite dents_lookup by lia.
  - rewrite lookup_ge_None_2 by (rewrite length_dents; lia). rewrite Hn in Hj. symmetry. apply lookup_ge_None_2.
    case_decide; rewrite ?length_insert, ?length_app, length_dents; cbn [length]; lia.
Qed.

(* ------------------------------------------------------------------ *)
(** ** The operations *)

Section fs.
Context {U : Type} `{UserMem U} `{WakeBudget}.
Implicit Types s : fs U.

Record dir_ok s (dp : nat) : Prop := {
  dr_file : file_ok s dp;
  dr_type : i_type (geti dp s) = T_DIR;
  dr_size : i_size (geti dp s) mod DIRENT = 0
}.
Definition ents s (dp : nat) : list (list Z) := dents (contents s dp).
Definition dir_map s (dp : nat) : gmap (list Z) Z := dir_of (ents s dp).
Definition is_name (name : list Z) : Prop := cstr (Z.to_nat DIRSIZ) name /\ Forall byte name.

Lemma ents_size s dp : dir_ok s dp -> i_size (geti dp s) = DIRENT * Z.of_nat (length (ents s dp)).
Proof.
  intros [Hf _ Hm]. unfold ents. rewrite length_dents, length_contents. pose proof (fi_size _ _ Hf).
  rewrite Nat2Z.inj_div, Z2Nat.id by lia. change (Z.of_nat DE) with 16. unfold DIRENT in *. divlia.
Qed.

Lemma Forall_contents s dp : disk_ok s -> Forall byte (contents s dp).
Proof. intros Hd. apply Forall_forall. intros x (k & -> & _)%list_elem_of_fmap. by apply fbyte_range. Qed.

Lemma ent_shape s dp k de : disk_ok s -> dir_ok s dp -> ents s dp !! k = Some de -> length de = DE /\ Forall byte de.
Proof.
  intros Hd Hr Hk. pose proof (ents_size s dp Hr) as Hs. pose proof (lookup_lt_Some _ _ _ Hk) as Hlt.
  unfold ents in *. rewrite length_dents in *. rewrite dents_lookup in Hk by done. injection Hk as <-.
  assert (DE * k + DE <= length (contents s dp))%nat.
  { rewrite length_contents in *. rewrite Hs. unfold DE, DIRENT in *. lia. }
  split; [by apply length_slice|]. unfold dent, slice. apply Forall_take, Forall_drop, Forall_contents, Hd.
Qed.

(** readi() of an entry, by dirlookup() and dirlink() *)
Lemma read_entry s dp k de : disk_ok s -> dir_ok s dp -> held s = [] -> ents s dp !! k = Some de ->
  readi dp KernelDst (DIRENT * Z.of_nat k) DIRENT s = Ok (DIRENT, de) s.
Proof.
  intros Hd Hr Hh Hk. pose proof (ents_size s dp Hr) as Hs. pose proof (lookup_lt_Some _ _ _ Hk) as Hlt.
  destruct (ent_shape _ _ _ _ Hd Hr Hk) as [Hl _]. pose proof (fi_size _ _ (dr_file _ _ Hr)) as Hmax.
  unfold DIRENT in *.
  destruct (readi_spec s dp KernelDst (16 * Z.of_nat k) 16 Hd (dr_file _ _ Hr) Hh I) as (r & bs & u & E & Hres);
    [lia..|fslia|]. rewrite E. unfold ents in *. rewrite length_dents in *. rewrite dents_lookup in Hk by done.
  injection Hk as <-. unfold dent in Hl.
  replace (slice (Z.to_nat (16 * Z.of_nat k)) (Z.to_nat 16) (contents s dp)) with (dent (contents s dp) k) in Hres
    by (unfold dent, DE; f_equal; lia).
  destruct Hres as [[-> [-> ->]]|(_ & (? & ? & _) & _)]; [|done].
  unfold dent. rewrite Hl. by destruct s.
Qed.

Lemma cut_elem x l : x ∈ cut l -> x ∈ l.
Proof.
  induction l as [|y l IH]; cbn [cut]; [done|]. destruct (y =? 0); [by intros ?%elem_of_nil|].
  rewrite !elem_of_cons. tauto.
Qed.

Lemma name_key_app name l : cstr (Z.to_nat DIRSIZ) name -> cut (take (Z.to_nat DIRSIZ) (name ++ l)) = name_key name.
Proof.
  unfold name_key. generalize (Z.to_nat DIRSIZ). intros n [Hc|Hc].
  - by rewrite take_app_le.
  - revert n Hc. induction name as [|x name IH]; intros n Hc; [by rewrite take_nil in Hc; apply elem_of_nil in Hc|].
    destruct n as [|n]; [done|]. cbn [app take cut] in *. destruct (Z.eqb_spec x 0); [done|].
    apply elem_of_cons in Hc as [|Hc]; [congruence|]. by rewrite IH.
Qed.

Lemma cstr_app n a b : cstr n a -> cstr n (a ++ b).
Proof.
  intros [Hl|Hz]; [left; rewrite length_app; lia|]. right. rewrite take_app. by apply elem_of_app; left.
Qed.

Lemma namecmp_spec name de s : is_name name -> length de = DE ->
  exists c, namecmp name (de_name de) s = Ok c s /\ (c = 0 <-> name_key name = de_key de).
Proof.
  intros [Hc Hb] Hl. assert (length (de_name de) = Z.to_nat DIRSIZ) as Hf by (unfold de_name; rewrite length_drop, Hl; done).
  exists (diff (name_key name) (de_key de)). split.
  - unfold namecmp, string_op. change 0 with (Z.of_nat 0) at 1. change DIRSIZ with (Z.of_nat (Z.to_nat DIRSIZ)).
    rewrite strncmp_str; [|by apply cstr_app|left; rewrite drop_app_length; lia]. erewrite bind_Ok by done. cbn [fst].
    unfold strn, slice. rewrite drop_0, drop_app_length, name_key_app by done.
    by rewrite (take_ge (de_name de)) by lia.
  - apply diff_0; apply cut_nonzero.
Qed.

Lemma dirlookup_loop_spec fuel dp name k s : disk_ok s -> dir_ok s dp -> held s = [] -> is_name name ->
  (k <= length (ents s dp))%nat -> (length (ents s dp) - k < fuel)%nat ->
  dirlookup_loop fuel dp name (DIRENT * Z.of_nat k) s =
    match dir_scan (name_key name) k (drop k (ents s dp)) with
    | Some (j, inum) => (let* i := iget ROOTDEV inum in ret (Some (i, DIRENT * Z.of_nat j))) s
    | None => Ok None s
    end.
Proof.
  intros Hd Hr Hh Hn. revert k. induction fuel as [|fuel IH]; intros k Hk Hf; [lia|]. cbn [dirlookup_loop].
  erewrite bind_Ok by done. cbv beta. rewrite (ents_size s dp Hr).
  destruct (Z.ltb_spec (DIRENT * Z.of_nat k) (DIRENT * Z.of_nat (length (ents s dp)))) as [Hlt|Hge].
  2: { rewrite drop_ge by (unfold DIRENT in *; lia). done. }
  destruct (lookup_lt_is_Some_2 (ents s dp) k) as [de Hde]; [unfold DIRENT in *; lia|].
  destruct (ent_shape _ _ _ _ Hd Hr Hde) as [Hl _].
  erewrite bind_Ok by by apply read_entry. cbn [fst snd]. rewrite Z.eqb_refl. cbn [negb].
  rewrite (drop_S _ _ _ Hde). cbn [dir_scan]. unfold live.
  replace (DIRENT * Z.of_nat k + DIRENT) with (DIRENT * Z.of_nat (S k)) by (unfold DIRENT; lia).
  assert (S k <= length (ents s dp))%nat by (apply lookup_lt_Some in Hde; lia).
  destruct (Z.eqb_spec (de_inum de) 0) as [E0|Hne]; [apply IH; lia|].
  destruct (namecmp_spec name de s Hn Hl) as (c & Ec & Hc). erewrite bind_Ok by exact Ec.
  rewrite (fi_dev _ _ (dr_file _ _ Hr)). case_decide as Ek.
  - by rewrite (proj2 (Z.eqb_eq c 0)) by tauto.
  - rewrite (proj2 (Z.eqb_neq c 0)) by tauto. apply IH; lia.
Qed.

Lemma dirlookup_spec dp name s : disk_ok s -> dir_ok s dp -> held s = [] -> is_name name ->
  dirlookup dp name s =
    match dir_scan (name_key name) 0 (ents s dp) with
    | Some (j, inum) => (let* i := iget ROOTDEV inum in ret (Some (i, DIRENT * Z.of_nat j))) s
    | None => Ok None s
    end.
Proof.
  intros Hd Hr Hh Hn. unfold dirlookup. erewrite bind_Ok by done. cbv beta. rewrite (dr_type _ _ Hr). cbn [negb Z.eqb].
  pose proof (dirlookup_loop_spec (Z.to_nat (i_size (geti dp s) / DIRENT + 1)) dp name 0 s) as E.
  rewrite Z.mul_0_r in E. apply E; try done; [lia|].
  rewrite (ents_size s dp Hr). unfold DIRENT. rewrite Z.mul_comm, Z.div_mul by done. lia.
Qed.

Lemma dirlink_loop_spec fuel dp k junk s : disk_ok s -> dir_ok s dp -> held s = [] ->
  (k <= length (ents s dp))%nat -> (length (ents s dp) - k < fuel)%nat -> length junk = DE -> Forall byte junk ->
  exists de, dirlink_loop fuel dp (DIRENT * Z.of_nat k) junk s =
    Ok (DIRENT * Z.of_nat (k + free_slot (drop k (ents s dp))), de) s /\ length de = DE /\ Forall byte de.
Proof.
  intros Hd Hr Hh. revert k junk. induction fuel as [|fuel IH]; intros k junk Hk Hf Hj Hjb; [lia|]. cbn [dirlink_loop].
  erewrite bind_Ok by done. cbv beta. rewrite (ents_size s dp Hr).
  destruct (Z.ltb_spec (DIRENT * Z.of_nat k) (DIRENT * Z.of_nat (length (ents s dp)))) as [Hlt|Hge].
  2: { rewrite drop_ge by (unfold DIRENT in *; lia). exists junk. cbn [free_slot]. by rewrite Nat.add_0_r. }
  destruct (lookup_lt_is_Some_2 (ents s dp) k) as [de Hde]; [unfold DIRENT in *; lia|].
  destruct (ent_shape _ _ _ _ Hd Hr Hde) as [Hl Hb].
  erewrite bind_Ok by by apply read_entry. cbn [fst snd]. rewrite Z.eqb_refl. cbn [negb].
  rewrite (drop_S _ _ _ Hde). cbn [free_slot]. unfold live.
  replace (DIRENT * Z.of_nat k + DIRENT) with (DIRENT * Z.of_nat (S k)) by (unfold DIRENT; lia).
  assert (S k <= length (ents s dp))%nat by (apply lookup_lt_Some in Hde; lia).
  destruct (Z.eqb_spec (de_inum de) 0) as [E0|Hne].
  - exists de. by rewrite Nat.add_0_r.
  - rewrite Nat.add_succ_r, <- Nat.add_succ_l. apply IH; (done || lia).
Qed.

Lemma fill_dirent_spec name inum de s : is_name name -> length de = DE -> Forall byte de -> 0 < inum < 65536 ->
  exists de', fill_dirent name inum de s = Ok de' s /\ length de' = DE /\ Forall byte de' /\
    live de' = Some (name_key name, inum).
Proof.
  intros [Hc Hb] Hl Hbd Hi. assert (Forall byte (de ++ name)) as Hba by by apply Forall_app.
  set (m := pad (Z.to_nat DIRSIZ) (name_key name)).
  assert (length m = 14%nat) as Hm by (apply (length_pad (Z.to_nat DIRSIZ)), (strn_length _ 0)).
  assert (take DE (splice 2 m (de ++ name)) = take 2 de ++ m) as Et.
  { unfold splice. rewrite (take_app_le de) by (rewrite Hl; unfold DE; lia). rewrite app_assoc. apply take_app_length'.
    rewrite length_app, length_take, Hm, Hl. done. }
  assert (length (take 2 de ++ m) = DE) as Hlm by (rewrite length_app, length_take, Hm, Hl; done).
  exists (st16 0 inum (take 2 de ++ m)). split_and!.
  - unfold fill_dirent, string_op. rewrite Hl. change 2 with (Z.of_nat 2) at 1.
    change DIRSIZ with (Z.of_nat (Z.to_nat DIRSIZ)).
    rewrite strncpy_str; [|done|rewrite length_app, Hl; change (2 + Z.to_nat DIRSIZ)%nat with DE; lia| |done].
    + erewrite bind_Ok by done. cbn [snd]. unfold strn, slice. rewrite drop_app_length' by done.
      change (cut (take (Z.to_nat DIRSIZ) name)) with (name_key name). fold m. by rewrite Et.
    + by rewrite drop_app_length' by done.
  - unfold st16. by rewrite length_le_put.
  - apply le_put_byte, Forall_app. split; [by apply Forall_take|].
    apply Forall_app. split; [|apply Forall_replicate; unfold byte; lia].
    apply Forall_forall. intros x Hx. eapply Forall_forall; [exact Hb|].
    apply cut_elem, elem_of_take in Hx as (j & Hx & _). by eapply list_elem_of_lookup_2.
  - unfold live, de_inum. rewrite ld16_st16 by (rewrite Hlm; unfold DE; lia). unfold u16. rewrite Z.mod_small by lia.
    rewrite (proj2 (Z.eqb_neq inum 0)) by lia. unfold de_key, de_name, st16. do 2 f_equal.
    cbn [le_put]. rewrite !drop_insert_lt by lia. rewrite drop_app_length' by (rewrite length_take, Hl; done).
    apply cut_pad, cut_nonzero.
Qed.

(** writei() inside one block writes all or nothing. *)
Lemma writei_loop_whole fuel i bs off n s r s' : 0 <= off -> 0 < n -> off mod BSIZE + n <= BSIZE ->
  writei_loop fuel i (KernelSrc bs) off n 0 s = Ok r s' -> fst r = 0 \/ fst r = n.
Proof.
  intros Ho Hn Hm E. destruct fuel as [|fuel]; [cbn [writei_loop] in E; by rewrite (proj2 (Z.ltb_lt 0 n)) in E|].
  rewrite writei_loop_S in E by done.
  apply bind_Ok_inv in E as (a & s1 & _ & E). destruct (a =? 0); [injection E as <- _; by left|].
  apply bind_Ok_inv in E as (ip & s2 & _ & E). apply bind_Ok_inv in E as (bp & s3 & _ & E).
  erewrite bind_Ok in E by done. cbn [fst negb] in E.
  apply bind_Ok_inv in E as (d & s4 & _ & E). apply bind_Ok_inv in E as ([] & s5 & _ & E).
  apply bind_Ok_inv in E as ([] & s6 & _ & E). apply bind_Ok_inv in E as ([] & s7 & _ & E).
  assert (0 + chunk off (n - 0) = n) as Ec by (unfold chunk; lia). rewrite Ec in E.
  destruct fuel; cbn [writei_loop] in E; rewrite Z.ltb_irrefl in E; injection E as <- _; by right.
Qed.

Lemma writei_whole i bs off n s r s' : 0 <= off -> 0 < n -> off mod BSIZE + n <= BSIZE -> 0 <= off <= i_size (geti i s) ->
  off + n <= MAXFILE * BSIZE -> writei i (KernelSrc bs) off n s = Ok r s' -> r = 0 \/ r = n.
Proof.
  intros Ho Hn Hm Hs Hmax. unfold writei. erewrite bind_Ok by done. cbv beta.
  rewrite Z.gtb_ltb, (proj2 (Z.ltb_ge _ _)) by lia. cbn [orb]. rewrite u32_small by fslia.
  rewrite (proj2 (Z.ltb_ge _ _)), Z.gtb_ltb, (proj2 (Z.ltb_ge _ _)) by lia.
  intros (rr & s1 & E & E2)%bind_Ok_inv. apply writei_loop_whole in E; [|done..].
  apply bind_Ok_inv in E2 as (ip & s2 & _ & E2). apply bind_Ok_inv in E2 as ([] & s3 & _ & E2).
  apply bind_Ok_inv in E2 as ([] & s4 & _ & E2). injection E2 as <- _. destruct E as [->| ->]; [by left|right].
  apply i32_small. fslia.
Qed.

(** ** Writing an entry *)

Definition op_room s : Prop := in_op s /\ Z.of_nat (length (logged s)) + 5 <= MAXOPBLOCKS.

Lemma entry_budget i s k : op_room s -> 0 <= k ->
  let off := DIRENT * k in
  let x := bool_decide (NDIRECT * BSIZE < off + DIRENT) in
  reaches x off DIRENT /\ budget x s i off DIRENT + 1 <= MAXOPBLOCKS.
Proof.
  intros [_ Hr] Hk off x. split; [intros ? _; unfold x; by rewrite bool_decide_true|].
  assert (nblk off DIRENT = 1%nat) as E1 by (unfold nblk, off, DIRENT; simpl; fslia).
  unfold budget. rewrite E1. cbn [bcost]. unfold pot. pose proof (cind_bounds s i).
  destruct x; destruct (_ =? 0); lia.
Qed.

Lemma src_bytes_kernel (u : U) de n : length de = n -> src_bytes u (KernelSrc de) n = de.
Proof.
  intros <-. apply list_eq. intros j. destruct (decide (j < length de)%nat) as [Hj|Hj].
  - rewrite src_bytes_lookup by done. simpl. rewrite Nat2Z.id.
    destruct (lookup_lt_is_Some_2 de j) as [x Ex]; [lia|]. by rewrite Ex.
  - rewrite !lookup_ge_None_2; [done|lia|rewrite length_src_bytes; lia].
Qed.

Lemma ents_written s s' dp k de : dir_ok s dp -> (k <= length (ents s dp))%nat -> length de = DE ->
  i_size (geti dp s') = Z.max (i_size (geti dp s)) (DIRENT * Z.of_nat k + DIRENT) ->
  contents s' dp = take (Z.to_nat (i_size (geti dp s')))
    (splice (Z.to_nat (DIRENT * Z.of_nat k)) (src_bytes (f_user s) (KernelSrc de) (Z.to_nat (DIRENT + 0))) (contents s dp)) ->
  ents s' dp = put_ent k de (ents s dp).
Proof.
  intros Hr Hk Hl Es Ec. pose proof (ents_size s dp Hr) as Hs.
  replace (Z.to_nat (DIRENT * Z.of_nat k)) with (DE * k)%nat in Ec by (unfold DIRENT, DE; lia).
  rewrite src_bytes_kernel in Ec by done.
  destruct (dents_splice (contents s dp) de k Hl) as [Ed Hlen].
  { rewrite length_contents, Hs. unfold DIRENT, DE. replace (Z.to_nat _) with (length (ents s dp) * 16)%nat by lia.
    by apply Nat.Div0.mod_mul. }
  { unfold ents in Hk. by rewrite length_dents in Hk. }
  rewrite take_ge in Ec by (rewrite Hlen, length_contents, Es; unfold DIRENT, DE in *; lia).
  unfold ents. by rewrite Ec, Ed.
Qed.

Lemma write_entry s dp k de : disk_ok s -> dir_ok s dp -> held s = [] -> op_room s ->
  (k <= length (ents s dp))%nat -> DIRENT * Z.of_nat k + DIRENT <= MAXFILE * BSIZE -> length de = DE -> Forall byte de ->
  exists r s', writei dp (KernelSrc de) (DIRENT * Z.of_nat k) DIRENT s = Ok r s' /\
    disk_ok s' /\ dir_ok s' dp /\ frame dp s s' /\
    ((r = DIRENT /\ ents s' dp = put_ent k de (ents s dp)) \/
     (r = 0 /\ disk_full s' /\ contents s' dp = contents s dp)).
Proof.
  intros Hd Hr Hh Hop Hk Hmax Hl Hb. destruct (entry_budget dp s (Z.of_nat k) Hop ltac:(lia)) as [Hx Hbud].
  pose proof (ents_size s dp Hr) as Hs. pose proof (dr_file _ _ Hr) as Hfi. pose proof (fi_size _ _ Hfi) as Hsz.
  assert (DIRENT * Z.of_nat k mod BSIZE + DIRENT <= BSIZE) as Hmod by (unfold DIRENT; fslia).
  edestruct (fun x => writei_spec x dp (KernelSrc de) (DIRENT * Z.of_nat k) DIRENT s Hd Hfi Hh (proj1 Hop)) as
    (r & l & s' & E & Hr0 & Hl0 & Hrl & Hshort & Hlu & Hd' & Hi' & F & Es & Hby & _);
    [split; [rewrite Hl; done|done]|done|unfold DIRENT in *; lia|done|exact Hx|exact Hbud|].
  assert (forall n, ~ src_faults (f_user s) (KernelSrc de) n) as Hnf by (by intros n (? & ? & _)).
  assert (l = 0) as -> by (destruct (decide (l = 0)) as [|Hne]; [done|by destruct (Hnf _ (Hlu Hne))]).
  exists r, s'. split; [done|]. split; [done|].
  assert (contents s' dp = take (Z.to_nat (i_size (geti dp s')))
    (splice (Z.to_nat (DIRENT * Z.of_nat k)) (src_bytes (f_user s) (KernelSrc de) (Z.to_nat (r + 0))) (contents s dp))) as Ec
    by (apply contents_splice; (done || lia || (unfold DIRENT in *; lia))).
  assert (i_type (geti dp s') = T_DIR) as Et by (rewrite (fr_ino _ _ _ F); exact (dr_type _ _ Hr)).
  apply writei_whole in E as Hw; [|unfold DIRENT; lia|done|done|unfold DIRENT in *; lia|done].
  destruct Hw as [-> | ->].
  - assert (i_size (geti dp s') = i_size (geti dp s)) as Es' by (rewrite Es; unfold DIRENT in *; lia).
    split; [split; [done|done|by rewrite Es'; apply (dr_size _ _ Hr)]|]. split; [done|]. right. split; [done|].
    split; [destruct Hshort as [?|?%Hnf]; done|]. rewrite Ec, Es'. unfold splice. simpl. rewrite Nat.add_0_r, take_drop.
    apply take_ge. by rewrite length_contents.
  - assert (ents s' dp = put_ent k de (ents s dp)) as Ed by (by apply ents_written).
    split; [|by split; [|left]]. split; [done|done|]. rewrite Es, Hs. unfold DIRENT.
    destruct (Z.max_spec (16 * Z.of_nat (length (ents s dp))) (16 * Z.of_nat k + 16)) as [[_ ->]|[_ ->]]; fslia.
Qed.

Lemma dirlink_spec s dp name inum junk : disk_ok s -> dir_ok s dp -> held s = [] -> op_room s -> is_name name ->
  0 < inum < 65536 -> length junk = DE -> Forall byte junk -> dir_map s dp !! name_key name = None ->
  DIRENT * Z.of_nat (free_slot (ents s dp)) + DIRENT <= MAXFILE * BSIZE ->
  exists r s', dirlink dp name inum junk s = Ok r s' /\ disk_ok s' /\ dir_ok s' dp /\ frame dp s s' /\
    ((r = 0 /\ dir_map s' dp = <[name_key name := inum]> (dir_map s dp)) \/
     (r = -1 /\ disk_full s' /\ contents s' dp = contents s dp)).
Proof.
  intros Hd Hr Hh Hop Hn Hi Hj Hjb Hnew Hmax. unfold dirlink.
  assert (dir_scan (name_key name) 0 (ents s dp) = None) as Hs.
  { unfold dir_map in Hnew. rewrite <- (dir_scan_map _ 0) in Hnew. by destruct (dir_scan _ _ _). }
  erewrite bind_Ok by (rewrite dirlookup_spec, Hs by done; done). cbv iota beta. erewrite bind_Ok by done. cbv beta.
  destruct (dirlink_loop_spec (Z.to_nat (i_size (geti dp s) / DIRENT + 1)) dp 0 junk s) as (de & E & Hl & Hb); try done.
  { lia. }
  { rewrite (ents_size s dp Hr). unfold DIRENT. rewrite Z.mul_comm, Z.div_mul by done. lia. }
  rewrite Z.mul_0_r, drop_0, Nat.add_0_l in E. erewrite bind_Ok by exact E. cbn [fst snd].
  destruct (fill_dirent_spec name inum de s Hn Hl Hb Hi) as (de' & E' & Hl' & Hb' & Hlive).
  erewrite bind_Ok by exact E'.
  destruct (write_entry s dp (free_slot (ents s dp)) de') as (w & s' & Ew & Hd' & Hr' & F & Hres); try done.
  { apply free_slot_le. }
  erewrite bind_Ok by exact Ew. destruct Hres as [[-> He]|(-> & Hfull & Hc)].
  - exists 0, s'. do 4 (split; [done|]). left. split; [done|]. unfold dir_map. rewrite He. by apply dir_of_put.
  - exists (-1), s'. do 4 (split; [done|]). by right.
Qed.

(* ------------------------------------------------------------------ *)
(** ** The inode table *)

(** No reference count is about to overflow. *)
Definition itab_ok s : Prop :=
  length (f_itab s) = Z.to_nat NINODE /\ forall i, 0 <= i_ref (geti i s) < 2 ^ 31 - 1.

Lemma iget_scan_spec n i dev inum e l :
  (match e with Some j => (j < i)%nat /\ i_ref (default inode0 (l !! j)) = 0 | None => forall j, (j < i)%nat -> i_ref (default inode0 (l !! j)) <> 0 end) ->
  match iget_scan n i dev inum e l with
  | inl j => (i <= j < i + n)%nat /\ 0 < i_ref (default inode0 (l !! j)) /\
      i_dev (default inode0 (l !! j)) = dev /\ i_inum (default inode0 (l !! j)) = inum
  | inr (Some j) => (j < i + n)%nat /\ i_ref (default inode0 (l !! j)) = 0
  | inr None => forall j, (j < i + n)%nat -> i_ref (default inode0 (l !! j)) <> 0
  end.
Proof.
  revert i e. induction n as [|n IH]; intros i e He; cbn [iget_scan].
  { rewrite Nat.add_0_r. by destruct e. }
  destruct ((i_ref _ >? 0) && _ && _) eqn:E.
  - apply andb_prop in E as [[E1 E2]%andb_prop E3]. rewrite Z.gtb_ltb, Z.ltb_lt in E1. rewrite Z.eqb_eq in E2, E3.
    split; [lia|done].
  - specialize (IH (S i) (match e with Some e => Some e | None =>
      if i_ref (default inode0 (l !! i)) =? 0 then Some i else None end)).
    rewrite Nat.add_succ_r, <- Nat.add_succ_l. destruct (iget_scan _ _ _ _ _ _) as [j|[j|]];
      [destruct IH as [? ?]|apply IH|apply IH]; [|split; [lia|done]|..].
    all: destruct e as [j'|]; [destruct He; split; [lia|done]|].
    all: destruct (Z.eqb_spec (i_ref (default inode0 (l !! i))) 0); [split; [lia|done]|].
    all: intros j' Hj'; destruct (decide (j' = i)) as [->|]; [done|apply He; lia].
Qed.

(** One entry of the table changed, to the inode. *)
Definition got s (inum : Z) (i : nat) s' : Prop :=
  s' = set_itab (fun _ => f_itab s') s /\ (forall j, j <> i -> geti j s' = geti j s) /\ length (f_itab s') = length (f_itab s) /\
  i_dev (geti i s') = ROOTDEV /\ i_inum (geti i s') = inum /\ i_ref (geti i s') = i_ref (geti i s) + 1.
Definition itab_full s : Prop := forall i, (i < Z.to_nat NINODE)%nat -> i_ref (geti i s) <> 0.

(** The two ways iget() gives an inode: one more reference, or a free
    entry. *)
Definition ref_more (ip : inode) : inode := set_ref (i32 (i_ref ip + 1)) ip.
Definition ref_new (inum : Z) (ip : inode) : inode :=
  Inode ROOTDEV inum 1 (i_lock ip) false (i_type ip) (i_major ip) (i_minor ip) (i_nlink ip) (i_size ip) (i_addrs ip).

Lemma iget_run inum s : length (f_itab s) = Z.to_nat NINODE -> f_itlock s = false ->
  (exists i f, iget ROOTDEV inum s = Ok i (set_itab (alter f i) s) /\ (i < Z.to_nat NINODE)%nat /\
    ((f = ref_more /\ 0 < i_ref (geti i s) /\ i_dev (geti i s) = ROOTDEV /\ i_inum (geti i s) = inum) \/
     (f = ref_new inum /\ i_ref (geti i s) = 0))) \/
  (iget ROOTDEV inum s = Panic "iget: no inodes" /\ itab_full s).
Proof.
  intros Hlen Hlk. unfold iget. erewrite bind_Ok by (unfold lock_acquire; simpl; rewrite Hlk; done).
  erewrite bind_Ok by done. cbv beta. change (f_itab (lset L_itlock true s)) with (f_itab s).
  pose proof (iget_scan_spec (Z.to_nat NINODE) 0 ROOTDEV inum None (f_itab s)) as Hs.
  specialize (Hs ltac:(cbv iota; intros; lia)).
  assert (forall j f, (upd_inode j f ;; lock_release L_itlock ;; ret j) (lset L_itlock true s) = Ok j (set_itab (alter f j) s)) as Hrun.
  { intros j f. unfold upd_inode, lock_release. erewrite bind_Ok by done. erewrite bind_Ok by done. unfold ret. f_equal.
    destruct s; simpl in *. by rewrite Hlk. }
  destruct (iget_scan _ _ _ _ _ _) as [j|[j|]].
  - left. destruct Hs as (Hj & Hpos & Hd & Hn). exists j, ref_more. split; [apply Hrun|]. split; [lia|]. by left.
  - left. destruct Hs as [Hj Hz]. exists j, (ref_new inum). split; [apply Hrun|]. split; [lia|]. by right.
  - right. split; [done|]. intros i Hi. apply Hs. lia.
Qed.

Lemma iget_spec inum s : itab_ok s -> f_itlock s = false ->
  (exists i s', iget ROOTDEV inum s = Ok i s' /\ got s inum i s') \/
  (iget ROOTDEV inum s = Panic "iget: no inodes" /\ itab_full s).
Proof.
  intros [Hlen Href] Hlk. destruct (iget_run inum s Hlen Hlk) as [(i & f & E & Hi & Hf)|?]; [left|by right].
  exists i, (set_itab (alter f i) s). split; [done|].
  pose proof (geti_alter i i f s ltac:(lia)) as Eg. rewrite decide_True in Eg by done.
  split; [done|]. split; [intros j Hj; by rewrite geti_alter, decide_False by lia|]. split; [apply length_alter|]. rewrite Eg.
  specialize (Href i). destruct Hf as [(-> & Hp & Hd & Hn)|(-> & Hz)]; simpl; [|rewrite Hz; done].
  split; [done|]. split; [done|]. apply i32_small. lia.
Qed.

(* ------------------------------------------------------------------ *)
(** ** Theorems *)

(** dirlookup() is the lookup of the directory read as a map from names
    to inode numbers, where two names are the same if they agree up to the
    first NUL or DIRSIZ bytes.  A name the directory has gives a reference
    to its inode and the offset of an entry that holds them, and changes
    nothing but that inode's entry of the table; the one error is a full
    inode table.  A name it does not have gives the null pointer and changes
    nothing. *)
Theorem dirlookup_finds s dp name :
  disk_ok s -> dir_ok s dp -> held s = [] -> is_name name -> itab_ok s -> f_itlock s = false ->
  match dir_map s dp !! name_key name with
  | None => dirlookup dp name s = Ok None s
  | Some inum =>
      (exists i k s', dirlookup dp name s = Ok (Some (i, DIRENT * Z.of_nat k)) s' /\ got s inum i s' /\
        ents s dp !! k ≫= live = Some (name_key name, inum)) \/
      (dirlookup dp name s = Panic "iget: no inodes" /\ itab_full s)
  end.
Proof.
  intros Hd Hr Hh Hn Hit Hlk. unfold dir_map. rewrite <- (dir_scan_map _ 0), dirlookup_spec by done.
  destruct (dir_scan (name_key name) 0 (ents s dp)) as [[k inum]|] eqn:Es; [|done]. cbn [fmap option_fmap option_map snd].
  destruct (iget_spec inum s Hit Hlk) as [(i & s' & E & Hg)|[E Hf]].
  - left. exists i, k, s'. split; [by erewrite bind_Ok by exact E|]. split; [done|].
    apply dir_scan_at in Es. by rewrite Nat.sub_0_r in Es.
  - right. split; [|done]. unfold bind. by rewrite E.
Qed.

(** C30. dirlink() of a new name, in a directory that has not reached the
    largest size of a file, inserts it in the directory's map: it
    returns 0 and every other name keeps its inode, or, when no block of the
    disk is free, it returns -1 and the bytes of the directory are as they
    were.  It never needs more than five blocks of the log, and no other
    file changes. *)
Theorem dirlink_inserts s dp name inum junk :
  disk_ok s -> dir_ok s dp -> held s = [] -> op_room s -> is_name name -> 0 < inum < 65536 ->
  length junk = DE -> Forall byte junk -> dir_map s dp !! name_key name = None ->
  DIRENT * Z.of_nat (free_slot (ents s dp)) + DIRENT <= MAXFILE * BSIZE ->
  exists r s', dirlink dp name inum junk s = Ok r s' /\
    ((r = 0 /\ dir_map s' dp = <[name_key name := inum]> (dir_map s dp)) \/
     (r = -1 /\ disk_full s' /\ contents s' dp = contents s dp)) /\
    disk_ok s' /\ dir_ok s' dp /\ held s' = [] /\
    forall j, j <> dp -> file_ok s j -> (forall a, owns s dp a -> owns s j a -> False) ->
      contents s' j = contents s j /\ file_ok s' j.
Proof.
  intros Hd Hr Hh Hop Hn Hi Hj Hjb Hnew Hmax.
  destruct (dirlink_spec s dp name inum junk) as (r & s' & E & Hd' & Hr' & F & Hres); try done.
  exists r, s'. split; [done|]. split; [done|]. split; [done|]. split; [done|].
  split; [by rewrite (fr_held _ _ _ F)|]. intros j Hne Hfj Hdisj. pose proof (dr_file _ _ Hr).
  split; [by eapply contents_other|by eapply file_ok_other].
Qed.

End fs.

(* ------------------------------------------------------------------ *)
(** ** A small directory: "." and a free entry *)

Definition ex_entry : list Z := [1; 0; 46] ++ replicate 13 0.
Definition ex_dir_data : list Z := ex_entry ++ replicate 1008 0.
Definition ex_dir : fs flat := ex_disk T_DIR 32 ex_dir_data.
Lemma ex_dir_block : is_block ex_dir_data.
Proof.
  split; [vm_compute; reflexivity|]. apply Forall_app. split; [unfold ex_entry; cbn [replicate app]; bytes|]. apply Forall_replicate. unfold byte. lia.
Qed.
Lemma ex_dir_disk_ok : disk_ok ex_dir.
Proof. apply ex_disk_ok, ex_dir_block. Qed.
Lemma ex_dir_ok : dir_ok ex_dir 0.
Proof. split; [apply ex_file_ok; fsz; lia|reflexivity..]. Qed.
Lemma ex_itab_ok : itab_ok ex_dir.
Proof.
  split; [reflexivity|]. intros i. unfold geti, ex_dir, ex_disk. cbn [f_itab].
  destruct i as [|i]; [simpl; lia|]. change ((?x :: ?l) !! S i) with (l !! i).
  destruct (replicate _ inode0 !! i) as [ip|] eqn:E; [|simpl; lia].
  apply lookup_replicate in E as [-> _]. simpl. lia.
Qed.

#[local] Instance ex_dir_budget : WakeBudget := 0%nat.

Lemma dirlookup_finds_witness : exists i k s',
  dirlookup 0 [46; 0] ex_dir = Ok (Some (i, k)) s' /\ i_inum (geti i s') = 1.
Proof.
  assert (dir_map ex_dir 0 !! name_key [46; 0] = Some 1) as E by (vm_compute; reflexivity).
  pose proof (dirlookup_finds ex_dir 0 [46; 0]) as Hf. rewrite E in Hf. destruct Hf as [(i & k & s' & El & Hg & _)|[_ Hf]].
  - exact ex_dir_disk_ok.
  - exact ex_dir_ok.
  - reflexivity.
  - split; [right; vm_compute; right; left|bytes].
  - exact ex_itab_ok.
  - reflexivity.
  - exists i, (DIRENT * Z.of_nat k), s'. split; [exact El|]. apply Hg.
  - exfalso. apply (Hf 1%nat); [vm_compute; lia|reflexivity].
Defined.

Lemma dirlink_inserts_witness : exists r s',
  dirlink 0 [97; 98; 0] 7 (replicate 16 0) ex_dir = Ok r s' /\ (r = 0 \/ r = -1).
Proof.
  destruct (dirlink_inserts ex_dir 0 [97; 98; 0] 7 (replicate 16 0)) as (r & s' & E & Hr & _).
  - exact ex_dir_disk_ok.
  - exact ex_dir_ok.
  - reflexivity.
  - split; vm_compute; discriminate.
  - split; [right; vm_compute; right; right; left|bytes].
  - lia.
  - reflexivity.
  - apply Forall_replicate. unfold byte. lia.
  - vm_compute. reflexivity.
  - vm_compute. discriminate.
  - exists r, s'. split; [exact E|]. destruct Hr as [[-> _]|[-> _]]; [by left|by right].
Defined.
