(* ===== verification/FsView.v ===== *)
(** * Two states with the same disk

   What a file is depends on the blocks, the super block and the inode, not
   on the table entry that has it or on the rest of the state. *)

From stdpp Require Import base numbers list gmap strings.
From Stdlib Require Import ZArith Lia.
From S2P Require Import Prelude Params Cmem KString Sleeplock UserMem Fs FsInv FsMap FsBmap FsWrite FsFile.

(* ------------------------------------------------------------------ *)
(** ** Inodes on disk *)

(** The inode in memory is the one in the 64 bytes at [o]. *)
Definition holds (o : nat) (d : list Z) (ip : inode) : Prop := load_dinode o d ip = ip.

Lemma holds_inv o d ip : holds o d ip <->
  di_type o d = i_type ip /\ i16 (ld16 (o + 2) d) = i_major ip /\ i16 (ld16 (o + 4) d) = i_minor ip /\
  di_nlink o d = i_nlink ip /\ ld32 (o + 8) d = i_size ip /\ di_addrs o d = i_addrs ip.
Proof.
  unfold holds, load_dinode. split.
  - destruct ip. simpl. by intros [= -> -> -> -> -> ->].
  - intros (-> & -> & -> & -> & -> & ->). by destruct ip.
Qed.

Lemma holds_ext o o' d d' ip : (forall k, (k < 64)%nat -> d !! (o + k)%nat = d' !! (o' + k)%nat) ->
  holds o d ip -> holds o' d' ip.
Proof.
  intros Hk. assert (forall n x, (x + n <= 64)%nat -> le_get n (o + x) d = le_get n (o' + x) d') as Hg.
  { induction n as [|n IH]; intros x Hx; cbn [le_get]; [done|]. rewrite Hk by lia. f_equal. f_equal.
    rewrite <- !Nat.add_succ_r. apply IH. lia. }
  rewrite !holds_inv. unfold di_type, di_nlink, di_addrs, ld16, ld32.
  rewrite <- !Hg by lia. rewrite <- (Nat.add_0_r o) at 1. rewrite (Hg 2%nat 0%nat) by lia. rewrite Nat.add_0_r.
  intros (? & ? & ? & ? & ? & E). do 5 (split; [done|]). rewrite <- E. apply map_ext_in. intros k Hkin.
  apply in_seq in Hkin. change (Z.to_nat (NDIRECT + 1)) with 13%nat in Hkin.
  rewrite <- !Nat.add_assoc. symmetry. apply Hg. lia.
Qed.

(** ilock() has read inode [k] into entry [i] of the table. *)
Definition loaded {U} (t : fs U) (i : nat) (k : Z) : Prop :=
  (i < length (f_itab t))%nat /\ i_dev (geti i t) = ROOTDEV /\ i_inum (geti i t) = k /\
  load_dinode (dinode_off k) (blkS (IBLOCK k (f_sb t)) t) (geti i t) = geti i t.

Section same.
Context {U V : Type} (t : fs U) (g : fs V) (Hblk : forall b, blkS b t = blkS b g) (Esb : f_sb t = f_sb g).

Lemma same_used b : used t b = used g b.
Proof. unfold used. by rewrite Esb, Hblk. Qed.
Lemma same_bitmap b : bitmap_block t b <-> bitmap_block g b.
Proof. unfold bitmap_block. by rewrite Esb. Qed.
Lemma same_inodes b : inode_block t b <-> inode_block g b.
Proof. unfold inode_block. by rewrite Esb. Qed.

Lemma same_disk : disk_ok g -> disk_ok t.
Proof.
  intros [K1 K2 K3 K4]. split.
  - intros b. by rewrite Hblk.
  - by rewrite Esb.
  - intros b. rewrite same_bitmap, same_inodes. apply K3.
  - intros b. rewrite Esb, same_used, same_bitmap, same_inodes. apply K4.
Qed.

Context (i k : nat) (Ea : i_addrs (geti i t) = i_addrs (geti k g)) (Es : i_size (geti i t) = i_size (geti k g)).

Lemma same_iaddr : iaddr t i = iaddr g k.
Proof. unfold iaddr, addr_of. by rewrite Ea. Qed.
Lemma same_baddr bn : baddr t i bn = baddr g k bn.
Proof. unfold baddr, addr_of. by rewrite Ea, same_iaddr, Hblk. Qed.
Lemma same_owns a : owns t i a <-> owns g k a.
Proof. unfold owns. rewrite same_iaddr. by setoid_rewrite same_baddr. Qed.
Lemma same_contents : contents t i = contents g k.
Proof. unfold contents. rewrite Es. apply map_ext. intros n. unfold fbyte. by rewrite same_baddr, Hblk. Qed.

Lemma same_file : (i < length (f_itab t))%nat -> i_dev (geti i t) = ROOTDEV -> i_inum (geti i t) = i_inum (geti k g) ->
  file_ok g k -> file_ok t i.
Proof.
  intros Hi Hd En Hf. split.
  - done.
  - done.
  - rewrite En, Esb. apply Hf.
  - rewrite Ea. apply Hf.
  - intros a. rewrite same_owns, Esb, same_used, same_bitmap, same_inodes. apply Hf.
  - intros b b'. rewrite !same_baddr. apply Hf.
  - intros b. rewrite same_baddr, same_iaddr. apply Hf.
  - rewrite Es. apply Hf.
  - intros b. rewrite same_baddr, Es. apply Hf.
Qed.

End same.
