(* ===== verification/FsPath.v ===== *)
(** * Path names

   namei() walks a path from directory to directory.  The specification is a
   walk over the directories of the disk, each a map from names to inode
   numbers; what the walk leaves in the inode table is one reference to the
   inode it ends at. *)

From stdpp Require Import base numbers list gmap strings.
From Stdlib Require Import ZArith Lia.
From S2P Require Import Prelude Params Cmem KString Sleeplock UserMem Fs FsInv FsMap FsBmap FsWrite Pipe Console File FsFile FileWrite FsDir FsView.

(* ------------------------------------------------------------------ *)
(** ** The elements of a path *)

Fixpoint elems_acc (cur p : list Z) : list (list Z) :=
  match p with
  | [] => if decide (cur = []) then [] else [cur]
  | c :: p' =>
      if c =? SLASH then if decide (cur = []) then elems_acc [] p' else cur :: elems_acc [] p'
      else elems_acc (cur ++ [c]) p'
  end.
Definition elems : list Z -> list (list Z) := elems_acc [].

Lemma elems_acc_app cur e rest : SLASH ∉ e -> elems_acc cur (e ++ rest) = elems_acc (cur ++ e) rest.
Proof.
  revert cur. induction e as [|c e IH]; intros cur He; [by rewrite app_nil_r|].
  apply not_elem_of_cons in He as [Hc He]. cbn [app elems_acc]. rewrite (proj2 (Z.eqb_neq _ _)) by done.
  by rewrite IH, <- app_assoc.
Qed.

(** A path is a list of bytes before the NUL. *)
Definition is_path (p : list Z) : Prop := 0 ∉ p /\ Forall byte p.

Lemma is_path_app a b : is_path (a ++ b) <-> is_path a /\ is_path b.
Proof. unfold is_path. rewrite not_elem_of_app, Forall_app. tauto. Qed.
Lemma is_path_cons c p : is_path (c :: p) <-> c <> 0 /\ byte c /\ is_path p.
Proof. unfold is_path. rewrite not_elem_of_cons, Forall_cons. intuition congruence. Qed.

Lemma skip_slashes_spec p : is_path p ->
  exists q, skip_slashes (p ++ [0]) = q ++ [0] /\ elems q = elems p /\ is_path q /\ head q <> Some SLASH.
Proof.
  induction p as [|c p IH]; intros Hp.
  - by exists [].
  - apply is_path_cons in Hp as (Hc & Hb & Hp). cbn [app skip_slashes]. destruct (Z.eqb_spec c SLASH) as [->|Hne].
    + destruct (IH Hp) as (q & E & Ee & Hq). exists q. split; [done|]. split; [by rewrite Ee|done].
    + exists (c :: p). split; [done|]. split; [done|]. split; [by apply is_path_cons|]. simpl. congruence.
Qed.

Lemma take_elem_spec p : is_path p -> exists e rest, p = e ++ rest /\ take_elem (p ++ [0]) = (e, rest ++ [0]) /\
  SLASH ∉ e /\ (rest = [] \/ head rest = Some SLASH) /\ (head p <> Some SLASH -> p <> [] -> e <> []).
Proof.
  induction p as [|c p IH]; intros Hp.
  - exists [], []. split_and!; [done..|apply not_elem_of_nil|by left|done].
  - apply is_path_cons in Hp as (Hc & Hb & Hp). cbn [app take_elem]. destruct (Z.eqb_spec c SLASH) as [->|Hne].
    + exists [], (SLASH :: p). split_and!; [done..|apply not_elem_of_nil|by right|done].
    + rewrite (proj2 (Z.eqb_neq c 0)) by done. destruct (IH Hp) as (e & rest & -> & E & He & Hr & _).
      exists (c :: e), rest. cbn [orb]. rewrite E. split_and!; [done..|apply not_elem_of_cons; done|done|done].
Qed.

(** The name buffer after an element was copied to it. *)
Lemma elem_name e name : is_path e -> length name = Z.to_nat DIRSIZ -> Forall byte name ->
  let name' := if Z.of_nat (length e) >=? DIRSIZ then splice 0 (take (Z.to_nat DIRSIZ) e) name else splice 0 (e ++ [0]) name in
  length name' = Z.to_nat DIRSIZ /\ Forall byte name' /\ name_key name' = take (Z.to_nat DIRSIZ) e.
Proof.
  intros [Hnz Hb] Hl Hnb name'. unfold DIRSIZ in *. change (Z.to_nat 14) with 14%nat in *.
  assert (Forall (fun x => x <> 0) e) as Hnz' by (apply Forall_forall; by intros x Hx ->).
  unfold name', name_key. change (Z.to_nat DIRSIZ) with 14%nat. rewrite Z.geb_leb. destruct (Z.leb_spec 14 (Z.of_nat (length e))) as [Hge|Hlt].
  - assert (length (take 14 e) = 14%nat) as Ht by (rewrite length_take; lia).
    assert (splice 0 (take 14 e) name = take 14 e) as ->.
    { unfold splice. rewrite take_0, Ht. simpl. rewrite drop_ge by lia. by rewrite app_nil_r. }
    split; [done|]. split; [by apply Forall_take|]. rewrite (take_ge (take 14 e)) by lia.
    pose proof (cut_pad 14 (take 14 e)) as Hc. unfold pad in Hc. rewrite Ht, Nat.sub_diag in Hc. cbn [replicate] in Hc.
    rewrite app_nil_r in Hc. apply Hc. by apply Forall_take.
  - assert (length (splice 0 (e ++ [0]) name) = 14%nat) as Hls by (rewrite length_splice by (rewrite length_app; simpl; lia); done).
    split; [done|]. split.
    + unfold splice. rewrite !Forall_app. split; [by apply Forall_take|]. split; [split; [done|bytes]|by apply Forall_drop].
    + rewrite take_ge by lia. unfold splice. rewrite take_0. cbn [app]. rewrite <- app_assoc. cbn [app].
      rewrite cut_app_nul by done. by rewrite take_ge by lia.
Qed.

Lemma skipelem_spec p name : is_path p -> length name = Z.to_nat DIRSIZ -> Forall byte name ->
  match elems p with
  | [] => skipelem (p ++ [0]) name = (None, name)
  | e :: es => exists q name', skipelem (p ++ [0]) name = (Some (q ++ [0]), name') /\ is_path q /\ elems q = es /\
      length name' = Z.to_nat DIRSIZ /\ Forall byte name' /\ name_key name' = take (Z.to_nat DIRSIZ) e
  end.
Proof.
  intros Hp Hl Hb. unfold skipelem. destruct (skip_slashes_spec p Hp) as (q & E & Ee & Hq & Hh). rewrite E, <- Ee.
  destruct q as [|c q].
  - done.
  - destruct (take_elem_spec (c :: q) Hq) as (e & rest & Eq & Et & He & Hr & Hne). specialize (Hne Hh ltac:(done)).
    assert (c <> 0) as Hc by (by apply is_path_cons in Hq as [? _]).
    rewrite Eq in Hq. apply is_path_app in Hq as [Hpe Hpr].
    destruct (elem_name e name Hpe Hl Hb) as (Hl' & Hb' & Hk).
    assert (elems (c :: q) = e :: elems rest) as Hel.
    { rewrite Eq. unfold elems. rewrite elems_acc_app by done. cbn [app]. destruct rest as [|d rest]; cbn [elems_acc].
      - by rewrite decide_False.
      - destruct Hr as [|[= ->]]; [done|]. rewrite Z.eqb_refl, decide_False by done. by rewrite decide_True. }
    rewrite Hel. destruct (skip_slashes_spec rest Hpr) as (q' & E' & Ee' & Hq' & _).
    eexists _, _. split; [|done]. change (default 0 (head ((c :: q) ++ [0]))) with c.
    by rewrite (proj2 (Z.eqb_neq c 0)), Et, E' by done.
Qed.

Lemma length_elems_acc cur p : (length (elems_acc cur p) <= length p + if decide (cur = []) then 0 else 1)%nat.
Proof.
  revert cur. induction p as [|c p IH]; intros cur; cbn [elems_acc length].
  - case_decide; simpl; lia.
  - destruct (c =? SLASH).
    + specialize (IH []). rewrite decide_True in IH by done. case_decide; simpl; lia.
    + specialize (IH (cur ++ [c])). rewrite decide_False in IH by (by destruct cur). case_decide; lia.
Qed.

Section fs.
Context {U : Type} `{UserMem U} `{WakeBudget}.
Implicit Types s : fs U.

(* ------------------------------------------------------------------ *)
(** ** The directories of the disk *)

(** Inode [k] of the disk, and the state with only that inode in memory. *)
Definition dinode s (k : Z) : inode :=
  load_dinode (dinode_off k) (blkS (IBLOCK k (f_sb s)) s) (Inode ROOTDEV k 1 initsleeplock true 0 0 0 0 0 []).
Definition solo s (k : Z) : fs U := set_itab (fun _ => [dinode s k]) s.
Definition ddir s (k : Z) : gmap (list Z) Z := dir_map (solo s k) 0.

(** A set of inodes closed under the entries of its directories. *)
Record tree s (P : Z -> Prop) : Prop := {
  tr_file k : P k -> file_ok (solo s k) 0;
  tr_type k : P k -> i_type (dinode s k) <> 0 /\ i_nlink (dinode s k) <> 0;
  tr_dir k : P k -> i_type (dinode s k) = T_DIR -> i_size (dinode s k) mod DIRENT = 0;
  tr_closed k name k' : P k -> i_type (dinode s k) = T_DIR -> ddir s k !! name = Some k' -> P k'
}.

(** The specification of namei(). *)
Fixpoint follow s (k : Z) (es : list (list Z)) : option Z :=
  match es with
  | [] => Some k
  | e :: es' =>
      if i_type (dinode s k) =? T_DIR then
        match ddir s k !! take (Z.to_nat DIRSIZ) e with
        | Some k' => follow s k' es'
        | None => None
        end
      else None
  end.

Lemma loaded_dinode s (t : fs U) i k P : f_sb t = f_sb s -> f_blk t = f_blk s -> tree s P -> P k -> loaded t i k ->
  file_ok t i /\ i_type (geti i t) = i_type (dinode s k) /\ i_nlink (geti i t) = i_nlink (dinode s k) /\
  (i_type (dinode s k) = T_DIR -> dir_ok t i /\ dir_map t i = ddir s k).
Proof.
  intros Esb Eblk T Pk (Hi & Hd & Hn & Hl). assert (forall b, blkS b t = blkS b (solo s k)) as Hblk.
  { intros b. unfold blkS. by rewrite Eblk. }
  change (holds (dinode_off k) (blkS (IBLOCK k (f_sb t)) t) (geti i t)) in Hl. rewrite Hblk, Esb in Hl.
  apply holds_inv in Hl as (B1 & B2 & B3 & B4 & B5 & B6).
  assert (geti 0 (solo s k) = dinode s k) as Eg by done.
  assert (i_addrs (geti i t) = i_addrs (geti 0 (solo s k))) as Ea by (rewrite <- B6; done).
  assert (i_size (geti i t) = i_size (geti 0 (solo s k))) as Es by (rewrite <- B5; done).
  assert (i_type (geti i t) = i_type (dinode s k)) as Et by (rewrite <- B1; done).
  assert (file_ok t i) as Hf by (apply (same_file t (solo s k) Hblk Esb i 0); [done..|by apply (tr_file s P)]).
  split; [done|]. split; [done|]. split; [rewrite <- B4; done|]. intros HT. split.
  - split; [done|congruence|]. rewrite Es. by apply (tr_dir s P).
  - unfold ddir, dir_map, ents. by rewrite (same_contents t (solo s k) Hblk i 0 Ea Es).
Qed.

(* ------------------------------------------------------------------ *)
(** ** The inode table during a walk *)

Definition free_lock (k : sleeplock) : Prop := sl_locked k = false /\ sl_lk k = false.
Definition in_sync s (ip : inode) : Prop :=
  i_dev ip = ROOTDEV /\ (i_valid ip = true -> holds (dinode_off (i_inum ip)) (blkS (IBLOCK (i_inum ip) (f_sb s)) s) ip).

Lemma in_sync_ref s x ip : in_sync s ip -> in_sync s (set_ref x ip).
Proof. intros [Hd Hh]. split; [done|]. intros Hv. specialize (Hh Hv). apply holds_inv in Hh. by apply holds_inv. Qed.
Lemma in_sync_lock s k ip : in_sync s ip -> in_sync s (set_ilock k ip).
Proof. intros [Hd Hh]. split; [done|]. intros Hv. specialize (Hh Hv). apply holds_inv in Hh. by apply holds_inv. Qed.

(** The state differs from [s0] in the table only; the process holds the
    inodes [L], and [r] counts the references. *)
Record tab s0 s (L : list nat) (r : nat -> Z) : Prop := {
  tb_disk : f_sb s = f_sb s0 /\ f_blk s = f_blk s0;
  tb_misc : f_pid s = f_pid s0 /\ f_cwd s = f_cwd s0 /\ f_user s = f_user s0;
  tb_len : length (f_itab s) = Z.to_nat NINODE;
  tb_lk : f_itlock s = false;
  tb_ref j : i_ref (geti j s) = r j;
  tb_sync j : 0 < r j -> in_sync s0 (geti j s);
  tb_locked j : j ∈ L -> i_lock (geti j s) = Sleeplock true false (f_pid s0);
  tb_free j : j ∉ L -> free_lock (i_lock (geti j s))
}.

Definition ent (i : nat) (f : inode -> inode) (w : list chan) s : fs U :=
  Fs (f_sb s) (f_blk s) (f_itlock s) (alter f i (f_itab s)) (f_pid s) (f_cwd s) (f_user s) w.
Lemma geti_ent i j f w s : (i < length (f_itab s))%nat -> geti j (ent i f w s) = if decide (j = i) then f (geti j s) else geti j s.
Proof. apply (geti_alter i j f s). Qed.

Definition setr (r : nat -> Z) (i : nat) (x : Z) : nat -> Z := fun j => if decide (j = i) then x else r j.

Lemma tab_ent s0 s L L' r i f w x : tab s0 s L r -> (i < Z.to_nat NINODE)%nat ->
  i_ref (f (geti i s)) = x -> (0 < x -> in_sync s0 (f (geti i s))) ->
  (i ∈ L' -> i_lock (f (geti i s)) = Sleeplock true false (f_pid s0)) -> (i ∉ L' -> free_lock (i_lock (f (geti i s)))) ->
  (forall j, j <> i -> j ∈ L' <-> j ∈ L) -> tab s0 (ent i f w s) L' (setr r i x).
Proof.
  intros T Hi Hx Hs Hl Hf HL. pose proof (tb_len _ _ _ _ T) as Hlen.
  assert (forall j, geti j (ent i f w s) = if decide (j = i) then f (geti j s) else geti j s) as Hg
    by (intros j; apply geti_ent; lia).
  split; try apply T.
  - simpl. by rewrite length_alter.
  - intros j. rewrite Hg. unfold setr. case_decide; [by subst|apply T].
  - intros j. rewrite Hg. unfold setr. case_decide; [by subst|apply T].
  - intros j Hj. rewrite Hg. case_decide; [subst; auto|]. apply T. by apply HL.
  - intros j Hj. rewrite Hg. case_decide; [subst; auto|]. apply T. by rewrite <- HL.
Qed.

Lemma tab_ext s0 s L r r' : (forall j, r j = r' j) -> tab s0 s L r -> tab s0 s L r'.
Proof. intros E T. split; try apply T; intros j; rewrite <- E; apply T. Qed.

(** No count is about to overflow, and no locked inode is free. *)
Definition counts (L : list nat) (r : nat -> Z) : Prop := (forall j, 0 <= r j < 2 ^ 31 - 1) /\ forall j, j ∈ L -> 0 < r j.
Definition room (r : nat -> Z) : Prop := exists j, (j < Z.to_nat NINODE)%nat /\ r j = 0.

Lemma ent_set i f s : ent i f (f_woken s) s = set_itab (alter f i) s.
Proof. done. Qed.

Lemma walk_iget s0 s L r k : tab s0 s L r -> counts L r -> room r ->
  exists i s', iget ROOTDEV k s = Ok i s' /\ (i < Z.to_nat NINODE)%nat /\ i_inum (geti i s') = k /\
    tab s0 s' L (setr r i (r i + 1)) /\ forall j, 0 < r j -> geti j s' = set_ref (setr r i (r i + 1) j) (geti j s).
Proof.
  intros T [Hc HL] (j0 & Hj0 & Hz). pose proof (tb_len _ _ _ _ T) as Hlen.
  destruct (iget_run k s Hlen (tb_lk _ _ _ _ T)) as [(i & f & E & Hi & Hf)|[_ Hfull]].
  2: { destruct (Hfull j0 Hj0). by rewrite (tb_ref _ _ _ _ T). }
  exists i, (set_itab (alter f i) s). split; [done|]. split; [done|]. rewrite <- ent_set.
  assert (forall j, geti j (ent i f (f_woken s) s) = if decide (j = i) then f (geti j s) else geti j s) as Hg
    by (intros j; apply geti_ent; lia).
  rewrite (tb_ref _ _ _ _ T) in Hf. pose proof (Hc i) as Hci. rewrite !Hg, decide_True by done.
  assert (i_ref (f (geti i s)) = r i + 1) as Er.
  { destruct Hf as [(-> & _)|(-> & Hz')]; simpl; rewrite ?(tb_ref _ _ _ _ T), ?Hz'; [apply i32_small; lia|done]. }
  split; [by destruct Hf as [(-> & _ & _ & Hn)|(-> & _)]|]. split.
  - apply (tab_ent s0 s L); try done.
    + intros _. destruct Hf as [(-> & Hp & _)|(-> & _)]; [|by split].
      by apply in_sync_ref, (tb_sync _ _ _ _ T).
    + intros HiL. rewrite <- (tb_locked _ _ _ _ T i HiL). destruct Hf as [(-> & _)|(-> & _)]; done.
    + intros HiL. pose proof (tb_free _ _ _ _ T i HiL). destruct Hf as [(-> & _)|(-> & _)]; done.
  - intros j Hj. rewrite Hg. unfold setr. case_decide as Ej.
    + subst. destruct Hf as [(-> & _)|(_ & ?)]; [|lia]. unfold ref_more. rewrite (tb_ref _ _ _ _ T). by rewrite i32_small by lia.
    + rewrite <- (tb_ref _ _ _ _ T j). by destruct (geti j s).
Qed.

Lemma ilock_load i s : (i < length (f_itab s))%nat -> 1 <= i_ref (geti i s) -> i_valid (geti i s) = false ->
  free_lock (i_lock (geti i s)) -> i_dev (geti i s) = ROOTDEV -> held s = [] ->
  let ip := geti i s in
  let d := blkS (IBLOCK (i_inum ip) (f_sb s)) s in
  di_type (dinode_off (i_inum ip)) d <> 0 ->
  ilock i s = Ok tt (ent i (fun x => set_valid true (load_dinode (dinode_off (i_inum ip)) d
    (set_ilock (Sleeplock true false (f_pid s)) x))) (f_woken s) s).
Proof.
  intros Hi Hr Hv [Hl Hk] Hd Hh ip d Ht. unfold ilock. erewrite bind_Ok by done. rewrite (proj2 (Z.ltb_ge _ _)) by done.
  erewrite bind_Ok by done. erewrite bind_Ok by by apply (acquiresleep_free _ _ (ilock_lens i)).
  erewrite bind_Ok by done. simpl. rewrite geti_alter, decide_True by done. simpl. rewrite Hv.
  erewrite bind_Ok by done. rewrite Hd.
  erewrite bind_Ok by (apply bread_Ok; unfold held in *; simpl; rewrite Hh; apply not_elem_of_nil).
  unfold bdata. erewrite bind_Ok by done. unfold upd_inode. erewrite bind_Ok by done.
  erewrite bind_Ok by (eapply brelse_Ok; [done|unfold held in *; simpl; rewrite Hh; apply not_elem_of_nil]).
  erewrite bind_Ok by done. erewrite bind_Ok by done.
  match goal with |- (if i_type (geti _ ?S) =? 0 then _ else _) _ = _ => set (s2 := S) end.
  assert (s2 = ent i (fun x => set_valid true (load_dinode (dinode_off (i_inum ip)) d
    (set_ilock (Sleeplock true false (f_pid s)) x))) (f_woken s) s) as ->.
  { unfold s2, ent, ip, d. destruct s as [? []]. unfold set_itab, set_blocks, blkS. simpl. by rewrite !alter_twice. }
  rewrite geti_ent, decide_True by done. simpl. by rewrite (proj2 (Z.eqb_neq _ 0)).
Qed.

Lemma setr_id r i j : setr r i (r i) j = r j.
Proof. unfold setr. by case_decide; subst. Qed.

Lemma walk_ilock s0 s L r i P : tab s0 s L r -> held s0 = [] -> tree s0 P -> (i < Z.to_nat NINODE)%nat -> i ∉ L -> 0 < r i ->
  P (i_inum (geti i s)) ->
  exists s', ilock i s = Ok tt s' /\ tab s0 s' (i :: L) r /\ loaded s' i (i_inum (geti i s)) /\ i_valid (geti i s') = true /\
    forall j, j <> i -> geti j s' = geti j s.
Proof.
  intros T Hh Tr Hi HiL Hr HP. pose proof (tb_len _ _ _ _ T) as Hlen. destruct (tb_sync _ _ _ _ T i Hr) as [Hd Hs].
  destruct (tb_free _ _ _ _ T i HiL) as [Hl Hk]. destruct (tb_disk _ _ _ _ T) as [Esb Eblk].
  pose proof (tb_misc _ _ _ _ T) as (Epid & _). pose proof (tb_ref _ _ _ _ T i) as Er.
  assert (forall f, (forall ip, i_ref (f ip) = i_ref ip) -> i_lock (f (geti i s)) = Sleeplock true false (f_pid s0) ->
    i_valid (f (geti i s)) = true -> i_inum (f (geti i s)) = i_inum (geti i s) -> in_sync s0 (f (geti i s)) ->
    let s' := ent i f (f_woken s) s in
    tab s0 s' (i :: L) r /\ loaded s' i (i_inum (geti i s)) /\ i_valid (geti i s') = true /\ forall j, j <> i -> geti j s' = geti j s) as Hgen.
  { intros f Hfr Hfl Hfv Hfn Hfs s'.
    assert (forall j, geti j s' = if decide (j = i) then f (geti j s) else geti j s) as Hg by (intros j; apply geti_ent; lia).
    rewrite (Hg i), decide_True by done. split; [|split; [|split; [done|intros j Hj; by rewrite Hg, decide_False]]].
    - eapply tab_ext; [apply (setr_id r i)|]. apply (tab_ent s0 s L); try done.
      + by rewrite Hfr, Er.
      + intros Hn. destruct Hn. apply list_elem_of_here.
      + intros j Hj. rewrite elem_of_cons. tauto.
    - split; [simpl; rewrite length_alter; lia|]. rewrite Hg, decide_True by done. destruct Hfs as [Hfd Hfh].
      split; [done|]. split; [done|]. specialize (Hfh Hfv). unfold s', blkS. simpl. rewrite Esb, Eblk, <- Hfn. exact Hfh. }
  destruct (i_valid (geti i s)) eqn:Ev.
  - rewrite ilock_Ok by (done || lia). eexists. split; [done|].
    replace (relock _ _ _ _ _ s) with (ent i (set_ilock (Sleeplock true false (f_pid s0))) (f_woken s) s)
      by (rewrite <- Epid; by destruct s as [? []]).
    apply Hgen; try done. apply in_sync_lock. split; [done|]. intros _. by apply Hs.
  - assert (di_type (dinode_off (i_inum (geti i s))) (blkS (IBLOCK (i_inum (geti i s)) (f_sb s)) s) <> 0) as Ht.
    { unfold blkS. rewrite Esb, Eblk. apply (proj1 (tr_type s0 P Tr _ HP)). }
    assert (held s = []) as Hh' by (unfold held in *; by rewrite Eblk).
    rewrite ilock_load by (done || lia). eexists. split; [done|]. rewrite Epid. apply Hgen; try done.
    split; [done|]. intros _. apply holds_inv. unfold blkS. rewrite Esb, Eblk. done.
Qed.

Lemma walk_unlockput s0 s L r i : tab s0 s (i :: L) r -> (i < Z.to_nat NINODE)%nat -> i ∉ L -> 0 < r i < 2 ^ 31 ->
  i_nlink (geti i s) <> 0 ->
  exists s', iunlockput i s = Ok tt s' /\ tab s0 s' L (setr r i (r i - 1)) /\ forall j, i_inum (geti j s') = i_inum (geti j s).
Proof.
  intros T Hi HiL Hr Hn. pose proof (tb_len _ _ _ _ T) as Hlen. pose proof (tb_ref _ _ _ _ T i) as Er.
  pose proof (tb_misc _ _ _ _ T) as (Epid & _).
  assert (i_lock (geti i s) = Sleeplock true false (f_pid s)) as Hl.
  { rewrite Epid. apply (tb_locked _ _ _ _ T). apply list_elem_of_here. }
  set (f := fun ip => set_ref (i32 (i_ref ip - 1)) (set_ilock initsleeplock ip)).
  exists (ent i f (f_woken s ++ [inode_chan i]) s).
  assert (forall j, geti j (ent i f (f_woken s ++ [inode_chan i]) s) = if decide (j = i) then f (geti j s) else geti j s) as Hg
    by (intros j; apply geti_ent; lia).
  split; [|split; [|intros j; rewrite Hg; by case_decide]].
  - unfold iunlockput. erewrite bind_Ok by (apply iunlock_Ok; [lia|lia|done]).
    unfold iput, lock_acquire. erewrite bind_Ok by (simpl; by rewrite (tb_lk _ _ _ _ T)).
    erewrite bind_Ok by done. cbv beta.
    match goal with |- context [i_nlink (geti i ?S)] => assert (i_nlink (geti i S) = i_nlink (geti i s)) as -> end.
    { unfold geti. simpl. rewrite list_lookup_alter_eq. by destruct (f_itab s !! i). }
    rewrite (proj2 (Z.eqb_neq (i_nlink _) 0)) by done.
    rewrite andb_false_r. erewrite bind_Ok by done. unfold upd_inode. erewrite bind_Ok by done. unfold lock_release. cbn.
    f_equal. unfold ent, relock, set_itab. pose proof (tb_lk _ _ _ _ T) as Hlk. destruct s as [? []]. cbn in *. rewrite alter_twice.
    by rewrite Hlk.
  - apply (tab_ent s0 s (i :: L)); try done.
    + unfold f. simpl. rewrite Er. apply i32_small. lia.
    + intros _. apply in_sync_ref, in_sync_lock, (tb_sync _ _ _ _ T). lia.
    + intros j Hj. rewrite elem_of_cons. tauto.
Qed.

(* ------------------------------------------------------------------ *)
(** ** namex() *)

Definition bump (r : nat -> Z) (i : nat) : nat -> Z := setr r i (r i + 1).
(** Two entries of the table are free, and no count is about to overflow. *)
Definition table_room (r : nat -> Z) : Prop :=
  (forall j, 0 <= r j < 2 ^ 31 - 3) /\
  exists a b, a <> b /\ (a < Z.to_nat NINODE)%nat /\ (b < Z.to_nat NINODE)%nat /\ r a = 0 /\ r b = 0.

Lemma bump_room r i : table_room r -> counts [i] (bump r i) /\ room (bump r i) /\ 0 < bump r i i < 2 ^ 31 - 2.
Proof.
  intros [Hc (a & b & Hab & Ha & Hb & Za & Zb)]. unfold bump, setr. split; [split|split].
  - intros j. specialize (Hc j). case_decide; [subst|]; lia.
  - intros j ->%list_elem_of_singleton. specialize (Hc i). rewrite decide_True by done. lia.
  - destruct (decide (a = i)); [exists b|exists a]; (split; [done|]); by rewrite decide_False by congruence.
  - specialize (Hc i). rewrite decide_True by done. lia.
Qed.

(** Where a walk ends: a reference to the inode, or none. *)
Definition walk_end s0 (r : nat -> Z) (w : option Z) (res : option nat) s' : Prop :=
  match w with
  | Some k => exists i, res = Some i /\ (i < Z.to_nat NINODE)%nat /\ i_inum (geti i s') = k /\ tab s0 s' [] (bump r i)
  | None => res = None /\ tab s0 s' [] r
  end.

Section walk.
Context (s0 : fs U) (P : Z -> Prop) (r : nat -> Z) (Hd : disk_ok s0) (Hh : held s0 = []) (Tr : tree s0 P) (Hroom : table_room r).

(** Letting go of the last directory. *)
Lemma walk_drop s1 ip k : tab s0 s1 [ip] (bump r ip) -> (ip < Z.to_nat NINODE)%nat -> P k -> loaded s1 ip k ->
  exists s2, iunlockput ip s1 = Ok tt s2 /\ tab s0 s2 [] r.
Proof.
  intros T Hi Pk Hl. destruct (bump_room r ip Hroom) as (_ & _ & Hb). destruct (tb_disk _ _ _ _ T) as [Esb Eblk].
  destruct (loaded_dinode s0 s1 ip k P Esb Eblk Tr Pk Hl) as (_ & _ & Hn & _).
  destruct (walk_unlockput s0 s1 [] (bump r ip) ip T Hi) as (s2 & E & T2 & _);
    [apply not_elem_of_nil|lia|rewrite Hn; by apply (tr_type s0 P)|].
  exists s2. split; [done|]. eapply tab_ext; [|exact T2]. intros j. unfold bump, setr.
  repeat case_decide; subst; (done || lia).
Qed.

(** Going on to the next inode. *)
Lemma walk_next s1 ip k k' : tab s0 s1 [ip] (bump r ip) -> (ip < Z.to_nat NINODE)%nat -> P k -> loaded s1 ip k ->
  exists nx s2 s3, iget ROOTDEV k' s1 = Ok nx s2 /\ iunlockput ip s2 = Ok tt s3 /\ (nx < Z.to_nat NINODE)%nat /\
    i_inum (geti nx s3) = k' /\ tab s0 s3 [] (bump r nx).
Proof.
  intros T Hi Pk Hl. destruct (bump_room r ip Hroom) as (Hc & Hrm & Hb). destruct (tb_disk _ _ _ _ T) as [Esb Eblk].
  destruct (loaded_dinode s0 s1 ip k P Esb Eblk Tr Pk Hl) as (_ & _ & Hn & _).
  destruct (walk_iget s0 s1 [ip] (bump r ip) k' T Hc Hrm) as (nx & s2 & E2 & Hnx & Hin & T2 & Hg2).
  specialize (Hg2 ip ltac:(lia)). set (r2 := setr (bump r ip) nx (bump r ip nx + 1)) in *.
  assert (0 < r2 ip < 2 ^ 31) as Hr2 by (unfold r2, setr; case_decide; subst; lia).
  destruct (walk_unlockput s0 s2 [] r2 ip T2 Hi) as (s3 & E3 & T3 & Hin3);
    [apply not_elem_of_nil|lia|rewrite Hg2; cbn [set_ref i_nlink]; rewrite Hn; by apply (tr_type s0 P)|].
  exists nx, s2, s3. split; [done|]. split; [done|]. split; [done|]. split; [by rewrite Hin3|].
  eapply tab_ext; [|exact T3]. intros j. unfold r2, bump, setr. repeat case_decide; subst; (done || lia).
Qed.

Lemma namex_loop_spec fuel p name s ip k : tab s0 s [] (bump r ip) -> (ip < Z.to_nat NINODE)%nat ->
  i_inum (geti ip s) = k -> P k -> is_path p -> length name = Z.to_nat DIRSIZ -> Forall byte name ->
  (length (elems p) <= fuel)%nat ->
  exists res name' s', namex_loop fuel ip (p ++ [0]) false name s = Ok (res, name') s' /\
    walk_end s0 r (follow s0 k (elems p)) res s'.
Proof.
  revert p name s ip k. induction fuel as [|fuel IH]; intros p name s ip k T Hi Hk Pk Hp Hl Hb Hf.
  all: pose proof (skipelem_spec p name Hp Hl Hb) as Hsk; destruct (elems p) as [|e es] eqn:Ee; cbn [length] in Hf; [|try lia].
  1,2: cbn [namex_loop]; rewrite Hsk; exists (Some ip), name, s; split; [done|]; by exists ip.
  destruct Hsk as (q & name' & Esk & Hq & Eq & Hl' & Hb' & Hkey). cbn [namex_loop]. rewrite Esk. cbn [andb].
  destruct (bump_room r ip Hroom) as (_ & _ & Hbr). destruct (walk_ilock s0 s [] (bump r ip) ip P T Hh Tr Hi) as
    (s1 & E1 & T1 & Hl1 & Hv1 & _); [apply not_elem_of_nil|lia|by rewrite Hk|]. rewrite Hk in Hl1.
  erewrite bind_Ok by exact E1. erewrite bind_Ok by done. destruct (tb_disk _ _ _ _ T1) as [Esb Eblk].
  destruct (loaded_dinode s0 s1 ip k P Esb Eblk Tr Pk Hl1) as (_ & Et & _ & Hdir). rewrite Et. cbn [follow].
  destruct (Z.eqb_spec (i_type (dinode s0 k)) T_DIR) as [HT|HT]; cbn [negb].
  2: { destruct (walk_drop s1 ip k T1 Hi Pk Hl1) as (s2 & E2 & T2). erewrite bind_Ok by exact E2. eexists _, _, _. split; [done|]. by split. }
  destruct (Hdir HT) as [Hdo Hdm]. assert (is_name name') as Hnm by (split; [left; lia|done]).
  assert (disk_ok s1) as Hd1 by (apply (same_disk s1 s0); [intros b; unfold blkS; by rewrite Eblk|done|done]).
  assert (held s1 = []) as Hh1 by (unfold held in *; by rewrite Eblk).
  pose proof (dirlookup_spec ip name' s1 Hd1 Hdo Hh1 Hnm) as Elk. rewrite <- Hkey, <- Hdm. unfold dir_map.
  rewrite <- (dir_scan_map _ 0). destruct (dir_scan (name_key name') 0 (ents s1 ip)) as [[j k']|] eqn:Es; cbn [fmap option_fmap option_map snd].
  - assert (P k') as Pk'.
    { apply (tr_closed s0 P Tr k (name_key name')); [done|done|]. rewrite <- Hdm. unfold dir_map.
      by rewrite <- (dir_scan_map _ 0), Es. }
    destruct (walk_next s1 ip k k' T1 Hi Pk Hl1) as (nx & s2 & s3 & E2 & E3 & Hnx & Hin3 & T3).
    erewrite bind_Ok by (rewrite Elk; erewrite bind_Ok by exact E2; done). cbv iota beta. erewrite bind_Ok by exact E3.
    rewrite <- Eq. apply (IH q name' s3 nx k'); try done. rewrite Eq. lia.
  - erewrite bind_Ok by exact Elk. cbv iota beta.
    destruct (walk_drop s1 ip k T1 Hi Pk Hl1) as (s2 & E2 & T2). erewrite bind_Ok by exact E2.
    eexists _, _, _. split; [done|]. by split.
Qed.

End walk.

(** idup() of the current directory *)
Lemma walk_idup s0 s r i : tab s0 s [] r -> (i < Z.to_nat NINODE)%nat -> 0 < r i < 2 ^ 31 - 1 ->
  exists s', idup i s = Ok i s' /\ i_inum (geti i s') = i_inum (geti i s) /\ tab s0 s' [] (bump r i).
Proof.
  intros T Hi Hr. pose proof (tb_len _ _ _ _ T) as Hlen. pose proof (tb_ref _ _ _ _ T i) as Er. pose proof (tb_lk _ _ _ _ T) as Hlk.
  exists (ent i ref_more (f_woken s) s). rewrite geti_ent, decide_True by (done || lia). split; [|split; [done|]].
  - unfold idup, lock_acquire, upd_inode, lock_release. erewrite bind_Ok by (simpl; by rewrite Hlk). erewrite bind_Ok by done.
    erewrite bind_Ok by done. unfold ret. f_equal. unfold ent. destruct s; simpl in *. by rewrite Hlk.
  - unfold bump. apply (tab_ent s0 s []); try done.
    + simpl. rewrite Er. apply i32_small. lia.
    + intros _. apply in_sync_ref, (tb_sync _ _ _ _ T). lia.
    + intros ?%elem_of_nil. done.
    + intros HiL. apply (tb_free _ _ _ _ T i HiL).
Qed.

(** ** Theorem *)

Definition refs s : nat -> Z := fun j => i_ref (geti j s).
(** No inode is locked, and the entries in use hold what the disk has. *)
Definition table_ok s : Prop := tab s s [] (refs s) /\ table_room (refs s).
(** Where a path starts. *)
Definition path_root s (p : list Z) (k : Z) : Prop :=
  if decide (head p = Some SLASH) then k = ROOTINO
  else (f_cwd s < Z.to_nat NINODE)%nat /\ 0 < refs s (f_cwd s) /\ i_inum (geti (f_cwd s) s) = k.

(** namei() and the walk over the directories of the disk. *)
Lemma namei_spec s P p k junk :
  disk_ok s -> held s = [] -> table_ok s -> tree s P -> P k -> path_root s p k -> is_path p ->
  length junk = Z.to_nat DIRSIZ -> Forall byte junk ->
  exists res s', namei (p ++ [0]) junk s = Ok res s' /\ walk_end s (refs s) (follow s k (elems p)) res s'.
Proof.
  intros Hd Hh [T Hroom] Tr Pk Hroot Hp Hl Hb. unfold namei, namex.
  assert (exists i s1, (if default 0 (head (p ++ [0])) =? SLASH then iget ROOTDEV ROOTINO
    else let* cwd := gets f_cwd in idup cwd) s = Ok i s1 /\ (i < Z.to_nat NINODE)%nat /\ i_inum (geti i s1) = k /\
    tab s s1 [] (bump (refs s) i)) as (i & s1 & E1 & Hi & Hin & T1).
  { unfold path_root in Hroot. destruct Hroom as [Hc (a & b & Hab & Ha & Hbb & Za & Zb)].
    assert ((default 0 (head (p ++ [0])) =? SLASH) = bool_decide (head p = Some SLASH)) as ->.
    { destruct p as [|c p]; [done|]. simpl. destruct (Z.eqb_spec c SLASH) as [->|]; [by rewrite bool_decide_true|].
      rewrite bool_decide_false; congruence. }
    case_decide as Es; [rewrite bool_decide_true by done|rewrite bool_decide_false by done].
    - destruct (walk_iget s s [] (refs s) ROOTINO T) as (i & s1 & E & Hi & Hin & T1 & _).
      + split; [intros j; specialize (Hc j); lia|by intros j ?%elem_of_nil].
      + by exists a.
      + exists i, s1. by rewrite Hroot.
    - destruct Hroot as (Hcw & Hrc & Hn). specialize (Hc (f_cwd s)).
      destruct (walk_idup s s (refs s) (f_cwd s) T Hcw) as (s1 & E & Hin & T1); [lia|].
      exists (f_cwd s), s1. erewrite bind_Ok by done. split; [exact E|]. split; [done|]. split; [congruence|done]. }
  destruct (namex_loop_spec s P (refs s) Hd Hh Tr Hroom (length (p ++ [0])) p junk s1 i k) as (res & nm & s' & E & Hw); try done.
  { pose proof (length_elems_acc [] p) as Hle. rewrite decide_True in Hle by done. rewrite length_app. unfold elems. lia. }
  exists res, s'. split; [|done]. unfold bind at 1. unfold bind at 1. rewrite E1. cbn [out_bind]. by rewrite E.
Qed.

(** C29. namei() follows a path through the directories of the disk: from the
    root for a path that starts with a slash, else from the current
    directory, each element, of which DIRSIZ bytes count, is looked up in
    the map of the directory before it.  When every element is found, the
    result is an entry of the inode table for the inode at the end of the
    path, with one more reference; when an element is missing, or one before
    the last is not a directory, the result is the null pointer.  Nothing is
    left locked, all other reference counts are as before and the disk does
    not change; the call always returns. *)
Theorem namei_walks s P p k junk :
  disk_ok s -> held s = [] -> table_ok s -> tree s P -> P k -> path_root s p k -> is_path p ->
  length junk = Z.to_nat DIRSIZ -> Forall byte junk ->
  exists res s', namei (p ++ [0]) junk s = Ok res s' /\ walk_end s (refs s) (follow s k (elems p)) res s'.
Proof. apply namei_spec. Qed.

End fs.
