(* ===== verification/Mkfs.v ===== *)
(** * mkfs/mkfs.c: building the file system image

   mkfs runs on the build host, taken to be little endian.  The image is a
   file of sectors, and its input files are what open() and the read()s of
   the host give ([host]): None if open() fails, else the bytes of each
   read() in turn.  Reading or writing the image fails only past its end.
   die(), exit(1) and failed assertions end the program ([Panic]); messages
   are left out. *)

From stdpp Require Import base numbers list gmap strings.
From Stdlib Require Import ZArith Lia.
From S2P Require Import Prelude Params Cmem KString Fs.

Definition NINODES : Z := 200.

Definition nbitmap : Z := FSSIZE / BPB + 1.
Definition ninodeblocks : Z := NINODES / IPB + 1.
Definition nlog : Z := LOGBLOCKS + 1.

(** The global variables, with the sectors of the image. *)
Record mkfs := MkfsSt {
  m_img : gmap Z (list Z);
  m_sb : superblock;
  m_freeinode : Z;
  m_freeblock : Z
}.
Definition mset_img (f : gmap Z (list Z) -> gmap Z (list Z)) (m : mkfs) : mkfs :=
  MkfsSt (f (m_img m)) (m_sb m) (m_freeinode m) (m_freeblock m).
Definition mset_sb (sb : superblock) (m : mkfs) : mkfs := MkfsSt (m_img m) sb (m_freeinode m) (m_freeblock m).
Definition mset_freeinode (n : Z) (m : mkfs) : mkfs := MkfsSt (m_img m) (m_sb m) n (m_freeblock m).
Definition mset_freeblock (n : Z) (m : mkfs) : mkfs := MkfsSt (m_img m) (m_sb m) (m_freeinode m) n.
Definition mkfs0 : mkfs := MkfsSt ∅ (Superblock 0 0 0 0 0 0 0 0) 1 0.

Definition xshort (x : Z) : Z := ld16 0 [u8 x; u8 (Z.shiftr x 8)].
Definition xint (x : Z) : Z := ld32 0 [u8 x; u8 (Z.shiftr x 8); u8 (Z.shiftr x 16); u8 (Z.shiftr x 24)].

Notation K := (M mkfs).

Definition die {A} (s : string) : K A := panic s.
Definition assert (b : bool) : K unit := if b then ret tt else panic "assertion failed".

(** lseek() to sec * BSIZE, a uint *)
Definition sector (sec : Z) : Z := u32 (sec * BSIZE) / BSIZE.
Definition wsect (sec : Z) (buf : list Z) : K unit := modify (mset_img <[sector sec := buf]>).
Definition rsect (sec : Z) : K (list Z) := fun m =>
  match m_img m !! sector sec with
  | Some d => Ok d m
  | None => die "read" m
  end.

(** A struct dinode is its 64 bytes. *)
Definition winode (inum : Z) (ip : list Z) : K unit :=
  let* sb := gets m_sb in
  let bn := IBLOCK inum sb in
  let* buf := rsect bn in
  wsect bn (splice (dinode_off inum) ip buf).
Definition rinode (inum : Z) : K (list Z) :=
  let* sb := gets m_sb in
  let bn := IBLOCK inum sb in
  let* buf := rsect bn in
  ret (slice (dinode_off inum) (Z.to_nat DINODE_SIZE) buf).

Definition ialloc (type : Z) : K Z :=
  let* inum := gets m_freeinode in
  modify (mset_freeinode (u32 (inum + 1))) ;;
  let din := replicate (Z.to_nat DINODE_SIZE) 0 in
  let din := st16 0 (xshort type) din in
  let din := st16 6 (xshort 1) din in
  let din := st32 8 (xint 0) din in
  winode inum din ;;
  ret inum.

(** for(i = 0; i < used; i++) buf[i/8] = buf[i/8] | (0x1 << (i%8)); *)
Fixpoint mark_used (n : nat) (i : Z) (buf : list Z) : list Z :=
  match n with
  | O => buf
  | S n' => mark_used n' (i + 1) (<[Z.to_nat (i / 8) := u8 (Z.lor (bit_byte i buf) (bit_mask i))]> buf)
  end.
Definition balloc (used : Z) : K unit :=
  assert (used <? BPB) ;;
  let* sb := gets m_sb in
  wsect (sb_bmapstart sb) (mark_used (Z.to_nat used) 0 (replicate (Z.to_nat BSIZE) 0)).

(** freeblock++ *)
Definition next_block : K Z :=
  let* b := gets m_freeblock in modify (mset_freeblock (u32 (b + 1))) ;; ret b.

Definition addr_off (k : Z) : nat := Z.to_nat (12 + 4 * k).

(** The block of the file that byte offset [fbn] * BSIZE is in, found or
    added: the changed inode and the sector. *)
Definition file_block (din : list Z) (fbn : Z) : K (list Z * Z) :=
  if fbn <? NDIRECT then
    let* din :=
      if xint (ld32 (addr_off fbn) din) =? 0 then
        let* b := next_block in ret (st32 (addr_off fbn) (xint b) din)
      else ret din in
    ret (din, xint (ld32 (addr_off fbn) din))
  else
    let* din :=
      if xint (ld32 (addr_off NDIRECT) din) =? 0 then
        let* b := next_block in ret (st32 (addr_off NDIRECT) (xint b) din)
      else ret din in
    let* indirect := rsect (xint (ld32 (addr_off NDIRECT) din)) in
    let o := Z.to_nat (4 * (fbn - NDIRECT)) in
    let* indirect :=
      if ld32 o indirect =? 0 then
        let* b := next_block in
        let indirect := st32 o (xint b) indirect in
        wsect (xint (ld32 (addr_off NDIRECT) din)) indirect ;;
        ret indirect
      else ret indirect in
    ret (din, xint (ld32 o indirect)).

(** while(n > 0) of iappend(), [p] the bytes left: the inode and off. *)
Fixpoint iappend_loop (fuel : nat) (din : list Z) (off : Z) (p : list Z) : K (list Z * Z) :=
  if 0 <? Z.of_nat (length p) then
    match fuel with
    | O => diverge
    | S f =>
        let fbn := off / BSIZE in
        assert (fbn <? MAXFILE) ;;
        let* r := file_block din fbn in
        let n1 := Z.min (Z.of_nat (length p)) ((fbn + 1) * BSIZE - off) in
        let* buf := rsect (snd r) in
        wsect (snd r) (splice (Z.to_nat (off - fbn * BSIZE)) (take (Z.to_nat n1) p) buf) ;;
        iappend_loop f (fst r) (u32 (off + n1)) (drop (Z.to_nat n1) p)
    end
  else ret (din, off).
Definition iappend (inum : Z) (p : list Z) : K unit :=
  let* din := rinode inum in
  let off := xint (ld32 8 din) in
  let* r := iappend_loop (length p) din off p in
  winode inum (st32 8 (xint (snd r)) (fst r)).

(** bzero(&de, sizeof(de)), the stores to its fields, the name copied by
    strcpy() or strncpy() *)
Definition mk_dirent (inum : Z) (name : list Z) : list Z :=
  splice 2 name (st16 0 (xshort inum) (replicate (Z.to_nat DIRENT) 0)).

Definition USERDIR : list Z := [117; 115; 101; 114; 47].
Definition UNDERSCORE : Z := 95.
(** The name without "user/"; a name is the bytes before the NUL. *)
Definition shortname (arg : list Z) : list Z := if decide (take 5 arg = USERDIR) then drop 5 arg else arg.
Definition skip_underscore (name : list Z) : list Z :=
  if default 0 (head name) =? UNDERSCORE then drop 1 name else name.

Section main.
Context (host : list Z -> option (list (list Z))).

(** while((cc = read(fd, buf, sizeof(buf))) > 0) iappend(inum, buf, cc); *)
Fixpoint append_all (inum : Z) (reads : list (list Z)) : K unit :=
  match reads with
  | [] => ret tt
  | buf :: reads' => iappend inum buf ;; append_all inum reads'
  end.

(** One turn of the loop over the arguments of main(). *)
Definition add_file (rootino : Z) (arg : list Z) : K unit :=
  let short := shortname arg in
  assert (bool_decide (SLASH ∉ short)) ;;
  match host arg with
  | None => die "open"
  | Some reads =>
      let short := skip_underscore short in
      assert (Z.of_nat (length short) <=? DIRSIZ) ;;
      let* inum := ialloc T_FILE in
      iappend rootino (mk_dirent inum (pad (Z.to_nat DIRSIZ) (take (Z.to_nat DIRSIZ) short))) ;;
      append_all inum reads
  end.
Fixpoint add_files (rootino : Z) (args : list (list Z)) : K unit :=
  match args with
  | [] => ret tt
  | arg :: args' => add_file rootino arg ;; add_files rootino args'
  end.

Definition nmeta : Z := 2 + nlog + ninodeblocks + nbitmap.
Definition mkfs_sb : superblock :=
  Superblock FSMAGIC (xint FSSIZE) (xint (FSSIZE - nmeta)) (xint NINODES) (xint nlog) (xint 2)
    (xint (2 + nlog)) (xint (2 + nlog + ninodeblocks)).
(** memmove(buf, &sb, sizeof(sb)) *)
Definition put_sb (sb : superblock) (buf : list Z) : list Z :=
  put_addrs 0 [sb_magic sb; sb_size sb; sb_nblocks sb; sb_ninodes sb; sb_nlog sb; sb_logstart sb;
    sb_inodestart sb; sb_bmapstart sb] buf.

(** main() after the check of argc; fs.img is empty after open(). *)
Definition main (files : list (list Z)) : K unit :=
  assert (BSIZE mod DINODE_SIZE =? 0) ;;
  assert (BSIZE mod DIRENT =? 0) ;;
  modify (mset_img (fun _ => ∅)) ;;
  modify (mset_sb mkfs_sb) ;;
  modify (mset_freeblock nmeta) ;;
  for_range (Z.to_nat FSSIZE) 0 (fun i => wsect i (replicate (Z.to_nat BSIZE) 0)) ;;
  wsect 1 (put_sb mkfs_sb (replicate (Z.to_nat BSIZE) 0)) ;;
  let* rootino := ialloc T_DIR in
  assert (rootino =? ROOTINO) ;;
  iappend rootino (mk_dirent rootino [46; 0]) ;;
  iappend rootino (mk_dirent rootino [46; 46; 0]) ;;
  add_files rootino files ;;
  let* din := rinode rootino in
  let off := xint (ld32 8 din) in
  let off := u32 ((off / BSIZE + 1) * BSIZE) in
  winode rootino (st32 8 (xint off) din) ;;
  let* b := gets m_freeblock in
  balloc b.

End main.
