(* ===== verification/MkfsSim.v ===== *)
(** * mkfs and the kernel's view of its image

   mkfs writes the image that fs.c reads.  Its state is related to a kernel
   state [g] with inode k in entry k of the inode table: the blocks agree,
   but for the bitmap, which mkfs writes last and which in [g] already has
   the blocks allocated so far.  The steps of mkfs are then the steps of
   FsMap.v, FsBmap.v and FsWrite.v on [g]. *)

From stdpp Require Import base numbers list gmap strings.
From Stdlib Require Import ZArith Lia.
From S2P Require Import Prelude Params Cmem KString Sleeplock UserMem Fs FsInv FsMap FsBmap FsWrite FsFile Mkfs.

#[global] Arguments xint : simpl never.
#[global] Arguments xshort : simpl never.
#[global] Arguments splice : simpl never.
#[global] Arguments slice : simpl never.

(* ------------------------------------------------------------------ *)
(** ** Numbers *)

Lemma xint_id x : 0 <= x < 2 ^ 32 -> xint x = x.
Proof.
  intros Hx. unfold xint, ld32, u8. cbn [le_get lookup list_lookup default from_option].
  rewrite !Z.shiftr_div_pow2 by lia. change (2 ^ 8) with 256. change (2 ^ 16) with (256 * 256). change (2 ^ 24) with (256 * 256 * 256).
  rewrite <- !Z.div_div by lia. unfold id. divlia.
Qed.
Lemma xshort_id x : 0 <= x < 2 ^ 16 -> xshort x = x.
Proof.
  intros Hx. unfold xshort, ld16, u8. cbn [le_get lookup list_lookup default from_option].
  rewrite !Z.shiftr_div_pow2 by lia. change (2 ^ 8) with 256. unfold id. divlia.
Qed.

Definition SB : superblock := Superblock FSMAGIC 2000 1953 200 31 2 33 46.
Lemma mkfs_sb_eq : mkfs_sb = SB.
Proof. reflexivity. Qed.

Ltac mkz :=
  change nmeta with 47 in *; change FSSIZE with 2000 in *; change NINODES with 200 in *;
  change (sb_size SB) with 2000 in *; change (sb_ninodes SB) with 200 in *;
  change (sb_inodestart SB) with 33 in *; change (sb_bmapstart SB) with 46 in *; fsz.
Ltac mklia := mkz; first [lia | divlia].

Lemma sector_id b : 0 <= b < FSSIZE -> sector b = b.
Proof. intros Hb. unfold sector. rewrite u32_small by mklia. fsz. apply Z.div_mul. lia. Qed.

(** ** The bitmap *)

Definition bits (n : nat) : list Z := mark_used n 0 zero_block.

Lemma mark_used_S n i d : is_block d -> 0 <= i ->
  mark_used (S n) i d = bit_set (i + Z.of_nat n) (mark_used n i d) /\ is_block (mark_used n i d).
Proof.
  revert i d. induction n as [|n IH]; intros i d Hd Hi.
  - split; [|done]. cbn [mark_used]. rewrite Z.add_0_r. unfold bit_set. f_equal.
    destruct (bit_set_block i d Hd) as [_ Hb]. pose proof (bit_byte_range i d (proj2 Hd)) as Hbb.
    apply byte_u8. rewrite bit_mask_pow. apply lor_byte; [done|]. apply Z.mod_pos_bound. lia.
  - set (d1 := <[Z.to_nat (i / 8) := u8 (Z.lor (bit_byte i d) (bit_mask i))]> d).
    assert (is_block d1) as Hd1.
    { destruct Hd as [Hl Hb]. split; [unfold d1; by rewrite length_insert|]. apply Forall_insert; [done|].
      unfold u8, byte. apply Z.mod_pos_bound. lia. }
    destruct (IH (i + 1) d1 Hd1 ltac:(lia)) as [E Hb]. split; [|exact Hb].
    change (mark_used (S (S n)) i d) with (mark_used (S n) (i + 1) d1). rewrite E.
    change (mark_used (S n) i d) with (mark_used n (i + 1) d1). f_equal. lia.
Qed.

Lemma bits_block n : is_block (bits n).
Proof. apply mark_used_S; [apply is_block_zero|done]. Qed.
Lemma bits_S n : bits (S n) = bit_set (Z.of_nat n) (bits n).
Proof. apply mark_used_S; [apply is_block_zero|done]. Qed.

Lemma bit_used_zero b : bit_used b zero_block = false.
Proof. unfold bit_used, bit_byte. rewrite zero_block_byte. by rewrite Z.land_0_l. Qed.

Lemma bits_used n b : Z.of_nat n <= BPB -> 0 <= b < BPB -> bit_used b (bits n) = (b <? Z.of_nat n).
Proof.
  intros Hn Hb. induction n as [|n IH].
  - rewrite (proj2 (Z.ltb_ge _ _)) by lia. apply bit_used_zero.
  - rewrite bits_S, bit_used_set, IH by (lia || apply bits_block).
    case_decide; destruct (Z.ltb_spec b (Z.of_nat n)), (Z.ltb_spec b (Z.of_nat (S n))); (done || lia).
Qed.

(* ------------------------------------------------------------------ *)
(** ** Files of the disk *)

Notation NI := 200%nat.
Implicit Types (g : fs flat) (m : mkfs).

(** The inodes in memory are well formed and share no block. *)
Record files g : Prop := {
  fs_file k : (k < NI)%nat -> file_ok g k;
  fs_inum k : (k < NI)%nat -> i_inum (geti k g) = Z.of_nat k;
  fs_disj k l a : (k < NI)%nat -> (l < NI)%nat -> k <> l -> owns g k a -> owns g l a -> False
}.

(** The blocks of file [k] are those of its first [e] bytes, and the bytes
    after them are zero. *)
Record extent g (k : nat) (e : Z) : Prop := {
  ex_b bn : 0 <= bn < MAXFILE -> baddr g k bn <> 0 <-> bn * BSIZE < e;
  ex_i : iaddr g k <> 0 <-> NDIRECT * BSIZE < e;
  ex_z o : e <= o < MAXFILE * BSIZE -> fbyte g k o = 0
}.

(** A step that changes file [i] only. *)
Record step (i : nat) g g' : Prop := {
  st_frame : frame i g g';
  st_disk : disk_ok g';
  st_file : file_ok g' i;
  st_size : i_size (geti i g') = i_size (geti i g)
}.

Section others.
Context (i : nat) (g g' : fs flat) (Hd : disk_ok g) (Hf : files g) (Hin : (i < NI)%nat) (F : frame i g g').

Lemma other_same j : j <> i -> (j < NI)%nat ->
  iaddr g' j = iaddr g j /\ (forall bn, 0 <= bn < MAXFILE -> baddr g' j bn = baddr g j bn) /\
  (forall a, owns g j a -> blkS a g' = blkS a g).
Proof.
  intros Hj Hjn. apply (baddr_other i); try done; [by apply (fs_file g Hf)..|].
  intros a H1 H2. by apply (fs_disj g Hf i j a).
Qed.

Lemma other_owns j a : j <> i -> (j < NI)%nat -> owns g' j a <-> owns g j a.
Proof.
  intros Hj Hjn. destruct (other_same j Hj Hjn) as (Ei & Eb & _). unfold owns. rewrite Ei.
  split; intros [Ha [?|(bn & Hbn & E)]]; (split; [done|]); [by left|right|by left|right]; exists bn; (split; [done|]);
    [by rewrite <- Eb|by rewrite Eb].
Qed.

Lemma other_fbyte j o : j <> i -> (j < NI)%nat -> 0 <= o < MAXFILE * BSIZE -> fbyte g' j o = fbyte g j o.
Proof.
  intros Hj Hjn Ho. destruct (other_same j Hj Hjn) as (Ei & Eb & Hk). assert (0 <= o / BSIZE < MAXFILE) as Hr by fslia.
  unfold fbyte. rewrite Eb by done. destruct (Z.eqb_spec (baddr g j (o / BSIZE)) 0) as [|Hne]; [done|].
  by rewrite Hk by by apply baddr_owned.
Qed.

Lemma other_extent j e : j <> i -> (j < NI)%nat -> 0 <= e -> extent g j e -> extent g' j e.
Proof.
  intros Hj Hjn He [H1 H2 H3]. destruct (other_same j Hj Hjn) as (Ei & Eb & _). split.
  - intros bn Hbn. rewrite Eb by done. auto.
  - by rewrite Ei.
  - intros o Ho. rewrite other_fbyte by (done || lia). auto.
Qed.

Lemma other_contents j : j <> i -> (j < NI)%nat -> contents g' j = contents g j.
Proof.
  intros Hj Hjn. eapply contents_other; try done; [by apply (fs_file g Hf)..|].
  intros a H1 H2. by apply (fs_disj g Hf i j a).
Qed.

Lemma files_frame : file_ok g' i -> files g'.
Proof.
  intros Hi'. assert (forall k, (k < NI)%nat -> i_inum (geti k g') = i_inum (geti k g)) as En.
  { intros k Hk. destruct (decide (k = i)) as [->|]; [by rewrite (fr_ino _ _ _ F)|by rewrite (fr_other _ _ _ F)]. }
  assert (forall j, j <> i -> (j < NI)%nat -> file_ok g' j /\ (forall a, owns g' i a -> owns g' j a -> False)) as Ho.
  { intros j Hj Hjn. apply (file_ok_other i j g); try done; [by apply (fs_file g Hf)..|].
    intros a H1 H2. by apply (fs_disj g Hf i j a). }
  split.
  - intros k Hk. destruct (decide (k = i)) as [->|]; [done|]. by apply Ho.
  - intros k Hk. rewrite En by done. by apply Hf.
  - intros k l a Hk Hl Hkl H1 H2. destruct (decide (k = i)) as [->|Hki].
    { by eapply (Ho l). }
    destruct (decide (l = i)) as [->|Hli]; [by eapply (Ho k)|].
    apply other_owns in H1; [|done..]. apply other_owns in H2; [|done..]. by eapply (fs_disj g Hf k l).
Qed.

End others.

(* ------------------------------------------------------------------ *)
(** ** The simulation *)

Notation BMAP := 46.
Definition on_disk (b : Z) : Prop := 0 <= b < FSSIZE.
#[global] Instance on_disk_dec b : Decision (on_disk b).
Proof. unfold on_disk. apply _. Defined.

(** The boot block, the super block and the log. *)
Definition low_block (b : Z) : list Z := if decide (b = 1) then put_sb SB zero_block else zero_block.

Record sim m g : Prop := {
  sm_sb : m_sb m = SB /\ f_sb g = SB;
  sm_img b : b <> BMAP -> m_img m !! b = if decide (on_disk b) then Some (blkS b g) else None;
  sm_out b : ~ on_disk b -> blkS b g = zero_block;
  sm_bits : blkS BMAP g = bits (Z.to_nat (m_freeblock m));
  sm_free : nmeta <= m_freeblock m <= FSSIZE;
  sm_zero b : m_freeblock m <= b < FSSIZE -> blkS b g = zero_block;
  sm_low b : 0 <= b < 33 -> blkS b g = low_block b;
  sm_own k a : (k < NI)%nat -> owns g k a -> nmeta <= a;
  sm_disk : disk_ok g;
  sm_files : files g
}.

Lemma bitmap_46 g b : f_sb g = SB -> bitmap_block g b <-> b = BMAP.
Proof.
  intros E. unfold bitmap_block, BBLOCK. rewrite E. split.
  - intros (x & Hx & ->). mklia.
  - intros ->. exists 0. mklia.
Qed.

Lemma inode_33 g b : f_sb g = SB -> inode_block g b <-> 33 <= b < BMAP.
Proof.
  intros E. unfold inode_block, IBLOCK. rewrite E. split.
  - intros (x & Hx & ->). mklia.
  - intros Hb. exists (IPB * (b - 33)). mklia.
Qed.

Section sim.
Context (m : mkfs) (g : fs flat) (Sm : sim m g).

Lemma sim_used b : on_disk b -> used g b = (b <? m_freeblock m).
Proof.
  intros Hb. pose proof (sm_free _ _ Sm). unfold on_disk in Hb. unfold used, BBLOCK. rewrite (proj2 (sm_sb _ _ Sm)).
  replace (b / BPB + sb_bmapstart SB) with BMAP by mklia. rewrite (sm_bits _ _ Sm), bits_used by mklia.
  replace (b mod BPB) with b by mklia. f_equal. mklia.
Qed.

Lemma sim_free : m_freeblock m < FSSIZE -> free_block g (m_freeblock m).
Proof.
  intros Hlt. pose proof (sm_free _ _ Sm). split; [rewrite (proj2 (sm_sb _ _ Sm)); mklia|].
  rewrite sim_used by (unfold on_disk; mklia). apply Z.ltb_irrefl.
Qed.

Lemma sim_owned k a : (k < NI)%nat -> owns g k a -> nmeta <= a < m_freeblock m.
Proof.
  intros Hk Ho. pose proof (fs_file _ (sm_files _ _ Sm) k Hk) as Hf. pose proof (sm_own _ _ Sm k a Hk Ho).
  destruct (fi_own _ _ Hf a Ho) as (Ha & Hu & _). rewrite (proj2 (sm_sb _ _ Sm)) in Ha.
  rewrite sim_used in Hu by (unfold on_disk; mklia). apply Z.ltb_lt in Hu. done.
Qed.

Lemma sim_rsect b : on_disk b -> b <> BMAP -> rsect b m = Ok (blkS b g) m.
Proof.
  intros Hb Hne. unfold rsect. rewrite sector_id by done. rewrite (sm_img _ _ Sm) by done. by rewrite decide_True.
Qed.

Lemma sim_step m' g' i : (i < NI)%nat -> frame i g g' -> disk_ok g' -> file_ok g' i ->
  m_sb m' = m_sb m -> m_freeblock m <= m_freeblock m' <= FSSIZE ->
  (forall b, b <> BMAP -> m_img m' !! b = if decide (on_disk b) then Some (blkS b g') else None) ->
  blkS BMAP g' = bits (Z.to_nat (m_freeblock m')) ->
  (forall b, ~ 33 <= b < m_freeblock m' -> blkS b g' = blkS b g) -> sim m' g'.
Proof.
  intros Hi F Hd' Hf' Esb Hfb Himg Hbits Hsame. pose proof (sm_free _ _ Sm) as Hfree.
  pose proof (sm_sb _ _ Sm) as [E1 E2]. split; try done.
  - split; [congruence|]. by rewrite (fr_sb _ _ _ F).
  - intros b Hb. rewrite Hsame by (unfold on_disk in Hb; mklia). by apply (sm_out _ _ Sm).
  - mklia.
  - intros b Hb. rewrite Hsame by lia. apply (sm_zero _ _ Sm). lia.
  - intros b Hb. rewrite Hsame by lia. by apply (sm_low _ _ Sm).
  - intros k a Hk Ho. destruct (decide (k = i)) as [->|Hki].
    + apply (fr_fresh _ _ _ F) in Ho as [Ho|[Ha Hu]]; [by apply (sm_own _ _ Sm i)|].
      rewrite E2 in Ha. rewrite sim_used in Hu by (unfold on_disk; mklia). apply Z.ltb_ge in Hu. mklia.
    + apply (sm_own _ _ Sm k); [done|]. apply (other_owns i g g') in Ho; try done; apply Sm.
  - by apply (files_frame i g g' (sm_disk _ _ Sm) (sm_files _ _ Sm) Hi F).
Qed.

(** freeblock++ is an allocation. *)
Lemma sim_alloc b : m_freeblock m < FSSIZE -> b <> BMAP -> blkS b (alloc_blk (m_freeblock m) g) = blkS b g.
Proof.
  intros Hlt Hb. pose proof (sm_free _ _ Sm). pose proof (sim_free Hlt) as Hf.
  rewrite blkS_alloc by (apply Sm || done). case_decide as E.
  - subst. symmetry. apply (sm_zero _ _ Sm). mklia.
  - rewrite decide_False; [done|]. unfold BBLOCK. rewrite (proj2 (sm_sb _ _ Sm)). mklia.
Qed.

Lemma sim_alloc_bits : m_freeblock m < FSSIZE ->
  blkS BMAP (alloc_blk (m_freeblock m) g) = bits (Z.to_nat (m_freeblock m + 1)).
Proof.
  intros Hlt. pose proof (sm_free _ _ Sm). pose proof (sim_free Hlt) as Hf.
  rewrite blkS_alloc, decide_False by (apply Sm || done || mklia).
  rewrite decide_True by (unfold BBLOCK; rewrite (proj2 (sm_sb _ _ Sm)); mklia).
  replace (Z.to_nat (m_freeblock m + 1)) with (S (Z.to_nat (m_freeblock m))) by mklia.
  rewrite bits_S, (sm_bits _ _ Sm). f_equal. mklia.
Qed.

(** The blocks of the inodes are as they were. *)
Definition keeps g g' : Prop := forall b, 33 <= b < BMAP -> blkS b g' = blkS b g.

(** A block at entry [k] of the inode, still to be written to disk. *)
Lemma sim_addr i k : (i < NI)%nat -> (k <= IND)%nat -> m_freeblock m < FSSIZE -> addr_of k (geti i g) = 0 ->
  let a := m_freeblock m in
  grows i g (add_addr i k a g) a /\ step i g (add_addr i k a g) /\ keeps g (add_addr i k a g) /\
  sim (mset_freeblock (a + 1) m) (add_addr i k a g).
Proof.
  intros Hi Hk Hlt H0 a. pose proof (sm_free _ _ Sm). pose proof (sim_free Hlt) as Hf. pose proof (sm_disk _ _ Sm) as Hd.
  pose proof (fs_file _ (sm_files _ _ Sm) i Hi) as Hfi.
  pose proof (grows_addr g i k a Hd Hfi Hf Hk H0) as G. split; [done|].
  assert (step i g (add_addr i k a g)) as St.
  { split; [by eapply grow_frame|by eapply grow_disk_ok|by eapply grow_file_ok|].
    rewrite geti_add_addr, decide_True by done. done. }
  split; [done|]. split; [intros b Hb; apply sim_alloc; lia|]. destruct St as [F Hd' Hf' _].
  eapply (sim_step _ _ i); try done.
  - simpl. unfold a. lia.
  - intros b Hb. change (blkS b (add_addr i k a g)) with (blkS b (alloc_blk a g)). unfold a. rewrite sim_alloc by done.
    by apply (sm_img _ _ Sm).
  - apply sim_alloc_bits. lia.
  - intros b Hb. apply sim_alloc; [done|]. simpl in Hb. unfold a in Hb. mklia.
Qed.

(** A block whose number is stored in the indirect block. *)
Lemma sim_indirect i bn : (i < NI)%nat -> NDIRECT <= bn < MAXFILE -> m_freeblock m < FSSIZE -> iaddr g i <> 0 ->
  baddr g i bn = 0 ->
  let a := m_freeblock m in
  let g' := add_indirect i bn a g in
  grows i g g' a /\ step i g g' /\ keeps g g' /\
  sim (mset_img <[iaddr g i := st32 (ind_off bn) a (blkS (iaddr g i) g)]> (mset_freeblock (a + 1) m)) g'.
Proof.
  intros Hi Hbn Hlt Hia H0 a g'. pose proof (sm_free _ _ Sm). pose proof (sim_free Hlt) as Hf. pose proof (sm_disk _ _ Sm) as Hd.
  pose proof (fs_file _ (sm_files _ _ Sm) i Hi) as Hfi. pose proof (sim_owned i _ Hi (ind_owned g i Hia)) as Ho.
  pose proof (grows_indirect g i bn a Hd Hfi Hf Hia Hbn H0) as G. split; [done|].
  assert (step i g g') as St by (split; [by eapply grow_frame|by eapply grow_disk_ok|by eapply grow_file_ok|done]).
  split; [done|]. destruct St as [F Hd' Hf' _].
  assert (forall b, b <> BMAP -> blkS b g' = if decide (b = iaddr g i) then st32 (ind_off bn) a (blkS b g) else blkS b g) as Eb.
  { intros b Hb. unfold g'. rewrite blkS_add_indirect by done. case_decide; [done|]. by apply sim_alloc. }
  split; [intros b Hb; rewrite Eb, decide_False by mklia; done|].
  eapply (sim_step _ _ i); try done.
  - simpl. unfold a. lia.
  - intros b Hb. rewrite Eb by done. cbn [m_img mset_img mset_freeblock]. destruct (decide (b = iaddr g i)) as [E|Hne].
    + rewrite E, lookup_insert_eq, decide_True; [done|]. unfold on_disk. mklia.
    + rewrite lookup_insert_ne by done. by apply (sm_img _ _ Sm).
  - assert (BMAP <> iaddr g i) as Hne by mklia. unfold g'. rewrite blkS_add_indirect, decide_False by done.
    by apply sim_alloc_bits.
  - intros b Hb. cbn [m_freeblock mset_img mset_freeblock] in Hb. rewrite Eb by mklia. rewrite decide_False; [done|]. mklia.
Qed.

(** Bytes stored in a block of the file. *)
Lemma sim_poke i bn d : (i < NI)%nat -> 0 <= bn < MAXFILE -> baddr g i bn <> 0 -> is_block d ->
  let g' := poke (baddr g i bn) d [] (f_user g) g in
  step i g g' /\ keeps g g' /\ sim (mset_img <[baddr g i bn := d]> m) g'.
Proof.
  intros Hi Hbn Hne Hb g'. pose proof (sm_free _ _ Sm). pose proof (sm_disk _ _ Sm) as Hd.
  pose proof (fs_file _ (sm_files _ _ Sm) i Hi) as Hfi. pose proof (sim_owned i _ Hi (baddr_owned g i bn Hbn Hne)) as Ho.
  assert (step i g g') as St by (split; [by apply poke_frame|by apply poke_disk_ok|by apply poke_file_ok|done]).
  split; [done|]. split; [intros b Hr; unfold g'; rewrite blkS_poke, decide_False by mklia; done|]. destruct St as [F Hd' Hf' _].
  eapply (sim_step _ _ i); try done.
  - simpl. lia.
  - intros b Hbm. unfold g'. rewrite blkS_poke. cbn [m_img mset_img]. destruct (decide (b = baddr g i bn)) as [->|Hn].
    + rewrite lookup_insert_eq, decide_True; [done|]. unfold on_disk. mklia.
    + rewrite lookup_insert_ne by done. by apply (sm_img _ _ Sm).
  - unfold g'. rewrite blkS_poke, decide_False by mklia. apply (sm_bits _ _ Sm).
  - intros b Hr. unfold g'. rewrite blkS_poke, decide_False; [done|]. simpl in Hr. mklia.
Qed.

(** A store to the block of inode [i]. *)
Lemma sim_winode i d : (i < NI)%nat -> is_block d ->
  let ib := IBLOCK (Z.of_nat i) SB in
  let g' := edit ib d g in
  step i g g' /\ sim (mset_img <[ib := d]> m) g'.
Proof.
  intros Hi Hb ib g'. pose proof (sm_free _ _ Sm). pose proof (sm_disk _ _ Sm) as Hd.
  pose proof (fs_file _ (sm_files _ _ Sm) i Hi) as Hfi. pose proof (sm_sb _ _ Sm) as [_ Es].
  assert (33 <= ib < BMAP) as Hib by (unfold ib, IBLOCK; mklia).
  assert (ib = IBLOCK (i_inum (geti i g)) (f_sb g)) as Ei by (by rewrite (fs_inum _ (sm_files _ _ Sm)), Es).
  assert (step i g g') as St.
  { unfold g'. rewrite Ei. split; [by apply iup_frame|by apply iup_disk_ok|by apply iup_file_ok|done]. }
  split; [done|]. destruct St as [F Hd' Hf' _].
  eapply (sim_step _ _ i); try done.
  - simpl. lia.
  - intros b Hbm. unfold g'. rewrite blkS_edit. cbn [m_img mset_img]. destruct (decide (b = ib)) as [->|Hn].
    + rewrite lookup_insert_eq, decide_True; [done|]. unfold on_disk. mklia.
    + rewrite lookup_insert_ne by done. by apply (sm_img _ _ Sm).
  - unfold g'. rewrite blkS_edit, decide_False by lia. apply (sm_bits _ _ Sm).
  - intros b Hr. unfold g'. rewrite blkS_edit, decide_False; [done|]. simpl in Hr. mklia.
Qed.

(** The size of the inode in memory. *)
Lemma sim_size i n : (i < NI)%nat -> 0 <= n <= MAXFILE * BSIZE ->
  (forall bn, 0 <= bn -> bn * BSIZE < n -> baddr g i bn <> 0) ->
  let g' := set_itab (alter (set_size n) i) g in
  frame i g g' /\ sim m g'.
Proof.
  intros Hi Hn Hfull g'. pose proof (sm_free _ _ Sm). pose proof (sm_disk _ _ Sm) as Hd.
  pose proof (fs_file _ (sm_files _ _ Sm) i Hi) as Hfi.
  assert (frame i g g') as F by by apply size_frame. split; [done|].
  eapply (sim_step _ _ i); try done; [by apply size_disk_ok|by apply size_file_ok|lia|apply (sm_img _ _ Sm)|apply (sm_bits _ _ Sm)].
Qed.

End sim.
