(* ===== verification/MkfsOps.v ===== *)
(** * iappend() of mkfs

   What the operations of mkfs do to the files of the image: iappend() adds
   bytes at the end of one file and takes no more blocks than they need. *)

From stdpp Require Import base numbers list gmap strings.
From Stdlib Require Import ZArith Lia.
From S2P Require Import Prelude Params Cmem KString Sleeplock UserMem Fs FsInv FsMap FsBmap FsWrite FsFile FsView Mkfs MkfsSim.

Implicit Types (g : fs flat) (m : mkfs).

(* ------------------------------------------------------------------ *)
(** ** The bytes of an inode *)

(** The bytes of the inode in memory. *)
Definition din_ok (din : list Z) (ip : inode) : Prop :=
  length din = Z.to_nat DINODE_SIZE /\ Forall byte din /\ holds 0 din ip.

Lemma din_addr din ip k : din_ok din ip -> 0 <= k <= NDIRECT -> ld32 (addr_off k) din = addr_of (Z.to_nat k) ip.
Proof.
  intros (_ & _ & (_ & _ & _ & _ & _ & E)%holds_inv) Hk. unfold addr_of. rewrite <- E. unfold di_addrs.
  rewrite list_lookup_fmap, lookup_seq_lt by (fsz; lia). simpl. f_equal. unfold addr_off. lia.
Qed.
Lemma din_size din ip : din_ok din ip -> ld32 8 din = i_size ip.
Proof. by intros (_ & _ & (_ & _ & _ & _ & E & _)%holds_inv). Qed.

Lemma din_set_addr din ip k a : din_ok din ip -> 0 <= k <= NDIRECT -> 0 <= a < 2 ^ 32 ->
  din_ok (st32 (addr_off k) a din) (set_addr (Z.to_nat k) a ip).
Proof.
  intros (Hl & Hb & Hh) Hk Ha. split; [unfold st32; by rewrite length_le_put|]. split; [by apply le_put_byte|].
  apply holds_inv in Hh as (E1 & E2 & E3 & E4 & E5 & E6). apply holds_inv.
  assert (forall n x, (x + n <= 12)%nat -> le_get n x (st32 (addr_off k) a din) = le_get n x din) as Hg.
  { intros n x Hx. apply le_get_put_ne. unfold addr_off. lia. }
  unfold di_type, di_nlink, ld16, ld32 in *. rewrite !Hg by lia. do 5 (split; [done|]).
  unfold set_addr. cbn [i_addrs]. rewrite <- E6. unfold di_addrs. apply list_eq. intros j.
  destruct (decide (j < 13)%nat) as [Hj|Hj].
  2: { by rewrite !lookup_ge_None_2 by (rewrite ?length_insert, length_map, length_seq; fsz; lia). }
  rewrite list_lookup_fmap, lookup_seq_lt by (fsz; lia). cbn [fmap option_fmap option_map]. destruct (decide (j = Z.to_nat k)) as [->|Hne].
  - rewrite list_lookup_insert_eq by (rewrite length_map, length_seq; fsz; lia). f_equal.
    replace (0 + 12 + 4 * (0 + Z.to_nat k))%nat with (addr_off k) by (unfold addr_off; lia).
    rewrite ld32_st32; [by apply u32_small|]. rewrite Hl. unfold addr_off. fsz. lia.
  - rewrite list_lookup_insert_ne, list_lookup_fmap, lookup_seq_lt by (fsz; lia). simpl. f_equal.
    apply le_get_put_ne. unfold addr_off. lia.
Qed.

Lemma din_set_size din ip n : din_ok din ip -> 0 <= n < 2 ^ 32 -> din_ok (st32 8 n din) (set_size n ip).
Proof.
  intros (Hl & Hb & Hh) Hn. split; [unfold st32; by rewrite length_le_put|]. split; [by apply le_put_byte|].
  apply holds_inv in Hh as (E1 & E2 & E3 & E4 & E5 & E6). apply holds_inv.
  assert (forall k x, (x + k <= 8 \/ 12 <= x)%nat -> le_get k x (st32 8 n din) = le_get k x din) as Hg.
  { intros k x Hx. apply le_get_put_ne. lia. }
  unfold di_type, di_nlink, di_addrs, ld16 in *. rewrite !Hg by lia. do 4 (split; [done|]).
  split; [cbn [Nat.add]; rewrite ld32_st32 by (rewrite Hl; fsz; lia); by apply u32_small|].
  cbn [set_size i_addrs]. rewrite <- E6. apply map_ext. intros k. apply Hg. lia.
Qed.

(* ------------------------------------------------------------------ *)
(** ** The blocks a file needs *)

(** Blocks of a file of [n] bytes, with its indirect block. *)
Definition fblocks (n : Z) : Z := (n + BSIZE - 1) / BSIZE + if NDIRECT * BSIZE <? n then 1 else 0.

Lemma fblocks_mono a b : a <= b -> fblocks a <= fblocks b.
Proof.
  intros Hab. unfold fblocks. fsz.
  destruct (Z.ltb_spec (12 * 1024) a), (Z.ltb_spec (12 * 1024) b); divlia.
Qed.

(** No new block before the end of the last one. *)
Lemma extent_within g i e e' : 0 < e <= e' -> (e - 1) / BSIZE = (e' - 1) / BSIZE -> extent g i e -> extent g i e'.
Proof.
  intros He Eq [H1 H2 H3]. split.
  - intros bn Hbn. rewrite H1 by done. fslia.
  - rewrite H2. fslia.
  - intros o Ho. apply H3. lia.
Qed.
Lemma fblocks_within e e' : 0 < e <= e' -> (e - 1) / BSIZE = (e' - 1) / BSIZE -> fblocks e' = fblocks e.
Proof.
  intros He Eq. unfold fblocks. f_equal; [fslia|].
  destruct (Z.ltb_spec (NDIRECT * BSIZE) e), (Z.ltb_spec (NDIRECT * BSIZE) e'); (done || fslia).
Qed.

(** What finding or adding the block of byte [e] leaves. *)
Definition block_found (i : nat) m g (e : Z) (din' : list Z) m' g' : Prop :=
  sim m' g' /\ step i g g' /\ keeps g g' /\ din_ok din' (geti i g') /\ extent g' i (e + 1) /\
  baddr g' i (e / BSIZE) <> 0 /\
  m_freeblock m' = m_freeblock m + fblocks (e + 1) - fblocks e /\ m_freeinode m' = m_freeinode m /\
  forall o, 0 <= o < MAXFILE * BSIZE -> fbyte g' i o = fbyte g i o.

Lemma step_refl i g : disk_ok g -> file_ok g i -> step i g g.
Proof. intros. split; try done. apply frame_refl. Qed.
Lemma step_trans i g g1 g2 : step i g g1 -> step i g1 g2 -> step i g g2.
Proof. intros [F1 _ _ E1] [F2 ? ? E2]. split; [by eapply frame_trans|done|done|congruence]. Qed.

Lemma next_block_Ok m g : sim m g -> m_freeblock m < FSSIZE ->
  next_block m = Ok (m_freeblock m) (mset_freeblock (m_freeblock m + 1) m).
Proof.
  intros Sm Hlt. unfold next_block. erewrite bind_Ok by done. erewrite bind_Ok by done.
  rewrite u32_small; [done|]. pose proof (sm_free _ _ Sm). mklia.
Qed.

Section block.
Context (i : nat) (m : mkfs) (g : fs flat) (din : list Z) (e : Z).
Context (Sm : sim m g) (Hi : (i < NI)%nat) (Hdin : din_ok din (geti i g)) (Hext : extent g i e).
Context (He : 0 <= e < MAXFILE * BSIZE) (Hroom : m_freeblock m + fblocks (e + 1) - fblocks e <= FSSIZE).
Notation fbn := (e / BSIZE).

Lemma fbn_range : 0 <= fbn < MAXFILE.
Proof. fslia. Qed.

Lemma block_missing : baddr g i fbn = 0 -> e mod BSIZE = 0.
Proof.
  intros E. destruct (decide (e mod BSIZE = 0)) as [|Hne]; [done|]. exfalso.
  apply (proj2 (ex_b _ _ _ Hext fbn fbn_range)); [fslia|done].
Qed.

Lemma block_here : baddr g i fbn <> 0 -> block_found i m g e din m g.
Proof.
  intros Hne. pose proof (proj1 (ex_b _ _ _ Hext fbn fbn_range) Hne) as Hlt.
  split; [done|]. split; [apply step_refl; [apply Sm|by apply (fs_file _ (sm_files _ _ Sm))]|]. split; [done|].
  split; [done|]. split; [apply (extent_within g i e); [fslia|fslia|done]|]. split; [done|].
  split; [|done]. rewrite (fblocks_within e (e + 1)) by fslia. lia.
Qed.

Lemma addr_small k : 0 <= k <= NDIRECT -> 0 <= addr_of (Z.to_nat k) (geti i g) < 2 ^ 32.
Proof.
  intros Hk. rewrite <- (din_addr din) by done. apply (le_get_range 4), Hdin.
Qed.

Lemma file_block_direct : fbn < NDIRECT ->
  exists din' m' g', file_block din fbn m = Ok (din', baddr g' i fbn) m' /\ block_found i m g e din' m' g'.
Proof.
  intros Hlt. pose proof fbn_range as Hr. unfold file_block. rewrite (proj2 (Z.ltb_lt _ _)) by done.
  rewrite (din_addr din (geti i g)) by (done || lia). rewrite xint_id by (apply addr_small; lia).
  assert (baddr g i fbn = addr_of (Z.to_nat fbn) (geti i g)) as Eb by (unfold baddr; by rewrite (proj2 (Z.ltb_lt _ _))).
  destruct (Z.eqb_spec (addr_of (Z.to_nat fbn) (geti i g)) 0) as [E0|Hne].
  - pose proof block_missing as Hm. rewrite Eb in Hm. specialize (Hm E0).
    assert (fblocks (e + 1) = fblocks e + 1) as Efb.
    { unfold fblocks. rewrite !(proj2 (Z.ltb_ge _ _)) by fslia. fslia. }
    assert (m_freeblock m < FSSIZE) as Hfb by lia. pose proof (sm_free _ _ Sm) as Hfr.
    destruct (sim_addr m g Sm i (Z.to_nat fbn)) as (G & St & Kp & Sm'); [done|unfold IND; fslia|done|done|].
    set (a := m_freeblock m) in *. set (g' := add_addr i (Z.to_nat fbn) a g) in *.
    pose proof (fs_file _ (sm_files _ _ Sm) i Hi) as Hfi. pose proof (sm_disk _ _ Sm) as Hd.
    pose proof (sim_free m g Sm Hfb) as Hfree.
    assert (forall bn, 0 <= bn < MAXFILE -> baddr g' i bn = if decide (bn = fbn) then a else baddr g i bn) as Ebn.
    { intros bn Hbn. unfold g'. rewrite baddr_add_addr by (done || unfold IND; fslia).
      repeat case_decide; (done || lia). }
    assert (geti i g' = set_addr (Z.to_nat fbn) a (geti i g)) as Eg by (unfold g'; by rewrite geti_add_addr, decide_True).
    exists (st32 (addr_off fbn) a din), (mset_freeblock (a + 1) m), g'. split.
    + erewrite bind_Ok; [|erewrite bind_Ok by (by eapply next_block_Ok); rewrite xint_id by mklia; done].
      unfold ret. f_equal. f_equal. rewrite Ebn, decide_True by done.
      rewrite (din_addr _ (set_addr (Z.to_nat fbn) a (geti i g))); [|apply din_set_addr; [done|lia|mklia]|lia].
      rewrite addr_of_set, decide_True by (done || rewrite (fi_addrs _ _ Hfi); unfold IND; fslia). apply xint_id. mklia.
    + split; [done|]. split; [done|]. split; [done|]. split; [rewrite Eg; apply din_set_addr; [done|lia|mklia]|].
      split; [|split; [rewrite Ebn, decide_True by done; mklia|split; [simpl; lia|split; [done|by eapply grow_fbyte]]]].
      split.
      * intros bn Hbn. rewrite Ebn by done. case_decide as E; [subst bn; split; [fslia|intros _; mklia]|].
        rewrite (ex_b _ _ _ Hext) by done. fslia.
      * unfold g'. rewrite iaddr_add_addr, decide_False by (done || unfold IND; fslia). rewrite (ex_i _ _ _ Hext). fslia.
      * intros o Ho. erewrite grow_fbyte by (done || lia). apply (ex_z _ _ _ Hext). lia.
  - exists din, m, g. split; [|apply block_here; congruence].
    erewrite bind_Ok by done. unfold ret. rewrite (din_addr din (geti i g)) by (done || lia).
    by rewrite xint_id, Eb by (apply addr_small; lia).
Qed.

Lemma fblocks_step : NDIRECT <= fbn ->
  fblocks (e + 1) - fblocks e = (if decide (e = NDIRECT * BSIZE) then 1 else 0) + (if decide (e mod BSIZE = 0) then 1 else 0).
Proof.
  intros Hge. unfold fblocks. repeat case_decide;
    destruct (Z.ltb_spec (NDIRECT * BSIZE) (e + 1)), (Z.ltb_spec (NDIRECT * BSIZE) e); fslia.
Qed.

(** The indirect block is there, or is added. *)
Definition ind_found (din1 : list Z) m1 g1 : Prop :=
  sim m1 g1 /\ step i g g1 /\ keeps g g1 /\ din_ok din1 (geti i g1) /\ iaddr g1 i <> 0 /\
  (forall bn, 0 <= bn < MAXFILE -> baddr g1 i bn = baddr g i bn) /\
  m_freeblock m1 = m_freeblock m + (if decide (e = NDIRECT * BSIZE) then 1 else 0) /\ m_freeinode m1 = m_freeinode m /\
  forall o, 0 <= o < MAXFILE * BSIZE -> fbyte g1 i o = fbyte g i o.

Lemma file_ind : NDIRECT <= fbn ->
  exists din1 m1 g1,
    (if xint (ld32 (addr_off NDIRECT) din) =? 0 then
       let* b := next_block in ret (st32 (addr_off NDIRECT) (xint b) din)
     else ret din) m = Ok din1 m1 /\ ind_found din1 m1 g1.
Proof.
  intros Hge. pose proof fbn_range as Hr. pose proof (fblocks_step Hge) as Hfs.
  rewrite (din_addr din (geti i g)) by (done || fslia). rewrite xint_id by (apply addr_small; fslia).
  change (addr_of (Z.to_nat NDIRECT) (geti i g)) with (iaddr g i). pose proof (ex_i _ _ _ Hext) as Hxi.
  destruct (Z.eqb_spec (iaddr g i) 0) as [E0|Hne].
  - assert (e = NDIRECT * BSIZE) as Ee by (destruct (decide (NDIRECT * BSIZE < e)); [tauto|fslia]).
    rewrite (decide_True _ _ Ee) in Hfs. rewrite decide_True in Hfs by fslia.
    assert (m_freeblock m < FSSIZE) as Hfb by lia. pose proof (sm_free _ _ Sm) as Hfr.
    destruct (sim_addr m g Sm i IND) as (G & St & Kp & Sm'); [done..|].
    set (a := m_freeblock m) in *. set (g' := add_addr i IND a g) in *.
    pose proof (fs_file _ (sm_files _ _ Sm) i Hi) as Hfi. pose proof (sm_disk _ _ Sm) as Hd.
    pose proof (sim_free m g Sm Hfb) as Hfree.
    assert (geti i g' = set_addr IND a (geti i g)) as Eg by (unfold g'; by rewrite geti_add_addr, decide_True).
    exists (st32 (addr_off NDIRECT) a din), (mset_freeblock (a + 1) m), g'. split.
    + erewrite bind_Ok by (by eapply next_block_Ok). by rewrite xint_id by mklia.
    + split; [done|]. split; [done|]. split; [done|]. split; [rewrite Eg; apply (din_set_addr _ _ NDIRECT); [done|fslia|mklia]|].
      split; [unfold g'; rewrite iaddr_add_addr, decide_True by done; mklia|].
      split; [intros bn Hbn; unfold g'; rewrite baddr_add_addr by done; case_decide as E; [unfold IND in E; fslia|done]|].
      split; [rewrite decide_True by done; simpl; lia|]. split; [done|by eapply grow_fbyte].
  - exists din, m, g. split; [done|]. split; [done|].
    split; [apply step_refl; [apply Sm|by apply (fs_file _ (sm_files _ _ Sm))]|]. do 3 (split; [done|]). split; [done|].
    split; [|done]. rewrite decide_False by (intros ->; tauto || lia). lia.
Qed.

Lemma file_block_indirect : NDIRECT <= fbn ->
  exists din' m' g', file_block din fbn m = Ok (din', baddr g' i fbn) m' /\ block_found i m g e din' m' g'.
Proof.
  intros Hge. pose proof fbn_range as Hr. pose proof (fblocks_step Hge) as Hfs. unfold file_block.
  rewrite (proj2 (Z.ltb_ge _ _)) by done.
  destruct (file_ind Hge) as (din1 & m1 & g1 & E1 & Sm1 & St1 & Kp1 & Hdin1 & Hne1 & Eb1 & Efb1 & Efi1 & Hby1).
  erewrite bind_Ok by exact E1. clear E1.
  assert (0 <= iaddr g1 i < 2 ^ 32) as Hia.
  { unfold iaddr, IND. rewrite <- (din_addr din1) by (done || fslia). apply (le_get_range 4), Hdin1. }
  rewrite (din_addr din1 (geti i g1)) by (done || fslia). change (addr_of (Z.to_nat NDIRECT) (geti i g1)) with (iaddr g1 i).
  rewrite xint_id by done. pose proof (sim_owned m1 g1 Sm1 i _ Hi (ind_owned g1 i Hne1)) as Hown.
  pose proof (sm_free _ _ Sm1) as Hfr1.
  erewrite bind_Ok by (apply sim_rsect; [done|unfold on_disk; mklia|mklia]). cbv zeta.
  assert (ld32 (Z.to_nat (4 * (fbn - NDIRECT))) (blkS (iaddr g1 i) g1) = baddr g1 i fbn) as Eld.
  { unfold baddr. rewrite (proj2 (Z.ltb_ge _ _)) by done. by rewrite (proj2 (Z.eqb_neq _ 0)). }
  rewrite Eld. destruct (Z.eqb_spec (baddr g1 i fbn) 0) as [E0|Hne].
  - rewrite Eb1 in E0 by done. pose proof (block_missing E0) as Hm. rewrite (decide_True _ _ Hm) in Hfs.
    assert (m_freeblock m1 < FSSIZE) as Hfb by lia.
    destruct (sim_indirect m1 g1 Sm1 i fbn) as (G & St & Kp & Sm'); [done|lia|done|done|by rewrite Eb1|].
    set (a := m_freeblock m1) in *. set (g' := add_indirect i fbn a g1) in *.
    assert (length (blkS (iaddr g1 i) g1) = block_bytes) as Hl by apply (sm_disk _ _ Sm1).
    pose proof (fs_file _ (sm_files _ _ Sm1) i Hi) as Hfi1. pose proof (sm_disk _ _ Sm1) as Hd1.
    pose proof (sim_free m1 g1 Sm1 Hfb) as Hfree1.
    assert (baddr g' i fbn = a) as Ea by (unfold g'; by rewrite baddr_add_indirect, decide_True by (done || lia)).
    exists din1. eexists _, g'. split.
    + erewrite bind_Ok.
      2: { erewrite bind_Ok by (by eapply next_block_Ok). rewrite xint_id by mklia.
           erewrite bind_Ok; [done|]. unfold wsect. rewrite sector_id by mklia. done. }
      fold a. rewrite ld32_st32 by (rewrite Hl; apply ind_off_ok; lia). rewrite u32_small, xint_id by mklia. by rewrite Ea.
    + split; [exact Sm'|]. split; [by eapply step_trans|]. split; [intros b Hb; by rewrite Kp, Kp1|]. split; [done|].
      split; [|split; [rewrite Ea; mklia|split; [simpl; lia|split; [done|]]]].
      2: { intros o Ho. erewrite grow_fbyte by done. by apply Hby1. }
      split.
      * intros bn Hbn. unfold g'. rewrite baddr_add_indirect by (done || lia). destruct (decide (bn = fbn)) as [E|E]; [subst bn; split; [fslia|intros _; mklia]|].
        rewrite Eb1, (ex_b _ _ _ Hext) by done. fslia.
      * change (iaddr g' i) with (iaddr g1 i). split; [fslia|done].
      * intros o Ho. erewrite grow_fbyte by (done || lia). rewrite Hby1 by lia. apply (ex_z _ _ _ Hext). lia.
  - exists din1, m1, g1. rewrite Eb1 in Hne by done. pose proof (proj1 (ex_b _ _ _ Hext fbn Hr) Hne) as Hlt.
    assert (extent g i (e + 1)) as Hext1 by (apply (extent_within g i e); [fslia|fslia|done]).
    split.
    + erewrite bind_Ok by done. rewrite Eld. unfold ret. do 2 f_equal. apply xint_id. rewrite <- Eld.
      apply (le_get_range 4), (sm_disk _ _ Sm1).
    + split; [done|]. split; [done|]. split; [done|]. split; [done|]. split; [|split; [by rewrite Eb1|split; [|done]]].
      * split; [intros bn Hbn; rewrite Eb1 by done; by apply Hext1|split; [fslia|done]|].
        intros o Ho. rewrite Hby1 by lia. by apply Hext1.
      * rewrite Efb1. rewrite (decide_False (P := e mod BSIZE = 0)) in Hfs by fslia. lia.
Qed.

Lemma file_block_spec :
  exists din' m' g', file_block din fbn m = Ok (din', baddr g' i fbn) m' /\ block_found i m g e din' m' g'.
Proof. destruct (decide (fbn < NDIRECT)); [by apply file_block_direct|apply file_block_indirect; lia]. Qed.

End block.

(* ------------------------------------------------------------------ *)
(** ** Appending bytes *)

(** [p] arrived at offset [e] of file [i]. *)
Definition appended (i : nat) m g (e : Z) (p : list Z) m' g' : Prop :=
  sim m' g' /\ step i g g' /\ keeps g g' /\ extent g' i (e + Z.of_nat (length p)) /\
  m_freeblock m' = m_freeblock m + fblocks (e + Z.of_nat (length p)) - fblocks e /\ m_freeinode m' = m_freeinode m /\
  forall o, 0 <= o < MAXFILE * BSIZE ->
    fbyte g' i o = if decide (e <= o < e + Z.of_nat (length p)) then default 0 (p !! Z.to_nat (o - e)) else fbyte g i o.

Lemma appended_trans i m g e p q m1 g1 m' g' : 0 <= e ->
  appended i m g e p m1 g1 -> appended i m1 g1 (e + Z.of_nat (length p)) q m' g' -> appended i m g e (p ++ q) m' g'.
Proof.
  intros He (S1 & T1 & K1 & X1 & B1 & I1 & Y1) (S2 & T2 & K2 & X2 & B2 & I2 & Y2).
  assert (e + Z.of_nat (length (p ++ q)) = e + Z.of_nat (length p) + Z.of_nat (length q)) as El by (rewrite length_app; lia).
  unfold appended. rewrite El. split; [done|]. split; [by eapply step_trans|]. split; [intros b Hb; by rewrite K2, K1|].
  split; [done|]. split; [lia|]. split; [congruence|]. intros o Ho. rewrite Y2, Y1 by done. repeat case_decide; try lia.
  - rewrite lookup_app_r by lia. do 2 f_equal. lia.
  - by rewrite lookup_app_l by lia.
Qed.

(** The store of one turn of the loop. *)
Lemma store_block i m g e din m1 g1 p : 0 <= e -> (i < NI)%nat -> block_found i m g e din m1 g1 ->
  0 < Z.of_nat (length p) -> e mod BSIZE + Z.of_nat (length p) <= BSIZE -> e / BSIZE < MAXFILE -> Forall byte p ->
  let a := baddr g1 i (e / BSIZE) in
  let d := splice (Z.to_nat (e - e / BSIZE * BSIZE)) p (blkS a g1) in
  let g' := poke a d [] (f_user g1) g1 in
  rsect a m1 = Ok (blkS a g1) m1 /\ wsect a d m1 = Ok tt (mset_img <[a := d]> m1) /\
  din_ok din (geti i g') /\ appended i m g e p (mset_img <[a := d]> m1) g'.
Proof.
  intros He Hi (Sm & St & Kp & Hdin & Hext & Hne & Hfb & Hfi & Hby) Hp Hfit Hmax Hpb a d g'.
  assert (0 <= e / BSIZE < MAXFILE) as Hr by fslia. pose proof (sm_free _ _ Sm) as Hfr.
  pose proof (sim_owned m1 g1 Sm i a Hi (baddr_owned g1 i _ Hr Hne)) as Ho.
  assert (Z.to_nat (e - e / BSIZE * BSIZE) = Z.to_nat (e mod BSIZE)) as Em by fslia.
  assert (Z.to_nat (e mod BSIZE) + length p <= block_bytes)%nat as Hin.
  { apply Nat2Z.inj_le. rewrite Nat2Z.inj_add, block_bytes_Z. fslia. }
  pose proof (dk_block g1 (sm_disk _ _ Sm) a) as Hba. 
  assert (is_block d) as Hblk by (unfold d; rewrite Em; by apply is_block_splice).
  destruct (sim_poke m1 g1 Sm i (e / BSIZE) d Hi Hr Hne Hblk) as (St' & Kp' & Sm').
  pose proof (fs_file _ (sm_files _ _ Sm) i Hi) as Hfi1.
  assert (forall o, 0 <= o < MAXFILE * BSIZE -> fbyte g' i o =
    if decide (e <= o < e + Z.of_nat (length p)) then default 0 (p !! Z.to_nat (o - e)) else fbyte g i o) as Hby'.
  { intros o Hor. unfold g', a. rewrite poke_fbyte by done. unfold d. rewrite Em, splice_byte by done.
    rewrite <- Hby by done. destruct (decide (o / BSIZE = e / BSIZE)) as [Eo|]; repeat case_decide; try fslia.
    - do 2 f_equal. fslia.
    - unfold fbyte. rewrite Eo. by rewrite (proj2 (Z.eqb_neq _ 0)). }
  split; [apply sim_rsect; [done|unfold on_disk; mklia|mklia]|]. split; [unfold wsect; by rewrite sector_id by mklia|].
  split; [done|]. split; [done|]. split; [by eapply step_trans|]. split; [intros b Hb; by rewrite Kp', Kp|].
  split; [|split; [simpl; rewrite (fblocks_within (e + 1)) by fslia; lia|by split]].
  assert (extent g1 i (e + Z.of_nat (length p))) as Hx by (apply (extent_within g1 i (e + 1)); [lia|fslia|done]).
  split.
  - intros bn Hbn. unfold g', a. rewrite poke_baddr by done. by apply Hx.
  - exact (ex_i _ _ _ Hx).
  - intros o Hor. rewrite Hby', decide_False by lia. rewrite <- Hby by lia. by apply (ex_z _ _ _ Hx).
Qed.

Lemma appended_nil i m g e : sim m g -> (i < NI)%nat -> extent g i e -> appended i m g e [] m g.
Proof.
  intros Sm Hi Hext. unfold appended. cbn [length]. rewrite Z.add_0_r. split; [done|].
  split; [apply step_refl; [apply Sm|by apply (fs_file _ (sm_files _ _ Sm))]|]. split; [done|]. split; [done|].
  split; [lia|]. split; [done|]. intros o Ho. by rewrite decide_False by lia.
Qed.

Lemma iappend_loop_spec fuel i m g din e p : sim m g -> (i < NI)%nat -> din_ok din (geti i g) -> extent g i e -> 0 <= e ->
  e + Z.of_nat (length p) <= MAXFILE * BSIZE -> m_freeblock m + fblocks (e + Z.of_nat (length p)) - fblocks e <= FSSIZE ->
  (length p <= fuel)%nat -> Forall byte p ->
  exists din' m' g', iappend_loop fuel din e p m = Ok (din', e + Z.of_nat (length p)) m' /\
    din_ok din' (geti i g') /\ appended i m g e p m' g'.
Proof.
  revert m g din e p. induction fuel as [|fuel IH]; intros m g din e p Sm Hi Hdin Hext He Hmax Hroom Hf Hp; cbn [iappend_loop].
  all: destruct (Z.ltb_spec 0 (Z.of_nat (length p))) as [Hlt|Hge];
    [|exists din, m, g; destruct p; [|simpl in Hge; lia]; cbn [length]; rewrite Z.add_0_r; split; [done|];
      split; [done|by apply appended_nil]].
  { lia. }
  assert (0 <= e / BSIZE < MAXFILE) as Hr by fslia.
  unfold assert. rewrite (proj2 (Z.ltb_lt _ _)) by lia. erewrite bind_Ok by done.
  pose proof (fblocks_mono (e + 1) (e + Z.of_nat (length p)) ltac:(lia)) as Hmono.
  destruct (file_block_spec i m g din e Sm Hi Hdin Hext ltac:(fslia) ltac:(lia)) as (din1 & m1 & g1 & E1 & B1).
  erewrite bind_Ok by exact E1. cbn [fst snd]. cbv zeta.
  set (n1 := Z.min (Z.of_nat (length p)) ((e / BSIZE + 1) * BSIZE - e)).
  assert (0 < n1 <= Z.of_nat (length p) /\ e mod BSIZE + n1 <= BSIZE) as [Hn1 Hfit] by (unfold n1; fslia).
  assert (Z.of_nat (length (take (Z.to_nat n1) p)) = n1) as Hl1 by (rewrite length_take; lia).
  destruct (store_block i m g e din1 m1 g1 (take (Z.to_nat n1) p) He Hi B1) as (Er & Ew & Hdin2 & A1);
    [lia|lia|lia|by apply Forall_take|].
  erewrite bind_Ok by exact Er. erewrite bind_Ok by exact Ew. clear Er Ew E1 B1.
  set (m2 := mset_img _ m1) in *. set (g2 := poke _ _ _ _ g1) in *.
  assert (Z.of_nat (length (drop (Z.to_nat n1) p)) = Z.of_nat (length p) - n1) as Hl2 by (rewrite length_drop; lia).
  pose proof A1 as (Sm2 & _ & _ & X2 & Fb2 & _). rewrite Hl1 in X2, Fb2. rewrite u32_small by fslia.
  destruct (IH m2 g2 din1 (e + n1) (drop (Z.to_nat n1) p)) as (din3 & m3 & g3 & E3 & Hdin3 & A3); try done.
  { lia. }
  { lia. }
  { rewrite Hl2, Fb2. replace (e + n1 + (Z.of_nat (length p) - n1)) with (e + Z.of_nat (length p)) by lia. lia. }
  { lia. }
  { by apply Forall_drop. }
  exists din3, m3, g3. rewrite E3, Hl2. split; [do 2 f_equal; lia|]. split; [done|].
  rewrite <- (take_drop (Z.to_nat n1) p). eapply appended_trans; [done|exact A1|]. by rewrite Hl1.
Qed.

(* ------------------------------------------------------------------ *)
(** ** Inodes on disk *)

Notation ib k := (IBLOCK (Z.of_nat k) SB).
Notation ioff k := (dinode_off (Z.of_nat k)).

(** Inode [k] is on disk; its slot is free. *)
Definition synced g (k : nat) : Prop := holds (ioff k) (blkS (ib k) g) (geti k g).
Definition unused g (k : nat) : Prop := di_type (ioff k) (blkS (ib k) g) = 0.

Lemma ib_range k : (k < NI)%nat -> 33 <= ib k < BMAP.
Proof. intros Hk. unfold IBLOCK. mklia. Qed.
Lemma ioff_range k : (ioff k + 64 <= block_bytes)%nat.
Proof. apply Nat2Z.inj_le. rewrite Nat2Z.inj_add, block_bytes_Z. unfold dinode_off. mklia. Qed.
Lemma ioff_apart k l : k <> l -> ib k = ib l -> (ioff k + 64 <= ioff l \/ ioff l + 64 <= ioff k)%nat.
Proof. unfold IBLOCK, dinode_off. mkz. intros. assert (Z.of_nat k mod 16 <> Z.of_nat l mod 16) by divlia. divlia. Qed.

Lemma synced_keeps g g' k : (k < NI)%nat -> keeps g g' -> geti k g' = geti k g -> synced g k -> synced g' k.
Proof. intros Hk Kp E. unfold synced. by rewrite E, (Kp _ (ib_range k Hk)). Qed.
Lemma unused_keeps g g' k : (k < NI)%nat -> keeps g g' -> unused g k -> unused g' k.
Proof. intros Hk Kp. unfold unused. by rewrite (Kp _ (ib_range k Hk)). Qed.

Lemma sim_rinode m g k : sim m g -> (k < NI)%nat ->
  rinode (Z.of_nat k) m = Ok (slice (ioff k) 64 (blkS (ib k) g)) m.
Proof.
  intros Sm Hk. pose proof (ib_range k Hk) as Hr. unfold rinode. erewrite bind_Ok by done. cbv zeta.
  rewrite (proj1 (sm_sb _ _ Sm)). by erewrite bind_Ok by (apply sim_rsect; [done|unfold on_disk; mklia|lia]).
Qed.

Lemma synced_din m g k : sim m g -> synced g k -> din_ok (slice (ioff k) 64 (blkS (ib k) g)) (geti k g).
Proof.
  intros Sm Hs. destruct (dk_block g (sm_disk _ _ Sm) (ib k)) as [Hl Hb]. pose proof (ioff_range k).
  split; [by rewrite length_slice by lia|]. split; [by apply Forall_take, Forall_drop|].
  eapply holds_ext; [|exact Hs]. intros j Hj. by rewrite slice_lookup by lia.
Qed.

(** winode() of the bytes of the inode in memory. *)
Lemma sim_put_inode m g k din : sim m g -> (k < NI)%nat -> din_ok din (geti k g) ->
  exists m' g', winode (Z.of_nat k) din m = Ok tt m' /\ sim m' g' /\ step k g g' /\ synced g' k /\
    (forall l, geti l g' = geti l g) /\
    (forall l, (l < NI)%nat -> l <> k -> (synced g l -> synced g' l) /\ (unused g l -> unused g' l)) /\
    (forall o, 0 <= o < MAXFILE * BSIZE -> fbyte g' k o = fbyte g k o) /\
    (forall e, 0 <= e -> extent g k e -> extent g' k e) /\
    m_freeblock m' = m_freeblock m /\ m_freeinode m' = m_freeinode m.
Proof.
  intros Sm Hk (Hl & Hb & Hh). pose proof (ib_range k Hk) as Hr. pose proof (ioff_range k) as Ho.
  pose proof (dk_block g (sm_disk _ _ Sm) (ib k)) as Hblk. change (Z.to_nat DINODE_SIZE) with 64%nat in Hl.
  set (d := splice (ioff k) din (blkS (ib k) g)).
  assert (is_block d) as Hd by (apply is_block_splice; [done|rewrite Hl; done|done]).
  destruct (sim_winode m g Sm k d Hk Hd) as (St & Sm'). cbv zeta in St, Sm'.
  assert (forall j, (ioff k <= j < ioff k + 64 -> d !! j = din !! (j - ioff k) )%nat /\
    (j < ioff k \/ ioff k + 64 <= j -> d !! j = blkS (ib k) g !! j)%nat) as Hlk.
  { intros j. destruct Hblk as [Hbl _]. split; intros Hj; [apply splice_lookup_in; lia|apply splice_lookup_out; lia]. }
  pose proof (fs_file _ (sm_files _ _ Sm) k Hk) as Hfi. pose proof (sm_disk _ _ Sm) as Hdk.
  assert (ib k = IBLOCK (i_inum (geti k g)) (f_sb g)) as Ei by (by rewrite (fs_inum _ (sm_files _ _ Sm)), (proj2 (sm_sb _ _ Sm))).
  exists (mset_img <[ib k := d]> m), (edit (ib k) d g). split_and!; try done.
  - unfold winode. erewrite bind_Ok by done. cbv zeta. rewrite (proj1 (sm_sb _ _ Sm)).
    erewrite bind_Ok by (apply sim_rsect; [done|unfold on_disk; mklia|lia]). unfold wsect. by rewrite sector_id by mklia.
  - unfold synced. rewrite blkS_edit, decide_True by done. change (geti k (edit _ _ g)) with (geti k g).
    eapply holds_ext; [|exact Hh]. intros j Hj. rewrite (proj1 (Hlk _)) by lia. f_equal. lia.
  - intros l Hln Hne. unfold synced, unused. rewrite blkS_edit. case_decide as E; [|done].
    pose proof (ioff_apart l k Hne E) as Hap. rewrite E.
    assert (forall j, (j < 64)%nat -> d !! (ioff l + j)%nat = blkS (ib k) g !! (ioff l + j)%nat) as Hs
      by (intros j Hj; apply (proj2 (Hlk _)); lia).
    split; [apply holds_ext; intros j Hj; by rewrite Hs|].
    unfold di_type, ld16. intros <-. f_equal. apply le_get_ext. intros j Hj.
    replace j with (ioff l + (j - ioff l))%nat by lia. apply Hs. lia.
  - intros o Hor. rewrite Ei. by apply iup_fbyte.
  - intros e He [H1 H2 H3]. split.
    + intros bn Hbn. rewrite Ei, iup_baddr by done. auto.
    + exact H2.
    + intros o Hor. rewrite Ei, iup_fbyte by (done || lia). auto.
Qed.
