(* ===== verification/MkfsImage.v ===== *)
(** * The image mkfs builds

   The root directory and the files of the image are, for the kernel, those
   mkfs was given. *)

From stdpp Require Import base numbers list gmap strings.
From Stdlib Require Import ZArith Lia.
From S2P Require Import Prelude Params Cmem KString Sleeplock UserMem Fs FsInv FsMap FsBmap FsWrite FsFile FsDir FsView.
From S2P Require Import Mkfs MkfsSim MkfsOps.

Implicit Types (g : fs flat) (m : mkfs) (e : nat -> Z).

(* ------------------------------------------------------------------ *)
(** ** Blocks in use *)

Definition sumf (l : list nat) e : Z := foldr (fun k z => fblocks (e k) + z) 0 l.
Definition total e : Z := sumf (seq 0 NI) e.


Lemma sumf_out l e i x : i ∉ l -> sumf l (upd i x e) = sumf l e.
Proof.
  induction l as [|k l IH]; intros Hi; [done|]. cbn [sumf foldr]. apply not_elem_of_cons in Hi as [Hk Hi].
  rewrite upd_ne by done. f_equal. by apply IH.
Qed.
Lemma sumf_upd l e i x : NoDup l -> i ∈ l -> sumf l (upd i x e) = sumf l e + fblocks x - fblocks (e i).
Proof.
  induction l as [|k l IH]; intros Hnd Hi; [by apply elem_of_nil in Hi|]. apply NoDup_cons in Hnd as [Hk Hnd].
  change (sumf (k :: l) ?f) with (fblocks (f k) + sumf l f). destruct (decide (k = i)) as [->|Hne].
  - rewrite upd_eq, sumf_out by done. lia.
  - apply elem_of_cons in Hi as [|Hi]; [congruence|]. rewrite upd_ne, IH by done. lia.
Qed.
Lemma total_upd e i x : (i < NI)%nat -> total (upd i x e) = total e + fblocks x - fblocks (e i).
Proof. intros Hi. apply sumf_upd; [apply NoDup_seq|]. apply elem_of_seq. lia. Qed.

(* ------------------------------------------------------------------ *)
(** ** The state between operations *)

(** The kernel's copy of an inode before its file has bytes: the root is the
    first. *)
Definition ity (k : nat) : Z := if decide (k = 1%nat) then T_DIR else T_FILE.
Definition init_inode (k : nat) : inode :=
  Inode ROOTDEV (Z.of_nat k) 1 initsleeplock true (ity k) 0 0 1 0 (replicate 13 0).

(** [e k] is the size of file [k]; the inodes below freeinode are on disk
    and the others are free. *)
Record world m g e : Prop := {
  wd_sim : sim m g;
  wd_ext k : (k < NI)%nat -> 0 <= e k /\ extent g k (e k) /\ i_size (geti k g) = e k;
  wd_zero : e 0%nat = 0;
  wd_count : m_freeblock m = nmeta + total e;
  wd_free : 1 <= m_freeinode m <= NINODES;
  wd_sync k : (k < NI)%nat -> 1 <= Z.of_nat k < m_freeinode m -> synced g k;
  wd_unused k : (k < NI)%nat -> m_freeinode m <= Z.of_nat k -> unused g k;
  wd_init k : (k < NI)%nat -> m_freeinode m <= Z.of_nat k -> geti k g = init_inode k
}.

Lemma world_ext m g e e' : (forall k, e k = e' k) -> world m g e -> world m g e'.
Proof.
  intros E W. assert (total e = total e') as Et.
  { unfold total, sumf. induction (seq 0 NI) as [|k l IH]; cbn [foldr]; [done|]. by rewrite E, IH. }
  split; try apply W.
  - intros k. rewrite <- E. apply W.
  - rewrite <- E. apply W.
  - rewrite <- Et. apply W.
Qed.

(** What other inodes and the identity of [i] keep. *)
Definition same_inode (ip ip' : inode) : Prop := i_type ip' = i_type ip /\ i_nlink ip' = i_nlink ip.
Lemma frame_inode i g g' k : frame i g g' -> same_inode (geti k g) (geti k g').
Proof.
  intros F. destruct (decide (k = i)) as [->|Hne]; [by rewrite (fr_ino _ _ _ F)|by rewrite (fr_other _ _ _ F)].
Qed.

Lemma contents_append g g' i n p : 0 <= n -> n + Z.of_nat (length p) <= MAXFILE * BSIZE ->
  i_size (geti i g) = n -> i_size (geti i g') = n + Z.of_nat (length p) ->
  (forall o, 0 <= o < MAXFILE * BSIZE ->
    fbyte g' i o = if decide (n <= o < n + Z.of_nat (length p)) then default 0 (p !! Z.to_nat (o - n)) else fbyte g i o) ->
  contents g' i = contents g i ++ p.
Proof.
  intros He Hmax Es Es' Hb. apply list_eq. intros k. destruct (decide (k < Z.to_nat n + length p)%nat) as [Hk|Hk].
  2: { rewrite !lookup_ge_None_2; [done|rewrite length_app|]; rewrite length_contents; lia. }
  rewrite contents_lookup, Hb by lia. destruct (decide (k < Z.to_nat n)%nat) as [Hlt|Hge].
  - rewrite decide_False by lia. rewrite lookup_app_l, contents_lookup by (rewrite ?length_contents; lia). done.
  - rewrite decide_True by lia. rewrite lookup_app_r, length_contents by (rewrite length_contents; lia).
    rewrite Es. replace (k - Z.to_nat n)%nat with (Z.to_nat (Z.of_nat k - n)) by lia.
    destruct (lookup_lt_is_Some_2 p (Z.to_nat (Z.of_nat k - n))) as [x ->]; [lia|done].
Qed.

(** Nothing of the other files changed. *)
Definition kept_others (i : nat) g g' : Prop :=
  (forall k, same_inode (geti k g) (geti k g')) /\ forall j, (j < NI)%nat -> j <> i -> contents g' j = contents g j.

Lemma world_step m g e i m' g' x : world m g e -> (i < NI)%nat -> sim m' g' -> frame i g g' -> 0 <= x ->
  extent g' i x -> i_size (geti i g') = x -> m_freeblock m' = m_freeblock m + fblocks x - fblocks (e i) ->
  m_freeinode m <= m_freeinode m' <= NINODES -> 1 <= Z.of_nat i < m_freeinode m' ->
  (forall k, (k < NI)%nat -> 1 <= Z.of_nat k < m_freeinode m' -> synced g' k) ->
  (forall k, (k < NI)%nat -> m_freeinode m' <= Z.of_nat k -> unused g' k) -> world m' g' (upd i x e).
Proof.
  intros W Hi Sm' F Hx X Es Fb Hfi Hin Hs Hu. pose proof (wd_free _ _ _ W). pose proof (wd_sim _ _ _ W) as Sm. split; try done.
  - intros k Hk. destruct (decide (k = i)) as [->|Hne]; [by rewrite upd_eq|]. rewrite upd_ne by done.
    destruct (wd_ext _ _ _ W k Hk) as (H1 & H2 & H3). split; [done|].
    split; [|by rewrite (fr_other _ _ _ F)].
    by apply (other_extent i g g' (sm_disk _ _ Sm) (sm_files _ _ Sm) Hi F).
  - rewrite upd_ne by lia. apply W.
  - rewrite total_upd by done. rewrite Fb, (wd_count _ _ _ W). lia.
  - lia.
  - intros k Hk Hkn. rewrite (fr_other _ _ _ F) by lia. apply (wd_init _ _ _ W); [done|lia].
Qed.

(** The size of an inode and its copy on disk. *)
Lemma finish_inode m g i din x : sim m g -> (i < NI)%nat -> din_ok din (geti i g) -> extent g i x ->
  0 <= x <= MAXFILE * BSIZE ->
  exists m' g', winode (Z.of_nat i) (st32 8 x din) m = Ok tt m' /\ sim m' g' /\ frame i g g' /\ extent g' i x /\
    i_size (geti i g') = x /\ (forall k, k <> i -> geti k g' = geti k g) /\ synced g' i /\
    (forall l, (l < NI)%nat -> l <> i -> (synced g l -> synced g' l) /\ (unused g l -> unused g' l)) /\
    (forall o, 0 <= o < MAXFILE * BSIZE -> fbyte g' i o = fbyte g i o) /\
    m_freeblock m' = m_freeblock m /\ m_freeinode m' = m_freeinode m.
Proof.
  intros Sm Hi Hdin Hext Hx.
  destruct (sim_size m g Sm i x) as (F2 & Sm2); [done|lia| |].
  { intros bn Hbn Hlt. apply (ex_b _ _ _ Hext); [fslia|done]. }
  set (g2 := set_itab (alter (set_size x) i) g) in *.
  pose proof (fs_file _ (sm_files _ _ Sm) i Hi) as Hfi.
  assert (geti i g2 = set_size x (geti i g)) as Eg2 by (unfold g2; by rewrite geti_size, decide_True).
  destruct (sim_put_inode m g2 i (st32 8 x din) Sm2 Hi) as
    (m3 & g3 & E3 & Sm3 & St3 & Sy3 & Eg3 & Oth3 & By3 & X3 & Fb3 & Fi3).
  { rewrite Eg2. apply din_set_size; [done|fslia]. }
  exists m3, g3. split; [done|]. split; [done|]. split; [eapply frame_trans; [exact F2|apply St3]|].
  split; [|split; [by rewrite Eg3, Eg2|split; [|split; [done|split; [|split; [|done]]]]]].
  - apply X3; [lia|]. destruct Hext as [H1 H2 H3]. split.
    + intros bn Hbn. unfold g2. rewrite size_baddr by done. auto.
    + unfold g2. by rewrite size_iaddr by done.
    + intros o Ho. unfold g2. rewrite size_fbyte by done. auto.
  - intros k Hk. rewrite Eg3. unfold g2. by rewrite geti_size, decide_False.
  - intros l Hl Hne. destruct (Oth3 l Hl Hne) as [Hs Hu]. split; [|exact Hu]. intros Hsy. apply Hs. unfold synced, g2.
    rewrite geti_size, decide_False by done. exact Hsy.
  - intros o Ho. rewrite By3 by done. by apply size_fbyte.
Qed.

Lemma iappend_spec m g e i p : world m g e -> (i < NI)%nat -> 1 <= Z.of_nat i < m_freeinode m ->
  e i + Z.of_nat (length p) <= MAXFILE * BSIZE -> nmeta + total (upd i (e i + Z.of_nat (length p)) e) <= FSSIZE -> Forall byte p ->
  exists m' g', iappend (Z.of_nat i) p m = Ok tt m' /\ world m' g' (upd i (e i + Z.of_nat (length p)) e) /\
    m_freeinode m' = m_freeinode m /\ contents g' i = contents g i ++ p /\ kept_others i g g'.
Proof.
  intros W Hi Hin Hmax Hroom Hp. pose proof (wd_sim _ _ _ W) as Sm. destruct (wd_ext _ _ _ W i Hi) as (He & Hext & Hsz).
  rewrite total_upd in Hroom by done. pose proof (wd_count _ _ _ W) as Hcount.
  pose proof (synced_din m g i Sm (wd_sync _ _ _ W i Hi Hin)) as Hdin. unfold iappend.
  erewrite bind_Ok by by apply sim_rinode. cbv zeta. rewrite (din_size _ _ Hdin), Hsz, xint_id by fslia.
  destruct (iappend_loop_spec (length p) i m g (slice (ioff i) 64 (blkS (ib i) g)) (e i) p) as
    (din1 & m1 & g1 & E1 & Hdin1 & Sm1 & St1 & Kp1 & X1 & Fb1 & Fi1 & By1); try done; [lia|].
  erewrite bind_Ok by exact E1. cbn [fst snd]. set (e' := e i + Z.of_nat (length p)) in *. rewrite xint_id by fslia.
  destruct (finish_inode m1 g1 i din1 e' Sm1 Hi Hdin1 X1) as
    (m3 & g3 & E3 & Sm3 & F3 & X3 & Es3 & Eg3 & Sy3 & Oth3 & By3 & Fb3 & Fi3); [unfold e'; lia|].
  assert (frame i g g3) as F by (eapply frame_trans; [apply St1|exact F3]).
  exists m3, g3. split; [done|].
  split; [|split; [congruence|split; [apply (contents_append g g3 i (e i)); try done|]]].
  - pose proof (wd_free _ _ _ W). apply (world_step m g e i); try done; [unfold e'; lia|lia|rewrite Fi3, Fi1; lia|lia| |].
    + intros k Hk Hkn. rewrite Fi3, Fi1 in Hkn. destruct (decide (k = i)) as [->|Hne]; [done|].
      apply Oth3; [done..|]. eapply synced_keeps; [done|exact Kp1|by apply (fr_other _ _ _ (st_frame _ _ _ St1))|].
      by apply (wd_sync _ _ _ W).
    + intros k Hk Hkn. rewrite Fi3, Fi1 in Hkn. apply Oth3; [done|intros ->; lia|].
      eapply unused_keeps; [done|exact Kp1|]. by apply (wd_unused _ _ _ W).
  - intros o Ho. rewrite By3 by done. by apply By1.
  - split; [intros k; by eapply frame_inode|]. intros j Hj Hne.
    by apply (other_contents i g g3 (sm_disk _ _ Sm) (sm_files _ _ Sm) Hi F).
Qed.

Lemma init_din k : din_ok (st32 8 (xint 0) (st16 6 (xshort 1) (st16 0 (xshort (ity k)) (replicate 64 0)))) (init_inode k).
Proof.
  split; [unfold st32, st16; by rewrite !length_le_put|]. split; [repeat apply le_put_byte; apply Forall_replicate; unfold byte; lia|].
  unfold ity. case_decide as E; unfold holds, load_dinode, init_inode, ity; [rewrite decide_True by done|rewrite decide_False by done]; reflexivity.
Qed.

Lemma sim_freeinode m g n : sim m g -> sim (mset_freeinode n m) g.
Proof. intros Sm. split; apply Sm. Qed.

Lemma ialloc_spec m g e k : world m g e -> m_freeinode m = Z.of_nat k -> Z.of_nat k < 199 ->
  exists m' g', ialloc (ity k) m = Ok (Z.of_nat k) m' /\ world m' g' e /\ m_freeinode m' = Z.of_nat k + 1 /\
    e k = 0 /\ kept_others k g g' /\ contents g' k = [].
Proof.
  intros W En Hk. pose proof (wd_sim _ _ _ W) as Sm. assert (k < NI)%nat as Hkn by lia. pose proof (wd_free _ _ _ W).
  pose proof (wd_init _ _ _ W k Hkn ltac:(lia)) as Ei. destruct (wd_ext _ _ _ W k Hkn) as (He & X & Es).
  assert (e k = 0) as E0 by (rewrite <- Es, Ei; done).
  unfold ialloc. erewrite bind_Ok by done. rewrite En, u32_small by lia. erewrite bind_Ok by done. cbv zeta.
  edestruct (sim_put_inode (mset_freeinode (Z.of_nat k + 1) m) g k) as
    (m3 & g3 & E3 & Sm3 & St3 & Sy3 & Eg3 & Oth3 & By3 & X3 & Fb3 & Fi3); [by apply sim_freeinode|done|rewrite Ei; apply init_din|].
  change (Z.to_nat DINODE_SIZE) with 64%nat. erewrite bind_Ok by exact E3.
  exists m3, g3. split; [done|]. cbn [m_freeinode mset_freeinode] in Fi3. split; [|split; [done|split; [done|split; [|]]]].
  - assert (world m3 g3 (upd k (e k) e)) as W'.
    { apply (world_step m g e k); try done; [apply St3|by apply X3|by rewrite Eg3|rewrite Fb3; simpl; lia|mklia|lia| |].
      - intros l Hl Hln. destruct (decide (l = k)) as [->|Hne]; [done|]. apply Oth3; [done..|].
        apply (wd_sync _ _ _ W); [done|lia].
      - intros l Hl Hln. apply Oth3; [done|intros ->; lia|]. apply (wd_unused _ _ _ W); [done|lia]. }
    eapply world_ext; [|exact W']. intros j. unfold upd. by case_decide; subst.
  - split; [intros j; by rewrite Eg3|]. intros j Hj Hne.
    apply (other_contents k g g3 (sm_disk _ _ Sm) (sm_files _ _ Sm) Hkn (st_frame _ _ _ St3)); done.
  - unfold contents. rewrite Eg3, Es, E0. done.
Qed.

(* ------------------------------------------------------------------ *)
(** ** The blocks in use have owners *)

(** The blocks of a file of [n] bytes. *)
Definition file_blocks g (k : nat) (n : Z) : list Z :=
  map (fun bn => baddr g k (Z.of_nat bn)) (seq 0 (Z.to_nat ((n + BSIZE - 1) / BSIZE))) ++
  if NDIRECT * BSIZE <? n then [iaddr g k] else [].

Lemma length_file_blocks g k n : 0 <= n -> Z.of_nat (length (file_blocks g k n)) = fblocks n.
Proof.
  intros Hn. unfold file_blocks, fblocks. rewrite length_app, length_map, length_seq.
  destruct (_ <? _); cbn [length]; fslia.
Qed.

Lemma file_blocks_owned g k n a : extent g k n -> 0 <= n <= MAXFILE * BSIZE -> a ∈ file_blocks g k n -> owns g k a.
Proof.
  intros X Hn. unfold file_blocks. rewrite elem_of_app. intros [Ha|Ha].
  - apply list_elem_of_fmap in Ha as (bn & -> & Hb%elem_of_seq). assert (0 <= Z.of_nat bn < MAXFILE) by fslia.
    apply baddr_owned; [done|]. apply (ex_b _ _ _ X); [done|fslia].
  - destruct (Z.ltb_spec (NDIRECT * BSIZE) n); [|by apply elem_of_nil in Ha]. apply list_elem_of_singleton in Ha as ->.
    apply ind_owned. by apply (ex_i _ _ _ X).
Qed.

Lemma file_blocks_nodup g k n : extent g k n -> 0 <= n <= MAXFILE * BSIZE -> file_ok g k -> NoDup (file_blocks g k n).
Proof.
  intros X Hn Hf. assert (forall bn, (bn < Z.to_nat ((n + BSIZE - 1) / BSIZE))%nat ->
    0 <= Z.of_nat bn < MAXFILE /\ baddr g k (Z.of_nat bn) <> 0) as Hb.
  { intros bn Hbn. assert (0 <= Z.of_nat bn < MAXFILE) by fslia. split; [done|]. apply (ex_b _ _ _ X); [done|fslia]. }
  unfold file_blocks. apply NoDup_app. split; [|split].
  - apply NoDup_fmap_2_strong; [|apply NoDup_seq]. intros x y Hx%elem_of_seq Hy%elem_of_seq E.
    destruct (Hb x ltac:(lia)), (Hb y ltac:(lia)). apply Nat2Z.inj. by apply (fi_inj _ _ Hf).
  - intros a (bn & -> & Hbn%elem_of_seq)%list_elem_of_fmap. destruct (Hb bn ltac:(lia)).
    destruct (_ <? _); [|apply not_elem_of_nil]. intros E%list_elem_of_singleton. by apply (fi_ind _ _ Hf) in E.
  - destruct (_ <? _); [apply NoDup_singleton|constructor].
Qed.

Lemma elem_of_concat {A} (x : A) (ls : list (list A)) : x ∈ concat ls <-> exists l, l ∈ ls /\ x ∈ l.
Proof. rewrite list_elem_of_In, in_concat. by setoid_rewrite list_elem_of_In. Qed.

Section owners.
Context (m : mkfs) (g : fs flat) (e : nat -> Z) (W : world m g e).

Definition blocks_of (l : list nat) : list Z := concat (map (fun k => file_blocks g k (e k)) l).

Lemma world_size k : (k < NI)%nat -> extent g k (e k) /\ 0 <= e k <= MAXFILE * BSIZE.
Proof.
  intros Hk. destruct (wd_ext _ _ _ W k Hk) as (_ & X & Es). split; [done|]. rewrite <- Es.
  apply (fi_size _ _ (fs_file _ (sm_files _ _ (wd_sim _ _ _ W)) k Hk)).
Qed.

Lemma blocks_of_owned l a : Forall (fun k => (k < NI)%nat) l -> a ∈ blocks_of l -> exists k, k ∈ l /\ owns g k a.
Proof.
  intros Hl (bs & (k & -> & Hk)%list_elem_of_fmap & Ha)%elem_of_concat. exists k. split; [done|].
  eapply Forall_forall in Hl; [|done]. destruct (world_size k Hl). by eapply file_blocks_owned.
Qed.

Lemma blocks_of_nodup l : NoDup l -> Forall (fun k => (k < NI)%nat) l -> NoDup (blocks_of l).
Proof.
  induction 1 as [|k l Hk Hnd IH]; intros Hl; [constructor|]. apply Forall_cons in Hl as [Hkn Hl].
  destruct (world_size k Hkn) as [X Hn]. pose proof (sm_files _ _ (wd_sim _ _ _ W)) as Hf.
  unfold blocks_of. cbn [map concat]. apply NoDup_app. split; [apply file_blocks_nodup; [done..|by apply Hf]|]. split; [|by apply IH].
  intros a Ha Ha'. apply (blocks_of_owned l a Hl) in Ha' as (j & Hj & Hoj). eapply Forall_forall in Hl; [|done].
  apply (fs_disj _ Hf k j a); try done; [congruence|]. by eapply file_blocks_owned.
Qed.

Lemma length_blocks_of l : Forall (fun k => (k < NI)%nat) l -> Z.of_nat (length (blocks_of l)) = sumf l e.
Proof.
  induction 1 as [|k l Hk Hl IH]; [done|]. unfold blocks_of in *. cbn [map concat]. rewrite length_app, Nat2Z.inj_add, IH.
  rewrite length_file_blocks by by apply (world_size k). done.
Qed.

(** Every block that was handed out belongs to an inode in use. *)
Lemma world_owner b : nmeta <= b < m_freeblock m -> exists k, 1 <= Z.of_nat k < m_freeinode m /\ (k < NI)%nat /\ owns g k b.
Proof.
  intros Hb. pose proof (wd_count _ _ _ W) as Hc. set (l := seq 0 NI).
  assert (Forall (fun k => (k < NI)%nat) l) as Hl by (apply Forall_forall; intros k Hk%elem_of_seq; lia).
  assert (Z.of_nat (length (blocks_of l)) = total e) as Hlen by by apply length_blocks_of.
  assert (blocks_of l ≡ₚ seqZ nmeta (total e)) as Hperm.
  { apply submseteq_length_Permutation; [|rewrite length_seqZ; lia].
    apply NoDup_submseteq; [apply blocks_of_nodup; [apply NoDup_seq|done]|].
    intros a (k & Hk%elem_of_seq & Ho)%blocks_of_owned; [|done]. apply elem_of_seqZ.
    pose proof (sim_owned _ _ (wd_sim _ _ _ W) k a ltac:(lia) Ho). lia. }
  assert (b ∈ blocks_of l) as Hin by (rewrite Hperm; apply elem_of_seqZ; lia).
  apply elem_of_concat in Hin as (bs & (k & -> & Hk)%list_elem_of_fmap & Ha). apply elem_of_seq in Hk.
  destruct (world_size k ltac:(lia)) as [X Hn]. exists k. split; [|split; [lia|by eapply file_blocks_owned]].
  assert (e k <> 0) as Hne by (intros E; rewrite E in Ha; by apply elem_of_nil in Ha). split.
  - destruct k; [|lia]. by rewrite (wd_zero _ _ _ W) in Hne.
  - destruct (decide (m_freeinode m <= Z.of_nat k)) as [Hge|]; [|lia]. exfalso. apply Hne.
    destruct (wd_ext _ _ _ W k ltac:(lia)) as (_ & _ & <-). by rewrite (wd_init _ _ _ W) by lia.
Qed.

End owners.

(* ------------------------------------------------------------------ *)
(** ** The empty file system *)

Definition g0 : fs flat :=
  Fs SB (BlocksSt (<[BMAP := bits 47]> (<[1 := put_sb SB zero_block]> ∅)) [] [] 0) false
    (map init_inode (seq 0 NI)) 0 0 ∅ [].

Lemma g0_blk b : blkS b g0 = if decide (b = BMAP) then bits 47 else if decide (b = 1) then put_sb SB zero_block else zero_block.
Proof.
  unfold blkS, blk, g0. cbn [f_blk bk_data]. destruct (decide (b = BMAP)) as [->|]; [by rewrite lookup_insert_eq|].
  rewrite lookup_insert_ne by done. destruct (decide (b = 1)) as [->|]; [by rewrite lookup_insert_eq|].
  by rewrite lookup_insert_ne, lookup_empty by done.
Qed.

Lemma g0_geti k : (k < NI)%nat -> geti k g0 = init_inode k.
Proof. intros Hk. unfold geti, g0. cbn [f_itab]. by rewrite list_lookup_fmap, lookup_seq_lt. Qed.

Lemma g0_addr k n : (k < NI)%nat -> addr_of n (geti k g0) = 0.
Proof.
  intros Hk. unfold addr_of. rewrite g0_geti by done. cbn [init_inode i_addrs].
  destruct (replicate 13 0 !! n) as [x|] eqn:E; [|done]. by apply lookup_replicate in E as [-> _].
Qed.
Lemma g0_baddr k bn : (k < NI)%nat -> baddr g0 k bn = 0.
Proof. intros Hk. unfold baddr, iaddr. rewrite !g0_addr by done. by destruct (_ <? _). Qed.
Lemma g0_owns k a : (k < NI)%nat -> ~ owns g0 k a.
Proof.
  intros Hk [Ha [E|(bn & _ & E)]]; [unfold iaddr in E; rewrite g0_addr in E by done|rewrite g0_baddr in E by done]; congruence.
Qed.

Lemma g0_disk : disk_ok g0.
Proof.
  split.
  - intros b. rewrite g0_blk. repeat case_decide; [apply bits_block|apply put_addrs_block|]; apply is_block_zero.
  - change (sb_size (f_sb g0)) with 2000. lia.
  - intros b. rewrite bitmap_46, inode_33 by done. lia.
  - intros b Hb Hu. rewrite bitmap_46, inode_33 by done. change (sb_size (f_sb g0)) with 2000 in Hb.
    assert (47 <= b) as Hge; [|lia]. unfold used, BBLOCK in Hu. change (f_sb g0) with SB in Hu.
    replace (b / BPB + sb_bmapstart SB) with BMAP in Hu by mklia. rewrite g0_blk, decide_True in Hu by done.
    rewrite bits_used in Hu by mklia. apply Z.ltb_ge in Hu. mklia.
Qed.

Lemma g0_file k : (k < NI)%nat -> file_ok g0 k.
Proof.
  intros Hk. split.
  - unfold g0. cbn [f_itab]. by rewrite length_map, length_seq.
  - by rewrite g0_geti.
  - rewrite g0_geti by done. cbn [init_inode i_inum]. change (sb_ninodes (f_sb g0)) with 200. lia.
  - by rewrite g0_geti.
  - intros a Ha. by apply g0_owns in Ha.
  - intros bn bn' _ _. by rewrite g0_baddr.
  - intros bn _. by rewrite g0_baddr.
  - rewrite g0_geti by done. cbn [init_inode i_size]. fslia.
  - intros bn Hbn. rewrite g0_geti by done. cbn [init_inode i_size]. fslia.
Qed.

Lemma g0_extent k : (k < NI)%nat -> extent g0 k 0.
Proof.
  intros Hk. split.
  - intros bn Hbn. rewrite g0_baddr by done. fslia.
  - unfold iaddr. rewrite g0_addr by done. fslia.
  - intros o _. unfold fbyte. by rewrite g0_baddr.
Qed.

Lemma zero_loop n a m : 0 <= a -> a + Z.of_nat n <= FSSIZE ->
  exists m', for_range n a (fun i => wsect i zero_block) m = Ok tt m' /\
    m' = mset_img (fun _ => m_img m') m /\
    forall b, m_img m' !! b = if decide (a <= b < a + Z.of_nat n) then Some zero_block else m_img m !! b.
Proof.
  revert a m. induction n as [|n IH]; intros a m Ha Hn; cbn [for_range].
  - exists m. split; [done|]. split; [by destruct m|]. intros b. by rewrite decide_False by lia.
  - unfold wsect at 1. rewrite sector_id by lia. erewrite bind_Ok by done.
    destruct (IH (a + 1) (mset_img <[a := zero_block]> m)) as (m' & E & Em & Hb); [lia..|].
    exists m'. split; [done|]. split; [rewrite Em at 1; by destruct m|]. intros b. rewrite Hb. cbn [m_img mset_img].
    destruct (decide (b = a)) as [->|Hne].
    + rewrite lookup_insert_eq, decide_False, decide_True by lia. done.
    + rewrite lookup_insert_ne by done. repeat case_decide; (done || lia).
Qed.

Lemma world0 m : m_sb m = SB -> m_freeinode m = 1 -> m_freeblock m = nmeta ->
  (forall b, m_img m !! b = if decide (on_disk b) then Some (if decide (b = 1) then put_sb SB zero_block else zero_block) else None) ->
  world m g0 (fun _ => 0).
Proof.
  intros Esb Ei Eb Himg. assert (total (fun _ => 0) = 0) as Et by (vm_compute; reflexivity). split.
  - split.
    + by split.
    + intros b Hb. rewrite Himg, g0_blk, (decide_False (P := b = BMAP)) by done. done.
    + intros b Hb. rewrite g0_blk. unfold on_disk in Hb. rewrite !decide_False by mklia. done.
    + rewrite g0_blk, Eb, decide_True by done. reflexivity.
    + rewrite Eb. mklia.
    + intros b Hb. rewrite g0_blk, Eb in *. rewrite !decide_False by mklia. done.
    + intros b Hb. rewrite g0_blk, decide_False by lia. done.
    + intros k a Hk Ha. by apply g0_owns in Ha.
    + apply g0_disk.
    + split; [apply g0_file|by intros; rewrite g0_geti|]. intros k l a Hk _ _ Ha. by apply g0_owns in Ha.
  - intros k Hk. split; [done|]. split; [by apply g0_extent|by rewrite g0_geti].
  - done.
  - rewrite Et. lia.
  - rewrite Ei. mklia.
  - rewrite Ei. lia.
  - intros k Hk _. unfold unused. pose proof (ib_range k Hk). rewrite g0_blk, !decide_False by lia.
    unfold di_type, ld16. assert (forall n x, le_get n x zero_block = 0) as ->; [|done].
    induction n as [|n IH]; intros x; cbn [le_get]; [done|]. by rewrite IH, zero_block_byte.
  - intros k Hk _. by apply g0_geti.
Qed.
