(* ===== verification/MkfsBoot.v ===== *)
(** * Booting from the image mkfs builds

   main() of mkfs, and the kernel's view of the image it leaves: the root
   directory has the names mkfs was given, and each file its bytes. *)

From stdpp Require Import base numbers list gmap strings.
From Stdlib Require Import ZArith Lia.
From S2P Require Import Prelude Params Cmem KString Sleeplock UserMem Fs FsInv FsMap FsBmap FsWrite FsFile FsDir FsView.
From S2P Require Import Mkfs MkfsSim MkfsOps MkfsImage.

Implicit Types (g : fs flat) (m : mkfs) (e : nat -> Z).

(* ------------------------------------------------------------------ *)
(** ** Adding files *)

Lemma kept_trans i g g1 g2 : kept_others i g g1 -> kept_others i g1 g2 -> kept_others i g g2.
Proof.
  intros [H1 H2] [H3 H4]. split.
  - intros k. destruct (H1 k), (H3 k). split; congruence.
  - intros j Hj Hne. by rewrite H4, H2.
Qed.

Lemma append_all_spec reads m g e i : world m g e -> (i < NI)%nat -> 1 <= Z.of_nat i < m_freeinode m ->
  e i + Z.of_nat (length (concat reads)) <= MAXFILE * BSIZE ->
  nmeta + total (upd i (e i + Z.of_nat (length (concat reads))) e) <= FSSIZE -> Forall byte (concat reads) ->
  exists m' g', append_all (Z.of_nat i) reads m = Ok tt m' /\
    world m' g' (upd i (e i + Z.of_nat (length (concat reads))) e) /\
    m_freeinode m' = m_freeinode m /\ contents g' i = contents g i ++ concat reads /\ kept_others i g g'.
Proof.
  revert m g e. induction reads as [|p reads IH]; intros m g e W Hi Hin Hmax Hroom Hb; cbn [append_all concat] in *.
  - exists m, g. split; [done|]. split; [eapply world_ext; [|exact W]; intros k; unfold upd; cbn [length]; case_decide; subst; lia|].
    split; [done|]. split; [by rewrite app_nil_r|]. split; [intros k; by split|done].
  - rewrite length_app, Nat2Z.inj_add in *. apply Forall_app in Hb as [Hb1 Hb2].
    assert (fblocks (e i + Z.of_nat (length p)) <= fblocks (e i + (Z.of_nat (length p) + Z.of_nat (length (concat reads))))) as Hm
      by (apply fblocks_mono; lia).
    rewrite total_upd in Hroom by done.
    destruct (iappend_spec m g e i p W Hi Hin) as (m1 & g1 & E1 & W1 & Ei1 & C1 & K1); [lia|rewrite total_upd by done; lia|done|].
    destruct (IH m1 g1 _ W1 Hi) as (m2 & g2 & E2 & W2 & Ei2 & C2 & K2); rewrite ?Ei1, ?upd_eq; try done.
    { lia. }
    { rewrite total_upd, upd_eq, total_upd by done.
      replace (e i + Z.of_nat (length p) + Z.of_nat (length (concat reads))) with
        (e i + (Z.of_nat (length p) + Z.of_nat (length (concat reads)))) by lia. lia. }
    exists m2, g2. erewrite bind_Ok by exact E1. split; [done|]. split.
    { eapply world_ext; [|exact W2]. intros k. unfold upd. repeat case_decide; (done || lia). }
    split; [congruence|]. split; [by rewrite C2, C1, app_assoc|by eapply kept_trans].
Qed.

(** The bytes of an entry, and what the kernel finds in them. *)
Lemma mk_dirent_spec inum name : (length name <= 14)%nat -> Forall byte name -> 0 < inum < 65536 ->
  length (mk_dirent inum name) = DE /\ Forall byte (mk_dirent inum name) /\
  live (mk_dirent inum name) = Some (cut (pad 14 name), inum).
Proof.
  intros Hl Hb Hi. unfold mk_dirent. set (z := st16 0 (xshort inum) (replicate (Z.to_nat DIRENT) 0)).
  assert (length z = DE) as Hz by (unfold z, st16; by rewrite length_le_put).
  assert (Forall byte z) as Hzb by (apply le_put_byte, Forall_replicate; unfold byte; lia).
  assert (length (splice 2 name z) = DE) as Hls by (rewrite length_splice by (rewrite Hz; unfold DE; lia); done).
  split; [done|]. split; [unfold splice; rewrite !Forall_app; split; [by apply Forall_take|split; [done|by apply Forall_drop]]|].
  assert (de_inum (splice 2 name z) = inum) as Ei.
  { unfold de_inum, ld16. rewrite (le_get_ext 2 0 _ z).
    - change (le_get 2) with ld16. unfold z. rewrite ld16_st16 by (rewrite length_replicate; unfold DIRENT; lia). rewrite xshort_id by lia. unfold u16. by rewrite Z.mod_small by lia.
    - intros k Hk. apply splice_lookup_out; [rewrite Hz; unfold DE; lia|lia]. }
  unfold live. rewrite Ei, (proj2 (Z.eqb_neq _ 0)) by lia. unfold de_key, de_name. do 3 f_equal.
  apply list_eq. intros k. rewrite lookup_drop. unfold pad. destruct (decide (k < length name)%nat) as [Hk|Hk].
  - rewrite splice_lookup_in by (rewrite ?Hz; unfold DE; lia). rewrite lookup_app_l by done. f_equal. lia.
  - rewrite splice_lookup_out by (rewrite ?Hz; unfold DE; lia). rewrite lookup_app_r by lia.
    destruct (decide (k < 14)%nat) as [Hk'|Hk'].
    + rewrite lookup_replicate_2 by lia. unfold z, st16. rewrite le_put_lookup_ne by lia.
      apply lookup_replicate_2. unfold DIRENT. lia.
    + rewrite !lookup_ge_None_2; [done|rewrite length_replicate; lia|rewrite Hz; unfold DE; lia].
Qed.

(** The name a file gets. *)
Definition file_name (arg : list Z) : list Z := skip_underscore (shortname arg).
Definition file_entry (k : nat) (arg : list Z) : list Z :=
  mk_dirent (Z.of_nat k) (pad (Z.to_nat DIRSIZ) (take (Z.to_nat DIRSIZ) (file_name arg))).

Section files.
Context (host : list Z -> option (list (list Z))).

(** An argument mkfs accepts: a file that can be read, with a short name
    without a slash, and of at most MAXFILE blocks. *)
Definition file_data (arg : list Z) : list Z := concat (default [] (host arg)).
Definition arg_ok (arg : list Z) : Prop :=
  is_Some (host arg) /\ SLASH ∉ shortname arg /\ Z.of_nat (length (file_name arg)) <= DIRSIZ /\
  Forall byte (file_name arg) /\ Forall (fun x => x <> 0) (file_name arg) /\ Forall byte (file_data arg) /\
  Z.of_nat (length (file_data arg)) <= MAXFILE * BSIZE.

Lemma file_entry_spec k arg : arg_ok arg -> (0 < k < NI)%nat ->
  length (file_entry k arg) = DE /\ Forall byte (file_entry k arg) /\
  live (file_entry k arg) = Some (file_name arg, Z.of_nat k).
Proof.
  intros (_ & _ & Hl & Hb & Hnz & _) Hk. unfold file_entry.
  rewrite take_ge by (change (Z.to_nat DIRSIZ) with 14%nat; unfold DIRSIZ in Hl; lia).
  change (Z.to_nat DIRSIZ) with 14%nat. assert (length (pad 14 (file_name arg)) = 14%nat) as Hp
    by (apply length_pad; unfold DIRSIZ in Hl; lia).
  destruct (mk_dirent_spec (Z.of_nat k) (pad 14 (file_name arg))) as (H1 & H2 & H3); [lia| |lia|].
  { apply Forall_app. split; [done|]. apply Forall_replicate. unfold byte. lia. }
  split; [done|]. split; [done|]. rewrite H3. do 2 f_equal.
  unfold pad at 1. rewrite Hp, Nat.sub_diag. cbn [replicate]. rewrite app_nil_r. by apply cut_pad.
Qed.

(** The entries of the root directory, and the blocks the image needs. *)
Definition root_ents (args : list (list Z)) : list (list Z) :=
  mk_dirent 1 [46; 0] :: mk_dirent 1 [46; 46; 0] :: imap (fun j arg => file_entry (2 + j) arg) args.
Definition data_blocks (args : list (list Z)) : Z :=
  foldr (fun arg z => fblocks (Z.of_nat (length (file_data arg))) + z) 0 args.
Definition image_blocks (args : list (list Z)) : Z :=
  fblocks (DIRENT * (2 + Z.of_nat (length args))) + data_blocks args.

Lemma data_blocks_snoc args arg : data_blocks (args ++ [arg]) = data_blocks args + fblocks (Z.of_nat (length (file_data arg))).
Proof. induction args as [|a args IH]; cbn [data_blocks foldr app]; [lia|]. unfold data_blocks in IH. rewrite IH. lia. Qed.
Lemma fblocks_nonneg n : 0 <= n -> 0 <= fblocks n.
Proof. intros Hn. unfold fblocks. fsz. destruct (_ <? _); divlia. Qed.

Lemma image_blocks_app args rest : image_blocks args <= image_blocks (args ++ rest).
Proof.
  induction rest as [|arg rest IH] using rev_ind; [by rewrite app_nil_r|].
  etransitivity; [exact IH|]. rewrite app_assoc. set (l := args ++ rest). unfold image_blocks. rewrite data_blocks_snoc, length_app.
  pose proof (fblocks_nonneg (Z.of_nat (length (file_data arg))) ltac:(lia)). cbn [length].
  pose proof (fblocks_mono (DIRENT * (2 + Z.of_nat (length l))) (DIRENT * (2 + Z.of_nat (length l + 1)))) as Hm.
  unfold DIRENT in *. lia.
Qed.

Lemma concat_16 (l : list (list Z)) : Forall (fun d => length d = DE) l -> length (concat l) = (DE * length l)%nat.
Proof.
  induction 1 as [|d l Hd _ IH]; [done|]. cbn [concat length]. rewrite length_app, Hd, IH. unfold DE. lia.
Qed.

Lemma root_ents_16 args : Forall arg_ok args -> (length args < 198)%nat ->
  Forall (fun d => length d = DE /\ Forall byte d) (root_ents args).
Proof.
  intros Ha Hl. unfold root_ents. repeat apply Forall_cons_2.
  { destruct (mk_dirent_spec 1 [46; 0]) as (? & ? & _); [simpl; lia|bytes|lia|done]. }
  { destruct (mk_dirent_spec 1 [46; 46; 0]) as (? & ? & _); [simpl; lia|bytes|lia|done]. }
  apply Forall_lookup_2. intros j d Hj. rewrite list_lookup_imap in Hj.
  destruct (args !! j) as [arg|] eqn:E; [|done]. injection Hj as <-. pose proof (lookup_lt_Some _ _ _ E).
  eapply Forall_lookup_1 in Ha; [|exact E]. destruct (file_entry_spec (2 + j) arg Ha) as (? & ? & _); [lia|done].
Qed.

Lemma root_ents_snoc args arg : root_ents (args ++ [arg]) = root_ents args ++ [file_entry (2 + length args) arg].
Proof. unfold root_ents. rewrite imap_app. cbn [imap app]. unfold compose. by rewrite Nat.add_0_r. Qed.

(** The image has these files. *)
Record built m g e (args : list (list Z)) : Prop := {
  bt_world : world m g e;
  bt_free : m_freeinode m = 2 + Z.of_nat (length args);
  bt_root : contents g 1 = concat (root_ents args);
  bt_size : e 1%nat = DIRENT * (2 + Z.of_nat (length args));
  bt_file j arg : args !! j = Some arg -> contents g (2 + j) = file_data arg;
  bt_total : total e = image_blocks args;
  bt_inode k : (k < NI)%nat -> same_inode (init_inode k) (geti k g)
}.

Lemma same_trans a b c : same_inode a b -> same_inode b c -> same_inode a c.
Proof. intros [] []. split; congruence. Qed.

Lemma add_file_spec m g e args arg : built m g e args -> arg_ok arg -> (length args < 197)%nat ->
  nmeta + image_blocks (args ++ [arg]) <= FSSIZE ->
  exists m' g' e', add_file host 1 arg m = Ok tt m' /\ built m' g' e' (args ++ [arg]).
Proof.
  intros B Ha Hn Hroom. destruct B as [W Hf Hroot Hsz Hfile Htot Hino].
  set (k := (2 + length args)%nat). assert (m_freeinode m = Z.of_nat k) as Ek by (unfold k; lia).
  destruct (file_entry_spec k arg Ha ltac:(unfold k; lia)) as (Hel & Heb & _).
  pose proof Ha as ([reads Hh] & Hslash & Hlen & _ & _ & Hdb & Hdl). pose proof (Hfile) as Hfile0.
  assert (concat reads = file_data arg) as Ed by (unfold file_data; by rewrite Hh).
  unfold image_blocks in Hroom. rewrite data_blocks_snoc, length_app in Hroom. cbn [length] in Hroom. unfold image_blocks in Htot.
  replace (DIRENT * (2 + Z.of_nat (length args + 1))) with (e 1%nat + DIRENT) in Hroom by (rewrite Hsz; unfold DIRENT; lia).
  pose proof (fblocks_nonneg (Z.of_nat (length (file_data arg))) ltac:(lia)) as Hnn. rewrite <- Hsz in Htot.
  destruct (ialloc_spec m g e k W Ek ltac:(unfold k; lia)) as (m1 & g1 & E1 & W1 & F1 & E0 & K1 & C1).
  replace (ity k) with T_FILE in E1 by (unfold ity; by rewrite decide_False by (unfold k; lia)).
  destruct (iappend_spec m1 g1 e 1 (file_entry k arg) W1) as (m2 & g2 & E2 & W2 & F2 & C2 & K2).
  { lia. } { lia. } { rewrite Hel, Hsz. unfold DE, DIRENT. fslia. }
  { rewrite total_upd, Hel by lia. change (Z.of_nat DE) with DIRENT. lia. } { done. }
  rewrite Hel in W2. change (Z.of_nat DE) with DIRENT in W2.
  destruct (append_all_spec reads m2 g2 _ k W2) as (m3 & g3 & E3 & W3 & F3 & C3 & K3); rewrite ?Ed.
  { unfold k. lia. } { lia. } { rewrite upd_ne, E0 by (unfold k; lia). lia. }
  { rewrite total_upd, upd_ne, E0, total_upd by (unfold k; lia). change (fblocks 0) with 0. rewrite Z.add_0_l. lia. } { done. }
  rewrite Ed in *. rewrite upd_ne, E0, Z.add_0_l in W3 by (unfold k; lia).
  exists m3, g3. eexists. split.
  - unfold add_file, assert. rewrite bool_decide_true by done. erewrite bind_Ok by done. rewrite Hh. cbv zeta.
    fold (file_name arg). rewrite (proj2 (Z.leb_le _ _)) by done. erewrite bind_Ok by done.
    erewrite bind_Ok by exact E1. change (Z.of_nat 1) with 1 in E2. erewrite bind_Ok by exact E2. exact E3.
  - split; [exact W3| | | | | |].
    + rewrite length_app. cbn [length]. lia.
    + destruct K3 as [_ K3]. rewrite K3 by (unfold k; lia). rewrite C2. destruct K1 as [_ K1]. rewrite K1 by (unfold k; lia).
      rewrite Hroot, root_ents_snoc, concat_app. cbn [concat]. by rewrite app_nil_r.
    + rewrite upd_ne, upd_eq, Hsz, length_app by (unfold k; lia). cbn [length]. unfold DIRENT. lia.
    + intros j a Hj. destruct (decide (j < length args)%nat) as [Hlt|Hge].
      * rewrite lookup_app_l in Hj by done. destruct K1 as [_ K1], K2 as [_ K2], K3 as [_ K3].
        rewrite K3, K2, K1 by (unfold k; lia). by apply Hfile.
      * rewrite lookup_app_r in Hj by lia. destruct (j - length args)%nat eqn:Ej; [|done]. injection Hj as <-.
        replace (2 + j)%nat with k by (unfold k; lia). rewrite C3. destruct K2 as [_ K2]. rewrite K2, C1 by (unfold k; lia). done.
    + rewrite total_upd, upd_ne, E0, total_upd by (unfold k; lia). change (fblocks 0) with 0.
      unfold image_blocks. rewrite data_blocks_snoc, length_app. cbn [length].
      replace (DIRENT * (2 + Z.of_nat (length args + 1))) with (e 1%nat + DIRENT) by (rewrite Hsz; unfold DIRENT; lia). lia.
    + intros j Hj. eapply same_trans; [by apply Hino|]. eapply same_trans; [apply K1|]. eapply same_trans; [apply K2|apply K3].
Qed.

Lemma add_files_spec rest args m g e : built m g e args -> Forall arg_ok rest -> (length (args ++ rest) < 198)%nat ->
  nmeta + image_blocks (args ++ rest) <= FSSIZE ->
  exists m' g' e', add_files host 1 rest m = Ok tt m' /\ built m' g' e' (args ++ rest).
Proof.
  revert args m g e. induction rest as [|arg rest IH]; intros args m g e B Ha Hn Hroom; cbn [add_files].
  - exists m, g, e. by rewrite app_nil_r.
  - apply Forall_cons in Ha as [Ha Hrest]. replace (args ++ arg :: rest) with ((args ++ [arg]) ++ rest) in * by by rewrite <- app_assoc.
    pose proof (image_blocks_app (args ++ [arg]) rest). rewrite !length_app in Hn. cbn [length] in Hn.
    destruct (add_file_spec m g e args arg B Ha) as (m1 & g1 & e1 & E1 & B1); [lia|lia|].
    destruct (IH (args ++ [arg]) m1 g1 e1 B1 Hrest) as (m2 & g2 & e2 & E2 & B2); [rewrite !length_app; cbn [length]; lia|done|].
    exists m2, g2, e2. by erewrite bind_Ok by exact E1.
Qed.

(* ------------------------------------------------------------------ *)
(** ** main() *)

(** mkfs puts the size of the root directory up to a whole block. *)
Definition root_size (args : list (list Z)) : Z := (DIRENT * (2 + Z.of_nat (length args)) / BSIZE + 1) * BSIZE.
Definition files_fit (args : list (list Z)) : Prop :=
  Forall arg_ok args /\ Z.of_nat (length args) + 2 < NINODES /\ (Z.of_nat (length args) + 2) mod 64 <> 0 /\
  nmeta + image_blocks args <= FSSIZE.

Lemma root_size_mod args : root_size args mod DIRENT = 0.
Proof. unfold root_size, DIRENT. fslia. Qed.

(** The image, as the kernel state [g] sees it. *)
Record final m g (args : list (list Z)) : Prop := {
  fn_img b : default zero_block (m_img m !! b) = blkS b g;
  fn_sb : f_sb g = SB;
  fn_low b : 0 <= b < 33 -> blkS b g = low_block b;
  fn_disk : disk_ok g;
  fn_files : files g;
  fn_root : contents g 1 = concat (root_ents args) ++ replicate (Z.to_nat (root_size args) - length (concat (root_ents args))) 0;
  fn_data j arg : args !! j = Some arg -> contents g (2 + j) = file_data arg;
  fn_inode k : (0 < k < 2 + length args)%nat -> synced g k /\ same_inode (init_inode k) (geti k g);
  fn_unused k : (2 + length args <= k < NI)%nat -> unused g k;
  fn_used b : 0 <= b < FSSIZE -> used g b = true <-> b < nmeta \/ exists k, (0 < k < 2 + length args)%nat /\ owns g k b
}.

(** The blocks in use are mkfs's own and those of the files. *)
Lemma world_used m g e n b : world m g e -> m_freeinode m = 2 + Z.of_nat n -> 0 <= b < FSSIZE ->
  used g b = true <-> b < nmeta \/ exists k, (0 < k < 2 + n)%nat /\ owns g k b.
Proof.
  intros W Hf Hb. pose proof (wd_sim _ _ _ W) as Sm. rewrite (sim_used _ _ Sm) by done. rewrite Z.ltb_lt. split.
  - intros Hlt. destruct (decide (b < nmeta)) as [|Hge]; [by left|right].
    destruct (world_owner m g e W b ltac:(lia)) as (k & Hk & _ & Ho). exists k. split; [lia|done].
  - pose proof (sm_free _ _ Sm). pose proof (wd_free _ _ _ W). mkz. intros [Hlt|(k & Hk & Ho)]; [lia|].
    apply (sim_owned _ _ Sm k b ltac:(lia) Ho).
Qed.

Lemma main_start : exists m, (modify (mset_img (fun _ => ∅)) ;; modify (mset_sb mkfs_sb) ;; modify (mset_freeblock nmeta) ;;
    for_range (Z.to_nat FSSIZE) 0 (fun i => wsect i zero_block) ;; wsect 1 (put_sb mkfs_sb zero_block)) mkfs0 = Ok tt m /\
  world m g0 (fun _ => 0) /\ m_freeinode m = 1.
Proof.
  erewrite bind_Ok by done. erewrite bind_Ok by done. erewrite bind_Ok by done. rewrite mkfs_sb_eq.
  destruct (zero_loop (Z.to_nat FSSIZE) 0 (MkfsSt ∅ SB 1 nmeta)) as (m & E & Em & Hb); [lia|done|].
  erewrite bind_Ok by exact E. eexists. split; [done|]. destruct m as [img sb fi fb]. cbn in Em. injection Em as -> -> ->.
  split; [|done]. apply world0; [done..|].
  intros b. cbn [m_img mset_img]. change (sector 1) with 1. destruct (decide (b = 1)) as [->|Hne].
  - by rewrite lookup_insert_eq.
  - rewrite lookup_insert_ne, Hb by done. unfold on_disk. change (0 + Z.of_nat (Z.to_nat FSSIZE)) with FSSIZE.
    by repeat case_decide.
Qed.

(** The root directory with "." and ".." *)
Lemma main_root m : world m g0 (fun _ => 0) -> m_freeinode m = 1 ->
  exists m1 m2 m3 g e, ialloc T_DIR m = Ok 1 m1 /\ iappend 1 (mk_dirent 1 [46; 0]) m1 = Ok tt m2 /\
    iappend 1 (mk_dirent 1 [46; 46; 0]) m2 = Ok tt m3 /\ built m3 g e [].
Proof.
  intros W Ef. destruct (ialloc_spec m g0 _ 1 W Ef ltac:(lia)) as (m1 & g1 & E1 & W1 & F1 & _ & K1 & C1).
  destruct (mk_dirent_spec 1 [46; 0]) as (L1 & B1 & _); [simpl; lia|bytes|lia|].
  destruct (mk_dirent_spec 1 [46; 46; 0]) as (L2 & B2 & _); [simpl; lia|bytes|lia|].
  destruct (iappend_spec m1 g1 _ 1 (mk_dirent 1 [46; 0]) W1) as (m2 & g2 & E2 & W2 & F2 & C2 & K2);
    [lia|lia|done|done|done|].
  destruct (iappend_spec m2 g2 _ 1 (mk_dirent 1 [46; 46; 0]) W2) as (m3 & g3 & E3 & W3 & F3 & C3 & K3);
    [lia|lia|done|done|done|].
  exists m1, m2, m3, g3. eexists. split; [exact E1|]. split; [exact E2|]. split; [exact E3|].
  split; [exact W3|cbn [length]; lia| |reflexivity|done|vm_compute; reflexivity|].
  - rewrite C3, C2, C1. reflexivity.
  - intros k Hk. rewrite <- (g0_geti k Hk). eapply same_trans; [apply K1|]. eapply same_trans; [apply K2|apply K3].
Qed.

(** The bytes after the old size of the root are zero. *)
Lemma contents_grow g g' i n x : 0 <= n <= x -> x <= MAXFILE * BSIZE -> i_size (geti i g) = n -> i_size (geti i g') = x ->
  (forall o, 0 <= o < MAXFILE * BSIZE -> fbyte g' i o = fbyte g i o) -> (forall o, n <= o < x -> fbyte g' i o = 0) ->
  contents g' i = contents g i ++ replicate (Z.to_nat x - length (contents g i)) 0.
Proof.
  intros Hn Hx Es Es' Hb Hz. rewrite length_contents, Es. apply list_eq. intros k.
  destruct (decide (k < Z.to_nat x)%nat) as [Hk|Hk].
  2: { rewrite !lookup_ge_None_2; [done|rewrite length_app, length_replicate|]; rewrite length_contents; lia. }
  rewrite contents_lookup by lia. destruct (decide (k < Z.to_nat n)%nat) as [Hlt|Hge].
  - rewrite lookup_app_l, contents_lookup, Hb by (rewrite ?length_contents; lia). done.
  - rewrite lookup_app_r by (rewrite length_contents; lia). rewrite lookup_replicate_2 by (rewrite length_contents; lia).
    by rewrite Hz by lia.
Qed.

(** The last steps of main(): the size of the root and the bitmap. *)
Definition main_end : M mkfs unit :=
  let* din := rinode 1 in
  let off := xint (ld32 8 din) in
  let off := u32 ((off / BSIZE + 1) * BSIZE) in
  winode 1 (st32 8 (xint off) din) ;;
  let* b := gets m_freeblock in
  balloc b.

Lemma main_end_spec m g e args : built m g e args -> files_fit args -> exists m' g', main_end m = Ok tt m' /\ final m' g' args.
Proof.
  intros B (Hok & Hn & Hmod & Hroom). pose proof (bt_world _ _ _ _ B) as W. pose proof (wd_sim _ _ _ W) as Sm.
  pose proof (bt_free _ _ _ _ B) as Hf. pose proof (bt_size _ _ _ _ B) as Hsz.
  destruct (wd_ext _ _ _ W 1%nat ltac:(lia)) as (He & X & Es). mkz. unfold DIRENT in *.
  assert (synced g 1) as Sy by (apply (wd_sync _ _ _ W); lia). pose proof (synced_din m g 1 Sm Sy) as Hdin.
  unfold main_end. erewrite bind_Ok by (apply (sim_rinode m g 1); [done|lia]). cbv zeta.
  rewrite (din_size _ _ Hdin), Es, (xint_id (e 1%nat)) by mklia.
  set (x := (e 1%nat / BSIZE + 1) * BSIZE). assert (e 1%nat < x <= 4096 /\ (e 1%nat - 1) / BSIZE = (x - 1) / BSIZE) as [Hx Hq].
  { unfold x. rewrite Hsz. split; mklia. }
  rewrite u32_small, xint_id by (unfold x in *; mklia).
  assert (extent g 1 x) as X1 by (apply (extent_within g 1 (e 1%nat)); [lia|done|done]).
  destruct (finish_inode m g 1 _ x Sm ltac:(lia) Hdin X1) as
    (m3 & g3 & E3 & Sm3 & F3 & X3 & Es3 & Eg3 & Sy3 & Oth3 & By3 & Fb3 & Fi3); [mklia|].
  change (Z.of_nat 1) with 1 in E3. erewrite bind_Ok by exact E3. erewrite bind_Ok by done.
  pose proof (sm_free _ _ Sm3) as Hfr. unfold balloc, assert. rewrite (proj2 (Z.ltb_lt _ _)) by mklia.
  erewrite bind_Ok by done. erewrite bind_Ok by done. rewrite (proj1 (sm_sb _ _ Sm3)). unfold wsect.
  change (sector (sb_bmapstart SB)) with BMAP. eexists _, g3. split; [done|].
  assert (forall k, (k < NI)%nat -> k <> 1%nat -> contents g3 k = contents g k) as Hoth.
  { intros k Hk Hne. by apply (other_contents 1 g g3 (sm_disk _ _ Sm) (sm_files _ _ Sm) ltac:(lia) F3). }
  assert (world m3 g3 (upd 1 x e)) as W3.
  { apply (world_step m g e 1); try done; [lia|lia|rewrite Fb3, (fblocks_within (e 1%nat) x); lia|rewrite Fi3, Hf; mklia|lia| |].
    - intros k Hk Hkn. destruct (decide (k = 1%nat)) as [->|Hne]; [done|]. apply Oth3; [done..|]. apply (wd_sync _ _ _ W); [done|lia].
    - intros k Hk Hkn. apply Oth3; [done|lia|]. apply (wd_unused _ _ _ W); [done|lia]. }
  split.
  - intros b. cbn [m_img mset_img]. destruct (decide (b = BMAP)) as [->|Hne].
    + rewrite lookup_insert_eq. simpl. by rewrite (sm_bits _ _ Sm3).
    + rewrite lookup_insert_ne, (sm_img _ _ Sm3) by done. case_decide; [done|]. symmetry. by apply (sm_out _ _ Sm3).
  - apply Sm3.
  - apply Sm3.
  - apply Sm3.
  - apply Sm3.
  - rewrite <- (bt_root _ _ _ _ B). unfold root_size, DIRENT. rewrite <- Hsz. fold x.
    apply (contents_grow g g3 1 (e 1%nat) x); [lia|mklia|done|done|done|].
    intros o Ho. rewrite By3 by mklia. apply (ex_z _ _ _ X). mklia.
  - intros j arg Hj. pose proof (lookup_lt_Some _ _ _ Hj). rewrite Hoth by lia. by apply (bt_file _ _ _ _ B).
  - intros k Hk. split.
    + destruct (decide (k = 1%nat)) as [->|Hne]; [done|]. apply Oth3; [lia|done|]. apply (wd_sync _ _ _ W); lia.
    + eapply same_trans; [apply (bt_inode _ _ _ _ B); lia|by eapply frame_inode].
  - intros k Hk. apply Oth3; [lia|lia|]. apply (wd_unused _ _ _ W); lia.
  - intros b Hb. apply (world_used m3 g3 (upd 1 x e)); [done|by rewrite Fi3|done].
Qed.

Lemma main_spec args : files_fit args -> exists m g, main host args mkfs0 = Ok tt m /\ final m g args.
Proof.
  intros Hfit. pose proof Hfit as (Hok & Hn & _ & Hroom). mkz. destruct main_start as (m0 & E0 & W0 & F0).
  destruct (main_root m0 W0 F0) as (m1 & m2 & m3 & g & e & E1 & E2 & E3 & B).
  destruct (add_files_spec args [] m3 g e B Hok) as (m4 & g4 & e4 & E4 & B4); [cbn [app]; lia|done|]. cbn [app] in B4.
  destruct (main_end_spec m4 g4 e4 args B4 Hfit) as (m5 & g5 & E5 & Hfin).
  exists m5, g5. split; [|done]. unfold main. change (replicate (Z.to_nat BSIZE) 0) with zero_block.
  erewrite bind_Ok by done. erewrite bind_Ok by done.
  do 4 (apply bind_Ok_inv in E0 as ([] & ? & P & E0); erewrite bind_Ok by exact P; clear P).
  erewrite bind_Ok by exact E0. erewrite bind_Ok by exact E1. erewrite bind_Ok by done.
  erewrite bind_Ok by exact E2. erewrite bind_Ok by exact E3. erewrite bind_Ok by exact E4. exact E5.
Qed.
End files.

(* ------------------------------------------------------------------ *)
(** ** The kernel's view *)

Section boot.
Context {U : Type} `{UserMem U} `{WakeBudget}.
Implicit Types t : fs U.

(** The disk is the image. *)
Definition booted (img : gmap Z (list Z)) t : Prop := bk_data (f_blk t) = img /\ f_sb t = mkfs_sb.

(** An entry read from disk is the inode of the image. *)
Lemma loaded_same t g i k : (forall b, blkS b t = blkS b g) -> f_sb t = SB -> synced g k -> loaded t i (Z.of_nat k) ->
  i_addrs (geti i t) = i_addrs (geti k g) /\ i_size (geti i t) = i_size (geti k g) /\ same_inode (geti k g) (geti i t).
Proof.
  intros Hblk Esb Sy (_ & _ & _ & Hl). unfold synced in Sy. rewrite Esb, Hblk in Hl.
  apply holds_inv in Sy as (A1 & A2 & A3 & A4 & A5 & A6).
  apply holds_inv in Hl as (B1 & B2 & B3 & B4 & B5 & B6). split; [congruence|]. split; [congruence|]. split; congruence.
Qed.

(** [t] with inode [k] of the disk as its only inode in memory; and the
    blocks the inode on disk has. *)
Definition with_inode t (k : Z) : fs U :=
  set_itab (fun _ => [load_dinode (dinode_off k) (blkS (IBLOCK k (f_sb t)) t)
    (Inode ROOTDEV k 1 initsleeplock true 0 0 0 0 0 [])]) t.
Definition disk_owns t (k b : Z) : Prop := owns (with_inode t k) 0 b.

Lemma with_inode_loaded t k : loaded (with_inode t k) 0 k.
Proof. split; [simpl; lia|]. done. Qed.

(** ** The root directory *)

Lemma dent_app d l k : length d = DE -> dent (d ++ l) (S k) = dent l k.
Proof.
  intros Hd. unfold dent, slice. rewrite drop_app_ge by (rewrite Hd; unfold DE; lia). do 2 f_equal. rewrite Hd. unfold DE. lia.
Qed.

Lemma dents_concat l : Forall (fun d => length d = DE) l -> dents (concat l) = l.
Proof.
  intros Hl. apply list_eq. intros k. pose proof (concat_16 l Hl) as Hlen.
  assert (length (concat l) / DE = length l)%nat as Hn by (rewrite Hlen, Nat.mul_comm; by apply Nat.div_mul).
  destruct (decide (k < length l)%nat) as [Hk|Hk].
  2: { rewrite !lookup_ge_None_2; [done|lia|rewrite length_dents; lia]. }
  rewrite dents_lookup by lia. clear Hlen Hn. revert k Hk. induction Hl as [|d l Hd Hl IH]; intros k Hk; [simpl in Hk; lia|].
  cbn [concat]. destruct k as [|k].
  - unfold dent, slice. rewrite Nat.mul_0_r, drop_0. simpl. f_equal. apply take_app_length'. done.
  - rewrite dent_app by done. simpl. apply IH. simpl in Hk. lia.
Qed.

Lemma dir_of_zeros l n : dir_of (l ++ replicate n (replicate DE 0)) = dir_of l.
Proof.
  unfold dir_of. rewrite omap_app. assert (omap live (replicate n (replicate DE 0)) = []) as ->; [|by rewrite app_nil_r].
  induction n as [|n IH]; [done|]. cbn [replicate omap list_omap]. exact IH.
Qed.

Lemma zeros_concat n : replicate (DE * n) 0 = concat (replicate n (replicate DE 0)).
Proof.
  induction n as [|n IH]; [done|]. rewrite Nat.mul_succ_r, Nat.add_comm, replicate_add, IH. done.
Qed.

(** The names of the image. *)
Definition root_names (args : list (list Z)) : list (list Z * Z) :=
  ([46], 1) :: ([46; 46], 1) :: imap (fun j arg => (file_name arg, Z.of_nat (2 + j))) args.

Lemma live_root_ents host args : Forall (arg_ok host) args -> (length args < 198)%nat -> omap live (root_ents args) = root_names args.
Proof.
  intros Ha Hn. unfold root_ents, root_names. cbn [omap list_omap].
  destruct (mk_dirent_spec 1 [46; 0]) as (_ & _ & ->); [simpl; lia|bytes|lia|].
  destruct (mk_dirent_spec 1 [46; 46; 0]) as (_ & _ & ->); [simpl; lia|bytes|lia|]. do 2 f_equal.
  assert (forall l k, Forall (arg_ok host) l -> (2 + k + length l <= NI)%nat ->
    omap live (imap (fun j arg => file_entry (2 + (k + j)) arg) l) =
    imap (fun j arg => (file_name arg, Z.of_nat (2 + (k + j)))) l) as Hgen; [|apply (Hgen args 0%nat); [done|lia]].
  clear. induction l as [|arg l IH]; intros k Ha Hn; [done|]. apply Forall_cons in Ha as [Ha Hl]. cbn [imap length] in *.
  cbn [omap list_omap]. destruct (file_entry_spec host (2 + (k + 0)) arg Ha) as (_ & _ & ->); [lia|]. f_equal.
  etransitivity; [|etransitivity; [apply (IH (S k)); [done|lia]|]]; [f_equal|]; apply imap_ext; intros j x _; unfold compose;
    by rewrite Nat.add_succ_r.
Qed.

Lemma root_dir host args l : files_fit host args ->
  l = concat (root_ents args) ++ replicate (Z.to_nat (root_size args) - length (concat (root_ents args))) 0 ->
  dir_of (dents l) = list_to_map (root_names args) /\ Z.of_nat (length l) = root_size args.
Proof.
  intros (Hok & Hn & _ & _) ->. mkz. pose proof (root_ents_16 host args Hok ltac:(lia)) as H16.
  assert (Forall (fun d => length d = DE) (root_ents args)) as H16' by (eapply Forall_impl; [exact H16|]; by intros ? [? _]).
  pose proof (concat_16 _ H16') as Hlen. unfold root_ents in Hlen at 2. cbn [length] in Hlen. rewrite length_imap in Hlen.
  assert (exists n, Z.to_nat (root_size args) - length (concat (root_ents args)) = DE * n)%nat as [n En].
  { exists (Z.to_nat (64 * (DIRENT * (2 + Z.of_nat (length args)) / 1024 + 1) - (2 + Z.of_nat (length args)))).
    rewrite Hlen. unfold root_size, DIRENT, DE. fslia. }
  split.
  - rewrite En, zeros_concat, <- concat_app, dents_concat.
    + rewrite dir_of_zeros. unfold dir_of. by rewrite (live_root_ents host) by (done || lia).
    + apply Forall_app. split; [done|]. apply Forall_replicate. done.
  - rewrite length_app, length_replicate, Hlen. unfold root_size, DIRENT, DE. fslia.
Qed.

(* ------------------------------------------------------------------ *)
(** ** Theorem *)

Section image.
Context (host : list Z -> option (list (list Z))) (args : list (list Z)) (m : mkfs) (g : fs flat) (t : fs U).
Context (Hfit : files_fit host args) (Fin : final host m g args) (Hb : booted (m_img m) t).

Lemma boot_blk b : blkS b t = blkS b g.
Proof. unfold blkS at 1, blk. rewrite (proj1 Hb). apply (fn_img _ _ _ _ Fin). Qed.
Lemma boot_sb : f_sb t = f_sb g.
Proof. rewrite (proj2 Hb), (fn_sb _ _ _ _ Fin). apply mkfs_sb_eq. Qed.
Lemma boot_disk : disk_ok t.
Proof. apply (same_disk t g boot_blk boot_sb), (fn_disk _ _ _ _ Fin). Qed.

Lemma boot_inode i k : (0 < k < 2 + length args)%nat -> loaded t i (Z.of_nat k) ->
  file_ok t i /\ contents t i = contents g k /\ i_type (geti i t) = ity k /\ i_nlink (geti i t) = 1 /\
  i_size (geti i t) = i_size (geti k g) /\ forall a, owns t i a <-> owns g k a.
Proof.
  intros Hk Hl. destruct (fn_inode _ _ _ _ Fin k Hk) as [Sy [Et En]]. cbn [init_inode i_type i_nlink] in Et, En. pose proof Hfit as (_ & Hn & _). mkz.
  destruct (loaded_same t g i k boot_blk ltac:(rewrite boot_sb; apply Fin) Sy Hl) as (Ea & Es & Et' & En').
  destruct Hl as (Hi & Hd & Hin & _). pose proof (fs_file _ (fn_files _ _ _ _ Fin) k ltac:(lia)) as Hf.
  split; [eapply (same_file t g boot_blk boot_sb i k); try done; rewrite Hin; symmetry; apply (fs_inum _ (fn_files _ _ _ _ Fin)); lia|].
  split; [by apply (same_contents t g boot_blk)|]. split; [congruence|]. split; [congruence|]. split; [done|].
  intros a. by apply (same_owns t g boot_blk).
Qed.

End image.

Lemma readsb_boot t : held t = [] -> blkS 1 t = put_sb SB zero_block -> readsb ROOTDEV t = Ok mkfs_sb t.
Proof.
  intros Hh E. unfold readsb. erewrite bind_Ok by (apply bread_Ok; rewrite Hh; apply not_elem_of_nil).
  unfold bdata. erewrite bind_Ok by done. change (blk 1 (f_blk (set_blocks _ t))) with (blkS 1 t). rewrite E.
  erewrite bind_Ok by (eapply brelse_Ok; [done|rewrite Hh; apply not_elem_of_nil]).
  rewrite mkfs_sb_eq. unfold ret. replace (set_blocks _ _) with t by (by destruct t as [? []]). f_equal.
Qed.

(** C28. The kernel reads back what mkfs wrote.  Given files it can read, with
    short names, that fit on the disk, mkfs runs to its end; and on a disk
    with the image it leaves: readsb() finds the super block, the log is
    empty, and the bitmap has in use exactly the blocks before the data blocks
    and those that belong to the root directory or to one of the files; the
    root directory is a well formed directory whose map has ".", ".." and the
    name of each file with its inode; each file's inode is a well formed file
    with one link whose contents are the bytes read from the host; and no
    block belongs to two of them.  The number of directory entries must not
    fill whole blocks: mkfs then gives the root a size past its last block. *)
Theorem mkfs_image_reads_back host args : files_fit host args ->
  exists m, main host args mkfs0 = Ok tt m /\ forall t, booted (m_img m) t -> held t = [] ->
    readsb ROOTDEV t = Ok (f_sb t) t /\ blkS (sb_logstart (f_sb t)) t = zero_block /\ disk_ok t /\
    (forall b, 0 <= b < FSSIZE -> used t b = true <->
      b < nmeta \/ exists k, ROOTINO <= k < 2 + Z.of_nat (length args) /\ disk_owns t k b) /\
    (forall i, loaded t i ROOTINO -> dir_ok t i /\ dir_map t i = list_to_map (root_names args)) /\
    (forall i j arg, args !! j = Some arg -> loaded t i (Z.of_nat (2 + j)) ->
      file_ok t i /\ contents t i = file_data host arg /\ i_type (geti i t) = T_FILE /\ i_nlink (geti i t) = 1) /\
    (forall i i' k k' a, loaded t i k -> loaded t i' k' -> ROOTINO <= k < k' -> k' < 2 + Z.of_nat (length args) ->
      owns t i a -> owns t i' a -> False).
Proof.
  intros Hfit. destruct (main_spec host args Hfit) as (m & g & E & Fin). exists m. split; [done|]. intros t Hb Hh.
  pose proof (boot_blk host args m g t Fin Hb) as Hblk. pose proof (boot_disk host args m g t Fin Hb) as Hd.
  pose proof Hfit as (_ & Hn & _). mkz. split_and!.
  - rewrite (proj2 Hb). apply readsb_boot; [done|]. rewrite Hblk, (fn_low _ _ _ _ Fin) by lia. unfold low_block. by rewrite decide_True.
  - rewrite (proj2 Hb), Hblk, mkfs_sb_eq. cbn [sb_logstart SB]. rewrite (fn_low _ _ _ _ Fin) by lia. unfold low_block. by rewrite decide_False.
  - done.
  - intros b Hbd. rewrite (same_used t g Hblk (boot_sb host args m g t Fin Hb)), (fn_used _ _ _ _ Fin) by done.
    assert (forall k, (0 < k < 2 + length args)%nat -> disk_owns t (Z.of_nat k) b <-> owns g k b) as Hk.
    { intros k Hk. destruct (boot_inode host args m g (with_inode t (Z.of_nat k)) Hfit Fin Hb 0 k Hk (with_inode_loaded t _))
        as (_ & _ & _ & _ & _ & Hw). apply Hw. }
    unfold ROOTINO. apply or_iff_compat_l. split.
    + intros (k & Hkr & Ho). exists (Z.of_nat k). split; [lia|by apply Hk].
    + intros (k & Hkr & Ho). exists (Z.to_nat k). split; [lia|]. apply Hk; [lia|]. by rewrite Z2Nat.id by lia.
  - intros i Hl. destruct (boot_inode host args m g t Hfit Fin Hb i 1 ltac:(lia) Hl) as (Hf & Hc & Ht & _ & Hs & _).
    destruct (root_dir host args (contents t i) Hfit) as [Hdm Hlen]; [rewrite Hc; apply (fn_root _ _ _ _ Fin)|].
    split; [|exact Hdm]. split; [done|exact Ht|]. rewrite length_contents in Hlen. pose proof (fi_size _ _ Hf).
    replace (i_size (geti i t)) with (root_size args) by lia. apply root_size_mod.
  - intros i j arg Hj Hl. pose proof (lookup_lt_Some _ _ _ Hj).
    destruct (boot_inode host args m g t Hfit Fin Hb i (2 + j) ltac:(lia) Hl) as (Hf & Hc & Ht & Hk & _).
    split; [done|]. split; [by rewrite Hc, (fn_data _ _ _ _ Fin j arg)|]. split; [|done].
    rewrite Ht. unfold ity. by rewrite decide_False by lia.
  - intros i i' k k' a Hl Hl' Hk Hk' Ho Ho'. unfold ROOTINO in Hk.
    rewrite <- (Z2Nat.id k) in Hl by lia. rewrite <- (Z2Nat.id k') in Hl' by lia.
    destruct (boot_inode host args m g t Hfit Fin Hb i (Z.to_nat k) ltac:(lia) Hl) as (_ & _ & _ & _ & _ & Hw).
    destruct (boot_inode host args m g t Hfit Fin Hb i' (Z.to_nat k') ltac:(lia) Hl') as (_ & _ & _ & _ & _ & Hw').
    apply Hw in Ho. apply Hw' in Ho'. clear -Fin Hn Hk Hk' Ho Ho'.
    apply (fs_disj _ (fn_files _ _ _ _ Fin) (Z.to_nat k) (Z.to_nat k') a); [lia|lia|lia|exact Ho|exact Ho'].
Qed.

End boot.

(** Two files: "user/_hi" of five bytes, in two reads, and "a" of none. *)
Definition ex_host (arg : list Z) : option (list (list Z)) := Some (if decide (length arg = 1%nat) then [] else [[104; 101; 108]; [108; 111]]).
Definition ex_args : list (list Z) := [[117; 115; 101; 114; 47; 95; 104; 105]; [97]].

Lemma ex_files_fit : files_fit ex_host ex_args.
Proof.
  split; [|split; [vm_compute; reflexivity|split; [vm_compute; discriminate|vm_compute; discriminate]]].
  repeat apply Forall_cons_2; [| |apply Forall_nil_2].
  all: split; [by eexists|]; split; [apply (bool_decide_unpack _); reflexivity|]; split; [vm_compute; discriminate|].
  all: split; [apply (bool_decide_unpack (Forall (fun x => 0 <= x < 256) _)); reflexivity|].
  all: split; [apply (bool_decide_unpack _); reflexivity|].
  all: split; [apply (bool_decide_unpack (Forall (fun x => 0 <= x < 256) _)); reflexivity|vm_compute; discriminate].
Qed.

Lemma mkfs_image_reads_back_witness : exists m, main ex_host ex_args mkfs0 = Ok tt m /\
  forall t : fs flat, booted (m_img m) t -> held t = [] -> forall i, loaded t i 2 -> contents t i = [104; 101; 108; 108; 111].
Proof.
  destruct (mkfs_image_reads_back (U := flat) ex_host ex_args ex_files_fit) as (m & E & Ht).
  exists m. split; [exact E|]. intros t Hb Hh i Hl. destruct (Ht t Hb Hh) as (_ & _ & _ & _ & _ & Hf & _).
  destruct (Hf i 0%nat [117; 115; 101; 114; 47; 95; 104; 105] eq_refl Hl) as (_ & -> & _). reflexivity.
Defined.
