(* ===== verification/MkfsTree.v ===== *)
(** * Files of the image by name

   From the image mkfs builds to the bytes a process reads: a path to a file
   of the image, followed by namei() in a kernel that has just started, ends
   at an inode from which readi() reads the file mkfs was given. *)

From stdpp Require Import base numbers list gmap strings.
From Stdlib Require Import ZArith Lia.
From S2P Require Import Prelude Params Cmem KString Sleeplock UserMem Fs FsInv FsMap FsBmap FsWrite FsFile FileWrite FsDir FsView FsPath.
From S2P Require Import Mkfs MkfsSim MkfsOps MkfsImage MkfsBoot.

Section boot.
Context {U : Type} `{UserMem U} `{WakeBudget}.
Implicit Types t : fs U.

(** The inodes of the image. *)
Definition image_inode (args : list (list Z)) (k : Z) : Prop := ROOTINO <= k < 2 + Z.of_nat (length args).

Section tree.
Context (host : list Z -> option (list (list Z))) (args : list (list Z)) (m : mkfs) (g : fs flat) (t : fs U).
Context (Hfit : files_fit host args) (Fin : final host m g args) (Hb : booted (m_img m) t).

(** The inode on disk is one ilock() has read. *)
Lemma solo_loaded k : loaded (solo t k) 0 k.
Proof.
  split; [simpl; lia|]. split; [done|]. split; [done|]. unfold solo. change (geti 0 (set_itab _ t)) with (dinode t k). done.
Qed.

Lemma solo_booted k : booted (m_img m) (solo t k).
Proof. exact Hb. Qed.

Lemma image_solo k : image_inode args k ->
  file_ok (solo t k) 0 /\ contents (solo t k) 0 = contents g (Z.to_nat k) /\ i_type (dinode t k) = ity (Z.to_nat k) /\
  i_nlink (dinode t k) = 1.
Proof.
  intros Hk. unfold image_inode, ROOTINO in Hk. pose proof (solo_loaded k) as Hl. rewrite <- (Z2Nat.id k) in Hl at 2 by lia.
  destruct (boot_inode host args m g (solo t k) Hfit Fin (solo_booted k) 0 (Z.to_nat k)) as (Hf & Hc & Ht & Hn & _); [lia|done|].
  done.
Qed.

Lemma image_root : dir_ok (solo t ROOTINO) 0 /\ ddir t ROOTINO = list_to_map (root_names args).
Proof.
  destruct (image_solo ROOTINO) as (Hf & Hc & Ht & _); [unfold image_inode, ROOTINO; lia|].
  destruct (root_dir host args (contents (solo t ROOTINO) 0) Hfit) as [Hdm Hlen]; [rewrite Hc; apply (fn_root _ _ _ _ Fin)|].
  split; [|exact Hdm]. split; [done|exact Ht|]. rewrite length_contents in Hlen. pose proof (fi_size _ _ Hf).
  replace (i_size (geti 0 (solo t ROOTINO))) with (root_size args) by lia. apply root_size_mod.
Qed.

Lemma root_names_range nm k : (nm, k) ∈ root_names args -> image_inode args k.
Proof.
  unfold root_names, image_inode, ROOTINO. rewrite !elem_of_cons. intros [[= _ ->]|[[= _ ->]|Hin]]; [lia|lia|].
  apply list_elem_of_lookup in Hin as [j Hj]. rewrite list_lookup_imap in Hj. destruct (args !! j) as [a|] eqn:E; [|done].
  apply lookup_lt_Some in E. injection Hj as _ <-. lia.
Qed.

Lemma image_tree : tree t (image_inode args).
Proof.
  destruct image_root as [Hr Hm]. split.
  - intros k Hk. by apply image_solo.
  - intros k Hk. destruct (image_solo k Hk) as (_ & _ & -> & ->). split; [|done]. unfold ity. by case_decide.
  - intros k Hk HT. destruct (image_solo k Hk) as (_ & _ & Ht & _). rewrite Ht in HT. unfold ity in HT.
    case_decide as E; [|done]. assert (k = ROOTINO) as -> by (unfold image_inode, ROOTINO in *; lia). apply (dr_size _ _ Hr).
  - intros k nm k' Hk HT Hl. destruct (image_solo k Hk) as (_ & _ & Ht & _). rewrite Ht in HT. unfold ity in HT.
    case_decide as E; [|done]. assert (k = ROOTINO) as -> by (unfold image_inode, ROOTINO in *; lia).
    rewrite Hm in Hl. apply elem_of_list_to_map_2 in Hl. by eapply root_names_range.
Qed.

Lemma image_walk j arg : NoDup (root_names args).*1 -> args !! j = Some arg -> arg_ok host arg -> file_name arg <> [] ->
  follow t ROOTINO (elems (SLASH :: file_name arg)) = Some (Z.of_nat (2 + j)).
Proof.
  intros Hnd Hj (_ & Hsl & Hlen & _) Hne. destruct image_root as [Hr Hm].
  assert (SLASH ∉ file_name arg) as Hs.
  { unfold file_name, skip_underscore. case_match; [|done]. intros Hin. apply Hsl. destruct (shortname arg); [done|]. by right. }
  assert (elems (SLASH :: file_name arg) = [file_name arg]) as ->.
  { unfold elems. cbn [elems_acc]. rewrite Z.eqb_refl, decide_True by done. rewrite <- (app_nil_r (file_name arg)) at 1.
    rewrite elems_acc_app by done. cbn [app elems_acc]. by rewrite decide_False. }
  cbn [follow]. pose proof (dr_type _ _ Hr) as HT. change (geti 0 (solo t ROOTINO)) with (dinode t ROOTINO) in HT.
  rewrite HT, Hm. cbn [Z.eqb]. rewrite take_ge by (unfold DIRSIZ in *; lia).
  rewrite (elem_of_list_to_map_1 _ _ (Z.of_nat (2 + j))); [done|done|].
  unfold root_names. do 2 right. apply list_elem_of_lookup. exists j. by rewrite list_lookup_imap, Hj.
Qed.

End tree.

(** The inode table after iinit(). *)
Definition fresh_table t : Prop := f_itab t = replicate (Z.to_nat NINODE) inode0 /\ f_itlock t = false.

Lemma fresh_table_ok t : fresh_table t -> table_ok t.
Proof.
  intros [Ht Hl]. assert (forall j, geti j t = inode0) as Hg.
  { intros j. unfold geti. rewrite Ht. destruct (replicate _ inode0 !! j) as [x|] eqn:E; [|done].
    by apply lookup_replicate in E as [-> _]. }
  assert (forall j, refs t j = 0) as Hr by (intros j; unfold refs; by rewrite Hg). split.
  - split; try done.
    + rewrite Ht. apply length_replicate.
    + intros j. rewrite Hr. lia.
    + by intros j ?%elem_of_nil.
    + intros j _. by rewrite Hg.
  - split; [intros j; rewrite Hr; lia|]. exists 0%nat, 1%nat. rewrite !Hr. split; [done|]. unfold NINODE. split_and!; (done || lia).
Qed.

(** C27. A file given to mkfs can be read by its name.  On a disk with the
    image mkfs leaves, a kernel that has just started follows the path
    "/name" to an inode, locks it, and readi() of the whole file returns
    the bytes mkfs read on the host; the names must be different. *)
Theorem image_file_by_name host args : files_fit host args -> NoDup (root_names args).*1 ->
  exists m, main host args mkfs0 = Ok tt m /\
  forall t junk j arg, booted (m_img m) t -> held t = [] -> fresh_table t -> length junk = Z.to_nat DIRSIZ -> Forall byte junk ->
    args !! j = Some arg -> file_name arg <> [] ->
    exists i t1 t2, namei (SLASH :: file_name arg ++ [0]) junk t = Ok (Some i) t1 /\ ilock i t1 = Ok tt t2 /\
      i_inum (geti i t2) = Z.of_nat (2 + j) /\
      readi i KernelDst 0 (Z.of_nat (length (file_data host arg))) t2 =
        Ok (Z.of_nat (length (file_data host arg)), file_data host arg) t2.
Proof.
  intros Hfit Hnd. destruct (main_spec host args Hfit) as (m & g & E & Fin). exists m. split; [done|].
  intros t junk j arg Hb Hh Hfresh Hjl Hjb Hj Hne. pose proof (lookup_lt_Some _ _ _ Hj) as Hjlt.
  pose proof (proj1 Hfit) as Hoks. eapply Forall_lookup_1 in Hoks as Hok; [|exact Hj].
  pose proof (image_tree host args m g t Hfit Fin Hb) as Tr. pose proof (boot_disk host args m g t Fin Hb) as Hd.
  pose proof (image_walk host args m g t Hfit Fin Hb j arg Hnd Hj Hok Hne) as Hw.
  assert (image_inode args (Z.of_nat (2 + j))) as Hk by (unfold image_inode, ROOTINO; lia).
  pose proof Hok as (_ & Hsl & _ & Hbn & Hnz & Hdb & Hdl).
  destruct (namei_spec t (image_inode args) (SLASH :: file_name arg) ROOTINO junk) as (res & t1 & E1 & Hend);
    [exact Hd|exact Hh|by apply fresh_table_ok|exact Tr|unfold image_inode, ROOTINO; lia| | |exact Hjl|exact Hjb|].
  { unfold path_root. by rewrite decide_True. }
  { apply is_path_cons. split; [done|]. split; [unfold SLASH, byte; lia|]. split; [|exact Hbn].
    intros Hin. exact (proj1 (Forall_forall _ _) Hnz 0 Hin eq_refl). }
  rewrite Hw in Hend. destruct Hend as (i & -> & Hi & Hin & T1).
  destruct (walk_ilock t t1 [] (bump (refs t) i) i (image_inode args) T1 Hh Tr Hi) as (t2 & E2 & T2 & Hl2 & _).
  { apply not_elem_of_nil. } { destruct (fresh_table_ok t Hfresh) as [_ [Hc _]]. specialize (Hc i). unfold bump, setr. rewrite decide_True by done. lia. }
  { by rewrite Hin. }
  destruct (tb_disk _ _ _ _ T2) as [Esb Eblk]. rewrite Hin in Hl2.
  assert (booted (m_img m) t2) as Hb2 by (split; [rewrite Eblk|rewrite Esb]; apply Hb).
  destruct (boot_inode host args m g t2 Hfit Fin Hb2 i (2 + j)) as (Hf2 & Hc2 & _); [lia|done|].
  rewrite (fn_data _ _ _ _ Fin j arg Hj) in Hc2.
  destruct (readi_spec t2 i KernelDst 0 (Z.of_nat (length (file_data host arg)))) as (rr & bs & u & Er & Hres);
    [eapply boot_disk; [exact Fin|exact Hb2]|exact Hf2|unfold held in *; by rewrite Eblk|exact I|lia|lia|fslia|].
  exists i, t1, t2. split; [exact E1|]. split; [exact E2|]. split; [apply Hl2|]. rewrite Er, Hc2 in *.
  assert (slice (Z.to_nat 0) (Z.to_nat (Z.of_nat (length (file_data host arg)))) (file_data host arg) = file_data host arg) as Esl.
  { rewrite Nat2Z.id. unfold slice. rewrite drop_0. by apply take_ge. }
  rewrite Esl in Hres. destruct Hres as [[-> [-> ->]]|(_ & (? & ? & _) & _)]; [|done]. by destruct t2.
Qed.

End boot.

(* ------------------------------------------------------------------ *)
(** ** A kernel started on the image of two files *)

Definition boot_state (m : mkfs) : fs flat :=
  Fs mkfs_sb (BlocksSt (m_img m) [] [] 0) false (replicate (Z.to_nat NINODE) inode0) 7 0 ∅ [].
#[local] Instance boot_budget : WakeBudget := 0%nat.

Lemma ex_zeros : Forall byte (replicate 14 0).
Proof. apply Forall_replicate. unfold byte. lia. Qed.

Lemma ex_path : is_path [47; 104; 105].
Proof. split; [|bytes]. rewrite !not_elem_of_cons. split_and!; try discriminate. apply not_elem_of_nil. Qed.

Lemma namei_walks_witness : exists m res s', main ex_host ex_args mkfs0 = Ok tt m /\
  namei ([47; 104; 105] ++ [0]) (replicate 14 0) (boot_state m) = Ok res s'.
Proof.
  destruct (main_spec ex_host ex_args ex_files_fit) as (m & g & E & Fin).
  assert (booted (m_img m) (boot_state m)) as Hb by (split; reflexivity).
  destruct (namei_walks (boot_state m) (image_inode ex_args) [47; 104; 105] ROOTINO (replicate 14 0)) as (res & s' & En & _).
  - exact (boot_disk ex_host ex_args m g (boot_state m) Fin Hb).
  - reflexivity.
  - apply fresh_table_ok. split; reflexivity.
  - exact (image_tree ex_host ex_args m g (boot_state m) ex_files_fit Fin Hb).
  - change (1 <= 1 < 4). lia.
  - reflexivity.
  - exact ex_path.
  - reflexivity.
  - exact ex_zeros.
  - exists m, res, s'. split; [exact E|exact En].
Defined.

Lemma image_file_by_name_witness : exists m i t1 t2, main ex_host ex_args mkfs0 = Ok tt m /\
  namei ([47; 104; 105] ++ [0]) (replicate 14 0) (boot_state m) = Ok (Some i) t1 /\ ilock i t1 = Ok tt t2 /\
  readi i KernelDst 0 5 t2 = Ok (5, [104; 101; 108; 108; 111]) t2.
Proof.
  destruct (image_file_by_name (U := flat) ex_host ex_args) as (m & E & Hall).
  - exact ex_files_fit.
  - apply (bool_decide_unpack _). vm_compute. reflexivity.
  - destruct (Hall (boot_state m) (replicate 14 0) 0%nat [117; 115; 101; 114; 47; 95; 104; 105]) as (i & t1 & t2 & En & El & _ & Er).
    + split; reflexivity.
    + reflexivity.
    + split; reflexivity.
    + reflexivity.
    + exact ex_zeros.
    + reflexivity.
    + exact (fun Hn : [104; 105] = [] => nil_cons (eq_sym Hn)).
    + exists m, i, t1, t2. split; [exact E|]. split; [exact En|]. split; [exact El|exact Er].
Defined.
