(* ===== verification/Sysfile.v ===== *)
(** * kernel/sysfile.c and the arguments of kernel/syscall.c

   The system calls on files.  The state adds to File.v what the calls use
   of the process: its open files, its size and the argument registers saved
   in the trapframe.  A buffer on the kernel stack starts with whatever the
   stack held, [stack]. *)

From stdpp Require Import base numbers list gmap strings.
From Stdlib Require Import ZArith Lia.
From S2P Require Import Prelude Params Cmem KString UserMem Fs Pipe Console File.

Record sys (U : Type) := Sys {
  y_k : fstate U;
  y_ofile : list (option nat);
  y_args : list Z;              (* trapframe a0 ... a5 *)
  y_sz : Z
}.
Arguments Sys {U}.
Arguments y_k {U}. Arguments y_ofile {U}. Arguments y_args {U}. Arguments y_sz {U}.

Section sysfile.
Context {U : Type} `{UserOps U} `{PageOps U} `{WakeBudget} (stack : list Z).

Notation Y := (M (sys U)).

Definition L_k : lens (sys U) (fstate U) :=
  Lens y_k (fun k s => Sys k (y_ofile s) (y_args s) (y_sz s)).
Definition L_yfs : lens (sys U) (fs U) := lens_comp L_k L_fs.
Definition L_yuser : lens (sys U) U := lens_comp L_k L_user.
Definition set_ofile (f : list (option nat) -> list (option nat)) (s : sys U) : sys U :=
  Sys (y_k s) (f (y_ofile s)) (y_args s) (y_sz s).

Definition in_fs {A} (m : M (fs U) A) : Y A := zoom L_yfs m.
Definition in_files {A} (m : M (fstate U) A) : Y A := zoom L_k m.
Definition inode_at (i : nat) : Y inode := gets (fun s => geti i (k_fs (y_k s))).

(* ------------------------------------------------------------------ *)
(** ** kernel/syscall.c: arguments *)

Definition fetchaddr (addr : Z) : Y (option Z) :=
  let* sz := gets y_sz in
  if (addr >=? sz) || (u64 (addr + 8) >? sz) then ret None
  else
    let* r := zoom L_yuser (ucopyin addr 8) in
    ret (if fst r then Some (ld64 0 (snd r)) else None).

(** The length and the buffer, or -1. *)
Definition fetchstr (addr max : Z) : Y (Z * list Z) :=
  let* r := zoom L_yuser (ucopyinstr addr (Z.to_nat max)) in
  if fst r then let* n := string_op (strlen 0) (snd r) in ret (fst n, snd r)
  else ret (-1, []).

Definition argraw (n : Z) : Y Z :=
  if (0 <=? n) && (n <=? 5) then gets (fun s => default 0 (y_args s !! Z.to_nat n)) else panic "argraw".
Definition argint (n : Z) : Y Z := let* a := argraw n in ret (i32 a).
Definition argaddr (n : Z) : Y Z := argraw n.
Definition argstr (n max : Z) : Y (Z * list Z) := let* a := argaddr n in fetchstr a max.

(* ------------------------------------------------------------------ *)
(** ** File descriptors *)

Definition argfd (n : Z) : Y (option (Z * nat)) :=
  let* fd := argint n in
  if (fd <? 0) || (fd >=? NOFILE) then ret None
  else
    let* f := gets (fun s => default None (y_ofile s !! Z.to_nat fd)) in
    ret (match f with Some f => Some (fd, f) | None => None end).

(** for(fd = 0; fd < NOFILE; fd++) *)
Fixpoint find_fd (n fd : nat) (ofs : list (option nat)) : option nat :=
  match n with
  | O => None
  | S n' => match ofs !! fd with Some None => Some fd | _ => find_fd n' (S fd) ofs end
  end.
Definition fdalloc (f : nat) : Y Z :=
  let* ofs := gets y_ofile in
  match find_fd (Z.to_nat NOFILE) 0 ofs with
  | Some fd => modify (set_ofile (<[fd := Some f]>)) ;; ret (Z.of_nat fd)
  | None => ret (-1)
  end.

Definition sys_dup : Y Z :=
  let* a := argfd 0 in
  match a with
  | None => ret (-1)
  | Some (_, f) =>
      let* fd := fdalloc f in
      if fd <? 0 then ret (-1) else in_files (filedup f) ;; ret fd
  end.

Definition sys_read : Y Z :=
  let* p := argaddr 1 in
  let* n := argint 2 in
  let* a := argfd 0 in
  match a with None => ret (-1) | Some (_, f) => in_files (fileread f p n) end.

Definition sys_write : Y Z :=
  let* p := argaddr 1 in
  let* n := argint 2 in
  let* a := argfd 0 in
  match a with None => ret (-1) | Some (_, f) => in_files (filewrite f p n) end.

Definition sys_close : Y Z :=
  let* a := argfd 0 in
  match a with
  | None => ret (-1)
  | Some (fd, f) =>
      modify (set_ofile (<[Z.to_nat fd := None]>)) ;;
      in_files (fileclose f) ;;
      ret 0
  end.

Definition sys_fstat : Y Z :=
  let* st := argaddr 1 in
  let* a := argfd 0 in
  match a with None => ret (-1) | Some (_, f) => in_files (filestat f st (take 24 stack)) end.

(* ------------------------------------------------------------------ *)
(** ** Names *)

Definition name_buf : list Z := take (Z.to_nat DIRSIZ) stack.
Definition de_buf : list Z := take (Z.to_nat DIRENT) stack.
Definition DOT : list Z := [46; 0].
Definition DOTDOT : list Z := [46; 46; 0].

Definition fail_op : Y Z := in_fs end_op ;; ret (-1).
Definition add_link (d : Z) (ip : inode) : inode := set_nlink (i_nlink ip + d) ip.

Definition sys_link : Y Z :=
  let* old := argstr 0 MAXPATH in
  if fst old <? 0 then ret (-1)
  else
  let* new := argstr 1 MAXPATH in
  if fst new <? 0 then ret (-1)
  else
  in_fs begin_op ;;
  let* ip := in_fs (namei (snd old) name_buf) in
  match ip with
  | None => fail_op
  | Some ip =>
      in_fs (ilock ip) ;;
      let* n := inode_at ip in
      if i_type n =? T_DIR then in_fs (iunlockput ip) ;; fail_op
      else
      in_fs (upd_inode ip (add_link 1)) ;;
      in_fs (iupdate ip) ;;
      in_fs (iunlock ip) ;;
      let bad :=
        in_fs (ilock ip) ;;
        in_fs (upd_inode ip (add_link (-1))) ;;
        in_fs (iupdate ip) ;;
        in_fs (iunlockput ip) ;;
        fail_op in
      let* r := in_fs (nameiparent (snd new) name_buf) in
      match fst r with
      | None => bad
      | Some dp =>
          in_fs (ilock dp) ;;
          let* d := inode_at dp in
          let* n := inode_at ip in
          let* ok :=
            if negb (i_dev d =? i_dev n) then ret false
            else let* l := in_fs (dirlink dp (snd r) (i_inum n) de_buf) in ret (negb (l <? 0)) in
          if negb ok then in_fs (iunlockput dp) ;; bad
          else
            in_fs (iunlockput dp) ;;
            in_fs (iput ip) ;;
            in_fs end_op ;;
            ret 0
      end
  end.

(** for(off=2*sizeof(de); off<dp->size; off+=sizeof(de)) *)
Fixpoint isdirempty_loop (fuel : nat) (dp : nat) (off : Z) : M (fs U) bool :=
  let* d := gets (geti dp) in
  if off <? i_size d then
    match fuel with
    | O => diverge
    | S f =>
        let* r := readi dp KernelDst off DIRENT in
        if negb (fst r =? DIRENT) then panic "isdirempty: readi"
        else if negb (de_inum (snd r) =? 0) then ret false
        else isdirempty_loop f dp (off + DIRENT)
    end
  else ret true.
Definition isdirempty (dp : nat) : M (fs U) bool :=
  let* d := gets (geti dp) in isdirempty_loop (Z.to_nat (i_size d / DIRENT + 1)) dp (2 * DIRENT).

Definition sys_unlink : Y Z :=
  let* path := argstr 0 MAXPATH in
  if fst path <? 0 then ret (-1)
  else
  in_fs begin_op ;;
  let* r := in_fs (nameiparent (snd path) name_buf) in
  match fst r with
  | None => fail_op
  | Some dp =>
      let name := snd r in
      let bad := in_fs (iunlockput dp) ;; fail_op in
      in_fs (ilock dp) ;;
      let* c1 := in_fs (namecmp name DOT) in
      let* dots := if c1 =? 0 then ret true
                   else let* c2 := in_fs (namecmp name DOTDOT) in ret (c2 =? 0) in
      if dots : bool then bad
      else
      let* found := in_fs (dirlookup dp name) in
      match found with
      | None => bad
      | Some (ip, off) =>
          in_fs (ilock ip) ;;
          let* n := inode_at ip in
          if i_nlink n <? 1 then panic "unlink: nlink < 1"
          else
          let* full :=
            if i_type n =? T_DIR then let* e := in_fs (isdirempty ip) in ret (negb e) else ret false in
          if full : bool then in_fs (iunlockput ip) ;; bad
          else
          let* w := in_fs (writei dp (KernelSrc (replicate (Z.to_nat DIRENT) 0)) off DIRENT) in
          if negb (w =? DIRENT) then panic "unlink: writei"
          else
          let* n := inode_at ip in
          (if i_type n =? T_DIR then in_fs (upd_inode dp (add_link (-1))) ;; in_fs (iupdate dp) else ret tt) ;;
          in_fs (iunlockput dp) ;;
          in_fs (upd_inode ip (add_link (-1))) ;;
          in_fs (iupdate ip) ;;
          in_fs (iunlockput ip) ;;
          in_fs end_op ;;
          ret 0
      end
  end.

Definition set_devno (major minor : Z) (ip : inode) : inode :=
  Inode (i_dev ip) (i_inum ip) (i_ref ip) (i_lock ip) (i_valid ip) (i_type ip) (i16 major) (i16 minor)
    (i_nlink ip) (i_size ip) (i_addrs ip).

(** create(): the new inode, locked; its goto fail is [fail]. *)
Definition create (path : list Z) (type major minor : Z) : M (fs U) (option nat) :=
  let* r := nameiparent path name_buf in
  match fst r with
  | None => ret None
  | Some dp =>
      let name := snd r in
      ilock dp ;;
      let* found := dirlookup dp name in
      match found with
      | Some (ip, _) =>
          iunlockput dp ;;
          ilock ip ;;
          let* n := gets (geti ip) in
          if (type =? T_FILE) && ((i_type n =? T_FILE) || (i_type n =? T_DEVICE)) then ret (Some ip)
          else iunlockput ip ;; ret None
      | None =>
          let* d := gets (geti dp) in
          let* new := ialloc (i_dev d) type in
          match new with
          | None => iunlockput dp ;; ret None
          | Some ip =>
              ilock ip ;;
              upd_inode ip (set_devno major minor) ;;
              upd_inode ip (set_nlink 1) ;;
              iupdate ip ;;
              let fail :=
                upd_inode ip (set_nlink 0) ;;
                iupdate ip ;;
                iunlockput ip ;;
                iunlockput dp ;;
                ret None in
              let* n := gets (geti ip) in
              let* dots :=
                if type =? T_DIR then
                  let* l1 := dirlink ip DOT (i_inum n) de_buf in
                  if l1 <? 0 then ret false
                  else
                    let* d := gets (geti dp) in
                    let* l2 := dirlink ip DOTDOT (i_inum d) de_buf in
                    ret (negb (l2 <? 0))
                else ret true in
              if negb dots then fail
              else
                let* l := dirlink dp name (i_inum n) de_buf in
                if l <? 0 then fail
                else
                  (if type =? T_DIR then upd_inode dp (add_link 1) ;; iupdate dp else ret tt) ;;
                  iunlockput dp ;;
                  ret (Some ip)
          end
      end
  end.

Definition has_flag (mode flag : Z) : bool := negb (Z.land mode flag =? 0).

(** The stores to a file that sys_open() allocated. *)
Definition open_file (ip : nat) (n : inode) (omode : Z) (f : file) : file :=
  let dev := i_type n =? T_DEVICE in
  File (if dev then FD_DEVICE else FD_INODE) (fl_ref f) (negb (has_flag omode O_WRONLY))
    (has_flag omode O_WRONLY || has_flag omode O_RDWR) (fl_pipe f) ip
    (if dev then fl_off f else 0) (if dev then i_major n else fl_major f).

Definition sys_open : Y Z :=
  let* omode := argint 1 in
  let* path := argstr 0 MAXPATH in
  if fst path <? 0 then ret (-1)
  else
  in_fs begin_op ;;
  let* ip :=
    if has_flag omode O_CREATE then in_fs (create (snd path) T_FILE 0 0)
    else
      let* ip := in_fs (namei (snd path) name_buf) in
      match ip with
      | None => ret None
      | Some ip =>
          in_fs (ilock ip) ;;
          let* n := inode_at ip in
          if (i_type n =? T_DIR) && negb (omode =? O_RDONLY) then in_fs (iunlockput ip) ;; ret None
          else ret (Some ip)
      end in
  match ip with
  | None => fail_op
  | Some ip =>
      let* n := inode_at ip in
      if (i_type n =? T_DEVICE) && ((i_major n <? 0) || (i_major n >=? NDEV)) then in_fs (iunlockput ip) ;; fail_op
      else
      let* f := in_files filealloc in
      let* fd := match f with Some f => fdalloc f | None => ret (-1) end in
      match f with
      | Some f =>
          if fd <? 0 then in_files (fileclose f) ;; in_fs (iunlockput ip) ;; fail_op
          else
            in_files (upd_file f (open_file ip n omode)) ;;
            (if has_flag omode O_TRUNC && (i_type n =? T_FILE) then in_fs (itrunc ip) else ret tt) ;;
            in_fs (iunlock ip) ;;
            in_fs end_op ;;
            ret fd
      | None => in_fs (iunlockput ip) ;; fail_op
      end
  end.

Definition sys_mkdir : Y Z :=
  in_fs begin_op ;;
  let* path := argstr 0 MAXPATH in
  if fst path <? 0 then fail_op
  else
    let* ip := in_fs (create (snd path) T_DIR 0 0) in
    match ip with
    | None => fail_op
    | Some ip => in_fs (iunlockput ip) ;; in_fs end_op ;; ret 0
    end.

Definition sys_mknod : Y Z :=
  in_fs begin_op ;;
  let* major := argint 1 in
  let* minor := argint 2 in
  let* path := argstr 0 MAXPATH in
  if fst path <? 0 then fail_op
  else
    let* ip := in_fs (create (snd path) T_DEVICE (i16 major) (i16 minor)) in
    match ip with
    | None => fail_op
    | Some ip => in_fs (iunlockput ip) ;; in_fs end_op ;; ret 0
    end.

Definition set_cwd (i : nat) (s : fs U) : fs U :=
  Fs (f_sb s) (f_blk s) (f_itlock s) (f_itab s) (f_pid s) i (f_user s) (f_woken s).

Definition sys_chdir : Y Z :=
  in_fs begin_op ;;
  let* path := argstr 0 MAXPATH in
  if fst path <? 0 then fail_op
  else
    let* ip := in_fs (namei (snd path) name_buf) in
    match ip with
    | None => fail_op
    | Some ip =>
        in_fs (ilock ip) ;;
        let* n := inode_at ip in
        if negb (i_type n =? T_DIR) then in_fs (iunlockput ip) ;; fail_op
        else
          in_fs (iunlock ip) ;;
          let* cwd := gets (fun s => f_cwd (k_fs (y_k s))) in
          in_fs (iput cwd) ;;
          in_fs end_op ;;
          in_fs (modify (set_cwd ip)) ;;
          ret 0
    end.

Definition sys_pipe : Y Z :=
  let* fdarray := argaddr 0 in
  let* p := in_files (pipealloc stack) in
  match p with
  | None => ret (-1)
  | Some (rf, wf) =>
      let close := in_files (fileclose rf) ;; in_files (fileclose wf) ;; ret (-1) in
      let* fd0 := fdalloc rf in
      if fd0 <? 0 then close
      else
      let* fd1 := fdalloc wf in
      if fd1 <? 0 then modify (set_ofile (<[Z.to_nat fd0 := None]>)) ;; close
      else
      let* ok0 := zoom L_yuser (ucopyout fdarray (st32 0 fd0 [0; 0; 0; 0])) in
      let* ok := if ok0 : bool then zoom L_yuser (ucopyout (u64 (fdarray + 4)) (st32 0 fd1 [0; 0; 0; 0])) else ret false in
      if negb ok then
        modify (set_ofile (<[Z.to_nat fd0 := None]>)) ;;
        modify (set_ofile (<[Z.to_nat fd1 := None]>)) ;;
        close
      else ret 0
  end.

End sysfile.
