(* ===== verification/Kern.v ===== *)
(** * The kernel as one process sees it

   The state of the whole kernel during a call of one process: physical
   memory (Kalloc.v, Vm.v), files (File.v), the process table of
   kernel/proc.c, the clock and the registers of the CPU.  The components
   are found in it through lenses: a component's wakeup() marks processes
   runnable, its user memory is the page table of the running process, its
   pages come from the allocator. *)

From stdpp Require Import base numbers list gmap strings.
From Stdlib Require Import ZArith Lia.
From S2P Require Import Prelude Params UserMem Kalloc Vm Fs Pipe Console File Sysfile.

(** enum procstate *)
Inductive procstate := UNUSED | USED | SLEEPING | RUNNABLE | RUNNING | ZOMBIE.
#[global] Instance procstate_eq_dec : EqDecision procstate.
Proof. solve_decision. Defined.

(** struct proc; a pointer to a process is its index, and a channel the
    object it points to. *)
Record proc := Proc {
  p_lock : bool;
  p_state : procstate;
  p_chan : option chan;
  p_killed : Z;
  p_xstate : Z;
  p_pid : Z;
  p_parent : option nat;
  p_kstack : Z;
  p_sz : Z;
  p_pagetable : Z;
  p_trapframe : Z;
  p_context : list Z;           (* ra, sp, s0 ... s11 *)
  p_ofile : list (option nat);
  p_cwd : option nat;
  p_name : list Z
}.
Definition proc0 : proc :=
  Proc false UNUSED None 0 0 0 None 0 0 0 0 (replicate 14 0) (replicate (Z.to_nat NOFILE) None) None
    (replicate 16 0).

(** The supervisor registers that kernel/trap.c uses. *)
Record csrs := Csrs {
  r_sstatus : Z; r_sepc : Z; r_scause : Z; r_stval : Z; r_stvec : Z; r_satp : Z; r_tp : Z;
  r_time : Z; r_stimecmp : Z
}.

Record kern := Kern {
  n_mem : kmem;
  n_files : fstate unit;
  n_proc : list proc;
  n_wait_lock : bool;
  n_pid_lock : bool;
  n_nextpid : Z;
  n_initproc : option nat;
  n_cur : option nat;           (* mycpu()->proc *)
  n_tickslock : bool;
  n_ticks : Z;
  n_intr : bool;                (* interrupts are on while no lock is held *)
  n_first : bool;               (* forkret()'s static int first *)
  n_csr : csrs
}.

(** ** Fields *)

Definition set_mem (m : kmem) (k : kern) : kern :=
  Kern m (n_files k) (n_proc k) (n_wait_lock k) (n_pid_lock k) (n_nextpid k) (n_initproc k) (n_cur k)
    (n_tickslock k) (n_ticks k) (n_intr k) (n_first k) (n_csr k).
Definition set_procs (f : list proc -> list proc) (k : kern) : kern :=
  Kern (n_mem k) (n_files k) (f (n_proc k)) (n_wait_lock k) (n_pid_lock k) (n_nextpid k) (n_initproc k) (n_cur k)
    (n_tickslock k) (n_ticks k) (n_intr k) (n_first k) (n_csr k).
Definition set_nextpid (p : Z) (k : kern) : kern :=
  Kern (n_mem k) (n_files k) (n_proc k) (n_wait_lock k) (n_pid_lock k) p (n_initproc k) (n_cur k)
    (n_tickslock k) (n_ticks k) (n_intr k) (n_first k) (n_csr k).
Definition set_initproc (p : option nat) (k : kern) : kern :=
  Kern (n_mem k) (n_files k) (n_proc k) (n_wait_lock k) (n_pid_lock k) (n_nextpid k) p (n_cur k)
    (n_tickslock k) (n_ticks k) (n_intr k) (n_first k) (n_csr k).
Definition set_cur (c : option nat) (k : kern) : kern :=
  Kern (n_mem k) (n_files k) (n_proc k) (n_wait_lock k) (n_pid_lock k) (n_nextpid k) (n_initproc k) c
    (n_tickslock k) (n_ticks k) (n_intr k) (n_first k) (n_csr k).
Definition set_ticks (t : Z) (k : kern) : kern :=
  Kern (n_mem k) (n_files k) (n_proc k) (n_wait_lock k) (n_pid_lock k) (n_nextpid k) (n_initproc k) (n_cur k)
    (n_tickslock k) t (n_intr k) (n_first k) (n_csr k).
Definition set_intr (b : bool) (k : kern) : kern :=
  Kern (n_mem k) (n_files k) (n_proc k) (n_wait_lock k) (n_pid_lock k) (n_nextpid k) (n_initproc k) (n_cur k)
    (n_tickslock k) (n_ticks k) b (n_first k) (n_csr k).
Definition set_first (b : bool) (k : kern) : kern :=
  Kern (n_mem k) (n_files k) (n_proc k) (n_wait_lock k) (n_pid_lock k) (n_nextpid k) (n_initproc k) (n_cur k)
    (n_tickslock k) (n_ticks k) (n_intr k) b (n_csr k).
Definition set_csr (f : csrs -> csrs) (k : kern) : kern :=
  Kern (n_mem k) (n_files k) (n_proc k) (n_wait_lock k) (n_pid_lock k) (n_nextpid k) (n_initproc k) (n_cur k)
    (n_tickslock k) (n_ticks k) (n_intr k) (n_first k) (f (n_csr k)).

Definition L_mem : lens kern kmem := Lens n_mem set_mem.
Definition L_wait_lock : lens kern bool :=
  Lens n_wait_lock (fun b k =>
    Kern (n_mem k) (n_files k) (n_proc k) b (n_pid_lock k) (n_nextpid k) (n_initproc k) (n_cur k)
      (n_tickslock k) (n_ticks k) (n_intr k) (n_first k) (n_csr k)).
Definition L_pid_lock : lens kern bool :=
  Lens n_pid_lock (fun b k =>
    Kern (n_mem k) (n_files k) (n_proc k) (n_wait_lock k) b (n_nextpid k) (n_initproc k) (n_cur k)
      (n_tickslock k) (n_ticks k) (n_intr k) (n_first k) (n_csr k)).
Definition L_tickslock : lens kern bool :=
  Lens n_tickslock (fun b k =>
    Kern (n_mem k) (n_files k) (n_proc k) (n_wait_lock k) (n_pid_lock k) (n_nextpid k) (n_initproc k) (n_cur k)
      b (n_ticks k) (n_intr k) (n_first k) (n_csr k)).

(** Stores to one field of a process. *)
Definition pset_lock (b : bool) (p : proc) : proc :=
  Proc b (p_state p) (p_chan p) (p_killed p) (p_xstate p) (p_pid p) (p_parent p) (p_kstack p) (p_sz p)
    (p_pagetable p) (p_trapframe p) (p_context p) (p_ofile p) (p_cwd p) (p_name p).
Definition pset_state (st : procstate) (p : proc) : proc :=
  Proc (p_lock p) st (p_chan p) (p_killed p) (p_xstate p) (p_pid p) (p_parent p) (p_kstack p) (p_sz p)
    (p_pagetable p) (p_trapframe p) (p_context p) (p_ofile p) (p_cwd p) (p_name p).
Definition pset_chan (c : option chan) (p : proc) : proc :=
  Proc (p_lock p) (p_state p) c (p_killed p) (p_xstate p) (p_pid p) (p_parent p) (p_kstack p) (p_sz p)
    (p_pagetable p) (p_trapframe p) (p_context p) (p_ofile p) (p_cwd p) (p_name p).
Definition pset_killed (v : Z) (p : proc) : proc :=
  Proc (p_lock p) (p_state p) (p_chan p) v (p_xstate p) (p_pid p) (p_parent p) (p_kstack p) (p_sz p)
    (p_pagetable p) (p_trapframe p) (p_context p) (p_ofile p) (p_cwd p) (p_name p).
Definition pset_xstate (v : Z) (p : proc) : proc :=
  Proc (p_lock p) (p_state p) (p_chan p) (p_killed p) v (p_pid p) (p_parent p) (p_kstack p) (p_sz p)
    (p_pagetable p) (p_trapframe p) (p_context p) (p_ofile p) (p_cwd p) (p_name p).
Definition pset_pid (v : Z) (p : proc) : proc :=
  Proc (p_lock p) (p_state p) (p_chan p) (p_killed p) (p_xstate p) v (p_parent p) (p_kstack p) (p_sz p)
    (p_pagetable p) (p_trapframe p) (p_context p) (p_ofile p) (p_cwd p) (p_name p).
Definition pset_parent (v : option nat) (p : proc) : proc :=
  Proc (p_lock p) (p_state p) (p_chan p) (p_killed p) (p_xstate p) (p_pid p) v (p_kstack p) (p_sz p)
    (p_pagetable p) (p_trapframe p) (p_context p) (p_ofile p) (p_cwd p) (p_name p).
Definition pset_kstack (v : Z) (p : proc) : proc :=
  Proc (p_lock p) (p_state p) (p_chan p) (p_killed p) (p_xstate p) (p_pid p) (p_parent p) v (p_sz p)
    (p_pagetable p) (p_trapframe p) (p_context p) (p_ofile p) (p_cwd p) (p_name p).
Definition pset_sz (v : Z) (p : proc) : proc :=
  Proc (p_lock p) (p_state p) (p_chan p) (p_killed p) (p_xstate p) (p_pid p) (p_parent p) (p_kstack p) v
    (p_pagetable p) (p_trapframe p) (p_context p) (p_ofile p) (p_cwd p) (p_name p).
Definition pset_pagetable (v : Z) (p : proc) : proc :=
  Proc (p_lock p) (p_state p) (p_chan p) (p_killed p) (p_xstate p) (p_pid p) (p_parent p) (p_kstack p) (p_sz p)
    v (p_trapframe p) (p_context p) (p_ofile p) (p_cwd p) (p_name p).
Definition pset_trapframe (v : Z) (p : proc) : proc :=
  Proc (p_lock p) (p_state p) (p_chan p) (p_killed p) (p_xstate p) (p_pid p) (p_parent p) (p_kstack p) (p_sz p)
    (p_pagetable p) v (p_context p) (p_ofile p) (p_cwd p) (p_name p).
Definition pset_context (v : list Z) (p : proc) : proc :=
  Proc (p_lock p) (p_state p) (p_chan p) (p_killed p) (p_xstate p) (p_pid p) (p_parent p) (p_kstack p) (p_sz p)
    (p_pagetable p) (p_trapframe p) v (p_ofile p) (p_cwd p) (p_name p).
Definition pset_ofile (v : list (option nat)) (p : proc) : proc :=
  Proc (p_lock p) (p_state p) (p_chan p) (p_killed p) (p_xstate p) (p_pid p) (p_parent p) (p_kstack p) (p_sz p)
    (p_pagetable p) (p_trapframe p) (p_context p) v (p_cwd p) (p_name p).
Definition pset_cwd (v : option nat) (p : proc) : proc :=
  Proc (p_lock p) (p_state p) (p_chan p) (p_killed p) (p_xstate p) (p_pid p) (p_parent p) (p_kstack p) (p_sz p)
    (p_pagetable p) (p_trapframe p) (p_context p) (p_ofile p) v (p_name p).
Definition pset_name (v : list Z) (p : proc) : proc :=
  Proc (p_lock p) (p_state p) (p_chan p) (p_killed p) (p_xstate p) (p_pid p) (p_parent p) (p_kstack p) (p_sz p)
    (p_pagetable p) (p_trapframe p) (p_context p) (p_ofile p) (p_cwd p) v.

Definition getp (i : nat) (k : kern) : proc := default proc0 (n_proc k !! i).
Definition upd_proc (i : nat) (f : proc -> proc) : M kern unit := modify (set_procs (alter f i)).
Definition L_plock (i : nat) : lens kern bool :=
  Lens (fun k => p_lock (getp i k)) (fun b => set_procs (alter (pset_lock b) i)).

(** myproc(): every caller but the scheduler runs in a process. *)
Definition cur (k : kern) : nat := default 0%nat (n_cur k).
Definition myproc : M kern nat := gets cur.

(* ------------------------------------------------------------------ *)
(** ** The memory of the running process *)

Record pmem := PMem { pm_mem : kmem; pm_root : Z; pm_sz : Z }.
Definition L_pm : lens pmem kmem := Lens pm_mem (fun m p => PMem m (pm_root p) (pm_sz p)).

Section kend.
Context (kend : Z).

Definition pmem_user : UserOps pmem := {|
  ucopyin a n := fun p => zoom L_pm (Vm.copyin kend (pm_sz p) (pm_root p) (pm_root p) (u64 a) n) p;
  ucopyout a bs := fun p => zoom L_pm (Vm.copyout kend (pm_sz p) (pm_root p) (pm_root p) (u64 a) (map u8 bs)) p;
  ucopyinstr a max := fun p => zoom L_pm (Vm.copyinstr (pm_root p) (u64 a) max) p
|}.
Definition pmem_pages : PageOps pmem := {|
  page_alloc := zoom L_pm kalloc;
  page_free pa := zoom L_pm (kfree kend pa)
|}.

End kend.

(* ------------------------------------------------------------------ *)
(** ** Files and system calls inside the kernel *)

(** if(p->state == SLEEPING && p->chan == chan) p->state = RUNNABLE; *)
Definition wake (c : chan) (p : proc) : proc :=
  if decide (p_state p = SLEEPING /\ p_chan p = Some c) then pset_state RUNNABLE p else p.
(** wakeup(chan) by process [self]: every other sleeper on the channel. *)
Definition wake_others (self : option nat) (c : chan) (ps : list proc) : list proc :=
  imap (fun i p => if decide (self = Some i) then p else wake c p) ps.
Definition wake_list (cs : list chan) (k : kern) : kern :=
  set_procs (fun ps => fold_left (fun ps c => wake_others (n_cur k) c ps) cs ps) k.

Definition with_user {U V} (v : V) (pid : Z) (cwd : nat) (f : fs U) : fs V :=
  Fs (f_sb f) (f_blk f) (f_itlock f) (f_itab f) pid cwd v [].
Definition with_fs {U V} (f : fs V) (s : fstate U) : fstate V :=
  FState f (k_ftlock s) (k_file s) (k_pipes s) (k_devsw s) (k_cons s) (k_kills s).

Definition get_files (k : kern) : fstate pmem :=
  let p := getp (cur k) k in
  with_fs (with_user (PMem (n_mem k) (p_pagetable p) (p_sz p)) (p_pid p) (default 0%nat (p_cwd p)) (k_fs (n_files k)))
    (n_files k).
Definition put_cwd (i : nat) (p : proc) : proc :=
  match p_cwd p with Some _ => pset_cwd (Some i) p | None => p end.
Definition put_files (s : fstate pmem) (k : kern) : kern :=
  let k := wake_list (f_woken (k_fs s)) k in
  Kern (pm_mem (f_user (k_fs s))) (with_fs (with_user tt 0 0 (k_fs s)) s) (alter (put_cwd (f_cwd (k_fs s))) (cur k) (n_proc k))
    (n_wait_lock k) (n_pid_lock k) (n_nextpid k) (n_initproc k) (n_cur k) (n_tickslock k) (n_ticks k) (n_intr k)
    (n_first k) (n_csr k).
Definition L_files : lens kern (fstate pmem) := Lens get_files put_files.
Definition L_nfs : lens kern (fs pmem) := lens_comp L_files L_fs.

(** Offsets in struct trapframe. *)
Definition TF_kernel_satp : Z := 0.
Definition TF_kernel_sp : Z := 8.
Definition TF_kernel_trap : Z := 16.
Definition TF_epc : Z := 24.
Definition TF_kernel_hartid : Z := 32.
Definition TF_sp : Z := 48.
Definition TF_a0 : Z := 112.
Definition TF_a1 : Z := 120.
Definition TF_a7 : Z := 168.
Definition TF_SIZE : nat := 288.

Definition tf_get (i : nat) (off : Z) : M kern Z := fun k => zoom L_mem (rd64 (p_trapframe (getp i k) + off)) k.
Definition tf_put (i : nat) (off v : Z) : M kern unit := fun k =>
  zoom L_mem (wr64 (p_trapframe (getp i k) + off) v) k.

(** A system call of sysfile.c for the running process, with its argument
    registers. *)
Definition get_sys (args : list Z) (k : kern) : sys pmem :=
  let p := getp (cur k) k in Sys (get_files k) (p_ofile p) args (p_sz p).
Definition put_sys (y : sys pmem) (k : kern) : kern :=
  set_procs (alter (pset_ofile (y_ofile y)) (cur k)) (put_files (y_k y) k).
Definition L_sys (args : list Z) : lens kern (sys pmem) := Lens (get_sys args) put_sys.

Fixpoint tf_args (i : nat) (off : Z) (n : nat) : M kern (list Z) :=
  match n with
  | O => ret []
  | S n' => let* a := tf_get i off in let* l := tf_args i (off + 8) n' in ret (a :: l)
  end.
Definition in_sys {A} (m : M (sys pmem) A) : M kern A :=
  let* p := myproc in
  let* args := tf_args p TF_a0 6 in
  zoom (L_sys args) m.

(** mycpu()->noff: acquire() and release() nest push_off() and pop_off(). *)
Definition held_locks (k : kern) : Z :=
  let s := n_files k in
  Z.of_nat (length (filter (fun p => p_lock p = true) (n_proc k))) +
  Z.b2z (n_wait_lock k) + Z.b2z (n_pid_lock k) + Z.b2z (n_tickslock k) + Z.b2z (km_lock (n_mem k)) +
  Z.b2z (k_ftlock s) + Z.b2z (f_itlock (k_fs s)) + Z.b2z (co_lock (cs_cons (k_cons s))) +
  Z.b2z (cs_tx_lock (k_cons s)) +
  Z.of_nat (length (filter (fun kv => pi_lock (snd kv) = true) (map_to_list (k_pipes s)))).
Definition intr_get (k : kern) : bool := n_intr k && (held_locks k =? 0).
Definition intr_on : M kern unit := modify (set_intr true).
Definition intr_off : M kern unit := modify (set_intr false).
