(* ===== verification/Proc.v ===== *)
(** * kernel/proc.c: processes

   The process table: creating, running, waiting for and killing processes.
   [sched] leaves the running process with [Sleep]: the scheduler and the
   other processes run, and the call continues in the state they leave. *)

From stdpp Require Import base numbers list gmap strings.
From Stdlib Require Import ZArith Lia.
From S2P Require Import Prelude Params Cmem KString UserMem Kalloc Vm Fs Pipe Console File Sysfile Kern.

Section proc.
Context `{WakeBudget} (kend trampoline forkret : Z) (stack : list Z).

#[local] Instance proc_user : UserOps pmem := pmem_user kend.
#[local] Instance proc_pages : PageOps pmem := pmem_pages kend.

Notation K := (M kern).

Definition in_mem {A} (m : M kmem A) : K A := zoom L_mem m.

(** A sleep inside a component is a sleep() of the process. *)
Fixpoint as_process {A} (p : nat) (o : out kern A) : out kern A :=
  match o with
  | Sleep c k r =>
      Sleep c (set_procs (alter (fun x => pset_chan (Some c) (pset_state SLEEPING x)) p) k)
        (fun k' => as_process p (r (set_procs (alter (pset_chan None) p) k')))
  | o => o
  end.
Definition in_files {A} (m : M (fstate pmem) A) : K A := fun k => as_process (cur k) (zoom L_files m k).
Definition in_fs {A} (m : M (fs pmem) A) : K A := fun k => as_process (cur k) (zoom L_nfs m k).

Definition procinit : K unit :=
  modify (lset L_pid_lock false) ;;
  modify (lset L_wait_lock false) ;;
  for_range (Z.to_nat NPROC) 0 (fun i =>
    upd_proc (Z.to_nat i) (fun p => pset_kstack (KSTACK i) (pset_state UNUSED (pset_lock false p)))).

Definition allocpid : K Z :=
  lock_acquire L_pid_lock ;;
  let* pid := gets n_nextpid in
  modify (set_nextpid (i32 (pid + 1))) ;;
  lock_release L_pid_lock ;;
  ret pid.

(* ------------------------------------------------------------------ *)
(** ** Page tables and memory of a process *)

Definition proc_pagetable (p : nat) : K Z :=
  let* pagetable := in_mem uvmcreate in
  if pagetable =? 0 then ret 0
  else
  let* r := in_mem (mappages pagetable TRAMPOLINE PGSIZE trampoline (Z.lor PTE_R PTE_X)) in
  if r <? 0 then in_mem (uvmfree kend pagetable 0) ;; ret 0
  else
  let* tf := gets (fun k => p_trapframe (getp p k)) in
  let* r := in_mem (mappages pagetable TRAPFRAME PGSIZE tf (Z.lor PTE_R PTE_W)) in
  if r <? 0 then
    in_mem (uvmunmap kend pagetable TRAMPOLINE 1 false) ;; in_mem (uvmfree kend pagetable 0) ;; ret 0
  else ret pagetable.

Definition proc_freepagetable (pagetable sz : Z) : K unit :=
  in_mem (uvmunmap kend pagetable TRAMPOLINE 1 false) ;;
  in_mem (uvmunmap kend pagetable TRAPFRAME 1 false) ;;
  in_mem (uvmfree kend pagetable sz).

Definition freeproc (i : nat) : K unit :=
  let* p := gets (getp i) in
  (if negb (p_trapframe p =? 0) then in_mem (kfree kend (p_trapframe p)) else ret tt) ;;
  upd_proc i (pset_trapframe 0) ;;
  (if negb (p_pagetable p =? 0) then proc_freepagetable (p_pagetable p) (p_sz p) else ret tt) ;;
  upd_proc i (pset_pagetable 0) ;;
  upd_proc i (pset_sz 0) ;;
  upd_proc i (pset_pid 0) ;;
  upd_proc i (pset_parent None) ;;
  upd_proc i (fun p => pset_name (<[0%nat := 0]> (p_name p)) p) ;;
  upd_proc i (pset_chan None) ;;
  upd_proc i (pset_killed 0) ;;
  upd_proc i (pset_xstate 0) ;;
  upd_proc i (pset_state UNUSED).

(** for(p = proc; p < &proc[NPROC]; p++) of allocproc(): an unused process,
    its lock held. *)
Fixpoint find_unused (n i : nat) : K (option nat) :=
  match n with
  | O => ret None
  | S n' =>
      lock_acquire (L_plock i) ;;
      let* p := gets (getp i) in
      if decide (p_state p = UNUSED) then ret (Some i)
      else lock_release (L_plock i) ;; find_unused n' (S i)
  end.

Definition allocproc : K (option nat) :=
  let* found := find_unused (Z.to_nat NPROC) 0 in
  match found with
  | None => ret None
  | Some i =>
      let* pid := allocpid in
      upd_proc i (pset_pid pid) ;;
      upd_proc i (pset_state USED) ;;
      let* tf := in_mem kalloc in
      upd_proc i (pset_trapframe tf) ;;
      if tf =? 0 then freeproc i ;; lock_release (L_plock i) ;; ret None
      else
      let* pt := proc_pagetable i in
      upd_proc i (pset_pagetable pt) ;;
      if pt =? 0 then freeproc i ;; lock_release (L_plock i) ;; ret None
      else
      upd_proc i (fun p => pset_context (forkret :: u64 (p_kstack p + PGSIZE) :: replicate 12 0) p) ;;
      ret (Some i)
  end.

Definition growproc (n : Z) : K Z :=
  let* i := myproc in
  let* p := gets (getp i) in
  let sz := p_sz p in
  if n >? 0 then
    let* sz := in_mem (uvmalloc kend (p_pagetable p) sz (u64 (sz + n)) PTE_W) in
    if sz =? 0 then ret (-1) else upd_proc i (pset_sz sz) ;; ret 0
  else if n <? 0 then
    let* sz := in_mem (uvmdealloc kend (p_pagetable p) sz (u64 (sz + n))) in
    upd_proc i (pset_sz sz) ;; ret 0
  else upd_proc i (pset_sz sz) ;; ret 0.

(* ------------------------------------------------------------------ *)
(** ** Switching *)

Definition sched : K unit := fun k =>
  let p := getp (cur k) k in
  if negb (p_lock p) then Panic "sched p->lock"
  else if negb (held_locks k =? 1) then Panic "sched locks"
  else if decide (p_state p = RUNNING) then Panic "sched RUNNING"
  else if intr_get k then Panic "sched interruptible"
  else Sleep (default ChYield (p_chan p)) k (fun k' => Ok tt k').

Definition yield : K unit :=
  let* i := myproc in
  lock_acquire (L_plock i) ;;
  upd_proc i (pset_state RUNNABLE) ;;
  sched ;;
  lock_release (L_plock i).

Definition sleep (c : chan) (lk : lens kern bool) : K unit :=
  let* i := myproc in
  lock_acquire (L_plock i) ;;
  lock_release lk ;;
  upd_proc i (pset_chan (Some c)) ;;
  upd_proc i (pset_state SLEEPING) ;;
  sched ;;
  upd_proc i (pset_chan None) ;;
  lock_release (L_plock i) ;;
  lock_acquire lk.

Definition wakeup (c : chan) : K unit :=
  for_range (Z.to_nat NPROC) 0 (fun z =>
    let i := Z.to_nat z in
    let* self := gets n_cur in
    if decide (self = Some i) then ret tt
    else
      lock_acquire (L_plock i) ;;
      upd_proc i (wake c) ;;
      lock_release (L_plock i)).

(** One round of the loop of scheduler(): every runnable process runs until
    it comes back through sched(); [run] is swtch() to it.  The result is
    [found]. *)
Fixpoint scheduler_round (run : nat -> K unit) (n i : nat) (found : bool) : K bool :=
  match n with
  | O => ret found
  | S n' =>
      lock_acquire (L_plock i) ;;
      let* p := gets (getp i) in
      if decide (p_state p = RUNNABLE) then
        upd_proc i (pset_state RUNNING) ;;
        modify (set_cur (Some i)) ;;
        run i ;;
        modify (set_cur None) ;;
        lock_release (L_plock i) ;;
        scheduler_round run n' (S i) true
      else
        lock_release (L_plock i) ;;
        scheduler_round run n' (S i) found
  end.

(** scheduler() for [rounds] rounds; [wfi] waits for an interrupt. *)
Fixpoint scheduler_loop (run : nat -> K unit) (wfi : K unit) (rounds : nat) : K unit :=
  match rounds with
  | O => ret tt
  | S r =>
      intr_on ;;
      intr_off ;;
      let* found := scheduler_round run (Z.to_nat NPROC) 0 false in
      (if negb found then wfi else ret tt) ;;
      scheduler_loop run wfi r
  end.
Definition scheduler (run : nat -> K unit) (wfi : K unit) (rounds : nat) : K unit :=
  modify (set_cur None) ;; scheduler_loop run wfi rounds.

(* ------------------------------------------------------------------ *)
(** ** Fork, exit, wait, kill *)

Definition ROOT_PATH : list Z := [47; 0].

Definition userinit : K unit :=
  let* p := allocproc in
  modify (set_initproc p) ;;
  match p with
  | None => ub "null process"
  | Some i =>
      let* cwd := in_fs (namei ROOT_PATH (take (Z.to_nat DIRSIZ) stack)) in
      upd_proc i (pset_cwd cwd) ;;
      upd_proc i (pset_state RUNNABLE) ;;
      lock_release (L_plock i)
  end.

(** safestrcpy(np->name, p->name, sizeof(p->name)) *)
Definition copy_name (np p : nat) : K unit :=
  let* d := gets (fun k => p_name (getp np k)) in
  let* s := gets (fun k => p_name (getp p k)) in
  let* r := string_op (safestrcpy 0 (Z.of_nat (length d)) 16) (d ++ s) in
  upd_proc np (pset_name (take (length d) (snd r))).

(** if(p->ofile[i]) np->ofile[i] = filedup(p->ofile[i]); *)
Definition dup_file (np p : nat) (z : Z) : K unit :=
  let* f := gets (fun k => default None (p_ofile (getp p k) !! Z.to_nat z)) in
  match f with
  | None => ret tt
  | Some f =>
      let* g := in_files (filedup f) in
      upd_proc np (fun x => pset_ofile (<[Z.to_nat z := Some g]> (p_ofile x)) x)
  end.

Definition kfork : K Z :=
  let* p := myproc in
  let* a := allocproc in
  match a with
  | None => ret (-1)
  | Some np =>
      let* old := gets (getp p) in
      let* new := gets (getp np) in
      let* r := in_mem (uvmcopy kend (p_pagetable old) (p_pagetable new) (p_sz old)) in
      if r <? 0 then freeproc np ;; lock_release (L_plock np) ;; ret (-1)
      else
      upd_proc np (pset_sz (p_sz old)) ;;
      let* bs := in_mem (rd_bytes (p_trapframe old) TF_SIZE) in
      in_mem (wr_bytes (p_trapframe new) bs) ;;
      tf_put np TF_a0 0 ;;
      for_range (Z.to_nat NOFILE) 0 (dup_file np p) ;;
      let* cwd := match p_cwd old with
                  | Some c => let* d := in_fs (idup c) in ret (Some d)
                  | None => ub "null inode"
                  end in
      upd_proc np (pset_cwd cwd) ;;
      copy_name np p ;;
      let* pid := gets (fun k => p_pid (getp np k)) in
      lock_release (L_plock np) ;;
      lock_acquire L_wait_lock ;;
      upd_proc np (pset_parent (Some p)) ;;
      lock_release L_wait_lock ;;
      lock_acquire (L_plock np) ;;
      upd_proc np (pset_state RUNNABLE) ;;
      lock_release (L_plock np) ;;
      ret pid
  end.

(** The address of a process as a channel. *)
Definition pchan (p : option nat) : chan := match p with Some i => ChProc i | None => ChYield end.

Definition reparent (p : nat) : K unit :=
  for_range (Z.to_nat NPROC) 0 (fun z =>
    let* pp := gets (getp (Z.to_nat z)) in
    if decide (p_parent pp = Some p) then
      let* init := gets n_initproc in
      upd_proc (Z.to_nat z) (pset_parent init) ;;
      wakeup (pchan init)
    else ret tt).

(** if(p->ofile[fd]) { fileclose(f); p->ofile[fd] = 0; } *)
Definition close_fd (p : nat) (z : Z) : K unit :=
  let* f := gets (fun k => default None (p_ofile (getp p k) !! Z.to_nat z)) in
  match f with
  | None => ret tt
  | Some f =>
      in_files (fileclose f) ;;
      upd_proc p (fun x => pset_ofile (<[Z.to_nat z := None]> (p_ofile x)) x)
  end.

Definition kexit (status : Z) : K unit :=
  let* p := myproc in
  let* init := gets n_initproc in
  if decide (init = Some p) then panic "init exiting"
  else
    for_range (Z.to_nat NOFILE) 0 (close_fd p) ;;
    in_fs begin_op ;;
    let* cwd := gets (fun k => p_cwd (getp p k)) in
    match cwd with Some c => in_fs (iput c) | None => ub "null inode" end ;;
    in_fs end_op ;;
    upd_proc p (pset_cwd None) ;;
    lock_acquire L_wait_lock ;;
    reparent p ;;
    let* parent := gets (fun k => p_parent (getp p k)) in
    wakeup (pchan parent) ;;
    lock_acquire (L_plock p) ;;
    upd_proc p (pset_xstate status) ;;
    upd_proc p (pset_state ZOMBIE) ;;
    lock_release L_wait_lock ;;
    sched ;;
    panic "zombie exit".

Definition killed (i : nat) : K Z :=
  lock_acquire (L_plock i) ;;
  let* k := gets (fun k => p_killed (getp i k)) in
  lock_release (L_plock i) ;;
  ret k.

Definition setkilled (i : nat) : K unit :=
  lock_acquire (L_plock i) ;;
  upd_proc i (pset_killed 1) ;;
  lock_release (L_plock i).

(** copyout(p->pagetable, addr, &pp->xstate, sizeof(pp->xstate)) *)
Definition copyout_xstate (p pp : nat) (addr : Z) : K bool :=
  let* me := gets (getp p) in
  let* child := gets (getp pp) in
  in_mem (Vm.copyout kend (p_sz me) (p_pagetable me) (p_pagetable me) addr (st32 0 (p_xstate child) [0; 0; 0; 0])).

(** The scan of kwait(): havekids, or the value it returns. *)
Fixpoint wait_scan (n pp : nat) (p : nat) (addr : Z) (havekids : bool) : K (bool + Z) :=
  match n with
  | O => ret (inl havekids)
  | S n' =>
      let* c := gets (getp pp) in
      if decide (p_parent c = Some p) then
        lock_acquire (L_plock pp) ;;
        let* c := gets (getp pp) in
        if decide (p_state c = ZOMBIE) then
          let pid := p_pid c in
          let* ok := if negb (addr =? 0) then copyout_xstate p pp addr else ret true in
          if negb ok then
            lock_release (L_plock pp) ;; lock_release L_wait_lock ;; ret (inr (-1))
          else
            freeproc pp ;;
            lock_release (L_plock pp) ;;
            lock_release L_wait_lock ;;
            ret (inr pid)
        else lock_release (L_plock pp) ;; wait_scan n' (S pp) p addr true
      else wait_scan n' (S pp) p addr havekids
  end.

Fixpoint wait_loop (fuel : nat) (p : nat) (addr : Z) : K Z :=
  let* r := wait_scan (Z.to_nat NPROC) 0 p addr false in
  match r with
  | inr pid => ret pid
  | inl havekids =>
      let* stop := if negb havekids then ret true else let* k := killed p in ret (negb (k =? 0)) in
      if stop : bool then lock_release L_wait_lock ;; ret (-1)
      else
        match fuel with
        | O => diverge
        | S f => sleep (ChProc p) L_wait_lock ;; wait_loop f p addr
        end
  end.

Definition kwait (addr : Z) : K Z :=
  let* p := myproc in
  lock_acquire L_wait_lock ;;
  wait_loop wake_budget p addr.

(** for(p = proc; p < &proc[NPROC]; p++) of kkill() *)
Fixpoint kill_loop (n i : nat) (pid : Z) : K Z :=
  match n with
  | O => ret (-1)
  | S n' =>
      lock_acquire (L_plock i) ;;
      let* p := gets (getp i) in
      if p_pid p =? pid then
        upd_proc i (pset_killed 1) ;;
        (if decide (p_state p = SLEEPING) then upd_proc i (pset_state RUNNABLE) else ret tt) ;;
        lock_release (L_plock i) ;;
        ret 0
      else
        lock_release (L_plock i) ;;
        kill_loop n' (S i) pid
  end.
Definition kkill (pid : Z) : K Z := kill_loop (Z.to_nat NPROC) 0 pid.

End proc.
