(* ===== verification/Sched.v ===== *)
(** * Sleep, wakeup and the scheduler on many CPUs

   The statements of sleep(), wakeup(), yield(), sched(), forkret() and
   scheduler() of kernel/proc.c as atomic steps of any number of CPUs.  A
   lock is taken and given back by acquire() and release() of Spinlock.v,
   whose interleavings are studied there.  swtch() moves the program counter
   of a process between the CPU that runs it and the process's saved
   context.

   Around these functions the kernel code is arbitrary within the rules the
   kernel follows: a channel has a condition and a lock that protects it;
   code that holds the lock may change the condition, must call wakeup()
   before it gives the lock back if it made the condition true, and calls
   sleep() only after it saw the condition false.  Code runs in a process or
   in an interrupt handler on top of whatever the CPU was doing, and a timer
   interrupt may end with yield(). *)

From stdpp Require Import base numbers list functions strings.
From Stdlib Require Import ZArith Lia.
From S2P Require Import Prelude Params Spinlock Kern.

(** The locks: that of a process, and those that protect conditions. *)
Inductive lock := LProc (i : nat) | LCond (l : nat).
#[global] Instance lock_eq_dec : EqDecision lock.
Proof. solve_decision. Defined.

(** Inside wakeup(): at the loop test for process [i], holding its lock
    before the test of its state, and before the release. *)
Inductive wakepc := WkLoop (i : nat) | WkTest (i : nat) | WkRel (i : nat).

(** Kernel code around a condition lock: what it made true and has not yet
    told ([pend]) and what it called wakeup() for ([woke]), since it took
    the lock. *)
Inductive kpc :=
| Out
| Enter (l : nat)
| Crit (l : nat) (pend woke : list nat)
| Wake (l : nat) (pend woke : list nat) (ch : nat) (q : wakepc).

(** A process: one constructor for each statement of sleep(), yield() and
    the first of forkret().  [Yield] keeps the interrupted code. *)
Inductive tpc :=
| Code (q : kpc)
| SleepAcq (ch : nat) | SleepRel (ch : nat) | SleepChan (ch : nat) | SleepState (ch : nat)
| SleepSched (ch : nat) | SleepBack (ch : nat) | SleepTidy (ch : nat) | SleepUnlock (ch : nat)
| YieldAcq (q : kpc) | YieldState (q : kpc) | YieldSched (q : kpc) | YieldBack (q : kpc)
| YieldRel (q : kpc) | YieldRet (q : kpc)
| ForkRel.

(** Where a process that was switched away from continues: after the swtch()
    in sched(), called by sleep() or yield(), or at forkret(). *)
Inductive context := CtxSleep (ch : nat) | CtxYield (q : kpc) | CtxFork.

Definition resume (x : context) : tpc :=
  match x with CtxSleep ch => SleepBack ch | CtxYield q => YieldBack q | CtxFork => ForkRel end.

(** The scheduler of a CPU: [SRun i q] while process [i] runs on it. *)
Inductive spc :=
| SOn | SOff | SAcq (i : nat) | STest (i : nat) | SRun (i : nat) (q : tpc) | SRet (i : nat) | SRel (i : nat).

(** The part of struct proc at stake; [t_intena] is the local variable of
    sched() on the process's kernel stack. *)
Record tproc := TProc { t_state : procstate; t_chan : option nat; t_ctx : context; t_intena : bool }.

(** A CPU: struct cpu with its interrupt enable bit, c->proc, what it is
    executing, and the interrupt handler on top of that. *)
Record tcpu := TCpu { c_cpu : cpu; c_proc : option nat; c_pc : spc; c_irq : option kpc }.

Record world := World {
  w_cpu : nat -> tcpu;
  w_proc : nat -> tproc;
  w_lk : lock -> spinlock;
  w_cond : nat -> bool;
  w_panic : bool
}.

Definition put_cpu (c : nat) (x : tcpu) (w : world) : world :=
  World (<[c := x]> (w_cpu w)) (w_proc w) (w_lk w) (w_cond w) (w_panic w).
Definition put_proc (i : nat) (p : tproc) (w : world) : world :=
  World (w_cpu w) (<[i := p]> (w_proc w)) (w_lk w) (w_cond w) (w_panic w).
Definition put_lk (l : lock) (k : spinlock) (w : world) : world :=
  World (w_cpu w) (w_proc w) (<[l := k]> (w_lk w)) (w_cond w) (w_panic w).
Definition put_cond (ch : nat) (b : bool) (w : world) : world :=
  World (w_cpu w) (w_proc w) (w_lk w) (<[ch := b]> (w_cond w)) (w_panic w).
Definition panics (w : world) : world :=
  World (w_cpu w) (w_proc w) (w_lk w) (w_cond w) true.

Definition set_cc (k : cpu) (x : tcpu) : tcpu := TCpu k (c_proc x) (c_pc x) (c_irq x).
Definition set_spc (q : spc) (x : tcpu) : tcpu := TCpu (c_cpu x) (c_proc x) q (c_irq x).
Definition set_cproc (p : option nat) (x : tcpu) : tcpu := TCpu (c_cpu x) p (c_pc x) (c_irq x).
Definition set_irq (q : option kpc) (x : tcpu) : tcpu := TCpu (c_cpu x) (c_proc x) (c_pc x) q.
Definition set_intr (b : bool) (x : tcpu) : tcpu := set_cc (Cpu (noff (c_cpu x)) (intena (c_cpu x)) b) x.
Definition set_intena (b : bool) (x : tcpu) : tcpu := set_cc (Cpu (noff (c_cpu x)) b (intr (c_cpu x))) x.
Definition set_tstate (s : procstate) (p : tproc) : tproc := TProc s (t_chan p) (t_ctx p) (t_intena p).
Definition set_tchan (ch : option nat) (p : tproc) : tproc := TProc (t_state p) ch (t_ctx p) (t_intena p).

(** acquire(l) and release(l) on CPU [c]; [None] while another CPU has the
    lock. *)
Definition take (c : nat) (l : lock) (w : world) : option world :=
  match acquire c (Hart (c_cpu (w_cpu w c)) (w_lk w l)) with
  | Ok _ h => Some (put_cpu c (set_cc (h_cpu h) (w_cpu w c)) (put_lk l (h_lk h) w))
  | Diverge => None
  | _ => Some (panics w)
  end.
Definition give (c : nat) (l : lock) (w : world) : world :=
  match release c (Hart (c_cpu (w_cpu w c)) (w_lk w l)) with
  | Ok _ h => put_cpu c (set_cc (h_cpu h) (w_cpu w c)) (put_lk l (h_lk h) w)
  | _ => panics w
  end.

Definition nproc : nat := Z.to_nat NPROC.

Section sched.
(** The lock that protects a channel's condition. *)
Context (lk_of : nat -> nat).

(** What a CPU does next, where the code leaves a choice. *)
Inductive act :=
| Next
| AEnter (l : nat) | ASet (ch : nat) (b : bool) | AWake (ch : nat) | ASleep (ch : nat) | ALeave
| AIntr (b : bool) | AIrq | AIret | APreempt.

(** wakeup(ch), then back to the code that called it. *)
Definition wakeup_step (c : nat) (l : nat) (pend woke : list nat) (ch : nat) (q : wakepc) (w : world) : world * kpc :=
  match q with
  | WkLoop i =>
      if decide (i < nproc)%nat then
        if decide (c_proc (w_cpu w c) = Some i) then (w, Wake l pend woke ch (WkLoop (S i)))
        else match take c (LProc i) w with
             | Some w' => (w', Wake l pend woke ch (WkTest i))
             | None => (w, Wake l pend woke ch q)
             end
      else (w, Crit l (filter (fun x => x <> ch) pend) (ch :: woke))
  | WkTest i =>
      let p := w_proc w i in
      ((if decide (t_state p = SLEEPING /\ t_chan p = Some ch)
        then put_proc i (set_tstate RUNNABLE p) w else w), Wake l pend woke ch (WkRel i))
  | WkRel i => (give c (LProc i) w, Wake l pend woke ch (WkLoop (S i)))
  end.

(** Code of the kernel, under the rules for conditions. *)
Definition code_step (c : nat) (a : act) (q : kpc) (w : world) : world * kpc :=
  match q, a with
  | Out, AEnter l => (w, Enter l)
  | Enter l, _ =>
      match take c (LCond l) w with Some w' => (w', Crit l [] []) | None => (w, q) end
  | Crit l pend woke, ASet ch b =>
      if decide (lk_of ch = l) then
        (put_cond ch b w, Crit l (if b then if decide (ch ∈ woke) then pend else ch :: pend else pend) woke)
      else (w, q)
  | Crit l pend woke, AWake ch =>
      if decide (lk_of ch = l) then (w, Wake l pend woke ch (WkLoop 0)) else (w, q)
  | Crit l pend woke, ALeave => if decide (pend = []) then (give c (LCond l) w, Out) else (w, q)
  | Wake l pend woke ch p, _ => wakeup_step c l pend woke ch p w
  | _, _ => (w, q)
  end.

Definition goto (c i : nat) (q : tpc) (w : world) : world := put_cpu c (set_spc (SRun i q) (w_cpu w c)) w.

(** sched(): the checks, and swtch() to the CPU's scheduler. *)
Definition sched_step (c i : nat) (back : context) (w : world) : world :=
  let x := w_cpu w c in let p := w_proc w i in
  if negb (holding c (w_lk w (LProc i))) then panics w
  else if negb (noff (c_cpu x) =? 1) then panics w
  else if decide (t_state p = RUNNING) then panics w
  else if intr (c_cpu x) then panics w
  else put_cpu c (set_spc (SRet i) x)
         (put_proc i (TProc (t_state p) (t_chan p) back (intena (c_cpu x))) w).

(** mycpu()->intena = intena, after swtch() has come back. *)
Definition sched_back (c i : nat) (w : world) : world :=
  put_cpu c (set_intena (t_intena (w_proc w i)) (w_cpu w c)) w.

(** sleep(ch, lk) *)
Definition sleep_step (c i : nat) (q : tpc) (w : world) : world :=
  match q with
  | SleepAcq ch => match take c (LProc i) w with Some w' => goto c i (SleepRel ch) w' | None => w end
  | SleepRel ch => goto c i (SleepChan ch) (give c (LCond (lk_of ch)) w)
  | SleepChan ch => goto c i (SleepState ch) (put_proc i (set_tchan (Some ch) (w_proc w i)) w)
  | SleepState ch => goto c i (SleepSched ch) (put_proc i (set_tstate SLEEPING (w_proc w i)) w)
  | SleepSched ch => sched_step c i (CtxSleep ch) w
  | SleepBack ch => goto c i (SleepTidy ch) (sched_back c i w)
  | SleepTidy ch => goto c i (SleepUnlock ch) (put_proc i (set_tchan None (w_proc w i)) w)
  | SleepUnlock ch => goto c i (Code (Enter (lk_of ch))) (give c (LProc i) w)
  | _ => w
  end.

(** yield(), called at the end of a timer interrupt. *)
Definition yield_step (c i : nat) (q : tpc) (w : world) : world :=
  match q with
  | YieldAcq k => match take c (LProc i) w with Some w' => goto c i (YieldState k) w' | None => w end
  | YieldState k => goto c i (YieldSched k) (put_proc i (set_tstate RUNNABLE (w_proc w i)) w)
  | YieldSched k => sched_step c i (CtxYield k) w
  | YieldBack k => goto c i (YieldRel k) (sched_back c i w)
  | YieldRel k => goto c i (YieldRet k) (give c (LProc i) w)
  | YieldRet k => let w' := goto c i (Code k) w in put_cpu c (set_intr true (w_cpu w' c)) w'
  | _ => w
  end.

(** Process [i] on CPU [c]. *)
Definition proc_step (c i : nat) (a : act) (q : tpc) (w : world) : world :=
  match q with
  | Code k =>
      match k, a with
      | Crit l pend _, ASleep ch =>
          if decide (lk_of ch = l /\ w_cond w ch = false /\ pend = []) then goto c i (SleepAcq ch) w else w
      | Out, AIntr b => put_cpu c (set_intr b (w_cpu w c)) w
      | _, _ => let (w', k') := code_step c a k w in goto c i (Code k') w'
      end
  | SleepAcq _ | SleepRel _ | SleepChan _ | SleepState _ | SleepSched _ | SleepBack _ | SleepTidy _ | SleepUnlock _ =>
      sleep_step c i q w
  | ForkRel => goto c i (Code Out) (give c (LProc i) w)
  | _ => yield_step c i q w
  end.

(** scheduler() on CPU [c]; the wfi instruction only waits. *)
Definition scheduler_step (c : nat) (q : spc) (w : world) : world :=
  let x := w_cpu w c in
  match q with
  | SOn => put_cpu c (set_spc SOff (set_intr true x)) w
  | SOff => put_cpu c (set_spc (SAcq 0) (set_intr false x)) w
  | SAcq i =>
      if decide (i < nproc)%nat then
        match take c (LProc i) w with
        | Some w' => put_cpu c (set_spc (STest i) (w_cpu w' c)) w'
        | None => w
        end
      else put_cpu c (set_spc SOn x) w
  | STest i =>
      let p := w_proc w i in
      if decide (t_state p = RUNNABLE) then
        put_cpu c (set_spc (SRun i (resume (t_ctx p))) (set_cproc (Some i) x))
          (put_proc i (set_tstate RUNNING p) w)
      else put_cpu c (set_spc (SRel i) x) w
  | SRet i => put_cpu c (set_spc (SRel i) (set_cproc None x)) w
  | SRel i => let w' := give c (LProc i) w in put_cpu c (set_spc (SAcq (S i)) (w_cpu w' c)) w'
  | SRun _ _ => w
  end.

(** One atomic action of CPU [c]. *)
Definition step (c : nat) (a : act) (w : world) : world :=
  let x := w_cpu w c in
  match c_irq x, a with
  | Some Out, AIret => put_cpu c (set_intr true (set_irq None x)) w
  | Some Out, APreempt =>
      match c_pc x with
      | SRun i (Code k) => put_cpu c (set_spc (SRun i (YieldAcq k)) (set_irq None x)) w
      | _ => w
      end
  | Some q, _ => let (w', q') := code_step c a q w in put_cpu c (set_irq (Some q') (w_cpu w' c)) w'
  | None, AIrq => if intr (c_cpu x) then put_cpu c (set_intr false (set_irq (Some Out) x)) w else w
  | None, _ => match c_pc x with SRun i q => proc_step c i a q w | q => scheduler_step c q w end
  end.

(** Every process ready to run for the first time or not in use, every CPU
    at the start of its scheduler, every lock free. *)
Definition boot (ps : nat -> bool) (cond : nat -> bool) : world :=
  World (fun _ => TCpu (Cpu 0 false false) None SOn None)
    (fun i => TProc (if ps i then RUNNABLE else UNUSED) None CtxFork false)
    (fun _ => initlock) cond false.

Inductive reachable (ps cond : nat -> bool) : world -> Prop :=
| reach_boot : reachable ps cond (boot ps cond)
| reach_step c a w : reachable ps cond w -> reachable ps cond (step c a w).

End sched.
