(* ===== verification/SchedInv.v ===== *)
(** * The invariant of the scheduler

   Which locks a program counter holds, which states a process may be in
   while it runs and while it does not, and that every step keeps this. *)

From stdpp Require Import base numbers list functions strings.
From Stdlib Require Import ZArith Lia.
From S2P Require Import Prelude Params Spinlock Kern Sched.

(* ------------------------------------------------------------------ *)
(** ** What a program counter holds *)

Definition kholds (q : kpc) : list lock :=
  match q with
  | Out | Enter _ => []
  | Crit l _ _ | Wake l _ _ _ (WkLoop _) => [LCond l]
  | Wake l _ _ _ (WkTest i) | Wake l _ _ _ (WkRel i) => [LProc i; LCond l]
  end.

Section inv.
Context (lk_of : nat -> nat).

Definition pholds (i : nat) (q : tpc) : list lock :=
  match q with
  | Code k => kholds k
  | SleepAcq ch => [LCond (lk_of ch)]
  | SleepRel ch => [LProc i; LCond (lk_of ch)]
  | YieldAcq _ | YieldRet _ => []
  | _ => [LProc i]
  end.

Definition base_holds (x : tcpu) : list lock :=
  match c_pc x with
  | SRun i q => pholds i q
  | STest i | SRet i | SRel i => [LProc i]
  | _ => []
  end.

Definition irq_holds (x : tcpu) : list lock := match c_irq x with Some q => kholds q | None => [] end.
Definition holds (x : tcpu) : list lock := irq_holds x ++ base_holds x.

(** The state of a process while it runs. *)
Definition run_state (q : tpc) : procstate :=
  match q with SleepSched _ => SLEEPING | YieldSched _ => RUNNABLE | _ => RUNNING end.
Definition run_chan (q : tpc) : option nat :=
  match q with SleepState ch | SleepSched ch | SleepBack ch | SleepTidy ch => Some ch | _ => None end.

(** Code and the channels it deals with. *)
Definition code_ok (q : kpc) : Prop :=
  match q with
  | Out | Enter _ => True
  | Crit l pend woke => forall ch, ch ∈ pend ++ woke -> lk_of ch = l
  | Wake l pend woke c _ => lk_of c = l /\ forall ch, ch ∈ pend ++ woke -> lk_of ch = l
  end.
Definition pc_ok (q : tpc) : Prop :=
  match q with
  | Code k => code_ok k
  | YieldAcq k | YieldState k | YieldSched k | YieldBack k | YieldRel k | YieldRet k => code_ok k /\ kholds k = []
  | _ => True
  end.

Definition locks_ok (lk : lock -> spinlock) (H : nat -> list lock) : Prop :=
  (forall l c, l ∈ H c <-> lk l = Spinlock true (Some c)) /\
  (forall l, lk l = initlock \/ exists c, lk l = Spinlock true (Some c)).

(** A CPU by itself. *)
Record cpu_ok (x : tcpu) : Prop := {
  co_noff : noff (c_cpu x) = Z.of_nat (length (holds x));
  co_intr : intr (c_cpu x) = true -> holds x = [];
  co_irq : forall q, c_irq x = Some q -> base_holds x = [] /\ code_ok q;
  co_run : forall i q, c_pc x = SRun i q -> c_proc x = Some i /\ (i < nproc)%nat /\ pc_ok q;
  co_scan : forall i, c_pc x = STest i -> (i < nproc)%nat;
  co_proc : forall i, c_proc x = Some i -> (exists q, c_pc x = SRun i q) \/ c_pc x = SRet i
}.

(** A process that is on no CPU. *)
Definition off_ok (p : tproc) : Prop :=
  t_state p <> RUNNING /\ pc_ok (resume (t_ctx p)) /\ t_chan p = run_chan (resume (t_ctx p)) /\
  (t_state p = SLEEPING -> exists ch, t_ctx p = CtxSleep ch).

Record safe (w : world) : Prop := {
  sf_panic : w_panic w = false;
  sf_locks : locks_ok (w_lk w) (fun c => holds (w_cpu w c));
  sf_cpu : forall c, cpu_ok (w_cpu w c);
  sf_one : forall c c' i q q', c_pc (w_cpu w c) = SRun i q -> c_pc (w_cpu w c') = SRun i q' -> c = c';
  sf_run : forall c i q, c_pc (w_cpu w c) = SRun i q ->
    t_state (w_proc w i) = run_state q /\ t_chan (w_proc w i) = run_chan q;
  sf_off : forall i, (forall c q, c_pc (w_cpu w c) <> SRun i q) -> off_ok (w_proc w i);
  sf_nproc : forall i, t_state (w_proc w i) = SLEEPING -> (i < nproc)%nat
}.

(* ------------------------------------------------------------------ *)
(** ** Locks *)

Lemma locks_same lk H c hs : locks_ok lk H -> (forall l, l ∈ hs <-> l ∈ H c) -> locks_ok lk (<[c := hs]> H).
Proof.
  intros [Hl Hf] E. split; [|done]. intros l c'. destruct (decide (c = c')) as [<-|].
  - rewrite fn_lookup_insert, E. apply Hl.
  - rewrite fn_lookup_insert_ne by done. apply Hl.
Qed.

Lemma locks_take lk H c l hs : locks_ok lk H -> lk l = initlock -> (forall k, k ∈ hs <-> k = l \/ k ∈ H c) ->
  locks_ok (<[l := Spinlock true (Some c)]> lk) (<[c := hs]> H).
Proof.
  intros [Hl Hf] E Hs. split.
  - intros k c'. destruct (decide (c = c')) as [<-|Hc]; [rewrite fn_lookup_insert, Hs|rewrite fn_lookup_insert_ne by done];
      (destruct (decide (l = k)) as [<-|]; [rewrite fn_lookup_insert|rewrite fn_lookup_insert_ne by done]); rewrite Hl.
    + split; auto.
    + split; [intros [->|?]; done|auto].
    + rewrite E. split; [done|intros [= ->]; done].
    + done.
  - intros k. destruct (decide (l = k)) as [<-|]; [rewrite fn_lookup_insert; eauto|rewrite fn_lookup_insert_ne by done; auto].
Qed.

Lemma locks_give lk H c l hs : locks_ok lk H -> l ∈ H c -> (forall k, k ∈ hs <-> k <> l /\ k ∈ H c) ->
  locks_ok (<[l := initlock]> lk) (<[c := hs]> H).
Proof.
  intros [Hl Hf] E%Hl Hs. split.
  - intros k c'. destruct (decide (c = c')) as [<-|Hc]; [rewrite fn_lookup_insert, Hs|rewrite fn_lookup_insert_ne by done];
      (destruct (decide (l = k)) as [<-|]; [rewrite fn_lookup_insert|rewrite fn_lookup_insert_ne by done]); rewrite Hl.
    + split; [by intros [? _]|done].
    + split; [intros [_ ?]; done|auto].
    + rewrite E. split; [intros [= ->]; done|done].
    + done.
  - intros k. destruct (decide (l = k)) as [<-|]; [rewrite fn_lookup_insert; auto|rewrite fn_lookup_insert_ne by done; auto].
Qed.

Lemma locks_one lk H l c c' : locks_ok lk H -> l ∈ H c -> l ∈ H c' -> c = c'.
Proof. intros [Hl _] E%Hl E'%Hl. congruence. Qed.

(** acquire() and release() of Spinlock.v, seen from here. *)
Lemma take_cases c l w : locks_ok (w_lk w) (fun c => holds (w_cpu w c)) -> l ∉ holds (w_cpu w c) ->
  take c l w = None \/
  w_lk w l = initlock /\ exists k, noff k = noff (c_cpu (w_cpu w c)) + 1 /\ intr k = false /\
    take c l w = Some (put_cpu c (set_cc k (w_cpu w c)) (put_lk l (Spinlock true (Some c)) w)).
Proof.
  intros [Hl Hf] Hn. destruct (Hf l) as [E|[c' E]].
  - right. split; [done|]. unfold take. rewrite acquire_free by by rewrite E.
    eexists (push_off _). split; [done|]. split; [done|]. done.
  - left. assert (c' <> c) as Hne by (intros ->; by apply Hn, Hl).
    unfold take. rewrite acquire_spins; [done|by rewrite E|]. rewrite E. unfold holding. simpl.
    apply bool_decide_false. congruence.
Qed.

Lemma give_Ok c l w : locks_ok (w_lk w) (fun c => holds (w_cpu w c)) -> l ∈ holds (w_cpu w c) ->
  cpu_ok (w_cpu w c) ->
  exists k, noff k = noff (c_cpu (w_cpu w c)) - 1 /\ (intr k = true -> noff k = 0) /\
    give c l w = put_cpu c (set_cc k (w_cpu w c)) (put_lk l initlock w).
Proof.
  intros [Hl _] E Hc. pose proof (co_noff _ Hc) as Hn. pose proof (co_intr _ Hc) as Hi. apply Hl in E as Ek.
  assert (1 <= noff (c_cpu (w_cpu w c))) as H1.
  { rewrite Hn. destruct (holds (w_cpu w c)); [by apply elem_of_nil in E|simpl; lia]. }
  assert (intr (c_cpu (w_cpu w c)) = false) as Hf.
  { destruct (intr _); [|done]. rewrite Hi in E by done. by apply elem_of_nil in E. }
  unfold give. rewrite Ek, release_mine by done.
  eexists (Cpu _ _ _). simpl. split; [done|]. split; [|done]. intros [? _]%andb_prop. by apply Z.eqb_eq.
Qed.

(* ------------------------------------------------------------------ *)
(** ** Steps *)

Lemma safe_upd w c x ps lk cnd : safe w ->
  locks_ok lk (<[c := holds x]> (fun c => holds (w_cpu w c))) -> cpu_ok x ->
  (forall i q, c_pc x = SRun i q -> t_state (ps i) = run_state q /\ t_chan (ps i) = run_chan q /\
    forall c' q', c' <> c -> c_pc (w_cpu w c') <> SRun i q') ->
  (forall c' i q, c' <> c -> c_pc (w_cpu w c') = SRun i q -> ps i = w_proc w i) ->
  (forall i, (forall q, c_pc x <> SRun i q) -> (forall c' q, c' <> c -> c_pc (w_cpu w c') <> SRun i q) -> off_ok (ps i)) ->
  (forall i, t_state (ps i) = SLEEPING -> (i < nproc)%nat) ->
  safe (World (<[c := x]> (w_cpu w)) ps lk cnd false).
Proof.
  intros Hs Hl Hc Hr Hot Hoff Hn. split; simpl; try done.
  - destruct Hl as [H1 H2]. split; [|done]. intros l c'. rewrite <- H1.
    destruct (decide (c = c')) as [<-|]; [by rewrite !fn_lookup_insert|by rewrite !fn_lookup_insert_ne by done].
  - intros c'. destruct (decide (c = c')) as [<-|]; [by rewrite fn_lookup_insert|rewrite fn_lookup_insert_ne by done; by apply sf_cpu].
  - intros c1 c2 i q q'. destruct (decide (c = c1)) as [<-|H1]; [rewrite fn_lookup_insert|rewrite fn_lookup_insert_ne by done];
      (destruct (decide (c = c2)) as [<-|H2]; [rewrite fn_lookup_insert|rewrite fn_lookup_insert_ne by done]); intros E1 E2; try done.
    + destruct (Hr _ _ E1) as (_ & _ & Hx). by destruct (Hx c2 q').
    + destruct (Hr _ _ E2) as (_ & _ & Hx). by destruct (Hx c1 q).
    + by eapply (sf_one _ Hs).
  - intros c' i q. destruct (decide (c = c')) as [<-|H1]; [rewrite fn_lookup_insert|rewrite fn_lookup_insert_ne by done]; intros E.
    + by destruct (Hr _ _ E) as (? & ? & _).
    + rewrite (Hot c' i q) by done. by apply (sf_run _ Hs c').
  - intros i Hi. apply Hoff.
    + intros q E. apply (Hi c q). by rewrite fn_lookup_insert.
    + intros c' q Hne E. apply (Hi c' q). by rewrite fn_lookup_insert_ne by done.
Qed.

(** The CPU goes on with the same process, or with none. *)
Definition same_run (x x' : tcpu) : Prop :=
  match c_pc x, c_pc x' with
  | SRun i q, SRun i' q' => i' = i /\ run_state q' = run_state q /\ run_chan q' = run_chan q
  | SRun _ _, _ | _, SRun _ _ => False
  | _, _ => True
  end.

Lemma same_run_to x x' i q' : same_run x x' -> c_pc x' = SRun i q' ->
  exists q, c_pc x = SRun i q /\ run_state q' = run_state q /\ run_chan q' = run_chan q.
Proof. unfold same_run. intros Hs E. rewrite E in Hs. destruct (c_pc x); try done. destruct Hs as (-> & ? & ?). eauto. Qed.

Lemma same_run_from x x' i q : same_run x x' -> c_pc x = SRun i q -> exists q', c_pc x' = SRun i q'.
Proof. unfold same_run. intros Hs E. rewrite E in Hs. destruct (c_pc x'); try done. destruct Hs as (-> & ? & ?). eauto. Qed.

Lemma safe_quiet w c x lk cnd : safe w ->
  locks_ok lk (<[c := holds x]> (fun c => holds (w_cpu w c))) -> cpu_ok x -> same_run (w_cpu w c) x ->
  safe (World (<[c := x]> (w_cpu w)) (w_proc w) lk cnd false).
Proof.
  intros Hs Hl Hc Hr. apply safe_upd; try done.
  - intros i q' E. destruct (same_run_to _ _ _ _ Hr E) as (q & Eq & -> & ->).
    destruct (sf_run _ Hs _ _ _ Eq) as [-> ->]. split; [done|]. split; [done|].
    intros c' q2 Hne E2. by destruct Hne; eapply (sf_one _ Hs).
  - intros i Hx Hot. apply (sf_off _ Hs). intros c' q E. destruct (decide (c' = c)) as [->|]; [|by eapply Hot].
    destruct (same_run_from _ _ _ _ Hr E) as [q' E']. by eapply Hx.
  - apply (sf_nproc _ Hs).
Qed.

(** The CPU's own process changes its state or channel. *)
Lemma safe_own w c x i q q' p lk cnd : safe w ->
  locks_ok lk (<[c := holds x]> (fun c => holds (w_cpu w c))) -> cpu_ok x ->
  c_pc (w_cpu w c) = SRun i q -> c_pc x = SRun i q' -> t_state p = run_state q' -> t_chan p = run_chan q' ->
  safe (World (<[c := x]> (w_cpu w)) (<[i := p]> (w_proc w)) lk cnd false).
Proof.
  intros Hs Hl Hc E E' Hst Hch. apply safe_upd; try done.
  - intros i' q2 E2. rewrite E' in E2. injection E2 as <- <-. rewrite fn_lookup_insert. split; [done|]. split; [done|].
    intros c' q2 Hne E2. by destruct Hne; eapply (sf_one _ Hs).
  - intros c' j q2 Hne E2. rewrite fn_lookup_insert_ne; [done|]. intros ->. by destruct Hne; eapply (sf_one _ Hs).
  - intros j Hx Hot. assert (i <> j) by (intros ->; by eapply Hx). rewrite fn_lookup_insert_ne by done. apply (sf_off _ Hs).
    intros c' q2 E2. destruct (decide (c' = c)) as [->|]; [congruence|by eapply Hot].
  - intros j. destruct (decide (i = j)) as [<-|]; [|rewrite fn_lookup_insert_ne by done; apply (sf_nproc _ Hs)].
    intros _. by destruct (co_run _ (sf_cpu _ Hs c) _ _ E) as (_ & ? & _).
Qed.

(** A process in SLEEPING or RUNNABLE whose lock this CPU has is not running
    elsewhere. *)
Lemma not_elsewhere w c c' j q : safe w -> LProc j ∈ holds (w_cpu w c) -> t_state (w_proc w j) <> RUNNING ->
  c_pc (w_cpu w c') = SRun j q -> c' = c.
Proof.
  intros Hs Hl Hst E. destruct (sf_run _ Hs _ _ _ E) as [Er _]. rewrite Er in Hst.
  assert (LProc j ∈ holds (w_cpu w c')) as Hh.
  { unfold holds, base_holds. rewrite E. apply elem_of_app. right. destruct q; try done; simpl; by left. }
  by apply (locks_one _ _ _ _ _ (sf_locks _ Hs) Hh).
Qed.

(** wakeup() makes a sleeping process runnable. *)
Lemma safe_wake w c x j lk cnd : safe w ->
  locks_ok lk (<[c := holds x]> (fun c => holds (w_cpu w c))) -> cpu_ok x -> same_run (w_cpu w c) x ->
  LProc j ∈ holds (w_cpu w c) -> t_state (w_proc w j) = SLEEPING -> (forall q, c_pc (w_cpu w c) <> SRun j q) ->
  safe (World (<[c := x]> (w_cpu w)) (<[j := set_tstate RUNNABLE (w_proc w j)]> (w_proc w)) lk cnd false).
Proof.
  intros Hs Hl Hc Hr Hj Hst Hnr.
  assert (forall c' q, c_pc (w_cpu w c') <> SRun j q) as Hno.
  { intros c' q E. assert (c' = c) as -> by (eapply not_elsewhere; [done..|congruence|done]). by eapply Hnr. }
  apply safe_upd; try done.
  - intros i q' E. destruct (same_run_to _ _ _ _ Hr E) as (q & Eq & -> & ->).
    rewrite fn_lookup_insert_ne by (intros ->; by eapply Hnr).
    destruct (sf_run _ Hs _ _ _ Eq) as [-> ->]. split; [done|]. split; [done|].
    intros c' q2 Hne E2. by destruct Hne; eapply (sf_one _ Hs).
  - intros c' i q _ E. rewrite fn_lookup_insert_ne; [done|]. intros ->. by eapply Hno.
  - intros i Hx Hot. destruct (decide (j = i)) as [<-|].
    + rewrite fn_lookup_insert. destruct (sf_off _ Hs j Hno) as (_ & ? & ? & _). done.
    + rewrite fn_lookup_insert_ne by done. apply (sf_off _ Hs). intros c' q E.
      destruct (decide (c' = c)) as [->|]; [|by eapply Hot]. destruct (same_run_from _ _ _ _ Hr E) as [q' E']. by eapply Hx.
  - intros i. destruct (decide (j = i)) as [<-|]; [by rewrite fn_lookup_insert|rewrite fn_lookup_insert_ne by done; apply (sf_nproc _ Hs)].
Qed.

(** swtch() from a process to the scheduler. *)
Lemma safe_out w c x i q p : safe w -> holds x = holds (w_cpu w c) -> cpu_ok x ->
  c_pc (w_cpu w c) = SRun i q -> (forall j q', c_pc x <> SRun j q') -> off_ok p -> (t_state p = SLEEPING -> (i < nproc)%nat) ->
  safe (World (<[c := x]> (w_cpu w)) (<[i := p]> (w_proc w)) (w_lk w) (w_cond w) false).
Proof.
  intros Hs Hh Hc E Hx Hp Hn. apply safe_upd; try done.
  - apply locks_same; [apply Hs|]. by rewrite Hh.
  - intros j q' E'. by destruct (Hx j q').
  - intros c' j q2 Hne E2. rewrite fn_lookup_insert_ne; [done|]. intros ->. by destruct Hne; eapply (sf_one _ Hs).
  - intros j _ Hot. destruct (decide (i = j)) as [<-|]; [by rewrite fn_lookup_insert|rewrite fn_lookup_insert_ne by done].
    apply (sf_off _ Hs). intros c' q2 E2. destruct (decide (c' = c)) as [->|]; [congruence|by eapply Hot].
  - intros j. destruct (decide (i = j)) as [<-|]; [by rewrite fn_lookup_insert|rewrite fn_lookup_insert_ne by done; apply (sf_nproc _ Hs)].
Qed.

(** swtch() from the scheduler to a process. *)
Lemma safe_in w c x i : safe w -> holds x = holds (w_cpu w c) -> cpu_ok x ->
  (forall j q, c_pc (w_cpu w c) <> SRun j q) -> LProc i ∈ holds (w_cpu w c) -> t_state (w_proc w i) = RUNNABLE ->
  c_pc x = SRun i (resume (t_ctx (w_proc w i))) ->
  safe (World (<[c := x]> (w_cpu w)) (<[i := set_tstate RUNNING (w_proc w i)]> (w_proc w)) (w_lk w) (w_cond w) false).
Proof.
  intros Hs Hh Hc Hno Hi Hst E.
  assert (forall c' q, c_pc (w_cpu w c') <> SRun i q) as Hnr.
  { intros c' q E'. assert (c' = c) as -> by (eapply not_elsewhere; [done..|congruence|done]). by eapply Hno. }
  destruct (sf_off _ Hs i Hnr) as (_ & Hk & Hch & _).
  apply safe_upd; try done.
  - apply locks_same; [apply Hs|]. by rewrite Hh.
  - intros j q' E'. rewrite E in E'. injection E' as <- <-. rewrite fn_lookup_insert. simpl.
    split; [by destruct (t_ctx _)|]. split; [done|]. intros c' q' _. apply Hnr.
  - intros c' j q' _ E'. rewrite fn_lookup_insert_ne; [done|]. intros ->. by eapply Hnr.
  - intros j Hx Hot. assert (i <> j) by (intros ->; by eapply Hx). rewrite fn_lookup_insert_ne by done. apply (sf_off _ Hs).
    intros c' q' E'. destruct (decide (c' = c)) as [->|]; [by eapply Hno|by eapply Hot].
  - intros j. destruct (decide (i = j)) as [<-|]; [by rewrite fn_lookup_insert|rewrite fn_lookup_insert_ne by done; apply (sf_nproc _ Hs)].
Qed.

Lemma set_cc_same x : set_cc (c_cpu x) x = x.
Proof. by destruct x. Qed.

(** Worlds that agree everywhere. *)
Record weq (w w' : world) : Prop := {
  we_cpu : forall c, w_cpu w c = w_cpu w' c;
  we_proc : forall i, w_proc w i = w_proc w' i;
  we_lk : forall l, w_lk w l = w_lk w' l;
  we_cond : forall ch, w_cond w ch = w_cond w' ch;
  we_panic : w_panic w = w_panic w'
}.

#[export] Instance weq_equiv : Equivalence weq.
Proof.
  split; [by split|intros ?? []; by split|].
  intros x y z [A B C D E] [A' B' C' D' E']. split; intros; rewrite ?A, ?B, ?C, ?D, ?E; auto.
Qed.

Lemma safe_weq w w' : weq w w' -> safe w -> safe w'.
Proof.
  intros [Ec Ep El _ En] Hs. split.
  - rewrite <- En. apply Hs.
  - destruct (sf_locks _ Hs) as [H1 H2]. split; [intros l c; rewrite <- Ec, <- El; apply H1|intros l; rewrite <- El; apply H2].
  - intros c. rewrite <- Ec. apply Hs.
  - intros c c' i q q'. rewrite <- !Ec. apply (sf_one _ Hs).
  - intros c i q. rewrite <- Ec, <- Ep. apply (sf_run _ Hs).
  - intros i Hi. rewrite <- Ep. apply (sf_off _ Hs). intros c q. rewrite Ec. apply Hi.
  - intros i. rewrite <- Ep. apply (sf_nproc _ Hs).
Qed.

#[export] Instance safe_proper : Proper (weq ==> iff) safe.
Proof. intros w w' E. split; apply safe_weq; [done|by symmetry]. Qed.

Lemma cpu_put c x w : w_cpu (put_cpu c x w) c = x.
Proof. apply fn_lookup_insert. Qed.

Lemma put_put c x y w : weq (put_cpu c x (put_cpu c y w)) (put_cpu c x w).
Proof.
  split; try done. intros c'. simpl.
  destruct (decide (c = c')) as [<-|]; [by rewrite !fn_lookup_insert|by rewrite !fn_lookup_insert_ne by done].
Qed.

Lemma put_same c w : weq (put_cpu c (w_cpu w c) w) w.
Proof.
  split; try done. intros c'. simpl.
  destruct (decide (c = c')) as [<-|]; [by rewrite fn_lookup_insert|by rewrite fn_lookup_insert_ne by done].
Qed.

(** A step of code in a process or in an interrupt handler: [setk] puts the
    next program counter where it belongs. *)
Section code.
Context (w : world) (c : nat) (setk : kpc -> tcpu -> tcpu) (q : kpc).
Hypothesis Hs : safe w.
Hypothesis Hq : code_ok q.
Hypothesis Hh : holds (w_cpu w c) = kholds q.
Hypothesis Hset : forall q' k, holds (setk q' (set_cc k (w_cpu w c))) = kholds q'.
Hypothesis Hok : forall q' k, code_ok q' -> noff k = Z.of_nat (length (kholds q')) -> (intr k = true -> kholds q' = []) ->
  cpu_ok (setk q' (set_cc k (w_cpu w c))).
Hypothesis Hrun : forall q' k, same_run (w_cpu w c) (setk q' (set_cc k (w_cpu w c))).
Hypothesis Hst : forall i q0, c_pc (w_cpu w c) = SRun i q0 -> run_state q0 = RUNNING.

Notation after r := (put_cpu c (setk (snd r) (w_cpu (fst r) c)) (fst r)).

(** Steps that take and give no lock. *)
Lemma code_quiet q' cnd : code_ok q' -> kholds q' = kholds q ->
  safe (World (<[c := setk q' (w_cpu w c)]> (w_cpu w)) (w_proc w) (w_lk w) cnd false).
Proof.
  intros Hq' E. pose proof (sf_cpu _ Hs c) as Hc. rewrite <- (set_cc_same (w_cpu w c)) at 1.
  apply safe_quiet; [done| |apply Hok; [done| |]|apply Hrun].
  - apply locks_same; [apply Hs|]. intros l. by rewrite Hset, E, Hh.
  - rewrite E, <- Hh. apply Hc.
  - rewrite E, <- Hh. apply Hc.
Qed.

Lemma code_same q' : code_ok q' -> kholds q' = kholds q -> safe (after (w, q')).
Proof.
  intros Hq' E. pose proof (code_quiet q' (w_cond w) Hq' E) as Hx. unfold put_cpu. simpl. by rewrite (sf_panic _ Hs).
Qed.

Lemma code_take l q0 q' : q = q0 -> code_ok q' -> l ∉ kholds q0 -> kholds q' = l :: kholds q0 ->
  safe (after (match take c l w with Some w' => (w', q') | None => (w, q0) end)).
Proof.
  intros <- Hq' Hl E.
  destruct (take_cases c l w (sf_locks _ Hs)) as [->|(Ei & k & Hn & Hi & ->)]; [by rewrite Hh|by apply code_same|].
  cbn [fst snd]. rewrite cpu_put, put_put. pose proof (sf_cpu _ Hs c) as Hc.
  assert (noff (c_cpu (w_cpu w c)) = Z.of_nat (length (kholds q))) as Hq0 by (rewrite <- Hh; apply Hc).
  unfold put_cpu, put_lk. simpl. rewrite (sf_panic _ Hs). apply safe_quiet; [done| |apply Hok; [done| |]|apply Hrun].
  - apply locks_take; [apply Hs|done|]. intros l'. rewrite Hset, E, Hh. apply elem_of_cons.
  - rewrite E. simpl. lia.
  - congruence.
Qed.

Lemma code_give l q' : code_ok q' -> l ∉ kholds q' -> kholds q = l :: kholds q' -> safe (after (give c l w, q')).
Proof.
  intros Hq' Hl E. pose proof (sf_cpu _ Hs c) as Hc.
  assert (l ∈ holds (w_cpu w c)) as Hin by (rewrite Hh, E; by left).
  destruct (give_Ok c l w (sf_locks _ Hs) Hin Hc) as (k & Hn & Hi & ->).
  cbn [fst snd]. rewrite cpu_put, put_put.
  assert (noff (c_cpu (w_cpu w c)) = Z.of_nat (length (kholds q))) as Hq0 by (rewrite <- Hh; apply Hc).
  rewrite E in Hq0. simpl in Hq0.
  unfold put_cpu, put_lk. simpl. rewrite (sf_panic _ Hs). apply safe_quiet; [done| |apply Hok; [done| |]|apply Hrun].
  - apply locks_give; [apply Hs|done|]. intros l'. rewrite Hset, Hh, E, elem_of_cons. split; [intros ?; split; [congruence|auto]|intros [? [?|?]]; done].
  - lia.
  - intros Hx%Hi. destruct (kholds q'); [done|]. simpl in Hq0. lia.
Qed.

Lemma wakeup_safe l pend woke ch p : q = Wake l pend woke ch p -> safe (after (wakeup_step c l pend woke ch p w)).
Proof.
  intros Eq. pose proof Hq as Hq0. rewrite Eq in Hq0. destruct Hq0 as [Hch Hpw].
  pose proof Hh as Hh0. rewrite Eq in Hh0. destruct p as [i|i|i]; cbn [wakeup_step].
  - case_decide as Hi; [case_decide|].
    + apply code_same; [done|by rewrite Eq].
    + apply code_take; [done|done|simpl|done]. by rewrite list_elem_of_singleton.
    + apply code_same; [|by rewrite Eq]. intros ch'. rewrite elem_of_app, elem_of_cons, list_elem_of_filter.
      intros [[_ ?]|[->|?]]; [apply Hpw, elem_of_app; by left|done|apply Hpw, elem_of_app; by right].
  - case_decide as Hsl; [|apply code_same; [done|by rewrite Eq]]. destruct Hsl as [Hsl Hchn]. cbn [fst snd].
    pose proof (sf_cpu _ Hs c) as Hc. unfold put_cpu, put_proc. simpl. rewrite (sf_panic _ Hs).
    rewrite <- (set_cc_same (w_cpu w c)) at 1. apply safe_wake; [done| |apply Hok; [done| |]|apply Hrun| |done|].
    + apply locks_same; [apply Hs|]. intros l'. by rewrite Hset, Hh0.
    + change (kholds (Wake l pend woke ch (WkRel i))) with (kholds (Wake l pend woke ch (WkTest i))). rewrite <- Hh0. apply Hc.
    + intros Hx%(co_intr _ Hc). by rewrite Hh0 in Hx.
    + rewrite Hh0. by left.
    + intros q0 E. pose proof (Hst _ _ E) as Hr. destruct (sf_run _ Hs _ _ _ E) as [Er _]. congruence.
  - apply code_give; [done|simpl|by rewrite Eq]. by rewrite list_elem_of_singleton.
Qed.

Lemma code_safe a : safe (after (code_step lk_of c a q w)).
Proof.
  assert (exists q0, q = q0) as [q0 Eq] by eauto. pose proof Hq as Hq0. rewrite Eq in Hq0 |- *. destruct q0 as [|l|l pend woke|l pend woke ch p].
  - destruct a; apply code_same; (done || by rewrite Eq).
  - cbn [code_step]. destruct a; apply code_take; (done || apply not_elem_of_nil || by intros ? ?%elem_of_nil).
  - destruct a as [|l'|ch b|ch|ch| | | | |]; cbn [code_step]; try (apply code_same; (done || by rewrite Eq)).
    + case_decide as Hl; [|apply code_same; (done || by rewrite Eq)]. cbn [fst snd]. unfold put_cpu, put_cond. simpl. rewrite (sf_panic _ Hs).
      apply code_quiet; [|by rewrite Eq]. intros ch'. rewrite elem_of_app. intros [Hx|Hx]; [|apply Hq0, elem_of_app; by right].
      destruct b; [case_decide|]; [apply Hq0, elem_of_app; by left| |apply Hq0, elem_of_app; by left].
      apply elem_of_cons in Hx as [->|Hx]; [done|apply Hq0, elem_of_app; by left].
    + case_decide as Hl; apply code_same; (done || by rewrite Eq).
    + case_decide as Hl; [|apply code_same; (done || by rewrite Eq)]. apply code_give; [done|simpl; apply not_elem_of_nil|by rewrite Eq].
  - destruct a; by apply wakeup_safe.
Qed.

End code.

(** A step of process [i] on CPU [c]. *)
Section proc.
Context (w : world) (c i : nat) (q : tpc).
Hypothesis Hs : safe w.
Hypothesis Hirq : c_irq (w_cpu w c) = None.
Hypothesis Hpc : c_pc (w_cpu w c) = SRun i q.

Lemma run_holds : holds (w_cpu w c) = pholds i q.
Proof. unfold holds, irq_holds, base_holds. by rewrite Hirq, Hpc. Qed.

Lemma run_holds' q' k : holds (set_spc (SRun i q') (set_cc k (w_cpu w c))) = pholds i q'.
Proof. unfold holds, irq_holds, base_holds. simpl. by rewrite Hirq. Qed.

Lemma run_ok : c_proc (w_cpu w c) = Some i /\ (i < nproc)%nat /\ pc_ok q.
Proof. apply (co_run _ (sf_cpu _ Hs c)), Hpc. Qed.

Lemma run_noff : noff (c_cpu (w_cpu w c)) = Z.of_nat (length (pholds i q)).
Proof. rewrite <- run_holds. apply (sf_cpu _ Hs). Qed.

Lemma run_intr : intr (c_cpu (w_cpu w c)) = true -> pholds i q = [].
Proof. rewrite <- run_holds. apply (sf_cpu _ Hs). Qed.

Lemma run_cpu_ok q' k : pc_ok q' -> noff k = Z.of_nat (length (pholds i q')) -> (intr k = true -> pholds i q' = []) ->
  cpu_ok (set_spc (SRun i q') (set_cc k (w_cpu w c))).
Proof.
  intros Hq Hn Hi. destruct run_ok as (Hp & Hlt & _). split; try (rewrite run_holds'; done); simpl.
  - by rewrite Hirq.
  - by intros i' ? [= <- <-].
  - done.
  - rewrite Hp. intros i' [= <-]. eauto.
Qed.

Lemma run_same q' k : run_state q' = run_state q -> run_chan q' = run_chan q ->
  same_run (w_cpu w c) (set_spc (SRun i q') (set_cc k (w_cpu w c))).
Proof. intros. unfold same_run. by rewrite Hpc. Qed.

Lemma goto_quiet q' k : pc_ok q' -> pholds i q' = pholds i q -> run_state q' = run_state q -> run_chan q' = run_chan q ->
  noff k = noff (c_cpu (w_cpu w c)) -> (intr k = true -> pholds i q = []) ->
  safe (put_cpu c (set_spc (SRun i q') (set_cc k (w_cpu w c))) w).
Proof.
  intros Hq Hh H1 H2 Hn Hi. unfold put_cpu. rewrite (sf_panic _ Hs).
  apply safe_quiet; [done| |apply run_cpu_ok; [done| |]|by apply run_same].
  - apply locks_same; [apply Hs|]. intros l. by rewrite run_holds', Hh, run_holds.
  - rewrite Hn, Hh. apply run_noff.
  - by rewrite Hh.
Qed.

Lemma goto_same q' : pc_ok q' -> pholds i q' = pholds i q -> run_state q' = run_state q -> run_chan q' = run_chan q ->
  safe (goto c i q' w).
Proof.
  intros. unfold goto. rewrite <- (set_cc_same (w_cpu w c)). apply goto_quiet; try done. apply run_intr.
Qed.

Lemma goto_take l q' : pc_ok q' -> l ∉ pholds i q -> pholds i q' = l :: pholds i q ->
  run_state q' = run_state q -> run_chan q' = run_chan q ->
  safe (match take c l w with Some w' => goto c i q' w' | None => w end).
Proof.
  intros Hq Hl E H1 H2.
  destruct (take_cases c l w (sf_locks _ Hs)) as [->|(Ei & k & Hn & Hi & ->)]; [by rewrite run_holds|done|].
  unfold goto. rewrite cpu_put, put_put. unfold put_cpu, put_lk. simpl. rewrite (sf_panic _ Hs).
  apply safe_quiet; [done| |apply run_cpu_ok; [done| |]|by apply run_same].
  - apply locks_take; [apply Hs|done|]. intros l'. rewrite run_holds', E, run_holds. apply elem_of_cons.
  - rewrite Hn, run_noff, E. simpl. lia.
  - congruence.
Qed.

Lemma goto_give l q' : pc_ok q' -> l ∉ pholds i q' -> pholds i q ≡ₚ l :: pholds i q' ->
  run_state q' = run_state q -> run_chan q' = run_chan q -> safe (goto c i q' (give c l w)).
Proof.
  intros Hq Hl E H1 H2. pose proof (sf_cpu _ Hs c) as Hc.
  assert (l ∈ holds (w_cpu w c)) as Hin by (rewrite run_holds, E; by left).
  destruct (give_Ok c l w (sf_locks _ Hs) Hin Hc) as (k & Hn & Hi & ->).
  assert (Z.of_nat (length (pholds i q)) = Z.of_nat (length (pholds i q')) + 1) as Hlen by (rewrite E; simpl; lia).
  unfold goto. rewrite cpu_put, put_put. unfold put_cpu, put_lk. simpl. rewrite (sf_panic _ Hs).
  pose proof run_noff as Hrn.
  apply safe_quiet; [done| |apply run_cpu_ok; [done| |]|by apply run_same].
  - apply locks_give; [apply Hs|done|]. intros l'. rewrite run_holds', run_holds, E, elem_of_cons.
    split; [intros ?; split; [congruence|auto]|intros [? [?|?]]; done].
  - lia.
  - intros Hx%Hi. destruct (pholds i q'); [done|]. simpl in Hlen. lia.
Qed.

Lemma goto_own q' p : pc_ok q' -> pholds i q' = pholds i q -> t_state p = run_state q' -> t_chan p = run_chan q' ->
  safe (goto c i q' (put_proc i p w)).
Proof.
  intros Hq Hh H1 H2. unfold goto, put_cpu, put_proc. simpl. rewrite (sf_panic _ Hs).
  rewrite <- (set_cc_same (w_cpu w c)). eapply safe_own; [done| |apply run_cpu_ok; [done| |]|done|done|done|done].
  - apply locks_same; [apply Hs|]. intros l. by rewrite run_holds', Hh, run_holds.
  - rewrite Hh. apply run_noff.
  - rewrite Hh. apply run_intr.
Qed.

(** sched() passes its checks. *)
Lemma sched_safe back : pholds i q = [LProc i] -> run_state q <> RUNNING ->
  pc_ok (resume back) -> run_chan (resume back) = run_chan q -> (run_state q = SLEEPING -> exists ch, back = CtxSleep ch) ->
  safe (sched_step c i back w).
Proof.
  intros Hh Hst Hok Hch Hsl. destruct (sf_run _ Hs _ _ _ Hpc) as [Er Ec]. destruct run_ok as (Hp & Hlt & _).
  assert (w_lk w (LProc i) = Spinlock true (Some c)) as Hl.
  { apply (sf_locks _ Hs). rewrite run_holds, Hh. by left. }
  pose proof run_noff as Hn. rewrite Hh in Hn. pose proof run_intr as Hi. rewrite Hh in Hi.
  unfold sched_step. rewrite Hl, holding_mine, Hn. simpl. rewrite decide_False by congruence.
  destruct (intr (c_cpu (w_cpu w c))) eqn:Ei; [by discriminate Hi|].
  unfold put_cpu, put_proc. simpl. rewrite (sf_panic _ Hs).
  assert (holds (set_spc (SRet i) (w_cpu w c)) = [LProc i]) as Hx by (unfold holds, irq_holds, base_holds; simpl; by rewrite Hirq).
  eapply safe_out; [done| | |done|done| |by intros _].
  - by rewrite Hx, run_holds.
  - split; rewrite ?Hx; simpl; try done; [congruence|by rewrite Hirq|]. rewrite Hp. intros j [= <-]. by right.
  - split; simpl; [congruence|]. split; [done|]. split; [congruence|]. rewrite Er. done.
Qed.

Lemma sleep_safe : (match q with Code _ => False | _ => True end) -> safe (sleep_step lk_of c i q w).
Proof.
  intros Hq. pose proof (sf_run _ Hs _ _ _ Hpc) as [Er Ec]. pose proof (fun q' k => goto_quiet q' k) as Hgq.
  assert (exists q0, q = q0) as [q0 Eq] by eauto. rewrite Eq in Er, Ec |- *.
  destruct q0; cbn [sleep_step]; try done.
  - apply goto_take; rewrite ?Eq; try done. simpl. by rewrite list_elem_of_singleton.
  - apply goto_give; rewrite ?Eq; try done; simpl; [by rewrite list_elem_of_singleton|]. apply Permutation_swap.
  - by apply goto_own; rewrite ?Eq.
  - by apply goto_own; rewrite ?Eq.
  - apply sched_safe; rewrite ?Eq; try done. eauto.
  - unfold sched_back, goto. rewrite cpu_put, put_put. apply goto_quiet; rewrite ?Eq; try done.
    simpl. intros Hi. pose proof (run_intr Hi) as Hx. by rewrite Eq in Hx.
  - by apply goto_own; rewrite ?Eq.
  - apply goto_give; rewrite ?Eq; try done. apply not_elem_of_nil.
Qed.

Lemma yield_safe : safe (yield_step c i q w).
Proof.
  pose proof (sf_run _ Hs _ _ _ Hpc) as [Er Ec]. destruct run_ok as (_ & _ & Hok).
  assert (exists q0, q = q0) as [q0 Eq] by eauto. rewrite Eq in Er, Ec, Hok |- *.
  destruct q0; cbn [yield_step]; try done.
  - apply goto_take; rewrite ?Eq; try done. apply not_elem_of_nil.
  - by apply goto_own; rewrite ?Eq.
  - by apply sched_safe; rewrite ?Eq.
  - unfold sched_back, goto. rewrite cpu_put, put_put. apply goto_quiet; rewrite ?Eq; try done.
    simpl. intros Hi. pose proof (run_intr Hi) as Hx. by rewrite Eq in Hx.
  - apply goto_give; rewrite ?Eq; try done. apply not_elem_of_nil.
  - cbv zeta. unfold goto. rewrite cpu_put, put_put. destruct Hok as [Hok Hk].
    apply (goto_quiet (Code q0) (Cpu _ _ true)); rewrite ?Eq; done.
Qed.

Lemma proc_code_safe a k : q = Code k ->
  safe (let (w', k') := code_step lk_of c a k w in goto c i (Code k') w').
Proof.
  intros Eq. destruct run_ok as (_ & _ & Hok). rewrite Eq in Hok.
  assert (holds (w_cpu w c) = kholds k) as Hk by (rewrite run_holds, Eq; done).
  pose proof (code_safe w c (fun q' => set_spc (SRun i (Code q'))) k Hs Hok Hk) as Hc.
  destruct (code_step lk_of c a k w) as [w' k'] eqn:E. specialize (Hc (fun q' => run_holds' (Code q'))).
  unfold goto. specialize (Hc ltac:(intros; by apply run_cpu_ok) ltac:(intros; apply run_same; by rewrite Eq)).
  specialize (Hc ltac:(intros i' q0 E0; rewrite Hpc in E0; injection E0 as <- <-; by rewrite Eq) a). by rewrite E in Hc.
Qed.

Lemma proc_safe a : safe (proc_step lk_of c i a q w).
Proof.
  destruct run_ok as (_ & _ & Hok). pose proof sleep_safe as Hsl. pose proof yield_safe as Hy.
  assert (exists q0, q = q0) as [q0 Eq] by eauto. rewrite Eq in Hok, Hsl, Hy |- *.
  destruct q0 as [k| | | | | | | | | | | | | | |]; cbn [proc_step]; auto.
  - pose proof (fun a => proc_code_safe a k Eq) as Hc.
    destruct k as [|l|l pend woke|l pend woke ch p], a; try apply Hc.
    + pose proof (goto_quiet (Code Out) (Cpu (noff (c_cpu (w_cpu w c))) (intena (c_cpu (w_cpu w c))) b)) as Hx.
      unfold set_spc in Hx. rewrite <- Eq, <- Hpc in Hx. apply Hx; rewrite ?Eq; done.
    + case_decide as Hd; [|done]. destruct Hd as (<- & Hcd & ->). by apply goto_same; rewrite ?Eq.
  - apply goto_give; rewrite ?Eq; try done. apply not_elem_of_nil.
Qed.

End proc.

(** The scheduler itself. *)
Lemma sched_cpu_ok x s k p : c_irq x = None -> (forall i q, s <> SRun i q) -> (forall i, s = STest i -> (i < nproc)%nat) ->
  (forall i, p = Some i -> s = SRet i) -> noff k = Z.of_nat (length (holds (TCpu k p s None))) -> (intr k = true -> holds (TCpu k p s None) = []) ->
  cpu_ok (TCpu k p s (c_irq x)).
Proof. intros -> Hn Hsc Hp H1 H2. split; simpl; try done; [by intros i q ?%Hn|intros i ->; auto]. Qed.

Section scheduler.
Context (w : world) (c : nat) (q : spc).
Hypothesis Hs : safe w.
Hypothesis Hirq : c_irq (w_cpu w c) = None.
Hypothesis Hpc : c_pc (w_cpu w c) = q.

Definition sholds (s : spc) : list lock := holds (TCpu (c_cpu (w_cpu w c)) None s None).

Lemma s_holds : holds (w_cpu w c) = sholds q.
Proof. unfold sholds, holds, irq_holds, base_holds. by rewrite Hirq, Hpc. Qed.

Lemma s_noff : noff (c_cpu (w_cpu w c)) = Z.of_nat (length (sholds q)).
Proof. rewrite <- s_holds. apply (sf_cpu _ Hs). Qed.

Lemma s_none : (forall i q', q <> SRun i q') -> (forall i, q <> SRet i) -> c_proc (w_cpu w c) = None.
Proof.
  intros H1 H2. destruct (c_proc (w_cpu w c)) as [i|] eqn:E; [|done].
  destruct (co_proc _ (sf_cpu _ Hs c) i E) as [[q' Ex]|Ex]; rewrite Hpc in Ex; [by destruct (H1 i q')|by destruct (H2 i)].
Qed.

Lemma s_move s k p : p = None \/ p = c_proc (w_cpu w c) /\ (forall i, q <> SRet i) -> (forall i q, s <> SRun i q) -> (forall i, s <> STest i) -> (forall i q', q <> SRun i q') -> sholds s = sholds q ->
  noff k = noff (c_cpu (w_cpu w c)) -> (intr k = true -> sholds s = []) ->
  safe (put_cpu c (TCpu k p s (c_irq (w_cpu w c))) w).
Proof.
  intros Hp Hn Hnt Hnq Hh Hk Hi. assert (p = None) as -> by (destruct Hp as [?|[-> ?]]; [done|by apply s_none]).
  unfold put_cpu. rewrite (sf_panic _ Hs). apply safe_quiet; [done| | |].
  - apply locks_same; [apply Hs|]. intros l. rewrite s_holds, <- Hh. unfold holds, irq_holds, base_holds, sholds. simpl. by rewrite Hirq.
  - apply sched_cpu_ok; try done; [by intros i ?%Hnt|]. rewrite Hk, s_noff, <- Hh. done.
  - unfold same_run. rewrite Hpc. simpl. destruct q, s; (done || naive_solver).
Qed.

Lemma s_take i s : (forall i, q <> SRet i) -> sholds q = [] -> (forall i, s = STest i -> (i < nproc)%nat) -> (forall i q, s <> SRun i q) -> (forall i q', q <> SRun i q') -> sholds s = [LProc i] ->
  safe (match take c (LProc i) w with Some w' => put_cpu c (set_spc s (w_cpu w' c)) w' | None => w end).
Proof.
  intros Hnr Hq Hsc Hn Hnq Hh.
  destruct (take_cases c (LProc i) w (sf_locks _ Hs)) as [->|(Ei & k & Hk & Hi & ->)]; [rewrite s_holds, Hq; apply not_elem_of_nil|done|].
  rewrite cpu_put, put_put. unfold put_cpu, put_lk. simpl. rewrite (sf_panic _ Hs). apply safe_quiet; [done| | |].
  - apply locks_take; [apply Hs|done|]. intros l. rewrite s_holds, Hq. unfold holds, irq_holds, base_holds. simpl. rewrite Hirq.
    unfold sholds, holds, irq_holds, base_holds in Hh. simpl in *. rewrite Hh, list_elem_of_singleton. split; [auto|intros [?|?%elem_of_nil]; done].
  - apply sched_cpu_ok; try done; [simpl; by rewrite s_none| |simpl; congruence]. change (noff k = Z.of_nat (length (sholds s))). rewrite Hk, s_noff, Hq, Hh. done.
  - unfold same_run. rewrite Hpc. simpl. destruct q, s; (done || naive_solver).
Qed.

Lemma s_give i s : (forall i, q <> SRet i) -> sholds q = [LProc i] -> (forall i, s <> STest i) -> (forall i q, s <> SRun i q) -> (forall i q', q <> SRun i q') -> sholds s = [] ->
  safe (let w' := give c (LProc i) w in put_cpu c (set_spc s (w_cpu w' c)) w').
Proof.
  intros Hnr Hq Hnt Hn Hnq Hh. pose proof (sf_cpu _ Hs c) as Hc.
  assert (LProc i ∈ holds (w_cpu w c)) as Hin by (rewrite s_holds, Hq; by left).
  destruct (give_Ok c (LProc i) w (sf_locks _ Hs) Hin Hc) as (k & Hk & Hi & ->). cbv zeta.
  rewrite cpu_put, put_put. unfold put_cpu, put_lk. simpl. rewrite (sf_panic _ Hs). apply safe_quiet; [done| | |].
  - apply locks_give; [apply Hs|done|]. intros l. rewrite s_holds, Hq. unfold holds, irq_holds, base_holds. simpl. rewrite Hirq.
    unfold sholds, holds, irq_holds, base_holds in Hh. simpl in *. rewrite Hh, list_elem_of_singleton. split; [by intros ?%elem_of_nil|by intros [??]].
  - apply sched_cpu_ok; try done; [by intros j ?%Hnt|simpl; by rewrite s_none|]. change (noff k = Z.of_nat (length (sholds s))). rewrite Hk, s_noff, Hq, Hh. done.
  - unfold same_run. rewrite Hpc. simpl. destruct q, s; (done || naive_solver).
Qed.

Lemma scheduler_safe : safe (scheduler_step c q w).
Proof.
  pose proof s_noff as Hno. pose proof (co_intr _ (sf_cpu _ Hs c)) as Hin.
  assert (exists q0, q = q0) as [q0 Eq] by eauto. rewrite s_holds in Hin. rewrite Eq in Hno, Hin |- *.
  destruct q0 as [| |i|i|i p|i|i]; cbn [scheduler_step]; cbv zeta.
  - apply s_move; rewrite ?Eq; (done || auto).
  - apply s_move; rewrite ?Eq; (done || auto).
  - case_decide; [apply s_take; rewrite ?Eq; try done; by intros j [= <-]|]. apply s_move; rewrite ?Eq; (done || auto).
  - case_decide as Hst; [|apply s_move; rewrite ?Eq; (done || auto)].
    assert (LProc i ∈ holds (w_cpu w c)) as Hl by (rewrite s_holds, Eq; by left).
    assert (holds (set_spc (SRun i (resume (t_ctx (w_proc w i)))) (set_cproc (Some i) (w_cpu w c))) = [LProc i]) as Hh.
    { unfold holds, irq_holds, base_holds. simpl. rewrite Hirq. by destruct (t_ctx _). }
    unfold put_cpu, put_proc. simpl. rewrite (sf_panic _ Hs). apply safe_in; try done.
    + by rewrite Hh, s_holds, Eq.
    + destruct (sf_off _ Hs i) as (_ & Hk & _).
      { intros c' p E. assert (c' = c) as -> by (eapply not_elsewhere; [done..|congruence|done]). rewrite Hpc, Eq in E. done. }
      split; rewrite ?Hh; simpl; try done.
      * by rewrite Hirq.
      * intros i' q' [= <- <-]. split; [done|]. split; [|done]. apply (co_scan _ (sf_cpu _ Hs c)). by rewrite Hpc.
      * intros j [= <-]. eauto.
    + rewrite Hpc, Eq. done.
  - done.
  - apply s_move; rewrite ?Eq; (done || auto).
  - apply s_give; rewrite ?Eq; done.
Qed.

End scheduler.

(** Code that holds no lock is not in the middle of sched(). *)
Lemma no_locks_running i q : pholds i q = [] -> run_state q = RUNNING /\ run_chan q = None.
Proof. by destruct q. Qed.

Section irq.
Context (w : world) (c : nat).
Hypothesis Hs : safe w.
Notation x := (w_cpu w c).

(** Entering and leaving an interrupt handler, and yield() at its end. *)
Lemma irq_move y : holds y = holds x -> cpu_ok y -> same_run x y -> safe (put_cpu c y w).
Proof.
  intros Hh Hc Hr. unfold put_cpu. rewrite (sf_panic _ Hs). apply safe_quiet; try done.
  apply locks_same; [apply Hs|]. by rewrite Hh.
Qed.

Lemma irq_code_safe a q : c_irq x = Some q ->
  safe (let (w', q') := code_step lk_of c a q w in put_cpu c (set_irq (Some q') (w_cpu w' c)) w').
Proof.
  intros E. pose proof (sf_cpu _ Hs c) as Hc. destruct (co_irq _ Hc q E) as [Hb Hq].
  assert (holds x = kholds q) as Hh by (unfold holds, irq_holds; by rewrite E, Hb, app_nil_r).
  assert (forall q' k, holds (set_irq (Some q') (set_cc k x)) = kholds q') as Hset.
  { intros q' k. unfold holds, irq_holds. simpl. change (base_holds (set_irq (Some q') (set_cc k x))) with (base_holds x).
    by rewrite Hb, app_nil_r. }
  pose proof (code_safe w c (fun q' => set_irq (Some q')) q Hs Hq Hh Hset) as Hx.
  destruct (code_step lk_of c a q w) as [w' q'] eqn:Ec. specialize (fun H1 H2 H3 => Hx H1 H2 H3 a). rewrite Ec in Hx. apply Hx.
  - intros k' k Hk Hn Hi. split; rewrite ?Hset; try done.
    + simpl. intros ? [= <-]. done.
    + apply Hc.
    + apply Hc.
    + apply (co_proc _ Hc).
  - intros k' k. unfold same_run. simpl. by destruct (c_pc x).
  - intros i q0 Ei. unfold base_holds in Hb. rewrite Ei in Hb. by destruct (no_locks_running i q0).
Qed.

Lemma step_safe a : safe (step lk_of c a w).
Proof.
  pose proof (sf_cpu _ Hs c) as Hc. unfold step. cbv zeta. destruct (c_irq x) as [q|] eqn:E.
  - pose proof (irq_code_safe a q E) as Hx. destruct (co_irq _ Hc q E) as [Hb _].
    assert (q = Out -> holds x = []) as Hh.
    { intros ->. unfold holds, irq_holds. by rewrite E, Hb. }
    destruct q; try exact Hx. destruct a; try exact Hx; specialize (Hh eq_refl).
    + pose proof (co_noff _ Hc) as Hn. rewrite Hh in Hn. apply irq_move; [|split; simpl; try done; try apply Hc|].
      * by rewrite Hh, <- Hb.
      * rewrite Hn. change (holds _) with (base_holds x). by rewrite Hb.
      * unfold same_run. simpl. by destruct (c_pc x).
    + destruct (c_pc x) as [| | | |i q0| |] eqn:Ep; try done. destruct q0 as [k| | | | | | | | | | | | | | |]; try done.
      pose proof (co_noff _ Hc) as Hn. rewrite Hh in Hn. destruct (co_run _ Hc _ _ Ep) as (Hp & Hlt & Hk).
      apply irq_move; [|split; simpl; try done|].
      * by rewrite Hh.
      * by intros ? ? [= <- <-]; unfold base_holds in Hb; rewrite Ep in Hb.
      * rewrite Hp. intros ? [= <-]. eauto.
      * unfold same_run. by rewrite Ep.
  - destruct a; try (destruct (c_pc x) eqn:Ep; (by apply scheduler_safe) || by apply proc_safe).
    destruct (intr (c_cpu x)) eqn:Ei; [|done]. pose proof (co_intr _ Hc Ei) as Hh. pose proof (co_noff _ Hc) as Hn. rewrite Hh in Hn.
    assert (base_holds x = []) as Hb by (unfold holds, irq_holds in Hh; by rewrite E in Hh).
    apply irq_move; [|split; simpl; try done; try apply Hc|].
    + by rewrite Hh.
    + rewrite Hn. change (holds _) with (base_holds x). by rewrite Hb.
    + by intros ? [= <-].
    + unfold same_run. simpl. by destruct (c_pc x).
Qed.

End irq.

Lemma boot_safe ps cond : safe (boot ps cond).
Proof.
  split; simpl; try done.
  - split; [intros l c; split; [by intros ?%elem_of_nil|done]|by left].
  - intros i _. unfold off_ok. cbn [t_state t_ctx t_chan resume run_chan pc_ok]. destruct (ps i); by split_and!.
  - intros i. by destruct (ps i).
Qed.

Lemma reachable_safe ps cond w : reachable lk_of ps cond w -> safe w.
Proof. induction 1; [apply boot_safe|by apply step_safe]. Qed.

End inv.
