(* ===== verification/SchedWake.v ===== *)
(** * No lost wakeups, and one CPU per process

   What the machine of Sched.v guarantees: the checks of sched(), acquire()
   and release() never fail, a process runs on at most one CPU, and nobody
   sleeps on a channel whose condition is true once the lock that protects
   it is free. *)

From stdpp Require Import base numbers list functions strings.
From Stdlib Require Import ZArith Lia.
From S2P Require Import Prelude Params Spinlock Kern Sched SchedInv.

(** The code a CPU executes outside sleep() and the scheduler. *)
Definition kctx_of (s : spc) (k : option kpc) : kpc :=
  match k with Some q => q | None => match s with SRun _ (Code q) => q | _ => Out end end.
Notation kctx x := (kctx_of (c_pc x) (c_irq x)).

Definition kpend (q : kpc) : list nat :=
  match q with Crit _ pend _ | Wake _ pend _ _ _ => pend | _ => [] end.

(** The processes a wakeup() has passed, and those a finished one has. *)
Definition visited (p : wakepc) (i : nat) : Prop :=
  match p with WkLoop n | WkTest n => (i < n)%nat | WkRel n => (i <= n)%nat end.
Definition cleared (q : kpc) (ch i : nat) : Prop :=
  match q with
  | Crit _ _ woke => ch ∈ woke
  | Wake _ _ woke ch' p => ch ∈ woke \/ ch = ch' /\ visited p i
  | _ => False
  end.

(** Inside sleep(ch), before and after it gives the lock back. *)
Definition testing (q : tpc) (ch : nat) : Prop := q = SleepAcq ch \/ q = SleepRel ch.
Definition falling (q : tpc) (ch : nat) : Prop := q = SleepChan ch \/ q = SleepState ch.

Definition asleep (w : world) (i ch : nat) : Prop :=
  t_state (w_proc w i) = SLEEPING /\ t_chan (w_proc w i) = Some ch \/
  exists c q, c_pc (w_cpu w c) = SRun i q /\ falling q ch.

Record informed (w : world) : Prop := {
  in_test : forall c i q ch, c_pc (w_cpu w c) = SRun i q -> testing q ch -> w_cond w ch = false;
  in_pend : forall i ch, w_cond w ch = true -> asleep w i ch -> exists c, ch ∈ kpend (kctx (w_cpu w c));
  in_clear : forall c i ch, cleared (kctx (w_cpu w c)) ch i -> ~ asleep w i ch
}.

Section wake.
Context (lk_of : nat -> nat).
Notation safe := (safe lk_of).
Notation holds := (holds lk_of).

(* ------------------------------------------------------------------ *)
(** ** What the invariant says of these *)

Section facts.
Context (w : world) (Hs : safe w).

Lemma ctx_code c : code_ok lk_of (kctx (w_cpu w c)).
Proof.
  pose proof (sf_cpu _ _ Hs c) as Hc. unfold kctx_of. destruct (c_irq (w_cpu w c)) as [q|] eqn:E.
  - by apply (co_irq _ _ Hc).
  - destruct (c_pc (w_cpu w c)) as [| | | |i q| |] eqn:Ep; try done. destruct q; try done. apply (co_run _ _ Hc _ _ Ep).
Qed.

(** What code holds, its CPU holds. *)
Lemma ctx_holds c l : l ∈ kholds (kctx (w_cpu w c)) -> l ∈ holds (w_cpu w c).
Proof.
  unfold SchedInv.holds, irq_holds, kctx_of, base_holds. destruct (c_irq (w_cpu w c)); [intros; apply elem_of_app; by left|].
  destruct (c_pc (w_cpu w c)) as [| | | |i q| |]; simpl; try (by intros ?%elem_of_nil). destruct q; simpl; (done || by intros ?%elem_of_nil).
Qed.

Lemma ctx_cond c ch : ch ∈ kpend (kctx (w_cpu w c)) \/ (exists i, cleared (kctx (w_cpu w c)) ch i) ->
  LCond (lk_of ch) ∈ holds (w_cpu w c).
Proof.
  intros Hx. apply ctx_holds. pose proof (ctx_code c) as Hc. destruct (kctx (w_cpu w c)) as [|l|l pend woke|l pend woke c' p]; simpl in *.
  - destruct Hx as [?%elem_of_nil|[? []]]. done.
  - destruct Hx as [?%elem_of_nil|[? []]]. done.
  - rewrite (Hc ch); [by left|]. apply elem_of_app. destruct Hx as [?|[? ?]]; auto.
  - destruct Hc as [Hc' Hc]. assert (lk_of ch = l) as ->.
    { destruct Hx as [?|[? [?|[-> _]]]]; [| |done]; apply Hc, elem_of_app; auto. }
    destruct p; simpl; rewrite ?elem_of_cons; auto.
Qed.

Lemma run_in c i q l : c_pc (w_cpu w c) = SRun i q -> l ∈ pholds lk_of i q -> l ∈ holds (w_cpu w c).
Proof. intros E Hl. unfold SchedInv.holds, base_holds. rewrite E. apply elem_of_app. by right. Qed.

Lemma one_holder c c' l : l ∈ holds (w_cpu w c) -> l ∈ holds (w_cpu w c') -> c = c'.
Proof. apply (locks_one _ _ _ _ _ (sf_locks _ _ Hs)). Qed.

(** A CPU that runs code is not inside sleep(). *)
Lemma ctx_not_sleeping c i q l : c_pc (w_cpu w c) = SRun i q -> kctx (w_cpu w c) <> Out -> l ∈ pholds lk_of i q ->
  exists k, q = Code k.
Proof.
  intros E Hk Hl. pose proof (sf_cpu _ _ Hs c) as Hc. unfold kctx_of in Hk. destruct (c_irq (w_cpu w c)) as [k|] eqn:Ei.
  - destruct (co_irq _ _ Hc k Ei) as [Hb _]. unfold base_holds in Hb. rewrite E in Hb. rewrite Hb in Hl. by apply elem_of_nil in Hl.
  - rewrite E in Hk. destruct q; try done. eauto.
Qed.

Lemma asleep_nproc i ch : asleep w i ch -> (i < nproc)%nat.
Proof.
  intros [[E _]|(c & q & E & _)]; [by apply (sf_nproc _ _ Hs)|]. by destruct (co_run _ _ (sf_cpu _ _ Hs c) _ _ E) as (_ & ? & _).
Qed.

(** A process that runs and is not in sleep() is not asleep. *)
Lemma running_awake c i q ch : c_pc (w_cpu w c) = SRun i q -> run_state q = RUNNING -> ~ falling q ch -> ~ asleep w i ch.
Proof.
  intros E Hr Hf [[Hst _]|(c' & q' & E' & Hf')].
  - destruct (sf_run _ _ Hs _ _ _ E) as [Hx _]. congruence.
  - assert (c' = c) as -> by (by eapply (sf_one _ _ Hs)). rewrite E in E'. by injection E' as <-.
Qed.

End facts.

(* ------------------------------------------------------------------ *)
(** ** Steps *)

(** CPU [c] moves to [s] with handler [k]; the processes become [ps]. *)
Record moved (c : nat) (w : world) (s : spc) (k : option kpc) (ps : nat -> tproc) (w' : world) : Prop := {
  mv_other : forall c', c' <> c -> c_pc (w_cpu w' c') = c_pc (w_cpu w c') /\ c_irq (w_cpu w' c') = c_irq (w_cpu w c');
  mv_pc : c_pc (w_cpu w' c) = s;
  mv_irq : c_irq (w_cpu w' c) = k;
  mv_proc : forall i, w_proc w' i = ps i;
  mv_cond : forall ch, w_cond w' ch = w_cond w ch
}.

Section moved.
Context (c : nat) (w w' : world) (s : spc) (k : option kpc) (ps : nat -> tproc).
Hypothesis Hs : safe w.
Hypothesis Hin : informed w.
Hypothesis Hm : moved c w s k ps w'.

(** Nobody falls asleep in the step. *)
Definition nobody_falls : Prop :=
  (forall i ch, t_state (ps i) = SLEEPING -> t_chan (ps i) = Some ch -> asleep w i ch) /\
  (forall i q ch, s = SRun i q -> falling q ch -> asleep w i ch).

Lemma moved_asleep i ch : nobody_falls -> asleep w' i ch -> asleep w i ch.
Proof.
  intros [H1 H2] [[Hst Hch]|(c' & q & E & Hf)].
  - rewrite (mv_proc _ _ _ _ _ _ Hm) in Hst, Hch. auto.
  - destruct (decide (c' = c)) as [->|Hne].
    + rewrite (mv_pc _ _ _ _ _ _ Hm) in E. eauto.
    + rewrite (proj1 (mv_other _ _ _ _ _ _ Hm c' Hne)) in E. right. eauto.
Qed.

Lemma informed_moved : nobody_falls ->
  (forall ch, ch ∈ kpend (kctx (w_cpu w c)) -> ch ∈ kpend (kctx_of s k) \/ forall i, ~ asleep w i ch) ->
  (forall ch i, cleared (kctx_of s k) ch i -> cleared (kctx (w_cpu w c)) ch i \/ ~ asleep w' i ch) ->
  (forall i q ch, s = SRun i q -> testing q ch -> w_cond w ch = false) ->
  informed w'.
Proof.
  intros HB HC HD HE. split.
  - intros c' i q ch E Ht. rewrite (mv_cond _ _ _ _ _ _ Hm). destruct (decide (c' = c)) as [->|Hne].
    + rewrite (mv_pc _ _ _ _ _ _ Hm) in E. eauto.
    + rewrite (proj1 (mv_other _ _ _ _ _ _ Hm c' Hne)) in E. by eapply (in_test _ Hin).
  - intros i ch Hcd Ha%moved_asleep; [|done]. rewrite (mv_cond _ _ _ _ _ _ Hm) in Hcd.
    destruct (in_pend _ Hin i ch Hcd Ha) as [c' Hc']. destruct (decide (c' = c)) as [->|Hne].
    + exists c. rewrite (mv_pc _ _ _ _ _ _ Hm), (mv_irq _ _ _ _ _ _ Hm). destruct (HC ch Hc') as [?|Hno]; [done|]. by destruct (Hno i).
    + exists c'. destruct (mv_other _ _ _ _ _ _ Hm c' Hne) as [-> ->]. done.
  - intros c' i ch Hcl. destruct (decide (c' = c)) as [->|Hne].
    + rewrite (mv_pc _ _ _ _ _ _ Hm), (mv_irq _ _ _ _ _ _ Hm) in Hcl. destruct (HD ch i Hcl) as [Hx|?]; [|done].
      intros Ha%moved_asleep; [|done]. by eapply (in_clear _ Hin).
    + destruct (mv_other _ _ _ _ _ _ Hm c' Hne) as [-> ->] in Hcl. intros Ha%moved_asleep; [|done]. by eapply (in_clear _ Hin).
Qed.

End moved.

(** Taking and giving locks changes nothing that matters here. *)
Record view (w : world) (ps : nat -> tproc) (w' : world) : Prop := {
  vw_cpu : forall c, c_pc (w_cpu w' c) = c_pc (w_cpu w c) /\ c_irq (w_cpu w' c) = c_irq (w_cpu w c);
  vw_proc : forall i, w_proc w' i = ps i;
  vw_cond : forall ch, w_cond w' ch = w_cond w ch
}.

Lemma view_refl w : view w (w_proc w) w.
Proof. done. Qed.

Lemma view_cc c k l y w : view w (w_proc w) (put_cpu c (set_cc k (w_cpu w c)) (put_lk l y w)).
Proof.
  split; try done. intros c'. simpl. destruct (decide (c = c')) as [<-|]; [by rewrite fn_lookup_insert|by rewrite fn_lookup_insert_ne by done].
Qed.

Lemma take_view c l w w' : take c l w = Some w' -> view w (w_proc w) w'.
Proof. unfold take. destruct (acquire _ _); intros [= <-]; (apply view_cc || by split). Qed.

Lemma give_view c l w : view w (w_proc w) (give c l w).
Proof. unfold give. destruct (release _ _); (apply view_cc || by split). Qed.

Lemma view_moved c w ps w1 y : view w ps w1 -> moved c w (c_pc y) (c_irq y) ps (put_cpu c y w1).
Proof.
  intros [Hc Hp Hcd]. split; try done; simpl; [|by rewrite fn_lookup_insert..].
  intros c' Hne. rewrite fn_lookup_insert_ne by done. apply Hc.
Qed.

(** A step in which no process changes and nobody is inside sleep(). *)
Lemma informed_quiet c w w1 y : informed w -> view w (w_proc w) w1 ->
  (forall i q ch, c_pc y = SRun i q -> (falling q ch -> asleep w i ch) /\ (testing q ch -> w_cond w ch = false)) ->
  (forall ch, ch ∈ kpend (kctx (w_cpu w c)) -> ch ∈ kpend (kctx y) \/ forall i, ~ asleep w i ch) ->
  (forall ch i, cleared (kctx y) ch i -> cleared (kctx (w_cpu w c)) ch i \/ ~ asleep w i ch) ->
  informed (put_cpu c y w1).
Proof.
  intros Hin Hv Hf HC HD. pose proof (view_moved c w _ w1 y Hv) as Hm.
  assert (nobody_falls w (c_pc y) (w_proc w)) as HB by (split; [by left|intros; eapply Hf; eauto]).
  eapply informed_moved; [done|exact Hm|done|done| |intros; eapply Hf; eauto].
  intros ch i Hx. destruct (HD ch i Hx) as [?|Hno]; [by left|right]. intros Ha. apply Hno. by eapply moved_asleep.
Qed.

(** [informed] does not see the difference between equal worlds. *)
Lemma informed_weq w w' : weq w w' -> informed w -> informed w'.
Proof.
  intros [Ec Ep _ Ed _] [H1 H2 H3].
  assert (forall i ch, asleep w' i ch -> asleep w i ch) as Ha.
  { intros i ch [?|(c & q & ? & ?)]; [left; by rewrite Ep|right; exists c, q; by rewrite Ec]. }
  split.
  - intros c i q ch. rewrite <- Ec, <- Ed. apply H1.
  - intros i ch. rewrite <- Ed. intros Hx Hy%Ha. destruct (H2 i ch Hx Hy) as [c ?]. exists c. by rewrite <- Ec.
  - intros c i ch. rewrite <- Ec. intros Hx Hy%Ha. by eapply H3.
Qed.

#[local] Instance informed_proper : Proper (weq ==> iff) informed.
Proof. intros w w' E. split; apply informed_weq; [done|by symmetry]. Qed.

Section code.
Context (w : world) (c : nat) (setk : kpc -> tcpu -> tcpu) (q : kpc).
Hypothesis Hs : safe w.
Hypothesis Hin : informed w.
Hypothesis Hctx : kctx (w_cpu w c) = q.
Hypothesis Hk : forall q' y, c_irq y = c_irq (w_cpu w c) -> kctx (setk q' y) = q'.
Hypothesis Hnf : forall q' y i p ch, c_pc y = c_pc (w_cpu w c) -> c_pc (setk q' y) = SRun i p -> ~ falling p ch /\ ~ testing p ch.

Notation after r := (put_cpu c (setk (snd r) (w_cpu (fst r) c)) (fst r)).

Lemma code_stays w1 q' : view w (w_proc w) w1 ->
  (forall ch, ch ∈ kpend q -> ch ∈ kpend q' \/ forall i, ~ asleep w i ch) ->
  (forall ch i, cleared q' ch i -> cleared q ch i \/ ~ asleep w i ch) -> informed (after (w1, q')).
Proof.
  intros Hv HC HD. cbn [fst snd]. assert (kctx (setk q' (w_cpu w1 c)) = q') as Hk' by (apply Hk, Hv). apply (informed_quiet c w); rewrite ?Hctx, ?Hk'; try done.
  intros i p ch E. destruct (Hnf q' (w_cpu w1 c) i p ch (proj1 (vw_cpu _ _ _ Hv c)) E). by split.
Qed.

(** The condition changes, by the CPU that holds its lock. *)
Lemma code_set l pend woke ch b : q = Crit l pend woke -> lk_of ch = l ->
  informed (after (put_cond ch b w, Crit l (if b then if decide (ch ∈ woke) then pend else ch :: pend else pend) woke)).
Proof.
  intros Eq Hl. set (q' := Crit l _ woke). cbn [fst snd].
  assert (LCond (lk_of ch) ∈ holds (w_cpu w c)) as Hc.
  { apply ctx_holds. rewrite Hctx, Eq. simpl. rewrite Hl. by left. }
  assert (informed (after (w, q'))) as Hq'.
  { apply code_stays; [done| |by rewrite Eq; left]. rewrite Eq. intros ch' Hx. left. simpl. destruct b; [case_decide|]; rewrite ?elem_of_cons; auto. }
  cbn [fst snd] in Hq'. destruct Hq' as [H1 H2 H3]. split.
  - intros c' i p ch' E Ht. simpl in E |- *. destruct (decide (ch = ch')) as [<-|]; [|rewrite fn_lookup_insert_ne by done; by eapply H1].
    destruct (decide (c' = c)) as [->|Hne].
    + rewrite fn_lookup_insert in E. destruct (Hnf q' (w_cpu w c) i p ch) as [_ []]; done.
    + rewrite fn_lookup_insert_ne in E by done. destruct Hne. eapply (one_holder w Hs); [|done].
      eapply run_in; [done|]. destruct Ht as [->| ->]; simpl; rewrite ?elem_of_cons; auto.
  - intros i ch' Hcd Ha. simpl in Hcd. destruct (decide (ch = ch')) as [<-|]; [|rewrite fn_lookup_insert_ne in Hcd by done; by eapply H2].
    rewrite fn_lookup_insert in Hcd. subst b. exists c. simpl. rewrite fn_lookup_insert, Hk by done. unfold q'. simpl.
    case_decide as Hw; [|by left]. destruct (H3 c i ch); [simpl; rewrite fn_lookup_insert, Hk by done; done|done].
  - intros c' i ch' Hx Ha. by eapply H3.
Qed.

Section wakeup.
Context (l : nat) (pend woke : list nat) (ch : nat).
Notation wk p := (Wake l pend woke ch p).

(** Process [i] is not on its way into sleep() while this CPU, inside
    wakeup(), has its lock or runs it. *)
Lemma wk_not_falling p i : q = wk p ->
  LProc i ∈ holds (w_cpu w c) \/ c_proc (w_cpu w c) = Some i -> forall c' p', c_pc (w_cpu w c') = SRun i p' -> ~ falling p' ch.
Proof.
  intros Eq Hi c' p' E Hf. assert (kctx (w_cpu w c) <> Out) as Hne by (rewrite Hctx, Eq; done).
  assert (LProc i ∈ pholds lk_of i p') as Hl by (destruct Hf as [->| ->]; by left).
  assert (c' = c) as ->.
  { destruct Hi as [Hi|Hi]; [by eapply (one_holder w Hs); [eapply run_in|]|].
    pose proof (sf_cpu _ _ Hs c) as Hc. destruct (co_proc _ _ Hc i Hi) as [[q0 Ex]|Ex]; [by eapply (sf_one _ _ Hs)|].
    unfold kctx_of in Hne. rewrite Ex in Hne. destruct (c_irq (w_cpu w c)) eqn:Ei; [|done].
    destruct (co_irq _ _ Hc _ Ei) as [Hb _]. unfold base_holds in Hb. by rewrite Ex in Hb. }
  destruct (ctx_not_sleeping w Hs c i p' _ E Hne Hl) as [k ->]. by destruct Hf.
Qed.

Lemma wk_self i : q = wk (WkLoop i) -> c_proc (w_cpu w c) = Some i -> ~ asleep w i ch.
Proof.
  intros Eq Hi [[Hst _]|(c' & p & E & Hf)]; [|by eapply wk_not_falling; eauto].
  assert (kctx (w_cpu w c) <> Out) as Hne by (rewrite Hctx, Eq; done). pose proof (sf_cpu _ _ Hs c) as Hc.
  destruct (co_proc _ _ Hc i Hi) as [[q0 Ex]|Ex].
  - destruct (sf_run _ _ Hs _ _ _ Ex) as [Hr _]. rewrite Hst in Hr.
    destruct (ctx_not_sleeping w Hs c i q0 (LProc i) Ex Hne) as [k ->]; [|done]. destruct q0; simpl in Hr |- *; (done || by left).
  - unfold kctx_of in Hne. rewrite Ex in Hne. destruct (c_irq (w_cpu w c)) eqn:Ei; [|done].
    destruct (co_irq _ _ Hc _ Ei) as [Hb _]. unfold base_holds in Hb. by rewrite Ex in Hb.
Qed.

Lemma wk_done i : q = wk (WkLoop i) -> ~ (i < nproc)%nat -> forall j, ~ asleep w j ch.
Proof.
  intros Eq Hi j Ha. pose proof (asleep_nproc w Hs j ch Ha). eapply (in_clear _ Hin c j ch); [|done].
  rewrite Hctx, Eq. right. split; [done|]. simpl. lia.
Qed.

(** The test of one process. *)
Lemma wk_test i : q = wk (WkTest i) ->
  informed (after ((if decide (t_state (w_proc w i) = SLEEPING /\ t_chan (w_proc w i) = Some ch)
                    then put_proc i (set_tstate RUNNABLE (w_proc w i)) w else w), wk (WkRel i))).
Proof.
  intros Eq. assert (LProc i ∈ holds (w_cpu w c)) as Hl by (apply ctx_holds; rewrite Hctx, Eq; by left).
  assert (forall c' p', c_pc (w_cpu w c') = SRun i p' -> ~ falling p' ch) as Hf by (eapply wk_not_falling; eauto).
  case_decide as Hd.
  - set (ps := <[i := set_tstate RUNNABLE (w_proc w i)]> (w_proc w)). cbn [fst snd].
    set (y := setk _ _). assert (view w ps (put_proc i (set_tstate RUNNABLE (w_proc w i)) w)) as Hv by done.
    pose proof (view_moved c w ps _ y Hv) as Hm. eapply informed_moved; [done|exact Hm| | | |].
    + split.
      * intros j ch'. unfold ps. destruct (decide (i = j)) as [<-|]; [by rewrite fn_lookup_insert|].
        rewrite fn_lookup_insert_ne by done. by left.
      * intros j p ch' E Hx. by destruct (Hnf (wk (WkRel i)) (w_cpu w c) j p ch') as [[] _].
    + rewrite Hctx, Eq. intros ch' Hx. left. unfold y. by rewrite Hk by done.
    + unfold y. rewrite Hk by done. rewrite Hctx, Eq. simpl. intros ch' j [?|[-> Hj]]; [auto|].
      destruct (decide (j = i)) as [->|]; [right|left; right; split; [done|lia]].
      intros [[Hst _]|(c' & p & E & Hx)]; simpl in *; [by rewrite fn_lookup_insert in Hst|].
      destruct (decide (c' = c)) as [->|Hne].
      * rewrite fn_lookup_insert in E. by destruct (Hnf (wk (WkRel i)) (w_cpu w c) i p ch) as [[] _].
      * rewrite fn_lookup_insert_ne in E by done. by eapply Hf.
    + intros j p ch' E Hx. by destruct (Hnf (wk (WkRel i)) (w_cpu w c) j p ch') as [_ []].
  - apply code_stays; [done|by rewrite Eq; left|]. rewrite Eq. simpl. intros ch' j [?|[-> Hj]]; [auto|].
    destruct (decide (j = i)) as [->|]; [right|left; right; split; [done|lia]].
    intros [?|(c' & p & E & Hx)]; [done|by eapply Hf].
Qed.

Lemma wakeup_informed p : q = wk p -> informed (after (wakeup_step c l pend woke ch p w)).
Proof.
  intros Eq. destruct p as [i|i|i]; cbn [wakeup_step].
  - case_decide as Hi; [case_decide as Hself|].
    + apply code_stays; [done|by rewrite Eq; left|]. rewrite Eq. simpl. intros ch' j [?|[-> Hj]]; [auto|].
      destruct (decide (j = i)) as [->|]; [right; by apply wk_self|left; right; split; [done|lia]].
    + destruct (take c (LProc i) w) as [w'|] eqn:Et; (apply code_stays; [(by eapply take_view) || done|by rewrite Eq; left|by rewrite Eq; left]).
    + pose proof (wk_done i Eq Hi) as Hno. apply code_stays; [done| |]; rewrite Eq; simpl.
      * intros ch' Hx. destruct (decide (ch' = ch)) as [->|]; [by right|left]. by apply list_elem_of_filter.
      * intros ch' j [->|Hx]%elem_of_cons; [by right|left; by left].
  - by apply wk_test.
  - apply code_stays; [apply give_view|by rewrite Eq; left|]. rewrite Eq. simpl. intros ch' j [?|[-> ?]]; [auto|left; right; split; [done|lia]].
Qed.

End wakeup.

Lemma code_informed a : informed (after (code_step lk_of c a q w)).
Proof.
  assert (exists q0, q = q0) as [q0 Eq] by eauto. rewrite Eq. destruct q0 as [|l|l pend woke|l pend woke ch p].
  - destruct a; (apply code_stays; rewrite ?Eq; [done|by left|by left]).
  - cbn [code_step]. destruct a; destruct (take c (LCond l) w) as [w'|] eqn:Et;
      (apply code_stays; rewrite ?Eq; [(by eapply take_view) || done|by left|(by left) || by intros ? ? ?%elem_of_nil]).
  - destruct a as [|l'|ch b|ch|ch| | | | |]; cbn [code_step]; try (apply code_stays; rewrite ?Eq; [done|by left|by left]).
    + case_decide as Hl; [by apply code_set|]. apply code_stays; rewrite ?Eq; [done|by left|by left].
    + case_decide as Hl; (apply code_stays; rewrite ?Eq; [done|by left|]); simpl; [|by left].
      intros ch' j [?|[_ ?]]; [by left|lia].
    + case_decide as Hl; [subst pend|]; (apply code_stays; rewrite ?Eq; [apply give_view || done|by left|by left]).
  - destruct a; by apply wakeup_informed.
Qed.

End code.

(** A step of process [i] on CPU [c], outside interrupt handlers. *)
Section proc.
Context (w : world) (c i : nat) (q : tpc).
Hypothesis Hs : safe w.
Hypothesis Hin : informed w.
Hypothesis Hirq : c_irq (w_cpu w c) = None.
Hypothesis Hpc : c_pc (w_cpu w c) = SRun i q.

Lemma run_ctx : kctx (w_cpu w c) = match q with Code k => k | _ => Out end.
Proof. unfold kctx_of. by rewrite Hirq, Hpc. Qed.

(** From a program counter with nothing pending to one that cleared
    nothing. *)
Lemma goto_informed w1 ps q' : view w ps w1 ->
  kpend (kctx (w_cpu w c)) = [] -> (forall ch j, ~ cleared (kctx_of (SRun i q') None) ch j) ->
  nobody_falls w (SRun i q') ps -> (forall ch, testing q' ch -> w_cond w ch = false) -> informed (goto c i q' w1).
Proof.
  intros Hv Hp Hc Hf Ht. pose proof (view_moved c w ps w1 (set_spc (SRun i q') (w_cpu w1 c)) Hv) as Hm. simpl in Hm.
  rewrite (proj2 (vw_cpu _ _ _ Hv c)), Hirq in Hm. eapply informed_moved; [done|exact Hm|done| | |].
  - rewrite Hp. by intros ch ?%elem_of_nil.
  - intros ch j Hx. by destruct (Hc ch j).
  - intros j q0 ch [= <- <-]. apply Ht.
Qed.

Lemma still q' : (forall ch, ~ falling q' ch) -> nobody_falls w (SRun i q') (w_proc w).
Proof. intros Hn. split; [by left|]. intros j q0 ch [= <- <-] Hf. by destruct (Hn ch). Qed.

(** The process changes its own entry. *)
Lemma own q' p : (forall ch, t_state p = SLEEPING -> t_chan p = Some ch -> asleep w i ch) ->
  (forall ch, falling q' ch -> asleep w i ch) -> nobody_falls w (SRun i q') (<[i := p]> (w_proc w)).
Proof.
  intros H1 H2. split.
  - intros j ch. destruct (decide (i = j)) as [<-|]; [rewrite fn_lookup_insert; auto|rewrite fn_lookup_insert_ne by done; by left].
  - intros j q0 ch [= <- <-]. auto.
Qed.

Ltac nofall := let ch := fresh in intros ch [?|?]; done.

(** sleep() gives the lock back: from here on the process counts as asleep. *)
Lemma sleep_falls ch : q = SleepRel ch -> informed (goto c i (SleepChan ch) (give c (LCond (lk_of ch)) w)).
Proof.
  intros Eq. set (w' := goto _ _ _ _).
  pose proof (view_moved c w _ _ (set_spc (SRun i (SleepChan ch)) (w_cpu (give c (LCond (lk_of ch)) w) c)) (give_view c (LCond (lk_of ch)) w)) as Hm.
  change (put_cpu _ _ _) with w' in Hm. simpl in Hm. rewrite (proj2 (vw_cpu _ _ _ (give_view c (LCond (lk_of ch)) w) c)), Hirq in Hm.
  destruct Hm as [Mo Mp Mi Mps Mc].
  assert (w_cond w ch = false) as Hcd by (eapply (in_test _ Hin c i); [done|by right]).
  assert (LCond (lk_of ch) ∈ holds (w_cpu w c)) as Hl by (eapply run_in; [done|rewrite Eq; simpl; rewrite !elem_of_cons; auto]).
  assert (forall j ch', asleep w' j ch' -> ch' = ch \/ asleep w j ch') as Ha.
  { intros j ch' [?|(c' & p & E & Hf)]; [right; left; by rewrite <- Mps|]. destruct (decide (c' = c)) as [->|Hne].
    - rewrite Mp in E. injection E as <- <-. left. destruct Hf as [[=]|?]; done.
    - right. right. exists c', p. by rewrite (proj1 (Mo c' Hne)) in E. }
  split.
  - intros c' j p ch' E Ht. rewrite Mc. destruct (decide (c' = c)) as [->|Hne].
    + rewrite Mp in E. injection E as <- <-. by destruct Ht.
    + rewrite (proj1 (Mo c' Hne)) in E. by eapply (in_test _ Hin).
  - intros j ch' Hx Hy. rewrite Mc in Hx. destruct (Ha j ch' Hy) as [->|Hz]; [congruence|].
    destruct (in_pend _ Hin j ch' Hx Hz) as [c' Hc']. destruct (decide (c' = c)) as [->|Hne].
    + rewrite run_ctx, Eq in Hc'. by apply elem_of_nil in Hc'.
    + exists c'. by destruct (Mo c' Hne) as [-> ->].
  - intros c' j ch' Hx Hy. destruct (decide (c' = c)) as [->|Hne]; [by rewrite Mp, Mi in Hx|].
    destruct (Mo c' Hne) as [E1 E2]. rewrite E1, E2 in Hx. destruct (Ha j ch' Hy) as [->|Hz]; [|by eapply (in_clear _ Hin)].
    destruct Hne. eapply (one_holder w Hs); [|exact Hl]. apply (ctx_cond w Hs). eauto.
Qed.

(** sched(): the process leaves the CPU with its state as it is. *)
Lemma sched_informed back : kctx (w_cpu w c) = Out -> informed (sched_step c i back w).
Proof.
  intros Hk. assert (informed (panics w)) as Hp by (destruct Hin; by split).
  unfold sched_step. cbv zeta. repeat (case_match; [done|]).
  set (p := TProc _ _ _ _). set (y := set_spc (SRet i) (w_cpu w c)).
  assert (view w (<[i := p]> (w_proc w)) (put_proc i p w)) as Hv by done.
  pose proof (view_moved c w _ _ y Hv) as Hm. simpl in Hm. eapply informed_moved; [exact Hin|exact Hm| | | |done].
  - split; [|done]. intros j ch. destruct (decide (i = j)) as [<-|]; [rewrite fn_lookup_insert; simpl; by left|rewrite fn_lookup_insert_ne by done; by left].
  - rewrite Hk. by intros ch ?%elem_of_nil.
  - rewrite Hirq. done.
Qed.

Lemma back_view : view w (w_proc w) (sched_back c i w).
Proof.
  split; try done. intros c'. unfold sched_back. simpl.
  destruct (decide (c = c')) as [<-|]; [by rewrite fn_lookup_insert|by rewrite fn_lookup_insert_ne by done].
Qed.

Lemma sleep_informed : informed (sleep_step lk_of c i q w).
Proof.
  pose proof (sf_run _ _ Hs _ _ _ Hpc) as [Er Ec]. pose proof run_ctx as Hk.
  assert (exists q0, q = q0) as [q0 Eq] by eauto. rewrite Eq in Er, Ec, Hk |- *.
  assert (forall ch, falling q0 ch -> asleep w i ch) as Hf by (intros ch Hx; right; exists c, q0; by rewrite Hpc, Eq).
  destruct q0 as [k|ch|ch|ch|ch|ch|ch|ch|ch| | | | | | |]; cbn [sleep_step]; try done.
  - destruct (take c (LProc i) w) as [w'|] eqn:Et; [|done]. eapply goto_informed; [by eapply take_view|by rewrite Hk|by intros ? ? []|apply still; nofall|].
    intros ch' [?|[= <-]]; [done|]. eapply (in_test _ Hin c i); [exact Hpc|rewrite Eq; by left].
  - by apply sleep_falls.
  - eapply goto_informed; [done|by rewrite Hk|by intros ? ? []| |by intros ? [?|?]].
    apply own; simpl; [by rewrite Er|]. intros ch' [?|[= <-]]; [done|]. apply Hf. by left.
  - eapply goto_informed; [done|by rewrite Hk|by intros ? ? []| |by intros ? [?|?]].
    apply own; simpl; [|by intros ? [?|?]]. intros ch' _ Hx. rewrite Ec in Hx. injection Hx as <-. apply Hf. by right.
  - by apply sched_informed.
  - eapply goto_informed; [apply back_view|by rewrite Hk|by intros ? ? []|apply still; nofall|by intros ? [?|?]].
  - eapply goto_informed; [done|by rewrite Hk|by intros ? ? []| |by intros ? [?|?]]. by apply own; simpl; [|intros ? [?|?]].
  - eapply goto_informed; [apply give_view|by rewrite Hk|by intros ? ? []|apply still; nofall|by intros ? [?|?]].
Qed.

Lemma yield_informed : informed (yield_step c i q w).
Proof.
  destruct (co_run _ _ (sf_cpu _ _ Hs c) _ _ Hpc) as (_ & _ & Hok). pose proof run_ctx as Hk.
  assert (exists q0, q = q0) as [q0 Eq] by eauto. rewrite Eq in Hok, Hk |- *. destruct q0; cbn [yield_step]; try done.
  - destruct (take c (LProc i) w) as [w'|] eqn:Et; [|done].
    eapply goto_informed; [by eapply take_view|by rewrite Hk|by intros ? ? []|apply still; nofall|by intros ? [?|?]].
  - eapply goto_informed; [done|by rewrite Hk|by intros ? ? []| |by intros ? [?|?]]. by apply own; simpl; [|intros ? [?|?]].
  - by apply sched_informed.
  - eapply goto_informed; [apply back_view|by rewrite Hk|by intros ? ? []|apply still; nofall|by intros ? [?|?]].
  - eapply goto_informed; [apply give_view|by rewrite Hk|by intros ? ? []|apply still; nofall|by intros ? [?|?]].
  - cbv zeta. unfold goto. rewrite cpu_put, put_put. apply (informed_quiet c w); [done|done| | |]; simpl.
    + intros j q1 ch [= <- <-]. by split; intros [?|?].
    + rewrite Hk. by intros ch ?%elem_of_nil.
    + rewrite Hirq. simpl. destruct Hok as [_ Hh]. destruct q0 as [| | |? ? ? ? []]; done.
Qed.

Lemma proc_code_informed a k : q = Code k ->
  informed (let (w', k') := code_step lk_of c a k w in goto c i (Code k') w').
Proof.
  intros Eq. pose proof run_ctx as Hk. rewrite Eq in Hk.
  pose proof (code_informed w c (fun q' => set_spc (SRun i (Code q'))) k Hs Hin Hk) as Hc.
  specialize (Hc ltac:(intros q' y Hy; simpl; by rewrite Hy, Hirq)).
  specialize (Hc ltac:(intros ? ? ? ? ? _ [= <- <-]; by split; intros [?|?]) a).
  by destruct (code_step lk_of c a k w) as [w' k'].
Qed.

Lemma proc_informed a : informed (proc_step lk_of c i a q w).
Proof.
  pose proof sleep_informed as Hsl. pose proof yield_informed as Hy. pose proof run_ctx as Hk.
  assert (exists q0, q = q0) as [q0 Eq] by eauto. rewrite Eq in Hsl, Hy, Hk |- *.
  destruct q0 as [k| | | | | | | | | | | | | | |]; cbn [proc_step]; auto.
  - pose proof (fun a => proc_code_informed a k Eq) as Hc.
    destruct k as [|l|l pend woke|l pend woke ch p], a as [| | | | ch'| | | | |]; try apply Hc.
    + apply (informed_quiet c w); [done|done| | |]; simpl; rewrite ?Hpc, ?Hirq, ?Eq; try by left.
      intros j q1 ch [= <- <-]. by split; intros [?|?].
    + case_decide as Hd; [|done]. destruct Hd as (<- & Hcd & ->).
      eapply goto_informed; [done|by rewrite Hk|by intros ? ? []|apply still; nofall|]. by intros ? [[= <-]|?].
  - eapply goto_informed; [apply give_view|by rewrite Hk|by intros ? ? []|apply still; nofall|by intros ? [?|?]].
Qed.

End proc.

(** The scheduler runs no such code. *)
Lemma sched_quiet w c w1 y : informed w -> view w (w_proc w) w1 -> c_irq y = None -> (forall i q, c_pc y <> SRun i q) ->
  kctx (w_cpu w c) = Out -> informed (put_cpu c y w1).
Proof.
  intros Hin Hv Hy Hn Hk. assert (kctx y = Out) as Hk'.
  { unfold kctx_of. rewrite Hy. destruct (c_pc y) as [| | | |i q| |]; try done. by destruct (Hn i q). }
  apply (informed_quiet c w); rewrite ?Hk, ?Hk'; try done.
  - intros i q ch E. by destruct (Hn i q).
  - by intros ch ?%elem_of_nil.
Qed.

Lemma scheduler_informed w c q : safe w -> informed w -> c_irq (w_cpu w c) = None -> c_pc (w_cpu w c) = q ->
  (forall i p, q <> SRun i p) -> informed (scheduler_step c q w).
Proof.
  intros Hs Hin Hirq Hpc Hn. assert (kctx (w_cpu w c) = Out) as Hk.
  { unfold kctx_of. rewrite Hirq, Hpc. destruct q as [| | | |i p| |]; try done. by destruct (Hn i p). }
  destruct q as [| |i|i|i p|i|i]; cbn [scheduler_step]; cbv zeta; try (by apply (sched_quiet w)).
  - case_decide; [|by apply (sched_quiet w)]. destruct (take c (LProc i) w) as [w'|] eqn:Et; [|done].
    pose proof (take_view _ _ _ _ Et) as Hv. apply (sched_quiet w); try done. simpl. by rewrite (proj2 (vw_cpu _ _ _ Hv c)).
  - case_decide as Hst; [|by apply (sched_quiet w)]. set (p := set_tstate RUNNING (w_proc w i)). set (y := set_spc _ _).
    assert (view w (<[i := p]> (w_proc w)) (put_proc i p w)) as Hv by done.
    pose proof (view_moved c w _ _ y Hv) as Hm. simpl in Hm. rewrite Hirq in Hm. eapply informed_moved; [done|exact Hm| | | |].
    + split; [|by intros j q ch [= <- <-] Hf; destruct (t_ctx _), Hf].
      intros j ch. destruct (decide (i = j)) as [<-|]; [by rewrite fn_lookup_insert|rewrite fn_lookup_insert_ne by done; by left].
    + rewrite Hk. by intros ch ?%elem_of_nil.
    + simpl. by destruct (t_ctx _).
    + intros j q ch [= <- <-] Ht. by destruct (t_ctx _), Ht.
  - by destruct (Hn i p).
  - pose proof (give_view c (LProc i) w) as Hv. apply (sched_quiet w); try done. simpl. by rewrite (proj2 (vw_cpu _ _ _ Hv c)).
Qed.

(** Code that holds no lock has nothing pending and has cleared nothing. *)
Lemma no_locks_ctx i q : pholds lk_of i q = [] -> kpend (kctx_of (SRun i q) None) = [] /\
  (forall ch j, ~ cleared (kctx_of (SRun i q) None) ch j) /\ (forall ch, ~ falling q ch) /\ (forall ch, ~ testing q ch).
Proof.
  intros Hh. destruct q as [k| | | | | | | | | | | | | | |]; try done.
  - destruct k as [| | |? ? ? ? []]; try done; split_and!; simpl; (done || by intros ? ? [] || by intros ? [?|?]).
  - split_and!; simpl; (done || by intros ? ? [] || by intros ? [?|?]).
  - split_and!; simpl; (done || by intros ? ? [] || by intros ? [?|?]).
Qed.

Lemma base_ctx x : base_holds lk_of x = [] -> kpend (kctx_of (c_pc x) None) = [] /\
  (forall ch j, ~ cleared (kctx_of (c_pc x) None) ch j) /\
  (forall i q ch, c_pc x = SRun i q -> ~ falling q ch /\ ~ testing q ch).
Proof.
  unfold base_holds. destruct (c_pc x) as [| | | |i q| |]; intros Hh; try done; try (by split_and!; [|intros ? ? []|]).
  destruct (no_locks_ctx i q Hh) as (? & ? & Hf & Ht). split_and!; try done. intros j p ch [= <- <-]. auto.
Qed.

Lemma step_informed w c a : safe w -> informed w -> informed (step lk_of c a w).
Proof.
  intros Hs Hin. pose proof (sf_cpu _ _ Hs c) as Hc. unfold step. cbv zeta. destruct (c_irq (w_cpu w c)) as [q|] eqn:E.
  - destruct (co_irq _ _ Hc q E) as [Hb _]. destruct (base_ctx _ Hb) as (Bp & Bc & Bf).
    assert (informed (let (w', q') := code_step lk_of c a q w in put_cpu c (set_irq (Some q') (w_cpu w' c)) w')) as Hx.
    { pose proof (code_informed w c (fun q' => set_irq (Some q')) q Hs Hin) as Hx.
      specialize (Hx ltac:(unfold kctx_of; by rewrite E) ltac:(done) ltac:(simpl; intros ? ? ? ? ? ->; apply Bf) a).
      by destruct (code_step lk_of c a q w) as [w' q']. }
    destruct q; try exact Hx. destruct a; try exact Hx.
    + apply (informed_quiet c w); [done|done| | |]; simpl; rewrite ?E.
      * intros i p ch Ei. by destruct (Bf i p ch Ei).
      * by intros ch ?%elem_of_nil.
      * intros ch j Hy. by destruct (Bc ch j).
    + destruct (c_pc (w_cpu w c)) as [| | | |i p| |] eqn:Ep; try done. destruct p; try done.
      apply (informed_quiet c w); [done|done| | |]; simpl; rewrite ?E.
      * intros j p ch [= <- <-]. by split; intros [?|?].
      * by intros ch ?%elem_of_nil.
      * by intros ch j [].
  - assert (informed (match c_pc (w_cpu w c) with SRun i q => proc_step lk_of c i a q w | q => scheduler_step c q w end)) as Hx.
    { destruct (c_pc (w_cpu w c)) eqn:Ep; (by apply scheduler_informed) || by apply proc_informed. }
    destruct a; try exact Hx. destruct (intr (c_cpu (w_cpu w c))) eqn:Ei; [|done].
    pose proof (co_intr _ _ Hc Ei) as Hh. assert (base_holds lk_of (w_cpu w c) = []) as Hb.
    { unfold SchedInv.holds, irq_holds in Hh. by rewrite E in Hh. }
    destruct (base_ctx _ Hb) as (Bp & Bc & Bf). apply (informed_quiet c w); [done|done| | |]; simpl; rewrite ?E.
    + intros i p ch Ex. by destruct (Bf i p ch Ex).
    + rewrite Bp. by intros ch ?%elem_of_nil.
    + by intros ch j [].
Qed.

Lemma boot_informed ps cond : informed (boot ps cond).
Proof.
  assert (forall i ch, ~ asleep (boot ps cond) i ch) as Hn.
  { intros i ch [[Hst _]|(c & q & E & _)]; [|done]. simpl in Hst. by destruct (ps i). }
  split; [done| |].
  - intros i ch _ Ha. by destruct (Hn i ch).
  - intros c i ch _. apply Hn.
Qed.

Lemma reachable_informed ps cond w : reachable lk_of ps cond w -> informed w.
Proof. induction 1; [apply boot_informed|]. apply step_informed; [by eapply reachable_safe|done]. Qed.

(** C10. Whatever the CPUs do and however their steps interleave, with
    interrupts and timer preemption, no check of acquire(), release() or
    sched() fails, and a process is executed by at most one CPU: its state is
    RUNNING unless that CPU holds its lock, and a process that no CPU
    executes is not RUNNING. *)
Theorem one_cpu_per_process ps cond w : reachable lk_of ps cond w ->
  w_panic w = false /\
  (forall c c' i q q', c_pc (w_cpu w c) = SRun i q -> c_pc (w_cpu w c') = SRun i q' -> c = c') /\
  (forall c i q, c_pc (w_cpu w c) = SRun i q ->
     t_state (w_proc w i) = RUNNING \/ w_lk w (LProc i) = Spinlock true (Some c)) /\
  (forall i, (forall c q, c_pc (w_cpu w c) <> SRun i q) -> t_state (w_proc w i) <> RUNNING).
Proof.
  intros Hr. pose proof (reachable_safe _ _ _ _ Hr) as Hs. split_and!.
  - apply Hs.
  - apply (sf_one _ _ Hs).
  - intros c i q E. destruct (sf_run _ _ Hs _ _ _ E) as [-> _]. destruct q; try (by left); right;
      (apply (sf_locks _ _ Hs); eapply run_in; [done|by left]).
  - intros i Hi. by destruct (sf_off _ _ Hs i Hi).
Qed.

(** C9. No lost wakeup.  Whatever the CPUs do, when the lock that protects a
    condition is free and the condition is true, no process sleeps on its
    channel.  The process may have been between the test of the condition
    and sched() when the condition became true, on another CPU or in an
    interrupt handler. *)
Theorem no_lost_wakeup ps cond w ch i : reachable lk_of ps cond w ->
  w_lk w (LCond (lk_of ch)) = initlock -> w_cond w ch = true ->
  ~ (t_state (w_proc w i) = SLEEPING /\ t_chan (w_proc w i) = Some ch).
Proof.
  intros Hr Hl Hc Ha. pose proof (reachable_safe _ _ _ _ Hr) as Hs. pose proof (reachable_informed _ _ _ Hr) as Hin.
  destruct (in_pend _ Hin i ch Hc (or_introl Ha)) as [c Hp].
  assert (LCond (lk_of ch) ∈ holds (w_cpu w c)) as Hh by (apply (ctx_cond w Hs); by left).
  apply (sf_locks _ _ Hs) in Hh. by rewrite Hl in Hh.
Qed.

End wake.

(* ------------------------------------------------------------------ *)
(** ** A run of two CPUs

   Process 0 goes to sleep on channel 0 on CPU 0; process 1 makes the
   condition true and calls wakeup() on CPU 1. *)

Definition run (acts : list (nat * act)) (w : world) : world :=
  foldl (fun w x => step id (fst x) (snd x) w) w acts.

Lemma run_reachable ps cond acts w : reachable id ps cond w -> reachable id ps cond (run acts w).
Proof. revert w. induction acts as [|[c a] acts IH]; intros w Hr; [done|]. apply IH. by constructor. Qed.

Definition ex_sleep : list (nat * act) :=
  map (pair 0%nat) (replicate 5 Next ++ [AEnter 0; Next; ASleep 0] ++ replicate 7 Next).
Definition ex_wake : list (nat * act) :=
  map (pair 1%nat) (replicate 8 Next ++ [AEnter 0; Next; ASet 0 true; AWake 0] ++ replicate 191 Next ++ [ALeave]).
Definition ex_boot : world := boot (fun i => bool_decide (i < 2)%nat) (fun _ => false).
Definition ex_world : world := run (ex_sleep ++ ex_wake) ex_boot.

Lemma one_cpu_per_process_witness :
  c_pc (w_cpu ex_world 1) = SRun 1 (Code Out) /\ w_panic ex_world = false.
Proof.
  split; [vm_compute; reflexivity|].
  apply (one_cpu_per_process id (fun i => bool_decide (i < 2)%nat) (fun _ => false) ex_world).
  apply run_reachable, reach_boot.
Defined.

Lemma no_lost_wakeup_witness :
  w_cond ex_world 0 = true /\ t_ctx (w_proc ex_world 0) = CtxSleep 0 /\
  ~ (t_state (w_proc ex_world 0) = SLEEPING /\ t_chan (w_proc ex_world 0) = Some 0%nat).
Proof.
  split; [vm_compute; reflexivity|]. split; [vm_compute; reflexivity|].
  apply (no_lost_wakeup id (fun i => bool_decide (i < 2)%nat) (fun _ => false) ex_world 0 0).
  - apply run_reachable, reach_boot.
  - vm_compute. reflexivity.
  - vm_compute. reflexivity.
Defined.
