(* ===== verification/Exec.v ===== *)
(** * kernel/exec.c and sys_exec()

   Replacing a process's image by a program from the file system.  The
   strings of argv[] carry their NUL; the null pointer that ends argv[] is
   the end of the list. *)

From stdpp Require Import base numbers list gmap strings.
From Stdlib Require Import ZArith Lia.
From S2P Require Import Prelude Params Cmem KString UserMem Kalloc Vm Fs Pipe Console File Sysfile Kern Proc.

Definition ELF_MAGIC : Z := 0x464C457F.
Definition ELF_PROG_LOAD : Z := 1.
Definition ELFHDR : Z := 64.
Definition PROGHDR : Z := 56.

(** struct elfhdr *)
Definition elf_magic (h : list Z) : Z := ld32 0 h.
Definition elf_entry (h : list Z) : Z := ld64 24 h.
Definition elf_phoff (h : list Z) : Z := ld64 32 h.
Definition elf_phnum (h : list Z) : Z := ld16 56 h.
(** struct proghdr *)
Definition ph_type (h : list Z) : Z := ld32 0 h.
Definition ph_flags (h : list Z) : Z := ld32 4 h.
Definition ph_off (h : list Z) : Z := ld64 8 h.
Definition ph_vaddr (h : list Z) : Z := ld64 16 h.
Definition ph_filesz (h : list Z) : Z := ld64 32 h.
Definition ph_memsz (h : list Z) : Z := ld64 40 h.

Definition flags2perm (flags : Z) : Z :=
  let perm := if has 0x1 flags then PTE_X else 0 in
  if has 0x2 flags then Z.lor perm PTE_W else perm.

Section exec.
Context `{WakeBudget} (kend trampoline : Z) (stack : list Z).

#[local] Instance exec_user : UserOps pmem := pmem_user kend.
#[local] Instance exec_pages : PageOps pmem := pmem_pages kend.

Notation K := (M kern).

(** for(i = 0; i < sz; i += PGSIZE) of loadseg() *)
Fixpoint loadseg_loop (fuel : nat) (pagetable va : Z) (ip : nat) (offset sz i : Z) : K Z :=
  if i <? sz then
    match fuel with
    | O => diverge
    | S f =>
        let* pa := in_mem (walkaddr pagetable (u64 (va + i))) in
        if pa =? 0 then panic "loadseg: address should exist"
        else
          let n := if sz - i <? PGSIZE then sz - i else PGSIZE in
          let* r := in_fs (readi ip KernelDst (u32 (offset + i)) n) in
          in_mem (wr_bytes pa (snd r)) ;;
          if negb (fst r =? n) then ret (-1)
          else loadseg_loop f pagetable va ip offset sz (u32 (i + PGSIZE))
    end
  else ret 0.
Definition loadseg (pagetable va : Z) (ip : nat) (offset sz : Z) : K Z :=
  loadseg_loop (Z.to_nat (sz / PGSIZE + 1)) pagetable va ip offset sz 0.

(** The loop over program headers: whether it ended, and sz. *)
Fixpoint load_loop (n : nat) (ip : nat) (pagetable off sz : Z) : K (bool * Z) :=
  match n with
  | O => ret (true, sz)
  | S n' =>
      let* r := in_fs (readi ip KernelDst (u32 off) PROGHDR) in
      let ph := snd r in
      if negb (fst r =? PROGHDR) then ret (false, sz)
      else if negb (ph_type ph =? ELF_PROG_LOAD) then load_loop n' ip pagetable (i32 (off + PROGHDR)) sz
      else if ph_memsz ph <? ph_filesz ph then ret (false, sz)
      else if u64 (ph_vaddr ph + ph_memsz ph) <? ph_vaddr ph then ret (false, sz)
      else if negb (ph_vaddr ph mod PGSIZE =? 0) then ret (false, sz)
      else
        let* sz1 := in_mem (uvmalloc kend pagetable sz (u64 (ph_vaddr ph + ph_memsz ph)) (flags2perm (ph_flags ph))) in
        if sz1 =? 0 then ret (false, sz)
        else
          let* l := loadseg pagetable (ph_vaddr ph) ip (u32 (ph_off ph)) (u32 (ph_filesz ph)) in
          if l <? 0 then ret (false, sz1)
          else load_loop n' ip pagetable (i32 (off + PROGHDR)) sz1
  end.

(** copyout() to a page table that is not the running process's *)
Definition copyout_to (pagetable va : Z) (bs : list Z) : K bool :=
  let* p := myproc in
  let* me := gets (getp p) in
  in_mem (Vm.copyout kend (p_sz me) (p_pagetable me) pagetable va bs).

(** The loop that pushes the argument strings: sp and ustack[0..argc). *)
Fixpoint push_args (argv : list (list Z)) (argc : Z) (pagetable sp stackbase : Z) (ustack : list Z) : K (option (Z * list Z)) :=
  match argv with
  | [] => ret (Some (sp, ustack))
  | arg :: argv' =>
      if argc >=? MAXARG then ret None
      else
        let* len := string_op (strlen 0) arg in
        let sp := u64 (sp - (fst len + 1)) in
        let sp := sp - sp mod 16 in
        if sp <? stackbase then ret None
        else
          let* ok := copyout_to pagetable sp (take (Z.to_nat (fst len + 1)) arg) in
          if negb ok then ret None
          else push_args argv' (argc + 1) pagetable sp stackbase (ustack ++ [sp])
  end.

(** for(last=s=path; *s; s++) if the byte is a slash, last = s+1; *)
Fixpoint last_elem (s last : list Z) : list Z :=
  match s with
  | c :: s' => if c =? 0 then last else last_elem s' (if c =? SLASH then s' else last)
  | [] => last
  end.
Definition set_pname (p : nat) (path : list Z) : K unit :=
  let* name := gets (fun k => p_name (getp p k)) in
  let* r := string_op (safestrcpy 0 (Z.of_nat (length name)) 16) (name ++ last_elem path path) in
  upd_proc p (pset_name (take (length name) (snd r))).

(** bad: *)
Definition exec_bad (pagetable sz : Z) (ip : option nat) : K Z :=
  (if negb (pagetable =? 0) then proc_freepagetable kend pagetable sz else ret tt) ;;
  match ip with
  | Some ip => in_fs (iunlockput ip) ;; in_fs end_op ;; ret (-1)
  | None => ret (-1)
  end.

(** The part of kexec() after the image is loaded: the stack, argv and the
    switch to the new image. *)
Definition exec_commit (path : list Z) (argv : list (list Z)) (entry pagetable sz : Z) : K Z :=
  let* p := myproc in
  let* oldsz := gets (fun k => p_sz (getp p k)) in
  let sz := PGROUNDUP sz in
  let* sz1 := in_mem (uvmalloc kend pagetable sz (u64 (sz + (USERSTACK + 1) * PGSIZE)) PTE_W) in
  if sz1 =? 0 then exec_bad pagetable sz None
  else
  let sz := sz1 in
  in_mem (uvmclear pagetable (u64 (sz - (USERSTACK + 1) * PGSIZE))) ;;
  let stackbase := u64 (sz - USERSTACK * PGSIZE) in
  let* a := push_args argv 0 pagetable sz stackbase [] in
  match a with
  | None => exec_bad pagetable sz None
  | Some (sp, ustack) =>
      let argc := Z.of_nat (length ustack) in
      let sp := u64 (sp - (argc + 1) * 8) in
      let sp := sp - sp mod 16 in
      if sp <? stackbase then exec_bad pagetable sz None
      else
      let* ok := copyout_to pagetable sp (concat (map (fun a => st64 0 a (replicate 8 0)) (ustack ++ [0]))) in
      if negb ok then exec_bad pagetable sz None
      else
        tf_put p TF_a1 sp ;;
        set_pname p path ;;
        let* oldpagetable := gets (fun k => p_pagetable (getp p k)) in
        upd_proc p (pset_pagetable pagetable) ;;
        upd_proc p (pset_sz sz) ;;
        tf_put p TF_epc entry ;;
        tf_put p TF_sp sp ;;
        proc_freepagetable kend oldpagetable oldsz ;;
        ret argc
  end.

Definition kexec (path : list Z) (argv : list (list Z)) : K Z :=
  let* p := myproc in
  in_fs begin_op ;;
  let* ip := in_fs (namei path (take (Z.to_nat DIRSIZ) stack)) in
  match ip with
  | None => in_fs end_op ;; ret (-1)
  | Some ip =>
      in_fs (ilock ip) ;;
      let* r := in_fs (readi ip KernelDst 0 ELFHDR) in
      let elf := snd r in
      if negb (fst r =? ELFHDR) then exec_bad 0 0 (Some ip)
      else if negb (elf_magic elf =? ELF_MAGIC) then exec_bad 0 0 (Some ip)
      else
      let* pagetable := proc_pagetable kend trampoline p in
      if pagetable =? 0 then exec_bad 0 0 (Some ip)
      else
      let* l := load_loop (Z.to_nat (elf_phnum elf)) ip pagetable (i32 (elf_phoff elf)) 0 in
      if negb (fst l) then exec_bad pagetable (snd l) (Some ip)
      else
        in_fs (iunlockput ip) ;;
        in_fs end_op ;;
        exec_commit path argv (elf_entry elf) pagetable (snd l)
  end.

(* ------------------------------------------------------------------ *)
(** ** sys_exec() *)

Definition call {A} (m : M (sys pmem) A) : K A := fun k => as_process (cur k) (in_sys m k).

(** for(i = 0; i < NELEM(argv) && argv[i] != 0; i++) kfree(argv[i]); *)
Fixpoint free_args (argv : list (Z * list Z)) : K unit :=
  match argv with
  | [] => ret tt
  | a :: argv' => in_mem (kfree kend (fst a)) ;; free_args argv'
  end.

(** for(i=0;; i++): the pages of argv[] and the strings in them; false for
    goto bad. *)
Fixpoint fetch_args (n : nat) (uargv i : Z) (argv : list (Z * list Z)) : K (bool * list (Z * list Z)) :=
  match n with
  | O => ret (false, argv)
  | S n' =>
      let* a := call (fetchaddr (u64 (uargv + 8 * i))) in
      match a with
      | None => ret (false, argv)
      | Some uarg =>
          if uarg =? 0 then ret (true, argv)
          else
            let* page := in_mem kalloc in
            if page =? 0 then ret (false, argv)
            else
              let* r := call (fetchstr uarg PGSIZE) in
              in_mem (wr_bytes page (snd r)) ;;
              if fst r <? 0 then ret (false, argv ++ [(page, snd r)])
              else fetch_args n' uargv (i + 1) (argv ++ [(page, snd r)])
      end
  end.

Definition sys_exec : K Z :=
  let* uargv := call (argaddr 1) in
  let* path := call (argstr 0 MAXPATH) in
  if fst path <? 0 then ret (-1)
  else
    let* a := fetch_args (Z.to_nat MAXARG) uargv 0 [] in
    if negb (fst a) then free_args (snd a) ;; ret (-1)
    else
      let* r := kexec (snd path) (map snd (snd a)) in
      free_args (snd a) ;;
      ret r.

End exec.
