(* ===== verification/Syscall.v ===== *)
(** * kernel/sysproc.c and kernel/syscall.c: the system calls *)

From stdpp Require Import base numbers list gmap strings.
From Stdlib Require Import ZArith Lia.
From S2P Require Import Prelude Params UserMem Kalloc Vm Fs Pipe Console File Sysfile Kern Proc Exec.

Definition SBRK_EAGER : Z := 1.

Section syscall.
Context `{WakeBudget} (kend trampoline forkret : Z) (stack : list Z).

#[local] Instance sc_user : UserOps pmem := pmem_user kend.
#[local] Instance sc_pages : PageOps pmem := pmem_pages kend.

Notation K := (M kern).

(** ** kernel/sysproc.c *)

Definition sys_exit : K Z := let* n := call (argint 0) in kexit kend n ;; ret 0.
Definition sys_getpid : K Z := let* p := myproc in gets (fun k => p_pid (getp p k)).
Definition sys_fork : K Z := kfork kend trampoline forkret.
Definition sys_wait : K Z := let* p := call (argaddr 0) in kwait kend p.

Definition sys_sbrk : K Z :=
  let* n := call (argint 0) in
  let* t := call (argint 1) in
  let* p := myproc in
  let* addr := gets (fun k => p_sz (getp p k)) in
  if (t =? SBRK_EAGER) || (n <? 0) then
    let* r := growproc kend n in
    if r <? 0 then ret (-1) else ret addr
  else if u64 (addr + n) <? addr then ret (-1)
  else upd_proc p (fun x => pset_sz (u64 (p_sz x + n)) x) ;; ret addr.

(** while(ticks - ticks0 < n) of sys_pause(); false for the return of -1 *)
Fixpoint pause_loop (fuel : nat) (ticks0 n : Z) : K bool :=
  let* t := gets n_ticks in
  if u32 (t - ticks0) <? n then
    let* p := myproc in
    let* k := killed p in
    if negb (k =? 0) then lock_release L_tickslock ;; ret false
    else
      match fuel with
      | O => diverge
      | S f => sleep ChTicks L_tickslock ;; pause_loop f ticks0 n
      end
  else ret true.
Definition sys_pause : K Z :=
  let* n := call (argint 0) in
  let n := if n <? 0 then 0 else n in
  lock_acquire L_tickslock ;;
  let* ticks0 := gets n_ticks in
  let* ok := pause_loop wake_budget ticks0 n in
  if ok : bool then lock_release L_tickslock ;; ret 0 else ret (-1).

Definition sys_kill : K Z := let* pid := call (argint 0) in kkill pid.

Definition sys_uptime : K Z :=
  lock_acquire L_tickslock ;;
  let* xticks := gets n_ticks in
  lock_release L_tickslock ;;
  ret xticks.

(** ** kernel/syscall.c: the table, indexed by the numbers of syscall.h *)

Definition syscalls : list (option (K Z)) := [
  None;
  Some sys_fork;
  Some sys_exit;
  Some sys_wait;
  Some (call (sys_pipe stack));
  Some (call sys_read);
  Some sys_kill;
  Some (sys_exec kend trampoline stack);
  Some (call (sys_fstat stack));
  Some (call (sys_chdir stack));
  Some (call sys_dup);
  Some sys_getpid;
  Some sys_sbrk;
  Some sys_pause;
  Some sys_uptime;
  Some (call (sys_open stack));
  Some (call sys_write);
  Some (call (sys_mknod stack));
  Some (call (sys_unlink stack));
  Some (call (sys_link stack));
  Some (call (sys_mkdir stack));
  Some (call sys_close)
].

Definition syscall : K unit :=
  let* p := myproc in
  let* a7 := tf_get p TF_a7 in
  let num := i32 a7 in
  match (if (num >? 0) && (num <? Z.of_nat (length syscalls)) then syscalls !! Z.to_nat num else None) with
  | Some (Some f) => let* r := f in tf_put p TF_a0 (u64 r)
  | _ => tf_put p TF_a0 (u64 (-1))
  end.

End syscall.
