(* ===== verification/Trap.v ===== *)
(** * kernel/trap.c: traps from user and kernel mode, and forkret()

   The addresses of the assembly entry points are parameters, and so are the
   interrupt controller (kernel/plic.c, Devices.v) and the
   disk's interrupt handler. *)

From stdpp Require Import base numbers list gmap strings.
From Stdlib Require Import ZArith Lia.
From S2P Require Import Prelude Params UserMem Kalloc Vm Fs Pipe Console File Sysfile Kern Proc Exec Syscall.

Definition SSTATUS_SPP : Z := Z.shiftl 1 8.
Definition SSTATUS_SPIE : Z := Z.shiftl 1 5.
Definition MAKE_SATP (pagetable : Z) : Z := Z.lor (Z.shiftl 8 60) (Z.shiftr pagetable 12).
Definition SCAUSE_EXTERNAL : Z := 0x8000000000000009.
Definition SCAUSE_TIMER : Z := 0x8000000000000005.

Definition set_stvec (v : Z) (c : csrs) : csrs :=
  Csrs (r_sstatus c) (r_sepc c) (r_scause c) (r_stval c) v (r_satp c) (r_tp c) (r_time c) (r_stimecmp c).
Definition set_sstatus (v : Z) (c : csrs) : csrs :=
  Csrs v (r_sepc c) (r_scause c) (r_stval c) (r_stvec c) (r_satp c) (r_tp c) (r_time c) (r_stimecmp c).
Definition set_sepc (v : Z) (c : csrs) : csrs :=
  Csrs (r_sstatus c) v (r_scause c) (r_stval c) (r_stvec c) (r_satp c) (r_tp c) (r_time c) (r_stimecmp c).
Definition set_stimecmp (v : Z) (c : csrs) : csrs :=
  Csrs (r_sstatus c) (r_sepc c) (r_scause c) (r_stval c) (r_stvec c) (r_satp c) (r_tp c) (r_time c) v.

(** The part of devintr() for an external interrupt, with the calls it makes
    as arguments: Devices.v runs it on several harts.  The message about an
    unexpected interrupt is left out. *)
Definition external_intr {S} (plic_claim : M S Z) (plic_complete : Z -> M S unit) (uartintr virtio_disk_intr : M S unit) : M S unit :=
  let* irq := plic_claim in
  (if irq =? UART0_IRQ then uartintr
   else if irq =? VIRTIO0_IRQ then virtio_disk_intr
   else ret tt) ;;
  if negb (irq =? 0) then plic_complete irq else ret tt.

Section trap.
Context `{WakeBudget} (kend trampoline forkret_addr kernelvec uservec usertrap_addr : Z) (stack : list Z).
Context (plic_claim : M kern Z) (plic_complete : Z -> M kern unit) (virtio_disk_intr : M kern unit).
Context (initlog : Z -> superblock -> M (fs pmem) unit).

#[local] Instance tr_user : UserOps pmem := pmem_user kend.
#[local] Instance tr_pages : PageOps pmem := pmem_pages kend.

Notation K := (M kern).

Definition csr {A} (f : csrs -> A) : K A := gets (fun k => f (n_csr k)).

Definition trapinit : K unit := modify (lset L_tickslock false).
Definition trapinithart : K unit := modify (set_csr (set_stvec kernelvec)).

Definition clockintr : K unit :=
  let* id := csr r_tp in
  (if id =? 0 then
     lock_acquire L_tickslock ;;
     modify (fun k => set_ticks (u32 (n_ticks k + 1)) k) ;;
     wakeup ChTicks ;;
     lock_release L_tickslock
   else ret tt) ;;
  let* t := csr r_time in
  modify (set_csr (set_stimecmp (u64 (t + 1000000)))).

Definition devintr : K Z :=
  let* scause := csr r_scause in
  if scause =? SCAUSE_EXTERNAL then
    external_intr plic_claim plic_complete (in_files (zoom L_cons uartintr)) virtio_disk_intr ;;
    ret 1
  else if scause =? SCAUSE_TIMER then clockintr ;; ret 2
  else ret 0.

Definition prepare_return : K unit :=
  let* p := myproc in
  intr_off ;;
  modify (set_csr (set_stvec (u64 (TRAMPOLINE + (uservec - trampoline))))) ;;
  let* satp := csr r_satp in
  tf_put p TF_kernel_satp satp ;;
  let* kstack := gets (fun k => p_kstack (getp p k)) in
  tf_put p TF_kernel_sp (u64 (kstack + PGSIZE)) ;;
  tf_put p TF_kernel_trap usertrap_addr ;;
  let* tp := csr r_tp in
  tf_put p TF_kernel_hartid tp ;;
  let* x := csr r_sstatus in
  modify (set_csr (set_sstatus (Z.lor (Z.land x (u64 (Z.lnot SSTATUS_SPP))) SSTATUS_SPIE))) ;;
  let* epc := tf_get p TF_epc in
  modify (set_csr (set_sepc epc)).

Definition usertrap : K Z :=
  let* x := csr r_sstatus in
  if has SSTATUS_SPP x then panic "usertrap: not from user mode"
  else
  modify (set_csr (set_stvec kernelvec)) ;;
  let* p := myproc in
  let* sepc := csr r_sepc in
  tf_put p TF_epc sepc ;;
  let* scause := csr r_scause in
  let* which_dev :=
    if scause =? 8 then
      let* k := killed p in
      (if negb (k =? 0) then kexit kend (-1) else ret tt) ;;
      let* epc := tf_get p TF_epc in
      tf_put p TF_epc (u64 (epc + 4)) ;;
      intr_on ;;
      syscall kend trampoline forkret_addr stack ;;
      ret 0
    else
      let* d := devintr in
      if negb (d =? 0) then ret d
      else
        let* scause := csr r_scause in
        let* stval := csr r_stval in
        let* me := gets (getp p) in
        let* pa := if (scause =? 15) || (scause =? 13)
                   then in_mem (vmfault kend (p_sz me) (p_pagetable me) (p_pagetable me) stval) else ret 0 in
        (if pa =? 0 then setkilled p else ret tt) ;;
        ret 0 in
  let* k := killed p in
  (if negb (k =? 0) then kexit kend (-1) else ret tt) ;;
  (if which_dev =? 2 then yield else ret tt) ;;
  prepare_return ;;
  let* pt := gets (fun k => p_pagetable (getp p k)) in
  ret (MAKE_SATP pt).

Definition kerneltrap : K unit :=
  let* sepc := csr r_sepc in
  let* sstatus := csr r_sstatus in
  let* on := gets intr_get in
  if negb (has SSTATUS_SPP sstatus) then panic "kerneltrap: not from supervisor mode"
  else if on : bool then panic "kerneltrap: interrupts enabled"
  else
  let* which_dev := devintr in
  if which_dev =? 0 then panic "kerneltrap"
  else
  let* me := gets n_cur in
  (if (which_dev =? 2) && bool_decide (is_Some me) then yield else ret tt) ;;
  modify (set_csr (set_sepc sepc)) ;;
  modify (set_csr (set_sstatus sstatus)).

(** kernel/proc.c: the first code of a new process; the result is the satp
    given to userret in trampoline.S. *)
Definition INIT_PATH : list Z := [47; 105; 110; 105; 116; 0].
Definition forkret : K Z :=
  let* p := myproc in
  lock_release (L_plock p) ;;
  let* first := gets n_first in
  (if first : bool then
     in_fs (fsinit initlog ROOTDEV) ;;
     modify (set_first false) ;;
     let* r := kexec kend trampoline stack INIT_PATH [INIT_PATH] in
     tf_put p TF_a0 (u64 r) ;;
     if r =? -1 then panic "exec" else ret tt
   else ret tt) ;;
  prepare_return ;;
  let* pt := gets (fun k => p_pagetable (getp p k)) in
  ret (MAKE_SATP pt).

End trap.
