(* ===== verification/Machine.v ===== *)
(** * kernel/riscv.h and kernel/start.c: the registers of a hart

   A hart with its control and status registers, as the privileged
   architecture of RISC-V defines reads and writes of them: the supervisor's
   sstatus and sie are windows on mstatus and mie, a bit of sie is there only
   when mideleg delegates it, a write keeps only the bits that exist, and an
   access without the privilege is an illegal instruction ([Panic]).
   start() runs in machine mode with whatever the registers hold. *)

From stdpp Require Import base numbers list strings.
From Stdlib Require Import ZArith Lia.
From S2P Require Import Prelude Params.

(* ------------------------------------------------------------------ *)
(** ** The hart *)

Inductive priv := User | Supervisor | Machine.
Definition level (p : priv) : Z := match p with User => 0 | Supervisor => 1 | Machine => 3 end.
#[global] Instance priv_eq_dec : EqDecision priv.
Proof. solve_decision. Defined.

Inductive csr :=
| mhartid | mstatus | mepc | medeleg | mideleg | mie | menvcfg | mcounteren | pmpcfg0 | pmpaddr0
| satp | stvec | stimecmp | time | sstatus | sie.
#[global] Instance csr_eq_dec : EqDecision csr.
Proof. solve_decision. Defined.

Record hart := Hart {
  h_priv : priv;
  h_pc : Z;
  h_tp : Z;
  h_csr : csr -> Z       (* sstatus and sie have no value of their own *)
}.
Definition set_csr_val (c : csr) (v : Z) (h : hart) : hart :=
  Hart (h_priv h) (h_pc h) (h_tp h) (fun c' => if decide (c' = c) then v else h_csr h c').

Notation HM := (M hart).

(** The bits of a register that a write changes. *)
Definition bits (l : list Z) : Z := fold_right (fun i m => Z.lor (Z.shiftl 1 i) m) 0 l.
Definition masked (m old v : Z) : Z := Z.lor (Z.land old (Z.lnot m)) (Z.land v m).

Definition MSTATUS_W : Z := bits [1; 3; 5; 7; 8; 11; 12; 13; 14; 17; 18; 19; 20; 21; 22].
Definition SSTATUS_W : Z := bits [1; 5; 8; 13; 14; 18; 19].
Definition MIE_W : Z := bits [1; 3; 5; 7; 9; 11].
Definition MIDELEG_W : Z := bits [1; 5; 9].
Definition MEDELEG_W : Z := bits [0; 1; 2; 3; 4; 5; 6; 7; 8; 9; 12; 13; 15].

Definition mpp (x : Z) : Z := Z.land (Z.shiftr x 11) 3.
(** A write of a previous privilege that does not exist keeps the old one. *)
Definition put_mstatus (old v : Z) : Z :=
  let v := if mpp v =? 2 then masked (bits [11; 12]) v old else v in masked MSTATUS_W old v.

(** With Sstc, the supervisor has time and stimecmp when machine mode lets
    it. *)
Definition csr_ok (h : hart) (c : csr) : bool :=
  match c with
  | satp | stvec | sstatus | sie => 1 <=? level (h_priv h)
  | time => (level (h_priv h) =? 3) || Z.testbit (h_csr h mcounteren) 1
  | stimecmp =>
      (level (h_priv h) =? 3) ||
      ((level (h_priv h) =? 1) && Z.testbit (h_csr h mcounteren) 1 && Z.testbit (h_csr h menvcfg) 63)
  | _ => level (h_priv h) =? 3
  end.

Definition csr_get (h : hart) (c : csr) : Z :=
  match c with
  | sstatus => Z.land (h_csr h mstatus) SSTATUS_W
  | sie => Z.land (h_csr h mie) (h_csr h mideleg)
  | c => h_csr h c
  end.
Definition csr_put (c : csr) (v : Z) (h : hart) : hart :=
  let old := h_csr h c in
  match c with
  | mhartid | time => h
  | mstatus => set_csr_val c (put_mstatus old v) h
  | mepc => set_csr_val c (Z.land v (u64 (Z.lnot 1))) h
  | medeleg => set_csr_val c (Z.land v MEDELEG_W) h
  | mideleg => set_csr_val c (Z.land v MIDELEG_W) h
  | mie => set_csr_val c (masked MIE_W old v) h
  | menvcfg => set_csr_val c (masked (bits [0; 63]) old v) h
  | mcounteren => set_csr_val c (Z.land v 7) h
  | pmpcfg0 => if Z.testbit old 7 then h else set_csr_val c v h
  | pmpaddr0 => if Z.testbit (h_csr h pmpcfg0) 7 then h else set_csr_val c (Z.land v (2 ^ 54 - 1)) h
  | satp => if (Z.shiftr v 60 =? 0) || (Z.shiftr v 60 =? 8) then set_csr_val c v h else h
  | stvec | stimecmp => set_csr_val c v h
  | sstatus => set_csr_val mstatus (masked SSTATUS_W (h_csr h mstatus) v) h
  | sie => set_csr_val mie (masked (h_csr h mideleg) (h_csr h mie) v) h
  end.

(** csrr and csrw *)
Definition csrr (c : csr) : HM Z := fun h => if csr_ok h c then Ok (csr_get h c) h else Panic "illegal instruction".
Definition csrw (c : csr) (v : Z) : HM unit := fun h =>
  if csr_ok h c then Ok tt (csr_put c v h) else Panic "illegal instruction".

(** Return from machine mode to the previous privilege, at mepc. *)
Definition mret : HM unit := fun h =>
  if decide (h_priv h = Machine) then
    let x := h_csr h mstatus in
    let p := if mpp x =? 3 then Machine else if mpp x =? 1 then Supervisor else User in
    let x' := Z.lor (Z.land x (Z.lnot (bits [3; 7; 11; 12; 17])))
                (Z.lor (Z.shiftl (Z.b2z (Z.testbit x 7)) 3) (Z.shiftl 1 7)) in
    Ok tt (set_csr_val mstatus x' (Hart p (h_csr h mepc) (h_tp h) (h_csr h)))
  else Panic "illegal instruction".

(* ------------------------------------------------------------------ *)
(** ** kernel/riscv.h *)

Definition MSTATUS_MPP_MASK : Z := Z.shiftl 3 11.
Definition MSTATUS_MPP_S : Z := Z.shiftl 1 11.
Definition SSTATUS_SIE : Z := Z.shiftl 1 1.
Definition SIE_SEIE : Z := Z.shiftl 1 9.
Definition SIE_STIE : Z := Z.shiftl 1 5.
Definition MIE_STIE : Z := Z.shiftl 1 5.

Definition r_mhartid : HM Z := csrr mhartid.
Definition r_mstatus : HM Z := csrr mstatus.
Definition w_mstatus (x : Z) : HM unit := csrw mstatus x.
Definition w_mepc (x : Z) : HM unit := csrw mepc x.
Definition r_sstatus : HM Z := csrr sstatus.
Definition w_sstatus (x : Z) : HM unit := csrw sstatus x.
Definition r_sie : HM Z := csrr sie.
Definition w_sie (x : Z) : HM unit := csrw sie x.
Definition r_mie : HM Z := csrr mie.
Definition w_mie (x : Z) : HM unit := csrw mie x.
Definition w_medeleg (x : Z) : HM unit := csrw medeleg x.
Definition w_mideleg (x : Z) : HM unit := csrw mideleg x.
Definition w_stvec (x : Z) : HM unit := csrw stvec x.
Definition w_stimecmp (x : Z) : HM unit := csrw stimecmp x.
Definition r_menvcfg : HM Z := csrr menvcfg.
Definition w_menvcfg (x : Z) : HM unit := csrw menvcfg x.
Definition w_pmpcfg0 (x : Z) : HM unit := csrw pmpcfg0 x.
Definition w_pmpaddr0 (x : Z) : HM unit := csrw pmpaddr0 x.
Definition w_satp (x : Z) : HM unit := csrw satp x.
Definition r_mcounteren : HM Z := csrr mcounteren.
Definition w_mcounteren (x : Z) : HM unit := csrw mcounteren x.
Definition r_time : HM Z := csrr time.
Definition w_tp (x : Z) : HM unit := modify (fun h => Hart (h_priv h) (h_pc h) x (h_csr h)).

Definition intr_on : HM unit := let* x := r_sstatus in w_sstatus (Z.lor x SSTATUS_SIE).
Definition intr_off : HM unit := let* x := r_sstatus in w_sstatus (Z.land x (u64 (Z.lnot SSTATUS_SIE))).
Definition intr_get : HM bool := let* x := r_sstatus in ret (negb (Z.land x SSTATUS_SIE =? 0)).

(* ------------------------------------------------------------------ *)
(** ** kernel/start.c *)

Definition timerinit : HM unit :=
  let* x := r_mie in w_mie (Z.lor x MIE_STIE) ;;
  let* x := r_menvcfg in w_menvcfg (Z.lor x (Z.shiftl 1 63)) ;;
  let* x := r_mcounteren in w_mcounteren (Z.lor x 2) ;;
  let* t := r_time in w_stimecmp (u64 (t + 1000000)).

(** [main] is the address of main(). *)
Definition start (main : Z) : HM unit :=
  let* x := r_mstatus in
  let x := Z.land x (u64 (Z.lnot MSTATUS_MPP_MASK)) in
  let x := Z.lor x MSTATUS_MPP_S in
  w_mstatus x ;;
  w_mepc main ;;
  w_satp 0 ;;
  w_medeleg 0xffff ;;
  w_mideleg 0xffff ;;
  let* x := r_sie in w_sie (Z.lor (Z.lor x SIE_SEIE) SIE_STIE) ;;
  w_pmpaddr0 0x3fffffffffffff ;;
  w_pmpcfg0 0xf ;;
  timerinit ;;
  let* id := r_mhartid in
  w_tp (u64 (i32 id)) ;;
  mret.

(* ------------------------------------------------------------------ *)
(** ** What supervisor mode sees *)

(** Supervisor mode may access physical address [pa]: entry 0 of the memory
    protection covers it with all permissions, as a range that ends at
    pmpaddr0; no other entry is on. *)
Definition pmp_allows (h : hart) (pa : Z) : bool :=
  (Z.land (h_csr h pmpcfg0) 0x1f =? 0xf) && (pa <? 4 * h_csr h pmpaddr0).

(** A pending interrupt [n] is taken by the supervisor, at stvec. *)
Definition s_takes (h : hart) (n : Z) : bool :=
  bool_decide (h_priv h = Supervisor) && Z.testbit (h_csr h mideleg) n && Z.testbit (h_csr h mie) n &&
  Z.testbit (h_csr h mstatus) 1.

Definition STI : Z := 5.
Definition SEI : Z := 9.

Lemma testbit_masked m old v i : 0 <= i ->
  Z.testbit (masked m old v) i = if Z.testbit m i then Z.testbit v i else Z.testbit old i.
Proof.
  intros Hi. unfold masked. rewrite Z.lor_spec, !Z.land_spec, Z.lnot_spec by done.
  destruct (Z.testbit m i), (Z.testbit v i), (Z.testbit old i); done.
Qed.

Lemma set_csr_eq c v h : h_csr (set_csr_val c v h) c = v.
Proof. unfold set_csr_val. cbn [h_csr]. by rewrite decide_True. Qed.
Lemma set_csr_ne c v h c' : c' <> c -> h_csr (set_csr_val c v h) c' = h_csr h c'.
Proof. intros. unfold set_csr_val. cbn [h_csr]. by rewrite decide_False. Qed.

(** The register a write changes. *)
Definition target (c : csr) : csr := match c with sstatus => mstatus | sie => mie | c => c end.
Ltac put_cases c := destruct c; cbn [csr_put target]; repeat match goal with |- context [if ?b then _ else _] => destruct b end.
Lemma csr_put_priv c v h : h_priv (csr_put c v h) = h_priv h.
Proof. put_cases c; reflexivity. Qed.
Lemma csr_put_tp c v h : h_tp (csr_put c v h) = h_tp h.
Proof. put_cases c; reflexivity. Qed.
Lemma csr_ok_M h c : h_priv h = Machine -> csr_ok h c = true.
Proof. intros E. destruct c; unfold csr_ok; by rewrite E. Qed.
Lemma csrr_M c h : h_priv h = Machine -> csrr c h = Ok (csr_get h c) h.
Proof. intros E. unfold csrr. by rewrite csr_ok_M. Qed.
Lemma csrw_M c v h : h_priv h = Machine -> csrw c v h = Ok tt (csr_put c v h).
Proof. intros E. unfold csrw. by rewrite csr_ok_M. Qed.

Lemma csr_put_ne c v h c' : c' <> target c -> h_csr (csr_put c v h) c' = h_csr h c'.
Proof. put_cases c; intros; rewrite ?set_csr_ne by assumption; reflexivity. Qed.

(** Runs the accesses of machine mode one by one, naming the states. *)
Ltac machine := repeat
  match goal with
  | |- context [bind (csrr ?c) _ ?h] => rewrite (bind_Ok (csrr c) _ h _ _ (csrr_M c h ltac:(assumption)))
  | Hp : h_priv ?h = Machine |- context [bind (csrw ?c ?v) _ ?h] =>
      rewrite (bind_Ok (csrw c v) _ h _ _ (csrw_M c v h Hp));
      let h' := fresh "h" in let Eh := fresh "Eh" in
      remember (csr_put c v h) as h' eqn:Eh;
      assert (h_priv h' = Machine) by (rewrite Eh, csr_put_priv; exact Hp)
  end.

(** Reads of registers in the states [machine] names. *)
Ltac regs := repeat (rewrite csr_put_ne by discriminate); cbn [csr_get].

Record timer_on (h h' : hart) : Prop := {
  tm_priv : h_priv h' = Machine;
  tm_same : forall c, c ∉ [mie; menvcfg; mcounteren; stimecmp] -> h_csr h' c = h_csr h c;
  tm_mie : h_csr h' mie = masked MIE_W (h_csr h mie) (Z.lor (h_csr h mie) MIE_STIE);
  tm_menvcfg : Z.testbit (h_csr h' menvcfg) 63 = true;
  tm_mcounteren : Z.testbit (h_csr h' mcounteren) 1 = true;
  tm_stimecmp : h_csr h' stimecmp = u64 (h_csr h time + 1000000)
}.

Lemma timerinit_run h : h_priv h = Machine -> exists h', timerinit h = Ok tt h' /\ timer_on h h'.
Proof.
  intros Hp. unfold timerinit, r_mie, w_mie, r_menvcfg, w_menvcfg, r_mcounteren, w_mcounteren, r_time, w_stimecmp.
  machine. rewrite csrw_M by assumption. eexists. split; [reflexivity|]. split.
  - by rewrite csr_put_priv.
  - intros c Hc. rewrite !not_elem_of_cons in Hc. destruct Hc as (H1' & H2' & H3' & H4' & _). subst.
    by rewrite !csr_put_ne by done.
  - subst. regs. cbn [csr_put]. by rewrite set_csr_eq.
  - subst. regs. cbn [csr_put]. rewrite set_csr_eq, testbit_masked by lia.
    change (Z.testbit (bits [0; 63]) 63) with true. cbn iota. rewrite Z.lor_spec. by rewrite orb_true_r.
  - subst. regs. cbn [csr_put]. rewrite set_csr_eq, Z.land_spec, Z.lor_spec. by rewrite orb_true_r.
  - subst. cbn [csr_put]. rewrite set_csr_eq. by regs.
Qed.

Ltac notin := rewrite !not_elem_of_cons; split_and!; (discriminate || apply not_elem_of_nil).

(** The registers when start() has run up to mret. *)
Record started_regs (main : Z) (h h' : hart) : Prop := {
  st_priv : h_priv h' = Machine;
  st_tp : h_tp h' = u64 (i32 (h_csr h mhartid));
  st_mstatus : h_csr h' mstatus =
    put_mstatus (h_csr h mstatus) (Z.lor (Z.land (h_csr h mstatus) (u64 (Z.lnot MSTATUS_MPP_MASK))) MSTATUS_MPP_S);
  st_mepc : h_csr h' mepc = Z.land main (u64 (Z.lnot 1));
  st_satp : h_csr h' satp = 0;
  st_medeleg : h_csr h' medeleg = MEDELEG_W;
  st_mideleg : h_csr h' mideleg = MIDELEG_W;
  st_mie : forall i, i = 5 \/ i = 9 -> Z.testbit (h_csr h' mie) i = true;
  st_pmpaddr0 : h_csr h' pmpaddr0 = 0x3fffffffffffff;
  st_pmpcfg0 : h_csr h' pmpcfg0 = 0xf;
  st_menvcfg : Z.testbit (h_csr h' menvcfg) 63 = true;
  st_mcounteren : Z.testbit (h_csr h' mcounteren) 1 = true;
  st_stimecmp : h_csr h' stimecmp = u64 (h_csr h time + 1000000)
}.

Lemma sie_on h i : h_csr h mideleg = MIDELEG_W -> i = 5 \/ i = 9 ->
  Z.testbit (h_csr (csr_put sie (Z.lor (Z.lor (csr_get h sie) SIE_SEIE) SIE_STIE) h) mie) i = true.
Proof.
  intros Hd Hi. cbn [csr_put]. rewrite set_csr_eq, Hd, testbit_masked, !Z.lor_spec by lia.
  destruct Hi as [-> | ->].
  - change (Z.testbit MIDELEG_W 5) with true. cbn iota. by rewrite orb_true_r.
  - change (Z.testbit MIDELEG_W 9) with true. cbn iota. by rewrite orb_true_r.
Qed.
Lemma timer_mie h h' i : timer_on h h' -> 0 <= i -> Z.testbit (h_csr h mie) i = true -> Z.testbit (h_csr h' mie) i = true.
Proof. intros T Hi Hb. rewrite (tm_mie _ _ T), testbit_masked, Z.lor_spec, Hb by done. by destruct (Z.testbit MIE_W i). Qed.

Lemma put_pmpaddr v h : Z.testbit (h_csr h pmpcfg0) 7 = false -> h_csr (csr_put pmpaddr0 v h) pmpaddr0 = Z.land v (2 ^ 54 - 1).
Proof. intros E. cbn [csr_put]. by rewrite E, set_csr_eq. Qed.
Lemma put_pmpcfg v h : Z.testbit (h_csr h pmpcfg0) 7 = false -> h_csr (csr_put pmpcfg0 v h) pmpcfg0 = v.
Proof. intros E. cbn [csr_put]. by rewrite E, set_csr_eq. Qed.

Lemma start_run main h : h_priv h = Machine -> Z.testbit (h_csr h pmpcfg0) 7 = false ->
  exists h', start main h = mret h' /\ started_regs main h h'.
Proof.
  intros Hp Hl. unfold start, r_mstatus, w_mstatus, w_mepc, w_satp, w_medeleg, w_mideleg, r_sie, w_sie, w_pmpaddr0, w_pmpcfg0,
    r_mhartid. machine.
  match goal with Hm : h_priv ?h' = Machine |- context [bind timerinit _ ?h'] => destruct (timerinit_run h' Hm) as (t & Et & T) end.
  rewrite (bind_Ok _ _ _ _ _ Et). rewrite (bind_Ok _ _ _ _ _ (csrr_M mhartid t (tm_priv _ _ T))).
  unfold w_tp at 1, modify, bind. cbn [out_bind]. eexists. split; [reflexivity|].
  split; cbn [h_priv h_tp h_csr].
  - apply T.
  - cbn [csr_get]. rewrite (tm_same _ _ T) by notin. subst. by regs.
  - rewrite (tm_same _ _ T) by notin. subst. regs. cbn [csr_put]. by rewrite set_csr_eq.
  - rewrite (tm_same _ _ T) by notin. subst. regs. cbn [csr_put]. by rewrite set_csr_eq.
  - rewrite (tm_same _ _ T) by notin. subst. regs. cbn [csr_put].
    change ((Z.shiftr 0 60 =? 0) || (Z.shiftr 0 60 =? 8)) with true. cbn iota. by rewrite set_csr_eq.
  - rewrite (tm_same _ _ T) by notin. subst. regs. cbn [csr_put]. by rewrite set_csr_eq.
  - rewrite (tm_same _ _ T) by notin. subst. regs. cbn [csr_put]. by rewrite set_csr_eq.
  - intros i Hi. apply (timer_mie _ _ _ T); [lia|]. subst. regs. apply sie_on; [|done]. cbn [csr_put]. by rewrite set_csr_eq.
  - rewrite (tm_same _ _ T) by notin. subst. rewrite csr_put_ne, put_pmpaddr by (discriminate || by regs). done.
  - rewrite (tm_same _ _ T) by notin. subst. rewrite put_pmpcfg by (by regs). done.
  - apply T.
  - apply T.
  - rewrite (tm_stimecmp _ _ T). subst. by regs.
Qed.

Lemma mpp_bits x : Z.testbit x 11 = true -> Z.testbit x 12 = false -> mpp x = 1.
Proof.
  intros H1 H2. unfold mpp. apply Z.bits_inj'. intros i Hi. rewrite Z.land_spec, Z.shiftr_spec by done.
  destruct (decide (i = 0)) as [->|]; [change (0 + 11) with 11; by rewrite H1|].
  destruct (decide (i = 1)) as [->|]; [change (1 + 11) with 12; by rewrite H2|].
  rewrite (Z.bits_above_log2 3), (Z.bits_above_log2 1) by (done || (simpl; lia)). apply andb_false_r.
Qed.

Definition mstatus_s (x : Z) : Z := Z.lor (Z.land x (u64 (Z.lnot MSTATUS_MPP_MASK))) MSTATUS_MPP_S.
Lemma mpp_mstatus x : mpp (put_mstatus x (mstatus_s x)) = 1 /\ Z.testbit (put_mstatus x (mstatus_s x)) 1 = Z.testbit x 1.
Proof.
  assert (Z.testbit (mstatus_s x) 11 = true /\ Z.testbit (mstatus_s x) 12 = false /\ Z.testbit (mstatus_s x) 1 = Z.testbit x 1) as (B1 & B2 & B3).
  { unfold mstatus_s. rewrite !Z.lor_spec, !Z.land_spec. split_and!; [apply orb_true_r| |].
    - by rewrite andb_false_r.
    - by rewrite andb_true_r, orb_false_r. }
  unfold put_mstatus. rewrite (mpp_bits (mstatus_s x)) by done. cbn iota. change (1 =? 2) with false. cbn iota.
  split; [apply mpp_bits|]; rewrite testbit_masked by lia.
  - exact B1.
  - exact B2.
  - exact B3.
Qed.

Lemma even_pc a : 0 <= a < 2 ^ 64 -> a mod 2 = 0 -> Z.land a (u64 (Z.lnot 1)) = a.
Proof.
  intros Ha He. change (u64 (Z.lnot 1)) with (Z.ldiff (Z.ones 64) 1). apply Z.bits_inj'. intros i Hi.
  rewrite Z.land_spec, Z.ldiff_spec, Z.testbit_ones_nonneg by lia. destruct (decide (i = 0)) as [->|].
  - pose proof (Z.bit0_mod a) as Hb. rewrite He in Hb. by destruct (Z.testbit a 0).
  - rewrite (Z.bits_above_log2 1) by (done || (simpl; lia)). rewrite andb_true_r. destruct (Z.ltb_spec i 64); [apply andb_true_r|].
    rewrite andb_false_r. symmetry. destruct (decide (a = 0)) as [->|]; [apply Z.testbit_0_l|].
    apply Z.bits_above_log2; [lia|]. apply Z.log2_lt_pow2; [lia|]. pose proof (Z.pow_le_mono_r 2 64 i). lia.
Qed.

(** C37. start() leaves machine mode for main() with the hart set up for the
    kernel, whatever the other registers held, when entry 0 of the memory
    protection is not locked: the hart is in supervisor mode at main(), with
    paging off and its number in tp; the exceptions of the supervisor and of
    user programs are delegated, and so are the timer and external
    interrupts, which are taken once intr_on() is called.  start() leaves the
    interrupt enable of the supervisor as it was, so that no interrupt is
    taken before that on a hart that was reset with it clear.  All of
    physical memory up to the last word is accessible; and the first timer
    interrupt is set, with time and stimecmp open to the supervisor. *)
Theorem start_enters_main main h :
  h_priv h = Machine -> Z.testbit (h_csr h pmpcfg0) 7 = false ->
  0 <= h_csr h mhartid < NCPU -> 0 <= main < 2 ^ 64 -> main mod 2 = 0 ->
  exists h', start main h = Ok tt h' /\
    h_priv h' = Supervisor /\ h_pc h' = main /\ h_tp h' = h_csr h mhartid /\ h_csr h' satp = 0 /\
    (forall e, 0 <= e < 16 -> e <> 10 -> e <> 11 -> e <> 14 -> Z.testbit (h_csr h' medeleg) e = true) /\
    (forall pa, 0 <= pa < 2 ^ 56 - 4 -> pmp_allows h' pa = true) /\
    h_csr h' stimecmp = u64 (h_csr h time + 1000000) /\ csr_ok h' time = true /\ csr_ok h' stimecmp = true /\
    Z.testbit (h_csr h' mstatus) 1 = Z.testbit (h_csr h mstatus) 1 /\
    (forall n, s_takes h' n = true -> Z.testbit (h_csr h mstatus) 1 = true) /\
    exists h'', intr_on h' = Ok tt h'' /\ s_takes h'' STI = true /\ s_takes h'' SEI = true.
Proof.
  intros Hp Hl Hid Hm Hm2. destruct (start_run main h Hp Hl) as (g & -> & G). destruct (mpp_mstatus (h_csr h mstatus)) as [M1 M2].
  pose proof (st_mstatus _ _ _ G) as Hms. fold (mstatus_s (h_csr h mstatus)) in Hms. rewrite <- Hms in M1, M2.
  unfold mret. rewrite decide_True by apply G. rewrite M1. change (1 =? 3) with false. change (1 =? 1) with true. cbn iota.
  eexists. split; [reflexivity|]. remember (Z.lor (Z.land (h_csr g mstatus) _) _) as x eqn:Ex.
  assert (Z.testbit x 1 = Z.testbit (h_csr h mstatus) 1) as Hx.
  { rewrite Ex, !Z.lor_spec, Z.land_spec, Z.shiftl_spec_low, M2 by lia. simpl. by rewrite andb_true_r, orb_false_r. }
  remember (set_csr_val mstatus x _) as h' eqn:Eh. assert (h_priv h' = Supervisor) as Hs by (by subst).
  assert (forall c, c <> mstatus -> h_csr h' c = h_csr g c) as Hc by (intros c Hne; subst h'; by rewrite set_csr_ne).
  assert (h_csr h' mstatus = x) as Hst by (subst h'; apply set_csr_eq).
  split_and!; rewrite ?Hc by discriminate.
  - done.
  - subst h'. cbn [h_pc set_csr_val]. rewrite (st_mepc _ _ _ G). by apply even_pc.
  - subst h'. cbn [h_tp set_csr_val]. rewrite (st_tp _ _ _ G). unfold NCPU in Hid. rewrite i32_small, u64_small by lia. done.
  - apply G.
  - intros e He H1 H2 H3. rewrite (st_medeleg _ _ _ G).
    assert (e ∈ [0; 1; 2; 3; 4; 5; 6; 7; 8; 9; 12; 13; 15]) as Hin by (rewrite !elem_of_cons; lia).
    rewrite !elem_of_cons in Hin. by repeat destruct Hin as [->|Hin]; [reflexivity..|]; apply elem_of_nil in Hin.
  - intros pa Hpa. unfold pmp_allows. rewrite !Hc, (st_pmpaddr0 _ _ _ G), (st_pmpcfg0 _ _ _ G) by discriminate.
    apply andb_true_intro. split; [done|]. lia.
  - apply G.
  - unfold csr_ok. rewrite Hs, Hc, (st_mcounteren _ _ _ G) by discriminate. done.
  - unfold csr_ok. rewrite Hs, !Hc, (st_mcounteren _ _ _ G), (st_menvcfg _ _ _ G) by discriminate. done.
  - by rewrite Hst.
  - intros n. unfold s_takes. rewrite Hst, Hx. by intros [_ ?]%andb_prop.
  - unfold intr_on, r_sstatus, w_sstatus, bind, csrr, csrw, csr_ok. rewrite Hs. cbn [level out_bind].
    change (1 <=? 1) with true. cbn iota. cbn [out_bind]. rewrite Hs. change (1 <=? level Supervisor) with true. cbn iota.
    eexists. split; [reflexivity|]. unfold s_takes. rewrite csr_put_priv, Hs, !csr_put_ne by discriminate.
    rewrite !Hc, (st_mideleg _ _ _ G), !(st_mie _ _ _ G) by (discriminate || (unfold STI, SEI; lia)).
    cbn [csr_put]. rewrite set_csr_eq, testbit_masked, Z.lor_spec by lia.
    change (Z.testbit SSTATUS_W 1) with true. change (Z.testbit SSTATUS_SIE 1) with true. cbn iota. rewrite orb_true_r. done.
Qed.

(** A hart after reset. *)
Definition reset_hart (id : Z) : hart :=
  Hart Machine 0x80000000 0 (fun c => if decide (c = mhartid) then id else 0).

Lemma start_enters_main_witness : exists h', start 0x80001000 (reset_hart 2) = Ok tt h' /\ h_pc h' = 0x80001000 /\ h_tp h' = 2.
Proof.
  destruct (start_enters_main 0x80001000 (reset_hart 2)) as (h' & E & _ & Hpc & Htp & _);
    [reflexivity|reflexivity|change (0 <= 2 < 8); lia|lia|reflexivity|].
  exists h'. split; [exact E|]. split; [exact Hpc|exact Htp].
Defined.
