(* ===== verification/Devices.v ===== *)
(** * kernel/plic.c and uartinit(): the registers of two devices

   The platform-level interrupt controller, as its specification describes
   the memory-mapped registers: a priority for each source; for each context
   (a hart in machine or supervisor mode) enable bits, a threshold and a
   claim register.  Reading the claim register takes the pending source of
   the highest priority above the threshold, the lowest number first, and
   closes its gateway until it is written back.  The harts take interrupts
   with devintr() of kernel/trap.c, and run between each other's claim and
   completion.  The 16550 UART has only the registers that uartinit()
   writes. *)

From stdpp Require Import base numbers list gmap strings.
From Stdlib Require Import ZArith Lia.
From S2P Require Import Prelude Params Trap.

(* ------------------------------------------------------------------ *)
(** ** The interrupt controller *)

Record plic := Plic {
  pl_prio : Z -> Z;
  pl_enable : Z -> Z -> Z;           (* by context, a word of 32 sources *)
  pl_threshold : Z -> Z;
  pl_pending : gset Z;
  pl_busy : gset Z                   (* claimed and not completed *)
}.
(** After a reset the registers hold anything; no interrupt is in service,
    and none of the sources from 32 on is enabled. *)
Definition plic_reset (p : plic) : Prop := pl_busy p = ∅ /\ forall c w, w <> 0 -> pl_enable p c w = 0.

Definition put {A} (k : Z) (v : A) (f : Z -> A) : Z -> A := fun j => if decide (j = k) then v else f j.
Definition set_prio (irq v : Z) (p : plic) : plic :=
  Plic (put irq v (pl_prio p)) (pl_enable p) (pl_threshold p) (pl_pending p) (pl_busy p).
Definition set_enable (ctx w v : Z) (p : plic) : plic :=
  Plic (pl_prio p) (put ctx (put w v (pl_enable p ctx)) (pl_enable p)) (pl_threshold p) (pl_pending p) (pl_busy p).
Definition set_threshold (ctx v : Z) (p : plic) : plic :=
  Plic (pl_prio p) (pl_enable p) (put ctx v (pl_threshold p)) (pl_pending p) (pl_busy p).
Definition set_gates (pend busy : gset Z) (p : plic) : plic :=
  Plic (pl_prio p) (pl_enable p) (pl_threshold p) pend busy.

Definition enabled (p : plic) (ctx irq : Z) : bool := Z.testbit (pl_enable p ctx (irq / 32)) (irq mod 32).
Definition eligible (p : plic) (ctx irq : Z) : bool :=
  bool_decide (irq ∈ pl_pending p) && enabled p ctx irq && (pl_threshold p ctx <? pl_prio p irq).
(** The sources are 1 to 1023; 0 is none. *)
Definition better (p : plic) (ctx b irq : Z) : Z :=
  if eligible p ctx irq && ((b =? 0) || (pl_prio p b <? pl_prio p irq)) then irq else b.
Definition best (p : plic) (ctx : Z) : Z := fold_left (better p ctx) (seqZ 1 1023) 0.
Definition claim (ctx : Z) : M plic Z := fun p =>
  let irq := best p ctx in
  Ok irq (if irq =? 0 then p else set_gates (pl_pending p ∖ {[irq]}) ({[irq]} ∪ pl_busy p) p).
Definition complete (ctx irq : Z) : M plic unit :=
  modify (fun p => if enabled p ctx irq then set_gates (pl_pending p) (pl_busy p ∖ {[irq]}) p else p).
(** The device of source [irq] asks for an interrupt. *)
Definition raise (irq : Z) (p : plic) : plic :=
  if decide (irq ∈ pl_busy p) then p else set_gates ({[irq]} ∪ pl_pending p) (pl_busy p) p.

(** A 32-bit store and a 32-bit load; other registers are not there. *)
Definition plic_store (a v : Z) : M plic unit :=
  let off := a - PLIC in
  if (0 <=? off) && (off <? 0x1000) then modify (set_prio (off / 4) v)
  else if (0x2000 <=? off) && (off <? 0x200000) then
    modify (set_enable ((off - 0x2000) / 0x80) ((off - 0x2000) mod 0x80 / 4) v)
  else if (0x200000 <=? off) && (off mod 0x1000 =? 0) then modify (set_threshold ((off - 0x200000) / 0x1000) v)
  else if (0x200000 <=? off) && (off mod 0x1000 =? 4) then complete ((off - 0x200000) / 0x1000) v
  else panic "bus error".
Definition plic_load (a : Z) : M plic Z :=
  let off := a - PLIC in
  if (0x200000 <=? off) && (off mod 0x1000 =? 4) then claim ((off - 0x200000) / 0x1000)
  else panic "bus error".

(* ------------------------------------------------------------------ *)
(** ** kernel/plic.c *)

Definition plicinit : M plic unit :=
  plic_store (PLIC + UART0_IRQ * 4) 1 ;;
  plic_store (PLIC + VIRTIO0_IRQ * 4) 1.

(** [hart] is cpuid(). *)
Definition plicinithart (hart : Z) : M plic unit :=
  plic_store (PLIC_SENABLE hart) (Z.lor (Z.shiftl 1 UART0_IRQ) (Z.shiftl 1 VIRTIO0_IRQ)) ;;
  plic_store (PLIC_SPRIORITY hart) 0.

Definition plic_claim (hart : Z) : M plic Z :=
  let* irq := plic_load (PLIC_SCLAIM hart) in ret (i32 irq).

Definition plic_complete (hart irq : Z) : M plic unit := plic_store (PLIC_SCLAIM hart) (u32 irq).

(* ------------------------------------------------------------------ *)
(** ** The UART *)

Definition IER : Z := 1.
Definition FCR : Z := 2.
Definition LCR : Z := 3.
Definition IER_RX_ENABLE : Z := Z.shiftl 1 0.
Definition IER_TX_ENABLE : Z := Z.shiftl 1 1.
Definition FCR_FIFO_ENABLE : Z := Z.shiftl 1 0.
Definition FCR_FIFO_CLEAR : Z := Z.shiftl 3 1.
Definition LCR_EIGHT_BITS : Z := Z.shiftl 3 0.
Definition LCR_BAUD_LATCH : Z := Z.shiftl 1 7.

Record uart := Uart {
  ua_ier : Z; ua_lcr : Z; ua_fifo : bool; ua_divisor : Z;
  ua_in : list Z; ua_out : list Z;     (* the two FIFOs *)
  ua_tx_lock : bool
}.
(** With the latch bit of LCR set, registers 0 and 1 are the divisor of the
    clock.  Writing the clear bits of FCR empties the FIFOs. *)
Definition WriteReg (reg v : Z) : M uart unit := modify (fun u =>
  let dlab := Z.testbit (ua_lcr u) 7 in
  if reg =? LCR then Uart (ua_ier u) v (ua_fifo u) (ua_divisor u) (ua_in u) (ua_out u) (ua_tx_lock u)
  else if reg =? FCR then
    Uart (ua_ier u) (ua_lcr u) (Z.testbit v 0) (ua_divisor u) (if Z.testbit v 1 then [] else ua_in u)
      (if Z.testbit v 2 then [] else ua_out u) (ua_tx_lock u)
  else if reg =? IER then
    if dlab then Uart (ua_ier u) (ua_lcr u) (ua_fifo u) (v * 256 + ua_divisor u mod 256) (ua_in u) (ua_out u) (ua_tx_lock u)
    else Uart v (ua_lcr u) (ua_fifo u) (ua_divisor u) (ua_in u) (ua_out u) (ua_tx_lock u)
  else if reg =? 0 then
    if dlab then Uart (ua_ier u) (ua_lcr u) (ua_fifo u) (ua_divisor u / 256 * 256 + v) (ua_in u) (ua_out u) (ua_tx_lock u)
    else Uart (ua_ier u) (ua_lcr u) (ua_fifo u) (ua_divisor u) (ua_in u) (ua_out u ++ [v]) (ua_tx_lock u)
  else u).

Definition uartinit : M uart unit :=
  WriteReg IER 0x00 ;;
  WriteReg LCR LCR_BAUD_LATCH ;;
  WriteReg 0 0x03 ;;
  WriteReg 1 0x00 ;;
  WriteReg LCR LCR_EIGHT_BITS ;;
  WriteReg FCR (Z.lor FCR_FIFO_ENABLE FCR_FIFO_CLEAR) ;;
  WriteReg IER (Z.lor IER_TX_ENABLE IER_RX_ENABLE) ;;
  modify (fun u => Uart (ua_ier u) (ua_lcr u) (ua_fifo u) (ua_divisor u) (ua_in u) (ua_out u) false).

(** Eight bits without parity at divisor 3, empty FIFOs, both interrupts. *)
Lemma uartinit_sets u : uartinit u = Ok tt (Uart 3 3 true 3 [] [] false).
Proof.
  unfold uartinit.
  assert (exists ier lcr fifo d inp outp lk, WriteReg IER 0 u = Ok tt (Uart ier lcr fifo d inp outp lk)) as (ier & lcr & fifo & d & inp & outp & lk & E0).
  { unfold WriteReg, modify. destruct u as [ier lcr fifo d inp outp lk]. destruct (Z.testbit lcr 7) eqn:El;
      do 7 eexists; cbn [ua_lcr]; rewrite El; reflexivity. }
  rewrite (bind_Ok _ _ _ _ _ E0).
  rewrite (bind_Ok _ _ _ tt (Uart ier 128 fifo d inp outp lk)) by reflexivity.
  rewrite (bind_Ok _ _ _ tt (Uart ier 128 fifo (d / 256 * 256 + 3) inp outp lk)) by reflexivity.
  rewrite (bind_Ok _ _ _ tt (Uart ier 128 fifo (0 * 256 + (d / 256 * 256 + 3) mod 256) inp outp lk)) by reflexivity.
  replace (0 * 256 + (d / 256 * 256 + 3) mod 256) with 3 by divlia. reflexivity.
Qed.

(* ------------------------------------------------------------------ *)
(** ** Harts that serve interrupts *)

(** The controller, and the interrupt whose handler each hart is in, 0 for
    none. *)
Record board := Board { bd_plic : plic; bd_in : Z -> Z }.
Definition L_plic : lens board plic := Lens bd_plic (fun p b => Board p (bd_in b)).

(** A handler: the hart is in it, other harts run, and it returns. *)
Definition handler (i irq : Z) : M board unit :=
  modify (fun b => Board (bd_plic b) (put i irq (bd_in b))) ;;
  (fun b => Sleep ChYield b (ret tt)) ;;
  modify (fun b => Board (bd_plic b) (put i 0 (bd_in b))).

(** What hart [i] does on an external interrupt: the code of devintr(). *)
Definition take_external (i : Z) : M board unit :=
  external_intr (zoom L_plic (plic_claim i)) (fun irq => zoom L_plic (plic_complete i irq))
    (handler i UART0_IRQ) (handler i VIRTIO0_IRQ).

(** A hart has not started, is not in devintr(), or is in a handler with the
    rest of devintr() to run. *)
Inductive server := Off | Idle | Serving (rest : M board unit).
Record harts := Harts { hs_board : board; hs_at : Z -> server }.

Inductive board_step : harts -> harts -> Prop :=
| step_raise irq p f h : 0 < irq < 1024 -> board_step (Harts (Board p f) h) (Harts (Board (raise irq p) f) h)
| step_init i p p' f h : 0 <= i < NCPU -> h i = Off -> plicinithart i p = Ok tt p' ->
    board_step (Harts (Board p f) h) (Harts (Board p' f) (put i Idle h))
| step_none i b b' h : h i = Idle -> take_external i b = Ok tt b' -> board_step (Harts b h) (Harts b' h)
| step_take i c b b' k h : h i = Idle -> take_external i b = Sleep c b' k ->
    board_step (Harts b h) (Harts b' (put i (Serving k) h))
| step_finish i b b' k h : h i = Serving k -> k b = Ok tt b' -> board_step (Harts b h) (Harts b' (put i Idle h)).

Definition ctx_of (i : Z) : Z := 2 * i + 1.
Definition IRQS : Z := 2 ^ 10 + 2.

Ltac ctx := unfold ctx_of; divlia.

Lemma plicinithart_run i p : 0 <= i < NCPU ->
  plicinithart i p = Ok tt (set_threshold (ctx_of i) 0 (set_enable (ctx_of i) 0 IRQS p)).
Proof.
  intros Hi. unfold NCPU in Hi. unfold plicinithart, plic_store, PLIC_SENABLE, PLIC_SPRIORITY.
  replace (PLIC + 0x2080 + i * 0x100 - PLIC) with (0x2080 + i * 0x100) by lia.
  replace (PLIC + 0x201000 + i * 0x2000 - PLIC) with (0x201000 + i * 0x2000) by lia.
  destruct (Z.leb_spec 0 (0x2080 + i * 0x100)); [|lia]. destruct (Z.ltb_spec (0x2080 + i * 0x100) 0x1000); [lia|].
  destruct (Z.leb_spec 0x2000 (0x2080 + i * 0x100)); [|lia]. destruct (Z.ltb_spec (0x2080 + i * 0x100) 0x200000); [|lia].
  destruct (Z.leb_spec 0 (0x201000 + i * 0x2000)); [|lia]. destruct (Z.ltb_spec (0x201000 + i * 0x2000) 0x1000); [lia|].
  destruct (Z.leb_spec 0x2000 (0x201000 + i * 0x2000)); [|lia]. destruct (Z.ltb_spec (0x201000 + i * 0x2000) 0x200000); [lia|].
  destruct (Z.leb_spec 0x200000 (0x201000 + i * 0x2000)); [|lia].
  destruct (Z.eqb_spec ((0x201000 + i * 0x2000) mod 0x1000) 0); [|divlia]. cbn [andb].
  replace ((0x2080 + i * 0x100 - 0x2000) / 0x80) with (ctx_of i) by ctx.
  replace ((0x2080 + i * 0x100 - 0x2000) mod 0x80 / 4) with 0 by divlia.
  replace ((0x201000 + i * 0x2000 - 0x200000) / 0x1000) with (ctx_of i) by ctx. reflexivity.
Qed.

Lemma sclaim_off i : 0 <= i < NCPU ->
  (PLIC_SCLAIM i - PLIC - 0x200000) / 0x1000 = ctx_of i /\ 0x200000 <= PLIC_SCLAIM i - PLIC /\
  (PLIC_SCLAIM i - PLIC) mod 0x1000 = 4.
Proof.
  intros Hi. unfold NCPU in Hi. unfold PLIC_SCLAIM. replace (PLIC + 0x201004 + i * 0x2000 - PLIC) with (0x201004 + i * 0x2000) by lia.
  split; [ctx|]. split; [lia|divlia].
Qed.

Lemma plic_claim_run i p : 0 <= i < NCPU -> plic_claim i p = (let* irq := claim (ctx_of i) in ret (i32 irq)) p.
Proof.
  intros Hi. destruct (sclaim_off i Hi) as (Ec & H1 & H2). unfold plic_claim, plic_load. rewrite H2.
  destruct (Z.leb_spec 0x200000 (PLIC_SCLAIM i - PLIC)); [|lia]. cbn [andb Z.eqb Pos.eqb]. by rewrite Ec.
Qed.

Lemma plic_complete_run i irq p : 0 <= i < NCPU -> 0 <= irq < 2 ^ 32 -> plic_complete i irq p = complete (ctx_of i) irq p.
Proof.
  intros Hi Hq. destruct (sclaim_off i Hi) as (Ec & H1 & H2). unfold plic_complete, plic_store. rewrite H2, u32_small by done.
  destruct (Z.leb_spec 0x200000 (PLIC_SCLAIM i - PLIC)); [|lia].
  destruct (Z.leb_spec 0 (PLIC_SCLAIM i - PLIC)); [|lia]. destruct (Z.ltb_spec (PLIC_SCLAIM i - PLIC) 0x1000); [lia|].
  destruct (Z.leb_spec 0x2000 (PLIC_SCLAIM i - PLIC)); [|lia]. destruct (Z.ltb_spec (PLIC_SCLAIM i - PLIC) 0x200000); [lia|].
  cbn [andb Z.eqb Pos.eqb]. by rewrite Ec.
Qed.

(** The choice of the claim register when only two sources are enabled. *)
Definition first_irq (p : plic) : Z :=
  if decide (VIRTIO0_IRQ ∈ pl_pending p) then VIRTIO0_IRQ else if decide (UART0_IRQ ∈ pl_pending p) then UART0_IRQ else 0.

Lemma best_skip p ctx l b : (forall irq, irq ∈ l -> eligible p ctx irq = false) -> fold_left (better p ctx) l b = b.
Proof.
  induction l as [|x l IH]; intros Hl; [done|]. cbn [fold_left]. unfold better at 2. rewrite Hl by apply list_elem_of_here. cbn [andb].
  apply IH. intros irq Hin. apply Hl. by right.
Qed.

Lemma best_two p ctx a b l1 l2 : (forall irq, irq ∈ l1 -> eligible p ctx irq = false) ->
  (forall irq, irq ∈ l2 -> eligible p ctx irq = false) ->
  fold_left (better p ctx) (a :: l1 ++ b :: l2) 0 = better p ctx (better p ctx 0 a) b.
Proof. intros H1 H2. cbn [fold_left]. rewrite fold_left_app. cbn [fold_left]. by rewrite !best_skip. Qed.

Definition configured (p : plic) (i : Z) : Prop :=
  pl_threshold p (ctx_of i) = 0 /\ forall w, pl_enable p (ctx_of i) w = if decide (w = 0) then IRQS else 0.

Lemma enabled_irq p i irq : configured p i -> 0 <= irq -> enabled p (ctx_of i) irq = (VIRTIO0_IRQ =? irq) || (UART0_IRQ =? irq).
Proof.
  intros [_ He] Hi. unfold enabled. rewrite He. unfold VIRTIO0_IRQ, UART0_IRQ. case_decide as Hw.
  - replace (irq mod 32) with irq by divlia. change IRQS with (Z.lor (2 ^ 1) (2 ^ 10)).
    by rewrite Z.lor_spec, !Z.pow2_bits_eqb by lia.
  - rewrite Z.testbit_0_l. destruct (Z.eqb_spec 1 irq) as [<-|]; [done|]. destruct (Z.eqb_spec 10 irq) as [<-|]; done.
Qed.

Lemma eligible_irq p i irq : configured p i -> pl_prio p UART0_IRQ = 1 -> pl_prio p VIRTIO0_IRQ = 1 -> 0 <= irq ->
  eligible p (ctx_of i) irq = bool_decide (irq ∈ pl_pending p) && ((VIRTIO0_IRQ =? irq) || (UART0_IRQ =? irq)).
Proof.
  intros Hc Hu Hv Hi. unfold eligible. rewrite (enabled_irq p i irq Hc Hi), (proj1 Hc).
  destruct (Z.eqb_spec VIRTIO0_IRQ irq) as [<-|]; [by rewrite Hv, !andb_true_r|].
  destruct (Z.eqb_spec UART0_IRQ irq) as [<-|]; [by rewrite Hu, !andb_true_r|]. cbn [orb]. by rewrite !andb_false_r.
Qed.

Lemma best_first p i : configured p i -> pl_prio p UART0_IRQ = 1 -> pl_prio p VIRTIO0_IRQ = 1 -> best p (ctx_of i) = first_irq p.
Proof.
  intros Hc Hu Hv. unfold best.
  assert (seqZ 1 1023 = VIRTIO0_IRQ :: seqZ 2 8 ++ UART0_IRQ :: seqZ 11 1013) as -> by (vm_compute; reflexivity).
  assert (forall a n irq, (irq ∈ seqZ a n -> 1 < a -> irq <> 10 -> eligible p (ctx_of i) irq = false)) as Hno.
  { intros a n irq Hin Ha Hne. apply elem_of_seqZ in Hin. rewrite eligible_irq by (done || lia). unfold VIRTIO0_IRQ, UART0_IRQ.
    rewrite !(proj2 (Z.eqb_neq _ irq)) by lia. apply andb_false_r. }
  rewrite best_two.
  2: { intros irq Hin. apply (Hno _ _ _ Hin); [lia|]. apply elem_of_seqZ in Hin. lia. }
  2: { intros irq Hin. apply (Hno _ _ _ Hin); [lia|]. apply elem_of_seqZ in Hin. lia. }
  clear Hno. unfold better.
  rewrite !eligible_irq by (done || (unfold VIRTIO0_IRQ, UART0_IRQ; lia)). rewrite !Z.eqb_refl, orb_true_r, !andb_true_r. unfold first_irq.
  destruct (decide (VIRTIO0_IRQ ∈ pl_pending p)) as [E|E].
  - rewrite (bool_decide_eq_true_2 (VIRTIO0_IRQ ∈ pl_pending p)) by done. change (0 =? 0) with true. cbn [andb orb]. rewrite Hu, Hv.
    by rewrite (proj2 (Z.eqb_neq VIRTIO0_IRQ 0)), andb_false_r by done.
  - rewrite (bool_decide_eq_false_2 (VIRTIO0_IRQ ∈ pl_pending p)) by done. cbn [andb]. rewrite Z.eqb_refl. cbn [orb]. rewrite andb_true_r.
    by destruct (decide (UART0_IRQ ∈ pl_pending p)); [rewrite bool_decide_eq_true_2|rewrite bool_decide_eq_false_2].
Qed.

Lemma put_eq {A} k (v : A) f : put k v f k = v.
Proof. unfold put. by rewrite decide_True. Qed.
Lemma put_ne {A} k (v : A) f j : j <> k -> put k v f j = f j.
Proof. intros. unfold put. by rewrite decide_False. Qed.

(** The controller, with the harts of [on] set up. *)
Record plic_ok (on : Z -> Prop) (p : plic) : Prop := {
  po_uart : pl_prio p UART0_IRQ = 1;
  po_virtio : pl_prio p VIRTIO0_IRQ = 1;
  po_hart : forall i, on i -> 0 <= i < NCPU /\ configured p i;
  po_rest : forall c w, w <> 0 -> pl_enable p c w = 0;
  po_gate : forall irq, irq ∈ pl_pending p -> irq ∉ pl_busy p
}.

Lemma configured_ext p p' i : pl_threshold p' = pl_threshold p -> pl_enable p' = pl_enable p -> configured p i -> configured p' i.
Proof. unfold configured. by intros -> ->. Qed.
Lemma first_irq_cases p : first_irq p = 0 \/ (first_irq p ∈ pl_pending p /\ (first_irq p = UART0_IRQ \/ first_irq p = VIRTIO0_IRQ)).
Proof. unfold first_irq. repeat case_decide; auto. Qed.

Lemma plic_ok_on (on on' : Z -> Prop) p : (forall i, on' i -> on i) -> plic_ok on p -> plic_ok on' p.
Proof. intros Hon [H1 H2 H3 H4 H5]. split; auto. Qed.

Lemma plic_ok_gates on p pend busy : plic_ok on p -> (forall irq, irq ∈ pend -> irq ∉ busy) -> plic_ok on (set_gates pend busy p).
Proof. intros [] Hg. by split. Qed.

(** Claiming, by a hart that is set up. *)
Definition claimed (p : plic) : plic :=
  if first_irq p =? 0 then p else set_gates (pl_pending p ∖ {[first_irq p]}) ({[first_irq p]} ∪ pl_busy p) p.

Lemma claim_first on p i : plic_ok on p -> on i -> plic_claim i p = Ok (first_irq p) (claimed p).
Proof.
  intros Hb Hi. destruct (po_hart _ _ Hb i Hi) as [Hr Hc]. rewrite plic_claim_run by done. unfold claim, bind. cbn [out_bind].
  rewrite (best_first _ i Hc) by apply Hb. unfold ret, claimed. f_equal. apply i32_small.
  destruct (first_irq_cases p) as [->|[_ [-> | ->]]]; unfold UART0_IRQ, VIRTIO0_IRQ; lia.
Qed.

Lemma claimed_ok on p : plic_ok on p -> plic_ok on (claimed p).
Proof.
  intros Hb. unfold claimed. destruct (_ =? _); [done|]. apply plic_ok_gates; [done|].
  pose proof (po_gate _ _ Hb). set_solver.
Qed.

Lemma configured_init p i j : (forall c w, w <> 0 -> pl_enable p c w = 0) ->
  (j <> i -> configured p j) -> configured (set_threshold (ctx_of i) 0 (set_enable (ctx_of i) 0 IRQS p)) j.
Proof.
  intros Hz Hj. split; cbn [pl_threshold pl_enable set_threshold set_enable].
  - destruct (decide (ctx_of j = ctx_of i)) as [->|Hne]; [apply put_eq|]. rewrite put_ne by done. apply Hj. intros ->. done.
  - intros w. destruct (decide (ctx_of j = ctx_of i)) as [->|Hne].
    + rewrite put_eq. unfold put. case_decide; [done|]. by apply Hz.
    + rewrite put_ne by done. apply Hj. intros ->. done.
Qed.

Lemma init_ok (on : Z -> Prop) p i : plic_ok on p -> 0 <= i < NCPU ->
  plic_ok (fun j => on j \/ j = i) (set_threshold (ctx_of i) 0 (set_enable (ctx_of i) 0 IRQS p)).
Proof.
  intros [H1 H2 H3 H4 H5] Hi. split; try done.
  - intros j Hj. split; [destruct Hj as [Hj| ->]; [by apply H3|done]|]. apply configured_init; [done|].
    intros Hne. destruct Hj as [Hj|]; [by apply H3|done].
  - intros c w Hw. cbn. unfold put at 1. case_decide; [|by apply H4]. rewrite put_ne by done. by apply H4.
Qed.

Definition completed (irq : Z) (p : plic) : plic := set_gates (pl_pending p) (pl_busy p ∖ {[irq]}) p.

Lemma complete_run on p i irq : plic_ok on p -> on i -> irq = UART0_IRQ \/ irq = VIRTIO0_IRQ ->
  plic_complete i irq p = Ok tt (completed irq p).
Proof.
  intros Hb E Hq. destruct (po_hart _ _ Hb i E) as [Hr Hc].
  assert (0 <= irq < 2 ^ 32) as Hsm by (destruct Hq as [-> | ->]; unfold UART0_IRQ, VIRTIO0_IRQ; lia).
  rewrite plic_complete_run by done. unfold complete, modify. rewrite (enabled_irq _ _ _ Hc) by lia.
  by assert ((VIRTIO0_IRQ =? irq) || (UART0_IRQ =? irq) = true) as -> by (by destruct Hq as [-> | ->]).
Qed.

(** devintr() on a hart that is set up: it claims the first interrupt; the
    rest of it leaves the handler and completes it. *)
Definition rest_of (i irq : Z) : M board unit :=
  modify (fun b => Board (bd_plic b) (put i 0 (bd_in b))) ;; zoom L_plic (plic_complete i irq).

Lemma take_external_run on p f i : plic_ok on p -> on i ->
  if first_irq p =? 0 then take_external i (Board p f) = Ok tt (Board p f)
  else exists k, take_external i (Board p f) = Sleep ChYield (Board (claimed p) (put i (first_irq p) f)) k /\
    forall b, k b = rest_of i (first_irq p) b.
Proof.
  intros Hb Hi. pose proof (claim_first _ _ _ Hb Hi) as Ec. unfold take_external, external_intr.
  assert (zoom L_plic (plic_claim i) (Board p f) = Ok (first_irq p) (Board (claimed p) f)) as Ez by (unfold zoom; simpl; by rewrite Ec).
  rewrite (bind_Ok _ _ _ _ _ Ez). unfold claimed.
  destruct (first_irq_cases p) as [->|[_ [-> | ->]]]; [done|..]; eexists; (split; [reflexivity|]); intros b; reflexivity.
Qed.

Record harts_ok (y : harts) : Prop := {
  ho_plic : plic_ok (fun i => hs_at y i <> Off) (bd_plic (hs_board y));
  ho_at : forall i, match hs_at y i with
    | Serving k => exists irq, bd_in (hs_board y) i = irq /\ (irq = UART0_IRQ \/ irq = VIRTIO0_IRQ) /\
        irq ∈ pl_busy (bd_plic (hs_board y)) /\ forall b, k b = rest_of i irq b
    | _ => bd_in (hs_board y) i = 0
    end;
  ho_one : forall i j, bd_in (hs_board y) i = bd_in (hs_board y) j -> bd_in (hs_board y) i <> 0 -> i = j
}.

(** A hart that is in a handler is not idle, and its interrupt is busy. *)
Lemma in_busy y i : harts_ok y -> bd_in (hs_board y) i <> 0 -> hs_at y i <> Off /\ bd_in (hs_board y) i ∈ pl_busy (bd_plic (hs_board y)).
Proof.
  intros Hy Hi. pose proof (ho_at _ Hy i) as Ha. destruct (hs_at y i); [done..|]. destruct Ha as (irq & -> & _ & Hb & _). done.
Qed.

(** The rest of devintr() returns, with the interrupt completed. *)
Lemma rest_run y i k : harts_ok y -> hs_at y i = Serving k -> let b := hs_board y in
  k b = Ok tt (Board (completed (bd_in b i) (bd_plic b)) (put i 0 (bd_in b))).
Proof.
  intros Hy E b. pose proof (ho_at _ Hy i) as Ha. rewrite E in Ha. destruct Ha as (irq & Ei & Hq & _ & Hk).
  fold b in Ei. rewrite Hk, Ei. unfold rest_of. erewrite bind_Ok by done. unfold zoom. simpl.
  rewrite (complete_run _ _ _ _ (ho_plic _ Hy)) by (done || by rewrite E). done.
Qed.

Lemma step_init_ok i p f h : harts_ok (Harts (Board p f) h) -> 0 <= i < NCPU -> h i = Off ->
  harts_ok (Harts (Board (set_threshold (ctx_of i) 0 (set_enable (ctx_of i) 0 IRQS p)) f) (put i Idle h)).
Proof.
  intros [Hp Ha H1] Hi E. split; cbn [hs_board hs_at bd_plic bd_in] in *; [|intros j|done].
  - eapply plic_ok_on; [|by apply (init_ok _ _ i Hp)]. intros j Hj. cbn. destruct (decide (j = i)) as [->|Hne]; [by right|left].
    by rewrite put_ne in Hj.
  - destruct (decide (j = i)) as [->|Hne]; [rewrite put_eq; specialize (Ha i); by rewrite E in Ha|]. rewrite put_ne by done. apply Ha.
Qed.

Lemma step_take_ok i p f k h : harts_ok (Harts (Board p f) h) -> h i = Idle -> first_irq p <> 0 ->
  (forall b, k b = rest_of i (first_irq p) b) -> harts_ok (Harts (Board (claimed p) (put i (first_irq p) f)) (put i (Serving k) h)).
Proof.
  intros Hy E Hne Hk. pose proof Hy as [Hp Ha H1]. cbn [hs_board hs_at bd_plic bd_in] in *.
  destruct (first_irq_cases p) as [|[Hpend Hq]]; [done|]. pose proof (po_gate _ _ Hp _ Hpend) as Hnb.
  assert (pl_busy (claimed p) = {[first_irq p]} ∪ pl_busy p) as Eb by (unfold claimed; by rewrite (proj2 (Z.eqb_neq _ 0))).
  assert (forall j, j <> i -> f j <> first_irq p) as Hfresh.
  { intros j Hj Ej. destruct (in_busy _ j Hy) as [_ Hb]; cbn in *; [congruence|]. rewrite Ej in Hb. done. }
  split; cbn [hs_board hs_at bd_plic bd_in].
  - eapply plic_ok_on; [|by apply claimed_ok]. intros j Hj. cbn. destruct (decide (j = i)) as [->|]; [by rewrite E|by rewrite put_ne in Hj].
  - intros j. destruct (decide (j = i)) as [->|Hj].
    + rewrite !put_eq. exists (first_irq p). split_and!; try done. rewrite Eb. set_solver.
    + rewrite !put_ne by done. specialize (Ha j). destruct (h j); [done..|]. destruct Ha as (irq & ? & ? & ? & ?). exists irq.
      split_and!; try done. rewrite Eb. set_solver.
  - intros a b. unfold put. repeat case_decide; subst; try done.
    + intros Eab _. by destruct (Hfresh b).
    + intros Eab _. by destruct (Hfresh a).
    + apply H1.
Qed.

Lemma step_finish_ok i b k h : harts_ok (Harts b h) -> h i = Serving k ->
  harts_ok (Harts (Board (completed (bd_in b i) (bd_plic b)) (put i 0 (bd_in b))) (put i Idle h)).
Proof.
  intros Hy E. pose proof Hy as [Hp Ha H1]. cbn [hs_board hs_at bd_plic bd_in] in *. split; cbn [hs_board hs_at bd_plic bd_in].
  - eapply plic_ok_on; [|apply plic_ok_gates; [done|pose proof (po_gate _ _ Hp); set_solver]].
    intros j Hj. cbn. destruct (decide (j = i)) as [->|]; [by rewrite E|by rewrite put_ne in Hj].
  - intros j. destruct (decide (j = i)) as [->|Hj]; [by rewrite !put_eq|]. rewrite !put_ne by done. specialize (Ha j).
    destruct (h j); [done..|]. destruct Ha as (irq & Ej & Hq & Hb & Hk). exists irq. split_and!; try done. unfold completed. cbn.
    apply elem_of_difference. split; [done|]. intros ->%elem_of_singleton. apply Hj, H1; [done|]. rewrite Ej.
    destruct Hq as [-> | ->]; done.
  - intros a c. unfold put. repeat case_decide; subst; try done. apply H1.
Qed.

Lemma board_step_ok y y' : harts_ok y -> board_step y y' -> harts_ok y'.
Proof.
  intros Hy Hs. destruct Hs as [irq p f h Hq|i p p' f h Hi E Ep|i b b' h E Et|i c b b' k h E Et|i b b' k h E Et].
  - destruct Hy as [Hp Ha H1]. cbn [hs_board hs_at bd_plic bd_in] in *. unfold raise. case_decide as Hd; [by split|].
    split; cbn [hs_board hs_at bd_plic bd_in]; [|exact Ha|exact H1]. apply plic_ok_gates; [done|].
    pose proof (po_gate _ _ Hp). set_solver.
  - rewrite plicinithart_run in Ep by done. injection Ep as <-. by apply step_init_ok.
  - destruct b as [p f]. pose proof (take_external_run _ p f i (ho_plic _ Hy)) as Hr. cbn in Hr. specialize (Hr ltac:(by rewrite E)).
    destruct (first_irq p =? 0); [|destruct Hr as (k & Hr & _)]; rewrite Hr in Et; [by injection Et as <-|done].
  - destruct b as [p f]. pose proof (take_external_run _ p f i (ho_plic _ Hy)) as Hr. cbn in Hr. specialize (Hr ltac:(by rewrite E)).
    destruct (Z.eqb_spec (first_irq p) 0); [by rewrite Hr in Et|]. destruct Hr as (k' & Hr & Hk). rewrite Hr in Et.
    injection Et as <- <- <-. by apply step_take_ok.
  - pose proof (rest_run _ i k Hy E) as Hr. cbn in Hr. rewrite Hr in Et. injection Et as <-. by eapply step_finish_ok.
Qed.

Lemma board_reach y y' : harts_ok y -> rtc board_step y y' -> harts_ok y'.
Proof. intros Hb Hr. induction Hr as [|b1 b2 b3 H12 _ IH]; [done|]. apply IH. by eapply board_step_ok. Qed.

Lemma plicinit_run p : plicinit p = Ok tt (set_prio VIRTIO0_IRQ 1 (set_prio UART0_IRQ 1 p)).
Proof. reflexivity. Qed.

(** C38. The interrupt controller after plicinit(), with no interrupt in
    service and no source from 32 on enabled before it, whatever else its
    registers held, with harts that run plicinithart() when they start and then take
    external interrupts with the code of devintr(), while devices raise
    interrupts and other harts run in between: no two harts are in the
    handler of the same interrupt, so that neither uartintr() nor
    virtio_disk_intr() runs twice at once; a hart is only in these two; a
    hart that takes an interrupt gets the disk's when it is pending, else the
    UART's, else none; and a hart in a handler finishes devintr() with its
    interrupt completed, so that it can be raised again.  No hart panics. *)
Theorem plic_one_server p p0 y : plic_reset p -> plicinit p = Ok tt p0 ->
  rtc board_step (Harts (Board p0 (fun _ => 0)) (fun _ => Off)) y ->
  let b := hs_board y in
  (forall i j, bd_in b i = bd_in b j -> bd_in b i <> 0 -> i = j) /\
  (forall i, bd_in b i = 0 \/ bd_in b i = UART0_IRQ \/ bd_in b i = VIRTIO0_IRQ) /\
  (forall i, hs_at y i = Idle -> match take_external i b with
    | Ok _ _ => first_irq (bd_plic b) = 0
    | Sleep _ b' _ => bd_in b' i = first_irq (bd_plic b) /\ first_irq (bd_plic b) <> 0
    | _ => False
    end) /\
  (forall i k, hs_at y i = Serving k -> match k b with
    | Ok _ b' => bd_in b' i = 0 /\ bd_in b i ∈ pl_pending (raise (bd_in b i) (bd_plic b'))
    | _ => False
    end).
Proof.
  intros [Hb0 Hz] E Hr b. rewrite plicinit_run in E. injection E as <-. assert (harts_ok y) as Hy.
  { eapply board_reach; [|exact Hr]. split; [|done|done]. split; cbn; try done. intros irq _. rewrite Hb0. set_solver. }
  split_and!.
  - apply (ho_one _ Hy).
  - intros i. pose proof (ho_at _ Hy i) as Ha. destruct (hs_at y i); [by left..|]. destruct Ha as (irq & Ei & Hq & _). fold b in Ei.
    rewrite Ei. by right.
  - intros i E. pose proof (take_external_run _ (bd_plic b) (bd_in b) i (ho_plic _ Hy) ltac:(cbn; by rewrite E)) as Ht.
    replace (Board (bd_plic b) (bd_in b)) with b in Ht by (by destruct b). destruct (Z.eqb_spec (first_irq (bd_plic b)) 0); [by rewrite Ht|].
    destruct Ht as (k & -> & _). cbn. by rewrite put_eq.
  - intros i k E. pose proof (rest_run _ i k Hy E) as Ek. cbv zeta in Ek. fold b in Ek. rewrite Ek. cbn. rewrite put_eq. split; [done|]. unfold raise, completed. cbn.
    rewrite decide_False by set_solver. cbn. set_solver.
Qed.

(** A controller with odd thresholds and the UART's interrupt pending.  Hart
    3 starts and takes it. *)
Definition ex_plic : plic := Plic (fun _ => 5) (fun _ w => if decide (w = 0) then 7 else 0) (fun _ => 9) {[UART0_IRQ]} ∅.
Definition ex_harts : harts :=
  let p1 := set_threshold (ctx_of 3) 0 (set_enable (ctx_of 3) 0 IRQS (set_prio VIRTIO0_IRQ 1 (set_prio UART0_IRQ 1 ex_plic))) in
  match take_external 3 (Board p1 (fun _ => 0)) with
  | Sleep _ b k => Harts b (put 3 (Serving k) (put 3 Idle (fun _ => Off)))
  | _ => Harts (Board p1 (fun _ => 0)) (fun _ => Off)
  end.

Lemma plic_one_server_witness : bd_in (hs_board ex_harts) 3 = UART0_IRQ /\
  forall j, bd_in (hs_board ex_harts) 3 = bd_in (hs_board ex_harts) j -> 3 = j.
Proof.
  assert (bd_in (hs_board ex_harts) 3 = UART0_IRQ) as E3 by (vm_compute; reflexivity). split; [exact E3|].
  intros j Hj. eapply (plic_one_server ex_plic _ ex_harts); [|reflexivity| |exact Hj|by rewrite E3].
  - split; [reflexivity|]. intros c w Hw. simpl. by rewrite decide_False.
  - eapply rtc_l; [apply (step_init 3); [unfold NCPU; lia|reflexivity|apply plicinithart_run; unfold NCPU; lia]|].
    eapply rtc_l; [|apply rtc_refl]. unfold ex_harts. cbv zeta.
    match goal with |- context [take_external 3 ?b] => destruct (take_external 3 b) as [? ?|?|c b' k|] eqn:E end;
      [vm_compute in E; discriminate..| |vm_compute in E; discriminate].
    by eapply step_take.
Defined.
