(* ===== verification/Tame.v ===== *)
(** * How a kernel function can end

   [Tame true m]: whatever state [m] runs in, and whatever the states it is
   resumed in, it does not panic in filedup() or fileclose() of
   kernel/file.c.  [Tame false m]: moreover it never sleeps.  The functions
   of the components below the file table are shown to be tame here, by one
   tactic that follows their text; File.v's own panics are FileRefs.v's. *)

From stdpp Require Import base numbers list gmap strings.
From Stdlib Require Import ZArith Lia.
From S2P Require Import Prelude Params Cmem KString Sleeplock UserMem Fs Pipe Console Kalloc Vm.

(** A panic that is not one of the file table's reference counts. *)
Definition elsewhere (msg : string) : Prop := msg <> "filedup" /\ msg <> "fileclose".

Fixpoint tame {S A} (sl : bool) (o : out S A) : Prop :=
  match o with
  | Ok _ _ => True
  | Panic msg => elsewhere msg
  | Sleep _ _ k => sl = true /\ forall s, tame sl (k s)
  | Diverge => True
  end.
Definition Tame {S A} (sl : bool) (m : M S A) : Prop := forall s, tame sl (m s).

Lemma tame_out_bind {S A B} sl (f : A -> M S B) (o : out S A) :
  tame sl o -> (forall a, Tame sl (f a)) -> tame sl (out_bind f o).
Proof.
  intros Ho Hf. induction o as [a s|msg|c s k IH|]; simpl in *; [apply Hf|done| |done].
  destruct Ho as [? Ho]. split; [done|]. intros s'. by apply IH.
Qed.
Lemma tame_out_zoom {S T A} sl (l : lens S T) s (o : out T A) : tame sl o -> tame sl (out_zoom l s o).
Proof.
  revert s. induction o as [a t|msg|c t k IH|]; intros s Ho; simpl in *; try done.
  destruct Ho as [? Ho]. split; [done|]. intros s'. by apply IH.
Qed.

Section rules.
Context {S : Type} (sl : bool).

Lemma tame_bind {A B} (m : M S A) (f : A -> M S B) : Tame sl m -> (forall a, Tame sl (f a)) -> Tame sl (bind m f).
Proof. intros Hm Hf s. by apply tame_out_bind. Qed.
Lemma tame_zoom {T A} (l : lens S T) (m : M T A) : Tame sl m -> Tame sl (zoom l m).
Proof. intros Hm s. by apply tame_out_zoom. Qed.
Lemma tame_ret {A} (a : A) : Tame sl (@ret S A a).
Proof. done. Qed.
Lemma tame_gets {A} (f : S -> A) : Tame sl (gets f).
Proof. done. Qed.
Lemma tame_modify (f : S -> S) : Tame sl (modify f).
Proof. done. Qed.
Lemma tame_diverge {A} : Tame sl (@diverge S A).
Proof. done. Qed.
Lemma tame_panic {A} msg : elsewhere msg -> Tame sl (@panic S A msg).
Proof. by intros Hm s. Qed.
Lemma tame_ub {A} what : Tame sl (@ub S A what).
Proof. by intros s. Qed.
Lemma tame_acquire (l : lens S bool) : Tame sl (lock_acquire l).
Proof. intros s. unfold lock_acquire. by destruct (lget l s). Qed.
Lemma tame_release (l : lens S bool) : Tame sl (lock_release l).
Proof. intros s. unfold lock_release. by destruct (lget l s). Qed.
Lemma tame_wakeup `{Woken S} c : Tame sl (@wakeup S _ c).
Proof. done. Qed.
Lemma tame_for_range n a (body : Z -> M S unit) : (forall i, Tame sl (body i)) -> Tame sl (for_range n a body).
Proof. intros Hb. revert a. induction n as [|n IH]; intros a; simpl; [done|]. apply tame_bind; [apply Hb|done]. Qed.
End rules.

Lemma tame_yield_to {S} c : Tame true (@yield_to S c).
Proof. by intros s. Qed.

(** A function that never sleeps is tame as one that may. *)
Lemma tame_calm {S A} (m : M S A) : Tame false m -> Tame true m.
Proof.
  intros Hm s. specialize (Hm s). induction (m s) as [|msg|c t k IH|]; simpl in *; try done.
  by destruct Hm.
Qed.

Create HintDb tame discriminated.
#[export] Hint Resolve tame_zoom tame_ret tame_gets tame_modify tame_diverge tame_ub tame_acquire tame_release
  tame_wakeup tame_for_range tame_yield_to : tame.
#[export] Hint Extern 1 (elsewhere _) => (by split) : tame.
#[export] Hint Resolve tame_panic : tame.

(** Follow the text of a function: [tame] proves that it is tame from the
    functions it calls. *)
Ltac tame_step :=
  lazymatch goal with
  | |- forall _, _ => intros ?
  | |- Tame _ (bind _ _) => apply tame_bind
  | |- Tame _ (match ?x with _ => _ end) => destruct x
  | |- Tame _ (zoom _ _) => apply tame_zoom
  | |- Tame _ (for_range _ _ _) => apply tame_for_range
  | |- Tame _ _ => solve [auto with tame | apply tame_calm; auto with tame]
  end.
Ltac tame := repeat (tame_step; cbn beta zeta).

(* ------------------------------------------------------------------ *)
(** ** Sleep locks and string operations *)

Section sleeplocks.
Context {S : Type} `{Woken S} `{WakeBudget} (l : lens S sleeplock).

Lemma tame_sleep_while fuel (cond : S -> bool) c k : Tame true (sleep_while fuel cond c k).
Proof. induction fuel; simpl; unfold sleep_on; tame. Qed.
Lemma tame_acquiresleep c pid : Tame true (acquiresleep l c pid).
Proof. unfold acquiresleep. tame. apply tame_sleep_while. Qed.
Lemma tame_releasesleep c : Tame false (releasesleep l c).
Proof. unfold releasesleep. tame. Qed.
Lemma tame_holdingsleep pid : Tame false (holdingsleep l pid).
Proof. unfold holdingsleep. tame. Qed.
End sleeplocks.
#[export] Hint Resolve tame_sleep_while tame_acquiresleep tame_releasesleep tame_holdingsleep : tame.

Lemma tame_string_op {S A} sl (m : M mem A) arg : Tame sl m -> Tame sl (@string_op S A m arg).
Proof. intros Hm s. specialize (Hm arg). unfold string_op. by destruct (m arg). Qed.
Lemma tame_ldb sl p : Tame sl (ldb p).
Proof. intros m. unfold ldb. by repeat case_match. Qed.
Lemma tame_stb sl p x : Tame sl (stb p x).
Proof. intros m. unfold stb. by case_match. Qed.
#[export] Hint Resolve tame_string_op tame_ldb tame_stb : tame.

Lemma tame_strlen sl p : Tame sl (strlen p).
Proof.
  unfold strlen. tame. generalize 0 at 1. generalize (S (length a)). intros n.
  induction n as [|n IH]; intros; simpl; tame.
Qed.
Lemma tame_strncmp sl p q n : Tame sl (strncmp p q n).
Proof. unfold strncmp. revert p q. induction (Z.to_nat n); intros; simpl; tame. Qed.
Lemma tame_strncpy sl p q n : Tame sl (strncpy p q n).
Proof.
  assert (forall n s, Tame sl (zero_fill n s)) as Hz.
  { intros k. induction k; intros; simpl; tame. }
  unfold strncpy. apply tame_bind; [|tame]. revert p q. induction (Z.to_nat n); intros; simpl; tame.
Qed.
Lemma tame_safestrcpy sl p q n : Tame sl (safestrcpy p q n).
Proof.
  unfold safestrcpy. tame. generalize (Z.to_nat (n - 1)). intros k. revert p q.
  induction k; intros; simpl; tame.
Qed.
#[export] Hint Resolve tame_strlen tame_strncmp tame_strncpy tame_safestrcpy : tame.

(* ------------------------------------------------------------------ *)
(** ** kernel/kalloc.c and kernel/vm.c *)

Lemma tame_get_page pa : Tame false (get_page pa).
Proof. intros s. unfold get_page. by case_match. Qed.
#[export] Hint Resolve tame_get_page : tame.
Lemma tame_rd64 a : Tame false (rd64 a).
Proof. unfold rd64. tame. Qed.
Lemma tame_wr64 a v : Tame false (wr64 a v).
Proof. unfold wr64. tame. Qed.
Lemma tame_memset_page pa c : Tame false (memset_page pa c).
Proof. unfold memset_page. tame. Qed.
Lemma tame_rd_bytes pa n : Tame false (rd_bytes pa n).
Proof. unfold rd_bytes. tame. Qed.
Lemma tame_wr_bytes pa bs : Tame false (wr_bytes pa bs).
Proof. unfold wr_bytes. tame. Qed.
#[export] Hint Resolve tame_rd64 tame_wr64 tame_memset_page tame_rd_bytes tame_wr_bytes : tame.
Lemma tame_kalloc : Tame false kalloc.
Proof. unfold kalloc. tame. Qed.
Lemma tame_kfree kend pa : Tame false (kfree kend pa).
Proof. unfold kfree. tame. Qed.
#[export] Hint Resolve tame_kalloc tame_kfree : tame.

Lemma tame_walk pt va alloc : Tame false (walk pt va alloc).
Proof.
  unfold walk. tame. generalize 2%nat. intros n. revert pt. induction n; intros pt; cbn [walk_loop]; tame.
Qed.
#[export] Hint Resolve tame_walk : tame.
Lemma tame_walkaddr pt va : Tame false (walkaddr pt va).
Proof. unfold walkaddr. tame. Qed.
Lemma tame_mappages pt va size pa perm : Tame false (mappages pt va size pa perm).
Proof.
  unfold mappages. tame. generalize (u64 (va + size - PGSIZE)). generalize (Z.to_nat (size / PGSIZE)). intros n last.
  revert va pa. induction n; intros; cbn [mappages_loop]; unfold map_page; tame.
Qed.
Lemma tame_uvmcreate : Tame false uvmcreate.
Proof. unfold uvmcreate. tame. Qed.
Lemma tame_ismapped pt va : Tame false (ismapped pt va).
Proof. unfold ismapped. tame. Qed.
Lemma tame_uvmclear pt va : Tame false (uvmclear pt va).
Proof. unfold uvmclear. tame. Qed.
#[export] Hint Resolve tame_walkaddr tame_mappages tame_uvmcreate tame_ismapped tame_uvmclear : tame.

Section kend.
Context (kend : Z).

Lemma tame_uvmunmap pt va n f : Tame false (uvmunmap kend pt va n f).
Proof.
  unfold uvmunmap. tame. generalize (u64 (va + n * PGSIZE)). intros b. generalize (Z.to_nat ((b - va) / PGSIZE + 1)).
  intros k. revert va. induction k; intros; cbn [uvmunmap_loop]; unfold unmap_page; tame.
Qed.
#[local] Hint Resolve tame_uvmunmap : tame.
Lemma tame_uvmdealloc pt o n : Tame false (uvmdealloc kend pt o n).
Proof. unfold uvmdealloc. tame. Qed.
#[local] Hint Resolve tame_uvmdealloc : tame.
Lemma tame_uvmalloc pt o n x : Tame false (uvmalloc kend pt o n x).
Proof.
  unfold uvmalloc. tame. generalize (Z.to_nat ((n - PGROUNDUP o) / PGSIZE + 1)). intros k.
  generalize (PGROUNDUP o) at 1 as p. generalize (PGROUNDUP o) as a. intros a p. revert a.
  induction k; intros; cbn [uvmalloc_loop]; tame.
Qed.
Lemma tame_uvmfree pt sz : Tame false (uvmfree kend pt sz).
Proof.
  unfold uvmfree. apply tame_bind; [tame|]. intros _. generalize 3%nat. intros d. revert pt.
  induction d; intros; cbn [freewalk]; unfold free_entry; tame.
Qed.
Lemma tame_uvmcopy o n sz : Tame false (uvmcopy kend o n sz).
Proof.
  unfold uvmcopy. generalize 0. generalize (Z.to_nat (sz / PGSIZE + 1)). intros k.
  induction k; intros; cbn [uvmcopy_loop]; unfold rd_page, wr_page; tame.
Qed.
Lemma tame_vmfault sz p pt va : Tame false (vmfault kend sz p pt va).
Proof. unfold vmfault. tame. Qed.
#[local] Hint Resolve tame_vmfault : tame.
Lemma tame_fault_in sz p pt va : Tame false (fault_in kend sz p pt va).
Proof. unfold fault_in. tame. Qed.
#[local] Hint Resolve tame_fault_in : tame.
Lemma tame_copyout sz p pt va bs : Tame false (Vm.copyout kend sz p pt va bs).
Proof.
  unfold Vm.copyout. generalize (length bs). intros k. revert va bs.
  induction k; intros; destruct bs; cbn [copyout_loop]; tame.
Qed.
Lemma tame_copyin sz p pt va n : Tame false (Vm.copyin kend sz p pt va n).
Proof.
  unfold Vm.copyin. generalize n at 1. intros k. revert va n.
  induction k; intros va n; destruct n; cbn [copyin_loop]; tame.
Qed.
End kend.
Lemma tame_copyinstr pt va n : Tame false (Vm.copyinstr pt va n).
Proof.
  unfold Vm.copyinstr. generalize n at 1. intros k. revert va n.
  induction k; intros va n; destruct n; cbn [copyinstr_loop]; tame.
Qed.
#[export] Hint Resolve tame_uvmunmap tame_uvmdealloc tame_uvmalloc tame_uvmfree tame_uvmcopy tame_vmfault
  tame_copyout tame_copyin tame_copyinstr : tame.

(* ------------------------------------------------------------------ *)
(** ** Clients of user memory: kernel/fs.c, pipe.c and console.c *)

Class TameUser (U : Type) `{UserOps U} := {
  tame_ucopyin a n : Tame false (ucopyin a n);
  tame_ucopyout a bs : Tame false (ucopyout a bs);
  tame_ucopyinstr a n : Tame false (ucopyinstr a n)
}.
#[export] Hint Resolve tame_ucopyin tame_ucopyout tame_ucopyinstr : tame.
#[export] Hint Extern 1 (TameUser _) => apply _ : tame.

Section clients.
Context {U : Type} `{TameUser U} `{WakeBudget}.

Lemma tame_bread dev b : Tame true (bread (U:=U) dev b).
Proof. intros s. unfold bread. by repeat case_match. Qed.
Lemma tame_brelse b : Tame true (brelse (U:=U) b).
Proof. intros s. unfold brelse. by case_match. Qed.
Lemma tame_log_write b : Tame true (log_write (U:=U) b).
Proof. intros s. unfold log_write. by repeat case_match. Qed.
Lemma tame_bdata b : Tame true (bdata (U:=U) b).
Proof. done. Qed.
Lemma tame_bput b d : Tame true (bput (U:=U) b d).
Proof. done. Qed.
Lemma tame_upd_inode i f : Tame false (upd_inode (U:=U) i f).
Proof. done. Qed.
Lemma tame_begin_op : Tame false (begin_op (U:=U)).
Proof. done. Qed.
Lemma tame_end_op : Tame false (end_op (U:=U)).
Proof. done. Qed.
Hint Resolve tame_bdata tame_bput tame_upd_inode tame_begin_op tame_end_op : tame.
Hint Resolve tame_bread tame_brelse tame_log_write : tame.
Lemma tame_balloc dev : Tame true (balloc (U:=U) dev).
Proof.
  unfold balloc. tame. generalize 0. generalize (Z.to_nat (sb_size a / BPB + 1)). intros k.
  induction k; intros; cbn [balloc_loop]; unfold bzero; tame.
Qed.
Lemma tame_bfree dev b : Tame true (bfree (U:=U) dev b).
Proof. unfold bfree. tame. Qed.
Lemma tame_iget dev n : Tame true (iget (U:=U) dev n).
Proof. unfold iget. tame. Qed.
Lemma tame_iupdate i : Tame true (iupdate (U:=U) i).
Proof. unfold iupdate. tame. Qed.
Lemma tame_idup i : Tame false (idup (U:=U) i).
Proof. unfold idup. tame. Qed.
Lemma tame_ilock i : Tame true (ilock (U:=U) i).
Proof. unfold ilock. tame. Qed.
Lemma tame_iunlock i : Tame true (iunlock (U:=U) i).
Proof. unfold iunlock. tame. Qed.
Hint Resolve tame_balloc tame_bfree tame_iget tame_iupdate tame_idup tame_ilock tame_iunlock : tame.
Lemma tame_ialloc dev t : Tame true (ialloc (U:=U) dev t).
Proof.
  unfold ialloc. tame. generalize 1. generalize (Z.to_nat (sb_ninodes a)). intros k.
  induction k; intros; cbn [ialloc_loop]; tame.
Qed.
Lemma tame_itrunc i : Tame true (itrunc (U:=U) i).
Proof. unfold itrunc, trunc_direct, trunc_indirect. tame. Qed.
Hint Resolve tame_ialloc tame_itrunc : tame.
Lemma tame_iput i : Tame true (iput (U:=U) i).
Proof. unfold iput. tame. Qed.
Hint Resolve tame_iput : tame.
Lemma tame_stati i : Tame false (stati (U:=U) i).
Proof. unfold stati. tame. Qed.
Lemma tame_iunlockput i : Tame true (iunlockput (U:=U) i).
Proof. unfold iunlockput. tame. Qed.
Lemma tame_bmap i bn : Tame true (bmap (U:=U) i bn).
Proof. unfold bmap. tame. Qed.
Hint Resolve tame_iunlockput tame_bmap : tame.
Lemma tame_readi i d off n : Tame true (readi (U:=U) i d off n).
Proof.
  unfold readi. tame. generalize (if u32 (off + n) >? i_size a then i_size a - off else n). intros m.
  generalize (Z.to_nat m), 0. intros k. revert off.
  induction k; intros; cbn [readi_loop]; unfold either_copyout; tame.
Qed.
Lemma tame_writei i d off n : Tame true (writei (U:=U) i d off n).
Proof.
  unfold writei. tame. generalize (Z.to_nat n), 0. intros k. revert off.
  induction k; intros; cbn [writei_loop]; unfold either_copyin; tame.
Qed.
Lemma tame_namecmp a b : Tame true (namecmp (U:=U) a b).
Proof. unfold namecmp. tame. Qed.
Hint Resolve tame_readi tame_writei tame_namecmp : tame.
Lemma tame_dirlookup dp name : Tame true (dirlookup (U:=U) dp name).
Proof.
  unfold dirlookup. tame. generalize (Z.to_nat (i_size a / DIRENT + 1)), 0. intros k.
  induction k; intros; cbn [dirlookup_loop]; tame.
Qed.
Hint Resolve tame_dirlookup : tame.
Lemma tame_dirlink dp name inum junk : Tame true (dirlink (U:=U) dp name inum junk).
Proof.
  assert (forall k off de, Tame true (dirlink_loop (U:=U) k dp off de)) as Hl.
  { intros k. induction k; intros; cbn [dirlink_loop]; tame. }
  unfold dirlink, fill_dirent. tame.
Qed.
Lemma tame_namex path p name : Tame true (namex (U:=U) path p name).
Proof.
  unfold namex. tame. generalize (length path) as k. intros k. revert a path name.
  induction k; intros; cbn [namex_loop]; tame.
Qed.
Hint Resolve tame_dirlink tame_namex : tame.
Lemma tame_namei path junk : Tame true (namei (U:=U) path junk).
Proof. unfold namei. tame. Qed.
Lemma tame_nameiparent path junk : Tame true (nameiparent (U:=U) path junk).
Proof. unfold nameiparent. tame. Qed.

Lemma tame_fsinit initlog dev : (forall d sb, Tame true (initlog d sb)) -> Tame true (fsinit (U:=U) initlog dev).
Proof. intros. unfold fsinit, readsb, ireclaim, reclaim_one. tame. Qed.

Lemma tame_pipewrite pi addr n : Tame true (pipewrite (U:=U) pi addr n).
Proof.
  assert (Tame true (Pipe.killed (U:=U))) by done.
  assert (forall k i, Tame true (pipewrite_loop (U:=U) pi k addr n i)) as Hl.
  { intros k. induction k; intros; cbn [pipewrite_loop]; unfold sleep_on; tame. }
  unfold pipewrite. tame.
Qed.
Lemma tame_piperead pi addr n : Tame true (piperead (U:=U) pi addr n).
Proof.
  assert (Tame true (Pipe.killed (U:=U))) by done.
  assert (forall k, Tame true (piperead_wait (U:=U) pi k)) as Hw.
  { intros k. induction k; intros; cbn [piperead_wait]; unfold sleep_on; tame. }
  assert (forall k i, Tame true (piperead_copy (U:=U) k addr i)) as Hl.
  { intros k. induction k; intros; cbn [piperead_copy]; tame. }
  unfold piperead. tame.
Qed.
Lemma tame_pipeclose pi w : Tame false (pipeclose (U:=U) pi w).
Proof. unfold pipeclose. tame. Qed.

Lemma tame_uartwrite bs : Tame true (uartwrite (U:=U) bs).
Proof. unfold uartwrite. tame. induction bs; cbn [uartwrite_loop]; tame. Qed.
Lemma tame_consputc c : Tame true (consputc (U:=U) c).
Proof. unfold consputc, uartputc_sync. tame. Qed.
Hint Resolve tame_uartwrite tame_consputc : tame.
Lemma tame_consolewrite src n : Tame true (consolewrite (U:=U) src n).
Proof.
  unfold consolewrite. generalize (Z.to_nat n), 0. intros k. induction k; intros; cbn [consolewrite_loop]; tame.
Qed.
Lemma tame_consoleread dst n : Tame true (consoleread (U:=U) dst n).
Proof.
  assert (Tame true (ckilled (U:=U))) by done.
  assert (forall k, Tame true (consoleread_wait (U:=U) k)) as Hw.
  { intros k. induction k; intros; cbn [consoleread_wait]; unfold sleep_on; tame. }
  assert (forall k t a, Tame true (consoleread_loop (U:=U) k t a)) as Hl.
  { intros k. induction k; intros; cbn [consoleread_loop]; tame. }
  unfold consoleread. tame.
Qed.
Lemma tame_uartintr : Tame true (uartintr (U:=U)).
Proof.
  assert (Tame true (uartgetc (U:=U))) by (intros s; unfold uartgetc; by case_match).
  assert (Tame true (tx_idle (U:=U))) by done.
  assert (forall k, Tame true (kill_line (U:=U) k)).
  { intros k. induction k; cbn [kill_line]; tame. }
  assert (forall k, Tame true (uartintr_loop (U:=U) k)) as Hl.
  { intros k. induction k; intros; cbn [uartintr_loop]; unfold consoleintr, consoleintr_switch; tame. }
  unfold uartintr. tame.
Qed.
End clients.
#[export] Hint Resolve tame_upd_inode tame_begin_op tame_end_op tame_iupdate tame_idup tame_ilock tame_iunlock tame_stati
  tame_ialloc tame_itrunc tame_iput tame_iunlockput tame_readi tame_writei tame_namecmp tame_dirlookup tame_dirlink
  tame_namei tame_nameiparent tame_pipewrite tame_piperead tame_pipeclose tame_consolewrite tame_consoleread
  tame_uartintr : tame.
