(* ===== verification/FileRefs.v ===== *)
(** * Reference counts of open files: one system call

   A struct file counts the file descriptors that name it.  A call moves
   references between its process's descriptors and its own hands (a file it
   has allocated and not yet given a descriptor); the rest of a count
   belongs to other processes, which run whenever the call sleeps.  Every
   system call of kernel/sysfile.c keeps the counts exact, on every path,
   and never finds a count too small in filedup() or fileclose(). *)

From stdpp Require Import base numbers list gmap strings.
From Stdlib Require Import ZArith Lia.
From S2P Require Import Prelude Params UserMem Fs Pipe Console File Sysfile Tame.

(* ------------------------------------------------------------------ *)
(** ** Calls that share a state with others

   [safe W Q g s0 o]: the current stretch of a call began in [s0], and [g]
   is what the others hold.  When the call sleeps, its own hand [h] and the
   state satisfy the invariant; the others then change the state and what
   they hold, within the invariant and the rely, and a new stretch begins.
   A call may also give up the processor for the last time ([w_end]). *)

Notation hand := (nat -> Z).
Definition none_held : hand := fun _ => 0.
Definition one (f : nat) : hand := fun x => if decide (x = f) then 1 else 0.
Definition plus (a b : hand) : hand := fun f => a f + b f.

Record world (G S : Type) := World {
  w_inv : G -> hand -> S -> Prop;
  w_rely : S -> S -> Prop;
  w_guar : S -> S -> Prop;
  w_end : G -> S -> Prop
}.
Arguments World {G S}.
Arguments w_inv {G S}.
Arguments w_rely {G S}.
Arguments w_guar {G S}.
Arguments w_end {G S}.

Fixpoint safe {G S A} (W : world G S) (Q : A -> G -> S -> Prop) (g : G) (s0 : S) (o : out S A) : Prop :=
  match o with
  | Ok a s => w_guar W s0 s /\ Q a g s
  | Panic msg => elsewhere msg
  | Sleep c s k => w_guar W s0 s /\ (w_end W g s \/ exists h, w_inv W g h s /\
      forall g' s', w_rely W s s' -> w_inv W g' h s' -> safe W Q g' s' (k s'))
  | Diverge => True
  end.

Section logic.
Context {G S : Type} (W : world G S) `{!Reflexive (w_guar W)} `{!Transitive (w_guar W)}.

Lemma safe_mono {A} (P Q : A -> G -> S -> Prop) g s0 o :
  (forall a g s, P a g s -> Q a g s) -> safe W P g s0 o -> safe W Q g s0 o.
Proof.
  intros HQ. revert g s0. induction o as [a s|msg|c s k IH|]; intros g s0; simpl; [|done| |done].
  - intros [? ?]. auto.
  - intros (? & [?|(h & ? & Hk)]); (split; [done|]); [by left|]. right. exists h. split; [done|]. intros g' s' ? ?. by apply IH, Hk.
Qed.

Lemma safe_from {A} (Q : A -> G -> S -> Prop) g s0 s1 o :
  w_guar W s0 s1 -> safe W Q g s1 o -> safe W Q g s0 o.
Proof.
  intros H01. destruct o as [a s|msg|c s k|]; simpl; [|done| |done].
  - intros [? ?]. split; [by etrans|done].
  - intros (? & Hk). split; [by etrans|done].
Qed.

Lemma safe_bind {A B} (Q : B -> G -> S -> Prop) g s0 (f : A -> M S B) o :
  safe W (fun a g' s => safe W Q g' s (f a s)) g s0 o -> safe W Q g s0 (out_bind f o).
Proof.
  revert g s0. induction o as [a s|msg|c s k IH|]; intros g s0; simpl; [|done| |done].
  - intros [? ?]. by eapply safe_from.
  - intros (? & [?|(h & ? & Hk)]); (split; [done|]); [by left|]. right. exists h. split; [done|]. intros g' s' ? ?. by apply IH, Hk.
Qed.

(** A call that never sleeps is judged by its result. *)
Lemma safe_calm {A} (Q : A -> G -> S -> Prop) g (m : M S A) s :
  Tame false m -> (forall a s', m s = Ok a s' -> w_guar W s s' /\ Q a g s') -> safe W Q g s (m s).
Proof.
  intros Hm HQ. specialize (Hm s). destruct (m s) as [a s'|msg|c t k|] eqn:E; simpl in *; try done; [by apply HQ|].
  by destruct Hm.
Qed.

End logic.

(** A part [T] of the state with a world of its own: a call on the part is
    one on the whole.  [E g t s] says that the part with its share of what
    the others hold is found in the whole, apart from the part's contents. *)
Lemma safe_zoom {G GT S T A} (W : world G S) (V : world GT T) (l : lens S T) (E : G -> GT -> S -> Prop)
    (P : A -> GT -> T -> Prop) (Q : A -> G -> S -> Prop) g gt s0 s t0 (o : out T A) :
  (forall t, E g gt s -> w_guar V t0 t -> w_guar W s0 (lset l t s)) ->
  (forall g gt s t h, E g gt s -> w_inv V gt h t -> w_inv W g h (lset l t s)) ->
  (forall g gt g' s s' t h, E g gt s -> w_inv V gt h t -> w_rely W (lset l t s) s' -> w_inv W g' h s' ->
     exists gt', E g' gt' s' /\ w_inv V gt' h (lget l s') /\ w_rely V t (lget l s')) ->
  (forall g gt s t, E g gt s -> w_guar V (lget l s) t -> w_guar W s (lset l t s)) ->
  (forall a g gt s t, E g gt s -> P a gt t -> Q a g (lset l t s)) -> (forall gt t, ~ w_end V gt t) ->
  E g gt s -> safe V P gt t0 o -> safe W Q g s0 (out_zoom l s o).
Proof.
  intros H0 Hinv Hrely Hguar HQ Hend. revert g gt s s0 t0 H0.
  induction o as [a t|msg|c t k IH|]; intros g gt s s0 t0 H0 HE; simpl; [|done| |done].
  - intros [? ?]. eauto.
  - intros (? & [Hn|(h & Hh & Hk)]); [by apply Hend in Hn|]. split; [auto|]. right. exists h. split; [eauto|]. intros g' s' HR HI.
    destruct (Hrely g gt g' s s' t h HE Hh HR HI) as (gt' & HE' & HI' & HR').
    eapply IH; [|exact HE'|by apply Hk]. intros t' _ Hg. by eapply Hguar.
Qed.

(* ------------------------------------------------------------------ *)
(** ** Counting descriptors *)

(** The number of descriptors that name file [f]. *)
Fixpoint fds (f : nat) (ofs : list (option nat)) : Z :=
  match ofs with
  | [] => 0
  | o :: ofs' => (if decide (o = Some f) then 1 else 0) + fds f ofs'
  end.
Definition names (f : nat) (o : option nat) : Z := if decide (o = Some f) then 1 else 0.

Lemma fds_range f ofs : 0 <= fds f ofs <= Z.of_nat (length ofs).
Proof. induction ofs as [|o ofs IH]; simpl; [lia|]. case_decide; lia. Qed.
Lemma fds_insert f ofs i o o' : ofs !! i = Some o -> fds f (<[i := o']> ofs) = fds f ofs - names f o + names f o'.
Proof.
  revert i. induction ofs as [|x ofs IH]; intros [|i]; simpl; try done.
  - intros [= ->]. unfold names. lia.
  - intros Hi. rewrite IH by done. lia.
Qed.
Lemma fds_elem f ofs i : ofs !! i = Some (Some f) -> 1 <= fds f ofs.
Proof.
  revert i. induction ofs as [|x ofs IH]; intros [|i]; simpl; try done.
  - intros [= ->]. rewrite decide_True by done. pose proof (fds_range f ofs). lia.
  - intros Hi. pose proof (IH i Hi). case_decide; lia.
Qed.
Lemma fds_replicate f n : fds f (replicate n None) = 0.
Proof. induction n; simpl; lia. Qed.
Lemma names_Some f g : names f (Some g) = one g f.
Proof. unfold names, one. repeat case_decide; congruence. Qed.
Lemma names_None f : names f None = 0.
Proof. done. Qed.
Lemma one_eq f : one f f = 1.
Proof. unfold one. by rewrite decide_True. Qed.
Lemma one_range f x : 0 <= one f x <= 1.
Proof. unfold one. case_decide; lia. Qed.

Lemma one_ne f x : x <> f -> one f x = 0.
Proof. intros. unfold one. by rewrite decide_False. Qed.

(** One call holds at most two files in its hands, or has closed one whose
    descriptor it has yet to clear. *)
Definition MAXREFS : Z := 2 ^ 20.

Section counts.
Context {U : Type}.

Definition fref (f : nat) (s : fstate U) : Z := fl_ref (getf f s).

Record counts (ofs : list (option nat)) (g h : hand) (s : fstate U) : Prop := Counts {
  ct_files : length (k_file s) = Z.to_nat NFILE;
  ct_ofile : length ofs = Z.to_nat NOFILE;
  ct_ref f : fref f s = fds f ofs + h f + g f;
  ct_others f : 0 <= g f <= MAXREFS;
  ct_mine f : 0 <= fds f ofs + h f <= NOFILE + 2
}.

Definition Wf (ofs : list (option nat)) : world hand (fstate U) :=
  World (counts ofs) (fun _ _ => True) (fun _ _ => True) (fun _ _ => False).
Definition Wy : world hand (sys U) :=
  World (fun g h y => counts (y_ofile y) g h (y_k y)) (fun y y' => y_ofile y' = y_ofile y) (fun _ _ => True)
    (fun _ _ => False).
#[global] Instance Wf_refl ofs : Reflexive (w_guar (Wf ofs)).
Proof. done. Qed.
#[global] Instance Wf_trans ofs : Transitive (w_guar (Wf ofs)).
Proof. done. Qed.
#[global] Instance Wy_refl : Reflexive (w_guar Wy).
Proof. done. Qed.
#[global] Instance Wy_trans : Transitive (w_guar Wy).
Proof. done. Qed.

(** The counts depend on the table of files only. *)
Lemma counts_files ofs g h s s' : counts ofs g h s -> k_file s' = k_file s -> counts ofs g h s'.
Proof. intros [Hl Ho Hr Hg Hm] E. split; try done; [by rewrite E|]. intros f. rewrite <- Hr. unfold fref, getf. by rewrite E. Qed.

Lemma counts_hand ofs g h h' s : (forall f, h' f = h f) -> counts ofs g h s -> counts ofs g h' s.
Proof. intros E [Hl Ho Hr Hg Hm]. split; try done; intros f; by rewrite E. Qed.

(** A store to the count of one file. *)
Lemma fref_upd f x g (s : fstate U) : (f < length (k_file s))%nat ->
  fref x (set_files (alter g f) s) = if decide (x = f) then fl_ref (g (getf f s)) else fref x s.
Proof.
  intros Hf. unfold fref, getf. simpl. case_decide as Hx.
  - subst x. rewrite list_lookup_alter_eq. by destruct (lookup_lt_is_Some_2 (k_file s) f Hf) as [y ->].
  - by rewrite list_lookup_alter_ne.
Qed.

(** Moving a reference between the hands and a descriptor. *)
Lemma counts_insert ofs i o o' g h s : ofs !! i = Some o -> counts ofs g h s ->
  counts (<[i := o']> ofs) g (fun f => h f + names f o - names f o') s.
Proof.
  intros Hi [Hl Ho Hr Hg Hm]. split; try done; [by rewrite length_insert|..]; intros f;
    rewrite (fds_insert f ofs i o o') by done.
  - rewrite Hr. lia.
  - specialize (Hm f). lia.
Qed.

End counts.

(* ------------------------------------------------------------------ *)
(** ** kernel/file.c *)

Class TamePages (U : Type) `{PageOps U} := {
  tame_page_alloc : Tame false page_alloc;
  tame_page_free pa : Tame false (page_free pa)
}.
#[export] Hint Resolve tame_page_alloc tame_page_free : tame.
#[export] Hint Extern 1 (TamePages _) => apply _ : tame.

#[local] Arguments find_file : simpl never.
Lemma find_file_S n f fs :
  find_file (S n) f fs = if fl_ref (default file0 (fs !! f)) =? 0 then Some f else find_file n (S f) fs.
Proof. done. Qed.

Section files.
Context {U : Type} `{TameUser U} `{TamePages U} `{WakeBudget} (ofs : list (option nat)).

Notation W := (Wf (U:=U) ofs).
Notation counts := (counts (U:=U) ofs).

(** A call that leaves the counts alone. *)
Definition steady {A} (m : M (fstate U) A) : Prop :=
  forall g h s, counts g h s -> safe W (fun _ g' s' => counts g' h s') g s (m s).

Lemma steady_ret {A} (a : A) : steady (ret a).
Proof. by intros g h s Hc. Qed.
Lemma steady_gets {A} (f : fstate U -> A) : steady (gets f).
Proof. by intros g h s Hc. Qed.
Lemma steady_diverge {A} : steady (@diverge _ A).
Proof. by intros g h s Hc. Qed.
Lemma steady_panic {A} msg : elsewhere msg -> steady (@panic _ A msg).
Proof. by intros ? g h s Hc. Qed.
Lemma steady_modify f : (forall s, k_file (f s) = k_file s) -> steady (modify f).
Proof. intros Hf g h s Hc. split; [done|]. by eapply counts_files; [exact Hc|]. Qed.
Lemma steady_bind {A B} (m : M (fstate U) A) (f : A -> M (fstate U) B) :
  steady m -> (forall a, steady (f a)) -> steady (bind m f).
Proof.
  intros Hm Hf g h s Hc. apply safe_bind; [apply _|]. eapply safe_mono; [|by apply Hm].
  intros a g' s' Hc'. by apply Hf.
Qed.
(** An offset, a type or the like. *)
Lemma steady_upd f x : (forall y, fl_ref (x y) = fl_ref y) -> steady (upd_file f x).
Proof.
  intros Hx g h s [Hl Ho Hr Hg Hm]. split; [done|]. split; try done.
  - simpl. by rewrite length_alter.
  - intros y. rewrite <- Hr. unfold fref, getf. simpl. destruct (decide (y = f)) as [->|].
    + rewrite list_lookup_alter_eq. destruct (k_file s !! f); simpl; auto.
    + by rewrite list_lookup_alter_ne.
Qed.
(** A call on another part of the state. *)
Lemma steady_zoom {T A} (l : lens (fstate U) T) (m : M T A) :
  (forall t s, k_file (lset l t s) = k_file s) -> Tame true m -> steady (zoom l m).
Proof.
  intros Hl Hm g h s Hc. unfold zoom. pose proof (Hm (lget l s)) as Ho. clear Hm. revert Ho g Hc.
  generalize (m (lget l s)) as o. intros o. revert s.
  induction o as [a t|msg|c t k IH|]; intros s1 Ho g Hc; simpl in *; [|done| |done].
  - split; [done|]. by eapply counts_files; [exact Hc|].
  - destruct Ho as [_ Ho]. split; [done|]. right. exists h. split; [by eapply counts_files; [exact Hc|]|].
    intros g' s' _ Hc'. by apply IH.
Qed.

Lemma filealloc_counts g h s : counts g h s ->
  safe W (fun r g' s' => match r with
    | Some f => (f < Z.to_nat NFILE)%nat /\ counts g' (plus h (one f)) s'
    | None => counts g' h s' end) g s (filealloc s).
Proof.
  intros Hc. unfold filealloc, lock_acquire, bind. simpl. destruct (k_ftlock s); simpl; [done|].
  set (s1 := FState _ true _ _ _ _ _). assert (counts g h s1) as Hc1 by (by eapply counts_files; [exact Hc|]).
  assert (forall n f, match find_file n f (k_file s) with
    | Some f' => (f' < f + n)%nat /\ fref f' s1 = 0 | None => True end) as Hf.
  { intros n. induction n as [|n IH]; intros f; [done|]. rewrite find_file_S. destruct (Z.eqb_spec (fl_ref (default file0 (k_file s !! f))) 0) as [E|E].
    - simpl. split; [lia|done].
    - specialize (IH (S f)). simpl. destruct (find_file n (S f) (k_file s)); [|done]. destruct IH. split; [lia|done]. }
  specialize (Hf (Z.to_nat NFILE) 0%nat). destruct (find_file _ _ _) as [f|]; simpl.
  - destruct Hf as [Hf Hz]. split; [done|]. split; [lia|]. destruct Hc1 as [Hl Ho Hr Hg Hm].
    split; try done; [simpl; by rewrite length_alter|..].
    + intros x. change (fref x _) with (fref x (set_files (alter (set_fref 1) f) s1)).
      rewrite fref_upd by (rewrite Hl; lia). unfold plus. specialize (Hr x). case_decide as Hx.
      * subst x. rewrite one_eq. simpl. lia.
      * rewrite one_ne by done. lia.
    + intros x. unfold plus. specialize (Hm x). destruct (decide (x = f)) as [->|].
      * rewrite one_eq. specialize (Hr f). specialize (Hg f). unfold NOFILE in *. lia.
      * rewrite one_ne by done. lia.
  - split; [done|]. by eapply counts_files; [exact Hc|].
Qed.

Lemma filedup_spec f g h s : counts g h s -> (f < Z.to_nat NFILE)%nat -> 1 <= fds f ofs + h f + g f ->
  fds f ofs + h f <= NOFILE + 1 ->
  match filedup f s with
  | Ok f' s' => f' = f /\ counts g (plus h (one f)) s'
  | Panic msg => elsewhere msg
  | _ => False
  end.
Proof.
  intros Hc Hf Hge Hle. unfold filedup, lock_acquire, bind. simpl. destruct (k_ftlock s); simpl; [done|].
  set (s1 := FState _ true _ _ _ _ _). assert (counts g h s1) as [Hl Ho Hr Hg Hm] by (by eapply counts_files; [exact Hc|]).
  fold (fref f s1). rewrite (Hr f). rewrite (proj2 (Z.ltb_ge _ _)) by lia. simpl.
  split; [done|]. split; try done; [simpl; by rewrite length_alter|..].
  - intros x. change (fref x _) with (fref x (set_files (alter (fun y => set_fref (i32 (fl_ref y + 1)) y) f) s1)).
    rewrite fref_upd by (rewrite Hl; lia). unfold plus. specialize (Hr x). case_decide as Hx.
    + subst x. rewrite one_eq. unfold fref in Hr. simpl. rewrite Hr. specialize (Hg f). unfold i32, MAXREFS, NOFILE in *.
      rewrite Z.mod_small by lia. lia.
    + rewrite one_ne by done. lia.
  - intros x. unfold plus. specialize (Hm x). destruct (decide (x = f)) as [->|].
    + rewrite one_eq. lia.
    + rewrite one_ne by done. lia.
Qed.
Lemma filedup_counts f g h s : counts g h s -> (f < Z.to_nat NFILE)%nat -> 1 <= fds f ofs + h f + g f ->
  fds f ofs + h f <= NOFILE + 1 ->
  safe W (fun _ g' s' => counts g' (plus h (one f)) s') g s (filedup f s).
Proof. intros Hc Hf Hge Hle. pose proof (filedup_spec f g h s Hc Hf Hge Hle). destruct (filedup f s); naive_solver. Qed.

(** Whether a reference is left over is the counts' own arithmetic. *)
Lemma counts_drop f g h s (x : file -> file) : counts g h s -> (f < Z.to_nat NFILE)%nat ->
  1 <= fds f ofs + h f -> fl_ref (x (getf f s)) = fref f s - 1 ->
  counts g (fun y => h y - one f y) (set_files (alter x f) s).
Proof.
  intros [Hl Ho Hr Hg Hm] Hf Hge Hx. split; try done; [simpl; by rewrite length_alter|..].
  - intros y. rewrite fref_upd by (rewrite Hl; lia). specialize (Hr y). case_decide as Hy.
    + subst y. rewrite one_eq, Hx. lia.
    + rewrite one_ne by done. lia.
  - intros y. specialize (Hm y). destruct (decide (y = f)) as [->|].
    + rewrite one_eq. lia.
    + rewrite one_ne by done. lia.
Qed.

End files.

(** [steady] follows the text of a function, as [tame] does. *)
Create HintDb steady discriminated.
#[export] Hint Extern 1 (TameUser _) => apply _ : steady.
#[export] Hint Extern 1 (TamePages _) => apply _ : steady.
#[export] Hint Resolve steady_ret steady_gets steady_diverge steady_panic : steady.
Ltac steady_step :=
  lazymatch goal with
  | |- forall _, _ => intros ?
  | |- steady _ (bind _ _) => apply steady_bind
  | |- steady _ (match ?x with _ => _ end) => destruct x
  | |- steady _ (zoom _ _) => apply steady_zoom; [done|tame]
  | |- steady _ (modify _) => by apply steady_modify
  | |- steady _ (upd_file _ _) => by apply steady_upd
  | |- steady _ (panic _) => apply steady_panic; by split
  | |- steady _ _ => solve [auto with steady]
  end.
Ltac steady := repeat (steady_step; cbn beta zeta).

Section files.
Context {U : Type} `{TameUser U} `{TamePages U} `{WakeBudget} (ofs : list (option nat)).

Notation W := (Wf (U:=U) ofs).
Notation counts := (counts (U:=U) ofs).
Notation steady := (steady (U:=U) ofs).

Lemma steady_close_pipe pi w : steady (close_pipe pi w).
Proof. unfold close_pipe. steady. Qed.
Hint Resolve steady_close_pipe : steady.

Lemma fileclose_counts f g h s : counts g h s -> (f < Z.to_nat NFILE)%nat -> 1 <= fds f ofs + h f ->
  safe W (fun _ g' s' => counts g' (fun y => h y - one f y) s') g s (fileclose f s).
Proof.
  intros Hc Hf Hge. unfold fileclose, lock_acquire, bind at 1. simpl. destruct (k_ftlock s); simpl; [done|].
  set (s1 := FState _ true _ _ _ _ _). assert (counts g h s1) as Hc1 by (by eapply counts_files; [exact Hc|]).
  unfold bind at 1. simpl. pose proof (ct_ref _ _ _ _ Hc1 f) as Hr. pose proof (ct_others _ _ _ _ Hc1 f) as Hg.
  unfold fref in Hr. rewrite (proj2 (Z.ltb_ge _ _)) by lia. unfold bind at 1. simpl.
  destruct (Z.gtb_spec (fl_ref (getf f s1) - 1) 0) as [Hgt|Hle].
  - simpl. split; [done|].
    apply (counts_files ofs g _ (set_files (alter (fun x => set_fref (fl_ref x - 1) x) f) s1)); [|done].
    by apply counts_drop.
  - assert (fl_ref (getf f s1) = 1) as H1' by lia. unfold bind at 1. simpl. unfold bind at 1. simpl. unfold bind at 1. simpl.
    set (s2 := FState _ false _ _ _ _ _). assert (counts g (fun y => h y - one f y) s2) as Hc2.
    { set (x := fun x => set_ftype FD_NONE (set_fref 0 (set_fref (fl_ref x - 1) x))).
      apply (counts_files ofs g _ (set_files (alter x f) s1)); [|unfold s2; simpl; by rewrite alter_twice].
      apply counts_drop; try done. unfold fref. simpl. lia. }
    assert (forall ff, steady match fl_type ff with
      | FD_PIPE => close_pipe (fl_pipe ff) (fl_writable ff)
      | FD_INODE | FD_DEVICE => zoom L_fs begin_op ;; zoom L_fs (iput (fl_ip ff)) ;; zoom L_fs end_op
      | FD_NONE => ret tt
      end) as Ht by (intros ff; steady).
    apply (safe_from W _ g s s2); [done|]. exact (Ht _ g _ s2 Hc2).
Qed.

Lemma steady_filestat f addr junk : steady (filestat f addr junk).
Proof. unfold filestat. steady. Qed.
Lemma steady_fileread f addr n : steady (fileread f addr n).
Proof. unfold fileread. steady. Qed.
Lemma steady_filewrite f addr n : steady (filewrite f addr n).
Proof.
  assert (forall k ip i, steady (filewrite_loop k f ip addr n i)) as Hl.
  { intros k. induction k; intros; cbn [filewrite_loop]; steady. }
  unfold filewrite. steady.
Qed.

End files.
#[export] Hint Resolve steady_close_pipe steady_filestat steady_fileread steady_filewrite : steady.

(** One call after another. *)
Lemma safe_seq {G S A B} (W : world G S) `{!Transitive (w_guar W)} (P : A -> G -> S -> Prop) (Q : B -> G -> S -> Prop)
    g s (m : M S A) (f : A -> M S B) :
  safe W P g s (m s) -> (forall a g' s', P a g' s' -> safe W Q g' s' (f a s')) -> safe W Q g s (bind m f s).
Proof. intros Hm Hf. apply safe_bind; [done|]. eapply safe_mono; [|exact Hm]. exact Hf. Qed.

Lemma safe_for_range {G S} (W : world G S) `{!Reflexive (w_guar W)} `{!Transitive (w_guar W)} (I : Z -> G -> S -> Prop)
    n a (body : Z -> M S unit) g s :
  (forall z g s, a <= z < a + Z.of_nat n -> I z g s -> safe W (fun _ => I (z + 1)) g s (body z s)) ->
  I a g s -> safe W (fun _ => I (a + Z.of_nat n)) g s (for_range n a body s).
Proof.
  revert a g s. induction n as [|n IH]; intros a g s Hb Ha; cbn [for_range].
  - split; [done|]. by rewrite Z.add_0_r.
  - eapply safe_seq; [apply _|by apply Hb; [lia|]|]. intros [] g' s' Ha'. cbn beta in Ha'.
    replace (a + Z.of_nat (Datatypes.S n)) with (a + 1 + Z.of_nat n) by lia. apply IH; [|done].
    intros z g1 s1 Hz. apply Hb. lia.
Qed.

Section pipes.
Context {U : Type} `{TameUser U} `{TamePages U} `{WakeBudget} (ofs : list (option nat)).

(** A call holding a valid file. *)
Lemma counts_valid f g h s : counts (U:=U) ofs g h s -> 1 <= fds f ofs + h f -> (f < Z.to_nat NFILE)%nat.
Proof.
  intros Hc Hge. destruct (decide (f < Z.to_nat NFILE)%nat) as [|Hf]; [done|]. exfalso.
  pose proof (ct_ref _ _ _ _ Hc f) as Hr. pose proof (ct_others _ _ _ _ Hc f).
  unfold fref, getf in Hr. rewrite lookup_ge_None_2 in Hr by (rewrite (ct_files _ _ _ _ Hc); lia). simpl in Hr. lia.
Qed.

(** fileclose() of a file in the call's hands. *)
Lemma fileclose_held f g h s : counts (U:=U) ofs g (plus h (one f)) s -> 0 <= fds f ofs + h f ->
  safe (Wf ofs) (fun _ g' s' => counts (U:=U) ofs g' h s') g s (fileclose f s).
Proof.
  intros Hc Hge. assert (1 <= fds f ofs + plus h (one f) f) by (unfold plus; rewrite one_eq; lia).
  eapply safe_mono; [|apply (fileclose_counts ofs f g (plus h (one f))); [done| |done]; by eapply counts_valid].
  intros [] g' s' Hc'. eapply counts_hand; [|exact Hc']. intros x. unfold plus. lia.
Qed.

Lemma pipealloc_counts junk g h s : counts (U:=U) ofs g h s -> (forall f, 0 <= h f) ->
  safe (Wf ofs) (fun r g' s' => match r with
    | Some (f0, f1) => counts (U:=U) ofs g' (plus (plus h (one f0)) (one f1)) s'
    | None => counts ofs g' h s' end) g s (pipealloc junk s).
Proof.
  intros Hc Hh. assert (forall f, 0 <= fds f ofs) as Hf by (intros; apply fds_range).
  assert (forall f, 0 <= fds f ofs + h f) as Hfh by (intros f; specialize (Hf f); specialize (Hh f); lia).
  unfold pipealloc. eapply safe_seq; [apply _|by apply filealloc_counts|]. intros [r|] g1 s1; cbn beta; [|by split].
  intros [_ Hc1]. eapply safe_seq; [apply _|by apply filealloc_counts|]. intros [w|] g2 s2; cbn beta.
  - intros [_ Hc2]. eapply safe_seq; [apply _|apply (steady_zoom ofs L_user page_alloc); [done|tame|exact Hc2]|].
    intros pi g3 s3 Hc3. cbn beta in *. destruct (pi =? 0).
    + assert (0 <= fds w ofs + plus h (one r) w).
      { unfold plus. pose proof (one_range r w). specialize (Hfh w). lia. }
      assert (counts ofs g3 (plus (plus h (one w)) (one r)) s3) as Hc3'.
      { eapply counts_hand; [|exact Hc3]. intros x. unfold plus. lia. }
      eapply safe_seq; [apply _|apply (fileclose_held r); [exact Hc3'|]|].
      { unfold plus. pose proof (one_range w r). specialize (Hfh r). lia. }
      intros [] g4 s4 Hc4. eapply safe_seq; [apply _|by apply (fileclose_held w g4 h)|]. by intros [] g5 s5 Hc5.
    + eapply safe_seq; [apply _|apply steady_modify; [|exact Hc3]; done|]. intros [] g4 s4 Hc4.
      eapply safe_seq; [apply _|apply steady_upd; [|exact Hc4]; done|]. intros [] g5 s5 Hc5.
      eapply safe_seq; [apply _|apply steady_upd; [|exact Hc5]; done|]. by intros [] g6 s6 Hc6.
  - intros Hc2. eapply safe_seq; [apply _|by apply (fileclose_held r g2 h)|]. intros [] g3 s3 Hc3. by split.
Qed.

End pipes.
