(* ===== verification/SysRefs.v ===== *)
(** * Reference counts of open files: the system calls of kernel/sysfile.c

   Every call of kernel/sysfile.c keeps the counts of FileRefs.v. *)

From stdpp Require Import base numbers list gmap strings.
From Stdlib Require Import ZArith Lia.
From S2P Require Import Prelude Params UserMem KString Fs Pipe Console File Sysfile Tame FileRefs.

Section sys.
Context {U : Type} `{TameUser U} `{TamePages U} `{WakeBudget} (stack : list Z).

Notation Y := (M (sys U)).

Definition ycounts (g h : hand) (y : sys U) : Prop := counts (y_ofile y) g h (y_k y).

(** A call on the file table is one of the process. *)
Lemma safe_files {A} (m : M (fstate U) A) (P : A -> hand -> fstate U -> Prop) (Q : A -> hand -> sys U -> Prop) g y :
  safe (Wf (y_ofile y)) P g (y_k y) (m (y_k y)) ->
  (forall a g' y', y_ofile y' = y_ofile y -> P a g' (y_k y') -> Q a g' y') ->
  safe Wy Q g y (in_files m y).
Proof.
  intros Hm HQ. unfold in_files, zoom. set (ofs := y_ofile y).
  apply (safe_zoom Wy (Wf ofs) L_k (fun g gt y' => gt = g /\ y_ofile y' = ofs) P Q g g y y (y_k y)); try done.
  - intros g1 gt s t h [-> E]. simpl. by rewrite E.
  - intros g1 gt g' s s' t h [-> E] _ ER HI. exists g'. simpl in *. rewrite ER, E in *. by split.
  - intros a g1 gt s t [-> E] HP. by apply HQ.
  - by intros gt t [].
Qed.

(** A call that leaves the counts and the descriptors alone. *)
Definition calm {A} (m : Y A) : Prop := forall g h y, ycounts g h y ->
  safe Wy (fun _ g' y' => ycounts g' h y' /\ y_ofile y' = y_ofile y) g y (m y).
(** A call that leaves every count exact. *)
Definition exact_counts {A} (m : Y A) : Prop := forall g y, ycounts g none_held y ->
  safe Wy (fun _ g' y' => ycounts g' none_held y') g y (m y).

Lemma calm_exact {A} (m : Y A) : calm m -> exact_counts m.
Proof. intros Hm g y Hc. eapply safe_mono; [|by apply Hm]. by intros a g' y' []. Qed.

Lemma calm_ret {A} (a : A) : calm (ret a).
Proof. by intros g h y Hc. Qed.
Lemma calm_gets {A} (f : sys U -> A) : calm (gets f).
Proof. by intros g h y Hc. Qed.
Lemma calm_diverge {A} : calm (@diverge _ A).
Proof. by intros g h y Hc. Qed.
Lemma calm_panic {A} msg : elsewhere msg -> calm (@panic _ A msg).
Proof. by intros ? g h y Hc. Qed.
Lemma calm_bind {A B} (m : Y A) (f : A -> Y B) : calm m -> (forall a, calm (f a)) -> calm (bind m f).
Proof.
  intros Hm Hf g h y Hc. eapply safe_seq; [apply _|by apply Hm|]. intros a g' y' [Hc' E]. simpl in *.
  eapply safe_mono; [|by apply Hf]. intros b g2 y2 [? E2]. simpl in *. by rewrite E2.
Qed.
Lemma calm_files {A} (m : M (fstate U) A) : (forall ofs, steady ofs m) -> calm (in_files m).
Proof. intros Hm g h y Hc. eapply safe_files; [by apply Hm|]. intros a g' y' E Hc'. unfold ycounts. by rewrite E. Qed.
Lemma calm_zoom {T A} (l : lens (sys U) T) (m : M T A) :
  (forall t y, k_file (y_k (lset l t y)) = k_file (y_k y)) -> (forall t y, y_ofile (lset l t y) = y_ofile y) ->
  Tame true m -> calm (zoom l m).
Proof.
  intros Hk Ho Hm g h y Hc. unfold zoom. pose proof (Hm (lget l y)) as Hm'. clear Hm. revert Hm' g Hc.
  generalize (m (lget l y)) as o. intros o.
  assert (forall t g y, ycounts g h y -> ycounts g h (lset l t y)) as Hl.
  { intros t g y0 Hc. unfold ycounts. rewrite Ho. by eapply counts_files. }
  revert y. induction o as [a t|msg|c t k IH|]; intros y Hm' g Hc; simpl in *; [|done| |done].
  - by auto.
  - destruct Hm' as [_ Hm']. split; [done|]. right. exists h. split; [by apply Hl|].
    intros g' y' E Hc'. eapply safe_mono; [|by apply IH]. intros a g2 y2 [? E2]. by rewrite E2, E, Ho.
Qed.
Lemma calm_fs {A} (m : M (fs U) A) : Tame true m -> calm (in_fs m).
Proof. intros Hm. by apply calm_zoom. Qed.

End sys.

Create HintDb calm discriminated.
#[export] Hint Extern 1 (TameUser _) => apply _ : calm.
#[export] Hint Extern 1 (TamePages _) => apply _ : calm.
#[export] Hint Resolve calm_ret calm_gets calm_diverge : calm.
Ltac calm_step :=
  lazymatch goal with
  | |- forall _, _ => intros ?
  | |- calm (bind _ _) => apply calm_bind
  | |- calm (match ?x with _ => _ end) => destruct x
  | |- calm (in_fs _) => apply calm_fs; tame
  | |- calm (in_files _) => apply calm_files; steady
  | |- calm (zoom _ _) => apply calm_zoom; [done|done|tame]
  | |- calm (panic _) => apply calm_panic; by split
  | |- calm _ => solve [auto with calm]
  end.
Ltac calm := repeat (calm_step; cbn beta zeta).

Section calls.
Context {U : Type} `{TameUser U} `{TamePages U} `{WakeBudget} (stack : list Z).

Notation Y := (M (sys U)).
Notation calm := (calm (U:=U)).

Lemma calm_fetchaddr a : calm (fetchaddr a).
Proof. unfold fetchaddr. calm. Qed.
Lemma calm_string_op {A} (m : M Cmem.mem A) arg : Tame true m -> calm (string_op m arg).
Proof.
  intros Hm g h y Hc. specialize (Hm arg). unfold string_op. destruct (m arg) as [a t|msg|c t k|]; simpl in *; try done.
Qed.
Lemma calm_fetchstr a max : calm (fetchstr a max).
Proof. unfold fetchstr. calm. apply calm_string_op. tame. Qed.
Lemma calm_argraw n : calm (argraw n).
Proof. unfold argraw. calm. Qed.
Hint Resolve calm_fetchstr calm_argraw : calm.
Lemma calm_argint n : calm (argint n).
Proof. unfold argint. calm. Qed.
Lemma calm_argaddr n : calm (argaddr n).
Proof. unfold argaddr. calm. Qed.
Hint Resolve calm_argint calm_argaddr : calm.
Lemma calm_argstr n max : calm (argstr n max).
Proof. unfold argstr. calm. Qed.
Lemma calm_argfd n : calm (argfd n).
Proof. unfold argfd. calm. Qed.
Lemma calm_inode_at i : calm (inode_at i).
Proof. unfold inode_at. calm. Qed.
Lemma calm_fail_op : calm fail_op.
Proof. unfold fail_op. calm. Qed.
Hint Resolve calm_argstr calm_argfd calm_inode_at calm_fail_op : calm.

Lemma calm_sys_read : calm sys_read.
Proof. unfold sys_read. calm. Qed.
Lemma calm_sys_write : calm sys_write.
Proof. unfold sys_write. calm. Qed.
Lemma calm_sys_fstat : calm (sys_fstat stack).
Proof. unfold sys_fstat. calm. Qed.
Lemma calm_sys_link : calm (sys_link stack).
Proof. unfold sys_link. calm. Qed.
Lemma tame_isdirempty i : Tame true (isdirempty (U:=U) i).
Proof.
  unfold isdirempty. tame. generalize (2 * DIRENT). generalize (Z.to_nat (i_size a / DIRENT + 1)). intros k.
  induction k; intros; cbn [isdirempty_loop]; tame.
Qed.
Hint Resolve tame_isdirempty : tame.
Lemma calm_sys_unlink : calm (sys_unlink stack).
Proof. unfold sys_unlink. calm. Qed.
Lemma tame_create path t a b : Tame true (create (U:=U) stack path t a b).
Proof. unfold create. tame. Qed.
Hint Resolve tame_create : tame.
Lemma calm_sys_mkdir : calm (sys_mkdir stack).
Proof. unfold sys_mkdir. calm. Qed.
Lemma calm_sys_mknod : calm (sys_mknod stack).
Proof. unfold sys_mknod. calm. Qed.
Lemma calm_sys_chdir : calm (sys_chdir stack).
Proof. unfold sys_chdir. calm. Qed.

End calls.
#[export] Hint Resolve calm_fetchaddr calm_fetchstr calm_argint calm_argaddr calm_argstr calm_argfd calm_inode_at
  calm_fail_op calm_sys_read calm_sys_write calm_sys_fstat calm_sys_link calm_sys_unlink calm_sys_mkdir
  calm_sys_mknod calm_sys_chdir : calm.
#[export] Hint Resolve tame_create : tame.

(* ------------------------------------------------------------------ *)
(** ** Calls that move references *)

#[local] Arguments find_fd : simpl never.
Lemma find_fd_S n fd ofs :
  find_fd (S n) fd ofs = match ofs !! fd with Some None => Some fd | _ => find_fd n (S fd) ofs end.
Proof. done. Qed.
Lemma find_fd_free n fd ofs r : find_fd n fd ofs = Some r -> ofs !! r = Some None.
Proof.
  revert fd. induction n as [|n IH]; intros fd; [done|]. rewrite find_fd_S.
  destruct (ofs !! fd) as [[f|]|] eqn:E; [apply IH| |apply IH]. by intros [= <-].
Qed.

Section moves.
Context {U : Type} `{TameUser U} `{TamePages U} `{WakeBudget} (stack : list Z).

Notation ycounts := (ycounts (U:=U)).

Lemma ycounts_insert i o o' g h h' y : ycounts g h y -> y_ofile y !! i = Some o ->
  (forall f, h' f = h f + names f o - names f o') -> ycounts g h' (set_ofile (<[i := o']>) y).
Proof. intros Hc Hi Hh. eapply counts_hand; [exact Hh|]. by apply counts_insert. Qed.

Lemma fdalloc_counts f g h y : ycounts g h y ->
  safe Wy (fun fd g' y' => ycounts g' (if fd <? 0 then h else fun x => h x - one f x) y' /\
    (0 <= fd -> y_ofile y !! Z.to_nat fd = Some None /\ y_ofile y' !! Z.to_nat fd = Some (Some f)) /\
    y_k y' = y_k y /\
    (forall i, y_ofile y !! i <> Some None -> y_ofile y' !! i = y_ofile y !! i)) g y (fdalloc f y).
Proof.
  intros Hc. unfold fdalloc, bind. simpl. destruct (find_fd _ _ _) as [fd|] eqn:E; simpl.
  - apply find_fd_free in E. split; [done|]. rewrite (proj2 (Z.ltb_ge _ _)), Nat2Z.id by lia. split_and!; [|..|done|].
    + eapply ycounts_insert; [done..|]. intros x. rewrite names_None, names_Some. lia.
    + intros _. split; [done|]. simpl. apply list_lookup_insert_eq. by eapply lookup_lt_Some.
    + intros i Hi. simpl. apply list_lookup_insert_ne. congruence.
  - split; [done|]. by split_and!.
Qed.

Lemma argfd_names n (y : sys U) r : argfd n y = r -> match r with
  | Ok (Some (fd, f)) y' => y' = y /\ y_ofile y !! Z.to_nat fd = Some (Some f)
  | Ok None y' => y' = y
  | Panic msg => elsewhere msg
  | _ => False end.
Proof.
  unfold argfd, argint, argraw. intros <-. unfold bind. destruct ((0 <=? n) && (n <=? 5)); simpl; [|done].
  destruct (_ || _); simpl; [done|]. destruct (y_ofile y !! _) as [[f|]|] eqn:E; done.
Qed.

(** A call whose descriptor argument may be bad. *)
Lemma safe_argfd {B} n (k : option (Z * nat) -> M (sys U) B) Q g y :
  safe Wy Q g y (k None y) ->
  (forall fd f, y_ofile y !! Z.to_nat fd = Some (Some f) -> safe Wy Q g y (k (Some (fd, f)) y)) ->
  safe Wy Q g y (bind (argfd n) k y).
Proof.
  intros HN HS. unfold bind. destruct (argfd n y) as [r y'|msg|c t m|] eqn:E; apply argfd_names in E; simpl; try done.
  destruct r as [[fd f]|]; [destruct E as [-> E]; by apply HS|by subst y'].
Qed.

Lemma exact_sys_dup : exact_counts (U:=U) sys_dup.
Proof.
  intros g y Hc. apply safe_argfd; [by split|]. intros fd f Hf.
  eapply safe_seq; [apply _|by apply (fdalloc_counts f)|]. intros fd' g1 y1 (Hc1 & Hi & Hk & Hs). cbn beta in *.
  destruct (fd' <? 0) eqn:Efd; [by split|]. apply Z.ltb_ge in Efd. specialize (Hi Efd).
  pose proof (ct_ref _ _ _ _ Hc f) as Hr. pose proof (ct_ref _ _ _ _ Hc1 f) as Hr1. rewrite Hk in Hr1.
  pose proof (fds_elem _ _ _ Hf). pose proof (ct_others _ _ _ _ Hc f). unfold none_held in Hr.
  pose proof (fds_range f (y_ofile y1)) as Hrange. rewrite (ct_ofile _ _ _ _ Hc1) in Hrange.
  eapply safe_seq; [apply _|eapply safe_files; [apply (filedup_counts (y_ofile y1) f); [exact Hc1|..]|]|].
  - eapply (counts_valid (y_ofile y)); [exact Hc|]. unfold none_held. lia.
  - lia.
  - cbn beta. rewrite one_eq. unfold none_held, NOFILE in *. lia.
  - intros a g2 y2 E Hc2. exact (conj E Hc2).
  - intros a g2 y2 [E Hc2]. split; [done|]. unfold ycounts. rewrite E. eapply counts_hand; [|exact Hc2].
    intros x. unfold plus, none_held. lia.
Qed.

Lemma exact_sys_close : exact_counts (U:=U) sys_close.
Proof.
  intros g y Hc. apply safe_argfd; [by split|]. intros fd f Hf.
  set (y1 := set_ofile (<[Z.to_nat fd := None]>) y).
  assert (ycounts g (plus none_held (one f)) y1) as Hc1.
  { eapply ycounts_insert; [done..|]. intros x. rewrite names_None, names_Some. unfold plus, none_held. lia. }
  eapply safe_seq; [apply _|exact (conj I Hc1 : safe Wy (fun _ g' y' => ycounts g' (plus none_held (one f)) y') g y (Ok tt y1))|].
  intros [] g2 y2 Hc2. eapply safe_seq; [apply _|eapply safe_files; [apply (fileclose_held _ f g2 none_held); [exact Hc2|]|]|].
  - pose proof (fds_range f (y_ofile y2)). unfold none_held. lia.
  - intros a g3 y3 E Hc3. exact (conj E Hc3).
  - intros a g3 y3 [E Hc3]. split; [done|]. unfold ycounts. by rewrite E.
Qed.

Lemma exact_bind {A B} (m : M (sys U) A) (f : A -> M (sys U) B) :
  calm m -> (forall a, exact_counts (f a)) -> exact_counts (bind m f).
Proof.
  intros Hm Hf g y Hc. eapply safe_seq; [apply _|by apply Hm|]. intros a g' y' [Hc' _]. by apply Hf.
Qed.

(** fileclose() of a file in the call's hands. *)
Lemma close_held f g h y : ycounts g (plus h (one f)) y -> 0 <= fds f (y_ofile y) + h f ->
  safe Wy (fun _ g' y' => ycounts g' h y' /\ y_ofile y' = y_ofile y) g y (in_files (fileclose f) y).
Proof.
  intros Hc Hge. eapply safe_files; [by apply (fileclose_held _ f g h)|]. intros a g' y' E Hc'.
  unfold ycounts. by rewrite E.
Qed.

(** The part of sys_open() that allocates the file and its descriptor. *)
Lemma exact_open_file ip n omode :
  exact_counts (U:=U) (let* f := in_files filealloc in
    let* fd := match f with Some f => fdalloc f | None => ret (-1) end in
    match f with
    | Some f =>
        if fd <? 0 then in_files (fileclose f) ;; in_fs (iunlockput ip) ;; fail_op
        else
          in_files (upd_file f (open_file ip n omode)) ;;
          (if has_flag omode O_TRUNC && (i_type n =? T_FILE) then in_fs (itrunc ip) else ret tt) ;;
          in_fs (iunlock ip) ;;
          in_fs end_op ;;
          ret fd
    | None => in_fs (iunlockput ip) ;; fail_op
    end).
Proof.
  intros g y Hc. eapply safe_seq; [apply _|eapply safe_files; [by apply filealloc_counts|]|].
  { intros a g' y' E HP. exact (conj E HP). }
  intros [f|] g1 y1 [E HP]; cbn beta in *.
  - destruct HP as [_ Hc1]. assert (ycounts g1 (plus none_held (one f)) y1) as Hc1' by (unfold ycounts; by rewrite E).
    clear Hc1. eapply safe_seq; [apply _|by apply (fdalloc_counts f)|]. intros fd g2 y2 (Hc2 & _). cbn beta in *.
    destruct (fd <? 0).
    + eapply safe_seq; [apply _|apply (close_held f g2 none_held); [exact Hc2|]|].
      { pose proof (fds_range f (y_ofile y2)). unfold none_held. lia. }
      intros [] g3 y3 [Hc3 _]. eapply safe_mono; [|eapply (calm_bind (in_fs (iunlockput ip)) (fun _ => fail_op)); [..|exact Hc3]].
      { by intros a g' y' []. } { calm. } { calm. }
    + assert (ycounts g2 none_held y2) as Hc3.
      { eapply counts_hand; [|exact Hc2]. intros x. unfold plus, none_held. lia. }
      eapply safe_mono; [|eapply (calm_bind (in_files (upd_file f (open_file ip n omode))) _); [..|exact Hc3]].
      { by intros a g' y' []. } { calm. } { calm. }
  - assert (ycounts g1 none_held y1) as Hc1 by (unfold ycounts; by rewrite E).
    eapply safe_seq; [apply _|by apply calm_ret|]. intros fd g2 y2 [Hc2 _].
    eapply safe_mono; [|eapply (calm_bind (in_fs (iunlockput ip)) (fun _ => fail_op)); [..|exact Hc2]].
    { by intros a g' y' []. } { calm. } { calm. }
Qed.

Lemma exact_sys_open : exact_counts (U:=U) (sys_open stack).
Proof.
  unfold sys_open. apply exact_bind; [calm|]. intros omode. apply exact_bind; [calm|]. intros path.
  destruct (fst path <? 0); [apply calm_exact; calm|]. apply exact_bind; [calm|]. intros _. apply exact_bind; [calm|].
  intros [ip|]; [|apply calm_exact; calm]. apply exact_bind; [calm|]. intros n.
  destruct (_ && _); [apply calm_exact; calm|]. apply exact_open_file.
Qed.

(** The close of sys_pipe(): both files are in the call's hands. *)
Lemma close_both r w g y : ycounts g (plus (one r) (one w)) y ->
  safe Wy (fun _ g' y' => ycounts g' none_held y') g y
    ((in_files (fileclose r) ;; in_files (fileclose w) ;; ret (-1)) y).
Proof.
  intros Hc. assert (ycounts g (plus (plus none_held (one w)) (one r)) y) as Hc'.
  { eapply counts_hand; [|exact Hc]. intros x. unfold plus, none_held. lia. }
  eapply safe_seq; [apply _|apply (close_held r); [exact Hc'|]|].
  { pose proof (fds_range r (y_ofile y)). pose proof (one_range w r). unfold plus, none_held. lia. }
  intros [] g1 y1 [Hc1 _]. eapply safe_seq; [apply _|apply (close_held w); [exact Hc1|]|].
  { pose proof (fds_range w (y_ofile y1)). unfold none_held. lia. }
  by intros [] g2 y2 [Hc2 _].
Qed.

Lemma safe_modify {B} (x : sys U -> sys U) (k : unit -> M (sys U) B) Q g y :
  safe Wy Q g (x y) (k tt (x y)) -> safe Wy Q g y (bind (modify x) k y).
Proof. intros Hk. unfold bind. simpl. by apply (safe_from Wy _ g y (x y)). Qed.

Lemma safe_bind_calm {A B} (m : M (sys U) A) (k : A -> M (sys U) B) Q g h y : calm m -> ycounts g h y ->
  (forall a g' y', ycounts g' h y' -> y_ofile y' = y_ofile y -> safe Wy Q g' y' (k a y')) ->
  safe Wy Q g y (bind m k y).
Proof. intros Hm Hc Hk. eapply safe_seq; [apply _|by apply Hm|]. intros a g' y' []. by apply Hk. Qed.

Lemma exact_sys_pipe : exact_counts (U:=U) (sys_pipe stack).
Proof.
  unfold sys_pipe. apply exact_bind; [calm|]. intros arr g y Hc.
  eapply safe_seq; [apply _|eapply safe_files; [by apply pipealloc_counts|]|].
  { intros a g' y' E HP. exact (conj E HP). }
  intros [[r w]|] g1 y1 [E HP]; cbn beta in *; [|split; [done|]; unfold ycounts; by rewrite E].
  assert (ycounts g1 (plus (one r) (one w)) y1) as Hc1.
  { unfold ycounts. rewrite E. eapply counts_hand; [|exact HP]. intros x. unfold plus, none_held. lia. }
  eapply safe_seq; [apply _|by apply (fdalloc_counts r)|]. intros fd0 g2 y2 (Hc2 & Hf0 & _ & _). cbn beta in *.
  destruct (Z.ltb_spec fd0 0) as [_|H0']; [by apply close_both|]. destruct (Hf0 H0') as [_ Hi0].
  eapply safe_seq; [apply _|by apply (fdalloc_counts w)|]. intros fd1 g3 y3 (Hc3 & Hf1 & _ & Hs). cbn beta in *.
  pose proof Hi0 as Hi2. rewrite <- Hs in Hi0 by congruence. destruct (Z.ltb_spec fd1 0) as [_|H1'].
  { apply safe_modify, close_both. eapply ycounts_insert; [done..|]. intros x. rewrite names_Some, names_None. lia. }
  destruct (Hf1 H1') as [Hn1 Hi1]. assert (Z.to_nat fd0 <> Z.to_nat fd1) as Hne by congruence.
  assert (ycounts g3 none_held y3) as Hc4.
  { eapply counts_hand; [|exact Hc3]. intros x. unfold plus, none_held. lia. }
  eapply safe_bind_calm; [calm|exact Hc4|]. intros ok0 g4 y4 Hc5 E4.
  eapply safe_bind_calm; [calm|exact Hc5|]. intros ok g5 y5 Hc6 E5.
  destruct ok; [by split|]. rewrite <- E4, <- E5 in *. do 2 apply safe_modify. apply close_both.
  eapply (ycounts_insert _ (Some w)); [eapply (ycounts_insert _ (Some r)); [exact Hc6|done|]|..].
  - intros x. reflexivity.
  - simpl. by rewrite list_lookup_insert_ne.
  - intros x. rewrite !names_Some, !names_None. unfold plus, none_held. lia.
Qed.

End moves.
