(* ===== verification/KernRefs.v ===== *)
(** * Reference counts of open files: the kernel

   The counts of FileRefs.v for all processes at once: a struct file counts
   the descriptors of every process that name it.  What a system call does
   to them (SysRefs.v) is carried over to the whole kernel, where the other
   holders are the other processes; fork(), exit() and wait() move
   references between processes. *)

From stdpp Require Import base numbers list gmap strings.
From Stdlib Require Import ZArith Lia.
From S2P Require Import Prelude Params Cmem KString UserMem Kalloc Vm Fs Pipe Console File Sysfile Kern Proc Exec.
From S2P Require Import Tame FileRefs SysRefs.

(* ------------------------------------------------------------------ *)
(** ** Sums over the process table *)

Definition zsum : list Z -> Z := foldr Z.add 0.

Lemma zsum_insert l i x y : l !! i = Some x -> zsum (<[i := y]> l) = zsum l - x + y.
Proof.
  revert i. induction l as [|z l IH]; intros [|i]; simpl; try done.
  - intros [= ->]. lia.
  - intros Hi. rewrite IH by done. lia.
Qed.
Lemma zsum_range l b : 0 <= b -> Forall (fun x => 0 <= x <= b) l -> 0 <= zsum l <= b * Z.of_nat (length l).
Proof. intros Hb. induction 1; cbn [zsum foldr length]; [lia|]. fold (zsum l) in *. lia. Qed.

(** Where a process is in its life: a slot to allocate or to reap, a child
    that fork() is still making, or a process that runs. *)
Inductive phase := Gone | Making | Alive.
#[global] Instance phase_eq_dec : EqDecision phase.
Proof. solve_decision. Defined.
Definition phase_of (p : proc) : phase :=
  match p_state p with
  | UNUSED | ZOMBIE => Gone
  | USED => Making
  | SLEEPING | RUNNABLE | RUNNING => Alive
  end.

(** The references of each process: its descriptors and its hands. *)
Definition shares (f : nat) (hs : nat -> hand) (ps : list proc) : list Z :=
  imap (fun j p => fds f (p_ofile p) + hs j f) ps.
Definition total (f : nat) (hs : nat -> hand) (ps : list proc) : Z := zsum (shares f hs ps).
(** The references of all processes but [i]. *)
Definition others (i f : nat) (hs : nat -> hand) (ps : list proc) : Z := zsum (<[i := 0]> (shares f hs ps)).

Record kcounts (hs : nat -> hand) (k : kern) : Prop := KCounts {
  kc_files : length (k_file (n_files k)) = Z.to_nat NFILE;
  kc_procs : length (n_proc k) = Z.to_nat NPROC;
  kc_ref f : fref f (n_files k) = total f hs (n_proc k);
  kc_ofile j p : n_proc k !! j = Some p -> length (p_ofile p) = Z.to_nat NOFILE;
  kc_share j p f : n_proc k !! j = Some p -> 0 <= fds f (p_ofile p) + hs j f <= NOFILE + 2;
  kc_gone j p : n_proc k !! j = Some p -> phase_of p = Gone -> p_ofile p = replicate (Z.to_nat NOFILE) None;
  kc_idle j p f : n_proc k !! j = Some p -> phase_of p <> Alive -> hs j f = 0
}.

Lemma shares_lookup f hs ps j p : ps !! j = Some p -> shares f hs ps !! j = Some (fds f (p_ofile p) + hs j f).
Proof. intros Hj. unfold shares. by rewrite list_lookup_imap, Hj. Qed.
Lemma length_shares f hs ps : length (shares f hs ps) = length ps.
Proof. apply length_imap. Qed.

Lemma shares_ext f hs ps ps' : (forall j, p_ofile <$> ps' !! j = p_ofile <$> ps !! j) ->
  shares f hs ps' = shares f hs ps.
Proof.
  intros E. apply list_eq. intros j. unfold shares. rewrite !list_lookup_imap. specialize (E j).
  destruct (ps !! j), (ps' !! j); simplify_eq/=; congruence.
Qed.

Lemma total_split i p f hs ps : ps !! i = Some p -> total f hs ps = fds f (p_ofile p) + hs i f + others i f hs ps.
Proof.
  intros Hi. unfold others, total. rewrite (zsum_insert _ i (fds f (p_ofile p) + hs i f)) by by apply shares_lookup. lia.
Qed.

(** What the others hold depends on them only. *)
Lemma others_ext i f hs hs' ps ps' : length ps' = length ps ->
  (forall j p, j <> i -> ps !! j = Some p -> exists p', ps' !! j = Some p' /\ p_ofile p' = p_ofile p) ->
  (forall j f, j <> i -> hs' j f = hs j f) -> others i f hs' ps' = others i f hs ps.
Proof.
  intros Hl Hp Hh. unfold others. f_equal. apply list_eq. intros j. destruct (decide (j = i)) as [->|Hj].
  - destruct (decide (i < length ps)%nat).
    + rewrite !list_lookup_insert_eq by (rewrite length_shares; lia). done.
    + rewrite !lookup_ge_None_2 by (rewrite length_insert, length_shares; lia). done.
  - rewrite !list_lookup_insert_ne by done. unfold shares. rewrite !list_lookup_imap.
    destruct (ps !! j) as [p|] eqn:Ej; simpl.
    + destruct (Hp j p Hj Ej) as (p' & -> & E). simpl. by rewrite E, Hh.
    + rewrite (lookup_ge_None_2 ps'); [done|]. apply lookup_ge_None_1 in Ej. lia.
Qed.

Lemma others_range i f hs k : kcounts hs k -> 0 <= others i f hs (n_proc k) <= MAXREFS.
Proof.
  intros Hk. destruct (zsum_range (<[i := 0]> (shares f hs (n_proc k))) (NOFILE + 2)) as [H1 H2].
  - unfold NOFILE. lia.
  - apply Forall_insert; [|unfold NOFILE; lia]. apply Forall_lookup. intros j x Hj. unfold shares in Hj.
    rewrite list_lookup_imap in Hj. destruct (n_proc k !! j) as [p|] eqn:Ep; simplify_eq/=. by eapply kc_share.
  - rewrite length_insert, length_shares, (kc_procs _ _ Hk) in H2. unfold others.
    unfold NOFILE, NPROC, MAXREFS in *. lia.
Qed.

(* ------------------------------------------------------------------ *)
(** ** The world of one process's kernel thread *)

Definition own (j : nat) (k : kern) : option (list (option nat) * phase) :=
  (fun p => (p_ofile p, phase_of p)) <$> n_proc k !! j.
Definition alive (j : nat) (k : kern) : Prop := exists ofs, own j k = Some (ofs, Alive).

(** Thread [i]: it leaves processes that run alone, and they it.  With [e]
    it may exit: the last time it gives up the processor it holds nothing. *)
Definition Wk (e : bool) (i : nat) : world (nat -> hand) kern :=
  World (fun hs h k => n_cur k = Some i /\ alive i k /\ kcounts (upd i h hs) k)
    (fun k k' => own i k' = own i k)
    (fun k k' => forall j, j <> i -> alive j k -> own j k' = own j k)
    (fun hs k => e = true /\ n_cur k = Some i /\ phase_of (getp i k) = Gone /\ kcounts (upd i none_held hs) k).
#[global] Instance Wk_refl e i : Reflexive (w_guar (Wk e i)).
Proof. by intros k j. Qed.
#[global] Instance Wk_trans e i : Transitive (w_guar (Wk e i)).
Proof.
  intros k1 k2 k3 H1 H2 j Hj Ha. simpl in *. rewrite <- (H1 j) by done. apply H2; [done|]. destruct Ha as [ofs Ha].
  exists ofs. rewrite H1; [done|done|by exists ofs].
Qed.

(** The counts do not see the difference between [k] and [k']. *)
Record same (k k' : kern) : Prop := Same {
  sm_cur : n_cur k' = n_cur k;
  sm_file : k_file (n_files k') = k_file (n_files k);
  sm_own j : own j k' = own j k
}.
#[global] Instance same_refl : Reflexive same.
Proof. done. Qed.
#[global] Instance same_trans : Transitive same.
Proof. intros k1 k2 k3 [E1 E2 E3] [F1 F2 F3]. split; [congruence..|]. intros j. by rewrite F3, E3. Qed.

Lemma own_lookup j k ofs ph : own j k = Some (ofs, ph) <-> exists p, n_proc k !! j = Some p /\ p_ofile p = ofs /\ phase_of p = ph.
Proof. unfold own. destruct (n_proc k !! j) as [p|]; simpl; naive_solver. Qed.

Lemma own_length k k' : (forall j, own j k' = own j k) -> length (n_proc k') = length (n_proc k).
Proof.
  intros E. apply dec_stable. intros Hne. destruct (decide (length (n_proc k') < length (n_proc k))%nat) as [Hlt|Hge].
  - specialize (E (length (n_proc k'))). unfold own in E. rewrite (lookup_ge_None_2 (n_proc k')) in E by lia.
    destruct (lookup_lt_is_Some_2 (n_proc k) (length (n_proc k'))) as [p Hp]; [done|]. by rewrite Hp in E.
  - specialize (E (length (n_proc k))). unfold own in E. rewrite (lookup_ge_None_2 (n_proc k)) in E by lia.
    destruct (lookup_lt_is_Some_2 (n_proc k') (length (n_proc k))) as [p Hp]; [lia|]. by rewrite Hp in E.
Qed.

(** Tables that agree on the descriptors and phases have the same counts. *)
Lemma kcounts_same hs k k' : kcounts hs k -> k_file (n_files k') = k_file (n_files k) ->
  (forall j, own j k' = own j k) -> kcounts hs k'.
Proof.
  intros Hk Ef Eo. assert (forall j p, n_proc k' !! j = Some p -> exists q, n_proc k !! j = Some q /\
    p_ofile q = p_ofile p /\ phase_of q = phase_of p) as Hp.
  { intros j p Hj. apply own_lookup. rewrite <- Eo. unfold own. by rewrite Hj. }
  assert (forall f, shares f hs (n_proc k') = shares f hs (n_proc k)) as Es.
  { intros f. apply shares_ext. intros j. specialize (Eo j). unfold own in Eo.
    destruct (n_proc k !! j) as [p|], (n_proc k' !! j) as [p'|]; simplify_eq/=; congruence. }
  destruct Hk as [H1 H2 H3 H4 H5 H6 H7]. split.
  - by rewrite Ef.
  - by rewrite (own_length k k').
  - intros f. unfold total. rewrite Es. change (fref f (n_files k') = total f hs (n_proc k)).
    rewrite <- H3. unfold fref, getf. by rewrite Ef.
  - intros j p Hj. destruct (Hp j p Hj) as (q & Hq & <- & _). by eapply H4.
  - intros j p f Hj. destruct (Hp j p Hj) as (q & Hq & <- & _). by apply H5.
  - intros j p Hj Hg. destruct (Hp j p Hj) as (q & Hq & <- & Ep). eapply H6; [done|by rewrite Ep].
  - intros j p f Hj Hg. destruct (Hp j p Hj) as (q & Hq & _ & Ep). eapply H7; [done|by rewrite Ep].
Qed.

Section quiet.
Context (i : nat).

(** A call that the counts do not see, and which leaves its own process's
    descriptors as they are. *)
Definition quiet {A} (m : M kern A) : Prop := forall hs h k, w_inv (Wk false i) hs h k ->
  safe (Wk false i) (fun _ hs' k' => w_inv (Wk false i) hs' h k' /\ own i k' = own i k) hs k (m k).

Lemma same_inv hs h k k' : w_inv (Wk false i) hs h k -> same k k' -> w_inv (Wk false i) hs h k'.
Proof.
  intros (Hc & [ofs Ha] & Hk) [E1 E2 E3]. split; [by rewrite E1|]. split; [exists ofs; by rewrite E3|].
  by eapply kcounts_same.
Qed.
Lemma same_guar k k' : same k k' -> w_guar (Wk false i) k k'.
Proof. intros [_ _ E] j _ _. apply E. Qed.

Lemma quiet_ret {A} (a : A) : quiet (ret a).
Proof. by intros hs h k Hk. Qed.
Lemma quiet_gets {A} (f : kern -> A) : quiet (gets f).
Proof. by intros hs h k Hk. Qed.
Lemma quiet_diverge {A} : quiet (@diverge _ A).
Proof. by intros hs h k Hk. Qed.
Lemma quiet_panic {A} msg : elsewhere msg -> quiet (@panic _ A msg).
Proof. by intros ? hs h k Hk. Qed.
Lemma quiet_ub {A} what : quiet (@ub _ A what).
Proof. by intros hs h k Hk. Qed.
Lemma quiet_modify f : (forall k, same k (f k)) -> quiet (modify f).
Proof.
  intros Hf hs h k Hk. split; [by apply same_guar|]. split; [by eapply same_inv|]. apply Hf.
Qed.
Lemma quiet_bind {A B} (m : M kern A) (f : A -> M kern B) : quiet m -> (forall a, quiet (f a)) -> quiet (bind m f).
Proof.
  intros Hm Hf hs h k Hk. eapply safe_seq; [apply _|by apply Hm|]. intros a hs' k' [Hk' E]. cbn beta in *.
  eapply safe_mono; [|by apply Hf]. intros b hs2 k2 [? E2]. split; [done|]. by rewrite E2.
Qed.
Lemma quiet_zoom {T A} (l : lens kern T) (m : M T A) :
  (forall t k, same k (lset l t k)) -> Tame true m -> quiet (zoom l m).
Proof.
  intros Hl Hm hs h k Hk. unfold zoom. pose proof (Hm (lget l k)) as Ho. clear Hm. revert Ho hs Hk.
  generalize (m (lget l k)) as o. intros o. revert k.
  induction o as [a t|msg|c t r IH|]; intros k Ho hs Hk; simpl in Ho; [|done| |done].
  - split; [by apply same_guar|]. split; [by eapply same_inv|]. apply Hl.
  - destruct Ho as [_ Ho]. split; [by apply same_guar|]. right. exists h. split; [by eapply same_inv|].
    intros hs' k' E Hk'. eapply safe_mono; [|by apply IH]. intros a hs2 k2 [? E2]. split; [done|].
    rewrite E2. simpl in E. rewrite E. apply Hl.
Qed.
(** A store to a process that leaves its descriptors and phase alone. *)
Lemma same_upd j f k : (forall p, n_proc k !! j = Some p -> p_ofile (f p) = p_ofile p /\ phase_of (f p) = phase_of p) ->
  same k (set_procs (alter f j) k).
Proof.
  intros Hf. split; [done..|]. intros j'. unfold own. simpl. destruct (decide (j' = j)) as [->|].
  - rewrite list_lookup_alter_eq. destruct (n_proc k !! j) as [p|] eqn:E; simpl; [|done].
    destruct (Hf p eq_refl) as [E1 E2]. by rewrite E1, E2.
  - by rewrite list_lookup_alter_ne.
Qed.
Lemma quiet_upd j f : (forall p, p_ofile (f p) = p_ofile p /\ phase_of (f p) = phase_of p) -> quiet (upd_proc j f).
Proof. intros Hf. apply quiet_modify. intros k. apply same_upd. auto. Qed.
(** The process's own state may change while it stays alive. *)
Lemma quiet_upd_own f : (forall p, phase_of p = Alive -> p_ofile (f p) = p_ofile p /\ phase_of (f p) = Alive) ->
  quiet (upd_proc i f).
Proof.
  intros Hf hs h k Hk. assert (same k (set_procs (alter f i) k)) as Hs.
  { apply same_upd. intros p Hp. destruct Hk as (_ & [ofs Ha] & _). apply own_lookup in Ha as (q & Hq & _ & Ha).
    simplify_eq. rewrite Ha. by apply Hf. }
  split; [by apply same_guar|]. split; [by eapply same_inv|]. apply Hs.
Qed.
Lemma quiet_acquire (l : lens kern bool) : (forall b k, same k (lset l b k)) -> quiet (lock_acquire l).
Proof.
  intros Hl hs h k Hk. unfold lock_acquire. destruct (lget l k); [done|].
  split; [by apply same_guar|]. split; [by eapply same_inv|]. apply Hl.
Qed.
Lemma quiet_release (l : lens kern bool) : (forall b k, same k (lset l b k)) -> quiet (lock_release l).
Proof.
  intros Hl hs h k Hk. unfold lock_release. destruct (lget l k); [|done].
  split; [by apply same_guar|]. split; [by eapply same_inv|]. apply Hl.
Qed.
Lemma quiet_for_range n a body : (forall z, quiet (body z)) -> quiet (for_range n a body).
Proof.
  intros Hb. revert a. induction n as [|n IH]; intros a; simpl; [apply quiet_ret|]. by apply quiet_bind.
Qed.
Lemma quiet_myproc {A} (f : nat -> M kern A) : quiet (f i) -> quiet (bind myproc f).
Proof. intros Hf hs h k Hk. unfold bind, myproc. simpl. unfold cur. destruct Hk as [E Hk]. rewrite E. simpl. by apply Hf. Qed.
Lemma quiet_string_op {A} (m : M mem A) arg : Tame true m -> quiet (string_op m arg).
Proof.
  intros Hm hs h k Hk. specialize (Hm arg). unfold string_op. destruct (m arg) as [a t|msg|c t r|]; simpl in *; done.
Qed.

(** ** Calls on the file table *)

Lemma safe_end {A} (Q : A -> (nat -> hand) -> kern -> Prop) hs k0 o :
  safe (Wk false i) Q hs k0 o -> safe (Wk true i) Q hs k0 o.
Proof.
  revert hs k0. induction o as [a k|msg|c k r IH|]; intros hs k0; simpl; try done.
  intros (Hg & [[? _]|(h & Hk & Hr)]); [done|]. split; [done|]. right. exists h. split; [done|]. eauto.
Qed.

(** sleep() of the process while a component waits. *)
Lemma safe_as_process {A} (Q : A -> (nat -> hand) -> kern -> Prop) hs k0 o :
  safe (Wk false i) Q hs k0 o -> safe (Wk false i) Q hs k0 (as_process i o).
Proof.
  revert hs k0. induction o as [a k|msg|c k r IH|]; intros hs k0 Ho; [done|done| |done].
  destruct Ho as (Hg & [[? _]|(h & Hk & Hr)]); [done|]. cbn [as_process].
  set (k1 := set_procs _ k). assert (same k k1) as Hs.
  { apply same_upd. intros p Hp. destruct Hk as (_ & [ofs Ha] & _). apply own_lookup in Ha as (q & Hq & _ & Ha).
    simplify_eq. by rewrite Ha. }
  split; [etrans; [exact Hg|by apply same_guar]|]. right. exists h. split; [by eapply same_inv|].
  intros hs' k' HR Hk'. set (k2 := set_procs (alter (pset_chan None) i) k').
  assert (same k' k2) as Hs' by (by apply same_upd).
  apply (safe_from _ _ _ _ k2); [by apply same_guar|]. apply IH, Hr; [|by eapply same_inv].
  simpl. rewrite (sm_own _ _ Hs'). simpl in HR. rewrite HR. apply (sm_own _ _ Hs).
Qed.

End quiet.

Lemma wake_phase c p : p_ofile (wake c p) = p_ofile p /\ phase_of (wake c p) = phase_of p.
Proof. unfold wake. case_decide as Hd; [|done]. destruct Hd as [E _]. unfold phase_of. simpl. by rewrite E. Qed.

Lemma own_wake_list cs k j : own j (wake_list cs k) = own j k.
Proof.
  unfold own, wake_list. simpl. generalize (n_proc k) as ps. induction cs as [|c cs IH]; intros ps; simpl; [done|].
  rewrite IH. unfold wake_others. rewrite list_lookup_imap. destruct (ps !! j) as [p|]; simpl; [|done].
  case_decide; [done|]. by destruct (wake_phase c p) as [-> ->].
Qed.

(** Putting the files back into the kernel changes the file table only. *)
Lemma own_put_files s k j : own j (put_files s k) = own j k.
Proof.
  rewrite <- (own_wake_list (f_woken (k_fs s)) k j). unfold own, put_files. simpl.
  set (ps := fold_left _ _ _). change (cur (wake_list (f_woken (k_fs s)) k)) with (cur k).
  destruct (decide (j = cur k)) as [->|].
  - rewrite list_lookup_alter_eq. destruct (ps !! cur k) as [p|]; simpl; [|done].
    unfold put_cwd. by destruct (p_cwd p).
  - by rewrite list_lookup_alter_ne.
Qed.
Lemma same_put_files s k : k_file s = k_file (n_files k) -> same k (put_files s k).
Proof. intros E. split; [done|done|]. intros j. apply own_put_files. Qed.

(** What is true of the other processes while [i] runs. *)
Record around (i : nat) (hs : nat -> hand) (k : kern) : Prop := Around {
  ar_procs : length (n_proc k) = Z.to_nat NPROC;
  ar_ofile j p : j <> i -> n_proc k !! j = Some p -> length (p_ofile p) = Z.to_nat NOFILE;
  ar_share j p f : j <> i -> n_proc k !! j = Some p -> 0 <= fds f (p_ofile p) + hs j f <= NOFILE + 2;
  ar_gone j p : j <> i -> n_proc k !! j = Some p -> phase_of p = Gone -> p_ofile p = replicate (Z.to_nat NOFILE) None;
  ar_idle j p f : j <> i -> n_proc k !! j = Some p -> phase_of p <> Alive -> hs j f = 0
}.

Lemma kcounts_around i h hs k : kcounts (upd i h hs) k -> around i hs k.
Proof.
  intros [H1 H2 H3 H4 H5 H6 H7]. split; try done.
  - intros j p _. apply H4.
  - intros j p f Hj Hp. specialize (H5 j p f Hp). by rewrite upd_ne in H5.
  - intros j p _. apply H6.
  - intros j p f Hj Hp Hg. specialize (H7 j p f Hp Hg). by rewrite upd_ne in H7.
Qed.

Lemma counts_conv {U V} ofs g h (s : fstate U) (s' : fstate V) :
  counts ofs g h s -> k_file s' = k_file s -> counts ofs g h s'.
Proof. intros [Hl Ho Hr Hg Hm] E. split; try done; [by rewrite E|]. intros f. rewrite <- Hr. unfold fref, getf. by rewrite E. Qed.

Lemma others_upd i f h hs ps : others i f (upd i h hs) ps = others i f hs ps.
Proof. apply others_ext; [done| |]; [naive_solver|]. intros j f' Hj. by rewrite upd_ne. Qed.

(** The counts of the kernel are those of the running process, the rest
    being the others'. *)
Lemma kcounts_counts i p h hs k : n_proc k !! i = Some p -> kcounts (upd i h hs) k ->
  counts (p_ofile p) (fun f => others i f hs (n_proc k)) h (n_files k).
Proof.
  intros Hp Hk. split.
  - by apply kc_files in Hk.
  - by eapply kc_ofile.
  - intros f. rewrite (kc_ref _ _ Hk). rewrite (total_split i p) by done. by rewrite upd_eq, others_upd.
  - intros f. rewrite <- (others_upd i f h). by apply others_range.
  - intros f. pose proof (kc_share _ _ Hk i p f Hp) as Hs. by rewrite upd_eq in Hs.
Qed.
Lemma counts_kcounts i p h hs k : n_proc k !! i = Some p -> phase_of p = Alive -> around i hs k ->
  counts (p_ofile p) (fun f => others i f hs (n_proc k)) h (n_files k) -> kcounts (upd i h hs) k.
Proof.
  intros Hp Ha [A1 A2 A3 A4 A5] [Hl Ho Hr Hg Hm]. split; try done.
  - intros f. rewrite Hr, (total_split i p) by done. by rewrite upd_eq, others_upd.
  - intros j q Hj. destruct (decide (j = i)) as [->|]; [by simplify_eq|by eapply A2].
  - intros j q f Hj. destruct (decide (j = i)) as [->|]; [simplify_eq; by rewrite upd_eq|]. rewrite upd_ne by done. by apply A3.
  - intros j q Hj Hg'. destruct (decide (j = i)) as [->|]; [simplify_eq; congruence|by eapply A4].
  - intros j q f Hj Hg'. destruct (decide (j = i)) as [->|]; [simplify_eq; congruence|]. rewrite upd_ne by done. by eapply A5.
Qed.

Lemma around_own i hs k k' : (forall j, j <> i -> own j k' = own j k) -> length (n_proc k') = length (n_proc k) ->
  around i hs k -> around i hs k'.
Proof.
  intros Eo El [A1 A2 A3 A4 A5].
  assert (forall j p, j <> i -> n_proc k' !! j = Some p -> exists q, n_proc k !! j = Some q /\
    p_ofile q = p_ofile p /\ phase_of q = phase_of p) as Hp.
  { intros j p Hne Hj. apply own_lookup. rewrite <- Eo by done. unfold own. by rewrite Hj. }
  split; [by rewrite El|..].
  - intros j p Hne Hj. destruct (Hp j p Hne Hj) as (q & Hq & <- & _). by eapply A2.
  - intros j p f Hne Hj. destruct (Hp j p Hne Hj) as (q & Hq & <- & _). by apply A3.
  - intros j p Hne Hj Hg. destruct (Hp j p Hne Hj) as (q & Hq & <- & Ep). eapply A4; [done..|by rewrite Ep].
  - intros j p f Hne Hj Hg. destruct (Hp j p Hne Hj) as (q & Hq & _ & Ep). eapply A5; [done..|by rewrite Ep].
Qed.

Lemma others_own i f hs k k' : (forall j, j <> i -> own j k' = own j k) -> length (n_proc k') = length (n_proc k) ->
  others i f hs (n_proc k') = others i f hs (n_proc k).
Proof.
  intros Eo El. apply others_ext; [done| |done]. intros j p Hj Hp.
  specialize (Eo j Hj). unfold own in Eo. rewrite Hp in Eo. simpl in Eo.
  destruct (n_proc k' !! j) as [p'|]; simplify_eq/=. eauto.
Qed.

Section sys.
Context (i : nat) (args : list Z).

Lemma put_sys_own y k j : n_cur k = Some i -> own j (put_sys y k) =
  if decide (j = i) then (fun p => (y_ofile y, p.2)) <$> own i k else own j k.
Proof.
  intros Hc. assert (cur k = i) as Hi by (unfold cur; by rewrite Hc). unfold put_sys.
  pose proof (own_put_files (y_k y) k j) as E. unfold own in *. cbn [set_procs n_proc]. rewrite Hi.
  destruct (decide (j = i)) as [->|].
  - rewrite list_lookup_alter_eq. destruct (n_proc (put_files (y_k y) k) !! i) as [p|], (n_proc k !! i) as [q|]; try done.
    injection E as _ E. cbn [fmap option_fmap option_map snd]. by rewrite <- E.
  - by rewrite list_lookup_alter_ne.
Qed.

Lemma put_sys_length y k : length (n_proc (put_sys y k)) = length (n_proc k).
Proof.
  unfold put_sys. cbn [set_procs n_proc]. rewrite length_alter. apply own_length. intros j. apply own_put_files.
Qed.

(** The rest of the kernel while process [i] is in a call on the files. *)
Definition rest (hs : nat -> hand) (g : hand) (k : kern) : Prop :=
  n_cur k = Some i /\ alive i k /\ around i hs k /\ forall f, g f = others i f hs (n_proc k).

Lemma rest_put hs g k y : rest hs g k -> rest hs g (put_sys y k).
Proof.
  intros (Hc & [ofs Ha] & Har & Hg). split_and!; [done|..].
  - exists (y_ofile y). rewrite put_sys_own, decide_True, Ha by done. done.
  - eapply around_own; [|by apply put_sys_length|done]. intros j Hj. by rewrite put_sys_own, decide_False.
  - intros f. rewrite Hg. symmetry. apply others_own; [|by apply put_sys_length].
    intros j Hj. by rewrite put_sys_own, decide_False.
Qed.

Lemma rest_inv hs g k y h : rest hs g k -> ycounts g h y -> w_inv (Wk false i) hs h (put_sys y k).
Proof.
  intros HE Hy. pose proof (rest_put hs g k y HE) as (Hc & [ofs Ha] & Har & Hg). split; [done|]. split; [by exists ofs|].
  pose proof (put_sys_own y k i) as Eo. destruct HE as (Hc0 & [ofs0 Ha0] & _). rewrite decide_True, Ha0 in Eo by done.
  specialize (Eo Hc0). simpl in Eo. apply own_lookup in Eo as (p & Hp & Eof & Eph).
  eapply (counts_kcounts i p); [done..|]. rewrite Eof. unfold ycounts in Hy.
  eapply counts_conv; [|reflexivity]. destruct Hy as [H1 H2 H3 H4 H5]. split; [done|done|..].
  - intros f. rewrite <- Hg. apply H3.
  - intros f. rewrite <- Hg. apply H4.
  - done.
Qed.

Lemma inv_rest hs h k : w_inv (Wk false i) hs h k ->
  rest hs (fun f => others i f hs (n_proc k)) k /\ ycounts (fun f => others i f hs (n_proc k)) h (get_sys args k) /\
  own i k = Some (y_ofile (get_sys args k), Alive).
Proof.
  intros (Hc & [ofs Ha] & Hk). split; [|].
  - split_and!; [done|by exists ofs|by eapply kcounts_around|done].
  - apply own_lookup in Ha as (p & Hp & Eo & Ep). unfold ycounts, get_sys. cbn [y_ofile y_k].
    assert (getp (cur k) k = p) as -> by (unfold getp, cur; by rewrite Hc; simpl; rewrite Hp).
    split; [|unfold own; by rewrite Hp; simpl; rewrite Ep].
    eapply counts_conv; [by eapply kcounts_counts|done].
Qed.

(** A system call of kernel/sysfile.c in the kernel. *)
Lemma safe_sys {A} (m : M (sys pmem) A) (P : A -> hand -> sys pmem -> Prop) (Q : A -> (nat -> hand) -> kern -> Prop) hs h k :
  w_inv (Wk false i) hs h k ->
  safe Wy P (fun f => others i f hs (n_proc k)) (get_sys args k) (m (get_sys args k)) ->
  (forall a hs' g' k' y, rest hs' g' k' -> P a g' y -> Q a hs' (put_sys y k')) ->
  safe (Wk false i) Q hs k (zoom (L_sys args) m k).
Proof.
  intros Hk Hm HQ. destruct (inv_rest hs h k Hk) as (HE & _). unfold zoom.
  assert (forall hs g k y, rest hs g k -> w_guar (Wk false i) k (put_sys y k)) as Hguar.
  { intros hs1 g1 k1 y (Hc & _) j Hj _. by rewrite put_sys_own, decide_False. }
  eapply (safe_zoom (Wk false i) Wy (L_sys args) rest); [..|exact HE|exact Hm].
  - intros t HE' _. by eapply Hguar.
  - intros hs1 g1 k1 y h1 HE1 Hy. by eapply rest_inv.
  - intros hs1 g1 hs2 k1 k2 y h1 HE1 Hy HR Hk2. destruct (inv_rest hs2 h1 k2 Hk2) as (HE2 & Hy2 & Ho2).
    eexists. split; [exact HE2|]. split; [exact Hy2|]. simpl in HR |- *.
    rewrite Ho2, put_sys_own, decide_True in HR by (done || apply HE1).
    destruct HE1 as (_ & [ofs Ha] & _). rewrite Ha in HR. by injection HR as ->.
  - intros hs1 g1 k1 y HE1 _. by eapply Hguar.
  - exact HQ.
  - by intros g y [].
Qed.

Lemma quiet_sys {A} (m : M (sys pmem) A) : calm m -> quiet i (zoom (L_sys args) m).
Proof.
  intros Hm hs h k Hk. destruct (inv_rest hs h k Hk) as (HE & Hy & Ho).
  eapply safe_sys; [done|by apply Hm|]. intros a hs' g' k' y HE' [Hy' E]. split; [by eapply rest_inv|].
  rewrite put_sys_own, decide_True by (done || apply HE'). destruct HE' as (_ & [ofs Ha] & _).
  rewrite Ha, Ho. simpl. by rewrite E.
Qed.
Lemma exact_sys {A} (m : M (sys pmem) A) hs k : exact_counts m -> w_inv (Wk false i) hs none_held k ->
  safe (Wk false i) (fun _ hs' k' => w_inv (Wk false i) hs' none_held k') hs k (zoom (L_sys args) m k).
Proof.
  intros Hm Hk. destruct (inv_rest hs none_held k Hk) as (HE & Hy & Ho).
  eapply safe_sys; [done|by apply Hm|]. intros a hs' g' k' y HE' Hy'. by eapply rest_inv.
Qed.

End sys.

Section files.
Context (i : nat).

(** A call of kernel/file.c from kernel/proc.c: the descriptors stay. *)
Definition rest_fd (ofs : list (option nat)) (hs : nat -> hand) (g : hand) (k : kern) : Prop :=
  rest i hs g k /\ own i k = Some (ofs, Alive).

Lemma rest_files ofs hs g k s h : rest_fd ofs hs g k -> counts ofs g h s -> w_inv (Wk false i) hs h (put_files s k).
Proof.
  intros ((Hc & _ & Har & Hg) & Ho) Hs. split; [done|]. split; [exists ofs; by rewrite own_put_files|].
  pose proof (own_put_files s k) as Eo. assert (length (n_proc (put_files s k)) = length (n_proc k)) as El by by apply own_length.
  rewrite <- (Eo i) in Ho. apply own_lookup in Ho as (p & Hp & Eof & Eph).
  eapply (counts_kcounts i p); [done..| |].
  - eapply around_own; [intros j _; apply Eo|done|done].
  - rewrite Eof. destruct Hs as [H1 H2 H3 H4 H5]. split; [done|done|..|done]; intros f; cbn beta;
      rewrite (others_own i f hs k (put_files s k)) by (done || (intros j _; apply Eo)); rewrite <- Hg; [apply H3|apply H4].
Qed.

Lemma inv_rest_fd ofs hs h k : w_inv (Wk false i) hs h k -> own i k = Some (ofs, Alive) ->
  rest_fd ofs hs (fun f => others i f hs (n_proc k)) k /\
  counts ofs (fun f => others i f hs (n_proc k)) h (get_files k).
Proof.
  intros Hk Ho. destruct (inv_rest i [] hs h k Hk) as (HE & Hy & Ho'). rewrite Ho in Ho'. injection Ho' as ->.
  split; [|exact Hy]. by split.
Qed.

Lemma safe_in_files {A} (m : M (fstate pmem) A) ofs (P : A -> hand -> fstate pmem -> Prop)
    (Q : A -> (nat -> hand) -> kern -> Prop) hs h k :
  w_inv (Wk false i) hs h k -> own i k = Some (ofs, Alive) ->
  safe (Wf ofs) P (fun f => others i f hs (n_proc k)) (get_files k) (m (get_files k)) ->
  (forall a hs' g' k' s, rest_fd ofs hs' g' k' -> P a g' s -> Q a hs' (put_files s k')) ->
  safe (Wk false i) Q hs k (Proc.in_files m k).
Proof.
  intros Hk Ho Hm HQ. destruct (inv_rest_fd ofs hs h k Hk Ho) as (HE & _). unfold Proc.in_files.
  assert (cur k = i) as -> by (unfold cur; by rewrite (proj1 Hk)). apply safe_as_process. unfold zoom.
  assert (forall k s, w_guar (Wk false i) k (put_files s k)) as Hguar by (intros k1 s j _ _; apply own_put_files).
  eapply (safe_zoom (Wk false i) (Wf ofs) L_files (rest_fd ofs)); [..|exact HE|exact Hm].
  - intros t _ _. apply Hguar.
  - intros hs1 g1 k1 s h1 HE1 Hs. by eapply rest_files.
  - intros hs1 g1 hs2 k1 k2 s h1 [_ Ho1] _ HR Hk2. assert (own i k2 = Some (ofs, Alive)) as Ho2.
    { simpl in HR. by rewrite HR, own_put_files. }
    destruct (inv_rest_fd ofs hs2 h1 k2 Hk2 Ho2) as (HE2 & Hs2). eexists. split; [exact HE2|]. by split.
  - intros hs1 g1 k1 s _ _. apply Hguar.
  - exact HQ.
  - by intros g s [].
Qed.

Lemma quiet_in_files {A} (m : M (fstate pmem) A) : (forall ofs, steady ofs m) -> quiet i (Proc.in_files m).
Proof.
  intros Hm hs h k Hk. destruct (inv_rest i [] hs h k Hk) as (_ & _ & Ho).
  eapply safe_in_files; [done|done| |].
  - apply Hm. by eapply inv_rest_fd.
  - intros a hs' g' k' s HE Hs. split; [by eapply rest_files|]. rewrite own_put_files, Ho. apply HE.
Qed.
Lemma quiet_in_fs {A} (m : M (fs pmem) A) : Tame true m -> quiet i (Proc.in_fs m).
Proof.
  intros Hm hs h k Hk. unfold Proc.in_fs. assert (cur k = i) as -> by (unfold cur; by rewrite (proj1 Hk)).
  apply safe_as_process. apply quiet_zoom; [|done|done]. intros t k'. by apply same_put_files.
Qed.

End files.

(** [quiet] follows the text of a function, as [tame] does. *)
Create HintDb quiet discriminated.
#[export] Hint Resolve quiet_ret quiet_gets quiet_diverge quiet_ub : quiet.
Lemma same_mem m k : same k (Kern.set_mem m k).
Proof. done. Qed.
Lemma same_plock j b k : same k (lset (L_plock j) b k).
Proof. by apply same_upd. Qed.
Lemma same_nfs f k : same k (lset L_nfs f k).
Proof. apply same_put_files. done. Qed.
#[export] Hint Resolve same_mem same_plock same_nfs : quiet.
Ltac solve_same := first [by auto with quiet | by intros; split | by intros; apply same_upd].
Ltac quiet_step :=
  lazymatch goal with
  | |- forall _, _ => intros ?
  | |- quiet _ (bind myproc _) => apply quiet_myproc
  | |- quiet _ (bind _ _) => apply quiet_bind
  | |- quiet _ (match ?x with _ => _ end) => destruct x
  | |- quiet _ (zoom _ _) => apply quiet_zoom; [solve_same|tame]
  | |- quiet _ (modify _) => apply quiet_modify; solve_same
  | |- quiet _ (upd_proc _ _) => by apply quiet_upd
  | |- quiet _ (panic _) => apply quiet_panic; by split
  | |- quiet _ (lock_acquire _) => apply quiet_acquire; solve_same
  | |- quiet _ (lock_release _) => apply quiet_release; solve_same
  | |- quiet _ (for_range _ _ _) => apply quiet_for_range
  | |- quiet _ (string_op _ _) => apply quiet_string_op; tame
  | |- quiet _ (in_mem _) => unfold in_mem
  | |- quiet _ (Proc.in_fs _) => apply quiet_in_fs; tame
  | |- quiet _ (Proc.in_files _) => apply quiet_in_files; steady
  | |- quiet _ _ => solve [auto with quiet]
  end.
Ltac quiet := repeat (quiet_step; cbn beta zeta).
