(* ===== verification/ProcRefs.v ===== *)
(** * Reference counts of open files: processes, exec and traps

   Every entry of a process into the kernel (kernel/trap.c, syscall.c,
   sysproc.c, exec.c and proc.c) keeps the counts of KernRefs.v: most code
   leaves files and descriptors alone; fork() gives its child a reference to
   every open file, exit() gives all of them up, and wait() and a failed
   fork() free only processes that have none. *)

From stdpp Require Import base numbers list gmap strings.
From Stdlib Require Import ZArith Lia.
From S2P Require Import Prelude Params Cmem KString UserMem Kalloc Vm Fs Pipe Console File Sysfile Kern Proc Exec.
From S2P Require Import Syscall Trap Tame FileRefs SysRefs KernRefs.

#[export] Instance tame_pmem kend : TameUser pmem (H := pmem_user kend).
Proof. split; intros; intros p; simpl; apply tame_zoom; tame. Qed.
#[export] Instance tame_pmem_pages kend : TamePages pmem (H := pmem_pages kend).
Proof. split; intros; simpl; tame. Qed.

(** The same instances under the names the files give them. *)
#[export] Instance tame_proc_user kend : TameUser pmem (H := proc_user kend) := tame_pmem kend.
#[export] Instance tame_exec_user kend : TameUser pmem (H := exec_user kend) := tame_pmem kend.
#[export] Instance tame_sc_user kend : TameUser pmem (H := sc_user kend) := tame_pmem kend.
#[export] Instance tame_tr_user kend : TameUser pmem (H := tr_user kend) := tame_pmem kend.
#[export] Instance tame_proc_pages kend : TamePages pmem (H := proc_pages kend) := tame_pmem_pages kend.
#[export] Instance tame_exec_pages kend : TamePages pmem (H := exec_pages kend) := tame_pmem_pages kend.
#[export] Instance tame_sc_pages kend : TamePages pmem (H := sc_pages kend) := tame_pmem_pages kend.
#[export] Instance tame_tr_pages kend : TamePages pmem (H := tr_pages kend) := tame_pmem_pages kend.

Section quiet.
Context `{WakeBudget} (kend trampoline forkret : Z) (stack : list Z) (i : nat).

#[local] Existing Instance proc_user.
#[local] Existing Instance proc_pages.

Notation quiet := (quiet i).

Lemma quiet_tf_get j off : quiet (tf_get j off).
Proof. intros hs h k. unfold tf_get. apply (quiet_zoom i L_mem); [solve_same|tame]. Qed.
Lemma quiet_tf_put j off v : quiet (tf_put j off v).
Proof. intros hs h k. unfold tf_put. apply (quiet_zoom i L_mem); [solve_same|tame]. Qed.
Hint Resolve quiet_tf_get quiet_tf_put : quiet.
Lemma quiet_tf_args j off n : quiet (tf_args j off n).
Proof. revert off. induction n; intros; simpl; quiet. Qed.
Hint Resolve quiet_tf_args : quiet.

Lemma quiet_call {A} (m : M (sys pmem) A) : calm m -> quiet (call m).
Proof.
  intros Hm hs h k Hk. unfold call. assert (cur k = i) as -> by (unfold cur; by rewrite (proj1 Hk)).
  apply safe_as_process. unfold in_sys. revert hs h k Hk. apply quiet_myproc. apply quiet_bind; [quiet|].
  intros args. by apply quiet_sys.
Qed.

(** kernel/proc.c *)
Lemma quiet_allocpid : quiet allocpid.
Proof. unfold allocpid. quiet. Qed.
Lemma quiet_proc_pagetable j : quiet (proc_pagetable kend trampoline j).
Proof. unfold proc_pagetable. quiet. Qed.
Lemma quiet_proc_freepagetable pt sz : quiet (proc_freepagetable kend pt sz).
Proof. unfold proc_freepagetable. quiet. Qed.
Hint Resolve quiet_allocpid quiet_proc_pagetable quiet_proc_freepagetable : quiet.
Lemma quiet_growproc n : quiet (growproc kend n).
Proof. unfold growproc. quiet. Qed.
Lemma quiet_sched : quiet sched.
Proof.
  intros hs h k Hk. unfold sched. do 4 (case_match; [done|]). split; [done|]. right. exists h. split; [done|].
  by intros hs' k' E Hk'.
Qed.
Hint Resolve quiet_sched : quiet.
Lemma quiet_yield : quiet yield.
Proof.
  unfold yield. apply quiet_myproc. apply quiet_bind; [quiet|]. intros []. apply quiet_bind; [by apply quiet_upd_own|].
  quiet.
Qed.
Lemma quiet_sleep c (lk : lens kern bool) : (forall b k, same k (lset lk b k)) -> quiet (sleep c lk).
Proof.
  intros Hlk. unfold sleep. apply quiet_myproc. apply quiet_bind; [quiet|]. intros [].
  apply quiet_bind; [by apply quiet_release|]. intros []. apply quiet_bind; [quiet|]. intros [].
  apply quiet_bind; [by apply quiet_upd_own|]. intros []. quiet.
Qed.
Lemma quiet_wakeup c : quiet (wakeup c).
Proof. unfold wakeup. quiet. apply quiet_upd. apply wake_phase. Qed.
Hint Resolve quiet_growproc quiet_yield quiet_wakeup : quiet.
Lemma quiet_reparent j : quiet (reparent j).
Proof. unfold reparent. quiet. Qed.
Lemma quiet_killed j : quiet (killed j).
Proof. unfold killed. quiet. Qed.
Lemma quiet_setkilled j : quiet (setkilled j).
Proof. unfold setkilled. quiet. Qed.
Hint Resolve quiet_reparent quiet_killed quiet_setkilled : quiet.

(** A step that reads what it changes: the rest runs from there. *)
Lemma quiet_after {A} (m : M kern A) hs h k k' : w_inv (Wk false i) hs h k -> same k k' -> quiet m ->
  safe (Wk false i) (fun _ hs' k2 => w_inv (Wk false i) hs' h k2 /\ own i k2 = own i k) hs k (m k').
Proof.
  intros Hk Hs Hm. apply (safe_from _ _ _ _ k'); [by apply same_guar|].
  eapply safe_mono; [|by apply Hm; eapply same_inv]. intros a hs' k2 [? E]. by rewrite <- (sm_own _ _ Hs).
Qed.

(** kkill(): a sleeper becomes runnable. *)
Lemma quiet_kill_loop n j pid : quiet (kill_loop n j pid).
Proof.
  revert j. induction n as [|n IH]; intros j; simpl; [apply quiet_ret|]. apply quiet_bind; [quiet|]. intros [] hs h k Hk.
  unfold bind at 1. simpl. destruct (p_pid (getp j k) =? pid).
  - set (k1 := set_procs (alter (pset_killed 1) j) k). assert (same k k1) as Hs by (by apply same_upd).
    assert (forall k2, same k k2 -> safe (Wk false i) (fun _ hs' k' => w_inv (Wk false i) hs' h k' /\ own i k' = own i k)
      hs k ((lock_release (L_plock j) ;; ret 0) k2)) as Hr.
    { intros k2 Hs2. apply quiet_after; [done..|]. quiet. }
    unfold bind at 1. simpl. case_decide as Hsl.
    + unfold bind at 1. simpl. apply Hr. etrans; [exact Hs|]. apply same_upd. intros p Hp. split; [done|].
      unfold k1 in Hp. simpl in Hp. rewrite list_lookup_alter_eq in Hp. unfold getp in Hsl.
      destruct (n_proc k !! j) as [q|]; [|done]. simplify_eq/=. unfold phase_of. simpl. by rewrite Hsl.
    + unfold bind at 1. simpl. by apply Hr.
  - revert hs h k Hk. apply quiet_bind; [quiet|]. intros []. apply IH.
Qed.
Lemma quiet_kkill pid : quiet (kkill pid).
Proof. apply quiet_kill_loop. Qed.

Hint Resolve quiet_kkill : quiet.

(** kernel/exec.c *)
Lemma quiet_loadseg pt va ip off sz : quiet (loadseg kend pt va ip off sz).
Proof.
  unfold loadseg. generalize 0. generalize (Z.to_nat (sz / PGSIZE + 1)). intros n.
  induction n; intros; cbn [loadseg_loop]; quiet.
Qed.
Hint Resolve quiet_loadseg : quiet.
Lemma quiet_load_loop n ip pt off sz : quiet (load_loop kend n ip pt off sz).
Proof. revert off sz. induction n; intros; cbn [load_loop]; quiet. Qed.
Lemma quiet_copyout_to pt va bs : quiet (copyout_to kend pt va bs).
Proof. unfold copyout_to. quiet. Qed.
Hint Resolve quiet_load_loop quiet_copyout_to : quiet.
Lemma quiet_push_args argv argc pt sp sb us : quiet (push_args kend argv argc pt sp sb us).
Proof. revert argc sp us. induction argv; intros; cbn [push_args]; quiet. Qed.
Lemma quiet_set_pname j path : quiet (set_pname j path).
Proof. unfold set_pname. quiet. Qed.
Lemma quiet_exec_bad pt sz ip : quiet (exec_bad kend pt sz ip).
Proof. unfold exec_bad. quiet. Qed.
Hint Resolve quiet_push_args quiet_set_pname quiet_exec_bad : quiet.
Lemma quiet_exec_commit path argv e pt sz : quiet (exec_commit kend path argv e pt sz).
Proof. unfold exec_commit. quiet. Qed.
Hint Resolve quiet_exec_commit : quiet.
Lemma quiet_kexec path argv : quiet (kexec kend trampoline stack path argv).
Proof. unfold kexec. quiet. Qed.
Hint Resolve quiet_kexec : quiet.
Lemma quiet_free_args argv : quiet (free_args kend argv).
Proof. induction argv; cbn [free_args]; quiet. Qed.
Lemma quiet_fetch_args n a z argv : quiet (fetch_args kend n a z argv).
Proof.
  revert z argv. induction n; intros; cbn [fetch_args]; quiet; apply quiet_call; auto with calm.
Qed.
Hint Resolve quiet_free_args quiet_fetch_args : quiet.
Lemma quiet_sys_exec : quiet (sys_exec kend trampoline stack).
Proof. unfold sys_exec. quiet; apply quiet_call; auto with calm. Qed.

(** kernel/sysproc.c *)
Lemma quiet_argint n : quiet (call (argint n)).
Proof. apply quiet_call. auto with calm. Qed.
Lemma quiet_argaddr n : quiet (call (argaddr n)).
Proof. apply quiet_call. auto with calm. Qed.
Hint Resolve quiet_argint quiet_argaddr : quiet.
Lemma quiet_sys_getpid : quiet sys_getpid.
Proof. unfold sys_getpid. quiet. Qed.
Lemma quiet_sys_sbrk : quiet (sys_sbrk kend).
Proof. unfold sys_sbrk. quiet. Qed.
Lemma quiet_sys_pause : quiet sys_pause.
Proof.
  assert (quiet (sleep ChTicks L_tickslock)) by (by apply quiet_sleep).
  assert (forall n t z, quiet (pause_loop n t z)) by (intros n; induction n; intros; cbn [pause_loop]; quiet).
  unfold sys_pause. quiet.
Qed.
Lemma quiet_sys_kill : quiet sys_kill.
Proof. unfold sys_kill. quiet. Qed.
Lemma quiet_sys_uptime : quiet sys_uptime.
Proof. unfold sys_uptime. quiet. Qed.

(** kernel/trap.c *)
Lemma quiet_prepare_return uservec usertrap_addr : quiet (prepare_return trampoline uservec usertrap_addr).
Proof. unfold prepare_return, intr_off, csr. quiet. Qed.
Lemma quiet_clockintr : quiet clockintr.
Proof. unfold clockintr, csr. quiet. Qed.
Hint Resolve quiet_clockintr : quiet.
Lemma quiet_devintr (plic_claim : M kern Z) (plic_complete : Z -> M kern unit) (virtio_disk_intr : M kern unit) :
  quiet plic_claim -> (forall z, quiet (plic_complete z)) -> quiet virtio_disk_intr ->
  quiet (devintr plic_claim plic_complete virtio_disk_intr).
Proof. intros. unfold devintr, external_intr, csr. quiet. Qed.

End quiet.
#[export] Hint Resolve quiet_tf_get quiet_tf_put quiet_tf_args quiet_allocpid quiet_proc_pagetable
  quiet_proc_freepagetable quiet_growproc quiet_sched quiet_yield quiet_wakeup quiet_reparent quiet_killed
  quiet_setkilled quiet_kkill quiet_kexec quiet_sys_exec quiet_argint quiet_argaddr quiet_sys_getpid quiet_sys_sbrk
  quiet_sys_pause quiet_sys_kill quiet_sys_uptime quiet_prepare_return quiet_clockintr : quiet.
