(* ===== verification/LifeRefs.v ===== *)
(** * Reference counts of open files: fork, exit and wait

   fork() gives its child a reference to every open file, exit() gives all
   of them up, and wait() and a failed fork() free only processes that have
   none. *)

From stdpp Require Import base numbers list gmap strings.
From Stdlib Require Import ZArith Lia.
From S2P Require Import Prelude Params Cmem KString UserMem Kalloc Vm Fs Pipe Console File Sysfile Kern Proc Exec.
From S2P Require Import Syscall Trap Tame FileRefs SysRefs KernRefs ProcRefs.

(* ------------------------------------------------------------------ *)
(** ** Code that neither sleeps nor touches files and descriptors *)

Definition still {A} (m : M kern A) : Prop := Tame false m /\ forall k a k', m k = Ok a k' -> same k k'.

Lemma still_ret {A} (a : A) : still (ret a).
Proof. split; [tame|]. by intros k b k' [= -> ->]. Qed.
Lemma still_gets {A} (f : kern -> A) : still (gets f).
Proof. split; [tame|]. by intros k b k' [= <- ->]. Qed.
Lemma still_panic {A} msg : elsewhere msg -> still (@panic _ A msg).
Proof. intros. split; [by apply tame_panic|done]. Qed.
Lemma still_ub {A} msg : still (@ub _ A msg).
Proof. split; [tame|done]. Qed.
Lemma still_modify f : (forall k, same k (f k)) -> still (modify f).
Proof. intros Hf. split; [tame|]. intros k b k' [= <- <-]. apply Hf. Qed.
Lemma still_upd j f : (forall p, p_ofile (f p) = p_ofile p /\ phase_of (f p) = phase_of p) -> still (upd_proc j f).
Proof. intros Hf. apply still_modify. intros k. apply same_upd. auto. Qed.
Lemma still_bind {A B} (m : M kern A) (f : A -> M kern B) : still m -> (forall a, still (f a)) -> still (bind m f).
Proof.
  intros [Tm Hm] Hf. split; [apply tame_bind; [done|apply Hf]|]. intros k b k' E.
  apply bind_Ok_inv in E as (a & k1 & E1 & E2). etrans; [by eapply Hm|]. by eapply Hf.
Qed.
Lemma still_zoom {T A} (l : lens kern T) (m : M T A) : (forall t k, same k (lset l t k)) -> Tame false m -> still (zoom l m).
Proof.
  intros Hl Hm. split; [by apply tame_zoom|]. intros k a k'. unfold zoom. destruct (m (lget l k)); simpl; try done.
  by intros [= -> <-].
Qed.
Lemma still_acquire (l : lens kern bool) : (forall b k, same k (lset l b k)) -> still (lock_acquire l).
Proof. intros Hl. split; [tame|]. intros k a k'. unfold lock_acquire. destruct (lget l k); [done|]. by intros [= <- <-]. Qed.
Lemma still_release (l : lens kern bool) : (forall b k, same k (lset l b k)) -> still (lock_release l).
Proof. intros Hl. split; [tame|]. intros k a k'. unfold lock_release. destruct (lget l k); [|done]. by intros [= <- <-]. Qed.
Lemma still_string_op {A} (m : M mem A) arg : Tame false m -> still (string_op m arg).
Proof.
  intros Hm. split; [by apply tame_string_op|]. intros k a k'. unfold string_op. destruct (m arg); [|done..]. by intros [= <- <-].
Qed.
Lemma still_in_fs {A} (m : M (fs pmem) A) : Tame false m -> still (Proc.in_fs m).
Proof.
  intros Hm. destruct (still_zoom L_nfs m (fun f k => same_nfs f k) Hm) as [Ht Hs]. unfold Proc.in_fs. split.
  - intros k. specialize (Ht k). destruct (zoom L_nfs m k); simpl in *; try done. by destruct Ht.
  - intros k a k' E. apply (Hs k a). specialize (Ht k). destruct (zoom L_nfs m k); simpl in *; try done.
Qed.

Create HintDb still discriminated.
#[export] Hint Resolve still_ret still_gets still_ub : still.
Ltac still_step :=
  lazymatch goal with
  | |- forall _, _ => intros ?
  | |- still (bind _ _) => apply still_bind
  | |- still (match ?x with _ => _ end) => destruct x
  | |- still (zoom _ _) => apply still_zoom; [solve_same|tame]
  | |- still (modify _) => apply still_modify; solve_same
  | |- still (upd_proc _ _) => by apply still_upd
  | |- still (panic _) => apply still_panic; by split
  | |- still (lock_acquire _) => apply still_acquire; solve_same
  | |- still (lock_release _) => apply still_release; solve_same
  | |- still (string_op _ _) => apply still_string_op; tame
  | |- still (in_mem _) => unfold in_mem
  | |- still (Proc.in_fs _) => apply still_in_fs; tame
  | |- still _ => solve [auto with still]
  end.
Ltac still := repeat (still_step; cbn beta zeta).

Section still.
Context (kend trampoline : Z).

Lemma still_tf_put j off v : still (tf_put j off v).
Proof.
  assert (forall a, still (zoom L_mem (wr64 a v))) as Hs by (intros; still). unfold tf_put. split.
  - intros k. apply Hs.
  - intros k a k'. apply Hs.
Qed.
Lemma still_allocpid : still allocpid.
Proof. unfold allocpid. still. Qed.
Lemma still_proc_pagetable j : still (proc_pagetable kend trampoline j).
Proof. unfold proc_pagetable. still. Qed.
Lemma still_proc_freepagetable pt sz : still (proc_freepagetable kend pt sz).
Proof. unfold proc_freepagetable. still. Qed.
Lemma still_copy_name a b : still (copy_name a b).
Proof. unfold copy_name. still. Qed.
Lemma still_copyout_xstate p pp addr : still (copyout_xstate kend p pp addr).
Proof. unfold copyout_xstate. still. Qed.
End still.
#[export] Hint Resolve still_tf_put still_allocpid still_proc_pagetable still_proc_freepagetable still_copy_name
  still_copyout_xstate : still.

Section seq.
Context (i : nat).
Notation W := (Wk false i).

(** A still call and what follows it. *)
Lemma safe_still {A B} (m : M kern A) (f : A -> M kern B) Q hs k : still m ->
  (forall a k', same k k' -> safe W Q hs k' (f a k')) -> safe W Q hs k (bind m f k).
Proof.
  intros [Ht Hs] Hf. unfold bind. specialize (Ht k). destruct (m k) as [a k'|msg|c k' r|] eqn:E; simpl in *; try done.
  - apply (safe_from _ _ _ _ k'); [by eapply same_guar, Hs|]. by eapply Hf, Hs.
  - by destruct Ht.
Qed.

Lemma safe_stills {A B} k0 (m : M kern A) (f : A -> M kern B) Q hs k : same k0 k -> still m ->
  (forall a k', same k0 k' -> safe W Q hs k' (f a k')) -> safe W Q hs k (bind m f k).
Proof. intros Hs Hm Hf. apply safe_still; [done|]. intros a k' Hs'. apply Hf. by etrans. Qed.

Lemma safe_seq_quiet {A B} e (m : M kern A) (f : A -> M kern B) Q hs h k : quiet i m -> w_inv W hs h k ->
  (forall a hs' k', w_inv W hs' h k' -> own i k' = own i k -> safe (Wk e i) Q hs' k' (f a k')) ->
  safe (Wk e i) Q hs k (bind m f k).
Proof.
  intros Hm Hk Hf. eapply (safe_seq (Wk e i)).
  - pose proof (Hm hs h k Hk) as Hs. destruct e; [apply safe_end|]; exact Hs.
  - intros a hs' k' [Hk' Ho]. by apply Hf.
Qed.

End seq.

(** Run through still code from [k0] on, keeping [same k0]. *)
Ltac stills k0 Hs :=
  repeat (lazymatch goal with
    | |- safe (Wk false ?i) _ _ _ (bind _ _ ?k) =>
        apply (safe_stills i k0); [exact Hs|still|];
        let a := fresh "a" in let k1 := fresh "k" in clear Hs; try clear k; intros a k1 Hs; cbn beta
    end).

(** Run through quiet code, keeping the invariant and the process's own
    descriptors. *)
Ltac quiets Hk Hoi :=
  repeat (lazymatch type of Hk with w_inv (Wk false ?i) ?hs ?h ?k =>
    lazymatch goal with |- safe (Wk ?e i) _ hs k (bind _ _ k) =>
      apply (safe_seq_quiet i e) with h; [quiet|exact Hk|];
      let a := fresh "a" in let hs' := fresh "hs" in let k' := fresh "k" in let Hk' := fresh "Hk" in let Ho' := fresh "Ho" in
      intros a hs' k' Hk' Ho'; rewrite Hoi in Ho'; clear Hk Hoi; try clear hs k; rename Ho' into Hoi; rename Hk' into Hk;
      cbn beta
    end end).

Section life.
Context `{WakeBudget} (kend trampoline forkret : Z) (stack : list Z) (i : nat).

Notation W := (Wk false i).

Definition blank : list (option nat) := replicate (Z.to_nat NOFILE) None.
Definition phase_st (st : procstate) : phase :=
  match st with UNUSED | ZOMBIE => Gone | USED => Making | _ => Alive end.

Lemma own_upd_state n st k ofs ph j : own n k = Some (ofs, ph) ->
  own j (set_procs (alter (pset_state st) n) k) = if decide (j = n) then Some (ofs, phase_st st) else own j k.
Proof.
  intros Hn. apply own_lookup in Hn as (p & Hp & <- & <-). unfold own. simpl. case_decide as Hj.
  - subst j. rewrite list_lookup_alter_eq, Hp. simpl. by destruct st.
  - by rewrite list_lookup_alter_ne.
Qed.

(** A process that is not running changes phase: it holds nothing, and a
    slot is given back only without descriptors. *)
Lemma kcounts_phase n st hs k ofs ph : kcounts hs k -> own n k = Some (ofs, ph) ->
  (forall f, hs n f = 0) -> (phase_st st = Gone -> ofs = blank) -> kcounts hs (set_procs (alter (pset_state st) n) k).
Proof.
  intros [H1 H2 H3 H4 H5 H6 H7] Hn Hh Hb. set (k' := set_procs _ k).
  assert (forall j p, n_proc k' !! j = Some p -> exists q, n_proc k !! j = Some q /\ p_ofile p = p_ofile q /\
    (j <> n -> phase_of p = phase_of q) /\ (j = n -> phase_of p = phase_st st /\ p_ofile p = ofs)) as Hp.
  { intros j p Hj. apply own_lookup in Hn as (pn & Hpn & <- & _). unfold k' in Hj. simpl in Hj.
    destruct (decide (j = n)) as [->|Hne].
    - rewrite list_lookup_alter_eq, Hpn in Hj. injection Hj as <-. exists pn. by split_and!.
    - rewrite list_lookup_alter_ne in Hj by done. exists p. by split_and!. }
  split; try done.
  - simpl. by rewrite length_alter.
  - intros f. change (fref f (n_files k') = total f hs (n_proc k')). unfold total. rewrite (shares_ext f hs (n_proc k)).
    { apply (H3 f). }
    intros j. unfold k'. simpl. destruct (decide (j = n)) as [->|]; [|by rewrite list_lookup_alter_ne].
    rewrite list_lookup_alter_eq. by destruct (n_proc k !! n).
  - intros j p Hj. destruct (Hp j p Hj) as (q & Hq & -> & _). by eapply H4.
  - intros j p f Hj. destruct (Hp j p Hj) as (q & Hq & -> & _). by apply H5.
  - intros j p Hj Hg. destruct (Hp j p Hj) as (q & Hq & E & Hne & He). destruct (decide (j = n)) as [->|].
    + destruct (He eq_refl) as [Est ->]. apply Hb. congruence.
    + rewrite E. eapply H6; [done|]. by rewrite <- Hne.
  - intros j p f Hj Hg. destruct (Hp j p Hj) as (q & Hq & E & Hne & _). destruct (decide (j = n)) as [->|]; [done|].
    eapply H7; [done|]. by rewrite <- Hne.
Qed.

(** The same, seen by the running process. *)
Lemma inv_phase n st hs h k ofs ph : n <> i -> w_inv W hs h k -> own n k = Some (ofs, ph) -> ph <> Alive ->
  (phase_st st = Gone -> ofs = blank) ->
  let k' := set_procs (alter (pset_state st) n) k in
  w_inv W hs h k' /\ w_guar W k k' /\ own i k' = own i k /\ own n k' = Some (ofs, phase_st st).
Proof.
  intros Hni (Hc & [ofi Ha] & Hk) Hn Hph Hb k'. pose proof (own_upd_state n st k ofs ph) as Eo. split_and!.
  - split; [done|]. split; [exists ofi; unfold k'; by rewrite (Eo _ Hn), decide_False by congruence|].
    eapply kcounts_phase; [done..| |done]. intros f. pose proof Hn as (p & Hp & _ & Ep)%own_lookup.
    eapply kc_idle; [done..|congruence].
  - intros j Hj [ofj Haj]. unfold k'. rewrite (Eo _ Hn), decide_False; [done|]. intros ->. congruence.
  - unfold k'. by rewrite (Eo _ Hn), decide_False by congruence.
  - unfold k'. by rewrite (Eo _ Hn), decide_True.
Qed.

(** freeproc() of a process without descriptors. *)
Lemma safe_freeproc {B} n (f : unit -> M kern B) Q hs h k ph : n <> i -> w_inv W hs h k -> own n k = Some (blank, ph) ->
  ph <> Alive ->
  (forall k', w_inv W hs h k' -> own i k' = own i k -> safe W Q hs k' (f tt k')) ->
  safe W Q hs k (bind (freeproc kend n) f k).
Proof.
  intros Hni Hk Hn Hph Hf. eapply (safe_seq W (fun _ hs' k' => hs' = hs /\ w_inv W hs h k' /\ own i k' = own i k)).
  2:{ intros [] hs' k' (-> & ? & ?). by apply Hf. }
  unfold freeproc.
  assert (same k k) as Hs by done. stills k Hs.
  destruct (inv_phase n UNUSED hs h k1 blank ph) as (Hk' & Hg & Ho & _); [done|by eapply same_inv| |done|done|].
  { by rewrite (sm_own _ _ Hs). }
  split; [done|]. split_and!; [done..|]. by rewrite Ho, (sm_own _ _ Hs).
Qed.

Lemma still_find_unused n j : still (find_unused n j).
Proof. revert j. induction n; intros j; cbn [find_unused]; still. Qed.
Lemma find_unused_spec n j k m k' : find_unused n j k = Ok (Some m) k' -> (m < j + n)%nat /\ p_state (getp m k') = UNUSED.
Proof.
  revert j k. induction n as [|n IH]; intros j k; cbn [find_unused]; [done|]. intros E.
  apply bind_Ok_inv in E as ([] & k1 & E1 & E). apply bind_Ok_inv in E as (p & k2 & [= <- <-] & E).
  case_decide as Hd.
  - injection E as <- <-. split; [lia|done].
  - apply bind_Ok_inv in E as ([] & k3 & E3 & E). apply IH in E as [? ?]. split; [lia|done].
Qed.

Lemma gone_own n k : length (n_proc k) = Z.to_nat NPROC -> (n < Z.to_nat NPROC)%nat -> phase_of (getp n k) = Gone ->
  own n k = Some (p_ofile (getp n k), Gone).
Proof.
  intros Hl Hn Hp. unfold own, getp in *. destruct (lookup_lt_is_Some_2 (n_proc k) n) as [p E]; [lia|].
  rewrite E in *. simpl in *. by rewrite Hp.
Qed.
Lemma gone_blank n hs h k ofs : w_inv W hs h k -> own n k = Some (ofs, Gone) -> ofs = blank /\ n <> i.
Proof.
  intros (_ & [ofi Ha] & Hk) Hn. split; [|congruence]. apply own_lookup in Hn as (p & Hp & <- & E). by eapply kc_gone.
Qed.

Lemma safe_phase {B} n st (f : unit -> M kern B) Q hs h k ofs ph : n <> i -> w_inv W hs h k -> own n k = Some (ofs, ph) ->
  ph <> Alive -> (phase_st st = Gone -> ofs = blank) ->
  (forall k', w_inv W hs h k' -> own i k' = own i k -> own n k' = Some (ofs, phase_st st) -> safe W Q hs k' (f tt k')) ->
  safe W Q hs k (bind (upd_proc n (pset_state st)) f k).
Proof.
  intros Hni Hk Hn Hph Hb Hf. destruct (inv_phase n st hs h k ofs ph) as (Hk' & Hg & Ho & Hn'); [done..|].
  unfold bind. simpl. apply (safe_from W _ hs _ _ _ Hg). by apply Hf.
Qed.

(** A child that could not be made is given back. *)
Lemma safe_undo {A} n (a : A) Q hs h k : n <> i -> w_inv W hs h k -> own n k = Some (blank, Making) ->
  (forall k', w_inv W hs h k' -> own i k' = own i k -> Q a hs k') ->
  safe W Q hs k ((freeproc kend n ;; lock_release (L_plock n) ;; ret a) k).
Proof.
  intros Hni Hk Hn HQ. eapply safe_freeproc; [done..|]. intros k1 Hk1 Ho. apply safe_still; [still|].
  intros [] k2 Hs. split; [done|]. apply HQ; [by eapply same_inv|]. by rewrite (sm_own _ _ Hs).
Qed.

(** allocproc(): no process, or a new one without descriptors. *)
Lemma safe_allocproc {B} (f : option nat -> M kern B) Q hs h k : w_inv W hs h k ->
  (forall k', w_inv W hs h k' -> own i k' = own i k -> safe W Q hs k' (f None k')) ->
  (forall n k', w_inv W hs h k' -> own i k' = own i k -> n <> i -> own n k' = Some (blank, Making) ->
     safe W Q hs k' (f (Some n) k')) ->
  safe W Q hs k (bind (allocproc kend trampoline forkret) f k).
Proof.
  intros Hk HN HS. eapply (safe_seq W (fun r hs' k' => hs' = hs /\ w_inv W hs h k' /\ own i k' = own i k /\
    match r with Some n => n <> i /\ own n k' = Some (blank, Making) | None => True end)).
  2:{ intros [n|] hs' k' (-> & ? & ? & Hn); [destruct Hn|]; auto. }
  unfold allocproc. eapply (safe_seq W (fun r hs' k' => hs' = hs /\ same k k' /\
    match r with Some n => (n < Z.to_nat NPROC)%nat /\ p_state (getp n k') = UNUSED | None => True end)).
  { destruct (still_find_unused (Z.to_nat NPROC) 0) as [Ht Hs]. apply safe_calm; [done|]. intros r k' E.
    pose proof (Hs _ _ _ E). split; [by apply same_guar|]. split_and!; [done..|]. destruct r as [n|]; [|done].
    by apply find_unused_spec in E. }
  intros [n|] hs' k1 (-> & Hs & Hn); cbn beta.
  2:{ split; [done|]. split_and!; [done|by eapply same_inv|apply Hs|done]. }
  destruct Hn as [Hn Hu]. assert (w_inv W hs h k1) as Hk1 by by eapply same_inv.
  assert (own n k1 = Some (p_ofile (getp n k1), Gone)) as Hg.
  { apply gone_own; [apply (kc_procs _ _ (proj2 (proj2 Hk1)))|done|]. unfold phase_of. by rewrite Hu. }
  destruct (gone_blank n hs h k1 _ Hk1 Hg) as [Eb Hni]. rewrite Eb in Hg. clear Eb Hu.
  assert (own i k1 = own i k) as Ho1 by apply Hs. clear Hs Hk HN HS.
  assert (same k1 k1) as Hs by done. stills k1 Hs.
  assert (w_inv W hs h k2) as Hk2 by by eapply same_inv. rewrite <- (sm_own _ _ Hs n) in Hg.
  rewrite <- (sm_own _ _ Hs i) in Ho1. clear Hs Hk1.
  eapply safe_phase; [done..|]. intros k3 Hk3 Ho3 Hn3. rewrite Ho1 in Ho3. clear Hk2 Hg Ho1.
  assert (same k3 k3) as Hs by done. stills k3 Hs. destruct (a1 =? 0).
  { rewrite <- (sm_own _ _ Hs) in Ho3, Hn3. eapply safe_undo; [done|by eapply same_inv|done|].
    intros k5 Hk5 Ho5. split_and!; [done..| |done]. by rewrite Ho5. }
  stills k3 Hs. destruct (a3 =? 0).
  { rewrite <- (sm_own _ _ Hs) in Ho3, Hn3. eapply safe_undo; [done|by eapply same_inv|done|].
    intros k7 Hk7 Ho7. split_and!; [done..| |done]. by rewrite Ho7. }
  stills k3 Hs. split; [done|]. rewrite <- (sm_own _ _ Hs) in Ho3, Hn3. split_and!; [done|by eapply same_inv|done..].
Qed.

(** The running process gives a reference in its hands to a descriptor of
    the child it makes. *)
Lemma kcounts_give n z f hs h k ofs : n <> i -> kcounts (upd i (plus h (one f)) hs) k -> own n k = Some (ofs, Making) ->
  ofs !! z = Some None -> alive i k -> (forall p x, n_proc k !! i = Some p -> 0 <= fds x (p_ofile p) + h x) ->
  kcounts (upd i h hs) (set_procs (alter (fun x => pset_ofile (<[z := Some f]> (p_ofile x)) x) n) k).
Proof.
  intros Hni Hk Hn Hz (ofi & (pi & Hpi & _ & Hal)%own_lookup) Hi. destruct Hk as [H1 H2 H3 H4 H5 H6 H7]. apply own_lookup in Hn as (pn & Hpn & <- & Hph).
  set (g := fun x => pset_ofile _ x). set (k' := set_procs (alter g n) k).
  assert (forall j p, n_proc k' !! j = Some p -> j <> n /\ n_proc k !! j = Some p \/ j = n /\ p = g pn) as Hp.
  { intros j p. unfold k'. simpl. destruct (decide (j = n)) as [->|].
    - rewrite list_lookup_alter_eq, Hpn. intros [= <-]. by right.
    - rewrite list_lookup_alter_ne by done. by left. }
  assert (forall x, fds x (<[z := Some f]> (p_ofile pn)) = fds x (p_ofile pn) + one f x) as Hf.
  { intros x. rewrite (fds_insert _ _ z None) by done. rewrite names_None, names_Some. lia. }
  assert (forall x, hs n x = 0) as Hhn.
  { intros x. specialize (H7 n pn x Hpn). rewrite upd_ne in H7 by done. apply H7. by rewrite Hph. }
  split; try done.
  - unfold k'. simpl. by rewrite length_alter.
  - intros x. change (fref x (n_files k) = total x (upd i h hs) (n_proc k')). rewrite (H3 x).
    assert (shares x (upd i h hs) (n_proc k') = <[n := fds x (p_ofile pn) + one f x]>
      (<[i := fds x (p_ofile pi) + h x]> (shares x (upd i (plus h (one f)) hs) (n_proc k)))) as Es.
    { apply list_eq. intros j. unfold shares. rewrite list_lookup_imap. unfold k'. simpl.
      assert (length (imap (fun j p => fds x (p_ofile p) + upd i (plus h (one f)) hs j x) (n_proc k)) = length (n_proc k)) as El
        by apply length_imap.
      pose proof (lookup_lt_Some _ _ _ Hpn). pose proof (lookup_lt_Some _ _ _ Hpi).
      destruct (decide (j = n)) as [->|Hjn]; [|rewrite list_lookup_alter_ne, list_lookup_insert_ne by done].
      - rewrite list_lookup_alter_eq, Hpn, list_lookup_insert_eq by (rewrite length_insert; lia). simpl.
        rewrite Hf, upd_ne, Hhn by done. f_equal. lia.
      - destruct (decide (j = i)) as [->|Hji]; [|rewrite list_lookup_insert_ne by done].
        + rewrite Hpi, list_lookup_insert_eq by lia. simpl. by rewrite upd_eq.
        + rewrite list_lookup_imap. destruct (n_proc k !! j); simpl; [|done]. by rewrite !upd_ne. }
    unfold total. rewrite Es. rewrite (zsum_insert _ n (fds x (p_ofile pn))).
    2:{ rewrite list_lookup_insert_ne by done. rewrite (shares_lookup _ _ _ _ pn) by done. rewrite upd_ne, Hhn by done. f_equal. lia. }
    rewrite (zsum_insert _ i (fds x (p_ofile pi) + h x + one f x)); [lia|].
    rewrite (shares_lookup _ _ _ _ pi) by done. rewrite upd_eq. unfold plus. f_equal. lia.
  - intros j p Hj. destruct (Hp j p Hj) as [[_ Hj']|[-> ->]]; [by eapply H4|]. simpl. rewrite length_insert. by eapply H4.
  - intros j p x Hj. destruct (Hp j p Hj) as [[_ Hj']|[-> ->]].
    + specialize (H5 j p x Hj'). destruct (decide (j = i)) as [->|]; [|by rewrite upd_ne in * by done].
      rewrite upd_eq in *. unfold plus in H5. pose proof (one_range f x). specialize (Hi p x Hj'). lia.
    + rewrite upd_ne, Hhn by done. pose proof (fds_range x (p_ofile (g pn))) as Hr. simpl in *. rewrite length_insert in Hr.
      rewrite (H4 n pn Hpn) in Hr. unfold NOFILE in *. lia.
  - intros j p Hj Hg. destruct (Hp j p Hj) as [[_ Hj']|[-> ->]]; [by eapply H6|]. exfalso.
    change (phase_of (g pn)) with (phase_of pn) in Hg. congruence.
  - intros j p x Hj Hg. destruct (Hp j p Hj) as [[_ Hj']|[-> ->]]; [|by rewrite upd_ne, Hhn].
    specialize (H7 j p x Hj' Hg). destruct (decide (j = i)) as [->|]; [|by rewrite upd_ne in * by done].
    congruence.
Qed.

(** The child [n] of process [i], with the descriptors below [z] copied. *)
Definition making (n : nat) (ofi : list (option nat)) (hs : nat -> hand) (z : Z) (hs' : nat -> hand) (k : kern) : Prop :=
  hs' = hs /\ w_inv W hs none_held k /\ own i k = Some (ofi, Alive) /\
  exists ofs, own n k = Some (ofs, Making) /\
    forall y, (Z.to_nat z <= y < Z.to_nat NOFILE)%nat -> ofs !! y = Some None.

Lemma getp_own j k ofs ph : own j k = Some (ofs, ph) -> p_ofile (getp j k) = ofs /\ phase_of (getp j k) = ph.
Proof. intros (p & Hp & E1 & E2)%own_lookup. unfold getp. by rewrite Hp. Qed.

Lemma in_files_filedup f k : match filedup f (get_files k) with
  | Ok f' s => Proc.in_files (filedup f) k = Ok f' (put_files s k)
  | Panic msg => Proc.in_files (filedup f) k = Panic msg
  | _ => True end.
Proof. unfold Proc.in_files, zoom. simpl. by destruct (filedup f (get_files k)). Qed.

Lemma safe_dup_file n ofi hs z hs' k : n <> i -> 0 <= z < NOFILE -> making n ofi hs z hs' k ->
  safe W (fun _ => making n ofi hs (z + 1)) hs' k (dup_file n i z k).
Proof.
  intros Hni Hz (-> & Hk & Hoi & ofs & Hon & Hfree). unfold dup_file, bind at 1. simpl.
  destruct (getp_own _ _ _ _ Hoi) as [-> _].
  assert (forall y, (Z.to_nat (z + 1) <= y < Z.to_nat NOFILE)%nat -> ofs !! y = Some None) as Hfree' by (intros; apply Hfree; lia).
  destruct (ofi !! Z.to_nat z) as [[f|]|] eqn:Ef; simpl; [|by split; [|split_and!; eauto]..].
  destruct (inv_rest_fd i ofi hs none_held k Hk Hoi) as [HE Hc]. pose proof (fds_elem _ _ _ Ef) as Hge.
  pose proof (fds_range f ofi) as Hrange. rewrite (ct_ofile _ _ _ _ Hc) in Hrange.
  assert (f < Z.to_nat NFILE)%nat as Hfv by (eapply counts_valid; [exact Hc|]; unfold none_held; lia).
  pose proof (ct_others _ _ _ _ Hc f) as Hoth.
  assert (match filedup f (get_files k) with Ok f' s => f' = f /\
    counts ofi (fun f => others i f hs (n_proc k)) (plus none_held (one f)) s | Panic msg => elsewhere msg | _ => False end) as Hd.
  { apply filedup_spec; [done|done|..]; unfold none_held, NOFILE in *; lia. }
  pose proof (in_files_filedup f k) as Hi. unfold bind.
  destruct (filedup f (get_files k)) as [f' s|msg|c t r|]; [|rewrite Hi; done|done|done].
  destruct Hd as [-> Hs]. rewrite Hi. simpl. pose proof (rest_files i ofi hs _ k s _ HE Hs) as (Hc1 & Ha1 & Hk1).
  set (k1 := put_files s k) in *. set (k2 := set_procs _ k1).
  assert (own n k1 = Some (ofs, Making)) as Hon1 by (unfold k1; by rewrite own_put_files).
  assert (own i k1 = Some (ofi, Alive)) as Hoi1 by (unfold k1; by rewrite own_put_files).
  assert (forall j, own j k2 = if decide (j = n) then Some (<[Z.to_nat z := Some f]> ofs, Making) else own j k1) as Ho2.
  { intros j. pose proof Hon1 as (pn & Hpn & <- & Ep)%own_lookup. unfold own, k2. cbn [set_procs n_proc]. case_decide as Hj.
    - subst j. rewrite list_lookup_alter_eq, Hpn. simpl. by rewrite <- Ep.
    - by rewrite list_lookup_alter_ne. }
  assert (own i k2 = Some (ofi, Alive)) as Hoi2 by (by rewrite Ho2, decide_False).
  split.
  { intros j Hj [ofj Haj]. rewrite Ho2. case_decide as Hjn; [congruence|]. unfold k1. apply own_put_files. }
  split_and!; [done| |done|].
  - split; [done|]. split; [by exists ofi|]. eapply kcounts_give; [done|exact Hk1|exact Hon1|apply Hfree; lia|done|].
    intros p x Hp. unfold none_held. pose proof (fds_range x (p_ofile p)). lia.
  - exists (<[Z.to_nat z := Some f]> ofs). split; [by rewrite Ho2, decide_True|].
    intros y Hy. rewrite list_lookup_insert_ne by lia. by apply Hfree'.
Qed.

(** A call that leaves every count exact. *)
Definition kexact {A} (m : M kern A) : Prop := forall hs k, w_inv W hs none_held k ->
  safe (Wk true i) (fun _ hs' k' => w_inv W hs' none_held k') hs k (m k).

Lemma making_same n ofi hs z hs' k k' : making n ofi hs z hs' k -> same k k' -> making n ofi hs z hs' k'.
Proof.
  intros (-> & Hk & Hoi & ofs & Hon & Hf) Hs. split_and!; [done|by eapply same_inv|by rewrite (sm_own _ _ Hs)|].
  exists ofs. by rewrite (sm_own _ _ Hs).
Qed.

Lemma safe_myproc {B} e (f : nat -> M kern B) Q hs k : n_cur k = Some i -> safe (Wk e i) Q hs k (f i k) ->
  safe (Wk e i) Q hs k (bind myproc f k).
Proof. intros Hc Hf. unfold bind, myproc, gets, cur. cbn [out_bind]. by rewrite Hc. Qed.

Lemma kfork_safe hs k : w_inv W hs none_held k ->
  safe W (fun _ hs' k' => w_inv W hs' none_held k') hs k (kfork kend trampoline forkret k).
Proof.
  intros Hk. unfold kfork. apply safe_myproc; [apply Hk|].
  destruct (inv_rest i [] hs none_held k Hk) as (_ & _ & Hoi). set (ofi := y_ofile _) in Hoi.
  eapply safe_allocproc; [done|by intros k1 Hk1 _|]. intros n k1 Hk1 Ho1 Hni Hn1. rewrite Hoi in Ho1.
  assert (making n ofi hs 0 hs k1) as Hm.
  { split_and!; [done..|]. exists blank. split; [done|]. intros y Hy. apply lookup_replicate_2. lia. }
  clear Hk Hoi. assert (same k1 k1) as Hs by done. stills k1 Hs. destruct (a1 <? 0).
  { eapply safe_undo; [done|by eapply same_inv|by rewrite (sm_own _ _ Hs)|]. done. }
  stills k1 Hs. eapply (safe_seq W (fun _ => making n ofi hs NOFILE)).
  { apply (safe_for_range W (making n ofi hs) (Z.to_nat NOFILE) 0).
    - intros z hs' k' Hz Hm'. apply safe_dup_file; [done|lia|done].
    - by eapply making_same. }
  intros [] hs' k' Hm'. cbn beta in Hm'. pose proof Hm' as (-> & _). clear Hs Hm Hk1 Ho1 Hn1.
  assert (same k' k') as Hs by done. stills k' Hs.
  eapply making_same in Hm'; [|exact Hs]. destruct Hm' as (_ & Hk' & Hoi & ofs & Hon & _).
  eapply safe_phase; [done..|]. intros kk Hkk _ _. apply safe_still; [still|]. intros [] kr Hsr.
  split; [done|]. by eapply same_inv.
Qed.

(** The running process stores to one of its descriptors. *)
Lemma inv_ofile z o o' hs h h' k ofs : w_inv W hs h k -> own i k = Some (ofs, Alive) -> ofs !! z = Some o ->
  (forall f, h' f = h f + names f o - names f o') ->
  let k' := set_procs (alter (fun x => pset_ofile (<[z := o']> (p_ofile x)) x) i) k in
  w_inv W hs h' k' /\ w_guar W k k' /\ own i k' = Some (<[z := o']> ofs, Alive).
Proof.
  intros Hk Hoi Hz Hh k'. destruct (inv_rest_fd i ofs hs h k Hk Hoi) as [((Hc & _ & Har & _) & _) Hcn].
  assert (forall j, own j k' = if decide (j = i) then Some (<[z := o']> ofs, Alive) else own j k) as Ho.
  { intros j. pose proof Hoi as (p & Hp & <- & Ep)%own_lookup. unfold own, k'. simpl. case_decide as Hj.
    - subst j. rewrite list_lookup_alter_eq, Hp. simpl. by rewrite <- Ep.
    - by rewrite list_lookup_alter_ne. }
  assert (length (n_proc k') = length (n_proc k)) as El by (unfold k'; simpl; by rewrite length_alter).
  assert (own i k' = Some (<[z := o']> ofs, Alive)) as Hoi' by (by rewrite Ho, decide_True).
  split_and!; [|intros j Hj _; by rewrite Ho, decide_False|done].
  split; [done|]. split; [by eexists|]. pose proof Hoi' as (p & Hp & Ep & Hph)%own_lookup.
  assert (forall j, j <> i -> own j k' = own j k) as Hne by (intros j Hj; by rewrite Ho, decide_False).
  eapply (counts_kcounts i p); [done..|by eapply around_own|]. rewrite Ep.
  pose proof (counts_insert ofs z o o' _ h _ Hz Hcn) as Hc'. eapply counts_hand in Hc'; [|exact Hh].
  destruct Hc' as [C1 C2 C3 C4 C5]. split; [done|done|..|done]; intros f; rewrite (others_own i f hs k k') by done; [apply C3|apply C4].
Qed.

(** Process [i] with its descriptors below [z] closed. *)
Definition closing (z : Z) (hs : nat -> hand) (k : kern) : Prop :=
  w_inv W hs none_held k /\ exists ofs, own i k = Some (ofs, Alive) /\ forall y, (y < Z.to_nat z)%nat -> ofs !! y = Some None.

Lemma safe_close_fd z hs k : 0 <= z < NOFILE -> closing z hs k -> safe W (fun _ => closing (z + 1)) hs k (close_fd kend i z k).
Proof.
  intros Hz (Hk & ofs & Hoi & Hn). unfold close_fd, bind at 1, gets. cbn [out_bind].
  destruct (getp_own _ _ _ _ Hoi) as [-> _]. destruct (inv_rest_fd i ofs hs none_held k Hk Hoi) as [HE Hc].
  destruct (lookup_lt_is_Some_2 ofs (Z.to_nat z)) as [o Ho].
  { rewrite (ct_ofile _ _ _ _ Hc). lia. }
  rewrite Ho. cbn [default from_option id]. destruct o as [f|].
  2:{ split; [done|]. split; [done|]. exists ofs. split; [done|]. intros y Hy.
      destruct (decide (y = Z.to_nat z)) as [->|]; [done|]. apply Hn. lia. }
  eapply (safe_seq W (fun _ hs' k' => w_inv W hs' (fun y => none_held y - one f y) k' /\ own i k' = Some (ofs, Alive))).
  - eapply safe_in_files; [done|done| |].
    + pose proof (fds_elem _ _ _ Ho). apply (fileclose_counts ofs f); [exact Hc| |unfold none_held; lia].
      eapply counts_valid; [exact Hc|]. unfold none_held. lia.
    + intros a hs' g' k' s HE' Hs. split; [by eapply rest_files|]. rewrite own_put_files. apply HE'.
  - intros [] hs' k' [Hk' Hoi']. destruct (inv_ofile (Z.to_nat z) (Some f) None hs' _ none_held k' ofs Hk' Hoi' Ho) as (H1 & H2 & H3).
    { intros x. rewrite names_Some, names_None. unfold none_held. lia. }
    split; [exact H2|]. split; [exact H1|]. eexists. split; [exact H3|]. intros y Hy.
    destruct (decide (y = Z.to_nat z)) as [->|].
    + apply list_lookup_insert_eq. by eapply lookup_lt_Some.
    + rewrite list_lookup_insert_ne by done. apply Hn. lia.
Qed.

(** The last part of kexit(): a zombie gives up the processor for ever. *)
Lemma zombie_safe (Q : unit -> (nat -> hand) -> kern -> Prop) hs k : n_cur k = Some i -> own i k = Some (blank, Gone) ->
  kcounts (upd i none_held hs) k ->
  safe (Wk true i) Q hs k ((lock_release L_wait_lock ;; sched ;; panic "zombie exit") k).
Proof.
  intros Hc Ho Hk. unfold lock_release, bind at 1. destruct (lget L_wait_lock k); [|done]. cbn [out_bind].
  set (k1 := lset L_wait_lock false k). assert (same k k1) as Hs by done.
  assert (kcounts (upd i none_held hs) k1) as Hk1 by (by eapply kcounts_same; [exact Hk|apply Hs..]).
  unfold bind, sched. do 4 (case_match; [done|]). cbn [out_bind]. split; [by intros j|]. left.
  split_and!; [done|done| |done]. by destruct (getp_own i k1 blank Gone).
Qed.

Lemma kexit_safe status (Q : unit -> (nat -> hand) -> kern -> Prop) hs k : w_inv W hs none_held k ->
  safe (Wk true i) Q hs k (kexit kend status k).
Proof.
  intros Hk. unfold kexit. apply safe_myproc; [apply Hk|]. apply (safe_seq_quiet i true) with none_held; [quiet|done|].
  intros init hs0 k0 Hk0 _. case_decide; [done|]. eapply (safe_seq (Wk true i)); [apply safe_end|].
  { apply (safe_for_range W closing (Z.to_nat NOFILE) 0).
    - intros z hs' k' Hz. apply safe_close_fd. lia.
    - destruct (inv_rest i [] hs0 none_held k0 Hk0) as (_ & _ & Hoi). split; [done|]. eexists. split; [exact Hoi|]. lia. }
  clear hs k Hk hs0 k0 Hk0. intros [] hs k (Hk & ofs & Hoi & Hn). assert (ofs = blank) as ->.
  { assert (length ofs = Z.to_nat NOFILE) as El.
    { destruct (inv_rest_fd i ofs hs none_held k Hk Hoi) as [_ Hc]. apply (ct_ofile _ _ _ _ Hc). }
    apply list_eq. intros y. destruct (decide (y < Z.to_nat NOFILE)%nat).
    - unfold blank. rewrite lookup_replicate_2 by done. apply Hn. lia.
    - rewrite !lookup_ge_None_2; [done|unfold blank; rewrite length_replicate; lia|lia]. }
  clear Hn.
  quiets Hk Hoi. unfold bind at 1. cbn [upd_proc modify out_bind]. destruct Hk as (Hc & _ & Hk).
  match goal with |- safe _ _ ?hs ?k (_ ?k') => apply (safe_from _ _ hs k k') end.
  { intros j Hj _. by rewrite (own_upd_state _ _ _ _ _ _ Hoi), decide_False. }
  apply zombie_safe; [done|by rewrite (own_upd_state _ _ _ _ _ _ Hoi), decide_True|].
  eapply kcounts_phase; [done..| |done]. intros f. by rewrite upd_eq.
Qed.

(** wait() reaps a zombie: it has no descriptors left. *)
Lemma reap_safe pp p addr hs h k : w_inv W hs h k -> p_state (getp pp k) = ZOMBIE ->
  safe W (fun _ hs' k' => w_inv W hs' h k' /\ own i k' = own i k) hs k
    ((let* ok := if negb (addr =? 0) then copyout_xstate kend p pp addr else ret true in
      if negb ok then lock_release (L_plock pp) ;; lock_release L_wait_lock ;; ret (@inr bool Z (-1))
      else
        freeproc kend pp ;;
        lock_release (L_plock pp) ;;
        lock_release L_wait_lock ;;
        ret (inr (p_pid (getp pp k)))) k).
Proof.
  intros Hk Hz. assert (own pp k = Some (p_ofile (getp pp k), Gone)) as Hpp.
  { unfold own, getp in *. destruct (n_proc k !! pp) as [q|]; simpl in *; [|done]. unfold phase_of. by rewrite Hz. }
  destruct (gone_blank pp hs h k _ Hk Hpp) as [Eb Hni]. rewrite Eb in Hpp.
  apply safe_still; [still|]. intros ok k1 Hs. destruct ok; cbn [negb].
  - eapply safe_freeproc; [done|by eapply same_inv|by rewrite (sm_own _ _ Hs)|done|]. intros k2 Hk2 Ho2.
    rewrite (sm_own _ _ Hs) in Ho2. assert (same k2 k2) as Hs2 by done. stills k2 Hs2. split; [done|].
    split; [by eapply same_inv|]. by rewrite (sm_own _ _ Hs2).
  - stills k Hs. split; [done|]. split; [by eapply same_inv|]. apply Hs.
Qed.

Lemma quiet_wait_scan n pp p addr hk : quiet i (wait_scan kend n pp p addr hk).
Proof.
  revert pp hk. induction n as [|n IH]; intros pp hk; cbn [wait_scan]; [apply quiet_ret|].
  apply quiet_bind; [quiet|]. intros c. case_decide; [|apply IH]. apply quiet_bind; [quiet|]. intros [] hs h k Hk.
  unfold bind at 1, gets. cbn [out_bind]. case_decide as Hz; [by apply reap_safe|].
  revert hs h k Hk Hz. intros hs h k Hk _. revert hs h k Hk. apply quiet_bind; [quiet|]. intros []. apply IH.
Qed.
Lemma quiet_kwait addr : quiet i (kwait kend addr).
Proof.
  assert (quiet i (sleep (ChProc i) L_wait_lock)) by by apply quiet_sleep.
  assert (forall n a, quiet i (wait_loop kend n i a)).
  { intros n. induction n; intros a; cbn [wait_loop]; (apply quiet_bind; [apply quiet_wait_scan|]); quiet. }
  unfold kwait. quiet.
Qed.

End life.
