(* ===== verification/FileCounts.v ===== *)
(** * Reference counts of open files: all processes

   Processes enter the kernel through usertrap(), with any system call, fault
   or interrupt, and forkret(); each runs until it sleeps, gives up the
   processor or returns, and then another goes on.  Whatever the order, the
   count of every struct file is the number of descriptors that name it
   whenever no process is inside the kernel.  What runs between two sleeps
   is one step: that ftable.lock keeps other processors out of it is the
   mutual exclusion of spin locks, which Spinlock.v proves. *)

From stdpp Require Import base numbers list gmap strings relations.
From Stdlib Require Import ZArith Lia.
From S2P Require Import Prelude Params Cmem KString Sleeplock UserMem Kalloc Vm Fs Pipe Console File Sysfile Kern Proc Exec.
From S2P Require Import Syscall Trap Tame FileRefs SysRefs KernRefs ProcRefs LifeRefs.

Section calls.
Context `{WakeBudget} (kend trampoline forkret_addr kernelvec uservec usertrap_addr : Z) (stack : list Z).
Context (plic_claim : M kern Z) (plic_complete : Z -> M kern unit) (virtio_disk_intr : M kern unit).
Context (initlog : Z -> superblock -> M (fs pmem) unit) (i : nat).

#[local] Existing Instance tr_user.
#[local] Existing Instance tr_pages.

Notation kexact := (kexact i).

Lemma kexact_quiet {A} (m : M kern A) : quiet i m -> kexact m.
Proof. intros Hm hs k Hk. apply safe_end. eapply safe_mono; [|by apply Hm]. by intros a hs' k' []. Qed.
Lemma kexact_bind {A B} (m : M kern A) (f : A -> M kern B) : kexact m -> (forall a, kexact (f a)) -> kexact (bind m f).
Proof. intros Hm Hf hs k Hk. eapply safe_seq; [apply _|by apply Hm|]. intros a hs' k' Hk'. by apply Hf. Qed.
Lemma kexact_myproc {A} (f : nat -> M kern A) : kexact (f i) -> kexact (bind myproc f).
Proof. intros Hf hs k Hk. apply safe_myproc; [apply Hk|]. by apply Hf. Qed.
Lemma kexact_call {A} (m : M (sys pmem) A) : exact_counts m -> kexact (call m).
Proof.
  intros Hm hs k Hk. apply safe_end. unfold call. assert (cur k = i) as -> by (unfold cur; by rewrite (proj1 Hk)).
  apply safe_as_process. unfold in_sys. apply safe_myproc; [apply Hk|]. eapply safe_seq_quiet; [|exact Hk|].
  { quiet. }
  intros args hs' k' Hk' _. by apply exact_sys.
Qed.
Lemma kexact_kexit status : kexact (kexit kend status).
Proof. intros hs k Hk. by apply kexit_safe. Qed.
Lemma kexact_kfork : kexact (kfork kend trampoline forkret_addr).
Proof. intros hs k Hk. apply safe_end. by apply kfork_safe. Qed.

Create HintDb kexact discriminated.
Hint Resolve kexact_kexit kexact_kfork : kexact.
Ltac kexact_step :=
  lazymatch goal with
  | |- forall _, _ => intros ?
  | |- LifeRefs.kexact _ (bind myproc _) => apply kexact_myproc
  | |- LifeRefs.kexact _ _ => first [solve [apply kexact_quiet; quiet] | solve [auto with kexact]
      | lazymatch goal with
        | |- LifeRefs.kexact _ (bind _ _) => apply kexact_bind
        | |- LifeRefs.kexact _ (match ?x with _ => _ end) => destruct x
        end]
  end.
Ltac kexact := repeat (kexact_step; cbn beta zeta).

(** Every system call of the table. *)
Lemma kexact_syscalls : Forall (fun o => match o with Some f => kexact f | None => True end)
  (syscalls kend trampoline forkret_addr stack).
Proof.
  assert (forall A (m : M (sys pmem) A), calm m -> kexact (call m)) as Hc.
  { intros A m Hm. by apply kexact_quiet, quiet_call. }
  unfold syscalls, sys_fork, sys_exit, sys_wait. repeat (apply Forall_cons; split); try apply Forall_nil_2; try done.
  - apply kexact_kfork.
  - kexact.
  - apply kexact_quiet. apply quiet_bind; [quiet|]. intros a. apply quiet_kwait.
  - apply kexact_call, exact_sys_pipe.
  - apply Hc. auto with calm.
  - kexact.
  - kexact.
  - apply Hc. auto with calm.
  - apply Hc. auto with calm.
  - apply kexact_call, exact_sys_dup.
  - kexact.
  - kexact.
  - kexact.
  - apply kexact_call, exact_sys_open.
  - apply Hc. auto with calm.
  - apply Hc. auto with calm.
  - apply Hc. auto with calm.
  - apply Hc. auto with calm.
  - apply Hc. auto with calm.
  - apply kexact_call, exact_sys_close.
Qed.

Lemma kexact_syscall : kexact (syscall kend trampoline forkret_addr stack).
Proof.
  unfold syscall. apply kexact_myproc. apply kexact_bind; [kexact|]. intros a7.
  destruct (if (i32 a7 >? 0) && _ then _ else None) as [[f|]|] eqn:E; [|kexact..].
  apply kexact_bind; [|kexact]. destruct (_ && _); [|done].
  pose proof kexact_syscalls as HF. rewrite Forall_lookup in HF. by apply (HF _ _ E).
Qed.
Hint Resolve kexact_syscall : kexact.

Lemma kexact_usertrap : quiet i plic_claim -> (forall z, quiet i (plic_complete z)) -> quiet i virtio_disk_intr ->
  kexact (usertrap kend trampoline forkret_addr kernelvec uservec usertrap_addr stack plic_claim plic_complete virtio_disk_intr).
Proof.
  intros H1 H2 H3. pose proof (quiet_devintr i plic_claim plic_complete virtio_disk_intr H1 H2 H3). unfold usertrap, csr, intr_on.
  kexact.
Qed.
Lemma kexact_forkret : (forall d sb, Tame true (initlog d sb)) ->
  kexact (forkret kend trampoline uservec usertrap_addr stack initlog).
Proof.
  intros Hi. unfold forkret. apply kexact_quiet. quiet. by apply tame_fsinit.
Qed.
End calls.

(* ------------------------------------------------------------------ *)
(** ** The system *)

(** The kernel, and the processes that are inside it: what is left of their
    calls. *)
Record system := System { s_kern : kern; s_calls : gmap nat (kern -> out kern Z) }.

(** What a stretch of process [i]'s call leaves behind.  A zombie's call is
    never resumed; a panic stops the machine. *)
Definition settle (i : nat) (o : out kern Z) (T : gmap nat (kern -> out kern Z)) : option system :=
  match o with
  | Ok _ k => Some (System k (delete i T))
  | Sleep _ k r => Some (System k (if decide (phase_of (getp i k) = Gone) then delete i T else <[i := r]> T))
  | Panic _ | Diverge => None
  end.

(** Everything else that happens while no process runs kernel code: the
    scheduler, locks, devices and user programs do not touch the table of
    files and the descriptors, and start or end no process. *)
Definition idle_step (k k' : kern) : Prop :=
  k_file (n_files k') = k_file (n_files k) /\ forall j, own j k' = own j k.

(** The counts when no process is inside the kernel. *)
Record counted (k : kern) : Prop := Counted {
  cn_files : length (k_file (n_files k)) = Z.to_nat NFILE;
  cn_procs : length (n_proc k) = Z.to_nat NPROC;
  cn_ref f : fref f (n_files k) = zsum (map (fun p => fds f (p_ofile p)) (n_proc k));
  cn_ofile j p : n_proc k !! j = Some p -> length (p_ofile p) = Z.to_nat NOFILE;
  cn_gone j p : n_proc k !! j = Some p -> phase_of p = Gone -> p_ofile p = blank
}.

Definition nobody : nat -> hand := fun _ => none_held.

Lemma kcounts_ext hs hs' k : (forall j f, hs' j f = hs j f) -> kcounts hs k -> kcounts hs' k.
Proof.
  intros E [H1 H2 H3 H4 H5 H6 H7]. split; try done.
  - intros f. rewrite H3. unfold total, shares. f_equal. apply imap_ext. intros j p _. by rewrite E.
  - intros j p f Hj. rewrite E. by apply H5.
  - intros j p f Hj Hp. rewrite E. by eapply H7.
Qed.
Lemma counted_kcounts k : counted k <-> kcounts nobody k.
Proof.
  assert (forall f, shares f nobody (n_proc k) = map (fun p => fds f (p_ofile p)) (n_proc k)) as Es.
  { intros f. unfold shares. rewrite <- imap_const. apply imap_ext. intros j p _. unfold nobody, none_held. simpl. lia. }
  split.
  - intros [H1 H2 H3 H4 H5]. split; try done.
    + intros f. rewrite H3. unfold total. by rewrite Es.
    + intros j p f Hj. pose proof (fds_range f (p_ofile p)) as Hr. rewrite (H4 j p Hj) in Hr.
      unfold nobody, none_held, NOFILE in *. lia.
  - intros [H1 H2 H3 H4 H5 H6 H7]. split; try done. intros f. rewrite H3. unfold total. by rewrite Es.
Qed.

Section system.
Context `{WakeBudget} (kend trampoline forkret_addr kernelvec uservec usertrap_addr : Z) (stack : list Z).
Context (plic_claim : M kern Z) (plic_complete : Z -> M kern unit) (virtio_disk_intr : M kern unit).
Context (initlog : Z -> superblock -> M (fs pmem) unit).

(** How a process comes into the kernel. *)
Definition entry (first : bool) : M kern Z :=
  if first then forkret kend trampoline uservec usertrap_addr stack initlog
  else usertrap kend trampoline forkret_addr kernelvec uservec usertrap_addr stack plic_claim plic_complete virtio_disk_intr.

(** The code process [i] runs next. *)
Definition next_code (first : bool) (i : nat) (s : system) : M kern Z :=
  match s_calls s !! i with Some r => r | None => entry first end.

Inductive system_step : system -> system -> Prop :=
| step_run first i k T s' :
    p_state (getp i k) = RUNNING ->
    settle i (next_code first i (System k T) (set_cur (Some i) k)) T = Some s' ->
    system_step (System k T) s'
| step_idle k k' T : idle_step k k' -> system_step (System k T) (System k' T).

(** What a call that is inside the kernel has promised. *)
Definition waiting (hs : nat -> hand) (k : kern) (i : nat) (r : kern -> out kern Z) : Prop :=
  exists ofs, own i k = Some (ofs, Alive) /\
    forall hs' k', n_cur k' = Some i -> own i k' = Some (ofs, Alive) -> kcounts (upd i (hs i) hs') k' ->
      safe (Wk true i) (fun _ hs2 k2 => w_inv (Wk false i) hs2 none_held k2) hs' k' (r k').
Record sinv (hs : nat -> hand) (s : system) : Prop := SInv {
  si_counts : kcounts hs (s_kern s);
  si_out j f : s_calls s !! j = None -> hs j f = 0;
  si_in j r : s_calls s !! j = Some r -> waiting hs (s_kern s) j r
}.

Context (Hclaim : forall i, quiet i plic_claim) (Hcomplete : forall i z, quiet i (plic_complete z))
  (Hdisk : forall i, quiet i virtio_disk_intr) (Hlog : forall d sb, Tame true (initlog d sb)).

(** The stretch a process runs is safe. *)
Lemma run_safe first i hs s : sinv hs s -> p_state (getp i (s_kern s)) = RUNNING ->
  safe (Wk true i) (fun _ hs2 k2 => w_inv (Wk false i) hs2 none_held k2) hs (set_cur (Some i) (s_kern s))
    (next_code first i s (set_cur (Some i) (s_kern s))).
Proof.
  intros [Hk Ho Hi] Hst. destruct s as [k T]. simpl in *. set (k1 := set_cur (Some i) k).
  assert (kcounts (upd i (hs i) hs) k1) as Hk1.
  { eapply kcounts_ext; [|by eapply kcounts_same; [exact Hk|..]]. intros j f. unfold upd. by case_decide; subst. }
  assert (exists ofs, own i k1 = Some (ofs, Alive)) as [ofs Hoi].
  { unfold own, getp in *. simpl. destruct (n_proc k !! i) as [p|]; simpl in *; [|done]. eexists. unfold phase_of. by rewrite Hst. }
  unfold next_code. simpl. destruct (T !! i) as [r|] eqn:Er.
  - destruct (Hi i r Er) as (ofs' & Hoi' & Hr). apply Hr; [done| |done]. exact Hoi'.
  - assert (w_inv (Wk false i) hs none_held k1) as Hinv.
    { split; [done|]. split; [by exists ofs|]. eapply kcounts_ext; [|exact Hk1]. intros j f. unfold upd.
      case_decide; [subst|done]. by rewrite Ho. }
    destruct first; [by apply kexact_forkret|by apply kexact_usertrap].
Qed.

Lemma waiting_other i h hs k k' j r : j <> i -> own j k' = own j k -> waiting hs k j r -> waiting (upd i h hs) k' j r.
Proof. intros Hj Ho (ofs & E & Hr). exists ofs. split; [by rewrite Ho|]. by rewrite upd_ne. Qed.

(** Another process's share of the invariant after a stretch of [i]. *)
Lemma others_wait i h hs k k' T : w_guar (Wk true i) (set_cur (Some i) k) k' -> sinv hs (System k T) ->
  (forall j f, delete i T !! j = None -> upd i none_held hs j f = 0) /\
  (forall j r, j <> i -> T !! j = Some r -> waiting (upd i h hs) k' j r).
Proof.
  intros Hg [Hk Ho Hi]. simpl in *. split.
  - intros j f Hj. unfold upd. case_decide; [done|]. apply Ho. by rewrite lookup_delete_ne in Hj.
  - intros j r Hj Hr. eapply waiting_other; [done| |by apply Hi]. destruct (Hi j r Hr) as (ofs & Eo & _).
    apply Hg; [done|]. by exists ofs.
Qed.

Lemma settle_inv i o hs k T s' :
  safe (Wk true i) (fun _ hs2 k2 => w_inv (Wk false i) hs2 none_held k2) hs (set_cur (Some i) k) o ->
  sinv hs (System k T) -> settle i o T = Some s' -> exists hs', sinv hs' s'.
Proof.
  intros Hs Hinv E. destruct o as [a k'|msg|c k' r|]; simpl in *; simplify_eq.
  - destruct Hs as [Hg (_ & _ & Hk')]. exists (upd i none_held hs).
    destruct (others_wait i none_held hs k k' T Hg Hinv) as [H1 H2]. split; [done|done|].
    intros j r Hj. simpl in Hj. apply lookup_delete_Some in Hj as [? ?]. by apply H2; auto.
  - destruct Hs as [Hg [(_ & _ & Hp & Hk')|(h & (Hc & Ha & Hk') & Hr)]].
    + exists (upd i none_held hs). rewrite decide_True by done.
      destruct (others_wait i none_held hs k k' T Hg Hinv) as [H1 H2]. split; [done|done|].
      intros j r' Hj. simpl in Hj. apply lookup_delete_Some in Hj as [? ?]. by apply H2; auto.
    + destruct Ha as [ofs Ha]. rewrite decide_False by (by destruct (getp_own i k' ofs Alive Ha) as [_ ->]).
      exists (upd i h hs). destruct (others_wait i h hs k k' T Hg Hinv) as [H1 H2]. split; [done|..].
      * intros j f Hj. simpl in Hj. apply lookup_insert_None in Hj as [Hj Hne]. specialize (H1 j f).
        rewrite lookup_delete_ne, upd_ne in H1 by done. rewrite upd_ne by done. by apply H1.
      * intros j r' Hj. simpl in Hj. destruct (decide (j = i)) as [->|Hne].
        -- rewrite lookup_insert_eq in Hj. simplify_eq. exists ofs. split; [done|]. rewrite upd_eq. intros hs2 k2 Hc2 Ho2 Hk2.
           apply Hr; [by rewrite Ho2|]. split; [done|]. split; [by exists ofs|done].
        -- rewrite lookup_insert_ne in Hj by done. by apply H2; auto.
Qed.

Lemma sinv_step hs s s' : sinv hs s -> system_step s s' -> exists hs', sinv hs' s'.
Proof.
  intros Hinv Hs. destruct Hs as [first i k T s' Hst E|k k' T [Ef Eo]].
  - eapply settle_inv; [|done|exact E]. by apply (run_safe first i hs (System k T)).
  - exists hs. destruct Hinv as [Hk Ho Hi]. simpl in *. split; [by eapply kcounts_same|done|].
    intros j r Hj. destruct (Hi j r Hj) as (ofs & E & Hr). exists ofs. split; [simpl; by rewrite Eo|done].
Qed.

Lemma sinv_reach s s' : (exists hs, sinv hs s) -> rtc system_step s s' -> exists hs, sinv hs s'.
Proof. intros Hs Hr. induction Hr as [|s1 s2 s3 H12 _ IH]; [done|]. apply IH. destruct Hs as [hs Hs]. by eapply sinv_step. Qed.

(** The descriptors that name [f], with [c] for each process inside the
    kernel in the place of its own. *)
Definition outside_fds (c : Z) (f : nat) (s : system) : Z :=
  zsum (imap (fun j p => match s_calls s !! j with None => fds f (p_ofile p) | Some _ => c end) (n_proc (s_kern s))).

Lemma zsum_le l l' : Forall2 Z.le l l' -> zsum l <= zsum l'.
Proof. induction 1; unfold zsum in *; cbn [foldr]; lia. Qed.

Lemma outside_total f hs s : sinv hs s ->
  outside_fds 0 f s <= total f hs (n_proc (s_kern s)) <= outside_fds (NOFILE + 2) f s.
Proof.
  intros Hs. assert (forall j p, n_proc (s_kern s) !! j = Some p ->
    match s_calls s !! j with None => hs j f = 0 | Some _ => 0 <= fds f (p_ofile p) + hs j f <= NOFILE + 2 end) as Hj.
  { intros j p Hp. destruct (s_calls s !! j) eqn:E; [by apply (kc_share _ _ (si_counts _ _ Hs))|by apply (si_out _ _ Hs)]. }
  unfold outside_fds, total, shares.
  split; apply zsum_le, Forall2_same_length_lookup_2; rewrite ?length_imap; try done;
    intros j x y Hx Hy; apply list_lookup_imap_Some in Hx as (p & Hp & ->), Hy as (p' & Hp' & ->); simplify_eq;
    specialize (Hj _ _ Hp); destruct (s_calls s !! j); lia.
Qed.

(** C4.  Processes enter the kernel with any trap, system call, fork or exit,
    and run there one at a time, each from one sleep or yield to the next,
    in any order.  From a kernel with exact counts and nobody inside, when
    nobody is inside again every count is the number of descriptors that
    name the file.  At any time between, the count of a file is at least the
    number of descriptors that name it in processes outside the kernel, and
    more by at most NOFILE + 2 for each process inside, whose call may be
    between the change of a count and the change of a descriptor (kexit()
    may sleep in fileclose() with the count already lowered).  Whoever runs
    next does not panic in filedup() or fileclose(). *)
Theorem file_counts_exact k0 k T : counted k0 -> rtc system_step (System k0 ∅) (System k T) ->
  (T = ∅ -> counted k) /\
  (forall f, outside_fds 0 f (System k T) <= fref f (n_files k) <= outside_fds (NOFILE + 2) f (System k T)) /\
  (forall first i msg, p_state (getp i k) = RUNNING ->
     next_code first i (System k T) (set_cur (Some i) k) = Panic msg -> msg <> "filedup" /\ msg <> "fileclose").
Proof.
  intros H0 Hr. assert (sinv nobody (System k0 ∅)) as Hs0.
  { split; [by apply counted_kcounts|done|]. intros j r. simpl. by rewrite lookup_empty. }
  destruct (sinv_reach _ _ (ex_intro _ nobody Hs0) Hr) as [hs Hs].
  split_and!.
  - intros ->. apply counted_kcounts. eapply kcounts_ext; [|apply Hs]. intros j f. symmetry. by eapply (si_out _ _ Hs).
  - intros f. rewrite (kc_ref _ _ (si_counts _ _ Hs)). by apply (outside_total f hs (System k T)).
  - intros first i msg Hst E. pose proof (run_safe first i hs (System k T) Hs Hst) as Hsafe. cbn [s_kern] in Hsafe. rewrite E in Hsafe. exact Hsafe.
Qed.

End system.

(* ------------------------------------------------------------------ *)
(** ** A run: dup(0) of a process with one open file *)

Module Run.
Definition tf_page : list Z := st64 112 0 (st64 168 10 (replicate 4096 0)).
Definition tf_addr : Z := KERNBASE + PGSIZE.
Definition init : proc :=
  Proc false RUNNING None 0 0 1 None (KSTACK 0) 0 0 tf_addr (replicate 14 0) (Some 0%nat :: replicate 15 None) (Some 0%nat)
    (replicate 16 0).
Definition files0 : fstate unit :=
  FState (Fs (Superblock 0 0 0 0 0 0 0 0) (BlocksSt ∅ [] [] 0) false [] 0 0 tt []) false
    (File FD_DEVICE 1 true true 0 0 0 CONSOLE :: replicate 99 file0) ∅ [] (CState cons0 tt [] false false [] [] [] []) [].
Definition kern0 : kern :=
  Kern (Kmem false 0 {[tf_addr := tf_page]}) files0 (init :: replicate 63 proc0) false false 2 (Some 0%nat) None false 0 false false
    (Csrs 0 0 8 0 0 0 0 0 0).
Definition dup_trap : out kern Z :=
  @entry 0%nat 0 0 0 0 0 0 [] (ret 0) (fun _ => ret tt) (ret tt) (fun _ _ => ret tt) false (set_cur (Some 0%nat) kern0).

Lemma kern0_counted : counted kern0.
Proof.
  split; [done|done|..].
  - intros f. unfold kern0, files0, fref, getf. cbn [n_files k_file n_proc map].
    assert (forall n, zsum (map (fun p => fds f (p_ofile p)) (replicate n proc0)) = 0) as E.
    { intros n. induction n as [|n IH]; [done|]. cbn [replicate map]. unfold zsum in *. cbn [foldr]. rewrite IH.
      change (p_ofile proc0) with (replicate (Z.to_nat NOFILE) (@None nat)). by rewrite fds_replicate. }
    unfold zsum in *. cbn [foldr]. rewrite E.
    unfold init. cbn [p_ofile fds]. rewrite fds_replicate. remember (replicate 99 file0) as l eqn:El.
    destruct f as [|f]; [done|]. rewrite decide_False by done. simpl. subst l.
    destruct (decide (f < 99)%nat); [by rewrite lookup_replicate_2|by rewrite lookup_ge_None_2 by (rewrite length_replicate; lia)].
  - intros [|j] p; [by intros [= <-]|]. intros [-> _]%lookup_replicate. done.
  - intros [|j] p; [by intros [= <-]|]. intros [-> _]%lookup_replicate. done.
Qed.
End Run.

Lemma file_counts_exact_witness : exists k,
  rtc (@system_step 0%nat 0 0 0 0 0 0 [] (ret 0) (fun _ => ret tt) (ret tt) (fun _ _ => ret tt))
    (System Run.kern0 ∅) (System k ∅) /\
  fref 0 (n_files k) = 2 /\ counted k.
Proof.
  assert (match Run.dup_trap with Ok _ k => fref 0 (n_files k) =? 2 | _ => false end = true) as E by (vm_compute; reflexivity).
  destruct Run.dup_trap as [a k|msg|c k r|] eqn:Er; cbn beta iota in E; [|discriminate E..]. exists k.
  assert (rtc (@system_step 0%nat 0 0 0 0 0 0 [] (ret 0) (fun _ => ret tt) (ret tt) (fun _ _ => ret tt))
    (System Run.kern0 ∅) (System k ∅)) as Hr.
  { apply rtc_once. apply (step_run _ _ _ _ _ _ _ _ _ _ _ false 0); [done|]. unfold next_code. simpl.
    rewrite lookup_empty. change (settle 0 Run.dup_trap ∅ = Some (System k ∅)). rewrite Er. done. }
  split; [exact Hr|]. split; [by apply Z.eqb_eq|].
  eapply (file_counts_exact (H := 0%nat)); [..|exact Hr|done]; try (intros; apply quiet_ret).
  - by intros d sb s.
  - apply Run.kern0_counted.
Defined.
